(* ===== verification/_CoqProject ===== *)
-Q . S2P
Prelude.v
F32.v
Core.v
TensorWire.v
Frame.v
Connection.v
Election.v
Backend.v
TurboQuant.v
BlockTables.v
BlockWrite.v
PagedCache.v
QuantizedCache.v
KvCache.v
Kernels.v
Cuda.v
CudaLaws.v
CudaSpec.v
CudaMemory.v
CacheIface.v
BatchScheduler.v
LayerScheduler.v
SchedulerTotal.v
Registry.v
SeqState.v
DistPipeline.v
Rebalance.v
Sampling.v
SchedulerLoop.v
Generation.v
Gguf.v
WeightStore.v
Transformer.v
Engine.v
Batched.v
Contiguous.v
Pipeline.v
LoopEngines.v
Worker.v
WorkerLoop.v
WorkerForward.v
Ipc.v
DistLoop.v
LoopMemory.v
DistLoopSpec.v
DistLoopRun.v
Dashboard.v
Http.v
Coordinator.v
EnvConfig.v
