(* ===== verification/Prelude.v ===== *)
(** * Fracture: a verification development

    Fracture serves large language models from one GPU or from several machines
    that each hold some of the transformer's layers.  This library models its
    Rust sources (under [src/]) as executable definitions and proves what makes
    them correct.

    ** The program and the files that model it

    A request reaches the server, which keeps an iteration-level batch scheduler
    and a KV cache on the device, runs forward passes of an engine and samples
    tokens from the logits.  In the distributed setting a coordinator assigns
    layer ranges to workers, sends activations from one to the next over framed
    connections, watches heartbeats, rebalances when workers come and go, and an
    election picks the coordinator.

    - Shared: [Prelude] (results, checked machine arithmetic, state passing,
      tactics), [F32] (binary32 and binary64), [Core] ([fracture-core]: tensors,
      configuration, TurboQuant parameters).
    - The device: [Backend] (memory operations of the [Backend] trait), [Kernels]
      (its compute operations and timers, and the program logic [runs]).  Both
      are classes over an abstract device state [D] with laws; [SimDevice] is an
      instance that evaluates.
    - The CUDA backend ([backends/fracture-cuda/src]): [Cuda] (registry, methods,
      launch arguments, timers, drop), [CudaLaws] (what CUDA and cuBLAS document,
      and a simulated device), [CudaSpec] (what the backend owns), [CudaMemory]
      (the store of tensors it implements, and its matrix products).
    - Caches ([fracture-engine]): [BlockTables], [BlockWrite] and [PagedCache]
      ([paged_kv_cache.rs]), [TurboQuant] (codebooks and rotations),
      [QuantizedCache] ([quantized_paged_kv_cache.rs]), [KvCache] ([kv_cache.rs]);
      [CacheIface] is the [PagedCache] trait as a class, with both paged caches as
      instances.
    - Weights ([fracture-gguf]): [Gguf] ([parser.rs]), [WeightStore]
      ([weight_store.rs]).
    - Forward passes ([engine.rs], [batched.rs], [node.rs], [pipeline.rs]):
      [Transformer] (the kernels of a layer, and the reference transformer on
      rows), [Engine] (over paged caches), [Batched], [Contiguous] (with the
      profiler), [Pipeline] (chains of nodes).
    - Serving: [BatchScheduler] ([scheduler.rs]), [Sampling] and [Generation]
      ([fracture-generate]), [SchedulerLoop] ([fracture-server]);
      [LoopEngines] shows that the forward passes meet the interfaces the loops
      are proved against.
    - Distribution: [Frame], [TensorWire], [Connection] ([fracture-protocol]),
      [Election] ([fracture-election]), [LayerScheduler], [SchedulerTotal] (when
      the scheduler cannot panic), [Registry], [SeqState], [DistPipeline],
      [Rebalance] ([fracture-coordinator]).
    - The worker process ([fracture-worker-cuda/src/main.rs]): [Worker] (its
      state, the handlers of the serve loop, and the abstract worker they
      implement), [WorkerLoop] (the router, the serve loop and the signal handler
      as interleaved steps, discovery, reconnection, reconstruction of the
      coordinator's state, calibration), [WorkerForward] (what a worker computes
      when it is asked for a forward pass, and chains of workers).
    - [Ipc] ([fracture-engine/src/ipc.rs]): nodes in other processes, over Unix
      sockets.
    - The coordinator's loop ([fracture-coordinator-cuda/src/distributed_loop.rs]):
      [DistLoop] (one definition per part of the loop body, over an environment
      per iteration), [LoopMemory] (the memory the registered workers report,
      which bounds the scheduler's sums), [DistLoopSpec] (where a request can be,
      the invariant, the shape of batches), [DistLoopRun] (totality, runs,
      progress).
    - The outside of the two servers: [Http] ([fracture-server]: the request
      handlers of the batched and of the sequential server), [Coordinator]
      ([fracture-coordinator-cuda]: acceptance of workers and assignment of layers
      at start-up, the sequential handler over the pipeline, reconnection, the
      administration interface), [Dashboard] (request log, metrics, cluster and
      scheduler views), [EnvConfig] (environment, configuration file and flags).

    A struct is a record or an inductive type with the source's constructors, a
    method one definition of the same name (prefixed where two types share a
    name).  Code with side effects is a function of type [st S A], from a state
    to a state and a [result]: a value, a [FractureError], or [Panic] for an
    index out of range, an unwrap of nothing or an arithmetic overflow.  Integers
    are [Z] or [nat] with the checked operations of [Prelude]; the model is of a
    build with overflow checks and debug assertions (the one of the quantized
    cache's [free_block] is a [Panic]).  Locks are part of the state where a panic can
    poison them.  Hash-map iteration orders, clocks, random numbers, the
    completion order of parallel tasks and the external crates (bincode, crc32c,
    half, libm) are arguments or classes.

    ** What the theorems show

    - Caches: a block is free or in exactly one table whatever operations run
      ([block_ownership]); appended keys and values are read back at their
      positions and nothing else changes ([append_layers_refines],
      [q_append_spec]); the contiguous cache owns exactly its tensors
      ([kv_ownership]); creation and destruction of the quantized cache
      ([q_new_spec]) and its tables ([codebook_tables_spec],
      [rotation_matrix_spec]).
    - The CUDA backend: as long as no call of the driver fails nothing is leaked,
      and dropping it frees everything ([cuda_ownership]); its memory operations
      are those of a store of tensors ([cuda_store_refines]); its call of cuBLAS
      is the product with the transpose, by rows ([cuda_matmul_spec]; the
      [Backend] trait's comment describes another layout).
    - Forward passes: every pass computes the reference transformer
      ([forward_node_paged_spec], [forward_node_spec],
      [batched_forward_spec], [batched_forward_node_spec]); a pipeline computes
      what the whole model does ([coordinator_forward_spec]); the contiguous and
      the paged cache are interchangeable ([contiguous_paged_agree]).
    - Serving: the scheduler respects its limits and hands out the right jobs
      ([schedule_within_limits], [schedule_jobs]); the server leaks no blocks
      ([server_no_leak]); generation gives the cache back, terminates within its
      token limit and decodes at consecutive positions; sampling never fails on
      usable logits.
    - Distribution: frames and streams round-trip, for payloads the receiver
      accepts; layer assignments cover the model without overlap
      ([schedule_sound]), redistribution succeeds, and the scheduler does not
      panic when the byte counts fit a [usize] ([schedule_no_panic]); the
      pipeline chains
      activations in order and keeps the workers' streams in step; an election
      round elects the best node, while two leaders of one term are reachable in
      general ([split_brain_reachable]); rebalancing, registry order, sequence
      life cycles.
    - The worker: in every interleaving of its tasks it answers exactly what the
      abstract worker does, in order, and its two caches hold the same sequences
      ([worker_refines_spec]); reconnection keeps its state unless a coordinator
      reconfigures it, and announces it ([reconnect_spec]); the coordinator's forward pass over a chain of workers
      with a device each returns the logits of the whole model
      ([distributed_forward_spec]).
    - Nodes behind a socket compute what local nodes do, on their own device
      ([ipc_forward_spec]).
    - The coordinator's loop: it does not panic on byte counts that fit a
      [usize], every request waits, is served or has been told its end, and no cache is left without its sequence
      ([distributed_loop_invariant]); batches respect the limits and feed each
      sequence consecutive tokens ([distributed_batch_spec]); without new
      requests, everything it holds is brought to an end, whatever the workers
      answer ([distributed_loop_drains]).
    - The servers: every request without streaming to the coordinator's batched
      server is answered, with the tokens generated for it or the loop's error
      ([batched_service]); a sequential one that does not panic is answered and
      gives the cache back ([sequential_answer]); the coordinator's sequential
      generation is the local generation over the pipeline's forward pass
      ([wire_generation]) and ends with its sequence removed from the
      coordinator's books ([distributed_generate_ends]); the wait
      for workers ends once enough have registered ([acceptance_ends]), and a
      start-up that succeeds has a pipeline that covers the model
      ([startup_sound]).
    - Monitoring and configuration: a metrics sample counts the window it names
      ([metrics_sample]), pages of the request log ([request_log_pages]); a
      configuration file gives exactly the settings it holds
      ([config_roundtrip]).
    - Parsing: the GGUF parser returns exactly what the bytes say, and the
      weights end up on the device in the order the engine expects.

    Some theorems state defects of the code as it is (for instance
    [first_decode_skips_a_position], [alloc_rollback_leaks]).

    ** Hypotheses

    Tensor handles are used with the shape of their allocation, or a view with
    the same number of rows ([t_valid]).  A kernel's law applies to the shapes
    the CUDA backend accepts; [b_failed] marks a device that has reported an
    error, so that a theorem about a pass reads: it succeeds with this result or
    the device failed.  What a kernel computes of a row is a function of the
    class; nothing is assumed of it.

    A byte stream is finite: a read returns bytes or the end of the stream, so
    a peer that stays connected and says nothing is not represented.  The
    sources read without a time limit in most places (the forward pass, cache
    allocation, registration, reconnection), and such a peer blocks them; the
    theorems that say something ends suppose that every peer answers or hangs up.
    The codec ([bincode]) is a class; where a theorem excludes panics it supposes
    that the codec returns errors instead ([codec_total]).  The distributed loop
    and the batched service moreover suppose that the bytes of the model and the
    memory reported by all registered workers fit a [usize] ([sizes_fit],
    [memory_ok]); [auto_memory_sum_panics] shows that the scheduler needs it.
    The steps of [forced_rebalance] run without other tasks between them, while
    the source releases the registry's lock after each; the loop's own accesses
    to the registry are separated by arbitrary changes ([ev_others]).

    ** Fuel

    Loops that are not structural have fuel that their theorems show to be
    enough: [grow] takes one step per new token, the copy loop of [append_kv]
    advances at least one row per step and has one unit per row and one more,
    the receive loops consume at least a header of the stream per frame, the
    pruning of slow nodes removes one node per round, the metadata reader
    consumes at least a byte per value.  [lloyd_loop] has the source's own bound
    of 200 rounds.

    ** Not modelled

    Error messages are abbreviated to their fixed text.  Stack depth, host
    memory and the profiler's markers are left out.  The CUDA
    runtime, cuBLAS and the kernels are not part of the Rust sources: [CudaLaws]
    states what the backend relies on of the first two, and what a kernel computes
    is a function of the class in [Kernels].  That class is what the engine
    expects of any backend; it has no counterpart for a driver that fails to free
    or to copy, which [CudaSpec] and [CudaMemory] treat; and its rotation of
    queries and keys uses the [theta] it is given, where the CUDA backend takes
    the frequencies from the table computed by [precompute_rope_freqs] for the
    model's [theta].  The programs' [main] functions, the
    routing tables, the encoding of JSON bodies, the static pages, sockets and
    timers are wiring around the parts above and libraries. *)

From Stdlib Require Import ZArith Lia.
From stdpp Require Export base gmap list strings numbers sorting.

(** ** Scope and hint databases of the development *)

Declare Scope fracture_scope.
Delimit Scope fracture_scope with fracture.

Create HintDb fracture discriminated.

(** ** Errors ([fracture_core::FractureError])

    The message of a variant is abbreviated to the fixed text that identifies
    the error; the interpolated values of [format!] are left out. *)

Inductive FractureError : Type :=
  | Backend (msg : string)
  | OutOfMemory (requested available : Z)
  | InvalidShape (msg : string)
  | TensorNotFound (msg : string)
  | ModelConfigError (msg : string)
  | GgufParse (msg : string)
  | WeightLoad (msg : string)
  | KvCache (msg : string)
  | Generation (msg : string)
  | Tokenizer (msg : string)
  | Server (msg : string)
  | Pipeline (msg : string)
  | Protocol (msg : string)
  | UnsupportedDType (msg : string)
  | Io (msg : string).

#[export] Instance FractureError_eq_dec : EqDecision FractureError.
Proof. solve_decision. Defined.

(** ** Results

    A Rust computation returns [Ok], returns [Err], or panics (an index or a
    slice out of range, an [unwrap] of [None], a failed [assert!], an
    arithmetic overflow under overflow checks). *)

Inductive result (A : Type) : Type :=
  | Ok (a : A)
  | Err (e : FractureError)
  | Panic.
Arguments Ok {A} a.
Arguments Err {A} e.
Arguments Panic {A}.

Definition rbind {A B : Type} (m : result A) (k : A → result B) : result B :=
  match m with
  | Ok a => k a
  | Err e => Err e
  | Panic => Panic
  end.

Definition rmap {A B : Type} (f : A → B) (m : result A) : result B :=
  rbind m (λ a, Ok (f a)).

Notation "'let?' x ':=' m 'in' k" := (rbind m (λ x, k))
  (at level 10, x pattern, m at level 100, k at level 200) : fracture_scope.

Open Scope fracture_scope.

Definition is_ok {A : Type} (m : result A) : bool :=
  match m with Ok _ => true | _ => false end.

Definition is_err {A : Type} (m : result A) : bool :=
  match m with Err _ => true | _ => false end.

Lemma rbind_Ok {A B : Type} (m : result A) (k : A → result B) (b : B) :
  rbind m k = Ok b ↔ ∃ a, m = Ok a ∧ k a = Ok b.
Proof. destruct m; naive_solver. Qed.

Lemma rbind_Err {A B : Type} (m : result A) (k : A → result B) (e : FractureError) :
  rbind m k = Err e ↔ m = Err e ∨ ∃ a, m = Ok a ∧ k a = Err e.
Proof. destruct m; naive_solver. Qed.

Lemma rbind_no_panic {A B : Type} (m : result A) (k : A → result B) :
  m ≠ Panic → (∀ a, m = Ok a → k a ≠ Panic) → rbind m k ≠ Panic.
Proof. destruct m; naive_solver. Qed.
#[export] Hint Resolve rbind_no_panic : fracture.

(** Iterating a fallible function over a list: [iter().map(f).collect::<Result<_>>()]. *)
Fixpoint rmapM {A B : Type} (f : A → result B) (l : list A) : result (list B) :=
  match l with
  | [] => Ok []
  | x :: l' => let? y := f x in let? ys := rmapM f l' in Ok (y :: ys)
  end.

Lemma rmapM_Ok {A B : Type} (f : A → result B) (l : list A) (ys : list B) :
  rmapM f l = Ok ys ↔ Forall2 (λ x y, f x = Ok y) l ys.
Proof.
  revert ys. induction l as [|x l IH]; intros ys; simpl.
  - split; [intros [= <-]; constructor | by inversion 1].
  - rewrite rbind_Ok. setoid_rewrite rbind_Ok. split.
    + intros (y & Hy & zs & Hzs & [= <-]). constructor; [done | by apply IH].
    + inversion 1; subst. eexists; split; [done |]. eexists; split; [by apply IH | done].
Qed.

Lemma rmapM_no_panic {A B : Type} (f : A → result B) (l : list A) :
  (∀ x, x ∈ l → f x ≠ Panic) → rmapM f l ≠ Panic.
Proof.
  induction l as [|x l IH]; intros Hf; simpl; [done |].
  apply rbind_no_panic; [apply Hf; left | intros y _].
  apply rbind_no_panic; [apply IH; intros; apply Hf; by right | done].
Qed.

(** A loop whose body can fail: [for x in l { s = f(x, s)?; }] *)
Fixpoint rfold {A S : Type} (f : A → S → result S) (l : list A) (s : S) : result S :=
  match l with
  | [] => Ok s
  | x :: l' => let? s := f x s in rfold f l' s
  end.

Lemma rfold_app {A S : Type} (f : A → S → result S) l1 l2 s :
  rfold f (l1 ++ l2) s = rbind (rfold f l1 s) (rfold f l2).
Proof. revert s. induction l1 as [|x l1 IH]; intros s; simpl; [done |]. destruct (f x s); [apply IH | done | done]. Qed.

(** A fold of folds is a fold over the joined list. *)
Lemma rfold_join {A B S : Type} (f : B → S → result S) (F : A → S → result S) (g : A → list B) l s :
  (∀ x s, F x s = rfold f (g x) s) → rfold F l s = rfold f (mjoin (g <$> l)) s.
Proof.
  intros HF. revert s. induction l as [|x l IH]; intros s; simpl; [done |]. rewrite HF, rfold_app.
  destruct (rfold f (g x) s); [apply IH | done | done].
Qed.

(** An invariant of the loop; it ends well if every round does. *)
Lemma rfold_inv {A S : Type} (I : list A → S → Prop) (f : A → S → result S) l s :
  I [] s → (∀ done_ x rest s, l = done_ ++ x :: rest → I done_ s → ∃ s', f x s = Ok s' ∧ I (done_ ++ [x]) s') →
  ∃ s', rfold f l s = Ok s' ∧ I l s'.
Proof.
  intros H0 Hstep. assert (∀ l2 l1 s, l = l1 ++ l2 → I l1 s → ∃ s', rfold f l2 s = Ok s' ∧ I l s') as Hgen.
  { induction l2 as [|x l2 IH]; intros l1 s1 Hl HI; simpl; [exists s1; by rewrite Hl, app_nil_r |].
    destruct (Hstep l1 x l2 s1 Hl HI) as (s2 & -> & HI2). cbn [rbind].
    apply (IH (l1 ++ [x]) s2); [by rewrite <- app_assoc | done]. }
  by apply (Hgen l [] s).
Qed.

(** ** Stateful fallible computations

    A Rust method on [&mut self] that returns [Result]: the state change made
    before an error stays. *)

Definition st (S A : Type) : Type := S → S * result A.

Definition sret {S A : Type} (a : A) : st S A := λ s, (s, Ok a).
Definition serr {S A : Type} (e : FractureError) : st S A := λ s, (s, Err e).
Definition slift {S A : Type} (m : result A) : st S A := λ s, (s, m).

Definition sbind {S A B : Type} (m : st S A) (k : A → st S B) : st S B := λ s,
  match m s with
  | (s', Ok a) => k a s'
  | (s', Err e) => (s', Err e)
  | (s', Panic) => (s', Panic)
  end.

Notation "'do!' x ':=' m 'in' k" := (sbind m (λ x, k))
  (at level 10, x pattern, m at level 100, k at level 200) : fracture_scope.

Lemma sbind_Ok {S A B : Type} (m : st S A) (k : A → st S B) s s' b :
  sbind m k s = (s', Ok b) ↔ ∃ s1 a, m s = (s1, Ok a) ∧ k a s1 = (s', Ok b).
Proof. unfold sbind. destruct (m s) as [s1 [a| |]]; naive_solver. Qed.

(** [for x in l { ys.push(f(x)?); }] *)
Fixpoint smapM {S A B : Type} (f : A → st S B) (l : list A) : st S (list B) :=
  match l with
  | [] => sret []
  | x :: l' => do! y := f x in do! ys := smapM f l' in sret (y :: ys)
  end.

(** [r.map_err(..)] *)
Definition smap_err {S A : Type} (e : FractureError) (m : st S A) : st S A := λ s,
  match m s with (s', Err _) => (s', Err e) | r => r end.

Lemma smap_err_Ok {S A : Type} e (m : st S A) s s' a : smap_err e m s = (s', Ok a) ↔ m s = (s', Ok a).
Proof. unfold smap_err. destruct (m s) as [s1 [x| |]]; naive_solver. Qed.

(** ** Mutexes

    [std::sync::Mutex]: a panic while it is held poisons it, and
    [lock().unwrap()] panics on a poisoned one. *)

Record Mutex (A : Type) := { guarded : A; mx_poisoned : bool }.
Arguments guarded {A} m.
Arguments mx_poisoned {A} m.

Definition mutex_new {A : Type} (a : A) : Mutex A := {| guarded := a; mx_poisoned := false |}.

(** [let mut x = m.lock().unwrap()] and the rest of the function *)
Definition with_lock {A B : Type} (body : st A B) : st (Mutex A) B := λ m,
  if mx_poisoned m then (m, Panic)
  else let '(a, r) := body (guarded m) in
       ({| guarded := a; mx_poisoned := match r with Panic => true | _ => false end |}, r).

Lemma with_lock_open {A B : Type} (body : st A B) m a b :
  mx_poisoned m = false → body (guarded m) = (a, Ok b) → with_lock body m = (mutex_new a, Ok b).
Proof. intros Hp Hb. unfold with_lock. by rewrite Hp, Hb. Qed.

(** ** Machine integers

    Fixed-width values are integers with their width written out. *)

Definition wrap (w : Z) (z : Z) : Z := (z `mod` 2 ^ w)%Z.
Definition in_width (w : Z) (z : Z) : Prop := (0 ≤ z < 2 ^ w)%Z.
Definition USIZE_MAX : Z := (2 ^ 64 - 1)%Z.

(** Arithmetic on [usize]/[u64] under overflow checks. *)
Definition checked (w : Z) (z : Z) : result Z :=
  if bool_decide (in_width w z) then Ok z else Panic.
Definition uadd (a b : Z) : result Z := checked 64 (a + b).
Definition umul (a b : Z) : result Z := checked 64 (a * b).
Definition usub (a b : Z) : result Z := checked 64 (a - b).
(** The same on operands that are computed themselves. *)
Definition uaddr (a b : result Z) : result Z := let? x := a in let? y := b in uadd x y.
Definition umulr (a b : result Z) : result Z := let? x := a in let? y := b in umul x y.
Notation "a '+!' b" := (uaddr a b) (at level 50, left associativity) : fracture_scope.
Notation "a '*!' b" := (umulr a b) (at level 40, left associativity) : fracture_scope.
(** [a.saturating_sub(b)] and [a.saturating_add(b)]. *)
Definition saturating_sub (a b : Z) : Z := Z.max 0 (a - b).
Definition saturating_add (a b : Z) : Z := Z.min USIZE_MAX (a + b).
(** [a.div_ceil(b)] *)
Definition div_ceil (a b : nat) : nat := (a + b - 1) `div` b.

(** Subtraction of collection sizes. *)
Definition nsub (a b : nat) : result nat :=
  if bool_decide (b ≤ a) then Ok (a - b) else Panic.

#[export] Instance in_width_dec w z : Decision (in_width w z).
Proof. unfold in_width. apply _. Defined.

Lemma checked_Ok w z : in_width w z → checked w z = Ok z.
Proof. intros H. unfold checked. by rewrite bool_decide_true. Qed.

Lemma checked_inv w z r : checked w z = Ok r → r = z ∧ in_width w z.
Proof. unfold checked. case_bool_decide; naive_solver. Qed.

Lemma umulr_Ok_inv a b r :
  umulr a b = Ok r → ∃ x y, a = Ok x ∧ b = Ok y ∧ r = (x * y)%Z ∧ in_width 64 r.
Proof.
  unfold umulr, umul. intros (x & -> & (y & -> & [-> ?]%checked_inv)%rbind_Ok)%rbind_Ok. eauto 10.
Qed.

Lemma uaddr_Ok_inv a b r :
  uaddr a b = Ok r → ∃ x y, a = Ok x ∧ b = Ok y ∧ r = (x + y)%Z ∧ in_width 64 r.
Proof.
  unfold uaddr, uadd. intros (x & -> & (y & -> & [-> ?]%checked_inv)%rbind_Ok)%rbind_Ok. eauto 10.
Qed.

Lemma checked_not_err w z e : checked w z ≠ Err e.
Proof. unfold checked. by case_bool_decide. Qed.

Lemma wrap_small w z : in_width w z → wrap w z = z.
Proof. unfold wrap, in_width. intros. by rewrite Z.mod_small. Qed.

Lemma wrap_in_width w z : (0 ≤ w)%Z → in_width w (wrap w z).
Proof. intros. unfold wrap, in_width. apply Z.mod_pos_bound. lia. Qed.

(** [usize] has 64 bits, so a [u32] always fits. *)
Lemma in_width_mono w w' z : (w ≤ w')%Z → in_width w z → in_width w' z.
Proof.
  unfold in_width. intros Hw [? ?]. split; [done |].
  eapply Z.lt_le_trans; [done |]. apply Z.pow_le_mono_r; lia.
Qed.

(** ** Bytes *)

Definition is_byte (b : Z) : Prop := in_width 8 b.

#[export] Instance is_byte_dec b : Decision (is_byte b).
Proof. unfold is_byte. apply _. Defined.

(** [uN::to_le_bytes] / [uN::from_le_bytes] and their big-endian versions. *)
Fixpoint to_le_bytes (n : nat) (z : Z) : list Z :=
  match n with
  | 0 => []
  | S n' => (z `mod` 256)%Z :: to_le_bytes n' (z `div` 256)%Z
  end.

Fixpoint from_le_bytes (l : list Z) : Z :=
  match l with
  | [] => 0
  | b :: l' => (b + 256 * from_le_bytes l')%Z
  end.

Definition to_be_bytes (n : nat) (z : Z) : list Z := reverse (to_le_bytes n z).
Definition from_be_bytes (l : list Z) : Z := from_le_bytes (reverse l).

Arguments to_be_bytes : simpl never.
Arguments from_be_bytes : simpl never.

Lemma length_to_le_bytes n z : length (to_le_bytes n z) = n.
Proof. revert z. induction n; intros; simpl; auto. Qed.

Lemma length_to_be_bytes n z : length (to_be_bytes n z) = n.
Proof. unfold to_be_bytes. by rewrite length_reverse, length_to_le_bytes. Qed.

Lemma to_le_bytes_byte n z : Forall is_byte (to_le_bytes n z).
Proof.
  revert z. induction n as [|n IH]; intros z; simpl; constructor; [| apply IH].
  unfold is_byte, in_width. apply Z.mod_pos_bound. lia.
Qed.

Lemma to_be_bytes_byte n z : Forall is_byte (to_be_bytes n z).
Proof. apply Forall_reverse, to_le_bytes_byte. Qed.

Lemma from_to_le_bytes n z : in_width (8 * Z.of_nat n) z → from_le_bytes (to_le_bytes n z) = z.
Proof.
  revert z. induction n as [|n IH]; intros z [Hlo Hhi]; simpl.
  - change (8 * Z.of_nat 0)%Z with 0%Z in Hhi. change (2 ^ 0)%Z with 1%Z in Hhi. lia.
  - rewrite IH; [rewrite Z.add_comm; symmetry; apply Z.div_mod; lia |].
    split; [apply Z.div_pos; lia |].
    apply Z.div_lt_upper_bound; [lia |].
    replace (8 * Z.of_nat (S n))%Z with (8 + 8 * Z.of_nat n)%Z in Hhi by lia.
    rewrite Z.pow_add_r in Hhi by lia. exact Hhi.
Qed.

Lemma from_to_be_bytes n z : in_width (8 * Z.of_nat n) z → from_be_bytes (to_be_bytes n z) = z.
Proof.
  intros. unfold from_be_bytes, to_be_bytes. rewrite reverse_involutive. by apply from_to_le_bytes.
Qed.

Lemma to_from_le_bytes l : Forall is_byte l → to_le_bytes (length l) (from_le_bytes l) = l.
Proof.
  induction 1 as [|b l [Hb1 Hb2] _ IH]; simpl; [done |]. change (2 ^ 8)%Z with 256%Z in Hb2.
  rewrite (Z.mul_comm 256), Z.mod_add, Z.div_add, Z.mod_small, Z.div_small, Z.add_0_l by lia.
  by rewrite IH.
Qed.

Lemma to_from_be_bytes l : Forall is_byte l → to_be_bytes (length l) (from_be_bytes l) = l.
Proof.
  intros Hl. unfold to_be_bytes, from_be_bytes.
  rewrite <- (length_reverse l), to_from_le_bytes by (by apply Forall_reverse).
  apply reverse_involutive.
Qed.

Lemma from_le_bytes_width l : Forall is_byte l → in_width (8 * Z.of_nat (length l)) (from_le_bytes l).
Proof.
  induction 1 as [|b l [Hb1 Hb2] _ [IH1 IH2]]; [done |]. cbn [from_le_bytes length].
  replace (8 * Z.of_nat (S (length l)))%Z with (8 + 8 * Z.of_nat (length l))%Z by lia.
  unfold in_width. rewrite Z.pow_add_r by lia. change (2 ^ 8)%Z with 256%Z in *. lia.
Qed.

Lemma from_be_bytes_width l : Forall is_byte l → in_width (8 * Z.of_nat (length l)) (from_be_bytes l).
Proof.
  intros. unfold from_be_bytes. rewrite <- (length_reverse l).
  by apply from_le_bytes_width, Forall_reverse.
Qed.

(** ** Slices and vectors *)

(** [&l[a..b]]: panics when the range is decreasing or runs past the end. *)
Definition slice {A : Type} (a b : nat) (l : list A) : result (list A) :=
  if bool_decide (a ≤ b ∧ b ≤ length l) then Ok (take (b - a) (drop a l)) else Panic.

(** [l[i]] *)
Definition index {A : Type} (l : list A) (i : nat) : result A :=
  match l !! i with Some x => Ok x | None => Panic end.

Lemma slice_Ok {A : Type} (a b : nat) (l : list A) :
  a ≤ b → b ≤ length l → slice a b l = Ok (take (b - a) (drop a l)).
Proof. intros. unfold slice. by rewrite bool_decide_true. Qed.

Lemma slice_inv {A : Type} (a b : nat) (l s : list A) :
  slice a b l = Ok s → a ≤ b ∧ b ≤ length l ∧ s = take (b - a) (drop a l).
Proof. unfold slice. case_bool_decide; naive_solver. Qed.

Lemma slice_length {A : Type} (a b : nat) (l s : list A) :
  slice a b l = Ok s → length s = b - a.
Proof.
  intros (? & ? & ->)%slice_inv. rewrite length_take, length_drop. lia.
Qed.

Lemma slice_app {A : Type} (p m q : list A) :
  slice (length p) (length p + length m) (p ++ m ++ q) = Ok m.
Proof.
  rewrite slice_Ok by (rewrite ?length_app; lia).
  rewrite drop_app_length.
  by replace (length p + length m - length p) with (length m) by lia; rewrite take_app_length.
Qed.

Lemma slice_app_eq {A : Type} (a b : nat) (p m q : list A) :
  a = length p → b = a + length m → slice a b (p ++ m ++ q) = Ok m.
Proof. intros -> ->. apply slice_app. Qed.

Lemma length_mjoin_take {A : Type} (v : nat) (ls : list (list A)) n :
  Forall (λ l, length l = v) ls → n ≤ length ls → length (mjoin (take n ls)) = n * v.
Proof.
  intros Hls. revert n. induction Hls as [|x ls Hx _ IH]; intros [|n] Hn; simpl in *; try lia.
  rewrite length_app, IH by lia. lia.
Qed.

Lemma length_mjoin {A : Type} (v : nat) (ls : list (list A)) :
  Forall (λ l, length l = v) ls → length (mjoin ls) = length ls * v.
Proof. intros Hls. rewrite <- (firstn_all ls) at 1. apply length_mjoin_take; [done | lia]. Qed.

(** The [i]-th of equally long parts. *)
Lemma slice_mjoin {A : Type} (v : nat) (ls : list (list A)) i l :
  Forall (λ l, length l = v) ls → ls !! i = Some l → slice (i * v) (i * v + v) (mjoin ls) = Ok l.
Proof.
  intros Hls Hi. apply lookup_lt_Some in Hi as Hlt. pose proof (length_mjoin_take v ls i Hls ltac:(lia)) as Hlen.
  rewrite <- (take_drop_middle ls i l Hi), join_app. cbn [mjoin list_join].
  assert (length l = v) as Hl by (by eapply (Forall_lookup_1 _ _ _ _ Hls)).
  rewrite slice_Ok by (rewrite ?length_app; lia). f_equal.
  replace (i * v + v - i * v)%nat with (length l) by lia.
  by rewrite <- Hlen, drop_app_length, take_app_length.
Qed.

Lemma index_Ok {A : Type} (l : list A) i x : index l i = Ok x ↔ l !! i = Some x.
Proof. unfold index. destruct (l !! i); naive_solver. Qed.

Lemma index_not_err {A : Type} (l : list A) i e : index l i ≠ Err e.
Proof. unfold index. by destruct (l !! i). Qed.

Lemma index_no_panic {A : Type} (l : list A) i : i < length l → index l i ≠ Panic.
Proof.
  intros [x Hx]%lookup_lt_is_Some_2. unfold index. by rewrite Hx.
Qed.

Lemma nsub_Ok (a b : nat) : b ≤ a → nsub a b = Ok (a - b).
Proof. intros. unfold nsub. by rewrite bool_decide_true. Qed.

Lemma Forall2_impl_in {A B : Type} (P Q : A → B → Prop) l k :
  Forall2 P l k → (∀ x y, x ∈ l → y ∈ k → P x y → Q x y) → Forall2 Q l k.
Proof.
  induction 1 as [|x y l k Hxy _ IH]; intros Himp; constructor; [apply Himp; [left | left | done] |].
  apply IH. intros ????. apply Himp; by right.
Qed.

(** Nested vectors: [ls[i][j]]. *)
Lemma elem_of_concat_lookup {A : Type} (ls : list (list A)) i j x a :
  ls !! i = Some x → x !! j = Some a → a ∈ concat ls.
Proof.
  intros Hi%list_elem_of_lookup_2 Hj%list_elem_of_lookup_2.
  induction ls as [|l ls IH]; simpl; [by apply not_elem_of_nil in Hi |].
  apply elem_of_app. apply elem_of_cons in Hi as [->|Hi]; [by left | right; by apply IH].
Qed.

Lemma concat_lookup_inj {A B : Type} (f : A → B) (ls : list (list A)) i i' j j' x x' a a' :
  NoDup (f <$> concat ls) →
  ls !! i = Some x → x !! j = Some a → ls !! i' = Some x' → x' !! j' = Some a' →
  f a = f a' → i = i' ∧ j = j'.
Proof.
  revert i i'. induction ls as [|l ls IH]; intros i i' Hnd Hi Hj Hi' Hj' Heq; [done |].
  simpl in Hnd. rewrite fmap_app in Hnd. apply NoDup_app in Hnd as (Hnd & Hdis & Hnds).
  assert (∀ y b k z c, l !! k = Some b → ls !! y = Some z → c ∈ z → f b = f c → False) as Hcross.
  { intros y b k z c Hb Hz Hc Hbc. apply (Hdis (f b)).
    - apply list_elem_of_fmap. exists b. split; [done |]. by eapply list_elem_of_lookup_2.
    - apply list_elem_of_fmap. exists c. split; [done |].
      apply list_elem_of_lookup in Hc as [k' Hk']. by eapply elem_of_concat_lookup. }
  destruct i as [|i], i' as [|i']; simplify_eq/=.
  - split; [done |]. eapply (NoDup_lookup _ j j' (f a)); [exact Hnd | |];
      rewrite list_lookup_fmap; [by rewrite Hj | by rewrite Hj', Heq].
  - exfalso. eapply (Hcross i' a j x' a'); eauto. by eapply list_elem_of_lookup_2.
  - exfalso. eapply (Hcross i a' j' x a); eauto. by eapply list_elem_of_lookup_2.
  - destruct (IH i i') as [-> ->]; eauto.
Qed.

(** ** Hash maps

    The iteration order of a [HashMap] is unspecified: an operation that
    iterates takes the order as an argument, an arbitrary permutation. *)

Record HashOrder := {
  hash_order : ∀ A : Type, list A → list A;
  hash_order_perm : ∀ (A : Type) (l : list A), hash_order A l ≡ₚ l
}.

Definition hash_order_id : HashOrder :=
  {| hash_order := λ _ l, l; hash_order_perm := λ _ l, Permutation_refl l |}.

Definition hash_order_rev : HashOrder :=
  {| hash_order := λ _ l, reverse l; hash_order_perm := λ _ l, reverse_Permutation l |}.

(** [map.iter()] and [map.values()] *)
Definition hm_iter {K V : Type} `{Countable K} (ho : HashOrder) (m : gmap K V) : list (K * V) :=
  hash_order ho _ (map_to_list m).
Definition hm_values {K V : Type} `{Countable K} (ho : HashOrder) (m : gmap K V) : list V :=
  (hm_iter ho m).*2.

Section hash_maps.
Context {K V : Type} `{Countable K}.
Implicit Types m : gmap K V.

Lemma hm_iter_perm ho m : hm_iter ho m ≡ₚ map_to_list m.
Proof. apply hash_order_perm. Qed.

Lemma elem_of_hm_iter ho m k v : (k, v) ∈ hm_iter ho m ↔ m !! k = Some v.
Proof. rewrite hm_iter_perm. apply elem_of_map_to_list. Qed.

Lemma NoDup_hm_iter_fst ho m : NoDup (hm_iter ho m).*1.
Proof. rewrite hm_iter_perm. apply NoDup_fst_map_to_list. Qed.

Lemma elem_of_hm_values ho m v : v ∈ hm_values ho m ↔ ∃ k, m !! k = Some v.
Proof.
  unfold hm_values. rewrite list_elem_of_fmap. split.
  - intros ([k w] & -> & Hin%elem_of_hm_iter). eauto.
  - intros [k Hk]. exists (k, v). by rewrite elem_of_hm_iter.
Qed.

Lemma length_hm_iter ho m : length (hm_iter ho m) = size m.
Proof. rewrite hm_iter_perm. by rewrite length_map_to_list. Qed.
End hash_maps.

(** ** Tactics *)

(** Decompose an equation about a sequence of binds. *)
Ltac rinv :=
  repeat match goal with
  | H : rbind _ _ = Ok _ |- _ => apply rbind_Ok in H as (? & ? & H)
  | H : Ok _ = Ok _ |- _ => injection H as H
  | H : Err _ = Ok _ |- _ => discriminate H
  | H : Panic = Ok _ |- _ => discriminate H
  | H : Ok _ = Err _ |- _ => discriminate H
  | H : Panic = Err _ |- _ => discriminate H
  | H : Err _ = Panic |- _ => discriminate H
  | H : Ok _ = Panic |- _ => discriminate H
  | H : umulr _ _ = Ok _ |- _ => apply umulr_Ok_inv in H as (? & ? & ? & ? & H & ?)
  | H : uaddr _ _ = Ok _ |- _ => apply uaddr_Ok_inv in H as (? & ? & ? & ? & H & ?)
  | H : umul _ _ = Ok _ |- _ => apply checked_inv in H as [H ?]
  | H : uadd _ _ = Ok _ |- _ => apply checked_inv in H as [H ?]
  | H : usub _ _ = Ok _ |- _ => apply checked_inv in H as [H ?]
  | H : (_, _) = (_, _) |- _ => injection H as H; simplify_eq
  end; simplify_eq.

(** Two results of one computation are equal. *)
Ltac ok_inj :=
  repeat match goal with
  | H1 : ?m = Ok ?a, H2 : ?m = Ok ?b |- _ =>
      assert (a = b) by (rewrite H1 in H2; by injection H2); clear H2
  end; simplify_eq.

(** Split the outermost conditional of the goal or of a hypothesis. *)
Ltac case_if :=
  cbv beta;
  match goal with
  | |- context [if ?b then _ else _] => destruct b eqn:?
  | H : context [if ?b then _ else _] |- _ => destruct b eqn:?
  end.

(** [Forall] on an explicit list. *)
Ltac forall_list := repeat apply Forall_cons_2; try apply Forall_nil_2; try done.

(** Decide a closed decidable proposition by evaluation. *)
Ltac decide_now := refine (bool_decide_unpack _ _); vm_compute; exact I.
