(* ===== verification/F32.v ===== *)
(** * IEEE 754 numbers

    Rust's [f32] and [f64] are the binary32 and binary64 formats of the
    Standard Library's executable specification [SpecFloat], with rounding to
    nearest even.  Only the operations the sources use are named here. *)

From S2P Require Import Prelude.
From Stdlib Require Import SpecFloat.
From Hammer Require Import Tactics.

Definition f32 : Type := spec_float.
Definition f64 : Type := spec_float.

Definition f32_prec : Z := 24.
Definition f32_emax : Z := 128.

Definition f32_add : f32 → f32 → f32 := SFadd f32_prec f32_emax.
Definition f32_sub : f32 → f32 → f32 := SFsub f32_prec f32_emax.
Definition f32_mul : f32 → f32 → f32 := SFmul f32_prec f32_emax.
Definition f32_div : f32 → f32 → f32 := SFdiv f32_prec f32_emax.

(** [n as f32] for an integer. *)
Definition f32_of_Z (n : Z) : f32 := binary_normalize f32_prec f32_emax n 0 false.

(** A decimal literal [m / 10^k]. *)
Definition f32_lit (m : Z) (k : nat) : f32 := f32_div (f32_of_Z m) (f32_of_Z (10 ^ Z.of_nat k)).

Definition f32_zero : f32 := S754_zero false.
Definition f32_one : f32 := f32_of_Z 1.
Definition f32_NEG_INFINITY : f32 := S754_infinity true.
Definition f32_MAX : f32 := SFmax_float f32_prec f32_emax.
Definition f32_MIN : f32 := SFopp f32_MAX.

(** [f32::from_bits]: sign, biased exponent and fraction of a [u32]. *)
Definition f32_from_bits (b : Z) : f32 :=
  let s := Z.testbit b 31 in
  let e := Z.land (Z.shiftr b 23) 255 in
  let m := Z.land b (2 ^ 23 - 1) in
  if (e =? 255)%Z then (if (m =? 0)%Z then S754_infinity s else S754_nan)
  else if (e =? 0)%Z then
    match m with Z.pos p => S754_finite s p (-149) | _ => S754_zero s end
  else match (m + 2 ^ 23)%Z with Z.pos p => S754_finite s p (e - 150) | _ => S754_nan end.

(** [f32::to_bits] *)
Definition f32_to_bits (x : f32) : Z :=
  let sign (s : bool) : Z := if s then (2 ^ 31)%Z else 0%Z in
  match x with
  | S754_zero s => sign s
  | S754_infinity s => sign s + 255 * 2 ^ 23
  | S754_nan => 0x7FC00000
  | S754_finite s m e =>
      if (Z.pos m <? 2 ^ 23)%Z then sign s + Z.pos m else sign s + (e + 150) * 2 ^ 23 + (Z.pos m - 2 ^ 23)
  end%Z.

(** The same of binary64: [f64::from_bits], [n as f64], a decimal literal, and
    [x as f64] of an [f32], which is exact. *)
Definition f64_prec : Z := 53.
Definition f64_emax : Z := 1024.
Definition f64_from_bits (b : Z) : f64 :=
  let s := Z.testbit b 63 in
  let e := Z.land (Z.shiftr b 52) 2047 in
  let m := Z.land b (2 ^ 52 - 1) in
  if (e =? 2047)%Z then (if (m =? 0)%Z then S754_infinity s else S754_nan)
  else if (e =? 0)%Z then
    match m with Z.pos p => S754_finite s p (-1074) | _ => S754_zero s end
  else match (m + 2 ^ 52)%Z with Z.pos p => S754_finite s p (e - 1075) | _ => S754_nan end.
Definition f64_of_Z (n : Z) : f64 := binary_normalize f64_prec f64_emax n 0 false.
Definition f64_lit (m : Z) (k : nat) : f64 := SFdiv f64_prec f64_emax (f64_of_Z m) (f64_of_Z (10 ^ Z.of_nat k)).
Definition f32_to_f64 (x : f32) : f64 :=
  match x with
  | S754_finite s m e => binary_normalize f64_prec f64_emax (cond_Zopp s (Z.pos m)) e s
  | _ => x
  end.

Definition f64_add : f64 → f64 → f64 := SFadd f64_prec f64_emax.
Definition f64_sub : f64 → f64 → f64 := SFsub f64_prec f64_emax.
Definition f64_mul : f64 → f64 → f64 := SFmul f64_prec f64_emax.
Definition f64_div : f64 → f64 → f64 := SFdiv f64_prec f64_emax.
Definition f64_sqrt : f64 → f64 := SFsqrt f64_prec f64_emax.
(** [-x], [x.abs()] and [x as f32] *)
Definition fneg (x : spec_float) : spec_float := SFopp x.
Definition fabs (x : spec_float) : spec_float := SFabs x.
Definition f64_to_f32 (x : f64) : f32 :=
  match x with
  | S754_finite s m e => binary_normalize f32_prec f32_emax (cond_Zopp s (Z.pos m)) e s
  | _ => x
  end.

Definition is_nan (x : spec_float) : bool := match x with S754_nan => true | _ => false end.
Definition is_infinite (x : spec_float) : bool :=
  match x with S754_infinity _ => true | _ => false end.

(** [a.partial_cmp(&b)], [a < b], [a <= b], [a > b], [a >= b], [a == b] *)
Definition partial_cmp (a b : spec_float) : option comparison := SFcompare a b.
Definition flt (a b : spec_float) : bool := SFltb a b.
Definition fle (a b : spec_float) : bool := SFleb a b.
Definition fgt (a b : spec_float) : bool := SFltb b a.
Definition fge (a b : spec_float) : bool := SFleb b a.
Definition feq (a b : spec_float) : bool := SFeqb a b.

(** [f32::max] and [f32::min]: a NaN argument is ignored. *)
Definition f32_max (a b : f32) : f32 :=
  if is_nan a then b else if is_nan b then a else if flt a b then b else a.
Definition f32_min (a b : f32) : f32 :=
  if is_nan a then b else if is_nan b then a else if flt b a then b else a.

(** [f32::round]: to the nearest integer, ties away from zero. *)
Definition f32_round (x : f32) : f32 :=
  match x with
  | S754_finite s m e =>
    if (0 <=? e)%Z then x
    else binary_normalize f32_prec f32_emax
           (cond_Zopp s ((Z.pos m + 2 ^ (- e - 1)) `div` 2 ^ (- e))%Z) 0 s
  | _ => x
  end.

(** [f32::ceil] *)
Definition f32_ceil (x : f32) : f32 :=
  match x with
  | S754_finite s m e =>
    if (0 <=? e)%Z then x
    else binary_normalize f32_prec f32_emax
           (- ((- cond_Zopp s (Z.pos m)) `div` 2 ^ (- e)))%Z 0 s
  | _ => x
  end.

(** [x as usize]: truncation, saturating; NaN becomes 0. *)
Definition f32_to_usize (x : f32) : Z :=
  match x with
  | S754_nan | S754_zero _ => 0
  | S754_infinity s => if s then 0 else USIZE_MAX
  | S754_finite true _ _ => 0
  | S754_finite false m e => Z.min USIZE_MAX (Z.shiftl (Z.pos m) e)
  end%Z.

Example round_half_away : f32_to_usize (f32_round (f32_lit 25 1)) = 3%Z.
Proof. vm_compute. reflexivity. Qed.
Example ceil_up : f32_to_usize (f32_ceil (f32_mul (f32_of_Z 101) (f32_lit 1 1))) = 11%Z.
Proof. vm_compute. reflexivity. Qed.

(** [iter.max_by(cmp)]: the last of the maximal elements. *)
Definition max_by_step {A : Type} (cmp : A → A → comparison) (acc x : A) : A :=
  match cmp acc x with Gt => acc | _ => x end.
Definition max_by {A : Type} (cmp : A → A → comparison) (l : list A) : option A :=
  match l with
  | [] => None
  | x :: l' => Some (fold_left (max_by_step cmp) l' x)
  end.

(** ** Lemmas *)

Lemma partial_cmp_None a b : partial_cmp a b = None ↔ is_nan a = true ∨ is_nan b = true.
Proof. destruct a, b; simpl; naive_solver. Qed.

Lemma partial_cmp_not_nan a b :
  is_nan a = false → is_nan b = false → ∃ c, partial_cmp a b = Some c.
Proof. destruct a, b; simpl; naive_solver. Qed.

(** The comparison of two numbers is the lexicographic comparison of keys. *)
Definition fkey (x : spec_float) : Z * Z * Z :=
  match x with
  | S754_nan => (0, 0, 0)
  | S754_infinity true => (-2, 0, 0)
  | S754_infinity false => (2, 0, 0)
  | S754_zero _ => (0, 0, 0)
  | S754_finite true m e => (-1, - e, - Z.pos m)
  | S754_finite false m e => (1, e, Z.pos m)
  end%Z.

Definition key_le (k k' : Z * Z * Z) : Prop :=
  let '(a, b, c) := k in let '(a', b', c') := k' in
  (a < a' ∨ a = a' ∧ (b < b' ∨ b = b' ∧ c ≤ c'))%Z.

Lemma fle_key a b :
  fle a b = true ↔ is_nan a = false ∧ is_nan b = false ∧ key_le (fkey a) (fkey b).
Proof.
  unfold fle, SFleb.
  destruct a as [[]|[]| |[] ma ea], b as [[]|[]| |[] mb eb]; simpl;
    try (split; [done || (intros; split_and!; (done || lia)) | (intros (? & ? & ?); done || lia)]).
  all: fold (Pos.compare ma mb).
  all: destruct (Z.compare_spec ea eb); simpl;
    try (split; [intros; split_and!; (done || lia) | intros (? & ? & ?); done || lia]).
  all: destruct (Pos.compare_spec ma mb); simpl;
    (split; [intros; split_and!; (done || lia) | intros (? & ? & ?); done || lia]).
Qed.

Lemma partial_cmp_antisym a b c : partial_cmp a b = Some c → partial_cmp b a = Some (CompOpp c).
Proof.
  destruct a as [[]|[]| |[] ma ea], b as [[]|[]| |[] mb eb]; simpl; try (intros [= <-]; done).
  all: rewrite (Z.compare_antisym ea eb); fold (Pos.compare ma mb) (Pos.compare mb ma);
    rewrite (Pos.compare_antisym ma mb);
    destruct (ea ?= eb)%Z; simpl; intros [= <-]; try done; by destruct (ma ?= mb)%positive.
Qed.

Lemma fle_trans a b c : fle a b = true → fle b c = true → fle a c = true.
Proof.
  rewrite !fle_key. intros (? & ? & H1) (? & ? & H2). split_and!; [done.. |].
  destruct (fkey a) as [[]], (fkey b) as [[]], (fkey c) as [[]]. simpl in *. lia.
Qed.

Lemma fle_refl a : is_nan a = false → fle a a = true.
Proof. intros. rewrite fle_key. split_and!; [done.. |]. destruct (fkey a) as [[]]. simpl. lia. Qed.

Lemma fle_total a b : is_nan a = false → is_nan b = false → fle a b = true ∨ fle b a = true.
Proof.
  intros. rewrite !fle_key.
  assert (key_le (fkey a) (fkey b) ∨ key_le (fkey b) (fkey a)) as [|] by
    (destruct (fkey a) as [[]], (fkey b) as [[]]; simpl; lia); [left | right]; done.
Qed.

Lemma fle_partial_cmp a b : fle a b = true ↔ partial_cmp a b = Some Lt ∨ partial_cmp a b = Some Eq.
Proof. unfold fle, SFleb, partial_cmp. destruct (SFcompare a b) as [[]|]; naive_solver. Qed.

Lemma flt_fle a b : is_nan a = false → is_nan b = false → flt a b = false → fle b a = true.
Proof.
  intros Ha Hb. destruct (partial_cmp_not_nan a b Ha Hb) as [c Hc].
  unfold flt, fle, SFltb, SFleb. pose proof (partial_cmp_antisym _ _ _ Hc) as Hc'.
  unfold partial_cmp in *. rewrite Hc, Hc'. by destruct c.
Qed.

Lemma flt_fle_incl a b : flt a b = true → fle a b = true.
Proof. unfold flt, fle, SFltb, SFleb. by destruct (SFcompare a b) as [[]|]. Qed.

(** [max_by] with a comparison that reflects a total preorder [le]. *)
Section max_by.
Context {A : Type} (cmp : A → A → comparison) (le : A → A → Prop) (P : A → Prop).
Hypothesis le_trans : ∀ a b c, le a b → le b c → le a c.
Hypothesis le_refl : ∀ a, P a → le a a.
Hypothesis cmp_Gt : ∀ a b, P a → P b → cmp a b = Gt → le b a.
Hypothesis cmp_not_Gt : ∀ a b, P a → P b → cmp a b ≠ Gt → le a b.

Lemma max_by_fold l x m :
  P x → Forall P l → fold_left (max_by_step cmp) l x = m →
  m ∈ x :: l ∧ P m ∧ ∀ y, y ∈ x :: l → le y m.
Proof using All.
  revert x. induction l as [|z l IH]; intros x Hx Hl; simpl.
  - intros <-. split_and!; [left | done |]. intros y ->%list_elem_of_singleton. auto.
  - inversion Hl; subst. intros Hm. unfold max_by_step in Hm at 2.
    destruct (cmp x z) eqn:Hc.
    3: destruct (IH x Hx ltac:(done) Hm) as (Hin & HP & Hmax).
    1,2: destruct (IH z ltac:(done) ltac:(done) Hm) as (Hin & HP & Hmax).
    + split_and!; [set_solver | done |]. intros y [->|Hy]%elem_of_cons; [| auto].
      apply le_trans with z; [apply cmp_not_Gt; congruence | apply Hmax; left].
    + split_and!; [set_solver | done |]. intros y [->|Hy]%elem_of_cons; [| auto].
      apply le_trans with z; [apply cmp_not_Gt; congruence | apply Hmax; left].
    + split_and!; [set_solver | done |]. intros y [->|[->|Hy]%elem_of_cons]%elem_of_cons.
      * apply Hmax; left.
      * apply le_trans with x; [by apply cmp_Gt | apply Hmax; left].
      * apply Hmax; by right.
Qed.

Lemma max_by_spec l m :
  Forall P l → max_by cmp l = Some m → m ∈ l ∧ ∀ y, y ∈ l → le y m.
Proof using All.
  destruct l as [|x l]; [done |]. intros Hl [= Hm]. inversion Hl; subst.
  destruct (max_by_fold l x _ ltac:(done) ltac:(done) eq_refl) as (? & _ & ?). done.
Qed.
End max_by.

Lemma max_by_elem {A : Type} (cmp : A → A → comparison) (l : list A) m :
  max_by cmp l = Some m → m ∈ l.
Proof.
  destruct l as [|x l]; [done |]. intros [= <-].
  revert x. induction l as [|z l IH]; intros x; simpl; [left |].
  specialize (IH (max_by_step cmp x z)). unfold max_by_step in *.
  destruct (cmp x z); set_solver.
Qed.

Lemma max_by_Some {A : Type} (cmp : A → A → comparison) (l : list A) :
  l ≠ [] → ∃ m, max_by cmp l = Some m.
Proof. destruct l; [done |]. simpl. eauto. Qed.

(** ** Bits *)

Definition f32_valid (x : f32) : bool := valid_binary f32_prec f32_emax x.

Lemma digits2_bounds (m : positive) : (2 ^ (Z.pos (digits2_pos m) - 1) ≤ Z.pos m < 2 ^ Z.pos (digits2_pos m))%Z.
Proof.
  induction m as [m IH|m IH|]; cbn [digits2_pos]; [..| lia].
  all: rewrite Pos2Z.inj_succ; replace (Z.succ (Z.pos (digits2_pos m)) - 1)%Z with (Z.succ (Z.pos (digits2_pos m) - 1)) by lia;
    rewrite !Z.pow_succ_r by lia; lia.
Qed.

(** A finite binary32: subnormal, or with a mantissa of 24 bits. *)
Lemma f32_valid_finite s m e : f32_valid (S754_finite s m e) = true →
  (Z.pos m < 2 ^ 23 ∧ e = -149 ∨ 2 ^ 23 ≤ Z.pos m < 2 ^ 24 ∧ -149 ≤ e ≤ 104)%Z.
Proof.
  unfold f32_valid, valid_binary, bounded, canonical_mantissa, fexp, emin, f32_prec, f32_emax.
  intros [He%Z.eqb_eq Hb%Z.leb_le]%andb_prop. pose proof (digits2_bounds m) as Hd.
  assert (Z.pos (digits2_pos m) ≤ 23 ∨ Z.pos (digits2_pos m) = 24)%Z as [Hs|Hs] by lia.
  - left. split; [| lia]. assert (2 ^ Z.pos (digits2_pos m) ≤ 2 ^ 23)%Z by (apply Z.pow_le_mono_r; lia). lia.
  - right. rewrite Hs in *. lia.
Qed.

Lemma f32_bits_decode (s : bool) e f : (0 ≤ e < 256)%Z → (0 ≤ f < 2 ^ 23)%Z →
  let b := ((if s then 2 ^ 31 else 0) + e * 2 ^ 23 + f)%Z in
  (0 ≤ b < 2 ^ 32)%Z ∧ Z.testbit b 31 = s ∧ Z.land (Z.shiftr b 23) 255 = e ∧ Z.land b (2 ^ 23 - 1) = f.
Proof.
  intros He Hf b. assert (b = ((if s then 256 else 0) + e) * 2 ^ 23 + f)%Z as Eb by (unfold b; destruct s; lia).
  change 255%Z with (Z.ones 8). change (2 ^ 23 - 1)%Z with (Z.ones 23). rewrite !Z.land_ones by lia. rewrite Z.shiftr_div_pow2 by lia.
  assert (b / 2 ^ 23 = (if s then 256 else 0) + e)%Z as Hdiv.
  { rewrite Eb, Z.div_add_l by lia. rewrite (Z.div_small f) by lia. lia. }
  split_and!.
  - destruct s; lia.
  - destruct s; lia.
  - rewrite Z.testbit_eqb by lia. replace (b / 2 ^ 31)%Z with (b / 2 ^ 23 / 2 ^ 8)%Z by (by rewrite Z.div_div by lia). rewrite Hdiv. destruct s.
    + by rewrite <- (Z.div_unique (256 + e) (2 ^ 8) 1 e) by lia.
    + rewrite Z.div_small by lia. done.
  - rewrite Hdiv. destruct s; [| by apply Z.mod_small].
    change 256%Z with (1 * 2 ^ 8)%Z at 1. rewrite Z.add_comm, Z.mod_add by lia. by apply Z.mod_small.
  - rewrite Eb, Z.add_comm, Z.mod_add by lia. by apply Z.mod_small.
Qed.

(** [f32::from_bits(x.to_bits())] *)
Lemma f32_bits_roundtrip x : f32_valid x = true → in_width 32 (f32_to_bits x) ∧ f32_from_bits (f32_to_bits x) = x.
Proof.
  assert (∀ s e f, (0 ≤ e < 256)%Z → (0 ≤ f < 2 ^ 23)%Z → in_width 32 ((if s : bool then 2 ^ 31 else 0) + e * 2 ^ 23 + f)%Z ∧
    f32_from_bits ((if s then 2 ^ 31 else 0) + e * 2 ^ 23 + f)%Z =
      if (e =? 255)%Z then (if (f =? 0)%Z then S754_infinity s else S754_nan)
      else if (e =? 0)%Z then match f with Z.pos p => S754_finite s p (-149) | _ => S754_zero s end
      else match (f + 2 ^ 23)%Z with Z.pos p => S754_finite s p (e - 150) | _ => S754_nan end) as Hdec.
  { intros s e f He Hf. destruct (f32_bits_decode s e f He Hf) as (Hb & Hs & Hee & Hff). split; [exact Hb |].
    unfold f32_from_bits. by rewrite Hs, Hee, Hff. }
  destruct x as [s|s| |s m e]; intros Hv.
  - destruct (Hdec s 0 0)%Z as [? Hx]; [lia.. |]. unfold f32_to_bits. rewrite Z.mul_0_l, !Z.add_0_r in *. done.
  - destruct (Hdec s 255 0)%Z as [? Hx]; [lia.. |]. unfold f32_to_bits. rewrite Z.add_0_r in *. done.
  - done.
  - destruct (f32_valid_finite s m e Hv) as [[Hm ->]|[Hm He]]; unfold f32_to_bits.
    + rewrite (proj2 (Z.ltb_lt _ _)) by done. destruct (Hdec s 0 (Z.pos m))%Z as [? Hx]; [lia.. |].
      rewrite Z.mul_0_l, Z.add_0_r in *. done.
    + rewrite (proj2 (Z.ltb_ge _ _)) by lia. destruct (Hdec s (e + 150) (Z.pos m - 2 ^ 23))%Z as [? Hx]; [lia.. |]. split; [done |].
      rewrite Hx. rewrite (proj2 (Z.eqb_neq (e + 150) 255)), (proj2 (Z.eqb_neq (e + 150) 0)) by lia.
      replace (Z.pos m - 2 ^ 23 + 2 ^ 23)%Z with (Z.pos m) by lia. replace (e + 150 - 150)%Z with e by lia. done.
Qed.
