(* ===== verification/Core.v ===== *)
(** * fracture-core: data types, tensors, model and TurboQuant configuration

    [dtype.rs], [tensor.rs], [model_config.rs] and the configuration part of
    [turboquant.rs] (bit widths, block sizes, seeds and the PRNG). *)

From S2P Require Import Prelude F32.
From Stdlib Require Import SpecFloat.

Local Open Scope Z_scope.

(** ** [dtype.rs] *)

Inductive DType : Type := FP16 | FP32 | BF16 | INT8 | INT4.

#[export] Instance DType_eq_dec : EqDecision DType.
Proof. solve_decision. Defined.

Definition dtype_size_bytes (d : DType) : Z :=
  match d with FP16 => 2 | FP32 => 4 | BF16 => 2 | INT8 => 1 | INT4 => 1 end.

Definition is_packed (d : DType) : bool := match d with INT4 => true | _ => false end.

(** ** [tensor.rs] *)

Record DeviceTensor := {
  tensor_id : Z;          (* TensorId(u64) *)
  shape : list Z;         (* Vec<usize> *)
  dtype : DType
}.

(** [iter().product()] over [usize] *)
Definition uproduct (l : list Z) : result Z := foldl (λ acc d, let? a := acc in umul a d) (Ok 1) l.

Definition numel (t : DeviceTensor) : result Z := uproduct (shape t).

Definition size_bytes (t : DeviceTensor) : result Z :=
  let? n := numel t in
  if is_packed (dtype t) then Ok ((n + 1) / 2) else umul n (dtype_size_bytes (dtype t)).

Definition try_new (id : Z) (sh : list Z) (d : DType) : result DeviceTensor :=
  if bool_decide (sh = []) then Err (InvalidShape "shape must have at least one dimension")
  else if existsb (Z.eqb 0) sh then Err (InvalidShape "dimension is zero")
  else Ok {| tensor_id := id; shape := sh; dtype := d |}.

Definition reshape (t : DeviceTensor) (new_shape : list Z) : result DeviceTensor :=
  let? new_numel := uproduct new_shape in
  let? n := numel t in
  if negb (new_numel =? n) then Err (InvalidShape "cannot reshape tensor")
  else Ok {| tensor_id := tensor_id t; shape := new_shape; dtype := dtype t |}.

(** ** [model_config.rs] *)

Record ModelConfig := {
  hidden_size : Z;
  num_layers : Z;
  num_q_heads : Z;
  num_kv_heads : Z;
  head_dim : Z;
  intermediate_size : Z;
  vocab_size : Z;
  rope_theta : f64;
  rms_norm_eps : f64;
  max_seq_len : Z
}.

(** [a.is_multiple_of(b)] *)
Definition is_multiple_of (a b : Z) : bool :=
  if b =? 0 then a =? 0 else a mod b =? 0.

Definition validate (c : ModelConfig) : result unit :=
  if hidden_size c =? 0 then Err (ModelConfigError "hidden_size must be > 0")
  else if num_layers c =? 0 then Err (ModelConfigError "num_layers must be > 0")
  else if num_q_heads c =? 0 then Err (ModelConfigError "num_q_heads must be > 0")
  else if num_kv_heads c =? 0 then Err (ModelConfigError "num_kv_heads must be > 0")
  else if vocab_size c =? 0 then Err (ModelConfigError "vocab_size must be > 0")
  else
    let expected_head_dim := hidden_size c / num_q_heads c in
    if negb (head_dim c =? expected_head_dim) then
      Err (ModelConfigError "head_dim != hidden_size / num_q_heads")
    else if intermediate_size c =? 0 then Err (ModelConfigError "intermediate_size must be > 0")
    else if max_seq_len c =? 0 then Err (ModelConfigError "max_seq_len must be > 0")
    else if fle (rope_theta c) f32_zero then Err (ModelConfigError "rope_theta must be > 0.0")
    else if fle (rms_norm_eps c) f32_zero then Err (ModelConfigError "rms_norm_eps must be > 0.0")
    else if negb (is_multiple_of (num_q_heads c) (num_kv_heads c)) then
      Err (ModelConfigError "num_q_heads must be divisible by num_kv_heads")
    else Ok ().

Definition gqa_group_size (c : ModelConfig) : Z := num_q_heads c / num_kv_heads c.

(** ** [turboquant.rs]: configuration *)

Record TurboQuantConfig := {
  key_bits : Z;
  value_bits : Z;
  protected_bits : Z;
  protected_layers : Z;
  residual_tokens : Z;
  tq_seed : Z
}.

Definition TurboQuantConfig_default : TurboQuantConfig :=
  {| key_bits := 4; value_bits := 2; protected_bits := 8; protected_layers := 0;
     residual_tokens := 0; tq_seed := 42 |}.

Definition VALID_BITS : list Z := [2; 4; 8].

Definition tq_validate (c : TurboQuantConfig) : result unit :=
  if negb (bool_decide (key_bits c ∈ VALID_BITS)) then
    Err (ModelConfigError "TurboQuant key_bits must be 2, 4, or 8")
  else if negb (bool_decide (value_bits c ∈ VALID_BITS)) then
    Err (ModelConfigError "TurboQuant value_bits must be 2, 4, or 8")
  else if negb (bool_decide (protected_bits c ∈ VALID_BITS)) then
    Err (ModelConfigError "TurboQuant protected_bits must be 2, 4, or 8")
  else Ok ().

Definition is_protected (c : TurboQuantConfig) (layer n : Z) : bool :=
  (0 <? protected_layers c)
  && ((layer <? protected_layers c) || (saturating_sub n (protected_layers c) <=? layer)).

Definition key_bits_for_layer (c : TurboQuantConfig) (layer n : Z) : Z :=
  if is_protected c layer n then protected_bits c else key_bits c.

Definition value_bits_for_layer (c : TurboQuantConfig) (layer n : Z) : Z :=
  if is_protected c layer n then protected_bits c else value_bits c.

(** [Vec::dedup]: removes consecutive repeated elements. *)
Fixpoint dedup (l : list Z) : list Z :=
  match l with
  | [] => []
  | x :: l' =>
    match dedup l' with
    | [] => [x]
    | (y :: _) as r => if x =? y then r else x :: r
    end
  end.

Definition distinct_bit_widths (c : TurboQuantConfig) : list Z :=
  let bits := [key_bits c; value_bits c]
              ++ (if 0 <? protected_layers c then [protected_bits c] else []) in
  dedup (merge_sort Z.le bits).

Definition packed_dim_per_head (hd bits : Z) : result Z :=
  let? b := umul hd bits in Ok ((b + 7) / 8).

Definition bytes_per_block_layer (kv_heads hd kb vb : Z) : result Z :=
  let block_size := Ok 16 in
  let k_packed_bytes := block_size *! Ok kv_heads *! packed_dim_per_head hd kb in
  let v_packed_bytes := block_size *! Ok kv_heads *! packed_dim_per_head hd vb in
  let k_norm_bytes := block_size *! Ok kv_heads *! Ok 2 in
  let v_norm_bytes := block_size *! Ok kv_heads *! Ok 2 in
  k_packed_bytes +! v_packed_bytes +! k_norm_bytes +! v_norm_bytes.

(** [(0..n).map(f).sum()] *)
Definition usum (l : list (result Z)) : result Z := fold_left uaddr l (Ok 0).

Definition bytes_per_block_total (c : TurboQuantConfig) (n kv_heads hd : Z) : result Z :=
  usum ((λ layer,
    let kb := key_bits_for_layer c layer n in
    let vb := value_bits_for_layer c layer n in
    bytes_per_block_layer kv_heads hd kb vb) <$> seqZ 0 n).

Definition tq_compute_num_blocks (c : TurboQuantConfig)
    (gpu_available scratch_reserve n kv_heads hd : Z) : result Z :=
  let cache_budget := saturating_sub gpu_available scratch_reserve in
  let? bytes_per_block := bytes_per_block_total c n kv_heads hd in
  if bytes_per_block =? 0 then Ok 0 else Ok (cache_budget / bytes_per_block).

Definition rotation_seeds (base_seed layer : Z) : result (Z * Z) :=
  let? l := umul layer 1000 in
  let? k_seed := uadd base_seed l in
  let? v_seed := uadd k_seed 500 in
  Ok (k_seed, v_seed).

(** ** [turboquant.rs]: the Xoshiro256** generator *)

Definition shr64 (z k : Z) : Z := Z.shiftr z k.
Definition shl64 (z k : Z) : Z := wrap 64 (Z.shiftl z k).
Definition rotate_left (z k : Z) : Z := Z.lor (shl64 z k) (Z.shiftr z (64 - k)).
Definition wrapping_mul (a b : Z) : Z := wrap 64 (a * b).
Definition wrapping_add (a b : Z) : Z := wrap 64 (a + b).

Record Xoshiro256 := { s0 : Z; s1 : Z; s2 : Z; s3 : Z }.

(** One SplitMix64 step: the new counter and the output. *)
Definition splitmix (sm : Z) : Z * Z :=
  let sm := wrapping_add sm 0x9e3779b97f4a7c15 in
  let z := sm in
  let z := wrapping_mul (Z.lxor z (shr64 z 30)) 0xbf58476d1ce4e5b9 in
  let z := wrapping_mul (Z.lxor z (shr64 z 27)) 0x94d049bb133111eb in
  let z := Z.lxor z (shr64 z 31) in
  (sm, z).

Definition xoshiro_new (seed : Z) : Xoshiro256 :=
  let '(sm, a) := splitmix seed in
  let '(sm, b) := splitmix sm in
  let '(sm, c) := splitmix sm in
  let '(sm, d) := splitmix sm in
  {| s0 := a; s1 := b; s2 := c; s3 := d |}.

Definition next_u64 (x : Xoshiro256) : Xoshiro256 * Z :=
  let res := wrapping_mul (rotate_left (wrapping_mul (s1 x) 5) 7) 9 in
  let t := shl64 (s1 x) 17 in
  let n2 := Z.lxor (s2 x) (s0 x) in
  let n3 := Z.lxor (s3 x) (s1 x) in
  let n1 := Z.lxor (s1 x) n2 in
  let n0 := Z.lxor (s0 x) n3 in
  let n2 := Z.lxor n2 t in
  let n3 := rotate_left n3 45 in
  ({| s0 := n0; s1 := n1; s2 := n2; s3 := n3 |}, res).

(** ** Lemmas *)

Lemma elem_of_dedup x l : x ∈ dedup l ↔ x ∈ l.
Proof.
  induction l as [|y l IH]; simpl; [done |].
  destruct (dedup l) as [|z r] eqn:E.
  - rewrite !elem_of_cons, <- IH. done.
  - destruct (Z.eqb_spec y z) as [->|]; rewrite !elem_of_cons, <- IH, ?elem_of_cons; tauto.
Qed.

Lemma dedup_head_elem y z r l : dedup l = z :: r → StronglySorted Z.le (y :: l) → y ≤ z.
Proof.
  intros Hd Hs. inversion Hs; subst. rewrite Forall_forall in H2. apply H2.
  apply elem_of_dedup. rewrite Hd. left.
Qed.

Lemma dedup_sorted_lt l : StronglySorted Z.le l → StronglySorted Z.lt (dedup l).
Proof.
  induction l as [|y l IH]; intros Hs; simpl; [constructor |].
  assert (StronglySorted Z.le l) as Hl by (by inversion Hs). specialize (IH Hl).
  destruct (dedup l) as [|z r] eqn:E; [repeat constructor |].
  destruct (Z.eqb_spec y z) as [->|Hne]; [done |].
  constructor; [done |]. inversion IH; subst.
  pose proof (dedup_head_elem _ _ _ _ E Hs).
  constructor; [lia |]. eapply Forall_impl; [done |]. simpl. lia.
Qed.

Lemma elem_of_distinct_bit_widths c b :
  b ∈ distinct_bit_widths c ↔
  b = key_bits c ∨ b = value_bits c ∨ (0 < protected_layers c ∧ b = protected_bits c).
Proof.
  unfold distinct_bit_widths. rewrite elem_of_dedup, merge_sort_Permutation, elem_of_app.
  destruct (Z.ltb_spec 0 (protected_layers c)); set_solver by lia.
Qed.

Lemma is_protected_true c layer n :
  is_protected c layer n = true ↔
  0 < protected_layers c ∧ (layer < protected_layers c ∨ Z.max 0 (n - protected_layers c) ≤ layer).
Proof.
  unfold is_protected, saturating_sub.
  rewrite andb_true_iff, orb_true_iff, !Z.ltb_lt, Z.leb_le. done.
Qed.

(** ** Theorems *)

(** The codebook table built from [distinct_bit_widths] has an entry
    for the key and the value bit width of every layer, protected or not, so
    the lookup [centroid_tables[&bits]] never misses; the widths are listed
    in strictly increasing order, once each. *)
Theorem codebook_covers_layers c layer n :
  key_bits_for_layer c layer n ∈ distinct_bit_widths c ∧
  value_bits_for_layer c layer n ∈ distinct_bit_widths c ∧
  StronglySorted Z.lt (distinct_bit_widths c).
Proof.
  rewrite !elem_of_distinct_bit_widths. unfold key_bits_for_layer, value_bits_for_layer.
  split_and!.
  - destruct (is_protected c layer n) eqn:E; [apply is_protected_true in E |]; naive_solver.
  - destruct (is_protected c layer n) eqn:E; [apply is_protected_true in E |]; naive_solver.
  - apply dedup_sorted_lt, StronglySorted_merge_sort; apply _.
Qed.

(** What [ModelConfig::validate] accepts, as a proposition. *)
Definition config_consistent (c : ModelConfig) : Prop :=
  hidden_size c ≠ 0 ∧ num_layers c ≠ 0 ∧ num_q_heads c ≠ 0 ∧ num_kv_heads c ≠ 0 ∧
  vocab_size c ≠ 0 ∧ head_dim c = hidden_size c / num_q_heads c ∧ intermediate_size c ≠ 0 ∧
  max_seq_len c ≠ 0 ∧ fle (rope_theta c) f32_zero = false ∧ fle (rms_norm_eps c) f32_zero = false ∧
  num_q_heads c = num_kv_heads c * gqa_group_size c.

(** [validate] accepts exactly the consistent configurations, where
    the query heads split evenly into [gqa_group_size] heads per KV head. *)
Theorem validate_spec c : validate c = Ok () ↔ config_consistent c.
Proof.
  unfold validate, config_consistent, gqa_group_size. cbv zeta.
  repeat match goal with
  | |- (if ?x =? 0 then _ else _) = _ ↔ _ => destruct (Z.eqb_spec x 0)
  | |- (if negb (?x =? ?y) then _ else _) = _ ↔ _ => destruct (Z.eqb_spec x y); simpl
  | |- (if fle ?x ?y then _ else _) = _ ↔ _ => destruct (fle x y)
  | |- Err _ = _ ↔ _ => split; [done | intros; destruct_and!; congruence]
  end.
  unfold is_multiple_of. rewrite (proj2 (Z.eqb_neq _ _)) by done.
  pose proof (Z.div_mod (num_q_heads c) (num_kv_heads c) ltac:(done)).
  destruct (Z.eqb_spec (num_q_heads c mod num_kv_heads c) 0); simpl; split; intros; try done.
  - split_and!; try done. lia.
  - exfalso. lia.
Qed.

(** With a base seed that leaves room for the layers, every layer gets
    its two rotation seeds without overflow, and no two of the K and V seeds
    of any layers coincide. *)
Theorem rotation_seeds_distinct base l l' :
  0 ≤ base → 0 ≤ l → 0 ≤ l' → base + 1000 * Z.max l l' + 500 ≤ USIZE_MAX →
  ∃ k v k' v', rotation_seeds base l = Ok (k, v) ∧ rotation_seeds base l' = Ok (k', v') ∧
    k ≠ v' ∧ k' ≠ v ∧ (l ≠ l' → k ≠ k' ∧ v ≠ v').
Proof.
  intros Hb Hl Hl' Hmax. unfold USIZE_MAX in Hmax. change (2 ^ 64) with 18446744073709551616 in *.
  assert (∀ i, 0 ≤ i ≤ Z.max l l' →
    rotation_seeds base i = Ok (base + i * 1000, base + i * 1000 + 500)) as Hs.
  { intros i Hi. unfold rotation_seeds, umul, uadd.
    rewrite !checked_Ok; cbn [rbind]; rewrite ?checked_Ok; cbn [rbind]; rewrite ?checked_Ok;
      try done; unfold in_width; change (2 ^ 64) with 18446744073709551616; lia. }
  rewrite !Hs by lia. do 4 eexists. split_and!; [done.. | lia | lia |]. lia.
Qed.

Module CoreWitness.
Lemma rotation_seeds_distinct_witness :
  ∃ k v k' v', rotation_seeds 42 0 = Ok (k, v) ∧ rotation_seeds 42 31 = Ok (k', v') ∧
    k ≠ v' ∧ k' ≠ v ∧ (0 ≠ 31 → k ≠ k' ∧ v ≠ v').
Proof. apply (rotation_seeds_distinct 42 0 31); vm_compute; congruence. Defined.

(** The widths of a configuration with protected layers. *)
Example widths : distinct_bit_widths
    {| key_bits := 4; value_bits := 2; protected_bits := 8; protected_layers := 2;
       residual_tokens := 0; tq_seed := 42 |} = [2; 4; 8].
Proof. vm_compute. reflexivity. Qed.

(** Llama-3 8B is accepted; so is a hidden size that the heads do not divide. *)
Definition cfg (hidden q kv hd : Z) : ModelConfig :=
  {| hidden_size := hidden; num_layers := 32; num_q_heads := q; num_kv_heads := kv;
     head_dim := hd; intermediate_size := 14336; vocab_size := 128256;
     rope_theta := f32_of_Z 500000; rms_norm_eps := f32_lit 1 5; max_seq_len := 8192 |}.
Example llama3_ok : validate (cfg 4096 32 8 128) = Ok ().
Proof. vm_compute. reflexivity. Qed.
Example uneven_hidden_ok : validate (cfg 4098 32 8 128) = Ok ().
Proof. vm_compute. reflexivity. Qed.
End CoreWitness.
