(* ===== verification/TensorWire.v ===== *)
(** * Tensor wire header ([crates/fracture-protocol/src/tensor.rs])

    The compact tensor metadata sent with activations: its binary layout, the
    decoder, and the header built from a tensor's shape. *)

From S2P Require Import Prelude Core.

Local Open Scope Z_scope.

Record TensorWireHeader := {
  ndim : Z;              (* u16 *)
  wshape : list Z;       (* Vec<u32> *)
  wdtype : Z;            (* u8 *)
  compression : Z;       (* u8 *)
  data_len : Z           (* u32 *)
}.

Definition dtype_to_wire (d : DType) : Z :=
  match d with FP16 => 0 | FP32 => 1 | BF16 => 2 | INT8 => 3 | INT4 => 4 end.

Definition wire_to_dtype (tag : Z) : result DType :=
  match tag with
  | 0 => Ok FP16
  | 1 => Ok FP32
  | 2 => Ok BF16
  | 3 => Ok INT8
  | 4 => Ok INT4
  | _ => Err (Protocol "unknown dtype wire tag")
  end.

(** The [as u16] and [as u32] casts truncate. *)
Definition make_header (sh : list Z) (d : DType) (len : Z) : TensorWireHeader :=
  {| ndim := wrap 16 (Z.of_nat (length sh));
     wshape := wrap 32 <$> sh;
     wdtype := dtype_to_wire d;
     compression := 0;
     data_len := wrap 32 len |}.

Definition encode_tensor_header (h : TensorWireHeader) : list Z :=
  to_be_bytes 2 (ndim h)
  ++ (wshape h ≫= to_be_bytes 4)
  ++ [wdtype h; compression h]
  ++ to_be_bytes 4 (data_len h).

(** The loop [for _ in 0..ndim] that reads the dimensions: the shape and the
    offset after it. *)
Fixpoint read_dims (n : nat) (offset : nat) (data : list Z) : result (list Z * nat) :=
  match n with
  | 0%nat => Ok ([], offset)
  | S n' =>
    let? b := slice offset (offset + 4) data in
    let? (sh, off) := read_dims n' (offset + 4) data in
    Ok (from_be_bytes b :: sh, off)
  end.

Definition decode_tensor_header (data : list Z) : result (TensorWireHeader * nat) :=
  if bool_decide (length data < 2)%nat then Err (Protocol "tensor header too short for ndim")
  else
    let? b0 := index data 0 in
    let? b1 := index data 1 in
    let nd := from_be_bytes [b0; b1] in
    let shape_bytes := 4 * nd in
    let header_size := 2 + shape_bytes + 1 + 1 + 4 in
    if Z.of_nat (length data) <? header_size then Err (Protocol "tensor header too short")
    else
      let? (sh, offset) := read_dims (Z.to_nat nd) 2 data in
      let? dt := index data offset in
      let offset := (offset + 1)%nat in
      let? comp := index data offset in
      let offset := (offset + 1)%nat in
      let? len_bytes := slice offset (offset + 4) data in
      let dlen := from_be_bytes len_bytes in
      let offset := (offset + 4)%nat in
      let? _ := wire_to_dtype dt in
      if negb (comp =? 0) then Err (Protocol "unsupported compression type")
      else Ok ({| ndim := nd; wshape := sh; wdtype := dt; compression := comp; data_len := dlen |},
               offset).

(** ** Lemmas *)

(** The field types and the length agreement of a well-formed header. *)
Definition tensor_header_wf (h : TensorWireHeader) : Prop :=
  ndim h = Z.of_nat (length (wshape h)) ∧ in_width 16 (ndim h) ∧
  Forall (in_width 32) (wshape h) ∧ in_width 32 (data_len h) ∧
  (∃ d, wdtype h = dtype_to_wire d) ∧ compression h = 0.

Lemma wire_dtype_roundtrip d : wire_to_dtype (dtype_to_wire d) = Ok d.
Proof. by destruct d. Qed.

Lemma wire_to_dtype_inv t d : wire_to_dtype t = Ok d → t = dtype_to_wire d.
Proof.
  unfold wire_to_dtype.
  repeat (match goal with |- context [match ?x with _ => _ end] => is_var x; destruct x end;
          try discriminate); by intros [= <-].
Qed.

Lemma wire_to_dtype_no_panic t : wire_to_dtype t ≠ Panic.
Proof.
  unfold wire_to_dtype.
  by repeat (match goal with |- context [match ?x with _ => _ end] => is_var x; destruct x end).
Qed.

Lemma length_dims (sh : list Z) : length (sh ≫= to_be_bytes 4) = (4 * length sh)%nat.
Proof.
  induction sh as [|x sh IH]; [done |]. cbn -[to_be_bytes Nat.mul].
  rewrite length_app, length_to_be_bytes. change (mbind _ sh) with (sh ≫= to_be_bytes 4).
  rewrite IH. lia.
Qed.

(** Reading the dimensions of a buffer that contains them. *)
Lemma read_dims_app (sh p q : list Z) :
  Forall (in_width 32) sh →
  read_dims (length sh) (length p) (p ++ (sh ≫= to_be_bytes 4) ++ q)
  = Ok (sh, (length p + 4 * length sh)%nat).
Proof.
  revert p. induction sh as [|x sh IH]; intros p Hsh.
  { simpl. do 2 f_equal. lia. }
  inversion Hsh as [|? ? Hx Hsh']; subst. cbn [length read_dims].
  change ((x :: sh) ≫= to_be_bytes 4) with (to_be_bytes 4 x ++ (sh ≫= to_be_bytes 4)).
  rewrite <- (app_assoc (to_be_bytes 4 x)).
  rewrite slice_app_eq by (rewrite ?length_to_be_bytes; lia).
  cbn [rbind]. rewrite app_assoc.
  replace (length p + 4)%nat with (length (p ++ to_be_bytes 4 x))
    by (rewrite length_app, length_to_be_bytes; lia).
  rewrite IH by done. cbn [rbind]. rewrite from_to_be_bytes by done.
  do 2 f_equal. rewrite length_app, length_to_be_bytes. lia.
Qed.

(** A long enough buffer of bytes is such a buffer. *)
Lemma read_dims_total n off data :
  (off + 4 * n ≤ length data)%nat → Forall is_byte data →
  ∃ sh, read_dims n off data = Ok (sh, (off + 4 * n)%nat) ∧ length sh = n ∧
        Forall (in_width 32) sh ∧ take (4 * n) (drop off data) = (sh ≫= to_be_bytes 4).
Proof.
  revert off. induction n as [|n IH]; intros off Hlen Hb.
  { exists []. simpl. split_and!; try done; do 2 f_equal; lia. }
  cbn [read_dims]. rewrite slice_Ok by lia. cbn [rbind].
  destruct (IH (off + 4)%nat) as (sh & -> & Hsl & Hsw & Hst); [lia | done |]. cbn [rbind].
  set (b := take (off + 4 - off) (drop off data)).
  assert (length b = 4%nat) as Hbl by (unfold b; rewrite length_take, length_drop; lia).
  assert (Forall is_byte b) as Hbb by (by apply Forall_take, Forall_drop).
  exists (from_be_bytes b :: sh). split_and!.
  - do 2 f_equal. lia.
  - simpl. by rewrite Hsl.
  - constructor; [| done]. pose proof (from_be_bytes_width b Hbb) as Hw. by rewrite Hbl in Hw.
  - change ((from_be_bytes b :: sh) ≫= to_be_bytes 4)
      with (to_be_bytes 4 (from_be_bytes b) ++ (sh ≫= to_be_bytes 4)).
    rewrite <- Hst. pose proof (to_from_be_bytes b Hbb) as Eb. rewrite Hbl in Eb. rewrite Eb.
    unfold b. replace (off + 4 - off)%nat with 4%nat by lia.
    replace (4 * S n)%nat with (4 + 4 * n)%nat by lia.
    by rewrite <- drop_drop, take_take_drop.
Qed.

Lemma length_encode_tensor_header h :
  length (encode_tensor_header h) = (8 + 4 * length (wshape h))%nat.
Proof.
  unfold encode_tensor_header. rewrite !length_app, length_dims, !length_to_be_bytes. simpl. lia.
Qed.

Lemma byte_pair_ndim b0 b1 : is_byte b0 → is_byte b1 → in_width 16 (from_be_bytes [b0; b1]).
Proof. intros. apply (from_be_bytes_width [b0; b1]). forall_list. Qed.

(** The decoder on a long enough buffer, with its reads resolved. *)
Lemma decode_tensor_header_reads data :
  Forall is_byte data → (2 ≤ length data)%nat →
  ∃ nd, in_width 16 nd ∧ take 2 data = to_be_bytes 2 nd ∧
  (Z.of_nat (length data) < 8 + 4 * nd ∧
     decode_tensor_header data = Err (Protocol "tensor header too short")
   ∨ ∃ sh dt comp lb, Z.of_nat (length sh) = nd ∧ Forall (in_width 32) sh ∧
       length lb = 4%nat ∧ Forall is_byte lb ∧
       take (8 + 4 * length sh) data
         = to_be_bytes 2 nd ++ (sh ≫= to_be_bytes 4) ++ [dt; comp] ++ lb ∧
       decode_tensor_header data =
       (let? _ := wire_to_dtype dt in
        if negb (comp =? 0) then Err (Protocol "unsupported compression type")
        else Ok ({| ndim := nd; wshape := sh; wdtype := dt; compression := comp;
                    data_len := from_be_bytes lb |}, (8 + 4 * length sh)%nat))).
Proof.
  intros Hb Hlen. destruct data as [|b0 [|b1 r]]; [simpl in Hlen; lia.. |].
  inversion Hb as [|? ? H0 Hb']; subst. inversion Hb' as [|? ? H1 Hbr]; subst.
  pose proof (byte_pair_ndim b0 b1 H0 H1) as Hw. set (nd := from_be_bytes [b0; b1]) in *.
  exists nd. split; [done |]. split.
  { symmetry. apply (to_from_be_bytes [b0; b1]). forall_list. }
  unfold decode_tensor_header. rewrite bool_decide_false by (simpl; lia). cbn [index lookup list_lookup rbind].
  fold nd. destruct (Z.ltb_spec (Z.of_nat (length (b0 :: b1 :: r))) (2 + 4 * nd + 1 + 1 + 4)) as [Hs|Hs].
  { left. split; [lia | done]. }
  right. destruct Hw as [Hw1 Hw2].
  destruct (read_dims_total (Z.to_nat nd) 2 (b0 :: b1 :: r)) as (sh & -> & Hsl & Hsw & Hst);
    [lia | done |]. cbn [rbind].
  set (data := b0 :: b1 :: r) in *. set (o := (2 + 4 * Z.to_nat nd)%nat) in *.
  destruct (lookup_lt_is_Some_2 data o) as [dt Hdt]; [lia |].
  destruct (lookup_lt_is_Some_2 data (o + 1)) as [comp Hcomp]; [lia |].
  unfold index. rewrite Hdt, Hcomp. cbn [rbind].
  rewrite slice_Ok by lia. cbn [rbind].
  exists sh, dt, comp, (take (o + 1 + 1 + 4 - (o + 1 + 1)) (drop (o + 1 + 1) data)).
  split_and!; [lia | done | rewrite length_take, length_drop; lia
              | by apply Forall_take, Forall_drop | |].
  - replace (8 + 4 * length sh)%nat with (2 + (4 * Z.to_nat nd + (2 + 4)))%nat by lia.
    assert (to_be_bytes 2 nd = take 2 data) as ->.
    { apply (to_from_be_bytes [b0; b1]). forall_list. }
    rewrite <- Hst, <- !take_take_drop, drop_drop. fold o. do 3 f_equal.
    + replace (o + 1)%nat with (S o) in Hcomp by lia.
      by rewrite (drop_S _ _ _ Hdt), (drop_S _ _ _ Hcomp).
    + rewrite drop_drop. f_equal; [lia | f_equal; lia].
  - destruct (wire_to_dtype dt); try done. cbn [rbind]. case_if; [done |].
    do 2 f_equal. lia.
Qed.

(** ** Theorems *)

(** Decoding an encoded well-formed tensor header, followed by any
    data, returns the header and the number of bytes it occupies. *)
Theorem decode_encode_tensor_header h rest :
  tensor_header_wf h →
  decode_tensor_header (encode_tensor_header h ++ rest)
  = Ok (h, length (encode_tensor_header h)).
Proof.
  intros (Hnd & Hw & Hsh & Hdl & [d Hd] & Hc).
  rewrite length_encode_tensor_header. unfold encode_tensor_header. rewrite <- !app_assoc.
  unfold decode_tensor_header.
  pose proof (length_to_be_bytes 2 (ndim h)) as H2.
  pose proof (from_to_be_bytes 2 _ Hw) as E2.
  destruct (to_be_bytes 2 (ndim h)) as [|b0 [|b1 [|]]]; try (simpl in H2; lia).
  rewrite bool_decide_false by (simpl; lia). cbn [app index lookup list_lookup rbind].
  rewrite E2.
  replace (_ <? _) with false.
  2:{ symmetry. apply Z.ltb_ge.
      cbn [length]. rewrite !length_app, length_dims. cbn [length]. rewrite length_app, length_to_be_bytes. lia. }
  rewrite Hnd, Nat2Z.id. change (b0 :: b1 :: ?x) with ([b0; b1] ++ x).
  rewrite (read_dims_app _ [b0; b1]) by done. cbn [rbind].
  set (o := (length [b0; b1] + 4 * length (wshape h))%nat).
  set (p := [b0; b1] ++ (wshape h ≫= to_be_bytes 4)). rewrite (app_assoc [b0; b1]). fold p.
  assert (length p = o) as Ho by (unfold p; by rewrite length_app, length_dims).
  unfold index. rewrite (lookup_app_r _ _ o), (lookup_app_r _ _ (o + 1)), Ho by lia.
  replace (o - o)%nat with 0%nat by lia. replace (o + 1 - o)%nat with 1%nat by lia.
  cbn [lookup list_lookup rbind].
  change (wdtype h :: compression h :: ?x) with ([wdtype h; compression h] ++ x).
  rewrite (app_assoc p).
  rewrite slice_app_eq by (rewrite ?length_app, ?length_to_be_bytes, ?Ho; simpl; lia).
  cbn [rbind]. rewrite Hd, wire_dtype_roundtrip. cbn [rbind]. rewrite Hc. cbn [Z.eqb negb].
  rewrite from_to_be_bytes by done. do 2 f_equal; [| unfold o; simpl; lia].
  destruct h; simpl in *; congruence.
Qed.

(** The tensor header decoder never panics, and a header it accepts is
    well formed and is exactly what the consumed bytes encode. *)
Theorem decode_tensor_header_canonical data :
  Forall is_byte data →
  decode_tensor_header data ≠ Panic ∧
  ∀ h n, decode_tensor_header data = Ok (h, n) →
    tensor_header_wf h ∧ take n data = encode_tensor_header h.
Proof.
  intros Hb. destruct (decide (2 ≤ length data)%nat) as [Hlen|Hlen].
  2:{ unfold decode_tensor_header. rewrite bool_decide_true by lia. split; [done | by intros]. }
  destruct (decode_tensor_header_reads data Hb Hlen)
    as (nd & Hnd & _ & [[_ ->] | (sh & dt & comp & lb & Hsl & Hsw & Hlb & Hlbb & Ht & ->)]).
  { split; [done | by intros]. }
  split.
  { apply rbind_no_panic; [apply wire_to_dtype_no_panic |]. intros. by case_if. }
  intros h n (d & ->%wire_to_dtype_inv & Hr)%rbind_Ok.
  destruct (Z.eqb_spec comp 0) as [-> |]; [| done]. cbn [negb] in Hr. injection Hr as <- <-.
  pose proof (from_be_bytes_width lb Hlbb) as Hw. rewrite Hlb in Hw.
  pose proof (to_from_be_bytes lb Hlbb) as Elb. rewrite Hlb in Elb.
  split; [split_and!; simpl; eauto |].
  etransitivity; [exact Ht |].
  unfold encode_tensor_header. cbn [ndim wshape wdtype compression data_len]. by rewrite Elb.
Qed.

Module TensorWireWitness.
Definition act_header : TensorWireHeader := make_header [12; 4096] FP16 98304.

Lemma decode_encode_tensor_header_witness :
  decode_tensor_header (encode_tensor_header act_header ++ [7; 7]) = Ok (act_header, 16%nat).
Proof.
  apply (decode_encode_tensor_header act_header [7; 7]).
  split; [reflexivity |]. split; [decide_now |]. split; [decide_now |].
  split; [decide_now |]. split; [by exists FP16 | reflexivity].
Defined.

Lemma decode_tensor_header_canonical_witness :
  decode_tensor_header [255; 255; 0] ≠ Panic ∧
  ∀ h n, decode_tensor_header [255; 255; 0] = Ok (h, n) →
    tensor_header_wf h ∧ take n [255; 255; 0] = encode_tensor_header h.
Proof.
  apply (decode_tensor_header_canonical [255; 255; 0]).
  decide_now.
Defined.

(** A dimension of 2^32 is truncated on the wire. *)
Example make_header_truncates : wshape (make_header [4294967297] FP16 0) = [1].
Proof. vm_compute. reflexivity. Qed.
End TensorWireWitness.
