(* ===== verification/Frame.v ===== *)
(** * Wire frames ([crates/fracture-protocol/src/frame.rs])

    The frame header, the message types, and the complete frame with its
    CRC32C trailer.  The CRC function is the external crate [crc32c], a
    parameter of the model; what the code relies on is that its result is a
    [u32]. *)

From S2P Require Import Prelude.

Definition MAGIC : list Z := [0x46; 0x52]%Z.
Definition VERSION : Z := 0x01.
Definition HEADER_SIZE : nat := 16.
Definition CRC_SIZE : nat := 4.
Definition MAX_PAYLOAD_SIZE : Z := (256 * 1024 * 1024)%Z.

Inductive MessageType : Type :=
  | Register | RegisterAck | Forward | ForwardResult | Heartbeat | HeartbeatAck
  | CacheAlloc | CacheFree | Shutdown | ErrorMsg | CacheAllocAck | BatchedForward
  | BatchedForwardResult | WorkerReady | Reconfigure | ElectionStart
  | ElectionChallenge | Victory | ClusterManifest | ReRegister | LeaveIntent
  | WhoIsCoordinator | WhoIsCoordinatorResponse.

#[export] Instance MessageType_eq_dec : EqDecision MessageType.
Proof. solve_decision. Defined.

(** The [#[repr(u8)]] discriminants: [msg_type as u8]. *)
Definition msg_type_u8 (m : MessageType) : Z :=
  match m with
  | Register => 0x01 | RegisterAck => 0x02 | Forward => 0x03 | ForwardResult => 0x04
  | Heartbeat => 0x05 | HeartbeatAck => 0x06 | CacheAlloc => 0x07 | CacheFree => 0x08
  | Shutdown => 0x09 | ErrorMsg => 0x0A | CacheAllocAck => 0x0B | BatchedForward => 0x0C
  | BatchedForwardResult => 0x0D | WorkerReady => 0x0E | Reconfigure => 0x0F
  | ElectionStart => 0x10 | ElectionChallenge => 0x11 | Victory => 0x12
  | ClusterManifest => 0x13 | ReRegister => 0x14 | LeaveIntent => 0x15
  | WhoIsCoordinator => 0x16 | WhoIsCoordinatorResponse => 0x17
  end%Z.

(** [MessageType::from_u8] *)
Definition from_u8 (v : Z) : result MessageType :=
  match v with
  | 0x01 => Ok Register
  | 0x02 => Ok RegisterAck
  | 0x03 => Ok Forward
  | 0x04 => Ok ForwardResult
  | 0x05 => Ok Heartbeat
  | 0x06 => Ok HeartbeatAck
  | 0x07 => Ok CacheAlloc
  | 0x08 => Ok CacheFree
  | 0x09 => Ok Shutdown
  | 0x0A => Ok ErrorMsg
  | 0x0B => Ok CacheAllocAck
  | 0x0C => Ok BatchedForward
  | 0x0D => Ok BatchedForwardResult
  | 0x0E => Ok WorkerReady
  | 0x0F => Ok Reconfigure
  | 0x10 => Ok ElectionStart
  | 0x11 => Ok ElectionChallenge
  | 0x12 => Ok Victory
  | 0x13 => Ok ClusterManifest
  | 0x14 => Ok ReRegister
  | 0x15 => Ok LeaveIntent
  | 0x16 => Ok WhoIsCoordinator
  | 0x17 => Ok WhoIsCoordinatorResponse
  | _ => Err (Protocol "unknown message type")
  end%Z.

Record FrameHeader := {
  msg_type : MessageType;
  seq_id : Z;        (* u64 *)
  payload_len : Z    (* u32 *)
}.

(** The 16 bytes [encode_header] writes into the buffer. *)
Definition encode_header (h : FrameHeader) : list Z :=
  MAGIC ++ [VERSION; msg_type_u8 (msg_type h)]
  ++ to_be_bytes 8 (seq_id h) ++ to_be_bytes 4 (payload_len h).

Definition decode_header (buf : list Z) : result FrameHeader :=
  let? b0 := index buf 0 in
  let? b1 := index buf 1 in
  let? m0 := index MAGIC 0 in
  let? m1 := index MAGIC 1 in
  if negb (b0 =? m0)%Z || negb (b1 =? m1)%Z then Err (Protocol "invalid magic")
  else
    let? b2 := index buf 2 in
    if negb (b2 =? VERSION)%Z then Err (Protocol "unsupported protocol version")
    else
      let? b3 := index buf 3 in
      let? mt := from_u8 b3 in
      let? seq_bytes := slice 4 12 buf in
      let sid := from_be_bytes seq_bytes in
      let? len_bytes := slice 12 16 buf in
      let plen := from_be_bytes len_bytes in
      if (MAX_PAYLOAD_SIZE <? plen)%Z then Err (Protocol "payload length exceeds maximum")
      else Ok {| msg_type := mt; seq_id := sid; payload_len := plen |}.

(** [usize::checked_add] *)
Definition checked_add (a b : Z) : option Z :=
  if bool_decide (in_width 64 (a + b)) then Some (a + b)%Z else None.

Section frame.
(** [crc32c::crc32c] *)
Variable crc32c : list Z → Z.

Definition encode_frame (h : FrameHeader) (payload : list Z) : list Z :=
  let buf := encode_header h ++ payload in
  buf ++ to_be_bytes 4 (crc32c buf).

Definition verify_crc (header_and_payload : list Z) (expected_crc : Z) : result unit :=
  if negb (crc32c header_and_payload =? expected_crc)%Z
  then Err (Protocol "CRC32C mismatch") else Ok ().

Definition decode_frame_from_bytes (bytes : list Z) : result (FrameHeader * list Z) :=
  if bool_decide (length bytes < HEADER_SIZE)%nat then Err (Protocol "frame truncated: header")
  else
    let? hdr_buf := slice 0 HEADER_SIZE bytes in
    let? header := decode_header hdr_buf in
    let plen := payload_len header in
    match checked_add (Z.of_nat HEADER_SIZE) plen ≫= λ n, checked_add n (Z.of_nat CRC_SIZE) with
    | None => Err (Protocol "frame size arithmetic overflow")
    | Some frame_end =>
      if (Z.of_nat (length bytes) <? frame_end)%Z then Err (Protocol "frame truncated")
      else
        let payload_start := HEADER_SIZE in
        let payload_end := (payload_start + Z.to_nat plen)%nat in
        let? payload := slice payload_start payload_end bytes in
        let? crc_bytes := slice payload_end (payload_end + CRC_SIZE) bytes in
        let expected_crc := from_be_bytes crc_bytes in
        let? covered := slice 0 payload_end bytes in
        let? _ := verify_crc covered expected_crc in
        Ok (header, payload)
    end.
End frame.

(** ** Lemmas *)

(** What a header in memory satisfies by its Rust types. *)
Definition header_typed (h : FrameHeader) : Prop :=
  in_width 64 (seq_id h) ∧ in_width 32 (payload_len h).

Lemma from_u8_msg_type_u8 m : from_u8 (msg_type_u8 m) = Ok m.
Proof. by destruct m. Qed.

Lemma from_u8_inv v m : from_u8 v = Ok m → v = msg_type_u8 m.
Proof.
  unfold from_u8.
  repeat (match goal with |- context [match ?x with _ => _ end] => is_var x; destruct x end;
          try discriminate); by intros [= <-].
Qed.

Lemma from_u8_no_panic v : from_u8 v ≠ Panic.
Proof.
  unfold from_u8.
  by repeat (match goal with |- context [match ?x with _ => _ end] => is_var x; destruct x end).
Qed.
#[export] Hint Resolve from_u8_no_panic : fracture.

Lemma length_encode_header h : length (encode_header h) = HEADER_SIZE.
Proof.
  unfold encode_header. by rewrite !length_app, !length_to_be_bytes.
Qed.

Lemma encode_header_byte h : Forall is_byte (encode_header h).
Proof.
  unfold encode_header. rewrite !Forall_app.
  split_and!; try apply to_be_bytes_byte; repeat apply Forall_cons_2; try apply Forall_nil_2;
    unfold is_byte, in_width, VERSION; try destruct (msg_type h); simpl; lia.
Qed.

(** A header buffer is 16 explicit bytes. *)
Lemma decode_header_split buf :
  length buf = HEADER_SIZE →
  ∃ b0 b1 b2 b3 (s l : list Z), buf = [b0; b1; b2; b3] ++ s ++ l ∧ length s = 8%nat ∧ length l = 4%nat.
Proof.
  intros Hlen. unfold HEADER_SIZE in Hlen.
  destruct buf as [|b0 [|b1 [|b2 [|b3 r]]]]; try (simpl in Hlen; lia).
  exists b0, b1, b2, b3, (take 8 r), (drop 8 r). simpl in Hlen.
  split; [by rewrite (take_drop 8 r) |]. rewrite length_take, length_drop. lia.
Qed.

Lemma decode_header_app b0 b1 b2 b3 (s l : list Z) :
  length s = 8%nat → length l = 4%nat →
  decode_header ([b0; b1; b2; b3] ++ s ++ l) =
  (if negb (b0 =? 0x46)%Z || negb (b1 =? 0x52)%Z then Err (Protocol "invalid magic")
   else if negb (b2 =? VERSION)%Z then Err (Protocol "unsupported protocol version")
   else let? mt := from_u8 b3 in
        if (MAX_PAYLOAD_SIZE <? from_be_bytes l)%Z then Err (Protocol "payload length exceeds maximum")
        else Ok {| msg_type := mt; seq_id := from_be_bytes s; payload_len := from_be_bytes l |}).
Proof.
  intros Hs Hl. unfold decode_header.
  assert (slice 4 12 ([b0; b1; b2; b3] ++ s ++ l) = Ok s) as ->.
  { replace 12%nat with (length [b0; b1; b2; b3] + length s)%nat by (simpl; lia).
    apply (slice_app [b0; b1; b2; b3]). }
  assert (slice 12 16 ([b0; b1; b2; b3] ++ s ++ l) = Ok l) as ->.
  { rewrite app_assoc, <- (app_nil_r l) at 1.
    replace 16%nat with (length ([b0; b1; b2; b3] ++ s) + length l)%nat
      by (rewrite length_app; simpl; lia).
    replace 12%nat with (length ([b0; b1; b2; b3] ++ s)) by (rewrite length_app; simpl; lia).
    apply slice_app. }
  simpl. destruct (from_u8 b3); done.
Qed.

Lemma decode_header_no_panic buf : length buf = HEADER_SIZE → decode_header buf ≠ Panic.
Proof.
  intros (b0 & b1 & b2 & b3 & s & l & -> & Hs & Hl)%decode_header_split.
  rewrite decode_header_app by done. repeat case_if; try done;
    by apply rbind_no_panic; [apply from_u8_no_panic |].
Qed.

Lemma decode_header_inv buf h :
  length buf = HEADER_SIZE → Forall is_byte buf → decode_header buf = Ok h →
  buf = encode_header h ∧ header_typed h ∧ (payload_len h ≤ MAX_PAYLOAD_SIZE)%Z.
Proof.
  intros (b0 & b1 & b2 & b3 & s & l & -> & Hs & Hl)%decode_header_split Hb.
  rewrite decode_header_app by done.
  rewrite !Forall_app in Hb. destruct Hb as (_ & Hbs & Hbl).
  destruct (_ || _) eqn:Hm; [done |]. apply orb_false_iff in Hm as [->%negb_false_iff%Z.eqb_eq ->%negb_false_iff%Z.eqb_eq].
  destruct (negb (b2 =? VERSION)%Z) eqn:Hv; [done |]. apply negb_false_iff, Z.eqb_eq in Hv as ->.
  intros (mt & ->%from_u8_inv & Hmt)%rbind_Ok.
  destruct (_ <? _)%Z eqn:Hmax; [done |]. injection Hmt as <-. apply Z.ltb_ge in Hmax.
  pose proof (from_be_bytes_width s Hbs) as Ws. pose proof (from_be_bytes_width l Hbl) as Wl.
  rewrite Hs in Ws. rewrite Hl in Wl.
  split; [| split; [split; done | done]].
  unfold encode_header; cbn [msg_type seq_id payload_len].
  pose proof (to_from_be_bytes s Hbs) as Es. pose proof (to_from_be_bytes l Hbl) as El.
  rewrite Hs in Es. rewrite Hl in El. by rewrite Es, El.
Qed.

Lemma decode_encode_header h :
  header_typed h → (payload_len h ≤ MAX_PAYLOAD_SIZE)%Z → decode_header (encode_header h) = Ok h.
Proof.
  intros [Hs Hl] Hmax. unfold encode_header. rewrite app_assoc.
  change (MAGIC ++ [VERSION; msg_type_u8 (msg_type h)])
    with ([0x46; 0x52; VERSION; msg_type_u8 (msg_type h)]%Z).
  rewrite decode_header_app by apply length_to_be_bytes. simpl.
  rewrite from_u8_msg_type_u8. simpl.
  rewrite !from_to_be_bytes by done.
  replace (_ <? _)%Z with false by (symmetry; apply Z.ltb_ge; lia). by destruct h.
Qed.

Lemma decode_header_oversize h :
  header_typed h → (MAX_PAYLOAD_SIZE < payload_len h)%Z →
  decode_header (encode_header h) = Err (Protocol "payload length exceeds maximum").
Proof.
  intros [Hs Hl] Hmax. unfold encode_header. rewrite app_assoc.
  change (MAGIC ++ [VERSION; msg_type_u8 (msg_type h)])
    with ([0x46; 0x52; VERSION; msg_type_u8 (msg_type h)]%Z).
  rewrite decode_header_app by apply length_to_be_bytes. simpl.
  rewrite from_u8_msg_type_u8. simpl. rewrite !from_to_be_bytes by done.
  by rewrite (proj2 (Z.ltb_lt _ _)).
Qed.

Lemma checked_add_frame_end plen :
  in_width 32 plen →
  (checked_add (Z.of_nat HEADER_SIZE) plen ≫= λ n, checked_add n (Z.of_nat CRC_SIZE))
  = Some (20 + plen)%Z.
Proof.
  intros [? ?]. change (2 ^ 32)%Z with 4294967296%Z in *.
  unfold checked_add, HEADER_SIZE, CRC_SIZE. 
  rewrite bool_decide_true by (unfold in_width; change (2^64)%Z with 18446744073709551616%Z; lia).
  simpl. rewrite bool_decide_true by (unfold in_width; change (2^64)%Z with 18446744073709551616%Z; lia).
  f_equal; lia.
Qed.

Section frame_theorems.
Variable crc32c : list Z → Z.
(** The crate returns a [u32]. *)
Hypothesis crc32c_u32 : ∀ l, in_width 32 (crc32c l).

(** Decoding a buffer whose parts are known. *)
Lemma decode_frame_parts hdr payload crcb rest h :
  length hdr = HEADER_SIZE → decode_header hdr = Ok h →
  in_width 32 (payload_len h) →
  payload_len h = Z.of_nat (length payload) → length crcb = CRC_SIZE →
  decode_frame_from_bytes crc32c (hdr ++ payload ++ crcb ++ rest) =
  (let? _ := verify_crc crc32c (hdr ++ payload) (from_be_bytes crcb) in Ok (h, payload)).
Proof using Type.
  intros Hlen Hdec Hw Hpl Hcrc. unfold decode_frame_from_bytes.
  rewrite bool_decide_false by (rewrite length_app, Hlen; unfold HEADER_SIZE; lia).
  assert (slice 0 HEADER_SIZE (hdr ++ payload ++ crcb ++ rest) = Ok hdr) as ->.
  { rewrite <- Hlen. apply (slice_app []). }
  cbn [rbind]. rewrite Hdec. cbn [rbind].
  rewrite checked_add_frame_end by done. rewrite Hpl, Nat2Z.id.
  replace (_ <? _)%Z with false.
  2:{ symmetry; apply Z.ltb_ge. rewrite !length_app, Hlen, Hcrc. unfold HEADER_SIZE, CRC_SIZE. lia. }
  cbv zeta. rewrite <- Hlen, slice_app. cbn [rbind].
  replace (slice (length hdr + length payload) _ _) with (Ok crcb).
  2:{ rewrite <- Hcrc, <- length_app, app_assoc. symmetry. apply slice_app. }
  cbn [rbind].
  replace (slice 0 (length hdr + length payload) _) with (Ok (hdr ++ payload)).
  2:{ rewrite <- length_app, app_assoc. symmetry. apply (slice_app []). }
  done.
Qed.

(** Every buffer that passes the length checks has that shape. *)
Lemma decode_frame_split (bytes : list Z) (h : FrameHeader) :
  (20 + payload_len h ≤ Z.of_nat (length bytes))%Z → in_width 32 (payload_len h) →
  ∃ hdr payload crcb rest : list Z,
    bytes = hdr ++ payload ++ crcb ++ rest ∧ length hdr = HEADER_SIZE ∧
    payload_len h = Z.of_nat (length payload) ∧ length crcb = CRC_SIZE.
Proof using Type.
  intros Hlen [Hp _]. set (p := Z.to_nat (payload_len h)).
  exists (take 16 bytes), (take p (drop 16 bytes)), (take 4 (drop (16 + p) bytes)),
    (drop (20 + p) bytes).
  split_and!.
  - rewrite <- (take_drop 16 bytes) at 1. f_equal.
    rewrite <- (take_drop p (drop 16 bytes)) at 1. f_equal. rewrite drop_drop.
    rewrite <- (take_drop 4 (drop (16 + p) bytes)) at 1. f_equal. rewrite drop_drop. f_equal. lia.
  - unfold HEADER_SIZE. rewrite length_take. lia.
  - rewrite length_take, length_drop. lia.
  - unfold CRC_SIZE. rewrite length_take, length_drop. lia.
Qed.

(** C26: decoding the encoding of a frame returns the header and the
    payload, whatever bytes follow the frame in the buffer. *)
Theorem decode_encode_frame h payload rest :
  header_typed h → payload_len h = Z.of_nat (length payload) →
  (payload_len h ≤ MAX_PAYLOAD_SIZE)%Z →
  decode_frame_from_bytes crc32c (encode_frame crc32c h payload ++ rest) = Ok (h, payload).
Proof using crc32c_u32.
  intros Ht Hpl Hmax. unfold encode_frame. rewrite <- !app_assoc.
  rewrite (decode_frame_parts _ _ _ _ h)
    by (first [apply length_encode_header | by apply decode_encode_header | apply Ht
              | apply length_to_be_bytes | done]).
  unfold verify_crc. rewrite from_to_be_bytes by apply crc32c_u32. by rewrite Z.eqb_refl.
Qed.

Lemma decode_frame_no_panic bytes :
  Forall is_byte bytes →
  decode_frame_from_bytes crc32c bytes ≠ Panic.
Proof using Type.
  intros Hb. unfold decode_frame_from_bytes.
  case_bool_decide as Hlen; [done |]. unfold HEADER_SIZE in Hlen.
  rewrite slice_Ok by (unfold HEADER_SIZE; lia). cbn [rbind].
  set (hdr := take _ _). assert (length hdr = HEADER_SIZE) as Hh.
  { unfold hdr, HEADER_SIZE. rewrite length_take, length_drop. lia. }
  apply rbind_no_panic; [by apply decode_header_no_panic |]. intros h Hdec.
  apply decode_header_inv in Hdec as (_ & [_ Hw] & _); [| done |].
  2:{ unfold hdr. by apply Forall_take, Forall_drop. }
  rewrite checked_add_frame_end by done.
  destruct (_ <? _)%Z eqn:Hlt; [done |]. apply Z.ltb_ge in Hlt. destruct Hw as [Hw _].
  unfold HEADER_SIZE, CRC_SIZE. cbv zeta.
  rewrite !slice_Ok by lia. cbn [rbind]. unfold verify_crc. by case_if.
Qed.

Lemma decode_frame_inv bytes h payload :
  Forall is_byte bytes →
  decode_frame_from_bytes crc32c bytes = Ok (h, payload) →
  (∃ rest, bytes = encode_frame crc32c h payload ++ rest) ∧
  header_typed h ∧ payload_len h = Z.of_nat (length payload) ∧
  (payload_len h ≤ MAX_PAYLOAD_SIZE)%Z.
Proof using Type.
  intros Hb Hdec. pose proof Hdec as Hdec0. unfold decode_frame_from_bytes in Hdec.
  case_bool_decide as Hlen; [done |]. unfold HEADER_SIZE in Hlen.
  apply rbind_Ok in Hdec as (hdr & Hhdr & Hdec).
  apply rbind_Ok in Hdec as (h' & Hh' & Hdec).
  pose proof (slice_length _ _ _ _ Hhdr) as Hhl.
  apply slice_inv in Hhdr as (_ & _ & Ehdr).
  assert (Forall is_byte hdr) as Hbh by (rewrite Ehdr; by apply Forall_take, Forall_drop).
  destruct (decode_header_inv hdr h') as (Eh & [Hw64 Hw] & Hmax); [done.. |].
  rewrite checked_add_frame_end in Hdec by done.
  destruct (_ <? _)%Z eqn:Hlt; [done |]. apply Z.ltb_ge in Hlt. clear Hdec.
  destruct (decode_frame_split bytes h') as (hd & pl & cb & rest & -> & H1 & H2 & H3);
    [lia | done |].
  assert (hd = hdr) as -> by (by rewrite Ehdr, <- H1, Nat.sub_0_r, drop_0, take_app_length).
  rewrite (decode_frame_parts _ _ _ _ h') in Hdec0 by done.
  apply rbind_Ok in Hdec0 as (? & Hv & [= <- <-]).
  split_and!; try done. exists rest. unfold encode_frame. rewrite <- Eh, <- !app_assoc.
  do 3 f_equal. unfold verify_crc in Hv.
  destruct (negb _) eqn:Hc; [done |]. apply negb_false_iff, Z.eqb_eq in Hc as ->.
  rewrite !Forall_app in Hb. destruct Hb as (_ & _ & Hcb & _).
  apply to_from_be_bytes in Hcb. by rewrite H3 in Hcb.
Qed.
(** The decoder never panics: on every byte sequence it returns a
    frame or an error. *)
Theorem decode_frame_total bytes :
  Forall is_byte bytes →
  decode_frame_from_bytes crc32c bytes ≠ Panic.
Proof using Type. apply decode_frame_no_panic. Qed.

(** Whatever the decoder accepts is the canonical encoding of what it
    returns: the input starts with [encode_frame] of the returned header and
    payload, and the payload length is exact and within the cap. *)
Theorem decode_frame_canonical bytes h payload :
  Forall is_byte bytes →
  decode_frame_from_bytes crc32c bytes = Ok (h, payload) →
  (∃ rest, bytes = encode_frame crc32c h payload ++ rest) ∧
  header_typed h ∧ payload_len h = Z.of_nat (length payload) ∧
  (payload_len h ≤ MAX_PAYLOAD_SIZE)%Z.
Proof using Type. apply decode_frame_inv. Qed.
End frame_theorems.

(** ** Witnesses

    A concrete CRC: the bitwise CRC-32C (polynomial 0x82F63B78, reflected). *)

Module FrameWitness.
Fixpoint crc_bits (n : nat) (c : Z) : Z :=
  match n with
  | 0%nat => c
  | S n' => crc_bits n' (if Z.odd c then Z.lxor (Z.shiftr c 1) 0x82F63B78%Z else Z.shiftr c 1)
  end.
Definition crc32c_ref (l : list Z) : Z :=
  Z.lxor (wrap 32 (fold_left (λ c b, crc_bits 8 (Z.lxor c b)) l 0xFFFFFFFF%Z)) 0xFFFFFFFF%Z.

Lemma crc32c_ref_u32 l : in_width 32 (crc32c_ref l).
Proof.
  unfold crc32c_ref. set (x := wrap 32 _).
  assert (in_width 32 x) as [Hx1 Hx2] by (apply wrap_in_width; lia).
  split; [by apply Z.lxor_nonneg |].
  destruct (decide (Z.lxor x 0xFFFFFFFF = 0)%Z) as [-> | Hne]; [done |].
  assert (0 ≤ Z.lxor x 0xFFFFFFFF)%Z by (by apply Z.lxor_nonneg).
  apply Z.log2_lt_pow2; [lia |].
  eapply Z.le_lt_trans; [apply Z.log2_lxor; lia |].
  apply Z.max_lub_lt; [| reflexivity].
  destruct (decide (x = 0)%Z) as [-> | ?]; [done |]. apply Z.log2_lt_pow2; lia.
Qed.

(** The check value of CRC-32C on the ASCII string 123456789. *)
Example crc32c_ref_check :
  crc32c_ref [49; 50; 51; 52; 53; 54; 55; 56; 57]%Z = 0xE3069283%Z.
Proof. vm_compute. reflexivity. Qed.

Definition hb_header : FrameHeader := {| msg_type := Heartbeat; seq_id := 7; payload_len := 3 |}.

Lemma decode_encode_frame_witness :
  decode_frame_from_bytes crc32c_ref (encode_frame crc32c_ref hb_header [1; 2; 255]%Z ++ [9]%Z)
  = Ok (hb_header, [1; 2; 255]%Z).
Proof.
  apply (decode_encode_frame crc32c_ref crc32c_ref_u32 hb_header [1; 2; 255]%Z [9]%Z);
    [split; decide_now | reflexivity | decide_now].
Defined.

Lemma decode_frame_total_witness :
  decode_frame_from_bytes crc32c_ref [0x46; 0x52; 1; 255]%Z ≠ Panic.
Proof.
  apply (decode_frame_total crc32c_ref).
  decide_now.
Defined.

Lemma decode_frame_canonical_witness :
  ∃ rest, encode_frame crc32c_ref hb_header [1; 2; 255]%Z ++ [9]%Z
          = encode_frame crc32c_ref hb_header [1; 2; 255]%Z ++ rest.
Proof.
  apply (decode_frame_canonical crc32c_ref
    (encode_frame crc32c_ref hb_header [1; 2; 255]%Z ++ [9]%Z) hb_header [1; 2; 255]%Z).
  - decide_now.
  - vm_compute. reflexivity.
Defined.
End FrameWitness.
