(* ===== verification/Connection.v ===== *)
(** * Framed connections ([crates/fracture-protocol/src/connection.rs])

    The byte streams of a TCP connection: a writer is the sequence of bytes
    handed to the socket, a reader the sequence of bytes the peer has sent
    until it closed.  [BufReader]/[BufWriter] and the socket are external; what
    is used of them is that bytes arrive in order, that [read_exact] fails
    with [UnexpectedEof] when the stream ends first, and that writing to a
    closed socket fails. *)

From S2P Require Import Prelude Frame.

Local Open Scope Z_scope.

Record FramedWriter := { w_sent : list Z; w_open : bool }.
Record FramedReader := { r_stream : list Z }.

(** [AsyncWriteExt::write_all], [flush] and [AsyncReadExt::read_exact] *)
Definition write_all (bs : list Z) : st FramedWriter unit := λ w,
  if w_open w then ({| w_sent := w_sent w ++ bs; w_open := true |}, Ok ())
  else (w, Err (Io "broken pipe")).
Definition flush : st FramedWriter unit := λ w,
  if w_open w then (w, Ok ()) else (w, Err (Io "broken pipe")).
Definition read_exact (n : Z) : st FramedReader (list Z) := λ r,
  if n <=? Z.of_nat (length (r_stream r))
  then ({| r_stream := drop (Z.to_nat n) (r_stream r) |}, Ok (take (Z.to_nat n) (r_stream r)))
  else ({| r_stream := [] |}, Err (Io "unexpected end of file")).

Section connection.
Variable crc32c : list Z → Z.

(** [FramedWriter::send_raw] *)
Definition send_raw (mt : MessageType) (sid : Z) (payload : list Z) : st FramedWriter unit :=
  let header := {| msg_type := mt; seq_id := sid;
                   payload_len := wrap 32 (Z.of_nat (length payload)) |} in
  let hdr_buf := encode_header header in
  let crc_input := hdr_buf ++ payload in
  let crc := crc32c crc_input in
  do! _ := write_all hdr_buf in
  do! _ := write_all payload in
  do! _ := write_all (to_be_bytes 4 crc) in
  do! _ := flush in
  sret ().

(** [FramedWriter::send]: [ser] is [bincode::serialize] at the payload type. *)
Definition send {P : Type} (ser : P → result (list Z))
    (mt : MessageType) (sid : Z) (payload : P) : st FramedWriter unit :=
  do! payload_bytes := slift (match ser payload with
                              | Err _ => Err (Protocol "serialize") | r => r end) in
  send_raw mt sid payload_bytes.

Definition send_empty (mt : MessageType) (sid : Z) : st FramedWriter unit :=
  send_raw mt sid [].

(** [FramedReader::recv] *)
Definition recv : st FramedReader (FrameHeader * list Z) :=
  do! hdr_buf := read_exact (Z.of_nat HEADER_SIZE) in
  do! header := slift (decode_header hdr_buf) in
  do! payload := (if negb (payload_len header =? 0) then read_exact (payload_len header)
                  else sret []) in
  do! crc_buf := read_exact (Z.of_nat CRC_SIZE) in
  let expected_crc := from_be_bytes crc_buf in
  let crc_input := hdr_buf ++ payload in
  do! _ := slift (verify_crc crc32c crc_input expected_crc) in
  sret (header, payload).

(** [FramedConnection]: the same operations on the two halves of one value. *)
Record FramedConnection := { conn_reader : FramedReader; conn_writer : FramedWriter }.

Definition conn_into_split (c : FramedConnection) : FramedWriter * FramedReader :=
  (conn_writer c, conn_reader c).

Definition on_writer {A : Type} (m : st FramedWriter A) : st FramedConnection A := λ c,
  let '(w, r) := m (conn_writer c) in
  ({| conn_reader := conn_reader c; conn_writer := w |}, r).
Definition on_reader {A : Type} (m : st FramedReader A) : st FramedConnection A := λ c,
  let '(rd, r) := m (conn_reader c) in
  ({| conn_reader := rd; conn_writer := conn_writer c |}, r).

(** [FramedConnection::send_raw] *)
Definition conn_send_raw (mt : MessageType) (sid : Z) (payload : list Z)
    : st FramedConnection unit :=
  let header := {| msg_type := mt; seq_id := sid;
                   payload_len := wrap 32 (Z.of_nat (length payload)) |} in
  let hdr_buf := encode_header header in
  let crc_input := hdr_buf ++ payload in
  let crc := crc32c crc_input in
  do! _ := on_writer (write_all hdr_buf) in
  do! _ := on_writer (write_all payload) in
  do! _ := on_writer (write_all (to_be_bytes 4 crc)) in
  do! _ := on_writer flush in
  sret ().

Definition conn_send_empty (mt : MessageType) (sid : Z) : st FramedConnection unit :=
  conn_send_raw mt sid [].

(** [FramedConnection::recv] *)
Definition conn_recv : st FramedConnection (FrameHeader * list Z) :=
  do! hdr_buf := on_reader (read_exact (Z.of_nat HEADER_SIZE)) in
  do! header := slift (decode_header hdr_buf) in
  do! payload := (if negb (payload_len header =? 0) then on_reader (read_exact (payload_len header))
                  else sret []) in
  do! crc_buf := on_reader (read_exact (Z.of_nat CRC_SIZE)) in
  let expected_crc := from_be_bytes crc_buf in
  let crc_input := hdr_buf ++ payload in
  do! _ := slift (verify_crc crc32c crc_input expected_crc) in
  sret (header, payload).

(** Sending a sequence of messages; receiving [n] of them. *)
Fixpoint send_all (ms : list (MessageType * Z * list Z)) : st FramedWriter unit :=
  match ms with
  | [] => sret ()
  | (mt, sid, p) :: ms' => do! _ := send_raw mt sid p in send_all ms'
  end.

Fixpoint recv_n (n : nat) : st FramedReader (list (FrameHeader * list Z)) :=
  match n with
  | 0%nat => sret []
  | S n' => do! m := recv in do! ms := recv_n n' in sret (m :: ms)
  end.
End connection.

(** ** Lemmas *)

Definition msg_frame (m : MessageType * Z * list Z) : FrameHeader * list Z :=
  ({| msg_type := m.1.1; seq_id := m.1.2; payload_len := Z.of_nat (length m.2) |}, m.2).

(** A message that fits: a [u64] sequence id and a payload within the cap. *)
Definition msg_fits (m : MessageType * Z * list Z) : Prop :=
  in_width 64 m.1.2 ∧ Z.of_nat (length m.2) ≤ MAX_PAYLOAD_SIZE.

#[export] Instance msg_fits_dec m : Decision (msg_fits m).
Proof. unfold msg_fits. apply _. Defined.

Lemma max_payload_u32 n : Z.of_nat n ≤ MAX_PAYLOAD_SIZE → in_width 32 (Z.of_nat n).
Proof. unfold MAX_PAYLOAD_SIZE, in_width. change (2 ^ 32) with 4294967296. lia. Qed.

Lemma read_exact_app (p q : list Z) n :
  n = Z.of_nat (length p) → read_exact n {| r_stream := p ++ q |} = ({| r_stream := q |}, Ok p).
Proof.
  intros ->. unfold read_exact. cbn [r_stream]. rewrite length_app.
  rewrite (proj2 (Z.leb_le _ _)) by lia. by rewrite Nat2Z.id, drop_app_length, take_app_length.
Qed.

Section connection_lemmas.
Variable crc32c : list Z → Z.

Lemma send_raw_open mt sid payload w :
  w_open w = true →
  send_raw crc32c mt sid payload w =
  ({| w_sent := w_sent w ++ encode_frame crc32c
        {| msg_type := mt; seq_id := sid; payload_len := wrap 32 (Z.of_nat (length payload)) |} payload;
      w_open := true |}, Ok ()).
Proof.
  intros Hw. unfold send_raw, sbind, write_all. rewrite Hw. cbn [w_open w_sent].
  unfold flush, encode_frame. cbn [w_open]. by rewrite <- !app_assoc.
Qed.

(** Receiving from a stream whose parts are known. *)
Lemma recv_parts (hdr payload crcb rest : list Z) h :
  length hdr = HEADER_SIZE → decode_header hdr = Ok h →
  payload_len h = Z.of_nat (length payload) → length crcb = CRC_SIZE →
  recv crc32c {| r_stream := hdr ++ payload ++ crcb ++ rest |} =
  ({| r_stream := rest |},
   let? _ := verify_crc crc32c (hdr ++ payload) (from_be_bytes crcb) in Ok (h, payload)).
Proof.
  intros H1 H2 H3 H4. unfold recv, sbind, slift.
  rewrite read_exact_app by lia. rewrite H2.
  assert ((if negb (payload_len h =? 0) then read_exact (payload_len h) else sret [])
            {| r_stream := payload ++ crcb ++ rest |}
          = ({| r_stream := crcb ++ rest |}, Ok payload)) as ->.
  { destruct (Z.eqb_spec (payload_len h) 0) as [E|E]; simpl.
    - destruct payload; [done | simpl in H3; lia].
    - by rewrite read_exact_app. }
  rewrite read_exact_app by lia.
  by destruct (verify_crc _ _ _).
Qed.

(** [recv] fails unless the stream starts with all the parts of a frame. *)
Lemma recv_cases (s : list Z) :
  Forall is_byte s →
  is_err (recv crc32c {| r_stream := s |}).2 = true ∨
  ∃ h hdr payload crcb rest, s = hdr ++ payload ++ crcb ++ rest ∧ length hdr = HEADER_SIZE ∧
     decode_header hdr = Ok h ∧ payload_len h = Z.of_nat (length payload) ∧
     length crcb = CRC_SIZE.
Proof.
  intros Hb. unfold recv, sbind, slift, read_exact at 1. cbn [r_stream].
  destruct (Z.leb_spec (Z.of_nat HEADER_SIZE) (Z.of_nat (length s))) as [Hl|]; [| by left].
  rewrite Nat2Z.id. set (hdr := take HEADER_SIZE s). set (r := drop HEADER_SIZE s).
  assert (length hdr = HEADER_SIZE) as Hh by (unfold hdr; rewrite length_take; lia).
  assert (Forall is_byte hdr) as Hbh by (by apply Forall_take).
  destruct (decode_header hdr) as [h| |] eqn:Hd; [| by left |].
  2:{ by apply decode_header_no_panic in Hd. }
  destruct (decode_header_inv hdr h Hh Hbh Hd) as (_ & [_ [Hp _]] & _).
  assert (∀ p, (if negb (payload_len h =? 0) then read_exact (payload_len h) else sret [])
            {| r_stream := r |} = p → is_err p.2 = true ∨
          p = ({| r_stream := drop (Z.to_nat (payload_len h)) r |},
               Ok (take (Z.to_nat (payload_len h)) r)) ∧ payload_len h ≤ Z.of_nat (length r)) as Hpay.
  { intros p <-. destruct (Z.eqb_spec (payload_len h) 0) as [E|E]; simpl.
    - right. rewrite E. split; [done | lia].
    - unfold read_exact. cbn [r_stream].
      destruct (Z.leb_spec (payload_len h) (Z.of_nat (length r))); [by right | by left]. }
  destruct (Hpay _ eq_refl) as [He | [-> Hle]].
  { left. set (p := (if negb (payload_len h =? 0) then read_exact (payload_len h) else sret [])
                {| r_stream := r |}) in *.
    by destruct p as [? [?|?|]]. }
  unfold read_exact. cbn [r_stream].
  destruct (Z.leb_spec (Z.of_nat CRC_SIZE) (Z.of_nat (length (drop (Z.to_nat (payload_len h)) r))))
    as [Hc|]; [| by left].
  right. set (pl := take (Z.to_nat (payload_len h)) r) in *.
  set (q := drop (Z.to_nat (payload_len h)) r) in *.
  exists h, hdr, pl, (take CRC_SIZE q), (drop CRC_SIZE q). split_and!; try done.
  - unfold pl, q, hdr, r. by rewrite !take_drop.
  - unfold pl. rewrite length_take. lia.
  - rewrite length_take. lia.
Qed.
End connection_lemmas.

(** ** Theorems *)

Section connection_theorems.
Variable crc32c : list Z → Z.
Hypothesis crc32c_u32 : ∀ l, in_width 32 (crc32c l).

Lemma recv_msg mt sid payload rest :
  msg_fits (mt, sid, payload) →
  recv crc32c {| r_stream := encode_frame crc32c
     {| msg_type := mt; seq_id := sid; payload_len := wrap 32 (Z.of_nat (length payload)) |} payload
     ++ rest |}
  = ({| r_stream := rest |}, Ok (msg_frame (mt, sid, payload))).
Proof using crc32c_u32.
  intros [Hs Hp]. simpl in Hs, Hp. pose proof (max_payload_u32 _ Hp) as Hw.
  rewrite wrap_small by done. unfold encode_frame. rewrite <- !app_assoc.
  rewrite (recv_parts _ _ _ _ _ (msg_frame (mt, sid, payload)).1).
  - unfold verify_crc. rewrite from_to_be_bytes by apply crc32c_u32. by rewrite Z.eqb_refl.
  - apply length_encode_header.
  - by apply decode_encode_header.
  - done.
  - apply length_to_be_bytes.
Qed.

(** C27: messages sent over an open connection are received unchanged and
    in order: whatever follows in the stream, receiving as many messages as
    were sent returns exactly them and leaves the rest of the stream.  Each
    payload must be at most 256 MB ([msg_fits]): the sender does not check
    this, and the receiver refuses a larger one ([oversize_send_rejected]). *)
Theorem stream_roundtrip ms w rest :
  w_open w = true → Forall msg_fits ms →
  ∃ sent, send_all crc32c ms w = ({| w_sent := w_sent w ++ sent; w_open := true |}, Ok ()) ∧
    recv_n crc32c (length ms) {| r_stream := sent ++ rest |}
    = ({| r_stream := rest |}, Ok (msg_frame <$> ms)).
Proof using crc32c_u32.
  revert w. induction ms as [|[[mt sid] p] ms IH]; intros w Hw Hms.
  { exists []. destruct w as [b o]. simpl in *. by rewrite Hw, app_nil_r. }
  inversion Hms as [|? ? Hm Hms']; subst.
  cbn [send_all length recv_n]. unfold sbind at 1. rewrite send_raw_open by done.
  set (fr := encode_frame _ _ _). set (w1 := {| w_sent := w_sent w ++ fr; w_open := true |}).
  destruct (IH w1 eq_refl Hms') as (sent & Hs & Hr).
  exists (fr ++ sent). split.
  - rewrite Hs. unfold w1. cbn [w_sent]. by rewrite <- app_assoc.
  - unfold sbind at 1. rewrite <- app_assoc. unfold fr. rewrite recv_msg by done.
    unfold sbind. by rewrite Hr.
Qed.

(** The byte-slice decoder and the connection perform the same
    validation on every stream of bytes: [recv] returns a frame exactly when
    [decode_frame_from_bytes] does, the same frame, consuming exactly its
    bytes; otherwise both return an error. *)
Theorem recv_decode_agree bytes :
  Forall is_byte bytes →
  match decode_frame_from_bytes crc32c bytes with
  | Ok (h, payload) =>
      recv crc32c {| r_stream := bytes |}
      = ({| r_stream := drop (20 + length payload) bytes |}, Ok (h, payload))
  | Err _ => is_err (recv crc32c {| r_stream := bytes |}).2 = true
  | Panic => False
  end.
Proof using Type.
  intros Hb. destruct (recv_cases crc32c bytes Hb)
    as [He | (h & hdr & pl & cb & rest & -> & H1 & H2 & H3 & H4)].
  - destruct (decode_frame_from_bytes crc32c bytes) as [[h pl]| |] eqn:Hd; [| done |].
    2:{ by apply (decode_frame_no_panic crc32c bytes Hb). }
    exfalso. destruct (decode_frame_inv crc32c bytes h pl Hb Hd) as ([rest ->] & Ht & Hl & Hm).
    unfold encode_frame in *. rewrite <- !app_assoc in *.
    rewrite (recv_parts _ _ _ _ _ h) in He
      by (first [apply length_encode_header | by apply decode_encode_header | done
                | apply length_to_be_bytes]).
    rewrite (decode_frame_parts _ _ _ _ _ h) in Hd
      by (first [apply length_encode_header | by apply decode_encode_header | done
                | apply length_to_be_bytes | apply Ht]).
    cbn [snd] in He. by rewrite Hd in He.
  - assert (in_width 32 (payload_len h)) as Hw.
    { rewrite !Forall_app in Hb. destruct Hb as [Hb _].
      by destruct (decode_header_inv hdr h H1 Hb H2) as (_ & [_ ?] & _). }
    rewrite (recv_parts _ _ _ _ _ h), (decode_frame_parts _ _ _ _ _ h) by done.
    destruct (verify_crc _ _ _) as [[]|e|] eqn:Hv; cbn [rbind snd]; [| done |].
    + replace (drop _ _) with rest; [done |]. symmetry.
      rewrite (app_assoc hdr), (app_assoc (hdr ++ pl)). apply drop_app_length'.
      rewrite !length_app. unfold HEADER_SIZE, CRC_SIZE in *. lia.
    + unfold verify_crc in Hv. by case_if.
Qed.

(** The sender has no size check: a payload between the cap and 4 GiB
    is sent without an error, and every receiver rejects the frame. *)
Theorem oversize_send_rejected mt sid payload w :
  w_open w = true → in_width 64 sid →
  MAX_PAYLOAD_SIZE < Z.of_nat (length payload) < 2 ^ 32 →
  ∃ frame, send_raw crc32c mt sid payload w
           = ({| w_sent := w_sent w ++ frame; w_open := true |}, Ok ()) ∧
    (recv crc32c {| r_stream := frame |}).2 = Err (Protocol "payload length exceeds maximum").
Proof using Type.
  intros Hw Hs Hlen. rewrite send_raw_open by done. eexists; split; [done |].
  rewrite wrap_small by (split; [| apply Hlen]; unfold MAX_PAYLOAD_SIZE in *; lia).
  unfold encode_frame. rewrite <- app_assoc. unfold recv, sbind, slift.
  rewrite read_exact_app by (by rewrite length_encode_header).
  rewrite decode_header_oversize; [done | split; [done |] |]; simpl; [| lia].
  split; [lia | apply Hlen].
Qed.
End connection_theorems.

(** The unified connection behaves as its two halves: sending and
    receiving on a [FramedConnection] is sending on the writer and receiving
    on the reader that [into_split] returns, each half left alone by the
    other operation. *)
Theorem connection_split_equiv crc32c mt sid payload c :
  let '(w, r) := conn_into_split c in
  let '(w', rs) := send_raw crc32c mt sid payload w in
  let '(r', rr) := recv crc32c r in
  conn_send_raw crc32c mt sid payload c = ({| conn_reader := r; conn_writer := w' |}, rs) ∧
  conn_recv crc32c c = ({| conn_reader := r'; conn_writer := w |}, rr).
Proof.
  destruct c as [r w]. cbn [conn_into_split conn_writer conn_reader].
  unfold conn_send_raw, send_raw, conn_recv, recv, sbind, on_writer, on_reader, slift.
  cbn [conn_writer conn_reader].
  repeat match goal with
  | |- context [write_all ?b ?w] => destruct (write_all b w) as [? [?|?|]]; cbn [conn_writer conn_reader]
  | |- context [flush ?w] => destruct (flush w) as [? [?|?|]]
  | |- context [read_exact (Z.of_nat ?n) ?w] => destruct (read_exact (Z.of_nat n) w) as [? [?|?|]]; cbn [conn_writer conn_reader]
  | |- context [decode_header ?b] => destruct (decode_header b) as [?|?|]
  | |- context [verify_crc ?c ?a ?b] => destruct (verify_crc c a b) as [?|?|]
  | |- context [negb (?a =? 0)] => destruct (a =? 0); cbn [negb]; unfold sret; cbn [conn_writer conn_reader]
  | |- context [read_exact (payload_len ?h) ?w] => destruct (read_exact (payload_len h) w) as [? [?|?|]]; cbn [conn_writer conn_reader]
  end; done.
Qed.

Module ConnectionWitness.
Import FrameWitness.

Definition two_messages : list (MessageType * Z * list Z) :=
  [(CacheAlloc, 5, []); (Forward, 5, [10; 20; 30])].
Definition fresh_writer : FramedWriter := {| w_sent := [1]; w_open := true |}.

Lemma stream_roundtrip_witness :
  ∃ sent, send_all crc32c_ref two_messages fresh_writer
          = ({| w_sent := [1] ++ sent; w_open := true |}, Ok ()) ∧
    recv_n crc32c_ref 2 {| r_stream := sent ++ [70] |}
    = ({| r_stream := [70] |}, Ok (msg_frame <$> two_messages)).
Proof.
  apply (stream_roundtrip crc32c_ref crc32c_ref_u32 two_messages fresh_writer [70]).
  - reflexivity.
  - decide_now.
Defined.

(** A frame with a wrong trailer: both paths reject it. *)
Definition bad_frame : list Z := encode_header hb_header ++ [1; 2; 255; 0; 0; 0; 0].

Lemma recv_decode_agree_witness :
  is_err (recv crc32c_ref {| r_stream := bad_frame |}).2 = true.
Proof.
  pose proof (recv_decode_agree crc32c_ref bad_frame ltac:(decide_now)) as H.
  vm_compute in H |- *. exact H.
Defined.

Definition big_payload : list Z := replicate (Z.to_nat 268435457) 0.

Lemma oversize_send_rejected_witness :
  ∃ frame, send_raw crc32c_ref Forward 5 big_payload fresh_writer
           = ({| w_sent := [1] ++ frame; w_open := true |}, Ok ()) ∧
    (recv crc32c_ref {| r_stream := frame |}).2
    = Err (Protocol "payload length exceeds maximum").
Proof.
  apply (oversize_send_rejected crc32c_ref Forward 5 big_payload fresh_writer).
  - reflexivity.
  - decide_now.
  - unfold big_payload. rewrite length_replicate, Z2Nat.id by lia. split; reflexivity.
Defined.
End ConnectionWitness.
