(* ===== verification/Election.v ===== *)
(** * Coordinator election ([crates/fracture-election/src/{term,state_machine}.rs])

    One [ElectionAgent] per node: its term counter and the
    Follower/Candidate/Leader state machine of the priority-based bully
    algorithm.  The handlers are functions on the agent; the cluster below is
    a step relation in which agents broadcast what their actions ask for and
    the network delivers any message sent so far, to any node, in any order and
    any number of times. *)

From Stdlib Require Import OrdersEx.
From stdpp Require Import relations.
From S2P Require Import Prelude.

Local Open Scope Z_scope.

(** ** [TermTracker]: an atomic [u64] *)

Record TermTracker := { current : Z }.

Definition term_new (initial_term : Z) : TermTracker := {| current := initial_term |}.

(** [fetch_add] wraps; the [+ 1] on the value it returns is checked. *)
Definition increment (t : TermTracker) : TermTracker * result Z :=
  ({| current := wrap 64 (current t + 1) |}, uadd (current t) 1).

Definition advance_to (t : TermTracker) (new_term : Z) : TermTracker * result Z :=
  let old := current t in
  if old <? new_term then ({| current := new_term |}, Ok new_term) else (t, Panic).

Definition is_acceptable (t : TermTracker) (received_term : Z) : bool :=
  current t <=? received_term.

Definition is_newer (t : TermTracker) (received_term : Z) : bool :=
  current t <? received_term.

Definition update_if_newer (t : TermTracker) (received_term : Z) : TermTracker * bool :=
  if current t <? received_term then ({| current := received_term |}, true) else (t, false).

(** ** [ElectionAgent] *)

Inductive ElectionState := Follower | Candidate | Leader.

#[export] Instance ElectionState_eq_dec : EqDecision ElectionState.
Proof. solve_decision. Defined.

(** [election_window] is only used by the driver's timer. *)
Record ElectionConfig := { node_id : string; priority : Z; election_window_ms : Z }.

Inductive ElectionAction :=
  | ANone
  | Challenge (candidate_id : string)
  | DeclareVictory
  | StandDown (leader_id : string)
  | AcceptLeader (leader_id coordinator_addr : string).

#[export] Instance ElectionAction_eq_dec : EqDecision ElectionAction.
Proof. solve_decision. Defined.

Record ElectionAgent := { config : ElectionConfig; term : TermTracker; state : ElectionState }.

#[export] Instance TermTracker_eq_dec : EqDecision TermTracker.
Proof. solve_decision. Defined.
#[export] Instance ElectionConfig_eq_dec : EqDecision ElectionConfig.
Proof. solve_decision. Defined.
#[export] Instance ElectionAgent_eq_dec : EqDecision ElectionAgent.
Proof. solve_decision. Defined.

Definition agent_new (c : ElectionConfig) (initial_term : Z) : ElectionAgent :=
  {| config := c; term := term_new initial_term; state := Follower |}.

Definition set_state (s : ElectionState) (a : ElectionAgent) : ElectionAgent :=
  {| config := config a; term := term a; state := s |}.

Definition set_term (t : TermTracker) (a : ElectionAgent) : ElectionAgent :=
  {| config := config a; term := t; state := state a |}.

(** [start_election]: when the addition panics the stored term has already
    wrapped and the state is not changed. *)
Definition start_election : st ElectionAgent Z := λ a,
  match increment (term a) with
  | (t, Ok new_term) => (set_state Candidate (set_term t a), Ok new_term)
  | (t, r) => (set_term t a, r)
  end.

(** The test of [on_election_start]: a lower number wins, ties go to the
    smaller node id. *)
Definition outranks (p : Z) (id : string) (p' : Z) (id' : string) : bool :=
  (p <? p') || ((p =? p') && String.ltb id id').

Definition on_election_start (a : ElectionAgent)
    (candidate_id : string) (candidate_priority candidate_term : Z)
    : ElectionAgent * ElectionAction :=
  if negb (is_acceptable (term a) candidate_term) then (a, ANone)
  else
    let a := set_term (update_if_newer (term a) candidate_term).1 a in
    if outranks (priority (config a)) (node_id (config a)) candidate_priority candidate_id
    then (a, Challenge candidate_id)
    else if bool_decide (state a = Candidate) then (set_state Follower a, ANone)
    else (a, ANone).

Definition on_election_challenge (a : ElectionAgent)
    (challenger_id : string) (challenger_priority challenger_term : Z)
    : ElectionAgent * ElectionAction :=
  if negb (is_acceptable (term a) challenger_term) then (a, ANone)
  else
    let a := set_term (update_if_newer (term a) challenger_term).1 a in
    if bool_decide (state a = Candidate)
    then (set_state Follower a, StandDown challenger_id)
    else (a, ANone).

Definition on_victory (a : ElectionAgent)
    (leader_id : string) (leader_term : Z) (coordinator_addr : string)
    : ElectionAgent * ElectionAction :=
  if negb (is_acceptable (term a) leader_term) then (a, ANone)
  else
    let a := set_term (update_if_newer (term a) leader_term).1 a in
    (set_state Follower a, AcceptLeader leader_id coordinator_addr).

Definition on_election_timeout (a : ElectionAgent) : ElectionAgent * ElectionAction :=
  if bool_decide (state a = Candidate) then (set_state Leader a, DeclareVictory)
  else (a, ANone).

(** ** The cluster *)

Inductive Message :=
  | MStart (candidate_id : string) (p t : Z)
  | MChallenge (challenger_id : string) (p t : Z)
  | MVictory (leader_id : string) (t : Z) (addr : string).

#[export] Instance Message_eq_dec : EqDecision Message.
Proof. solve_decision. Defined.

Definition msg_sender (m : Message) : string :=
  match m with MStart id _ _ | MChallenge id _ _ | MVictory id _ _ => id end.
Definition msg_term (m : Message) : Z :=
  match m with MStart _ _ t | MChallenge _ _ t | MVictory _ t _ => t end.

Definition on_message (a : ElectionAgent) (m : Message) : ElectionAgent * ElectionAction :=
  match m with
  | MStart id p t => on_election_start a id p t
  | MChallenge id p t => on_election_challenge a id p t
  | MVictory id t addr => on_victory a id t addr
  end.

(** What a node sends when a handler returned an action: a challenge carries the
    challenger's own identity and term, a victory its term. *)
Definition outgoing (a : ElectionAgent) (act : ElectionAction) : list Message :=
  match act with
  | Challenge _ => [MChallenge (node_id (config a)) (priority (config a)) (current (term a))]
  | DeclareVictory => [MVictory (node_id (config a)) (current (term a)) (node_id (config a))]
  | _ => []
  end.

Record Cluster := { nodes : gmap string ElectionAgent; sent : list Message }.

Inductive cluster_step : Cluster → Cluster → Prop :=
  | step_start c id a a' t :
      nodes c !! id = Some a →
      start_election a = (a', Ok t) →
      cluster_step c {| nodes := <[id := a']> (nodes c);
                        sent := MStart (node_id (config a)) (priority (config a)) t :: sent c |}
  | step_deliver c id a m :
      nodes c !! id = Some a →
      m ∈ sent c →
      msg_sender m ≠ id →
      cluster_step c {| nodes := <[id := (on_message a m).1]> (nodes c);
                        sent := outgoing (on_message a m).1 (on_message a m).2 ++ sent c |}
  | step_timeout c id a :
      nodes c !! id = Some a →
      cluster_step c {| nodes := <[id := (on_election_timeout a).1]> (nodes c);
                        sent := outgoing (on_election_timeout a).1 (on_election_timeout a).2 ++ sent c |}.

Definition cluster_init (cfgs : list ElectionConfig) (t0 : Z) : Cluster :=
  {| nodes := list_to_map ((λ cfg, (node_id cfg, agent_new cfg t0)) <$> cfgs); sent := [] |}.

(** ** Ranks *)

(** [str] comparison is a strict total order. *)
Lemma string_compare_OT s1 s2 : String.compare s1 s2 = String_as_OT.compare s1 s2.
Proof.
  revert s2. induction s1 as [|c1 s1 IH]; by intros [|c2 s2].
Qed.

Lemma string_ltb_lt s1 s2 : String.ltb s1 s2 = true ↔ String_as_OT.lt s1 s2.
Proof.
  unfold String.ltb, String_as_OT.lt. rewrite string_compare_OT.
  by destruct (String_as_OT.compare s1 s2).
Qed.

Lemma string_ltb_irrefl s : String.ltb s s = false.
Proof.
  apply not_true_iff_false. rewrite string_ltb_lt. exact (StrictOrder_Irreflexive s).
Qed.

Lemma string_ltb_total s1 s2 : s1 ≠ s2 → String.ltb s1 s2 = negb (String.ltb s2 s1).
Proof.
  intros Hne. unfold String.ltb. rewrite (String.compare_antisym s1 s2).
  destruct (String.compare s2 s1) eqn:E; simpl; try done.
  by apply String.compare_eq_iff in E.
Qed.

Lemma outranks_irrefl p id : outranks p id p id = false.
Proof. unfold outranks. by rewrite Z.ltb_irrefl, Z.eqb_refl, string_ltb_irrefl. Qed.

Lemma outranks_total p id p' id' :
  id ≠ id' → outranks p id p' id' = negb (outranks p' id' p id).
Proof.
  intros Hne. unfold outranks. rewrite (string_ltb_total id id') by done.
  destruct (Z.ltb_spec p p'), (Z.ltb_spec p' p), (Z.eqb_spec p p'), (Z.eqb_spec p' p);
    try lia; simpl; done.
Qed.

Lemma outranks_trans p1 id1 p2 id2 p3 id3 :
  outranks p1 id1 p2 id2 = true → outranks p2 id2 p3 id3 = true →
  outranks p1 id1 p3 id3 = true.
Proof.
  unfold outranks. rewrite !orb_true_iff, !andb_true_iff, !Z.ltb_lt, !Z.eqb_eq, !string_ltb_lt.
  intros [?|[? H1]] [?|[? H2]]; [left; lia.. |]. right. split; [lia |]. by etransitivity.
Qed.

(** ** Terms *)

Ltac agent_cases :=
  repeat match goal with
  | |- context [if ?b then _ else _] => destruct b eqn:?
  | H : context [if ?b then _ else _] |- _ => destruct b eqn:?
  end; simplify_eq/=.

Lemma update_if_newer_max t r : current (update_if_newer t r).1 = Z.max (current t) r.
Proof. unfold update_if_newer. destruct (Z.ltb_spec (current t) r); simpl; lia. Qed.

Lemma on_message_stale a m : msg_term m < current (term a) → on_message a m = (a, ANone).
Proof.
  intros Hlt.
  assert (is_acceptable (term a) (msg_term m) = false) as E by (apply Z.leb_gt; lia).
  destruct m; simpl in *; unfold on_election_start, on_election_challenge, on_victory; by rewrite E.
Qed.

Lemma on_message_term a m :
  current (term (on_message a m).1) = Z.max (current (term a)) (msg_term m).
Proof.
  destruct (Z.lt_ge_cases (msg_term m) (current (term a))) as [Hlt|Hge].
  { rewrite on_message_stale by done. simpl. lia. }
  destruct m; simpl in *; unfold on_election_start, on_election_challenge, on_victory;
    rewrite (proj2 (Z.leb_le _ _) Hge : is_acceptable (term a) _ = true); simpl;
    agent_cases; apply update_if_newer_max.
Qed.

Lemma on_message_config a m : config (on_message a m).1 = config a.
Proof.
  destruct m; simpl; unfold on_election_start, on_election_challenge, on_victory; by agent_cases.
Qed.

(** Receiving never makes a node Candidate or Leader. *)
Lemma on_message_state a m :
  state (on_message a m).1 = state a ∨ state (on_message a m).1 = Follower.
Proof.
  destruct m; simpl; unfold on_election_start, on_election_challenge, on_victory;
    agent_cases; auto.
Qed.

Lemma on_election_timeout_keeps a :
  config (on_election_timeout a).1 = config a ∧ term (on_election_timeout a).1 = term a.
Proof. unfold on_election_timeout. by agent_cases. Qed.

Lemma start_election_Ok a a' t :
  start_election a = (a', Ok t) → 0 ≤ current (term a) →
  t = current (term a) + 1 ∧ current (term a') = t ∧ config a' = config a ∧ state a' = Candidate.
Proof.
  unfold start_election, increment. intros H Hpos.
  destruct (uadd (current (term a)) 1) as [z| |] eqn:E; simplify_eq/=.
  apply checked_inv in E as [-> Hw]. split_and!; [done | | done..]. by apply wrap_small.
Qed.

(** ** Cluster invariant *)

(** Nodes are keyed by their id, terms are [u64], and every message in the
    network comes from a member whose term is at least the message's. *)
Definition cluster_inv (c : Cluster) : Prop :=
  (∀ id a, nodes c !! id = Some a → node_id (config a) = id ∧ 0 ≤ current (term a)) ∧
  (∀ m, m ∈ sent c → ∃ a, nodes c !! msg_sender m = Some a ∧ msg_term m ≤ current (term a)) ∧
  (∀ id a, nodes c !! id = Some a → state a = Leader →
    ∃ t addr, MVictory id t addr ∈ sent c) ∧
  (∀ id a, nodes c !! id = Some a → state a ≠ Follower →
    ∃ p t, MStart id p t ∈ sent c).

(** Replacing node [id]'s agent by one of the same id whose term has not
    decreased, and sending messages of that node at its new term at most,
    keeps the invariant. *)
Lemma cluster_inv_update c id a a' out :
  cluster_inv c →
  nodes c !! id = Some a →
  config a' = config a →
  current (term a) ≤ current (term a') →
  (∀ m, m ∈ out → msg_sender m = id ∧ msg_term m ≤ current (term a')) →
  (state a' = Leader → state a = Leader ∨ ∃ t addr, MVictory id t addr ∈ out) →
  (state a' ≠ Follower → state a ≠ Follower ∨ ∃ p t, MStart id p t ∈ out) →
  cluster_inv {| nodes := <[id := a']> (nodes c); sent := out ++ sent c |}.
Proof.
  intros (Hid & Hnet & Hlead & Hcand) Ha Hcfg Hterm Hout Hl Hc.
  split_and!; simpl.
  - intros id' b [[<- <-]|[? Hb]]%lookup_insert_Some; [| by apply Hid].
    destruct (Hid _ _ Ha). rewrite Hcfg. split; [done | lia].
  - intros m [Hm|Hm]%elem_of_app.
    + destruct (Hout m Hm) as [-> ?]. exists a'. by rewrite lookup_insert_eq.
    + destruct (Hnet m Hm) as (b & Hb & ?). destruct (decide (msg_sender m = id)) as [E|].
      * rewrite E in Hb |- *. simplify_eq. exists a'. rewrite lookup_insert_eq. split; [done | lia].
      * exists b. by rewrite lookup_insert_ne.
  - intros id' b [[<- <-]|[? Hb]]%lookup_insert_Some Hs.
    + destruct (Hl Hs) as [Hold|(t & addr & ?)].
      * destruct (Hlead _ _ Ha Hold) as (t & addr & ?). exists t, addr. set_solver.
      * exists t, addr. set_solver.
    + destruct (Hlead _ _ Hb Hs) as (t & addr & ?). exists t, addr. set_solver.
  - intros id' b [[<- <-]|[? Hb]]%lookup_insert_Some Hs.
    + destruct (Hc Hs) as [Hold|(p & t & ?)].
      * destruct (Hcand _ _ Ha Hold) as (p & t & ?). exists p, t. set_solver.
      * exists p, t. set_solver.
    + destruct (Hcand _ _ Hb Hs) as (p & t & ?). exists p, t. set_solver.
Qed.

Lemma outgoing_own a act m :
  m ∈ outgoing a act → msg_sender m = node_id (config a) ∧ msg_term m = current (term a).
Proof. destruct act; simpl; intros Hm; set_solver. Qed.

Lemma cluster_step_inv c c' : cluster_step c c' → cluster_inv c → cluster_inv c'.
Proof.
  intros Hstep Hinv. pose proof (proj1 Hinv) as Hid. destruct Hstep as
    [c id a a' t Ha Hs | c id a m Ha Hm Hne | c id a Ha]; destruct (Hid _ _ Ha) as [Hnid Hpos].
  - apply start_election_Ok in Hs as (-> & Ht & Hcfg & Hst); [| done].
    apply (cluster_inv_update c id a a' [_]); [done.. | lia | | | ]; rewrite ?Hst.
    + intros m ->%list_elem_of_singleton. simpl. split; [done | lia].
    + done.
    + intros _. right. rewrite Hnid. eexists _, _. by apply list_elem_of_singleton.
  - apply (cluster_inv_update c id a); [done | done | apply on_message_config | | | |].
    + rewrite on_message_term. lia.
    + intros m' [Hs Ht]%outgoing_own. rewrite on_message_config in Hs. split; [congruence | lia].
    + destruct (on_message_state a m) as [->| ->]; [by left | done].
    + destruct (on_message_state a m) as [->| ->]; [by left | done].
  - destruct (on_election_timeout_keeps a) as [Hcfg Ht].
    apply (cluster_inv_update c id a); [done | done | done | by rewrite Ht | | |].
    + intros m' [Hs Htm]%outgoing_own. rewrite Hcfg in Hs. split; [congruence | lia].
    + unfold on_election_timeout. case_bool_decide; [| by left]. intros _. right. simpl.
      rewrite Hnid. eexists _, _. by apply list_elem_of_singleton.
    + unfold on_election_timeout. case_bool_decide as E; [| by left]. intros _. left. by rewrite E.
Qed.

Lemma cluster_init_inv cfgs t0 : 0 ≤ t0 → cluster_inv (cluster_init cfgs t0).
Proof.
  intros Ht0.
  assert (∀ id a, nodes (cluster_init cfgs t0) !! id = Some a →
            ∃ cfg, a = agent_new cfg t0 ∧ node_id cfg = id) as Hn.
  { intros id a Ha%elem_of_list_to_map_2. apply list_elem_of_fmap in Ha as (cfg & [= -> ->] & _).
    eauto. }
  split_and!.
  - intros id a (cfg & -> & <-)%Hn. done.
  - intros m Hm. set_solver.
  - intros id a (cfg & -> & <-)%Hn. done.
  - intros id a (cfg & -> & <-)%Hn. done.
Qed.

Lemma cluster_reachable_inv c c' : cluster_inv c → rtc cluster_step c c' → cluster_inv c'.
Proof. intros Hinv Hrtc. induction Hrtc; eauto using cluster_step_inv. Qed.

Lemma cluster_step_terms c c' id a :
  cluster_inv c → cluster_step c c' → nodes c !! id = Some a →
  ∃ a', nodes c' !! id = Some a' ∧ config a' = config a ∧ current (term a) ≤ current (term a').
Proof.
  intros (Hid & _) Hstep Ha.
  destruct Hstep as [c id' b b' t Hb Hs | c id' b m Hb Hm Hne | c id' b Hb]; simpl;
    (destruct (decide (id = id')) as [<-|]; [| exists a; by rewrite lookup_insert_ne]);
    simplify_eq; eexists; (split; [by rewrite lookup_insert_eq |]).
  - destruct (Hid _ _ Hb). apply start_election_Ok in Hs as (-> & ? & ? & ?); [| done].
    split; [done | lia].
  - rewrite on_message_config, on_message_term. split; [done | lia].
  - by destruct (on_election_timeout_keeps b) as [-> ->].
Qed.

(** In every run of a cluster whose nodes start as followers, no node
    ever loses its identity and no node's term ever decreases, whatever the
    network delays, reorders, duplicates or drops. *)
Theorem term_monotone cfgs t0 c c' id a :
  0 ≤ t0 → rtc cluster_step (cluster_init cfgs t0) c → rtc cluster_step c c' →
  nodes c !! id = Some a →
  ∃ a', nodes c' !! id = Some a' ∧ config a' = config a ∧ current (term a) ≤ current (term a').
Proof.
  intros Ht0 Hreach%cluster_reachable_inv Hrun; [| by apply cluster_init_inv].
  revert a Hreach. induction Hrun as [x|x y z Hstep Hrun IH]; intros a Hreach Ha;
    [by exists a |].
  destruct (cluster_step_terms x y id a Hreach Hstep Ha) as (a1 & Ha1 & Hc1 & Ht1).
  destruct (IH a1 (cluster_step_inv _ _ Hstep Hreach) Ha1) as (a2 & ? & ? & ?).
  exists a2. split_and!; [done | congruence | lia].
Qed.

(** In every reachable cluster, a Leader has broadcast an ElectionStart and a
    Victory of its own, and every message in the network was sent by a member
    whose present term is at least the message's term. *)
Theorem leader_provenance cfgs t0 c :
  0 ≤ t0 → rtc cluster_step (cluster_init cfgs t0) c →
  (∀ id a, nodes c !! id = Some a → state a = Leader →
     (∃ p t, MStart id p t ∈ sent c) ∧ (∃ t addr, MVictory id t addr ∈ sent c)) ∧
  (∀ m, m ∈ sent c → ∃ a, nodes c !! msg_sender m = Some a ∧ msg_term m ≤ current (term a)).
Proof.
  intros Ht0 (Hid & Hnet & Hlead & Hcand)%cluster_reachable_inv; [| by apply cluster_init_inv].
  split; [| done]. intros id a Ha Hs. split; [| by eapply Hlead].
  eapply Hcand; [done |]. by rewrite Hs.
Qed.

(** ** A round in which every candidate hears every other *)

Definition rank_over (a b : ElectionAgent) : bool :=
  outranks (priority (config a)) (node_id (config a)) (priority (config b)) (node_id (config b)).

Definition start_msg (a : ElectionAgent) : Message :=
  MStart (node_id (config a)) (priority (config a)) (current (term a)).

Definition deliver (a : ElectionAgent) (msgs : list Message) : ElectionAgent :=
  foldl (λ a m, (on_message a m).1) a msgs.

(** The inbox of a candidate: the ElectionStart of every other candidate, the
    challenges those answered to its own ElectionStart, in any order and
    multiplicity, and nothing else. *)
Definition round_inbox (cands : list ElectionAgent) (a : ElectionAgent) (msgs : list Message) : Prop :=
  (∀ b, b ∈ cands → b ≠ a → start_msg b ∈ msgs) ∧
  (∀ m, m ∈ msgs → ∃ b, b ∈ cands ∧ b ≠ a ∧
     (m = start_msg b ∨ m ∈ outgoing b (on_message b (start_msg a)).2)).

Lemma on_message_same_start a b :
  current (term a) = current (term b) →
  on_message a (start_msg b) =
    if rank_over a b then (a, Challenge (node_id (config b)))
    else (if bool_decide (state a = Candidate) then set_state Follower a else a, ANone).
Proof.
  intros Ht. simpl. unfold on_election_start, is_acceptable, update_if_newer.
  rewrite (proj2 (Z.leb_le _ _)) by lia. rewrite (proj2 (Z.ltb_ge _ _)) by lia. simpl.
  destruct a as [ca [ta] sa]. unfold rank_over. simpl.
  destruct (outranks _ _ _ _); [done |]. by case_bool_decide.
Qed.

(** Messages of the node's own term leave the term and the identity alone. *)
Lemma deliver_keeps a msgs t :
  current (term a) = t → Forall (λ m, msg_term m = t) msgs →
  current (term (deliver a msgs)) = t ∧ config (deliver a msgs) = config a.
Proof.
  intros Ht Hms. revert a Ht. induction Hms as [|m ms Hm Hms IH]; intros a Ht; [done |].
  unfold deliver in *. simpl. rewrite <- (on_message_config a m). apply IH.
  rewrite on_message_term. lia.
Qed.

Lemma deliver_outranking a msgs (cands : list ElectionAgent) t :
  state a = Candidate → current (term a) = t →
  (∀ m, m ∈ msgs → ∃ b, b ∈ cands ∧ m = start_msg b ∧ current (term b) = t ∧ rank_over a b = true) →
  deliver a msgs = a.
Proof.
  intros Hs Ht. induction msgs as [|m ms IH]; intros Hms; [done |].
  unfold deliver in *. simpl. destruct (Hms m) as (b & _ & -> & Hb & Hr); [left |].
  rewrite on_message_same_start, Hr by congruence. apply IH. intros. apply Hms. by right.
Qed.

Lemma deliver_Follower a msgs : state a = Follower → state (deliver a msgs) = Follower.
Proof.
  revert a. induction msgs as [|m ms IH]; intros a Hs; [done |].
  unfold deliver in *. simpl. apply IH. destruct (on_message_state a m) as [->| ->]; done.
Qed.

Lemma deliver_state_cases a msgs :
  state a = Candidate → state (deliver a msgs) = Candidate ∨ state (deliver a msgs) = Follower.
Proof.
  revert a. induction msgs as [|m ms IH]; intros a Hs; [by left |].
  unfold deliver in *. simpl. destruct (on_message_state a m) as [E|E].
  - apply IH. congruence.
  - right. by apply (deliver_Follower _ ms).
Qed.

Lemma deliver_outranked a msgs b t :
  state a = Candidate → current (term a) = t → current (term b) = t →
  Forall (λ m, msg_term m = t) msgs →
  start_msg b ∈ msgs → rank_over a b = false →
  state (deliver a msgs) = Follower.
Proof.
  intros Hs Ht Hb Hms Hin Hr. apply list_elem_of_split in Hin as (l1 & l2 & ->).
  unfold deliver. rewrite foldl_app. simpl. apply (deliver_Follower _ l2).
  apply Forall_app in Hms as [Hl1 _].
  destruct (deliver_keeps a l1 t Ht Hl1) as [Ht1 Hc1].
  pose proof (on_message_same_start (deliver a l1) b) as E. unfold deliver in *. simpl in E.
  rewrite E by lia. unfold rank_over in *. rewrite Hc1, Hr. simpl.
  destruct (deliver_state_cases a l1 Hs) as [E1|E1]; unfold deliver in *; rewrite E1; done.
Qed.

(** Among candidates with different ids there is one that outranks the others. *)
Lemma best_candidate cands :
  cands ≠ [] → NoDup (node_id ∘ config <$> cands) →
  ∃ best, best ∈ cands ∧ ∀ b, b ∈ cands → b ≠ best → rank_over best b = true.
Proof.
  induction cands as [|a cands IH]; intros Hne Hnd; [done |].
  apply NoDup_cons in Hnd as [Ha Hnd]. destruct (decide (cands = [])) as [->|Hc].
  { exists a. split; [left |]. intros b ->%list_elem_of_singleton. done. }
  destruct (IH Hc Hnd) as (best & Hbest & Hmax).
  assert (node_id (config a) ≠ node_id (config best)) as Hid.
  { intros E. apply Ha. apply list_elem_of_fmap. by exists best. }
  destruct (rank_over a best) eqn:E.
  - exists a. split; [left |]. intros b [->|Hb]%elem_of_cons Hne'; [done |].
    destruct (decide (node_id (config b) = node_id (config best) ∧
                      priority (config b) = priority (config best))) as [[E1 E2]|Hd].
    { unfold rank_over in *. by rewrite E1, E2. }
    eapply outranks_trans; [exact E |]. apply (Hmax b Hb). intros ->. apply Hd. done.
  - exists best. split; [by right |]. intros b [->|Hb]%elem_of_cons Hne'; [| by apply Hmax].
    unfold rank_over in *. rewrite outranks_total by done. by rewrite E.
Qed.

Lemma round_inbox_terms cands a msgs t :
  a ∈ cands → Forall (λ a, state a = Candidate ∧ current (term a) = t) cands →
  round_inbox cands a msgs → Forall (λ m, msg_term m = t) msgs.
Proof.
  intros Ha Hc [_ Hin]. apply Forall_forall. intros m Hm.
  destruct (Hin m Hm) as (b & Hb & _ & [->|Hout]); rewrite Forall_forall in Hc; destruct (Hc b Hb); [done |].
  by apply outgoing_own in Hout as [_ ->].
Qed.

Lemma cands_id_inj cands a b :
  NoDup (node_id ∘ config <$> cands) → a ∈ cands → b ∈ cands →
  node_id (config a) = node_id (config b) → a = b.
Proof.
  intros Hnd Ha Hb E. apply list_elem_of_lookup in Ha as [i Hi], Hb as [j Hj].
  assert (i = j) as ->; [| congruence].
  eapply (NoDup_lookup _ i j (node_id (config a))); [exact Hnd | |];
    rewrite list_lookup_fmap; [by rewrite Hi | by rewrite Hj, E].
Qed.

Lemma round_inbox_best cands best msgs t m :
  best ∈ cands → Forall (λ a, state a = Candidate ∧ current (term a) = t) cands →
  NoDup (node_id ∘ config <$> cands) →
  (∀ b, b ∈ cands → b ≠ best → rank_over best b = true) →
  round_inbox cands best msgs → m ∈ msgs →
  ∃ b, b ∈ cands ∧ m = start_msg b ∧ current (term b) = t ∧ rank_over best b = true.
Proof.
  intros Hbest Hc Hnd Hmax [_ Hin] Hm. destruct (Hin m Hm) as (b & Hb & Hne & Hcase).
  rewrite Forall_forall in Hc. pose proof (Hmax b Hb Hne) as Hr.
  exists b. split_and!; [done | | by apply Hc | done]. destruct Hcase as [->|Hout]; [done |].
  exfalso. rewrite on_message_same_start in Hout 
    by (by rewrite (proj2 (Hc b Hb)), (proj2 (Hc best Hbest))).
  assert (node_id (config b) ≠ node_id (config best)) as Hid.
  { intros E. apply Hne. by eapply cands_id_inj. }
  assert (rank_over b best = false) as Hrb.
  { unfold rank_over in *. rewrite outranks_total by done. by rewrite Hr. }
  rewrite Hrb in Hout. simpl in Hout. set_solver.
Qed.

(** C28: when several candidates of one term all hear each other's
    ElectionStart and the challenges answering their own before the window
    expires, in any order and with duplicates, exactly one of them becomes
    Leader, the one that outranks all the others; the rest are followers, and
    the term is the same for all. *)
Theorem election_round_unique_leader cands t (inbox : ElectionAgent → list Message) :
  cands ≠ [] → NoDup (node_id ∘ config <$> cands) →
  Forall (λ a, state a = Candidate ∧ current (term a) = t) cands →
  (∀ a, a ∈ cands → round_inbox cands a (inbox a)) →
  ∃ best, best ∈ cands ∧ (∀ b, b ∈ cands → b ≠ best → rank_over best b = true) ∧
    on_election_timeout (deliver best (inbox best)) = (set_state Leader best, DeclareVictory) ∧
    ∀ b, b ∈ cands → b ≠ best →
      let '(b', act) := on_election_timeout (deliver b (inbox b)) in
      state b' = Follower ∧ act = ANone ∧ current (term b') = t ∧ config b' = config b.
Proof.
  intros Hne Hnd Hc Hin. destruct (best_candidate cands Hne Hnd) as (best & Hbest & Hmax).
  assert (∀ a, a ∈ cands → state a = Candidate ∧ current (term a) = t) as Hc' by (by apply Forall_forall).
  exists best. split_and!; [done | done | |].
  - rewrite (deliver_outranking best _ cands t); [| by apply Hc' | by apply Hc' |].
    + unfold on_election_timeout. by rewrite (proj1 (Hc' best Hbest)).
    + intros m. eapply round_inbox_best; eauto.
  - intros b Hb Hbne. destruct (Hc' b Hb) as [Hs Ht].
    pose proof (round_inbox_terms cands b _ t Hb Hc (Hin b Hb)) as Hterms.
    assert (state (deliver b (inbox b)) = Follower) as Hf.
    { apply (deliver_outranked b _ best t); [done | done | by apply Hc' | done | |].
      - apply (proj1 (Hin b Hb)); congruence.
      - assert (node_id (config b) ≠ node_id (config best)) as Hid.
        { intros E. apply Hbne. by eapply cands_id_inj. }
        unfold rank_over. rewrite outranks_total by done.
        change (negb (rank_over best b) = false). by rewrite Hmax. }
    destruct (deliver_keeps b (inbox b) t Ht Hterms).
    unfold on_election_timeout. by rewrite Hf.
Qed.

(** ** What the terms do not exclude *)

Module SplitBrain.
Definition cfg_a := {| node_id := "a"; priority := 0; election_window_ms := 5000 |}.
Definition cfg_b := {| node_id := "b"; priority := 1; election_window_ms := 5000 |}.
Definition agent_at (cfg : ElectionConfig) (s : ElectionState) : ElectionAgent :=
  {| config := cfg; term := {| current := 1 |}; state := s |}.
Definition c0 := cluster_init [cfg_a; cfg_b] 0.
Definition msgs : list Message :=
  [MVictory "b" 1 "b"; MVictory "a" 1 "a"; MStart "b" 1 1; MStart "a" 0 1].
Definition both (s : ElectionState) : gmap string ElectionAgent :=
  <["a" := agent_at cfg_a s]> {["b" := agent_at cfg_b s]}.

(** A cluster given by the two nodes' states. *)
Definition pair_of (a b : ElectionAgent) (ms : list Message) : Cluster :=
  {| nodes := <["a" := a]> {["b" := b]}; sent := ms |}.

Ltac by_step rule :=
  match goal with |- cluster_step ?c ?c' =>
    refine (eq_ind _ (cluster_step c) rule _ _);
    vm_compute; reflexivity
  end.

(** Both nodes start an election and both windows expire before anything
    is delivered. *)
Lemma run_to_two_leaders :
  rtc cluster_step c0 {| nodes := both Leader; sent := msgs |}.
Proof.
  pose (ca := agent_at cfg_a Candidate). pose (cb := agent_at cfg_b Candidate).
  apply (rtc_l _ _ (pair_of ca (agent_new cfg_b 0) (drop 3 msgs))).
  { by_step (step_start c0 "a" (agent_new cfg_a 0) ca 1 ltac:(by vm_compute) ltac:(by vm_compute)). }
  apply (rtc_l _ _ (pair_of ca cb (drop 2 msgs))).
  { by_step (step_start (pair_of ca (agent_new cfg_b 0) (drop 3 msgs)) "b" (agent_new cfg_b 0) cb 1
               ltac:(by vm_compute) ltac:(by vm_compute)). }
  apply (rtc_l _ _ (pair_of (agent_at cfg_a Leader) cb (drop 1 msgs))).
  { by_step (step_timeout (pair_of ca cb (drop 2 msgs)) "a" ca ltac:(by vm_compute)). }
  apply rtc_once.
  by_step (step_timeout (pair_of (agent_at cfg_a Leader) cb (drop 1 msgs)) "b" cb ltac:(by vm_compute)).
Qed.

Lemma run_to_no_leader :
  rtc cluster_step {| nodes := both Leader; sent := msgs |} {| nodes := both Follower; sent := msgs |}.
Proof.
  pose (la := agent_at cfg_a Leader). pose (lb := agent_at cfg_b Leader).
  apply (rtc_l _ _ (pair_of (agent_at cfg_a Follower) lb msgs)).
  { by_step (step_deliver (pair_of la lb msgs) "a" la (MVictory "b" 1 "b")
               ltac:(by vm_compute) ltac:(left) ltac:(done)). }
  apply rtc_once.
  by_step (step_deliver (pair_of (agent_at cfg_a Follower) lb msgs) "b" lb (MVictory "a" 1 "a")
             ltac:(by vm_compute) ltac:(right; left) ltac:(done)).
Qed.
End SplitBrain.

(** Terms alone do not exclude a split brain: there is a run of two nodes
    after which both are Leader in the same term (both windows expire before
    the ElectionStart messages arrive), and from there the two Victory
    messages, which carry the accepted term, make both step down, so that no
    node leads. *)
Theorem split_brain_reachable :
  ∃ cfgs c c', NoDup (node_id <$> cfgs) ∧ rtc cluster_step (cluster_init cfgs 0) c ∧
    (∃ a b, nodes c !! "a"%string = Some a ∧ nodes c !! "b"%string = Some b ∧
       state a = Leader ∧ state b = Leader ∧ current (term a) = current (term b)) ∧
    rtc cluster_step c c' ∧ (∀ id a, nodes c' !! id = Some a → state a = Follower).
Proof.
  exists [SplitBrain.cfg_a; SplitBrain.cfg_b]. eexists _, _.
  split; [decide_now |]. split; [apply SplitBrain.run_to_two_leaders |].
  split; [by eexists _, _; vm_compute |]. split; [apply SplitBrain.run_to_no_leader |].
  intros id a. simpl. unfold SplitBrain.both.
  intros [[_ <-]|[_ [_ <-]%lookup_singleton_Some]]%lookup_insert_Some; done.
Qed.

Module ElectionWitness.
Import SplitBrain.
Local Definition c1 : Cluster := {| nodes := both Leader; sent := msgs |}.

Lemma term_monotone_witness :
  ∃ a', nodes {| nodes := both Follower; sent := msgs |} !! "a"%string = Some a' ∧
    config a' = cfg_a ∧ 1 ≤ current (term a').
Proof.
  exact (term_monotone [cfg_a; cfg_b] 0 c1 _ "a" (agent_at cfg_a Leader)
           ltac:(lia) run_to_two_leaders run_to_no_leader ltac:(by vm_compute)).
Defined.

Lemma leader_provenance_witness :
  (∃ p t, MStart "a" p t ∈ sent c1) ∧ (∃ t addr, MVictory "a" t addr ∈ sent c1).
Proof.
  exact (proj1 (leader_provenance [cfg_a; cfg_b] 0 c1 ltac:(lia) run_to_two_leaders)
           "a" (agent_at cfg_a Leader) ltac:(by vm_compute) ltac:(done)).
Defined.

Local Definition cand (id : string) (p : Z) : ElectionAgent :=
  {| config := {| node_id := id; priority := p; election_window_ms := 5000 |};
     term := {| current := 7 |}; state := Candidate |}.
Local Definition cands := [cand "n2" 5; cand "n1" 5; cand "n3" 9].
Local Definition inbox (a : ElectionAgent) : list Message :=
  (filter (λ m, msg_sender m ≠ node_id (config a)) (start_msg <$> cands)) ++
  (cands ≫= λ b, if bool_decide (node_id (config b) = node_id (config a)) then []
                 else outgoing b (on_message b (start_msg a)).2).

Local Definition inbox_check (a : ElectionAgent) : Prop :=
  Forall (λ b, b ≠ a → start_msg b ∈ inbox a) cands ∧
  Forall (λ m, Exists (λ b, b ≠ a ∧ (m = start_msg b ∨ m ∈ outgoing b (on_message b (start_msg a)).2))
                 cands) (inbox a).

Local Lemma inbox_ok a : a ∈ cands → round_inbox cands a (inbox a).
Proof.
  intros Ha.
  assert (Forall inbox_check cands) as Hall by decide_now.
  rewrite Forall_forall in Hall. destruct (Hall a Ha) as [H1 H2]. rewrite Forall_forall in H1.
  split; [done |]. intros m Hm. rewrite Forall_forall in H2. by apply H2, Exists_exists in Hm.
Qed.

Lemma election_round_witness :
  ∃ best, best ∈ cands ∧ (∀ b, b ∈ cands → b ≠ best → rank_over best b = true) ∧
    on_election_timeout (deliver best (inbox best)) = (set_state Leader best, DeclareVictory) ∧
    ∀ b, b ∈ cands → b ≠ best →
      let '(b', act) := on_election_timeout (deliver b (inbox b)) in
      state b' = Follower ∧ act = ANone ∧ current (term b') = 7 ∧ config b' = config b.
Proof.
  exact (election_round_unique_leader cands 7 inbox ltac:(done) ltac:(decide_now)
           ltac:(decide_now) inbox_ok).
Defined.
End ElectionWitness.
