(* ===== verification/Backend.v ===== *)
(** * The device backend ([crates/fracture-core/src/backend.rs])

    The trait every GPU backend implements, as a class over the device state:
    the operations the caches use, two observations (the tensors that are
    allocated and the rows each holds) and the laws its documentation gives.
    The caches are proved against the class; [SimDevice] is an instance, a
    device with room for a fixed number of tensors. *)

From S2P Require Import Prelude Core.

Notation Row := (list Z).

Class BackendOps (D : Type) := {
  b_alloc : list Z → DType → st D DeviceTensor;
  b_free : DeviceTensor → st D unit;
  b_copy_to_device : DeviceTensor → list Z → st D unit;
  (** [copy_rows(src, dst, src_offset, dst_offset, count)] *)
  b_copy_rows : DeviceTensor → DeviceTensor → nat → nat → nat → st D unit;
  (** [turboquant_compress(input, rotation, centroids, bits, packed_out, norms_out)] *)
  b_turboquant_compress :
    DeviceTensor → DeviceTensor → DeviceTensor → Z → DeviceTensor → DeviceTensor → st D unit;
  b_live : D → gset Z;
  b_rows : D → Z → list Row;
  (** what the compression kernel computes of one input row *)
  b_pack : list Row → list Row → Z → Row → Row;
  b_norm : list Row → list Row → Z → Row → Row
}.

(** The rows of tensor [t]. *)
Definition t_rows {D : Type} `{BackendOps D} (d : D) (t : DeviceTensor) : list Row :=
  b_rows d (tensor_id t).
Definition t_live {D : Type} `{BackendOps D} (d : D) (t : DeviceTensor) : Prop :=
  tensor_id t ∈ b_live d.

(** [shape[0]]: the rows a handle says its tensor has. *)
Definition nrows (t : DeviceTensor) : nat := Z.to_nat (default 0%Z (head (shape t))).

(** A handle of an allocated tensor, with the tensor's number of rows. *)
Definition t_valid {D : Type} `{BackendOps D} (d : D) (t : DeviceTensor) : Prop :=
  t_live d t ∧ length (t_rows d t) = nrows t.

(** Rows of the two tensors are laid out alike: [shape[1..]] and [dtype] agree. *)
Definition same_layout (t u : DeviceTensor) : Prop := tail (shape t) = tail (shape u) ∧ dtype t = dtype u.

(** Bytes of one row of [nkv] heads of [hd] coordinates packed to [bits] bits:
    the kernel writes the rows of its output at this distance. *)
Definition packed_row_bytes (nkv hd bits : Z) : Z := (nkv * ((hd * bits + 7) `div` 8))%Z.

(** The device [d'] holds what [d] held for every tensor in [X]. *)
Definition same_rows {D : Type} `{BackendOps D} (X : gset Z) (d d' : D) : Prop :=
  ∀ i, i ∈ X → b_rows d' i = b_rows d i.

(** Allocating a tensor and filling it with host bytes. *)
Definition alloc_fill {D : Type} `{BackendOps D} (sh : list Z) (dt : DType) (src : list Z) : st D DeviceTensor :=
  do! t := b_alloc sh dt in
  do! _ := b_copy_to_device t src in
  sret t.

(** [n] rows of equal length that make up [l]. *)
Definition chunk_rows (n : nat) (l : list Z) : list Row :=
  let k := length l `div` n in (λ i, take k (drop (i * k) l)) <$> seq 0 n.

Class BackendLaws (D : Type) `{BackendOps D} := {
  b_alloc_no_panic sh dt d : (b_alloc sh dt d).2 ≠ Panic;
  b_alloc_Ok d d' sh dt t : b_alloc sh dt d = (d', Ok t) →
    shape t = sh ∧ dtype t = dt ∧ tensor_id t ∉ b_live d ∧
    b_live d' = {[tensor_id t]} ∪ b_live d ∧ same_rows (b_live d) d d' ∧
    length (t_rows d' t) = Z.to_nat (default 0%Z (head sh));
  b_alloc_Err d d' sh dt e : b_alloc sh dt d = (d', Err e) →
    b_live d' = b_live d ∧ same_rows (b_live d) d d';
  b_free_Ok d t : t_live d t →
    ∃ d', b_free t d = (d', Ok ()) ∧ b_live d' = b_live d ∖ {[tensor_id t]} ∧
          same_rows (b_live d') d d';
  (** a longer source is cut at the size of the tensor *)
  b_copy_to_device_Ok d t src n : t_live d t → size_bytes t = Ok n → (n ≤ Z.of_nat (length src))%Z →
    ∃ d', b_copy_to_device t src d = (d', Ok ()) ∧
      t_rows d' t = chunk_rows (length (t_rows d t)) (take (Z.to_nat n) src);
  b_copy_to_device_size d d' t src : b_copy_to_device t src d = (d', Ok ()) → t_live d t →
    ∃ n, size_bytes t = Ok n ∧ (n ≤ Z.of_nat (length src))%Z;
  b_copy_to_device_frame d d' t src r : b_copy_to_device t src d = (d', r) → t_live d t →
    b_live d' = b_live d ∧ same_rows (b_live d ∖ {[tensor_id t]}) d d';
  b_copy_rows_Ok d src dst so dof n :
    t_valid d src → t_valid d dst → tensor_id src ≠ tensor_id dst → same_layout src dst →
    so + n ≤ length (t_rows d src) → dof + n ≤ length (t_rows d dst) →
    ∃ d', b_copy_rows src dst so dof n d = (d', Ok ()) ∧ b_live d' = b_live d ∧
      t_rows d' dst = list_inserts dof (take n (drop so (t_rows d src))) (t_rows d dst) ∧
      same_rows (b_live d ∖ {[tensor_id dst]}) d d';
  (** rows of different width are refused *)
  b_copy_rows_columns d src dst so dof n :
    t_valid d src → t_valid d dst → tail (shape src) ≠ tail (shape dst) →
    so + n ≤ length (t_rows d src) → dof + n ≤ length (t_rows d dst) →
    ∃ msg, b_copy_rows src dst so dof n d = (d, Err (InvalidShape msg));
  (** the kernel writes to its two outputs only *)
  b_turboquant_compress_Ok d input rot cent bits packed norms n nkv hd w :
    t_valid d input → t_live d rot → t_live d cent → t_valid d packed → t_valid d norms →
    tensor_id packed ≠ tensor_id norms →
    tensor_id packed ∉ ({[tensor_id input; tensor_id rot; tensor_id cent]} : gset Z) →
    tensor_id norms ∉ ({[tensor_id input; tensor_id rot; tensor_id cent]} : gset Z) →
    shape input = [n; nkv; hd] → tail (shape packed) = [w] → tail (shape norms) = [nkv] →
    (packed_row_bytes nkv hd bits ≤ w)%Z →
    length (t_rows d input) ≤ length (t_rows d packed) →
    length (t_rows d input) ≤ length (t_rows d norms) →
    ∃ d', b_turboquant_compress input rot cent bits packed norms d = (d', Ok ()) ∧
      b_live d' = b_live d ∧ same_rows (b_live d ∖ {[tensor_id packed; tensor_id norms]}) d d' ∧
      length (t_rows d' packed) = length (t_rows d packed) ∧
      length (t_rows d' norms) = length (t_rows d norms) ∧
      t_rows d' norms = list_inserts 0 (b_norm (t_rows d rot) (t_rows d cent) bits <$> t_rows d input)
                          (t_rows d norms) ∧
      (w = packed_row_bytes nkv hd bits →
       t_rows d' packed = list_inserts 0 (b_pack (t_rows d rot) (t_rows d cent) bits <$> t_rows d input)
                            (t_rows d packed))
}.

(** ** A simulated device *)

Record SimDevice := { sim_mem : gmap Z (list Row); sim_room : nat }.

(** An id above every allocated one. *)
Definition sim_fresh (m : gmap Z (list Row)) : Z :=
  (1 + map_fold (λ k _ acc, Z.max k acc) 0%Z m)%Z.

Definition sim_alloc (sh : list Z) (dt : DType) : st SimDevice DeviceTensor := λ d,
  match sim_room d with
  | 0 => (d, Err (OutOfMemory 1 0))
  | S room =>
      let id := sim_fresh (sim_mem d) in
      ({| sim_mem := <[id := replicate (Z.to_nat (default 0%Z (head sh))) []]> (sim_mem d);
          sim_room := room |},
       Ok {| tensor_id := id; shape := sh; dtype := dt |})
  end.

Definition sim_free (t : DeviceTensor) : st SimDevice unit := λ d,
  match sim_mem d !! tensor_id t with
  | Some _ => ({| sim_mem := delete (tensor_id t) (sim_mem d); sim_room := S (sim_room d) |}, Ok ())
  | None => (d, Err (Backend "invalid tensor"))
  end.

Definition sim_rows (d : SimDevice) (i : Z) : list Row := default [] (sim_mem d !! i).

Definition sim_put (i : Z) (rs : list Row) (d : SimDevice) : SimDevice :=
  {| sim_mem := <[i := rs]> (sim_mem d); sim_room := sim_room d |}.

Definition sim_copy_rows (src dst : DeviceTensor) (so dof n : nat) : st SimDevice unit := λ d,
  if negb (bool_decide (so + n ≤ nrows src) && bool_decide (dof + n ≤ nrows dst)) then
    (d, Err (InvalidShape "copy_rows: exceeds rows"))
  else if negb (bool_decide (tail (shape src) = tail (shape dst))) then
    (d, Err (InvalidShape "copy_rows: column shape"))
  else if negb (bool_decide (dtype src = dtype dst)) then (d, Err (InvalidShape "copy_rows: dtype"))
  else
    (sim_put (tensor_id dst)
       (list_inserts dof (take n (drop so (sim_rows d (tensor_id src)))) (sim_rows d (tensor_id dst))) d,
     Ok ()).

Definition sim_copy_to_device (t : DeviceTensor) (src : list Z) : st SimDevice unit := λ d,
  match size_bytes t with
  | Ok n =>
      if (n <=? Z.of_nat (length src))%Z then
        (sim_put (tensor_id t) (chunk_rows (length (sim_rows d (tensor_id t))) (take (Z.to_nat n) src)) d, Ok ())
      else (d, Err (InvalidShape "source buffer too small"))
  | _ => (d, Err (InvalidShape "size overflow"))
  end.

(** A stand-in for the kernel: the row's bytes modulo [2^bits], and its length. *)
Definition sim_pack (rot cent : list Row) (bits : Z) (r : Row) : Row := (λ b, b `mod` 2 ^ bits)%Z <$> r.
Definition sim_norm (rot cent : list Row) (bits : Z) (r : Row) : Row := [Z.of_nat (length r)].

Definition sim_compress (input rot cent : DeviceTensor) (bits : Z) (packed norms : DeviceTensor)
    : st SimDevice unit := λ d,
  let rows := sim_rows d (tensor_id input) in
  let put f t d' := sim_put (tensor_id t) (list_inserts 0
    (f (sim_rows d (tensor_id rot)) (sim_rows d (tensor_id cent)) bits <$> rows)
    (sim_rows d (tensor_id t))) d' in
  (put sim_norm norms (put sim_pack packed d), Ok ()).

#[export] Instance SimBackend : BackendOps SimDevice := {|
  b_alloc := sim_alloc; b_free := sim_free; b_copy_to_device := sim_copy_to_device;
  b_copy_rows := sim_copy_rows; b_turboquant_compress := sim_compress;
  b_live d := dom (sim_mem d); b_rows := sim_rows; b_pack := sim_pack; b_norm := sim_norm
|}.

Lemma sim_fresh_above m k : k ∈ dom m → (k < sim_fresh m)%Z.
Proof.
  unfold sim_fresh.
  apply (map_fold_weak_ind (λ acc m, k ∈ dom m → (k < 1 + acc)%Z)); [set_solver |].
  intros i x m' acc Hi IH. rewrite dom_insert. intros [->%elem_of_singleton|?]%elem_of_union; [lia |].
  specialize (IH H). lia.
Qed.

Lemma sim_rows_put_eq d i rs : sim_rows (sim_put i rs d) i = rs.
Proof. unfold sim_rows, sim_put. simpl. by rewrite lookup_insert_eq. Qed.
Lemma sim_rows_put_ne d i j rs : i ≠ j → sim_rows (sim_put i rs d) j = sim_rows d j.
Proof. intros. unfold sim_rows, sim_put. simpl. by rewrite lookup_insert_ne. Qed.
Lemma sim_live_put d i rs : i ∈ dom (sim_mem d) → dom (sim_mem (sim_put i rs d)) = dom (sim_mem d).
Proof. intros. simpl. rewrite dom_insert_L. set_solver. Qed.

#[export] Instance SimBackendLaws : BackendLaws SimDevice.
Proof.
  split; simpl; unfold t_live, t_rows, same_rows; simpl.
  - intros sh dt d. unfold sim_alloc. by destruct (sim_room d).
  - intros d d' sh dt t. unfold sim_alloc. destruct (sim_room d); [done |]. intros [= <- <-].
    assert (sim_fresh (sim_mem d) ∉ dom (sim_mem d)) as Hf.
    { intros Hin%sim_fresh_above. lia. }
    split_and!; [done | done | done | apply dom_insert_L | |].
    + intros i Hi. unfold sim_rows. simpl. rewrite lookup_insert_ne; [done |]. by intros <-.
    + unfold sim_rows. simpl. rewrite lookup_insert_eq. apply length_replicate.
  - intros d d' sh dt e. unfold sim_alloc. by destruct (sim_room d); intros [= <- _].
  - intros d t [rs Hrs]%elem_of_dom. unfold sim_free. rewrite Hrs. eexists. split; [done |].
    simpl. split; [apply dom_delete_L |]. intros i Hi. rewrite dom_delete_L in Hi.
    unfold sim_rows. simpl. rewrite lookup_delete_ne; [done | set_solver].
  - intros d t src n Ht Hn Hlen. unfold sim_copy_to_device. rewrite Hn, (proj2 (Z.leb_le _ _)) by done.
    eexists. split; [done |]. by rewrite sim_rows_put_eq.
  - intros d d' t src. unfold sim_copy_to_device. destruct (size_bytes t) as [n| |]; [| done..].
    destruct (Z.leb_spec n (Z.of_nat (length src))); [| done]. eauto.
  - intros d d' t src r. unfold sim_copy_to_device. destruct (size_bytes t); [case_if |..];
      intros [= <- _] Ht; (split; [| intros i Hi]); try done; [by apply sim_live_put |].
    apply sim_rows_put_ne. set_solver.
  - intros d src dst so dof n [Hs Ls] [Hd Ld] Hne [Hc Ht] H1 H2. unfold sim_copy_rows, t_rows in *. simpl in *.
    rewrite (bool_decide_true (so + n ≤ nrows src)), (bool_decide_true (dof + n ≤ nrows dst)) by lia.
    rewrite (bool_decide_true _ Hc), (bool_decide_true _ Ht). simpl.
    eexists. split; [done |]. split; [by apply sim_live_put |].
    rewrite sim_rows_put_eq. split; [done |]. intros i Hi. apply sim_rows_put_ne. set_solver.
  - intros d src dst so dof n [Hs Ls] [Hd Ld] Hc H1 H2. unfold sim_copy_rows, t_rows in *. simpl in *.
    rewrite (bool_decide_true (so + n ≤ nrows src)), (bool_decide_true (dof + n ≤ nrows dst)) by lia.
    rewrite (bool_decide_false _ Hc). simpl. eauto.
  - intros d input rot cent bits packed norms n nkv hd w ? ? ? [? _] [? _] Hne Hp Hn ??????. eexists. split; [done |].
    split; [rewrite sim_live_put; [by apply sim_live_put | by rewrite sim_live_put] |].
    rewrite sim_rows_put_eq. rewrite (sim_rows_put_ne _ (tensor_id norms)) by done.
    rewrite sim_rows_put_eq, !length_inserts. split_and!; try done.
    intros i Hi. rewrite !sim_rows_put_ne; [done | set_solver..].
Qed.

(** ** Room on the simulated device

    [costs k m]: on a device with room for [k] more tensors [m] succeeds and
    takes exactly that room. *)

Definition costs {A : Type} (k : nat) (m : st SimDevice A) : Prop :=
  ∀ d, k ≤ sim_room d → ∃ d' a, m d = (d', Ok a) ∧ sim_room d' = sim_room d - k.

Lemma costs_ret {A : Type} (a : A) : costs 0 (sret a).
Proof. intros d _. exists d, a. split; [done | lia]. Qed.

Lemma costs_bind {A B : Type} k k' (m : st SimDevice A) (f : A → st SimDevice B) :
  costs k m → (∀ a, costs k' (f a)) → costs (k + k') (sbind m f).
Proof.
  intros Hm Hf d Hd. destruct (Hm d) as (d1 & a & Hr & Hroom); [lia |].
  destruct (Hf a d1) as (d2 & b & Hr2 & Hroom2); [lia |]. exists d2, b. unfold sbind. rewrite Hr, Hr2. split; [done | lia].
Qed.

Lemma costs_lift {A B : Type} k (r : result A) a (f : A → st SimDevice B) :
  r = Ok a → costs k (f a) → costs k (sbind (slift r) f).
Proof. intros -> Hf d Hd. by apply Hf. Qed.

Lemma costs_map_err {A : Type} k e (m : st SimDevice A) : costs k m → costs k (smap_err e m).
Proof. intros Hm d Hd. destruct (Hm d Hd) as (d' & a & Hr & Hroom). exists d', a. unfold smap_err. by rewrite Hr. Qed.

Lemma costs_smapM {A B : Type} k (f : A → st SimDevice B) l :
  (∀ x, x ∈ l → costs k (f x)) → costs (length l * k) (smapM f l).
Proof.
  induction l as [|x l IH]; intros Hf; [apply costs_ret |]. cbn [smapM length].
  replace (S (length l) * k) with (k + (length l * k + 0)) by lia.
  apply costs_bind; [apply Hf; left |]. intros y. apply costs_bind; [apply IH; intros; apply Hf; by right |].
  intros ys. apply costs_ret.
Qed.

Lemma costs_alloc sh dt : costs 1 (b_alloc sh dt).
Proof. intros d Hd. simpl. unfold sim_alloc. destruct (sim_room d) as [|r]; [lia |]. eexists _, _. split; [done | simpl; lia]. Qed.

Lemma costs_fill sh dt src n :
  (∀ id, size_bytes {| tensor_id := id; shape := sh; dtype := dt |} = Ok n) → (n ≤ Z.of_nat (length src))%Z →
  costs 1 (alloc_fill sh dt src).
Proof.
  intros Hn Hle d Hd. unfold alloc_fill, sbind. simpl. unfold sim_alloc. destruct (sim_room d) as [|r]; [lia |].
  unfold sim_copy_to_device. rewrite Hn, (proj2 (Z.leb_le _ _)) by done. eexists _, _. split; [done | simpl; lia].
Qed.

(** ** Tracking what was allocated since a point in time *)

Section alloced.
Context {D : Type} `{BackendLaws D}.
Implicit Types d : D.

(** Since [d0] exactly the tensors [ts] were allocated and not freed, and what
    was there before is unchanged. *)
Record alloced d0 d (ts : list DeviceTensor) : Prop := {
  al_live : b_live d = list_to_set (tensor_id <$> ts) ∪ b_live d0;
  al_nodup : NoDup (tensor_id <$> ts);
  al_new : ∀ t, t ∈ ts → tensor_id t ∉ b_live d0;
  al_rows : same_rows (b_live d0) d0 d
}.

Lemma alloced_refl d : alloced d d [].
Proof.
  split; [set_solver | constructor | | done]. intros t Ht. by apply not_elem_of_nil in Ht.
Qed.

Lemma alloced_perm d0 d ts ts' : ts ≡ₚ ts' → alloced d0 d ts → alloced d0 d ts'.
Proof.
  intros Hp [Hl Hn Hf Hr]. split; [| by rewrite <- Hp | | done].
  - rewrite Hl. f_equal. apply set_eq. intros i. by rewrite !elem_of_list_to_set, Hp.
  - intros t Ht. apply Hf. by rewrite Hp.
Qed.

Lemma alloced_alloc d0 d d' ts sh dt t :
  alloced d0 d ts → b_alloc sh dt d = (d', Ok t) → alloced d0 d' (t :: ts).
Proof.
  intros [Hl Hn Hf Hr] (_ & _ & Hfresh & Hlive & Hsame & _)%b_alloc_Ok. split.
  - rewrite Hlive, Hl. simpl. set_solver.
  - constructor; [| done]. intros Hin. apply Hfresh. rewrite Hl. set_solver.
  - intros t' [->|Ht']%elem_of_cons; [| by apply Hf]. intros Hin. apply Hfresh. rewrite Hl. set_solver.
  - intros i Hi. rewrite (Hsame i); [by apply Hr | rewrite Hl; set_solver].
Qed.

Lemma alloced_alloc_Err d0 d d' ts sh dt e :
  alloced d0 d ts → b_alloc sh dt d = (d', Err e) → alloced d0 d' ts.
Proof.
  intros [Hl Hn Hf Hr] [Hlive Hsame]%b_alloc_Err. split; [congruence | done | done |].
  intros i Hi. rewrite (Hsame i); [by apply Hr | rewrite Hl; set_solver].
Qed.

Lemma alloced_free d0 d ts t :
  alloced d0 d (t :: ts) → ∃ d', b_free t d = (d', Ok ()) ∧ alloced d0 d' ts.
Proof.
  intros [Hl Hn Hf Hr]. destruct (b_free_Ok d t) as (d' & Hfree & Hlive & Hsame).
  { unfold t_live. rewrite Hl. set_solver. }
  exists d'. split; [done |]. apply NoDup_cons in Hn as [Hnt Hn].
  assert (tensor_id t ∉ b_live d0) as Ht0 by (apply Hf; left).
  assert (b_live d' = list_to_set (tensor_id <$> ts) ∪ b_live d0) as Hl'.
  { rewrite Hlive, Hl. simpl. set_solver. }
  split; [done | done | |].
  - intros t' Ht'. apply Hf. by right.
  - intros i Hi. rewrite (Hsame i); [by apply Hr | rewrite Hl'; set_solver].
Qed.

(** Everything given back: the device is as it was. *)
Lemma alloced_nil d0 d : alloced d0 d [] → b_live d = b_live d0 ∧ same_rows (b_live d0) d0 d.
Proof. intros [Hl _ _ Hr]. split; [rewrite Hl; set_solver | done]. Qed.

Lemma alloced_t_live d0 d ts t : alloced d0 d ts → t ∈ ts → t_live d t.
Proof.
  intros [Hl _ _ _] Ht. unfold t_live. rewrite Hl. apply elem_of_union_l, elem_of_list_to_set.
  apply list_elem_of_fmap. eauto.
Qed.

(** Two stretches of work: what the first one wrote is still there. *)
Lemma alloced_app d0 d1 d2 ts1 ts2 :
  alloced d0 d1 ts1 → alloced d1 d2 ts2 → alloced d0 d2 (ts2 ++ ts1) ∧ ∀ t, t ∈ ts1 → t_rows d2 t = t_rows d1 t.
Proof.
  intros [Hl1 Hn1 Hf1 Hr1] [Hl2 Hn2 Hf2 Hr2]. split; [split |].
  - rewrite Hl2, Hl1, fmap_app, list_to_set_app_L. set_solver.
  - rewrite fmap_app. apply NoDup_app. split_and!; [done | | done].
    intros i (t & -> & Ht)%list_elem_of_fmap Hi. apply (Hf2 t Ht). rewrite Hl1. set_solver.
  - intros t [Ht|Ht]%elem_of_app; [| by apply Hf1]. intros Hin. apply (Hf2 t Ht). rewrite Hl1. set_solver.
  - intros i Hi. rewrite (Hr2 i); [by apply Hr1 | rewrite Hl1; set_solver].
  - intros t Ht. apply Hr2. rewrite Hl1. apply elem_of_union_l, elem_of_list_to_set, list_elem_of_fmap. eauto.
Qed.

(** Allocating a tensor and filling it from the host. *)
Lemma alloced_fill d d1 d2 sh dt t src :
  b_alloc sh dt d = (d1, Ok t) → b_copy_to_device t src d1 = (d2, Ok ()) →
  alloced d d2 [t] ∧ shape t = sh ∧ dtype t = dt ∧
  ∃ n, size_bytes t = Ok n ∧ (n ≤ Z.of_nat (length src))%Z ∧
    t_rows d2 t = chunk_rows (Z.to_nat (default 0%Z (head sh))) (take (Z.to_nat n) src).
Proof.
  intros Ha Hc. pose proof (alloced_alloc d d d1 [] sh dt t (alloced_refl d) Ha) as [Hl Hnd Hf Hr].
  apply b_alloc_Ok in Ha as (Hsh & Hdt & Hfresh & Hlive & _ & Hlen).
  assert (t_live d1 t) as Ht by (unfold t_live; rewrite Hlive; set_solver).
  destruct (b_copy_to_device_frame _ _ _ _ _ Hc Ht) as [Hl2 Hs2].
  destruct (b_copy_to_device_size _ _ _ _ Hc Ht) as (n & Hn & Hle).
  split_and!; [| done | done |].
  - split; [by rewrite Hl2 | done | done |]. intros i Hi. rewrite (Hs2 i); [by apply Hr |]. rewrite Hl. set_solver.
  - exists n. destruct (b_copy_to_device_Ok d1 t src n Ht Hn Hle) as (d' & Hc' & Hrows). rewrite Hc in Hc'.
    injection Hc' as <-. by rewrite Hrows, Hlen.
Qed.

Lemma alloc_fill_Ok sh dt src d d' t :
  alloc_fill sh dt src d = (d', Ok t) →
  alloced d d' [t] ∧ shape t = sh ∧ dtype t = dt ∧
  ∃ n, size_bytes t = Ok n ∧ (n ≤ Z.of_nat (length src))%Z ∧
    t_rows d' t = chunk_rows (Z.to_nat (default 0%Z (head sh))) (take (Z.to_nat n) src).
Proof.
  unfold alloc_fill. intros (d1 & t1 & Ha & (d2 & [] & Hc & [= <- <-])%sbind_Ok)%sbind_Ok.
  by eapply alloced_fill.
Qed.

(** The tensors [ts] are on [d'] what they are on [d]. *)
Definition persist d d' (ts : list DeviceTensor) : Prop :=
  ∀ t, t ∈ ts → t_rows d' t = t_rows d t ∧ (t_live d t → t_live d' t).

Lemma alloced_persist d d' ts us : alloced d d' us → (∀ t, t ∈ ts → t_live d t) → persist d d' ts.
Proof.
  intros [Hl _ _ Hr] Hts t Ht. split; [apply Hr; by apply Hts |].
  intros Hlive. unfold t_live in *. rewrite Hl. set_solver.
Qed.

(** A loop of allocating steps: the step for [x] returns a [y] that owns the
    tensors [g y] and satisfies [Q x y], which depends on these tensors only. *)
Lemma smapM_alloced {A B : Type} (f : A → st D B) (g : B → list DeviceTensor) (Q : A → B → D → Prop) l d d' ys :
  (∀ x d d' y, f x d = (d', Ok y) → alloced d d' (g y) ∧ Q x y d') →
  (∀ x y d d', persist d d' (g y) → Q x y d → Q x y d') →
  smapM f l d = (d', Ok ys) → alloced d d' (mjoin (g <$> ys)) ∧ Forall2 (λ x y, Q x y d') l ys.
Proof.
  intros Hf HQ. revert d ys. induction l as [|x l IH]; intros d ys; cbn [smapM].
  { intros [= <- <-]. split; [apply alloced_refl | constructor]. }
  intros (d1 & y & [Ha1 Hq]%Hf & (d2 & ys' & Hys & [= -> <-])%sbind_Ok)%sbind_Ok.
  apply IH in Hys as [Ha2 Hqs].
  destruct (alloced_app _ _ _ _ _ Ha1 Ha2) as [Ha _]. split.
  - eapply alloced_perm; [| exact Ha]. csimpl. by rewrite Permutation_app_comm.
  - constructor; [| done]. eapply HQ; [| exact Hq]. eapply alloced_persist; [exact Ha2 |].
    intros t Ht. by eapply alloced_t_live.
Qed.

(** Rows of live tensors persist over allocations. *)
Lemma alloc_keeps_rows d d' sh dt t u :
  b_alloc sh dt d = (d', Ok t) → t_live d u → t_live d' u ∧ t_rows d' u = t_rows d u.
Proof.
  intros (_ & _ & _ & Hlive & Hsame & _)%b_alloc_Ok Hu. unfold t_live, t_rows in *.
  split; [rewrite Hlive; set_solver | by apply Hsame].
Qed.
End alloced.
