(* ===== verification/TurboQuant.v ===== *)
(** * TurboQuant tables ([crates/fracture-core/src/turboquant.rs])

    The Lloyd-Max codebooks and the random rotation matrices the quantized cache
    uploads, in executable binary64 arithmetic.  The functions of the platform's
    libm ([exp], [ln], [cos], [sin]) are parameters. *)

From S2P Require Import Prelude F32 Core.
From Stdlib Require Import SpecFloat.

Definition f64_PI : f64 := f64_from_bits 0x400921FB54442D18.
Definition f64_zero : f64 := S754_zero false.
Definition f64_two : f64 := f64_of_Z 2.
Definition f64_of_nat (n : nat) : f64 := f64_of_Z (Z.of_nat n).

Record LloydMaxCodebook := {
  centroids : list f32;
  boundaries : list f32;
  cb_bits : Z;
  cb_dim : nat
}.

Section turboquant.
Variable exp ln cos sin : f64 → f64.

(** ** Codebooks *)

Definition gaussian_pdf (x sigma2 : f64) : f64 :=
  f64_mul (f64_div (f64_of_Z 1) (f64_sqrt (f64_mul (f64_mul f64_two f64_PI) sigma2)))
    (exp (f64_div (f64_mul (fneg x) x) (f64_mul f64_two sigma2))).

Definition integrate_simpson (f : f64 → f64) (a b : f64) (n : nat) : f64 :=
  let n := if bool_decide (n `mod` 2 = 1) then n + 1 else n in
  let h := f64_div (f64_sub b a) (f64_of_nat n) in
  let sum := foldl (λ sum i,
      let x := f64_add a (f64_mul (f64_of_nat i) h) in
      f64_add sum (if bool_decide (i `mod` 2 = 0) then f64_mul f64_two (f x) else f64_mul (f64_of_Z 4) (f x)))
    (f64_add (f a) (f b)) (seq 1 (n - 1)) in
  f64_div (f64_mul sum h) (f64_of_Z 3).

(** [(0..n_levels - 1).map(|i| (centroids[i] + centroids[i + 1]) / 2.0)] *)
Definition midpoints (n_levels : nat) (cs : list f64) : result (list f64) :=
  let? last := nsub n_levels 1 in
  rmapM (λ i, let? c := index cs i in let? c' := index cs (i + 1) in Ok (f64_div (f64_add c c') f64_two)) (seq 0 last).

(** One centroid of step 2: the new vector and the largest shift. *)
Definition update_centroid (sigma2 edges_lo edges_hi : f64) (n_levels : nat) (cs bs : list f64)
    (i : nat) (acc : list f64 * f64) : result (list f64 * f64) :=
  let? a := if bool_decide (i = 0) then Ok edges_lo else index bs (i - 1) in
  let? b := if bool_decide (i = n_levels - 1) then Ok edges_hi else index bs i in
  let numerator := integrate_simpson (λ x, f64_mul x (gaussian_pdf x sigma2)) a b 500 in
  let denominator := integrate_simpson (λ x, gaussian_pdf x sigma2) a b 500 in
  let? c := index cs i in
  let new_c := if fgt (fabs denominator) (f64_lit 1 15) then f64_div numerator denominator else c in
  Ok (acc.1 ++ [new_c], f32_max acc.2 (fabs (f64_sub new_c c))).

(** The iteration, at most [n] more rounds. *)
Fixpoint lloyd_loop (n : nat) (sigma2 lo hi : f64) (n_levels : nat) (cs : list f64) : result (list f64) :=
  match n with
  | 0 => Ok cs
  | S n' =>
      let? bs := midpoints n_levels cs in
      let edges_lo := f64_mul lo (f64_of_Z 3) in
      let edges_hi := f64_mul hi (f64_of_Z 3) in
      let? out := rfold (update_centroid sigma2 edges_lo edges_hi n_levels cs bs) (seq 0 n_levels) ([], f64_zero) in
      if flt out.2 (f64_lit 1 10) then Ok out.1 else lloyd_loop n' sigma2 lo hi n_levels out.1
  end.

(** [LloydMaxCodebook::compute]; [1usize << bits] panics from 64 bits on. *)
Definition codebook_compute (dim : nat) (bits : Z) : result LloydMaxCodebook :=
  if (64 <=? bits)%Z then Panic
  else
    let n_levels := Z.to_nat (2 ^ bits) in
    let sigma2 := f64_div (f64_of_Z 1) (f64_of_nat dim) in
    let sigma := f64_sqrt sigma2 in
    let lo := f64_mul (fneg (f64_lit 35 1)) sigma in
    let hi := f64_mul (f64_lit 35 1) sigma in
    let cs := (λ i, f64_add lo (f64_div (f64_mul (f64_sub hi lo) (f64_add (f64_of_nat i) (f64_lit 5 1)))
                                  (f64_of_nat n_levels))) <$> seq 0 n_levels in
    let? cs := lloyd_loop 200 sigma2 lo hi n_levels cs in
    let? bs := midpoints n_levels cs in
    Ok {| centroids := f64_to_f32 <$> cs; boundaries := f64_to_f32 <$> bs; cb_bits := bits; cb_dim := dim |}.

Definition n_levels (c : LloydMaxCodebook) : result nat :=
  if (64 <=? cb_bits c)%Z then Panic else Ok (Z.to_nat (2 ^ cb_bits c)).

Definition precomputed_codebook (dim : nat) (bits : Z) : result (option LloydMaxCodebook) :=
  if negb (bool_decide (dim = 128)) then Ok None
  else if bool_decide (bits = 2 ∨ bits = 4 ∨ bits = 8)%Z then rmap Some (codebook_compute dim bits)
  else Ok None.

Definition get_codebook (dim : nat) (bits : Z) : result LloydMaxCodebook :=
  let? pre := precomputed_codebook dim bits in
  match pre with Some c => Ok c | None => codebook_compute dim bits end.

Definition compute_codebook_tables (c : TurboQuantConfig) (head_dim : nat) : result (gmap Z LloydMaxCodebook) :=
  rfold (λ bits m, let? cb := get_codebook head_dim bits in Ok (<[bits := cb]> m)) (distinct_bit_widths c) ∅.

(** ** Rotations *)

Definition next_f64 (x : Xoshiro256) : Xoshiro256 * f64 :=
  let '(x, u) := next_u64 x in (x, f64_div (f64_of_Z (shr64 u 11)) (f64_of_Z (2 ^ 53))).

Definition box_muller (x : Xoshiro256) : Xoshiro256 * (f32 * f32) :=
  let '(x, u1) := next_f64 x in
  let u1 := f32_max u1 (f64_lit 1 15) in
  let '(x, u2) := next_f64 x in
  let r := f64_sqrt (f64_mul (fneg f64_two) (ln u1)) in
  let theta := f64_mul (f64_mul f64_two f64_PI) u2 in
  (x, (f64_to_f32 (f64_mul r (cos theta)), f64_to_f32 (f64_mul r (sin theta)))).

(** The Gaussian matrix: [pairs] more pairs, up to [n] numbers. *)
Fixpoint gaussian_fill (pairs n : nat) (x : Xoshiro256) (g : list f32) : list f32 :=
  match pairs with
  | 0 => g
  | S pairs' =>
      let '(x, (z0, z1)) := box_muller x in
      let g := g ++ [z0] in
      gaussian_fill pairs' n x (if bool_decide (length g < n) then g ++ [z1] else g)
  end.

Definition f64_sum (l : list f64) : f64 := foldl f64_add f64_zero l.

(** [qr_orthogonalize] on the columns: column [i] is normalized and its
    projection subtracted from the later ones. *)
Definition subtract_projection (d i j : nat) (cols : list (list f64)) : result (list (list f64)) :=
  let? ci := index cols i in
  let? cj := index cols j in
  let? prods := rmapM (λ row, let? a := index ci row in let? b := index cj row in Ok (f64_mul a b)) (seq 0 d) in
  let dot := f64_sum prods in
  Ok (<[j := zip_with (λ b a, f64_sub b (f64_mul dot a)) cj ci]> cols).

Definition orthogonalize_column (d i : nat) (cols : list (list f64)) : result (list (list f64)) :=
  let? ci := index cols i in
  let norm := f64_sqrt (f64_sum ((λ x, f64_mul x x) <$> ci)) in
  let cols := if fgt norm (f64_lit 1 12) then <[i := (λ v, f64_div v norm) <$> ci]> cols else cols in
  rfold (subtract_projection d i) (seq (i + 1) (d - (i + 1))) cols.

Definition qr_orthogonalize (g : list f32) (d : nat) : result (list f32) :=
  let? cols := rmapM (λ col, rmapM (λ row, rmap f32_to_f64 (index g (row * d + col))) (seq 0 d)) (seq 0 d) in
  let? cols := rfold (orthogonalize_column d) (seq 0 d) cols in
  let? rows := rmapM (λ row, rmapM (λ col, let? c := index cols col in rmap f64_to_f32 (index c row)) (seq 0 d)) (seq 0 d) in
  Ok (mjoin rows).

(** [result[k] = -result[k]] *)
Definition negate_at (k : nat) (m : list f32) : result (list f32) :=
  let? x := index m k in Ok (<[k := fneg x]> m).

Definition fix_sign (d col : nat) (m : list f32) : result (list f32) :=
  let? diag_val := index m (col * d + col) in
  if flt diag_val f32_zero then rfold (λ row, negate_at (row * d + col)) (seq 0 d) m else Ok m.

Definition generate_rotation_matrix (d : nat) (seed : Z) : result (list f32) :=
  let n := d * d in
  let g := gaussian_fill (div_ceil n 2) n (xoshiro_new seed) [] in
  let? q := qr_orthogonalize g d in
  rfold (fix_sign d) (seq 0 d) q.
End turboquant.

(** ** Codebooks: sizes *)

Section codebooks.
Variable exp : f64 → f64.

Lemma midpoints_Ok n cs : 0 < n → length cs = n → ∃ bs, midpoints n cs = Ok bs ∧ length bs = n - 1.
Proof.
  intros Hn Hl. unfold midpoints. rewrite nsub_Ok by lia. cbn [rbind].
  assert (∀ l, Forall (λ i, i + 1 < n) l → ∃ bs, rmapM (λ i, let? c := index cs i in let? c' := index cs (i + 1) in
            Ok (f64_div (f64_add c c') f64_two)) l = Ok bs ∧ length bs = length l) as Hmap.
  { induction 1 as [|i l Hi _ (bs & IH & Hlen)]; [by exists [] |]. cbn [rmapM].
    destruct (lookup_lt_is_Some_2 cs i) as [c Hc]; [lia |].
    destruct (lookup_lt_is_Some_2 cs (i + 1)) as [c' Hc']; [lia |].
    rewrite (proj2 (index_Ok _ _ _) Hc), (proj2 (index_Ok _ _ _) Hc'). cbn [rbind]. rewrite IH. cbn [rbind].
    eexists. split; [done |]. simpl. lia. }
  destruct (Hmap (seq 0 (n - 1))) as (bs & -> & Hlen).
  { apply Forall_forall. intros i Hi%elem_of_seq. lia. }
  exists bs. by rewrite length_seq in Hlen.
Qed.

Lemma update_centroid_Ok sigma2 elo ehi n cs bs i acc :
  i < n → length cs = n → length bs = n - 1 →
  ∃ acc', update_centroid exp sigma2 elo ehi n cs bs i acc = Ok acc' ∧ length acc'.1 = length acc.1 + 1.
Proof.
  intros Hi Hc Hb. unfold update_centroid.
  assert (∃ a, (if bool_decide (i = 0) then Ok elo else index bs (i - 1)) = Ok a) as [a ->].
  { case_bool_decide; [eauto |]. destruct (lookup_lt_is_Some_2 bs (i - 1)) as [a Ha]; [lia |].
    exists a. by apply index_Ok. }
  assert (∃ b, (if bool_decide (i = n - 1) then Ok ehi else index bs i) = Ok b) as [b ->].
  { case_bool_decide; [eauto |]. destruct (lookup_lt_is_Some_2 bs i) as [b Hb']; [lia |].
    exists b. by apply index_Ok. }
  destruct (lookup_lt_is_Some_2 cs i) as [c Hc']; [lia |]. cbn [rbind].
  rewrite (proj2 (index_Ok _ _ _) Hc'). cbn [rbind]. eexists. split; [done |]. cbn [fst]. rewrite length_app. done.
Qed.

Lemma lloyd_loop_Ok fuel sigma2 lo hi n cs :
  0 < n → length cs = n → ∃ cs', lloyd_loop exp fuel sigma2 lo hi n cs = Ok cs' ∧ length cs' = n.
Proof.
  intros Hn. revert cs. induction fuel as [|fuel IH]; intros cs Hl; cbn [lloyd_loop]; [by exists cs |].
  destruct (midpoints_Ok n cs Hn Hl) as (bs & -> & Hb). cbn [rbind].
  destruct (rfold_inv (λ done_ (acc : list f64 * f64), length acc.1 = length done_)
    (update_centroid exp sigma2 (f64_mul lo (f64_of_Z 3)) (f64_mul hi (f64_of_Z 3)) n cs bs) (seq 0 n) ([], f64_zero))
    as (out & -> & Hout); [done | |].
  { intros done_ i rest acc Hseq Hacc.
    assert (i < n) as Hi by (assert (i ∈ seq 0 n) as Hin%elem_of_seq by (rewrite Hseq; set_solver); lia).
    destruct (update_centroid_Ok sigma2 (f64_mul lo (f64_of_Z 3)) (f64_mul hi (f64_of_Z 3)) n cs bs i acc)
      as (acc' & -> & Hlen); [done | done | done |].
    exists acc'. split; [done |]. rewrite length_app. simpl. lia. }
  rewrite length_seq in Hout. cbn [rbind]. case_if; [eauto | by apply IH].
Qed.

Lemma codebook_compute_Ok dim bits : (0 ≤ bits < 64)%Z →
  ∃ cb, codebook_compute exp dim bits = Ok cb ∧ cb_bits cb = bits ∧
    length (centroids cb) = Z.to_nat (2 ^ bits) ∧ length (boundaries cb) = Z.to_nat (2 ^ bits) - 1.
Proof.
  intros Hb. unfold codebook_compute. rewrite (proj2 (Z.leb_gt _ _)) by lia.
  assert (0 < Z.to_nat (2 ^ bits)) as Hn.
  { assert (0 < 2 ^ bits)%Z by (apply Z.pow_pos_nonneg; lia). lia. }
  set (n := Z.to_nat (2 ^ bits)) in *. set (sigma2 := f64_div _ _). set (lo := f64_mul (fneg _) _).
  set (hi := f64_mul _ (f64_sqrt sigma2)).
  destruct (lloyd_loop_Ok 200 sigma2 lo hi n ((λ i, f64_add lo (f64_div (f64_mul (f64_sub hi lo)
    (f64_add (f64_of_nat i) (f64_lit 5 1))) (f64_of_nat n))) <$> seq 0 n)) as (cs & -> & Hcs);
    [done | by rewrite length_fmap, length_seq |].
  cbn [rbind]. destruct (midpoints_Ok n cs Hn Hcs) as (bs & -> & Hbs). cbn [rbind].
  eexists. split; [done |]. cbn [cb_bits centroids boundaries]. by rewrite !length_fmap.
Qed.

Lemma get_codebook_Ok dim bits : (0 ≤ bits < 64)%Z →
  ∃ cb, get_codebook exp dim bits = Ok cb ∧ cb_bits cb = bits ∧
    length (centroids cb) = Z.to_nat (2 ^ bits) ∧ length (boundaries cb) = Z.to_nat (2 ^ bits) - 1.
Proof.
  intros Hb. destruct (codebook_compute_Ok dim bits Hb) as (cb & Hcb & Hrest). exists cb. split; [| done].
  unfold get_codebook, precomputed_codebook. rewrite Hcb. by repeat case_if.
Qed.

(** What the cache needs of a table: one centroid per level. *)
Definition codebook_for (b : Z) (cb : LloydMaxCodebook) : Prop :=
  cb_bits cb = b ∧ n_levels cb = Ok (length (centroids cb)) ∧ Z.of_nat (length (centroids cb)) = (2 ^ b)%Z ∧
  length (boundaries cb) = length (centroids cb) - 1.

Lemma codebook_tables_Ok c hd :
  Forall (λ b, 0 ≤ b < 64)%Z (distinct_bit_widths c) →
  ∃ m, compute_codebook_tables exp c hd = Ok m ∧
    (∀ b, is_Some (m !! b) ↔ b ∈ distinct_bit_widths c) ∧ ∀ b cb, m !! b = Some cb → codebook_for b cb.
Proof.
  intros Hw. unfold compute_codebook_tables.
  apply (rfold_inv (λ done_ (m : gmap Z LloydMaxCodebook), (∀ b, is_Some (m !! b) ↔ b ∈ done_) ∧
    ∀ b cb, m !! b = Some cb → codebook_for b cb)).
  { split; [| done]. intros b. rewrite lookup_empty. split; [by intros [? ?] | set_solver]. }
  intros done_ b rest m Hl [Hdom Hcb]. rewrite Forall_forall in Hw.
  destruct (get_codebook_Ok hd b) as (cb & -> & Hbits & Hc & Hbo); [apply Hw; rewrite Hl; set_solver |].
  cbn [rbind]. eexists. split; [done |]. split.
  - intros b'. rewrite lookup_insert_is_Some', Hdom. set_solver.
  - intros b' cb' [[<- <-]|[_ H']]%lookup_insert_Some; [| by apply Hcb].
    assert (0 ≤ b < 64)%Z as Hbb by (apply Hw; rewrite Hl; set_solver).
    assert (0 < 2 ^ b)%Z by (apply Z.pow_pos_nonneg; lia). unfold codebook_for, n_levels. rewrite Hbits, Hc.
    rewrite (proj2 (Z.leb_gt _ _)) by lia. split_and!; try done. lia.
Qed.

Lemma validated_widths c : tq_validate c = Ok () → Forall (λ b, 0 ≤ b < 64)%Z (distinct_bit_widths c).
Proof.
  intros Hv. apply Forall_forall. intros b Hb%elem_of_distinct_bit_widths. unfold tq_validate, VALID_BITS in Hv.
  repeat (case_bool_decide; [| done]). cbn [negb] in Hv. set_unfold. lia.
Qed.

(** For a validated configuration the codebook tables are computed without
    panicking, and every layer finds the table of its key and of its value bit
    width there, with one centroid for each of the [2^bits] levels and one
    boundary fewer. *)
Theorem codebook_tables_spec c hd :
  tq_validate c = Ok () →
  ∃ m, compute_codebook_tables exp c hd = Ok m ∧
    ∀ layer n, (∃ cb, m !! key_bits_for_layer c layer n = Some cb ∧ codebook_for (key_bits_for_layer c layer n) cb) ∧
               (∃ cb, m !! value_bits_for_layer c layer n = Some cb ∧ codebook_for (value_bits_for_layer c layer n) cb).
Proof.
  intros Hv. destruct (codebook_tables_Ok c hd) as (m & Hm & Hdom & Hcb); [by apply validated_widths |].
  exists m. split; [done |]. intros layer n. destruct (codebook_covers_layers c layer n) as (Hk & Hv' & _).
  split; [destruct (proj2 (Hdom _) Hk) as [cb E] | destruct (proj2 (Hdom _) Hv') as [cb E]]; eauto.
Qed.
End codebooks.

(** ** Rotations *)

Lemma rmapM_total {A B : Type} (f : A → result B) (Q : B → Prop) l :
  (∀ x, x ∈ l → ∃ y, f x = Ok y ∧ Q y) → ∃ ys, rmapM f l = Ok ys ∧ length ys = length l ∧ Forall Q ys.
Proof.
  induction l as [|x l IH]; intros Hf; [by exists [] |]. cbn [rmapM].
  destruct (Hf x) as (y & -> & Hy); [left |].
  destruct IH as (ys & -> & Hlen & Hys); [intros; apply Hf; by right |]. cbn [rbind]. exists (y :: ys).
  split_and!; [done | simpl; lia | by constructor].
Qed.

Lemma index_total {A : Type} (l : list A) i : i < length l → ∃ x, index l i = Ok x.
Proof. intros [x Hx]%lookup_lt_is_Some_2. exists x. by apply index_Ok. Qed.

Section rotations.
Variable ln cos sin : f64 → f64.

Lemma gaussian_fill_length pairs n x g :
  length g ≤ n → n - length g ≤ 2 * pairs ≤ n - length g + 1 → length (gaussian_fill ln cos sin pairs n x g) = n.
Proof.
  revert x g. induction pairs as [|pairs IH]; intros x g Hg Hp; cbn [gaussian_fill]; [lia |].
  destruct (box_muller ln cos sin x) as [x' [z0 z1]]. apply IH; case_bool_decide as Hlt;
    rewrite !length_app in Hlt; rewrite ?length_app; cbn [length] in *; lia.
Qed.

(** A square matrix by columns. *)
Definition square (d : nat) (cols : list (list f64)) : Prop := length cols = d ∧ Forall (λ c, length c = d) cols.

Lemma square_column d cols i : square d cols → i < d → ∃ c, index cols i = Ok c ∧ length c = d.
Proof.
  intros [Hl Hall] Hi. destruct (lookup_lt_is_Some_2 cols i) as [c Hc]; [lia |]. exists c.
  split; [by apply index_Ok | by eapply (Forall_lookup_1 _ _ _ _ Hall)].
Qed.

Lemma square_insert d cols i c : square d cols → length c = d → square d (<[i := c]> cols).
Proof. intros [Hl Hall] Hc. split; [by rewrite length_insert | by apply Forall_insert]. Qed.

Lemma subtract_projection_Ok d i j cols :
  square d cols → i < d → j < d → ∃ cols', subtract_projection d i j cols = Ok cols' ∧ square d cols'.
Proof.
  intros Hsq Hi Hj. unfold subtract_projection.
  destruct (square_column d cols i Hsq Hi) as (ci & -> & Hci), (square_column d cols j Hsq Hj) as (cj & -> & Hcj).
  cbn [rbind]. destruct (rmapM_total (λ row, let? a := index ci row in let? b := index cj row in Ok (f64_mul a b))
    (λ _, True) (seq 0 d)) as (ps & -> & _).
  { intros row Hr%elem_of_seq. destruct (index_total ci row) as [a ->]; [lia |].
    destruct (index_total cj row) as [b ->]; [lia |]. simpl. eauto. }
  cbn [rbind]. eexists. split; [done |]. apply square_insert; [done |]. rewrite length_zip_with. lia.
Qed.

Lemma orthogonalize_column_Ok d i cols :
  square d cols → i < d → ∃ cols', orthogonalize_column d i cols = Ok cols' ∧ square d cols'.
Proof.
  intros Hsq Hi. unfold orthogonalize_column.
  destruct (square_column d cols i Hsq Hi) as (ci & -> & Hci). cbn [rbind].
  apply (rfold_inv (λ _ cols, square d cols)).
  - case_if; [| done]. apply square_insert; [done | by rewrite length_fmap].
  - intros done_ j rest cols' Hl Hsq'. apply subtract_projection_Ok; [done | done |].
    assert (j ∈ seq (i + 1) (d - (i + 1))) as Hin%elem_of_seq by (rewrite Hl; set_solver). lia.
Qed.

Lemma qr_orthogonalize_Ok g d : length g = d * d → ∃ q, qr_orthogonalize g d = Ok q ∧ length q = d * d.
Proof.
  intros Hg. unfold qr_orthogonalize.
  destruct (rmapM_total (λ col, rmapM (λ row, rmap f32_to_f64 (index g (row * d + col))) (seq 0 d))
    (λ c, length c = d) (seq 0 d)) as (cols & -> & Hlen & Hall).
  { intros col Hcol%elem_of_seq.
    destruct (rmapM_total (λ row, rmap f32_to_f64 (index g (row * d + col))) (λ _, True) (seq 0 d)) as (c & -> & Hc & _).
    - intros row Hrow%elem_of_seq. destruct (index_total g (row * d + col)) as [x ->]; [nia |]. simpl. eauto.
    - rewrite length_seq in Hc. eauto. }
  rewrite length_seq in Hlen. cbn [rbind].
  destruct (rfold_inv (λ _ cols, square d cols) (orthogonalize_column d) (seq 0 d) cols) as (cols' & -> & Hsq); [done | |].
  { intros done_ i rest cols' Hl Hsq'. apply orthogonalize_column_Ok; [done |].
    assert (i ∈ seq 0 d) as Hin%elem_of_seq by (rewrite Hl; set_solver). lia. }
  cbn [rbind]. destruct (rmapM_total (λ row, rmapM (λ col, let? c := index cols' col in rmap f64_to_f32 (index c row))
    (seq 0 d)) (λ r, length r = d) (seq 0 d)) as (rows & -> & Hlen' & Hrows).
  { intros row Hrow%elem_of_seq.
    destruct (rmapM_total (λ col, let? c := index cols' col in rmap f64_to_f32 (index c row)) (λ _, True) (seq 0 d))
      as (r & -> & Hr & _); [| rewrite length_seq in Hr; eauto].
    intros col Hcol%elem_of_seq. destruct (square_column d cols' col Hsq) as (c & -> & Hc); [lia |]. cbn [rbind].
    destruct (index_total c row) as [x ->]; [lia |]. simpl. eauto. }
  cbn [rbind]. exists (mjoin rows). split; [done |]. rewrite (length_mjoin d) by done.
  rewrite Hlen', length_seq. done.
Qed.

Lemma flt_fneg x : flt x f32_zero = true → flt (fneg x) f32_zero = false.
Proof. by destruct x as [[]|[]| |[]]. Qed.

(** The flip of one column. *)
Lemma flip_column_Ok d col m :
  length m = d * d → col < d →
  ∃ m', rfold (λ row, negate_at (row * d + col)) (seq 0 d) m = Ok m' ∧ length m' = d * d ∧
    ∀ k, m' !! k = if decide (k ∈ (λ row, row * d + col) <$> seq 0 d) then fneg <$> m !! k else m !! k.
Proof.
  intros Hm Hcol.
  destruct (rfold_inv (λ done_ (m' : list f32), length m' = d * d ∧
    ∀ k, m' !! k = if decide (k ∈ (λ row, row * d + col) <$> done_) then fneg <$> m !! k else m !! k)
    (λ row, negate_at (row * d + col)) (seq 0 d) m) as (m' & Hrun & Hlen & Hlook); [| | by exists m'].
  - split; [done |]. intros k. by rewrite decide_False by (csimpl; set_solver).
  - intros done_ row rest m' Hl [Hlen Hlook].
    assert (row ∈ seq 0 d) as Hin%elem_of_seq by (rewrite Hl; set_solver).
    pose proof (NoDup_seq 0 d) as Hnd. rewrite Hl in Hnd. apply NoDup_app in Hnd as (_ & Hdis & _).
    unfold negate_at. destruct (lookup_lt_is_Some_2 m' (row * d + col)) as [x Hx]; [nia |].
    rewrite (proj2 (index_Ok _ _ _) Hx). cbn [rbind]. eexists. split; [done |].
    split; [by rewrite length_insert |]. intros k. rewrite fmap_app. csimpl.
    assert (row * d + col ∉ (λ row, row * d + col) <$> done_) as Hfresh.
    { intros (r & Hr & Hrin)%list_elem_of_fmap. apply (Hdis r Hrin). assert (r = row) as -> by nia. left. }
    rewrite Hlook in Hx. rewrite decide_False in Hx by done.
    destruct (decide (k = row * d + col)) as [->|Hne].
    + rewrite list_lookup_insert_eq by (unfold f32 in *; nia). rewrite decide_True by set_solver. by rewrite Hx.
    + rewrite list_lookup_insert_ne by done. rewrite Hlook. destruct (decide (k ∈ _ <$> done_)).
      * by rewrite decide_True by set_solver.
      * by rewrite decide_False by set_solver.
Qed.

Lemma digits_unique_diag d c col row : c < d → col < d → row < d → c * d + c = row * d + col → c = col.
Proof. intros Hc Hcol Hrow Heq. destruct (Nat.div_mod_unique d c row c col); lia. Qed.

(** A rotation matrix is generated for any dimension and seed without an
    index out of range; it has [d * d] entries and no entry on its diagonal is
    negative. *)
Theorem rotation_matrix_spec d seed :
  ∃ m : list f32, generate_rotation_matrix ln cos sin d seed = Ok m ∧ length m = d * d ∧
    ∀ c, c < d → ∃ x : f32, m !! (c * d + c) = Some x ∧ flt x f32_zero = false.
Proof.
  unfold generate_rotation_matrix.
  assert (length (gaussian_fill ln cos sin (div_ceil (d * d) 2) (d * d) (xoshiro_new seed) []) = d * d) as Hg.
  { apply gaussian_fill_length; cbn [length]; [lia |]. unfold div_ceil.
    pose proof (Nat.div_mod (d * d + 2 - 1) 2 ltac:(lia)). pose proof (Nat.mod_upper_bound (d * d + 2 - 1) 2). lia. }
  destruct (qr_orthogonalize_Ok _ d Hg) as (q & -> & Hq). cbn [rbind].
  destruct (rfold_inv (λ done_ (m : list f32), length m = d * d ∧
    ∀ c, c ∈ done_ → ∃ x : f32, m !! (c * d + c) = Some x ∧ flt x f32_zero = false) (fix_sign d) (seq 0 d) q)
    as (m & -> & Hlen & Hdiag); [split; [done | set_solver] | |].
  2:{ exists m. split_and!; [done | done |]. intros c Hc. apply Hdiag, elem_of_seq. lia. }
  intros done_ col rest m Hl [Hlen Hdiag].
  assert (col ∈ seq 0 d) as Hin%elem_of_seq by (rewrite Hl; set_solver).
  assert (∀ c, c ∈ done_ → c < d) as Hdone.
  { intros c Hc. assert (c ∈ seq 0 d) as Hc'%elem_of_seq by (rewrite Hl; set_solver). lia. }
  unfold fix_sign. destruct (lookup_lt_is_Some_2 m (col * d + col)) as [x Hx]; [nia |].
  rewrite (proj2 (index_Ok _ _ _) Hx). cbn [rbind]. destruct (flt x f32_zero) eqn:Hneg.
  - destruct (flip_column_Ok d col m Hlen ltac:(lia)) as (m' & -> & Hlen' & Hlook). exists m'. split; [done |].
    split; [done |]. intros c [Hc| ->%list_elem_of_singleton]%elem_of_app.
    + destruct (decide (c = col)) as [->|Hne].
      * destruct (Hdiag col Hc) as (y & Hy & Hpos). rewrite Hx in Hy. injection Hy as <-. congruence.
      * rewrite Hlook. rewrite decide_False; [by apply Hdiag |].
        intros (row & Hr & Hrow%elem_of_seq)%list_elem_of_fmap. apply Hne.
        specialize (Hdone c Hc). by eapply (digits_unique_diag d c col row); [| lia | lia |].
    + rewrite Hlook. rewrite decide_True; [| apply list_elem_of_fmap; exists col; split; [done | apply elem_of_seq; lia]].
      unfold f32 in *. rewrite Hx. exists (fneg x). split; [done | by apply flt_fneg].
  - exists m. split; [done |]. split; [done |]. intros c [Hc| ->%list_elem_of_singleton]%elem_of_app; [by apply Hdiag | eauto].
Qed.
End rotations.

Module TurboQuantWitness.
Lemma codebook_tables_witness :
  ∃ m, compute_codebook_tables (λ x, x) TurboQuantConfig_default 4 = Ok m ∧
    ∀ layer n, (∃ cb, m !! key_bits_for_layer TurboQuantConfig_default layer n = Some cb ∧
                  codebook_for (key_bits_for_layer TurboQuantConfig_default layer n) cb) ∧
               (∃ cb, m !! value_bits_for_layer TurboQuantConfig_default layer n = Some cb ∧
                  codebook_for (value_bits_for_layer TurboQuantConfig_default layer n) cb).
Proof. apply (codebook_tables_spec (λ x, x) TurboQuantConfig_default 4). vm_compute. reflexivity. Defined.

(** The rotation of a 2x2 matrix with constant stand-ins for the libm functions. *)
Example rotation_2x2 :
  rmap (fmap (λ x, f32_to_usize (f32_mul x (f32_of_Z 1000))))
    (generate_rotation_matrix (λ x, fneg x) (λ x, x) (λ _, f64_of_Z 1) 2 42) = Ok [142; 0; 989; 142]%Z.
Proof. vm_compute. reflexivity. Qed.
End TurboQuantWitness.
