(* ===== verification/BlockTables.v ===== *)
(** * Block tables of the paged caches

    The bookkeeping that [PagedKvCacheManager] and [QuantizedKvCacheManager]
    share: a stack of free blocks in the pool and, per sequence, the table of
    the physical blocks it owns ([paged_kv_cache.rs], repeated line for line in
    [quantized_paged_kv_cache.rs]).  What the pool promises to the managers is
    the class [BlockStack]; both pools are instances. *)

From S2P Require Import Prelude Core Backend.

Definition BLOCK_SIZE : nat := 16.

(** [compute_num_blocks]: FP16 (2 bytes), K and V *)
Definition bytes_of_block (nl nkv hd : Z) : result Z :=
  Ok (Z.of_nat BLOCK_SIZE) *! Ok nkv *! Ok hd *! Ok 2%Z *! Ok 2%Z *! Ok nl.

Definition compute_num_blocks (gpu_available scratch_reserve nl nkv hd : Z) : result Z :=
  let cache_budget := saturating_sub gpu_available scratch_reserve in
  let? bytes_per_block := bytes_of_block nl nkv hd in
  if (bytes_per_block =? 0)%Z then Ok 0%Z else Ok (cache_budget / bytes_per_block)%Z.

Lemma bytes_of_block_inv nl nkv hd b :
  bytes_of_block nl nkv hd = Ok b → b = (16 * nkv * hd * 2 * 2 * nl)%Z ∧ in_width 64 b.
Proof. unfold bytes_of_block. intros Hb. rinv. done. Qed.

(** ** The pool interface *)

(** The free list is a [Vec] used as a stack: the list here starts at the
    vector's end, so that [pop] takes and [push] adds the first element. *)
Class BlockStack (P : Type) := {
  bs_free : P → list nat;
  bs_set_free : list nat → P → P;
  bs_capacity : P → nat;
  bs_oom : P → result nat;
  bs_alloc_block : st P nat;
  bs_free_block : nat → st P unit
}.

Class BlockStackLaws (P : Type) `{BlockStack P} := {
  bs_free_set l p : bs_free (bs_set_free l p) = l;
  bs_set_set l l' p : bs_set_free l (bs_set_free l' p) = bs_set_free l p;
  bs_set_same p : bs_set_free (bs_free p) p = p;
  bs_capacity_set l p : bs_capacity (bs_set_free l p) = bs_capacity p;
  bs_oom_set l p : bs_oom (bs_set_free l p) = bs_oom p;
  bs_oom_fails p b : bs_oom p ≠ Ok b;
  bs_alloc_block_spec p :
    bs_alloc_block p = match bs_free p with
                       | b :: fl => (bs_set_free fl p, Ok b)
                       | [] => (p, bs_oom p)
                       end;
  bs_free_block_spec p b :
    bs_free_block b p = if bool_decide (b < bs_capacity p)
                        then (bs_set_free (b :: bs_free p) p, Ok ()) else (p, Panic)
}.

(** ** Sequences *)

Record SequenceBlocks := {
  block_table : list nat;
  last_block_fill : nat;
  current_len : nat
}.

(** The fields the two managers have in common. *)
Record CacheTables (P : Type) := {
  pool : P;
  sequences : gmap Z SequenceBlocks;
  next_id : Z
}.
Arguments pool {P}.
Arguments sequences {P}.
Arguments next_id {P}.
Arguments Build_CacheTables {P}.

Definition invalid_handle : FractureError := KvCache "invalid handle".

Section tables.
Context {P : Type} `{BlockStack P}.

Definition tables_new (p : P) : CacheTables P :=
  {| pool := p; sequences := ∅; next_id := 0 |}.

(** [alloc] *)
Definition tables_alloc : st (CacheTables P) Z := λ m,
  let id := next_id m in
  match uadd (next_id m) 1 with
  | Ok n =>
      match bs_alloc_block (pool m) with
      | (p, Ok first_block) =>
          ({| pool := p; next_id := n;
              sequences := <[id := {| block_table := [first_block]; last_block_fill := 0;
                                      current_len := 0 |}]> (sequences m) |}, Ok id)
      | (p, Err e) => ({| pool := p; next_id := n; sequences := sequences m |}, Err e)
      | (p, Panic) => ({| pool := p; next_id := n; sequences := sequences m |}, Panic)
      end
  | _ => (m, Panic)
  end.

(** The loop of [append_kv] that adds blocks for [remaining] more tokens:
    the pool, the table and the fill of the last block. *)
Fixpoint grow_loop (fuel : nat) (p : P) (table : list nat) (remaining fill : nat)
    : P * list nat * result nat :=
  match fuel with
  | 0 => (p, table, Panic)
  | S fuel =>
      if bool_decide (remaining = 0) then (p, table, Ok fill)
      else
        match nsub BLOCK_SIZE fill with
        | Ok slots =>
            if bool_decide (slots = 0) then
              match bs_alloc_block p with
              | (p, Ok new_block) => grow_loop fuel p (table ++ [new_block]) remaining 0
              | (p, Err e) => (p, table, Err e)
              | (p, Panic) => (p, table, Panic)
              end
            else
              let to_write := remaining `min` slots in
              grow_loop fuel p table (remaining - to_write) (fill + to_write)
        | _ => (p, table, Panic)
        end
  end.

Definition grow_fuel (num_new : nat) : nat := 2 * num_new + 2.

(** [append_kv] on layer 0: reserve room for [num_new] tokens.  Blocks pushed
    before the pool ran out stay in the table. *)
Definition reserve (h : Z) (num_new : nat) : st (CacheTables P) SequenceBlocks := λ m,
  match sequences m !! h with
  | None => (m, Err invalid_handle)
  | Some s =>
      let '(p, table, r) :=
        grow_loop (grow_fuel num_new) (pool m) (block_table s) num_new (last_block_fill s) in
      let s' := match r with
                | Ok fill => {| block_table := table; last_block_fill := fill;
                                current_len := current_len s + num_new |}
                | _ => {| block_table := table; last_block_fill := last_block_fill s;
                          current_len := current_len s |}
                end in
      ({| pool := p; next_id := next_id m; sequences := <[h := s']> (sequences m) |},
       rmap (λ _, s') r)
  end.

(** [block_table], [seq_len], [last_block_tokens] *)
Definition get_seq (h : Z) (m : CacheTables P) : result SequenceBlocks :=
  match sequences m !! h with Some s => Ok s | None => Err invalid_handle end.
Definition tables_block_table (h : Z) (m : CacheTables P) : result (list nat) :=
  rmap block_table (get_seq h m).
Definition tables_seq_len (h : Z) (m : CacheTables P) : result nat :=
  rmap current_len (get_seq h m).
Definition tables_last_block_tokens (h : Z) (m : CacheTables P) : result nat :=
  rmap last_block_fill (get_seq h m).

(** [free] *)
Fixpoint free_blocks (l : list nat) : st P unit :=
  match l with
  | [] => sret ()
  | b :: l' => do! _ := bs_free_block b in free_blocks l'
  end.

Definition tables_free (h : Z) : st (CacheTables P) unit := λ m,
  match sequences m !! h with
  | None => (m, Err invalid_handle)
  | Some s =>
      let '(p, r) := free_blocks (block_table s) (pool m) in
      ({| pool := p; next_id := next_id m; sequences := delete h (sequences m) |}, r)
  end.

Definition num_free_blocks (m : CacheTables P) : nat := length (bs_free (pool m)).
Definition available_token_capacity (m : CacheTables P) : nat := num_free_blocks m * BLOCK_SIZE.

(** ** Invariant *)

Definition owned (seqs : gmap Z SequenceBlocks) : list nat :=
  map_to_list seqs ≫= λ kv, block_table kv.2.

(** The last block's fill and the table's length agree with the length; a
    table may have more blocks than needed after a failed reservation. *)
Definition seq_ok (s : SequenceBlocks) : Prop :=
  ∃ full, current_len s = 16 * full + last_block_fill s ∧ last_block_fill s ≤ 16 ∧
          full < length (block_table s).

Record tables_inv (m : CacheTables P) : Prop := {
  inv_partition : owned (sequences m) ++ bs_free (pool m) ≡ₚ seq 0 (bs_capacity (pool m));
  inv_ids : ∀ h s, sequences m !! h = Some s → (0 ≤ h < next_id m)%Z;
  inv_next : (0 ≤ next_id m)%Z;
  inv_seqs : ∀ h s, sequences m !! h = Some s → seq_ok s
}.

Lemma owned_insert_new seqs h s :
  seqs !! h = None → owned (<[h := s]> seqs) ≡ₚ block_table s ++ owned seqs.
Proof. intros Hh. unfold owned. by rewrite map_to_list_insert. Qed.

Lemma owned_delete seqs h s :
  seqs !! h = Some s → owned seqs ≡ₚ block_table s ++ owned (delete h seqs).
Proof.
  intros Hh. rewrite <- (insert_delete_id seqs h s Hh) at 1.
  apply owned_insert_new, lookup_delete_eq.
Qed.

Lemma owned_update seqs h s s' :
  seqs !! h = Some s →
  owned (<[h := s']> seqs) ≡ₚ block_table s' ++ owned (delete h seqs).
Proof.
  intros Hh. rewrite <- insert_delete_eq. apply owned_insert_new, lookup_delete_eq.
Qed.

Lemma elem_of_owned seqs b :
  b ∈ owned seqs ↔ ∃ h s, seqs !! h = Some s ∧ b ∈ block_table s.
Proof.
  unfold owned. rewrite list_elem_of_bind. split.
  - intros ([h s] & Hb & Hin). exists h, s. by rewrite elem_of_map_to_list in Hin.
  - intros (h & s & Hs & Hb). exists (h, s). by rewrite elem_of_map_to_list.
Qed.
End tables.

Section accounting.
Context {P : Type} `{BlockStackLaws P}.
Implicit Types m : CacheTables P.
Implicit Types s : SequenceBlocks.

(** ** The growth loop *)

(** Blocks needed to hold [r] more tokens when the last block has [fill]. *)
Definition blocks_needed (r fill : nat) : nat := div_ceil (r - (BLOCK_SIZE - fill)) BLOCK_SIZE.

Definition grow_result (p : P) (table : list nat) (r fill : nat) : P * list nat * result nat :=
  let need := blocks_needed r fill in
  if bool_decide (need ≤ length (bs_free p)) then
    (bs_set_free (drop need (bs_free p)) p, table ++ take need (bs_free p),
     Ok (fill + r - 16 * need))
  else (bs_set_free [] p, table ++ bs_free p, bs_oom p).

Lemma div_ceil_16 a : 16 * div_ceil a 16 < a + 16 ∧ a ≤ 16 * div_ceil a 16.
Proof.
  unfold div_ceil.
  pose proof (Nat.div_mod_eq (a + 16 - 1) 16). pose proof (Nat.mod_upper_bound (a + 16 - 1) 16). lia.
Qed.

Lemma blocks_needed_bounds r fill :
  fill ≤ 16 → r + fill ≤ 16 * (1 + blocks_needed r fill) ∧
  (0 < blocks_needed r fill → 16 * blocks_needed r fill < r + fill) ∧
  (r + fill ≤ 16 → blocks_needed r fill = 0).
Proof.
  intros. unfold blocks_needed, BLOCK_SIZE. pose proof (div_ceil_16 (r - (16 - fill))). lia.
Qed.

Lemma blocks_needed_full r : 0 < r → blocks_needed r 16 = S (blocks_needed r 0).
Proof.
  intros. destruct (blocks_needed_bounds r 16) as (? & ? & ?); [lia |].
  destruct (blocks_needed_bounds r 0) as (? & ? & ?); [lia |].
  assert (0 < blocks_needed r 16) by lia. lia.
Qed.

Lemma blocks_needed_step r fill w :
  fill ≤ 16 → w = r `min` (16 - fill) → blocks_needed (r - w) (fill + w) = blocks_needed r fill.
Proof.
  intros. unfold blocks_needed, BLOCK_SIZE. f_equal. lia.
Qed.

Lemma grow_loop_spec fuel p table r fill :
  fill ≤ 16 → 2 * r + (if bool_decide (fill = 16) then 1 else 0) + 1 ≤ fuel →
  grow_loop fuel p table r fill = grow_result p table r fill.
Proof.
  revert p table r fill. induction fuel as [|fuel IH]; intros p table r fill Hfill Hfuel; [lia |].
  cbn [grow_loop]. destruct (bool_decide_reflect (r = 0)) as [Hr|Hr].
  - subst r. unfold grow_result.
    assert (blocks_needed 0 fill = 0) as -> by (apply blocks_needed_bounds; lia).
    rewrite bool_decide_true by lia. by rewrite take_0, drop_0, bs_set_same, app_nil_r, Nat.add_0_r, Nat.sub_0_r.
  - rewrite nsub_Ok by done.
    destruct (bool_decide_reflect (BLOCK_SIZE - fill = 0)) as [Hs|Hs]; unfold BLOCK_SIZE in Hs.
    + assert (fill = 16) as -> by lia. rewrite bool_decide_true in Hfuel by done.
      unfold grow_result at 1. rewrite blocks_needed_full by lia.
      rewrite bs_alloc_block_spec. destruct (bs_free p) as [|b fl] eqn:Efl.
      * rewrite bool_decide_false by (simpl; lia). rewrite app_nil_r.
        rewrite <- Efl, bs_set_same. destruct (bs_oom p) eqn:E; [by apply bs_oom_fails in E | done..].
      * rewrite IH by (try rewrite bool_decide_false by lia; lia).
        unfold grow_result. rewrite !bs_free_set, !bs_set_set, bs_oom_set. simpl.
        rewrite <- !app_assoc. simpl. repeat case_bool_decide; try lia; [| done].
        do 2 f_equal. lia.
    + rewrite bool_decide_false in Hfuel by lia. set (w := r `min` (BLOCK_SIZE - fill)).
      assert (1 ≤ w ≤ r ∧ fill + w ≤ 16) by (unfold BLOCK_SIZE in *; lia).
      rewrite IH by (try case_bool_decide; lia).
      unfold grow_result. rewrite blocks_needed_step by (unfold BLOCK_SIZE in *; lia).
      case_bool_decide; [| done]. do 2 f_equal. lia.
Qed.

Lemma grow_spec p table r fill :
  fill ≤ 16 → grow_loop (grow_fuel r) p table r fill = grow_result p table r fill.
Proof. intros. apply grow_loop_spec; [done |]. unfold grow_fuel. case_bool_decide; lia. Qed.

(** ** Operations preserve the invariant *)

Lemma inv_sub m h s b :
  tables_inv m → sequences m !! h = Some s → b ∈ block_table s → b < bs_capacity (pool m).
Proof.
  intros Hinv Hs Hb.
  assert (b ∈ owned (sequences m) ++ bs_free (pool m)) as Hin.
  { apply elem_of_app. left. apply elem_of_owned. eauto. }
  rewrite (inv_partition m Hinv) in Hin. apply elem_of_seq in Hin. lia.
Qed.

Lemma tables_new_inv p :
  bs_free p ≡ₚ seq 0 (bs_capacity p) → tables_inv (tables_new p).
Proof.
  intros Hp. split; simpl; [| intros ??; by rewrite lookup_empty | lia | intros ??; by rewrite lookup_empty].
  unfold owned. by rewrite map_to_list_empty.
Qed.

Lemma tables_alloc_inv m : tables_inv m → tables_inv (tables_alloc m).1.
Proof.
  intros Hinv. unfold tables_alloc.
  destruct (uadd (next_id m) 1) as [n| |] eqn:En; [| done..].
  apply checked_inv in En as [-> Hw]. rewrite bs_alloc_block_spec.
  assert (sequences m !! next_id m = None) as Hfresh.
  { destruct (sequences m !! next_id m) as [s|] eqn:E; [| done].
    apply (inv_ids m Hinv) in E. lia. }
  destruct Hinv as [Hpart Hids Hnext Hseqs].
  destruct (bs_free (pool m)) as [|b fl] eqn:Efl.
  - assert (tables_inv {| pool := pool m; sequences := sequences m; next_id := next_id m + 1 |}).
    { split; simpl; [by rewrite Efl | | lia | done]. intros h s' Hh. apply Hids in Hh. lia. }
    destruct (bs_oom (pool m)) eqn:E; [by apply bs_oom_fails in E | done..].
  - split; simpl; [| | lia |].
    + rewrite bs_free_set, bs_capacity_set, owned_insert_new by done. simpl.
      rewrite <- Hpart. apply Permutation_middle.
    + intros h s' [[<- <-]|[_ Hs']]%lookup_insert_Some; [lia |]. apply Hids in Hs'. lia.
    + intros h s' [[<- <-]|[_ Hs']]%lookup_insert_Some; [| eauto].
      exists 0. simpl. lia.
Qed.

Lemma grow_result_partition p table r fill p' table' res :
  grow_result p table r fill = (p', table', res) →
  table' ++ bs_free p' = table ++ bs_free p ∧ bs_capacity p' = bs_capacity p.
Proof.
  unfold grow_result. intros Heq. case_bool_decide; simplify_eq; rewrite bs_free_set, bs_capacity_set.
  - by rewrite <- app_assoc, take_drop.
  - by rewrite app_nil_r.
Qed.

Lemma grow_result_seq_ok p s r p' table' fill' :
  seq_ok s → grow_result p (block_table s) r (last_block_fill s) = (p', table', Ok fill') →
  seq_ok {| block_table := table'; last_block_fill := fill'; current_len := current_len s + r |}.
Proof.
  intros (full & Hlen & Hfill & Hfull). unfold grow_result. case_bool_decide as Hn; intros Heq.
  - simplify_eq. exists (full + blocks_needed r (last_block_fill s)). simpl.
    rewrite length_app, length_take.
    destruct (blocks_needed_bounds r (last_block_fill s)) as (? & ? & ?); [done |].
    destruct (decide (blocks_needed r (last_block_fill s) = 0)); lia.
  - injection Heq as _ _ Heq. by apply bs_oom_fails in Heq.
Qed.

Lemma seq_ok_more s extra :
  seq_ok s → seq_ok {| block_table := block_table s ++ extra; last_block_fill := last_block_fill s;
                       current_len := current_len s |}.
Proof. intros (full & ? & ? & ?). exists full. simpl. rewrite length_app. lia. Qed.

Lemma reserve_inv h n m : tables_inv m → tables_inv (reserve h n m).1.
Proof.
  intros Hinv. unfold reserve. destruct (sequences m !! h) as [s|] eqn:Hs; [| done].
  pose proof (inv_seqs m Hinv h s Hs) as Hok. pose proof Hok as (full & Hlen & Hfill & Hfull).
  rewrite grow_spec by done.
  destruct (grow_result _ _ _ _) as [[p table] r] eqn:Hg.
  destruct (grow_result_partition _ _ _ _ _ _ _ Hg) as [Hparts Hcap].
  destruct Hinv as [Hpart Hids Hnext Hseqs].
  split; simpl; [| | done |].
  - rewrite (owned_update _ h s) by done. rewrite Hcap, <- Hpart, (owned_delete (sequences m) h s) by done.
    transitivity (table ++ bs_free p ++ owned (delete h (sequences m))).
    { destruct r; simpl; rewrite <- app_assoc; f_equiv; apply Permutation_app_comm. }
    rewrite app_assoc, Hparts, <- !app_assoc. f_equiv. apply Permutation_app_comm.
  - intros h' s' [[<- <-]|[_ Hs']]%lookup_insert_Some; eauto.
  - intros h' s' [[<- <-]|[_ Hs']]%lookup_insert_Some; [| eauto].
    destruct r as [fill| |]; [by eapply grow_result_seq_ok | |].
    all: unfold grow_result in Hg; case_bool_decide; simplify_eq; by apply seq_ok_more.
Qed.

Lemma free_blocks_spec l p :
  Forall (λ b, b < bs_capacity p) l →
  free_blocks l p = (bs_set_free (reverse l ++ bs_free p) p, Ok ()).
Proof.
  revert p. induction l as [|b l IH]; intros p Hl; simpl.
  - by rewrite bs_set_same.
  - apply Forall_cons in Hl as [Hb Hl]. unfold sbind. rewrite bs_free_block_spec, bool_decide_true by done.
    rewrite IH by (by rewrite bs_capacity_set).
    by rewrite bs_free_set, bs_set_set, reverse_cons, <- app_assoc.
Qed.

Lemma tables_free_spec h m s :
  tables_inv m → sequences m !! h = Some s →
  tables_free h m =
    ({| pool := bs_set_free (reverse (block_table s) ++ bs_free (pool m)) (pool m);
        sequences := delete h (sequences m); next_id := next_id m |}, Ok ()).
Proof.
  intros Hinv Hs. unfold tables_free. rewrite Hs.
  rewrite free_blocks_spec; [done |]. apply Forall_forall. intros b Hb. by eapply inv_sub.
Qed.

Lemma tables_free_inv h m : tables_inv m → tables_inv (tables_free h m).1.
Proof.
  intros Hinv. destruct (sequences m !! h) as [s|] eqn:Hs.
  - rewrite (tables_free_spec h m s) by done. destruct Hinv as [Hpart Hids Hnext Hseqs].
    split; simpl; [| | done |].
    + rewrite bs_free_set, bs_capacity_set, <- Hpart, (owned_delete (sequences m) h s) by done.
      rewrite reverse_Permutation. rewrite app_assoc. f_equiv. apply Permutation_app_comm.
    + intros h' s' [_ Hs']%lookup_delete_Some. eauto.
    + intros h' s' [_ Hs']%lookup_delete_Some. eauto.
  - unfold tables_free. by rewrite Hs.
Qed.

(** ** What the invariant means *)

Lemma inv_NoDup m : tables_inv m → NoDup (owned (sequences m) ++ bs_free (pool m)).
Proof. intros Hinv. rewrite (inv_partition m Hinv). apply NoDup_seq. Qed.

Lemma inv_table_NoDup m h s : tables_inv m → sequences m !! h = Some s → NoDup (block_table s).
Proof.
  intros Hinv%inv_NoDup Hs. apply NoDup_app in Hinv as [Hnd _].
  rewrite (owned_delete _ h s Hs) in Hnd. by apply NoDup_app in Hnd as [? _].
Qed.

(** No block belongs to two sequences. *)
Lemma inv_disjoint m h h' s s' b :
  tables_inv m → sequences m !! h = Some s → sequences m !! h' = Some s' → h ≠ h' →
  b ∈ block_table s → b ∉ block_table s'.
Proof.
  intros Hinv%inv_NoDup Hs Hs' Hne Hb Hb'. apply NoDup_app in Hinv as [Hnd _].
  rewrite (owned_delete _ h s Hs) in Hnd. apply NoDup_app in Hnd as (_ & Hdis & _).
  apply (Hdis b Hb). apply elem_of_owned. exists h', s'. by rewrite lookup_delete_ne.
Qed.

(** No block of a sequence is free. *)
Lemma inv_not_free m h s b :
  tables_inv m → sequences m !! h = Some s → b ∈ block_table s → b ∉ bs_free (pool m).
Proof.
  intros Hinv%inv_NoDup Hs Hb. apply NoDup_app in Hinv as (_ & Hdis & _).
  apply Hdis, elem_of_owned. eauto.
Qed.

(** ** Reservations *)

Lemma reserve_Ok m h s n :
  tables_inv m → sequences m !! h = Some s →
  blocks_needed n (last_block_fill s) ≤ num_free_blocks m →
  let need := blocks_needed n (last_block_fill s) in
  ∃ s', reserve h n m =
    ({| pool := bs_set_free (drop need (bs_free (pool m))) (pool m);
        sequences := <[h := s']> (sequences m); next_id := next_id m |}, Ok s') ∧
    block_table s' = block_table s ++ take need (bs_free (pool m)) ∧
    current_len s' = current_len s + n.
Proof.
  intros Hinv Hs Hneed need. destruct (inv_seqs m Hinv h s Hs) as (full & Hlen & Hfill & Hfull).
  unfold reserve. rewrite Hs, grow_spec by done. unfold grow_result.
  rewrite bool_decide_true by done. simpl. eexists. by split_and!.
Qed.

(** Out of blocks: the error comes after every free block went into the
    sequence's table, while its length stays. *)
Lemma reserve_Err m h s n e :
  tables_inv m → sequences m !! h = Some s →
  num_free_blocks m < blocks_needed n (last_block_fill s) → bs_oom (pool m) = Err e →
  reserve h n m =
    ({| pool := bs_set_free [] (pool m); next_id := next_id m;
        sequences := <[h := {| block_table := block_table s ++ bs_free (pool m);
                               last_block_fill := last_block_fill s;
                               current_len := current_len s |}]> (sequences m) |}, Err e).
Proof.
  intros Hinv Hs Hneed Hoom. destruct (inv_seqs m Hinv h s Hs) as (full & Hlen & Hfill & Hfull).
  unfold reserve. rewrite Hs, grow_spec by done. unfold grow_result.
  rewrite bool_decide_false by (unfold num_free_blocks in *; lia). by rewrite Hoom.
Qed.

(** The operations change nothing of the pool but its free list. *)
Definition pool_moved (p p' : P) : Prop := ∃ fl, p' = bs_set_free fl p.

Lemma pool_moved_refl p : pool_moved p p.
Proof. exists (bs_free p). by rewrite bs_set_same. Qed.
Lemma pool_moved_trans p p' p'' : pool_moved p p' → pool_moved p' p'' → pool_moved p p''.
Proof. intros [fl ->] [fl' ->]. exists fl'. by rewrite bs_set_set. Qed.
Lemma pool_moved_capacity p p' : pool_moved p p' → bs_capacity p' = bs_capacity p.
Proof. intros [fl ->]. apply bs_capacity_set. Qed.

Lemma tables_alloc_pool m : pool_moved (pool m) (pool (tables_alloc m).1).
Proof.
  unfold tables_alloc. destruct (uadd _ _); [| apply pool_moved_refl..]. rewrite bs_alloc_block_spec.
  destruct (bs_free (pool m)) as [|b fl]; [destruct (bs_oom (pool m)); apply pool_moved_refl |]. by exists fl.
Qed.

Lemma free_blocks_pool l p : pool_moved p (free_blocks l p).1.
Proof.
  revert p. induction l as [|b l IH]; intros p; [apply pool_moved_refl |]. cbn [free_blocks]. unfold sbind.
  rewrite bs_free_block_spec. case_bool_decide; [| apply pool_moved_refl].
  eapply pool_moved_trans; [| apply IH]. by eexists.
Qed.

Lemma tables_free_pool h m : pool_moved (pool m) (pool (tables_free h m).1).
Proof.
  unfold tables_free. destruct (sequences m !! h) as [s|]; [| apply pool_moved_refl].
  pose proof (free_blocks_pool (block_table s) (pool m)). by destruct (free_blocks _ _).
Qed.

Lemma reserve_pool h n m : tables_inv m → pool_moved (pool m) (pool (reserve h n m).1).
Proof.
  intros Hinv. unfold reserve. destruct (sequences m !! h) as [s|] eqn:Hs; [| apply pool_moved_refl].
  destruct (inv_seqs m Hinv h s Hs) as (full & _ & ? & _). rewrite grow_spec by done.
  unfold grow_result. case_bool_decide; by eexists.
Qed.

(** Reserving touches one sequence only. *)
Lemma reserve_frame h n (m : CacheTables P) :
  tables_inv m →
  tables_inv (reserve h n m).1 ∧ bs_capacity (pool (reserve h n m).1) = bs_capacity (pool m) ∧
  (∀ h', is_Some (sequences (reserve h n m).1 !! h') ↔ is_Some (sequences m !! h')) ∧
  ∀ h', h' ≠ h → sequences (reserve h n m).1 !! h' = sequences m !! h'.
Proof.
  intros Hinv. split; [by apply reserve_inv |]. unfold reserve. destruct (sequences m !! h) as [s|] eqn:Hs; [| done].
  destruct (inv_seqs m Hinv h s Hs) as (full & Hlen & Hfill & Hfull). rewrite grow_spec by done.
  destruct (grow_result _ _ _ _) as [[p table] r] eqn:Hg.
  destruct (grow_result_partition _ _ _ _ _ _ _ Hg) as [_ Hcap]. split; [exact Hcap |]. simpl. split.
  - intros h'. rewrite lookup_insert_is_Some'. split; [intros [<-|?]; [by rewrite Hs | done] | by right].
  - intros h' Hne. by rewrite lookup_insert_ne.
Qed.

Lemma num_free_set (l : list nat) (p : P) seqs i :
  num_free_blocks {| pool := bs_set_free l p; sequences := seqs; next_id := i |} = length l.
Proof. unfold num_free_blocks. simpl. by rewrite bs_free_set. Qed.
End accounting.

(** ** Sizing *)

(** [compute_num_blocks] gives the largest number of blocks that fits in
    the memory left after the scratch reserve. *)
Theorem compute_num_blocks_fits gpu scratch nl nkv hd n :
  (0 < nl)%Z → (0 < nkv)%Z → (0 < hd)%Z →
  compute_num_blocks gpu scratch nl nkv hd = Ok n →
  ∃ bytes, bytes_of_block nl nkv hd = Ok bytes ∧ bytes = (16 * nkv * hd * 2 * 2 * nl)%Z ∧
    (0 ≤ n)%Z ∧ (n * bytes ≤ Z.max 0 (gpu - scratch))%Z ∧ (Z.max 0 (gpu - scratch) < (n + 1) * bytes)%Z.
Proof.
  unfold compute_num_blocks. intros Hnl Hkv Hhd (bytes & Hb & Hn)%rbind_Ok. exists bytes.
  split; [done |]. apply bytes_of_block_inv in Hb as [-> _].
  assert (0 < 16 * nkv * hd * 2 * 2 * nl)%Z as Hpos by nia.
  rewrite (proj2 (Z.eqb_neq _ _)) in Hn by lia. injection Hn as <-. unfold saturating_sub.
  set (B := (16 * nkv * hd * 2 * 2 * nl)%Z) in *.
  pose proof (Z.mul_div_le (Z.max 0 (gpu - scratch)) B Hpos).
  pose proof (Z.mul_succ_div_gt (Z.max 0 (gpu - scratch)) B Hpos).
  pose proof (Z.div_pos (Z.max 0 (gpu - scratch)) B). split_and!; [done | lia | lia | lia].
Qed.

Module SizingWitness.
Lemma compute_num_blocks_witness :
  ∃ bytes, bytes_of_block 32 8 128 = Ok bytes ∧ bytes = (16 * 8 * 128 * 2 * 2 * 32)%Z ∧
    (0 ≤ 1536)%Z ∧ (1536 * bytes ≤ Z.max 0 (4294967296 - 1073741824))%Z ∧
    (Z.max 0 (4294967296 - 1073741824) < (1536 + 1) * bytes)%Z.
Proof. apply (compute_num_blocks_fits 4294967296 1073741824 32 8 128 1536); [lia.. |]. by vm_compute. Defined.
End SizingWitness.
