(* ===== verification/BlockWrite.v ===== *)
(** * Writing rows through a block table

    The second half of [append_kv]: the new rows of one or several source
    tensors are copied, chunk by chunk, into the blocks of the sequence.  The
    paged cache copies keys and values; the quantized cache copies packed
    indices and norms of both.  [wrote] says which cells a copy changes and what
    they hold then; it composes over chunks and tensors. *)

From S2P Require Import Prelude Core Backend BlockTables.

(** A source tensor and the destination tensor in each block. *)
Record Lane := { lane_src : DeviceTensor; lane_dst : nat → result DeviceTensor }.

Section write.
Context {D : Type} `{BackendOps D}.

Fixpoint copy_lanes (lanes : list Lane) (block_id written offset_in_block to_write : nat) : st D unit :=
  match lanes with
  | [] => sret ()
  | l :: ls =>
      do! dst := slift (lane_dst l block_id) in
      do! _ := b_copy_rows (lane_src l) dst written offset_in_block to_write in
      copy_lanes ls block_id written offset_in_block to_write
  end.

(** [while written < num_new]: every pass copies at least one row. *)
Fixpoint write_loop (lanes : list Lane) (table : list nat) (start_token num_new : nat)
    (fuel written : nat) : st D unit :=
  match fuel with
  | 0 => slift Panic
  | S fuel =>
      if bool_decide (written < num_new) then
        let global_pos := start_token + written in
        let block_idx := global_pos `div` BLOCK_SIZE in
        let offset_in_block := global_pos `mod` BLOCK_SIZE in
        do! block_id := slift (index table block_idx) in
        let slots := BLOCK_SIZE - offset_in_block in
        let to_write := (num_new - written) `min` slots in
        do! _ := copy_lanes lanes block_id written offset_in_block to_write in
        write_loop lanes table start_token num_new fuel (written + to_write)
      else sret ()
  end.

Definition write_rows (lanes : list Lane) (table : list nat) (start_token num_new : nat) : st D unit :=
  write_loop lanes table start_token num_new (num_new + 1) 0.
End write.

(** ** Cells changed by a copy *)

(** [W src i id off]: row [i] of [src] goes to cell [off] of tensor [id]. *)
Notation cells := (DeviceTensor → nat → Z → nat → Prop).

Section wrote.
Context {D : Type} `{BackendLaws D}.
Implicit Types d : D.

Record wrote (W : cells) d d' : Prop := {
  wrote_live : b_live d' = b_live d;
  wrote_length : ∀ id, id ∈ b_live d → length (b_rows d' id) = length (b_rows d id);
  wrote_hit : ∀ s i id off, W s i id off → b_rows d' id !! off = t_rows d s !! i;
  wrote_miss : ∀ id off, id ∈ b_live d → (∀ s i, ¬ W s i id off) →
                 b_rows d' id !! off = b_rows d id !! off
}.

Lemma wrote_none (W : cells) d : (∀ s i id off, ¬ W s i id off) → wrote W d d.
Proof. intros HW. split; [done | done | | done]. intros ???? []%HW. Qed.

Lemma wrote_ext (W W' : cells) d d' :
  (∀ s i id off, W s i id off ↔ W' s i id off) → wrote W d d' → wrote W' d d'.
Proof.
  intros Heq [H1 H2 H3 H4]. split; [done | done | |].
  - intros ???? ?%Heq. by apply H3.
  - intros ?? Hl Hm. apply H4; [done |]. intros ?? ?%Heq. by eapply Hm.
Qed.

Lemma wrote_trans (W1 W2 : cells) d d1 d2 :
  wrote W1 d d1 → wrote W2 d1 d2 →
  (∀ s i s' i' id off, W1 s i id off → W2 s' i' id off → False) →
  (∀ s i id off, W1 s i id off → id ∈ b_live d) →
  (∀ s i id off, W2 s i id off → t_live d s ∧ ∀ s' i' off', ¬ W1 s' i' (tensor_id s) off') →
  wrote (λ s i id off, W1 s i id off ∨ W2 s i id off) d d2.
Proof.
  intros [L1 N1 H1 M1] [L2 N2 H2 M2] Hdis Hlive Hsrc. split.
  - by rewrite L2, L1.
  - intros id Hid. rewrite N2, N1; [done | done | by rewrite L1].
  - intros s i id off [HW|HW].
    + rewrite M2; [by apply H1 | rewrite L1; by eapply Hlive |]. intros s' i' HW'. by eapply Hdis.
    + rewrite (H2 s i id off HW). destruct (Hsrc _ _ _ _ HW) as [Hl Hno].
      unfold t_rows. apply M1; [done |]. intros ?? ?. by eapply Hno.
  - intros id off Hid Hno. rewrite M2; [apply M1; [done |] | by rewrite L1 |].
    + intros s i HW. eapply Hno. by left.
    + intros s i HW. eapply Hno. by right.
Qed.

Definition chunk (src dst : DeviceTensor) (so dof n : nat) : cells := λ s i id off,
  s = src ∧ so ≤ i < so + n ∧ id = tensor_id dst ∧ off = dof + (i - so).

Lemma copy_rows_wrote d src dst so dof n :
  t_valid d src → t_valid d dst → tensor_id src ≠ tensor_id dst → same_layout src dst →
  so + n ≤ length (t_rows d src) → dof + n ≤ length (t_rows d dst) →
  ∃ d', b_copy_rows src dst so dof n d = (d', Ok ()) ∧ wrote (chunk src dst so dof n) d d'.
Proof.
  intros Hs Hd Hne Hlay Hso Hdo.
  destruct (b_copy_rows_Ok d src dst so dof n) as (d' & Hc & Hl & Hrows & Hsame); [done.. |].
  exists d'. split; [done |].
  assert (∀ id, id ∈ b_live d → id ≠ tensor_id dst → b_rows d' id = b_rows d id) as Hother.
  { intros id Hid Hidn. apply Hsame. set_solver. }
  change (b_rows d' (tensor_id dst)) with (t_rows d' dst) in *.
  split; [done | | |].
  - intros id Hid. destruct (decide (id = tensor_id dst)) as [->|]; [| by rewrite Hother].
    change (length (t_rows d' dst) = length (t_rows d dst)). by rewrite Hrows, length_inserts.
  - intros s i id off (-> & Hi & -> & ->). change (t_rows d' dst !! (dof + (i - so)) = t_rows d src !! i).
    rewrite Hrows, list_lookup_inserts by (rewrite ?length_take, ?length_drop; lia).
    rewrite lookup_take_lt by lia. rewrite lookup_drop. f_equal. lia.
  - intros id off Hid Hmiss. destruct (decide (id = tensor_id dst)) as [->|]; [| by rewrite Hother].
    change (t_rows d' dst !! off = t_rows d dst !! off). rewrite Hrows.
    destruct (decide (off < dof)); [by rewrite list_lookup_inserts_lt |].
    destruct (decide (dof + n ≤ off)).
    { rewrite list_lookup_inserts_ge; [done |]. rewrite length_take, length_drop. lia. }
    exfalso. apply (Hmiss src (so + (off - dof))). unfold chunk. split_and!; [done | lia | lia | done | lia].
Qed.

(** ** The whole write *)

(** Lane [l] copies rows [lo .. hi) to the positions from [start + lo]. *)
Definition lane_cells (l : Lane) (table : list nat) (start lo hi : nat) : cells := λ s i id off,
  s = lane_src l ∧ lo ≤ i < hi ∧
  ∃ b t, table !! ((start + i) `div` 16) = Some b ∧ lane_dst l b = Ok t ∧
         id = tensor_id t ∧ off = (start + i) `mod` 16.

Definition lanes_cells (lanes : list Lane) (table : list nat) (start lo hi : nat) : cells :=
  λ s i id off, ∃ l, l ∈ lanes ∧ lane_cells l table start lo hi s i id off.

(** The sources are allocated and long enough; each block of the table has a
    tensor of 16 rows per lane; all these tensors are different. *)
Record lanes_ok (d : D) (lanes : list Lane) (table : list nat) (num_new : nat) : Prop := {
  lanes_src : ∀ l, l ∈ lanes → t_valid d (lane_src l) ∧ num_new ≤ length (t_rows d (lane_src l));
  lanes_dst : ∀ l b, l ∈ lanes → b ∈ table →
    ∃ t, lane_dst l b = Ok t ∧ t_valid d t ∧ length (t_rows d t) = 16 ∧ same_layout (lane_src l) t;
  lanes_inj : ∀ i j li lj b b' t t', lanes !! i = Some li → lanes !! j = Some lj →
    b ∈ table → b' ∈ table → lane_dst li b = Ok t → lane_dst lj b' = Ok t' →
    tensor_id t = tensor_id t' → i = j ∧ b = b';
  lanes_src_dst : ∀ l l' b t, l ∈ lanes → l' ∈ lanes → b ∈ table → lane_dst l' b = Ok t →
    tensor_id (lane_src l) ≠ tensor_id t
}.

Lemma lanes_ok_wrote d d' W lanes table n :
  wrote W d d' → lanes_ok d lanes table n → lanes_ok d' lanes table n.
Proof.
  intros [L N _ _] [Hs Hd Hi Hsd]. split; [| | done | done].
  - intros l Hl. destruct (Hs l Hl) as [[Hlive ?] ?]. unfold t_valid, t_live, t_rows in *. by rewrite L, N.
  - intros l b Hl Hb. destruct (Hd l b Hl Hb) as (t & Ht & [Hlive ?] & Hlen & Hlay).
    exists t. unfold t_valid, t_live, t_rows in *. by rewrite L, N.
Qed.

Lemma lanes_ok_tail d l lanes table n :
  lanes_ok d (l :: lanes) table n → lanes_ok d lanes table n.
Proof.
  intros [Hs Hd Hi Hsd]. split.
  - intros l' Hl. apply Hs. by right.
  - intros l' b Hl. apply Hd. by right.
  - intros i j li lj b b' t t' Hli Hlj Hb Hb' Ht Ht' Heq.
    destruct (Hi (S i) (S j) li lj b b' t t' Hli Hlj Hb Hb' Ht Ht' Heq) as [[= ->] ->]. done.
  - intros l1 l2 b t H1 H2. apply Hsd; by right.
Qed.

Lemma lanes_cells_dst lanes table start lo hi s i id off :
  lanes_cells lanes table start lo hi s i id off →
  ∃ l b t, l ∈ lanes ∧ b ∈ table ∧ lane_dst l b = Ok t ∧ id = tensor_id t.
Proof.
  intros (l & Hl & _ & _ & b & t & Hb & Ht & -> & _). exists l, b, t.
  split_and!; [done | | done | done]. by eapply list_elem_of_lookup_2.
Qed.

Lemma lanes_cells_live d lanes table n start lo hi s i id off :
  lanes_ok d lanes table n → lanes_cells lanes table start lo hi s i id off → id ∈ b_live d.
Proof.
  intros Hok (l & b & t & Hl & Hb & Ht & ->)%lanes_cells_dst.
  destruct (lanes_dst _ _ _ _ Hok l b Hl Hb) as (t' & Ht' & [Hlive _] & _). by ok_inj.
Qed.

(** Sources are live and never written. *)
Lemma lanes_cells_src d lanes table n start lo hi s i id off :
  lanes_ok d lanes table n → lanes_cells lanes table start lo hi s i id off →
  t_live d s ∧ ∀ ls lo' hi' s' i' off', (∀ l, l ∈ ls → l ∈ lanes) →
    ¬ lanes_cells ls table start lo' hi' s' i' (tensor_id s) off'.
Proof.
  intros Hok (l & Hl & -> & _). split; [by destruct (lanes_src _ _ _ _ Hok l Hl) as [[? _] _] |].
  intros ls lo' hi' s' i' off' Hsub (l' & b & t & Hl' & Hb & Ht & Heq)%lanes_cells_dst.
  eapply (lanes_src_dst _ _ _ _ Hok l l' b t); eauto.
Qed.

(** Two lanes, or two ranges of rows, never share a cell. *)
Lemma lane_cells_inj d lanes table n start i j li lj lo hi lo' hi' s s' k k' id off :
  lanes_ok d lanes table n → NoDup table →
  lanes !! i = Some li → lanes !! j = Some lj →
  lane_cells li table start lo hi s k id off → lane_cells lj table start lo' hi' s' k' id off →
  i = j ∧ k = k'.
Proof.
  intros Hok Hnd Hli Hlj (_ & _ & b & t & Hb & Ht & Hid & Hoff) (_ & _ & b' & t' & Hb' & Ht' & Hid' & Hoff').
  destruct (lanes_inj _ _ _ _ Hok i j li lj b b' t t') as [-> ->]; try done;
    [by eapply list_elem_of_lookup_2 | by eapply list_elem_of_lookup_2 | congruence |].
  split; [done |]. pose proof (NoDup_lookup _ _ _ _ Hnd Hb Hb').
  pose proof (Nat.div_mod_eq (start + k) 16). pose proof (Nat.div_mod_eq (start + k') 16). lia.
Qed.

Lemma copy_lanes_wrote d lanes table n start w k b off :
  lanes_ok d lanes table n → NoDup table →
  table !! ((start + w) `div` 16) = Some b → off = (start + w) `mod` 16 →
  off + k ≤ 16 → w + k ≤ n →
  ∃ d', copy_lanes lanes b w off k d = (d', Ok ()) ∧
        wrote (lanes_cells lanes table start w (w + k)) d d'.
Proof.
  intros Hok Hnd Hb -> Hoff Hn. revert d Hok. induction lanes as [|l lanes IH]; intros d Hok.
  { exists d. split; [done |]. apply wrote_none. intros s i id off (l & Hl & _). by apply not_elem_of_nil in Hl. }
  cbn [copy_lanes]. destruct (lanes_src _ _ _ _ Hok l) as [Hsl Hsn]; [left |].
  assert (b ∈ table) as Hbin by (by eapply list_elem_of_lookup_2).
  destruct (lanes_dst _ _ _ _ Hok l b) as (t & Ht & Htl & Htn & Hlay); [left | done |].
  assert (tensor_id (lane_src l) ≠ tensor_id t) as Hne.
  { by eapply (lanes_src_dst _ _ _ _ Hok l l); [left | left | |]. }
  destruct (copy_rows_wrote d (lane_src l) t w ((start + w) `mod` 16) k) as (d1 & Hc & Hw1);
    [done.. | lia | lia |].
  destruct (IH d1) as (d2 & Hc2 & Hw2); [by eapply lanes_ok_tail, lanes_ok_wrote |].
  exists d2. split; [unfold sbind, slift; by rewrite Ht, Hc |].
  assert (wrote (lanes_cells [l] table start w (w + k)) d d1) as Hw1'.
  { eapply wrote_ext; [| exact Hw1]. intros s i id off'. unfold chunk, lanes_cells, lane_cells.
    pose proof (Nat.div_mod_eq (start + w) 16) as Ew.
    assert (∀ i, w ≤ i < w + k → (start + i) `div` 16 = (start + w) `div` 16 ∧
              (start + i) `mod` 16 = (start + w) `mod` 16 + (i - w)) as Hpos.
    { intros j Hj. pose proof (Nat.div_mod_eq (start + j) 16).
      pose proof (Nat.mod_upper_bound (start + j) 16). nia. }
    split.
    - intros (-> & Hi & -> & ->). exists l. split; [by left |]. split; [done |]. split; [done |].
      exists b, t. destruct (Hpos i Hi) as [-> ->]. done.
    - intros (l' & ->%list_elem_of_singleton & -> & Hi & b' & t' & Hb' & Ht' & -> & ->).
      destruct (Hpos i Hi) as [E1 E2]. rewrite E1 in Hb'. simplify_eq. ok_inj. split_and!; try done; lia. }
  eapply wrote_ext; [| eapply (wrote_trans _ _ d d1 d2 Hw1' Hw2)].
  - intros s i id off'. unfold lanes_cells. setoid_rewrite elem_of_cons. set_solver.
  - intros s i s' i' id off' (l1 & ->%list_elem_of_singleton & Hc1) (l2 & Hl2 & Hc2').
    apply list_elem_of_lookup in Hl2 as [j Hj].
    by destruct (lane_cells_inj d (l :: lanes) table n start 0 (S j) l l2 _ _ _ _ _ _ _ _ _ _ Hok Hnd
              eq_refl Hj Hc1 Hc2').
  - intros s i id off' (l1 & ->%list_elem_of_singleton & Hc1). eapply (lanes_cells_live d (l :: lanes)); [done |].
    exists l. split; [left | done].
  - intros s i id off' (l2 & Hl2 & Hc2').
    destruct (lanes_cells_src d (l :: lanes) table n start w (w + k) s i id off' Hok) as [Hlv Hno].
    { exists l2. split; [by right | done]. }
    split; [done |]. intros s' i' off''. apply Hno. intros l' ->%list_elem_of_singleton. left.
Qed.

(** A lane whose rows have another width than its destination's: the pass over
    the lanes fails there. *)
Lemma copy_lanes_mismatch d lanes b w off k :
  (∀ l, l ∈ lanes → ∃ t, lane_dst l b = Ok t ∧ t_valid d (lane_src l) ∧ t_valid d t ∧
     tensor_id (lane_src l) ≠ tensor_id t ∧ dtype (lane_src l) = dtype t ∧
     w + k ≤ length (t_rows d (lane_src l)) ∧ off + k ≤ length (t_rows d t)) →
  (∃ l t, l ∈ lanes ∧ lane_dst l b = Ok t ∧ tail (shape (lane_src l)) ≠ tail (shape t)) →
  ∃ d' msg, copy_lanes lanes b w off k d = (d', Err (InvalidShape msg)).
Proof.
  revert d. induction lanes as [|l lanes IH]; intros d Hall (l0 & t0 & Hl0 & Ht0 & Hne0); [by apply not_elem_of_nil in Hl0 |].
  destruct (Hall l) as (t & Ht & Hs & Hd & Hid & Hdt & Hso & Hdo); [left |]. cbn [copy_lanes]. unfold sbind, slift.
  rewrite Ht. destruct (decide (tail (shape (lane_src l)) = tail (shape t))) as [Heq|Hne].
  - destruct (copy_rows_wrote d (lane_src l) t w off k) as (d1 & -> & [L N _ _]); try done.
    apply IH.
    + intros l' Hl'. destruct (Hall l') as (t' & ? & [? ?] & [? ?] & ?); [by right |]. exists t'.
      unfold t_valid, t_live, t_rows in *. by rewrite L, !N.
    + exists l0, t0. apply elem_of_cons in Hl0 as [->|?]; [by ok_inj | done].
  - destruct (b_copy_rows_columns d (lane_src l) t w off k) as (msg & ->); eauto.
Qed.

Lemma write_loop_wrote d lanes table start num_new fuel w :
  lanes_ok d lanes table num_new → NoDup table →
  start + num_new ≤ 16 * length table → w ≤ num_new → num_new - w < fuel →
  ∃ d', write_loop lanes table start num_new fuel w d = (d', Ok ()) ∧
        wrote (lanes_cells lanes table start w num_new) d d'.
Proof.
  intros Hok Hnd Hroom. revert d w Hok. induction fuel as [|fuel IH]; intros d w Hok Hw Hfuel; [lia |].
  cbn [write_loop]. case_bool_decide as Hlt.
  2: { exists d. split; [done |]. apply wrote_none. intros s i id off (l & _ & _ & ? & _). lia. }
  unfold BLOCK_SIZE in *. set (off := (start + w) `mod` 16). set (k := (num_new - w) `min` (16 - off)).
  pose proof (Nat.div_mod_eq (start + w) 16) as Hdm.
  assert (off < 16) as Hoff by (apply Nat.mod_upper_bound; lia).
  destruct (lookup_lt_is_Some_2 table ((start + w) `div` 16)) as [b Hb]; [lia |].
  destruct (copy_lanes_wrote d lanes table num_new start w k b off) as (d1 & Hc & Hw1); [done.. | lia | lia |].
  destruct (IH d1 (w + k)) as (d2 & Hl & Hw2); [by eapply lanes_ok_wrote | lia | lia |].
  exists d2. split.
  { unfold sbind, slift, index. rewrite Hb. by rewrite Hc. }
  eapply wrote_ext; [| eapply (wrote_trans _ _ d d1 d2 Hw1 Hw2)].
  - intros s i id o. unfold lanes_cells, lane_cells. split.
    + intros [(l & Hin & -> & Hi & Hrest)|(l & Hin & -> & Hi & Hrest)];
        exists l; split_and!; try done; lia.
    + intros (l & Hin & -> & Hi & Hrest). destruct (decide (i < w + k)); [left | right];
        exists l; split_and!; try done; lia.
  - intros s i s' i' id o (l1 & Hl1 & Hc1) (l2 & Hl2 & Hc2).
    apply list_elem_of_lookup in Hl1 as [x Hx], Hl2 as [y Hy].
    destruct (lane_cells_inj d lanes table num_new start x y l1 l2 _ _ _ _ _ _ _ _ _ _ Hok Hnd Hx Hy Hc1 Hc2)
      as [_ ->]. destruct Hc1 as (_ & ? & _), Hc2 as (_ & ? & _). lia.
  - intros s i id o Hc1. by eapply lanes_cells_live.
  - intros s i id o Hc2. destruct (lanes_cells_src _ _ _ _ _ _ _ _ _ _ _ Hok Hc2) as [Hlv Hno].
    split; [done |]. intros. by apply Hno.
Qed.

(** Writing [num_new] rows through a table with room for them succeeds; row
    [i] ends up at position [start + i] and no other cell changes. *)
Lemma write_rows_wrote d lanes table start num_new :
  lanes_ok d lanes table num_new → NoDup table → start + num_new ≤ 16 * length table →
  ∃ d', write_rows lanes table start num_new d = (d', Ok ()) ∧
        wrote (lanes_cells lanes table start 0 num_new) d d'.
Proof. intros. apply write_loop_wrote; [done.. | lia | lia]. Qed.

(** ** Reading through a table *)

(** The row at position [pos] of the sequence, in the blocks' tensors [dst]. *)
Definition row_at (d : D) (dst : nat → result DeviceTensor) (table : list nat) (pos : nat) : option Row :=
  match table !! (pos `div` 16) with
  | Some b => match dst b with Ok t => t_rows d t !! (pos `mod` 16) | _ => None end
  | None => None
  end.

Lemma row_at_written d d' lanes table start num_new l i :
  lanes_ok d lanes table num_new → start + num_new ≤ 16 * length table →
  wrote (lanes_cells lanes table start 0 num_new) d d' →
  l ∈ lanes → i < num_new →
  row_at d' (lane_dst l) table (start + i) = t_rows d (lane_src l) !! i.
Proof.
  intros Hok Hroom Hw Hl Hi. unfold row_at.
  pose proof (Nat.div_mod_eq (start + i) 16). 
  destruct (lookup_lt_is_Some_2 table ((start + i) `div` 16)) as [b Hb]; [lia |]. rewrite Hb.
  destruct (lanes_dst _ _ _ _ Hok l b Hl) as (t & Ht & _); [by eapply list_elem_of_lookup_2 |].
  rewrite Ht. apply (wrote_hit _ _ _ Hw). exists l. split; [done |]. split; [done |].
  split; [lia |]. eauto 10.
Qed.

(** A tensor that is no destination of the write keeps its rows. *)
Lemma rows_untouched d d' lanes table start num_new id off :
  wrote (lanes_cells lanes table start 0 num_new) d d' → id ∈ b_live d →
  (∀ l b t, l ∈ lanes → b ∈ table → lane_dst l b = Ok t → id ≠ tensor_id t) →
  b_rows d' id !! off = b_rows d id !! off.
Proof.
  intros Hw Hid Hno. apply (wrote_miss _ _ _ Hw); [done |].
  intros s i (l & b & t & Hl & Hb & Ht & Heq)%lanes_cells_dst. by eapply Hno.
Qed.
End wrote.

(** ** A store of blocks

    The tensors of a pool, by slot (which tensor of a block: layer, keys or
    values, ...) and block.  Both caches are instances. *)

Section store.
Context {D : Type} `{BackendLaws D}.
Context {P : Type}.
Variable dst : P → nat → result DeviceTensor.
Variable slots : P → Prop.
Variable cap : nat.
Implicit Types d : D.

(** Every slot of every block has an allocated tensor of 16 rows; no two share
    one. *)
Record store_ok d : Prop := {
  so_dst : ∀ p b, slots p → b < cap → ∃ t, dst p b = Ok t;
  so_valid : ∀ p b t, dst p b = Ok t → t_valid d t ∧ length (t_rows d t) = 16;
  so_inj : ∀ p p' b b' t t', dst p b = Ok t → dst p' b' = Ok t' → tensor_id t = tensor_id t' → p = p' ∧ b = b'
}.

(** A tensor outside the store, [n] rows of which can be copied to slot [p]. *)
Record store_source d (n : nat) (src : DeviceTensor) (p : P) : Prop := {
  ss_slot : slots p;
  ss_valid : t_valid d src;
  ss_rows : n ≤ length (t_rows d src);
  ss_layout : ∀ b t, dst p b = Ok t → same_layout src t;
  ss_outside : ∀ p' b t, dst p' b = Ok t → tensor_id src ≠ tensor_id t
}.

Definition lanes_of (sps : list (DeviceTensor * P)) : list Lane :=
  (λ sp, {| lane_src := sp.1; lane_dst := dst sp.2 |}) <$> sps.

Lemma elem_of_lanes_of sps l : l ∈ lanes_of sps ↔ ∃ sp, sp ∈ sps ∧ l = {| lane_src := sp.1; lane_dst := dst sp.2 |}.
Proof. unfold lanes_of. rewrite list_elem_of_fmap. naive_solver. Qed.

Lemma store_lanes_ok d sps table n :
  store_ok d → NoDup sps.*2 → Forall (λ sp, store_source d n sp.1 sp.2) sps → (∀ b, b ∈ table → b < cap) →
  lanes_ok d (lanes_of sps) table n.
Proof.
  intros [Hdst Hval Hinj] Hnd Hsrc Htab. rewrite Forall_forall in Hsrc. split.
  - intros l (sp & Hsp & ->)%elem_of_lanes_of. destruct (Hsrc sp Hsp). done.
  - intros l b (sp & Hsp & ->)%elem_of_lanes_of Hb. destruct (Hsrc sp Hsp) as [Hslot _ _ Hlay _].
    destruct (Hdst sp.2 b Hslot (Htab b Hb)) as [t Ht]. exists t. destruct (Hval _ _ _ Ht). simpl. eauto.
  - intros i j li lj b b' t t' Hi Hj _ _ Ht Ht' Heq. unfold lanes_of in Hi, Hj.
    rewrite list_lookup_fmap_Some in Hi, Hj. destruct Hi as (sp & -> & Hi), Hj as (sp' & -> & Hj).
    simpl in Ht, Ht'. destruct (Hinj _ _ _ _ _ _ Ht Ht' Heq) as [Hp ->]. split; [| done].
    apply (NoDup_lookup _ i j sp.2 Hnd); rewrite list_lookup_fmap; [by rewrite Hi | by rewrite Hj, Hp].
  - intros l l' b t (sp & Hsp & ->)%elem_of_lanes_of (sp' & _ & ->)%elem_of_lanes_of _ Ht.
    simpl in *. by eapply (ss_outside _ _ _ _ (Hsrc sp Hsp)).
Qed.

Lemma store_ok_frame d d' :
  (∀ id, id ∈ b_live d → id ∈ b_live d' ∧ length (b_rows d' id) = length (b_rows d id)) → store_ok d → store_ok d'.
Proof.
  intros Hf [Hdst Hval Hinj]. split; [done | | done]. intros p b t Ht.
  destruct (Hval p b t Ht) as [[Hl Hn] Hlen]. destruct (Hf _ Hl) as [Hl' Hlen']. unfold t_valid, t_live, t_rows in *.
  split_and!; [done | congruence | congruence].
Qed.

(** Copying [n] rows of each source to its slot, through a table of blocks of
    the store: position [start + i] reads row [i], every other cell of the
    store and every other tensor is as before. *)
Lemma store_write d sps table start n :
  store_ok d → NoDup sps.*2 → Forall (λ sp, store_source d n sp.1 sp.2) sps →
  (∀ b, b ∈ table → b < cap) → NoDup table → start + n ≤ 16 * length table →
  ∃ d', write_rows (lanes_of sps) table start n d = (d', Ok ()) ∧ b_live d' = b_live d ∧
    (∀ id, id ∈ b_live d → length (b_rows d' id) = length (b_rows d id)) ∧
    (∀ sp i, sp ∈ sps → i < n → row_at d' (dst sp.2) table (start + i) = t_rows d sp.1 !! i) ∧
    (∀ p table' pos, ((∀ b, b ∈ table' → b ∉ table) ∨ p ∉ sps.*2 ∨ (table' = table ∧ pos < start)) →
       row_at d' (dst p) table' pos = row_at d (dst p) table' pos) ∧
    (∀ id, id ∈ b_live d → (∀ p b t, dst p b = Ok t → id ≠ tensor_id t) → b_rows d' id = b_rows d id).
Proof.
  intros Hok Hnd Hsrc Htab Hndt Hroom.
  pose proof (store_lanes_ok d sps table n Hok Hnd Hsrc Htab) as Hlanes.
  destruct (write_rows_wrote d _ _ _ _ Hlanes Hndt Hroom) as (d' & Hw & Hwrote).
  exists d'. split_and!; [done | by eapply wrote_live | by eapply wrote_length | | |].
  - intros sp i Hsp Hi. apply (row_at_written d d' _ _ _ _ {| lane_src := sp.1; lane_dst := dst sp.2 |} i Hlanes); try done.
    apply elem_of_lanes_of. eauto.
  - intros p table' pos Hcase.
    destruct (decide (table' = table ∧ pos < start)) as [[-> Hpos]|Hno].
    + unfold row_at. destruct (table !! (pos `div` 16)) as [b|] eqn:Hb; [| done].
      destruct (dst p b) as [t| |] eqn:Ht; [| done..]. apply (wrote_miss _ _ _ Hwrote).
      { by destruct (so_valid d Hok p b t Ht) as [[? _] _]. }
      intros s i (l & (sp & Hsp & ->)%elem_of_lanes_of & _ & _ & b' & t' & Hb' & Ht' & Hid & Hoff). simpl in Ht'.
      destruct (so_inj d Hok _ _ _ _ _ _ Ht Ht' Hid) as [_ <-]. pose proof (NoDup_lookup _ _ _ _ Hndt Hb Hb').
      pose proof (Nat.div_mod_eq pos 16). pose proof (Nat.div_mod_eq (start + i) 16). lia.
    + unfold row_at. destruct (table' !! (pos `div` 16)) as [b|] eqn:Hb; [| done].
      destruct (dst p b) as [t| |] eqn:Ht; [| done..]. eapply rows_untouched; [exact Hwrote | |].
      { by destruct (so_valid d Hok p b t Ht) as [[? _] _]. }
      intros l b' t' (sp & Hsp & ->)%elem_of_lanes_of Hb' Ht' Hid. simpl in Ht'.
      destruct (so_inj d Hok _ _ _ _ _ _ Ht Ht' Hid) as [-> <-].
      destruct Hcase as [Hout|[Hp|?]]; [| | done].
      * by apply (Hout b (list_elem_of_lookup_2 _ _ _ Hb)).
      * apply Hp. apply list_elem_of_fmap. eauto.
  - intros id Hid Hout. apply list_eq. intros off. eapply rows_untouched; [exact Hwrote | done |].
    intros l b t (sp & Hsp & ->)%elem_of_lanes_of _ Ht. by eapply Hout.
Qed.
End store.
