(* ===== verification/PagedCache.v ===== *)
(** * The paged KV cache ([crates/fracture-engine/src/paged_kv_cache.rs])

    [BlockPool] pre-allocates the K and V tensors of every block and layer on
    the device; [PagedKvCacheManager] hands blocks to sequences and copies new
    keys and values into them.  Methods that take the backend run on the pair
    of the manager and the device. *)

From S2P Require Import Prelude Core Backend BlockTables BlockWrite.

Record BlockPool := {
  k_blocks : list (list DeviceTensor);
  v_blocks : list (list DeviceTensor);
  free_list : list nat;
  capacity : nat;
  pool_num_layers : nat;
  pool_num_kv_heads : Z;
  pool_head_dim : Z
}.

Definition bytes_per_block (p : BlockPool) : result Z :=
  bytes_of_block (Z.of_nat (pool_num_layers p)) (pool_num_kv_heads p) (pool_head_dim p).

Definition set_free_list (l : list nat) (p : BlockPool) : BlockPool :=
  {| k_blocks := k_blocks p; v_blocks := v_blocks p; free_list := l; capacity := capacity p;
     pool_num_layers := pool_num_layers p; pool_num_kv_heads := pool_num_kv_heads p;
     pool_head_dim := pool_head_dim p |}.

(** [free_list.pop().ok_or_else(OutOfMemory { requested: bytes_per_block() })] *)
Definition pool_oom (p : BlockPool) : result nat :=
  let? requested := bytes_per_block p in Err (OutOfMemory requested 0).

Definition alloc_block : st BlockPool nat := λ p,
  match free_list p with
  | b :: fl => (set_free_list fl p, Ok b)
  | [] => (p, pool_oom p)
  end.

Definition free_block (block_id : nat) : st BlockPool unit := λ p,
  if bool_decide (block_id < capacity p) then (set_free_list (block_id :: free_list p) p, Ok ())
  else (p, Panic).

Definition k_tensor (p : BlockPool) (block_id layer : nat) : result DeviceTensor :=
  let? b := index (k_blocks p) block_id in index b layer.
Definition v_tensor (p : BlockPool) (block_id layer : nat) : result DeviceTensor :=
  let? b := index (v_blocks p) block_id in index b layer.

#[export] Instance BlockPool_stack : BlockStack BlockPool := {|
  bs_free := free_list; bs_set_free := set_free_list; bs_capacity := capacity;
  bs_oom := pool_oom; bs_alloc_block := alloc_block; bs_free_block := free_block
|}.

#[export] Instance BlockPool_stack_laws : BlockStackLaws BlockPool.
Proof.
  split; simpl; try done.
  - by intros [].
  - intros p b. unfold pool_oom. by destruct (bytes_per_block p).
Qed.

(** [PagedKvCacheManager]: the block tables over a [BlockPool] *)
Notation PagedKvCacheManager := (CacheTables BlockPool).

Section ops.
Context {D : Type} `{BackendOps D}.

Definition pool_alloc_failed : FractureError := KvCache "block pool alloc failed".

(** The inner loop of [BlockPool::new]: the K and V tensors of one block's
    layers; on failure the tensors so far and the error. *)
Fixpoint alloc_layers (n : nat) (sh : list Z) (kl vl : list DeviceTensor) (d : D)
    : D * (list DeviceTensor * list DeviceTensor * result unit) :=
  match n with
  | 0 => (d, (kl, vl, Ok ()))
  | S n' =>
      match b_alloc sh FP16 d with
      | (d, Ok k) =>
          match b_alloc sh FP16 d with
          | (d, Ok v) => alloc_layers n' sh (kl ++ [k]) (vl ++ [v]) d
          | (d, Err _) => ((b_free k d).1, (kl, vl, Err pool_alloc_failed))
          | (d, Panic) => (d, (kl, vl, Panic))
          end
      | (d, Err _) => (d, (kl, vl, Err pool_alloc_failed))
      | (d, Panic) => (d, (kl, vl, Panic))
      end
  end.

(** The outer loop: a partial block is pushed as well. *)
Fixpoint alloc_blocks (n nl : nat) (sh : list Z) (kb vb : list (list DeviceTensor)) (d : D)
    : D * (list (list DeviceTensor) * list (list DeviceTensor) * result unit) :=
  match n with
  | 0 => (d, (kb, vb, Ok ()))
  | S n' =>
      match alloc_layers nl sh [] [] d with
      | (d, (kl, vl, Ok _)) => alloc_blocks n' nl sh (kb ++ [kl]) (vb ++ [vl]) d
      | (d, (kl, vl, r)) => (d, (kb ++ [kl], vb ++ [vl], r))
      end
  end.

(** [let _ = backend.free(t)] over a list *)
Definition free_ignoring (ts : list DeviceTensor) (d : D) : D :=
  foldl (λ d t, (b_free t d).1) d ts.

Definition block_shape (nkv hd : Z) : list Z := [Z.of_nat BLOCK_SIZE; nkv; hd].

(** [BlockPool::new] *)
Definition pool_new (num_blocks nl : nat) (nkv hd : Z) : st D BlockPool := λ d,
  match alloc_blocks num_blocks nl (block_shape nkv hd) [] [] d with
  | (d, (kb, vb, Ok _)) =>
      (d, Ok {| k_blocks := kb; v_blocks := vb; free_list := seq 0 num_blocks;
                capacity := num_blocks; pool_num_layers := nl;
                pool_num_kv_heads := nkv; pool_head_dim := hd |})
  | (d, (kb, vb, Err e)) =>
      (free_ignoring (concat vb) (free_ignoring (concat kb) d), Err e)
  | (d, (_, _, Panic)) => (d, Panic)
  end.

(** [backend.free(t)?] over a list; [BlockPool::destroy] *)
Fixpoint free_each (ts : list DeviceTensor) : st D unit :=
  match ts with
  | [] => sret ()
  | t :: ts' => do! _ := b_free t in free_each ts'
  end.
Definition pool_destroy (p : BlockPool) : st D unit :=
  do! _ := free_each (concat (k_blocks p)) in free_each (concat (v_blocks p)).

(** [PagedKvCacheManager::new] *)
Definition paged_new (num_blocks nl : nat) (nkv hd : Z) : st D PagedKvCacheManager :=
  do! p := pool_new num_blocks nl nkv hd in sret (tables_new p).

Definition paged_alloc : st PagedKvCacheManager Z := tables_alloc.
Definition paged_free (h : Z) : st PagedKvCacheManager unit := tables_free h.

(** The lanes of [append_kv]: keys into K blocks, then values into V blocks. *)
Definition kv_lanes (p : BlockPool) (layer : nat) (keys values : DeviceTensor) : list Lane :=
  [{| lane_src := keys; lane_dst := λ b, k_tensor p b layer |};
   {| lane_src := values; lane_dst := λ b, v_tensor p b layer |}].

(** [PagedKvCacheManager::append_kv] *)
Definition append_kv (h : Z) (layer : nat) (keys values : DeviceTensor)
    : st (PagedKvCacheManager * D) unit := λ '(m, d),
  match get_seq h m, index (shape keys) 0 with
  | Ok s, Ok n =>
      let num_new := Z.to_nat n in
      let '(m, r) := if bool_decide (layer = 0) then reserve h num_new m else (m, Ok s) in
      match r with
      | Ok s =>
          match nsub (current_len s) num_new with
          | Ok start_token =>
              let '(d, r) := write_rows (kv_lanes (pool m) layer keys values)
                               (block_table s) start_token num_new d in ((m, d), r)
          | _ => ((m, d), Panic)
          end
      | Err e => ((m, d), Err e)
      | Panic => ((m, d), Panic)
      end
  | Err e, _ => ((m, d), Err e)
  | _, _ => ((m, d), Panic)
  end.
End ops.

(** ** Creating and destroying the pool *)

Section pool.
Context {D : Type} `{BackendLaws D}.
Implicit Types d : D.

(** An allocated tensor of the given shape and type. *)
Definition has_shape (sh : list Z) (dt : DType) d (t : DeviceTensor) : Prop :=
  t_valid d t ∧ shape t = sh ∧ dtype t = dt.

Lemma has_shape_alloc sh dt d d' sh' dt' t ts :
  Forall (has_shape sh dt d) ts → b_alloc sh' dt' d = (d', Ok t) → Forall (has_shape sh dt d') ts.
Proof.
  intros Hts Ha. eapply Forall_impl; [exact Hts |]. intros u ([Hl Hr] & ? & ?).
  destruct (alloc_keeps_rows _ _ _ _ _ u Ha Hl) as [? Hu]. split; [| done]. split; [done | by rewrite Hu].
Qed.

Lemma has_shape_new d d' sh dt t : b_alloc sh dt d = (d', Ok t) → has_shape sh dt d' t.
Proof.
  intros (Hsh & Hdt & _ & Hlive & _ & Hlen)%b_alloc_Ok. split_and!; [| done | done].
  split; [unfold t_live; rewrite Hlive; set_solver |]. unfold nrows. by rewrite Hlen, Hsh.
Qed.

(** One block: all its tensors are accounted for, whatever happens. *)
Lemma alloc_layers_spec d0 n sh kl vl d rest d' kl' vl' r :
  alloced d0 d (kl ++ vl ++ rest) →
  alloc_layers n sh kl vl d = (d', (kl', vl', r)) →
  alloced d0 d' (kl' ++ vl' ++ rest) ∧ r ≠ Panic ∧
  (r = Ok () → length kl' = length kl + n ∧ length vl' = length vl + n ∧
     (Forall (has_shape sh FP16 d) (kl ++ vl ++ rest) → Forall (has_shape sh FP16 d') (kl' ++ vl' ++ rest))).
Proof.
  revert kl vl d. induction n as [|n IH]; intros kl vl d Hal; simpl.
  { intros [= <- <- <- <-]. split_and!; [done | done |]. intros _. split_and!; [lia | lia | done]. }
  destruct (b_alloc sh FP16 d) as [d1 [k|e|]] eqn:Ek.
  - pose proof (alloced_alloc _ _ _ _ _ _ _ Hal Ek) as Hal1.
    destruct (b_alloc sh FP16 d1) as [d2 [v|e|]] eqn:Ev.
    + pose proof (alloced_alloc _ _ _ _ _ _ _ Hal1 Ev) as Hal2.
      assert (v :: k :: kl ++ vl ++ rest ≡ₚ (kl ++ [k]) ++ (vl ++ [v]) ++ rest) as Hp by solve_Permutation.
      intros Hrec. destruct (IH (kl ++ [k]) (vl ++ [v]) d2) as (Hal' & Hr & Hok);
        [by eapply alloced_perm | done |]. split_and!; [done | done |]. intros Hr'.
      rewrite !length_app in Hok. simpl in Hok. destruct (Hok Hr') as (-> & -> & Hrows).
      split_and!; [lia | lia |]. intros Hall. apply Hrows. rewrite <- Hp.
      constructor; [by eapply has_shape_new |].
      eapply has_shape_alloc; [| done]. constructor; [by eapply has_shape_new |].
      by eapply has_shape_alloc.
    + intros [= <- <- <- <-]. apply (alloced_alloc_Err _ _ _ _ _ _ _ Hal1) in Ev.
      apply alloced_free in Ev as (d3 & -> & Hal3). by split_and!.
    + pose proof (b_alloc_no_panic sh FP16 d1) as Hnp. by rewrite Ev in Hnp.
  - intros [= <- <- <- <-]. apply (alloced_alloc_Err _ _ _ _ _ _ _ Hal) in Ek. by split_and!.
  - pose proof (b_alloc_no_panic sh FP16 d) as Hnp. by rewrite Ek in Hnp.
Qed.

Lemma alloc_blocks_spec d0 n nl sh kb vb d d' kb' vb' r :
  alloced d0 d (concat kb ++ concat vb) →
  alloc_blocks n nl sh kb vb d = (d', (kb', vb', r)) →
  alloced d0 d' (concat kb' ++ concat vb') ∧ r ≠ Panic ∧
  (r = Ok () → length kb' = length kb + n ∧ length vb' = length vb + n ∧
     (Forall (λ l, length l = nl) (kb ++ vb) → Forall (λ l, length l = nl) (kb' ++ vb')) ∧
     (Forall (has_shape sh FP16 d) (concat kb ++ concat vb) →
      Forall (has_shape sh FP16 d') (concat kb' ++ concat vb'))).
Proof.
  revert kb vb d. induction n as [|n IH]; intros kb vb d Hal; simpl.
  { intros [= <- <- <- <-]. split_and!; [done | done |]. intros _. split_and!; [lia | lia | done | done]. }
  destruct (alloc_layers nl sh [] [] d) as [d1 [[kl vl] r1]] eqn:El.
  destruct (alloc_layers_spec d0 nl sh [] [] d (concat kb ++ concat vb) d1 kl vl r1)
    as (Hal1 & Hnp & Hok1); [done | done |].
  assert (kl ++ vl ++ concat kb ++ concat vb ≡ₚ concat (kb ++ [kl]) ++ concat (vb ++ [vl])) as Hp.
  { rewrite !concat_app. simpl. solve_Permutation. }
  pose proof (alloced_perm _ _ _ _ Hp Hal1) as Hal1'.
  destruct r1 as [[]|e|]; [| | done].
  - intros Hrec. destruct (Hok1 eq_refl) as (Hkl & Hvl & Hrows1).
    destruct (IH (kb ++ [kl]) (vb ++ [vl]) d1) as (Hal' & Hr & Hok); [done | done |].
    split_and!; [done | done |]. intros Hr'. rewrite !length_app in Hok. simpl in Hok.
    destruct (Hok Hr') as (-> & -> & Hlens & Hrows). split_and!; [lia | lia | |].
    + intros Hall. apply Hlens. apply Forall_app in Hall as [? ?].
      rewrite !Forall_app. split_and!; [done | by forall_list | done | by forall_list].
    + intros Hall. apply Hrows. rewrite <- Hp. by apply Hrows1.
  - intros [= <- <- <- <-]. by split_and!.
Qed.

Lemma alloc_blocks_err n nl sh kb vb d :
  ∀ e, (alloc_blocks n nl sh kb vb d).2.2 = Err e → e = pool_alloc_failed.
Proof.
  assert (∀ m kl vl d e, (alloc_layers m sh kl vl d).2.2 = Err e → e = pool_alloc_failed) as Hlayers.
  { induction m as [|m IH]; intros kl vl d1 e; simpl; [done |].
    destruct (b_alloc sh FP16 d1) as [d2 [k|?|]]; [| by intros [= <-] | done].
    destruct (b_alloc sh FP16 d2) as [d3 [v|?|]]; [apply IH | by intros [= <-] | done]. }
  revert kb vb d. induction n as [|n IH]; intros kb vb d e; simpl; [done |].
  destruct (alloc_layers nl sh [] [] d) as [d1 [[kl vl] [[]|e1|]]] eqn:El; simpl; [apply IH | | done].
  intros [= <-]. apply (Hlayers nl [] [] d). by rewrite El.
Qed.

Lemma free_ignoring_spec d0 ts rest d :
  alloced d0 d (ts ++ rest) → alloced d0 (free_ignoring ts d) rest.
Proof.
  revert d. induction ts as [|t ts IH]; intros d Hal; simpl; [done |].
  apply alloced_free in Hal as (d1 & Hf & Hal1). unfold free_ignoring in *. simpl. rewrite Hf. by apply IH.
Qed.

Lemma free_each_spec d0 ts rest d :
  alloced d0 d (ts ++ rest) → ∃ d', free_each ts d = (d', Ok ()) ∧ alloced d0 d' rest.
Proof.
  revert d. induction ts as [|t ts IH]; intros d Hal; simpl; [by exists d |].
  apply alloced_free in Hal as (d1 & Hf & Hal1). unfold sbind. rewrite Hf. by apply IH.
Qed.

(** Freeing leaves the other tensors alone. *)
Lemma free_each_keeps d0 ts rest d d' :
  alloced d0 d (ts ++ rest) → free_each ts d = (d', Ok ()) → persist d d' rest.
Proof.
  revert d. induction ts as [|t ts IH]; intros d Hal; cbn [free_each]; [by intros [= <-] u |].
  assert (t_live d t) as Ht by (eapply alloced_t_live; [exact Hal | left]).
  destruct (b_free_Ok d t Ht) as (d1 & Hf & Hlive & Hsame).
  pose proof Hal as (d1' & Hf' & Hal1)%alloced_free. rewrite Hf in Hf'. injection Hf' as <-.
  unfold sbind. rewrite Hf. intros Hrest u Hu. destruct (IH d1 Hal1 Hrest u Hu) as [Hr Hl].
  assert (t_live d1 u) as Hu1 by (eapply alloced_t_live; [exact Hal1 | apply elem_of_app; by right]).
  split; [rewrite Hr; by apply Hsame | auto].
Qed.

(** The pool's tensors are on the device, are pairwise different and have the
    shape of a block; there are [capacity] blocks of [pool_num_layers] layers. *)
Record pool_ok d (p : BlockPool) : Prop := {
  po_nodup : NoDup (tensor_id <$> concat (k_blocks p) ++ concat (v_blocks p));
  po_shape : Forall (has_shape (block_shape (pool_num_kv_heads p) (pool_head_dim p)) FP16 d)
               (concat (k_blocks p) ++ concat (v_blocks p));
  po_k_len : length (k_blocks p) = capacity p;
  po_v_len : length (v_blocks p) = capacity p;
  po_layers : Forall (λ l, length l = pool_num_layers p) (k_blocks p ++ v_blocks p)
}.

Lemma pool_new_spec n nl nkv hd d d' r :
  pool_new n nl nkv hd d = (d', r) →
  (∃ p, r = Ok p ∧ pool_ok d' p ∧ alloced d d' (concat (k_blocks p) ++ concat (v_blocks p)) ∧
        capacity p = n ∧ pool_num_layers p = nl ∧ free_list p = seq 0 n) ∨
  (r = Err pool_alloc_failed ∧ alloced d d' []).
Proof.
  unfold pool_new. destruct (alloc_blocks _ _ _ _ _ d) as [d1 [[kb vb] r1]] eqn:Eb.
  pose proof (alloc_blocks_err n nl (block_shape nkv hd) [] [] d) as Herr. rewrite Eb in Herr.
  destruct (alloc_blocks_spec d _ _ _ [] [] _ _ _ _ _ (alloced_refl d) Eb) as (Hal & Hnp & Hok).
  destruct r1 as [[]|e|]; [| | done]; intros [= <- <-].
  - left. destruct (Hok eq_refl) as (Hk & Hv & Hlens & Hrows). eexists. split; [done |].
    split; [| done]. split; simpl; [apply Hal | by apply Hrows | done | done | by apply Hlens].
  - right. rewrite (Herr e eq_refl). split; [done |]. apply free_ignoring_spec.
    rewrite app_nil_r. by apply free_ignoring_spec.
Qed.
End pool.

(** ** Appending keys and values *)

Section append.
Context {D : Type} `{BackendLaws D}.
Implicit Types d : D.
Implicit Types p : BlockPool.

Definition pool_tensors p : list DeviceTensor := concat (k_blocks p) ++ concat (v_blocks p).

Lemma blocks_tensor (bs : list (list DeviceTensor)) b layer t :
  rbind (index bs b) (λ x, index x layer) = Ok t ↔ ∃ x, bs !! b = Some x ∧ x !! layer = Some t.
Proof. rewrite rbind_Ok. setoid_rewrite index_Ok. done. Qed.

Lemma blocks_in_range (bs : list (list DeviceTensor)) n nl b layer :
  length bs = n → Forall (λ l, length l = nl) bs → b < n → layer < nl →
  ∃ t, rbind (index bs b) (λ x, index x layer) = Ok t.
Proof.
  intros Hn Hnl Hb Hl. destruct (lookup_lt_is_Some_2 bs b) as [x Hx]; [lia |].
  rewrite Forall_forall in Hnl. pose proof (Hnl x (list_elem_of_lookup_2 _ _ _ Hx)).
  destruct (lookup_lt_is_Some_2 x layer) as [t Ht]; [lia |]. exists t. apply blocks_tensor. eauto.
Qed.

Lemma pool_ok_tensor d p b layer :
  pool_ok d p → b < capacity p → layer < pool_num_layers p →
  (∃ t, k_tensor p b layer = Ok t) ∧ (∃ t, v_tensor p b layer = Ok t).
Proof.
  intros [_ _ Hk Hv Hl] Hb Hlay. apply Forall_app in Hl as [Hlk Hlv].
  split; by eapply blocks_in_range.
Qed.

Lemma k_tensor_in p b layer t : k_tensor p b layer = Ok t → t ∈ concat (k_blocks p).
Proof. intros (x & Hx & Ht)%blocks_tensor. by eapply elem_of_concat_lookup. Qed.
Lemma v_tensor_in p b layer t : v_tensor p b layer = Ok t → t ∈ concat (v_blocks p).
Proof. intros (x & Hx & Ht)%blocks_tensor. by eapply elem_of_concat_lookup. Qed.

Lemma pool_ok_block d p t :
  pool_ok d p → t ∈ pool_tensors p → has_shape (block_shape (pool_num_kv_heads p) (pool_head_dim p)) FP16 d t.
Proof. intros Hok. pose proof (po_shape d p Hok) as Hr. rewrite Forall_forall in Hr. apply Hr. Qed.

(** ** The pool as a store *)

Inductive KV := KBlock | VBlock.

Definition kv_dst p (s : KV * nat) (b : nat) : result DeviceTensor :=
  match s.1 with KBlock => k_tensor p b s.2 | VBlock => v_tensor p b s.2 end.
Definition kv_slots p (s : KV * nat) : Prop := s.2 < pool_num_layers p.

Lemma kv_dst_in p s b t : kv_dst p s b = Ok t → t ∈ pool_tensors p.
Proof.
  unfold kv_dst, pool_tensors. rewrite elem_of_app. destruct s as [[|] l]; simpl;
    [left; by eapply k_tensor_in | right; by eapply v_tensor_in].
Qed.

Lemma pool_store d p : pool_ok d p → store_ok (kv_dst p) (kv_slots p) (capacity p) d.
Proof.
  intros Hok. split.
  - intros [[|] l] b Hs Hb; destruct (pool_ok_tensor d p b l Hok Hb Hs); done.
  - intros s b t Ht%kv_dst_in. destruct (pool_ok_block d p t Hok Ht) as (Hv & Hsh & _). split; [done |].
    destruct Hv as [_ ->]. unfold nrows. by rewrite Hsh.
  - destruct Hok as [Hnd _ _ _ _]. rewrite fmap_app in Hnd. apply NoDup_app in Hnd as (Hk & Hdis & Hv).
    intros [[|] l] [[|] l'] b b' t t' Ht Ht' Heq; unfold kv_dst in *; simpl in *.
    2: { exfalso. apply (Hdis (tensor_id t)); apply list_elem_of_fmap; eauto using k_tensor_in, v_tensor_in. }
    2: { exfalso. apply (Hdis (tensor_id t')); apply list_elem_of_fmap; eauto using k_tensor_in, v_tensor_in. }
    all: apply blocks_tensor in Ht as (x & Hx & Ht); apply blocks_tensor in Ht' as (x' & Hx' & Ht').
    + by destruct (concat_lookup_inj tensor_id _ _ _ _ _ _ _ _ _ Hk Hx Ht Hx' Ht' Heq) as [-> ->].
    + by destruct (concat_lookup_inj tensor_id _ _ _ _ _ _ _ _ _ Hv Hx Ht Hx' Ht' Heq) as [-> ->].
Qed.

(** A source tensor of [append_kv]: on the device, outside the pool, with one
    row per token, in the shape of the pool's rows. *)
Record kv_source d p (t : DeviceTensor) (n : nat) : Prop := {
  src_shape : shape t = [Z.of_nat n; pool_num_kv_heads p; pool_head_dim p];
  src_dtype : dtype t = FP16;
  src_valid : t_valid d t;
  src_outside : ∀ u, u ∈ pool_tensors p → tensor_id t ≠ tensor_id u
}.

Lemma kv_source_store d p t n s :
  pool_ok d p → kv_source d p t n → kv_slots p s → store_source (kv_dst p) (kv_slots p) d n t s.
Proof.
  intros Hok [Hsh Hdt Hv Hout] Hs. split; [done | done | | |].
  - destruct Hv as [_ ->]. unfold nrows. rewrite Hsh. simpl. lia.
  - intros b u Hu%kv_dst_in. destruct (pool_ok_block d p u Hok Hu) as (_ & Hush & Hudt).
    split; [by rewrite Hsh, Hush | congruence].
  - intros s' b u Hu%kv_dst_in. by apply Hout.
Qed.

(** ** The cache as a whole *)

Definition cache_ok d (m : PagedKvCacheManager) : Prop := tables_inv m ∧ pool_ok d (pool m).

(** The key and value rows of a sequence at a position, as the attention kernel
    reads them: through the block table. *)
Definition kv_at d (m : PagedKvCacheManager) (h : Z) (s : KV * nat) (pos : nat) : option Row :=
  match sequences m !! h with
  | Some sb => row_at d (kv_dst (pool m) s) (block_table sb) pos
  | None => None
  end.
Definition k_at d (m : PagedKvCacheManager) (h : Z) (layer pos : nat) : option Row := kv_at d m h (KBlock, layer) pos.
Definition v_at d (m : PagedKvCacheManager) (h : Z) (layer pos : nat) : option Row := kv_at d m h (VBlock, layer) pos.

(** [pos] of layer [layer] of sequence [h] holds the same rows in both states. *)
Definition same_kv d m d' m' (h : Z) (layer pos : nat) : Prop :=
  k_at d' m' h layer pos = k_at d m h layer pos ∧ v_at d' m' h layer pos = v_at d m h layer pos.

Lemma pool_ok_frame d d' p :
  (∀ id, id ∈ b_live d → id ∈ b_live d' ∧ length (b_rows d' id) = length (b_rows d id)) → pool_ok d p → pool_ok d' p.
Proof.
  intros Hf [Hnd Hr Hk Hv Hl]. split; [done | | done | done | done].
  eapply Forall_impl; [exact Hr |]. intros t ([Hlive Hlen] & Hsh). split; [| done].
  destruct (Hf _ Hlive). unfold t_valid, t_live, t_rows in *. split; [done | congruence].
Qed.

Lemma pool_ok_set_free d l p : pool_ok d p → pool_ok d (set_free_list l p).
Proof. by intros [? ? ? ? ?]. Qed.

Lemma append_write d m h s layer keys values n :
  cache_ok d m → sequences m !! h = Some s → layer < pool_num_layers (pool m) →
  kv_source d (pool m) keys n → kv_source d (pool m) values n → n ≤ current_len s →
  ∃ d', write_rows (kv_lanes (pool m) layer keys values) (block_table s) (current_len s - n) n d
          = (d', Ok ()) ∧ cache_ok d' m ∧
    (∀ i, i < n → k_at d' m h layer (current_len s - n + i) = t_rows d keys !! i ∧
                  v_at d' m h layer (current_len s - n + i) = t_rows d values !! i) ∧
    (∀ h' s' layer' pos, sequences m !! h' = Some s' →
       (h' = h → layer' = layer → pos < current_len s - n) → same_kv d m d' m h' layer' pos) ∧
    (∀ t k, kv_source d (pool m) t k → kv_source d' (pool m) t k ∧ t_rows d' t = t_rows d t) ∧
    b_live d' = b_live d ∧
    (∀ id, id ∈ b_live d → (∀ u, u ∈ pool_tensors (pool m) → id ≠ tensor_id u) → b_rows d' id = b_rows d id).
Proof.
  intros [Hinv Hok] Hs Hlayer Hk Hv Hn.
  destruct (store_write (kv_dst (pool m)) (kv_slots (pool m)) (capacity (pool m)) d
    [(keys, (KBlock, layer)); (values, (VBlock, layer))] (block_table s) (current_len s - n) n)
    as (d' & Hw & Hlive & Hlen & Hnew & Hkept & Hother).
  { by apply pool_store. }
  { decide_now || (repeat constructor; set_solver). }
  { forall_list; by apply kv_source_store. }
  { intros b Hb. change (b < bs_capacity (pool m)). by eapply inv_sub. }
  { by eapply inv_table_NoDup. }
  { destruct (inv_seqs m Hinv h s Hs) as (full & ? & ? & ?). lia. }
  assert (∀ t k, kv_source d (pool m) t k → t_rows d' t = t_rows d t) as Hsrc.
  { intros t k Ht. apply Hother; [by destruct Ht as [_ _ [? _] _] |].
    intros p b u Hu%kv_dst_in. by eapply src_outside. }
  exists d'. split_and!; [done | | | | | |].
  - split; [done |]. eapply pool_ok_frame; [| done]. intros id Hid. rewrite Hlive. auto.
  - intros i Hi. unfold k_at, v_at, kv_at. rewrite Hs.
    split; [apply (Hnew (keys, (KBlock, layer))) | apply (Hnew (values, (VBlock, layer)))]; set_solver.
  - intros h' s' layer' pos Hs' Hpos. unfold same_kv, k_at, v_at, kv_at. rewrite Hs'.
    split; apply Hkept; (destruct (decide (h' = h)) as [->|Hne];
      [| left; intros b Hb; by eapply (inv_disjoint m h' h s' s)]); right; simplify_eq;
      (destruct (decide (layer' = layer)) as [->|]; [right; auto | left; set_solver]).
  - intros t k Ht. split; [| by eapply Hsrc]. pose proof (Hsrc t k Ht) as Heq. destruct Ht as [? ? [Hl ?] ?].
    split; try done. unfold t_valid, t_live in *. by rewrite Hlive, Heq.
  - done.
  - intros id Hid Hout. apply Hother; [done |]. intros p b u Hu%kv_dst_in. by apply Hout.
Qed.

(** ** One forward pass: every layer appends its keys and values *)

Fixpoint append_layers (h : Z) (layer : nat) (kvs : list (DeviceTensor * DeviceTensor))
    : st (PagedKvCacheManager * D) unit :=
  match kvs with
  | [] => sret ()
  | (keys, values) :: kvs' =>
      do! _ := append_kv h layer keys values in append_layers h (S layer) kvs'
  end.

(** The positions [start ..] of the layers from [l] hold the rows of [kvs]. *)
Definition holds_rows d0 d m (h : Z) (l start n : nat) (kvs : list (DeviceTensor * DeviceTensor)) : Prop :=
  ∀ j keys values i, kvs !! j = Some (keys, values) → i < n →
    k_at d m h (l + j) (start + i) = t_rows d0 keys !! i ∧
    v_at d m h (l + j) (start + i) = t_rows d0 values !! i.

Lemma append_kv_upper d m h s layer keys values n :
  cache_ok d m → sequences m !! h = Some s → 0 < layer < pool_num_layers (pool m) →
  kv_source d (pool m) keys n → kv_source d (pool m) values n → n ≤ current_len s →
  ∃ d', append_kv h layer keys values (m, d) = ((m, d'), Ok ()) ∧
    write_rows (kv_lanes (pool m) layer keys values) (block_table s) (current_len s - n) n d = (d', Ok ()).
Proof.
  intros Hok Hs Hl Hk Hv Hn.
  destruct (append_write d m h s layer keys values n) as (d' & Hw & _); [done | done | lia | done.. |].
  exists d'. split; [| done]. unfold append_kv, get_seq. rewrite Hs, (src_shape _ _ _ _ Hk).
  cbn [index lookup list_lookup]. rewrite bool_decide_false by lia. rewrite Nat2Z.id, nsub_Ok by done. by rewrite Hw.
Qed.

Lemma append_layers_upper d m h s n l kvs :
  cache_ok d m → sequences m !! h = Some s → n ≤ current_len s →
  0 < l → l + length kvs ≤ pool_num_layers (pool m) →
  Forall (λ kv, kv_source d (pool m) kv.1 n ∧ kv_source d (pool m) kv.2 n) kvs →
  ∃ d', append_layers h l kvs (m, d) = ((m, d'), Ok ()) ∧ cache_ok d' m ∧
    holds_rows d d' m h l (current_len s - n) n kvs ∧
    (∀ h' s' layer pos, sequences m !! h' = Some s' →
       (h' = h → l ≤ layer → pos < current_len s - n) → same_kv d m d' m h' layer pos).
Proof.
  intros Hok Hs Hn. revert d l Hok. induction kvs as [|[keys values] kvs IH]; intros d l Hok Hl Hlen Hall.
  { exists d. split_and!; [done | done | | by split]. intros j ??? Hj. done. }
  apply Forall_cons in Hall as [[Hk Hv] Hall]. simpl in Hk, Hv, Hlen.
  destruct (append_write d m h s l keys values n) as (d1 & Hw & Hok1 & Hnew & Hkept & Hsrc & _);
    [done | done | lia | done.. |].
  destruct (append_kv_upper d m h s l keys values n) as (d1' & Happ & Hw'); [done | done | lia | done.. |].
  rewrite Hw in Hw'. injection Hw' as <-.
  destruct (IH d1 (S l)) as (d2 & Happ2 & Hok2 & Hnew2 & Hkept2); [done | lia | lia | |].
  { eapply Forall_impl; [exact Hall |]. intros [k v] [? ?]. split; by eapply Hsrc. }
  exists d2. split_and!; [| done | |].
  - cbn [append_layers]. unfold sbind. by rewrite Happ.
  - intros [|j] k v i Hj Hi.
    + injection Hj as <- <-. rewrite Nat.add_0_r. destruct (Hnew i Hi) as [<- <-].
      apply (Hkept2 h s l (current_len s - n + i)); [done | lia].
    + rewrite <- Nat.add_succ_comm. rewrite Forall_forall in Hall.
      destruct (Hall (k, v)) as [Hk' Hv']; [by eapply list_elem_of_lookup_2 |]. simpl in Hk', Hv'.
      rewrite <- (proj2 (Hsrc _ _ Hk')), <- (proj2 (Hsrc _ _ Hv')). by apply Hnew2.
  - intros h' s' layer pos Hs' Hpos.
    destruct (Hkept h' s' layer pos Hs') as [E1 E2]; [intros; apply Hpos; lia |].
    destruct (Hkept2 h' s' layer pos Hs') as [E3 E4]; [intros; apply Hpos; lia |].
    by split; [rewrite E3 | rewrite E4].
Qed.

(** Adding blocks to a table does not change what is read of its tokens. *)
Lemma reserve_same_kv d m h s s' l h' sh' layer pos :
  tables_inv m → sequences m !! h = Some s → sequences m !! h' = Some sh' → pos < current_len sh' →
  (∃ extra, block_table s' = block_table s ++ extra) →
  same_kv d m d {| pool := set_free_list l (pool m); sequences := <[h := s']> (sequences m);
                   next_id := next_id m |} h' layer pos.
Proof.
  intros Hinv Hs Hs' Hpos [extra Htab]. unfold same_kv, k_at, v_at, kv_at. simpl.
  destruct (decide (h' = h)) as [->|Hne]; [| by rewrite lookup_insert_ne].
  rewrite lookup_insert_eq, Hs. simplify_eq. unfold row_at. rewrite Htab.
  destruct (inv_seqs m Hinv h _ Hs) as (full & ? & ? & ?).
  rewrite lookup_app_l; [done |]. apply Nat.Div0.div_lt_upper_bound. lia.
Qed.

Lemma append_layers_spec d m h s n kvs :
  cache_ok d m → sequences m !! h = Some s →
  kvs ≠ [] → length kvs ≤ pool_num_layers (pool m) →
  Forall (λ kv, kv_source d (pool m) kv.1 n ∧ kv_source d (pool m) kv.2 n) kvs →
  blocks_needed n (last_block_fill s) ≤ num_free_blocks m →
  ∃ m' d' s', append_layers h 0 kvs (m, d) = ((m', d'), Ok ()) ∧ cache_ok d' m' ∧
    sequences m' = <[h := s']> (sequences m) ∧ current_len s' = current_len s + n ∧
    num_free_blocks m' = num_free_blocks m - blocks_needed n (last_block_fill s) ∧
    holds_rows d d' m' h 0 (current_len s) n kvs ∧
    (∀ h' sh' layer pos, sequences m !! h' = Some sh' → pos < current_len sh' →
       same_kv d m d' m' h' layer pos).
Proof.
  intros [Hinv Hok] Hs Hne Hlen Hall Hneed. destruct kvs as [|[keys values] kvs]; [done |].
  apply Forall_cons in Hall as [[Hk Hv] Hall]. simpl in Hk, Hv, Hlen.
  destruct (reserve_Ok m h s n Hinv Hs Hneed) as (s1 & Hres & Htab & Hlen1).
  pose proof (reserve_inv h n m Hinv) as Hinv1. rewrite Hres in Hinv1. simpl in Hinv1.
  set (m1 := {| pool := _ |}) in Hres, Hinv1.
  assert (cache_ok d m1) as Hok1 by (split; [done | by apply pool_ok_set_free]).
  assert (sequences m1 !! h = Some s1) as Hs1 by (apply lookup_insert_eq).
  assert (∀ t, kv_source d (pool m) t n → kv_source d (pool m1) t n) as Hsrc0 by (by intros t [? ? ? ?]).
  destruct (append_write d m1 h s1 0 keys values n) as (d1 & Hw & Hok2 & Hnew & Hkept & Hsrc & _);
    [done | done | simpl; lia | by apply Hsrc0 | by apply Hsrc0 | lia |].
  assert (append_kv h 0 keys values (m, d) = ((m1, d1), Ok ())) as Happ.
  { unfold append_kv, get_seq. rewrite Hs, (src_shape _ _ _ _ Hk). simpl. rewrite Nat2Z.id, Hres.
    simpl. rewrite nsub_Ok by lia. change (set_free_list _ _) with (pool m1). by rewrite Hw. }
  destruct (append_layers_upper d1 m1 h s1 n 1 kvs) as (d2 & Happ2 & Hok3 & Hnew2 & Hkept2);
    [done | done | lia | lia | simpl; lia | |].
  { eapply Forall_impl; [exact Hall |]. intros [k v] [? ?]. split; by eapply Hsrc, Hsrc0. }
  assert (current_len s1 - n = current_len s) as Hstart by lia. rewrite Hstart in *.
  exists m1, d2, s1. split_and!; try done.
  - cbn [append_layers]. unfold sbind. by rewrite Happ.
  - unfold m1. rewrite num_free_set, length_drop. done.
  - intros [|j] k v i Hj Hi.
    + injection Hj as <- <-. destruct (Hnew i Hi) as [<- <-].
      apply (Hkept2 h s1 0 (current_len s + i)); [done | lia].
    + rewrite Forall_forall in Hall.
      destruct (Hall (k, v)) as [Hk' Hv']; [by eapply list_elem_of_lookup_2 |]. simpl in Hk', Hv'.
      rewrite <- (proj2 (Hsrc _ _ (Hsrc0 _ Hk'))), <- (proj2 (Hsrc _ _ (Hsrc0 _ Hv'))).
      apply (Hnew2 j k v i Hj Hi).
  - intros h' sh' layer pos Hs' Hpos.
    destruct (reserve_same_kv d m h s s1 (drop (blocks_needed n (last_block_fill s)) (bs_free (pool m)))
                h' sh' layer pos) as [E1 E2]; eauto.
    assert (∃ sh1, sequences m1 !! h' = Some sh1 ∧ (h' = h → pos < current_len s)) as (sh1 & Hsh1 & Hp).
    { destruct (decide (h' = h)) as [->|]; [exists s1 | exists sh'].
      - split; [done |]. intros _. by simplify_eq.
      - simpl. by rewrite lookup_insert_ne. }
    destruct (Hkept h' sh1 layer pos Hsh1) as [E3 E4]; [intros ? _; by apply Hp |].
    destruct (Hkept2 h' sh1 layer pos Hsh1) as [E5 E6]; [intros ? _; by apply Hp |].
    split; [by rewrite E5, E3 | by rewrite E6, E4].
Qed.
End append.

(** ** Properties *)

(** The operations a client of the manager may call, in any order and with any
    arguments. *)
Inductive CacheOp :=
  | OpAlloc
  | OpAppend (h : Z) (layer : nat) (keys values : DeviceTensor)
  | OpFree (h : Z).

Section properties.
Context {D : Type} `{BackendLaws D}.
Implicit Types d : D.

Definition run_op (op : CacheOp) (md : PagedKvCacheManager * D) : PagedKvCacheManager * D :=
  match op with
  | OpAlloc => ((paged_alloc md.1).1, md.2)
  | OpAppend h layer keys values => (append_kv h layer keys values md).1
  | OpFree h => ((paged_free h md.1).1, md.2)
  end.
Definition run_ops (ops : list CacheOp) (md : PagedKvCacheManager * D) : PagedKvCacheManager * D :=
  foldl (λ md op, run_op op md) md ops.

Lemma append_kv_tables h layer keys values m d :
  (append_kv h layer keys values (m, d)).1.1 = m ∨
  ∃ n, (append_kv h layer keys values (m, d)).1.1 = (reserve h n m).1.
Proof.
  unfold append_kv. destruct (get_seq h m) as [s| |]; [| by left..].
  destruct (index (shape keys) 0) as [n| |]; [| by left..].
  destruct (bool_decide (layer = 0)).
  - right. exists (Z.to_nat n). destruct (reserve h (Z.to_nat n) m) as [m1 [s1| |]]; [| done..].
    destruct (nsub _ _); [| done..]. by destruct (write_rows _ _ _ _ _).
  - left. destruct (nsub _ _); [| done..]. by destruct (write_rows _ _ _ _ _).
Qed.

Lemma run_op_inv op m d :
  tables_inv m → tables_inv (run_op op (m, d)).1 ∧ capacity (pool (run_op op (m, d)).1) = capacity (pool m).
Proof.
  intros Hinv. destruct op as [|h layer keys values|h]; cbn [run_op fst snd].
  - split; [by apply tables_alloc_inv | exact (pool_moved_capacity _ _ (tables_alloc_pool m))].
  - destruct (append_kv_tables h layer keys values m d) as [->|[n ->]]; [done |].
    split; [by apply reserve_inv | exact (pool_moved_capacity _ _ (reserve_pool h n m Hinv))].
  - split; [by apply tables_free_inv | exact (pool_moved_capacity _ _ (tables_free_pool h m))].
Qed.

Lemma run_ops_inv ops m d :
  tables_inv m → tables_inv (run_ops ops (m, d)).1 ∧ capacity (pool (run_ops ops (m, d)).1) = capacity (pool m).
Proof.
  revert m d. induction ops as [|op ops IH]; intros m d Hinv; [done |].
  unfold run_ops in *. simpl. destruct (run_op op (m, d)) as [m1 d1] eqn:E.
  destruct (run_op_inv op m d Hinv) as [Hinv1 Hcap]. rewrite E in Hinv1, Hcap. simpl in *.
  rewrite <- Hcap. by apply IH.
Qed.

Lemma paged_new_inv n nl nkv hd d d' m :
  paged_new n nl nkv hd d = (d', Ok m) →
  cache_ok d' m ∧ sequences m = ∅ ∧ capacity (pool m) = n ∧ pool_num_layers (pool m) = nl ∧
  alloced d d' (pool_tensors (pool m)).
Proof.
  unfold paged_new. intros (d1 & p & Hp & [= <- <-])%sbind_Ok.
  apply pool_new_spec in Hp as [(p' & [= <-] & Hok & Hal & Hcap & Hnl & Hfree)|[? _]]; [| done].
  split_and!; [| done | done | done | done]. split; [| done]. apply tables_new_inv. simpl.
  by rewrite Hfree, Hcap.
Qed.

(** C2: whatever operations run on a new paged cache, with whatever
    arguments and results (errors included), the physical blocks [0 .. n) are
    partitioned between the free list and the block tables: none is lost,
    none is in two tables or twice in one, and none is both free and in use. *)
Theorem block_ownership n nl nkv hd d d' m ops :
  paged_new n nl nkv hd d = (d', Ok m) →
  let m' := (run_ops ops (m, d')).1 in
  owned (sequences m') ++ free_list (pool m') ≡ₚ seq 0 n.
Proof.
  intros ([Hinv _] & _ & Hcap & _)%paged_new_inv m'.
  destruct (run_ops_inv ops m d' Hinv) as [Hinv' Hcap'].
  pose proof (inv_partition _ Hinv') as Hp. simpl in Hp. by rewrite Hcap', Hcap in Hp.
Qed.

(** C1: a forward pass that appends [n] rows of keys and values per layer,
    layer by layer, to a sequence for which enough blocks are free succeeds
    and implements appending to a list: at every layer the new positions hold
    the given rows, every position that was stored before (of this and of
    every other sequence, at every layer) reads as before, the length grows
    by [n], exactly the blocks needed are taken, and the cache stays
    well-formed. *)
Theorem append_layers_refines d m h s n kvs :
  cache_ok d m → sequences m !! h = Some s →
  kvs ≠ [] → length kvs ≤ pool_num_layers (pool m) →
  Forall (λ kv, kv_source d (pool m) kv.1 n ∧ kv_source d (pool m) kv.2 n) kvs →
  blocks_needed n (last_block_fill s) ≤ num_free_blocks m →
  ∃ m' d', append_layers h 0 kvs (m, d) = ((m', d'), Ok ()) ∧ cache_ok d' m' ∧
    tables_seq_len h m' = Ok (current_len s + n) ∧
    num_free_blocks m' = num_free_blocks m - blocks_needed n (last_block_fill s) ∧
    holds_rows d d' m' h 0 (current_len s) n kvs ∧
    (∀ h' sh' layer pos, sequences m !! h' = Some sh' → pos < current_len sh' →
       same_kv d m d' m' h' layer pos).
Proof.
  intros. destruct (append_layers_spec d m h s n kvs)
    as (m' & d' & s' & ? & ? & Hs' & Hlen & ? & ? & ?); [done.. |].
  exists m', d'. split_and!; try done. unfold tables_seq_len, get_seq. rewrite Hs', lookup_insert_eq.
  simpl. by rewrite Hlen.
Qed.

(** Appending when the pool has too few blocks fails with OutOfMemory
    and does not change the sequence's length nor the device, but leaves the
    pool empty: all the blocks that were free are now in the failing
    sequence's table, until it is freed. *)
Theorem append_kv_oom d m h s n keys values bytes :
  cache_ok d m → sequences m !! h = Some s → index (shape keys) 0 = Ok (Z.of_nat n) →
  num_free_blocks m < blocks_needed n (last_block_fill s) → bytes_per_block (pool m) = Ok bytes →
  ∃ m', append_kv h 0 keys values (m, d) = ((m', d), Err (OutOfMemory bytes 0)) ∧
    num_free_blocks m' = 0 ∧ tables_seq_len h m' = Ok (current_len s) ∧
    tables_block_table h m' = Ok (block_table s ++ free_list (pool m)) ∧
    num_free_blocks (paged_free h m').1 = length (block_table s) + num_free_blocks m.
Proof.
  intros [Hinv Hok] Hs Hsh Hneed Hbytes.
  assert (bs_oom (pool m) = Err (OutOfMemory bytes 0)) as Hoom.
  { simpl. unfold pool_oom. by rewrite Hbytes. }
  pose proof (reserve_Err m h s n _ Hinv Hs Hneed Hoom) as Hres.
  pose proof (reserve_inv h n m Hinv) as Hinv'. rewrite Hres in Hinv'. simpl in Hinv'.
  eexists. split.
  { unfold append_kv, get_seq. rewrite Hs, Hsh. simpl. by rewrite Nat2Z.id, Hres. }
  split_and!; [done | | |].
  1,2: unfold tables_seq_len, tables_block_table, get_seq; simpl; by rewrite lookup_insert_eq.
  unfold paged_free. erewrite tables_free_spec; [| done | apply lookup_insert_eq].
  simpl. rewrite app_nil_r. unfold num_free_blocks. simpl. by rewrite length_reverse, length_app.
Qed.

(** Creating a pool never panics; either it returns a pool all of whose
    tensors are newly allocated, pairwise different and of 16 rows, with all
    blocks free, and destroying it gives everything back, or it returns an
    error and the device is as before: no allocation of a failed attempt is
    left behind. *)
Theorem pool_new_no_leak n nl nkv hd d :
  let '(d', r) := pool_new n nl nkv hd d in
  (∃ p, r = Ok p ∧ pool_ok d' p ∧ free_list p = seq 0 n ∧ capacity p = n ∧
     ∃ d'', pool_destroy p d' = (d'', Ok ()) ∧ b_live d'' = b_live d ∧ same_rows (b_live d) d d'') ∨
  (r = Err pool_alloc_failed ∧ b_live d' = b_live d ∧ same_rows (b_live d) d d').
Proof.
  destruct (pool_new n nl nkv hd d) as [d' r] eqn:E.
  apply pool_new_spec in E as [(p & -> & Hok & Hal & Hcap & _ & Hfree)|[-> Hal]].
  - left. exists p. split_and!; try done.
    destruct (free_each_spec _ _ _ _ Hal) as (d1 & H1 & Hal1).
    destruct (free_each_spec d (concat (v_blocks p)) [] d1) as (d2 & H2 & Hal2); [by rewrite app_nil_r |].
    exists d2. unfold pool_destroy, sbind. rewrite H1. split; [done | by apply alloced_nil].
  - right. split; [done | by apply alloced_nil].
Qed.
End properties.

(** ** Handles: what allocating and freeing a sequence does to the tables *)

Lemma paged_alloc_Ok (cache cache' : PagedKvCacheManager) h :
  tables_inv cache → paged_alloc cache = (cache', Ok h) →
  tables_inv cache' ∧ sequences cache !! h = None ∧
  ∃ s, sequences cache' = <[h := s]> (sequences cache).
Proof.
  intros Hinv Ha. split; [pose proof (tables_alloc_inv cache Hinv) as Hi; unfold paged_alloc in Ha; by rewrite Ha in Hi |].
  unfold paged_alloc, tables_alloc in Ha. destruct (uadd _ _); [| done..].
  destruct (bs_alloc_block _) as [p [b|e|]]; simplify_eq/=. split; [| eauto].
  destruct (sequences cache !! next_id cache) as [s|] eqn:E; [| done].
  apply (inv_ids cache Hinv) in E. lia.
Qed.

Lemma paged_alloc_fail (cache cache' : PagedKvCacheManager) r :
  tables_inv cache → paged_alloc cache = (cache', r) → (∀ h, r ≠ Ok h) →
  tables_inv cache' ∧ sequences cache' = sequences cache.
Proof.
  intros Hinv Ha Hr. split; [pose proof (tables_alloc_inv cache Hinv) as Hi; unfold paged_alloc in Ha; by rewrite Ha in Hi |].
  unfold paged_alloc, tables_alloc in Ha. destruct (uadd _ _); [| by simplify_eq..].
  destruct (bs_alloc_block _) as [p [b|e|]]; simplify_eq/=; [by destruct (Hr (next_id cache)) | done | done].
Qed.

Lemma paged_alloc_capacity (c : PagedKvCacheManager) : capacity (pool (paged_alloc c).1) = capacity (pool c).
Proof. exact (pool_moved_capacity _ _ (tables_alloc_pool c)). Qed.

Lemma paged_free_capacity h (c : PagedKvCacheManager) : capacity (pool (paged_free h c).1) = capacity (pool c).
Proof. exact (pool_moved_capacity _ _ (tables_free_pool h c)). Qed.

Module PagedWitness.
Definition keys : DeviceTensor := {| tensor_id := 1; shape := [20; 2; 4]%Z; dtype := FP16 |}.
Definition vals : DeviceTensor := {| tensor_id := 2; shape := [20; 2; 4]%Z; dtype := FP16 |}.
Definition big : DeviceTensor := {| tensor_id := 3; shape := [99; 2; 4]%Z; dtype := FP16 |}.
Definition d0 : SimDevice :=
  {| sim_mem := {[1%Z := (λ i, [Z.of_nat i]) <$> seq 100 20; 2%Z := (λ i, [Z.of_nat i]) <$> seq 200 20]};
     sim_room := 100 |}.
Definition created := paged_new 3 2 2 4 d0.
Definition no_pool : BlockPool :=
  {| k_blocks := []; v_blocks := []; free_list := []; capacity := 0; pool_num_layers := 0;
     pool_num_kv_heads := 0; pool_head_dim := 0 |}.
Definition d1 : SimDevice := created.1.
Definition m0 : PagedKvCacheManager :=
  match created.2 with Ok m => m | _ => tables_new no_pool end.
(** One sequence, handle 0. *)
Definition m1 : PagedKvCacheManager := (paged_alloc m0).1.
Definition s1 : SequenceBlocks := {| block_table := [0]; last_block_fill := 0; current_len := 0 |}.

Lemma created_Ok : paged_new 3 2 2 4 d0 = (d1, Ok m0).
Proof. by vm_compute. Qed.

Lemma m1_ok : cache_ok d1 m1.
Proof.
  destruct (paged_new_inv 3 2 2 4 d0 d1 m0 created_Ok) as ([Hinv Hp] & _).
  split; [by apply tables_alloc_inv |].
  assert (pool m1 = set_free_list [1; 2] (pool m0)) as -> by (by vm_compute).
  by apply pool_ok_set_free.
Qed.

Lemma source_ok t : t = keys ∨ t = vals → kv_source d1 (pool m1) t 20.
Proof.
  intros Ht.
  assert (Forall (λ u, tensor_id u ≠ 1%Z ∧ tensor_id u ≠ 2%Z) (pool_tensors (pool m1))) as Hout by decide_now.
  rewrite Forall_forall in Hout.
  destruct Ht as [->| ->]; split; try (by vm_compute); try (by apply elem_of_dom; vm_compute; eauto);
    intros u [? ?]%Hout; simpl; congruence.
Qed.

Lemma block_ownership_witness :
  let m' := (run_ops [OpAlloc; OpAppend 0 0 keys vals; OpFree 7; OpAlloc; OpFree 0] (m0, d1)).1 in
  owned (sequences m') ++ free_list (pool m') ≡ₚ seq 0 3.
Proof. exact (block_ownership 3 2 2 4 d0 d1 m0 _ created_Ok). Defined.

Lemma append_layers_witness :
  ∃ m' d', append_layers 0 0 [(keys, vals); (vals, keys)] (m1, d1) = ((m', d'), Ok ()) ∧ cache_ok d' m' ∧
    tables_seq_len 0 m' = Ok 20 ∧ num_free_blocks m' = 1 ∧
    holds_rows d1 d' m' 0 0 0 20 [(keys, vals); (vals, keys)] ∧
    (∀ h' sh' layer pos, sequences m1 !! h' = Some sh' → pos < current_len sh' →
       same_kv d1 m1 d' m' h' layer pos).
Proof.
  apply (append_layers_refines d1 m1 0 s1 20 [(keys, vals); (vals, keys)]);
    [exact m1_ok | by vm_compute | done | vm_compute; lia | | vm_compute; lia].
  forall_list; split; apply source_ok; auto.
Defined.

Lemma pool_new_witness :
  let '(d', r) := pool_new 3 2 2 4 d0 in
  (∃ p, r = Ok p ∧ pool_ok d' p ∧ free_list p = seq 0 3 ∧ capacity p = 3 ∧
     ∃ d'', pool_destroy p d' = (d'', Ok ()) ∧ b_live d'' = b_live d0 ∧ same_rows (b_live d0) d0 d'') ∨
  (r = Err pool_alloc_failed ∧ b_live d' = b_live d0 ∧ same_rows (b_live d0) d0 d').
Proof. exact (pool_new_no_leak 3 2 2 4 d0). Defined.

Lemma append_kv_oom_witness :
  ∃ m', append_kv 0 0 big big (m1, d1) = ((m', d1), Err (OutOfMemory 1024 0)) ∧
    num_free_blocks m' = 0 ∧ tables_seq_len 0 m' = Ok 0 ∧ tables_block_table 0 m' = Ok [0; 1; 2] ∧
    num_free_blocks (paged_free 0 m').1 = 3.
Proof.
  apply (append_kv_oom d1 m1 0 s1 99 big big 1024);
    [exact m1_ok | by vm_compute | done | vm_compute; lia | by vm_compute].
Defined.
End PagedWitness.
