(* ===== verification/QuantizedCache.v ===== *)
(** * The quantized paged KV cache
      ([crates/fracture-engine/src/quantized_paged_kv_cache.rs])

    Blocks hold bit-packed indices and norms instead of the keys and values.
    The block tables are those of the paged cache ([BlockTables]); new keys and
    values are compressed on the device into scratch tensors, whose rows are
    then copied into the blocks like those of the paged cache, in four lanes. *)

From S2P Require Import Prelude F32 Core Backend TurboQuant BlockTables BlockWrite PagedCache.

Record QuantizedBlockTensors := { packed_indices : DeviceTensor; norms : DeviceTensor }.

Record QuantizedBlockPool := {
  qk_blocks : list (list QuantizedBlockTensors);
  qv_blocks : list (list QuantizedBlockTensors);
  q_free_list : list nat;
  q_capacity : nat;
  q_num_layers : nat;
  q_num_kv_heads : Z;
  q_head_dim : Z;
  layer_key_bits : list Z;
  layer_value_bits : list Z;
  k_rotation_matrices : list DeviceTensor;
  v_rotation_matrices : list DeviceTensor;
  centroid_tables : gmap Z DeviceTensor
}.

Definition q_set_free (l : list nat) (p : QuantizedBlockPool) : QuantizedBlockPool :=
  {| qk_blocks := qk_blocks p; qv_blocks := qv_blocks p; q_free_list := l; q_capacity := q_capacity p;
     q_num_layers := q_num_layers p; q_num_kv_heads := q_num_kv_heads p; q_head_dim := q_head_dim p;
     layer_key_bits := layer_key_bits p; layer_value_bits := layer_value_bits p;
     k_rotation_matrices := k_rotation_matrices p; v_rotation_matrices := v_rotation_matrices p;
     centroid_tables := centroid_tables p |}.

(** [bytes_per_block] *)
Definition q_bytes_per_block (p : QuantizedBlockPool) : result Z :=
  usum ((λ l, let? kb := index (layer_key_bits p) l in
              let? vb := index (layer_value_bits p) l in
              bytes_per_block_layer (q_num_kv_heads p) (q_head_dim p) kb vb) <$> seq 0 (q_num_layers p)).

Definition q_oom (p : QuantizedBlockPool) : result nat :=
  let? requested := q_bytes_per_block p in Err (OutOfMemory requested 0).

Definition q_alloc_block : st QuantizedBlockPool nat := λ p,
  match q_free_list p with
  | b :: fl => (q_set_free fl p, Ok b)
  | [] => (p, q_oom p)
  end.

Definition q_free_block (block_id : nat) : st QuantizedBlockPool unit := λ p,
  if bool_decide (block_id < q_capacity p) then (q_set_free (block_id :: q_free_list p) p, Ok ()) else (p, Panic).

#[export] Instance QuantizedBlockPool_stack : BlockStack QuantizedBlockPool := {|
  bs_free := q_free_list; bs_set_free := q_set_free; bs_capacity := q_capacity;
  bs_oom := q_oom; bs_alloc_block := q_alloc_block; bs_free_block := q_free_block
|}.

#[export] Instance QuantizedBlockPool_stack_laws : BlockStackLaws QuantizedBlockPool.
Proof.
  split; simpl; try done.
  - by intros [].
  - intros p b. unfold q_oom. by destruct (q_bytes_per_block p).
Qed.

(** [k_packed], [k_norms], [v_packed], [v_norms] *)
Inductive Part := KPacked | KNorms | VPacked | VNorms.

Definition q_tensor (p : QuantizedBlockPool) (part : Part) (block_id layer : nat) : result DeviceTensor :=
  let? b := index (match part with KPacked | KNorms => qk_blocks p | _ => qv_blocks p end) block_id in
  let? t := index b layer in
  Ok (match part with KPacked | VPacked => packed_indices t | _ => norms t end).

(** [k_rotation], [v_rotation], [centroids], [key_bits_for_layer], [value_bits_for_layer] *)
Definition k_rotation (p : QuantizedBlockPool) (layer : nat) : result DeviceTensor := index (k_rotation_matrices p) layer.
Definition v_rotation (p : QuantizedBlockPool) (layer : nat) : result DeviceTensor := index (v_rotation_matrices p) layer.
Definition q_centroids (p : QuantizedBlockPool) (bits : Z) : result DeviceTensor :=
  match centroid_tables p !! bits with Some t => Ok t | None => Panic end.
Definition q_key_bits (p : QuantizedBlockPool) (layer : nat) : result Z := index (layer_key_bits p) layer.
Definition q_value_bits (p : QuantizedBlockPool) (layer : nat) : result Z := index (layer_value_bits p) layer.

Record CompressScratch := {
  sc_k_packed : DeviceTensor; sc_k_norms : DeviceTensor; sc_v_packed : DeviceTensor; sc_v_norms : DeviceTensor
}.

Record QuantizedKvCacheManager := {
  q_tables : CacheTables QuantizedBlockPool;
  q_config : TurboQuantConfig;
  scratch : CompressScratch
}.

(** The methods that only touch the tables. *)
Definition on_tables {A : Type} (m : st (CacheTables QuantizedBlockPool) A) : st QuantizedKvCacheManager A := λ c,
  let '(t, r) := m (q_tables c) in ({| q_tables := t; q_config := q_config c; scratch := scratch c |}, r).
Definition q_alloc : st QuantizedKvCacheManager Z := on_tables tables_alloc.
Definition q_free (h : Z) : st QuantizedKvCacheManager unit := on_tables (tables_free h).

Section ops.
Context {D : Type} `{BackendOps D}.
Variable exp ln cos sin : f64 → f64.

(** ** [QuantizedBlockPool::new] *)

(** One tensor pair of a block's layer. *)
Definition alloc_pair (nkv packed_dim : Z) : st D QuantizedBlockTensors :=
  do! packed := smap_err (KvCache "quantized block pool alloc failed")
                  (b_alloc [Z.of_nat BLOCK_SIZE; packed_dim] INT8) in
  do! nrm := smap_err (KvCache "quantized block pool norms alloc failed")
               (b_alloc [Z.of_nat BLOCK_SIZE; nkv] FP16) in
  sret {| packed_indices := packed; norms := nrm |}.

Definition packed_dim (nkv hd bits : Z) : result Z := Ok nkv *! packed_dim_per_head hd bits.

Definition alloc_layer (nkv hd : Z) (kvb : Z * Z) : st D (QuantizedBlockTensors * QuantizedBlockTensors) :=
  do! k_packed_dim := slift (packed_dim nkv hd kvb.1) in
  do! v_packed_dim := slift (packed_dim nkv hd kvb.2) in
  do! k := alloc_pair nkv k_packed_dim in
  do! v := alloc_pair nkv v_packed_dim in
  sret (k, v).

Definition matrix_bytes (m : list f32) : list Z := mjoin ((λ f, to_le_bytes 4 (f32_to_bits f)) <$> m).

(** The rotation matrices of one layer. *)
Definition upload_rotation (hd seed : Z) : st D DeviceTensor :=
  do! host := slift (generate_rotation_matrix ln cos sin (Z.to_nat hd) seed) in
  alloc_fill [hd; hd] FP32 (matrix_bytes host).
Definition upload_rotations (hd base_seed : Z) (layer : nat) : st D (DeviceTensor * DeviceTensor) :=
  do! seeds := slift (rotation_seeds base_seed (Z.of_nat layer)) in
  do! k := upload_rotation hd seeds.1 in
  do! v := upload_rotation hd seeds.2 in
  sret (k, v).

Definition upload_codebook (bcb : Z * LloydMaxCodebook) : st D (Z * DeviceTensor) :=
  do! n := slift (n_levels bcb.2) in
  do! t := alloc_fill [Z.of_nat n] FP32 (matrix_bytes (centroids bcb.2)) in
  sret (bcb.1, t).

Definition bits_of_layers (c : TurboQuantConfig) (nl : nat) : list (Z * Z) :=
  (λ l, (key_bits_for_layer c (Z.of_nat l) (Z.of_nat nl), value_bits_for_layer c (Z.of_nat l) (Z.of_nat nl))) <$> seq 0 nl.

Definition qpool_new (ho : HashOrder) (num_blocks nl : nat) (nkv hd : Z) (c : TurboQuantConfig) : st D QuantizedBlockPool :=
  let bits := bits_of_layers c nl in
  do! blocks := smapM (λ _ : nat, smapM (alloc_layer nkv hd) bits) (seq 0 num_blocks) in
  do! rots := smapM (upload_rotations hd (tq_seed c)) (seq 0 nl) in
  do! codebooks := slift (compute_codebook_tables exp c (Z.to_nat hd)) in
  do! tables := smapM upload_codebook (hm_iter ho codebooks) in
  sret {| qk_blocks := (λ ls, ls.*1) <$> blocks; qv_blocks := (λ ls, ls.*2) <$> blocks;
          q_free_list := seq 0 num_blocks; q_capacity := num_blocks; q_num_layers := nl; q_num_kv_heads := nkv;
          q_head_dim := hd; layer_key_bits := bits.*1; layer_value_bits := bits.*2;
          k_rotation_matrices := rots.*1; v_rotation_matrices := rots.*2;
          centroid_tables := foldl (λ m bt, <[bt.1 := bt.2]> m) ∅ tables |}.

(** [QuantizedKvCacheManager::new] *)
Fixpoint max_dim (l : list Z) : Z := match l with [] => 0 | x :: l' => Z.max x (max_dim l') end.

Definition q_new (ho : HashOrder) (num_blocks nl : nat) (nkv hd max_compress_tokens : Z) (c : TurboQuantConfig)
    : st D QuantizedKvCacheManager :=
  do! p := qpool_new ho num_blocks nl nkv hd c in
  do! kd := slift (rmapM (packed_dim nkv hd) (bits_of_layers c nl).*1) in
  do! vd := slift (rmapM (packed_dim nkv hd) (bits_of_layers c nl).*2) in
  do! kp := b_alloc [max_compress_tokens; max_dim kd] INT8 in
  do! kn := b_alloc [max_compress_tokens; nkv] FP16 in
  do! vp := b_alloc [max_compress_tokens; max_dim vd] INT8 in
  do! vn := b_alloc [max_compress_tokens; nkv] FP16 in
  sret {| q_tables := tables_new p; q_config := c;
          scratch := {| sc_k_packed := kp; sc_k_norms := kn; sc_v_packed := vp; sc_v_norms := vn |} |}.

(** ** Appending *)

Definition q_lanes (p : QuantizedBlockPool) (sc : CompressScratch) (layer : nat) : list Lane :=
  [{| lane_src := sc_k_packed sc; lane_dst := λ b, q_tensor p KPacked b layer |};
   {| lane_src := sc_k_norms sc; lane_dst := λ b, q_tensor p KNorms b layer |};
   {| lane_src := sc_v_packed sc; lane_dst := λ b, q_tensor p VPacked b layer |};
   {| lane_src := sc_v_norms sc; lane_dst := λ b, q_tensor p VNorms b layer |}].

(** The two compressions at the start of [append_kv]. *)
Definition compress_kv (p : QuantizedBlockPool) (sc : CompressScratch) (layer : nat) (keys values : DeviceTensor)
    : st D unit :=
  do! kb := slift (q_key_bits p layer) in
  do! vb := slift (q_value_bits p layer) in
  do! k_rot := slift (k_rotation p layer) in
  do! k_cent := slift (q_centroids p kb) in
  do! _ := b_turboquant_compress keys k_rot k_cent kb (sc_k_packed sc) (sc_k_norms sc) in
  do! v_rot := slift (v_rotation p layer) in
  do! v_cent := slift (q_centroids p vb) in
  b_turboquant_compress values v_rot v_cent vb (sc_v_packed sc) (sc_v_norms sc).

(** [QuantizedKvCacheManager::append_kv] *)
Definition q_append_kv (h : Z) (layer : nat) (keys values : DeviceTensor)
    : st (QuantizedKvCacheManager * D) unit := λ '(c, d),
  match index (shape keys) 0 with
  | Ok n =>
      let num_new := Z.to_nat n in
      match compress_kv (pool (q_tables c)) (scratch c) layer keys values d with
      | (d, Ok _) =>
          match get_seq h (q_tables c) with
          | Ok s =>
              let '(m, r) := if bool_decide (layer = 0) then reserve h num_new (q_tables c) else (q_tables c, Ok s) in
              let c := {| q_tables := m; q_config := q_config c; scratch := scratch c |} in
              match r with
              | Ok s =>
                  match nsub (current_len s) num_new with
                  | Ok start_token =>
                      let '(d, r) := write_rows (q_lanes (pool m) (scratch c) layer) (block_table s) start_token num_new d in
                      ((c, d), r)
                  | _ => ((c, d), Panic)
                  end
              | Err e => ((c, d), Err e)
              | Panic => ((c, d), Panic)
              end
          | Err e => ((c, d), Err e)
          | Panic => ((c, d), Panic)
          end
      | (d, Err e) => ((c, d), Err e)
      | (d, Panic) => ((c, d), Panic)
      end
  | _ => ((c, d), Panic)
  end.

(** [destroy] *)
Definition pair_tensors (q : QuantizedBlockTensors) : list DeviceTensor := [packed_indices q; norms q].
Definition blocks_tensors (bs : list (list QuantizedBlockTensors)) : list DeviceTensor := mjoin (pair_tensors <$> mjoin bs).
Definition scratch_tensors (sc : CompressScratch) : list DeviceTensor :=
  [sc_k_packed sc; sc_k_norms sc; sc_v_packed sc; sc_v_norms sc].

Definition qpool_destroy (ho : HashOrder) (p : QuantizedBlockPool) : st D unit :=
  do! _ := free_each (blocks_tensors (qk_blocks p)) in
  do! _ := free_each (blocks_tensors (qv_blocks p)) in
  do! _ := free_each (k_rotation_matrices p) in
  do! _ := free_each (v_rotation_matrices p) in
  free_each (hm_values ho (centroid_tables p)).
Definition q_destroy (ho : HashOrder) (c : QuantizedKvCacheManager) : st D unit :=
  do! _ := free_each (scratch_tensors (scratch c)) in qpool_destroy ho (pool (q_tables c)).
End ops.

(** ** Well-formedness *)

Definition side (part : Part) : KV := match part with KPacked | KNorms => KBlock | VPacked | VNorms => VBlock end.
Definition is_packed_part (part : Part) : bool := match part with KPacked | VPacked => true | _ => false end.
Definition packed_part (s : KV) : Part := match s with KBlock => KPacked | VBlock => VPacked end.
Definition norms_part (s : KV) : Part := match s with KBlock => KNorms | VBlock => VNorms end.
Definition all_parts : list Part := [KPacked; KNorms; VPacked; VNorms].

Definition q_dst (p : QuantizedBlockPool) (s : Part * nat) (b : nat) : result DeviceTensor := q_tensor p s.1 b s.2.
Definition q_slots (p : QuantizedBlockPool) (s : Part * nat) : Prop := s.2 < q_num_layers p.

Definition sc_tensor (sc : CompressScratch) (part : Part) : DeviceTensor :=
  match part with
  | KPacked => sc_k_packed sc | KNorms => sc_k_norms sc | VPacked => sc_v_packed sc | VNorms => sc_v_norms sc
  end.

(** The bit width of a layer, and its codec: width, rotation and centroids. *)
Definition layer_bits (p : QuantizedBlockPool) (s : KV) : list Z :=
  match s with KBlock => layer_key_bits p | VBlock => layer_value_bits p end.
Definition codec (p : QuantizedBlockPool) (s : KV) (layer : nat) : result (Z * DeviceTensor * DeviceTensor) :=
  let? bits := index (layer_bits p s) layer in
  let? rot := match s with KBlock => k_rotation p layer | VBlock => v_rotation p layer end in
  let? cent := q_centroids p bits in Ok (bits, rot, cent).

(** Row width of a block's tensor, and of the scratch tensor: that of the
    widest layer. *)
Definition part_width (p : QuantizedBlockPool) (part : Part) (bits : Z) : Z :=
  if is_packed_part part then packed_row_bytes (q_num_kv_heads p) (q_head_dim p) bits else q_num_kv_heads p.
Definition scratch_width (p : QuantizedBlockPool) (part : Part) : Z :=
  if is_packed_part part then max_dim (packed_row_bytes (q_num_kv_heads p) (q_head_dim p) <$> layer_bits p (side part))
  else q_num_kv_heads p.
Definition part_dtype (part : Part) : DType := if is_packed_part part then INT8 else FP16.

(** The layer's rows are as wide as those of the scratch tensors. *)
Definition fills_scratch (p : QuantizedBlockPool) (layer : nat) : Prop :=
  ∀ part bits, layer_bits p (side part) !! layer = Some bits → part_width p part bits = scratch_width p part.

Section theory.
Context {D : Type} `{BackendLaws D}.
Implicit Types d : D.
Implicit Types c : QuantizedKvCacheManager.
Notation qpool c := (pool (q_tables c)).

(** A tensor that is neither in a block nor a scratch tensor. *)
Definition q_outside c (id : Z) : Prop :=
  (∀ s b t, q_dst (qpool c) s b = Ok t → id ≠ tensor_id t) ∧ (∀ part, id ≠ tensor_id (sc_tensor (scratch c) part)).

Record q_ok d c : Prop := {
  qo_tables : tables_inv (q_tables c);
  qo_store : store_ok (q_dst (qpool c)) (q_slots (qpool c)) (q_capacity (qpool c)) d;
  qo_layout : ∀ part layer b t bits, q_tensor (qpool c) part b layer = Ok t →
    layer_bits (qpool c) (side part) !! layer = Some bits →
    tail (shape t) = [part_width (qpool c) part bits] ∧ dtype t = part_dtype part;
  qo_scratch : ∀ part, t_valid d (sc_tensor (scratch c) part) ∧ dtype (sc_tensor (scratch c) part) = part_dtype part ∧
    tail (shape (sc_tensor (scratch c) part)) = [scratch_width (qpool c) part];
  qo_scratch_inj : ∀ part part', tensor_id (sc_tensor (scratch c) part) = tensor_id (sc_tensor (scratch c) part') →
    part = part';
  qo_scratch_out : ∀ part s b t, q_dst (qpool c) s b = Ok t → tensor_id (sc_tensor (scratch c) part) ≠ tensor_id t;
  qo_codec : ∀ s layer, layer < q_num_layers (qpool c) →
    ∃ bits rot cent, codec (qpool c) s layer = Ok (bits, rot, cent) ∧ t_live d rot ∧ t_live d cent ∧
      q_outside c (tensor_id rot) ∧ q_outside c (tensor_id cent)
}.

(** Keys or values of [n] tokens, as [append_kv] takes them. *)
Record q_source d c (t : DeviceTensor) (n : nat) : Prop := {
  qs_shape : shape t = [Z.of_nat n; q_num_kv_heads (qpool c); q_head_dim (qpool c)];
  qs_valid : t_valid d t;
  qs_outside : q_outside c (tensor_id t);
  qs_fits : ∀ part, n ≤ nrows (sc_tensor (scratch c) part)
}.

(** What the kernel makes of one row. *)
Definition codec_row d (part : Part) (cd : Z * DeviceTensor * DeviceTensor) (r : Row) : Row :=
  let '(bits, rot, cent) := cd in
  (if is_packed_part part then b_pack else b_norm) (t_rows d rot) (t_rows d cent) bits r.

(** The row of a sequence at a position, through the block table. *)
Definition q_at d c (h : Z) (s : Part * nat) (pos : nat) : option Row :=
  match sequences (q_tables c) !! h with
  | Some sb => row_at d (q_dst (qpool c) s) (block_table sb) pos
  | None => None
  end.

Lemma q_ok_frame d d' c :
  b_live d' = b_live d → (∀ id, id ∈ b_live d → length (b_rows d' id) = length (b_rows d id)) → q_ok d c → q_ok d' c.
Proof.
  intros Hl Hn [Ht Hst Hlay Hsc Hinj Hout Hcd]. split; [done | | done | | done | done |].
  - eapply store_ok_frame; [| done]. intros id Hid. rewrite Hl. auto.
  - intros part. destruct (Hsc part) as ([Hlive Hlen] & ? & ?). split; [| done].
    unfold t_valid, t_live, t_rows in *. by rewrite Hl, Hn.
  - intros s layer Hlayer. destruct (Hcd s layer Hlayer) as (bits & rot & cent & ? & ? & ? & ?).
    exists bits, rot, cent. unfold t_live in *. by rewrite Hl.
Qed.

Lemma max_dim_ge (l : list Z) x : x ∈ l → (x ≤ max_dim l)%Z.
Proof. induction 1; simpl; lia. Qed.

Lemma part_width_le p part layer bits :
  layer_bits p (side part) !! layer = Some bits → (part_width p part bits ≤ scratch_width p part)%Z.
Proof.
  intros Hb%list_elem_of_lookup_2. unfold part_width, scratch_width. destruct (is_packed_part part); [| lia].
  apply max_dim_ge, list_elem_of_fmap. eauto.
Qed.

Lemma codec_Ok p s layer bits rot cent :
  codec p s layer = Ok (bits, rot, cent) → layer_bits p s !! layer = Some bits ∧
  match s with KBlock => k_rotation p layer | VBlock => v_rotation p layer end = Ok rot ∧ q_centroids p bits = Ok cent.
Proof. unfold codec. intros Hc. rinv. split_and!; [by apply index_Ok | done | done]. Qed.
(** ** Compression *)

Lemma side_parts part s : side part = s → part = packed_part s ∨ part = norms_part s.
Proof. destruct part, s; auto; done. Qed.

Lemma lookup_inserts_0 {A : Type} (new old : list A) i :
  length new ≤ length old → i < length new → list_inserts 0 new old !! i = new !! i.
Proof. intros. rewrite list_lookup_inserts by lia. f_equal. lia. Qed.

(** The kernel writes the scratch tensors of its side: the norms of every row,
    and the packed rows where they are as wide as the layer's. *)
Lemma compress_side d c s layer input n bits rot cent :
  q_ok d c → q_source d c input n → codec (qpool c) s layer = Ok (bits, rot, cent) →
  layer < q_num_layers (qpool c) →
  ∃ d', b_turboquant_compress input rot cent bits (sc_tensor (scratch c) (packed_part s))
          (sc_tensor (scratch c) (norms_part s)) d = (d', Ok ()) ∧ b_live d' = b_live d ∧ q_ok d' c ∧
    (∀ id, id ∈ b_live d → (∀ part, side part = s → id ≠ tensor_id (sc_tensor (scratch c) part)) →
       b_rows d' id = b_rows d id) ∧
    (∀ part i, side part = s → part_width (qpool c) part bits = scratch_width (qpool c) part → i < n →
       t_rows d' (sc_tensor (scratch c) part) !! i = codec_row d part (bits, rot, cent) <$> t_rows d input !! i).
Proof.
  intros Hok Hsrc Hcd Hlayer. pose proof (codec_Ok _ _ _ _ _ _ Hcd) as (Hbits & _).
  destruct (qo_codec d c Hok s layer Hlayer) as (b0 & r0 & c0 & Hcd' & Hrot & Hcent & [_ Hrout] & [_ Hcout]).
  rewrite Hcd in Hcd'. injection Hcd' as <- <- <-.
  destruct (qo_scratch d c Hok (packed_part s)) as (Hpv & _ & Hpsh), (qo_scratch d c Hok (norms_part s)) as (Hnv & _ & Hnsh).
  destruct Hsrc as [Hsh Hv [_ Hout] Hfits].
  set (pt := sc_tensor (scratch c) (packed_part s)) in *. set (nt := sc_tensor (scratch c) (norms_part s)) in *.
  assert (length (t_rows d input) = n) as Hn.
  { destruct Hv as [_ ->]. unfold nrows. rewrite Hsh. simpl. lia. }
  assert (tensor_id pt ≠ tensor_id nt) as Hne.
  { intros Heq%(qo_scratch_inj d c Hok). by destruct s. }
  assert (scratch_width (qpool c) (norms_part s) = q_num_kv_heads (qpool c)) as Hnw by (by destruct s).
  destruct (b_turboquant_compress_Ok d input rot cent bits pt nt (Z.of_nat n) (q_num_kv_heads (qpool c))
    (q_head_dim (qpool c)) (scratch_width (qpool c) (packed_part s)))
    as (d' & Hrun & Hlive & Hsame & Hlp & Hln & Hnorms & Hpacked); try done.
  { pose proof (Hrout (packed_part s)). pose proof (Hcout (packed_part s)). pose proof (Hout (packed_part s)).
    unfold pt. set_solver. }
  { pose proof (Hrout (norms_part s)). pose proof (Hcout (norms_part s)). pose proof (Hout (norms_part s)).
    unfold nt. set_solver. }
  { by rewrite Hnsh, Hnw. }
  { assert (side (packed_part s) = s) as Hs by (by destruct s). rewrite <- Hs in Hbits.
    pose proof (part_width_le (qpool c) (packed_part s) layer bits Hbits) as Hle. by destruct s. }
  { rewrite Hn. destruct Hpv as [_ ->]. apply Hfits. }
  { rewrite Hn. destruct Hnv as [_ ->]. apply Hfits. }
  exists d'. split_and!; [done | done | | |].
  - apply (q_ok_frame d d' c Hlive); [| done]. intros id Hid.
    destruct (decide (id = tensor_id pt)) as [->|]; [done |]. destruct (decide (id = tensor_id nt)) as [->|]; [done |].
    rewrite Hsame; [done |]. set_solver.
  - intros id Hid Hno. apply Hsame. pose proof (Hno (packed_part s)). pose proof (Hno (norms_part s)).
    assert (side (packed_part s) = s) by (by destruct s). assert (side (norms_part s) = s) by (by destruct s).
    unfold pt, nt. set_solver.
  - intros part i Hside Hw Hi.
    destruct (side_parts part s Hside) as [->| ->]; unfold codec_row.
    + assert (part_width (qpool c) (packed_part s) bits = packed_row_bytes (q_num_kv_heads (qpool c)) (q_head_dim (qpool c)) bits)
        as Hpw by (by destruct s).
      fold pt. rewrite Hpacked by congruence.
      rewrite lookup_inserts_0; [| rewrite length_fmap, Hn; destruct Hpv as [_ ->]; apply Hfits | by rewrite length_fmap, Hn].
      rewrite list_lookup_fmap. by destruct s.
    + fold nt. rewrite Hnorms.
      rewrite lookup_inserts_0; [| rewrite length_fmap, Hn; destruct Hnv as [_ ->]; apply Hfits | by rewrite length_fmap, Hn].
      rewrite list_lookup_fmap. by destruct s.
Qed.

Lemma q_source_frame d d' c t n :
  b_live d' = b_live d → t_rows d' t = t_rows d t → q_source d c t n → q_source d' c t n.
Proof.
  intros Hl Hr [? [? ?] ? ?]. split; [done | | done | done]. unfold t_valid, t_live in *. by rewrite Hl, Hr.
Qed.

Lemma codec_row_frame d d' part bits rot cent r :
  t_rows d' rot = t_rows d rot → t_rows d' cent = t_rows d cent →
  codec_row d' part (bits, rot, cent) r = codec_row d part (bits, rot, cent) r.
Proof. unfold codec_row. by intros -> ->. Qed.

(** The rows the scratch tensors hold after both compressions. *)
Definition q_input (part : Part) (keys values : DeviceTensor) : DeviceTensor :=
  match side part with KBlock => keys | VBlock => values end.

Lemma compress_kv_Ok d c layer keys values n :
  q_ok d c → layer < q_num_layers (qpool c) → q_source d c keys n → q_source d c values n →
  ∃ d', compress_kv (qpool c) (scratch c) layer keys values d = (d', Ok ()) ∧ b_live d' = b_live d ∧ q_ok d' c ∧
    (∀ id, id ∈ b_live d → (∀ part, id ≠ tensor_id (sc_tensor (scratch c) part)) → b_rows d' id = b_rows d id) ∧
    (∀ part i bits rot cent, codec (qpool c) (side part) layer = Ok (bits, rot, cent) →
       part_width (qpool c) part bits = scratch_width (qpool c) part → i < n →
       t_rows d' (sc_tensor (scratch c) part) !! i =
       codec_row d part (bits, rot, cent) <$> t_rows d (q_input part keys values) !! i).
Proof.
  intros Hok Hlayer Hk Hv.
  destruct (qo_codec d c Hok KBlock layer Hlayer) as (kb & kr & kc & Hkcd & _).
  destruct (qo_codec d c Hok VBlock layer Hlayer) as (vb & vr & vc & Hvcd & Hvr & Hvc & [_ Hvro] & [_ Hvco]).
  destruct (compress_side d c KBlock layer keys n kb kr kc Hok Hk Hkcd Hlayer) as (d1 & Hr1 & Hl1 & Hok1 & Ho1 & Hrows1).
  assert (∀ t, t_live d t → (∀ part, tensor_id t ≠ tensor_id (sc_tensor (scratch c) part)) → t_rows d1 t = t_rows d t) as Hkeep.
  { intros t Ht Hno. apply Ho1; [done |]. intros part _. apply Hno. }
  assert (t_rows d1 values = t_rows d values) as Hvrows.
  { destruct Hv as [_ [? _] [_ ?] _]. by apply Hkeep. }
  destruct (compress_side d1 c VBlock layer values n vb vr vc) as (d2 & Hr2 & Hl2 & Hok2 & Ho2 & Hrows2);
    [done | by eapply q_source_frame | done | done |].
  exists d2. split_and!; [| congruence | done | |].
  - pose proof (codec_Ok _ _ _ _ _ _ Hkcd) as (Hkb & Hkr & Hkc). pose proof (codec_Ok _ _ _ _ _ _ Hvcd) as (Hvb & Hvr' & Hvc').
    unfold compress_kv, sbind, slift, q_key_bits, q_value_bits. simpl in Hkb, Hvb.
    rewrite (proj2 (index_Ok _ _ _) Hkb), (proj2 (index_Ok _ _ _) Hvb), Hkr, Hkc.
    simpl in Hr1, Hr2. rewrite Hr1, Hvr', Hvc'. exact Hr2.
  - intros id Hid Hno. rewrite Ho2; [apply Ho1; auto | by rewrite Hl1 | auto].
  - intros part i bits rot cent Hcd Hw Hi. unfold q_input. destruct (side part) eqn:Hside.
    + rewrite Hkcd in Hcd. injection Hcd as <- <- <-. rewrite <- (Hrows1 part i Hside Hw Hi). unfold t_rows.
      rewrite Ho2; [done | rewrite Hl1; by destruct (qo_scratch d c Hok part) as ([? _] & _) |].
      intros part' Hs' Heq%(qo_scratch_inj d c Hok). congruence.
    + rewrite Hvcd in Hcd. injection Hcd as <- <- <-. rewrite (Hrows2 part i Hside Hw Hi), Hvrows.
      destruct (t_rows d values !! i); [| done]. simpl. f_equal.
      apply codec_row_frame; apply Hkeep; auto.
Qed.
(** ** Writing the blocks *)

Definition q_sources c (layer : nat) : list (DeviceTensor * (Part * nat)) :=
  (λ part, (sc_tensor (scratch c) part, (part, layer))) <$> all_parts.

Lemma elem_of_all_parts part : part ∈ all_parts.
Proof. destruct part; set_solver. Qed.

Lemma layer_bits_some d c s layer :
  q_ok d c → layer < q_num_layers (qpool c) → ∃ bits, layer_bits (qpool c) s !! layer = Some bits.
Proof.
  intros Hok Hl. destruct (qo_codec d c Hok s layer Hl) as (bits & rot & cent & Hcd & _).
  apply codec_Ok in Hcd as [? _]. eauto.
Qed.

Lemma q_sources_ok d c layer n :
  q_ok d c → layer < q_num_layers (qpool c) → fills_scratch (qpool c) layer →
  (∀ part, n ≤ nrows (sc_tensor (scratch c) part)) →
  Forall (λ sp, store_source (q_dst (qpool c)) (q_slots (qpool c)) d n sp.1 sp.2) (q_sources c layer).
Proof.
  intros Hok Hl Hfill Hn. apply Forall_fmap, Forall_forall. intros part _. simpl.
  destruct (qo_scratch d c Hok part) as ([Hlive Hlen] & Hdt & Hsh). split; [done | done | rewrite Hlen; apply Hn | |].
  - intros b t Ht. destruct (layer_bits_some d c (side part) layer Hok Hl) as [bits Hb].
    destruct (qo_layout d c Hok part layer b t bits Ht Hb) as [Htsh Htd].
    split; [by rewrite Hsh, Htsh, (Hfill part bits Hb) | congruence].
  - intros s b t Ht. by eapply (qo_scratch_out d c Hok).
Qed.

Lemma q_write d c h s layer n :
  q_ok d c → sequences (q_tables c) !! h = Some s → layer < q_num_layers (qpool c) →
  fills_scratch (qpool c) layer → (∀ part, n ≤ nrows (sc_tensor (scratch c) part)) → n ≤ current_len s →
  ∃ d', write_rows (q_lanes (qpool c) (scratch c) layer) (block_table s) (current_len s - n) n d = (d', Ok ()) ∧
    b_live d' = b_live d ∧ q_ok d' c ∧
    (∀ part i, i < n → q_at d' c h (part, layer) (current_len s - n + i) = t_rows d (sc_tensor (scratch c) part) !! i) ∧
    (∀ h' s' sl pos, sequences (q_tables c) !! h' = Some s' → (h' = h → sl.2 = layer → pos < current_len s - n) →
       q_at d' c h' sl pos = q_at d c h' sl pos) ∧
    (∀ id, id ∈ b_live d → q_outside c id → b_rows d' id = b_rows d id).
Proof.
  intros Hok Hs Hl Hfill Hcap Hn. pose proof (qo_tables d c Hok) as Hinv.
  destruct (store_write (q_dst (qpool c)) (q_slots (qpool c)) (q_capacity (qpool c)) d (q_sources c layer)
    (block_table s) (current_len s - n) n) as (d' & Hw & Hlive & Hlen & Hnew & Hkept & Hother).
  { by apply qo_store. }
  { simpl. repeat constructor; set_solver. }
  { by apply q_sources_ok. }
  { intros b Hb. change (b < bs_capacity (qpool c)). by eapply inv_sub. }
  { by eapply inv_table_NoDup. }
  { destruct (inv_seqs _ Hinv h s Hs) as (full & ? & ? & ?). lia. }
  exists d'. split_and!; [exact Hw | done | by apply (q_ok_frame d d') | | |].
  - intros part i Hi. unfold q_at. rewrite Hs.
    apply (Hnew (sc_tensor (scratch c) part, (part, layer)) i); [| done].
    apply list_elem_of_fmap. exists part. split; [done | apply elem_of_all_parts].
  - intros h' s' sl pos Hs' Hpos. unfold q_at. rewrite Hs'. apply Hkept.
    destruct (decide (h' = h)) as [->|Hne]; [| left; intros b Hb; by eapply (inv_disjoint (q_tables c) h' h s' s)].
    right. simplify_eq. destruct (decide (sl.2 = layer)) as [Heq|Hne]; [right; auto | left].
    destruct sl as [part l]. simpl in *. set_solver.
  - intros id Hid [Hout _]. by apply Hother.
Qed.

(** ** Reserving the blocks of layer 0 *)

(** What an append at [layer] needs: free blocks at layer 0, which the tables
    have reserved by the time of the other layers. *)
Definition q_ready c (s : SequenceBlocks) (layer n : nat) : Prop :=
  if bool_decide (layer = 0) then blocks_needed n (last_block_fill s) ≤ num_free_blocks (q_tables c) else n ≤ current_len s.
(** The first position the append writes. *)
Definition q_start (s : SequenceBlocks) (layer n : nat) : nat :=
  if bool_decide (layer = 0) then current_len s else current_len s - n.

Definition with_tables c (m : CacheTables QuantizedBlockPool) : QuantizedKvCacheManager :=
  {| q_tables := m; q_config := q_config c; scratch := scratch c |}.

Lemma q_ok_tables d c m fl :
  q_ok d c → tables_inv m → pool m = q_set_free fl (qpool c) → q_ok d (with_tables c m).
Proof.
  intros [? ? ? ? ? ? ?] Hinv Hp. unfold with_tables. split; cbn [q_tables scratch]; rewrite ?Hp; try done.
  unfold q_outside in *. cbn [q_tables scratch]. by rewrite Hp.
Qed.

Lemma q_reserve d c h s layer n :
  q_ok d c → sequences (q_tables c) !! h = Some s → q_ready c s layer n →
  ∃ m s1, (if bool_decide (layer = 0) then reserve h n (q_tables c) else (q_tables c, Ok s)) = (m, Ok s1) ∧
    q_ok d (with_tables c m) ∧ sequences m !! h = Some s1 ∧ current_len s1 = q_start s layer n + n ∧
    (∃ fl, pool m = q_set_free fl (qpool c)) ∧ sequences m = <[h := s1]> (sequences (q_tables c)) ∧
    num_free_blocks m = num_free_blocks (q_tables c) - (if bool_decide (layer = 0) then blocks_needed n (last_block_fill s) else 0) ∧
    (∀ h' s', sequences (q_tables c) !! h' = Some s' → ∃ s'', sequences m !! h' = Some s'' ∧
       ∀ sl pos, pos < current_len s' → q_at d (with_tables c m) h' sl pos = q_at d c h' sl pos).
Proof.
  intros Hok Hs Hready. unfold q_ready, q_start in *. case_bool_decide as Hl.
  - pose proof (qo_tables d c Hok) as Hinv.
    destruct (reserve_Ok (q_tables c) h s n Hinv Hs Hready) as (s1 & Hres & Htab & Hlen).
    pose proof (reserve_inv h n (q_tables c) Hinv) as Hinv1. rewrite Hres in Hinv1. simpl in Hinv1.
    eexists _, s1. split_and!; [exact Hres | | apply lookup_insert_eq | done | eauto | done | |].
    + by eapply q_ok_tables.
    + rewrite num_free_set, length_drop. done.
    + intros h' s' Hs'. unfold q_at. simpl. destruct (decide (h' = h)) as [->|Hne].
      * exists s1. rewrite lookup_insert_eq. split; [done |]. intros sl pos Hpos. rewrite Hs. simplify_eq.
        destruct (inv_seqs _ Hinv h _ Hs) as (full & ? & ? & ?).
        unfold row_at. rewrite Htab, lookup_app_l; [done |]. apply Nat.Div0.div_lt_upper_bound. lia.
      * exists s'. by rewrite lookup_insert_ne.
  - exists (q_tables c), s. destruct c as [m cfg sc]. simpl in *. split_and!; try done; [lia | | by rewrite insert_id | lia | eauto].
    exists (q_free_list (pool m)). by destruct (pool m).
Qed.
Lemma q_source_tables d c m fl t n :
  pool m = q_set_free fl (qpool c) → q_source d c t n → q_source d (with_tables c m) t n.
Proof. intros Hp [? ? ? ?]. unfold with_tables. split; unfold q_outside in *; simpl; by rewrite ?Hp. Qed.

(** [append_kv] up to the loop over the blocks. *)
Lemma q_append_unfold d d1 c m h s s1 layer keys values n :
  shape keys = [Z.of_nat n; q_num_kv_heads (qpool c); q_head_dim (qpool c)] →
  compress_kv (qpool c) (scratch c) layer keys values d = (d1, Ok ()) →
  sequences (q_tables c) !! h = Some s →
  (if bool_decide (layer = 0) then reserve h n (q_tables c) else (q_tables c, Ok s)) = (m, Ok s1) → n ≤ current_len s1 →
  q_append_kv h layer keys values (c, d) =
    (let '(d', r) := write_rows (q_lanes (pool m) (scratch c) layer) (block_table s1) (current_len s1 - n) n d1 in
     ((with_tables c m, d'), r)).
Proof.
  intros Hsh Hc Hs Hres Hn. unfold q_append_kv, get_seq. rewrite Hsh. cbn [index lookup list_lookup].
  rewrite Nat2Z.id, Hc, Hs, Hres, nsub_Ok by done. done.
Qed.

Lemma q_append_Ok d c h s layer keys values n :
  q_ok d c → sequences (q_tables c) !! h = Some s → layer < q_num_layers (qpool c) →
  q_source d c keys n → q_source d c values n → q_ready c s layer n → fills_scratch (qpool c) layer →
  ∃ m s1 d', q_append_kv h layer keys values (c, d) = ((with_tables c m, d'), Ok ()) ∧ q_ok d' (with_tables c m) ∧
    b_live d' = b_live d ∧ sequences m = <[h := s1]> (sequences (q_tables c)) ∧ current_len s1 = q_start s layer n + n ∧
    (∃ fl, pool m = q_set_free fl (qpool c)) ∧
    num_free_blocks m = num_free_blocks (q_tables c) - (if bool_decide (layer = 0) then blocks_needed n (last_block_fill s) else 0) ∧
    (∀ part i cd, codec (qpool c) (side part) layer = Ok cd → i < n →
       q_at d' (with_tables c m) h (part, layer) (q_start s layer n + i) =
       codec_row d part cd <$> t_rows d (q_input part keys values) !! i) ∧
    (∀ h' s' sl pos, sequences (q_tables c) !! h' = Some s' → pos < current_len s' →
       (h' = h → sl.2 = layer → pos < q_start s layer n) → q_at d' (with_tables c m) h' sl pos = q_at d c h' sl pos) ∧
    (∀ id, id ∈ b_live d → q_outside c id → b_rows d' id = b_rows d id).
Proof.
  intros Hok Hs Hl Hk Hv Hready Hfill.
  destruct (compress_kv_Ok d c layer keys values n Hok Hl Hk Hv) as (d1 & Hc & Hl1 & Hok1 & Hout1 & Hrows1).
  destruct (q_reserve d1 c h s layer n Hok1 Hs Hready) as (m & s1 & Hres & Hok2 & Hs1 & Hlen & [fl Hpool] & Hseqs & Hfree & Hold).
  destruct (q_write d1 (with_tables c m) h s1 layer n Hok2 Hs1)
    as (d2 & Hw & Hl2 & Hok3 & Hnew & Hkept & Hout2); [simpl; by rewrite Hpool | simpl; rewrite Hpool; exact Hfill | apply Hk | lia |].
  replace (current_len s1 - n) with (q_start s layer n) in * by lia.
  assert (∀ sl b t, q_dst (qpool c) sl b = Ok t → b_rows d1 (tensor_id t) = b_rows d (tensor_id t)) as Hblocks.
  { intros sl b t Ht. destruct (so_valid _ _ _ d (qo_store d c Hok) sl b t Ht) as [[? _] _]. apply Hout1; [done |].
    intros part Heq. by apply (qo_scratch_out d c Hok part sl b t Ht). }
  exists m, s1, d2. split_and!; [| done | congruence | done | done | eauto | done | | |].
  - rewrite (q_append_unfold d d1 c m h s s1 layer keys values n); [| apply Hk | done | done | done | lia].
    replace (current_len s1 - n) with (q_start s layer n) by lia. simpl in Hw. by rewrite Hw.
  - intros part i [[bits rot] cent] Hcd Hi. rewrite (Hnew part i Hi). apply Hrows1; [done | | done].
    apply codec_Ok in Hcd as [Hb _]. by apply Hfill.
  - intros h' s' sl pos Hs' Hpos Hbefore. destruct (Hold h' s' Hs') as (s'' & Hs'' & Hat).
    rewrite (Hkept h' s'' sl pos Hs''), Hat by done. unfold q_at. rewrite Hs'. unfold row_at.
    destruct (block_table s' !! _) as [b|]; [| done]. destruct (q_dst (qpool c) sl b) as [t| |] eqn:Ht; [| done..].
    unfold t_rows. by rewrite (Hblocks sl b t Ht).
  - intros id Hid Hout. rewrite Hout2; [apply Hout1; [done | apply Hout] | by rewrite Hl1 |].
    unfold q_outside, with_tables in *. simpl. by rewrite Hpool.
Qed.

(** C34: appending [n] tokens of keys and values to one layer of the quantized
    cache succeeds, if the rows are as wide as the scratch tensors, [n] is at most
    the number of rows of the scratch tensors ([max_compress_tokens]; [append_kv]
    does not check this, and with more tokens the kernel writes past them), and
    the blocks are there.  The new positions of the layer then hold, in all four
    tensors of their blocks, what the compression kernel makes of the given rows
    with the layer's bit width, rotation and centroids; every other stored
    position of every sequence and layer, and every tensor outside the cache, is
    as before; the length grows at layer 0 only, and the cache stays
    well-formed. *)
Theorem q_append_spec d c h s layer keys values n :
  q_ok d c → sequences (q_tables c) !! h = Some s → layer < q_num_layers (qpool c) →
  q_source d c keys n → q_source d c values n → q_ready c s layer n → fills_scratch (qpool c) layer →
  ∃ c' d', q_append_kv h layer keys values (c, d) = ((c', d'), Ok ()) ∧ q_ok d' c' ∧
    tables_seq_len h (q_tables c') = Ok (q_start s layer n + n) ∧
    (∀ part i cd, codec (qpool c) (side part) layer = Ok cd → i < n →
       q_at d' c' h (part, layer) (q_start s layer n + i) =
       codec_row d part cd <$> t_rows d (q_input part keys values) !! i) ∧
    (∀ h' s' sl pos, sequences (q_tables c) !! h' = Some s' → pos < current_len s' →
       (h' = h → sl.2 = layer → pos < q_start s layer n) → q_at d' c' h' sl pos = q_at d c h' sl pos) ∧
    (∀ id, id ∈ b_live d → q_outside c id → b_rows d' id = b_rows d id).
Proof.
  intros Hok Hs Hl Hk Hv Hready Hfill.
  destruct (q_append_Ok d c h s layer keys values n) as (m & s1 & d' & ? & ? & _ & Hseqs & Hlen & _ & _ & ? & ? & ?); [done.. |].
  exists (with_tables c m), d'. split_and!; try done. unfold tables_seq_len, get_seq. simpl.
  rewrite Hseqs, lookup_insert_eq. simpl. by rewrite Hlen.
Qed.

Lemma q_first_chunk (start n : nat) (table : list nat) :
  0 < n → start + n ≤ 16 * length table →
  ∃ b k, table !! (start `div` 16) = Some b ∧ k ≤ n ∧ start `mod` 16 + k ≤ 16 ∧
    ∀ (lanes : list Lane) d d' e, copy_lanes lanes b 0 (start `mod` 16) k d = (d', Err e) →
      write_rows lanes table start n d = (d', Err e).
Proof.
  intros Hn Hroom. pose proof (Nat.div_mod_eq start 16). pose proof (Nat.mod_upper_bound start 16).
  destruct (lookup_lt_is_Some_2 table (start `div` 16)) as [b Hb]; [lia |].
  exists b, ((n - 0) `min` (16 - start `mod` 16)). split_and!; [done | lia | lia |].
  intros lanes d d' e Hc. unfold write_rows. rewrite Nat.add_1_r. cbn [write_loop].
  rewrite bool_decide_true by done. unfold BLOCK_SIZE, sbind, slift, index. rewrite Nat.add_0_r, Hb.
  by rewrite Hc.
Qed.

(** Appending to a layer whose packed rows are narrower than those of the
    scratch tensors, which are sized for the widest layer, fails whatever the
    other circumstances: the device refuses to copy rows of different widths. *)
Theorem q_append_narrow_layer d c h s layer keys values n part bits :
  q_ok d c → sequences (q_tables c) !! h = Some s → layer < q_num_layers (qpool c) →
  q_source d c keys n → q_source d c values n → q_ready c s layer n → 0 < n →
  layer_bits (qpool c) (side part) !! layer = Some bits → part_width (qpool c) part bits ≠ scratch_width (qpool c) part →
  ∃ c' d' msg, q_append_kv h layer keys values (c, d) = ((c', d'), Err (InvalidShape msg)).
Proof.
  intros Hok Hs Hl Hk Hv Hready Hn Hbits Hnarrow.
  destruct (compress_kv_Ok d c layer keys values n Hok Hl Hk Hv) as (d1 & Hc & _ & Hok1 & _).
  destruct (q_reserve d1 c h s layer n Hok1 Hs Hready) as (m & s1 & Hres & Hok2 & Hs1 & Hlen & [fl Hpool] & _).
  pose proof (inv_seqs _ (qo_tables _ _ Hok2) h s1 Hs1) as (full & Hf1 & Hf2 & Hf3).
  destruct (q_first_chunk (current_len s1 - n) n (block_table s1)) as (b & k & Hb & Hkn & Hk16 & Herr); [done | lia |].
  assert (b < q_capacity (qpool c)) as Hcap.
  { pose proof (inv_sub _ h s1 b (qo_tables _ _ Hok2) Hs1 (list_elem_of_lookup_2 _ _ _ Hb)) as Hb'. simpl in Hb'.
    by rewrite Hpool in Hb'. }
  assert (∀ part', ∃ t, q_tensor (qpool c) part' b layer = Ok t) as Hdst.
  { intros part'. by apply (so_dst _ _ _ d1 (qo_store d1 c Hok1) (part', layer) b). }
  assert (q_lanes (pool m) (scratch c) layer = lanes_of (q_dst (qpool c)) (q_sources c layer)) as Hlanes by (by rewrite Hpool).
  destruct (copy_lanes_mismatch d1 (lanes_of (q_dst (qpool c)) (q_sources c layer)) b 0
    ((current_len s1 - n) `mod` 16) k) as (d' & msg & Hcopy).
  - intros l (sp & (part' & -> & _)%list_elem_of_fmap & ->)%elem_of_lanes_of. destruct (Hdst part') as [t Ht].
    exists t. destruct (so_valid _ _ _ d1 (qo_store d1 c Hok1) (part', layer) b t Ht) as [Htv Htl].
    destruct (qo_scratch d1 c Hok1 part') as (Hscv & Hdt & _).
    destruct (layer_bits_some d1 c (side part') layer Hok1 Hl) as [bits' Hb'].
    destruct (qo_layout d1 c Hok1 part' layer b t bits' Ht Hb') as [_ Htd]. cbn [lane_src lane_dst fst snd]. split_and!; try done.
    + by apply (qo_scratch_out d1 c Hok1 part' (part', layer) b t).
    + congruence.
    + destruct Hscv as [_ ->]. pose proof (qs_fits _ _ _ _ Hk part'). lia.
    + lia.
  - destruct (Hdst part) as [t Ht]. exists {| lane_src := sc_tensor (scratch c) part; lane_dst := q_dst (qpool c) (part, layer) |}, t.
    split_and!; [| done |].
    + apply elem_of_lanes_of. eexists (_, _). split; [| reflexivity]. apply list_elem_of_fmap.
      exists part. split; [done | apply elem_of_all_parts].
    + destruct (qo_layout d1 c Hok1 part layer b t bits Ht Hbits) as [Hts _].
      destruct (qo_scratch d1 c Hok1 part) as (_ & _ & Hss). simpl. rewrite Hts, Hss. congruence.
  - exists (with_tables c m), d', msg.
    rewrite (q_append_unfold d d1 c m h s s1 layer keys values n); [| apply Hk | done | done | done | lia].
    by rewrite Hlanes, (Herr _ _ _ _ Hcopy).
Qed.
End theory.

(** ** Sequences of operations *)

Inductive QCacheOp :=
  | QAlloc
  | QAppend (h : Z) (layer : nat) (keys values : DeviceTensor)
  | QFree (h : Z).

Section ops_inv.
Context {D : Type} `{BackendLaws D}.
Implicit Types d : D.
Implicit Types c : QuantizedKvCacheManager.

Definition q_run (op : QCacheOp) (cd : QuantizedKvCacheManager * D) : QuantizedKvCacheManager * D :=
  match op with
  | QAlloc => ((q_alloc cd.1).1, cd.2)
  | QAppend h layer keys values => (q_append_kv h layer keys values cd).1
  | QFree h => ((q_free h cd.1).1, cd.2)
  end.

Lemma on_tables_1 {A : Type} (m : st (CacheTables QuantizedBlockPool) A) c :
  (on_tables m c).1 = with_tables c (m (q_tables c)).1.
Proof. unfold on_tables. by destruct (m (q_tables c)). Qed.

Lemma q_append_tables h layer keys values c d :
  (q_append_kv h layer keys values (c, d)).1.1 = c ∨
  ∃ n, (q_append_kv h layer keys values (c, d)).1.1 = with_tables c (reserve h n (q_tables c)).1.
Proof.
  unfold q_append_kv. destruct (index (shape keys) 0) as [n| |]; [| by left..].
  destruct (compress_kv _ _ _ _ _ d) as [d1 [[]| |]]; [| by left..].
  destruct (get_seq h (q_tables c)) as [s| |]; [| by left..]. destruct (bool_decide (layer = 0)).
  - right. exists (Z.to_nat n). destruct (reserve h (Z.to_nat n) (q_tables c)) as [m1 [s1| |]]; [| done..].
    destruct (nsub _ _); [| done..]. by destruct (write_rows _ _ _ _ _).
  - left. destruct c. destruct (nsub _ _); [| done..]. by destruct (write_rows _ _ _ _ _).
Qed.

(** Any operation, whatever its result, keeps the tables' invariant and the
    tensors of the pool. *)
Lemma q_run_inv op c d :
  tables_inv (q_tables c) →
  tables_inv (q_tables (q_run op (c, d)).1) ∧ pool_moved (pool (q_tables c)) (pool (q_tables (q_run op (c, d)).1)).
Proof.
  intros Hinv. destruct op as [|h layer keys values|h]; cbn [q_run fst snd].
  - unfold q_alloc. rewrite on_tables_1. split; [by apply tables_alloc_inv | apply tables_alloc_pool].
  - destruct (q_append_tables h layer keys values c d) as [->|[n ->]]; [by split; [| apply pool_moved_refl] |].
    split; [by apply reserve_inv | by apply reserve_pool].
  - unfold q_free. rewrite on_tables_1. split; [by apply tables_free_inv | apply tables_free_pool].
Qed.

Lemma q_runs_inv ops c d :
  tables_inv (q_tables c) →
  let c' := (foldl (λ cd op, q_run op cd) (c, d) ops).1 in
  tables_inv (q_tables c') ∧ pool_moved (pool (q_tables c)) (pool (q_tables c')).
Proof.
  revert c d. induction ops as [|op ops IH]; intros c d Hinv; [by split; [| apply pool_moved_refl] |].
  cbn [foldl]. destruct (q_run op (c, d)) as [c1 d1] eqn:E. destruct (q_run_inv op c d Hinv) as [Hinv1 Hmv].
  rewrite E in Hinv1, Hmv. destruct (IH c1 d1 Hinv1) as [? ?]. split; [done | by eapply pool_moved_trans].
Qed.

Lemma q_alloc_ok d c : q_ok d c → q_ok d (q_alloc c).1.
Proof.
  intros Hok. unfold q_alloc. rewrite on_tables_1. destruct (tables_alloc_pool (q_tables c)) as [fl Hfl].
  apply (q_ok_tables d c _ fl Hok); [apply tables_alloc_inv, Hok | done].
Qed.
End ops_inv.

(** ** Creating the cache *)

Definition pair_part (y : QuantizedBlockTensors * QuantizedBlockTensors) (part : Part) : DeviceTensor :=
  match part with
  | KPacked => packed_indices y.1 | KNorms => norms y.1 | VPacked => packed_indices y.2 | VNorms => norms y.2
  end.
Definition pair_parts (y : QuantizedBlockTensors * QuantizedBlockTensors) : list DeviceTensor := pair_part y <$> all_parts.
Definition part_index (part : Part) : nat := match part with KPacked => 0 | KNorms => 1 | VPacked => 2 | VNorms => 3 end.
Definition block_parts (blk : list (QuantizedBlockTensors * QuantizedBlockTensors)) : list DeviceTensor :=
  mjoin (pair_parts <$> blk).

Lemma part_index_inj part part' : part_index part = part_index part' → part = part'.
Proof. by destruct part, part'. Qed.

Lemma concat_mjoin {A : Type} (ls : list (list A)) : concat ls = mjoin ls.
Proof. induction ls as [|l ls IH]; [done |]. simpl. by rewrite IH. Qed.

(** The tensors of a list of blocks, found by block, layer and part. *)
Lemma block_parts_lookup blk l y part :
  blk !! l = Some y → block_parts blk !! (l * 4 + part_index part) = Some (pair_part y part).
Proof.
  intros Hy. unfold block_parts. apply join_lookup_Some_same_length' with (n := 4).
  - apply Forall_fmap, Forall_forall. by intros x _.
  - destruct part; simpl; lia.
  - exists (pair_parts y). split; [by rewrite list_lookup_fmap, Hy | by destruct part].
Qed.

Lemma blocks_parts_inj (blocks : list (list (QuantizedBlockTensors * QuantizedBlockTensors))) b b' blk blk' l l' y y' part part' :
  NoDup (tensor_id <$> mjoin (block_parts <$> blocks)) →
  blocks !! b = Some blk → blk !! l = Some y → blocks !! b' = Some blk' → blk' !! l' = Some y' →
  tensor_id (pair_part y part) = tensor_id (pair_part y' part') → b = b' ∧ l = l' ∧ part = part'.
Proof.
  rewrite <- concat_mjoin. intros Hnd Hb Hl Hb' Hl' Heq.
  destruct (concat_lookup_inj tensor_id (block_parts <$> blocks) b b' (l * 4 + part_index part) (l' * 4 + part_index part')
    (block_parts blk) (block_parts blk') (pair_part y part) (pair_part y' part') Hnd) as [-> Hj]; try done.
  - by rewrite list_lookup_fmap, Hb.
  - by apply block_parts_lookup.
  - by rewrite list_lookup_fmap, Hb'.
  - by apply block_parts_lookup.
  - assert (part_index part < 4 ∧ part_index part' < 4) by (destruct part, part'; simpl; lia).
    split_and!; [done | lia | apply part_index_inj; lia].
Qed.

Lemma elem_of_blocks_parts (blocks : list (list (QuantizedBlockTensors * QuantizedBlockTensors))) b blk l y part :
  blocks !! b = Some blk → blk !! l = Some y → pair_part y part ∈ mjoin (block_parts <$> blocks).
Proof.
  intros Hb Hl. apply list_elem_of_join. exists (block_parts blk). split.
  - eapply list_elem_of_lookup_2, (block_parts_lookup _ _ _ _ Hl).
  - apply list_elem_of_fmap. eexists. split; [done |]. by eapply list_elem_of_lookup_2.
Qed.

(** [for (k, v) in l { m.insert(k, v); }] on distinct keys *)
Lemma foldl_insert_lookup (l : list (Z * DeviceTensor)) (m : gmap Z DeviceTensor) k t :
  NoDup l.*1 →
  foldl (λ m bt, <[bt.1 := bt.2]> m) m l !! k = Some t ↔ (k, t) ∈ l ∨ (k ∉ l.*1 ∧ m !! k = Some t).
Proof.
  revert m. induction l as [|[k0 t0] l IH]; intros m Hnd; simpl; [set_solver |].
  apply NoDup_cons in Hnd as [Hk0 Hnd]. rewrite IH by done. rewrite elem_of_cons.
  destruct (decide (k = k0)) as [->|Hne].
  - rewrite lookup_insert_eq. split.
    + intros [Hin|[_ [= ->]]]; [| by left; left]. exfalso. apply Hk0. apply list_elem_of_fmap. by exists (k0, t).
    + intros [[[= ->]|Hin]|[Hno _]]; [by right | by left | set_solver].
  - rewrite lookup_insert_ne by done. set_solver.
Qed.

Lemma packed_dim_Ok nkv hd bits w : packed_dim nkv hd bits = Ok w → w = packed_row_bytes nkv hd bits.
Proof.
  unfold packed_dim, packed_dim_per_head, packed_row_bytes. intros Hw. rinv. done.
Qed.

Section creation.
Context {D : Type} `{BackendLaws D}.
Variable exp ln cos sin : f64 → f64.
Implicit Types d : D.

Lemma alloced_disjoint d0 d l1 l2 t u : alloced d0 d (l1 ++ l2) → t ∈ l1 → u ∈ l2 → tensor_id t ≠ tensor_id u.
Proof.
  intros [_ Hnd _ _] Ht Hu Heq. rewrite fmap_app in Hnd. apply NoDup_app in Hnd as (_ & Hdis & _).
  apply (Hdis (tensor_id t)); apply list_elem_of_fmap; eauto.
Qed.

Lemma has_shape_persist sh dt d d' t ts : t ∈ ts → persist d d' ts → has_shape sh dt d t → has_shape sh dt d' t.
Proof.
  intros Ht Hp ([Hl Hr] & ? & ?). destruct (Hp t Ht) as [Hrows Hlive]. split; [| done].
  split; [by apply Hlive | by rewrite Hrows].
Qed.

(** One layer of a block: its four tensors have the shapes of the layer. *)
Definition layer_shapes (nkv hd : Z) (kvb : Z * Z) (y : QuantizedBlockTensors * QuantizedBlockTensors) d : Prop :=
  ∀ part, has_shape [16%Z; if is_packed_part part
                           then packed_row_bytes nkv hd (match side part with KBlock => kvb.1 | VBlock => kvb.2 end) else nkv]
            (part_dtype part) d (pair_part y part).

Lemma alloc_pair_Ok nkv w d d' q :
  alloc_pair nkv w d = (d', Ok q) →
  alloced d d' [norms q; packed_indices q] ∧ has_shape [16%Z; w] INT8 d' (packed_indices q) ∧ has_shape [16%Z; nkv] FP16 d' (norms q).
Proof.
  unfold alloc_pair. intros (d1 & t1 & H1%smap_err_Ok & (d2 & t2 & H2%smap_err_Ok & [= <- <-])%sbind_Ok)%sbind_Ok. simpl.
  split_and!.
  - eapply alloced_alloc; [| exact H2]. eapply alloced_alloc; [apply alloced_refl | exact H1].
  - pose proof (has_shape_new _ _ _ _ _ H1) as Hs. assert (Forall (has_shape [16%Z; w] INT8 d1) [t1]) as Hall by (by constructor).
    pose proof (has_shape_alloc _ _ _ _ _ _ _ _ Hall H2) as Hall'. by apply Forall_cons in Hall' as [? _].
  - by eapply has_shape_new.
Qed.

Lemma alloc_layer_Ok nkv hd kvb d d' y :
  alloc_layer nkv hd kvb d = (d', Ok y) → alloced d d' (pair_parts y) ∧ layer_shapes nkv hd kvb y d'.
Proof.
  unfold alloc_layer, slift.
  intros (d1 & kd & [= -> Hk%packed_dim_Ok] & (d2 & vd & [= -> Hv%packed_dim_Ok] &
    (d3 & k & (Ha1 & Hkp & Hkn)%alloc_pair_Ok & (d4 & v & (Ha2 & Hvp & Hvn)%alloc_pair_Ok & [= <- <-])%sbind_Ok)%sbind_Ok)%sbind_Ok)%sbind_Ok.
  subst kd vd. destruct (alloced_app _ _ _ _ _ Ha1 Ha2) as [Ha _]. split.
  - eapply alloced_perm; [| exact Ha]. unfold pair_parts. simpl. solve_Permutation.
  - assert (persist d3 d4 [norms k; packed_indices k]) as Hp.
    { eapply alloced_persist; [exact Ha2 |]. intros t Ht. by eapply alloced_t_live. }
    intros part. destruct part; simpl; try done; (eapply has_shape_persist; [| exact Hp | done]); set_solver.
Qed.

Lemma layer_shapes_persist nkv hd kvb y d d' :
  persist d d' (pair_parts y) → layer_shapes nkv hd kvb y d → layer_shapes nkv hd kvb y d'.
Proof.
  intros Hp Hs part. eapply has_shape_persist; [| exact Hp | apply Hs].
  apply list_elem_of_fmap. exists part. split; [done | apply elem_of_all_parts].
Qed.

Definition block_shapes (nkv hd : Z) (bits : list (Z * Z)) (blk : list (QuantizedBlockTensors * QuantizedBlockTensors)) d : Prop :=
  Forall2 (λ kvb y, layer_shapes nkv hd kvb y d) bits blk.

Lemma alloc_all_blocks nkv hd bits (n : nat) d d' blocks :
  smapM (λ _ : nat, smapM (alloc_layer nkv hd) bits) (seq 0 n) d = (d', Ok blocks) →
  alloced d d' (mjoin (block_parts <$> blocks)) ∧ length blocks = n ∧
  ∀ b blk, blocks !! b = Some blk → block_shapes nkv hd bits blk d'.
Proof.
  intros Hm. destruct (smapM_alloced (λ _ : nat, smapM (alloc_layer nkv hd) bits) block_parts
    (λ _ blk d, block_shapes nkv hd bits blk d) (seq 0 n) d d' blocks) as [Ha Hq]; [| | done |].
  - intros _ d1 d2 blk Hb. apply (smapM_alloced (alloc_layer nkv hd) pair_parts (layer_shapes nkv hd) bits d1 d2 blk); [| | done].
    + intros. by apply alloc_layer_Ok.
    + intros. by eapply layer_shapes_persist.
  - intros _ blk d1 d2 Hp Hs. eapply Forall2_impl_in; [exact Hs |]. intros kvb y _ Hy. apply layer_shapes_persist.
    intros t Ht. apply Hp. apply list_elem_of_join. exists (pair_parts y). split; [done |].
    apply list_elem_of_fmap. eauto.
  - split_and!; [done | by rewrite <- (Forall2_length _ _ _ Hq), length_seq |].
    intros b blk Hb. by apply (Forall2_lookup_r _ _ _ _ _ Hq) in Hb as (? & _ & ?).
Qed.
(** Tensor [t] of shape [sh] was filled with the numbers [host]. *)
Definition filled d (sh : list Z) (host : list f32) (t : DeviceTensor) : Prop :=
  t_live d t ∧ shape t = sh ∧ ∃ n, size_bytes t = Ok n ∧
    t_rows d t = chunk_rows (Z.to_nat (default 0%Z (head sh))) (take (Z.to_nat n) (matrix_bytes host)).

Lemma filled_persist d d' sh host t ts : t ∈ ts → persist d d' ts → filled d sh host t → filled d' sh host t.
Proof.
  intros Ht Hp (Hl & Hsh & n & Hn & Hr). destruct (Hp t Ht) as [Hrows Hlive].
  split_and!; [by apply Hlive | done |]. exists n. split; [done | by rewrite Hrows].
Qed.

Lemma alloc_fill_filled d d' sh host t :
  alloc_fill sh FP32 (matrix_bytes host) d = (d', Ok t) → alloced d d' [t] ∧ filled d' sh host t.
Proof.
  intros (Ha & Hsh & _ & n & Hn & _ & Hr)%alloc_fill_Ok. split; [done |].
  split_and!; [eapply alloced_t_live; [done | left] | done | eauto].
Qed.

(** The rotations of a layer are those generated from its seeds. *)
Definition rotation_ok (hd base : Z) (layer : nat) (kv : DeviceTensor * DeviceTensor) d : Prop :=
  ∃ seeds km vm, rotation_seeds base (Z.of_nat layer) = Ok seeds ∧
    generate_rotation_matrix ln cos sin (Z.to_nat hd) seeds.1 = Ok km ∧
    generate_rotation_matrix ln cos sin (Z.to_nat hd) seeds.2 = Ok vm ∧
    filled d [hd; hd] km kv.1 ∧ filled d [hd; hd] vm kv.2.
Definition rot_pair (kv : DeviceTensor * DeviceTensor) : list DeviceTensor := [kv.1; kv.2].

Lemma upload_rotations_Ok hd base layer d d' kv :
  upload_rotations ln cos sin hd base layer d = (d', Ok kv) → alloced d d' (rot_pair kv) ∧ rotation_ok hd base layer kv d'.
Proof.
  unfold upload_rotations, upload_rotation, slift.
  intros (d1 & seeds & [= -> Hs] & (d2 & k & (d3 & km & [= -> Hkm] & [Ha1 Hf1]%alloc_fill_filled)%sbind_Ok &
    (d4 & v & (d5 & vm & [= -> Hvm] & [Ha2 Hf2]%alloc_fill_filled)%sbind_Ok & [= <- <-])%sbind_Ok)%sbind_Ok)%sbind_Ok.
  destruct (alloced_app _ _ _ _ _ Ha1 Ha2) as [Ha _]. split.
  - eapply alloced_perm; [| exact Ha]. unfold rot_pair. simpl. solve_Permutation.
  - exists seeds, km, vm. split_and!; try done. eapply filled_persist; [| | exact Hf1]; [by left |].
    eapply alloced_persist; [exact Ha2 |]. intros t Ht. by eapply alloced_t_live.
Qed.

Lemma rotation_ok_persist hd base layer kv d d' :
  persist d d' (rot_pair kv) → rotation_ok hd base layer kv d → rotation_ok hd base layer kv d'.
Proof.
  intros Hp (seeds & km & vm & ? & ? & ? & ? & ?). exists seeds, km, vm.
  split_and!; try done; (eapply filled_persist; [| exact Hp | done]); set_solver.
Qed.

(** A table holds the centroids of its codebook. *)
Definition table_ok (bcb : Z * LloydMaxCodebook) (bt : Z * DeviceTensor) d : Prop :=
  bt.1 = bcb.1 ∧ ∃ n, n_levels bcb.2 = Ok n ∧ filled d [Z.of_nat n] (centroids bcb.2) bt.2.

Lemma upload_codebook_Ok bcb d d' bt :
  upload_codebook bcb d = (d', Ok bt) → alloced d d' [bt.2] ∧ table_ok bcb bt d'.
Proof.
  unfold upload_codebook, slift. intros (d1 & n & [= -> Hn] & (d2 & t & [Ha Hf]%alloc_fill_filled & [= <- <-])%sbind_Ok)%sbind_Ok.
  split; [done |]. split; [done |]. eauto.
Qed.

Lemma table_ok_persist bcb bt d d' : persist d d' [bt.2] → table_ok bcb bt d → table_ok bcb bt d'.
Proof. intros Hp (? & n & ? & ?). split; [done |]. exists n. split; [done |]. eapply filled_persist; [by left | done | done]. Qed.

Lemma mjoin_singletons (l : list (Z * DeviceTensor)) : mjoin ((λ bt, [bt.2]) <$> l) = l.*2.
Proof. induction l as [|x l IH]; [done |]. csimpl. by rewrite IH. Qed.

(** The pool of the given parts. *)
Definition pool_of (n nl : nat) (nkv hd : Z) (c : TurboQuantConfig)
    (blocks : list (list (QuantizedBlockTensors * QuantizedBlockTensors)))
    (rots : list (DeviceTensor * DeviceTensor)) (tables : list (Z * DeviceTensor)) : QuantizedBlockPool :=
  {| qk_blocks := (λ ls, ls.*1) <$> blocks; qv_blocks := (λ ls, ls.*2) <$> blocks;
     q_free_list := seq 0 n; q_capacity := n; q_num_layers := nl; q_num_kv_heads := nkv;
     q_head_dim := hd; layer_key_bits := (bits_of_layers c nl).*1; layer_value_bits := (bits_of_layers c nl).*2;
     k_rotation_matrices := rots.*1; v_rotation_matrices := rots.*2;
     centroid_tables := foldl (λ m bt, <[bt.1 := bt.2]> m) ∅ tables |}.

Definition parts_tensors (blocks : list (list (QuantizedBlockTensors * QuantizedBlockTensors)))
    (rots : list (DeviceTensor * DeviceTensor)) (tables : list (Z * DeviceTensor)) : list DeviceTensor :=
  mjoin (block_parts <$> blocks) ++ mjoin (rot_pair <$> rots) ++ tables.*2.

(** What the parts hold on the device. *)
Record parts_ok (ho : HashOrder) (n nl : nat) (nkv hd : Z) (c : TurboQuantConfig) d codebooks
    (blocks : list (list (QuantizedBlockTensors * QuantizedBlockTensors)))
    (rots : list (DeviceTensor * DeviceTensor)) (tables : list (Z * DeviceTensor)) : Prop := {
  pk_len : length blocks = n;
  pk_blocks : ∀ b blk, blocks !! b = Some blk → block_shapes nkv hd (bits_of_layers c nl) blk d;
  pk_rots : Forall2 (λ l kv, rotation_ok hd (tq_seed c) l kv d) (seq 0 nl) rots;
  pk_codebooks : compute_codebook_tables exp c (Z.to_nat hd) = Ok codebooks;
  pk_tables : Forall2 (λ bcb bt, table_ok bcb bt d) (hm_iter ho codebooks) tables
}.

Lemma parts_ok_persist ho n nl nkv hd c d d' cbs blocks rots tables :
  persist d d' (parts_tensors blocks rots tables) → parts_ok ho n nl nkv hd c d cbs blocks rots tables →
  parts_ok ho n nl nkv hd c d' cbs blocks rots tables.
Proof.
  intros Hp [Hlen Hb Hr Hc Ht]. unfold parts_tensors in Hp. split; [done | | | done |].
  - intros b blk Hblk. eapply Forall2_impl_in; [by apply (Hb b) |]. intros kvb y _ [l Hy]%list_elem_of_lookup.
    apply layer_shapes_persist. intros t (part & -> & _)%list_elem_of_fmap. apply Hp.
    apply elem_of_app. left. by eapply elem_of_blocks_parts.
  - eapply Forall2_impl_in; [exact Hr |]. intros l kv _ Hkv. apply rotation_ok_persist. intros t Htin. apply Hp.
    apply elem_of_app. right. apply elem_of_app. left. apply list_elem_of_join. exists (rot_pair kv). split; [done |].
    apply list_elem_of_fmap. eauto.
  - eapply Forall2_impl_in; [exact Ht |]. intros bcb bt _ Hbt. apply table_ok_persist.
    intros t ->%list_elem_of_singleton. apply Hp. rewrite !elem_of_app. right. right. apply list_elem_of_fmap. eauto.
Qed.

Lemma qpool_new_parts ho n nl nkv hd c d d' p :
  qpool_new exp ln cos sin ho n nl nkv hd c d = (d', Ok p) →
  ∃ cbs blocks rots tables, p = pool_of n nl nkv hd c blocks rots tables ∧
    alloced d d' (parts_tensors blocks rots tables) ∧ parts_ok ho n nl nkv hd c d' cbs blocks rots tables.
Proof.
  unfold qpool_new, slift. intros (d1 & blocks & Hb & (d2 & rots & Hr & (d2' & cbs & [= -> Hc] & (d3 & tables & Ht & [= <- <-])
    %sbind_Ok)%sbind_Ok)%sbind_Ok)%sbind_Ok.
  exists cbs, blocks, rots, tables. split; [done |].
  apply alloc_all_blocks in Hb as (Ha1 & Hlen & Hshapes).
  apply (smapM_alloced _ rot_pair (λ l kv d, rotation_ok hd (tq_seed c) l kv d)) in Hr as [Ha2 Hrots];
    [| intros; by apply upload_rotations_Ok | intros; by eapply rotation_ok_persist].
  apply (smapM_alloced _ (λ bt, [bt.2]) (λ bcb bt d, table_ok bcb bt d)) in Ht as [Ha3 Htables];
    [| intros; by apply upload_codebook_Ok | intros; by eapply table_ok_persist].
  rewrite mjoin_singletons in Ha3.
  destruct (alloced_app _ _ _ _ _ Ha1 Ha2) as [Ha12 _]. destruct (alloced_app _ _ _ _ _ Ha12 Ha3) as [Ha _].
  split; [eapply alloced_perm; [| exact Ha]; unfold parts_tensors; solve_Permutation |].
  split; [done | | | done | done].
  - intros b blk Hblk. eapply Forall2_impl_in; [by apply (Hshapes b) |]. intros kvb y _ [i Hy]%list_elem_of_lookup.
    apply layer_shapes_persist.
    intros t (part & -> & _)%list_elem_of_fmap. pose proof (elem_of_blocks_parts blocks b blk i y part Hblk Hy) as Hin.
    destruct (alloced_app _ _ _ _ _ Ha2 Ha3) as [Ha23 _]. apply (alloced_persist _ _ (mjoin (block_parts <$> blocks)) _ Ha23); [| done].
    intros u Hu. by eapply alloced_t_live.
  - eapply Forall2_impl_in; [exact Hrots |]. intros l kv _ Hkv. apply rotation_ok_persist.
    eapply alloced_persist; [exact Ha3 |]. intros t Htin. eapply alloced_t_live; [exact Ha2 |].
    apply list_elem_of_join. exists (rot_pair kv). split; [done |]. apply list_elem_of_fmap. eauto.
Qed.
Lemma pool_of_tensor n nl nkv hd c blocks rots tables part b l t :
  q_tensor (pool_of n nl nkv hd c blocks rots tables) part b l = Ok t ↔
  ∃ blk y, blocks !! b = Some blk ∧ blk !! l = Some y ∧ t = pair_part y part.
Proof.
  unfold q_tensor. rewrite rbind_Ok. setoid_rewrite rbind_Ok. setoid_rewrite index_Ok.
  destruct part; simpl; setoid_rewrite list_lookup_fmap_Some; split.
  1,3,5,7: intros (x & (blk & -> & Hb) & q & Hq & [= <-]);
    apply list_lookup_fmap_Some in Hq as (y & -> & Hy); by exists blk, y.
  all: intros (blk & y & Hb & Hy & ->); eexists; (split; [by exists blk |]); eexists; (split; [| done]);
    by rewrite list_lookup_fmap, Hy.
Qed.

Lemma packed_dims_Ok nkv hd bits ks :
  rmapM (packed_dim nkv hd) bits = Ok ks → ks = packed_row_bytes nkv hd <$> bits.
Proof.
  revert ks. induction bits as [|b bits IH]; intros ks Hk; cbn [rmapM] in Hk; rinv; [done |].
  csimpl. f_equal; [by apply packed_dim_Ok | by apply IH].
Qed.

Lemma scratch_tensors_parts sc : scratch_tensors sc = sc_tensor sc <$> all_parts.
Proof. done. Qed.

Lemma q_new_parts ho n nl nkv hd mct c d d' cm :
  q_new exp ln cos sin ho n nl nkv hd mct c d = (d', Ok cm) →
  ∃ cbs blocks rots tables, q_tables cm = tables_new (pool_of n nl nkv hd c blocks rots tables) ∧
    alloced d d' (scratch_tensors (scratch cm) ++ parts_tensors blocks rots tables) ∧
    parts_ok ho n nl nkv hd c d' cbs blocks rots tables ∧
    ∀ part, has_shape [mct; scratch_width (pool_of n nl nkv hd c blocks rots tables) part] (part_dtype part) d'
              (sc_tensor (scratch cm) part).
Proof.
  unfold q_new, slift. intros (d1 & p & Hp & (d1' & kd & [= <- Hkd] & (d1'' & vd & [= <- Hvd] & Hsc)%sbind_Ok)%sbind_Ok)%sbind_Ok.
  apply packed_dims_Ok in Hkd, Hvd. subst kd vd.
  apply qpool_new_parts in Hp as (cbs & blocks & rots & tables & -> & Ha & Hparts).
  apply sbind_Ok in Hsc as (d2 & kp & H2 & (d3 & kn & H3 & (d4 & vp & H4 & (d5 & vn & H5 & [= <- <-])%sbind_Ok)%sbind_Ok)%sbind_Ok).
  exists cbs, blocks, rots, tables.
  pose proof (alloced_alloc _ _ _ _ _ _ _ (alloced_refl d1) H2) as A2. pose proof (alloced_alloc _ _ _ _ _ _ _ A2 H3) as A3.
  pose proof (alloced_alloc _ _ _ _ _ _ _ A3 H4) as A4. pose proof (alloced_alloc _ _ _ _ _ _ _ A4 H5) as A5.
  destruct (alloced_app _ _ _ _ _ Ha A5) as [Hall _]. split_and!; [done | | |].
  - eapply alloced_perm; [| exact Hall]. unfold scratch_tensors. simpl. solve_Permutation.
  - eapply parts_ok_persist; [| exact Hparts]. eapply alloced_persist; [exact A5 |].
    intros t Ht. by eapply alloced_t_live.
  - assert (∀ sh dt t d1 d2 sh' dt' t', has_shape sh dt d1 t → b_alloc sh' dt' d1 = (d2, Ok t') → has_shape sh dt d2 t) as Hkeep.
    { intros sh dt t e1 e2 sh' dt' t' Hs Hal. assert (Forall (has_shape sh dt e1) [t]) as Hf by (by constructor).
      pose proof (has_shape_alloc _ _ _ _ _ _ _ _ Hf Hal) as Hf'. by apply Forall_cons in Hf' as [? _]. }
    apply has_shape_new in H2 as S2, H3 as S3, H4 as S4, H5 as S5. intros part. destruct part; simpl; eauto 6.
Qed.

Lemma table_keys_NoDup ho (cbs : gmap Z LloydMaxCodebook) tables d :
  Forall2 (λ bcb bt, table_ok bcb bt d) (hm_iter ho cbs) tables → NoDup tables.*1.
Proof.
  intros Ht. assert (tables.*1 = (hm_iter ho cbs).*1) as ->; [| apply NoDup_hm_iter_fst].
  induction Ht as [|[b cb] [b' t'] l k [Hb _] _ IH]; [done |]. csimpl. simpl in Hb. by rewrite Hb, IH.
Qed.

Lemma tables_lookup ho n nl nkv hd c d cbs blocks rots tables bits t :
  parts_ok ho n nl nkv hd c d cbs blocks rots tables →
  centroid_tables (pool_of n nl nkv hd c blocks rots tables) !! bits = Some t ↔ (bits, t) ∈ tables.
Proof.
  intros [_ _ _ _ Ht]. simpl. rewrite foldl_insert_lookup; [rewrite lookup_empty; naive_solver |].
  by eapply table_keys_NoDup.
Qed.

(** The codec of a layer, on the device. *)
Lemma parts_codec ho n nl nkv hd c d cbs blocks rots tables s layer :
  tq_validate c = Ok () → parts_ok ho n nl nkv hd c d cbs blocks rots tables → layer < nl →
  ∃ bits rot cent cb m seeds host, codec (pool_of n nl nkv hd c blocks rots tables) s layer = Ok (bits, rot, cent) ∧
    rot ∈ mjoin (rot_pair <$> rots) ∧ cent ∈ tables.*2 ∧
    rotation_seeds (tq_seed c) (Z.of_nat layer) = Ok seeds ∧
    generate_rotation_matrix ln cos sin (Z.to_nat hd) (match s with KBlock => seeds.1 | VBlock => seeds.2 end) = Ok host ∧
    filled d [hd; hd] host rot ∧
    compute_codebook_tables exp c (Z.to_nat hd) = Ok m ∧ m !! bits = Some cb ∧
    filled d [(2 ^ bits)%Z] (centroids cb) cent.
Proof.
  intros Hval Hok Hl. pose proof Hok as [_ _ Hr Hc Ht].
  destruct (codebook_tables_Ok exp c (Z.to_nat hd)) as (m & Hm & Hdom & Hcb); [by apply validated_widths |].
  rewrite Hc in Hm. injection Hm as <-.
  destruct (codebook_covers_layers c (Z.of_nat layer) (Z.of_nat nl)) as (Hkin & Hvin & _).
  assert (seq 0 nl !! layer = Some layer) as Hseq by (by apply lookup_seq_lt).
  destruct (Forall2_lookup_l _ _ _ _ _ Hr Hseq) as ([kr vr] & Hrots & seeds & km & vm & Hseeds & Hkm & Hvm & Hkf & Hvf).
  assert (∀ bits, bits ∈ distinct_bit_widths c → ∃ cb t, cbs !! bits = Some cb ∧ (bits, t) ∈ tables ∧
    filled d [(2 ^ bits)%Z] (centroids cb) t) as Hcent.
  { intros bits [cb E]%Hdom. pose proof (proj2 (elem_of_hm_iter ho cbs bits cb) E) as [i Hi]%list_elem_of_lookup.
    destruct (Forall2_lookup_l _ _ _ _ _ Ht Hi) as ([b' t'] & Hi' & Heq & k & Hk & Hf). simpl in *. subst b'.
    exists cb, t'. split_and!; [done | by eapply list_elem_of_lookup_2 |].
    destruct (Hcb bits cb E) as (_ & Hlev & Hpow & _). rewrite Hlev in Hk. injection Hk as <-. by rewrite Hpow in Hf. }
  assert ((bits_of_layers c nl) !! layer =
    Some (key_bits_for_layer c (Z.of_nat layer) (Z.of_nat nl), value_bits_for_layer c (Z.of_nat layer) (Z.of_nat nl))) as Hbits.
  { unfold bits_of_layers. by rewrite list_lookup_fmap, Hseq. }
  assert (∀ x, x = kr ∨ x = vr → x ∈ mjoin (rot_pair <$> rots)) as Hrin.
  { intros x Hx. apply list_elem_of_join. exists (rot_pair (kr, vr)). split; [unfold rot_pair; set_solver |].
    apply list_elem_of_fmap. eexists. split; [done |]. by eapply list_elem_of_lookup_2. }
  destruct s.
  - destruct (Hcent _ Hkin) as (cb & t & Hcb' & Htin & Htf). eexists _, kr, t, cb, cbs, seeds, km.
    split_and!; [| by apply Hrin; left | apply list_elem_of_fmap; eexists (_, _); split; [| exact Htin]; done | done..].
    unfold codec, k_rotation, index, q_centroids. simpl. rewrite !list_lookup_fmap, Hbits, Hrots. simpl.
    pose proof (proj2 (tables_lookup ho n nl nkv hd c d cbs blocks rots tables _ t Hok) Htin) as Hlk.
    simpl in Hlk. by rewrite Hlk.
  - destruct (Hcent _ Hvin) as (cb & t & Hcb' & Htin & Htf). eexists _, vr, t, cb, cbs, seeds, vm.
    split_and!; [| by apply Hrin; right | apply list_elem_of_fmap; eexists (_, _); split; [| exact Htin]; done | done..].
    unfold codec, v_rotation, index, q_centroids. simpl. rewrite !list_lookup_fmap, Hbits, Hrots. simpl.
    pose proof (proj2 (tables_lookup ho n nl nkv hd c d cbs blocks rots tables _ t Hok) Htin) as Hlk.
    simpl in Hlk. by rewrite Hlk.
Qed.
Lemma pool_of_bits n nl nkv hd c blocks rots tables s layer bits :
  layer_bits (pool_of n nl nkv hd c blocks rots tables) s !! layer = Some bits →
  ∃ kvb, bits_of_layers c nl !! layer = Some kvb ∧ bits = match s with KBlock => kvb.1 | VBlock => kvb.2 end.
Proof. destruct s; simpl; intros (kvb & -> & ?)%list_lookup_fmap_Some; eauto. Qed.

Lemma length_bits_of_layers c nl : length (bits_of_layers c nl) = nl.
Proof. unfold bits_of_layers. by rewrite length_fmap, length_seq. Qed.

(** The parts make a store. *)
Lemma parts_shape ho n nl nkv hd c d cbs blocks rots tables part b l t :
  parts_ok ho n nl nkv hd c d cbs blocks rots tables →
  q_tensor (pool_of n nl nkv hd c blocks rots tables) part b l = Ok t →
  t ∈ mjoin (block_parts <$> blocks) ∧
  ∃ kvb, bits_of_layers c nl !! l = Some kvb ∧
    has_shape [16%Z; part_width (pool_of n nl nkv hd c blocks rots tables) part
                       (match side part with KBlock => kvb.1 | VBlock => kvb.2 end)] (part_dtype part) d t.
Proof.
  intros [_ Hb _ _ _] (blk & y & Hblk & Hy & ->)%pool_of_tensor. split; [by eapply elem_of_blocks_parts |].
  destruct (Forall2_lookup_r _ _ _ _ _ (Hb b blk Hblk) Hy) as (kvb & Hk & Hs). exists kvb. split; [done |].
  exact (Hs part).
Qed.

Lemma parts_store ho n nl nkv hd c d0 d cbs blocks rots tables rest :
  parts_ok ho n nl nkv hd c d cbs blocks rots tables → alloced d0 d (rest ++ parts_tensors blocks rots tables) →
  let p := pool_of n nl nkv hd c blocks rots tables in store_ok (q_dst p) (q_slots p) n d.
Proof.
  intros Hok Ha p. pose proof Hok as [Hlen Hb _ _ _]. split.
  - intros [part l] b Hl Hbn. unfold q_dst, q_slots in *. simpl in *.
    destruct (lookup_lt_is_Some_2 blocks b) as [blk Hblk]; [lia |].
    pose proof (Forall2_length _ _ _ (Hb b blk Hblk)) as Hbl. rewrite length_bits_of_layers in Hbl.
    destruct (lookup_lt_is_Some_2 blk l) as [y Hy]; [lia |]. exists (pair_part y part). apply pool_of_tensor. eauto.
  - intros [part l] b t Ht. destruct (parts_shape _ _ _ _ _ _ _ _ _ _ _ _ _ _ _ Hok Ht) as (_ & kvb & _ & Hv & Hsh & _).
    split; [done |]. destruct Hv as [_ ->]. unfold nrows. by rewrite Hsh.
  - intros [part l] [part' l'] b b' t t' (blk & y & Hblk & Hy & ->)%pool_of_tensor (blk' & y' & Hblk' & Hy' & ->)%pool_of_tensor Heq.
    assert (NoDup (tensor_id <$> mjoin (block_parts <$> blocks))) as Hnd.
    { pose proof (al_nodup _ _ _ Ha) as Hnd. unfold parts_tensors in Hnd. rewrite !fmap_app in Hnd.
      apply NoDup_app in Hnd as (_ & _ & Hnd). by apply NoDup_app in Hnd as (? & _). }
    by destruct (blocks_parts_inj blocks b b' blk blk' l l' y y' part part') as (-> & -> & ->).
Qed.

Lemma sc_tensor_in sc part : sc_tensor sc part ∈ scratch_tensors sc.
Proof. rewrite scratch_tensors_parts. apply list_elem_of_fmap. exists part. split; [done | apply elem_of_all_parts]. Qed.

Lemma q_new_ok ho n nl nkv hd mct c d d' cm :
  tq_validate c = Ok () → q_new exp ln cos sin ho n nl nkv hd mct c d = (d', Ok cm) → q_ok d' cm.
Proof.
  intros Hval (cbs & blocks & rots & tables & Htab & Ha & Hok & Hsc)%q_new_parts.
  set (p := pool_of n nl nkv hd c blocks rots tables) in *.
  assert (pool (q_tables cm) = p) as Hp by (by rewrite Htab).
  assert (∀ part t, t ∈ parts_tensors blocks rots tables → tensor_id (sc_tensor (scratch cm) part) ≠ tensor_id t) as Hscout.
  { intros part t Ht. eapply alloced_disjoint; [exact Ha | apply sc_tensor_in | done]. }
  assert (∀ s b t, q_dst p s b = Ok t → t ∈ mjoin (block_parts <$> blocks)) as Hin.
  { intros [part l] b t Ht. by apply (parts_shape _ _ _ _ _ _ _ _ _ _ _ _ _ _ _ Hok Ht). }
  assert (∀ u, u ∈ mjoin (rot_pair <$> rots) ++ tables.*2 → q_outside cm (tensor_id u)) as Haux.
  { intros u Hu. split; rewrite ?Hp.
    - intros s b t Ht%Hin Heq. pose proof (al_nodup _ _ _ Ha) as Hnd. rewrite fmap_app in Hnd.
      apply NoDup_app in Hnd as (_ & _ & Hnd). unfold parts_tensors in Hnd. rewrite fmap_app in Hnd.
      apply NoDup_app in Hnd as (_ & Hdis & _). apply (Hdis (tensor_id t)); apply list_elem_of_fmap; eauto.
    - intros part Heq. apply (Hscout part u); [| done]. apply elem_of_app. by right. }
  split; rewrite ?Hp.
  - rewrite Htab. by apply tables_new_inv.
  - by eapply parts_store.
  - intros part l b t bits Ht (kvb & Hk & ->)%pool_of_bits.
    destruct (parts_shape _ _ _ _ _ _ _ _ _ _ _ _ _ _ _ Hok Ht) as (_ & kvb' & Hk' & _ & Hsh & Hdt).
    rewrite Hk in Hk'. injection Hk' as <-. by rewrite Hsh.
  - intros part. destruct (Hsc part) as (? & Hsh & ?). by rewrite Hsh.
  - intros part part' Heq. pose proof (al_nodup _ _ _ Ha) as Hnd. rewrite fmap_app in Hnd.
    apply NoDup_app in Hnd as (Hnd & _ & _). rewrite scratch_tensors_parts in Hnd. apply part_index_inj.
    assert (∀ q, (tensor_id <$> (sc_tensor (scratch cm) <$> all_parts)) !! part_index q = Some (tensor_id (sc_tensor (scratch cm) q)))
      as Hlk by (by intros []).
    eapply (NoDup_lookup _ _ _ _ Hnd); [apply Hlk | rewrite Heq; apply Hlk].
  - intros part s b t Ht%Hin. apply Hscout. apply elem_of_app. by left.
  - intros s layer Hl. destruct (parts_codec _ _ _ _ _ _ _ _ _ _ _ s layer Hval Hok Hl)
      as (bits & rot & cent & cb & m & seeds & host & Hcd & Hr & Hc & _ & _ & [? _] & _ & _ & [? _]).
    exists bits, rot, cent. split_and!; try done; apply Haux; set_solver.
Qed.

(** ** Destroying the cache *)

Lemma block_parts_split blk :
  block_parts blk ≡ₚ mjoin (pair_tensors <$> blk.*1) ++ mjoin (pair_tensors <$> blk.*2).
Proof.
  induction blk as [|[k v] blk IH]; [done |]. unfold block_parts in *. csimpl. rewrite IH. solve_Permutation.
Qed.

Lemma blocks_parts_split (blocks : list (list (QuantizedBlockTensors * QuantizedBlockTensors))) :
  mjoin (block_parts <$> blocks) ≡ₚ
  blocks_tensors ((λ ls, ls.*1) <$> blocks) ++ blocks_tensors ((λ ls, ls.*2) <$> blocks).
Proof.
  unfold blocks_tensors. induction blocks as [|blk blocks IH]; [done |]. csimpl.
  rewrite !fmap_app, !join_app, IH, block_parts_split. solve_Permutation.
Qed.

Lemma rot_pairs_split (rots : list (DeviceTensor * DeviceTensor)) : mjoin (rot_pair <$> rots) ≡ₚ rots.*1 ++ rots.*2.
Proof. induction rots as [|[k v] rots IH]; [done |]. unfold rot_pair in *. csimpl. rewrite IH. solve_Permutation. Qed.

Lemma tables_values ho ho' n nl nkv hd c d cbs blocks rots tables :
  parts_ok ho n nl nkv hd c d cbs blocks rots tables →
  tables.*2 ≡ₚ hm_values ho' (centroid_tables (pool_of n nl nkv hd c blocks rots tables)).
Proof.
  intros Hok. unfold hm_values. rewrite hm_iter_perm. apply fmap_Permutation. apply NoDup_Permutation.
  - pose proof Hok as [_ _ _ _ Ht]. eapply (NoDup_fmap_1 fst). by eapply table_keys_NoDup.
  - apply NoDup_map_to_list.
  - intros [bits t]. rewrite elem_of_map_to_list. symmetry. by eapply tables_lookup.
Qed.

Lemma q_destroy_all ho ho' n nl nkv hd mct c d d' cm :
  q_new exp ln cos sin ho n nl nkv hd mct c d = (d', Ok cm) →
  ∃ d'', q_destroy ho' cm d' = (d'', Ok ()) ∧ b_live d'' = b_live d ∧ same_rows (b_live d) d d''.
Proof.
  intros (cbs & blocks & rots & tables & Htab & Ha & Hok & _)%q_new_parts.
  eapply alloced_perm in Ha; [| unfold parts_tensors;
    rewrite blocks_parts_split, rot_pairs_split, (tables_values ho ho' _ _ _ _ _ _ _ _ _ _ Hok), <- !app_assoc; reflexivity].
  destruct (free_each_spec _ _ _ _ Ha) as (d1 & H1 & A1). destruct (free_each_spec _ _ _ _ A1) as (d2 & H2 & A2).
  destruct (free_each_spec _ _ _ _ A2) as (d3 & H3 & A3). destruct (free_each_spec _ _ _ _ A3) as (d4 & H4 & A4).
  destruct (free_each_spec _ _ _ _ A4) as (d5 & H5 & A5).
  destruct (free_each_spec d (hm_values ho' (centroid_tables (pool_of n nl nkv hd c blocks rots tables))) [] d5)
    as (d6 & H6 & A6); [by rewrite app_nil_r |].
  exists d6. split; [| by apply alloced_nil]. unfold q_destroy, qpool_destroy, sbind. rewrite Htab, H1. simpl pool.
  unfold pool_of in *. cbn [qk_blocks qv_blocks k_rotation_matrices v_rotation_matrices centroid_tables] in *.
  by rewrite H2, H3, H4, H5, H6.
Qed.
(** Without protected layers every layer is as wide as the widest. *)
Lemma max_dim_const (l : list Z) w : (0 ≤ w)%Z → l ≠ [] → Forall (λ x, x = w) l → max_dim l = w.
Proof.
  intros Hw Hne Hall. destruct l as [|x l]; [done |]. apply Forall_cons in Hall as [-> Hall]. simpl.
  assert (max_dim l ≤ w)%Z; [| lia]. induction Hall as [|y l -> _ IH]; simpl; [lia |]. assert (max_dim l ≤ w)%Z by (by apply IH). lia.
Qed.

Lemma uniform_fills n nl nkv hd c blocks rots tables layer :
  (0 ≤ nkv)%Z → (0 ≤ hd)%Z → tq_validate c = Ok () → (protected_layers c ≤ 0)%Z →
  fills_scratch (pool_of n nl nkv hd c blocks rots tables) layer.
Proof.
  intros Hnkv Hhd Hval Hprot part bits Hb. unfold part_width, scratch_width.
  destruct (is_packed_part part); [| done]. cbn [q_num_kv_heads q_head_dim pool_of]. symmetry.
  assert (∀ x, x ∈ layer_bits (pool_of n nl nkv hd c blocks rots tables) (side part) →
    x = (match side part with KBlock => key_bits c | VBlock => value_bits c end)) as Hx.
  { intros x Hx. assert (∀ l k, is_protected c l k = false) as Hnp.
    { intros. unfold is_protected. by rewrite (proj2 (Z.ltb_ge _ _)). }
    unfold layer_bits, pool_of, bits_of_layers, key_bits_for_layer, value_bits_for_layer in Hx.
    destruct (side part); cbn in Hx; apply list_elem_of_fmap in Hx as (kv & -> & (l & -> & _)%list_elem_of_fmap); simpl; by rewrite Hnp. }
  pose proof (Hx bits (list_elem_of_lookup_2 _ _ _ Hb)) as Hbits.
  assert (0 ≤ bits < 64)%Z as Hrange.
  { pose proof (validated_widths c Hval) as Hw. rewrite Forall_forall in Hw. apply Hw, elem_of_distinct_bit_widths.
    destruct (side part); auto. }
  apply max_dim_const.
  - unfold packed_row_bytes. pose proof (Z.div_pos (hd * bits + 7) 8). nia.
  - intros Hnil%fmap_nil_inv. by rewrite Hnil in Hb.
  - apply Forall_fmap, Forall_forall. intros x Hin. simpl. by rewrite (Hx x Hin), Hbits.
Qed.

(** Whatever operations run on a new quantized cache, with whatever
    arguments and results (failed appends included), its blocks [0 .. n) are
    partitioned between the free list and the block tables, as in the paged
    cache. *)
Theorem q_block_ownership ho n nl nkv hd mct c d d' cm ops :
  q_new exp ln cos sin ho n nl nkv hd mct c d = (d', Ok cm) →
  let m := q_tables (foldl (λ cd op, q_run op cd) (cm, d') ops).1 in
  owned (sequences m) ++ q_free_list (pool m) ≡ₚ seq 0 n.
Proof.
  intros (cbs & blocks & rots & tables & Htab & _)%q_new_parts m.
  destruct (q_runs_inv ops cm d') as [Hinv Hmv]; [rewrite Htab; by apply tables_new_inv |].
  pose proof (inv_partition _ Hinv) as Hp. simpl in Hp. apply pool_moved_capacity in Hmv. simpl in Hmv.
  fold m in Hp, Hmv. by rewrite Hmv, Htab in Hp.
Qed.

(** A quantized cache created from a validated configuration is
    well-formed, empty and has all its blocks free; every layer finds the bit
    width, the rotation and the centroids it needs on the device, filled with
    the matrix generated from the layer's seed and with the centroids of the
    codebook of its width; without protected layers the rows of every layer
    fill the scratch tensors; destroying it gives back exactly what creating
    it allocated. *)
Theorem q_new_spec ho ho' n nl nkv hd mct c d d' cm :
  tq_validate c = Ok () → (0 ≤ nkv)%Z → (0 ≤ hd)%Z →
  q_new exp ln cos sin ho n nl nkv hd mct c d = (d', Ok cm) →
  q_ok d' cm ∧ sequences (q_tables cm) = ∅ ∧ num_free_blocks (q_tables cm) = n ∧
  (∀ s layer, layer < nl →
     ∃ bits rot cent cb m seeds host, codec (pool (q_tables cm)) s layer = Ok (bits, rot, cent) ∧
       rotation_seeds (tq_seed c) (Z.of_nat layer) = Ok seeds ∧
       generate_rotation_matrix ln cos sin (Z.to_nat hd) (match s with KBlock => seeds.1 | VBlock => seeds.2 end) = Ok host ∧
       filled d' [hd; hd] host rot ∧
       compute_codebook_tables exp c (Z.to_nat hd) = Ok m ∧ m !! bits = Some cb ∧
       filled d' [(2 ^ bits)%Z] (centroids cb) cent) ∧
  ((protected_layers c ≤ 0)%Z → ∀ layer, fills_scratch (pool (q_tables cm)) layer) ∧
  ∃ d'', q_destroy ho' cm d' = (d'', Ok ()) ∧ b_live d'' = b_live d ∧ same_rows (b_live d) d d''.
Proof.
  intros Hval Hnkv Hhd Hnew. split; [by eapply q_new_ok |]. split_and!; [| | | | by eapply q_destroy_all];
    apply q_new_parts in Hnew as (cbs & blocks & rots & tables & Htab & Ha & Hok & Hsc); rewrite Htab.
  - done.
  - unfold num_free_blocks. simpl. apply length_seq.
  - intros s layer Hl. destruct (parts_codec _ _ _ _ _ _ _ _ _ _ _ s layer Hval Hok Hl)
      as (bits & rot & cent & cb & m & seeds & host & Hcd & _ & _ & Hrest).
    by exists bits, rot, cent, cb, m, seeds, host.
  - intros Hprot layer. by apply uniform_fills.
Qed.
End creation.

Module QuantizedWitness.
Definition flat (x : f64) : f64 := f64_zero.
Definition keys : DeviceTensor := {| tensor_id := 1; shape := [3; 1; 8]%Z; dtype := FP16 |}.
Definition vals : DeviceTensor := {| tensor_id := 2; shape := [3; 1; 8]%Z; dtype := FP16 |}.
Definition d0 : SimDevice :=
  {| sim_mem := {[1%Z := [[10]; [20]; [30]]%Z; 2%Z := [[11]; [21]; [31]]%Z]}; sim_room := 100 |}.
(** Three layers; with one protected layer at both ends the middle one is narrower. *)
Definition cfg (prot : Z) : TurboQuantConfig :=
  {| key_bits := 2; value_bits := 2; protected_bits := 8; protected_layers := prot; residual_tokens := 0; tq_seed := 42 |}.
Notation create prot := (q_new flat flat flat flat hash_order_id 2 3 1 8 4 (cfg prot)).

Lemma costs_pair w : costs 2 (alloc_pair 1 w).
Proof.
  apply (costs_bind 1 1); [apply costs_map_err, costs_alloc |]. intros t.
  apply (costs_bind 1 0); [apply costs_map_err, costs_alloc |]. intros t'. apply costs_ret.
Qed.

Lemma packed_dim_8 b : b ∈ VALID_BITS → packed_dim 1 8 b = Ok b.
Proof. unfold VALID_BITS. set_unfold. naive_solver. Qed.

Lemma costs_layer kvb : kvb.1 ∈ VALID_BITS → kvb.2 ∈ VALID_BITS → costs 4 (alloc_layer 1 8 kvb).
Proof.
  intros Hk Hv. eapply costs_lift; [by apply packed_dim_8 |]. eapply costs_lift; [by apply packed_dim_8 |].
  apply (costs_bind 2 2); [apply costs_pair |]. intros k. apply (costs_bind 2 0); [apply costs_pair |].
  intros v. apply costs_ret.
Qed.

Lemma length_matrix_bytes l : length (matrix_bytes l) = 4 * length l.
Proof.
  unfold matrix_bytes. rewrite (length_mjoin 4), length_fmap; [lia |]. apply Forall_fmap, Forall_forall.
  intros x _. apply length_to_le_bytes.
Qed.

Definition rotation_check (l : nat) : bool :=
  match rotation_seeds 42 (Z.of_nat l) with
  | Ok s =>
      match generate_rotation_matrix flat flat flat 8 s.1, generate_rotation_matrix flat flat flat 8 s.2 with
      | Ok k, Ok v => bool_decide (length k = 64 ∧ length v = 64)
      | _, _ => false
      end
  | _ => false
  end.

Lemma costs_rotations l : l < 3 → costs 2 (upload_rotations flat flat flat 8 42 l).
Proof.
  intros Hl. assert (rotation_check l = true) as Hc.
  { assert (forallb rotation_check (seq 0 3) = true) as Hall by (by vm_compute).
    rewrite forallb_forall in Hall. apply Hall, in_seq. lia. }
  unfold rotation_check in Hc. destruct (rotation_seeds 42 (Z.of_nat l)) as [s| |] eqn:Hs; [| done..].
  destruct (generate_rotation_matrix flat flat flat 8 s.1) as [k| |] eqn:Hk; [| done..].
  destruct (generate_rotation_matrix flat flat flat 8 s.2) as [v| |] eqn:Hv; [| done..].
  apply bool_decide_eq_true_1 in Hc as [Hkl Hvl].
  eapply costs_lift; [exact Hs |]. apply (costs_bind 1 1); [| intros t; apply (costs_bind 1 0); [| intros t'; apply costs_ret]].
  - eapply costs_lift; [exact Hk |]. apply (costs_fill _ _ _ 256); [done |]. by rewrite length_matrix_bytes, Hkl.
  - eapply costs_lift; [exact Hv |]. apply (costs_fill _ _ _ 256); [done |]. by rewrite length_matrix_bytes, Hvl.
Qed.

Lemma costs_codebook b cb : b ∈ VALID_BITS → codebook_for b cb → costs 1 (upload_codebook (b, cb)).
Proof.
  intros Hb (_ & Hlev & Hlen & _). eapply costs_lift; [exact Hlev |]. apply (costs_bind 1 0); [| intros t; apply costs_ret].
  simpl. rewrite Hlen. apply (costs_fill _ _ _ (4 * 2 ^ b)).
  - unfold VALID_BITS in Hb. set_unfold. intros id. destruct Hb as [->|[->|[->|?]]]; done.
  - rewrite length_matrix_bytes. lia.
Qed.

Lemma created prot : prot = 0%Z ∨ prot = 1%Z → ∃ d1 cm, create prot d0 = (d1, Ok cm).
Proof.
  intros Hprot. assert (tq_validate (cfg prot) = Ok ()) as Hval by done.
  destruct (codebook_tables_Ok flat (cfg prot) 8) as (m & Hm & Hdom & Hcb); [by apply validated_widths |].
  assert (∀ b, b ∈ distinct_bit_widths (cfg prot) → b ∈ [2; 8]%Z) as Hw.
  { intros b [->|[->|[_ ->]]]%elem_of_distinct_bit_widths; [left | left | right; left]. }
  assert (length (hm_iter hash_order_id m) ≤ 2) as Hsize.
  { rewrite <- (length_fmap fst). change 2 with (length [2; 8]%Z). apply submseteq_length, NoDup_submseteq; [apply NoDup_hm_iter_fst |].
    intros b ([b' cb] & -> & Hin)%list_elem_of_fmap. apply elem_of_hm_iter in Hin. apply Hw, Hdom. by exists cb. }
  assert (∀ kvb, kvb ∈ bits_of_layers (cfg prot) 3 → kvb.1 ∈ VALID_BITS ∧ kvb.2 ∈ VALID_BITS) as Hbits.
  { assert (Forall (λ kvb, kvb.1 ∈ VALID_BITS ∧ kvb.2 ∈ VALID_BITS) (bits_of_layers (cfg prot) 3)) as Hf.
    { destruct Hprot as [-> | ->]; decide_now. }
    by rewrite Forall_forall in Hf. }
  assert (costs (24 + (6 + length (hm_iter hash_order_id m) * 1)) (qpool_new flat flat flat flat hash_order_id 2 3 1 8 (cfg prot))) as Hpool.
  { apply (costs_bind 24).
    - apply (costs_smapM 12 _ (seq 0 2)). intros x _.
      replace 12 with (length (bits_of_layers (cfg prot) 3) * 4) by done. apply costs_smapM.
      intros kvb [? ?]%Hbits. by apply costs_layer.
    - intros blocks. apply (costs_bind 6).
      + apply (costs_smapM 2 _ (seq 0 3)). intros l [_ Hl]%elem_of_seq. by apply costs_rotations.
      + intros rots. eapply costs_lift; [exact Hm |]. rewrite <- (Nat.add_0_r (_ * 1)). apply costs_bind; [| intros; apply costs_ret].
        apply costs_smapM. intros [b cb] Hin%elem_of_hm_iter. apply costs_codebook; [| by apply Hcb].
        assert (b ∈ [2; 8]%Z) as [->|[->|[]%not_elem_of_nil]%elem_of_cons]%elem_of_cons by (apply Hw, Hdom; by exists cb);
          [left | right; right; left]. }
  assert (costs (24 + (6 + length (hm_iter hash_order_id m) * 1) + 4) (create prot)) as Hq.
  { apply costs_bind; [exact Hpool |]. intros p.
    destruct (rmapM_total (packed_dim 1 8) (λ _, True) (bits_of_layers (cfg prot) 3).*1) as (kd & Hkd & _).
    { intros b (kvb & -> & [? _]%Hbits)%list_elem_of_fmap. eauto using packed_dim_8. }
    destruct (rmapM_total (packed_dim 1 8) (λ _, True) (bits_of_layers (cfg prot) 3).*2) as (vd & Hvd & _).
    { intros b (kvb & -> & [_ ?]%Hbits)%list_elem_of_fmap. eauto using packed_dim_8. }
    eapply costs_lift; [exact Hkd |]. eapply costs_lift; [exact Hvd |].
    do 4 (apply (costs_bind 1); [apply costs_alloc | intros ?]); apply costs_ret. }
  destruct (Hq d0) as (d1 & cm & Hrun & _); [simpl sim_room; lia |]. eauto.
Qed.
(** A device with room for three tensors: creating the cache fails and leaves
    them all allocated. *)
Example q_new_leaks :
  let '(d', r) := q_new flat flat flat flat hash_order_id 1 1 1 8 4 (cfg 0) {| sim_mem := ∅; sim_room := 3 |} in
  r = Err (KvCache "quantized block pool norms alloc failed") ∧ size (b_live d') = 3.
Proof. by vm_compute. Qed.

(** The new cache with one sequence, handle 0. *)
Definition s0 : SequenceBlocks := {| block_table := [0]; last_block_fill := 0; current_len := 0 |}.

Lemma new_source ho n nl nkv hd mct c d d' cm t k :
  q_new flat flat flat flat ho n nl nkv hd mct c d = (d', Ok cm) →
  shape t = [Z.of_nat k; nkv; hd] → t_valid d t → (Z.of_nat k ≤ mct)%Z → q_source d' (q_alloc cm).1 t k.
Proof.
  intros (cbs & blocks & rots & tables & Htab & Ha & Hok & Hsc)%q_new_parts Hsh [Hl Hr] Hk.
  pose proof Ha as [Hlive _ Hnew Hrows]. unfold q_alloc. rewrite on_tables_1.
  destruct (tables_alloc_pool (q_tables cm)) as [fl Hfl]. rewrite Htab in Hfl.
  assert (∀ u, u ∈ scratch_tensors (scratch cm) ++ parts_tensors blocks rots tables → tensor_id t ≠ tensor_id u) as Hne.
  { intros u Hu Heq. apply (Hnew u Hu). by rewrite <- Heq. }
  unfold with_tables. split; unfold q_outside; cbn [q_tables scratch]; rewrite ?Htab, ?Hfl; [done | | |].
  - unfold t_valid, t_live, t_rows in *. rewrite Hlive, (Hrows _ Hl). split; [set_solver | done].
  - split; [| intros part; apply Hne, elem_of_app; left; apply sc_tensor_in]. intros [part l] b u Hu.
    apply Hne. apply elem_of_app. right. apply elem_of_app. left.
    by destruct (parts_shape flat flat flat flat _ _ _ _ _ _ _ _ _ _ _ _ _ _ _ Hok Hu).
  - intros part. destruct (Hsc part) as (_ & Hps & _). unfold nrows. rewrite Hps. simpl. lia.
Qed.

Lemma one_sequence prot d1 cm :
  create prot d0 = (d1, Ok cm) →
  sequences (q_tables (q_alloc cm).1) !! 0%Z = Some s0 ∧ num_free_blocks (q_tables (q_alloc cm).1) = 1 ∧
  q_num_layers (pool (q_tables (q_alloc cm).1)) = 3 ∧
  ∃ blocks rots tables, pool (q_tables (q_alloc cm).1) = q_set_free [1] (pool_of 2 3 1 8 (cfg prot) blocks rots tables).
Proof.
  intros (cbs & blocks & rots & tables & Htab & _)%q_new_parts. unfold q_alloc. rewrite on_tables_1, Htab.
  split_and!; [done.. |]. by exists blocks, rots, tables.
Qed.

Lemma source_valid t : t = keys ∨ t = vals → t_valid d0 t ∧ shape t = [3; 1; 8]%Z.
Proof. intros [-> | ->]; (split; [| done]); (split; [apply elem_of_dom; vm_compute; eauto | by vm_compute]). Qed.

Lemma q_new_witness :
  ∃ d1 cm, create 1 d0 = (d1, Ok cm) ∧ q_ok d1 cm ∧
    ∃ d'', q_destroy hash_order_rev cm d1 = (d'', Ok ()) ∧ b_live d'' = b_live d0 ∧ same_rows (b_live d0) d0 d''.
Proof.
  destruct (created 1) as (d1 & cm & Hrun); [by right |]. exists d1, cm. split; [done |].
  destruct (q_new_spec flat flat flat flat hash_order_id hash_order_rev 2 3 1 8 4 (cfg 1) d0 d1 cm)
    as (Hok & _ & _ & _ & _ & Hdestroy); [done | lia | lia | done |]. by split.
Defined.

Lemma q_block_ownership_witness :
  ∃ d1 cm, create 1 d0 = (d1, Ok cm) ∧
    let m := q_tables (foldl (λ cd op, q_run op cd) (cm, d1) [QAlloc; QAppend 0 0 keys vals; QFree 7; QFree 0]).1 in
    owned (sequences m) ++ q_free_list (pool m) ≡ₚ seq 0 2.
Proof.
  destruct (created 1) as (d1 & cm & Hrun); [by right |]. exists d1, cm. split; [done |].
  exact (q_block_ownership flat flat flat flat hash_order_id 2 3 1 8 4 (cfg 1) d0 d1 cm _ Hrun).
Defined.

Lemma q_append_witness :
  ∃ d1 cm, create 0 d0 = (d1, Ok cm) ∧
    ∃ c' d', q_append_kv 0 0 keys vals ((q_alloc cm).1, d1) = ((c', d'), Ok ()) ∧ q_ok d' c' ∧
      tables_seq_len 0 (q_tables c') = Ok 3.
Proof.
  destruct (created 0) as (d1 & cm & Hrun); [by left |]. exists d1, cm. split; [done |].
  destruct (one_sequence 0 d1 cm Hrun) as (Hs & Hfree & Hnl & blocks & rots & tables & Hp).
  destruct (source_valid keys) as [Hkv Hks]; [by left |]. destruct (source_valid vals) as [Hvv Hvs]; [by right |].
  destruct (q_append_spec d1 (q_alloc cm).1 0 s0 0 keys vals 3) as (c' & d' & H1 & H2 & H3 & _);
    [..| exists c', d'; exact (conj H1 (conj H2 H3))].
  - apply q_alloc_ok. exact (q_new_ok flat flat flat flat _ _ _ _ _ _ (cfg 0) _ _ _ eq_refl Hrun).
  - exact Hs.
  - rewrite Hnl. clear. lia.
  - exact (new_source _ _ _ _ _ _ _ _ _ _ keys 3 Hrun Hks Hkv ltac:(clear; lia)).
  - exact (new_source _ _ _ _ _ _ _ _ _ _ vals 3 Hrun Hvs Hvv ltac:(clear; lia)).
  - clear Hrun. unfold q_ready. rewrite bool_decide_true by done. rewrite Hfree. vm_compute. lia.
  - clear Hrun. rewrite Hp. by apply (uniform_fills 2 3 1 8 (cfg 0) blocks rots tables 0).
Defined.

(** The middle layer, after the blocks were reserved for layer 0. *)
Lemma q_append_narrow_witness :
  ∃ d1 cm m s1, create 1 d0 = (d1, Ok cm) ∧ reserve 0 3 (q_tables (q_alloc cm).1) = (m, Ok s1) ∧
    ∃ c' d' msg, q_append_kv 0 1 keys vals (with_tables (q_alloc cm).1 m, d1) = ((c', d'), Err (InvalidShape msg)).
Proof.
  destruct (created 1) as (d1 & cm & Hrun); [by right |].
  destruct (one_sequence 1 d1 cm Hrun) as (Hs & Hfree & Hnl & blocks & rots & tables & Hp).
  assert (q_ok d1 (q_alloc cm).1) as Hok 
    by (apply q_alloc_ok; exact (q_new_ok flat flat flat flat _ _ _ _ _ _ (cfg 1) _ _ _ eq_refl Hrun)).
  destruct (source_valid keys) as [Hkv Hks]; [by left |]. destruct (source_valid vals) as [Hvv Hvs]; [by right |].
  destruct (q_reserve d1 (q_alloc cm).1 0 s0 0 3 Hok Hs) as (m & s1 & Hres & Hok1 & Hs1 & Hlen & [fl Hfl] & _).
  { clear Hrun. unfold q_ready. rewrite bool_decide_true by done. rewrite Hfree. vm_compute. lia. }
  pose proof (new_source _ _ _ _ _ _ _ _ _ _ keys 3 Hrun Hks Hkv ltac:(clear; lia)) as Hk.
  pose proof (new_source _ _ _ _ _ _ _ _ _ _ vals 3 Hrun Hvs Hvv ltac:(clear; lia)) as Hv.
  exists d1, cm, m, s1. split; [exact Hrun | split; [exact Hres | clear Hrun Hres]].
  apply (q_append_narrow_layer d1 (with_tables (q_alloc cm).1 m) 0 s1 1 keys vals 3 KPacked 2);
    [done | done | cbn [q_tables with_tables]; rewrite Hfl, Hp; simpl; lia
    | by eapply q_source_tables | by eapply q_source_tables | | lia | |].
  - unfold q_ready. rewrite bool_decide_false by done. rewrite Hlen. unfold q_start. simpl. lia.
  - cbn [q_tables with_tables]. by rewrite Hfl, Hp.
  - cbn [q_tables with_tables]. rewrite Hfl, Hp. by vm_compute.
Defined.
End QuantizedWitness.
