(* ===== verification/KvCache.v ===== *)
(** * The contiguous KV cache ([crates/fracture-engine/src/kv_cache.rs])

    One pair of tensors of [max_seq_len] rows per layer and sequence, allocated
    with the sequence and freed with it. *)

From S2P Require Import Prelude Core Backend BlockTables PagedCache.

Record LayerCache := { lc_k : DeviceTensor; lc_v : DeviceTensor }.

Record SequenceCache := { sc_layers : list LayerCache; sc_current_len : nat; sc_max_len : nat }.

Record KvCacheManager := {
  caches : gmap Z SequenceCache;
  kv_next_id : Z;
  kv_num_layers : nat;
  kv_num_kv_heads : Z;
  kv_head_dim : Z;
  kv_max_seq_len : nat
}.

Definition kv_new (nl : nat) (nkv hd : Z) (max_seq_len : nat) : KvCacheManager :=
  {| caches := ∅; kv_next_id := 0; kv_num_layers := nl; kv_num_kv_heads := nkv; kv_head_dim := hd;
     kv_max_seq_len := max_seq_len |}.

Definition set_caches (m : gmap Z SequenceCache) (c : KvCacheManager) : KvCacheManager :=
  {| caches := m; kv_next_id := kv_next_id c; kv_num_layers := kv_num_layers c;
     kv_num_kv_heads := kv_num_kv_heads c; kv_head_dim := kv_head_dim c; kv_max_seq_len := kv_max_seq_len c |}.
Definition set_next_id (i : Z) (c : KvCacheManager) : KvCacheManager :=
  {| caches := caches c; kv_next_id := i; kv_num_layers := kv_num_layers c;
     kv_num_kv_heads := kv_num_kv_heads c; kv_head_dim := kv_head_dim c; kv_max_seq_len := kv_max_seq_len c |}.

Definition get_cache (h : Z) (c : KvCacheManager) : result SequenceCache :=
  match caches c !! h with Some s => Ok s | None => Err (KvCache "invalid handle") end.

Definition kv_seq_len (h : Z) (c : KvCacheManager) : result nat := rmap sc_current_len (get_cache h c).

Definition kv_set_seq_len (h : Z) (new_len : nat) : st KvCacheManager unit := λ c,
  match get_cache h c with
  | Ok s =>
      if bool_decide (sc_max_len s < new_len) then (c, Err (KvCache "seq_len exceeds max_seq_len"))
      else (set_caches (<[h := {| sc_layers := sc_layers s; sc_current_len := new_len; sc_max_len := sc_max_len s |}]>
                          (caches c)) c, Ok ())
  | Err e => (c, Err e)
  | Panic => (c, Panic)
  end.

(** [k_cache], [v_cache] *)
Definition cache_layer (h : Z) (layer : nat) (c : KvCacheManager) : result LayerCache :=
  let? s := get_cache h c in
  match sc_layers s !! layer with
  | Some l => Ok l
  | None => Err (KvCache "layer index out of bounds")
  end.
Definition k_cache (h : Z) (layer : nat) (c : KvCacheManager) : result DeviceTensor := rmap lc_k (cache_layer h layer c).
Definition v_cache (h : Z) (layer : nat) (c : KvCacheManager) : result DeviceTensor := rmap lc_v (cache_layer h layer c).

Section ops.
Context {D : Type} `{BackendOps D}.

Definition layer_shape (c : KvCacheManager) : list Z := [Z.of_nat (kv_max_seq_len c); kv_num_kv_heads c; kv_head_dim c].

Definition kv_alloc_layer (sh : list Z) : st D LayerCache :=
  do! k := b_alloc sh FP16 in
  do! v := b_alloc sh FP16 in
  sret {| lc_k := k; lc_v := v |}.

(** [alloc]: the id is used up even if an allocation fails. *)
Definition kv_alloc : st (KvCacheManager * D) Z := λ '(c, d),
  let id := kv_next_id c in
  match uadd id 1 with
  | Ok n =>
      let c := set_next_id n c in
      match smapM (λ _ : nat, kv_alloc_layer (layer_shape c)) (seq 0 (kv_num_layers c)) d with
      | (d, Ok layers) =>
          ((set_caches (<[id := {| sc_layers := layers; sc_current_len := 0; sc_max_len := kv_max_seq_len c |}]> (caches c)) c, d),
           Ok id)
      | (d, Err e) => ((c, d), Err e)
      | (d, Panic) => ((c, d), Panic)
      end
  | _ => ((c, d), Panic)
  end.

Definition layer_pair (l : LayerCache) : list DeviceTensor := [lc_k l; lc_v l].
Definition cache_tensors (s : SequenceCache) : list DeviceTensor := mjoin (layer_pair <$> sc_layers s).

Definition kv_free (h : Z) : st (KvCacheManager * D) unit := λ '(c, d),
  match get_cache h c with
  | Ok s => let '(d, r) := free_each (cache_tensors s) d in ((set_caches (delete h (caches c)) c, d), r)
  | Err e => ((c, d), Err e)
  | Panic => ((c, d), Panic)
  end.
End ops.

(** ** What the manager owns *)

(** All tensors of the open sequences. *)
Definition kv_tensors (c : KvCacheManager) : list DeviceTensor := mjoin (cache_tensors <$> (map_to_list (caches c)).*2).

Section theory.
Context {D : Type} `{BackendLaws D}.
Implicit Types d : D.
Implicit Types c : KvCacheManager.

(** The handles are below the next one; every sequence has its layers, of the
    manager's shape, and a length within bounds; since [d0] exactly the tensors
    of the open sequences were allocated. *)
Record kv_ok d0 d c : Prop := {
  ko_ids : ∀ h s, caches c !! h = Some s → (0 ≤ h < kv_next_id c)%Z;
  ko_next : (0 ≤ kv_next_id c)%Z;
  ko_seq : ∀ h s, caches c !! h = Some s → length (sc_layers s) = kv_num_layers c ∧
     sc_current_len s ≤ sc_max_len s ∧ sc_max_len s = kv_max_seq_len c ∧
     Forall (has_shape (layer_shape c) FP16 d) (cache_tensors s);
  ko_owned : alloced d0 d (kv_tensors c)
}.

Lemma kv_tensors_insert c h s :
  caches c !! h = None → kv_tensors (set_caches (<[h := s]> (caches c)) c) ≡ₚ cache_tensors s ++ kv_tensors c.
Proof. intros Hh. unfold kv_tensors. simpl. by rewrite map_to_list_insert. Qed.

Lemma kv_tensors_delete c h s :
  caches c !! h = Some s → kv_tensors c ≡ₚ cache_tensors s ++ kv_tensors (set_caches (delete h (caches c)) c).
Proof. intros Hh. unfold kv_tensors. simpl. by rewrite <- (map_to_list_delete (caches c) h s). Qed.

Lemma elem_of_kv_tensors c h s t : caches c !! h = Some s → t ∈ cache_tensors s → t ∈ kv_tensors c.
Proof. intros Hh Ht. rewrite (kv_tensors_delete c h s Hh). apply elem_of_app. by left. Qed.

Lemma kv_alloc_layer_Ok sh d d' l :
  kv_alloc_layer sh d = (d', Ok l) → alloced d d' (layer_pair l) ∧ Forall (has_shape sh FP16 d') (layer_pair l).
Proof.
  unfold kv_alloc_layer. intros (d1 & k & Hk & (d2 & v & Hv & [= <- <-])%sbind_Ok)%sbind_Ok. split.
  - pose proof (alloced_alloc _ _ _ _ _ _ _ (alloced_alloc _ _ _ _ _ _ _ (alloced_refl d) Hk) Hv) as Ha.
    eapply alloced_perm; [| exact Ha]. unfold layer_pair. simpl. solve_Permutation.
  - assert (Forall (has_shape sh FP16 d1) [k]) as Hf by (by constructor; [eapply has_shape_new |]).
    pose proof (has_shape_alloc _ _ _ _ _ _ _ _ Hf Hv) as Hf'. apply Forall_cons in Hf' as [? _].
    forall_list. by eapply has_shape_new.
Qed.

Lemma has_shapes_persist sh dt d d' ts :
  persist d d' ts → Forall (has_shape sh dt d) ts → Forall (has_shape sh dt d') ts.
Proof.
  intros Hp Hf. apply Forall_forall. intros t Ht. rewrite Forall_forall in Hf. destruct (Hf t Ht) as ([Hl Hr] & ? & ?).
  destruct (Hp t Ht) as [Hrows Hlive]. split; [| done]. split; [by apply Hlive | by rewrite Hrows].
Qed.

Lemma kv_layers_Ok sh n d d' layers :
  smapM (λ _ : nat, kv_alloc_layer sh) (seq 0 n) d = (d', Ok layers) →
  alloced d d' (mjoin (layer_pair <$> layers)) ∧ length layers = n ∧
  Forall (has_shape sh FP16 d') (mjoin (layer_pair <$> layers)).
Proof.
  intros [Ha Hq]%(smapM_alloced _ layer_pair (λ _ l d, Forall (has_shape sh FP16 d) (layer_pair l)));
    [| intros; by apply kv_alloc_layer_Ok | intros; by eapply has_shapes_persist].
  split_and!; [done | by rewrite <- (Forall2_length _ _ _ Hq), length_seq |].
  apply Forall_forall. intros t (ls & Ht & (l & -> & [i Hl]%list_elem_of_lookup)%list_elem_of_fmap)%list_elem_of_join.
  destruct (Forall2_lookup_r _ _ _ _ _ Hq Hl) as (_ & _ & Hf). rewrite Forall_forall in Hf. by apply Hf.
Qed.

(** The tensors of every sequence stay what they are when others come and go. *)
Lemma kv_seqs_persist d0 d d' c us :
  kv_ok d0 d c → alloced d d' us →
  ∀ h s, caches c !! h = Some s → Forall (has_shape (layer_shape c) FP16 d') (cache_tensors s).
Proof.
  intros [_ _ Hseq Hown] Ha h s Hs. eapply has_shapes_persist; [| by apply (Hseq h s)].
  eapply alloced_persist; [exact Ha |]. intros t Ht. eapply alloced_t_live; [exact Hown |]. by eapply elem_of_kv_tensors.
Qed.

Lemma kv_alloc_Ok d0 d c c' d' h :
  kv_ok d0 d c → kv_alloc (c, d) = ((c', d'), Ok h) →
  kv_ok d0 d' c' ∧ caches c !! h = None ∧
  ∃ s, caches c' = <[h := s]> (caches c) ∧ sc_current_len s = 0 ∧ sc_max_len s = kv_max_seq_len c ∧
    alloced d d' (cache_tensors s).
Proof.
  intros Hok Ha. unfold kv_alloc in Ha. destruct (uadd (kv_next_id c) 1) as [n| |] eqn:En; [| done..].
  apply checked_inv in En as [-> _]. destruct (smapM _ _ d) as [d1 [layers| |]] eqn:El; [| done..].
  injection Ha as <- <- <-. apply kv_layers_Ok in El as (Hal & Hlen & Hshape).
  assert (caches c !! kv_next_id c = None) as Hfresh.
  { destruct (caches c !! kv_next_id c) as [s|] eqn:E; [| done]. apply (ko_ids _ _ _ Hok) in E. lia. }
  pose proof (kv_seqs_persist d0 d d1 c _ Hok Hal) as Hkeep. destruct Hok as [Hids Hnext Hseq Hown].
  destruct (alloced_app _ _ _ _ _ Hown Hal) as [Hall _].
  split_and!; [| done | eexists; split_and!; [simpl; done | done | done | done]].
  split; simpl.
  - intros h s [[<- <-]|[_ Hs]]%lookup_insert_Some; [lia |]. apply Hids in Hs. lia.
  - lia.
  - intros h s [[<- <-]|[_ Hs]]%lookup_insert_Some; [simpl; split_and!; [done | lia | done | done] |].
    destruct (Hseq h s Hs) as (? & ? & ? & _). split_and!; try done. by eapply Hkeep.
  - eapply alloced_perm; [| exact Hall]. symmetry.
    apply (kv_tensors_insert (set_next_id (kv_next_id c + 1) c) (kv_next_id c)
      {| sc_layers := layers; sc_current_len := 0; sc_max_len := kv_max_seq_len c |}). done.
Qed.

Lemma kv_free_Ok d0 d c h s :
  kv_ok d0 d c → caches c !! h = Some s →
  ∃ d', kv_free h (c, d) = ((set_caches (delete h (caches c)) c, d'), Ok ()) ∧
    kv_ok d0 d' (set_caches (delete h (caches c)) c).
Proof.
  intros [Hids Hnext Hseq Hown] Hs. pose proof (alloced_perm _ _ _ _ (kv_tensors_delete c h s Hs) Hown) as Hal.
  destruct (free_each_spec d0 _ _ d Hal) as (d' & Hf & Hown').
  exists d'. split; [unfold kv_free, get_cache; by rewrite Hs, Hf |]. split; simpl; [| done | | done].
  - intros h' s' [_ Hs']%lookup_delete_Some. eauto.
  - intros h' s' [Hne Hs']%lookup_delete_Some. destruct (Hseq h' s' Hs') as (? & ? & ? & Hsh). split_and!; try done.
    eapply has_shapes_persist; [| done]. intros t Ht. apply (free_each_keeps d0 _ _ d d' Hal Hf).
    eapply elem_of_kv_tensors; [| exact Ht]. simpl. by apply lookup_delete_Some.
Qed.

Lemma kv_set_seq_len_Ok d0 d c h n :
  kv_ok d0 d c → kv_ok d0 d (kv_set_seq_len h n c).1.
Proof.
  intros Hok. unfold kv_set_seq_len, get_cache. destruct (caches c !! h) as [s|] eqn:Hs; [| done].
  case_bool_decide; [done |]. destruct Hok as [Hids Hnext Hseq Hown]. split; simpl; [| done | |].
  - intros h' s' [[<- _]|[_ Hs']]%lookup_insert_Some; eauto.
  - intros h' s' [[<- <-]|[_ Hs']]%lookup_insert_Some; [| eauto]. destruct (Hseq h s Hs) as (? & ? & ? & ?). simpl.
    split_and!; try done. lia.
  - eapply alloced_perm; [| exact Hown]. rewrite (kv_tensors_delete c h s Hs).
    rewrite <- insert_delete_eq. symmetry.
    assert (caches (set_caches (delete h (caches c)) c) !! h = None) as Hno by (simpl; by rewrite lookup_delete_eq).
    exact (kv_tensors_insert (set_caches (delete h (caches c)) c) h
      {| sc_layers := sc_layers s; sc_current_len := n; sc_max_len := sc_max_len s |} Hno).
Qed.
End theory.

(** ** Properties *)

Inductive KvOp := KvAlloc | KvSetLen (h : Z) (n : nat) | KvFree (h : Z).

Section properties.
Context {D : Type} `{BackendLaws D}.
Implicit Types d : D.

(** One call; [None] when an allocation failed. *)
Definition kv_run (op : KvOp) (cd : KvCacheManager * D) : option (KvCacheManager * D) :=
  match op with
  | KvAlloc => match kv_alloc cd with (cd', Ok _) => Some cd' | _ => None end
  | KvSetLen h n => Some ((kv_set_seq_len h n cd.1).1, cd.2)
  | KvFree h => Some (kv_free h cd).1
  end.
Fixpoint kv_runs (ops : list KvOp) (cd : KvCacheManager * D) : option (KvCacheManager * D) :=
  match ops with [] => Some cd | op :: ops' => match kv_run op cd with Some cd' => kv_runs ops' cd' | None => None end end.

Lemma kv_run_ok d0 op c d c' d' : kv_ok d0 d c → kv_run op (c, d) = Some (c', d') → kv_ok d0 d' c'.
Proof.
  intros Hok. destruct op as [|h n|h]; cbn [kv_run fst snd].
  - destruct (kv_alloc (c, d)) as [[c1 d1] [h| |]] eqn:Ha; [| done..]. intros [= <- <-]. by eapply kv_alloc_Ok in Ha as [? _].
  - intros [= <- <-]. by apply kv_set_seq_len_Ok.
  - destruct (caches c !! h) as [s|] eqn:Hs.
    + destruct (kv_free_Ok d0 d c h s Hok Hs) as (d1 & -> & Hok'). by intros [= <- <-].
    + unfold kv_free, get_cache. rewrite Hs. by intros [= <- <-].
Qed.

(** C40: whatever allocations, length changes and frees run on a new contiguous
    cache, with whatever arguments, as long as no allocation fails the device
    holds exactly the tensors of the open sequences besides what it held
    before: nothing is leaked or freed twice, every open sequence has its
    layers of the right shape, and no length exceeds the maximum; freeing a
    sequence always succeeds. *)
Theorem kv_ownership nl nkv hd max ops d c' d' :
  kv_runs ops (kv_new nl nkv hd max, d) = Some (c', d') →
  kv_ok d d' c' ∧ ∀ h s, caches c' !! h = Some s → (kv_free h (c', d')).2 = Ok ().
Proof.
  assert (∀ ops c d1, kv_ok d d1 c → kv_runs ops (c, d1) = Some (c', d') → kv_ok d d' c') as Hruns.
  { induction ops0 as [|op ops0 IH]; intros c d1 Hok; cbn [kv_runs]; [by intros [= <- <-] |].
    destruct (kv_run op (c, d1)) as [[c2 d2]|] eqn:E; [| done]. apply IH. by eapply kv_run_ok. }
  intros Hrun. assert (kv_ok d d' c') as Hok.
  { eapply Hruns; [| exact Hrun]. split; simpl; [intros ??; by rewrite lookup_empty | lia | intros ??; by rewrite lookup_empty |].
    unfold kv_tensors. simpl. rewrite map_to_list_empty. apply alloced_refl. }
  split; [done |]. intros h s Hs. by destruct (kv_free_Ok d d' c' h s Hok Hs) as (d2 & -> & _).
Qed.
End properties.

Module KvCacheWitness.
Definition d0 : SimDevice := {| sim_mem := {[7%Z := [[1]]%Z]}; sim_room := 9 |}.

Lemma kv_ownership_witness :
  ∃ c' d', kv_runs [KvAlloc; KvAlloc; KvSetLen 0 3; KvSetLen 1 99; KvFree 0; KvFree 0; KvAlloc] (kv_new 2 1 4 8, d0) = Some (c', d') ∧
    kv_ok d0 d' c'.
Proof.
  eexists _, _. split; [by vm_compute |].
  apply (kv_ownership 2 1 4 8 [KvAlloc; KvAlloc; KvSetLen 0 3; KvSetLen 1 99; KvFree 0; KvFree 0; KvAlloc] d0). by vm_compute.
Defined.

(** Room for three tensors, four needed: the three stay allocated, and belong to
    no sequence. *)
Example kv_alloc_leaks :
  let '((c, d), r) := kv_alloc (kv_new 2 1 4 8, {| sim_mem := ∅; sim_room := 3 |}) in
  r = Err (OutOfMemory 1 0) ∧ size (b_live d) = 3 ∧ kv_tensors c = [].
Proof. by vm_compute. Qed.
End KvCacheWitness.
