(* ===== verification/Kernels.v ===== *)
(** * The compute operations of the backend ([crates/fracture-core/src/backend.rs])

    The kernels a forward pass launches, as a class over the device state.  What
    a kernel computes of a row is a function of the class; the laws say which
    rows it writes, under the shapes the CUDA backend requires, and that it
    fails only when the device reports a failure ([b_failed]).  [SimDevice] is
    an instance. *)

From S2P Require Import Prelude F32 Core Backend.

Class KernelOps (D : Type) `{BackendOps D} := {
  b_matmul : DeviceTensor → DeviceTensor → DeviceTensor → st D unit;
  b_rmsnorm : DeviceTensor → DeviceTensor → f64 → DeviceTensor → st D unit;
  b_rope : DeviceTensor → DeviceTensor → list Z → f64 → Z → st D unit;
  b_attention : DeviceTensor → DeviceTensor → DeviceTensor → Z → nat → DeviceTensor → st D unit;
  b_attention_paged :
    DeviceTensor → list Z → list DeviceTensor → list DeviceTensor → Z → nat → nat → DeviceTensor → st D unit;
  (** [attention_paged_tq(q, block_table, k_packed, k_norms, v_packed, v_norms,
      k_rotation, v_rotation, k_centroids, v_centroids, key_bits, value_bits,
      num_kv_heads, kv_len, start_pos, out)] *)
  b_attention_paged_tq :
    DeviceTensor → list Z → list DeviceTensor → list DeviceTensor → list DeviceTensor → list DeviceTensor →
    DeviceTensor → DeviceTensor → DeviceTensor → DeviceTensor → Z → Z → Z → nat → nat → DeviceTensor → st D unit;
  b_silu_mul : DeviceTensor → DeviceTensor → DeviceTensor → st D unit;
  b_embedding : list Z → DeviceTensor → DeviceTensor → st D unit;
  b_add : DeviceTensor → DeviceTensor → DeviceTensor → st D unit;
  (** [copy_to_host(src, dst)]: the bytes in [dst], whose length is given, afterwards *)
  b_copy_to_host : DeviceTensor → nat → st D (list Z);
  b_synchronize : st D unit;
  (** a call of the device has failed *)
  b_failed : D → bool;
  (** what the kernels compute *)
  k_matmul : list Row → Row → Row;
  k_rmsnorm : list Row → f64 → Row → Row;
  k_rope : f64 → Z → Z → Row → Row;
  (** of a query row and the key and value rows up to its position *)
  k_attention : Z → list Row → list Row → Row → Row;
  (** the same of packed rows and norms, with rotation, centroids and bits of both *)
  k_attention_tq : Z → (list Row * list Row * Z) → (list Row * list Row * Z) → list (Row * Row) → list (Row * Row) → Row → Row;
  k_silu_mul : Row → Row → Row;
  k_add : Row → Row → Row
}.

(** A call that writes [outs] and nothing else, unless the device fails. *)
Definition writes {D : Type} `{KernelOps D} (d : D) (outs : list (DeviceTensor * list Row)) (m : D * result unit) : Prop :=
  (m.2 = Ok () ∧ b_live m.1 = b_live d ∧ Forall (λ tr, t_rows m.1 tr.1 = tr.2) outs ∧
   ∀ id, id ∈ b_live d → id ∉ (tensor_id <$> outs.*1) → b_rows m.1 id = b_rows d id) ∨
  (∃ e, m.2 = Err e ∧ b_failed m.1 = true).

(** The row at position [pos] of a sequence with block table [table], in the
    blocks' tensors [ts]. *)
Definition gather {D : Type} `{BackendOps D} (d : D) (table : list Z) (ts : list DeviceTensor) (pos : nat) : option Row :=
  match table !! (pos `div` 16) with
  | Some b => match ts !! Z.to_nat b with Some t => t_rows d t !! (pos `mod` 16) | None => None end
  | None => None
  end.
(** The first [n] positions hold [rows]. *)
Definition gathers {D : Type} `{BackendOps D} (d : D) (table : list Z) (ts : list DeviceTensor) (rows : list Row) : Prop :=
  ∀ pos, pos < length rows → gather d table ts pos = rows !! pos.

(** The causal window of row [i] of a batch that starts at [start]. *)
Definition window {A : Type} (start i : nat) (l : list A) : list A := take (start + i + 1) l.

Class KernelLaws (D : Type) `{KernelOps D} := {
  k_alloc_failed d d' sh dt e : b_alloc sh dt d = (d', Err e) → b_failed d' = true;
  k_matmul_spec d a w out m n k :
    t_valid d a → t_live d w → t_valid d out → tensor_id out ≠ tensor_id a → tensor_id out ≠ tensor_id w →
    shape a = [m; k] → shape w = [n; k] → shape out = [m; n] →
    writes d [(out, k_matmul (t_rows d w) <$> t_rows d a)] (b_matmul a w out d);
  k_rmsnorm_spec d a w eps out m c :
    t_valid d a → t_live d w → t_valid d out → tensor_id out ≠ tensor_id a → tensor_id out ≠ tensor_id w →
    shape a = [m; c] → shape w = [c] → shape out = [m; c] →
    writes d [(out, k_rmsnorm (t_rows d w) eps <$> t_rows d a)] (b_rmsnorm a w eps out d);
  k_rope_spec d q k positions theta n nq nkv hd :
    t_valid d q → t_valid d k → tensor_id q ≠ tensor_id k →
    shape q = [n; nq; hd] → shape k = [n; nkv; hd] → n = Z.of_nat (length positions) →
    writes d [(q, zip_with (k_rope theta hd) positions (t_rows d q)); (k, zip_with (k_rope theta hd) positions (t_rows d k))]
      (b_rope q k positions theta hd d);
  k_attention_spec d q kc vc nkv start out n nq hd :
    t_valid d q → t_valid d kc → t_valid d vc → t_valid d out → tensor_id out ∉ [tensor_id q; tensor_id kc; tensor_id vc] →
    shape q = [n; nq; hd] → shape out = [n; nq; hd] → tail (shape kc) = [nkv; hd] → tail (shape vc) = [nkv; hd] →
    start + length (t_rows d q) ≤ length (t_rows d kc) → start + length (t_rows d q) ≤ length (t_rows d vc) →
    writes d [(out, imap (λ i r, k_attention nkv (window start i (t_rows d kc)) (window start i (t_rows d vc)) r) (t_rows d q))]
      (b_attention q kc vc nkv start out d);
  k_attention_paged_spec d q table kb vb nkv kv_len start out n nq hd ks vs :
    t_valid d q → t_valid d out → Forall (t_live d) (kb ++ vb) →
    tensor_id out ≠ tensor_id q → tensor_id out ∉ (tensor_id <$> kb ++ vb) →
    shape q = [n; nq; hd] → shape out = [n; nq; hd] → Forall (λ t, tail (shape t) = [nkv; hd]) (kb ++ vb) →
    kv_len = start + length (t_rows d q) → length ks = kv_len → length vs = kv_len →
    gathers d table kb ks → gathers d table vb vs →
    writes d [(out, imap (λ i r, k_attention nkv (window start i ks) (window start i vs) r) (t_rows d q))]
      (b_attention_paged q table kb vb nkv kv_len start out d);
  k_attention_paged_tq_spec d q table kp kn vp vn kr vr kc vc kbits vbits nkv kv_len start out n nq hd kps kns vps vns :
    t_valid d q → t_valid d out → Forall (t_live d) (kp ++ kn ++ vp ++ vn ++ [kr; vr; kc; vc]) →
    tensor_id out ≠ tensor_id q → tensor_id out ∉ (tensor_id <$> kp ++ kn ++ vp ++ vn ++ [kr; vr; kc; vc]) →
    shape q = [n; nq; hd] → shape out = [n; nq; hd] →
    Forall (λ t, tail (shape t) = [packed_row_bytes nkv hd kbits]) kp → Forall (λ t, tail (shape t) = [packed_row_bytes nkv hd vbits]) vp →
    Forall (λ t, tail (shape t) = [nkv]) (kn ++ vn) →
    kv_len = start + length (t_rows d q) → length kps = kv_len → length kns = kv_len → length vps = kv_len → length vns = kv_len →
    gathers d table kp kps → gathers d table kn kns → gathers d table vp vps → gathers d table vn vns →
    writes d [(out, imap (λ i r, k_attention_tq nkv (t_rows d kr, t_rows d kc, kbits) (t_rows d vr, t_rows d vc, vbits)
                (window start i (zip kps kns)) (window start i (zip vps vns)) r) (t_rows d q))]
      (b_attention_paged_tq q table kp kn vp vn kr vr kc vc kbits vbits nkv kv_len start out d);
  k_silu_mul_spec d g u out sh :
    t_valid d g → t_valid d u → t_valid d out → tensor_id out ≠ tensor_id g → tensor_id out ≠ tensor_id u →
    shape g = sh → shape u = sh → shape out = sh →
    writes d [(out, zip_with k_silu_mul (t_rows d g) (t_rows d u))] (b_silu_mul g u out d);
  k_embedding_spec d ids table out n h :
    t_valid d table → t_valid d out → tensor_id out ≠ tensor_id table →
    tail (shape table) = [h] → shape out = [n; h] → n = Z.of_nat (length ids) →
    Forall (λ i, 0 ≤ i < Z.of_nat (nrows table))%Z ids →
    writes d [(out, (λ i, default [] (t_rows d table !! Z.to_nat i)) <$> ids)] (b_embedding ids table out d);
  (** [out] may be [a] *)
  k_add_spec d a b out sh :
    t_valid d a → t_valid d b → t_valid d out → tensor_id out ≠ tensor_id b →
    shape a = sh → shape b = sh → shape out = sh →
    writes d [(out, zip_with k_add (t_rows d a) (t_rows d b))] (b_add a b out d);
  k_copy_to_host_spec d t n :
    t_valid d t → size_bytes t = Ok (Z.of_nat n) →
    (b_copy_to_host t n d = (d, Ok (mjoin (t_rows d t)))) ∨
    ∃ d' e, b_copy_to_host t n d = (d', Err e) ∧ b_failed d' = true;
  k_synchronize_spec d :
    b_synchronize d = (d, Ok ()) ∨ ∃ d' e, b_synchronize d = (d', Err e) ∧ b_failed d' = true
}.

(** Timers of the profiler. *)
Class TimerOps (D : Type) := {
  b_create_timer : st D Z;
  b_start_timer : Z → st D unit;
  b_stop_timer : Z → st D f32;
  b_destroy_timer : Z → st D unit
}.

(** A call that leaves the tensors alone, unless the device fails. *)
Definition idle {D A : Type} `{KernelOps D} (d : D) (m : D * result A) : Prop :=
  (∃ a, m.2 = Ok a ∧ b_live m.1 = b_live d ∧ same_rows (b_live d) d m.1) ∨ (∃ e, m.2 = Err e ∧ b_failed m.1 = true).

Class TimerLaws (D : Type) `{KernelOps D} `{TimerOps D} := {
  b_create_timer_idle d : idle d (b_create_timer d);
  b_start_timer_idle d t : idle d (b_start_timer t d);
  b_stop_timer_idle d t : idle d (b_stop_timer t d);
  b_destroy_timer_idle d t : idle d (b_destroy_timer t d)
}.

(** ** Running a program on the device

    [runs fl m s Q]: run from [s], the program [m] succeeds in a state and with
    a value that satisfy [Q], or stops with an error in a state that [fl] marks
    as failed; it does not panic. *)

Definition runs {S A : Type} (fl : S → bool) (m : st S A) (s : S) (Q : S → A → Prop) : Prop :=
  match m s with
  | (s', Ok a) => Q s' a
  | (s', Err _) => fl s' = true
  | (_, Panic) => False
  end.

Section runs.
Context {S A B : Type} (fl : S → bool).

Lemma runs_ret (a : A) s (Q : S → A → Prop) : Q s a → runs fl (sret a) s Q.
Proof. done. Qed.

Lemma runs_lift (r : result A) a s (Q : S → A → Prop) : r = Ok a → Q s a → runs fl (slift r) s Q.
Proof. by intros ->. Qed.

Lemma runs_bind (m : st S A) (k : A → st S B) s (Q : S → B → Prop) :
  runs fl m s (λ s' a, runs fl (k a) s' Q) → runs fl (sbind m k) s Q.
Proof. unfold runs, sbind. by destruct (m s) as [s' [a| |]]. Qed.

Lemma runs_mono (m : st S A) s (P Q : S → A → Prop) : (∀ s' a, P s' a → Q s' a) → runs fl m s P → runs fl m s Q.
Proof. intros HPQ. unfold runs. destruct (m s) as [s' [a| |]]; auto. Qed.
End runs.

(** A device program next to other state. *)
Definition dev {X D A : Type} (m : st D A) : st (X * D) A := λ '(x, d), let '(d', r) := m d in ((x, d'), r).
Definition dev_failed {X D : Type} `{KernelOps D} (s : X * D) : bool := b_failed s.2.

Section dev.
Context {D : Type} `{KernelLaws D}.

Lemma runs_dev {X A : Type} (m : st D A) (x : X) d (Q : X * D → A → Prop) :
  runs b_failed m d (λ d' a, Q (x, d') a) → runs dev_failed (dev m) (x, d) Q.
Proof. unfold runs, dev, dev_failed. by destruct (m d) as [d' [a| |]]. Qed.

Lemma runs_writes (m : st D unit) d outs (Q : D → unit → Prop) :
  writes d outs (m d) →
  (∀ d', b_live d' = b_live d → Forall (λ tr, t_rows d' tr.1 = tr.2) outs →
     (∀ id, id ∈ b_live d → id ∉ (tensor_id <$> outs.*1) → b_rows d' id = b_rows d id) → Q d' ()) →
  runs b_failed m d Q.
Proof.
  unfold runs. destruct (m d) as [d' r]. intros [(Hr & Hl & Hout & Hf)|(e & Hr & Hfl)] HQ; simpl in *; rewrite Hr; auto.
Qed.

Lemma runs_idle {A : Type} (m : st D A) d (Q : D → A → Prop) :
  idle d (m d) → (∀ d' a, b_live d' = b_live d → same_rows (b_live d) d d' → Q d' a) → runs b_failed m d Q.
Proof.
  unfold runs. destruct (m d) as [d' r]. intros [(a & Hr & Hl & Hs)|(e & Hr & Hfl)] HQ; simpl in *; rewrite Hr; auto.
Qed.

Lemma runs_alloc `{!BackendLaws D} sh dt d (Q : D → DeviceTensor → Prop) :
  (∀ d' t, b_alloc sh dt d = (d', Ok t) → Q d' t) → runs b_failed (b_alloc sh dt) d Q.
Proof.
  intros HQ. unfold runs. destruct (b_alloc sh dt d) as [d' [t|e|]] eqn:E; [auto | by eapply k_alloc_failed |].
  apply (b_alloc_no_panic sh dt d). by rewrite E.
Qed.

Lemma runs_free `{!BackendLaws D} t d (Q : D → unit → Prop) :
  t_live d t → (∀ d', b_live d' = b_live d ∖ {[tensor_id t]} → same_rows (b_live d') d d' → Q d' ()) →
  runs b_failed (b_free t) d Q.
Proof. intros Ht HQ. destruct (b_free_Ok d t Ht) as (d' & Hf & Hl & Hs). unfold runs. rewrite Hf. auto. Qed.

Lemma runs_copy_rows `{!BackendLaws D} src dst so dof n d (Q : D → unit → Prop) :
  t_valid d src → t_valid d dst → tensor_id src ≠ tensor_id dst → same_layout src dst →
  so + n ≤ nrows src → dof + n ≤ nrows dst →
  (∀ d', b_live d' = b_live d → t_rows d' dst = list_inserts dof (take n (drop so (t_rows d src))) (t_rows d dst) →
     same_rows (b_live d ∖ {[tensor_id dst]}) d d' → Q d' ()) →
  runs b_failed (b_copy_rows src dst so dof n) d Q.
Proof.
  intros Hs Hd Hne Hlay Hso Hdo HQ. pose proof Hs as [_ Ls]. pose proof Hd as [_ Ld].
  destruct (b_copy_rows_Ok d src dst so dof n) as (d' & Hc & Hl & Hr & Hsame); try done; [lia.. |].
  unfold runs. rewrite Hc. auto.
Qed.
End dev.

(** ** The simulated device

    Simple stand-ins for the kernels, on bytes. *)

Definition byte (z : Z) : Z := (z `mod` 256)%Z.
Definition dot (a b : Row) : Z := foldr Z.add 0%Z (zip_with Z.mul a b).
Definition sim_matmul (w : list Row) (r : Row) : Row := (λ wr, byte (dot wr r)) <$> w.
Definition sim_rmsnorm (w : list Row) (eps : f64) (r : Row) : Row := zip_with (λ wr x, byte (x * default 1%Z (head wr))) w r.
Definition sim_rope (theta : f64) (hd pos : Z) (r : Row) : Row := (λ x, byte (x + pos)) <$> r.
Definition sim_mix (ks vs : list Row) (q : Row) : Row :=
  foldr (zip_with (λ a b, byte (a + b))) q (zip_with (λ k v, (λ x, byte (dot k q * x)) <$> v) ks vs).
Definition sim_attention (nkv : Z) (ks vs : list Row) (q : Row) : Row := sim_mix ks vs q.
Definition sim_attention_tq (nkv : Z) (kcd vcd : list Row * list Row * Z) (ks vs : list (Row * Row)) (q : Row) : Row :=
  sim_mix (ks.*1) (vs.*1) q.
Definition sim_silu_mul (g u : Row) : Row := zip_with (λ a b, byte (a * b)) g u.
Definition sim_add (a b : Row) : Row := zip_with (λ x y, byte (x + y)) a b.

Definition sim_set (t : DeviceTensor) (rows : list Row) : st SimDevice unit := λ d, (sim_put (tensor_id t) rows d, Ok ()).
Definition sim_gathered (d : SimDevice) (table : list Z) (ts : list DeviceTensor) (n : nat) : list Row :=
  (λ pos, default [] (gather d table ts pos)) <$> seq 0 n.

#[export] Instance SimKernels : KernelOps SimDevice := {|
  b_matmul a w out := λ d, sim_set out (sim_matmul (t_rows d w) <$> t_rows d a) d;
  b_rmsnorm a w eps out := λ d, sim_set out (sim_rmsnorm (t_rows d w) eps <$> t_rows d a) d;
  b_rope q k positions theta hd := λ d,
    let qr := zip_with (sim_rope theta hd) positions (t_rows d q) in
    let kr := zip_with (sim_rope theta hd) positions (t_rows d k) in
    sim_set k kr (sim_put (tensor_id q) qr d);
  b_attention q kc vc nkv start out := λ d,
    sim_set out (imap (λ i r, sim_attention nkv (window start i (t_rows d kc)) (window start i (t_rows d vc)) r) (t_rows d q)) d;
  b_attention_paged q table kb vb nkv kv_len start out := λ d,
    sim_set out (imap (λ i r, sim_attention nkv (window start i (sim_gathered d table kb kv_len))
                                (window start i (sim_gathered d table vb kv_len)) r) (t_rows d q)) d;
  b_attention_paged_tq q table kp kn vp vn kr vr kc vc kbits vbits nkv kv_len start out := λ d,
    sim_set out (imap (λ i r, sim_attention_tq nkv (t_rows d kr, t_rows d kc, kbits) (t_rows d vr, t_rows d vc, vbits)
      (window start i (zip (sim_gathered d table kp kv_len) (sim_gathered d table kn kv_len)))
      (window start i (zip (sim_gathered d table vp kv_len) (sim_gathered d table vn kv_len))) r) (t_rows d q)) d;
  b_silu_mul g u out := λ d, sim_set out (zip_with sim_silu_mul (t_rows d g) (t_rows d u)) d;
  b_embedding ids table out := λ d, sim_set out ((λ i, default [] (t_rows d table !! Z.to_nat i)) <$> ids) d;
  b_add a b out := λ d, sim_set out (zip_with sim_add (t_rows d a) (t_rows d b)) d;
  b_copy_to_host t n := λ d, (d, Ok (mjoin (t_rows d t)));
  b_synchronize := λ d, (d, Ok ());
  b_failed d := bool_decide (sim_room d = 0);
  k_matmul := sim_matmul; k_rmsnorm := sim_rmsnorm; k_rope := sim_rope; k_attention := sim_attention;
  k_attention_tq := sim_attention_tq; k_silu_mul := sim_silu_mul; k_add := sim_add
|}.

Lemma sim_set_writes d out rows : t_live d out → writes d [(out, rows)] (sim_set out rows d).
Proof.
  intros Hl. left. split_and!; [done | by apply sim_live_put | |].
  - forall_list. apply sim_rows_put_eq.
  - intros id Hid Hno. apply sim_rows_put_ne. set_solver.
Qed.

Lemma sim_gathered_eq d table ts rows n : gathers d table ts rows → length rows = n → sim_gathered d table ts n = rows.
Proof.
  intros Hg <-. apply list_eq. intros i. unfold sim_gathered. rewrite list_lookup_fmap.
  destruct (decide (i < length rows)) as [Hi|Hi].
  - rewrite lookup_seq_lt by done. simpl. rewrite Hg by done. destruct (rows !! i) eqn:E; [done |].
    apply lookup_ge_None_1 in E. lia.
  - rewrite lookup_seq_ge by lia. symmetry. apply lookup_ge_None_2. lia.
Qed.

#[export] Instance SimKernelLaws : KernelLaws SimDevice.
Proof.
  split.
  - intros d d' sh dt e. simpl. unfold sim_alloc. destruct (sim_room d) eqn:E; [| done]. intros [= <- _].
    by rewrite E.
  - intros ???????? _ [? _] _ _ _ _ _. by apply sim_set_writes.
  - intros ??????? ? _ [? _] _ _ _ _ _. by apply sim_set_writes.
  - intros d q k positions theta n nq nkv hd [Hq _] [Hk _] Hne _ _ _. left.
    split_and!; [done | | |].
    + simpl. rewrite !dom_insert_L. unfold t_live in *. simpl in *. set_solver.
    + forall_list; simpl; [unfold t_rows; simpl; rewrite sim_rows_put_ne by done |]; apply sim_rows_put_eq.
    + intros id _ Hno. simpl. rewrite !sim_rows_put_ne; [done | set_solver..].
  - intros ?????????? _ _ _ [? _] _ _ _ _ _ _ _. by apply sim_set_writes.
  - intros d q table kb vb nkv kv_len start out n nq hd ks vs _ [? _] _ _ _ _ _ _ _ Hk Hv Gk Gv.
    cbn [b_attention_paged SimKernels]. rewrite (sim_gathered_eq d table kb ks), (sim_gathered_eq d table vb vs) by done.
    by apply sim_set_writes.
  - intros d q table kp kn vp vn kr vr kc vc kbits vbits nkv kv_len start out n nq hd kps kns vps vns
      _ [? _] _ _ _ _ _ _ _ _ _ ? ? ? ? ? ? ? ?.
    cbn [b_attention_paged_tq SimKernels].
    rewrite (sim_gathered_eq d table kp kps), (sim_gathered_eq d table kn kns), (sim_gathered_eq d table vp vps),
      (sim_gathered_eq d table vn vns) by done.
    by apply sim_set_writes.
  - intros ????? _ _ [? _] _ _ _ _ _. by apply sim_set_writes.
  - intros ?????? _ [? _] _ _ _ _ _. by apply sim_set_writes.
  - intros ????? _ _ [? _] _ _ _ _. by apply sim_set_writes.
  - intros. by left.
  - intros. by left.
Qed.

#[export] Instance SimTimers : TimerOps SimDevice := {|
  b_create_timer := sret 0%Z; b_start_timer _ := sret (); b_stop_timer _ := sret f32_one; b_destroy_timer _ := sret ()
|}.
#[export] Instance SimTimerLaws : TimerLaws SimDevice.
Proof. split; intros; left; eexists; by split_and!. Qed.
