(* ===== verification/Cuda.v ===== *)
(** * The CUDA backend ([backends/fracture-cuda/src/{lib,backend,timers,nvtx,ffi}.rs])

    The Rust side of the CUDA backend: the registry that maps tensor ids to
    device pointers, the methods of the [Backend] trait with their checks, the
    arguments of every kernel launch and the temporary buffers they need, the
    timers, and what is freed when the backend is dropped.

    The CUDA runtime, cuBLAS, NVTX and the kernels are foreign: [CudaDriver] has
    one operation per function of [ffi.rs], on an abstract state of the device,
    that returns the status code and what it writes to its output parameters.
    Pointers are 64-bit integers. *)

From S2P Require Import Prelude F32 Core.

Local Open Scope Z_scope.

(** ** [ffi.rs] *)

(** [n as c_int] for a [usize], and back *)
Definition as_c_int (n : Z) : Z := (n + 2 ^ 31) `mod` 2 ^ 32 - 2 ^ 31.
Definition c_int_as_usize (n : Z) : Z := wrap 64 n.

Inductive cublasOperation_t : Type := CUBLAS_OP_N | CUBLAS_OP_T | CUBLAS_OP_C.
Inductive cudaDataType_t : Type := CUDA_R_16F | CUDA_R_32F.

Definition CUDA_SUCCESS : Z := 0.
Definition CUBLAS_STATUS_SUCCESS : Z := 0.
Definition CUBLAS_GEMM_DEFAULT : Z := -1.
Definition CUBLAS_COMPUTE_32F : Z := 68.

(** The arguments of [cublasGemmEx]. *)
Record Gemm := {
  g_handle : Z;
  transa : cublasOperation_t;
  transb : cublasOperation_t;
  g_m : Z;
  g_n : Z;
  g_k : Z;
  g_alpha : f32;
  g_A : Z;
  Atype : cudaDataType_t;
  lda : Z;
  g_B : Z;
  Btype : cudaDataType_t;
  ldb : Z;
  g_beta : f32;
  g_C : Z;
  Ctype : cudaDataType_t;
  ldc : Z;
  computeType : Z;
  algo : Z
}.

(** The kernels, with their arguments. *)
Inductive Launch : Type :=
  | launch_rmsnorm (output input weight : Z) (eps : f32) (rows cols stream : Z)
  | launch_rope (q k positions freq_table num_tokens num_q_heads num_kv_heads head_dim stream : Z)
  | launch_silu_mul (output gate up n stream : Z)
  | launch_attention (output q k_cache v_cache num_tokens num_q_heads num_kv_heads head_dim kv_len start_pos stream : Z)
  | launch_paged_attention (output q block_table k_block_ptrs v_block_ptrs num_tokens num_q_heads num_kv_heads
      head_dim kv_len start_pos num_blocks_in_seq stream : Z)
  | launch_embedding (output table token_ids num_tokens hidden_dim vocab_size stream : Z)
  | launch_add (output a b n stream : Z)
  | launch_turboquant_compress (input rotation centroids packed_out norms_out num_tokens num_kv_heads head_dim
      n_levels bits packed_dim_per_head stream : Z)
  | launch_turboquant_decompress (packed_in norms_in rotation centroids output num_tokens num_kv_heads head_dim bits
      packed_dim_per_head stream : Z)
  | launch_attention_paged_tq (output q block_table k_packed_ptrs k_norms_ptrs v_packed_ptrs v_norms_ptrs
      k_rotation v_rotation k_centroids v_centroids num_tokens num_q_heads num_kv_heads head_dim kv_len start_pos
      key_bits value_bits k_packed_dim_per_head v_packed_dim_per_head stream : Z).

(** A foreign call: the status and the output parameters. *)
Definition ffi (C A : Type) : Type := C → C * (Z * A).

Class CudaDriver (C : Type) := {
  cudaSetDevice : Z → ffi C unit;
  (** the 1032 bytes of [cudaDeviceProp] *)
  cudaGetDeviceProperties : Z → ffi C (list Z);
  cudaStreamCreate : ffi C Z;
  cudaStreamDestroy : Z → ffi C unit;
  cudaStreamSynchronize : Z → ffi C unit;
  cublasCreate_v2 : ffi C Z;
  cublasDestroy_v2 : Z → ffi C unit;
  cublasSetStream_v2 : Z → Z → ffi C unit;
  cudaMalloc : Z → ffi C Z;
  cudaFree : Z → ffi C unit;
  (** [cudaMemcpy], by kind: host bytes to a pointer, bytes at a pointer, pointer to pointer *)
  cudaMemcpy_htod : Z → list Z → ffi C unit;
  cudaMemcpy_dtoh : Z → Z → ffi C (list Z);
  cudaMemcpy_dtod : Z → Z → Z → ffi C unit;
  (** from the values that the two variables have before *)
  cudaMemGetInfo : Z * Z → ffi C (Z * Z);
  cublasGemmEx : Gemm → ffi C unit;
  launch : Launch → ffi C unit;
  cudaEventCreate : ffi C Z;
  cudaEventDestroy : Z → ffi C unit;
  cudaEventRecord : Z → Z → ffi C unit;
  cudaEventSynchronize : Z → ffi C unit;
  cudaEventElapsedTime : Z → Z → ffi C f32;
  nvtxRangePushA : string → ffi C unit;
  nvtxRangePop : ffi C unit
}.

(** ** The backend's state ([lib.rs], [timers.rs]) *)

Record CudaState := { tensors : gmap Z Z; next_id : Z }.
Record TimerState := { events : gmap Z (Z * Z); next_timer : Z }.

Record CudaBackend := {
  device_id : Z;
  stream : Z;
  cublas_handle : Z;
  state : Mutex CudaState;
  timer_manager : Mutex TimerState;
  cuda_device_name : list Z;   (* the bytes, before lossy decoding *)
  cuda_total_memory : Z;
  rope_freq_table : option Z
}.

Definition with_state (m : Mutex CudaState) (b : CudaBackend) : CudaBackend :=
  {| device_id := device_id b; stream := stream b; cublas_handle := cublas_handle b; state := m; timer_manager := timer_manager b;
     cuda_device_name := cuda_device_name b; cuda_total_memory := cuda_total_memory b; rope_freq_table := rope_freq_table b |}.
Definition with_timers (m : Mutex TimerState) (b : CudaBackend) : CudaBackend :=
  {| device_id := device_id b; stream := stream b; cublas_handle := cublas_handle b; state := state b; timer_manager := m;
     cuda_device_name := cuda_device_name b; cuda_total_memory := cuda_total_memory b; rope_freq_table := rope_freq_table b |}.
Definition with_freqs (p : option Z) (b : CudaBackend) : CudaBackend :=
  {| device_id := device_id b; stream := stream b; cublas_handle := cublas_handle b; state := state b; timer_manager := timer_manager b;
     cuda_device_name := cuda_device_name b; cuda_total_memory := cuda_total_memory b; rope_freq_table := p |}.

(** [TimerManager::new] *)
Definition timer_manager_new : Mutex TimerState := mutex_new {| events := ∅; next_timer := 1 |}.

(** Slices as bytes: [u32]s and [i32]s, [f32]s, pointers. *)
Definition u32_bytes (l : list Z) : list Z := mjoin (to_le_bytes 4 <$> l).
Definition f32_bytes (l : list f32) : list Z := mjoin ((λ x, to_le_bytes 4 (f32_to_bits x)) <$> l).
Definition ptr_bytes (l : list Z) : list Z := mjoin (to_le_bytes 8 <$> l).

Section backend.
Context {C : Type} `{CudaDriver C}.

Notation gpu := (CudaBackend * C)%type.

Definition ffi_call {A : Type} (f : ffi C A) : st gpu (Z * A) := λ '(b, c), let '(c', r) := f c in ((b, c'), Ok r).
(** A call whose status nobody looks at. *)
Definition ffi_ignore {A : Type} (f : ffi C A) : st gpu unit := do! _ := ffi_call f in sret ().
(** A call whose failure is reported with this message. *)
Definition ffi_check {A : Type} (msg : string) (f : ffi C A) : st gpu A :=
  do! (err, a) := ffi_call f in
  if negb (err =? CUDA_SUCCESS) then serr (Backend msg) else sret a.

(** [cuda_check!] and [cublas_check!] *)
Definition cuda_check {A : Type} (f : ffi C A) : st gpu A := ffi_check "CUDA error" f.
Definition cublas_check {A : Type} (f : ffi C A) : st gpu A :=
  do! (status, a) := ffi_call f in
  if negb (status =? CUBLAS_STATUS_SUCCESS) then serr (Backend "cuBLAS error") else sret a.

Definition backend_field {A : Type} (f : CudaBackend → A) : st gpu A := λ s, (s, Ok (f s.1)).

(** The registry and the timers, under their locks. *)
Definition on_state {A : Type} (body : st CudaState A) : st gpu A := λ '(b, c),
  let '(m, r) := with_lock body (state b) in ((with_state m b, c), r).
Definition on_timers {A : Type} (body : st TimerState A) : st gpu A := λ '(b, c),
  let '(m, r) := with_lock body (timer_manager b) in ((with_timers m b, c), r).

(** ** [nvtx.rs] *)

Fixpoint has_nul (s : string) : bool :=
  match s with
  | EmptyString => false
  | String a s' => Ascii.eqb a Ascii.zero || has_nul s'
  end.

Definition range_push (name : string) : st gpu unit :=
  ffi_ignore (nvtxRangePushA (if has_nul name then "invalid" else name)%string).
Definition range_pop : st gpu unit := ffi_ignore nvtxRangePop.

(** ** [lib.rs] *)

(** The device's name, up to the first zero byte, and its memory, at offset 288. *)
Fixpoint until_nul (l : list Z) : list Z :=
  match l with
  | [] => []
  | x :: l' => if x =? 0 then [] else x :: until_nul l'
  end.
Definition total_global_mem (props : list Z) : Z := from_le_bytes (take 8 (drop 288 props)).

(** A check outside of a backend, in [new] *)
Definition new_check {A : Type} (msg : string) (f : ffi C A) : st C A := λ c,
  let '(c', (err, a)) := f c in if negb (err =? 0) then (c', Err (Backend msg)) else (c', Ok a).

Definition cuda_new (device_id : Z) : st C CudaBackend :=
  do! _ := new_check "CUDA error" (cudaSetDevice device_id) in
  do! stream := new_check "CUDA error" cudaStreamCreate in
  do! cublas_handle := new_check "cuBLAS error" cublasCreate_v2 in
  do! _ := new_check "cuBLAS error" (cublasSetStream_v2 cublas_handle stream) in
  do! props := new_check "CUDA error" (cudaGetDeviceProperties device_id) in
  sret {| device_id := device_id; stream := stream; cublas_handle := cublas_handle;
          state := mutex_new {| tensors := ∅; next_id := 1 |};
          timer_manager := timer_manager_new;
          cuda_device_name := until_nul props; cuda_total_memory := total_global_mem props;
          rope_freq_table := None |}.

Definition get_ptr (id : Z) : st gpu Z := on_state (λ s,
  (s, match tensors s !! id with Some p => Ok p | None => Err (TensorNotFound "tensor id") end)).

(** [powf]: the platform's [f64::powf] *)
Definition rope_freqs (powf : f64 → f64 → f64) (head_dim : Z) (theta : f64) : list f32 :=
  (λ i, f32_div f32_one (f64_to_f32 (powf theta (f64_div (f64_mul (f64_of_Z 2) (f64_of_Z (Z.of_nat i))) (f64_of_Z head_dim)))))
    <$> seq 0 (Z.to_nat (head_dim `div` 2)).

(** A device buffer with these bytes: [cudaMalloc] and [cudaMemcpy] *)
Definition upload (bytes : list Z) : st gpu Z :=
  do! dev_ptr := cuda_check (cudaMalloc (Z.of_nat (length bytes))) in
  do! _ := cuda_check (cudaMemcpy_htod dev_ptr bytes) in
  sret dev_ptr.

Definition precompute_rope_freqs (powf : f64 → f64 → f64) (head_dim : Z) (theta : f64) : st gpu unit :=
  let freqs := rope_freqs powf head_dim theta in
  do! dev_ptr := upload (f32_bytes freqs) in
  do! old := backend_field rope_freq_table in
  do! _ := match old with Some p => ffi_ignore (cudaFree p) | None => sret () end in
  λ '(b, c), ((with_freqs (Some dev_ptr) b, c), Ok ()).

Definition rope_freq_ptr : st gpu Z :=
  do! p := backend_field rope_freq_table in
  match p with Some p => sret p | None => serr (Backend "RoPE frequency table not initialized. Call precompute_rope_freqs() first.") end.

(** ** [timers.rs] *)

Definition lookup_timer (timer : Z) : st TimerState (Z * Z) := λ s,
  (s, match events s !! timer with Some ev => Ok ev | None => Err (Backend "timer not found") end).

Definition cuda_create_timer : st gpu Z :=
  do! start := ffi_check "cudaEventCreate failed" cudaEventCreate in
  do! (err, stop) := ffi_call cudaEventCreate in
  if negb (err =? CUDA_SUCCESS) then
    do! _ := ffi_ignore (cudaEventDestroy start) in
    serr (Backend "cudaEventCreate failed")
  else on_timers (λ s,
    let id := next_timer s in
    match checked 64 (next_timer s + 1) with
    | Ok n => ({| events := <[id := (start, stop)]> (events s); next_timer := n |}, Ok id)
    | Err e => (s, Err e)
    | Panic => (s, Panic)
    end).

Definition cuda_start_timer (timer : Z) : st gpu unit :=
  do! (start, _) := on_timers (lookup_timer timer) in
  do! stream := backend_field stream in
  ffi_check "cudaEventRecord failed" (cudaEventRecord start stream).

Definition cuda_stop_timer (timer : Z) : st gpu f32 :=
  do! (start, stop) := on_timers (lookup_timer timer) in
  do! stream := backend_field stream in
  do! _ := ffi_check "cudaEventRecord failed" (cudaEventRecord stop stream) in
  do! _ := ffi_check "cudaEventSynchronize failed" (cudaEventSynchronize stop) in
  ffi_check "cudaEventElapsedTime failed" (cudaEventElapsedTime start stop).

Definition cuda_destroy_timer (timer : Z) : st gpu unit :=
  do! (start, stop) := on_timers (λ s,
    match events s !! timer with
    | Some ev => ({| events := delete timer (events s); next_timer := next_timer s |}, Ok ev)
    | None => (s, Err (Backend "timer not found"))
    end) in
  do! _ := ffi_ignore (cudaEventDestroy start) in
  ffi_ignore (cudaEventDestroy stop).

(** ** [backend.rs]: memory *)

Definition alloc_size (sh : list Z) (dt : DType) : result Z :=
  let? numel := uproduct sh in
  if is_packed dt then Ok ((numel + 1) `div` 2) else umul numel (dtype_size_bytes dt).

Definition cuda_alloc (sh : list Z) (dt : DType) : st gpu DeviceTensor :=
  do! size := slift (alloc_size sh dt) in
  do! dev_ptr := cuda_check (cudaMalloc size) in
  do! id := on_state (λ s,
    let id := next_id s in
    match checked 64 (next_id s + 1) with
    | Ok n => ({| tensors := <[id := dev_ptr]> (tensors s); next_id := n |}, Ok id)
    | Err e => (s, Err e)
    | Panic => (s, Panic)
    end) in
  sret {| tensor_id := id; shape := sh; dtype := dt |}.

Definition cuda_free (t : DeviceTensor) : st gpu unit :=
  do! ptr := on_state (λ s,
    match tensors s !! tensor_id t with
    | Some p => ({| tensors := delete (tensor_id t) (tensors s); next_id := next_id s |}, Ok p)
    | None => (s, Err (TensorNotFound "tensor id"))
    end) in
  do! _ := cuda_check (cudaFree ptr) in
  sret ().

Definition cuda_copy_to_device (dst : DeviceTensor) (src : list Z) : st gpu unit :=
  do! ptr := get_ptr (tensor_id dst) in
  do! size := slift (size_bytes dst) in
  if Z.of_nat (length src) <? size then serr (InvalidShape "source buffer too small")
  else cuda_check (cudaMemcpy_htod ptr (take (Z.to_nat size) src)).

(** Returns the contents of [dst] afterwards. *)
Definition cuda_copy_to_host (src : DeviceTensor) (dst : list Z) : st gpu (list Z) :=
  do! ptr := get_ptr (tensor_id src) in
  do! size := slift (size_bytes src) in
  if Z.of_nat (length dst) <? size then serr (InvalidShape "destination buffer too small")
  else
    do! bytes := cuda_check (cudaMemcpy_dtoh ptr size) in
    sret (bytes ++ drop (Z.to_nat size) dst).

(** [copy_rows] after its checks *)
Definition copy_row_bytes (src dst : DeviceTensor) (src_offset dst_offset count : Z) : st gpu unit :=
  do! src_ptr := get_ptr (tensor_id src) in
  do! dst_ptr := get_ptr (tensor_id dst) in
  do! row_size := slift (uproduct (drop 1 (shape src)) *! Ok (dtype_size_bytes (dtype src))) in
  do! byte_count := slift (umul count row_size) in
  do! src_byte_offset := slift (umul src_offset row_size) in
  do! dst_byte_offset := slift (umul dst_offset row_size) in
  do! _ := cuda_check (cudaMemcpy_dtod (wrap 64 (dst_ptr + dst_byte_offset)) (wrap 64 (src_ptr + src_byte_offset)) byte_count) in
  range_pop.

Definition cuda_copy_rows (src dst : DeviceTensor) (src_offset dst_offset count : Z) : st gpu unit :=
  do! _ := range_push "copy_rows" in
  do! src_end := slift (uadd src_offset count) in
  do! src_rows := slift (index (shape src) 0) in
  if src_rows <? src_end then serr (InvalidShape "copy_rows: exceeds src rows")
  else
    do! dst_end := slift (uadd dst_offset count) in
    do! dst_rows := slift (index (shape dst) 0) in
    if dst_rows <? dst_end then serr (InvalidShape "copy_rows: exceeds dst rows")
    else if negb (bool_decide (drop 1 (shape src) = drop 1 (shape dst))) then serr (InvalidShape "copy_rows: column shape")
    else if negb (bool_decide (dtype src = dtype dst)) then serr (InvalidShape "copy_rows: dtype")
    else copy_row_bytes src dst src_offset dst_offset count.

(** ** [backend.rs]: kernels *)

(** [t.shape[i] as c_int] *)
Definition c_dim (t : DeviceTensor) (i : nat) : st gpu Z := slift (rmap as_c_int (index (shape t) i)).

Definition cuda_matmul (a b out : DeviceTensor) : st gpu unit :=
  do! a1 := slift (index (shape a) 1) in
  do! b1 := slift (index (shape b) 1) in
  if negb (a1 =? b1) then serr (InvalidShape "matmul: inner dim")
  else
    do! _ := range_push "matmul" in
    do! m := c_dim a 0 in
    do! k := c_dim a 1 in
    do! n := c_dim b 0 in
    do! a_ptr := get_ptr (tensor_id a) in
    do! b_ptr := get_ptr (tensor_id b) in
    do! c_ptr := get_ptr (tensor_id out) in
    do! handle := backend_field cublas_handle in
    do! _ := cublas_check (cublasGemmEx {|
      g_handle := handle; transa := CUBLAS_OP_T; transb := CUBLAS_OP_N; g_m := n; g_n := m; g_k := k;
      g_alpha := f32_one; g_A := b_ptr; Atype := CUDA_R_16F; lda := k; g_B := a_ptr; Btype := CUDA_R_16F; ldb := k;
      g_beta := f32_zero; g_C := c_ptr; Ctype := CUDA_R_16F; ldc := n;
      computeType := CUBLAS_COMPUTE_32F; algo := CUBLAS_GEMM_DEFAULT |}) in
    range_pop.

Definition cuda_rmsnorm (input weight : DeviceTensor) (eps : f64) (out : DeviceTensor) : st gpu unit :=
  do! _ := range_push "rmsnorm" in
  do! rows := c_dim input 0 in
  do! cols := c_dim input 1 in
  do! input_ptr := get_ptr (tensor_id input) in
  do! weight_ptr := get_ptr (tensor_id weight) in
  do! out_ptr := get_ptr (tensor_id out) in
  do! stream := backend_field stream in
  do! _ := cuda_check (launch (launch_rmsnorm out_ptr input_ptr weight_ptr (f64_to_f32 eps) rows cols stream)) in
  range_pop.

(** The parameter [theta] is not used: the frequencies are precomputed. *)
Definition cuda_rope (q k : DeviceTensor) (positions : list Z) (theta : f64) (head_dim : Z) : st gpu unit :=
  do! _ := range_push "rope" in
  do! q_ptr := get_ptr (tensor_id q) in
  do! k_ptr := get_ptr (tensor_id k) in
  do! freq_ptr := rope_freq_ptr in
  let num_tokens := as_c_int (Z.of_nat (length positions)) in
  do! num_q_heads := c_dim q 1 in
  do! num_kv_heads := c_dim k 1 in
  do! pos_dev := upload (u32_bytes positions) in
  do! stream := backend_field stream in
  do! (result, _) := ffi_call (launch
    (launch_rope q_ptr k_ptr pos_dev freq_ptr num_tokens num_q_heads num_kv_heads (as_c_int head_dim) stream)) in
  do! _ := ffi_ignore (cudaFree pos_dev) in
  do! _ := range_pop in
  if negb (result =? CUDA_SUCCESS) then serr (Backend "RoPE kernel error") else sret ().

Definition cuda_attention (q k_cache v_cache : DeviceTensor) (num_kv_heads start_pos : Z) (out : DeviceTensor) : st gpu unit :=
  do! _ := range_push "attention" in
  do! q_ptr := get_ptr (tensor_id q) in
  do! k_ptr := get_ptr (tensor_id k_cache) in
  do! v_ptr := get_ptr (tensor_id v_cache) in
  do! out_ptr := get_ptr (tensor_id out) in
  do! num_tokens := c_dim q 0 in
  do! num_q_heads := c_dim q 1 in
  do! head_dim := c_dim q 2 in
  do! kv_len := slift (rmap as_c_int (uadd start_pos (c_int_as_usize num_tokens))) in
  do! stream := backend_field stream in
  do! _ := cuda_check (launch (launch_attention out_ptr q_ptr k_ptr v_ptr num_tokens num_q_heads (as_c_int num_kv_heads)
    head_dim kv_len (as_c_int start_pos) stream)) in
  range_pop.

(** The device pointers of tensors *)
Definition get_ptrs (ts : list DeviceTensor) : st gpu (list Z) := smapM (λ t, get_ptr (tensor_id t)) ts.

Definition cuda_attention_paged (q : DeviceTensor) (block_table : list Z) (k_blocks v_blocks : list DeviceTensor)
    (num_kv_heads kv_len start_pos : Z) (out : DeviceTensor) : st gpu unit :=
  do! _ := range_push "attention_paged" in
  do! q_ptr := get_ptr (tensor_id q) in
  do! out_ptr := get_ptr (tensor_id out) in
  do! num_tokens := c_dim q 0 in
  do! num_q_heads := c_dim q 1 in
  do! head_dim := c_dim q 2 in
  do! k_ptrs := get_ptrs k_blocks in
  do! v_ptrs := get_ptrs v_blocks in
  do! bt_dev := upload (u32_bytes block_table) in
  do! kbp_dev := upload (ptr_bytes k_ptrs) in
  do! vbp_dev := upload (ptr_bytes v_ptrs) in
  do! stream := backend_field stream in
  do! _ := cuda_check (launch (launch_paged_attention out_ptr q_ptr bt_dev kbp_dev vbp_dev num_tokens num_q_heads
    (as_c_int num_kv_heads) head_dim (as_c_int kv_len) (as_c_int start_pos)
    (as_c_int (Z.of_nat (length block_table))) stream)) in
  do! _ := ffi_ignore (cudaFree bt_dev) in
  do! _ := ffi_ignore (cudaFree kbp_dev) in
  do! _ := ffi_ignore (cudaFree vbp_dev) in
  range_pop.

Definition cuda_silu_mul (gate up out : DeviceTensor) : st gpu unit :=
  if negb (bool_decide (shape gate = shape up)) then serr (InvalidShape "silu_mul: gate shape")
  else
    do! _ := range_push "silu_mul" in
    do! n := slift (rmap as_c_int (numel gate)) in
    do! gate_ptr := get_ptr (tensor_id gate) in
    do! up_ptr := get_ptr (tensor_id up) in
    do! out_ptr := get_ptr (tensor_id out) in
    do! stream := backend_field stream in
    do! _ := cuda_check (launch (launch_silu_mul out_ptr gate_ptr up_ptr n stream)) in
    range_pop.

Definition cuda_embedding (token_ids : list Z) (embedding_table out : DeviceTensor) : st gpu unit :=
  do! _ := range_push "embedding" in
  do! table_ptr := get_ptr (tensor_id embedding_table) in
  do! out_ptr := get_ptr (tensor_id out) in
  let num_tokens := as_c_int (Z.of_nat (length token_ids)) in
  do! hidden_dim := c_dim embedding_table 1 in
  do! vocab_size := c_dim embedding_table 0 in
  do! ids_dev := upload (u32_bytes token_ids) in
  do! stream := backend_field stream in
  do! (result, _) := ffi_call (launch (launch_embedding out_ptr table_ptr ids_dev num_tokens hidden_dim vocab_size stream)) in
  do! _ := ffi_ignore (cudaFree ids_dev) in
  do! _ := range_pop in
  if negb (result =? CUDA_SUCCESS) then serr (Backend "embedding kernel error") else sret ().

Definition cuda_add (a b out : DeviceTensor) : st gpu unit :=
  if negb (bool_decide (shape a = shape b)) then serr (InvalidShape "add: a shape")
  else
    do! _ := range_push "add" in
    do! n := slift (rmap as_c_int (numel a)) in
    do! a_ptr := get_ptr (tensor_id a) in
    do! b_ptr := get_ptr (tensor_id b) in
    do! out_ptr := get_ptr (tensor_id out) in
    do! stream := backend_field stream in
    do! _ := cuda_check (launch (launch_add out_ptr a_ptr b_ptr n stream)) in
    range_pop.

(** [(head_dim as usize * bits as usize).div_ceil(8) as c_int] *)
Definition packed_dim (head_dim bits : Z) : st gpu Z :=
  slift (rmap (λ n, as_c_int ((n + 7) `div` 8)) (umul (c_int_as_usize head_dim) bits)).

Definition cuda_turboquant_compress (input rotation_matrix centroids : DeviceTensor) (bits : Z) (packed_out norms_out : DeviceTensor)
    : st gpu unit :=
  do! _ := range_push "turboquant_compress" in
  do! input_ptr := get_ptr (tensor_id input) in
  do! rotation_ptr := get_ptr (tensor_id rotation_matrix) in
  do! centroids_ptr := get_ptr (tensor_id centroids) in
  do! packed_ptr := get_ptr (tensor_id packed_out) in
  do! norms_ptr := get_ptr (tensor_id norms_out) in
  do! num_tokens := c_dim input 0 in
  do! num_kv_heads := c_dim input 1 in
  do! head_dim := c_dim input 2 in
  do! n_levels := c_dim centroids 0 in
  do! packed_dim_per_head := packed_dim head_dim bits in
  do! stream := backend_field stream in
  do! _ := cuda_check (launch (launch_turboquant_compress input_ptr rotation_ptr centroids_ptr packed_ptr norms_ptr
    num_tokens num_kv_heads head_dim n_levels bits packed_dim_per_head stream)) in
  range_pop.

Definition cuda_attention_paged_tq (q : DeviceTensor) (block_table : list Z) (k_packed k_norms v_packed v_norms : list DeviceTensor)
    (k_rotation v_rotation k_centroids v_centroids : DeviceTensor) (key_bits value_bits num_kv_heads kv_len start_pos : Z)
    (out : DeviceTensor) : st gpu unit :=
  do! _ := range_push "attention_paged_tq" in
  do! q_ptr := get_ptr (tensor_id q) in
  do! out_ptr := get_ptr (tensor_id out) in
  do! k_rot_ptr := get_ptr (tensor_id k_rotation) in
  do! v_rot_ptr := get_ptr (tensor_id v_rotation) in
  do! k_cent_ptr := get_ptr (tensor_id k_centroids) in
  do! v_cent_ptr := get_ptr (tensor_id v_centroids) in
  do! num_tokens := c_dim q 0 in
  do! num_q_heads := c_dim q 1 in
  do! head_dim := c_dim q 2 in
  do! k_packed_dim_per_head := packed_dim head_dim key_bits in
  do! v_packed_dim_per_head := packed_dim head_dim value_bits in
  do! kp_ptrs := get_ptrs k_packed in
  do! kn_ptrs := get_ptrs k_norms in
  do! vp_ptrs := get_ptrs v_packed in
  do! vn_ptrs := get_ptrs v_norms in
  do! bt_dev := upload (u32_bytes block_table) in
  do! kp_dev := upload (ptr_bytes kp_ptrs) in
  do! kn_dev := upload (ptr_bytes kn_ptrs) in
  do! vp_dev := upload (ptr_bytes vp_ptrs) in
  do! vn_dev := upload (ptr_bytes vn_ptrs) in
  do! stream := backend_field stream in
  do! _ := cuda_check (launch (launch_attention_paged_tq out_ptr q_ptr bt_dev kp_dev kn_dev vp_dev vn_dev
    k_rot_ptr v_rot_ptr k_cent_ptr v_cent_ptr num_tokens num_q_heads (as_c_int num_kv_heads) head_dim
    (as_c_int kv_len) (as_c_int start_pos) key_bits value_bits k_packed_dim_per_head v_packed_dim_per_head stream)) in
  do! _ := ffi_ignore (cudaFree bt_dev) in
  do! _ := ffi_ignore (cudaFree kp_dev) in
  do! _ := ffi_ignore (cudaFree kn_dev) in
  do! _ := ffi_ignore (cudaFree vp_dev) in
  do! _ := ffi_ignore (cudaFree vn_dev) in
  range_pop.

(** ** [backend.rs]: the device *)

Definition cuda_available_memory : st gpu Z :=
  do! (_, (free, _)) := ffi_call (cudaMemGetInfo (0, 0)) in
  sret free.
Definition cuda_synchronize : st gpu unit :=
  do! stream := backend_field stream in
  do! _ := cuda_check (cudaStreamSynchronize stream) in
  sret ().

(** ** Dropping the backend *)

Fixpoint free_all (ptrs : list Z) : st gpu unit :=
  match ptrs with [] => sret () | p :: ps => do! _ := ffi_ignore (cudaFree p) in free_all ps end.
Fixpoint destroy_all (evs : list (Z * Z)) : st gpu unit :=
  match evs with
  | [] => sret ()
  | (start, stop) :: es =>
      do! _ := ffi_ignore (cudaEventDestroy start) in
      do! _ := ffi_ignore (cudaEventDestroy stop) in
      destroy_all es
  end.

(** [CudaBackend::drop] *)
Definition backend_drop (ho : HashOrder) : st gpu unit :=
  do! ptrs := on_state (λ s, (s, Ok (hm_values ho (tensors s)))) in
  do! _ := free_all ptrs in
  do! freq := backend_field rope_freq_table in
  do! _ := match freq with Some p => ffi_ignore (cudaFree p) | None => sret () end in
  do! handle := backend_field cublas_handle in
  do! _ := ffi_ignore (cublasDestroy_v2 handle) in
  do! stream := backend_field stream in
  ffi_ignore (cudaStreamDestroy stream).

(** [TimerManager::drop]: the lock is taken even if it is poisoned *)
Definition timers_drop (ho : HashOrder) : st gpu unit :=
  do! evs := backend_field (λ b, hm_values ho (events (guarded (timer_manager b)))) in
  destroy_all evs.

(** The backend's [drop], then that of its fields, also if the first panics. *)
Definition drop_backend (ho : HashOrder) : st gpu unit := λ s,
  let '(s, r) := backend_drop ho s in
  let '(s, _) := timers_drop ho s in
  (s, r).
End backend.
