(* ===== verification/CudaLaws.v ===== *)
(** * The CUDA runtime

    What the CUDA runtime and cuBLAS document of the functions in [ffi.rs], as
    laws over what can be observed of the device: the allocated blocks, the bytes
    in them, the events, and whether a call has failed.  [SimCuda] is a device
    that evaluates. *)

From S2P Require Import Prelude F32 Core Cuda.

Local Open Scope Z_scope.

(** ** The device *)

Class CudaView (C : Type) := {
  c_blocks : C → gmap Z Z;       (* base address and size of the allocated blocks *)
  c_mem : C → Z → Z;             (* bytes *)
  c_events : C → gset Z;
  c_failed : C → bool;           (* some call has returned an error *)
  (** what a GEMM stores for an element: of alpha, beta, the pairs of factors and
      the element that was there *)
  gemm_value : f32 → f32 → list (Z * Z) → Z → Z
}.

Definition apart (p n q m : Z) : Prop := p + n ≤ q ∨ q + m ≤ p.

(** A block that an allocation can return, beside the blocks [m]. *)
Record fresh_block (m : gmap Z Z) (p n : Z) : Prop := {
  fb_new : p ∉ dom m;
  fb_range : 0 < p ∧ 0 ≤ n ∧ p + n ≤ 2 ^ 64;
  fb_apart q k : m !! q = Some k → apart p n q k
}.

(** Blocks lie apart in the address space, and none at the null pointer. *)
Definition blocks_wf (m : gmap Z Z) : Prop := ∀ p n, m !! p = Some n → fresh_block (delete p m) p n.

Section view.
Context {C : Type} `{CudaDriver C} `{CudaView C}.
Implicit Types c : C.

Definition status c c' (err : Z) : Prop := c_failed c' = c_failed c || negb (err =? 0).

(** [n] bytes at [p] are inside of an allocated block. *)
Definition inside c (p n : Z) : Prop := n = 0 ∨ ∃ base size, c_blocks c !! base = Some size ∧ base ≤ p ∧ p + n ≤ base + size.

(** Allocated memory that does not meet [P] stays as it is. *)
Definition kept_outside (P : Z → Prop) c c' : Prop := ∀ a, inside c a 1 → ¬ P a → c_mem c' a = c_mem c a.

(** A call that allocates and frees nothing. *)
Definition calm {A : Type} (f : ffi C A) : Prop := ∀ c c' err a, f c = (c', (err, a)) →
  status c c' err ∧ c_blocks c' = c_blocks c ∧ c_events c' = c_events c.
(** A call to the profiler: its result is not an error code, and it touches nothing. *)
Definition silent {A : Type} (f : ffi C A) : Prop := ∀ c c' r, f c = (c', r) →
  c_failed c' = c_failed c ∧ c_blocks c' = c_blocks c ∧ c_events c' = c_events c ∧ kept_outside (λ _, False) c c'.
(** A call that does not touch the memory either. *)
Definition quiet {A : Type} (f : ffi C A) : Prop := calm f ∧ ∀ c c' err a, f c = (c', (err, a)) → kept_outside (λ _, False) c c'.

Definition bytes_at c (p n : Z) : list Z := c_mem c <$> seqZ p n.
Definition half c (p : Z) : Z := c_mem c p + 256 * c_mem c (p + 1).

(** The matrices of a GEMM are stored by columns. *)
Definition op_A c (g : Gemm) (i l : Z) : Z :=
  half c (g_A g + 2 * match transa g with CUBLAS_OP_N => i + l * lda g | _ => l + i * lda g end).
Definition op_B c (g : Gemm) (l j : Z) : Z :=
  half c (g_B g + 2 * match transb g with CUBLAS_OP_N => l + j * ldb g | _ => j + l * ldb g end).
Definition out_C (g : Gemm) (i j : Z) : Z := g_C g + 2 * (i + j * ldc g).

(** The bytes the three matrices take. *)
Definition len_A (g : Gemm) : Z := 2 * lda g * match transa g with CUBLAS_OP_N => g_k g | _ => g_m g end.
Definition len_B (g : Gemm) : Z := 2 * ldb g * match transb g with CUBLAS_OP_N => g_n g | _ => g_k g end.
Definition len_C (g : Gemm) : Z := 2 * ldc g * g_n g.
Record gemm_valid c (g : Gemm) : Prop := {
  gv_types : Atype g = CUDA_R_16F ∧ Btype g = CUDA_R_16F ∧ Ctype g = CUDA_R_16F;
  gv_dims : 0 < g_m g ∧ 0 < g_n g ∧ 0 < g_k g;
  gv_lda : match transa g with CUBLAS_OP_N => g_m g | _ => g_k g end ≤ lda g;
  gv_ldb : match transb g with CUBLAS_OP_N => g_k g | _ => g_n g end ≤ ldb g;
  gv_ldc : g_m g ≤ ldc g;
  gv_inside : inside c (g_A g) (len_A g) ∧ inside c (g_B g) (len_B g) ∧ inside c (g_C g) (len_C g);
  gv_apart : apart (g_C g) (len_C g) (g_A g) (len_A g) ∧ apart (g_C g) (len_C g) (g_B g) (len_B g)
}.
End view.

Class CudaLaws (C : Type) `{CudaDriver C} `{CudaView C} := {
  (** nothing may be allocated for a size of zero *)
  cudaMalloc_law (c c' : C) n err p : cudaMalloc n c = (c', (err, p)) →
    status c c' err ∧ c_events c' = c_events c ∧ kept_outside (λ _, False) c c' ∧
    if err =? 0 then (p = 0 ∧ n = 0 ∧ c_blocks c' = c_blocks c) ∨ (fresh_block (c_blocks c) p n ∧ c_blocks c' = <[p := n]> (c_blocks c))
    else c_blocks c' = c_blocks c;
  (** [cudaFree] may report the failure of an earlier call *)
  cudaFree_law (c c' : C) p err a : cudaFree p c = (c', (err, a)) → p = 0 ∨ p ∈ dom (c_blocks c) →
    status c c' err ∧ c_events c' = c_events c ∧ (∀ x, inside c' x 1 → c_mem c' x = c_mem c x) ∧
    (c_blocks c' = delete p (c_blocks c) ∨ (err ≠ 0 ∧ c_blocks c' = c_blocks c));
  cudaMemcpy_htod_calm p l : calm (cudaMemcpy_htod (C := C) p l);
  cudaMemcpy_htod_law (c c' : C) p l err a : cudaMemcpy_htod p l c = (c', (err, a)) → inside c p (Z.of_nat (length l)) →
    kept_outside (λ x, p ≤ x < p + Z.of_nat (length l)) c c' ∧ (err = 0 → bytes_at c' p (Z.of_nat (length l)) = l);
  cudaMemcpy_dtoh_quiet p n : quiet (cudaMemcpy_dtoh (C := C) p n);
  cudaMemcpy_dtoh_law (c c' : C) p n bytes : cudaMemcpy_dtoh p n c = (c', (0, bytes)) → inside c p n → bytes = bytes_at c p n;
  cudaMemcpy_dtod_calm p q n : calm (cudaMemcpy_dtod (C := C) p q n);
  cudaMemcpy_dtod_law (c c' : C) p q n err a : cudaMemcpy_dtod p q n c = (c', (err, a)) →
    inside c p n → inside c q n → apart p n q n →
    kept_outside (λ x, p ≤ x < p + n) c c' ∧ (err = 0 → bytes_at c' p n = bytes_at c q n);
  launch_calm l : calm (launch (C := C) l);
  cublasGemmEx_calm g : calm (cublasGemmEx (C := C) g);
  cublasGemmEx_law (c c' : C) g a : cublasGemmEx g c = (c', (0, a)) → gemm_valid c g →
    kept_outside (λ x, g_C g ≤ x < g_C g + len_C g) c c' ∧
    ∀ i j, 0 ≤ i < g_m g → 0 ≤ j < g_n g →
      half c' (out_C g i j) =
        gemm_value (g_alpha g) (g_beta g) ((λ l, (op_A c g i l, op_B c g l j)) <$> seqZ 0 (g_k g)) (half c (out_C g i j));
  (** with a beta of zero the output is not read *)
  gemm_value_beta_zero alpha ps x y : gemm_value alpha f32_zero ps x = gemm_value alpha f32_zero ps y;
  cudaEventCreate_law (c c' : C) err ev : cudaEventCreate c = (c', (err, ev)) →
    status c c' err ∧ c_blocks c' = c_blocks c ∧
    if err =? 0 then ev ∉ c_events c ∧ c_events c' = {[ev]} ∪ c_events c else c_events c' = c_events c;
  cudaEventDestroy_law (c c' : C) ev err a : cudaEventDestroy ev c = (c', (err, a)) → ev ∈ c_events c →
    status c c' err ∧ c_blocks c' = c_blocks c ∧
    (c_events c' = c_events c ∖ {[ev]} ∨ (err ≠ 0 ∧ c_events c' = c_events c));
  cudaEventRecord_calm ev s : calm (cudaEventRecord (C := C) ev s);
  cudaEventSynchronize_calm ev : calm (cudaEventSynchronize (C := C) ev);
  cudaEventElapsedTime_calm ev ev' : calm (cudaEventElapsedTime (C := C) ev ev');
  cudaStreamSynchronize_calm s : calm (cudaStreamSynchronize (C := C) s);
  cudaMemGetInfo_calm v : calm (cudaMemGetInfo (C := C) v);
  (** the functions of the profiler return the nesting depth *)
  nvtxRangePushA_silent s : silent (nvtxRangePushA (C := C) s);
  nvtxRangePop_silent : silent (nvtxRangePop (C := C));
  cudaSetDevice_calm d : calm (cudaSetDevice (C := C) d);
  cudaGetDeviceProperties_calm d : calm (cudaGetDeviceProperties (C := C) d);
  cudaStreamCreate_calm : calm (cudaStreamCreate (C := C));
  cudaStreamDestroy_calm s : calm (cudaStreamDestroy (C := C) s);
  cublasCreate_calm : calm (cublasCreate_v2 (C := C));
  cublasDestroy_calm h : calm (cublasDestroy_v2 (C := C) h);
  cublasSetStream_calm h s : calm (cublasSetStream_v2 (C := C) h s)
}.

Create HintDb cuda discriminated.
#[export] Hint Resolve cudaMemcpy_htod_calm cudaMemcpy_dtod_calm launch_calm cublasGemmEx_calm cudaEventRecord_calm
  cudaEventSynchronize_calm cudaEventElapsedTime_calm cudaStreamSynchronize_calm cudaMemGetInfo_calm cudaSetDevice_calm
  cudaGetDeviceProperties_calm cudaStreamCreate_calm cudaStreamDestroy_calm cublasCreate_calm cublasDestroy_calm
  cublasSetStream_calm nvtxRangePushA_silent nvtxRangePop_silent : cuda.
#[export] Hint Extern 1 (calm (cudaMemcpy_dtoh _ _)) => apply (proj1 (cudaMemcpy_dtoh_quiet _ _)) : cuda.

Lemma blocks_wf_insert m p n : blocks_wf m → fresh_block m p n → blocks_wf (<[p := n]> m).
Proof.
  intros Hm [Hnew Hr Ha] q k. destruct (decide (q = p)) as [->|Hne].
  - rewrite lookup_insert_eq. intros [= <-]. rewrite delete_insert_eq, delete_id by (by apply not_elem_of_dom). by split.
  - rewrite lookup_insert_ne by done. intros Hq. destruct (Hm q k Hq) as [Hq1 Hq2 Hq3]. split; [set_solver | done |].
    rewrite delete_insert_ne by done. intros q' k'. destruct (decide (q' = p)) as [->|?].
    + rewrite lookup_insert_eq. intros [= <-]. destruct (Ha q k Hq); [by right | by left].
    + rewrite lookup_insert_ne by done. apply Hq3.
Qed.

Lemma blocks_wf_delete m p : blocks_wf m → blocks_wf (delete p m).
Proof.
  intros Hm q k [Hne Hq]%lookup_delete_Some. destruct (Hm q k Hq) as [_ Hr Ha]. split; [set_solver | done |].
  intros q' k' [? [? Hq']%lookup_delete_Some]%lookup_delete_Some. apply Ha. by rewrite lookup_delete_ne.
Qed.

Lemma blocks_wf_null m : blocks_wf m → 0 ∉ dom m.
Proof. intros Hm [n Hn]%elem_of_dom. destruct (Hm 0 n Hn). lia. Qed.

(** ** A simulated device

    It allocates behind its last block, up to a limit for one block.  Kernels do
    nothing, and fail on a device that is marked as bad; matrix products are
    computed on integers. *)

Record SimCuda := {
  sc_blocks : gmap Z Z;
  sc_mem : Z → Z;
  sc_events : gset Z;
  sc_failed : bool;
  sc_limit : Z;
  sc_bad : bool;
  sc_ranges : list string
}.

Definition sim_upd (blocks : gmap Z Z) (mem : Z → Z) (evs : gset Z) (err : Z) (d : SimCuda) : SimCuda :=
  {| sc_blocks := blocks; sc_mem := mem; sc_events := evs; sc_failed := sc_failed d || negb (err =? 0);
     sc_limit := sc_limit d; sc_bad := sc_bad d; sc_ranges := sc_ranges d |}.
Definition sim_return {A : Type} (err : Z) (a : A) (d : SimCuda) : SimCuda * (Z * A) :=
  (sim_upd (sc_blocks d) (sc_mem d) (sc_events d) err d, (err, a)).

Definition sim_top (m : gmap Z Z) : Z := map_fold (λ p n acc, Z.max acc (p + Z.max n 0)) 0 m.

Definition sim_malloc (n : Z) : ffi SimCuda Z := λ d,
  let p := sim_top (sc_blocks d) + 256 in
  if n =? 0 then sim_return 0 0 d
  else if (n <? 0) || (sc_limit d <? n) || (2 ^ 64 <? p + n) then sim_return 2 0 d
  else (sim_upd (<[p := n]> (sc_blocks d)) (sc_mem d) (sc_events d) 0 d, (0, p)).

Definition sim_cuda_free (p : Z) : ffi SimCuda unit := λ d,
  if (p =? 0) || bool_decide (p ∈ dom (sc_blocks d)) then (sim_upd (delete p (sc_blocks d)) (sc_mem d) (sc_events d) 0 d, (0, ()))
  else sim_return 1 () d.

Definition sim_write (p n : Z) (f : Z → Z) : ffi SimCuda unit := λ d,
  (sim_upd (sc_blocks d) (λ a, if (p <=? a) && (a <? p + n) then f a else sc_mem d a) (sc_events d) 0 d, (0, ())).

Definition sim_half (d : SimCuda) (a : Z) : Z := sc_mem d a + 256 * sc_mem d (a + 1).
Definition sim_gemm_value (ps : list (Z * Z)) : Z := foldr (λ '(x, y) acc, acc + x * y) 0 ps `mod` 65536.

(** The value at row [i] and column [j] of the product. *)
Definition sim_element (g : Gemm) (d : SimCuda) (i j : Z) : Z := sim_gemm_value
  ((λ l, (sim_half d (g_A g + 2 * match transa g with CUBLAS_OP_N => i + l * lda g | _ => l + i * lda g end),
          sim_half d (g_B g + 2 * match transb g with CUBLAS_OP_N => l + j * ldb g | _ => j + l * ldb g end))) <$> seqZ 0 (g_k g)).

Definition sim_gemm (g : Gemm) : ffi SimCuda unit := λ d,
  (sim_upd (sc_blocks d) (λ a,
     let o := (a - g_C g) `div` 2 in
     let i := o `mod` ldc g in
     let j := o `div` ldc g in
     if (g_C g <=? a) && (a <? g_C g + 2 * ldc g * g_n g) && (i <? g_m g) then
       if (a - g_C g) `mod` 2 =? 0 then sim_element g d i j `mod` 256 else sim_element g d i j `div` 256
     else sc_mem d a) (sc_events d) 0 d, (0, ())).

Definition sim_event_create : ffi SimCuda Z := λ d,
  let ev := 1 + foldr Z.max 0 (elements (sc_events d)) in
  (sim_upd (sc_blocks d) (sc_mem d) ({[ev]} ∪ sc_events d) 0 d, (0, ev)).
Definition sim_event_destroy (ev : Z) : ffi SimCuda unit := λ d,
  (sim_upd (sc_blocks d) (sc_mem d) (sc_events d ∖ {[ev]}) 0 d, (0, ())).

(** The result is the depth of the ranges. *)
Definition sim_ranges (f : list string → list string) : ffi SimCuda unit := λ d,
  ({| sc_blocks := sc_blocks d; sc_mem := sc_mem d; sc_events := sc_events d; sc_failed := sc_failed d;
      sc_limit := sc_limit d; sc_bad := sc_bad d; sc_ranges := f (sc_ranges d) |}, (Z.of_nat (length (f (sc_ranges d))), ())).

#[export] Instance SimDriver : CudaDriver SimCuda := {|
  cudaSetDevice _ := sim_return 0 ();
  cudaGetDeviceProperties _ := sim_return 0 (replicate 1032 0);
  cudaStreamCreate := sim_return 0 1;
  cudaStreamDestroy _ := sim_return 0 ();
  cudaStreamSynchronize _ := sim_return 0 ();
  cublasCreate_v2 := sim_return 0 2;
  cublasDestroy_v2 _ := sim_return 0 ();
  cublasSetStream_v2 _ _ := sim_return 0 ();
  cudaMalloc := sim_malloc;
  cudaFree := sim_cuda_free;
  cudaMemcpy_htod p l := sim_write p (Z.of_nat (length l)) (λ a, default 0 (l !! Z.to_nat (a - p)));
  cudaMemcpy_dtoh p n := λ d, sim_return 0 (sc_mem d <$> seqZ p n) d;
  cudaMemcpy_dtod p q n := λ d, sim_write p n (λ a, sc_mem d (q + (a - p))) d;
  cudaMemGetInfo _ := λ d, sim_return 0 (sc_limit d, sc_limit d) d;
  cublasGemmEx := sim_gemm;
  launch _ := λ d, sim_return (if sc_bad d then 700 else 0) () d;
  cudaEventCreate := sim_event_create;
  cudaEventDestroy := sim_event_destroy;
  cudaEventRecord _ _ := sim_return 0 ();
  cudaEventSynchronize _ := sim_return 0 ();
  cudaEventElapsedTime _ _ := sim_return 0 f32_one;
  nvtxRangePushA name := sim_ranges (cons name);
  nvtxRangePop := sim_ranges tail
|}.

#[export] Instance SimView : CudaView SimCuda := {|
  c_blocks := sc_blocks; c_mem := sc_mem; c_events := sc_events; c_failed := sc_failed;
  gemm_value _ _ ps _ := sim_gemm_value ps
|}.

Lemma sim_top_spec m p n : m !! p = Some n → p + Z.max n 0 ≤ sim_top m.
Proof.
  unfold sim_top. revert p n. apply (map_fold_weak_ind (λ acc m, ∀ p n, m !! p = Some n → p + Z.max n 0 ≤ acc)); [done |].
  intros i x m' acc Hi IH p n. destruct (decide (p = i)) as [->|Hne].
  - rewrite lookup_insert_eq. intros [= ->]. lia.
  - rewrite lookup_insert_ne by done. intros ?%IH. lia.
Qed.

Lemma sim_top_nonneg m : 0 ≤ sim_top m.
Proof. unfold sim_top. apply (map_fold_weak_ind (λ acc _, 0 ≤ acc)); [done |]. intros. lia. Qed.

Lemma sim_return_quiet {A : Type} err (a : SimCuda → A) : quiet (λ d, sim_return err (a d) d).
Proof. split; [| by intros ???? [= <- _ _]]. intros c c' e x [= <- <- _]. done. Qed.

Lemma sim_ranges_silent f : silent (sim_ranges f).
Proof. by intros c c' r [= <- _]. Qed.

Lemma sim_write_calm p n f : calm (sim_write p n f).
Proof. by intros c c' e x [= <- <- _]. Qed.

(** The two bytes of an element of the product. *)
Lemma sim_gemm_half g d i j : 0 ≤ i < g_m g → 0 ≤ j < g_n g → g_m g ≤ ldc g →
  half (sim_gemm g d).1 (out_C g i j) = sim_element g d i j.
Proof.
  intros Hi Hj Hld. assert (j * ldc g + ldc g ≤ ldc g * g_n g) as Hub by nia. assert (0 ≤ j * ldc g) as Hlb by nia.
  assert (∀ z, 0 ≤ z < 2 → (2 * (i + j * ldc g) + z) `div` 2 = i + j * ldc g ∧ (2 * (i + j * ldc g) + z) `mod` 2 = z) as Hz.
  { intros z Hz. rewrite (Z.mul_comm 2). split; [rewrite Z.div_add_l by lia; rewrite (Z.div_small z) by lia; lia |].
    rewrite Z.add_comm, Z.mod_add by lia. by apply Z.mod_small. }
  unfold half, out_C, sim_gemm. cbn [fst c_mem SimView sim_upd sc_mem].
  rewrite (Z.add_simpl_l (g_C g) (2 * (i + j * ldc g))), <- !Z.add_assoc, (Z.add_simpl_l (g_C g)).
  destruct (Hz 0 ltac:(lia)) as [Hd0 Hm0], (Hz 1 ltac:(lia)) as [Hd1 Hm1]. rewrite Z.add_0_r in Hd0, Hm0. rewrite Hd0, Hm0, Hd1, Hm1.
  rewrite Z.mod_add, Z.div_add, (Z.mod_small i), (Z.div_small i) by lia.
  rewrite !(proj2 (Z.leb_le _ _)), !(proj2 (Z.ltb_lt _ _)) by lia. cbn [andb Z.eqb]. rewrite Z.add_0_l, Z.add_comm, <- Z.div_mod; lia.
Qed.

#[export] Instance SimLaws : CudaLaws SimCuda.
Proof.
  split; try (intros; apply sim_return_quiet); try (apply sim_return_quiet); try (intros; apply sim_write_calm); try done.
  - intros c c' n err p. cbn [cudaMalloc SimDriver]. unfold sim_malloc. destruct (Z.eqb_spec n 0) as [->|Hn].
    { intros [= <- <- <-]. split_and!; [done.. |]. cbn. by left. }
    destruct ((n <? 0) || _ || _) eqn:Hb; [by intros [= <- <- <-] |]. apply orb_false_elim in Hb as [[H1 H2]%orb_false_elim H3].
    intros [= <- <- <-]. split_and!; [done.. |]. cbn. right. split; [| done]. pose proof (sim_top_nonneg (sc_blocks c)).
    apply Z.ltb_ge in H1, H3. split; [| lia |].
    + intros [k Hk]%elem_of_dom. apply sim_top_spec in Hk. lia.
    + intros q k Hq. apply sim_top_spec in Hq. right. lia.
  - intros c c' p err a. cbn [cudaFree SimDriver]. unfold sim_cuda_free. intros E Hp.
    assert ((p =? 0) || bool_decide (p ∈ dom (sc_blocks c)) = true) as Hc.
    { destruct Hp as [->|Hp]; [done |]. by rewrite (bool_decide_true _ Hp), orb_true_r. }
    rewrite Hc in E. injection E as <- <- <-. split_and!; [unfold status; cbn; by rewrite orb_false_r | done | done | by left].
  - intros c c' p l err a [= <- <- <-] _. split.
    + intros x _ Hx. cbn. destruct (Z.leb_spec p x), (Z.ltb_spec x (p + Z.of_nat (length l))); cbn; try done. exfalso. apply Hx. lia.
    + intros _. unfold bytes_at. apply list_eq. intros i. rewrite list_lookup_fmap. destruct (decide (i < length l)%nat) as [Hi|Hi].
      * rewrite lookup_seqZ_lt by lia. cbn. rewrite (proj2 (Z.leb_le _ _)), (proj2 (Z.ltb_lt _ _)) by lia. cbn.
        replace (Z.to_nat (p + Z.of_nat i - p)) with i by lia. by destruct (lookup_lt_is_Some_2 l i Hi) as [x ->].
      * rewrite lookup_seqZ_ge by lia. cbn. symmetry. apply lookup_ge_None_2. lia.
  - intros c c' p n bytes [= <- <-] _. done.
  - by intros p q n c c' err a [= <- <- _].
  - intros c c' p q n err a [= <- <- <-] _ _ Hap. split.
    + intros x _ Hx. cbn. destruct (Z.leb_spec p x), (Z.ltb_spec x (p + n)); cbn; try done. exfalso. apply Hx. lia.
    + intros _. unfold bytes_at. apply list_eq. intros i. rewrite !list_lookup_fmap. destruct (decide (Z.of_nat i < n)) as [Hi|Hi].
      * rewrite !lookup_seqZ_lt by lia. cbn. rewrite (proj2 (Z.leb_le _ _)), (proj2 (Z.ltb_lt _ _)) by lia. cbn. do 2 f_equal. lia.
      * by rewrite !lookup_seqZ_ge by lia.
  - by intros l c c' err a [= <- <- _].
  - by intros g c c' err a [= <- <- _].
  - intros c c' g a E Hv. change (sim_gemm g c = (c', (0, a))) in E.
    assert (c' = (sim_gemm g c).1) as -> by (by rewrite E). split.
    + intros x _ Hx. cbn. unfold len_C in Hx. destruct (Z.leb_spec (g_C g) x), (Z.ltb_spec x (g_C g + 2 * ldc g * g_n g)); cbn; try done.
      exfalso. apply Hx. lia.
    + intros i j Hi Hj. by rewrite sim_gemm_half; [| | | apply Hv].
  - intros c c' err ev [= <- <- <-]. split_and!; [unfold status; cbn; by rewrite orb_false_r | done |]. cbn. split; [| done]. intros Hin%elem_of_elements.
    assert (∀ l x, x ∈ l → x ≤ foldr Z.max 0 l) as Hmax.
    { clear. induction l as [|y l IH]; intros x; [by intros ?%not_elem_of_nil |]. cbn. intros [->|?%IH]%elem_of_cons; lia. }
    apply Hmax in Hin. lia.
  - intros c c' ev err a [= <- <- <-] _. split_and!; [unfold status; cbn; by rewrite orb_false_r | done | by left].
  - intros s. apply sim_ranges_silent.
  - apply sim_ranges_silent.
Qed.
