(* ===== verification/CudaSpec.v ===== *)
(** * What the CUDA backend owns

    The invariant of the CUDA backend: the pointers in its registry are distinct
    live blocks, nothing else is allocated as long as no call fails, and dropping
    the backend frees everything. *)

From S2P Require Import Prelude F32 Core Cuda CudaLaws.

Local Open Scope Z_scope.

(** ** Ownership *)

(** The blocks of the registry, of the frequency table, and the temporary
    buffers [ts]; the null pointer owns nothing. *)
Definition owned (b : CudaBackend) (ts : list Z) : list Z :=
  filter (λ p, p ≠ 0) (ts ++ option_list (rope_freq_table b) ++ (map_to_list (tensors (guarded (state b)))).*2).
Definition event_pairs (evs : list (Z * Z)) : list Z := mjoin ((λ '(start, stop), [start; stop]) <$> evs).
Definition owned_events (b : CudaBackend) (evs : list Z) : list Z :=
  evs ++ event_pairs (map_to_list (events (guarded (timer_manager b)))).*2.

(** Ids are below the next one, which is at the end of its range when a lock is poisoned. *)
Record ids_wf (b : CudaBackend) : Prop := {
  h_ids id : id ∈ dom (tensors (guarded (state b))) → 1 ≤ id < next_id (guarded (state b));
  h_next : 1 ≤ next_id (guarded (state b)) ≤ 2 ^ 64 - 1;
  h_poison : mx_poisoned (state b) = true → next_id (guarded (state b)) = 2 ^ 64 - 1;
  h_timers id : id ∈ dom (events (guarded (timer_manager b))) → 1 ≤ id < next_timer (guarded (timer_manager b));
  h_tnext : 1 ≤ next_timer (guarded (timer_manager b)) ≤ 2 ^ 64 - 1;
  h_tpoison : mx_poisoned (timer_manager b) = true → next_timer (guarded (timer_manager b)) = 2 ^ 64 - 1
}.

Section ownership.
Context {C : Type} `{CudaLaws C}.
Notation gpu := (CudaBackend * C)%type.
Implicit Types (s : gpu) (b : CudaBackend) (c : C).

(** No call has failed and no lock is poisoned. *)
Definition healthy s : Prop :=
  c_failed s.2 = false ∧ mx_poisoned (state s.1) = false ∧ mx_poisoned (timer_manager s.1) = false.

(** The backend owns its blocks and events, beside the temporary ones of [tmp]. *)
Record holds (tmp : list Z * list Z) s : Prop := {
  h_nodup : NoDup (owned s.1 tmp.1);
  h_live p : p ∈ owned s.1 tmp.1 → p ∈ dom (c_blocks s.2);
  h_exact p : healthy s → p ∈ dom (c_blocks s.2) → p ∈ owned s.1 tmp.1;
  h_ev_nodup : NoDup (owned_events s.1 tmp.2);
  h_ev_live p : p ∈ owned_events s.1 tmp.2 → p ∈ c_events s.2;
  h_ev_exact p : healthy s → p ∈ c_events s.2 → p ∈ owned_events s.1 tmp.2;
  h_wf : ids_wf s.1;
  h_blocks : blocks_wf (c_blocks s.2)
}.

(** [m] turns the temporary resources [T] into those of [T'], and loses none of
    them when it stops early, unless a call has failed. *)
Definition owns {A : Type} (T : list Z * list Z) (m : st gpu A) (T' : A → list Z * list Z) : Prop :=
  ∀ s, holds T s → match m s with
                   | (s', Ok a) => holds (T' a) s'
                   | (s', _) => holds ([], []) s'
                   end.

(** *** Rules *)

Lemma owned_perm b ts ts' : ts ≡ₚ ts' → owned b ts ≡ₚ owned b ts'.
Proof. intros Hp. unfold owned. by rewrite Hp. Qed.

Lemma holds_perm ts ts' evs evs' s : ts ≡ₚ ts' → evs ≡ₚ evs' → holds (ts, evs) s → holds (ts', evs') s.
Proof.
  intros Hp He [Hn Hl Hx En El Ex ? ?]. cbn [fst snd] in *. pose proof (owned_perm s.1 _ _ Hp) as Ho.
  assert (owned_events s.1 evs ≡ₚ owned_events s.1 evs') as Hoe by (unfold owned_events; by rewrite He).
  split; cbn [fst snd]; try done.
  - by rewrite <- Ho.
  - intros p. rewrite <- Ho. apply Hl.
  - intros p. rewrite <- Ho. apply Hx.
  - by rewrite <- Hoe.
  - intros p. rewrite <- Hoe. apply El.
  - intros p. rewrite <- Hoe. apply Ex.
Qed.

(** After a failure it does not matter which temporary resources are lost. *)
Lemma holds_lost T s : ¬ healthy s → holds T s → holds ([], []) s.
Proof.
  intros Hh [Hn Hl Hx En El Ex ? ?]. destruct T as [ts evs]. cbn [fst snd] in *.
  assert (sublist (owned s.1 []) (owned s.1 ts)) as Hs.
  { unfold owned. rewrite !filter_app. by apply sublist_inserts_l. }
  assert (sublist (owned_events s.1 []) (owned_events s.1 evs)) as He by (by apply sublist_inserts_l).
  split; cbn [fst snd]; try done.
  - by apply (sublist_NoDup _ _ Hn).
  - intros p Hp. apply Hl. by eapply elem_of_submseteq; [| apply sublist_submseteq].
  - by apply (sublist_NoDup _ _ En).
  - intros p Hp. apply El. by eapply elem_of_submseteq; [| apply sublist_submseteq].
Qed.

Lemma owns_ret {A : Type} (a : A) T T' : T' a = T → owns T (sret a) T'.
Proof. intros <- s Hs. done. Qed.
Lemma owns_err {A : Type} e (T' : A → _) : owns ([], []) (serr e) T'.
Proof. by intros s Hs. Qed.
Lemma owns_lift {A : Type} (r : result A) : owns ([], []) (slift r) (λ _, ([], [])).
Proof. intros s Hs. by destruct r. Qed.
Lemma owns_field {A : Type} T (f : CudaBackend → A) : owns T (backend_field f) (λ _, T).
Proof. by intros s Hs. Qed.

Lemma owns_bind {A B : Type} T T1 T2 (m : st gpu A) (k : A → st gpu B) :
  owns T m T1 → (∀ a, owns (T1 a) (k a) T2) → owns T (sbind m k) T2.
Proof.
  intros Hm Hk s Hs. specialize (Hm s Hs). unfold sbind. destruct (m s) as [s' [a|e|]]; [by apply Hk | done | done].
Qed.

(** Calls of the driver: what they do to the state of the device. *)
Lemma holds_calm T b c c' err : holds T (b, c) → status c c' err → c_blocks c' = c_blocks c → c_events c' = c_events c → holds T (b, c').
Proof.
  intros [] Hst Hb He. unfold status in Hst.
  assert (healthy (b, c') → healthy (b, c)) as Hh.
  { intros [Hf Hp]. split; [| done]. cbn [snd] in *. rewrite Hst in Hf. by destruct (c_failed c). }
  split; cbn [fst snd] in *; rewrite ?Hb, ?He; eauto.
Qed.

Lemma status_unhealthy b c c' err : status c c' err → err ≠ 0 → ¬ healthy (b, c').
Proof.
  unfold status. intros Hs Herr [Hf _]. cbn [snd] in Hf. rewrite Hs, (proj2 (Z.eqb_neq _ _) Herr), orb_true_r in Hf. done.
Qed.

Lemma owns_call {A : Type} T (f : ffi C A) : calm f → owns T (ffi_call f) (λ _, T).
Proof.
  intros Hf [b c] Hs. unfold ffi_call. destruct (f c) as [c' [err a]] eqn:E. apply Hf in E as (Hst & Hb & He).
  by eapply holds_calm.
Qed.

Lemma owns_ignore {A : Type} T (f : ffi C A) : calm f → owns T (ffi_ignore f) (λ _, T).
Proof. intros Hf. eapply owns_bind; [by apply owns_call | intros; by apply owns_ret]. Qed.

Lemma holds_silent {A : Type} T (f : ffi C A) b c c' r : silent f → f c = (c', r) → holds T (b, c) → holds T (b, c').
Proof.
  intros Hf E Hs. apply Hf in E as (Hst & Hb & He & _). eapply (holds_calm _ _ _ _ 0); [exact Hs | | done..]. unfold status. by rewrite orb_false_r.
Qed.
Lemma owns_silent {A : Type} T (f : ffi C A) : silent f → owns T (ffi_ignore f) (λ _, T).
Proof.
  intros Hf [b c] Hs. unfold ffi_ignore, sbind, ffi_call. destruct (f c) as [c' r] eqn:E. by eapply holds_silent.
Qed.

Lemma owns_check {A : Type} T msg (f : ffi C A) : calm f → owns T (ffi_check msg f) (λ _, T).
Proof.
  intros Hf [b c] Hs. unfold ffi_check, sbind, ffi_call. destruct (f c) as [c' [err a]] eqn:E.
  apply Hf in E as (Hst & Hb & He). assert (holds T (b, c')) as Hh by (by eapply holds_calm).
  unfold CUDA_SUCCESS. destruct (Z.eqb_spec err 0); cbn [negb]; [done |]. apply (holds_lost T); [| done].
  by eapply status_unhealthy.
Qed.

Lemma owns_malloc ts evs n : owns (ts, evs) (cuda_check (cudaMalloc n)) (λ p, (p :: ts, evs)).
Proof.
  intros [b c] Hs. unfold cuda_check, ffi_check, sbind, ffi_call. destruct (cudaMalloc n c) as [c' [err p]] eqn:E.
  apply cudaMalloc_law in E as (Hst & He & _ & Hb). unfold CUDA_SUCCESS. destruct (Z.eqb_spec err 0) as [->|Herr]; cbn [negb].
  2: { apply (holds_lost (ts, evs)); [by eapply status_unhealthy | by eapply holds_calm]. }
  destruct Hb as [(-> & _ & Hb)|[Hp Hb]]; [by eapply (holds_calm _ _ c _ 0) in Hs as [] |].
  assert (healthy (b, c') → healthy (b, c)) as Hh.
  { intros [Hf Hop]. split; [| done]. unfold status in Hst. cbn [snd] in *. rewrite Hst in Hf. by destruct (c_failed c). }
  pose proof Hp as [Hp0 [Hpos _] _].
  destruct Hs. cbn [fst snd] in *. assert (owned b (p :: ts) = p :: owned b ts) as Ho.
  { unfold owned. cbn [app]. by rewrite filter_cons_True by lia. }
  split; cbn [fst snd]; rewrite ?Ho, ?He; try done.
  - constructor; [| done]. intros Hin. by apply Hp0, h_live0.
  - intros q [->|Hq]%elem_of_cons; rewrite Hb, dom_insert_L; set_solver.
  - intros q Hq. rewrite Hb, dom_insert_L. intros [->%elem_of_singleton|Hin]%elem_of_union; [left | right; auto].
  - auto.
  - rewrite Hb. by apply blocks_wf_insert.
Qed.

(** Freeing a temporary buffer. *)
Lemma holds_free p ts evs b c c' err a :
  holds (p :: ts, evs) (b, c) → cudaFree p c = (c', (err, a)) → status c c' err ∧ holds (ts, evs) (b, c').
Proof.
  intros Hs E. destruct (decide (p = 0)) as [->|Hp].
  - pose proof E as (Hst & He & _ & Hb)%cudaFree_law; [| by left]. split; [done |].
    assert (c_blocks c' = c_blocks c) as Hb'.
    { destruct Hb as [Hb|[_ ?]]; [| done]. rewrite Hb, delete_id; [done |]. apply not_elem_of_dom, blocks_wf_null, (h_blocks _ _ Hs). }
    eapply (holds_calm _ _ c _ err) in Hs; [| done..]. by destruct Hs.
  - assert (owned b (p :: ts) = p :: owned b ts) as Ho by (unfold owned; cbn [app]; by rewrite filter_cons_True).
    destruct Hs. cbn [fst snd] in *. rewrite Ho in *. apply NoDup_cons in h_nodup0 as [Hnp Hnd].
    pose proof E as (Hst & He & _ & Hb)%cudaFree_law; [| right; apply h_live0; left]. split; [done |].
    assert (healthy (b, c') → healthy (b, c) ∧ err = 0) as Hh.
    { intros [Hf Hop]. unfold status in Hst. unfold healthy. cbn [fst snd] in *. rewrite Hst in Hf. apply orb_false_elim in Hf as [Hf Hz].
      split; [done |]. apply Z.eqb_eq. by destruct (err =? 0). }
    split; cbn [fst snd]; rewrite ?He; try done.
    + intros q Hq. assert (q ≠ p) by (by intros ->). destruct Hb as [->|[_ ->]]; [rewrite dom_delete_L; set_solver | apply h_live0; by right].
    + intros q [Hhe Herr]%Hh Hq. destruct Hb as [Hb|[? _]]; [| done]. rewrite Hb, dom_delete_L in Hq.
      apply elem_of_difference in Hq as [Hq Hqp]. apply (h_exact0 q Hhe) in Hq. set_solver.
    + intros q [Hhe _]%Hh. by apply h_ev_exact0.
    + destruct Hb as [->|[_ ->]]; [by apply blocks_wf_delete | done].
Qed.

Lemma owns_free p ts ts' evs : ts ≡ₚ p :: ts' → owns (ts, evs) (ffi_ignore (cudaFree p)) (λ _, (ts', evs)).
Proof.
  intros Hp [b c] Hs. eapply holds_perm in Hs; [| exact Hp | reflexivity]. unfold ffi_ignore, sbind, ffi_call.
  destruct (cudaFree p c) as [c' [err a]] eqn:E. exact (proj2 (holds_free _ _ _ _ _ _ _ _ Hs E)).
Qed.

Lemma owns_free_check p ts evs : owns (p :: ts, evs) (cuda_check (cudaFree p)) (λ _, (ts, evs)).
Proof.
  intros [b c] Hs. unfold cuda_check, ffi_check, sbind, ffi_call. destruct (cudaFree p c) as [c' [err a]] eqn:E.
  eapply holds_free in Hs as [Hst Hs]; [| done]. unfold CUDA_SUCCESS. destruct (Z.eqb_spec err 0); cbn [negb]; [done |].
  eapply holds_lost; [by eapply status_unhealthy | done].
Qed.

Lemma owns_upload ts evs bytes : owns (ts, evs) (upload bytes) (λ p, (ts ++ [p], evs)).
Proof.
  eapply owns_bind; [apply owns_malloc |]. intros p. eapply owns_bind; [apply owns_check; eauto with cuda |]. intros [] s Hs.
  by eapply holds_perm; [apply Permutation_cons_append | reflexivity |].
Qed.

(** Events. *)
Lemma owns_event_create ts evs : owns (ts, evs) (ffi_call cudaEventCreate) (λ r, (ts, if r.1 =? 0 then r.2 :: evs else evs)).
Proof.
  intros [b c] Hs. unfold ffi_call. destruct (cudaEventCreate c) as [c' [err ev]] eqn:E.
  apply cudaEventCreate_law in E as (Hst & Hb & He). cbn [fst snd]. destruct (Z.eqb_spec err 0) as [->|Herr]; [| by eapply holds_calm].
  destruct He as [Hnew He]. unfold status in Hst. rewrite orb_false_r in Hst.
  assert (healthy (b, c') → healthy (b, c)) as Hh by (unfold healthy; cbn [snd]; by rewrite Hst).
  destruct Hs. cbn [fst snd] in *. split; cbn [fst snd]; rewrite ?Hb, ?He; try done.
  - auto.
  - constructor; [| done]. intros Hin. by apply Hnew, h_ev_live0.
  - intros q [->|Hq]%elem_of_cons; [set_solver |]. apply elem_of_union_r. by apply h_ev_live0.
  - intros q Hq [->%elem_of_singleton|Hin]%elem_of_union; [left | right; by apply h_ev_exact0; [apply Hh |]].
Qed.

Lemma owns_event_create_check ts evs msg : owns (ts, evs) (ffi_check msg cudaEventCreate) (λ ev, (ts, ev :: evs)).
Proof.
  intros [b c] Hs. pose proof (owns_event_create ts evs (b, c) Hs) as Hc. unfold ffi_check, sbind, ffi_call in *.
  destruct (cudaEventCreate c) as [c' [err ev]] eqn:E. cbn [fst snd] in Hc. unfold CUDA_SUCCESS.
  destruct (Z.eqb_spec err 0); cbn [negb]; [done |]. eapply holds_lost; [| done].
  apply cudaEventCreate_law in E as (Hst & _). by eapply status_unhealthy.
Qed.

Lemma owns_event_destroy ev ts evs : owns (ts, ev :: evs) (ffi_ignore (cudaEventDestroy ev)) (λ _, (ts, evs)).
Proof.
  intros [b c] Hs. unfold ffi_ignore, sbind, ffi_call. destruct (cudaEventDestroy ev c) as [c' [err a]] eqn:E.
  destruct Hs. cbn [fst snd] in *. change (owned_events b (ev :: evs)) with (ev :: owned_events b evs) in *.
  apply NoDup_cons in h_ev_nodup0 as [Hnp Hnd].
  apply cudaEventDestroy_law in E as (Hst & Hb & He); [| apply h_ev_live0; left].
  assert (healthy (b, c') → healthy (b, c) ∧ err = 0) as Hh.
  { intros [Hf Hop]. unfold status in Hst. unfold healthy. cbn [fst snd] in *. rewrite Hst in Hf. apply orb_false_elim in Hf as [Hf Hz].
    split; [done |]. apply Z.eqb_eq. by destruct (err =? 0). }
  split; cbn [fst snd]; rewrite ?Hb; try done.
  - intros q [Hhe _]%Hh. by apply h_exact0.
  - intros q Hq. assert (q ≠ ev) by (by intros ->). specialize (h_ev_live0 q (list_elem_of_further _ _ _ Hq)).
    destruct He as [->|[_ ->]]; [set_solver | done].
  - intros q [Hhe Herr]%Hh Hq. destruct He as [He|[? _]]; [| done]. rewrite He in Hq.
    apply elem_of_difference in Hq as [Hq Hqp]. apply (h_ev_exact0 q Hhe) in Hq. set_solver.
Qed.

(** *** The registry *)

(** Looking at the registry or the timers. *)
Lemma owns_read_state {A : Type} (f : CudaState → result A) :
  (∀ g, f g ≠ Panic) → owns ([], []) (on_state (λ g, (g, f g))) (λ _, ([], [])).
Proof.
  intros Hf [b c] Hs. unfold on_state, with_lock. destruct (state b) as [g p] eqn:Eb. cbn [mx_poisoned guarded].
  assert (with_state {| guarded := g; mx_poisoned := p |} b = b) as Hb by (rewrite <- Eb; by destruct b).
  destruct p; [by rewrite Hb |]. specialize (Hf g). destruct (f g); rewrite ?Hb; done.
Qed.
Lemma owns_read_timers {A : Type} (f : TimerState → result A) :
  (∀ g, f g ≠ Panic) → owns ([], []) (on_timers (λ g, (g, f g))) (λ _, ([], [])).
Proof.
  intros Hf [b c] Hs. unfold on_timers, with_lock. destruct (timer_manager b) as [g p] eqn:Eb. cbn [mx_poisoned guarded].
  assert (with_timers {| guarded := g; mx_poisoned := p |} b = b) as Hb by (rewrite <- Eb; by destruct b).
  destruct p; [by rewrite Hb |]. specialize (Hf g). destruct (f g); rewrite ?Hb; done.
Qed.

Lemma owns_get_ptr id : owns ([], []) (get_ptr id) (λ _, ([], [])).
Proof. apply owns_read_state. intros s. by destruct (tensors s !! id). Qed.

Lemma owns_get_ptrs ts : owns ([], []) (get_ptrs ts) (λ _, ([], [])).
Proof.
  induction ts as [|t ts IH]; [by apply owns_ret |]. eapply owns_bind; [apply owns_get_ptr |]. intros p.
  eapply owns_bind; [exact IH |]. intros ps. by apply owns_ret.
Qed.

Lemma owns_c_dim t i : owns ([], []) (c_dim t i) (λ _, ([], [])).
Proof. apply owns_lift. Qed.
Lemma owns_rope_freq_ptr : owns ([], []) rope_freq_ptr (λ _, ([], [])).
Proof. eapply owns_bind; [apply owns_field |]. intros [p|]; [by apply owns_ret | apply owns_err]. Qed.

(** A change of the backend's state that moves resources between its fields and
    the temporary ones. *)
Lemma holds_move T T' b b' c :
  holds T (b, c) → (healthy (b', c) → healthy (b, c)) → owned b' T'.1 ≡ₚ owned b T.1 → owned_events b' T'.2 ≡ₚ owned_events b T.2 →
  ids_wf b' → holds T' (b', c).
Proof.
  intros [Hn Hl Hx En El Ex _ ?] Hh Ho Hoe Hwf. cbn [fst snd] in *. split; cbn [fst snd]; try done.
  - by rewrite Ho.
  - intros p. rewrite Ho. apply Hl.
  - intros p Hp%Hh. rewrite Ho. by apply Hx.
  - by rewrite Hoe.
  - intros p. rewrite Hoe. apply El.
  - intros p Hp%Hh. rewrite Hoe. by apply Ex.
Qed.

(** A new entry for a temporary buffer. *)
Lemma owns_register p : owns ([p], [])
  (on_state (λ g, match checked 64 (next_id g + 1) with
                  | Ok n => ({| tensors := <[next_id g := p]> (tensors g); next_id := n |}, Ok (next_id g))
                  | Err e => (g, Err e)
                  | Panic => (g, Panic)
                  end)) (λ _, ([], [])).
Proof.
  intros [b c] Hs. pose proof (h_wf _ _ Hs) as [Hids Hnx Hpo Htm Htn Htp]. cbn [fst] in *.
  unfold on_state, with_lock. destruct (state b) as [g po] eqn:Eb. cbn [mx_poisoned guarded] in *. destruct po.
  { apply (holds_lost ([p], [])); [by intros (_ & Hp & _) | rewrite <- Eb; by destruct b]. }
  unfold checked. case_bool_decide as Hw; unfold in_width in Hw.
  - assert (tensors g !! next_id g = None) as Hfresh by (apply not_elem_of_dom; intros Hid%Hids; lia).
    eapply (holds_move _ _ b); [exact Hs | intros (? & _ & ?); split_and!; [done | cbn [fst]; by rewrite Eb | done] | | done |].
    + unfold owned. rewrite Eb. cbn [with_state rope_freq_table state guarded tensors app fst]. rewrite map_to_list_insert by done.
      cbn [fmap list_fmap snd]. by rewrite <- Permutation_middle.
    + split; cbn; try done; [| lia]. intros id. rewrite dom_insert_L. intros [->%elem_of_singleton|Hid%Hids]%elem_of_union; lia.
  - apply (holds_lost ([p], [])); [by intros (_ & Hp & _) |].
    eapply (holds_move _ _ b); [exact Hs | by intros (_ & ? & _) | | done |].
    + unfold owned. by rewrite Eb.
    + split; cbn; try done. intros _. lia.
Qed.

(** An entry that becomes a temporary buffer. *)
Lemma owns_unregister id : owns ([], [])
  (on_state (λ g, match tensors g !! id with
                  | Some p => ({| tensors := delete id (tensors g); next_id := next_id g |}, Ok p)
                  | None => (g, Err (TensorNotFound "tensor id"))
                  end)) (λ p, ([p], [])).
Proof.
  intros [b c] Hs. pose proof (h_wf _ _ Hs) as [Hids Hnx Hpo Htm Htn Htp]. cbn [fst] in *.
  unfold on_state, with_lock. destruct (state b) as [g po] eqn:Eb. cbn [mx_poisoned guarded] in *.
  assert (with_state {| guarded := g; mx_poisoned := po |} b = b) as Hb by (rewrite <- Eb; by destruct b).
  destruct po; [by rewrite Hb |]. destruct (tensors g !! id) as [p|] eqn:El; [| by rewrite Hb].
  eapply (holds_move _ _ b); [exact Hs | intros (? & _ & ?); split_and!; [done | cbn [fst]; by rewrite Eb | done] | | done |].
  - unfold owned. rewrite Eb. cbn [with_state rope_freq_table state guarded tensors app fst]. rewrite <- (map_to_list_delete _ _ _ El).
    cbn [fmap list_fmap snd]. by rewrite <- Permutation_middle.
  - split; cbn; try done. intros i. rewrite dom_delete_L. intros [Hi _]%elem_of_difference. by apply Hids.
Qed.

Lemma owns_register_timer start stop : owns ([], [stop; start])
  (on_timers (λ g, match checked 64 (next_timer g + 1) with
                   | Ok n => ({| events := <[next_timer g := (start, stop)]> (events g); next_timer := n |}, Ok (next_timer g))
                   | Err e => (g, Err e)
                   | Panic => (g, Panic)
                   end)) (λ _, ([], [])).
Proof.
  intros [b c] Hs. pose proof (h_wf _ _ Hs) as [Hids Hnx Hpo Htm Htn Htp]. cbn [fst] in *.
  unfold on_timers, with_lock. destruct (timer_manager b) as [g po] eqn:Eb. cbn [mx_poisoned guarded] in *. destruct po.
  { apply (holds_lost ([], [stop; start])); [by intros (_ & _ & Hp) | rewrite <- Eb; by destruct b]. }
  unfold checked. case_bool_decide as Hw; unfold in_width in Hw.
  - assert (events g !! next_timer g = None) as Hfresh by (apply not_elem_of_dom; intros Hid%Htm; lia).
    eapply (holds_move _ _ b); [exact Hs | intros (? & ? & _); split_and!; [done | done | cbn [fst]; by rewrite Eb] | done | |].
    + unfold owned_events, event_pairs. rewrite Eb. cbn [with_timers timer_manager guarded events app snd]. rewrite map_to_list_insert by done.
      cbn [fmap list_fmap snd mjoin list_join app]. by rewrite perm_swap.
    + split; cbn; try done; [| lia]. intros id. rewrite dom_insert_L. intros [->%elem_of_singleton|Hid%Htm]%elem_of_union; lia.
  - apply (holds_lost ([], [stop; start])); [by intros (_ & _ & Hp) |].
    eapply (holds_move _ _ b); [exact Hs | by intros (_ & _ & ?) | done | |].
    + unfold owned_events. by rewrite Eb.
    + split; cbn; try done. intros _. lia.
Qed.

Lemma owns_unregister_timer id : owns ([], [])
  (on_timers (λ g, match events g !! id with
                   | Some ev => ({| events := delete id (events g); next_timer := next_timer g |}, Ok ev)
                   | None => (g, Err (Backend "timer not found"))
                   end)) (λ ev, ([], [ev.1; ev.2])).
Proof.
  intros [b c] Hs. pose proof (h_wf _ _ Hs) as [Hids Hnx Hpo Htm Htn Htp]. cbn [fst] in *.
  unfold on_timers, with_lock. destruct (timer_manager b) as [g po] eqn:Eb. cbn [mx_poisoned guarded] in *.
  assert (with_timers {| guarded := g; mx_poisoned := po |} b = b) as Hb by (rewrite <- Eb; by destruct b).
  destruct po; [by rewrite Hb |]. destruct (events g !! id) as [[start stop]|] eqn:El; [| by rewrite Hb].
  eapply (holds_move _ _ b); [exact Hs | intros (? & ? & _); split_and!; [done | done | cbn [fst]; by rewrite Eb] | done | |].
  - unfold owned_events, event_pairs. rewrite Eb. cbn [with_timers timer_manager guarded events app snd]. by rewrite <- (map_to_list_delete _ _ _ El).
  - split; cbn; try done. intros i. rewrite dom_delete_L. intros [Hi _]%elem_of_difference. by apply Htm.
Qed.

(** *** The operations *)

Lemma owns_alloc sh dt : owns ([], []) (cuda_alloc sh dt) (λ _, ([], [])).
Proof.
  eapply owns_bind; [apply owns_lift |]. intros size. eapply owns_bind; [apply owns_malloc |]. intros p.
  eapply owns_bind; [apply owns_register |]. intros id. by apply owns_ret.
Qed.

Lemma owns_cuda_free t : owns ([], []) (cuda_free t) (λ _, ([], [])).
Proof.
  eapply owns_bind; [apply owns_unregister |]. intros p. eapply owns_bind; [apply owns_free_check |]. intros a. by apply owns_ret.
Qed.

Lemma owns_precompute powf head_dim theta : owns ([], []) (precompute_rope_freqs powf head_dim theta) (λ _, ([], [])).
Proof.
  eapply owns_bind; [apply owns_upload |]. intros p. intros [b c] Hs. unfold sbind at 1. cbn [backend_field fst].
  assert (∀ q, option_list (rope_freq_table b) = q → holds (q, []) (with_freqs (Some p) b, c)) as Hmove.
  { intros q <-. eapply (holds_move _ _ b); [exact Hs | done | | done |]; cbn [fst snd].
    - unfold owned. cbn [with_freqs rope_freq_table state].
      by rewrite (Permutation_app_swap_app (option_list (rope_freq_table b)) [p]).
    - destruct (h_wf _ _ Hs). by split. }
  destruct (rope_freq_table b) as [q|] eqn:Eq; cbn [option_list] in Hmove; [| by apply Hmove].
  specialize (Hmove [q] eq_refl). pose proof (owns_free q [q] [] [] (Permutation_refl _) _ Hmove) as Hf.
  unfold sbind, ffi_ignore, ffi_call, sbind in *. destruct (cudaFree q c) as [c' [err a]]. exact Hf.
Qed.

Lemma owns_create_timer : owns ([], []) cuda_create_timer (λ _, ([], [])).
Proof.
  eapply owns_bind; [apply owns_event_create_check |]. intros start. eapply owns_bind; [apply owns_event_create |].
  intros [err stop]. cbn [fst snd]. unfold CUDA_SUCCESS. destruct (err =? 0); cbn [negb]; [apply owns_register_timer |].
  eapply owns_bind; [apply owns_event_destroy |]. intros a. apply owns_err.
Qed.

Lemma owns_destroy_timer timer : owns ([], []) (cuda_destroy_timer timer) (λ _, ([], [])).
Proof.
  eapply owns_bind; [apply owns_unregister_timer |]. intros [start stop]. cbn [fst snd].
  eapply owns_bind; [apply owns_event_destroy |]. intros a. apply owns_event_destroy.
Qed.
End ownership.

(** One step of a program that holds temporary buffers. *)
Ltac owns_step :=
  first
    [ apply owns_lift | apply owns_field | apply owns_get_ptr | apply owns_get_ptrs | apply owns_c_dim | apply owns_rope_freq_ptr
    | apply owns_upload | apply owns_free; reflexivity | apply owns_read_timers; intros g; by destruct (_ !! _)
    | apply owns_call; auto with cuda | apply owns_silent; solve [auto with cuda] | apply owns_ignore; auto with cuda | apply owns_check; auto with cuda ].
Ltac owns_run :=
  repeat first
    [ apply owns_err | by apply owns_ret | owns_step
    | match goal with |- owns _ (if ?b then _ else _) _ => destruct b | |- owns _ (let '(_, _) := ?x in _) _ => destruct x end
    | eapply owns_bind; [owns_step | intros ?; cbn [app]] ].

(** ** Everything a client can do *)

Inductive cuda_op : Type :=
  | OpAlloc (sh : list Z) (dt : DType)
  | OpFree (t : DeviceTensor)
  | OpCopyToDevice (dst : DeviceTensor) (src : list Z)
  | OpCopyToHost (src : DeviceTensor) (dst : list Z)
  | OpMatmul (a b out : DeviceTensor)
  | OpRmsnorm (input weight : DeviceTensor) (eps : f64) (out : DeviceTensor)
  | OpRope (q k : DeviceTensor) (positions : list Z) (theta : f64) (head_dim : Z)
  | OpAttention (q k_cache v_cache : DeviceTensor) (num_kv_heads start_pos : Z) (out : DeviceTensor)
  | OpAttentionPaged (q : DeviceTensor) (block_table : list Z) (k_blocks v_blocks : list DeviceTensor)
      (num_kv_heads kv_len start_pos : Z) (out : DeviceTensor)
  | OpSiluMul (gate up out : DeviceTensor)
  | OpEmbedding (token_ids : list Z) (embedding_table out : DeviceTensor)
  | OpAdd (a b out : DeviceTensor)
  | OpCopyRows (src dst : DeviceTensor) (src_offset dst_offset count : Z)
  | OpCompress (input rotation centroids : DeviceTensor) (bits : Z) (packed_out norms_out : DeviceTensor)
  | OpAttentionPagedTq (q : DeviceTensor) (block_table : list Z) (k_packed k_norms v_packed v_norms : list DeviceTensor)
      (k_rotation v_rotation k_centroids v_centroids : DeviceTensor) (key_bits value_bits num_kv_heads kv_len start_pos : Z)
      (out : DeviceTensor)
  | OpAvailableMemory
  | OpSynchronize
  | OpCreateTimer
  | OpStartTimer (timer : Z)
  | OpStopTimer (timer : Z)
  | OpDestroyTimer (timer : Z)
  | OpMarkerPush (name : string)
  | OpMarkerPop
  | OpPrecomputeRopeFreqs (powf : f64 → f64 → f64) (head_dim : Z) (theta : f64).

Section programs.
Context {C : Type} `{CudaLaws C}.
Notation gpu := (CudaBackend * C)%type.
Implicit Types (s : gpu) (b : CudaBackend) (c : C).

Definition void {A : Type} (m : st gpu A) : st gpu unit := do! _ := m in sret ().

Definition run_op (op : cuda_op) : st gpu unit :=
  match op with
  | OpAlloc sh dt => void (cuda_alloc sh dt)
  | OpFree t => cuda_free t
  | OpCopyToDevice dst src => cuda_copy_to_device dst src
  | OpCopyToHost src dst => void (cuda_copy_to_host src dst)
  | OpMatmul a b out => cuda_matmul a b out
  | OpRmsnorm input weight eps out => cuda_rmsnorm input weight eps out
  | OpRope q k positions theta head_dim => cuda_rope q k positions theta head_dim
  | OpAttention q kc vc nkv start out => cuda_attention q kc vc nkv start out
  | OpAttentionPaged q table kb vb nkv kv_len start out => cuda_attention_paged q table kb vb nkv kv_len start out
  | OpSiluMul gate up out => cuda_silu_mul gate up out
  | OpEmbedding ids table out => cuda_embedding ids table out
  | OpAdd a b out => cuda_add a b out
  | OpCopyRows src dst so dof n => cuda_copy_rows src dst so dof n
  | OpCompress input rot cent bits packed norms => cuda_turboquant_compress input rot cent bits packed norms
  | OpAttentionPagedTq q table kp kn vp vn kr vr kc vc kbits vbits nkv kv_len start out =>
      cuda_attention_paged_tq q table kp kn vp vn kr vr kc vc kbits vbits nkv kv_len start out
  | OpAvailableMemory => void cuda_available_memory
  | OpSynchronize => cuda_synchronize
  | OpCreateTimer => void cuda_create_timer
  | OpStartTimer timer => cuda_start_timer timer
  | OpStopTimer timer => void (cuda_stop_timer timer)
  | OpDestroyTimer timer => cuda_destroy_timer timer
  | OpMarkerPush name => range_push name
  | OpMarkerPop => range_pop
  | OpPrecomputeRopeFreqs powf head_dim theta => precompute_rope_freqs powf head_dim theta
  end.

(** A client goes on after errors, and after panics that it catches. *)
Definition run_ops (ops : list cuda_op) (s : gpu) : gpu := foldl (λ s op, (run_op op s).1) s ops.

Notation keeps m := (owns ([], []) m (λ _, ([], []))).

Lemma keeps_void {A : Type} (m : st gpu A) : keeps m → keeps (void m).
Proof. intros Hm. eapply owns_bind; [exact Hm |]. intros a. by apply owns_ret. Qed.

(** Whatever an operation returns, the backend owns what it owned. *)
Lemma keeps_op op : keeps (run_op op).
Proof.
  destruct op; cbn [run_op]; try match goal with |- owns _ (void _) _ => apply keeps_void end;
    first [apply owns_alloc | apply owns_cuda_free | apply owns_create_timer | apply owns_destroy_timer | apply owns_precompute
          | unfold cuda_silu_mul, cuda_add, cuda_synchronize; owns_run].
Qed.

Lemma keeps_ops ops s : holds ([], []) s → holds ([], []) (run_ops ops s).
Proof.
  revert s. induction ops as [|op ops IH]; intros s Hs; [done |]. apply IH. pose proof (keeps_op op s Hs) as Hop.
  by destruct (run_op op s) as [s' [a|e|]].
Qed.

(** *** Creation and destruction *)

Lemma new_check_calm {A : Type} msg (f : ffi C A) c c' r : calm f → new_check msg f c = (c', r) →
  c_blocks c' = c_blocks c ∧ c_events c' = c_events c.
Proof.
  intros Hf. unfold new_check. destruct (f c) as [c1 [err a]] eqn:E. apply Hf in E as (_ & Hb & He).
  by destruct (negb (err =? 0)); intros [= <- _].
Qed.

Lemma cuda_new_empty dev c c' b : c_blocks c = ∅ → c_events c = ∅ → cuda_new dev c = (c', Ok b) → holds ([], []) (b, c').
Proof.
  intros Hb He. unfold cuda_new.
  intros (c1 & [] & K1%new_check_calm & (c2 & st & K2%new_check_calm & (c3 & h & K3%new_check_calm &
    (c4 & [] & K4%new_check_calm & (c5 & props & K5%new_check_calm & [= <- <-])%sbind_Ok)%sbind_Ok)%sbind_Ok)%sbind_Ok)%sbind_Ok;
    auto with cuda.
  assert (c_blocks c5 = ∅ ∧ c_events c5 = ∅) as [Hb5 He5].
  { destruct K1, K2, K3, K4, K5. split; congruence. }
  split; cbn; rewrite ?Hb5, ?He5; try (by constructor); set_solver.
Qed.

(** The backend without its resources. *)
Definition emptied b : CudaBackend :=
  with_freqs None (with_state {| guarded := {| tensors := ∅; next_id := next_id (guarded (state b)) |}; mx_poisoned := mx_poisoned (state b) |}
    (with_timers {| guarded := {| events := ∅; next_timer := next_timer (guarded (timer_manager b)) |}; mx_poisoned := mx_poisoned (timer_manager b) |} b)).

Lemma holds_emptied b c ptrs evs :
  ptrs ≡ₚ (map_to_list (tensors (guarded (state b)))).*2 → evs ≡ₚ event_pairs (map_to_list (events (guarded (timer_manager b)))).*2 →
  holds ([], []) (b, c) → holds (ptrs ++ option_list (rope_freq_table b), evs) (emptied b, c).
Proof.
  intros Hp He Hs. pose proof (h_wf _ _ Hs) as []. eapply holds_move; [exact Hs | done | | |]; cbn [fst snd].
  - unfold owned. cbn. rewrite !map_to_list_empty, app_nil_r. cbn. rewrite Hp. by rewrite Permutation_app_comm.
  - unfold owned_events. cbn. rewrite map_to_list_empty. cbn. by rewrite app_nil_r, He.
  - split; cbn; try done; set_solver.
Qed.

(** The calls of the driver do not look at the backend. *)
Lemma free_all_driver ps b c : ∃ c', (∀ b', free_all ps (b', c) = ((b', c'), Ok ())) ∧
  ∀ ts evs, holds (ps ++ ts, evs) (b, c) → holds (ts, evs) (b, c').
Proof.
  revert c. induction ps as [|p ps IH]; intros c; [by exists c |]. cbn [free_all]. unfold sbind, ffi_ignore, ffi_call, sbind.
  destruct (cudaFree p c) as [c1 [err a]] eqn:E. destruct (IH c1) as (c' & Hrun & Hh). exists c'. split; [done |].
  intros ts evs Hs. apply Hh. exact (proj2 (holds_free p (ps ++ ts) evs b c c1 err a Hs E)).
Qed.

Lemma destroy_all_driver evs b c : ∃ c', (∀ b', destroy_all evs (b', c) = ((b', c'), Ok ())) ∧
  ∀ T es, holds (T, event_pairs evs ++ es) (b, c) → holds (T, es) (b, c').
Proof.
  revert c. induction evs as [|[start stop] evs IH]; intros c; [by exists c |]. cbn [destroy_all]. unfold sbind at 1, sbind at 1, ffi_ignore, ffi_call, sbind.
  destruct (cudaEventDestroy start c) as [c1 [err a]] eqn:E1. destruct (cudaEventDestroy stop c1) as [c2 [err2 a2]] eqn:E2.
  destruct (IH c2) as (c' & Hrun & Hh). exists c'. split; [intros b'; cbn [sret]; rewrite E2; apply Hrun |]. intros T es Hs. apply Hh.
  pose proof (owns_event_destroy start T (stop :: event_pairs evs ++ es) (b, c) Hs) as K1.
  unfold ffi_ignore, sbind, ffi_call in K1. rewrite E1 in K1.
  pose proof (owns_event_destroy stop T (event_pairs evs ++ es) (b, c1) K1) as K2.
  unfold ffi_ignore, sbind, ffi_call in K2. by rewrite E2 in K2.
Qed.

Lemma calm_driver {A : Type} (f : ffi C A) b c T : calm f → ∃ c', (∀ b', ffi_ignore f (b', c) = ((b', c'), Ok ())) ∧
  (holds T (b, c) → holds T (b, c')).
Proof.
  intros Hf. destruct (f c) as [c' [err a]] eqn:E. exists c'. unfold ffi_ignore, sbind, ffi_call. rewrite E. split; [done |].
  apply Hf in E as (Hst & Hb & He). intros Hs. by eapply holds_calm.
Qed.

Lemma free_freqs_driver b0 b c evs : ∃ c',
  (∀ b', (match rope_freq_table b with Some p => ffi_ignore (cudaFree p) | None => sret () end) (b', c) = ((b', c'), Ok ())) ∧
  (holds (option_list (rope_freq_table b), evs) (b0, c) → holds ([], evs) (b0, c')).
Proof.
  destruct (rope_freq_table b) as [p|]; [| by exists c]. destruct (free_all_driver [p] b0 c) as (c' & Hrun & Hh). exists c'. split.
  - intros b'. specialize (Hrun b'). cbn [free_all] in Hrun. unfold sbind in Hrun.
    destruct (ffi_ignore (cudaFree p) (b', c)) as [s' [[]|e|]]; [exact Hrun | done | done].
  - intros Hs. by apply (Hh [] evs).
Qed.

(** Dropping a backend whose registry is not poisoned. *)
Lemma drop_backend_frees ho b c :
  holds ([], []) (b, c) → mx_poisoned (state b) = false →
  ∃ c', drop_backend ho (b, c) = ((b, c'), Ok ()) ∧ (healthy (b, c') → c_blocks c' = ∅ ∧ c_events c' = ∅).
Proof.
  intros Hs Hp. set (ptrs := hm_values ho (tensors (guarded (state b)))). set (evs := hm_values ho (events (guarded (timer_manager b)))).
  assert (holds (ptrs ++ option_list (rope_freq_table b), event_pairs evs) (emptied b, c)) as H0'.
  { apply holds_emptied; [| | done]; unfold ptrs, evs, hm_values, event_pairs; by rewrite hm_iter_perm. }
  assert (on_state (λ g, (g, Ok (hm_values ho (tensors g)))) (b, c) = ((b, c), Ok ptrs)) as Hread.
  { unfold on_state, with_lock. rewrite Hp. unfold ptrs. destruct b as [? ? ? [g po] ? ? ? ?]. cbn in *. by rewrite Hp. }
  destruct (free_all_driver ptrs (emptied b) c) as (c1 & R1 & K1). apply K1 in H0'.
  destruct (free_freqs_driver (emptied b) b c1 (event_pairs evs)) as (c2 & R2 & K2). apply K2 in H0'.
  destruct (calm_driver (cublasDestroy_v2 (cublas_handle b)) (emptied b) c2 ([], event_pairs evs)) as (c3 & R3 & K3); [auto with cuda |]. apply K3 in H0'.
  destruct (calm_driver (cudaStreamDestroy (stream b)) (emptied b) c3 ([], event_pairs evs)) as (c4 & R4 & K4); [auto with cuda |]. apply K4 in H0'.
  destruct (destroy_all_driver evs (emptied b) c4) as (c5 & R5 & K5). rewrite <- (app_nil_r (event_pairs evs)) in H0'. apply K5 in H0'.
  exists c5. split.
  - unfold drop_backend, backend_drop. unfold sbind at 1. rewrite Hread. unfold sbind at 1. rewrite R1. unfold sbind at 1. cbn [backend_field fst].
    unfold sbind at 1. rewrite R2. unfold sbind at 1. cbn [backend_field fst]. unfold sbind at 1. rewrite R3. unfold sbind at 1. cbn [backend_field fst].
    rewrite R4. unfold timers_drop. unfold sbind at 1. cbn [backend_field fst]. fold evs. by rewrite R5.
  - intros Hh. assert (healthy (emptied b, c5)) as Hh' by exact Hh. split; apply set_eq || apply map_empty.
    + intros p. apply not_elem_of_dom. intros Hin. apply (h_exact _ _ H0' p Hh') in Hin. by apply not_elem_of_nil in Hin.
    + intros p. split; [| set_solver]. intros Hin. apply (h_ev_exact _ _ H0' p Hh') in Hin. by apply not_elem_of_nil in Hin.
Qed.

(** C13: the CUDA backend leaks no device memory as long as the driver works.
    Take any sequence of the backend's operations, with whatever arguments and
    results, on a device with nothing allocated.  Then the blocks in the registry
    and the frequency table are allocated, each for one tensor, and so are the
    events of the timers; if no call of the driver has failed and no lock is
    poisoned ([healthy]), nothing else is allocated.  The registry's lock is
    poisoned only if 2^64 - 1 tensor ids have been given out, the timers' lock
    only if as many timer ids have.  Dropping a backend whose registry is not
    poisoned returns, and if no call has failed from the start to the end of the
    drop and the timers' lock is not poisoned either, every block and event has
    been freed.  (After a failed call blocks may be lost, [failed_launch_leaks].) *)
Theorem cuda_ownership ho dev ops c0 c b :
  c_blocks c0 = ∅ → c_events c0 = ∅ → cuda_new dev c0 = (c, Ok b) →
  let s := run_ops ops (b, c) in
  NoDup (owned s.1 []) ∧ NoDup (owned_events s.1 []) ∧
  (list_to_set (owned s.1 []) : gset Z) ⊆ dom (c_blocks s.2) ∧ list_to_set (owned_events s.1 []) ⊆ c_events s.2 ∧
  (healthy s → dom (c_blocks s.2) = list_to_set (owned s.1 []) ∧ c_events s.2 = list_to_set (owned_events s.1 [])) ∧
  (mx_poisoned (state s.1) = true → next_id (guarded (state s.1)) = 2 ^ 64 - 1) ∧
  (mx_poisoned (timer_manager s.1) = true → next_timer (guarded (timer_manager s.1)) = 2 ^ 64 - 1) ∧
  (mx_poisoned (state s.1) = false →
   ∃ c', drop_backend ho s = ((s.1, c'), Ok ()) ∧ (healthy (s.1, c') → c_blocks c' = ∅ ∧ c_events c' = ∅)).
Proof.
  intros Hb He Hnew. pose proof (keeps_ops ops _ (cuda_new_empty dev c0 c b Hb He Hnew)) as Hs.
  destruct (run_ops ops (b, c)) as [b' c'] eqn:E. cbn zeta. pose proof Hs as [Hn Hl Hx En El Ex [? ? Hpo ? ? ?] ?]. cbn [fst snd] in *.
  split_and!; try done.
  - intros p. rewrite elem_of_list_to_set. apply Hl.
  - intros p. rewrite elem_of_list_to_set. apply El.
  - intros Hh. split; apply set_eq; intros p; rewrite elem_of_list_to_set; split; auto.
  - intros Hp. by apply drop_backend_frees.
Qed.
End programs.

(** ** Examples *)

Module CudaOwnershipWitness.
Definition device0 (bad : bool) : SimCuda :=
  {| sc_blocks := ∅; sc_mem := λ _, 0; sc_events := ∅; sc_failed := false; sc_limit := 4096; sc_bad := bad; sc_ranges := [] |}.
(** What [cuda_new] returns on it. *)
Definition backend0 : CudaBackend :=
  {| device_id := 0; stream := 1; cublas_handle := 2; state := mutex_new {| tensors := ∅; next_id := 1 |}; timer_manager := timer_manager_new;
     cuda_device_name := []; cuda_total_memory := 0; rope_freq_table := None |}.

Definition tensor (id : Z) (sh : list Z) : DeviceTensor := {| tensor_id := id; shape := sh; dtype := FP16 |}.

(** Two of three tensors, a timer and the second frequency table are left; the
    timer that does not exist and the tensor that does not are errors. *)
Definition ops : list cuda_op :=
  [OpAlloc [2; 3] FP16; OpAlloc [4] FP16; OpAlloc [8] INT4; OpCreateTimer; OpStartTimer 7;
   OpPrecomputeRopeFreqs (λ x _, x) 4 (f64_of_Z 10); OpPrecomputeRopeFreqs (λ x _, x) 8 (f64_of_Z 10);
   OpRope (tensor 1 [1; 2; 2]) (tensor 1 [1; 2; 2]) [0] (f64_of_Z 10) 2; OpFree (tensor 2 [4]); OpFree (tensor 9 [4])].

Example ops_state : let s := run_ops ops (backend0, device0 false) in
  (owned s.1 [], elements (dom (c_blocks s.2)), owned_events s.1 [], c_failed s.2) = ([1312; 788; 256], [788; 1312; 256], [1; 2], false).
Proof. vm_compute. reflexivity. Qed.

Lemma cuda_ownership_witness : let s := run_ops ops (backend0, device0 false) in
  (healthy s ∧ dom (c_blocks s.2) = list_to_set (owned s.1 [])) ∧
  ∃ c', drop_backend hash_order_rev s = ((s.1, c'), Ok ()) ∧ c_blocks c' = ∅ ∧ c_events c' = ∅.
Proof.
  pose proof (cuda_ownership (C := SimCuda) hash_order_rev 0 ops (device0 false) (device0 false) backend0) as Hc.
  assert (healthy (run_ops ops (backend0, device0 false))) as Hh by (by vm_compute).
  assert (c_failed (drop_backend hash_order_rev (run_ops ops (backend0, device0 false))).1.2 = false) as Hdrop by (by vm_compute).
  cbn zeta in *. revert Hc Hh Hdrop. generalize (run_ops ops (backend0, device0 false)) as s. intros s Hc Hh Hdrop.
  destruct Hc as (_ & _ & _ & _ & Hx & _ & _ & Hd); [reflexivity.. |]. split; [split; [exact Hh | apply Hx, Hh] |].
  destruct (Hd (proj1 (proj2 Hh))) as (c' & Hrun & Hfree). rewrite Hrun in Hdrop. exists c'. split; [exact Hrun |].
  apply Hfree. split; [exact Hdrop | exact (proj2 Hh)].
Defined.

(** A paged attention whose kernel fails leaves its three temporary buffers
    allocated, which nothing refers to, and a range open in the profile; the
    embedding frees its own and closes the range. *)
Theorem failed_launch_leaks :
  let alloc := [OpAlloc [1; 2; 2] FP16; OpAlloc [1; 2; 2] FP16] in
  let q := tensor 1 [1; 2; 2] in let out := tensor 2 [1; 2; 2] in
  let s := run_ops alloc (backend0, device0 true) in
  let paged := run_op (OpAttentionPaged q [0] [q] [q] 1 1 0 out) s in
  let embedding := run_op (OpEmbedding [0] q out) s in
  (size (c_blocks s.2), length (owned s.1 []), sc_ranges s.2) = (2%nat, 2%nat, []) ∧
  (size (c_blocks paged.1.2), length (owned paged.1.1 []), sc_ranges paged.1.2, is_err paged.2) = (5%nat, 2%nat, ["attention_paged"%string], true) ∧
  (size (c_blocks embedding.1.2), length (owned embedding.1.1 []), sc_ranges embedding.1.2, is_err embedding.2) = (2%nat, 2%nat, [], true).
Proof. vm_compute. done. Qed.
End CudaOwnershipWitness.
