(* ===== verification/CudaMemory.v ===== *)
(** * What the CUDA backend computes

    The tensors of the CUDA backend as an abstract store from tensor ids to
    bytes: allocation, release and the three copies of [backend.rs] implement the
    operations of that store.  The matrix product that the backend asks of cuBLAS
    is the product with the transpose, by rows, and a paged attention kernel
    finds the block table and the addresses of the blocks in device memory. *)

From S2P Require Import Prelude F32 Core Cuda CudaLaws CudaSpec.

Local Open Scope Z_scope.

(** ** Device memory *)

Section memory.
Context {C : Type} `{CudaLaws C}.
Notation gpu := (CudaBackend * C)%type.
Implicit Types (s : gpu) (b : CudaBackend) (c : C).

Lemma length_bytes_at c p n : length (bytes_at c p n) = Z.to_nat n.
Proof. unfold bytes_at. by rewrite length_fmap, length_seqZ. Qed.

Lemma bytes_at_ext c c' p n : (∀ a, p ≤ a < p + n → c_mem c' a = c_mem c a) → bytes_at c' p n = bytes_at c p n.
Proof. intros Ha. apply list_fmap_ext. intros i x Hx. apply lookup_seqZ in Hx as [-> ?]. apply Ha. lia. Qed.

Lemma bytes_at_app c p n m : 0 ≤ n → 0 ≤ m → bytes_at c p (n + m) = bytes_at c p n ++ bytes_at c (p + n) m.
Proof. intros. unfold bytes_at. by rewrite seqZ_app, fmap_app by done. Qed.

Lemma bytes_at_slice c p n k m : 0 ≤ k → 0 ≤ m → k + m ≤ n →
  take (Z.to_nat m) (drop (Z.to_nat k) (bytes_at c p n)) = bytes_at c (p + k) m.
Proof.
  intros. replace n with (k + (m + (n - k - m))) by lia. rewrite !bytes_at_app by lia.
  rewrite drop_app_length' by (by rewrite length_bytes_at). by rewrite take_app_length' by (by rewrite length_bytes_at).
Qed.

(** Bytes written at an offset. *)
Lemma bytes_at_written c c' p n k bs :
  0 ≤ k → k + Z.of_nat (length bs) ≤ n →
  (∀ a, p ≤ a < p + n → ¬ p + k ≤ a < p + k + Z.of_nat (length bs) → c_mem c' a = c_mem c a) →
  bytes_at c' (p + k) (Z.of_nat (length bs)) = bs →
  bytes_at c' p n = list_inserts (Z.to_nat k) bs (bytes_at c p n).
Proof.
  intros Hk Hn Hout Hin. set (m := Z.of_nat (length bs)) in *. replace n with (k + (m + (n - k - m))) by lia.
  rewrite !bytes_at_app by lia. rewrite Hin. replace (Z.to_nat k) with (length (bytes_at c p k) + 0)%nat by (rewrite length_bytes_at; lia).
  rewrite list_inserts_app_r, list_inserts_0_r by (rewrite length_bytes_at; lia).
  f_equal; [| f_equal]; apply bytes_at_ext; intros; apply Hout; lia.
Qed.

(** ** The tensors *)

(** The bytes of each tensor. *)
Definition block_bytes c (p : Z) : list Z := bytes_at c p (default 0 (c_blocks c !! p)).
Definition contents s : gmap Z (list Z) := block_bytes s.2 <$> tensors (guarded (state s.1)).

Lemma tensor_in_owned b id p : tensors (guarded (state b)) !! id = Some p → p ≠ 0 → p ∈ owned b [].
Proof.
  intros Hid Hp. unfold owned. apply list_elem_of_filter. split; [done |]. apply elem_of_app. right. apply elem_of_app. right.
  apply list_elem_of_fmap. exists (id, p). split; [done | by apply elem_of_map_to_list].
Qed.

Lemma tensor_inj s i j p : holds ([], []) s →
  tensors (guarded (state s.1)) !! i = Some p → tensors (guarded (state s.1)) !! j = Some p → p ≠ 0 → i = j.
Proof.
  intros [Hn _ _ _ _ _ _ _] Hi Hj Hp. destruct (decide (i = j)) as [|Hne]; [done |]. exfalso. cbn [fst] in Hn. unfold owned in Hn.
  rewrite app_nil_l, filter_app in Hn. apply NoDup_app in Hn as (_ & _ & Hn). rewrite <- (map_to_list_delete _ _ _ Hi) in Hn.
  cbn [fmap list_fmap snd] in Hn. rewrite filter_cons_True in Hn by done. apply NoDup_cons in Hn as [Hno _]. apply Hno.
  apply list_elem_of_filter. split; [done |]. apply list_elem_of_fmap. exists (j, p). split; [done |].
  apply elem_of_map_to_list. by rewrite lookup_delete_ne.
Qed.

(** The block of a tensor, unless it is empty. *)
Lemma tensor_block s id p : holds ([], []) s → tensors (guarded (state s.1)) !! id = Some p →
  (p = 0 ∧ c_blocks s.2 !! p = None) ∨ ∃ n, c_blocks s.2 !! p = Some n ∧ 0 < p ∧ 0 ≤ n ∧ p + n ≤ 2 ^ 64.
Proof.
  intros Hs Hid. destruct (decide (p = 0)) as [->|Hp].
  - left. split; [done |]. apply not_elem_of_dom, blocks_wf_null, (h_blocks _ _ Hs).
  - right. apply (tensor_in_owned s.1 _ _ Hid) in Hp. apply (h_live _ _ Hs) in Hp as [n Hn]%elem_of_dom. exists n. split; [done |].
    by destruct (h_blocks _ _ Hs p n Hn).
Qed.

Lemma inside_block c p n a : c_blocks c !! p = Some n → p ≤ a < p + n → inside c a 1.
Proof. intros Hp Ha. right. exists p, n. split; [done | lia]. Qed.

(** Memory that stays, but in the block of one tensor. *)
Lemma contents_write b c c' id p n :
  holds ([], []) (b, c) → tensors (guarded (state b)) !! id = Some p → c_blocks c !! p = Some n → c_blocks c' = c_blocks c →
  kept_outside (λ a, p ≤ a < p + n) c c' → contents (b, c') = <[id := bytes_at c' p n]> (contents (b, c)).
Proof.
  intros Hs Hid Hp Hb Hk. apply map_eq. intros j. unfold contents. cbn [fst snd]. destruct (decide (j = id)) as [->|Hne].
  { rewrite lookup_insert_eq, lookup_fmap, Hid. cbn. unfold block_bytes. by rewrite Hb, Hp. }
  rewrite lookup_insert_ne, !lookup_fmap by done. destruct (tensors (guarded (state b)) !! j) as [q|] eqn:Hj; [| done]. cbn.
  f_equal. unfold block_bytes. rewrite Hb. destruct (c_blocks c !! q) as [m|] eqn:Hq; cbn [default from_option Datatypes.id]; [| done].
  apply bytes_at_ext. intros a Ha. apply Hk; [by eapply inside_block |].
  assert (q ≠ p) as Hqp.
  { intros ->. apply Hne. eapply (tensor_inj (b, c)); [done | exact Hj | exact Hid |]. intros ->.
    destruct (tensor_block (b, c) id 0 Hs Hid) as [[_ ?]|(? & _ & ? & _)]; [cbn [snd] in *; congruence | lia]. }
  cbn beta. destruct (h_blocks _ _ Hs p n Hp) as [_ _ Hap]. destruct (Hap q m) as [?|?]; [by rewrite lookup_delete_ne | lia..].
Qed.

Lemma contents_quiet b c c' : c_blocks c' = c_blocks c → kept_outside (λ _, False) c c' → contents (b, c') = contents (b, c).
Proof.
  intros Hb Hk. unfold contents. cbn [fst snd]. apply map_fmap_ext. intros id p _. unfold block_bytes. rewrite Hb.
  destruct (c_blocks c !! p) as [n|] eqn:Hp; cbn [default from_option Datatypes.id]; [| done]. apply bytes_at_ext. intros a Ha. apply Hk; [| tauto].
  by eapply inside_block.
Qed.

(** ** Running an operation to its end *)

Definition outcome {A : Type} (m : st gpu A) s (Q : gpu → result A → Prop) : Prop := Q (m s).1 (m s).2.

Lemma outcome_bind {A B : Type} (m : st gpu A) (k : A → st gpu B) s (Q : gpu → result B → Prop) :
  outcome m s (λ s' r, match r with Ok a => outcome (k a) s' Q | Err e => Q s' (Err e) | Panic => Q s' Panic end) →
  outcome (sbind m k) s Q.
Proof. unfold outcome, sbind. by destruct (m s) as [s' [a|e|]]. Qed.

Lemma outcome_get_ptr id b c (Q : gpu → result Z → Prop) :
  Q (b, c) Panic → (∀ p, tensors (guarded (state b)) !! id = Some p → Q (b, c) (Ok p)) →
  (tensors (guarded (state b)) !! id = None → Q (b, c) (Err (TensorNotFound "tensor id"))) → outcome (get_ptr id) (b, c) Q.
Proof.
  intros Hp Hok Herr. unfold outcome, get_ptr, on_state, with_lock. destruct (state b) as [g po] eqn:Eb. cbn [mx_poisoned guarded] in *.
  assert (with_state {| guarded := g; mx_poisoned := po |} b = b) as Hb by (rewrite <- Eb; by destruct b).
  destruct po; [by rewrite Hb |]. destruct (tensors g !! id) as [p|] eqn:E; cbn [fst snd]; rewrite Hb; auto.
Qed.

(** A call that fails leaves a failed device. *)
Lemma outcome_check {A : Type} msg (f : ffi C A) b c (Q : gpu → result A → Prop) :
  (∀ c' err a, f c = (c', (err, a)) → status c c' err) →
  (∀ c' a, f c = (c', (0, a)) → Q (b, c') (Ok a)) →
  (∀ c' e, c_failed c' = true → Q (b, c') (Err e)) → outcome (ffi_check msg f) (b, c) Q.
Proof.
  intros Hst Hok Herr. unfold outcome, ffi_check, sbind, ffi_call. destruct (f c) as [c' [err a]] eqn:E. specialize (Hst _ _ _ eq_refl).
  unfold CUDA_SUCCESS, status in *. destruct (Z.eqb_spec err 0) as [->|Hne]; cbn [negb fst snd]; [by apply Hok |].
  apply Herr. by rewrite Hst, orb_true_r.
Qed.

(** Markers of the profiler. *)
Lemma outcome_silent {A : Type} (f : ffi C A) b c (Q : gpu → result unit → Prop) :
  silent f → holds ([], []) (b, c) →
  (∀ c', holds ([], []) (b, c') → contents (b, c') = contents (b, c) → Q (b, c') (Ok ())) → outcome (ffi_ignore f) (b, c) Q.
Proof.
  intros Hf Hs HQ. unfold outcome, ffi_ignore, sbind, ffi_call. destruct (f c) as [c' r] eqn:E. cbn [fst snd sret].
  apply HQ; [by eapply holds_silent |]. apply Hf in E as (_ & Hb & _ & Hk). by apply contents_quiet.
Qed.
End memory.

(** ** The abstract store *)

Notation store := (gmap Z (list Z)).

Inductive mem_op : Type :=
  | MAlloc (sh : list Z) (dt : DType)
  | MFree (t : DeviceTensor)
  | MCopyToDevice (dst : DeviceTensor) (src : list Z)
  | MCopyToHost (src : DeviceTensor) (dst : list Z)
  | MCopyRows (src dst : DeviceTensor) (src_offset dst_offset count : Z).

Inductive mem_out : Type :=
  | OTensor (t : DeviceTensor)
  | OBytes (l : list Z)
  | OUnit.

(** Bytes of a row: [shape[1..].product() * dtype.size_bytes()] *)
Definition row_bytes (t : DeviceTensor) : Z := foldr Z.mul 1 (drop 1 (shape t)) * dtype_size_bytes (dtype t).

(** What an operation that succeeds returns and does to the store. *)
Inductive mem_step (σ : store) : mem_op → mem_out → store → Prop :=
  | step_alloc sh dt id bs :
      σ !! id = None → size_bytes {| tensor_id := id; shape := sh; dtype := dt |} = Ok (Z.of_nat (length bs)) →
      mem_step σ (MAlloc sh dt) (OTensor {| tensor_id := id; shape := sh; dtype := dt |}) (<[id := bs]> σ)
  | step_free t bs : σ !! tensor_id t = Some bs → mem_step σ (MFree t) OUnit (delete (tensor_id t) σ)
  | step_copy_to_device t src bs n :
      σ !! tensor_id t = Some bs → size_bytes t = Ok (Z.of_nat n) → (n ≤ length src)%nat →
      mem_step σ (MCopyToDevice t src) OUnit (<[tensor_id t := list_inserts 0 (take n src) bs]> σ)
  | step_copy_to_host t dst bs n :
      σ !! tensor_id t = Some bs → size_bytes t = Ok (Z.of_nat n) → (n ≤ length dst)%nat →
      mem_step σ (MCopyToHost t dst) (OBytes (list_inserts 0 (take n bs) dst)) σ
  | step_copy_rows src dst so dof n xs ys :
      σ !! tensor_id src = Some xs → σ !! tensor_id dst = Some ys →
      so + n ≤ default 0 (head (shape src)) → dof + n ≤ default 0 (head (shape dst)) → row_bytes src = row_bytes dst →
      mem_step σ (MCopyRows src dst so dof n) OUnit
        (<[tensor_id dst := list_inserts (Z.to_nat (dof * row_bytes src))
             (take (Z.to_nat (n * row_bytes src)) (drop (Z.to_nat (so * row_bytes src)) xs)) ys]> σ).

(** Why an operation is refused. *)
Definition refusal (σ : store) (op : mem_op) : option FractureError :=
  match op with
  | MAlloc _ _ => None
  | MFree t => match σ !! tensor_id t with Some _ => None | None => Some (TensorNotFound "tensor id") end
  | MCopyToDevice t src =>
      match σ !! tensor_id t, size_bytes t with
      | None, _ => Some (TensorNotFound "tensor id")
      | Some _, Ok n => if Z.of_nat (length src) <? n then Some (InvalidShape "source buffer too small") else None
      | _, _ => None
      end
  | MCopyToHost t dst =>
      match σ !! tensor_id t, size_bytes t with
      | None, _ => Some (TensorNotFound "tensor id")
      | Some _, Ok n => if Z.of_nat (length dst) <? n then Some (InvalidShape "destination buffer too small") else None
      | _, _ => None
      end
  | MCopyRows src dst so dof n =>
      if default 0 (head (shape src)) <? so + n then Some (InvalidShape "copy_rows: exceeds src rows")
      else if default 0 (head (shape dst)) <? dof + n then Some (InvalidShape "copy_rows: exceeds dst rows")
      else if negb (bool_decide (drop 1 (shape src) = drop 1 (shape dst))) then Some (InvalidShape "copy_rows: column shape")
      else if negb (bool_decide (dtype src = dtype dst)) then Some (InvalidShape "copy_rows: dtype")
      else match σ !! tensor_id src, σ !! tensor_id dst with
           | Some _, Some _ => None
           | _, _ => Some (TensorNotFound "tensor id")
           end
  end.

(** A handle describes no more bytes than its tensor has. *)
Definition handle_fits (σ : store) (t : DeviceTensor) : Prop :=
  ∀ bs, σ !! tensor_id t = Some bs → ∃ n, size_bytes t = Ok n ∧ 0 ≤ n ≤ Z.of_nat (length bs).

Definition op_fits (σ : store) (op : mem_op) : Prop :=
  match op with
  | MAlloc sh _ => Forall (λ d, 0 ≤ d) sh
  | MFree _ => True
  | MCopyToDevice t _ => handle_fits σ t
  | MCopyToHost t _ => handle_fits σ t
  | MCopyRows src dst so dof n =>
      handle_fits σ src ∧ handle_fits σ dst ∧ tensor_id src ≠ tensor_id dst ∧ is_packed (dtype src) = false ∧
      Forall (λ d, 0 ≤ d) (shape src) ∧ Forall (λ d, 0 ≤ d) (shape dst) ∧ 0 ≤ so ∧ 0 ≤ dof ∧ 0 ≤ n
  end.

(** ** The backend implements the store *)

Section refinement.
Context {C : Type} `{CudaLaws C}.
Notation gpu := (CudaBackend * C)%type.
Implicit Types (s : gpu) (b : CudaBackend) (c : C).

Definition mem_call (op : mem_op) : st gpu mem_out :=
  match op with
  | MAlloc sh dt => do! t := cuda_alloc sh dt in sret (OTensor t)
  | MFree t => do! _ := cuda_free t in sret OUnit
  | MCopyToDevice t src => do! _ := cuda_copy_to_device t src in sret OUnit
  | MCopyToHost t dst => do! l := cuda_copy_to_host t dst in sret (OBytes l)
  | MCopyRows src dst so dof n => do! _ := cuda_copy_rows src dst so dof n in sret OUnit
  end.

(** What the end of an operation says about the store. *)
Definition implements s (op : mem_op) (s' : gpu) (r : result mem_out) : Prop :=
  match r with
  | Ok o => mem_step (contents s) op o (contents s')
  | Err e => c_failed s'.2 = true ∨ (contents s' = contents s ∧ refusal (contents s) op = Some e)
  | Panic => contents s' = contents s
  end.

Lemma outcome_ret {A B : Type} (m : st gpu A) (f : A → B) s (Q : gpu → result B → Prop) :
  outcome m s (λ s' r, Q s' (rmap f r)) → outcome (do! a := m in sret (f a)) s Q.
Proof. intros Hm. apply outcome_bind. unfold outcome in *. by destruct (m s) as [s' [a|e|]]. Qed.

Lemma uproduct_not_err l e : uproduct l ≠ Err e.
Proof.
  unfold uproduct. assert (Ok 1 ≠ (Err e : result Z)) as Hr by done. revert Hr. generalize (Ok 1 : result Z). induction l as [|d l IH]; intros r Hr; [done |].
  cbn [foldl]. apply IH. destruct r; cbn [rbind]; [apply checked_not_err | done | done].
Qed.

(** The size of a tensor is computed or overflows. *)
Lemma size_not_err sh dt e : alloc_size sh dt ≠ Err e.
Proof.
  unfold alloc_size. destruct (uproduct sh) as [n|e'|] eqn:E; cbn [rbind]; [| by apply uproduct_not_err in E | done].
  destruct (is_packed dt); [done | apply checked_not_err].
Qed.

Lemma contents_insert b c id p n po :
  contents (with_state {| guarded := {| tensors := <[id := p]> (tensors (guarded (state b))); next_id := n |}; mx_poisoned := po |} b, c) =
  <[id := block_bytes c p]> (contents (b, c)).
Proof. unfold contents. cbn. by rewrite fmap_insert. Qed.

Lemma contents_delete b c id n po :
  contents (with_state {| guarded := {| tensors := delete id (tensors (guarded (state b))); next_id := n |}; mx_poisoned := po |} b, c) =
  delete id (contents (b, c)).
Proof. unfold contents. cbn. by rewrite fmap_delete. Qed.

(** A new block does not change the others. *)
Lemma malloc_contents b c c' n p :
  holds ([], []) (b, c) → cudaMalloc n c = (c', (0, p)) →
  contents (b, c') = contents (b, c) ∧ 0 ≤ n ∧ length (block_bytes c' p) = Z.to_nat n.
Proof.
  intros Hs (_ & _ & Hk & Hb)%cudaMalloc_law. cbn in Hb. destruct Hb as [(-> & -> & Hb)|[[Hnew [Hp [Hn Hr]] Hap] Hb]].
  - split_and!; [by apply contents_quiet | done |]. unfold block_bytes. rewrite Hb.
    assert (c_blocks c !! 0 = None) as -> by (apply not_elem_of_dom, blocks_wf_null, (h_blocks _ _ Hs)). by rewrite length_bytes_at.
  - split_and!; [| done | unfold block_bytes; by rewrite Hb, lookup_insert_eq, length_bytes_at].
    unfold contents. cbn [fst snd]. apply map_fmap_ext. intros id q Hq. unfold block_bytes. rewrite Hb, lookup_insert_ne.
    + destruct (c_blocks c !! q) as [k|] eqn:Hqb; cbn [default from_option Datatypes.id]; [| done].
      apply bytes_at_ext. intros a Ha. apply Hk; [by eapply inside_block | tauto].
    + intros ->. destruct (tensor_block (b, c) id q Hs Hq) as [[? _]|(k & Hk' & _)]; [lia |]. apply Hnew, elem_of_dom. by exists k.
Qed.

Lemma alloc_implements sh dt s : holds ([], []) s → outcome (mem_call (MAlloc sh dt)) s (implements s (MAlloc sh dt)).
Proof.
  destruct s as [b c]. intros Hs. apply outcome_ret, outcome_bind. unfold outcome at 1, slift. cbn [fst snd].
  destruct (alloc_size sh dt) as [n|e|] eqn:Hn; [| | done].
  2: { by apply size_not_err in Hn. }
  apply outcome_bind, outcome_check; [intros ??? E; by apply cudaMalloc_law in E as [? _] | | intros c' e Hf; by left].
  intros c' p E. destruct (malloc_contents b c c' n p Hs E) as (Hc & Hn0 & Hl).
  apply outcome_bind. unfold outcome, on_state, with_lock. destruct (mx_poisoned (state b)) eqn:Ep.
  { cbn. rewrite <- Hc. by destruct b. }
  unfold checked. case_bool_decide as Hw; cbn [fst snd sret implements rmap rbind]; [| rewrite <- Hc; by unfold contents].
  rewrite contents_insert, Hc. apply step_alloc; [| unfold size_bytes, numel; cbn [shape dtype]; fold (alloc_size sh dt); rewrite Hn, Hl; f_equal; lia].
  unfold contents. rewrite lookup_fmap. destruct (h_wf _ _ Hs) as [Hids _ _ _ _ _]. cbn [fst] in *.
  destruct (tensors _ !! _) eqn:El; [| done]. exfalso.
  assert (next_id (guarded (state b)) ∈ dom (tensors (guarded (state b)))) as Hid%Hids by (apply elem_of_dom; eauto). lia.
Qed.

(** Freeing a block does not change the tensors in other blocks. *)
Lemma free_contents b c c' a id p :
  holds ([], []) (b, c) → tensors (guarded (state b)) !! id = Some p → cudaFree p c = (c', (0, a)) →
  delete id (contents (b, c')) = delete id (contents (b, c)).
Proof.
  intros Hs Hid E. apply cudaFree_law in E as (_ & _ & Hk & Hb).
  2: { destruct (tensor_block (b, c) id p Hs Hid) as [[-> _]|(k & Hk & _)]; [by left | right; apply elem_of_dom; eauto]. }
  destruct Hb as [Hb|[? _]]; [| done]. apply map_eq. intros j. destruct (decide (j = id)) as [->|Hne]; [by rewrite !lookup_delete_eq |].
  rewrite !lookup_delete_ne by done. unfold contents. cbn [fst snd]. rewrite !lookup_fmap.
  destruct (tensors (guarded (state b)) !! j) as [q|] eqn:Hj; [| done]. cbn. f_equal. unfold block_bytes.
  destruct (tensor_block (b, c) j q Hs Hj) as [[-> Hq]|(k & Hq & Hq0 & _)]; cbn [snd] in Hq.
  { assert (c_blocks c' !! 0 = None) as -> by (rewrite Hb; by apply lookup_delete_None; right). by rewrite Hq. }
  assert (p ≠ q) as Hpq by (intros ->; apply Hne; eapply (tensor_inj (b, c)); [done.. | lia]).
  assert (c_blocks c' !! q = Some k) as Hq' by (by rewrite Hb, lookup_delete_ne). rewrite Hq, Hq'. cbn.
  apply bytes_at_ext. intros x Hx. apply Hk. by eapply inside_block.
Qed.

Lemma free_implements t s : holds ([], []) s → outcome (mem_call (MFree t)) s (implements s (MFree t)).
Proof.
  destruct s as [b c]. intros Hs. apply (outcome_ret _ (λ _, OUnit)), outcome_bind. unfold outcome at 1, on_state, with_lock.
  destruct (mx_poisoned (state b)) eqn:Ep; [cbn; by destruct b |].
  destruct (tensors (guarded (state b)) !! tensor_id t) as [p|] eqn:Hid; cbn [fst snd].
  2: { right. split; [done |]. cbn [refusal]. unfold contents. cbn [fst snd]. by rewrite lookup_fmap, Hid. }
  apply outcome_bind, outcome_check; [| | intros c' e Hf; by left].
  - intros c' err a E. apply cudaFree_law in E as [? _]; [done |].
    destruct (tensor_block (b, c) _ p Hs Hid) as [[-> _]|(k & Hk & _)]; [by left | right; apply elem_of_dom; eauto].
  - intros c' a E. unfold outcome. cbn [sret fst snd rmap rbind implements]. rewrite contents_delete, (free_contents b c c' a _ p Hs Hid E).
    apply (step_free _ _ (block_bytes c p)). unfold contents. cbn [fst snd]. by rewrite lookup_fmap, Hid.
Qed.

Lemma contents_lookup b c id : contents (b, c) !! id = block_bytes c <$> tensors (guarded (state b)) !! id.
Proof. unfold contents. cbn [fst snd]. by rewrite lookup_fmap. Qed.

(** A write inside of a tensor. *)
Lemma write_contents b c c' id p off l :
  holds ([], []) (b, c) → tensors (guarded (state b)) !! id = Some p → 0 ≤ off →
  off + Z.of_nat (length l) ≤ Z.of_nat (length (block_bytes c p)) → c_blocks c' = c_blocks c →
  kept_outside (λ x, p + off ≤ x < p + off + Z.of_nat (length l)) c c' → bytes_at c' (p + off) (Z.of_nat (length l)) = l →
  contents (b, c') = <[id := list_inserts (Z.to_nat off) l (block_bytes c p)]> (contents (b, c)).
Proof.
  intros Hs Hid Hoff Hlen Hb Hk Hl. destruct (tensor_block (b, c) id p Hs Hid) as [[-> Hp]|(k & Hp & Hp0 & Hk0 & _)]; cbn [snd] in Hp.
  - unfold block_bytes in *. rewrite Hp in *. cbn [default from_option Datatypes.id] in *. rewrite length_bytes_at in Hlen.
    assert (l = []) as -> by (apply nil_length_inv; lia). cbn [list_inserts length] in *.
    rewrite insert_id; [| rewrite contents_lookup, Hid; cbn; unfold block_bytes; by rewrite Hp].
    apply contents_quiet; [done |]. intros x Hx _. apply Hk; [done | lia].
  - unfold block_bytes in *. rewrite Hp in *. cbn [default from_option Datatypes.id] in *. rewrite length_bytes_at in Hlen.
    rewrite (contents_write b c c' id p k) by (done || (intros x Hx Hn; apply Hk; [done | lia])). f_equal.
    apply bytes_at_written; [done | lia | | done]. intros x Hx Hn. apply Hk; [by eapply inside_block | lia].
Qed.

(** Parts of a tensor are inside of its block. *)
Lemma inside_tensor b c id p off n :
  holds ([], []) (b, c) → tensors (guarded (state b)) !! id = Some p → 0 ≤ off → 0 ≤ n →
  off + n ≤ Z.of_nat (length (block_bytes c p)) → inside c (p + off) n.
Proof.
  intros Hs Hid Hoff Hn Hlen. unfold block_bytes in Hlen. rewrite length_bytes_at in Hlen.
  destruct (tensor_block (b, c) id p Hs Hid) as [[-> Hp]|(k & Hp & _ & Hk0 & _)]; cbn [snd] in Hp; rewrite Hp in Hlen;
    cbn [default from_option Datatypes.id] in Hlen; [left; lia | right]. exists p, k. split; [done | lia].
Qed.

Lemma tensor_slice b c id p off n :
  holds ([], []) (b, c) → tensors (guarded (state b)) !! id = Some p → 0 ≤ off → 0 ≤ n →
  off + n ≤ Z.of_nat (length (block_bytes c p)) → bytes_at c (p + off) n = take (Z.to_nat n) (drop (Z.to_nat off) (block_bytes c p)).
Proof.
  intros Hs Hid Hoff Hn Hlen. unfold block_bytes in *. rewrite length_bytes_at in Hlen. rewrite bytes_at_slice; [done | done | done |].
  destruct (tensor_block (b, c) id p Hs Hid) as [[-> Hp]|(k & Hp & _ & Hk0 & _)]; cbn [snd] in Hp; rewrite Hp in *;
    cbn [default from_option Datatypes.id] in *; lia.
Qed.

Lemma copy_to_device_implements t src s : holds ([], []) s → handle_fits (contents s) t →
  outcome (mem_call (MCopyToDevice t src)) s (implements s (MCopyToDevice t src)).
Proof.
  destruct s as [b c]. intros Hs Hfit. apply (outcome_ret _ (λ _, OUnit)), outcome_bind, outcome_get_ptr; [done | |].
  2: { intros Hid. right. split; [done |]. cbn [refusal]. by rewrite contents_lookup, Hid. }
  intros p Hid. destruct (Hfit (block_bytes c p)) as (n & Hn & Hn0 & Hle); [by rewrite contents_lookup, Hid |].
  apply outcome_bind. rewrite Hn. unfold outcome at 1, slift. cbn [fst snd].
  destruct (Z.ltb_spec (Z.of_nat (length src)) n) as [Hlt|Hge].
  { right. split; [done |]. cbn [refusal]. rewrite contents_lookup, Hid, Hn. cbn. by rewrite (proj2 (Z.ltb_lt _ _)). }
  set (l := take (Z.to_nat n) src). assert (Z.of_nat (length l) = n) as Hl by (unfold l; rewrite length_take; lia).
  apply outcome_check; [intros c' err a E; by apply cudaMemcpy_htod_calm in E as [? _] | | intros c' e Hf; by left].
  intros c' a E. pose proof E as (_ & Hb & _)%cudaMemcpy_htod_calm. cbn [rmap rbind implements].
  apply cudaMemcpy_htod_law in E as [Hk Hw]; [| rewrite <- (Z.add_0_r p); eapply inside_tensor; [done.. | lia | lia | lia]].
  rewrite (write_contents b c c' (tensor_id t) p 0 l) by (done || lia || (rewrite Z.add_0_r; auto)).
  apply (step_copy_to_device _ _ _ (block_bytes c p) (Z.to_nat n)); [by rewrite contents_lookup, Hid | rewrite Hn; f_equal; lia | lia].
Qed.

Lemma copy_to_host_implements t dst s : holds ([], []) s → handle_fits (contents s) t →
  outcome (mem_call (MCopyToHost t dst)) s (implements s (MCopyToHost t dst)).
Proof.
  destruct s as [b c]. intros Hs Hfit. apply outcome_ret, outcome_bind, outcome_get_ptr; [done | |].
  2: { intros Hid. right. split; [done |]. cbn [refusal]. by rewrite contents_lookup, Hid. }
  intros p Hid. destruct (Hfit (block_bytes c p)) as (n & Hn & Hn0 & Hle); [by rewrite contents_lookup, Hid |].
  apply outcome_bind. rewrite Hn. unfold outcome at 1, slift. cbn [fst snd].
  destruct (Z.ltb_spec (Z.of_nat (length dst)) n) as [Hlt|Hge].
  { right. split; [done |]. cbn [refusal]. rewrite contents_lookup, Hid, Hn. cbn. by rewrite (proj2 (Z.ltb_lt _ _)). }
  apply outcome_bind, outcome_check; [intros c' err a E; by apply (proj1 (cudaMemcpy_dtoh_quiet _ _)) in E as [? _] | | intros c' e Hf; by left].
  intros c' bytes E. pose proof E as (_ & Hb & _)%(proj1 (cudaMemcpy_dtoh_quiet _ _)). pose proof E as Hk%(proj2 (cudaMemcpy_dtoh_quiet _ _)).
  apply cudaMemcpy_dtoh_law in E as ->; [| rewrite <- (Z.add_0_r p); eapply inside_tensor; [done.. | lia | lia | lia]].
  unfold outcome. cbn [sret fst snd rmap rbind implements]. rewrite (contents_quiet b c c') by done.
  assert (bytes_at c p n = take (Z.to_nat n) (block_bytes c p)) as Hbytes.
  { rewrite <- (Z.add_0_r p) at 1. rewrite (tensor_slice b c (tensor_id t)) by (done || lia). done. }
  replace (bytes_at c p n ++ drop (Z.to_nat n) dst) with (list_inserts 0 (take (Z.to_nat n) (block_bytes c p)) dst).
  - apply step_copy_to_host; [by rewrite contents_lookup, Hid | rewrite Hn; f_equal; lia | lia].
  - rewrite <- (take_drop (Z.to_nat n) dst) at 1. rewrite list_inserts_0_r; [by rewrite Hbytes |].
    rewrite <- Hbytes, length_bytes_at, length_take. lia.
Qed.

(** *** Copying rows *)

Lemma outcome_lift {A B : Type} (r : result A) (k : A → st gpu B) s (Q : gpu → result B → Prop) :
  (∀ a, r = Ok a → outcome (k a) s Q) → (∀ e, r = Err e → Q s (Err e)) → Q s Panic → outcome (sbind (slift r) k) s Q.
Proof. intros Hok Herr Hp. unfold outcome, sbind, slift in *. destruct r as [a|e|]; [by apply Hok | by apply Herr | done]. Qed.

Lemma uproduct_value l n : uproduct l = Ok n → n = foldr Z.mul 1 l.
Proof.
  unfold uproduct. assert (∀ a, foldl (λ acc d, let? a := acc in umul a d) (Ok a) l = Ok n → n = a * foldr Z.mul 1 l) as Hgen.
  { induction l as [|d l IH]; intros a; cbn [foldl foldr]; [intros [= <-]; lia |]. cbn [rbind]. unfold umul, checked.
    case_bool_decide; [intros ->%IH; lia |]. intros Hp. exfalso. revert Hp. clear. induction l; [done | exact IHl]. }
  intros ->%Hgen. lia.
Qed.

(** The rows that a handle allows are bytes of its tensor. *)
Lemma rows_fit (σ : store) t bs k : handle_fits σ t → σ !! tensor_id t = Some bs → is_packed (dtype t) = false →
  Forall (λ d, 0 ≤ d) (shape t) → 0 ≤ k ≤ default 0 (head (shape t)) → shape t ≠ [] →
  0 ≤ row_bytes t ∧ k * row_bytes t ≤ Z.of_nat (length bs).
Proof.
  intros Hfit Hbs Hpk Hsh Hk Hne. destruct (Hfit bs Hbs) as (n & Hn & _ & Hle). unfold size_bytes, numel in Hn. rewrite Hpk in Hn.
  apply rbind_Ok in Hn as (m & Hm%uproduct_value & [-> _]%checked_inv). destruct (shape t) as [|r0 rest] eqn:E; [done |].
  unfold row_bytes. rewrite E. cbn [drop]. rewrite drop_0. cbn [head default from_option Datatypes.id foldr] in *. subst m. apply Forall_cons in Hsh as [Hr0 Hrest].
  assert (0 ≤ foldr Z.mul 1 rest) as Hpos by (clear -Hrest; induction Hrest; cbn [foldr]; lia).
  assert (0 < dtype_size_bytes (dtype t)) by (by destruct (dtype t)).
  assert (0 ≤ foldr Z.mul 1 rest * dtype_size_bytes (dtype t)) as Hr by (apply Z.mul_nonneg_nonneg; lia). split; [done |].
  pose proof (Z.mul_le_mono_nonneg_r k r0 _ Hr ltac:(lia)). lia.
Qed.

(** Different tensors have blocks apart from each other. *)
Lemma tensors_apart b c i j p q off off' n n' :
  holds ([], []) (b, c) → tensors (guarded (state b)) !! i = Some p → tensors (guarded (state b)) !! j = Some q → i ≠ j → 0 < n → 0 < n' →
  0 ≤ off → 0 ≤ off' → off + n ≤ Z.of_nat (length (block_bytes c p)) → off' + n' ≤ Z.of_nat (length (block_bytes c q)) →
  apart (p + off) n (q + off') n' ∧ 0 < p + off < 2 ^ 64 ∧ 0 < q + off' < 2 ^ 64.
Proof.
  intros Hs Hi Hj Hij Hn Hn' Hoff Hoff' Hp Hq. unfold block_bytes in *. rewrite length_bytes_at in *.
  destruct (tensor_block (b, c) i p Hs Hi) as [[-> Hp']|(k & Hp' & ? & ? & ?)]; cbn [snd] in Hp'; rewrite Hp' in *;
    cbn [default from_option Datatypes.id] in *; [lia |].
  destruct (tensor_block (b, c) j q Hs Hj) as [[-> Hq']|(m & Hq' & ? & ? & ?)]; cbn [snd] in Hq'; rewrite Hq' in *;
    cbn [default from_option Datatypes.id] in *; [lia |].
  assert (p ≠ q) as Hpq by (intros ->; apply Hij; eapply (tensor_inj (b, c)); [done.. | lia]).
  destruct (h_blocks _ _ Hs p k Hp') as [_ _ Hap]. specialize (Hap q m). rewrite lookup_delete_ne in Hap by done.
  destruct (Hap Hq'); unfold apart; lia.
Qed.

(** The copy itself. *)
Lemma memcpy_rows b c c' a i j p q off off' n :
  holds ([], []) (b, c) → tensors (guarded (state b)) !! i = Some p → tensors (guarded (state b)) !! j = Some q → i ≠ j → 0 ≤ n →
  0 ≤ off → 0 ≤ off' → off + n ≤ Z.of_nat (length (block_bytes c p)) → off' + n ≤ Z.of_nat (length (block_bytes c q)) →
  cudaMemcpy_dtod (wrap 64 (q + off')) (wrap 64 (p + off)) n c = (c', (0, a)) →
  contents (b, c') = <[j := list_inserts (Z.to_nat off') (take (Z.to_nat n) (drop (Z.to_nat off) (block_bytes c p))) (block_bytes c q)]> (contents (b, c)).
Proof.
  intros Hs Hi Hj Hij Hn Hoff Hoff' Hp Hq E. pose proof E as (_ & Hb & _)%cudaMemcpy_dtod_calm.
  destruct (decide (n = 0)) as [->|Hnz].
  { apply cudaMemcpy_dtod_law in E as [Hk _]; [| by left | by left | unfold apart; lia]. cbn [Z.to_nat take list_inserts].
    rewrite insert_id by (by rewrite contents_lookup, Hj). apply contents_quiet; [done |]. intros x Hx _. apply Hk; [done | lia]. }
  destruct (tensors_apart b c i j p q off off' n n) as (Hap & Hpr & Hqr); try done; [lia.. |].
  rewrite !wrap_small in E by (unfold in_width; lia).
  apply cudaMemcpy_dtod_law in E as [Hk Hw]; [| by eapply inside_tensor | by eapply inside_tensor | unfold apart in *; lia].
  set (l := take _ _). assert (Z.of_nat (length l) = n) as Hl by (unfold l; rewrite length_take, length_drop; lia).
  apply write_contents; rewrite ?Hl; try done. rewrite Hw by done. by eapply tensor_slice.
Qed.

Lemma index_head {A : Type} (l : list A) x d : index l 0 = Ok x → default d (head l) = x ∧ l ≠ [].
Proof. destruct l as [|y l]; [done |]. by intros [= ->]. Qed.

(** The part of [copy_rows] after its checks. *)
Lemma copy_row_bytes_implements src dst so dof n b c :
  holds ([], []) (b, c) → op_fits (contents (b, c)) (MCopyRows src dst so dof n) → shape src ≠ [] → shape dst ≠ [] →
  so + n ≤ default 0 (head (shape src)) → dof + n ≤ default 0 (head (shape dst)) →
  drop 1 (shape src) = drop 1 (shape dst) → dtype src = dtype dst →
  outcome (copy_row_bytes src dst so dof n) (b, c) (λ s' r, implements (b, c) (MCopyRows src dst so dof n) s' (rmap (λ _, OUnit) r)).
Proof.
  intros Hs (Hfs & Hfd & Hne & Hpk & Hss & Hsd & Hso & Hdo & Hn) Hsne Hdne Hso' Hdo' Hcol Hdt. set (op := MCopyRows src dst so dof n).
  assert (refusal (contents (b, c)) op = match contents (b, c) !! tensor_id src, contents (b, c) !! tensor_id dst with
    | Some _, Some _ => None | _, _ => Some (TensorNotFound "tensor id") end) as Href.
  { cbn [refusal op]. by rewrite !(proj2 (Z.ltb_ge _ _)), !bool_decide_true by done. }
  apply outcome_bind, outcome_get_ptr; [done | |].
  2: { intros Hid. right. split; [done |]. by rewrite Href, contents_lookup, Hid. }
  intros p Hp. apply outcome_bind, outcome_get_ptr; [done | |].
  2: { intros Hid. right. split; [done |]. rewrite Href, !contents_lookup, Hid. by destruct (_ <$> _). }
  intros q Hq. assert (contents (b, c) !! tensor_id src = Some (block_bytes c p)) as Hp' by (by rewrite contents_lookup, Hp).
  assert (contents (b, c) !! tensor_id dst = Some (block_bytes c q)) as Hq' by (by rewrite contents_lookup, Hq).
  assert (row_bytes src = row_bytes dst) as Hrow by (unfold row_bytes; by rewrite Hcol, Hdt).
  destruct (rows_fit _ _ _ (so + n) Hfs Hp' Hpk Hss) as [Hr0 Hps]; [lia | done |].
  destruct (rows_fit _ _ _ (dof + n) Hfd Hq' ltac:(by rewrite <- Hdt) Hsd) as [_ Hqs]; [lia | done |]. rewrite <- Hrow in Hqs.
  apply outcome_lift; [| | done].
  2: { unfold umulr. intros e [?%uproduct_not_err|(? & _ & [?|(? & [= <-] & ?%checked_not_err)]%rbind_Err)]%rbind_Err; done. }
  intros r (r1 & r2 & ->%uproduct_value & [= <-] & -> & _)%umulr_Ok_inv. fold (row_bytes src).
  apply outcome_lift; [| by intros e ?%checked_not_err | done]. intros bc [-> _]%checked_inv.
  apply outcome_lift; [| by intros e ?%checked_not_err | done]. intros sb [-> _]%checked_inv.
  apply outcome_lift; [| by intros e ?%checked_not_err | done]. intros db [-> _]%checked_inv.
  apply outcome_bind, outcome_check; [intros c' err a E; by apply cudaMemcpy_dtod_calm in E as [? _] | | intros c' e Hf; by left].
  intros c' a E. assert (holds ([], []) (b, c')) as Hs'.
  { apply cudaMemcpy_dtod_calm in E as (? & ? & ?). by eapply holds_calm. }
  apply (memcpy_rows b c c' a (tensor_id src) (tensor_id dst)) in E; try done; [| nia..].
  apply outcome_silent; [apply nvtxRangePop_silent | done |]. intros c2 _ Hc2. cbn [implements rmap rbind op]. rewrite Hc2, E.
  by apply step_copy_rows.
Qed.

Lemma copy_rows_implements src dst so dof n s : holds ([], []) s → op_fits (contents s) (MCopyRows src dst so dof n) →
  outcome (mem_call (MCopyRows src dst so dof n)) s (implements s (MCopyRows src dst so dof n)).
Proof.
  destruct s as [b c0]. intros Hs0 Hfit. apply (outcome_ret _ (λ _, OUnit)), outcome_bind, outcome_silent; [apply nvtxRangePushA_silent | done |].
  intros c Hs Hc. set (op := MCopyRows src dst so dof n). rewrite <- Hc in Hfit.
  apply outcome_lift; [| by intros e ?%checked_not_err | done]. intros se [-> _]%checked_inv.
  apply outcome_lift; [| by intros e ?%index_not_err | done]. intros sr [<- Hsne]%(index_head _ _ 0).
  destruct (default 0 (head (shape src)) <? so + n) eqn:Hchk; [right; split; [done |]; cbn [refusal op]; by rewrite Hchk |].
  apply outcome_lift; [| by intros e ?%checked_not_err | done]. intros de [-> _]%checked_inv.
  apply outcome_lift; [| by intros e ?%index_not_err | done]. intros dr [<- Hdne]%(index_head _ _ 0).
  destruct (default 0 (head (shape dst)) <? dof + n) eqn:Hchk'; [right; split; [done |]; cbn [refusal op]; by rewrite Hchk, Hchk' |].
  case_bool_decide as Hcol; cbn [negb].
  2: { right. split; [done |]. cbn [refusal op]. by rewrite Hchk, Hchk', bool_decide_false. }
  case_bool_decide as Hdt; cbn [negb].
  2: { right. split; [done |]. cbn [refusal op]. by rewrite Hchk, Hchk', bool_decide_true, bool_decide_false. }
  apply Z.ltb_ge in Hchk, Hchk'. pose proof (copy_row_bytes_implements src dst so dof n b c) as Himp.
  unfold outcome, implements in *. rewrite <- Hc. by apply Himp.
Qed.

Lemma mem_call_holds op s : holds ([], []) s → holds ([], []) (mem_call op s).1.
Proof.
  intros Hs. assert (owns ([], []) (mem_call op) (λ _, ([], []))) as Ho.
  { destruct op; cbn [mem_call]; (eapply owns_bind; [| intros ?; by apply owns_ret]); [apply owns_alloc | apply owns_cuda_free | owns_run..]. }
  specialize (Ho s Hs). by destruct (mem_call op s) as [s' [o|e|]].
Qed.

Lemma mem_call_implements op s : holds ([], []) s → op_fits (contents s) op → outcome (mem_call op) s (implements s op).
Proof.
  intros Hs Hfit. destruct op; [by apply alloc_implements | by apply free_implements | by apply copy_to_device_implements
    | by apply copy_to_host_implements | by apply copy_rows_implements].
Qed.

(** C14: the memory of the CUDA backend is a store of tensors.  After any
    operations on a new backend, an allocation, a release or a copy that succeeds
    does what it does to the map from tensor ids to their bytes: the allocated
    tensor is new and has the size of its shape, copies change the bytes they
    name and no other tensor, rows end up at their offsets.  An error is a
    refusal for the documented reason that changes nothing, or a failure of the
    driver; a panic changes nothing.  Handles may describe less than their
    tensor, not more, and rows are copied between different tensors that are not
    packed. *)
Theorem cuda_store_refines dev ops op c0 c b s' r :
  c_blocks c0 = ∅ → c_events c0 = ∅ → cuda_new dev c0 = (c, Ok b) → op_fits (contents (run_ops ops (b, c))) op →
  mem_call op (run_ops ops (b, c)) = (s', r) →
  match r with
  | Ok o => mem_step (contents (run_ops ops (b, c))) op o (contents s')
  | Err e => c_failed s'.2 = true ∨ (contents s' = contents (run_ops ops (b, c)) ∧ refusal (contents (run_ops ops (b, c))) op = Some e)
  | Panic => contents s' = contents (run_ops ops (b, c))
  end.
Proof.
  intros Hb He Hnew Hfit Hrun. pose proof (keeps_ops ops _ (cuda_new_empty dev c0 c b Hb He Hnew)) as Hs.
  pose proof (mem_call_implements op _ Hs Hfit) as Ho. unfold outcome in Ho. by rewrite Hrun in Ho.
Qed.
End refinement.

(** ** Matrix products *)

(** FP16 values, as 16-bit integers, of a tensor's bytes, and its rows. *)
Definition lhalf (bs : list Z) (i : Z) : Z :=
  default 0 (bs !! Z.to_nat (2 * i)) + 256 * default 0 (bs !! Z.to_nat (2 * i + 1)).
Definition half_rows (bs : list Z) (m k : Z) : list (list Z) :=
  (λ i, (λ l, lhalf bs (i * k + l)) <$> seqZ 0 k) <$> seqZ 0 m.

Lemma zip_fmap_same {A B D : Type} (f : A → B) (g : A → D) l : zip (f <$> l) (g <$> l) = (λ x, (f x, g x)) <$> l.
Proof. induction l; cbn; by f_equal. Qed.

Lemma as_c_int_small n : 0 ≤ n < 2 ^ 31 → as_c_int n = n.
Proof. intros. unfold as_c_int. rewrite Z.mod_small; lia. Qed.

Section products.
Context {C : Type} `{CudaLaws C}.
Notation gpu := (CudaBackend * C)%type.
Implicit Types (s : gpu) (b : CudaBackend) (c : C).

(** What cuBLAS computes of two vectors for alpha 1 and beta 0. *)
Definition gemm_dot (w r : list Z) : Z := gemm_value f32_one f32_zero (zip w r) 0.

(** The bytes of a tensor, by its pointer. *)
Lemma half_lhalf b c id p i :
  holds ([], []) (b, c) → tensors (guarded (state b)) !! id = Some p → 0 ≤ i → 2 * i + 2 ≤ Z.of_nat (length (block_bytes c p)) →
  half c (p + 2 * i) = lhalf (block_bytes c p) i.
Proof.
  intros Hs Hid Hi Hlen. assert (∀ k, 0 ≤ k < Z.of_nat (length (block_bytes c p)) → block_bytes c p !! Z.to_nat k = Some (c_mem c (p + k))) as Hk.
  { intros k Hk. unfold block_bytes, bytes_at in *. rewrite length_fmap, length_seqZ in Hk.
    rewrite list_lookup_fmap, lookup_seqZ_lt by lia. cbn. do 2 f_equal. lia. }
  unfold half, lhalf. rewrite !Hk by lia. cbn. do 3 f_equal. lia.
Qed.

Lemma fp16_bytes t m k n : shape t = [m; k] → dtype t = FP16 → size_bytes t = Ok n → n = 2 * (m * k).
Proof.
  intros Hsh Hdt. unfold size_bytes, numel. rewrite Hsh, Hdt. cbn [is_packed dtype_size_bytes].
  intros (x & ->%uproduct_value & [-> _]%checked_inv)%rbind_Ok. cbn [foldr]. lia.
Qed.

(** The call of cuBLAS, on matrices of [m] by [k], [n] by [k] and [m] by [n]. *)
Definition product_call (handle a_ptr b_ptr c_ptr m n k : Z) : Gemm := {|
  g_handle := handle; transa := CUBLAS_OP_T; transb := CUBLAS_OP_N; g_m := n; g_n := m; g_k := k;
  g_alpha := f32_one; g_A := b_ptr; Atype := CUDA_R_16F; lda := k; g_B := a_ptr; Btype := CUDA_R_16F; ldb := k;
  g_beta := f32_zero; g_C := c_ptr; Ctype := CUDA_R_16F; ldc := n;
  computeType := CUBLAS_COMPUTE_32F; algo := CUBLAS_GEMM_DEFAULT |}.

Section product.
Context b c (ia iw io pa pw po m n k : Z).
Context (Hs : holds ([], []) (b, c)).
Context (Ha : tensors (guarded (state b)) !! ia = Some pa) (Hw : tensors (guarded (state b)) !! iw = Some pw)
  (Ho : tensors (guarded (state b)) !! io = Some po).
Context (Hoa : io ≠ ia) (How : io ≠ iw) (Hm : 0 < m) (Hn : 0 < n) (Hk : 0 < k).
Context (La : 2 * (m * k) ≤ Z.of_nat (length (block_bytes c pa))) (Lw : 2 * (n * k) ≤ Z.of_nat (length (block_bytes c pw)))
  (Lo : 2 * (m * n) ≤ Z.of_nat (length (block_bytes c po))).

Lemma product_valid handle : gemm_valid c (product_call handle pa pw po m n k).
Proof using All.
  assert (0 < m * k ∧ 0 < n * k ∧ 0 < m * n) as (? & ? & ?) by (split_and!; by apply Z.mul_pos_pos).
  split; unfold len_A, len_B, len_C; cbn; try lia; [done | |].
  - rewrite <- (Z.add_0_r pw), <- (Z.add_0_r pa), <- (Z.add_0_r po). split_and!; eapply inside_tensor; try done; lia.
  - destruct (tensors_apart b c io iw po pw 0 0 (2 * (m * n)) (2 * (n * k))) as (Hap & _); try done; [lia.. |].
    destruct (tensors_apart b c io ia po pa 0 0 (2 * (m * n)) (2 * (m * k))) as (Hap' & _); try done; [lia.. |].
    unfold apart in *. lia.
Qed.

Lemma product_rows handle c' x : cublasGemmEx (product_call handle pa pw po m n k) c = (c', (0, x)) →
  ∃ ys, contents (b, c') = <[io := ys]> (contents (b, c)) ∧ length ys = length (block_bytes c po) ∧
    half_rows ys m n = (λ r, (λ w, gemm_dot w r) <$> half_rows (block_bytes c pw) n k) <$> half_rows (block_bytes c pa) m k.
Proof using All.
  intros E. pose proof E as (Hst & Hb & He)%cublasGemmEx_calm. apply cublasGemmEx_law in E as [Hkept Hval]; [| apply product_valid].
  unfold len_C, out_C, op_A, op_B in *. cbn [product_call g_m g_n g_k g_alpha g_beta g_A g_B g_C lda ldb ldc transa transb] in *.
  assert (holds ([], []) (b, c')) as Hs' by (by eapply holds_calm). assert (0 < m * n) as Hmn by (by apply Z.mul_pos_pos).
  set (l := bytes_at c' po (2 * (m * n))). assert (Z.of_nat (length l) = 2 * (m * n)) as Hl by (unfold l; rewrite length_bytes_at; lia).
  pose proof (write_contents b c c' io po 0 l Hs Ho ltac:(lia) ltac:(lia) Hb) as Hc. rewrite Hl, Z.add_0_r in Hc.
  specialize (Hc ltac:(intros y Hy Hy'; apply Hkept; [done | lia]) eq_refl).
  assert (block_bytes c' po = list_inserts 0 l (block_bytes c po)) as Heq.
  { apply (f_equal (lookup io)) in Hc. rewrite lookup_insert_eq, contents_lookup, Ho in Hc. by injection Hc. }
  exists (block_bytes c' po). split_and!; [by rewrite Hc, Heq | |].
  - unfold block_bytes. by rewrite !length_bytes_at, Hb.
  - unfold half_rows. rewrite <- list_fmap_compose. apply list_fmap_ext. intros j0 j Hj%lookup_seqZ. unfold compose.
    rewrite <- list_fmap_compose. apply list_fmap_ext. intros i0 i Hi%lookup_seqZ. unfold compose, gemm_dot. rewrite zip_fmap_same.
    assert (length (block_bytes c' po) = length (block_bytes c po)) as Hlen by (unfold block_bytes; by rewrite !length_bytes_at, Hb).
    rewrite <- (half_lhalf b c' io) by (done || (try rewrite Hlen; nia)). rewrite (Z.add_comm (j * n) i), Hval by lia.
    rewrite (gemm_value_beta_zero _ _ _ 0). f_equal. apply list_fmap_ext. intros y0 y Hy%lookup_seqZ.
    rewrite <- (half_lhalf b c iw pw), <- (half_lhalf b c ia pa) by (done || nia). by rewrite (Z.add_comm (i * k)), (Z.add_comm (j * k)).
Qed.
End product.

(** The lock of the registry is only taken for tensors that are there. *)
Lemma outcome_live id p b c (Q : gpu → result Z → Prop) :
  tensors (guarded (state b)) !! id = Some p → (mx_poisoned (state b) = true → Q (b, c) Panic) → Q (b, c) (Ok p) → outcome (get_ptr id) (b, c) Q.
Proof.
  intros Hid Hp Hok. unfold outcome, get_ptr, on_state, with_lock. destruct (state b) as [g po] eqn:Eb. cbn [mx_poisoned guarded] in *.
  assert (with_state {| guarded := g; mx_poisoned := po |} b = b) as Hb by (rewrite <- Eb; by destruct b).
  destruct po; [rewrite Hb; auto |]. rewrite Hid. cbn [fst snd]. by rewrite Hb.
Qed.

Lemma outcome_Ok {A B : Type} (r : result A) a (k : A → st gpu B) s (Q : gpu → result B → Prop) :
  r = Ok a → outcome (k a) s Q → outcome (sbind (slift r) k) s Q.
Proof. by intros ->. Qed.

(** The bytes of a tensor depend on the contents only. *)
Lemma block_bytes_same b c c' id p : contents (b, c') = contents (b, c) → tensors (guarded (state b)) !! id = Some p →
  block_bytes c' p = block_bytes c p.
Proof. intros Hc Hid. apply (f_equal (lookup id)) in Hc. rewrite !contents_lookup, Hid in Hc. by injection Hc. Qed.

(** The matrix product.  For FP16 tensors [a] of shape [m; k] and [w] of
    shape [n; k], [matmul] on a backend in use writes to [out], of shape [m; n],
    for each row of [a] its products with the rows of [w], that is A times the
    transpose of W, and changes no other tensor; this although cuBLAS takes
    matrices by columns.  It fails only if the driver does, and panics only if
    the registry's lock is poisoned. *)
Theorem cuda_matmul_spec dev ops a w out m n k c0 c b xs ws os :
  c_blocks c0 = ∅ → c_events c0 = ∅ → cuda_new dev c0 = (c, Ok b) →
  let s := run_ops ops (b, c) in
  shape a = [m; k] → shape w = [n; k] → shape out = [m; n] → 0 < m < 2 ^ 31 → 0 < n < 2 ^ 31 → 0 < k < 2 ^ 31 →
  contents s !! tensor_id a = Some xs → contents s !! tensor_id w = Some ws → contents s !! tensor_id out = Some os →
  2 * (m * k) ≤ Z.of_nat (length xs) → 2 * (n * k) ≤ Z.of_nat (length ws) → 2 * (m * n) ≤ Z.of_nat (length os) →
  tensor_id out ≠ tensor_id a → tensor_id out ≠ tensor_id w →
  match cuda_matmul a w out s with
  | (s', Ok _) => ∃ ys, contents s' = <[tensor_id out := ys]> (contents s) ∧ length ys = length os ∧
                  half_rows ys m n = (λ r, (λ wr, gemm_dot wr r) <$> half_rows ws n k) <$> half_rows xs m k
  | (s', Err _) => c_failed s'.2 = true
  | (_, Panic) => mx_poisoned (state s.1) = true
  end.
Proof.
  intros Hb He Hnew. cbn zeta. pose proof (keeps_ops ops _ (cuda_new_empty dev c0 c b Hb He Hnew)) as Hs.
  destruct (run_ops ops (b, c)) as [b1 c1] eqn:Er. clear Er Hnew Hb He c0 c b. rename b1 into b, c1 into c.
  intros Sa Sw So Hm Hn Hk Ca Cw Co La Lw Lo Noa Now. rewrite contents_lookup in Ca, Cw, Co.
  apply fmap_Some in Ca as (pa & Ha & ->), Cw as (pw & Hw & ->), Co as (po & Ho & ->).
  assert (outcome (cuda_matmul a w out) (b, c) (λ s' r, match r with
    | Ok _ => ∃ ys, contents s' = <[tensor_id out := ys]> (contents (b, c)) ∧ length ys = length (block_bytes c po) ∧
        half_rows ys m n = (λ r, (λ wr, gemm_dot wr r) <$> half_rows (block_bytes c pw) n k) <$> half_rows (block_bytes c pa) m k
    | Err _ => c_failed s'.2 = true
    | Panic => mx_poisoned (state b) = true end)) as Hout;
    [| unfold outcome in Hout; by destruct (cuda_matmul a w out (b, c)) as [s' [?|?|]]].
  unfold cuda_matmul, c_dim. rewrite Sa, Sw. do 2 (eapply outcome_Ok; [reflexivity |]). rewrite Z.eqb_refl. cbn [negb].
  apply outcome_bind, outcome_silent; [apply nvtxRangePushA_silent | done |]. intros c1 Hs1 Hc1.
  do 3 (eapply outcome_Ok; [cbn; rewrite as_c_int_small by lia; reflexivity |]).
  do 3 (apply outcome_bind; eapply outcome_live; [done | done |]). apply outcome_bind. unfold outcome at 1, backend_field. cbn [fst snd].
  rewrite <- (block_bytes_same b c c1 _ pa Hc1 Ha) in *. rewrite <- (block_bytes_same b c c1 _ pw Hc1 Hw) in *.
  rewrite <- (block_bytes_same b c c1 _ po Hc1 Ho) in *. rewrite <- Hc1.
  apply outcome_bind, (outcome_check "cuBLAS error"); [intros c' err x E; by apply cublasGemmEx_calm in E as [? _] | | done].
  intros c2 x E. assert (holds ([], []) (b, c2)) as Hs2 by (apply cublasGemmEx_calm in E as (? & ? & ?); by eapply holds_calm).
  apply (product_rows b c1 (tensor_id a) (tensor_id w) (tensor_id out) pa pw po m n k) in E; try done; [| lia..].
  apply outcome_silent; [apply nvtxRangePop_silent | done |]. intros c3 _ Hc3. by rewrite Hc3.
Qed.
End products.

(** ** Examples *)

Module CudaMemoryWitness.
Import CudaOwnershipWitness.

(** Tensors 1 and 3 of one row of two values, 2 of two rows. *)
Definition filled : list cuda_op :=
  [OpAlloc [1; 2] FP16; OpAlloc [2; 2] FP16; OpAlloc [1; 2] FP16; OpCopyToDevice (tensor 1 [1; 2]) [1; 0; 2; 0];
   OpCopyToDevice (tensor 2 [2; 2]) [3; 0; 4; 0; 5; 0; 6; 0]].
Notation gpu0 := (run_ops filled (backend0, device0 false)).

Example gpu0_contents : map_to_list (contents gpu0) = [(3, [0; 0; 0; 0]); (2, [3; 0; 4; 0; 5; 0; 6; 0]); (1, [1; 0; 2; 0])].
Proof. vm_compute. reflexivity. Qed.

(** Copying the row of tensor 1 over the second row of tensor 2. *)
Definition copy_op : mem_op := MCopyRows (tensor 1 [1; 2]) (tensor 2 [2; 2]) 0 1 1.

Lemma fits (σ : store) id sh n bs : σ !! id = Some bs → size_bytes (tensor id sh) = Ok n → 0 ≤ n ≤ Z.of_nat (length bs) →
  handle_fits σ (tensor id sh).
Proof. intros Hid Hn Hle bs' Hbs'. cbn [tensor tensor_id] in Hbs'. rewrite Hid in Hbs'. injection Hbs' as <-. by exists n. Qed.

Lemma cuda_store_refines_witness : ∃ s',
  mem_call copy_op gpu0 = (s', Ok OUnit) ∧ mem_step (contents gpu0) copy_op OUnit (contents s') ∧
  contents s' !! 2 = Some [3; 0; 4; 0; 1; 0; 2; 0].
Proof.
  pose proof (cuda_store_refines (C := SimCuda) 0 filled copy_op (device0 false) (device0 false) backend0
    (mem_call copy_op gpu0).1 (mem_call copy_op gpu0).2) as Hr.
  assert ((mem_call copy_op gpu0).2 = Ok OUnit) as Hok by (vm_compute; reflexivity).
  assert (contents (mem_call copy_op gpu0).1 !! 2 = Some [3; 0; 4; 0; 1; 0; 2; 0]) as H2 by (vm_compute; reflexivity).
  assert (contents gpu0 !! 1 = Some [1; 0; 2; 0]) as C1 by (vm_compute; reflexivity).
  assert (contents gpu0 !! 2 = Some [3; 0; 4; 0; 5; 0; 6; 0]) as C2 by (vm_compute; reflexivity).
  revert Hr Hok H2 C1 C2. generalize gpu0 as s. intros s Hr Hok H2 C1 C2. destruct (mem_call copy_op s) as [s' r]. cbn [fst snd] in *. subst r.
  exists s'. split_and!; [done | | done]. apply Hr; try reflexivity. split_and!; try done.
  - by eapply (fits _ 1 [1; 2] 4).
  - by eapply (fits _ 2 [2; 2] 8).
  - repeat constructor; discriminate.
  - repeat constructor; discriminate.
Defined.

Lemma cuda_matmul_spec_witness : ∃ s' ys,
  cuda_matmul (tensor 1 [1; 2]) (tensor 2 [2; 2]) (tensor 3 [1; 2]) gpu0 = (s', Ok ()) ∧
  contents s' = <[3 := ys]> (contents gpu0) ∧ half_rows ys 1 2 = [[11; 17]].
Proof.
  pose proof (cuda_matmul_spec (C := SimCuda) 0 filled (tensor 1 [1; 2]) (tensor 2 [2; 2]) (tensor 3 [1; 2]) 1 2 2 (device0 false)
    (device0 false) backend0 [1; 0; 2; 0] [3; 0; 4; 0; 5; 0; 6; 0] [0; 0; 0; 0]) as Hm.
  assert ((cuda_matmul (tensor 1 [1; 2]) (tensor 2 [2; 2]) (tensor 3 [1; 2]) gpu0).2 = Ok ()) as Hok by (vm_compute; reflexivity).
  assert (contents gpu0 !! 1 = Some [1; 0; 2; 0]) as C1 by (vm_compute; reflexivity).
  assert (contents gpu0 !! 2 = Some [3; 0; 4; 0; 5; 0; 6; 0]) as C2 by (vm_compute; reflexivity).
  assert (contents gpu0 !! 3 = Some [0; 0; 0; 0]) as C3 by (vm_compute; reflexivity).
  cbn zeta in Hm. revert Hm Hok C1 C2 C3. generalize gpu0 as s. intros s Hm Hok C1 C2 C3.
  destruct (cuda_matmul _ _ _ s) as [s' r]. cbn [snd] in Hok. subst r. exists s'.
  destruct Hm as (ys & Hc & _ & Hrows); try done; try lia. exists ys. split_and!; [done | exact Hc |]. rewrite Hrows. vm_compute. reflexivity.
Defined.
End CudaMemoryWitness.
