(* ===== verification/CacheIface.v ===== *)
(** * The interface between caches and forward passes
      ([PagedCache] of [crates/fracture-engine/src/batched.rs])

    The trait as a class: the operations a forward pass calls, what a cache
    stores of a token ([pc_entry]) and the laws the forward passes rely on.
    The paged cache and the quantized cache are its two instances. *)

From S2P Require Import Prelude F32 Core Backend Kernels TurboQuant BlockTables BlockWrite PagedCache QuantizedCache.

Class PagedCacheOps (C D : Type) `{KernelOps D} := {
  pc_seq_len : Z → C → result nat;
  pc_append_kv : Z → nat → DeviceTensor → DeviceTensor → st (C * D) unit;
  (** [dispatch_attention(backend, q_slice, handle, cache_idx, num_kv_heads, kv_len, start_pos, out)] *)
  pc_dispatch_attention : C → DeviceTensor → Z → nat → Z → nat → nat → DeviceTensor → st D unit;
  pc_entry : Type;
  (** what is stored of a key and a value row, and what attention computes of
      stored entries and a query row *)
  pc_encode : C → D → nat → Row → Row → pc_entry;
  pc_attend : C → D → nat → Z → list pc_entry → Row → Row;
  (** the entry of a sequence at a layer and position *)
  pc_at : C → D → Z → nat → nat → option pc_entry;
  pc_ok : C → D → Prop;
  (** tensors the cache does not use *)
  pc_outside : C → Z → Prop;
  (** layers, heads and head dimension; how many tokens one append can take;
      blocks a sequence needs for [n] more tokens, free blocks *)
  pc_dims : C → nat * Z * Z;
  pc_fits : C → nat → Prop;
  pc_need : C → Z → nat → nat;
  pc_free : C → nat
}.

(** A sequence's tokens in a batch. *)
Record SequenceSlice := { sl_handle : Z; sl_token_ids : list Z; sl_positions : list Z }.

(** Keys or values of [n] tokens. *)
Definition kv_input {C D : Type} `{PagedCacheOps C D} (c : C) (d : D) (t : DeviceTensor) (n : nat) : Prop :=
  shape t = [Z.of_nat n; (pc_dims c).1.2; (pc_dims c).2] ∧ dtype t = FP16 ∧ t_valid d t ∧ pc_outside c (tensor_id t).

(** The cache computes the same of rows and entries in both states. *)
Definition same_codec {C D : Type} `{PagedCacheOps C D} (c : C) (d : D) (c' : C) (d' : D) : Prop :=
  (∀ l k v, pc_encode c' d' l k v = pc_encode c d l k v) ∧
  (∀ l nkv es q, pc_attend c' d' l nkv es q = pc_attend c d l nkv es q).

(** What does not change with the contents. *)
Definition same_layout_of {C D : Type} `{PagedCacheOps C D} (c c' : C) : Prop :=
  (∀ id, pc_outside c' id ↔ pc_outside c id) ∧ pc_dims c' = pc_dims c ∧ (∀ n, pc_fits c' n ↔ pc_fits c n).

Class PagedCacheLaws (C D : Type) `{PagedCacheOps C D} := {
  (** the cache depends on its own tensors only *)
  pc_frame c d d' :
    pc_ok c d → (∀ id, id ∈ b_live d → ¬ pc_outside c id → id ∈ b_live d' ∧ b_rows d' id = b_rows d id) →
    pc_ok c d' ∧ same_codec c d c d' ∧ ∀ h l pos, pc_at c d' h l pos = pc_at c d h l pos;
  (** a tensor that is not allocated is none of the cache's *)
  pc_fresh c d id : pc_ok c d → id ∉ b_live d → pc_outside c id;
  pc_append_spec c d h len layer keys values n :
    pc_ok c d → pc_seq_len h c = Ok len → layer < (pc_dims c).1.1 → kv_input c d keys n → kv_input c d values n → pc_fits c n →
    (layer = 0 → pc_need c h n ≤ pc_free c) → (layer ≠ 0 → n ≤ len) →
    let start := if bool_decide (layer = 0) then len else len - n in
    ∃ c' d', pc_append_kv h layer keys values (c, d) = ((c', d'), Ok ()) ∧ pc_ok c' d' ∧ b_live d' = b_live d ∧
      pc_seq_len h c' = Ok (start + n) ∧
      (∀ h', h' ≠ h → pc_seq_len h' c' = pc_seq_len h' c ∧ ∀ k, pc_need c' h' k = pc_need c h' k) ∧
      pc_free c' = pc_free c - (if bool_decide (layer = 0) then pc_need c h n else 0) ∧
      (∀ i k v, t_rows d keys !! i = Some k → t_rows d values !! i = Some v →
         pc_at c' d' h layer (start + i) = Some (pc_encode c d layer k v)) ∧
      (∀ h' len' l pos, pc_seq_len h' c = Ok len' → pos < len' → (h' = h → l = layer → pos < start) →
         pc_at c' d' h' l pos = pc_at c d h' l pos) ∧
      same_codec c d c' d' ∧ same_layout_of c c' ∧
      (∀ id, id ∈ b_live d → pc_outside c id → b_rows d' id = b_rows d id);
  pc_dispatch_spec c d q h len l kv_len start out nq es :
    pc_ok c d → pc_seq_len h c = Ok len → kv_len ≤ len → l < (pc_dims c).1.1 →
    t_valid d q → t_valid d out → tensor_id out ≠ tensor_id q → pc_outside c (tensor_id out) →
    shape q = [Z.of_nat (length (t_rows d q)); nq; (pc_dims c).2] → shape out = shape q →
    kv_len = start + length (t_rows d q) → length es = kv_len →
    (∀ pos, pos < kv_len → pc_at c d h l pos = es !! pos) →
    writes d [(out, imap (λ i r, pc_attend c d l (pc_dims c).1.2 (window start i es) r) (t_rows d q))]
      (pc_dispatch_attention c q h l (pc_dims c).1.2 kv_len start out d)
}.

(** ** The paged cache *)

(** [b as i32] *)
Definition as_i32 (n : nat) : Z :=
  let w := (Z.of_nat n `mod` 2 ^ 32)%Z in if (w <? 2 ^ 31)%Z then w else (w - 2 ^ 32)%Z.

Lemma as_i32_small n : (Z.of_nat n < 2 ^ 31)%Z → as_i32 n = Z.of_nat n.
Proof.
  intros Hn. unfold as_i32. rewrite Z.mod_small by lia. by rewrite (proj2 (Z.ltb_lt _ _)).
Qed.

Lemma rmapM_Forall2 {A B : Type} (f : A → result B) l ys : rmapM f l = Ok ys → Forall2 (λ x y, f x = Ok y) l ys.
Proof.
  revert ys. induction l as [|x l IH]; intros ys Hr; cbn [rmapM] in Hr; rinv; [constructor |]. constructor; auto.
Qed.

(** The tensors of all blocks, by block id. *)
Lemma all_blocks (dst : nat → result DeviceTensor) (cap : nat) :
  (∀ b, b < cap → ∃ t, dst b = Ok t) →
  ∃ ts, rmapM dst (seq 0 cap) = Ok ts ∧ (∀ b t, ts !! b = Some t ↔ b < cap ∧ dst b = Ok t) ∧
    ∀ t, t ∈ ts → ∃ b, dst b = Ok t.
Proof.
  intros Hdst. destruct (rmapM_total dst (λ _, True) (seq 0 cap)) as (ts & Hts & Hlen & _).
  { intros b [_ Hb]%elem_of_seq. destruct (Hdst b) as [t Ht]; [lia |]. eauto. }
  exists ts. rewrite length_seq in Hlen. pose proof (rmapM_Forall2 _ _ _ Hts) as Hf.
  assert (∀ b t, ts !! b = Some t ↔ b < cap ∧ dst b = Ok t) as Hlk.
  { intros b t. split.
    - intros Hb. apply lookup_lt_Some in Hb as Hlt. destruct (Forall2_lookup_r _ _ _ _ _ Hf Hb) as (x & Hx & Hd).
      apply lookup_seq in Hx as [-> _]. simpl in Hd. split; [lia | done].
    - intros [Hb Hd]. assert (seq 0 cap !! b = Some b) as Hs by (by apply lookup_seq_lt).
      destruct (Forall2_lookup_l _ _ _ _ _ Hf Hs) as (t' & Ht' & Hd'). congruence. }
  split_and!; [done | done |]. intros t [b Hb]%list_elem_of_lookup. apply Hlk in Hb as [_ Hb]. eauto.
Qed.

(** Reading through the table of [i32] block ids is reading through the block table. *)
Lemma gather_row_at {D : Type} `{BackendOps D} (d : D) (dst : nat → result DeviceTensor) cap ts (table : list nat) pos :
  (∀ b t, ts !! b = Some t ↔ b < cap ∧ dst b = Ok t) → (Z.of_nat cap < 2 ^ 31)%Z → (∀ b, b ∈ table → b < cap) →
  gather d (as_i32 <$> table) ts pos = row_at d dst table pos.
Proof.
  intros Hts Hcap Htab. unfold gather, row_at. rewrite list_lookup_fmap.
  destruct (table !! (pos `div` 16)) as [b|] eqn:Hb; [| done]. simpl.
  assert (b < cap) as Hbc by (by eapply Htab, list_elem_of_lookup_2). rewrite as_i32_small, Nat2Z.id by lia.
  destruct (dst b) as [t| |] eqn:Ht.
  - by rewrite (proj2 (Hts b t) (conj Hbc Ht)).
  - destruct (ts !! b) as [t|] eqn:E; [| done]. apply Hts in E as [_ E]. congruence.
  - destruct (ts !! b) as [t|] eqn:E; [| done]. apply Hts in E as [_ E]. congruence.
Qed.

Section paged.
Context {D : Type} `{KernelLaws D} `{!BackendLaws D}.
Implicit Types d : D.
Implicit Types m : PagedKvCacheManager.

Definition paged_dispatch_attention m (q_slice : DeviceTensor) (h : Z) (cache_idx : nat) (nkv : Z) (kv_len start_pos : nat)
    (out : DeviceTensor) : st D unit :=
  do! table := slift (tables_block_table h m) in
  let block_table_i32 := as_i32 <$> table in
  do! k_blocks := slift (rmapM (λ bid, k_tensor (pool m) bid cache_idx) (seq 0 (capacity (pool m)))) in
  do! v_blocks := slift (rmapM (λ bid, v_tensor (pool m) bid cache_idx) (seq 0 (capacity (pool m)))) in
  b_attention_paged q_slice block_table_i32 k_blocks v_blocks nkv kv_len start_pos out.

Definition paged_at m d (h : Z) (l pos : nat) : option (Row * Row) :=
  match k_at d m h l pos, v_at d m h l pos with Some k, Some v => Some (k, v) | _, _ => None end.

#[export] Instance PagedCache_ops : PagedCacheOps PagedKvCacheManager D := {|
  pc_seq_len := tables_seq_len;
  pc_append_kv := append_kv;
  pc_dispatch_attention := paged_dispatch_attention;
  pc_entry := Row * Row;
  pc_encode _ _ _ k v := (k, v);
  pc_attend _ _ _ nkv es q := k_attention nkv es.*1 es.*2 q;
  pc_at := paged_at;
  pc_ok m d := cache_ok d m ∧ (Z.of_nat (capacity (pool m)) < 2 ^ 31)%Z;
  pc_outside m id := ∀ u, u ∈ pool_tensors (pool m) → id ≠ tensor_id u;
  pc_dims m := (pool_num_layers (pool m), pool_num_kv_heads (pool m), pool_head_dim (pool m));
  pc_fits _ _ := True;
  pc_need m h n := match sequences m !! h with Some s => blocks_needed n (last_block_fill s) | None => 0 end;
  pc_free m := num_free_blocks m
|}.

Lemma paged_seq_len m h len : tables_seq_len h m = Ok len ↔ ∃ s, sequences m !! h = Some s ∧ current_len s = len.
Proof.
  unfold tables_seq_len, get_seq. destruct (sequences m !! h) as [s|]; simpl; [| naive_solver].
  split; [intros [= <-]; eauto | by intros (? & [= <-] & <-)].
Qed.

Lemma paged_frame m d d' :
  cache_ok d m → (∀ t, t ∈ pool_tensors (pool m) → tensor_id t ∈ b_live d' ∧ b_rows d' (tensor_id t) = b_rows d (tensor_id t)) →
  cache_ok d' m ∧ ∀ h s pos, kv_at d' m h s pos = kv_at d m h s pos.
Proof.
  intros [Hinv Hok] Hf. split.
  - split; [done |]. destruct Hok as [Hnd Hsh Hk Hv Hl]. split; [done | | done..].
    apply Forall_forall. intros t Ht. rewrite Forall_forall in Hsh. destruct (Hsh t Ht) as ([Hlive Hlen] & ? & ?).
    destruct (Hf t Ht) as [Hl' Hr]. split; [| done]. unfold t_valid, t_live, t_rows in *. by rewrite Hr.
  - intros h s pos. unfold kv_at. destruct (sequences m !! h) as [sb|]; [| done]. unfold row_at.
    destruct (block_table sb !! _) as [b|]; [| done]. destruct (kv_dst (pool m) s b) as [t| |] eqn:Ht; [| done..].
    apply kv_dst_in in Ht. unfold t_rows. by rewrite (proj2 (Hf t Ht)).
Qed.
(** One append, at layer 0 or above. *)
Lemma append_kv_Ok d m h s layer keys values n :
  cache_ok d m → sequences m !! h = Some s → layer < pool_num_layers (pool m) →
  kv_source d (pool m) keys n → kv_source d (pool m) values n →
  (layer = 0 → blocks_needed n (last_block_fill s) ≤ num_free_blocks m) → (layer ≠ 0 → n ≤ current_len s) →
  let start := if bool_decide (layer = 0) then current_len s else current_len s - n in
  ∃ m' d' s' fl, append_kv h layer keys values (m, d) = ((m', d'), Ok ()) ∧ cache_ok d' m' ∧ b_live d' = b_live d ∧
    m' = {| pool := set_free_list fl (pool m); sequences := <[h := s']> (sequences m); next_id := next_id m |} ∧
    current_len s' = start + n ∧
    length fl = num_free_blocks m - (if bool_decide (layer = 0) then blocks_needed n (last_block_fill s) else 0) ∧
    (∀ i, i < n → k_at d' m' h layer (start + i) = t_rows d keys !! i ∧ v_at d' m' h layer (start + i) = t_rows d values !! i) ∧
    (∀ h' sh l pos, sequences m !! h' = Some sh → pos < current_len sh → (h' = h → l = layer → pos < start) →
       same_kv d m d' m' h' l pos) ∧
    (∀ id, id ∈ b_live d → (∀ u, u ∈ pool_tensors (pool m) → id ≠ tensor_id u) → b_rows d' id = b_rows d id).
Proof.
  intros [Hinv Hok] Hs Hlayer Hk Hv Hneed Hlen start.
  assert (∃ m1 s1 fl, (if bool_decide (layer = 0) then reserve h n m else (m, Ok s)) = (m1, Ok s1) ∧ tables_inv m1 ∧
    m1 = {| pool := set_free_list fl (pool m); sequences := <[h := s1]> (sequences m); next_id := next_id m |} ∧
    current_len s1 = start + n ∧
    length fl = num_free_blocks m - (if bool_decide (layer = 0) then blocks_needed n (last_block_fill s) else 0) ∧
    (∃ extra, block_table s1 = block_table s ++ extra)) as (m1 & s1 & fl & Hres & Hinv1 & Hm1 & Hl1 & Hfl & Htab).
  { unfold start. case_bool_decide as Hl.
    - destruct (reserve_Ok m h s n Hinv Hs (Hneed Hl)) as (s1 & Hres & Htab & Hl1).
      pose proof (reserve_inv h n m Hinv) as Hinv1. rewrite Hres in Hinv1. simpl in Hinv1.
      eexists _, s1, _. split_and!; [exact Hres | done | done | done | | eauto]. rewrite length_drop. done.
    - exists m, s, (free_list (pool m)). split_and!; [done | done | | | unfold num_free_blocks; simpl; lia |].
      + rewrite insert_id by done. by destruct m as [[] ? ?].
      + specialize (Hlen Hl). lia.
      + exists []. by rewrite app_nil_r. }
  assert (cache_ok d m1) as Hok1 by (split; [done | rewrite Hm1; by apply pool_ok_set_free]).
  assert (sequences m1 !! h = Some s1) as Hs1 by (rewrite Hm1; apply lookup_insert_eq).
  assert (∀ t k, kv_source d (pool m) t k → kv_source d (pool m1) t k) as Hsrc1 by (rewrite Hm1; by intros t k [? ? ? ?]).
  destruct (append_write d m1 h s1 layer keys values n) as (d' & Hw & Hok' & Hnew & Hkept & _ & Hlive & Hother);
    [done | done | by rewrite Hm1 | by apply Hsrc1 | by apply Hsrc1 | lia |].
  replace (current_len s1 - n) with start in * by lia.
  exists m1, d', s1, fl. split_and!; try done.
  - unfold append_kv, get_seq. rewrite Hs, (src_shape _ _ _ _ Hk). cbn [index lookup list_lookup].
    rewrite Nat2Z.id, Hres, nsub_Ok by lia. replace (current_len s1 - n) with start by lia. by rewrite Hw.
  - intros h' sh l pos Hsh Hpos Hbefore.
    assert (same_kv d m d m1 h' l pos) as [E1 E2] by (rewrite Hm1; by eapply reserve_same_kv).
    assert (∃ sh1, sequences m1 !! h' = Some sh1) as [sh1 Hsh1].
    { rewrite Hm1. simpl. destruct (decide (h' = h)) as [->|]; [rewrite lookup_insert_eq | rewrite lookup_insert_ne by done]; eauto. }
    destruct (Hkept h' sh1 l pos Hsh1 Hbefore) as [E3 E4]. split; [by rewrite E3 | by rewrite E4].
  - intros id Hid Hout. apply Hother; [done |]. rewrite Hm1. done.
Qed.
Lemma paged_dispatch_Ok m d h sb l :
  cache_ok d m → (Z.of_nat (capacity (pool m)) < 2 ^ 31)%Z → sequences m !! h = Some sb → l < pool_num_layers (pool m) →
  ∃ kb vb, (∀ q nkv kv_len start out d', paged_dispatch_attention m q h l nkv kv_len start out d' =
       b_attention_paged q (as_i32 <$> block_table sb) kb vb nkv kv_len start out d') ∧
    (∀ t, t ∈ kb ++ vb → t ∈ pool_tensors (pool m)) ∧
    (∀ pos, gather d (as_i32 <$> block_table sb) kb pos = k_at d m h l pos) ∧
    (∀ pos, gather d (as_i32 <$> block_table sb) vb pos = v_at d m h l pos).
Proof.
  intros [Hinv Hok] Hcap Hs Hl.
  destruct (all_blocks (λ b, k_tensor (pool m) b l) (capacity (pool m))) as (kb & Hkb & Hklk & Hkin).
  { intros b Hb. by destruct (pool_ok_tensor d (pool m) b l Hok Hb Hl). }
  destruct (all_blocks (λ b, v_tensor (pool m) b l) (capacity (pool m))) as (vb & Hvb & Hvlk & Hvin).
  { intros b Hb. by destruct (pool_ok_tensor d (pool m) b l Hok Hb Hl). }
  assert (∀ b, b ∈ block_table sb → b < capacity (pool m)) as Htab.
  { intros b Hb. change (b < bs_capacity (pool m)). by eapply inv_sub. }
  exists kb, vb. split_and!.
  - intros q nkv kv_len start out d'. unfold paged_dispatch_attention, sbind, slift, tables_block_table, get_seq.
    rewrite Hs. simpl. by rewrite Hkb, Hvb.
  - intros t [(b & Ht)%Hkin|(b & Ht)%Hvin]%elem_of_app; [apply (kv_dst_in _ (KBlock, l) b) | apply (kv_dst_in _ (VBlock, l) b)]; done.
  - intros pos. rewrite (gather_row_at d (λ b, k_tensor (pool m) b l) (capacity (pool m))) by done.
    unfold k_at, kv_at. by rewrite Hs.
  - intros pos. rewrite (gather_row_at d (λ b, v_tensor (pool m) b l) (capacity (pool m))) by done.
    unfold v_at, kv_at. by rewrite Hs.
Qed.

#[export] Instance PagedCache_laws : PagedCacheLaws PagedKvCacheManager D.
Proof.
  split; unfold same_codec, same_layout_of, kv_input;
    cbn [pc_seq_len pc_append_kv pc_dispatch_attention pc_entry pc_encode pc_attend pc_at pc_ok pc_outside pc_dims pc_fits
         pc_need pc_free PagedCache_ops fst snd].
  - intros m d d' [Hok Hcap] Hf. destruct (paged_frame m d d' Hok) as [Hok' Hat].
    { intros t Ht. apply Hf; [| intros Hout; by apply (Hout t)].
      destruct Hok as [_ Hok]. by destruct (pool_ok_block d (pool m) t Hok Ht) as ([? _] & _). }
    split_and!; try done. intros h l pos. unfold paged_at, k_at, v_at. by rewrite !Hat.
  - intros m d id [[_ Hok] _] Hid u Hu ->. apply Hid. by destruct (pool_ok_block d (pool m) u Hok Hu) as ([? _] & _).
  - intros m d h len layer keys values n [Hok Hcap] (s & Hs & <-)%paged_seq_len Hlayer (Hks & Hkd & Hkv & Hko)
      (Hvs & Hvd & Hvv & Hvo) _ Hneed Hlen.
    rewrite Hs in Hneed |- *.
    destruct (append_kv_Ok d m h s layer keys values n) as (m' & d' & s' & fl & Happ & Hok' & Hlive & Hm' & Hlen' & Hfl & Hnew & Hkept & Hout);
      [done | done | done | by split | by split | done | done |].
    exists m', d'. rewrite Hm' in *. split_and!; try done.
    + apply paged_seq_len. exists s'. split; [apply lookup_insert_eq | done].
    + intros h' Hne. unfold tables_seq_len, get_seq. simpl. rewrite lookup_insert_ne by done. done.
    + intros i k v Hk Hv. unfold paged_at.
      assert (i < n) as Hi.
      { apply lookup_lt_Some in Hk. destruct Hkv as [_ Hkn]. rewrite Hkn in Hk. unfold nrows in Hk. rewrite Hks in Hk. simpl in Hk. lia. }
      destruct (Hnew i Hi) as [-> ->]. by rewrite Hk, Hv.
    + intros h' len' l pos (sh & Hsh & <-)%paged_seq_len Hpos Hb. unfold paged_at.
      by destruct (Hkept h' sh l pos Hsh Hpos Hb) as [-> ->].
  - intros m d q h len l kv_len start out nq es [Hok Hcap] (sb & Hs & <-)%paged_seq_len Hkl Hl Hq Hout Hne Hoo Hqs Hos Hkv Hes Hat.
    destruct (paged_dispatch_Ok m d h sb l Hok Hcap Hs Hl) as (kb & vb & Hrun & Hin & Hgk & Hgv).
    rewrite Hrun. pose proof Hok as [_ Hpool].
    assert (∀ pos, pos < kv_len → ∃ k v, es !! pos = Some (k, v) ∧ k_at d m h l pos = Some k ∧ v_at d m h l pos = Some v) as Hent.
    { intros pos Hpos. pose proof (Hat pos Hpos) as Ha. unfold paged_at in Ha.
      destruct (lookup_lt_is_Some_2 es pos) as [[k v] He]; [lia |]. rewrite He in Ha. exists k, v.
      destruct (k_at d m h l pos), (v_at d m h l pos); simplify_eq. done. }
    pose proof (k_attention_paged_spec d q (as_i32 <$> block_table sb) kb vb (pool_num_kv_heads (pool m)) kv_len start out
      (Z.of_nat (length (t_rows d q))) nq (pool_head_dim (pool m)) es.*1 es.*2) as Hspec.
    assert (∀ i (r : Row), k_attention (pool_num_kv_heads (pool m)) (window start i es).*1 (window start i es).*2 r =
      k_attention (pool_num_kv_heads (pool m)) (window start i es.*1) (window start i es.*2) r) as Hwin.
    { intros i r. unfold window. by rewrite !fmap_take. }
    erewrite imap_ext; [apply Hspec | intros i r _; simpl; apply Hwin]; try done; rewrite ?length_fmap; try done.
    + apply Forall_forall. intros t Ht. by destruct (pool_ok_block d (pool m) t Hpool (Hin t Ht)) as ([? _] & _).
    + intros (t & Heq & Ht)%list_elem_of_fmap. by apply (Hoo t (Hin t Ht)).
    + by rewrite Hos.
    + apply Forall_forall. intros t Ht. destruct (pool_ok_block d (pool m) t Hpool (Hin t Ht)) as (_ & Hsh & _). by rewrite Hsh.
    + intros pos Hpos. rewrite length_fmap in Hpos. rewrite Hgk, list_lookup_fmap.
      destruct (Hent pos) as (k & v & -> & -> & _); [lia |]. done.
    + intros pos Hpos. rewrite length_fmap in Hpos. rewrite Hgv, list_lookup_fmap.
      destruct (Hent pos) as (k & v & -> & _ & ->); [lia |]. done.
Qed.
End paged.

(** ** The quantized cache *)

Section quantized.
Context {D : Type} `{KernelLaws D} `{!BackendLaws D}.
Implicit Types d : D.
Implicit Types c : QuantizedKvCacheManager.
Notation qpool c := (pool (q_tables c)).

Definition tq_dispatch_attention c (q_slice : DeviceTensor) (h : Z) (cache_idx : nat) (nkv : Z) (kv_len start_pos : nat)
    (out : DeviceTensor) : st D unit :=
  let p := qpool c in
  let all part := rmapM (λ bid, q_tensor p part bid cache_idx) (seq 0 (q_capacity p)) in
  do! table := slift (tables_block_table h (q_tables c)) in
  let block_table_i32 := as_i32 <$> table in
  do! k_packed := slift (all KPacked) in
  do! k_norms := slift (all KNorms) in
  do! v_packed := slift (all VPacked) in
  do! v_norms := slift (all VNorms) in
  do! key_bits := slift (q_key_bits p cache_idx) in
  do! value_bits := slift (q_value_bits p cache_idx) in
  do! k_rot := slift (k_rotation p cache_idx) in
  do! v_rot := slift (v_rotation p cache_idx) in
  do! k_cent := slift (q_centroids p key_bits) in
  do! v_cent := slift (q_centroids p value_bits) in
  b_attention_paged_tq q_slice block_table_i32 k_packed k_norms v_packed v_norms k_rot v_rot k_cent v_cent
    key_bits value_bits nkv kv_len start_pos out.

(** Packed keys with their norms, packed values with theirs. *)
Definition tq_at c d (h : Z) (l pos : nat) : option ((Row * Row) * (Row * Row)) :=
  match q_at d c h (KPacked, l) pos, q_at d c h (KNorms, l) pos, q_at d c h (VPacked, l) pos, q_at d c h (VNorms, l) pos with
  | Some kp, Some kn, Some vp, Some vn => Some ((kp, kn), (vp, vn))
  | _, _, _, _ => None
  end.

Definition tq_encode c d (l : nat) (k v : Row) : (Row * Row) * (Row * Row) :=
  match codec (qpool c) KBlock l, codec (qpool c) VBlock l with
  | Ok ck, Ok cv => ((codec_row d KPacked ck k, codec_row d KNorms ck k), (codec_row d VPacked cv v, codec_row d VNorms cv v))
  | _, _ => (([], []), ([], []))
  end.

Definition codec_rows d (cd : Z * DeviceTensor * DeviceTensor) : list Row * list Row * Z :=
  (t_rows d cd.1.2, t_rows d cd.2, cd.1.1).
Definition tq_attend c d (l : nat) (nkv : Z) (es : list ((Row * Row) * (Row * Row))) (q : Row) : Row :=
  match codec (qpool c) KBlock l, codec (qpool c) VBlock l with
  | Ok ck, Ok cv => k_attention_tq nkv (codec_rows d ck) (codec_rows d cv) es.*1 es.*2 q
  | _, _ => []
  end.

(** Tensors outside the blocks, the scratch tensors and the codecs. *)
Definition tq_outside c (id : Z) : Prop :=
  q_outside c id ∧ ∀ s l bits rot cent, codec (qpool c) s l = Ok (bits, rot, cent) → id ≠ tensor_id rot ∧ id ≠ tensor_id cent.

#[export] Instance QuantizedCache_ops : PagedCacheOps QuantizedKvCacheManager D := {|
  pc_seq_len h c := tables_seq_len h (q_tables c);
  pc_append_kv := q_append_kv;
  pc_dispatch_attention := tq_dispatch_attention;
  pc_entry := (Row * Row) * (Row * Row);
  pc_encode := tq_encode;
  pc_attend := tq_attend;
  pc_at := tq_at;
  pc_ok c d := q_ok d c ∧ (∀ l, fills_scratch (qpool c) l) ∧ (Z.of_nat (q_capacity (qpool c)) < 2 ^ 31)%Z ∧
    (∀ s l, q_num_layers (qpool c) ≤ l → ∀ cd, codec (qpool c) s l ≠ Ok cd);
  pc_outside := tq_outside;
  pc_dims c := (q_num_layers (qpool c), q_num_kv_heads (qpool c), q_head_dim (qpool c));
  pc_fits c n := ∀ part, n ≤ nrows (sc_tensor (scratch c) part);
  pc_need c h n := match sequences (q_tables c) !! h with Some s => blocks_needed n (last_block_fill s) | None => 0 end;
  pc_free c := num_free_blocks (q_tables c)
|}.

Lemma tq_seq_len (t : CacheTables QuantizedBlockPool) h len :
  tables_seq_len h t = Ok len ↔ ∃ s, sequences t !! h = Some s ∧ current_len s = len.
Proof.
  unfold tables_seq_len, get_seq. destruct (sequences t !! h) as [s|]; simpl; [| naive_solver].
  split; [intros [= <-]; eauto | by intros (? & [= <-] & <-)].
Qed.

(** The codec depends on the rotations and centroids only. *)
Lemma tq_codec_same c d d' :
  (∀ s l bits rot cent, codec (qpool c) s l = Ok (bits, rot, cent) → t_rows d' rot = t_rows d rot ∧ t_rows d' cent = t_rows d cent) →
  same_codec c d c d'.
Proof.
  intros Hsame. unfold same_codec. cbn. split.
  - intros l k v. unfold tq_encode. destruct (codec (qpool c) KBlock l) as [[[kb kr] kc]| |] eqn:Ek; [| done..].
    destruct (codec (qpool c) VBlock l) as [[[vb vr] vc]| |] eqn:Ev; [| done..].
    destruct (Hsame _ _ _ _ _ Ek) as [E1 E2], (Hsame _ _ _ _ _ Ev) as [E3 E4]. by rewrite !(codec_row_frame d d').
  - intros l nkv es q. unfold tq_attend. destruct (codec (qpool c) KBlock l) as [[[kb kr] kc]| |] eqn:Ek; [| done..].
    destruct (codec (qpool c) VBlock l) as [[[vb vr] vc]| |] eqn:Ev; [| done..].
    destruct (Hsame _ _ _ _ _ Ek) as [E1 E2], (Hsame _ _ _ _ _ Ev) as [E3 E4]. unfold codec_rows. simpl.
    by rewrite E1, E2, E3, E4.
Qed.
(** A tensor of the cache. *)
Definition tq_inside c (t : DeviceTensor) : Prop :=
  (∃ s b, q_dst (qpool c) s b = Ok t) ∨ (∃ part, t = sc_tensor (scratch c) part) ∨
  ∃ s l bits rot cent, codec (qpool c) s l = Ok (bits, rot, cent) ∧ (t = rot ∨ t = cent).

Lemma tq_inside_not_outside c t : tq_inside c t → ¬ tq_outside c (tensor_id t).
Proof.
  intros [(s & b & Ht)|[[part ->]|(s & l & bits & rot & cent & Hc & Ht)]] [[Hb Hsc] Hcd].
  - by apply (Hb s b t).
  - by apply (Hsc part).
  - destruct (Hcd s l bits rot cent Hc). by destruct Ht as [-> | ->].
Qed.

Lemma tq_inside_live c d t : pc_ok c d → tq_inside c t → t_live d t.
Proof.
  cbn. intros (Hok & _ & _ & Hcut) [(s & b & Ht)|[[part ->]|(s & l & bits & rot & cent & Hc & Ht)]].
  - by destruct (so_valid _ _ _ d (qo_store d c Hok) s b t Ht) as [[? _] _].
  - by destruct (qo_scratch d c Hok part) as ([? _] & _).
  - assert (l < q_num_layers (qpool c)) as Hl.
    { destruct (decide (l < q_num_layers (qpool c))); [done |]. exfalso. eapply (Hcut s l); [lia | exact Hc]. }
    destruct (qo_codec d c Hok s l Hl) as (b' & r' & c' & Hc' & ? & ? & _). rewrite Hc in Hc'. simplify_eq.
    by destruct Ht as [-> | ->].
Qed.

Lemma tq_frame c d d' :
  pc_ok c d → (∀ t, tq_inside c t → t_live d' t ∧ t_rows d' t = t_rows d t) →
  pc_ok c d' ∧ same_codec c d c d' ∧ ∀ h s pos, q_at d' c h s pos = q_at d c h s pos.
Proof.
  intros Hpc Hf. pose proof Hpc as (Hok & Hfill & Hcap & Hcut). split_and!.
  - cbn. split_and!; try done. destruct Hok as [Htab Hst Hlay Hsc Hinj Hout Hcd]. split; try done.
    + destruct Hst as [Hd Hv Hi]. split; [done | | done]. intros s b t Ht. destruct (Hv s b t Ht) as [[_ Hn] H16].
      destruct (Hf t) as [Hl Hr]; [left; eauto |]. unfold t_valid. by rewrite Hr.
    + intros part. destruct (Hsc part) as ([_ Hn] & ? & ?). destruct (Hf (sc_tensor (scratch c) part)) as [Hl Hr]; [right; left; eauto |].
      unfold t_valid. by rewrite Hr.
    + intros s l Hl. destruct (Hcd s l Hl) as (bits & rot & cent & Hc & _ & _ & ? & ?). exists bits, rot, cent.
      split_and!; try done; apply Hf; right; right; eauto 10.
  - apply tq_codec_same. intros s l bits rot cent Hc. split; apply Hf; right; right; eauto 10.
  - intros h s pos. unfold q_at. destruct (sequences (q_tables c) !! h) as [sb|]; [| done]. unfold row_at.
    destruct (block_table sb !! _) as [b|]; [| done]. destruct (q_dst (qpool c) s b) as [t| |] eqn:Ht; [| done..].
    destruct (Hf t) as [_ Hr]; [left; eauto |]. by rewrite Hr.
Qed.

Lemma tq_dispatch_Ok c d h sb l :
  pc_ok c d → sequences (q_tables c) !! h = Some sb → l < q_num_layers (qpool c) →
  ∃ (ts : Part → list DeviceTensor) kb kr kc vb vr vc,
    codec (qpool c) KBlock l = Ok (kb, kr, kc) ∧ codec (qpool c) VBlock l = Ok (vb, vr, vc) ∧
    (∀ q nkv kv_len start out d', tq_dispatch_attention c q h l nkv kv_len start out d' =
       b_attention_paged_tq q (as_i32 <$> block_table sb) (ts KPacked) (ts KNorms) (ts VPacked) (ts VNorms) kr vr kc vc kb vb
         nkv kv_len start out d') ∧
    (∀ part t, t ∈ ts part → ∃ b, q_tensor (qpool c) part b l = Ok t) ∧
    (∀ part pos, gather d (as_i32 <$> block_table sb) (ts part) pos = q_at d c h (part, l) pos).
Proof.
  intros (Hok & _ & Hcap & _) Hs Hl.
  assert (∀ part, ∃ ts, rmapM (λ b, q_tensor (qpool c) part b l) (seq 0 (q_capacity (qpool c))) = Ok ts ∧
    (∀ b t, ts !! b = Some t ↔ b < q_capacity (qpool c) ∧ q_tensor (qpool c) part b l = Ok t) ∧
    ∀ t, t ∈ ts → ∃ b, q_tensor (qpool c) part b l = Ok t) as Hall.
  { intros part. apply all_blocks. intros b Hb. by apply (so_dst _ _ _ d (qo_store d c Hok) (part, l) b). }
  destruct (Hall KPacked) as (kp & Hkp & Lkp & Ikp), (Hall KNorms) as (kn & Hkn & Lkn & Ikn).
  destruct (Hall VPacked) as (vp & Hvp & Lvp & Ivp), (Hall VNorms) as (vn & Hvn & Lvn & Ivn).
  destruct (qo_codec d c Hok KBlock l Hl) as (kb & kr & kc & Hck & _), (qo_codec d c Hok VBlock l Hl) as (vb & vr & vc & Hcv & _).
  assert (∀ b, b ∈ block_table sb → b < q_capacity (qpool c)) as Htab.
  { intros b Hb. change (b < bs_capacity (qpool c)). by eapply (inv_sub _ h sb b (qo_tables d c Hok)). }
  exists (λ part, match part with KPacked => kp | KNorms => kn | VPacked => vp | VNorms => vn end), kb, kr, kc, vb, vr, vc.
  split_and!; [done | done | | by intros [] t Ht; eauto |].
  - pose proof (codec_Ok _ _ _ _ _ _ Hck) as (Hkb & Hkr & Hkc). pose proof (codec_Ok _ _ _ _ _ _ Hcv) as (Hvb & Hvr & Hvc).
    simpl in Hkb, Hvb. intros q nkv kv_len start out d'.
    unfold tq_dispatch_attention, sbind, slift, tables_block_table, get_seq, q_key_bits, q_value_bits.
    rewrite Hs. simpl. rewrite Hkp, Hkn, Hvp, Hvn, (proj2 (index_Ok _ _ _) Hkb), (proj2 (index_Ok _ _ _) Hvb).
    by rewrite Hkr, Hvr, Hkc, Hvc.
  - intros part pos. unfold q_at. rewrite Hs. change (q_dst (qpool c) (part, l)) with (λ b, q_tensor (qpool c) part b l).
    apply gather_row_at with (cap := q_capacity (qpool c)); [| done | done]. by destruct part.
Qed.

(** A cache that differs in its free list and its sequences only. *)
Lemma tq_tables_codec c m fl s l : pool m = q_set_free fl (qpool c) → codec (qpool (with_tables c m)) s l = codec (qpool c) s l.
Proof. intros Hp. unfold with_tables. cbn [q_tables]. rewrite Hp. by destruct s. Qed.

Lemma tq_tables_outside c m fl id : pool m = q_set_free fl (qpool c) → tq_outside (with_tables c m) id ↔ tq_outside c id.
Proof.
  intros Hp. unfold tq_outside, q_outside.
  assert (∀ s b, q_dst (qpool (with_tables c m)) s b = q_dst (qpool c) s b) as Hd.
  { intros s b. unfold with_tables. cbn [q_tables]. by rewrite Hp. }
  split; intros [[Hb Hsc] Hcd]; (split; [split; [intros s b t; specialize (Hb s b t) | done] | intros s l; specialize (Hcd s l)]).
  - by rewrite Hd in Hb.
  - by rewrite (tq_tables_codec c m fl s l Hp) in Hcd.
  - by rewrite Hd.
  - by rewrite (tq_tables_codec c m fl s l Hp).
Qed.

Lemma tq_same_codec c d d' m fl :
  pc_ok c d → pool m = q_set_free fl (qpool c) → (∀ id, id ∈ b_live d → q_outside c id → b_rows d' id = b_rows d id) →
  same_codec c d (with_tables c m) d'.
Proof.
  intros (Hok & _ & _ & Hcut) Hp Hf. destruct (tq_codec_same c d d') as [He Ha].
  { intros s l bits rot cent Hc. assert (l < q_num_layers (qpool c)) as Hl.
    { destruct (decide (l < q_num_layers (qpool c))); [done |]. exfalso. eapply (Hcut s l); [lia | exact Hc]. }
    destruct (qo_codec d c Hok s l Hl) as (b' & r' & c' & Hc' & ? & ? & ? & ?). rewrite Hc in Hc'. simplify_eq.
    split; by apply Hf. }
  split.
  - intros l k v. rewrite <- He. cbn [pc_encode QuantizedCache_ops]. unfold tq_encode. by rewrite !(tq_tables_codec c m fl).
  - intros l nkv es q. rewrite <- Ha. cbn [pc_attend QuantizedCache_ops]. unfold tq_attend. by rewrite !(tq_tables_codec c m fl).
Qed.

(** Four gathered rows make an entry. *)
Lemma tq_at_parts c d h l pos e :
  tq_at c d h l pos = Some e ↔
  q_at d c h (KPacked, l) pos = Some e.1.1 ∧ q_at d c h (KNorms, l) pos = Some e.1.2 ∧
  q_at d c h (VPacked, l) pos = Some e.2.1 ∧ q_at d c h (VNorms, l) pos = Some e.2.2.
Proof.
  unfold tq_at. destruct e as [[kp kn] [vp vn]]. simpl.
  destruct (q_at d c h (KPacked, l) pos), (q_at d c h (KNorms, l) pos), (q_at d c h (VPacked, l) pos),
    (q_at d c h (VNorms, l) pos); naive_solver.
Qed.

Lemma tq_dispatch_spec c d q h len l kv_len start out nq (es : list ((Row * Row) * (Row * Row))) :
  pc_ok c d → tables_seq_len h (q_tables c) = Ok len → kv_len ≤ len → l < q_num_layers (qpool c) →
  t_valid d q → t_valid d out → tensor_id out ≠ tensor_id q → tq_outside c (tensor_id out) →
  shape q = [Z.of_nat (length (t_rows d q)); nq; q_head_dim (qpool c)] → shape out = shape q →
  kv_len = start + length (t_rows d q) → length es = kv_len →
  (∀ pos, pos < kv_len → tq_at c d h l pos = es !! pos) →
  writes d [(out, imap (λ i r, tq_attend c d l (q_num_kv_heads (qpool c)) (window start i es) r) (t_rows d q))]
    (tq_dispatch_attention c q h l (q_num_kv_heads (qpool c)) kv_len start out d).
Proof.
  intros Hpc (sb & Hs & <-)%tq_seq_len Hkl Hl Hq Hout Hne Hoo Hqs Hos Hkv Hes Hat.
  destruct (tq_dispatch_Ok c d h sb l Hpc Hs Hl) as (ts & kb & kr & kc & vb & vr & vc & Hck & Hcv & Hrun & Hin & Hg).
  rewrite Hrun. pose proof Hpc as (Hok & _).
  assert (∀ pos e, pos < kv_len → es !! pos = Some e →
    q_at d c h (KPacked, l) pos = Some e.1.1 ∧ q_at d c h (KNorms, l) pos = Some e.1.2 ∧
    q_at d c h (VPacked, l) pos = Some e.2.1 ∧ q_at d c h (VNorms, l) pos = Some e.2.2) as Hent.
  { intros pos e Hpos He. apply tq_at_parts. by rewrite (Hat pos Hpos). }
  assert (∀ part (f : (Row * Row) * (Row * Row) → Row),
    (∀ pos e, pos < kv_len → es !! pos = Some e → q_at d c h (part, l) pos = Some (f e)) →
    gathers d (as_i32 <$> block_table sb) (ts part) (f <$> es)) as Hgath.
  { intros part f Hf pos Hpos. rewrite length_fmap in Hpos. rewrite Hg, list_lookup_fmap.
    destruct (lookup_lt_is_Some_2 es pos Hpos) as [e He]. rewrite He. simpl. apply Hf; [lia | done]. }
  pose proof (k_attention_paged_tq_spec d q (as_i32 <$> block_table sb) (ts KPacked) (ts KNorms) (ts VPacked) (ts VNorms)
    kr vr kc vc kb vb (q_num_kv_heads (qpool c)) kv_len start out (Z.of_nat (length (t_rows d q))) nq (q_head_dim (qpool c))
    ((λ e, e.1.1) <$> es) ((λ e, e.1.2) <$> es) ((λ e, e.2.1) <$> es) ((λ e, e.2.2) <$> es)) as Hspec.
  assert (∀ g : (Row * Row) * (Row * Row) → Row * Row, zip ((λ e, (g e).1) <$> es) ((λ e, (g e).2) <$> es) = g <$> es) as Hzip.
  { intros g. clear. induction es as [|e es IH]; [done |]. rewrite !fmap_cons. cbn [zip_with]. rewrite IH. by destruct (g e). }
  rewrite (Hzip fst), (Hzip snd) in Hspec.
  assert (∀ t, t ∈ ts KPacked ++ ts KNorms ++ ts VPacked ++ ts VNorms ++ [kr; vr; kc; vc] → tq_inside c t) as Hins.
  { intros t. rewrite !elem_of_app. intros [Ht|[Ht|[Ht|[Ht|Ht]]]];
      try (destruct (Hin _ _ Ht) as [b Hb]; left; eexists (_, l), b; exact Hb).
    right; right. apply list_elem_of_In in Ht. simpl in Ht. destruct Ht as [<-|[<-|[<-|[<-|[]]]]]; eauto 10. }
  assert (∀ part t bits, t ∈ ts part → layer_bits (qpool c) (side part) !! l = Some bits →
    tail (shape t) = [part_width (qpool c) part bits]) as Hshape.
  { intros part t bits Ht Hb. destruct (Hin _ _ Ht) as [b Hd]. by destruct (qo_layout d c Hok part l b t bits Hd Hb). }
  pose proof (proj1 (codec_Ok _ _ _ _ _ _ Hck)) as Hkb. pose proof (proj1 (codec_Ok _ _ _ _ _ _ Hcv)) as Hvb.
  erewrite imap_ext; [apply Hspec | intros i r _; simpl]; try done; rewrite ?length_fmap; try done.
  - apply Forall_forall. intros t Ht. by apply (tq_inside_live c d t Hpc), Hins.
  - intros (t & Heq & Ht)%list_elem_of_fmap. apply (tq_inside_not_outside c t (Hins t Ht)). by rewrite <- Heq.
  - by rewrite Hos.
  - apply Forall_forall. intros t Ht. exact (Hshape KPacked t kb Ht Hkb).
  - apply Forall_forall. intros t Ht. exact (Hshape VPacked t vb Ht Hvb).
  - apply Forall_forall. intros t [Ht|Ht]%elem_of_app; [exact (Hshape KNorms t kb Ht Hkb) | exact (Hshape VNorms t vb Ht Hvb)].
  - apply Hgath. intros pos e Hp He. by destruct (Hent pos e Hp He) as (? & ? & ? & ?).
  - apply Hgath. intros pos e Hp He. by destruct (Hent pos e Hp He) as (? & ? & ? & ?).
  - apply Hgath. intros pos e Hp He. by destruct (Hent pos e Hp He) as (? & ? & ? & ?).
  - apply Hgath. intros pos e Hp He. by destruct (Hent pos e Hp He) as (? & ? & ? & ?).
  - unfold tq_attend. rewrite Hck, Hcv. unfold window, codec_rows. by rewrite !fmap_take.
Qed.

#[export] Instance QuantizedCache_laws : PagedCacheLaws QuantizedKvCacheManager D.
Proof.
  split; [| | unfold kv_input, same_layout_of |];
    cbn [pc_seq_len pc_append_kv pc_dispatch_attention pc_entry pc_encode pc_attend pc_at pc_outside pc_dims pc_fits
         pc_need pc_free QuantizedCache_ops fst snd].
  - intros c d d' Hpc Hf. destruct (tq_frame c d d' Hpc) as (Hpc' & Hcd & Hat).
    { intros t Ht. apply Hf; [by apply (tq_inside_live c d t Hpc) | by apply tq_inside_not_outside]. }
    split_and!; [done | done |]. intros h l pos. unfold tq_at. by rewrite !Hat.
  - intros c d id Hpc Hid.
    assert (∀ t, tq_inside c t → id ≠ tensor_id t) as Hin by (intros t Ht ->; by apply Hid, (tq_inside_live c d t Hpc)).
    split; [split |].
    + intros s b t Ht. apply Hin. left. eauto.
    + intros part. apply Hin. right; left. eauto.
    + intros s l bits rot cent Hc. split; apply Hin; right; right; eauto 10.
  - intros c d h len layer keys values n Hpc (s & Hs & <-)%tq_seq_len Hlayer (Hks & Hkd & Hkv & Hko) (Hvs & Hvd & Hvv & Hvo) Hfits Hneed Hlen.
    pose proof Hpc as (Hok & Hfill & Hcap & Hcut).
    rewrite Hs in Hneed |- *.
    destruct (q_append_Ok d c h s layer keys values n)
      as (m & s1 & d' & Hrun & Hok' & Hlive & Hseq & Hl1 & [fl Hp] & Hfree & Hnew & Hkept & Hout);
      [done | done | done | split; [done | done | apply Hko | done] | split; [done | done | apply Hvo | done] | | apply Hfill |].
    { unfold q_ready. case_bool_decide; auto. }
    exists (with_tables c m), d'. unfold with_tables at 3 4 5 6 7 8. cbn [q_tables scratch].
    split_and!.
    + done.
    + cbn [pc_ok QuantizedCache_ops]. unfold with_tables at 2 3 4 5. cbn [q_tables]. rewrite Hp. done.
    + done.
    + apply tq_seq_len. exists s1. rewrite Hseq. split; [apply lookup_insert_eq | exact Hl1].
    + intros h' Hne. unfold tables_seq_len, get_seq. rewrite Hseq, lookup_insert_ne by done. done.
    + done.
    + intros i k v Hk Hv.
      assert (i < n) as Hi.
      { apply lookup_lt_Some in Hk. destruct Hkv as [_ Hkn]. rewrite Hkn in Hk. unfold nrows in Hk. rewrite Hks in Hk. simpl in Hk. lia. }
      destruct (qo_codec d c Hok KBlock layer Hlayer) as (kb & kr & kc & Hck & _), (qo_codec d c Hok VBlock layer Hlayer) as (vb & vr & vc & Hcv & _).
      apply tq_at_parts. change (if bool_decide (layer = 0) then current_len s else current_len s - n) with (q_start s layer n).
      rewrite !(Hnew _ i (kb, kr, kc)), !(Hnew _ i (vb, vr, vc)) by done. unfold q_input. simpl.
      rewrite Hk, Hv. unfold tq_encode. by rewrite Hck, Hcv.
    + intros h' len' l pos (sh & Hsh & <-)%tq_seq_len Hpos Hb. unfold tq_at. by rewrite !(Hkept h' sh).
    + by apply (tq_same_codec c d d' m fl).
    + intros id. by apply (tq_tables_outside c m fl).
    + cbn [with_tables q_tables]. by rewrite Hp.
    + done.
    + intros id Hid [Ho _]. by apply Hout.
  - exact tq_dispatch_spec.
Qed.
End quantized.
