(* ===== verification/BatchScheduler.v ===== *)
(** * The batch scheduler ([crates/fracture-engine/src/scheduler.rs])

    Iteration-level batching: [schedule] builds the batch of one forward pass
    (decodes first, then the next chunk of half-prefilled prompts, then new
    requests), allocating a cache sequence for each admitted request;
    [cleanup_completed] removes the sequences that are done.

    A client channel is known by its number; [closed] says which receivers are
    gone, and the events sent are a log.  The two iterations over the [active]
    map take their order as an argument. *)

From S2P Require Import Prelude F32 BlockTables PagedCache.

Inductive StopReason := Stop | Length.

Inductive GenerationEvent :=
  | Token (t : Z)
  | Finished (stop_reason : StopReason) (completion_tokens : nat)
  | EventError (msg : string).

Record PendingRequest := {
  req_seq_id : Z;
  prompt_tokens : list Z;
  req_max_tokens : nat;
  req_temperature : f32;
  req_top_k : nat;
  req_top_p : f32;
  req_seed : option Z;
  req_stop_tokens : list Z;
  req_event_tx : Z
}.

Record ActiveSequence := {
  seq_id : Z;
  handle : Z;
  max_tokens : nat;
  temperature : f32;
  top_k : nat;
  top_p : f32;
  seed : option Z;
  stop_tokens : list Z;
  current_pos : nat;
  generated_tokens : list Z;
  event_tx : Z;
  remaining_prefill : list Z
}.

Record PrefillJob := {
  pf_seq_id : Z; pf_token_ids : list Z; pf_positions : list Z; pf_handle : Z
}.
Record DecodeJob := {
  dj_seq_id : Z; dj_token_id : Z; dj_position : Z; dj_handle : Z
}.
Record SchedulerDecision := {
  prefills : list PrefillJob; decodes : list DecodeJob; total_tokens : nat
}.

Record BatchScheduler := {
  prefill_queue : list PendingRequest;
  active : gmap Z ActiveSequence;
  max_batch_size : nat;
  max_batch_tokens : nat;
  max_prefill_tokens : nat;
  block_pool_reserve : f32;
  next_seq_id : Z
}.

Definition scheduler_new (mbs mbt mpt : nat) (reserve : f32) : BatchScheduler :=
  {| prefill_queue := []; active := ∅; max_batch_size := mbs; max_batch_tokens := mbt;
     max_prefill_tokens := mpt; block_pool_reserve := reserve; next_seq_id := 0 |}.

Definition set_queue (q : list PendingRequest) (b : BatchScheduler) : BatchScheduler :=
  {| prefill_queue := q; active := active b; max_batch_size := max_batch_size b;
     max_batch_tokens := max_batch_tokens b; max_prefill_tokens := max_prefill_tokens b;
     block_pool_reserve := block_pool_reserve b; next_seq_id := next_seq_id b |}.
Definition set_active (a : gmap Z ActiveSequence) (b : BatchScheduler) : BatchScheduler :=
  {| prefill_queue := prefill_queue b; active := a; max_batch_size := max_batch_size b;
     max_batch_tokens := max_batch_tokens b; max_prefill_tokens := max_prefill_tokens b;
     block_pool_reserve := block_pool_reserve b; next_seq_id := next_seq_id b |}.

(** [next_seq_id] *)
Definition take_seq_id : st BatchScheduler Z := λ b,
  match uadd (next_seq_id b) 1 with
  | Ok n => ({| prefill_queue := prefill_queue b; active := active b; max_batch_size := max_batch_size b;
                max_batch_tokens := max_batch_tokens b; max_prefill_tokens := max_prefill_tokens b;
                block_pool_reserve := block_pool_reserve b; next_seq_id := n |}, Ok (next_seq_id b))
  | _ => (b, Panic)
  end.

Definition enqueue (r : PendingRequest) (b : BatchScheduler) : BatchScheduler :=
  set_queue (prefill_queue b ++ [r]) b.

Definition empty_decision : SchedulerDecision := {| prefills := []; decodes := []; total_tokens := 0 |}.

Definition batch_len (dec : SchedulerDecision) : nat := length (decodes dec) + length (prefills dec).

Definition push_decode (j : DecodeJob) (dec : SchedulerDecision) : SchedulerDecision :=
  {| prefills := prefills dec; decodes := decodes dec ++ [j]; total_tokens := total_tokens dec + 1 |}.
Definition push_prefill (j : PrefillJob) (n : nat) (dec : SchedulerDecision) : SchedulerDecision :=
  {| prefills := prefills dec ++ [j]; decodes := decodes dec; total_tokens := total_tokens dec + n |}.

(** [(start..start + n).map(|p| p as u32)] *)
Definition positions_from (start n : nat) : list Z := (λ p, wrap 32 (Z.of_nat p)) <$> seq start n.

Section schedule.
Variable closed : Z → bool.

(** 1. all active decodes *)
Fixpoint decode_loop (b : BatchScheduler) (ids : list Z) (dec : SchedulerDecision) : SchedulerDecision :=
  match ids with
  | [] => dec
  | id :: ids' =>
      if bool_decide (max_batch_size b ≤ batch_len dec) then dec
      else if bool_decide (max_batch_tokens b ≤ total_tokens dec) then dec
      else match active b !! id with
           | None => decode_loop b ids' dec
           | Some s =>
               if closed (event_tx s) then decode_loop b ids' dec
               else
                 let last_token := default 0%Z (last (generated_tokens s)) in
                 decode_loop b ids'
                   (push_decode {| dj_seq_id := id; dj_token_id := last_token;
                                   dj_position := wrap 32 (Z.of_nat (current_pos s));
                                   dj_handle := handle s |} dec)
           end
  end.

(** Room left in the batch for prefill tokens, [None] when the loop breaks. *)
Definition prefill_room (b : BatchScheduler) (dec : SchedulerDecision) (pft : nat) : option nat :=
  if bool_decide (max_batch_size b ≤ batch_len dec) then None
  else
    let remaining_batch_cap := max_batch_tokens b - total_tokens dec in
    let remaining_prefill_cap := max_prefill_tokens b - pft in
    if bool_decide (remaining_batch_cap = 0 ∨ remaining_prefill_cap = 0) then None
    else Some (remaining_batch_cap `min` remaining_prefill_cap).

(** The sequence after [remaining_prefill.drain(..n)]. *)
Definition advance_prefill (s : ActiveSequence) (n : nat) : ActiveSequence :=
  {| seq_id := seq_id s; handle := handle s; max_tokens := max_tokens s; temperature := temperature s;
     top_k := top_k s; top_p := top_p s; seed := seed s; stop_tokens := stop_tokens s;
     current_pos := current_pos s + n; generated_tokens := generated_tokens s; event_tx := event_tx s;
     remaining_prefill := drop n (remaining_prefill s) |}.

(** 2. chunks of partially-prefilled sequences *)
Fixpoint chunk_loop (b : BatchScheduler) (ids : list Z) (dec : SchedulerDecision) (pft : nat)
    : BatchScheduler * SchedulerDecision * nat :=
  match ids with
  | [] => (b, dec, pft)
  | id :: ids' =>
      match prefill_room b dec pft with
      | None => (b, dec, pft)
      | Some room =>
          match active b !! id with
          | None => chunk_loop b ids' dec pft
          | Some s =>
              let chunk_size := length (remaining_prefill s) `min` room in
              let chunk := take chunk_size (remaining_prefill s) in
              let job := {| pf_seq_id := id; pf_token_ids := chunk;
                            pf_positions := positions_from (current_pos s) (length chunk);
                            pf_handle := handle s |} in
              chunk_loop (set_active (<[id := advance_prefill s (length chunk)]> (active b)) b) ids'
                (push_prefill job chunk_size dec) (pft + chunk_size)
          end
      end
  end.

(** The sequence a request becomes. *)
Definition activate (r : PendingRequest) (h : Z) (chunk_size : nat) (remaining : list Z) : ActiveSequence :=
  {| seq_id := req_seq_id r; handle := h; max_tokens := req_max_tokens r;
     temperature := req_temperature r; top_k := req_top_k r; top_p := req_top_p r; seed := req_seed r;
     stop_tokens := req_stop_tokens r; current_pos := chunk_size; generated_tokens := [];
     event_tx := req_event_tx r; remaining_prefill := remaining |}.

Definition send (log : list (Z * GenerationEvent)) (tx : Z) (e : GenerationEvent) : list (Z * GenerationEvent) :=
  if closed tx then log else log ++ [(tx, e)].

(** 3. admission; [free_blocks] and [reserved_blocks] were read before the loops. *)
Fixpoint admit_loop (b : BatchScheduler) (queue : list PendingRequest) (free_blocks reserved_blocks : nat)
    (cache : PagedKvCacheManager) (dec : SchedulerDecision) (pft : nat) (log : list (Z * GenerationEvent))
    : BatchScheduler * PagedKvCacheManager * list (Z * GenerationEvent) * result SchedulerDecision :=
  match queue with
  | [] => (set_queue [] b, cache, log, Ok dec)
  | req :: queue' =>
      match prefill_room b dec pft with
      | None => (set_queue queue b, cache, log, Ok dec)
      | Some room =>
          let prompt_len := length (prompt_tokens req) in
          let blocks_needed := div_ceil prompt_len 16 in
          let available := free_blocks - reserved_blocks in
          if bool_decide (available < blocks_needed) then (set_queue queue b, cache, log, Ok dec)
          else
            match paged_alloc cache with
            | (cache, Err _) =>
                admit_loop b queue' free_blocks reserved_blocks cache dec pft
                  (send log (req_event_tx req) (EventError "cache allocation failed"))
            | (cache, Panic) => (set_queue queue' b, cache, log, Panic)
            | (cache, Ok h) =>
                let chunk_size := prompt_len `min` room in
                let '(chunk, remaining) :=
                  if bool_decide (chunk_size < prompt_len)
                  then (take chunk_size (prompt_tokens req), drop chunk_size (prompt_tokens req))
                  else (prompt_tokens req, []) in
                let job := {| pf_seq_id := req_seq_id req; pf_token_ids := chunk;
                              pf_positions := positions_from 0 (length chunk); pf_handle := h |} in
                admit_loop
                  (set_active (<[req_seq_id req := activate req h chunk_size remaining]> (active b)) b)
                  queue' free_blocks reserved_blocks cache (push_prefill job chunk_size dec)
                  (pft + chunk_size) log
            end
      end
  end.

(** [(pool_capacity as f32 * self.block_pool_reserve).ceil() as usize] *)
Definition reserved_blocks_of (b : BatchScheduler) (cache : PagedKvCacheManager) : nat :=
  Z.to_nat (f32_to_usize (f32_ceil (f32_mul (f32_of_Z (Z.of_nat (capacity (pool cache))))
                                            (block_pool_reserve b)))).

(** The ids of the active sequences that satisfy [f], in the map's order. *)
Definition active_ids (ho : HashOrder) (f : ActiveSequence → bool) (b : BatchScheduler) : list Z :=
  seq_id <$> filter f (hm_values ho (active b)).

Definition is_prefilled (s : ActiveSequence) : bool := bool_decide (remaining_prefill s = []).

Definition schedule (ho1 ho2 : HashOrder) (b : BatchScheduler) (cache : PagedKvCacheManager)
    : BatchScheduler * PagedKvCacheManager * list (Z * GenerationEvent) * result SchedulerDecision :=
  let reserved_blocks := reserved_blocks_of b cache in
  let free_blocks := num_free_blocks cache in
  let dec := decode_loop b (active_ids ho1 is_prefilled b) empty_decision in
  let '(b, dec, pft) := chunk_loop b (active_ids ho2 (λ s, negb (is_prefilled s)) b) dec 0 in
  admit_loop b (prefill_queue b) free_blocks reserved_blocks cache dec pft [].

(** ** [cleanup_completed] *)

Definition finished_reason (s : ActiveSequence) : option StopReason :=
  if bool_decide (max_tokens s ≤ length (generated_tokens s)) then Some Length
  else match last (generated_tokens s) with
       | Some t => if bool_decide (t ∈ stop_tokens s) then Some Stop else None
       | None => None
       end.

Fixpoint cleanup_loop (l : list (Z * ActiveSequence)) (to_remove : list (Z * Z))
    (log : list (Z * GenerationEvent)) : list (Z * Z) * list (Z * GenerationEvent) :=
  match l with
  | [] => (to_remove, log)
  | (id, s) :: l' =>
      match finished_reason s with
      | Some reason =>
          cleanup_loop l' (to_remove ++ [(id, handle s)])
            (send log (event_tx s) (Finished reason (length (generated_tokens s))))
      | None =>
          if closed (event_tx s) then cleanup_loop l' (to_remove ++ [(id, handle s)]) log
          else cleanup_loop l' to_remove log
      end
  end.

Definition cleanup_completed (ho : HashOrder) (b : BatchScheduler)
    : BatchScheduler * list (Z * GenerationEvent) * list (Z * Z) :=
  let '(to_remove, log) := cleanup_loop (hm_iter ho (active b)) [] [] in
  (set_active (foldl (λ a kv, delete kv.1 a) (active b) to_remove) b, log, to_remove).
End schedule.

Definition has_work (b : BatchScheduler) : bool :=
  negb (bool_decide (prefill_queue b = [])) || negb (bool_decide (active b = ∅)).
Definition num_active (b : BatchScheduler) : nat := size (active b).
Definition num_pending (b : BatchScheduler) : nat := length (prefill_queue b).

(** ** Batch limits *)

Definition prefill_tokens (dec : SchedulerDecision) : nat :=
  sum_list ((λ j, length (pf_token_ids j)) <$> prefills dec).

Lemma sum_list_fmap_app {A : Type} (f : A → nat) (l1 l2 : list A) :
  sum_list (f <$> l1 ++ l2) = sum_list (f <$> l1) + sum_list (f <$> l2).
Proof. induction l1; csimpl; lia. Qed.

Record within_limits (b : BatchScheduler) (dec : SchedulerDecision) : Prop := {
  lim_size : batch_len dec ≤ max_batch_size b;
  lim_tokens : total_tokens dec ≤ max_batch_tokens b;
  lim_prefill : prefill_tokens dec ≤ max_prefill_tokens b;
  lim_total : total_tokens dec = length (decodes dec) + prefill_tokens dec
}.

Definition same_limits (b b' : BatchScheduler) : Prop :=
  max_batch_size b' = max_batch_size b ∧ max_batch_tokens b' = max_batch_tokens b ∧
  max_prefill_tokens b' = max_prefill_tokens b.

Lemma within_limits_same b b' dec : same_limits b b' → within_limits b' dec → within_limits b dec.
Proof. intros (E1 & E2 & E3) [? ? ? ?]. split; congruence. Qed.

Lemma within_limits_decode b dec j :
  within_limits b dec → batch_len dec < max_batch_size b → total_tokens dec < max_batch_tokens b →
  within_limits b (push_decode j dec).
Proof.
  intros [? ? ? ?] ? ?. split; unfold batch_len, push_decode, prefill_tokens in *; simpl in *;
    rewrite ?length_app; simpl; lia.
Qed.

Lemma prefill_room_Some b dec pft room :
  prefill_room b dec pft = Some room →
  batch_len dec < max_batch_size b ∧ 0 < room ∧ total_tokens dec + room ≤ max_batch_tokens b ∧
  pft + room ≤ max_prefill_tokens b.
Proof.
  unfold prefill_room. repeat case_bool_decide; intros [= <-]. lia.
Qed.

Lemma within_limits_prefill b dec j room :
  within_limits b dec → prefill_room b dec (prefill_tokens dec) = Some room →
  length (pf_token_ids j) ≤ room →
  within_limits b (push_prefill j (length (pf_token_ids j)) dec) ∧
  prefill_tokens (push_prefill j (length (pf_token_ids j)) dec)
    = prefill_tokens dec + length (pf_token_ids j).
Proof.
  intros [? ? ? ?] (? & ? & ? & ?)%prefill_room_Some Hj.
  assert (prefill_tokens (push_prefill j (length (pf_token_ids j)) dec)
          = prefill_tokens dec + length (pf_token_ids j)) as Hp.
  { unfold prefill_tokens. simpl. rewrite sum_list_fmap_app. simpl. lia. }
  split; [| done]. split; [| | lia |]; rewrite ?Hp; simpl; [| lia | lia].
  unfold batch_len in *. simpl. rewrite length_app. simpl. lia.
Qed.

Section loops.
Variable closed : Z → bool.

Lemma decode_loop_limits b ids dec :
  within_limits b dec → within_limits b (decode_loop closed b ids dec) ∧
  prefills (decode_loop closed b ids dec) = prefills dec.
Proof.
  revert dec. induction ids as [|id ids IH]; intros dec Hw; simpl; [done |].
  repeat case_bool_decide; [done | done |].
  destruct (active b !! id) as [s|]; [| by apply IH]. destruct (closed (event_tx s)); [by apply IH |].
  set (dec1 := push_decode _ dec). destruct (IH dec1) as [? ->]; [| done].
  apply within_limits_decode; [done | lia | lia].
Qed.

Lemma chunk_loop_limits b ids dec :
  within_limits b dec →
  let '(b', dec', pft') := chunk_loop b ids dec (prefill_tokens dec) in
  same_limits b b' ∧ prefill_queue b' = prefill_queue b ∧ within_limits b' dec' ∧
  pft' = prefill_tokens dec' ∧ decodes dec' = decodes dec.
Proof.
  revert b dec. induction ids as [|id ids IH]; intros b dec Hw; simpl; [done |].
  destruct (prefill_room b dec (prefill_tokens dec)) as [room|] eqn:Hroom; [| done].
  destruct (active b !! id) as [s|] eqn:Hs; [| by apply IH].
  set (n := length (remaining_prefill s) `min` room).
  set (j := {| pf_seq_id := id |}).
  assert (length (pf_token_ids j) = n) as Hlen by (simpl; rewrite length_take; lia).
  destruct (within_limits_prefill b dec j room) as [Hw' Hp]; [done | done | lia |].
  rewrite Hlen in Hw', Hp. rewrite <- Hp.
  set (b1 := set_active _ b).
  specialize (IH b1 (push_prefill j n dec)). 
  destruct (chunk_loop b1 ids _ _) as [[b' dec'] pft']. apply IH. by destruct Hw'.
Qed.

Lemma admit_loop_limits b queue fb rb cache dec log b' cache' log' dec' :
  within_limits b dec →
  admit_loop closed b queue fb rb cache dec (prefill_tokens dec) log = (b', cache', log', Ok dec') →
  same_limits b b' ∧ within_limits b' dec'.
Proof.
  revert b cache dec log. induction queue as [|r queue IH]; intros b cache dec log Hw; simpl.
  { intros [= <- <- <- <-]. split; [done | by destruct Hw]. }
  destruct (prefill_room b dec (prefill_tokens dec)) as [room|] eqn:Hroom.
  2: { intros [= <- <- <- <-]. split; [done | by destruct Hw]. }
  case_bool_decide. { intros [= <- <- <- <-]. split; [done | by destruct Hw]. }
  destruct (paged_alloc cache) as [cache1 [h|e|]]; [| by apply IH | done].
  set (n := length (prompt_tokens r) `min` room).
  destruct (if bool_decide (n < length (prompt_tokens r)) then _ else _) as [chunk rem] eqn:Hchunk.
  set (j := {| pf_seq_id := req_seq_id r |}).
  assert (length (pf_token_ids j) = n) as Hlen.
  { simpl. case_bool_decide; simplify_eq; [rewrite length_take | ]; lia. }
  destruct (within_limits_prefill b dec j room) as [Hw' Hp]; [done | done | lia |].
  rewrite Hlen in Hw', Hp. rewrite <- Hp. intros Hrec.
  apply IH in Hrec; [done |]. by destruct Hw'.
Qed.
End loops.

(** C29: every batch [schedule] returns respects the three limits of the
    scheduler (sequences, tokens, prefill tokens), and its token count is one
    per decode plus the tokens of its prefill jobs. *)
Theorem schedule_within_limits closed ho1 ho2 b cache b' cache' log dec :
  schedule closed ho1 ho2 b cache = (b', cache', log, Ok dec) →
  length (decodes dec) + length (prefills dec) ≤ max_batch_size b ∧
  total_tokens dec ≤ max_batch_tokens b ∧
  prefill_tokens dec ≤ max_prefill_tokens b ∧
  total_tokens dec = length (decodes dec) + prefill_tokens dec.
Proof.
  unfold schedule. set (dec1 := decode_loop _ _ _ _).
  assert (within_limits b empty_decision) as H0 by (split; unfold batch_len, prefill_tokens; simpl; lia).
  destruct (decode_loop_limits closed b (active_ids ho1 is_prefilled b) _ H0) as [H1 Hp]. fold dec1 in H1, Hp.
  pose proof (chunk_loop_limits b (active_ids ho2 (λ s, negb (is_prefilled s)) b) dec1 H1) as H2.
  assert (prefill_tokens dec1 = 0) as Hpt by (unfold prefill_tokens; by rewrite Hp). rewrite Hpt in H2.
  destruct (chunk_loop _ _ _ _) as [[b1 dec2] pft]. destruct H2 as (Hs1 & _ & Hw2 & -> & _).
  intros [Hs2 Hw3]%admit_loop_limits; [| done].
  destruct (within_limits_same b b' dec) as [? ? ? ?]; [| done | done].
  destruct Hs1 as (? & ? & ?), Hs2 as (? & ? & ?). repeat split; congruence.
Qed.

(** ** What the jobs of a batch are *)

(** The active map is keyed by sequence id. *)
Definition keyed (a : gmap Z ActiveSequence) : Prop := ∀ k s, a !! k = Some s → seq_id s = k.

(** Requests in the queue have different ids, none of them active. *)
Record sched_wf (b : BatchScheduler) : Prop := {
  wf_keyed : keyed (active b);
  wf_queue : NoDup (req_seq_id <$> prefill_queue b);
  wf_fresh : ∀ r, r ∈ prefill_queue b → active b !! req_seq_id r = None
}.

(** A prefill job continues a half-prefilled sequence of [b0], or starts a
    request of its queue: the job's tokens are the next ones of the prompt, at
    the positions that follow what was already prefilled, and the sequence in
    [a] is left with the rest. *)
Definition prefill_job_ok (b0 : BatchScheduler) (a : gmap Z ActiveSequence) (j : PrefillJob) : Prop :=
  ∃ s' start, a !! pf_seq_id j = Some s' ∧ pf_handle j = handle s' ∧
    pf_positions j = positions_from start (length (pf_token_ids j)) ∧
    current_pos s' = start + length (pf_token_ids j) ∧
    ((∃ s, active b0 !! pf_seq_id j = Some s ∧ start = current_pos s ∧ remaining_prefill s ≠ [] ∧
           remaining_prefill s = pf_token_ids j ++ remaining_prefill s') ∨
     (∃ r, r ∈ prefill_queue b0 ∧ req_seq_id r = pf_seq_id j ∧ start = 0 ∧
           prompt_tokens r = pf_token_ids j ++ remaining_prefill s')).

(** During the loops: the ids [ids] are still to be looked at. *)
Record loop_inv (b0 : BatchScheduler) (a : gmap Z ActiveSequence) (ids : list Z) (dec : SchedulerDecision)
    : Prop := {
  li_keyed : keyed a;
  li_jobs : Forall (prefill_job_ok b0 a) (prefills dec);
  li_nodup : NoDup ((pf_seq_id <$> prefills dec) ++ ids);
  li_same : ∀ id, id ∈ ids → a !! id = active b0 !! id
}.

Lemma loop_inv_skip b0 a id ids dec : loop_inv b0 a (id :: ids) dec → loop_inv b0 a ids dec.
Proof.
  intros [Hk Hj Hn Hs]. split; [done | done | |].
  - apply NoDup_app in Hn as (? & Hd & [_ ?]%NoDup_cons). apply NoDup_app. split_and!; [done | | done].
    intros x Hx Hin. apply (Hd x Hx). by right.
  - intros x Hx. apply Hs. by right.
Qed.

Lemma loop_inv_drop b0 a ids1 ids2 dec : loop_inv b0 a (ids1 ++ ids2) dec → loop_inv b0 a ids2 dec.
Proof. induction ids1; simpl; eauto using loop_inv_skip. Qed.

Lemma loop_inv_push b0 a id ids dec j n s' :
  loop_inv b0 a (id :: ids) dec → pf_seq_id j = id → seq_id s' = id →
  prefill_job_ok b0 (<[id := s']> a) j →
  loop_inv b0 (<[id := s']> a) ids (push_prefill j n dec).
Proof.
  intros [Hk Hj Hn Hs] Hid Hs' Hok.
  apply NoDup_app in Hn as (Hn1 & Hd & [Hid2 Hn2]%NoDup_cons).
  assert (id ∉ pf_seq_id <$> prefills dec) as Hid1 by (intros Hin; apply (Hd id Hin); left).
  split; simpl.
  - intros k s [[<- <-]|[_ Hl]]%lookup_insert_Some; [done | by apply Hk].
  - apply Forall_app. split; [| by forall_list]. apply Forall_forall. intros j' Hj'.
    rewrite Forall_forall in Hj. destruct (Hj j' Hj') as (sj & start & Hlook & Hrest).
    exists sj, start. split; [| done]. rewrite lookup_insert_ne; [done |]. intros ->.
    apply Hid1, list_elem_of_fmap. eauto.
  - rewrite fmap_app. simpl. rewrite Hid, <- app_assoc. apply NoDup_app. split_and!; [done | |].
    + intros x Hx [->|Hin]%elem_of_cons; [done |]. apply (Hd x Hx). by right.
    + by constructor.
  - intros x Hx. rewrite lookup_insert_ne; [apply Hs; by right |]. by intros ->.
Qed.

Lemma chunk_loop_inv b0 b ids qids dec pft :
  loop_inv b0 (active b) (ids ++ qids) dec →
  (∀ id, id ∈ ids → ∃ s, active b0 !! id = Some s ∧ remaining_prefill s ≠ []) →
  let '(b', dec', _) := chunk_loop b ids dec pft in
  loop_inv b0 (active b') qids dec' ∧ prefill_queue b' = prefill_queue b ∧
  (∀ k, handle <$> active b' !! k = handle <$> active b !! k) ∧ decodes dec' = decodes dec.
Proof.
  revert b dec pft. induction ids as [|id ids IH]; intros b dec pft Hinv Hids; simpl; [done |].
  destruct (prefill_room b dec pft) as [room|]; [| by split; [eapply (loop_inv_drop _ _ (id :: ids)) |]].
  destruct (Hids id) as (s0 & Hs0 & Hne); [left |].
  rewrite (li_same _ _ _ _ Hinv id) by left. rewrite Hs0.
  set (n := length (remaining_prefill s0) `min` room).
  assert (length (take n (remaining_prefill s0)) = n) as Hlen by (rewrite length_take; lia). rewrite Hlen.
  set (s' := advance_prefill s0 n). set (j := {| pf_seq_id := id |}).
  assert (active b !! id = Some s0) as Hb
    by (by rewrite (li_same _ _ _ _ Hinv id) by left).
  assert (loop_inv b0 (<[id := s']> (active b)) (ids ++ qids) (push_prefill j n dec)) as Hinv'.
  { apply loop_inv_push; [done | done | exact (li_keyed _ _ _ _ Hinv id s0 Hb) |].
    exists s', (current_pos s0). simpl. rewrite lookup_insert_eq, Hlen. split_and!; try done.
    left. exists s0. split_and!; try done. by rewrite take_drop. }
  set (b1 := set_active _ b). specialize (IH b1 (push_prefill j n dec) (pft + n) Hinv').
  destruct (chunk_loop b1 ids _ _) as [[b' dec'] pft']. destruct IH as (HA & HB & HC & HD).
  { intros id' Hid'. apply Hids. by right. }
  split_and!; [done | done | | done]. intros k. rewrite HC. simpl.
  destruct (decide (k = id)) as [->|]; [| by rewrite lookup_insert_ne].
  by rewrite lookup_insert_eq, Hb.
Qed.

(** ** Cache handles *)

(** The cache holds exactly the sequences of the active map, one each. *)
Record cache_link (a : gmap Z ActiveSequence) (cache : PagedKvCacheManager) : Prop := {
  cl_tables : tables_inv cache;
  cl_handles : ∀ h, is_Some (sequences cache !! h) ↔ ∃ k s, a !! k = Some s ∧ handle s = h;
  cl_inj : ∀ k k' s s', a !! k = Some s → a !! k' = Some s' → handle s = handle s' → k = k'
}.

Lemma cache_link_same_handles a a' cache :
  (∀ k, handle <$> a' !! k = handle <$> a !! k) → cache_link a cache → cache_link a' cache.
Proof.
  intros Heq [Ht Hh Hi].
  assert (∀ k s', a' !! k = Some s' → ∃ s, a !! k = Some s ∧ handle s = handle s') as Hto.
  { intros k s' Hs'. specialize (Heq k). rewrite Hs' in Heq. simpl in Heq.
    destruct (a !! k) as [s|] eqn:E; simplify_eq/=. eauto. }
  split; [done | |].
  - intros h. rewrite Hh. split.
    + intros (k & s & Hs & <-). specialize (Heq k). rewrite Hs in Heq. simpl in Heq.
      destruct (a' !! k) as [s'|] eqn:E; simplify_eq/=. eauto.
    + intros (k & s' & (s & Hs & Hhs)%Hto & <-). eauto.
  - intros k k' s s' (t & Ht' & E1)%Hto (t' & Ht'' & E2)%Hto Heq'. eapply Hi; [done.. | congruence].
Qed.

Lemma cache_link_insert a cache cache' k h s' :
  cache_link a cache → a !! k = None → paged_alloc cache = (cache', Ok h) → handle s' = h →
  cache_link (<[k := s']> a) cache'.
Proof.
  intros [Ht Hh Hi] Hk Ha Hs'. destruct (paged_alloc_Ok cache cache' h Ht Ha) as (Ht' & Hnone & t & Hseq).
  assert (∀ k' u, a !! k' = Some u → handle u ≠ h) as Hne.
  { intros k' u Hu E. assert (is_Some (sequences cache !! h)) as [? Hc]; [apply Hh; eauto | congruence]. }
  split; [done | |].
  - intros h'. rewrite Hseq, lookup_insert_is_Some. rewrite Hh. split.
    + intros [<-|[_ (k' & u & Hu & <-)]]; [exists k, s'; by rewrite lookup_insert_eq |].
      exists k', u. rewrite lookup_insert_ne; [done |]. intros ->. congruence.
    + intros (k' & u & [[<- <-]|[_ Hu]]%lookup_insert_Some & Hhu); [by left; congruence |].
      right. split; [intros <-; by eapply Hne |]. eauto.
  - intros k1 k2 u1 u2 [[<- <-]|[_ H1]]%lookup_insert_Some [[<- <-]|[_ H2]]%lookup_insert_Some Heq.
    + done.
    + exfalso. eapply (Hne k2 u2); [done | congruence].
    + exfalso. eapply (Hne k1 u1); [done | congruence].
    + by eapply Hi.
Qed.

Section admission.
Variable closed : Z → bool.

Lemma admit_loop_inv b0 b queue fb rb cache dec pft log b' cache' log' r :
  loop_inv b0 (active b) (req_seq_id <$> queue) dec → cache_link (active b) cache →
  (∀ q, q ∈ queue → q ∈ prefill_queue b0 ∧ active b0 !! req_seq_id q = None) →
  admit_loop closed b queue fb rb cache dec pft log = (b', cache', log', r) →
  cache_link (active b') cache' ∧
  (∀ q, q ∈ prefill_queue b' → active b' !! req_seq_id q = None) ∧
  NoDup (req_seq_id <$> prefill_queue b') ∧
  keyed (active b') ∧
  (∀ dec', r = Ok dec' → loop_inv b0 (active b') (req_seq_id <$> prefill_queue b') dec' ∧
                         decodes dec' = decodes dec).
Proof.
  revert b cache dec pft log. induction queue as [|q queue IH]; intros b cache dec pft log Hinv Hlink Hq; simpl.
  { intros [= <- <- <- <-]. simpl. split_and!; [done | | constructor | apply Hinv | by intros ? [= <-]].
    intros ? []%not_elem_of_nil. }
  assert (∀ log r', (set_queue (q :: queue) b, cache, log, r') = (b', cache', log', r) → r' = Ok dec →
    cache_link (active b') cache' ∧
    (∀ q, q ∈ prefill_queue b' → active b' !! req_seq_id q = None) ∧
    NoDup (req_seq_id <$> prefill_queue b') ∧ keyed (active b') ∧
    (∀ dec', r = Ok dec' → loop_inv b0 (active b') (req_seq_id <$> prefill_queue b') dec' ∧
                           decodes dec' = decodes dec)) as Hstop.
  { intros ?? [= <- <- <- <-] ->. simpl. split_and!; [done | | | apply Hinv | by intros ? [= <-]].
    - intros q' Hq'. rewrite (li_same _ _ _ _ Hinv); [by apply Hq |].
      change (req_seq_id q' ∈ req_seq_id <$> q :: queue). apply list_elem_of_fmap. eauto.
    - pose proof (li_nodup _ _ _ _ Hinv) as Hn. by apply NoDup_app in Hn as (_ & _ & ?). }
  destruct (prefill_room b dec pft) as [room|]; [| intros E; by eapply Hstop].
  case_bool_decide; [intros E; by eapply Hstop |].
  destruct (Hq q) as [Hq0 Hfresh0]; [left |].
  assert (active b !! req_seq_id q = None) as Hfresh
    by (by rewrite (li_same _ _ _ _ Hinv) by left).
  assert (∀ q', q' ∈ queue → q' ∈ prefill_queue b0 ∧ active b0 !! req_seq_id q' = None) as Hq'.
  { intros q' Hin. apply Hq. by right. }
  destruct (paged_alloc cache) as [cache1 [h|e|]] eqn:Ha.
  - set (n := length (prompt_tokens q) `min` room).
    destruct (if bool_decide (n < length (prompt_tokens q)) then _ else _) as [chunk rem] eqn:Hc.
    assert (prompt_tokens q = chunk ++ rem ∧ length chunk = n) as [Hsplit Hlen].
    { case_bool_decide; simplify_eq; [rewrite take_drop, length_take | rewrite app_nil_r]; split; done || lia. }
    intros Hrec. apply IH in Hrec; [| | | done].
    + destruct Hrec as (HA & HB & HC & HD & HE). split_and!; done.
    + apply loop_inv_push; [done | done | done |]. eexists _, 0. simpl. rewrite lookup_insert_eq.
      split_and!; [done | done | done | simpl; lia |]. right. exists q. by split_and!.
    + by eapply cache_link_insert.
  - apply IH; [by eapply loop_inv_skip | | done].
    destruct (paged_alloc_fail cache cache1 (Err e)) as [? Hseq]; [apply Hlink | done | done |].
    destruct Hlink. split; [done | by rewrite Hseq | done].
  - intros [= <- <- <- <-]. simpl.
    destruct (paged_alloc_fail cache cache1 Panic) as [? Hseq]; [apply Hlink | done | done |].
    split_and!; [| | | apply Hinv | done].
    + destruct Hlink. split; [done | by rewrite Hseq | done].
    + intros q' Hin. rewrite (li_same _ _ _ _ Hinv); [by apply Hq' |].
      right. apply list_elem_of_fmap. eauto.
    + pose proof (li_nodup _ _ _ _ Hinv) as Hn. by apply NoDup_app in Hn as (_ & _ & [_ ?]%NoDup_cons).
Qed.
End admission.

(** A decode job feeds the sequence's last token at its current position. *)
Definition decode_job_ok (closed : Z → bool) (b0 : BatchScheduler) (j : DecodeJob) : Prop :=
  ∃ s, active b0 !! dj_seq_id j = Some s ∧ remaining_prefill s = [] ∧ closed (event_tx s) = false ∧
       dj_handle j = handle s ∧ dj_token_id j = default 0%Z (last (generated_tokens s)) ∧
       dj_position j = wrap 32 (Z.of_nat (current_pos s)).

Section batch.
Variable closed : Z → bool.

Lemma active_ids_spec ho f b : keyed (active b) →
  NoDup (active_ids ho f b) ∧
  ∀ id, id ∈ active_ids ho f b ↔ ∃ s, active b !! id = Some s ∧ f s = true.
Proof.
  intros Hk.
  assert (Hmap : ∀ l : list (Z * ActiveSequence), (∀ k s, (k, s) ∈ l → seq_id s = k) → NoDup l.*1 →
    NoDup (seq_id <$> filter (λ s, f s) l.*2) ∧
    ∀ id, id ∈ seq_id <$> filter (λ s, f s) l.*2 ↔ ∃ s, (id, s) ∈ l ∧ f s = true).
  { induction l as [|[k s] l IH]; intros Hkey Hnd; csimpl.
    { split; [constructor |]. intros id. split; [by intros []%not_elem_of_nil | by intros (? & []%not_elem_of_nil & _)]. }
    csimpl in Hnd. apply NoDup_cons in Hnd as [Hknot Hnd].
    destruct IH as [IH1 IH2]; [| done |]. { intros k' s' Hin. apply Hkey. by right. }
    assert (seq_id s = k) as Hs by (apply Hkey; left).
    rewrite filter_cons. destruct (decide (f s)) as [Hf|Hf]; csimpl.
    - split.
      + constructor; [| done]. rewrite Hs, IH2. intros (s' & Hin & _). apply Hknot.
        apply list_elem_of_fmap. by exists (k, s').
      + intros id. rewrite elem_of_cons, IH2, Hs. split.
        * intros [->|(s' & Hin & Hfs)]; [exists s | exists s'].
          -- split; [left | by apply Is_true_true].
          -- split; [by right | done].
        * intros (s' & [[= -> ->]|Hin]%elem_of_cons & Hfs); [by left | right; eauto].
    - split; [done |]. intros id. rewrite IH2. split.
      + intros (s' & Hin & Hfs). exists s'. split; [by right | done].
      + intros (s' & [[= -> ->]|Hin]%elem_of_cons & Hfs); [| eauto]. by rewrite Hfs in Hf. }
  destruct (Hmap (hm_iter ho (active b))) as [H1 H2]; [| apply NoDup_hm_iter_fst |].
  { intros k s Hin%elem_of_hm_iter. by apply Hk. }
  split; [exact H1 |]. intros id. unfold active_ids, hm_values. rewrite H2. by setoid_rewrite elem_of_hm_iter.
Qed.

Lemma decode_loop_spec b ids dec :
  NoDup ids → (∀ id, id ∈ ids → ∃ s, active b !! id = Some s ∧ remaining_prefill s = []) →
  ∃ new, decodes (decode_loop closed b ids dec) = decodes dec ++ new ∧
    Forall (decode_job_ok closed b) new ∧ dj_seq_id <$> new `sublist_of` ids ∧
    (batch_len (decode_loop closed b ids dec) < max_batch_size b →
     total_tokens (decode_loop closed b ids dec) < max_batch_tokens b →
     ∀ id s, id ∈ ids → active b !! id = Some s → closed (event_tx s) = false → id ∈ dj_seq_id <$> new).
Proof.
  revert dec. induction ids as [|id ids IH]; intros dec Hnd Hids; cbn [decode_loop].
  { exists []. rewrite app_nil_r. split_and!; [done | constructor | constructor |].
    intros _ _ id s []%not_elem_of_nil. }
  assert (∀ d, d = dec → ¬ (batch_len d < max_batch_size b ∧ total_tokens d < max_batch_tokens b) →
    ∃ new, decodes d = decodes dec ++ new ∧ Forall (decode_job_ok closed b) new ∧
      dj_seq_id <$> new `sublist_of` id :: ids ∧
      (batch_len d < max_batch_size b → total_tokens d < max_batch_tokens b →
       ∀ id' s, id' ∈ id :: ids → active b !! id' = Some s → closed (event_tx s) = false →
         id' ∈ dj_seq_id <$> new)) as Hbreak.
  { intros d -> Hno. exists []. rewrite app_nil_r. split_and!; [done | constructor | apply sublist_nil_l |].
    intros. exfalso. by apply Hno. }
  destruct (bool_decide_reflect (max_batch_size b ≤ batch_len dec)); [apply Hbreak; [done | lia] |].
  destruct (bool_decide_reflect (max_batch_tokens b ≤ total_tokens dec)); [apply Hbreak; [done | lia] |].
  clear Hbreak. apply NoDup_cons in Hnd as [Hid Hnd].
  destruct (Hids id) as (s & Hs & Hrem); [left |]. rewrite Hs.
  assert (∀ id', id' ∈ ids → ∃ s, active b !! id' = Some s ∧ remaining_prefill s = []) as Hids'.
  { intros id' Hin. apply Hids. by right. }
  destruct (closed (event_tx s)) eqn:Hcl.
  - destruct (IH dec Hnd Hids') as (new & Hnew & Hok & Hsub & Hall). exists new.
    split_and!; [done | done | by apply sublist_cons |].
    intros Hlt1 Hlt2 id' s' [->|Hin]%elem_of_cons Hs' Hcl'; [congruence |]. by eapply Hall.
  - set (j := {| dj_seq_id := id |}).
    destruct (IH (push_decode j dec) Hnd Hids') as (new & Hnew & Hok & Hsub & Hall). exists (j :: new).
    split_and!.
    + rewrite Hnew. simpl. by rewrite <- app_assoc.
    + constructor; [| done]. exists s. by split_and!.
    + csimpl. by apply sublist_skip.
    + intros Hlt1 Hlt2 id' s' [->|Hin]%elem_of_cons Hs' Hcl'; csimpl; [left | right]. by eapply Hall.
Qed.

(** The decodes of a batch are different sequences, none of them half-prefilled. *)
Lemma decodes_prefills_disjoint b0 a decs pfs :
  sched_wf b0 → Forall (decode_job_ok closed b0) decs → Forall (prefill_job_ok b0 a) pfs →
  NoDup (dj_seq_id <$> decs) → NoDup (pf_seq_id <$> pfs) →
  NoDup ((dj_seq_id <$> decs) ++ (pf_seq_id <$> pfs)).
Proof.
  intros Hwf Hd Hp Hnd Hnp. apply NoDup_app. split_and!; [done | | done].
  intros id (j & -> & Hj)%list_elem_of_fmap (p & Heq & Hp')%list_elem_of_fmap.
  rewrite Forall_forall in Hd. rewrite Forall_forall in Hp.
  destruct (Hd j Hj) as (s & Hs & Hrem & _). destruct (Hp p Hp') as (s' & start & _ & _ & _ & _ & Hcase).
  rewrite <- Heq in Hcase. destruct Hcase as [(t & Ht & _ & Hne & _)|(r & Hr & Hrid & _)].
  - congruence.
  - pose proof (wf_fresh b0 Hwf r Hr). congruence.
Qed.

Lemma schedule_spec ho1 ho2 b cache b' cache' log r :
  sched_wf b → cache_link (active b) cache →
  schedule closed ho1 ho2 b cache = (b', cache', log, r) →
  sched_wf b' ∧ cache_link (active b') cache' ∧
  (∀ dec, r = Ok dec →
     Forall (decode_job_ok closed b) (decodes dec) ∧ Forall (prefill_job_ok b (active b')) (prefills dec) ∧
     NoDup ((dj_seq_id <$> decodes dec) ++ (pf_seq_id <$> prefills dec))).
Proof.
  intros Hwf Hlink. unfold schedule.
  destruct (active_ids_spec ho1 is_prefilled b (wf_keyed b Hwf)) as [Hnd1 Hin1].
  destruct (active_ids_spec ho2 (λ s, negb (is_prefilled s)) b (wf_keyed b Hwf)) as [Hnd2 Hin2].
  destruct (decode_loop_spec b (active_ids ho1 is_prefilled b) empty_decision Hnd1)
    as (new & Hnew & Hdok & Hsub & _).
  { intros id (s & Hs & Hp%bool_decide_eq_true)%Hin1. eauto. }
  set (dec1 := decode_loop _ _ _ _) in *.
  assert (prefills dec1 = []) as Hp1.
  { assert (within_limits b empty_decision) as H0 by (split; unfold batch_len, prefill_tokens; simpl; lia).
    exact (proj2 (decode_loop_limits closed b _ _ H0)). }
  pose proof (chunk_loop_inv b b (active_ids ho2 (λ s, negb (is_prefilled s)) b)
                (req_seq_id <$> prefill_queue b) dec1 0) as Hchunk.
  destruct (chunk_loop b _ dec1 0) as [[b1 dec2] pft]. destruct Hchunk as (Hinv1 & Hq1 & Hh1 & Hd2).
  { split; [apply Hwf | by rewrite Hp1 | | done]. rewrite Hp1. simpl. apply NoDup_app.
    split_and!; [done | | apply Hwf]. intros id (s & Hs & _)%Hin2 (q & -> & Hq)%list_elem_of_fmap.
    rewrite (wf_fresh b Hwf q Hq) in Hs. done. }
  { intros id (s & Hs & Hp)%Hin2. exists s. split; [done |].
    unfold is_prefilled in Hp. by apply negb_true_iff, bool_decide_eq_false in Hp. }
  intros Hadm. apply (admit_loop_inv closed b) in Hadm as (Hl & Hf & Hn & Hk & Hdec).
  - split_and!; [by split | done |]. intros dec ->. destruct (Hdec dec eq_refl) as [[_ Hjobs Hnd _] Hdecs].
    rewrite Hdecs, Hd2, Hnew. simpl. split_and!; [done | done |].
    eapply decodes_prefills_disjoint; [done.. | |].
    + exact (sublist_NoDup _ _ Hnd1 Hsub).
    + by apply NoDup_app in Hnd as [? _].
  - by rewrite Hq1.
  - by eapply cache_link_same_handles.
  - intros q Hq. rewrite Hq1 in Hq. split; [done | by apply (wf_fresh b Hwf)].
Qed.
End batch.

(** C30: each job of a batch is what its sequence needs next.  A decode job is a
    fully prefilled sequence whose client is connected, its last token and
    current position; a prefill job is the next chunk of a prompt at the
    positions after the ones already prefilled, and the rest of the prompt is
    kept for later; no sequence has two jobs in one batch. *)
Theorem schedule_jobs closed ho1 ho2 b cache b' cache' log dec :
  sched_wf b → cache_link (active b) cache →
  schedule closed ho1 ho2 b cache = (b', cache', log, Ok dec) →
  Forall (decode_job_ok closed b) (decodes dec) ∧ Forall (prefill_job_ok b (active b')) (prefills dec) ∧
  NoDup ((dj_seq_id <$> decodes dec) ++ (pf_seq_id <$> prefills dec)).
Proof. intros Hwf Hlink H. by apply (schedule_spec closed) in H as (_ & _ & H); [apply H | | ]. Qed.

(** ** Cleanup *)

Section cleanup.
Variable closed : Z → bool.

(** A sequence that [cleanup_completed] removes. *)
Definition is_done (s : ActiveSequence) : bool :=
  match finished_reason s with Some _ => true | None => closed (event_tx s) end.

Definition done_event (s : ActiveSequence) : list (Z * GenerationEvent) :=
  match finished_reason s with
  | Some reason => if closed (event_tx s) then []
                   else [(event_tx s, Finished reason (length (generated_tokens s)))]
  | None => []
  end.

Lemma cleanup_loop_spec l tr log :
  cleanup_loop closed l tr log =
    (tr ++ ((λ ks, (ks.1, handle ks.2)) <$> filter (λ ks, is_done ks.2) l),
     log ++ (l ≫= λ ks, done_event ks.2)).
Proof.
  revert tr log. induction l as [|[k s] l IH]; intros tr log; cbn [cleanup_loop].
  { by rewrite !app_nil_r. }
  rewrite filter_cons. unfold is_done, done_event, send. csimpl.
  destruct (finished_reason s) as [reason|]; [| destruct (closed (event_tx s))];
    rewrite IH; csimpl; try (by rewrite <- !app_assoc).
  - destruct (closed (event_tx s)); by rewrite <- !app_assoc.
  - reflexivity.
Qed.

Lemma foldl_delete_lookup (l : list (Z * Z)) (a : gmap Z ActiveSequence) k :
  foldl (λ a kv, delete kv.1 a) a l !! k = if bool_decide (k ∈ l.*1) then None else a !! k.
Proof.
  revert a. induction l as [|[k' h] l IH]; intros a; [done |]. csimpl. rewrite IH.
  repeat case_bool_decide; set_unfold; try done; destruct (decide (k = k')) as [->|];
    rewrite ?lookup_delete_eq, ?lookup_delete_ne by done; naive_solver.
Qed.

Lemma cleanup_active ho b b' log rem :
  cleanup_completed closed ho b = (b', log, rem) →
  (∀ k, active b' !! k = match active b !! k with
                         | Some s => if is_done s then None else Some s
                         | None => None
                         end) ∧
  (∀ k h, (k, h) ∈ rem ↔ ∃ s, active b !! k = Some s ∧ is_done s = true ∧ handle s = h) ∧
  NoDup rem.*1 ∧ b' = set_active (active b') b.
Proof.
  unfold cleanup_completed. rewrite cleanup_loop_spec. intros [= <- _ Hrem].
  assert (∀ k h, (k, h) ∈ rem ↔ ∃ s, active b !! k = Some s ∧ is_done s = true ∧ handle s = h) as Hin.
  { intros k h. rewrite <- Hrem. simpl. rewrite list_elem_of_fmap. split.
    - intros ([k' s] & [= -> ->] & [Hd Hl]%list_elem_of_filter). apply elem_of_hm_iter in Hl.
      apply Is_true_true in Hd. eauto.
    - intros (s & Hs & Hd & <-). exists (k, s). split; [done |]. apply list_elem_of_filter.
      split; [by apply Is_true_true | by apply elem_of_hm_iter]. }
  split_and!; [| done | | done].
  - intros k. simpl. rewrite Hrem, foldl_delete_lookup.
    destruct (active b !! k) as [s|] eqn:Hs; [| by case_bool_decide].
    destruct (is_done s) eqn:Hd; case_bool_decide as Hk; try done.
    + exfalso. apply Hk, list_elem_of_fmap. exists (k, handle s). split; [done |]. apply Hin. eauto.
    + apply list_elem_of_fmap in Hk as ([k' h] & -> & (s' & Hs' & Hd' & _)%Hin). simpl in *. congruence.
  - rewrite <- Hrem. simpl. rewrite <- list_fmap_compose.
    assert (∀ l : list (Z * ActiveSequence), NoDup l.*1 →
      NoDup (fst ∘ (λ ks : Z * ActiveSequence, (ks.1, handle ks.2)) <$> filter (λ ks, is_done ks.2) l)) as Hsub.
    { intros l Hnd. apply (sublist_NoDup _ l.*1); [done |].
      rewrite (list_fmap_ext _ fst) by (by intros ? [? ?]). apply fmap_sublist, sublist_filter. }
    apply Hsub, NoDup_hm_iter_fst.
Qed.

(** The loop of [scheduler_loop_task] that frees the removed sequences' caches. *)
Definition free_handles (l : list (Z * Z)) (cache : PagedKvCacheManager) : PagedKvCacheManager :=
  foldl (λ c kh, (paged_free kh.2 c).1) cache l.

Lemma paged_free_link k s a cache :
  a !! k = Some s → cache_link a cache → cache_link (delete k a) (paged_free (handle s) cache).1.
Proof.
  intros Hs [Ht Hh Hi].
  assert (is_Some (sequences cache !! handle s)) as [sb Hsb] by (apply Hh; eauto).
  split; [by apply tables_free_inv | |].
  - intros h. unfold paged_free. rewrite (tables_free_spec _ _ sb) by done. simpl.
    rewrite lookup_delete_is_Some, Hh. split.
    + intros [Hne (k' & s' & Hs' & <-)]. exists k', s'. rewrite lookup_delete_ne; [done |].
      intros ->. congruence.
    + intros (k' & s' & [Hne Hs']%lookup_delete_Some & <-). split; [| eauto].
      intros Heq. apply Hne. by eapply (Hi k k' s s').
  - intros k1 k2 s1 s2 [_ H1]%lookup_delete_Some [_ H2]%lookup_delete_Some. by eapply Hi.
Qed.

Lemma free_handles_link l a cache :
  NoDup l.*1 → (∀ k h, (k, h) ∈ l → ∃ s, a !! k = Some s ∧ handle s = h) →
  cache_link a cache → cache_link (foldl (λ a kv, delete kv.1 a) a l) (free_handles l cache).
Proof.
  unfold free_handles. revert a cache. induction l as [|[k h] l IH]; intros a cache Hnd Hl Hlink; [done |].
  csimpl in *. apply NoDup_cons in Hnd as [Hk Hnd]. destruct (Hl k h) as (s & Hs & <-); [left |].
  apply IH; [done | | by apply paged_free_link].
  intros k' h' Hin. destruct (Hl k' h') as (s' & Hs' & <-); [by right |].
  exists s'. rewrite lookup_delete_ne; [done |]. intros ->. apply Hk, list_elem_of_fmap. by exists (k', handle s').
Qed.
End cleanup.

(** [cleanup_completed] removes exactly the sequences that reached their token
    limit, produced a stop token or lost their client, keeps every other one
    unchanged, and returns the cache handle of each removed one once. *)
Theorem cleanup_completed_spec closed ho b b' log rem :
  cleanup_completed closed ho b = (b', log, rem) →
  (∀ k s, active b' !! k = Some s ↔ active b !! k = Some s ∧
     length (generated_tokens s) < max_tokens s ∧
     (∀ t, last (generated_tokens s) = Some t → t ∉ stop_tokens s) ∧ closed (event_tx s) = false) ∧
  (∀ k h, (k, h) ∈ rem ↔ ∃ s, active b !! k = Some s ∧ active b' !! k = None ∧ handle s = h) ∧
  NoDup rem.*1 ∧ prefill_queue b' = prefill_queue b.
Proof.
  intros (Hact & Hin & Hnd & Hb)%cleanup_active.
  assert (∀ s, is_done closed s = false ↔ length (generated_tokens s) < max_tokens s ∧
     (∀ t, last (generated_tokens s) = Some t → t ∉ stop_tokens s) ∧ closed (event_tx s) = false) as Hdone.
  { intros s. unfold is_done, finished_reason. case_bool_decide as Hlen; [split; [done | lia] |].
    destruct (last (generated_tokens s)) as [t|] eqn:Hlast; [case_bool_decide as Ht |].
    - split; [done |]. intros (_ & Hno & _). by destruct (Hno t).
    - split; [intros; split_and!; [lia | congruence | done] | by intros (_ & _ & ?)].
    - split; [intros; split_and!; [lia | done | done] | by intros (_ & _ & ?)]. }
  split_and!; [| | done | by rewrite Hb].
  - intros k s. rewrite Hact, <- Hdone. destruct (active b !! k) as [s'|]; [| naive_solver].
    destruct (is_done closed s') eqn:E; split; intros; destruct_and?; simplify_eq; try congruence; auto.
  - intros k h. rewrite Hin. split; intros (s & Hs & H1 & H2); exists s; split_and!; try done.
    + by rewrite Hact, Hs, H1.
    + rewrite Hact, Hs in H1. by destruct (is_done closed s).
Qed.

(** ** Memory check of the admission loop *)

Module BatchExample.
(** A pool of [n] blocks; [schedule] does not touch its tensors. *)
Definition pool_of (n : nat) : BlockPool :=
  {| k_blocks := []; v_blocks := []; free_list := seq 0 n; capacity := n; pool_num_layers := 1;
     pool_num_kv_heads := 1; pool_head_dim := 1 |}.
Definition cache : PagedKvCacheManager := tables_new (pool_of 10).
Definition request (id : Z) (len : nat) : PendingRequest :=
  {| req_seq_id := id; prompt_tokens := replicate len 7%Z; req_max_tokens := 5;
     req_temperature := f32_of_Z 1; req_top_k := 0; req_top_p := f32_of_Z 1; req_seed := None;
     req_stop_tokens := [2%Z]; req_event_tx := id |}.
Definition two_requests : BatchScheduler :=
  enqueue (request 2 120) (enqueue (request 1 128) (scheduler_new 64 4096 512 (f32_lit 1 1))).
Definition open (tx : Z) : bool := false.
(** One sequence is decoding, one is half-prefilled, one waits. *)
Definition decoding : ActiveSequence :=
  {| seq_id := 5; handle := 0; max_tokens := 9; temperature := f32_of_Z 1; top_k := 0;
     top_p := f32_of_Z 1; seed := None; stop_tokens := [2%Z]; current_pos := 4;
     generated_tokens := [31%Z]; event_tx := 5; remaining_prefill := [] |}.
Definition prefilling : ActiveSequence :=
  {| seq_id := 6; handle := 1; max_tokens := 9; temperature := f32_of_Z 1; top_k := 0;
     top_p := f32_of_Z 1; seed := None; stop_tokens := [2%Z]; current_pos := 3;
     generated_tokens := []; event_tx := 6; remaining_prefill := [41; 42; 43]%Z |}.
Definition mixed : BatchScheduler :=
  enqueue (request 7 40)
    (set_active (<[6%Z := prefilling]> {[5%Z := decoding]}) (scheduler_new 3 8 5 (f32_lit 1 1))).
Definition mixed_cache : PagedKvCacheManager := (paged_alloc (paged_alloc cache).1).1.
Definition dec_of (r : BatchScheduler * PagedKvCacheManager * list (Z * GenerationEvent) * result SchedulerDecision)
  : SchedulerDecision := match r.2 with Ok d => d | _ => empty_decision end.
Definition step := schedule open hash_order_id hash_order_rev mixed mixed_cache.

Lemma cache_inv : tables_inv cache.
Proof. by apply tables_new_inv. Qed.

Lemma mixed_wf : sched_wf mixed.
Proof.
  split.
  - intros k s Hk. change ((<[6%Z := prefilling]> {[5%Z := decoding]} : gmap Z ActiveSequence) !! k = Some s) in Hk.
    by apply lookup_insert_Some in Hk as [[<- <-]|[_ [<- <-]%lookup_singleton_Some]].
  - decide_now.
  - intros r ->%list_elem_of_singleton. by vm_compute.
Qed.

Lemma empty_link : cache_link ∅ cache.
Proof.
  split; [apply cache_inv | | by intros ????; rewrite lookup_empty].
  intros h. simpl. rewrite lookup_empty. split; [by intros [? ?] | by intros (? & ? & ? & _)].
Qed.

Lemma mixed_link : cache_link (active mixed) mixed_cache.
Proof.
  apply (cache_link_insert {[5%Z := decoding]} (paged_alloc cache).1 _ 6 1); [| done.. ].
  by apply (cache_link_insert ∅ cache _ 5 0); [apply empty_link | ..].
Qed.
End BatchExample.

(** The admission check compares each prompt with the free blocks counted
    before the loop, so several requests can be admitted in one batch whose
    prompts together need more blocks than the pool has: here 16 of 10. *)
Theorem admission_overcommits :
  ∃ b cache dec, sched_wf b ∧ cache_link (active b) cache ∧ num_free_blocks cache = 10 ∧
    (schedule BatchExample.open hash_order_id hash_order_id b cache).2 = Ok dec ∧
    sum_list ((λ j, div_ceil (length (pf_token_ids j)) 16) <$> prefills dec) = 16.
Proof.
  exists BatchExample.two_requests, BatchExample.cache. eexists.
  split.
  { split; [| decide_now | intros; apply lookup_empty].
    intros k s. change (active BatchExample.two_requests) with (∅ : gmap Z ActiveSequence).
    by rewrite lookup_empty. }
  split; [apply BatchExample.empty_link |]. by vm_compute.
Qed.

Module BatchWitness.
Import BatchExample.

Lemma schedule_within_limits_witness :
  length (decodes (dec_of step)) + length (prefills (dec_of step)) ≤ 3 ∧
  total_tokens (dec_of step) ≤ 8 ∧ prefill_tokens (dec_of step) ≤ 5 ∧
  total_tokens (dec_of step) = length (decodes (dec_of step)) + prefill_tokens (dec_of step).
Proof.
  apply (schedule_within_limits open hash_order_id hash_order_rev mixed mixed_cache
           step.1.1.1 step.1.1.2 step.1.2). by vm_compute.
Defined.

Lemma schedule_jobs_witness :
  Forall (decode_job_ok open mixed) (decodes (dec_of step)) ∧
  Forall (prefill_job_ok mixed (active step.1.1.1)) (prefills (dec_of step)) ∧
  NoDup ((dj_seq_id <$> decodes (dec_of step)) ++ (pf_seq_id <$> prefills (dec_of step))).
Proof.
  apply (schedule_jobs open hash_order_id hash_order_rev mixed mixed_cache
           step.1.1.1 step.1.1.2 step.1.2); [exact mixed_wf | exact mixed_link | by vm_compute].
Defined.

Definition cleaned := cleanup_completed (λ tx, bool_decide (tx = 6%Z)) hash_order_id mixed.

Lemma cleanup_witness : (6%Z, 1%Z) ∈ cleaned.2 ↔
  ∃ s, active mixed !! 6%Z = Some s ∧ active cleaned.1.1 !! 6%Z = None ∧ handle s = 1%Z.
Proof.
  exact (proj1 (proj2 (cleanup_completed_spec (λ tx, bool_decide (tx = 6%Z)) hash_order_id mixed
           cleaned.1.1 cleaned.1.2 cleaned.2 ltac:(by vm_compute))) 6%Z 1%Z).
Defined.
End BatchWitness.
