(* ===== verification/LayerScheduler.v ===== *)
(** * Layer assignment ([crates/fracture-coordinator/src/scheduler.rs])

    Which node runs which transformer layers: compute-balanced with pruning of
    slow nodes (Auto), equal counts (EqualSplit) or explicit ranges (Manual).
    Layer counts and bytes are [usize] values in [Z] with checked arithmetic;
    speeds and latencies are binary32. *)

From S2P Require Import Prelude F32 Core.

Local Open Scope Z_scope.

Record WorkerCapabilities := {
  node_id : string;
  gpu_model : string;
  gpu_memory_available : Z;
  compute_capability : Z * Z;
  decode_ms_per_layer : f32;
  prefill_ms_per_layer_128 : f32
}.

(** A [Range<usize>] *)
Record LayerRange := { rstart : Z; rend : Z }.
Definition range_len (r : LayerRange) : Z := Z.max 0 (rend r - rstart r).

Record ManualAssignment := { ma_node_id : string; ma_layer_range : LayerRange }.

Inductive SchedulingMode :=
  | Auto
  | EqualSplit
  | Manual (assignments : list ManualAssignment).

Record SchedulerInput := {
  model_config : ModelConfig;
  workers : list WorkerCapabilities;
  coordinator_compute : option WorkerCapabilities;
  mode : SchedulingMode;
  input_max_seq_len : Z;
  hop_latency_ms : f32
}.

Inductive NodeRole := Head | Middle | Tail.

Record LayerAssignment := {
  la_node_id : string;
  layer_range : LayerRange;
  role : NodeRole;
  expected_decode_ms : f32;
  weight_memory_gb : f32;
  cache_memory_gb : f32
}.

(** [ExclusionReason::SlowsDownPipeline] is the only reason. *)
Record ExcludedNode := {
  ex_node_id : string; latency_with_ms : f32; latency_without_ms : f32
}.

Record SchedulerResult := {
  assignments : list LayerAssignment;
  excluded_nodes : list ExcludedNode;
  pipeline_decode_ms : f32;
  imbalance_ratio : f32;
  bottleneck_node : string
}.

Definition MAX_PLAUSIBLE_MS_PER_LAYER : f32 := f32_of_Z 500.

Definition validate_calibration (w : WorkerCapabilities) : result unit :=
  if is_nan (decode_ms_per_layer w) || fle (decode_ms_per_layer w) f32_zero then
    Err (Pipeline "implausible decode_ms_per_layer")
  else if is_nan (prefill_ms_per_layer_128 w) || fle (prefill_ms_per_layer_128 w) f32_zero then
    Err (Pipeline "implausible prefill_ms_per_layer_128")
  else if fgt (decode_ms_per_layer w) MAX_PLAUSIBLE_MS_PER_LAYER then
    Err (Pipeline "decode_ms_per_layer exceeds maximum plausible value")
  else if fgt (prefill_ms_per_layer_128 w) MAX_PLAUSIBLE_MS_PER_LAYER then
    Err (Pipeline "prefill_ms_per_layer_128 exceeds maximum plausible value")
  else Ok ().

(** ** Memory estimation *)

Definition weight_memory_per_layer (c : ModelConfig) : result Z :=
  let h := Ok (hidden_size c) in
  let? kv := Ok (num_kv_heads c) *! Ok (head_dim c) in
  let kv_dim := Ok kv in
  let inter := Ok (intermediate_size c) in
  let proj_bytes :=
    (h *! h +! h *! kv_dim +! h *! kv_dim +! h *! h +! h *! inter +! h *! inter +! inter *! h) *! Ok 2 in
  let norm_bytes := h *! Ok 2 *! Ok 2 in
  proj_bytes +! norm_bytes.

Definition cache_memory_per_layer (c : ModelConfig) (msl : Z) : result Z :=
  let? kv_dim := Ok (num_kv_heads c) *! Ok (head_dim c) in
  Ok msl *! Ok kv_dim *! Ok 2 *! Ok 2.

Definition head_overhead (c : ModelConfig) : result Z :=
  Ok (vocab_size c) *! Ok (hidden_size c) *! Ok 2.

Definition tail_overhead (c : ModelConfig) : result Z :=
  Ok (hidden_size c) *! Ok 2 +! Ok (vocab_size c) *! Ok (hidden_size c) *! Ok 2.

Definition max_layers_for_node (available per_layer_total overhead : Z) : Z :=
  if per_layer_total =? 0 then 0 else saturating_sub available overhead / per_layer_total.

Definition role_overhead (i n : nat) (c : ModelConfig) : result Z :=
  match bool_decide (i = 0%nat), bool_decide (i = n - 1)%nat with
  | true, true => head_overhead c +! tail_overhead c
  | true, false => head_overhead c
  | false, true => tail_overhead c
  | false, false => Ok 0
  end.

(** The memory ceiling of every candidate, in order. *)
Definition node_max (per_layer_total : Z) (c : ModelConfig) (n i : nat) (w : WorkerCapabilities) : result Z :=
  let? overhead := role_overhead i n c in
  Ok (max_layers_for_node (gpu_memory_available w) per_layer_total overhead).

Fixpoint rimap_from {A B : Type} (f : nat → A → result B) (i : nat) (l : list A) : result (list B) :=
  match l with
  | [] => Ok []
  | x :: l' => let? y := f i x in let? ys := rimap_from f (S i) l' in Ok (y :: ys)
  end.

Definition node_maxes (cands : list WorkerCapabilities) (per_layer_total : Z) (c : ModelConfig) : result (list Z) :=
  rimap_from (node_max per_layer_total c (length cands)) 0 cands.

(** ** Helpers *)

Definition speed (w : WorkerCapabilities) : f32 := f32_div f32_one (decode_ms_per_layer w).

Definition total_speed (cands : list WorkerCapabilities) : f32 :=
  foldl (λ acc w, f32_add acc (speed w)) f32_zero cands.

(** [(speed / total_speed * num_layers as f32).round() as usize] *)
Definition ideal_layers (total : f32) (n : Z) (w : WorkerCapabilities) : Z :=
  f32_to_usize (f32_round (f32_mul (f32_div (speed w) total) (f32_of_Z n))).

Definition num_hops (n : nat) : f32 :=
  if bool_decide (1 < n)%nat then f32_of_Z (Z.of_nat (n - 1)) else f32_zero.

Definition estimate_pipeline_latency (cands : list WorkerCapabilities) (n per_layer_total : Z)
    (c : ModelConfig) (hop : f32) : result f32 :=
  let total := total_speed cands in
  let? maxes := node_maxes cands per_layer_total c in
  let node_time '(w, max) :=
    let layers := Z.min (Z.min (ideal_layers total n w) max) n in
    f32_mul (f32_of_Z layers) (decode_ms_per_layer w) in
  let max_node_time := foldl f32_max f32_zero (node_time <$> zip cands maxes) in
  Ok (f32_add max_node_time (f32_mul (num_hops (length cands)) hop)).

Fixpoint usum (l : list Z) : result Z :=
  match l with [] => Ok 0 | x :: l' => let? s := usum l' in uadd x s end.

Definition model_fits (cands : list WorkerCapabilities) (n per_layer_total : Z) (c : ModelConfig) : result bool :=
  let? avail := rimap_from (λ i w, let? overhead := role_overhead i (length cands) c in
                                   Ok (saturating_sub (gpu_memory_available w) overhead)) 0 cands in
  let? total_available := usum avail in
  let? needed := umul n per_layer_total in
  Ok (needed <=? total_available).

(** The fastest node below its ceiling: the first one with the highest speed
    above [f32::MIN]. *)
Fixpoint find_best (l : list (WorkerCapabilities * Z * Z)) (i : nat) (best : option nat) (best_speed : f32)
    : option nat :=
  match l with
  | [] => best
  | (w, count, max) :: l' =>
      if (count <? max) && fgt (speed w) best_speed then find_best l' (S i) (Some i) (speed w)
      else find_best l' (S i) best best_speed
  end.

(** The slowest node with a layer to give. *)
Fixpoint find_worst (l : list (WorkerCapabilities * Z)) (i : nat) (worst : option nat) (worst_speed : f32)
    : option nat :=
  match l with
  | [] => worst
  | (w, count) :: l' =>
      if (0 <? count) && flt (speed w) worst_speed then find_worst l' (S i) (Some i) (speed w)
      else find_worst l' (S i) worst worst_speed
  end.

(** [while total < num_layers]: [deficit] is [num_layers - total]. *)
Fixpoint add_layers (deficit : nat) (cands : list WorkerCapabilities) (maxes counts : list Z)
    : result (list Z) :=
  match deficit with
  | O => Ok counts
  | S deficit' =>
      match find_best (zip (zip cands counts) maxes) 0 None f32_MIN with
      | Some i => add_layers deficit' cands maxes (alter (Z.add 1) i counts)
      | None => Err (Pipeline "insufficient total capacity")
      end
  end.

(** [while total > num_layers]: [surplus] is [total - num_layers]; returns what
    is left of it when the loop ends. *)
Fixpoint remove_layers (surplus : nat) (cands : list WorkerCapabilities) (counts : list Z) : list Z * nat :=
  match surplus with
  | O => (counts, O)
  | S surplus' =>
      match find_worst (zip cands counts) 0 None f32_MAX with
      | Some i => remove_layers surplus' cands (alter (λ c, c - 1) i counts)
      | None => (counts, surplus)
      end
  end.

Definition redistribute_layers (cands : list WorkerCapabilities) (n per_layer_total : Z) (c : ModelConfig)
    (counts : list Z) : result (list Z) :=
  let? total := usum counts in
  let? maxes := node_maxes cands per_layer_total c in
  let? counts := add_layers (Z.to_nat (n - total)) cands maxes counts in
  let '(counts, rest) := remove_layers (Z.to_nat (total - n)) cands counts in
  if bool_decide (rest = O) then Ok counts else Err (Pipeline "failed to assign all layers").

(** ** [build_result] *)

Definition ONE_GB : f32 := f32_of_Z 1000000000.

Fixpoint build_assignments (pw pc : Z) (n i : nat) (start : Z) (l : list (WorkerCapabilities * Z))
    : result (list LayerAssignment) :=
  match l with
  | [] => Ok []
  | (w, count) :: l' =>
      let? end_ := uadd start count in
      let role := if bool_decide (i = 0)%nat then Head
                  else if bool_decide (i = n - 1)%nat then Tail else Middle in
      let decode_ms := f32_mul (f32_of_Z count) (decode_ms_per_layer w) in
      let? wm := umul count pw in
      let? cm := umul count pc in
      let a := {| la_node_id := node_id w; layer_range := {| rstart := start; rend := end_ |};
                  role := role; expected_decode_ms := decode_ms;
                  weight_memory_gb := f32_div (f32_of_Z wm) ONE_GB;
                  cache_memory_gb := f32_div (f32_of_Z cm) ONE_GB |} in
      let? rest := build_assignments pw pc n (S i) end_ l' in
      Ok (a :: rest)
  end.

(** The comparison of [max_by] on (index, time) pairs: NaN counts as equal. *)
Definition cmp_snd (a b : nat * f32) : comparison := default Eq (partial_cmp a.2 b.2).

Definition build_result (input : SchedulerInput) (cands : list WorkerCapabilities) (counts : list Z)
    (excluded : list ExcludedNode) : result SchedulerResult :=
  let? pw := weight_memory_per_layer (model_config input) in
  let? pc := cache_memory_per_layer (model_config input) (input_max_seq_len input) in
  let n := length cands in
  let? asg := build_assignments pw pc n 0 0 (zip cands counts) in
  let times := expected_decode_ms <$> asg in
  let max_time := foldl f32_max f32_MIN times in
  let min_time := foldl f32_min f32_MAX (filter (λ t, fgt t f32_zero) times) in
  let ratio := if fgt min_time f32_zero then f32_div max_time min_time else f32_one in
  let bottleneck_idx := default 0%nat (fst <$> max_by cmp_snd (imap pair times)) in
  let? bottleneck := index cands bottleneck_idx in
  Ok {| assignments := asg; excluded_nodes := excluded;
        pipeline_decode_ms := f32_add max_time (f32_mul (num_hops n) (hop_latency_ms input));
        imbalance_ratio := ratio; bottleneck_node := node_id bottleneck |}.

(** ** The three modes *)

(** The index of the slowest candidate ([max_by], the last among equals). *)
Definition slowest_idx (cands : list WorkerCapabilities) : nat :=
  default 0%nat (fst <$> max_by cmp_snd (imap (λ i w, (i, decode_ms_per_layer w)) cands)).

(** [loop] of step 0: each pass drops a node or ends it, so the number of
    candidates bounds the passes. *)
Fixpoint prune (fuel : nat) (cands : list WorkerCapabilities) (excluded : list ExcludedNode)
    (n per_layer_total : Z) (c : ModelConfig) (hop : f32)
    : result (list WorkerCapabilities * list ExcludedNode) :=
  match fuel with
  | O => Panic
  | S fuel =>
      if bool_decide (length cands ≤ 1)%nat then Ok (cands, excluded)
      else
        let slowest := slowest_idx cands in
        let? latency_with := estimate_pipeline_latency cands n per_layer_total c hop in
        let without := delete slowest cands in
        let? removed := index cands slowest in
        let? fits := model_fits without n per_layer_total c in
        if negb fits then Ok (cands, excluded)
        else
          let? latency_without := estimate_pipeline_latency without n per_layer_total c hop in
          if flt latency_without latency_with then
            prune fuel without
              (excluded ++ [{| ex_node_id := node_id removed; latency_with_ms := latency_with;
                               latency_without_ms := latency_without |}]) n per_layer_total c hop
          else Ok (cands, excluded)
  end.

Definition per_layer_total_of (input : SchedulerInput) : result Z :=
  weight_memory_per_layer (model_config input)
  +! cache_memory_per_layer (model_config input) (input_max_seq_len input).

Definition schedule_auto (input : SchedulerInput) (cands : list WorkerCapabilities) : result SchedulerResult :=
  let c := model_config input in
  let n := num_layers c in
  let? plt := per_layer_total_of input in
  let? (cands, excluded) := prune (S (length cands)) cands [] n plt c (hop_latency_ms input) in
  let total := total_speed cands in
  let ideal := ideal_layers total n <$> cands in
  let? maxes := node_maxes cands plt c in
  let counts := zip_with Z.min ideal maxes in
  let? counts := redistribute_layers cands n plt c counts in
  build_result input cands counts excluded.

(** A stable descending sort of the indices by available memory. *)
Fixpoint insert_by_memory (cands : list WorkerCapabilities) (i : nat) (l : list nat) : list nat :=
  match l with
  | [] => [i]
  | j :: l' =>
      let mem k := default 0 (gpu_memory_available <$> cands !! k) in
      if mem i <? mem j then j :: insert_by_memory cands i l' else i :: l
  end.
Definition memory_order (cands : list WorkerCapabilities) : list nat :=
  foldr (insert_by_memory cands) [] (seq 0 (length cands)).

(** The memory validation of [schedule_equal]; the error message computes the
    bytes the node would need. *)
Fixpoint check_memory (plt : Z) (c : ModelConfig) (n i : nat) (l : list (WorkerCapabilities * Z)) : result unit :=
  match l with
  | [] => Ok ()
  | (w, count) :: l' =>
      let? overhead := role_overhead i n c in
      let max := max_layers_for_node (gpu_memory_available w) plt overhead in
      if max <? count then
        let? _ := Ok count *! Ok plt +! Ok overhead in Err (Pipeline "node cannot hold its layers")
      else check_memory plt c n (S i) l'
  end.

Definition schedule_equal (input : SchedulerInput) (cands : list WorkerCapabilities) : result SchedulerResult :=
  let c := model_config input in
  let n := length cands in
  let base := num_layers c / Z.of_nat n in
  let remainder := num_layers c mod Z.of_nat n in
  let? plt := per_layer_total_of input in
  let counts := foldl (λ counts idx, alter (Z.add 1) idx counts) (replicate n base)
                  (take (Z.to_nat remainder) (memory_order cands)) in
  let? _ := check_memory plt c n 0 (zip cands counts) in
  build_result input cands counts [].

(** Marks the layers of one range as covered. *)
Fixpoint cover (ls : list nat) (covered : list bool) : result (list bool) :=
  match ls with
  | [] => Ok covered
  | l :: ls' =>
      let? c := index covered l in
      if c then Err (Pipeline "manual assignment overlap") else cover ls' (<[l := true]> covered)
  end.

Definition range_layers (r : LayerRange) : list nat :=
  seq (Z.to_nat (rstart r)) (Z.to_nat (range_len r)).

Fixpoint cover_all (n : Z) (l : list ManualAssignment) (covered : list bool) : result (list bool) :=
  match l with
  | [] => Ok covered
  | a :: l' =>
      if n <? rend (ma_layer_range a) then Err (Pipeline "manual assignment exceeds model layers")
      else
        let? covered := cover (range_layers (ma_layer_range a)) covered in
        cover_all n l' covered
  end.

Fixpoint no_duplicates (seen : list string) (l : list ManualAssignment) : result unit :=
  match l with
  | [] => Ok ()
  | a :: l' => if bool_decide (ma_node_id a ∈ seen) then Err (Pipeline "duplicate node_id")
               else no_duplicates (ma_node_id a :: seen) l'
  end.

(** The candidate and the layer count of each assignment, in their order. *)
Definition match_assignment (cands : list WorkerCapabilities) (plt : Z) (c : ModelConfig) (n i : nat)
    (a : ManualAssignment) : result (WorkerCapabilities * Z) :=
  match list_find (λ w, node_id w = ma_node_id a) cands with
  | None => Err (Pipeline "manual assignment references unknown node")
  | Some (_, w) =>
      let? max := node_max plt c n i w in
      let count := range_len (ma_layer_range a) in
      if max <? count then Err (Pipeline "node cannot hold its layers") else Ok (w, count)
  end.

Definition schedule_manual (input : SchedulerInput) (cands : list WorkerCapabilities)
    (asg : list ManualAssignment) : result SchedulerResult :=
  let c := model_config input in
  let n := num_layers c in
  let? plt := per_layer_total_of input in
  let? _ := no_duplicates [] asg in
  let? covered := cover_all n asg (replicate (Z.to_nat n) false) in
  if negb (forallb id covered) then Err (Pipeline "manual assignments have gaps")
  else
    let? matched := rimap_from (match_assignment cands plt c (length asg)) 0 asg in
    build_result input matched.*1 matched.*2 [].

Definition candidates_of (input : SchedulerInput) : list WorkerCapabilities :=
  option_list (coordinator_compute input) ++ workers input.

Definition schedule (input : SchedulerInput) : result SchedulerResult :=
  let cands := candidates_of input in
  if bool_decide (length cands = 0)%nat then Err (Pipeline "no workers available for scheduling")
  else
    let? _ := rmapM validate_calibration cands in
    match mode input with
    | Auto => schedule_auto input cands
    | EqualSplit => schedule_equal input cands
    | Manual asg => schedule_manual input cands asg
    end.

(** ** Sums and ceilings *)

Definition zsum (l : list Z) : Z := foldr Z.add 0 l.

Lemma usum_Ok l s : usum l = Ok s → s = zsum l.
Proof.
  revert s. induction l as [|x l IH]; intros s; simpl; [by intros [= <-] |].
  intros (t & Ht & Hs)%rbind_Ok. apply checked_inv in Hs as [-> _]. by rewrite (IH t Ht).
Qed.

Lemma zsum_alter f i (l : list Z) x :
  l !! i = Some x → zsum (alter f i l) = zsum l - x + f x.
Proof.
  revert i. induction l as [|y l IH]; intros [|i]; csimpl; intros Hi; simplify_eq; [lia |].
  change (y + zsum (alter f i l) = y + zsum l - x + f x). rewrite (IH i Hi). lia.
Qed.

Lemma zsum_replicate n x : zsum (replicate n x) = Z.of_nat n * x.
Proof. induction n; simpl; lia. Qed.

Lemma rimap_from_Ok {A B : Type} (f : nat → A → result B) i (l : list A) ys :
  rimap_from f i l = Ok ys →
  length ys = length l ∧ ∀ k x, l !! k = Some x → ∃ y, ys !! k = Some y ∧ f (i + k)%nat x = Ok y.
Proof.
  revert i ys. induction l as [|x l IH]; intros i ys; simpl.
  { intros [= <-]. split; [done |]. intros k x Hk. done. }
  intros (y & Hy & (ys' & Hys & [= <-])%rbind_Ok)%rbind_Ok.
  destruct (IH _ _ Hys) as [Hlen Hall]. split; [simpl; lia |].
  intros [|k] z Hk; simplify_eq/=.
  - exists y. by rewrite Nat.add_0_r.
  - rewrite <- Nat.add_succ_comm. by apply Hall.
Qed.

Lemma max_layers_nonneg a p o : 0 ≤ p → 0 ≤ max_layers_for_node a p o.
Proof.
  intros. unfold max_layers_for_node, saturating_sub. destruct (Z.eqb_spec p 0); [lia |].
  apply Z.div_pos; lia.
Qed.

Lemma uaddr_nonneg a b r : a +! b = Ok r → 0 ≤ r.
Proof. intros (? & ? & ? & ? & ? & [? _])%uaddr_Ok_inv. done. Qed.

Lemma per_layer_total_nonneg input plt : per_layer_total_of input = Ok plt → 0 ≤ plt.
Proof. apply uaddr_nonneg. Qed.

(** A layer plan: one count per candidate, each within the node's ceiling, that
    add up to the model's layers. *)
Record plan_ok (c : ModelConfig) (plt : Z) (cands : list WorkerCapabilities) (counts : list Z) : Prop := {
  plan_length : length counts = length cands;
  plan_sum : zsum counts = num_layers c;
  plan_fits : ∀ i w n, cands !! i = Some w → counts !! i = Some n →
    0 ≤ n ∧ ∃ ov, role_overhead i (length cands) c = Ok ov ∧
                  n ≤ max_layers_for_node (gpu_memory_available w) plt ov
}.

(** ** [redistribute_layers] *)

(** The counts stay between 0 and the ceilings. *)
Definition bounded (counts maxes : list Z) : Prop := Forall2 (λ n m, 0 ≤ n ≤ m) counts maxes.

Lemma find_best_spec l i best bs j :
  find_best l i best bs = Some j → best = Some j ∨
  ∃ k w n m, j = (i + k)%nat ∧ l !! k = Some (w, n, m) ∧ n < m.
Proof.
  revert i best bs. induction l as [|[[w n] m] l IH]; intros i best bs; simpl; [by left |].
  destruct ((n <? m) && fgt (speed w) bs) eqn:E; intros [Hb|(k & w' & n' & m' & -> & Hk & ?)]%IH.
  - right. apply andb_true_iff in E as [E%Z.ltb_lt _]. injection Hb as <-.
    exists 0%nat, w, n, m. split_and!; [lia | done | done].
  - right. exists (S k), w', n', m'. split_and!; [lia | done | done].
  - by left.
  - right. exists (S k), w', n', m'. split_and!; [lia | done | done].
Qed.

Lemma find_worst_spec l i worst ws j :
  find_worst l i worst ws = Some j → worst = Some j ∨
  ∃ k w n, j = (i + k)%nat ∧ l !! k = Some (w, n) ∧ 0 < n.
Proof.
  revert i worst ws. induction l as [|[w n] l IH]; intros i worst ws; simpl; [by left |].
  destruct ((0 <? n) && flt (speed w) ws) eqn:E; intros [Hb|(k & w' & n' & -> & Hk & ?)]%IH.
  - right. apply andb_true_iff in E as [E%Z.ltb_lt _]. injection Hb as <-.
    exists 0%nat, w, n. split_and!; [lia | done | done].
  - right. exists (S k), w', n'. split_and!; [lia | done | done].
  - by left.
  - right. exists (S k), w', n'. split_and!; [lia | done | done].
Qed.

Lemma lookup_zip_Some {A B : Type} (l1 : list A) (l2 : list B) k x y :
  zip l1 l2 !! k = Some (x, y) → l1 !! k = Some x ∧ l2 !! k = Some y.
Proof. intros (? & ? & [= <- <-] & ? & ?)%lookup_zip_with_Some. done. Qed.

Lemma bounded_alter counts maxes f k n m :
  bounded counts maxes → counts !! k = Some n → maxes !! k = Some m → 0 ≤ f n ≤ m →
  bounded (alter f k counts) maxes.
Proof.
  intros Hb Hn Hm Hf. revert k Hn Hm. unfold bounded in *.
  induction Hb as [|n' m' counts maxes ? Hb IH]; intros [|k] Hn Hm; csimpl; simplify_eq/=; constructor; auto.
Qed.

Lemma add_layers_spec deficit cands maxes counts counts' :
  bounded counts maxes → add_layers deficit cands maxes counts = Ok counts' →
  bounded counts' maxes ∧ zsum counts' = zsum counts + Z.of_nat deficit.
Proof.
  revert counts. induction deficit as [|deficit IH]; intros counts Hb; cbn [add_layers].
  { intros [= <-]. split; [done | lia]. }
  destruct (find_best _ _ _ _) as [j|] eqn:E; [| done].
  apply find_best_spec in E as [|(k & w & n & m & -> & Hk & Hlt)]; [done |].
  apply lookup_zip_Some in Hk as [[_ Hn]%lookup_zip_Some Hm].
  assert (0 ≤ n) as Hn0.
  { destruct (Forall2_lookup_l _ _ _ _ _ Hb Hn) as (? & ? & ?). lia. }
  intros [Hb' Hsum]%IH; [| apply (bounded_alter _ _ _ k n m); [done.. | lia]].
  split; [done |]. rewrite Hsum, (zsum_alter _ _ _ n) by done. lia.
Qed.

Lemma remove_layers_spec surplus cands counts maxes counts' rest :
  bounded counts maxes → remove_layers surplus cands counts = (counts', rest) →
  bounded counts' maxes ∧ zsum counts' = zsum counts - Z.of_nat surplus + Z.of_nat rest.
Proof.
  revert counts. induction surplus as [|surplus IH]; intros counts Hb; cbn [remove_layers].
  { intros [= <- <-]. split; [done | lia]. }
  destruct (find_worst _ _ _ _) as [j|] eqn:E; [| intros [= <- <-]; split; [done | lia]].
  apply find_worst_spec in E as [|(k & w & n & -> & [_ Hn]%lookup_zip_Some & Hlt)]; [done |].
  destruct (Forall2_lookup_l _ _ _ _ _ Hb Hn) as (m & Hm & ?).
  intros [Hb' Hsum]%IH; [| apply (bounded_alter _ _ _ k n m); [done.. | lia]].
  split; [done |]. rewrite Hsum, (zsum_alter _ _ _ n) by done. lia.
Qed.

Lemma redistribute_spec cands n plt c counts counts' maxes :
  node_maxes cands plt c = Ok maxes → bounded counts maxes →
  redistribute_layers cands n plt c counts = Ok counts' →
  bounded counts' maxes ∧ zsum counts' = n.
Proof.
  intros Hm Hb. unfold redistribute_layers. rewrite Hm. simpl.
  intros (total & Ht%usum_Ok & (c1 & Hadd & Hrest)%rbind_Ok)%rbind_Ok.
  destruct (add_layers_spec _ _ _ _ _ Hb Hadd) as [Hb1 Hs1].
  destruct (remove_layers _ _ _) as [c2 rest] eqn:Hrem.
  destruct (remove_layers_spec _ _ _ _ _ _ Hb1 Hrem) as [Hb2 Hs2].
  case_bool_decide; [| done]. injection Hrest as <-. split; [done | lia].
Qed.

Lemma node_maxes_plan cands plt c maxes counts :
  node_maxes cands plt c = Ok maxes → bounded counts maxes → zsum counts = num_layers c →
  plan_ok c plt cands counts.
Proof.
  intros [Hlen Hall]%rimap_from_Ok Hb Hs. split; [| done |].
  - rewrite <- Hlen. by eapply Forall2_length.
  - intros i w n Hw Hn. destruct (Forall2_lookup_l _ _ _ _ _ Hb Hn) as (m & Hm & Hle & Hmax).
    split; [done |]. destruct (Hall i w Hw) as (y & Hy & Hf). simplify_eq.
    unfold node_max in Hf. simpl in Hf. apply rbind_Ok in Hf as (ov & Hov & [= <-]).
    exists ov. by split.
Qed.

(** ** Building the result *)

(** Ranges that follow each other from [start] to [stop]. *)
Fixpoint contiguous (start stop : Z) (rs : list LayerRange) : Prop :=
  match rs with
  | [] => start = stop
  | r :: rs' => rstart r = start ∧ start ≤ rend r ∧ contiguous (rend r) stop rs'
  end.

Lemma build_assignments_spec pw pc n i start l asg :
  Forall (λ wc, 0 ≤ wc.2) l →
  build_assignments pw pc n i start l = Ok asg →
  contiguous start (start + zsum l.*2) (layer_range <$> asg) ∧
  la_node_id <$> asg = (λ wc, node_id wc.1) <$> l ∧
  (λ a, range_len (layer_range a)) <$> asg = l.*2 ∧
  ∀ k a, asg !! k = Some a →
    role a = if bool_decide (i + k = 0)%nat then Head
             else if bool_decide (i + k = n - 1)%nat then Tail else Middle.
Proof.
  revert i start asg. induction l as [|[w n'] l IH]; intros i start asg Hl; simpl.
  { intros [= <-]. split_and!; [simpl; lia | done | done | done]. }
  apply Forall_cons in Hl as [Hn Hl]. simpl in Hn.
  intros (e & He & (wm & _ & (cm & _ & (rest & Hrest & [= <-])%rbind_Ok)%rbind_Ok)%rbind_Ok)%rbind_Ok.
  apply checked_inv in He as [-> _].
  destruct (IH _ _ _ Hl Hrest) as (Hc & Hid & Hlen & Hrole). csimpl.
  split_and!; [done | lia | | by rewrite Hid | | ].
  - by replace (start + (n' + zsum l.*2)) with (start + n' + zsum l.*2) by lia.
  - rewrite Hlen. f_equal. unfold range_len. simpl. lia.
  - intros [|k] a Hk; simplify_eq/=; [by rewrite Nat.add_0_r |].
    rewrite <- Nat.add_succ_comm. by apply Hrole.
Qed.

Lemma build_result_spec input cands counts excluded res plt :
  plan_ok (model_config input) plt cands counts →
  build_result input cands counts excluded = Ok res →
  contiguous 0 (num_layers (model_config input)) (layer_range <$> assignments res) ∧
  la_node_id <$> assignments res = node_id <$> cands ∧
  (λ a, range_len (layer_range a)) <$> assignments res = counts ∧
  excluded_nodes res = excluded ∧
  ∀ k a, assignments res !! k = Some a →
    role a = if bool_decide (k = 0)%nat then Head
             else if bool_decide (k = length cands - 1)%nat then Tail else Middle.
Proof.
  intros [Hlen Hsum Hfits]. unfold build_result.
  intros (pw & _ & (pc & _ & (asg & Hasg & (b & _ & [= <-])%rbind_Ok)%rbind_Ok)%rbind_Ok)%rbind_Ok.
  assert ((zip cands counts).*2 = counts) as Hsnd by (apply snd_zip; lia).
  assert ((zip cands counts).*1 = cands) as Hfst by (apply fst_zip; lia).
  apply build_assignments_spec in Hasg as (Hc & Hid & Hl & Hr).
  - rewrite Hsnd in Hc, Hl. rewrite Z.add_0_l, Hsum in Hc. simpl. split_and!; try done.
    rewrite Hid. rewrite <- Hfst at 2. by rewrite <- list_fmap_compose.
  - apply Forall_forall. intros [w n] Hin. apply list_elem_of_lookup in Hin as [k [Hw Hn]%lookup_zip_Some].
    by apply (Hfits k w n).
Qed.

(** ** Auto *)

Lemma slowest_idx_lt cands : cands ≠ [] → (slowest_idx cands < length cands)%nat.
Proof.
  intros Hne. unfold slowest_idx.
  destruct (max_by_Some cmp_snd (imap (λ i w, (i, decode_ms_per_layer w)) cands)) as [m Hm].
  { intros E. apply (f_equal length) in E. rewrite length_imap in E. destruct cands; done. }
  rewrite Hm. simpl. apply max_by_elem, elem_of_lookup_imap in Hm as (i & w & -> & Hi).
  by eapply lookup_lt_Some.
Qed.

Lemma prune_spec fuel cands ex n plt c hop :
  match prune fuel cands ex n plt c hop with
  | Ok (cands', ex') =>
      (node_id <$> cands') ++ (ex_node_id <$> ex') ≡ₚ (node_id <$> cands) ++ (ex_node_id <$> ex) ∧
      (∀ w, w ∈ cands' → w ∈ cands) ∧ (cands ≠ [] → cands' ≠ [])
  | _ => True
  end.
Proof.
  revert cands ex. induction fuel as [|fuel IH]; intros cands ex; cbn [prune]; [done |].
  case_bool_decide as Hlen; [done |].
  destruct (estimate_pipeline_latency cands _ _ _ _) as [lw| |]; [| done..]. cbn [rbind].
  destruct (index cands (slowest_idx cands)) as [removed| |] eqn:Hi; [| done..]. cbn [rbind].
  destruct (model_fits _ _ _ _) as [[]| |]; [| done..]. cbn [rbind negb].
  destruct (estimate_pipeline_latency (delete _ _) _ _ _ _) as [lo| |]; [| done..]. cbn [rbind].
  destruct (flt lo lw); [| done].
  apply index_Ok in Hi. set (e := {| ex_node_id := _ |}).
  specialize (IH (delete (slowest_idx cands) cands) (ex ++ [e])).
  destruct (prune fuel _ _ _ _ _ _) as [[cands' ex']| |]; [| done..]. destruct IH as (Hp & Hsub & Hne).
  split_and!.
  - rewrite Hp, fmap_app. csimpl.
    pose proof (delete_Permutation cands _ _ Hi) as Hd.
    transitivity ((node_id <$> removed :: delete (slowest_idx cands) cands) ++ (ex_node_id <$> ex)).
    { csimpl. solve_Permutation. }
    by rewrite <- Hd.
  - intros w Hw. apply Hsub in Hw. rewrite (delete_Permutation cands _ _ Hi). by right.
  - intros Hc. apply Hne. intros E. apply (f_equal length) in E. rewrite length_delete in E by eauto.
    simpl in E. lia.
Qed.

(** More passes than candidates are never needed. *)
Lemma prune_fuel fuel fuel' cands ex n plt c hop :
  (length cands < fuel)%nat → (length cands < fuel')%nat →
  prune fuel cands ex n plt c hop = prune fuel' cands ex n plt c hop.
Proof.
  revert fuel' cands ex. induction fuel as [|fuel IH]; intros [|fuel'] cands ex Hf Hf'; [lia.. |].
  cbn [prune]. case_bool_decide as Hlen; [done |].
  destruct (estimate_pipeline_latency cands _ _ _ _) as [lw| |]; [| done..]. cbn [rbind].
  destruct (index cands (slowest_idx cands)) as [removed| |] eqn:Hi; [| done..]. cbn [rbind].
  destruct (model_fits _ _ _ _) as [[]| |]; [| done..]. cbn [rbind negb].
  destruct (estimate_pipeline_latency (delete _ _) _ _ _ _) as [lo| |]; [| done..]. cbn [rbind].
  destruct (flt lo lw); [| done]. apply index_Ok in Hi.
  apply IH; rewrite length_delete by eauto; lia.
Qed.

Lemma f32_to_usize_nonneg x : 0 ≤ f32_to_usize x.
Proof.
  destruct x as [| [] | |[] m e]; simpl; unfold USIZE_MAX; try lia.
  apply Z.min_glb; [lia |]. rewrite Z.shiftl_nonneg. lia.
Qed.

Lemma clamp_bounded ideals maxes :
  length ideals = length maxes → Forall (λ z, 0 ≤ z) ideals → Forall (λ z, 0 ≤ z) maxes →
  bounded (zip_with Z.min ideals maxes) maxes.
Proof.
  unfold bounded. revert maxes. induction ideals as [|x xs IH]; intros [|m ms] Hlen Hx Hm; simplify_eq/=; [constructor |].
  apply Forall_cons in Hx as [? ?], Hm as [? ?]. constructor; [lia | by apply IH].
Qed.

Lemma node_maxes_nonneg cands plt c maxes :
  0 ≤ plt → node_maxes cands plt c = Ok maxes → Forall (λ z, 0 ≤ z) maxes ∧ length maxes = length cands.
Proof.
  intros Hp [Hlen Hall]%rimap_from_Ok. split; [| done]. apply Forall_lookup. intros i m Hm.
  destruct (lookup_lt_is_Some_2 cands i) as [w Hw]; [rewrite <- Hlen; by eapply lookup_lt_Some |].
  destruct (Hall i w Hw) as (y & Hy & Hf). simplify_eq.
  unfold node_max in Hf. apply rbind_Ok in Hf as (ov & _ & [= <-]). by apply max_layers_nonneg.
Qed.

Lemma schedule_auto_plan input cands res :
  cands ≠ [] → schedule_auto input cands = Ok res →
  ∃ plt cands' counts excluded, per_layer_total_of input = Ok plt ∧
    plan_ok (model_config input) plt cands' counts ∧
    build_result input cands' counts excluded = Ok res ∧
    (∀ w, w ∈ cands' → w ∈ cands) ∧ cands' ≠ [] ∧
    (node_id <$> cands') ++ (ex_node_id <$> excluded) ≡ₚ node_id <$> cands.
Proof.
  intros Hne. unfold schedule_auto. intros (plt & Hplt & Hrest)%rbind_Ok.
  apply rbind_Ok in Hrest as ([cands' ex] & Hprune & Hrest).
  pose proof (prune_spec (S (length cands)) cands [] (num_layers (model_config input)) plt
                (model_config input) (hop_latency_ms input)) as Hp.
  rewrite Hprune in Hp. destruct Hp as (Hperm & Hsub & Hne').
  apply rbind_Ok in Hrest as (maxes & Hm & (counts & Hr & Hb)%rbind_Ok).
  destruct (node_maxes_nonneg _ _ _ _ (per_layer_total_nonneg _ _ Hplt) Hm) as [Hm0 Hml].
  apply (redistribute_spec _ _ _ _ _ _ _ Hm) in Hr as [Hbd Hsum].
  - exists plt, cands', counts, ex. split_and!; try done; [| by apply Hne' | ].
    + by eapply node_maxes_plan.
    + by rewrite app_nil_r in Hperm.
  - apply clamp_bounded; [by rewrite length_fmap | | done].
    apply Forall_fmap, Forall_true. intros w. apply f32_to_usize_nonneg.
Qed.

(** ** Equal split *)

Lemma insert_by_memory_perm cands i l : insert_by_memory cands i l ≡ₚ i :: l.
Proof.
  induction l as [|j l IH]; simpl; [done |]. destruct (_ <? _); [| done].
  rewrite IH. apply Permutation_swap.
Qed.

Lemma memory_order_perm cands : memory_order cands ≡ₚ seq 0 (length cands).
Proof.
  unfold memory_order. induction (seq 0 (length cands)) as [|i l IH]; simpl; [done |].
  by rewrite insert_by_memory_perm, IH.
Qed.

Lemma foldl_alter_lookup (idxs : list nat) (counts : list Z) k :
  NoDup idxs →
  foldl (λ counts idx, alter (Z.add 1) idx counts) counts idxs !! k
    = if bool_decide (k ∈ idxs) then Z.add 1 <$> counts !! k else counts !! k.
Proof.
  revert counts. induction idxs as [|i idxs IH]; intros counts Hnd; [done |].
  apply NoDup_cons in Hnd as [Hi Hnd]. simpl. rewrite IH by done.
  destruct (decide (k = i)) as [->|Hne].
  - rewrite bool_decide_false by done. rewrite bool_decide_true by left. apply list_lookup_alter_eq.
  - rewrite list_lookup_alter_ne by done.
    assert (bool_decide (k ∈ i :: idxs) = bool_decide (k ∈ idxs)) as ->; [| done].
    apply bool_decide_ext. rewrite elem_of_cons. naive_solver.
Qed.

Lemma foldl_alter_sum (idxs : list nat) (counts : list Z) :
  (∀ i, i ∈ idxs → (i < length counts)%nat) →
  zsum (foldl (λ counts idx, alter (Z.add 1) idx counts) counts idxs)
    = zsum counts + Z.of_nat (length idxs).
Proof.
  revert counts. induction idxs as [|i idxs IH]; intros counts Hall; [simpl; lia |].
  destruct (lookup_lt_is_Some_2 counts i) as [x Hx]; [apply Hall; left |]. simpl.
  rewrite IH by (intros j Hj; rewrite length_alter; apply Hall; by right).
  rewrite (zsum_alter _ _ _ x) by done. lia.
Qed.

Definition equal_counts (input : SchedulerInput) (cands : list WorkerCapabilities) : list Z :=
  let n := length cands in
  foldl (λ counts idx, alter (Z.add 1) idx counts) (replicate n (num_layers (model_config input) / Z.of_nat n))
    (take (Z.to_nat (num_layers (model_config input) mod Z.of_nat n)) (memory_order cands)).

Lemma equal_counts_spec input cands :
  cands ≠ [] → 0 ≤ num_layers (model_config input) →
  length (equal_counts input cands) = length cands ∧
  zsum (equal_counts input cands) = num_layers (model_config input) ∧
  ∀ k n, equal_counts input cands !! k = Some n →
    n = num_layers (model_config input) / Z.of_nat (length cands) ∨
    n = num_layers (model_config input) / Z.of_nat (length cands) + 1.
Proof.
  intros Hne HL. unfold equal_counts. set (L := num_layers (model_config input)) in *.
  assert (0 < Z.of_nat (length cands)) as Hpos by (destruct cands; [done | simpl; lia]).
  set (n := length cands) in *. set (idxs := take _ _).
  assert (NoDup (memory_order cands)) as Hnd by (rewrite memory_order_perm; apply NoDup_seq).
  assert (∀ i, i ∈ idxs → (i < n)%nat) as Hin.
  { intros i (k & Hi%list_elem_of_lookup_2 & _)%elem_of_take. rewrite memory_order_perm in Hi.
    apply elem_of_seq in Hi. lia. }
  pose proof (Z.mod_pos_bound L (Z.of_nat n) Hpos). pose proof (Z.div_mod L (Z.of_nat n)).
  assert (length idxs = Z.to_nat (L mod Z.of_nat n)) as Hlen.
  { unfold idxs. rewrite length_take, memory_order_perm, length_seq. fold n. lia. }
  split_and!.
  - clear -idxs. assert (∀ l : list Z, length (foldl (λ counts idx, alter (Z.add 1) idx counts) l idxs) = length l) as ->.
    { induction idxs as [|i idxs IH]; intros l; simpl; [done |]. by rewrite IH, length_alter. }
    by rewrite length_replicate.
  - rewrite foldl_alter_sum by (rewrite length_replicate; done). rewrite zsum_replicate, Hlen. lia.
  - intros k x. rewrite foldl_alter_lookup by (eapply sublist_NoDup; [exact Hnd | apply sublist_take]).
    case_bool_decide.
    + intros (y & [-> _]%lookup_replicate & ->)%fmap_Some. right. lia.
    + intros [-> _]%lookup_replicate. by left.
Qed.

Lemma check_memory_Ok plt c n i l :
  check_memory plt c n i l = Ok () →
  ∀ k w count, l !! k = Some (w, count) →
    ∃ ov, role_overhead (i + k) n c = Ok ov ∧ count ≤ max_layers_for_node (gpu_memory_available w) plt ov.
Proof.
  revert i. induction l as [|[w count] l IH]; intros i Hc k w' count' Hk; [done |].
  simpl in Hc. apply rbind_Ok in Hc as (ov & Hov & Hc).
  destruct (Z.ltb_spec (max_layers_for_node (gpu_memory_available w) plt ov) count).
  { apply rbind_Ok in Hc as (? & _ & ?). done. }
  destruct k as [|k]; simplify_eq/=.
  - exists ov. rewrite Nat.add_0_r. by split.
  - rewrite <- Nat.add_succ_comm. by apply IH.
Qed.

Lemma schedule_equal_plan input cands res :
  cands ≠ [] → 0 ≤ num_layers (model_config input) → schedule_equal input cands = Ok res →
  ∃ plt, per_layer_total_of input = Ok plt ∧
    plan_ok (model_config input) plt cands (equal_counts input cands) ∧
    build_result input cands (equal_counts input cands) [] = Ok res.
Proof.
  intros Hne HL. unfold schedule_equal. intros (plt & Hplt & ([] & Hc & Hb)%rbind_Ok)%rbind_Ok.
  exists plt. split; [done |]. split; [| done].
  destruct (equal_counts_spec input cands Hne HL) as (Hlen & Hsum & Hcnt).
  split; [done | done |]. intros i w n Hw Hn. split.
  - assert (0 < Z.of_nat (length cands)) by (destruct cands; [done | simpl; lia]).
    pose proof (Z.div_pos (num_layers (model_config input)) (Z.of_nat (length cands))).
    destruct (Hcnt i n Hn); lia.
  - apply (check_memory_Ok _ _ _ 0 _ Hc i w n). apply lookup_zip_with_Some. eauto.
Qed.

(** ** Manual *)

Definition count_true (l : list bool) : nat := length (filter (λ b : bool, b) l).

Lemma count_true_cons b l : count_true (b :: l) = ((if b then 1 else 0) + count_true l)%nat.
Proof. unfold count_true. rewrite filter_cons. by destruct b. Qed.

Lemma count_true_insert l i : l !! i = Some false → count_true (<[i := true]> l) = S (count_true l).
Proof.
  revert i. induction l as [|b l IH]; intros [|i] Hi; simplify_eq/=; rewrite !count_true_cons; [done |].
  rewrite (IH i Hi). lia.
Qed.

Lemma cover_spec ls cov cov' :
  cover ls cov = Ok cov' →
  length cov' = length cov ∧ count_true cov' = (count_true cov + length ls)%nat.
Proof.
  revert cov. induction ls as [|l ls IH]; intros cov; simpl; [intros [= <-]; lia |].
  intros (b & Hb%index_Ok & Hrest)%rbind_Ok. destruct b; [done |].
  apply IH in Hrest as [Hlen Hcnt]. rewrite length_insert in Hlen. rewrite count_true_insert in Hcnt by done.
  split; [done | lia].
Qed.

Lemma cover_all_spec n l cov cov' :
  cover_all n l cov = Ok cov' →
  length cov' = length cov ∧
  Z.of_nat (count_true cov') = Z.of_nat (count_true cov) + zsum ((λ a, range_len (ma_layer_range a)) <$> l).
Proof.
  revert cov. induction l as [|a l IH]; intros cov; csimpl; [intros [= <-]; split; [done | lia] |].
  destruct (n <? rend (ma_layer_range a)); [done |].
  intros (cov1 & [H1 H2]%cover_spec & [H3 H4]%IH)%rbind_Ok. unfold range_layers in H2.
  rewrite length_seq in H2. unfold range_len in *. split; [congruence | lia].
Qed.

Lemma all_covered l : forallb id l = true → count_true l = length l.
Proof.
  induction l as [|b l IH]; simpl; [done |]. intros [Hb Hl]%andb_true_iff.
  rewrite count_true_cons, IH by done. by destruct b.
Qed.

Lemma match_assignment_Ok cands plt c n i a w count :
  match_assignment cands plt c n i a = Ok (w, count) →
  w ∈ cands ∧ node_id w = ma_node_id a ∧ count = range_len (ma_layer_range a) ∧
  ∃ ov, role_overhead i n c = Ok ov ∧ count ≤ max_layers_for_node (gpu_memory_available w) plt ov.
Proof.
  unfold match_assignment. destruct (list_find _ cands) as [[k w']|] eqn:Hf; [| done].
  apply list_find_Some in Hf as (Hk & Hid & _).
  intros (max & Hmax & Hrest)%rbind_Ok. unfold node_max in Hmax. apply rbind_Ok in Hmax as (ov & Hov & [= <-]).
  destruct (Z.ltb_spec (max_layers_for_node (gpu_memory_available w') plt ov) (range_len (ma_layer_range a))); [done |].
  injection Hrest as -> <-. split_and!; [by eapply list_elem_of_lookup_2 | done | done | eauto].
Qed.

(** The plan of a manual assignment that covers every layer. *)
Lemma schedule_manual_matched input cands asg plt cov matched :
  0 ≤ num_layers (model_config input) →
  cover_all (num_layers (model_config input)) asg (replicate (Z.to_nat (num_layers (model_config input))) false) = Ok cov →
  forallb id cov = true → rimap_from (match_assignment cands plt (model_config input) (length asg)) 0 asg = Ok matched →
  plan_ok (model_config input) plt matched.*1 matched.*2 ∧
  (∀ w, w ∈ matched.*1 → w ∈ cands) ∧
  matched.*2 = (λ a, range_len (ma_layer_range a)) <$> asg ∧
  node_id <$> matched.*1 = ma_node_id <$> asg.
Proof.
  intros HL Hcov Hall Hm.
  apply rimap_from_Ok in Hm as [Hlen Hmatch].
  assert (∀ k w n, matched !! k = Some (w, n) → ∃ a, asg !! k = Some a ∧
    match_assignment cands plt (model_config input) (length asg) k a = Ok (w, n)) as Hback.
  { intros k w n Hk. destruct (lookup_lt_is_Some_2 asg k) as [a Ha]; [rewrite <- Hlen; by eapply lookup_lt_Some |].
    exists a. split; [done |]. destruct (Hmatch k a Ha) as (y & Hy & Hf). by simplify_eq. }
  assert (matched.*2 = (λ a, range_len (ma_layer_range a)) <$> asg) as Hcounts.
  { apply list_eq. intros k. rewrite !list_lookup_fmap. destruct (matched !! k) as [[w n]|] eqn:Hk.
    - destruct (Hback k w n Hk) as (a & Ha & (_ & _ & -> & _)%match_assignment_Ok). by rewrite Ha.
    - apply lookup_ge_None in Hk. symmetry. rewrite fmap_None. apply lookup_ge_None. lia. }
  split_and!; try done.
  - split.
    + by rewrite !length_fmap.
    + apply cover_all_spec in Hcov as [Hl Hc]. rewrite all_covered, Hl in Hc by done.
      rewrite length_replicate in Hc. rewrite Hcounts.
      assert (count_true (replicate (Z.to_nat (num_layers (model_config input))) false) = 0%nat) as E.
      { clear. induction (Z.to_nat _); [done | by simpl; rewrite count_true_cons]. }
      rewrite E in Hc. lia.
    + intros i w n Hw Hn. rewrite list_lookup_fmap in Hw. rewrite list_lookup_fmap in Hn.
      destruct (matched !! i) as [[w' n']|] eqn:Hi; simplify_eq/=.
      destruct (Hback i w n Hi) as (a & Ha & (_ & _ & -> & ov & Hov & Hle)%match_assignment_Ok).
      split; [unfold range_len; lia |]. exists ov. by rewrite length_fmap, Hlen.
  - intros w ([w' n] & -> & Hin)%list_elem_of_fmap. apply list_elem_of_lookup in Hin as [k Hk].
    by destruct (Hback k w' n Hk) as (a & _ & (? & _)%match_assignment_Ok).
  - apply list_eq. intros k. rewrite !list_lookup_fmap. destruct (matched !! k) as [[w n]|] eqn:Hk; simpl.
    + destruct (Hback k w n Hk) as (a & Ha & (_ & E & _)%match_assignment_Ok). rewrite Ha. simpl. by rewrite E.
    + apply lookup_ge_None in Hk. symmetry. rewrite fmap_None. apply lookup_ge_None. lia.
Qed.

Lemma schedule_manual_plan input cands asg res :
  0 ≤ num_layers (model_config input) → schedule_manual input cands asg = Ok res →
  ∃ plt matched, per_layer_total_of input = Ok plt ∧
    plan_ok (model_config input) plt matched.*1 matched.*2 ∧
    build_result input matched.*1 matched.*2 [] = Ok res ∧
    (∀ w, w ∈ matched.*1 → w ∈ cands) ∧
    matched.*2 = (λ a, range_len (ma_layer_range a)) <$> asg ∧
    node_id <$> matched.*1 = ma_node_id <$> asg.
Proof.
  intros HL. unfold schedule_manual.
  intros (plt & Hplt & ([] & _ & (cov & Hcov & Hrest)%rbind_Ok)%rbind_Ok)%rbind_Ok.
  destruct (forallb id cov) eqn:Hall; [| done]. simpl in Hrest.
  apply rbind_Ok in Hrest as (matched & Hm & Hb). exists plt, matched.
  destruct (schedule_manual_matched input cands asg plt cov matched) as (? & ? & ? & ?); by try split_and!.
Qed.

(** ** Properties *)

Definition SchedulerInput_wf (input : SchedulerInput) : Prop := 0 ≤ num_layers (model_config input).

(** Every mode ends in [build_result] on a plan over some of the candidates. *)
Lemma schedule_plan input res :
  SchedulerInput_wf input → schedule input = Ok res →
  ∃ plt cands counts excluded, per_layer_total_of input = Ok plt ∧
    plan_ok (model_config input) plt cands counts ∧
    build_result input cands counts excluded = Ok res ∧ (∀ w, w ∈ cands → w ∈ candidates_of input).
Proof.
  intros HL. unfold schedule. case_bool_decide as Hne; [done |].
  intros (? & _ & Hrest)%rbind_Ok.
  assert (candidates_of input ≠ []) as Hc by (intros E; by rewrite E in Hne).
  destruct (mode input) as [| |asg].
  - apply schedule_auto_plan in Hrest as (plt & cands & counts & ex & ? & ? & ? & ? & _); [| done].
    exists plt, cands, counts, ex. by split_and!.
  - apply schedule_equal_plan in Hrest as (plt & ? & ? & ?); [| done..].
    exists plt, (candidates_of input), (equal_counts input (candidates_of input)), []. by split_and!.
  - apply schedule_manual_plan in Hrest as (plt & m & ? & ? & ? & ? & _); [| done].
    exists plt, m.*1, m.*2, []. by split_and!.
Qed.

Lemma no_duplicates_NoDup seen l :
  no_duplicates seen l = Ok () → NoDup (ma_node_id <$> l) ∧ ∀ a, a ∈ l → ma_node_id a ∉ seen.
Proof.
  revert seen. induction l as [|a l IH]; intros seen; cbn [no_duplicates]; [intros _; split; [constructor | set_solver] |].
  case_bool_decide as Hs; [done |]. intros (Hnd & Hseen)%IH. split.
  - csimpl. constructor; [| done]. intros (b & Hb & Hin)%list_elem_of_fmap. apply (Hseen b Hin). rewrite <- Hb. left.
  - intros b [->|Hb]%elem_of_cons; [done |]. specialize (Hseen b Hb). set_solver.
Qed.

(** Candidates with different ids get at most one assignment each. *)
Lemma schedule_NoDup input res :
  SchedulerInput_wf input → NoDup (node_id <$> candidates_of input) → schedule input = Ok res →
  NoDup (la_node_id <$> assignments res).
Proof.
  intros HL Hnd. unfold schedule. case_bool_decide as Hne; [done |].
  intros (? & _ & Hrest)%rbind_Ok.
  assert (candidates_of input ≠ []) as Hc by (intros E; by rewrite E in Hne).
  destruct (mode input) as [| |asg].
  - apply schedule_auto_plan in Hrest as (plt & cands & counts & ex & _ & Hplan & Hb & _ & _ & Hperm); [| done].
    destruct (build_result_spec _ _ _ _ _ _ Hplan Hb) as (_ & -> & _). rewrite <- Hperm in Hnd.
    by apply NoDup_app in Hnd as [? _].
  - apply schedule_equal_plan in Hrest as (plt & _ & Hplan & Hb); [| done..].
    by destruct (build_result_spec _ _ _ _ _ _ Hplan Hb) as (_ & -> & _).
  - pose proof Hrest as Hman. apply schedule_manual_plan in Hrest as (plt & m & _ & Hplan & Hb & _ & _ & Hids); [| done].
    destruct (build_result_spec _ _ _ _ _ _ Hplan Hb) as (_ & -> & _). rewrite Hids.
    unfold schedule_manual in Hman. apply rbind_Ok in Hman as (? & _ & Hman).
    apply rbind_Ok in Hman as ([] & Hno & _). by apply no_duplicates_NoDup in Hno as [? _].
Qed.

Lemma fits_memory n mem plt ov :
  0 ≤ plt → 0 ≤ n → n ≤ max_layers_for_node mem plt ov → n = 0 ∨ n * plt + ov ≤ mem.
Proof.
  unfold max_layers_for_node, saturating_sub. intros Hp Hn.
  destruct (Z.eqb_spec plt 0); [left; lia |]. intros Hle.
  destruct (Z.eq_dec n 0); [by left |]. right.
  pose proof (Z.mul_div_le (Z.max 0 (mem - ov)) plt). nia.
Qed.

Lemma manual_counts input asg res :
  SchedulerInput_wf input → mode input = Manual asg → schedule input = Ok res →
  la_node_id <$> assignments res = ma_node_id <$> asg ∧
  (λ a, range_len (layer_range a)) <$> assignments res = (λ a, range_len (ma_layer_range a)) <$> asg.
Proof.
  intros HL Hmode. unfold schedule. rewrite Hmode. case_bool_decide as Hne; [done |].
  intros (? & _ & Hrest)%rbind_Ok.
  apply schedule_manual_plan in Hrest as (plt & m & _ & Hplan & Hb & _ & Hc & Hi); [| done].
  destruct (build_result_spec _ _ _ _ _ _ Hplan Hb) as (_ & Hid & Hlen & _ & _).
  by rewrite Hid, Hlen.
Qed.

Lemma contiguous_lens start stop stop' rs rs' :
  contiguous start stop rs → contiguous start stop' rs' → range_len <$> rs = range_len <$> rs' → rs = rs'.
Proof.
  revert start rs'. induction rs as [|[a b] rs IH]; intros start [|[a' b'] rs']; csimpl; [done.. |].
  intros (-> & ? & Hc) (-> & ? & Hc') [=Hl Hls]. unfold range_len in Hl. simpl in *. assert (b = b') as -> by lia. f_equal. by eapply IH.
Qed.

(** The assignment at position [k] goes to a candidate, and fits in its memory
    with the overhead of the position, unless its range is empty. *)
Definition assignment_fits (input : SchedulerInput) (plt : Z) (n k : nat) (a : LayerAssignment) : Prop :=
  ∃ w ov, w ∈ candidates_of input ∧ node_id w = la_node_id a ∧ role_overhead k n (model_config input) = Ok ov ∧
    (range_len (layer_range a) = 0 ∨ range_len (layer_range a) * plt + ov ≤ gpu_memory_available w).


(** Auto mode accounts for every node: each candidate either has an
    assignment or is reported as excluded, exactly once, and at least one is
    assigned. *)
Theorem auto_accounts_for_all_nodes input res :
  SchedulerInput_wf input → mode input = Auto → schedule input = Ok res →
  (la_node_id <$> assignments res) ++ (ex_node_id <$> excluded_nodes res) ≡ₚ node_id <$> candidates_of input ∧
  assignments res ≠ [].
Proof.
  intros HL Hmode. unfold schedule. rewrite Hmode. case_bool_decide as Hne; [done |].
  intros (? & _ & Hrest)%rbind_Ok.
  assert (candidates_of input ≠ []) as Hc by (intros E; by rewrite E in Hne).
  apply schedule_auto_plan in Hrest as (plt & cands & counts & ex & _ & Hplan & Hb & _ & Hne' & Hperm); [| done].
  destruct (build_result_spec _ _ _ _ _ _ Hplan Hb) as (_ & Hid & _ & Hex & _).
  rewrite Hid, Hex. split; [done |]. intros E. rewrite E in Hid. by destruct cands.
Qed.

(** EqualSplit gives every candidate, in order, the quotient of layers by
    nodes or one more. *)
Theorem equal_split_balanced input res :
  SchedulerInput_wf input → mode input = EqualSplit → schedule input = Ok res →
  la_node_id <$> assignments res = node_id <$> candidates_of input ∧
  ∀ k a, assignments res !! k = Some a →
    let q := num_layers (model_config input) / Z.of_nat (length (candidates_of input)) in
    range_len (layer_range a) = q ∨ range_len (layer_range a) = q + 1.
Proof.
  intros HL Hmode. unfold schedule. rewrite Hmode. case_bool_decide as Hne; [done |].
  intros (? & _ & Hrest)%rbind_Ok.
  assert (candidates_of input ≠ []) as Hc by (intros E; by rewrite E in Hne).
  apply schedule_equal_plan in Hrest as (plt & _ & Hplan & Hb); [| done..].
  destruct (build_result_spec _ _ _ _ _ _ Hplan Hb) as (_ & Hid & Hlen & _ & _).
  split; [done |]. intros k a Ha.
  destruct (equal_counts_spec input (candidates_of input) Hc HL) as (_ & _ & Hcnt).
  apply (Hcnt k). by rewrite <- Hlen, list_lookup_fmap, Ha.
Qed.

(** ** Redistribution finds every layer a place when there is one *)

Lemma find_best_keeps l i j bs : ∃ j', find_best l i (Some j) bs = Some j'.
Proof.
  revert i j bs. induction l as [|[[w n] m] l IH]; intros i j bs; simpl; [eauto |].
  destruct ((n <? m) && fgt (speed w) bs); apply IH.
Qed.

Lemma find_best_finds l i k w n m :
  l !! k = Some (w, n, m) → n < m → fgt (speed w) f32_MIN = true →
  ∃ j, find_best l i None f32_MIN = Some j.
Proof.
  revert i k. induction l as [|[[w' n'] m'] l IH]; intros i k Hk Hlt Hs; [done |]. simpl.
  destruct k as [|k]; simplify_eq/=.
  - rewrite (proj2 (Z.ltb_lt _ _) Hlt), Hs. simpl. apply find_best_keeps.
  - destruct ((n' <? m') && fgt (speed w') f32_MIN); [apply find_best_keeps | by eapply IH].
Qed.

Lemma bounded_room counts maxes :
  bounded counts maxes → zsum counts < zsum maxes → ∃ k n m, counts !! k = Some n ∧ maxes !! k = Some m ∧ n < m.
Proof.
  unfold bounded. induction 1 as [|n m counts maxes Hnm Hb IH]; csimpl; [lia |]. intros Hlt.
  destruct (Z.lt_ge_cases n m); [by exists 0%nat, n, m |].
  change (n + zsum counts < m + zsum maxes) in Hlt.
  destruct IH as (k & n' & m' & ? & ? & ?); [lia |]. by exists (S k), n', m'.
Qed.

Lemma add_layers_succeeds deficit cands maxes counts :
  bounded counts maxes → length counts = length cands →
  Forall (λ w, fgt (speed w) f32_MIN = true) cands →
  zsum counts + Z.of_nat deficit ≤ zsum maxes →
  ∃ counts', add_layers deficit cands maxes counts = Ok counts'.
Proof.
  revert counts. induction deficit as [|deficit IH]; intros counts Hb Hlen Hsp Hroom; cbn [add_layers]; [eauto |].
  destruct (bounded_room counts maxes) as (k & n & m & Hn & Hm & Hlt); [done | lia |].
  destruct (lookup_lt_is_Some_2 cands k) as [w Hw]; [rewrite <- Hlen; by eapply lookup_lt_Some |].
  rewrite Forall_forall in Hsp.
  destruct (find_best_finds (zip (zip cands counts) maxes) 0 k w n m) as [j Hj]; [| done | |].
  { apply lookup_zip_with_Some. eexists (w, n), m. split_and!; [done | | done].
    apply lookup_zip_with_Some. eauto. }
  { apply Hsp. by eapply list_elem_of_lookup_2. }
  rewrite Hj. apply find_best_spec in Hj as [|(k' & w' & n' & m' & -> & Hk' & Hlt')]; [done |].
  apply lookup_zip_Some in Hk' as [[_ Hn']%lookup_zip_Some Hm'].
  destruct (Forall2_lookup_l _ _ _ _ _ Hb Hn') as (? & ? & ?).
  apply IH; [| by rewrite length_alter | by apply Forall_forall | rewrite (zsum_alter _ _ _ n') by done; lia].
  apply (bounded_alter _ _ _ _ n' m'); [done.. | lia].
Qed.

Lemma usum_total l : Forall (λ z, 0 ≤ z) l → zsum l < 2 ^ 64 → usum l = Ok (zsum l).
Proof.
  induction 1 as [|x l Hx Hl IH]; [done |]. csimpl. change (x + zsum l < 2 ^ 64 → 
    rbind (usum l) (uadd x) = Ok (x + zsum l)). intros Hlt.
  assert (0 ≤ zsum l) by (clear -Hl; induction Hl; simpl in *; lia).
  rewrite IH by lia. simpl. apply checked_Ok. split; lia.
Qed.

(** When the memory ceilings of the nodes add up to the model's layers and
    the counts start within them and at most at the total, redistribution
    succeeds: the loop ends, every layer is assigned and no ceiling is
    exceeded. *)
Theorem redistribute_succeeds cands n plt c counts maxes :
  node_maxes cands plt c = Ok maxes → bounded counts maxes →
  Forall (λ w, fgt (speed w) f32_MIN = true) cands →
  zsum counts ≤ n → n ≤ zsum maxes → n < 2 ^ 64 →
  ∃ counts', redistribute_layers cands n plt c counts = Ok counts' ∧
    zsum counts' = n ∧ bounded counts' maxes.
Proof.
  intros Hm Hb Hsp Hle Hcap Hw.
  assert (Forall (λ z, 0 ≤ z) counts) as Hpos.
  { apply Forall_forall. intros z [k Hk]%list_elem_of_lookup.
    destruct (Forall2_lookup_l _ _ _ _ _ Hb Hk) as (? & ? & ?). lia. }
  assert (length counts = length cands) as Hlen.
  { apply rimap_from_Ok in Hm as [<- _]. by eapply Forall2_length. }
  destruct (add_layers_succeeds (Z.to_nat (n - zsum counts)) cands maxes counts) as [counts' Hadd];
    [done.. | lia |].
  destruct (add_layers_spec _ _ _ _ _ Hb Hadd) as [Hb' Hs'].
  exists counts'. split_and!; [| lia | done].
  unfold redistribute_layers. rewrite usum_total by (done || lia). rewrite Hm. simpl. rewrite Hadd. simpl.
  by replace (Z.to_nat (zsum counts - n)) with 0%nat by lia.
Qed.

Module LayerExample.
Definition cfg : ModelConfig :=
  {| hidden_size := 8; num_layers := 7; num_q_heads := 2; num_kv_heads := 2; head_dim := 4;
     intermediate_size := 16; vocab_size := 32; rope_theta := f32_of_Z 10000;
     rms_norm_eps := f32_lit 1 5; max_seq_len := 64 |}.
Definition worker (id : string) (mem : Z) (ms : f32) : WorkerCapabilities :=
  {| node_id := id; gpu_model := "sim"; gpu_memory_available := mem; compute_capability := (8, 6);
     decode_ms_per_layer := ms; prefill_ms_per_layer_128 := f32_of_Z 9 |}.
Definition wa := worker "a" 20000 (f32_of_Z 2).
Definition wb := worker "b" 20000 (f32_of_Z 3).
Definition wc := worker "c" 30000 (f32_of_Z 400).
Definition input (m : SchedulingMode) : SchedulerInput :=
  {| model_config := cfg; workers := [wa; wb; wc]; coordinator_compute := None; mode := m;
     input_max_seq_len := 16; hop_latency_ms := f32_lit 1 1 |}.
Definition manual_list : list ManualAssignment :=
         [{| ma_node_id := "a"; ma_layer_range := {| rstart := 4; rend := 7 |} |};
          {| ma_node_id := "b"; ma_layer_range := {| rstart := 0; rend := 4 |} |}].
Definition manual_swapped : SchedulingMode := Manual manual_list.
Definition get (r : result SchedulerResult) : SchedulerResult :=
  match r with Ok res => res | _ => {| assignments := []; excluded_nodes := [];
    pipeline_decode_ms := f32_zero; imbalance_ratio := f32_zero; bottleneck_node := "" |} end.
End LayerExample.

(** The ranges a Manual assignment asks for are validated but not used: the
    result numbers the layers in the order of the list, so a valid assignment
    of layers 4..7 to the first node and 0..4 to the second is accepted and
    gives the first node 0..3 and the second 3..7. *)
Theorem manual_ranges_ignored :
  mode (LayerExample.input LayerExample.manual_swapped) =
    Manual [{| ma_node_id := "a"; ma_layer_range := {| rstart := 4; rend := 7 |} |};
            {| ma_node_id := "b"; ma_layer_range := {| rstart := 0; rend := 4 |} |}] ∧
  ∃ res, schedule (LayerExample.input LayerExample.manual_swapped) = Ok res ∧
    (λ a, (la_node_id a, layer_range a)) <$> assignments res =
      [("a"%string, {| rstart := 0; rend := 3 |}); ("b"%string, {| rstart := 3; rend := 7 |})].
Proof. split; [done |]. eexists. split; vm_compute; reflexivity. Qed.

(** Auto mode can keep a node with no layer at all: with a free network hop a
    node too slow for even one layer is not pruned, because dropping it does
    not make the estimate strictly better, and its range is empty. *)
Theorem auto_may_assign_empty_range :
  ∃ input res a, SchedulerInput_wf input ∧ mode input = Auto ∧ schedule input = Ok res ∧
    a ∈ assignments res ∧ range_len (layer_range a) = 0.
Proof.
  exists {| model_config := LayerExample.cfg;
            workers := [LayerExample.wa; LayerExample.wb; LayerExample.wc]; coordinator_compute := None;
            mode := Auto; input_max_seq_len := 16; hop_latency_ms := f32_zero |}.
  eexists _, _. split; [done |]. split; [done |]. split; [vm_compute; reflexivity |].
  split; [right; right; left | done].
Qed.

Module LayerWitness.
Import LayerExample.


Lemma auto_accounts_witness :
  (la_node_id <$> assignments (get (schedule (input Auto)))) ++
    (ex_node_id <$> excluded_nodes (get (schedule (input Auto)))) ≡ₚ ["a"; "b"; "c"]%string ∧
  assignments (get (schedule (input Auto))) ≠ [].
Proof.
  apply (auto_accounts_for_all_nodes (input Auto)); [done | done | vm_compute; reflexivity].
Defined.

Lemma equal_split_witness :
  la_node_id <$> assignments (get (schedule (input EqualSplit))) = ["a"; "b"; "c"]%string ∧
  ∀ k a, assignments (get (schedule (input EqualSplit))) !! k = Some a →
    range_len (layer_range a) = 2 ∨ range_len (layer_range a) = 2 + 1.
Proof.
  apply (equal_split_balanced (input EqualSplit)); [done | done | vm_compute; reflexivity].
Defined.

Lemma redistribute_witness :
  ∃ counts', redistribute_layers [wa; wb; wc] 7 3520 cfg [1; 1; 0] = Ok counts' ∧
    zsum counts' = 7 ∧ bounded counts' [5; 5; 8].
Proof.
  apply (redistribute_succeeds [wa; wb; wc] 7 3520 cfg [1; 1; 0] [5; 5; 8]);
    [vm_compute; reflexivity | repeat constructor; lia | | vm_compute; discriminate.. | lia].
  forall_list; vm_compute; reflexivity.
Defined.

End LayerWitness.
