(* ===== verification/SchedulerTotal.v ===== *)
(** * When layer assignment cannot panic

    The byte counts of [crates/fracture-coordinator/src/scheduler.rs] are
    [usize] and its sums are unchecked.  This file gives a condition on the
    model and on the memory the workers report under which [schedule], in every
    mode, returns a result or an error; the distributed loop, which runs the
    scheduler on whatever its workers have reported, relies on it. *)

From S2P Require Import Prelude F32 Core LayerScheduler.

Local Open Scope Z_scope.

(** The bytes of the whole model with its caches, and of the head's and the
    tail's extra tensors, fit a [usize]; a Manual assignment's bounds are
    [usize]s. *)
Record sizes_fit (c : ModelConfig) (m : SchedulingMode) (msl : Z) : Prop := {
  sf_layers : 0 < num_layers c < 2 ^ 64;
  sf_bytes : ∃ pw pc h t, weight_memory_per_layer c = Ok pw ∧ cache_memory_per_layer c msl = Ok pc ∧
    head_overhead c = Ok h ∧ tail_overhead c = Ok t ∧ num_layers c * (pw + pc) + h + t < 2 ^ 64;
  sf_manual : match m with Manual asg => Forall (λ a, 0 ≤ rstart (ma_layer_range a)) asg | _ => True end
}.

(** The memory of all candidates together fits a [usize]. *)
Definition memory_fits (ws : list WorkerCapabilities) : Prop :=
  Forall (λ w, 0 ≤ gpu_memory_available w) ws ∧ zsum (gpu_memory_available <$> ws) < 2 ^ 64.

Lemma capacity_app l k : zsum (l ++ k) = zsum l + zsum k.
Proof. induction l as [|x l IH]; unfold zsum in *; simpl in *; lia. Qed.
Lemma capacity_perm l k : l ≡ₚ k → zsum l = zsum k.
Proof. induction 1; unfold zsum in *; simpl in *; lia. Qed.
Lemma capacity_nonneg l : Forall (λ z, 0 ≤ z) l → 0 ≤ zsum l.
Proof. induction 1; unfold zsum in *; simpl in *; lia. Qed.

(** Fewer candidates have less memory. *)
Lemma memory_fits_sub ws ws' : ws' ⊆+ ws → memory_fits ws → memory_fits ws'.
Proof.
  intros [k Hk]%submseteq_Permutation [Hf Hs]. unfold memory_fits in *.
  rewrite Hk in Hf. apply Forall_app in Hf as [Hf Hf']. split; [done |].
  rewrite (capacity_perm _ (gpu_memory_available <$> (ws' ++ k))) in Hs by (by rewrite Hk).
  rewrite fmap_app, capacity_app in Hs. pose proof (capacity_nonneg (gpu_memory_available <$> k)) as Hk0.
  rewrite Forall_fmap in Hk0. specialize (Hk0 Hf'). lia.
Qed.

Lemma elem_le_zsum l k x : Forall (λ z, 0 ≤ z) l → l !! k = Some x → 0 ≤ x ≤ zsum l.
Proof.
  intros Hl. revert k. induction Hl as [|y l Hy Hl IH]; intros [|k] Hk; simplify_eq/=; pose proof (capacity_nonneg l Hl); [| specialize (IH k Hk)]; unfold zsum in *; simpl; lia.
Qed.

(** Pruning only drops candidates. *)
Lemma prune_submseteq fuel ws ex n plt c hop :
  match prune fuel ws ex n plt c hop with Ok (ws', _) => ws' ⊆+ ws | _ => True end.
Proof.
  revert ws ex. induction fuel as [|fuel IH]; intros ws ex; cbn [prune]; [done |]. case_bool_decide; [done |].
  destruct (estimate_pipeline_latency ws _ _ _ _) as [lw| |]; [| done..]. cbn [rbind].
  destruct (index ws _) as [w| |]; [| done..]. cbn [rbind].
  destruct (model_fits _ _ _ _) as [[]| |]; cbn [rbind negb]; [| done..].
  destruct (estimate_pipeline_latency (delete _ _) _ _ _ _) as [lo| |]; [| done..]. cbn [rbind]. destruct (flt lo lw); [| done].
  match goal with |- context [prune fuel ?l ?e _ _ _ _] => specialize (IH l e) end. destruct (prune fuel _ _ _ _ _ _) as [[ws' ex']| |]; [| done..].
  etrans; [exact IH | apply sublist_submseteq, sublist_delete].
Qed.

Lemma rimap_from_no_panic {A B : Type} (f : nat → A → result B) i l : (∀ k x, f k x ≠ Panic) → rimap_from f i l ≠ Panic.
Proof.
  intros Hf. revert i. induction l as [|x l IH]; intros i; cbn [rimap_from]; [done |].
  apply rbind_no_panic; [done |]. intros y _. by apply rbind_no_panic.
Qed.

Section total.
Context (c : ModelConfig) (pw pc h t : Z).
Notation L := (num_layers c).
Notation plt := (pw + pc).
Hypothesis layers : 0 < L < 2 ^ 64.
Hypothesis head : head_overhead c = Ok h.
Hypothesis tail : tail_overhead c = Ok t.
Hypothesis nonneg : 0 ≤ pw ∧ 0 ≤ pc ∧ 0 ≤ h ∧ 0 ≤ t.
Hypothesis bytes : L * plt + h + t < 2 ^ 64.

Lemma role_overhead_total i n : ∃ ov, role_overhead i n c = Ok ov ∧ 0 ≤ ov ≤ h + t.
Proof using layers head tail nonneg bytes.
  unfold role_overhead. rewrite head, tail. repeat case_bool_decide; cbn [uaddr rbind]; eexists; (split; [| shelve]); try done.
  apply checked_Ok. unfold in_width. nia.
  Unshelve. all: lia.
Qed.

Lemma rimap_from_total {A B : Type} (f : nat → A → result B) i l : (∀ k x, x ∈ l → ∃ y, f k x = Ok y) → ∃ ys, rimap_from f i l = Ok ys.
Proof.
  revert i. induction l as [|x l IH]; intros i Hf; [by eexists |]. cbn [rimap_from].
  destruct (Hf i x) as [y ->]; [left |]. destruct (IH (S i)) as [ys ->]; [intros; apply Hf; by right |]. by eexists.
Qed.

Lemma node_maxes_total ws : ∃ maxes, node_maxes ws plt c = Ok maxes.
Proof using layers head tail nonneg bytes.
  apply rimap_from_total. intros k w _. unfold node_max. destruct (role_overhead_total k (length ws)) as (ov & -> & _). by eexists.
Qed.

Lemma max_layers_le mem ov : 0 ≤ mem → 0 ≤ ov → 0 ≤ max_layers_for_node mem plt ov ≤ mem.
Proof using nonneg.
  intros Hm Ho. split; [apply max_layers_nonneg; lia |]. unfold max_layers_for_node, saturating_sub. destruct (Z.eqb_spec plt 0); [done |].
  etrans; [apply Z.div_le_upper_bound with (q := Z.max 0 (mem - ov)); nia | lia].
Qed.

(** The ceilings together are at most the memory together. *)
Lemma rimap_sum_le (f : nat → WorkerCapabilities → result Z) i ws ys :
  Forall (λ w, 0 ≤ gpu_memory_available w) ws →
  (∀ k w y, 0 ≤ gpu_memory_available w → f k w = Ok y → 0 ≤ y ≤ gpu_memory_available w) → rimap_from f i ws = Ok ys →
  Forall (λ z, 0 ≤ z) ys ∧ zsum ys ≤ zsum (gpu_memory_available <$> ws).
Proof.
  intros Hw Hf. revert i ys. induction Hw as [|w ws Hw _ IH]; intros i ys; cbn [rimap_from]; [by intros [= <-] |].
  intros (y & Hy & (ys' & Hys & [= <-])%rbind_Ok)%rbind_Ok. apply Hf in Hy; [| done]. destruct (IH _ _ Hys) as [Hpos Hle].
  split; [constructor; [lia | done] |]. unfold zsum in *. csimpl. lia.
Qed.

Lemma model_fits_total ws : memory_fits ws → ∃ b, model_fits ws L plt c = Ok b.
Proof using layers head tail nonneg bytes.
  intros [Hpos Hsum]. unfold model_fits.
  match goal with |- context [rimap_from ?f 0 ws] => destruct (rimap_from_total f 0 ws) as [av Hav] end.
  { intros k w _. destruct (role_overhead_total k (length ws)) as (ov & -> & _). by eexists. }
  rewrite Hav. cbn [rbind]. apply rimap_sum_le in Hav as [Hp Hle]; [| done |].
  - rewrite usum_total by (done || lia). cbn [rbind]. unfold umul. rewrite checked_Ok by (unfold in_width; nia). by eexists.
  - intros k w y Hw. destruct (role_overhead_total k (length ws)) as (ov & -> & Hov). cbn [rbind]. intros [= <-]. unfold saturating_sub. lia.
Qed.

Lemma estimate_total ws hop : ∃ x, estimate_pipeline_latency ws L plt c hop = Ok x.
Proof using layers head tail nonneg bytes. unfold estimate_pipeline_latency. destruct (node_maxes_total ws) as [maxes ->]. by eexists. Qed.

Lemma prune_total fuel ws ex hop : memory_fits ws → (length ws < fuel)%nat → prune fuel ws ex L plt c hop ≠ Panic.
Proof using layers head tail nonneg bytes.
  revert ws ex. induction fuel as [|fuel IH]; intros ws ex Hm Hf; [lia |]. cbn [prune]. case_bool_decide as Hlen; [done |].
  destruct (estimate_total ws hop) as [lw ->]. cbn [rbind].
  assert (ws ≠ []) as Hne by (intros ->; simpl in Hlen; lia).
  destruct (lookup_lt_is_Some_2 ws _ (slowest_idx_lt ws Hne)) as [w Hw]. unfold index. rewrite Hw. cbn [rbind].
  assert (memory_fits (delete (slowest_idx ws) ws)) as Hm'.
  { eapply memory_fits_sub; [| exact Hm]. apply sublist_submseteq, sublist_delete. }
  destruct (model_fits_total _ Hm') as [[] ->]; [| done]. cbn [rbind negb]. destruct (estimate_total (delete (slowest_idx ws) ws) hop) as [lo ->]. cbn [rbind].
  destruct (flt lo lw); [| done]. apply IH; [done |]. rewrite length_delete by eauto. lia.
Qed.

Lemma add_layers_no_panic d ws maxes counts : add_layers d ws maxes counts ≠ Panic.
Proof. revert counts. induction d as [|d IH]; intros counts; cbn [add_layers]; [done |]. destruct (find_best _ _ _ _); [apply IH | done]. Qed.

Lemma clamp_sum ideals maxes : zsum (zip_with Z.min ideals maxes) ≤ zsum maxes ∨ ¬ Forall (λ z, 0 ≤ z) maxes.
Proof.
  destruct (decide (Forall (λ z, 0 ≤ z) maxes)) as [Hm|Hm]; [left | by right]. revert ideals.
  induction Hm as [|m ms Hm Hms IH]; intros [|x xs]; simpl; [done.. | |]; [pose proof (capacity_nonneg ms Hms) | specialize (IH xs)]; unfold zsum in *; simpl in *; lia.
Qed.

Lemma redistribute_no_panic ws ideals maxes : memory_fits ws → node_maxes ws plt c = Ok maxes → Forall (λ z, 0 ≤ z) ideals →
  redistribute_layers ws L plt c (zip_with Z.min ideals maxes) ≠ Panic.
Proof using layers head tail nonneg bytes.
  intros [Hpos Hsum] Hm Hi. unfold redistribute_layers. rewrite Hm.
  apply rimap_sum_le in Hm as [Hp Hle]; [| done |].
  - rewrite usum_total; cycle 1.
    + clear -Hp Hi. revert maxes Hp. induction Hi as [|x xs Hx Hxs IH]; intros [|m ms] Hp; simpl; try constructor; apply Forall_cons in Hp as [? ?]; [lia | by apply IH].
    + destruct (clamp_sum ideals maxes); [lia | done].
    + cbn [rbind]. apply rbind_no_panic; [apply add_layers_no_panic |]. intros counts _. destruct (remove_layers _ _ _). by case_bool_decide.
  - intros k w y Hw. unfold node_max. destruct (role_overhead_total k (length ws)) as (ov & -> & Hov). cbn [rbind]. intros [= <-]. apply max_layers_le; lia.
Qed.

(** *** The result *)

Lemma build_assignments_total n i start l : 0 ≤ start → Forall (λ wc : WorkerCapabilities * Z, 0 ≤ wc.2) l → start + zsum l.*2 ≤ L →
  ∃ asg, build_assignments pw pc n i start l = Ok asg ∧ length asg = length l.
Proof using layers nonneg bytes.
  intros Hs Hl. revert i start Hs. induction Hl as [|[w k] l Hk Hl IH]; intros i start Hs Hsum; cbn [build_assignments]; [by exists [] |].
  assert (0 ≤ zsum l.*2) as H0 by (apply capacity_nonneg; by apply Forall_fmap). change (start + (k + zsum l.*2) ≤ L) in Hsum. simpl in Hk.
  assert (0 ≤ k * pw ≤ L * plt ∧ 0 ≤ k * pc ≤ L * plt) by nia.
  unfold uadd, umul. rewrite !checked_Ok by (unfold in_width; lia). cbn [rbind].
  destruct (IH (S i) (start + k)) as (asg & -> & Hlen); [lia.. |]. eexists. split; [reflexivity |]. simpl. by rewrite Hlen.
Qed.

Lemma build_result_total input ws counts ex : model_config input = c →
  weight_memory_per_layer c = Ok pw → cache_memory_per_layer c (input_max_seq_len input) = Ok pc →
  ws ≠ [] → length counts = length ws → Forall (λ z, 0 ≤ z) counts → zsum counts = L → ∃ res, build_result input ws counts ex = Ok res.
Proof using layers nonneg bytes.
  intros Hc Hpw Hpc Hne Hlen Hpos Hsum. unfold build_result. rewrite Hc, Hpw, Hpc. cbn [rbind].
  assert ((zip ws counts).*2 = counts) as Hsnd by (apply snd_zip; lia).
  destruct (build_assignments_total (length ws) 0 0 (zip ws counts)) as (asg & -> & Hasg); [done | | rewrite Hsnd; lia |].
  { rewrite <- Hsnd in Hpos. by rewrite Forall_fmap in Hpos. }
  cbn [rbind]. rewrite length_zip_with, Hlen, Nat.min_id in Hasg.
  match goal with |- context [index ws ?i] => assert ((i < length ws)%nat) as [w Hw]%lookup_lt_is_Some_2 end.
  { destruct (max_by_Some cmp_snd (imap pair (expected_decode_ms <$> asg))) as [m Hm].
    { intros E%(f_equal length). rewrite length_imap, length_fmap, Hasg in E. by destruct ws. }
    rewrite Hm. simpl. apply max_by_elem, elem_of_lookup_imap in Hm as (i & x & -> & Hi%lookup_lt_Some). simpl. by rewrite length_fmap, Hasg in Hi. }
  unfold index. rewrite Hw. by eexists.
Qed.

Lemma check_memory_total n i l : Forall (λ wc : WorkerCapabilities * Z, 0 ≤ wc.2 ≤ L) l → check_memory plt c n i l ≠ Panic.
Proof using layers head tail nonneg bytes.
  intros Hl. revert i. induction Hl as [|[w k] l Hk _ IH]; intros i; cbn [check_memory]; [done |]. simpl in Hk.
  destruct (role_overhead_total i n) as (ov & -> & Hov). cbn [rbind]. case_match; [| apply IH].
  cbn [umulr rbind]. assert (0 ≤ k * plt ≤ L * plt) by nia.
  unfold umul, uaddr, uadd. rewrite checked_Ok by (unfold in_width; lia). cbn [rbind]. rewrite checked_Ok by (unfold in_width; lia). done.
Qed.

Lemma cover_total ls cov : (∀ l, l ∈ ls → (l < length cov)%nat) → cover ls cov ≠ Panic.
Proof.
  revert cov. induction ls as [|l ls IH]; intros cov Hl; cbn [cover]; [done |].
  apply rbind_no_panic; [apply index_no_panic, Hl; left |]. intros [] _; [done |]. apply IH. intros x Hx. rewrite length_insert. apply Hl. by right.
Qed.

Lemma cover_all_total n l cov : Forall (λ a, 0 ≤ rstart (ma_layer_range a)) l → length cov = Z.to_nat n → cover_all n l cov ≠ Panic.
Proof.
  intros Hl. revert cov. induction Hl as [|a l Ha _ IH]; intros cov Hlen; cbn [cover_all]; [done |].
  destruct (Z.ltb_spec n (rend (ma_layer_range a))); [done |]. apply rbind_no_panic.
  - apply cover_total. intros x [? ?]%elem_of_seq. unfold range_len in *. lia.
  - intros cov' [Hc _]%cover_spec. apply IH. congruence.
Qed.

Lemma no_duplicates_no_panic seen l : no_duplicates seen l ≠ Panic.
Proof. revert seen. induction l as [|a l IH]; intros seen; cbn [no_duplicates]; [done |]. case_bool_decide; [done | apply IH]. Qed.
End total.

(** ** The three modes *)

Lemma calibration_no_panic w : validate_calibration w ≠ Panic.
Proof. unfold validate_calibration. by repeat case_match. Qed.

Lemma plan_counts c plt ws counts : plan_ok c plt ws counts → Forall (λ z, 0 ≤ z) counts.
Proof.
  intros [Hlen _ Hfit]. apply Forall_lookup. intros i z Hz.
  destruct (lookup_lt_is_Some_2 ws i) as [w Hw]; [rewrite <- Hlen; by eapply lookup_lt_Some |]. by apply (Hfit i w z).
Qed.

Section modes.
Context (input : SchedulerInput) (pw pc h t : Z).
Notation c := (model_config input).
Notation L := (num_layers c).
Hypothesis weights : weight_memory_per_layer c = Ok pw.
Hypothesis caches : cache_memory_per_layer c (input_max_seq_len input) = Ok pc.
Hypothesis layers : 0 < L < 2 ^ 64.
Hypothesis head : head_overhead c = Ok h.
Hypothesis tail : tail_overhead c = Ok t.
Hypothesis bytes : L * (pw + pc) + h + t < 2 ^ 64.

Lemma sizes_nonneg : 0 ≤ pw ∧ 0 ≤ pc ∧ 0 ≤ h ∧ 0 ≤ t.
Proof using weights caches head tail.
  split_and!.
  - unfold weight_memory_per_layer in weights. apply rbind_Ok in weights as (? & _ & ?%uaddr_nonneg). done.
  - unfold cache_memory_per_layer in caches. apply rbind_Ok in caches as (? & _ & (? & ? & ? & ? & ? & [? _])%umulr_Ok_inv). done.
  - unfold head_overhead in head. apply umulr_Ok_inv in head as (? & ? & ? & ? & ? & [? _]). done.
  - by eapply uaddr_nonneg.
Qed.

Lemma per_layer_total_fits : per_layer_total_of input = Ok (pw + pc).
Proof using weights caches layers head tail bytes.
  pose proof sizes_nonneg. unfold per_layer_total_of. rewrite weights, caches. apply checked_Ok. unfold in_width. nia.
Qed.

Lemma plan_builds ws counts ex : plan_ok c (pw + pc) ws counts → ws ≠ [] → build_result input ws counts ex ≠ Panic.
Proof using weights caches layers head tail bytes.
  intros Hplan Hne. pose proof (plan_counts _ _ _ _ Hplan). destruct Hplan as [Hlen Hsum _].
  destruct (build_result_total c pw pc h t layers sizes_nonneg bytes input ws counts ex) as [res ->]; done.
Qed.

Lemma schedule_auto_no_panic ws : memory_fits ws → ws ≠ [] → schedule_auto input ws ≠ Panic.
Proof using weights caches layers head tail bytes.
  intros Hm Hne. unfold schedule_auto. rewrite per_layer_total_fits. cbn [rbind]. apply rbind_no_panic.
  { eapply (prune_total c pw pc h t); [done.. | apply sizes_nonneg | done | done | lia]. }
  intros [ws' ex] Hpr. pose proof (prune_submseteq (S (length ws)) ws [] L (pw + pc) c (hop_latency_ms input)) as Hsub. rewrite Hpr in Hsub.
  pose proof (prune_spec (S (length ws)) ws [] L (pw + pc) c (hop_latency_ms input)) as Hp. rewrite Hpr in Hp. destruct Hp as (_ & _ & Hne').
  assert (memory_fits ws') as Hm' by (by eapply memory_fits_sub).
  destruct (node_maxes_total c pw pc h t layers head tail sizes_nonneg bytes ws') as [maxes Hmx]. rewrite Hmx. cbn [rbind].
  assert (Forall (λ z, 0 ≤ z) (ideal_layers (total_speed ws') L <$> ws')) as Hid by (apply Forall_fmap, Forall_true; intros; apply f32_to_usize_nonneg).
  apply rbind_no_panic; [by apply (redistribute_no_panic c pw pc h t layers head tail sizes_nonneg bytes) |].
  intros counts Hr. apply plan_builds; [| by apply Hne'].
  destruct sizes_nonneg. destruct (node_maxes_nonneg ws' (pw + pc) c maxes) as [Hm0 Hml]; [lia | done |].
  apply (redistribute_spec _ _ _ _ _ _ _ Hmx) in Hr as [Hb Hs]; [by eapply node_maxes_plan |].
  apply clamp_bounded; [by rewrite length_fmap | done | done].
Qed.

Lemma schedule_equal_no_panic ws : ws ≠ [] → schedule_equal input ws ≠ Panic.
Proof using weights caches layers head tail bytes.
  intros Hne. unfold schedule_equal. rewrite per_layer_total_fits. cbn [rbind]. fold (equal_counts input ws).
  destruct (equal_counts_spec input ws Hne) as (Hlen & Hsum & Hcnt); [lia |].
  assert (Forall (λ z, 0 ≤ z) (equal_counts input ws)) as Hpos.
  { apply Forall_lookup. intros k n Hn. assert (0 < Z.of_nat (length ws)) by (destruct ws; [done | simpl; lia]).
    pose proof (Z.div_pos L (Z.of_nat (length ws))). destruct (Hcnt k n Hn); lia. }
  apply rbind_no_panic.
  - apply (check_memory_total c pw pc h t layers head tail sizes_nonneg bytes).
    apply Forall_lookup. intros k [w n] [_ Hn]%lookup_zip_Some. simpl. rewrite <- Hsum. by eapply elem_le_zsum.
  - intros [] _. destruct (build_result_total c pw pc h t layers sizes_nonneg bytes input ws (equal_counts input ws) []) as [res ->]; done.
Qed.

Lemma schedule_manual_no_panic ws asg : Forall (λ a, 0 ≤ rstart (ma_layer_range a)) asg → schedule_manual input ws asg ≠ Panic.
Proof using weights caches layers head tail bytes.
  intros Hasg. unfold schedule_manual. rewrite per_layer_total_fits. cbn [rbind]. apply rbind_no_panic; [apply no_duplicates_no_panic |]. intros [] Hnd.
  apply rbind_no_panic; [apply cover_all_total; [done | by rewrite length_replicate] |]. intros cov Hcov. destruct (forallb id cov) eqn:Hall; [| done]. cbn [negb].
  apply rbind_no_panic; [apply rimap_from_no_panic |].
  { intros k a. unfold match_assignment. destruct (list_find _ ws) as [[? w]|]; [| done]. unfold node_max.
    destruct (role_overhead_total c pw pc h t layers head tail sizes_nonneg bytes k (length asg)) as (ov & -> & _). cbn [rbind]. by case_match. }
  intros matched Hm. apply plan_builds.
  - destruct (schedule_manual_matched input ws asg (pw + pc) cov matched) as [Hplan _]; [lia | done.. |]. done.
  - intros E%(f_equal length). apply rimap_from_Ok in Hm as [Hl _]. rewrite length_fmap, Hl in E. destruct asg; [| done].
    cbn [cover_all] in Hcov. injection Hcov as <-. destruct (Z.to_nat L) eqn:EL; [lia | done].
Qed.
End modes.

Lemma schedule_total input :
  sizes_fit (model_config input) (mode input) (input_max_seq_len input) → memory_fits (candidates_of input) → schedule input ≠ Panic.
Proof.
  intros [HL (pw & pc & h & t & Hpw & Hpc & Hh & Ht & Hb) Hman] Hm. unfold schedule. case_bool_decide as Hne; [done |].
  assert (candidates_of input ≠ []) as Hc by (intros E; by rewrite E in Hne).
  apply rbind_no_panic; [apply rmapM_no_panic; intros; apply calibration_no_panic |]. intros _ _. destruct (mode input) as [| |asg].
  - by eapply schedule_auto_no_panic.
  - by eapply schedule_equal_no_panic.
  - by eapply schedule_manual_no_panic.
Qed.

(** C25: the scheduler cannot panic on a cluster of a sane size.  If the model's
    bytes (all layers with their caches, and the head's and tail's extra
    tensors) and the memory of all candidates together each fit a [usize],
    [schedule] returns an assignment or an error in every mode: no sum or
    product overflows, no index is out of range and the pruning loop ends.
    Without the second condition Auto mode does panic
    ([auto_memory_sum_panics]). *)
Theorem schedule_no_panic input :
  sizes_fit (model_config input) (mode input) (input_max_seq_len input) → memory_fits (candidates_of input) → schedule input ≠ Panic.
Proof. apply schedule_total. Qed.

Module SchedulerTotalExample.
Import LayerExample.
Lemma cfg_fits m : match m with Manual asg => Forall (λ a, 0 ≤ rstart (ma_layer_range a)) asg | _ => True end → sizes_fit cfg m 16.
Proof.
  split; [by vm_compute | | done]. eexists _, _, _, _. do 4 (split; [vm_compute; reflexivity |]). by vm_compute.
Qed.
(** Three workers that report all the memory a [usize] can count. *)
Definition huge (m : SchedulingMode) : SchedulerInput :=
  let big id := worker id (2 ^ 64 - 1) (f32_of_Z 2) in
  {| model_config := cfg; workers := [big "a"; big "b"; big "c"]; coordinator_compute := None; mode := m;
     input_max_seq_len := 16; hop_latency_ms := f32_lit 1 1 |}.
End SchedulerTotalExample.
Import SchedulerTotalExample.

(** The memory bound is needed: with workers that report [2^64 - 1] bytes each,
    Auto mode overflows in the sum of [model_fits]; the other modes do not sum
    the memory. *)
Theorem auto_memory_sum_panics :
  schedule (huge Auto) = Panic ∧ ∃ res, schedule (huge EqualSplit) = Ok res.
Proof. split; [vm_compute; reflexivity | eexists; vm_compute; reflexivity]. Qed.

Module SchedulerTotalWitness.
Import LayerExample.
Lemma schedule_no_panic_witness : schedule (input Auto) ≠ Panic.
Proof. apply (schedule_no_panic (input Auto)); [by apply cfg_fits | split; [by repeat constructor | by vm_compute]]. Defined.
End SchedulerTotalWitness.
