(* ===== verification/Registry.v ===== *)
(** * The worker registry and heartbeats
      ([crates/fracture-coordinator/src/{registry,heartbeat}.rs])

    Workers by node id with their status, layer assignment and connection
    halves; the heartbeat tracker that decides which of them are dead.
    [Instant::now()] is an argument of the operations that read the clock, and
    the order of an iteration over the map is an argument too. *)

From S2P Require Import Prelude F32 Frame Connection LayerScheduler.

Inductive WorkerStatus := Connected | Ready | Draining | Pending | Dead.

#[export] Instance WorkerStatus_eq_dec : EqDecision WorkerStatus.
Proof. solve_decision. Defined.

Record WorkerEntry := {
  capabilities : WorkerCapabilities;
  writer : FramedWriter;
  reader : FramedReader;
  assignment : option LayerAssignment;
  last_heartbeat : Z;
  status : WorkerStatus;
  we_free_blocks : Z;
  gpu_memory_used : Z
}.

Notation PeerRegistry := (gmap string WorkerEntry).

Definition registry_new : PeerRegistry := ∅.

Definition set_status (s : WorkerStatus) (e : WorkerEntry) : WorkerEntry :=
  {| capabilities := capabilities e; writer := writer e; reader := reader e; assignment := assignment e;
     last_heartbeat := last_heartbeat e; status := s; we_free_blocks := we_free_blocks e;
     gpu_memory_used := gpu_memory_used e |}.

(** [register] *)
Definition register (now : Z) (caps : WorkerCapabilities) (conn : FramedConnection) : st PeerRegistry unit := λ reg,
  let id := node_id caps in
  match reg !! id with
  | Some existing =>
      if bool_decide (status existing ≠ Dead) then (reg, Err (Protocol "worker is already registered"))
      else
        let '(w, r) := conn_into_split conn in
        (<[id := {| capabilities := caps; writer := w; reader := r; assignment := None; last_heartbeat := now;
                    status := Connected; we_free_blocks := 0; gpu_memory_used := 0 |}]> reg, Ok ())
  | None =>
      let '(w, r) := conn_into_split conn in
      (<[id := {| capabilities := caps; writer := w; reader := r; assignment := None; last_heartbeat := now;
                  status := Connected; we_free_blocks := 0; gpu_memory_used := 0 |}]> reg, Ok ())
  end.

(** [assign] *)
Definition assign (id : string) (a : LayerAssignment) : st PeerRegistry unit := λ reg,
  match reg !! id with
  | None => (reg, Err (Protocol "worker not found"))
  | Some e =>
      if bool_decide (status e = Dead) then (reg, Err (Protocol "cannot assign layers to dead worker"))
      else (<[id := {| capabilities := capabilities e; writer := writer e; reader := reader e;
                       assignment := Some a; last_heartbeat := last_heartbeat e; status := Ready;
                       we_free_blocks := we_free_blocks e; gpu_memory_used := gpu_memory_used e |}]> reg, Ok ())
  end.

Definition lookup_worker (id : string) (reg : PeerRegistry) : result WorkerEntry :=
  match reg !! id with Some e => Ok e | None => Err (Protocol "worker not found") end.

Definition mark_dead (id : string) (reg : PeerRegistry) : PeerRegistry := alter (set_status Dead) id reg.

Definition mark_draining (id : string) (reg : PeerRegistry) : PeerRegistry :=
  alter (λ e, if bool_decide (status e = Ready) then set_status Draining e else e) id reg.

Definition mark_pending (id : string) (reg : PeerRegistry) : PeerRegistry := alter (set_status Pending) id reg.

Definition record_heartbeat (now : Z) (id : string) (free_blocks gpu_used : Z) (reg : PeerRegistry) : PeerRegistry :=
  alter (λ e, {| capabilities := capabilities e; writer := writer e; reader := reader e;
                 assignment := assignment e; last_heartbeat := now; status := status e;
                 we_free_blocks := free_blocks; gpu_memory_used := gpu_used |}) id reg.

Definition pending_workers (ho : HashOrder) (reg : PeerRegistry) : list string :=
  fst <$> filter (λ ke, status ke.2 = Pending) (hm_iter ho reg).

(** A worker that serves layers. *)
Definition in_pipeline (e : WorkerEntry) : bool :=
  bool_decide (status e = Ready) && negb (bool_decide (assignment e = None)).

Fixpoint min_list (l : list Z) : option Z :=
  match l with
  | [] => None
  | x :: l' => Some (match min_list l' with Some y => Z.min x y | None => x end)
  end.

Definition min_free_blocks (ho : HashOrder) (reg : PeerRegistry) : Z :=
  default 0%Z (min_list (we_free_blocks <$> filter (λ e, in_pipeline e) (hm_values ho reg))).

Definition all_capabilities (ho : HashOrder) (reg : PeerRegistry) : list WorkerCapabilities :=
  capabilities <$> filter (λ e, status e ≠ Dead) (hm_values ho reg).

Definition active_count (ho : HashOrder) (reg : PeerRegistry) : nat :=
  length (filter (λ e, status e ≠ Dead) (hm_values ho reg)).

(** [e.assignment.as_ref().unwrap().layer_range.start] *)
Definition start_of (e : WorkerEntry) : Z :=
  default 0%Z ((λ a, rstart (layer_range a)) <$> assignment e).

(** A stable sort by the first layer. *)
Fixpoint insert_by_start (e : WorkerEntry) (l : list WorkerEntry) : list WorkerEntry :=
  match l with
  | [] => [e]
  | e' :: l' => if (start_of e' <? start_of e)%Z then e' :: insert_by_start e l' else e :: l
  end.
Definition sort_by_start (l : list WorkerEntry) : list WorkerEntry := foldr insert_by_start [] l.

Definition pipeline_order (ho : HashOrder) (reg : PeerRegistry) : list string :=
  (λ e, node_id (capabilities e)) <$> sort_by_start (filter (λ e, in_pipeline e) (hm_values ho reg)).

Definition reader_handles (ho : HashOrder) (reg : PeerRegistry) : list (string * FramedReader) :=
  (λ e, (node_id (capabilities e), reader e)) <$> filter (λ e, in_pipeline e) (hm_values ho reg).

(** ** Heartbeats *)

Definition DEFAULT_MAX_MISSED : nat := 3.

Record HeartbeatTracker := { pending_nonce : option Z; missed_counts : gmap string nat }.

Definition tracker_new : HeartbeatTracker := {| pending_nonce := None; missed_counts := ∅ |}.

Definition missed_count (id : string) (t : HeartbeatTracker) : nat := default 0 (missed_counts t !! id).

Definition set_pending_nonce (n : Z) (t : HeartbeatTracker) : HeartbeatTracker :=
  {| pending_nonce := Some n; missed_counts := missed_counts t |}.

Record HeartbeatAck := {
  timestamp_echo : Z;
  nonce_echo : Z;
  ack_gpu_memory_used : Z;
  active_sequences : Z;
  ack_free_blocks : Z
}.

Definition process_ack (now : Z) (reg : PeerRegistry) (id : string) (ack : HeartbeatAck) (t : HeartbeatTracker)
    : HeartbeatTracker * PeerRegistry * bool :=
  match reg !! id with
  | None => (t, reg, false)
  | Some e =>
      if bool_decide (status e = Dead) then (t, reg, false)
      else match pending_nonce t with
           | None => (t, reg, false)
           | Some expected =>
               if negb (nonce_echo ack =? expected)%Z then (t, reg, false)
               else ({| pending_nonce := pending_nonce t; missed_counts := <[id := 0]> (missed_counts t) |},
                     record_heartbeat now id (ack_free_blocks ack) (ack_gpu_memory_used ack) reg, true)
           end
  end.

Fixpoint increment_missed (ids : list string) (max_missed : nat) (t : HeartbeatTracker)
    : HeartbeatTracker * list string :=
  match ids with
  | [] => (t, [])
  | id :: ids' =>
      let count := missed_count id t + 1 in
      let t := {| pending_nonce := pending_nonce t; missed_counts := <[id := count]> (missed_counts t) |} in
      let '(t, timed_out) := increment_missed ids' max_missed t in
      (t, if bool_decide (max_missed ≤ count) then id :: timed_out else timed_out)
  end.

Definition mark_dead_workers (reg : PeerRegistry) (timed_out : list string) : PeerRegistry :=
  foldl (λ reg id, mark_dead id reg) reg timed_out.

(** What polling one worker found. *)
Inductive PollResult := Ack (ack : HeartbeatAck) | LeaveIntent | Nothing.

(** The heartbeat step of [distributed_loop_task]: the acks polled for the nonce
    of the last round, then the misses, then a new nonce. *)
Definition handle_poll (now : Z) (tr : HeartbeatTracker * PeerRegistry) (p : string * PollResult)
    : HeartbeatTracker * PeerRegistry :=
  match p.2 with
  | Ack ack => (process_ack now tr.2 p.1 ack tr.1).1
  | LeaveIntent => (tr.1, mark_draining p.1 tr.2)
  | Nothing => tr
  end.

Definition heartbeat_round (ho : HashOrder) (now : Z) (polls : list (string * PollResult)) (max_missed : nat)
    (next_nonce : Z) (t : HeartbeatTracker) (reg : PeerRegistry)
    : HeartbeatTracker * PeerRegistry * list string :=
  match pending_nonce t with
  | None => (set_pending_nonce next_nonce t, reg, [])
  | Some _ =>
      let '(t, reg) := foldl (handle_poll now) (t, reg) polls in
      let '(t, dead_ids) := increment_missed (pipeline_order ho reg) max_missed t in
      (set_pending_nonce next_nonce t, mark_dead_workers reg dead_ids, dead_ids)
  end.

(** ** Pipeline order *)

Implicit Types reg : PeerRegistry.

(** Entries are stored under their own node id. *)
Definition reg_keyed (reg : PeerRegistry) : Prop :=
  ∀ id e, reg !! id = Some e → node_id (capabilities e) = id.

Definition start_le (e e' : WorkerEntry) : Prop := (start_of e ≤ start_of e')%Z.

Lemma insert_by_start_perm e l : insert_by_start e l ≡ₚ e :: l.
Proof.
  induction l as [|e' l IH]; simpl; [done |]. destruct (_ <? _)%Z; [| done].
  rewrite IH. apply Permutation_swap.
Qed.

Lemma sort_by_start_perm l : sort_by_start l ≡ₚ l.
Proof. induction l as [|e l IH]; simpl; [done |]. by rewrite insert_by_start_perm, IH. Qed.

Lemma insert_by_start_sorted e l : StronglySorted start_le l → StronglySorted start_le (insert_by_start e l).
Proof.
  unfold start_le. induction 1 as [|e' l Hs IH Hall]; simpl; [repeat constructor |].
  destruct (Z.ltb_spec (start_of e') (start_of e)).
  - constructor; [done |]. rewrite insert_by_start_perm. constructor; [lia | done].
  - constructor; [by constructor |]. constructor; [done |].
    eapply Forall_impl; [exact Hall |]. simpl. lia.
Qed.

Lemma sort_by_start_sorted l : StronglySorted start_le (sort_by_start l).
Proof. induction l; simpl; [constructor | by apply insert_by_start_sorted]. Qed.

(** The entries that serve layers, as the map holds them. *)
Lemma elem_of_serving ho reg e :
  e ∈ filter (λ e, in_pipeline e) (hm_values ho reg) ↔ (∃ id, reg !! id = Some e) ∧ in_pipeline e = true.
Proof. rewrite list_elem_of_filter, elem_of_hm_values, Is_true_true. naive_solver. Qed.

Lemma worker_ids_NoDup ho reg : reg_keyed reg → NoDup ((λ e, node_id (capabilities e)) <$> hm_values ho reg).
Proof.
  intros Hk. assert ((λ e, node_id (capabilities e)) <$> hm_values ho reg = (hm_iter ho reg).*1) as ->;
    [| apply NoDup_hm_iter_fst].
  unfold hm_values. rewrite <- list_fmap_compose. apply list_fmap_ext. intros i [id e] Hi.
  apply list_elem_of_lookup_2, elem_of_hm_iter in Hi. by apply Hk.
Qed.

Lemma serving_ids_NoDup ho reg : reg_keyed reg →
  NoDup ((λ e, node_id (capabilities e)) <$> filter (λ e, in_pipeline e) (hm_values ho reg)).
Proof.
  intros Hk. eapply sublist_NoDup; [by apply (worker_ids_NoDup ho) | apply fmap_sublist, sublist_filter].
Qed.

Lemma pipeline_order_perm ho reg :
  pipeline_order ho reg ≡ₚ (λ e, node_id (capabilities e)) <$> filter (λ e, in_pipeline e) (hm_values ho reg).
Proof. unfold pipeline_order. by rewrite sort_by_start_perm. Qed.

Lemma pipeline_order_NoDup ho reg : reg_keyed reg → NoDup (pipeline_order ho reg).
Proof. intros Hk. rewrite pipeline_order_perm. by apply serving_ids_NoDup. Qed.

Lemma elem_of_pipeline_order ho reg id : reg_keyed reg →
  id ∈ pipeline_order ho reg ↔ ∃ e, reg !! id = Some e ∧ in_pipeline e = true.
Proof.
  intros Hk. rewrite pipeline_order_perm, list_elem_of_fmap. split.
  - intros (e & -> & [[id' He] Hp]%elem_of_serving). exists e. by rewrite (Hk _ _ He).
  - intros (e & He & Hp). exists e. split; [symmetry; by apply Hk |]. apply elem_of_serving. eauto.
Qed.

(** [assign] for each assignment in turn *)
Fixpoint assign_all (asg : list LayerAssignment) : st PeerRegistry unit :=
  match asg with
  | [] => sret ()
  | a :: asg' => do! _ := assign (la_node_id a) a in assign_all asg'
  end.

Lemma assign_Ok id a reg reg' :
  assign id a reg = (reg', Ok ()) →
  ∃ e e', reg !! id = Some e ∧ reg' = <[id := e']> reg ∧ capabilities e' = capabilities e ∧
          assignment e' = Some a ∧ status e' = Ready.
Proof.
  unfold assign. destruct (reg !! id) as [e|] eqn:He; [| done].
  case_bool_decide; [done |]. intros [= <-]. eexists e, _. by split_and!.
Qed.

Lemma assign_all_spec asg reg reg' :
  NoDup (la_node_id <$> asg) → reg_keyed reg → assign_all asg reg = (reg', Ok ()) →
  reg_keyed reg' ∧
  (∀ a, a ∈ asg → ∃ e, reg' !! la_node_id a = Some e ∧ assignment e = Some a ∧ status e = Ready) ∧
  (∀ id, id ∉ la_node_id <$> asg → reg' !! id = reg !! id).
Proof.
  revert reg. induction asg as [|a asg IH]; intros reg Hnd Hk; cbn [assign_all].
  { intros [= <-]. split_and!; [done | | done]. intros a []%not_elem_of_nil. }
  csimpl in Hnd. apply NoDup_cons in Hnd as [Ha Hnd].
  intros (reg1 & [] & (e & e' & He & -> & Hcap & Has & Hst)%assign_Ok & Hrest)%sbind_Ok.
  apply IH in Hrest as (Hk' & Hall & Hother); [| done |].
  - split_and!; [done | |].
    + intros b [->|Hb]%elem_of_cons; [| by apply Hall]. exists e'. rewrite Hother by done.
      by rewrite lookup_insert_eq.
    + intros id Hid. csimpl in Hid. rewrite Hother by set_solver. apply lookup_insert_ne. set_solver.
  - intros id x [[<- <-]|[_ Hx]]%lookup_insert_Some; [| by apply Hk]. rewrite Hcap. by apply Hk.
Qed.

(** Contiguous non-empty ranges have increasing first layers. *)
Lemma contiguous_sorted start stop (asg : list LayerAssignment) :
  contiguous start stop (layer_range <$> asg) →
  Forall (λ a, rstart (layer_range a) < rend (layer_range a))%Z asg →
  Forall (λ a, start ≤ rstart (layer_range a))%Z asg ∧
  StronglySorted (λ a b, rstart (layer_range a) < rstart (layer_range b))%Z asg.
Proof.
  revert start. induction asg as [|a asg IH]; intros start Hc Hne; [repeat constructor |].
  csimpl in Hc. destruct Hc as (Hs & Hle & Hc). apply Forall_cons in Hne as [Ha Hne].
  destruct (IH _ Hc Hne) as [Hall Hsort]. split.
  - constructor; [lia |]. eapply Forall_impl; [exact Hall |]. simpl. lia.
  - constructor; [done |]. eapply Forall_impl; [exact Hall |]. simpl. lia.
Qed.

Definition opt_start_le (a b : option LayerAssignment) : Prop :=
  match a, b with Some a, Some b => (rstart (layer_range a) ≤ rstart (layer_range b))%Z | _, _ => False end.

Lemma StronglySorted_fmap {A B : Type} (R : A → A → Prop) (Q : B → B → Prop) (f : A → B) (l : list A) :
  (∀ x y, x ∈ l → y ∈ l → R x y → Q (f x) (f y)) → StronglySorted R l → StronglySorted Q (f <$> l).
Proof.
  intros Himp Hs. induction Hs as [|x l Hs IH Hall]; csimpl; [constructor |]. constructor.
  - apply IH. intros y z Hy Hz. apply Himp; by right.
  - apply Forall_fmap. apply Forall_forall. intros y Hy. rewrite Forall_forall in Hall.
    apply Himp; [left | by right | by apply Hall].
Qed.

Lemma sorted_starts_inj (asg : list LayerAssignment) a b :
  StronglySorted (λ a b, rstart (layer_range a) < rstart (layer_range b))%Z asg →
  a ∈ asg → b ∈ asg → rstart (layer_range a) = rstart (layer_range b) → a = b.
Proof.
  induction 1 as [|x l Hs IH Hall]; intros Ha Hb Heq; [by apply not_elem_of_nil in Ha |].
  rewrite Forall_forall in Hall.
  apply elem_of_cons in Ha as [->|Ha], Hb as [->|Hb]; [done | | | by apply IH].
  - pose proof (Hall _ Hb). simpl in *. lia.
  - pose proof (Hall _ Ha). simpl in *. lia.
Qed.

(** The workers that serve layers, as their assignments in order. *)
Lemma serving_assignments ho reg asg :
  reg_keyed reg → NoDup (la_node_id <$> asg) →
  (∀ id e, reg !! id = Some e → in_pipeline e = true →
     ∃ a, a ∈ asg ∧ la_node_id a = id ∧ assignment e = Some a) →
  (∀ a, a ∈ asg → ∃ e, reg !! la_node_id a = Some e ∧ assignment e = Some a ∧ status e = Ready) →
  contiguous 0 (default 0%Z (rend ∘ layer_range <$> last asg)) (layer_range <$> asg) →
  Forall (λ a, rstart (layer_range a) < rend (layer_range a))%Z asg →
  assignment <$> sort_by_start (filter (λ e, in_pipeline e) (hm_values ho reg)) = Some <$> asg.
Proof.
  intros Hk Hnd Honly Hhas Hc Hne. destruct (contiguous_sorted _ _ _ Hc Hne) as [_ Hsorted].
  set (es := filter _ _).
  assert (∀ e, e ∈ es → ∃ a, a ∈ asg ∧ la_node_id a = node_id (capabilities e) ∧ assignment e = Some a) as Hes.
  { intros e [[id He] Hp]%elem_of_serving. destruct (Honly id e He Hp) as (a & ? & ? & ?).
    exists a. split_and!; [done | | done]. rewrite (Hk _ _ He). done. }
  apply (StronglySorted_unique_strong opt_start_le).
  - intros x y (e & -> & He)%list_elem_of_fmap (b & -> & Hb)%list_elem_of_fmap.
    rewrite sort_by_start_perm in He. destruct (Hes e He) as (a & Ha & _ & ->). simpl. intros H1 H2.
    f_equal. eapply sorted_starts_inj; [exact Hsorted | done | done | lia].
  - eapply StronglySorted_fmap; [| apply sort_by_start_sorted].
    intros x y Hx Hy. rewrite sort_by_start_perm in Hx. rewrite sort_by_start_perm in Hy.
    destruct (Hes x Hx) as (a & _ & _ & Ea), (Hes y Hy) as (b & _ & _ & Eb).
    unfold start_le, start_of. by rewrite Ea, Eb.
  - eapply StronglySorted_fmap; [| exact Hsorted]. simpl. intros. lia.
  - rewrite sort_by_start_perm. apply NoDup_Permutation.
    + apply NoDup_fmap_2_strong; [| by eapply NoDup_fmap_1, serving_ids_NoDup].
      intros x y Hx Hy Heq. pose proof (serving_ids_NoDup ho reg Hk) as Hids. fold es in Hids.
      destruct (Hes x Hx) as (a & _ & Ea & Ha), (Hes y Hy) as (b & _ & Eb & Hb).
      assert (a = b) as <- by congruence.
      apply list_elem_of_lookup in Hx as [i Hi], Hy as [j Hj].
      assert (i = j) as ->; [| congruence].
      eapply (NoDup_lookup _ i j (la_node_id a)); [exact Hids | |];
        rewrite list_lookup_fmap; [by rewrite Hi, Ea | by rewrite Hj, Eb].
    + apply NoDup_fmap; [by intros ?? [= ->] | by eapply NoDup_fmap_1].
    + intros x. rewrite !list_elem_of_fmap. split.
      * intros (e & -> & He). destruct (Hes e He) as (a & Ha & _ & ->). eauto.
      * intros (a & -> & Ha). destruct (Hhas a Ha) as (e & He & Has & Hst). exists e. split; [done |].
        apply elem_of_serving. split; [eauto |]. unfold in_pipeline. rewrite Hst, Has. done.
Qed.

(** The pipeline order of workers that serve exactly the ranges [asg]. *)
Lemma serving_order ho reg asg :
  reg_keyed reg → NoDup (la_node_id <$> asg) →
  (∀ id e, reg !! id = Some e → in_pipeline e = true → ∃ a, a ∈ asg ∧ la_node_id a = id ∧ assignment e = Some a) →
  (∀ a, a ∈ asg → ∃ e, reg !! la_node_id a = Some e ∧ assignment e = Some a ∧ status e = Ready) →
  contiguous 0 (default 0%Z (rend ∘ layer_range <$> last asg)) (layer_range <$> asg) →
  Forall (λ a, rstart (layer_range a) < rend (layer_range a))%Z asg →
  pipeline_order ho reg = la_node_id <$> asg.
Proof.
  intros Hk Hnd Honly Hall Hc Hne. pose proof (serving_assignments ho reg asg Hk Hnd Honly Hall Hc Hne) as Hsrt.
  unfold pipeline_order.
  assert (∀ e, e ∈ sort_by_start (filter (λ e, in_pipeline e) (hm_values ho reg)) →
            node_id (capabilities e) = default ""%string (la_node_id <$> assignment e)) as Hids.
  { intros e He. rewrite sort_by_start_perm in He. apply elem_of_serving in He as [[id He] Hp].
    destruct (Honly id e He Hp) as (a & _ & <- & ->). simpl. by apply Hk. }
  transitivity ((λ o, default ""%string (la_node_id <$> o)) <$>
    (assignment <$> sort_by_start (filter (λ e, in_pipeline e) (hm_values ho reg)))).
  - rewrite <- list_fmap_compose. apply list_fmap_ext. intros i e Hi. apply Hids.
    by eapply list_elem_of_lookup_2.
  - rewrite Hsrt, <- list_fmap_compose. by apply list_fmap_ext.
Qed.

(** After a scheduler result with no empty range has been assigned to
    workers of which none was serving, the registry's pipeline order is the
    order of the assignments, whatever the order in which the map is
    iterated. *)
Theorem pipeline_order_is_assignment_order ho asg reg reg' :
  reg_keyed reg → (∀ id e, reg !! id = Some e → status e ≠ Ready) → NoDup (la_node_id <$> asg) →
  contiguous 0 (default 0%Z (rend ∘ layer_range <$> last asg)) (layer_range <$> asg) →
  Forall (λ a, rstart (layer_range a) < rend (layer_range a))%Z asg →
  assign_all asg reg = (reg', Ok ()) →
  pipeline_order ho reg' = la_node_id <$> asg.
Proof.
  intros Hk Hfresh Hnd Hc Hne Hasg.
  destruct (assign_all_spec asg reg reg' Hnd Hk Hasg) as (Hk' & Hall & Hother).
  assert (∀ id e, reg' !! id = Some e → in_pipeline e = true →
     ∃ a, a ∈ asg ∧ la_node_id a = id ∧ assignment e = Some a) as Honly.
  { intros id e He Hp. destruct (decide (id ∈ la_node_id <$> asg)) as [(a & -> & Ha)%list_elem_of_fmap|Hno].
    - destruct (Hall a Ha) as (e' & He' & ? & ?). simplify_eq. eauto.
    - rewrite Hother in He by done. apply Hfresh in He. unfold in_pipeline in Hp.
      rewrite bool_decide_false in Hp by done. done. }
  by apply serving_order.
Qed.

(** ** Heartbeat rounds *)

Lemma increment_missed_spec ids max t t' out :
  NoDup ids → increment_missed ids max t = (t', out) →
  pending_nonce t' = pending_nonce t ∧
  (∀ id, missed_count id t' = if bool_decide (id ∈ ids) then missed_count id t + 1 else missed_count id t) ∧
  (∀ id, id ∈ out ↔ id ∈ ids ∧ max ≤ missed_count id t + 1).
Proof.
  revert t t' out. induction ids as [|id ids IH]; intros t t' out Hnd; cbn [increment_missed].
  { intros [= <- <-]. split_and!; [done | done |]. set_solver. }
  apply NoDup_cons in Hnd as [Hid Hnd]. set (t1 := {| pending_nonce := _ |}).
  destruct (increment_missed ids max t1) as [t2 out2] eqn:E. intros [= <- <-].
  destruct (IH _ _ _ Hnd E) as (Hn & Hc & Ho).
  assert (∀ k, missed_count k t1 = if bool_decide (k = id) then missed_count id t + 1 else missed_count k t) as H1.
  { intros k. unfold missed_count, t1. simpl. case_bool_decide as Hk; [subst k; by rewrite lookup_insert_eq |].
    by rewrite lookup_insert_ne. }
  split_and!; [done | |].
  - intros k. rewrite Hc, H1. destruct (decide (k = id)) as [->|Hne].
    + rewrite (bool_decide_false (id ∈ ids)), (bool_decide_true (id = id)), bool_decide_true; [done | left | done | done].
    + rewrite (bool_decide_false (k = id)) by done. by repeat case_bool_decide; set_unfold; naive_solver.
  - intros k. assert (k ∈ (if bool_decide (max ≤ missed_count id t + 1) then id :: out2 else out2) ↔
                      (k = id ∧ max ≤ missed_count id t + 1) ∨ k ∈ out2) as ->.
    { case_bool_decide; set_solver. }
    rewrite Ho, H1, elem_of_cons. destruct (decide (k = id)) as [->|Hne].
    + rewrite bool_decide_true by done. naive_solver.
    + rewrite bool_decide_false by done. naive_solver.
Qed.

(** A poll entry that [process_ack] accepts for node [id]. *)
Definition valid_ack (t : HeartbeatTracker) reg (id : string) (p : string * PollResult) : Prop :=
  ∃ ack e, p = (id, Ack ack) ∧ reg !! id = Some e ∧ status e ≠ Dead ∧ pending_nonce t = Some (nonce_echo ack).

(** Polling changes neither which workers are dead nor how entries are keyed. *)
Lemma handle_poll_status now t reg p :
  let '(t', reg') := handle_poll now (t, reg) p in
  pending_nonce t' = pending_nonce t ∧
  ∀ id, (∃ e, reg' !! id = Some e ∧ status e ≠ Dead) ↔ (∃ e, reg !! id = Some e ∧ status e ≠ Dead).
Proof.
  destruct p as [k [ack| |]]; cbn [handle_poll fst snd].
  - unfold process_ack. destruct (reg !! k) as [e|] eqn:Hk; [| done]. case_bool_decide; [done |].
    destruct (pending_nonce t) as [n|] eqn:Hn; [| done]. destruct (negb _); [done |]. simpl.
    split; [done |]. intros id. unfold record_heartbeat.
    destruct (decide (id = k)) as [->|]; [| by rewrite lookup_alter_ne].
    rewrite lookup_alter_eq, Hk. simpl. naive_solver.
  - split; [done |]. intros id. unfold mark_draining.
    destruct (decide (id = k)) as [->|]; [| by rewrite lookup_alter_ne].
    rewrite lookup_alter_eq. destruct (reg !! k) as [e|]; simpl; [| naive_solver].
    case_bool_decide as Hs; [| done]. split.
    + intros _. exists e. rewrite Hs. done.
    + intros _. eexists. by split.
  - done.
Qed.

Lemma process_ack_missed now t reg k ack id :
  missed_count id (process_ack now reg k ack t).1.1 = 0 ∧ valid_ack t reg id (k, Ack ack) ∨
  missed_count id (process_ack now reg k ack t).1.1 = missed_count id t ∧ ¬ valid_ack t reg id (k, Ack ack).
Proof.
  unfold process_ack, valid_ack. destruct (reg !! k) as [e|] eqn:Hk.
  2: { right. split; [done |]. intros (? & ? & [= <- _] & ? & _). congruence. }
  case_bool_decide as Hd.
  { right. split; [done |]. intros (? & ? & [= <- _] & ? & ? & _). congruence. }
  destruct (pending_nonce t) as [n|] eqn:Hn.
  2: { right. split; [done |]. by intros (? & ? & _ & _ & _ & ?). }
  destruct (Z.eqb_spec (nonce_echo ack) n); simpl.
  - destruct (decide (id = k)) as [->|Hne].
    + left. unfold missed_count. simpl. rewrite lookup_insert_eq. split; [done |].
      exists ack, e. by subst.
    + right. unfold missed_count. simpl. rewrite lookup_insert_ne by done. split; [done |].
      by intros (? & ? & [= <- _] & _).
  - right. split; [done |]. intros (? & ? & [= <- <-] & _ & _ & ?). congruence.
Qed.

Lemma foldl_handle_poll now polls t reg :
  let '(t', reg') := foldl (handle_poll now) (t, reg) polls in
  pending_nonce t' = pending_nonce t ∧
  ∀ id, (Exists (valid_ack t reg id) polls → missed_count id t' = 0) ∧
        (¬ Exists (valid_ack t reg id) polls → missed_count id t' = missed_count id t).
Proof.
  revert t reg. induction polls as [|p polls IH]; intros t reg; cbn [foldl].
  { split; [done |]. intros id. split; [by intros ?%Exists_nil | done]. }
  destruct (handle_poll now (t, reg) p) as [t1 reg1] eqn:E1.
  pose proof (handle_poll_status now t reg p) as Hst. rewrite E1 in Hst. destruct Hst as [Hn1 Hs1].
  specialize (IH t1 reg1). destruct (foldl (handle_poll now) (t1, reg1) polls) as [t2 reg2].
  destruct IH as [Hn2 IH]. split; [congruence |]. intros id.
  assert (∀ q, valid_ack t1 reg1 id q ↔ valid_ack t reg id q) as Hva.
  { intros q. unfold valid_ack. rewrite Hn1. split.
    - intros (ack & e & -> & He & Hd & Hn). destruct (proj1 (Hs1 id)) as (e' & ? & ?); [eauto |]. eauto 10.
    - intros (ack & e & -> & He & Hd & Hn). destruct (proj2 (Hs1 id)) as (e' & ? & ?); [eauto |]. eauto 10. }
  assert (Exists (valid_ack t1 reg1 id) polls ↔ Exists (valid_ack t reg id) polls) as Hex.
  { rewrite !Exists_exists. by setoid_rewrite Hva. }
  rewrite Exists_cons, <- Hex. destruct (IH id) as [IH1 IH2].
  assert (missed_count id t1 = 0 ∧ valid_ack t reg id p ∨ missed_count id t1 = missed_count id t ∧ ¬ valid_ack t reg id p)
    as [[Hm Hv]|[Hm Hv]].
  { destruct p as [k [ack| |]]; cbn [handle_poll fst snd] in E1.
    - pose proof (process_ack_missed now t reg k ack id) as Hp. rewrite E1 in Hp. exact Hp.
    - right. injection E1 as <- <-. split; [done |]. by intros (? & ? & [=] & _).
    - right. injection E1 as <- <-. split; [done |]. by intros (? & ? & [=] & _). }
  - split; [| naive_solver]. intros _. destruct (decide (missed_count id t2 = 0)) as [|Hnz]; [done |].
    assert (¬ Exists (valid_ack t1 reg1 id) polls) as Hno by (intros ?; by apply Hnz, IH1).
    rewrite (IH2 Hno). done.
  - split; [naive_solver |]. intros Hno. rewrite <- Hm. apply IH2. naive_solver.
Qed.

Lemma mark_dead_workers_lookup reg l id :
  mark_dead_workers reg l !! id = (if bool_decide (id ∈ l) then set_status Dead <$> reg !! id else reg !! id).
Proof.
  unfold mark_dead_workers. revert reg. induction l as [|k l IH]; intros reg; cbn [foldl]; [done |].
  rewrite IH. unfold mark_dead. destruct (decide (id = k)) as [->|Hne].
  - rewrite lookup_alter_eq, (bool_decide_true (k ∈ k :: l)) by left. case_bool_decide; [| done].
    destruct (reg !! k); done.
  - rewrite lookup_alter_ne by done. assert (bool_decide (id ∈ k :: l) = bool_decide (id ∈ l)) as ->; [| done].
    apply bool_decide_ext. set_solver.
Qed.

Lemma handle_poll_keyed now t reg p : reg_keyed reg → reg_keyed (handle_poll now (t, reg) p).2.
Proof.
  intros Hk. destruct p as [k [ack| |]]; cbn [handle_poll fst snd]; [| | done].
  - unfold process_ack. destruct (reg !! k) as [e|] eqn:He; [| done]. case_bool_decide; [done |].
    destruct (pending_nonce t); [| done]. destruct (negb _); [done |]. simpl.
    intros id x Hx. unfold record_heartbeat in Hx.
    apply lookup_alter_Some in Hx as [(-> & y & Hy & ->)|[_ Hx]]; [exact (Hk _ _ Hy) | by apply Hk].
  - intros id x Hx. unfold mark_draining in Hx. apply lookup_alter_Some in Hx as [(-> & y & Hy & ->)|[_ Hx]]; [| by apply Hk].
    case_bool_decide; exact (Hk _ _ Hy).
Qed.

Lemma foldl_handle_poll_keyed now polls t reg :
  reg_keyed reg → reg_keyed (foldl (handle_poll now) (t, reg) polls).2.
Proof.
  revert t reg. induction polls as [|p polls IH]; intros t reg Hk; [done |]. cbn [foldl].
  pose proof (handle_poll_keyed now t reg p Hk). destruct (handle_poll now (t, reg) p). by apply IH.
Qed.

(** A heartbeat round counts as follows, for every worker that serves
    layers after the polls: its miss counter becomes 1 when a valid ack of it
    was polled and grows by one otherwise (an acknowledged round counts as one
    miss), it is reported dead exactly when the counter reaches [max_missed],
    and exactly the reported workers change to Dead. *)
Theorem heartbeat_round_counts ho now polls max next t reg nonce t' reg' dead :
  reg_keyed reg → pending_nonce t = Some nonce →
  heartbeat_round ho now polls max next t reg = (t', reg', dead) →
  let reg1 := (foldl (handle_poll now) (t, reg) polls).2 in
  (∀ id e, reg1 !! id = Some e → in_pipeline e = true →
     (Exists (valid_ack t reg id) polls → missed_count id t' = 1) ∧
     (¬ Exists (valid_ack t reg id) polls → missed_count id t' = missed_count id t + 1) ∧
     (id ∈ dead ↔ max ≤ missed_count id t')) ∧
  (∀ id, reg' !! id = if bool_decide (id ∈ dead) then set_status Dead <$> reg1 !! id else reg1 !! id) ∧
  pending_nonce t' = Some next.
Proof.
  intros Hk Hn. unfold heartbeat_round. rewrite Hn.
  pose proof (foldl_handle_poll now polls t reg) as Hpolls.
  pose proof (foldl_handle_poll_keyed now polls t reg Hk) as Hk1.
  destruct (foldl (handle_poll now) (t, reg) polls) as [t1 reg1]. destruct Hpolls as [Hn1 Hcnt]. simpl in Hk1.
  destruct (increment_missed (pipeline_order ho reg1) max t1) as [t2 dead'] eqn:Einc. intros [= <- <- <-].
  apply increment_missed_spec in Einc as (_ & Hc & Hd); [| by apply pipeline_order_NoDup].
  split_and!; [| intros id; apply mark_dead_workers_lookup | done].
  intros id e He Hp.
  assert (id ∈ pipeline_order ho reg1) as Hin by (apply elem_of_pipeline_order; eauto).
  change (missed_count id (set_pending_nonce next t2)) with (missed_count id t2).
  rewrite (Hc id), bool_decide_true by done. destruct (Hcnt id) as [Ha Hna]. split_and!.
  - intros Hack. by rewrite (Ha Hack).
  - intros Hack. by rewrite (Hna Hack).
  - rewrite Hd. naive_solver.
Qed.

Module RegistryExample.
Definition caps (id : string) : WorkerCapabilities :=
  {| node_id := id; gpu_model := "sim"; gpu_memory_available := 1000; compute_capability := (8, 6)%Z;
     decode_ms_per_layer := f32_one; prefill_ms_per_layer_128 := f32_one |}.
Definition conn : FramedConnection :=
  {| conn_reader := {| r_stream := [] |}; conn_writer := {| w_sent := []; w_open := true |} |}.
Definition asg (id : string) (s e : Z) : LayerAssignment :=
  {| la_node_id := id; layer_range := {| rstart := s; rend := e |}; role := Middle;
     expected_decode_ms := f32_one; weight_memory_gb := f32_one; cache_memory_gb := f32_one |}.
Definition reg0 : PeerRegistry :=
  (register 0 (caps "a") conn (register 0 (caps "c") conn (register 0 (caps "b") conn registry_new).1).1).1.
Definition plan : list LayerAssignment := [asg "c" 0 2; asg "a" 2 5; asg "b" 5 6].
Definition reg1 : PeerRegistry := (assign_all plan reg0).1.

Lemma reg0_spec id e : reg0 !! id = Some e → node_id (capabilities e) = id ∧ status e = Connected.
Proof.
  intros He.
  assert (map_Forall (λ id e, node_id (capabilities e) = id ∧ status e = Connected) reg0) as Hall.
  { apply map_Forall_to_list. vm_compute. repeat constructor. }
  by apply (Hall id e).
Qed.
Lemma assigned : assign_all plan reg0 = (reg1, Ok ()).
Proof. by vm_compute. Qed.

Definition ack (n : Z) : PollResult := 
  Ack {| timestamp_echo := 0; nonce_echo := n; ack_gpu_memory_used := 0; active_sequences := 0; ack_free_blocks := 9 |}.
Definition t0 : HeartbeatTracker := set_pending_nonce 1 tracker_new.
(** Three rounds: all acknowledge, then only "b" and "c" do. *)
Definition round1 := heartbeat_round hash_order_id 5 [("a", ack 1); ("b", ack 1); ("c", ack 1)] 3 2 t0 reg1.
Definition round2 := heartbeat_round hash_order_id 10 [("a", Nothing); ("b", ack 2); ("c", ack 2)] 3 3 round1.1.1 round1.1.2.
Definition round3 := heartbeat_round hash_order_id 15 [("a", Nothing); ("b", ack 3); ("c", ack 3)] 3 4 round2.1.1 round2.1.2.
End RegistryExample.

(** A worker that acknowledged one round and then misses two is declared dead
    with the default limit of three missed heartbeats. *)
Theorem dead_after_two_silent_rounds :
  DEFAULT_MAX_MISSED = 3 ∧ RegistryExample.round1.2 = [] ∧ RegistryExample.round2.2 = [] ∧
  RegistryExample.round3.2 = ["a"%string] ∧
  (status <$> RegistryExample.round3.1.2 !! "a"%string) = Some Dead.
Proof. by vm_compute. Qed.

Module RegistryWitness.
Import RegistryExample.

Lemma pipeline_order_witness : pipeline_order hash_order_rev reg1 = ["c"; "a"; "b"]%string.
Proof.
  apply (pipeline_order_is_assignment_order hash_order_rev plan reg0 reg1);
    [by intros id e [? _]%reg0_spec | | decide_now | vm_compute; intuition discriminate | | exact assigned].
  - intros id e [_ ->]%reg0_spec. done.
  - forall_list; vm_compute; reflexivity.
Defined.

Lemma reg1_keyed : reg_keyed reg1.
Proof.
  assert (map_Forall (λ id e, node_id (capabilities e) = id) reg1) as Hall.
  { apply map_Forall_to_list. vm_compute. repeat constructor. }
  exact Hall.
Qed.

Lemma heartbeat_round_witness :
  pending_nonce round1.1.1 = Some 2%Z ∧
  ∀ id, round1.1.2 !! id = if bool_decide (id ∈ round1.2)
    then set_status Dead <$> (foldl (handle_poll 5) (t0, reg1) [("a", ack 1); ("b", ack 1); ("c", ack 1)]).2 !! id
    else (foldl (handle_poll 5) (t0, reg1) [("a", ack 1); ("b", ack 1); ("c", ack 1)]).2 !! id.
Proof.
  pose proof (heartbeat_round_counts hash_order_id 5 [("a", ack 1); ("b", ack 1); ("c", ack 1)]%string 3 2 t0 reg1 1
                round1.1.1 round1.1.2 round1.2 reg1_keyed ltac:(done) ltac:(by vm_compute)) as H.
  split; [exact (proj2 (proj2 H)) | exact (proj1 (proj2 H))].
Defined.
End RegistryWitness.
