(* ===== verification/SeqState.v ===== *)
(** * Sequence states of the coordinator ([crates/fracture-coordinator/src/state.rs])

    The life of an inference sequence: Prefilling, Decoding, then Complete or
    Error, with its position and generated tokens. *)

From stdpp Require Import relations.
From S2P Require Import Prelude.

Inductive SequenceStatus := Prefilling | Decoding | Complete | Errored.

#[export] Instance SequenceStatus_eq_dec : EqDecision SequenceStatus.
Proof. solve_decision. Defined.

Record SequenceState := {
  seq_id : Z;
  status : SequenceStatus;
  current_pos : nat;
  max_tokens : nat;
  generated_tokens : list Z;
  cache_allocated_on : list string
}.

Record SequenceStateManager := { sequences : gmap Z SequenceState; next_id : Z }.

Definition manager_new : SequenceStateManager := {| sequences := ∅; next_id := 1 |}.

Definition create (prompt_len max_tokens : nat) (node_ids : list string) : st SequenceStateManager Z := λ m,
  match uadd (next_id m) 1 with
  | Ok n =>
      ({| sequences := <[next_id m := {| seq_id := next_id m; status := Prefilling; current_pos := prompt_len;
                                         max_tokens := max_tokens; generated_tokens := [];
                                         cache_allocated_on := node_ids |}]> (sequences m);
          next_id := n |}, Ok (next_id m))
  | _ => (m, Panic)
  end.

Definition get (id : Z) (m : SequenceStateManager) : result SequenceState :=
  match sequences m !! id with Some s => Ok s | None => Err (Pipeline "unknown sequence") end.

(** [get_mut] followed by an update of the entry. *)
Definition put (id : Z) (s : SequenceState) (m : SequenceStateManager) : SequenceStateManager :=
  {| sequences := <[id := s]> (sequences m); next_id := next_id m |}.

Definition set_status (st : SequenceStatus) (s : SequenceState) : SequenceState :=
  {| seq_id := seq_id s; status := st; current_pos := current_pos s; max_tokens := max_tokens s;
     generated_tokens := generated_tokens s; cache_allocated_on := cache_allocated_on s |}.

Definition begin_decoding (id : Z) : st SequenceStateManager unit := λ m,
  match get id m with
  | Ok s => if bool_decide (status s ≠ Prefilling) then (m, Err (Pipeline "cannot transition to Decoding"))
            else (put id (set_status Decoding s) m, Ok ())
  | Err e => (m, Err e)
  | Panic => (m, Panic)
  end.

Definition record_token (id token_id : Z) : st SequenceStateManager unit := λ m,
  match get id m with
  | Ok s => if bool_decide (status s ≠ Decoding) then (m, Err (Pipeline "cannot record token"))
            else (put id {| seq_id := seq_id s; status := status s; current_pos := current_pos s + 1;
                            max_tokens := max_tokens s; generated_tokens := generated_tokens s ++ [token_id];
                            cache_allocated_on := cache_allocated_on s |} m, Ok ())
  | Err e => (m, Err e)
  | Panic => (m, Panic)
  end.

Definition complete (id : Z) : st SequenceStateManager unit := λ m,
  match get id m with
  | Ok s => if bool_decide (status s ≠ Decoding) then (m, Err (Pipeline "cannot complete"))
            else (put id (set_status Complete s) m, Ok ())
  | Err e => (m, Err e)
  | Panic => (m, Panic)
  end.

Definition mark_error (id : Z) : st SequenceStateManager unit := λ m,
  match get id m with
  | Ok s => match status s with
            | Prefilling | Decoding => (put id (set_status Errored s) m, Ok ())
            | _ => (m, Err (Pipeline "cannot mark error"))
            end
  | Err e => (m, Err e)
  | Panic => (m, Panic)
  end.

Definition remove (id : Z) (m : SequenceStateManager) : SequenceStateManager * option SequenceState :=
  ({| sequences := delete id (sequences m); next_id := next_id m |}, sequences m !! id).

Definition is_at_limit (id : Z) (m : SequenceStateManager) : result bool :=
  let? s := get id m in Ok (bool_decide (max_tokens s ≤ length (generated_tokens s))).

Definition is_active (s : SequenceState) : bool :=
  match status s with Prefilling | Decoding => true | _ => false end.

Definition active_count (ho : HashOrder) (m : SequenceStateManager) : nat :=
  length (filter (λ s, is_active s) (hm_values ho (sequences m))).

(** ** The life of one sequence *)

Inductive Op :=
  | OpCreate (prompt_len max_tokens : nat) (node_ids : list string)
  | OpBegin (id : Z)
  | OpToken (id token_id : Z)
  | OpComplete (id : Z)
  | OpError (id : Z)
  | OpRemove (id : Z).

Definition run_op (op : Op) (m : SequenceStateManager) : SequenceStateManager :=
  match op with
  | OpCreate p mx ns => (create p mx ns m).1
  | OpBegin id => (begin_decoding id m).1
  | OpToken id t => (record_token id t m).1
  | OpComplete id => (complete id m).1
  | OpError id => (mark_error id m).1
  | OpRemove id => (remove id m).1
  end.
Definition run_ops (ops : list Op) (m : SequenceStateManager) : SequenceStateManager :=
  foldl (λ m op, run_op op m) m ops.

(** The transitions the code allows. *)
Inductive legal : SequenceStatus → SequenceStatus → Prop :=
  | legal_begin : legal Prefilling Decoding
  | legal_complete : legal Decoding Complete
  | legal_error_prefill : legal Prefilling Errored
  | legal_error_decode : legal Decoding Errored.

Definition manager_inv (m : SequenceStateManager) : Prop :=
  (0 < next_id m)%Z ∧ ∀ id s, sequences m !! id = Some s → (id < next_id m)%Z ∧ seq_id s = id.

(** What stays true of a sequence from state [s] to state [s']. *)
Definition evolves (s s' : SequenceState) : Prop :=
  seq_id s' = seq_id s ∧ rtc legal (status s) (status s') ∧
  (∃ new, generated_tokens s' = generated_tokens s ++ new ∧ current_pos s' = current_pos s + length new) ∧
  max_tokens s' = max_tokens s ∧ cache_allocated_on s' = cache_allocated_on s.

Lemma evolves_refl s : evolves s s.
Proof. split_and!; try done. exists []. by rewrite app_nil_r, Nat.add_0_r. Qed.

Lemma evolves_trans s1 s2 s3 : evolves s1 s2 → evolves s2 s3 → evolves s1 s3.
Proof.
  intros (? & ? & (n1 & G1 & P1) & ? & ?) (? & ? & (n2 & G2 & P2) & ? & ?).
  split_and!; [congruence | by etransitivity | | congruence | congruence].
  exists (n1 ++ n2). rewrite G2, G1, app_assoc, length_app. split; [done | lia].
Qed.

Lemma evolves_status s s' st : legal (status s) st → s' = set_status st s → evolves s s'.
Proof.
  intros Hl ->. split_and!; try done; [by apply rtc_once |].
  exists []. by rewrite app_nil_r, Nat.add_0_r.
Qed.

(** An operation changes one entry, legally, or none. *)
Lemma run_op_entry op m id s :
  manager_inv m → sequences m !! id = Some s → op ≠ OpRemove id →
  ∃ s', sequences (run_op op m) !! id = Some s' ∧ evolves s s'.
Proof.
  intros [Hpos Hinv] Hs Hop.
  assert (∀ k s0 s0', sequences m !! k = Some s0 → evolves s0 s0' →
    ∃ s', sequences (put k s0' m) !! id = Some s' ∧ evolves s s') as Hput.
  { intros k s0 s0' Hk He. simpl. destruct (decide (id = k)) as [->|].
    - simplify_eq. exists s0'. by rewrite lookup_insert_eq.
    - exists s. rewrite lookup_insert_ne by done. split; [done | apply evolves_refl]. }
  assert (∃ s', sequences m !! id = Some s' ∧ evolves s s') as Hsame by (exists s; split; [done | apply evolves_refl]).
  destruct op as [p mx ns|k|k t|k|k|k]; cbn [run_op].
  - unfold create. destruct (uadd _ _); [| done..]. simpl. destruct (Hinv id s Hs).
    rewrite lookup_insert_ne by lia. done.
  - unfold begin_decoding, get. destruct (sequences m !! k) as [s0|] eqn:Hk; [| done].
    case_bool_decide; [done |]. eapply Hput; [done |]. eapply evolves_status; [| done].
    destruct (status s0); try (exfalso; by auto). constructor.
  - unfold record_token, get. destruct (sequences m !! k) as [s0|] eqn:Hk; [| done].
    case_bool_decide; [done |]. eapply Hput; [done |]. split_and!; try done. simpl. by exists [t].
  - unfold complete, get. destruct (sequences m !! k) as [s0|] eqn:Hk; [| done].
    case_bool_decide; [done |]. eapply Hput; [done |]. eapply evolves_status; [| done].
    destruct (status s0); try (exfalso; by auto). constructor.
  - unfold mark_error, get. destruct (sequences m !! k) as [s0|] eqn:Hk; [| done].
    destruct (status s0) eqn:Hst; try done; (eapply Hput; [done |]); (eapply evolves_status; [| done]);
      rewrite Hst; constructor.
  - simpl. rewrite lookup_delete_ne; [done |]. congruence.
Qed.

Lemma put_inv m k s s' :
  manager_inv m → sequences m !! k = Some s → seq_id s' = seq_id s → manager_inv (put k s' m).
Proof.
  intros [Hpos Hinv] Hk Hid. split; [done |]. simpl.
  intros id x [[<- <-]|[_ Hx]]%lookup_insert_Some; [| by apply Hinv]. rewrite Hid. by apply Hinv.
Qed.

Lemma seq_run_op_inv op m : manager_inv m → manager_inv (run_op op m).
Proof.
  intros Hm. pose proof Hm as [Hpos Hinv]. destruct op as [p mx ns|k|k t|k|k|k]; cbn [run_op].
  - unfold create. destruct (uadd _ _) as [n| |] eqn:E; [| done..]. apply checked_inv in E as [-> _].
    split; simpl; [lia |]. intros id s [[<- <-]|[_ Hs]]%lookup_insert_Some; [split; [lia | done] |].
    destruct (Hinv id s Hs). split; [lia | done].
  - unfold begin_decoding, get. destruct (sequences m !! k) as [s0|] eqn:Hk; [| done].
    case_bool_decide; [done |]. by eapply put_inv.
  - unfold record_token, get. destruct (sequences m !! k) as [s0|] eqn:Hk; [| done].
    case_bool_decide; [done |]. by eapply put_inv.
  - unfold complete, get. destruct (sequences m !! k) as [s0|] eqn:Hk; [| done].
    case_bool_decide; [done |]. by eapply put_inv.
  - unfold mark_error, get. destruct (sequences m !! k) as [s0|] eqn:Hk; [| done].
    destruct (status s0); try done; by eapply put_inv.
  - split; [done |]. simpl. intros id s [_ Hs]%lookup_delete_Some. by apply Hinv.
Qed.

Lemma seq_run_ops_inv ops m : manager_inv m → manager_inv (run_ops ops m).
Proof.
  revert m. induction ops as [|op ops IH]; intros m Hm; [done |]. apply IH. by apply seq_run_op_inv.
Qed.

Lemma run_ops_entry ops m id s :
  manager_inv m → sequences m !! id = Some s → OpRemove id ∉ ops →
  ∃ s', sequences (run_ops ops m) !! id = Some s' ∧ evolves s s'.
Proof.
  revert m s. induction ops as [|op ops IH]; intros m s Hm Hs Hno.
  { exists s. split; [done | apply evolves_refl]. }
  apply not_elem_of_cons in Hno as [Hop Hno].
  destruct (run_op_entry op m id s Hm Hs) as (s1 & Hs1 & He1); [congruence |].
  destruct (IH (run_op op m) s1 (seq_run_op_inv op m Hm) Hs1 Hno) as (s2 & Hs2 & He2).
  exists s2. split; [done |]. by eapply evolves_trans.
Qed.

(** Whatever calls came before and come after, a sequence created for a prompt
    of [p] tokens keeps its id, token limit and nodes until it is removed, its
    position is always [p] plus the tokens generated, and its status only moves
    from Prefilling to Decoding, from Decoding to Complete, and from either to
    Error; other sequences' ids are different from its own. *)
Theorem sequence_lifecycle before p mx ns after m id :
  create p mx ns (run_ops before manager_new) = (m, Ok id) → OpRemove id ∉ after →
  ∃ s, sequences (run_ops after m) !! id = Some s ∧ seq_id s = id ∧ max_tokens s = mx ∧
    cache_allocated_on s = ns ∧ current_pos s = p + length (generated_tokens s) ∧
    rtc legal Prefilling (status s) ∧ sequences (run_ops before manager_new) !! id = None.
Proof.
  intros Hc Hno. assert (manager_inv manager_new) as H0 by (split; [done |]; intros ??; cbn [sequences manager_new]; by rewrite lookup_empty).
  pose proof (seq_run_ops_inv before _ H0) as Hb.
  pose proof (seq_run_op_inv (OpCreate p mx ns) _ Hb) as Hm. cbn [run_op] in Hm. rewrite Hc in Hm. simpl in Hm.
  unfold create in Hc. destruct (uadd _ _) as [n| |]; [| done..]. injection Hc as <- <-.
  destruct (run_ops_entry after _ (next_id (run_ops before manager_new))
              {| seq_id := next_id (run_ops before manager_new); status := Prefilling; current_pos := p;
                 max_tokens := mx; generated_tokens := []; cache_allocated_on := ns |} Hm)
    as (s & Hs & (Hid & Hst & (new & Hg & Hp) & Hmx & Hns)); [apply lookup_insert_eq | done |].
  exists s. simpl in *. split_and!; try done; [by rewrite Hg |].
  destruct (sequences (run_ops before manager_new) !! next_id (run_ops before manager_new)) as [x|] eqn:Hx; [| done].
  destruct (proj2 Hb _ _ Hx). lia.
Qed.

Module SeqStateWitness.
Local Definition m1 := (create 5 8 ["a"; "b"]%string (run_ops [OpCreate 3 4 []; OpBegin 1] manager_new)).1.

Lemma sequence_lifecycle_witness :
  ∃ s, sequences (run_ops [OpBegin 2; OpToken 2 77; OpRemove 1; OpComplete 2] m1) !! 2%Z = Some s ∧
    seq_id s = 2%Z ∧ max_tokens s = 8 ∧ cache_allocated_on s = ["a"; "b"]%string ∧
    current_pos s = 5 + length (generated_tokens s) ∧ rtc legal Prefilling (status s) ∧
    sequences (run_ops [OpCreate 3 4 []; OpBegin 1] manager_new) !! 2%Z = None.
Proof.
  apply (sequence_lifecycle [OpCreate 3 4 []; OpBegin 1] 5 8 ["a"; "b"]%string
           [OpBegin 2; OpToken 2 77; OpRemove 1; OpComplete 2] m1 2); [by vm_compute |].
  set_solver.
Defined.
End SeqStateWitness.
