(* ===== verification/DistPipeline.v ===== *)
(** * The distributed pipeline ([crates/fracture-coordinator/src/pipeline.rs])

    The coordinator drives the workers over their connections: it allocates
    and frees a sequence's caches on all of them and passes activations from
    one stage to the next.

    A worker's reader is the stream of bytes the worker sends until it closes
    the connection.  [bincode] is external: [serialize] and [deserialize] are
    members of a class.  A [JoinSet] is driven in an order that is an argument
    of the operations that use it. *)

From S2P Require Import Prelude F32 Frame Connection TensorWire LayerScheduler Registry.

Local Open Scope Z_scope.

(** ** Messages ([crates/fracture-protocol/src/messages.rs]) *)

Inductive ForwardInputWire :=
  | TokenIds (ids : list Z)
  | InActivations (tensor_header : TensorWireHeader) (tensor_data : list Z).

Record ForwardPayload := { is_prefill : bool; positions : list Z; input : ForwardInputWire }.

Record SequenceMetadataWire := {
  smw_seq_id : Z;
  num_tokens : Z;
  smw_positions : list Z;
  block_table : list Z;
  cache_seq_len : Z;
  last_block_tokens : Z
}.

Record BatchedForwardPayload := {
  bf_is_prefill : bool; bf_sequences : list SequenceMetadataWire; bf_input : ForwardInputWire
}.

Inductive ForwardOutputWire :=
  | Logits (data : list Z)
  | OutActivations (tensor_header : TensorWireHeader) (tensor_data : list Z).

Record ForwardResultPayload := { output : ForwardOutputWire }.

Record BatchedForwardResultPayload := {
  bf_output : ForwardOutputWire; num_sequences : Z; logit_offsets : list Z
}.

Inductive ErrorCode := Internal | OutOfMemory | InvalidSequence | ProtocolViolation.
Record ErrorPayload := { error_code : ErrorCode; message : string }.

(** [bincode::serialize] and [bincode::deserialize] at a payload type. *)
Class Bincode (P : Type) := {
  serialize : P → result (list Z);
  deserialize : list Z → result P
}.

(** [FramedConnection::deserialize_payload] *)
Definition deserialize_payload {P : Type} `{Bincode P} (bs : list Z) : result P :=
  match deserialize bs with Err _ => Err (Protocol "deserialize") | r => r end.

(** ** The pipeline *)

Record DistributedPipeline := {
  order : list string;
  hidden_size : Z;
  total_layers : Z;
  allocated_seqs : gset Z
}.

(** [DistributedPipeline::empty] *)
Definition empty_pipeline (hs : Z) : DistributedPipeline :=
  {| order := []; hidden_size := hs; total_layers := 0; allocated_seqs := ∅ |}.

(** The validation loop of [new]. *)
Fixpoint check_ranges (expected_start : Z) (asg : list LayerAssignment) : result Z :=
  match asg with
  | [] => Ok expected_start
  | a :: asg' =>
      if negb (rstart (layer_range a) =? expected_start) then Err (Pipeline "non-contiguous layer ranges")
      else if rend (layer_range a) <=? rstart (layer_range a) then Err (Pipeline "empty layer range")
      else check_ranges (rend (layer_range a)) asg'
  end.

(** [DistributedPipeline::new] *)
Definition pipeline_new (asg : list LayerAssignment) (hs : Z) : result DistributedPipeline :=
  match asg with
  | [] => Err (Pipeline "no assignments for distributed pipeline")
  | _ =>
      let? total := check_ranges 0 asg in
      Ok {| order := la_node_id <$> asg; hidden_size := hs; total_layers := total; allocated_seqs := ∅ |}
  end.

Definition is_allocated (sid : Z) (p : DistributedPipeline) : bool := bool_decide (sid ∈ allocated_seqs p).

Definition set_seqs (s : gset Z) (p : DistributedPipeline) : DistributedPipeline :=
  {| order := order p; hidden_size := hidden_size p; total_layers := total_layers p; allocated_seqs := s |}.

(** [data.chunks_exact(4).map(f32::from_le_bytes).collect()] *)
Fixpoint logits_of_bytes (data : list Z) : list f32 :=
  match data with
  | b0 :: b1 :: b2 :: b3 :: data' => f32_from_bits (from_le_bytes [b0; b1; b2; b3]) :: logits_of_bytes data'
  | _ => []
  end.

(** [split_logits_per_sequence] *)
Definition split_logits_per_sequence (data : list Z) (n : nat) : result (list (list f32)) :=
  let all_logits := logits_of_bytes data in
  let vocab_size := if bool_decide (0 < n)%nat then (length all_logits `div` n)%nat else 0%nat in
  rmapM (λ si, slice (si * vocab_size) (si * vocab_size + vocab_size) all_logits) (seq 0 n).

(** [registry.get_mut(id).ok_or_else(..)?] followed by an operation on one half of
    the connection. *)
Definition set_writer (w : FramedWriter) (e : WorkerEntry) : WorkerEntry :=
  {| capabilities := capabilities e; writer := w; reader := reader e; assignment := assignment e;
     last_heartbeat := last_heartbeat e; status := status e; we_free_blocks := we_free_blocks e;
     gpu_memory_used := gpu_memory_used e |}.
Definition set_reader (r : FramedReader) (e : WorkerEntry) : WorkerEntry :=
  {| capabilities := capabilities e; writer := writer e; reader := r; assignment := assignment e;
     last_heartbeat := last_heartbeat e; status := status e; we_free_blocks := we_free_blocks e;
     gpu_memory_used := gpu_memory_used e |}.

Definition with_writer {A : Type} (id : string) (m : st FramedWriter A) : st PeerRegistry A := λ reg,
  match reg !! id with
  | None => (reg, Err (Pipeline "worker not found in registry"))
  | Some e => let '(w, r) := m (writer e) in (<[id := set_writer w e]> reg, r)
  end.
Definition with_reader {A : Type} (id : string) (m : st FramedReader A) : st PeerRegistry A := λ reg,
  match reg !! id with
  | None => (reg, Err (Pipeline "worker not found in registry"))
  | Some e => let '(r, x) := m (reader e) in (<[id := set_reader r e]> reg, x)
  end.

(** How the tasks of a [JoinSet] run: the order in which they complete, and how
    many bytes a task had read when it was aborted by dropping the set. *)
Record JoinSchedule := {
  completes : list string → list string;
  completes_perm : ∀ l, completes l ≡ₚ l;
  cut : string → nat
}.

Definition abort_tasks (js : JoinSchedule) (ids : list string) (reg : PeerRegistry) : PeerRegistry :=
  foldl (λ reg id, alter (λ e, set_reader {| r_stream := drop (cut js id) (r_stream (reader e)) |} e) id reg)
    reg ids.

Section pipeline.
Variable crc32c : list Z → Z.
Context `{Bincode ForwardPayload} `{Bincode ForwardResultPayload} `{Bincode BatchedForwardPayload}
  `{Bincode BatchedForwardResultPayload} `{Bincode ErrorPayload}.

(** [recv_skipping_heartbeat_acks] and its owned variant: a received frame takes
    bytes from the stream, so the length of the stream bounds the loop. *)
Fixpoint recv_skip_loop (fuel : nat) : st FramedReader (FrameHeader * list Z) :=
  match fuel with
  | 0%nat => slift Panic
  | S fuel' =>
      do! hp := recv crc32c in
      if bool_decide (msg_type hp.1 = Frame.HeartbeatAck) then recv_skip_loop fuel' else sret hp
  end.
Definition recv_skipping_heartbeat_acks : st FramedReader (FrameHeader * list Z) := λ r,
  recv_skip_loop (S (length (r_stream r))) r.

(** Sending an empty message to workers in order, failing on the first error. *)
Fixpoint send_to_all (mt : MessageType) (sid : Z) (ids : list string) : st PeerRegistry unit :=
  match ids with
  | [] => sret ()
  | id :: ids' => do! _ := with_writer id (send_empty crc32c mt sid) in send_to_all mt sid ids'
  end.

(** What [try_alloc_all] requires of a response. *)
Definition check_alloc_response (r : result (FrameHeader * list Z)) : result unit :=
  match r with
  | Panic => Err (Pipeline "CacheAlloc task panicked")
  | Err e => Err e
  | Ok (header, resp_payload) =>
      if bool_decide (msg_type header = ErrorMsg) then
        let? _ := deserialize_payload (P := ErrorPayload) resp_payload in
        Err (Pipeline "worker failed CacheAlloc")
      else if negb (bool_decide (msg_type header = CacheAllocAck)) then Err (Protocol "expected CacheAllocAck")
      else Ok ()
  end.

(** The loop over [join_next]. *)
Fixpoint collect_acks (js : JoinSchedule) (ids : list string) : st (PeerRegistry * list string) unit := λ s,
  match ids with
  | [] => (s, Ok ())
  | id :: ids' =>
      let '(reg, r) := with_reader id recv_skipping_heartbeat_acks s.1 in
      match check_alloc_response r with
      | Ok _ => collect_acks js ids' (reg, s.2 ++ [id])
      | r => ((abort_tasks js ids' reg, s.2), r)
      end
  end.

(** [try_alloc_all]: the second component of the state is [succeeded]. *)
Definition try_alloc_all (js : JoinSchedule) (p : DistributedPipeline) (sid : Z)
    : st (PeerRegistry * list string) unit := λ s,
  match send_to_all CacheAlloc sid (order p) s.1 with
  | (reg, Ok _) =>
      let readers := filter (λ id, is_Some (reg !! id)) (order p) in
      collect_acks js (completes js readers) (reg, s.2)
  | (reg, r) => ((reg, s.2), r)
  end.

(** Sending [CacheFree] and ignoring the outcome. *)
Definition try_free (sid : Z) (reg : PeerRegistry) (id : string) : PeerRegistry :=
  (with_writer id (send_empty crc32c CacheFree sid) reg).1.
Definition try_free_ready (sid : Z) (reg : PeerRegistry) (id : string) : PeerRegistry :=
  match reg !! id with
  | Some e => if bool_decide (status e = Ready) then try_free sid reg id else reg
  | None => reg
  end.

(** [alloc_cache] *)
Definition alloc_cache (js : JoinSchedule) (sid : Z) : st (DistributedPipeline * PeerRegistry) unit := λ s,
  let '(p, reg) := s in
  if bool_decide (sid ∈ allocated_seqs p) then (s, Err (Pipeline "duplicate alloc_cache"))
  else match try_alloc_all js p sid (reg, []) with
       | ((reg, succeeded), Err e) => ((p, foldl (try_free sid) reg succeeded), Err e)
       | ((reg, _), Ok _) => ((set_seqs ({[sid]} ∪ allocated_seqs p) p, reg), Ok ())
       | ((reg, _), Panic) => ((p, reg), Panic)
       end.

(** [free_cache] *)
Definition free_cache (sid : Z) : st (DistributedPipeline * PeerRegistry) unit := λ s,
  let '(p, reg) := s in
  if negb (bool_decide (sid ∈ allocated_seqs p)) then (s, Err (Pipeline "free_cache: not allocated or already freed"))
  else let p := set_seqs (allocated_seqs p ∖ {[sid]}) p in
       let '(reg, r) := send_to_all CacheFree sid (order p) reg in ((p, reg), r).

(** [free_cache_best_effort] *)
Definition free_cache_best_effort (sid : Z) (s : DistributedPipeline * PeerRegistry)
    : DistributedPipeline * PeerRegistry :=
  let '(p, reg) := s in
  (set_seqs (allocated_seqs p ∖ {[sid]}) p, foldl (try_free_ready sid) reg (order p)).

(** [abort_all_sequences] *)
Definition abort_all_sequences (ho : HashOrder) (s : DistributedPipeline * PeerRegistry)
    : DistributedPipeline * PeerRegistry * list Z :=
  let '(p, reg) := s in
  let drained := hash_order ho Z (elements (allocated_seqs p)) in
  ((set_seqs ∅ p, foldl (λ reg sid, foldl (try_free_ready sid) reg (order p)) reg drained), drained).

(** [return Err(..)] after decoding the worker's error *)
Definition worker_error {A : Type} (payload : list Z) : result A :=
  let? _ := deserialize_payload (P := ErrorPayload) payload in Err (Pipeline "worker returned error").

(** The loop of [forward] over the stages; [i] is the index of the first one left. *)
Fixpoint forward_loop (hs : Z) (n : nat) (sid : Z) (ps : list Z) (prefill : bool)
    (i : nat) (ids : list string) (current_input : ForwardInputWire) : st PeerRegistry (list f32) :=
  match ids with
  | [] => serr (Pipeline "pipeline completed without producing logits")
  | id :: ids' =>
      let is_last := bool_decide (i = n - 1)%nat in
      do! _ := with_writer id (send crc32c serialize Forward sid
                 {| is_prefill := prefill; positions := ps; input := current_input |}) in
      do! hp := with_reader id recv_skipping_heartbeat_acks in
      if bool_decide (msg_type hp.1 = ErrorMsg) then slift (worker_error hp.2)
      else if negb (bool_decide (msg_type hp.1 = ForwardResult)) then serr (Protocol "expected ForwardResult")
      else
        do! res := slift (deserialize_payload (P := ForwardResultPayload) hp.2) in
        match output res with
        | Logits data =>
            if negb is_last then serr (Pipeline "non-tail worker returned logits")
            else sret (logits_of_bytes data)
        | OutActivations th td =>
            if is_last then serr (Pipeline "tail worker returned activations")
            else if (match last (wshape th) with Some d => negb (d =? hs) | None => false end)
            then serr (Pipeline "activation last dim is not hidden_size")
            else forward_loop hs n sid ps prefill (S i) ids' (InActivations th td)
        end
  end.

(** [forward] *)
Definition forward (p : DistributedPipeline) (sid : Z) (token_ids ps : list Z) (prefill : bool)
    : st PeerRegistry (list f32) :=
  if negb (bool_decide (sid ∈ allocated_seqs p)) then serr (Pipeline "forward: cache not allocated")
  else forward_loop (hidden_size p) (length (order p)) sid ps prefill 0 (order p) (TokenIds token_ids).

(** The loop of [batched_forward]. *)
Fixpoint batched_loop (n : nat) (seqs : list SequenceMetadataWire) (prefill : bool)
    (i : nat) (ids : list string) (current_input : ForwardInputWire) : st PeerRegistry (list (list f32)) :=
  match ids with
  | [] => serr (Pipeline "batched pipeline completed without producing logits")
  | id :: ids' =>
      let is_last := bool_decide (i = n - 1)%nat in
      let frame_seq_id := default 0 (smw_seq_id <$> head seqs) in
      do! _ := with_writer id (send crc32c serialize BatchedForward frame_seq_id
                 {| bf_is_prefill := prefill; bf_sequences := seqs; bf_input := current_input |}) in
      do! hp := with_reader id recv_skipping_heartbeat_acks in
      if bool_decide (msg_type hp.1 = ErrorMsg) then slift (worker_error hp.2)
      else
        do! out := slift (
          if bool_decide (msg_type hp.1 = BatchedForwardResult) then
            rmap bf_output (deserialize_payload (P := BatchedForwardResultPayload) hp.2)
          else if bool_decide (msg_type hp.1 = ForwardResult) then
            rmap output (deserialize_payload (P := ForwardResultPayload) hp.2)
          else Err (Protocol "expected BatchedForwardResult")) in
        match out with
        | Logits data =>
            if negb is_last then serr (Pipeline "non-tail worker returned logits in batched forward")
            else slift (split_logits_per_sequence data (length seqs))
        | OutActivations th td =>
            if is_last then serr (Pipeline "tail worker returned activations in batched forward")
            else batched_loop n seqs prefill (S i) ids' (InActivations th td)
        end
  end.

(** [batched_forward] *)
Definition batched_forward (p : DistributedPipeline) (seqs : list SequenceMetadataWire)
    (all_token_ids : list Z) (prefill : bool) : st PeerRegistry (list (list f32)) :=
  if negb (forallb (λ s, bool_decide (smw_seq_id s ∈ allocated_seqs p)) seqs)
  then serr (Pipeline "batched_forward: cache not allocated")
  else batched_loop (length (order p)) seqs prefill 0 (order p) (TokenIds all_token_ids).
End pipeline.

(** ** Layer ranges *)

(** Layers [start .. stop] are covered, each by exactly one of the ranges. *)
Definition partitions (start stop : Z) (asg : list LayerAssignment) : Prop :=
  ∀ l, start ≤ l < stop → exists! k, ∃ a, asg !! k = Some a ∧ rstart (layer_range a) ≤ l < rend (layer_range a).

Definition nonempty_range (a : LayerAssignment) : Prop := rstart (layer_range a) < rend (layer_range a).

Lemma check_ranges_Ok asg start total :
  check_ranges start asg = Ok total ↔ contiguous start total (layer_range <$> asg) ∧ Forall nonempty_range asg.
Proof.
  revert start. induction asg as [|a asg IH]; intros start; simpl.
  { split; [by intros [= ->] | by intros [-> _]]. }
  unfold nonempty_range at 1. rewrite Forall_cons.
  destruct (Z.eqb_spec (rstart (layer_range a)) start) as [Heq|]; simpl; [| naive_solver].
  destruct (Z.leb_spec (rend (layer_range a)) (rstart (layer_range a))); simpl.
  { split; [done |]. intros (_ & Hlt & _). unfold nonempty_range in Hlt. lia. }
  rewrite IH. unfold nonempty_range. naive_solver lia.
Qed.

Lemma check_ranges_no_panic asg start : check_ranges start asg ≠ Panic.
Proof. revert start. induction asg; intros; simpl; [done |]. by repeat case_if. Qed.

Lemma contiguous_ge asg start total :
  contiguous start total (layer_range <$> asg) → Forall nonempty_range asg → start ≤ total ∧
  ∀ k a, asg !! k = Some a → start ≤ rstart (layer_range a).
Proof.
  revert start. induction asg as [|a asg IH]; intros start; simpl.
  { intros -> _. by split. }
  intros (Hs & Hle & Hc) [Hne Hall]%Forall_cons. destruct (IH _ Hc Hall) as [Ht Hk]. split; [lia |].
  intros [|k] b Hb; simpl in Hb; [by simplify_eq; lia |]. specialize (Hk k b Hb). lia.
Qed.

Lemma contiguous_partitions asg start total :
  contiguous start total (layer_range <$> asg) → Forall nonempty_range asg → partitions start total asg.
Proof.
  revert start. induction asg as [|a asg IH]; intros start; simpl.
  { intros -> _ l. lia. }
  intros (Hs & Hle & Hc) [Hne Hall]%Forall_cons l Hl. destruct (contiguous_ge _ _ _ Hc Hall) as [Ht Hk].
  destruct (decide (l < rend (layer_range a))) as [Hin|Hout].
  - exists 0%nat. split; [exists a; split; [done | lia] |].
    intros [|k] (b & Hb & Hr); [done |]. simpl in Hb. specialize (Hk k b Hb). lia.
  - destruct (IH _ Hc Hall l) as (k & (b & Hb & Hr) & Hu); [lia |].
    exists (S k). split; [by exists b |]. intros [|k'] (b' & Hb' & Hr'); simpl in Hb'; [by simplify_eq; lia |].
    f_equal. apply Hu. by exists b'.
Qed.

(** [DistributedPipeline::new] accepts exactly the non-empty lists of
    non-empty ranges that follow each other from layer 0, and the pipeline it
    builds keeps the order of the assignments and gives every layer to exactly
    one stage. *)
Theorem pipeline_new_spec asg hs :
  match pipeline_new asg hs with
  | Ok p => asg ≠ [] ∧ contiguous 0 (total_layers p) (layer_range <$> asg) ∧ Forall nonempty_range asg ∧
      order p = la_node_id <$> asg ∧ hidden_size p = hs ∧ allocated_seqs p = ∅ ∧
      partitions 0 (total_layers p) asg
  | Err _ => asg = [] ∨ ¬ ∃ total, contiguous 0 total (layer_range <$> asg) ∧ Forall nonempty_range asg
  | Panic => False
  end.
Proof.
  unfold pipeline_new. destruct asg as [|a asg]; [by left |].
  destruct (check_ranges 0 (a :: asg)) as [total|e|] eqn:E; cbn [rbind].
  - apply check_ranges_Ok in E as [Hc Hne]. cbn [total_layers order hidden_size allocated_seqs].
    split_and!; try done. by apply contiguous_partitions.
  - right. intros (total & Hc & Hne). by rewrite (proj2 (check_ranges_Ok _ _ _) (conj Hc Hne)) in E.
  - by apply check_ranges_no_panic in E.
Qed.

(** A schedule without empty ranges is accepted as a pipeline over all layers. *)
Corollary scheduled_pipeline_accepted asg L hs :
  asg ≠ [] → contiguous 0 L (layer_range <$> asg) → Forall nonempty_range asg →
  ∃ p, pipeline_new asg hs = Ok p ∧ total_layers p = L.
Proof.
  intros Hne Hc Hall. unfold pipeline_new. destruct asg; [done |].
  rewrite (proj2 (check_ranges_Ok _ _ _) (conj Hc Hall)). by eexists.
Qed.

(** ** Logits *)

Lemma logits_of_bytes_words (ws : list Z) :
  Forall (in_width 32) ws → logits_of_bytes (mjoin (to_le_bytes 4 <$> ws)) = f32_from_bits <$> ws.
Proof.
  induction 1 as [|w ws Hw _ IH]; [done |].
  transitivity (f32_from_bits (from_le_bytes (to_le_bytes 4 w)) :: logits_of_bytes (mjoin (to_le_bytes 4 <$> ws)));
    [done |].
  by rewrite IH, from_to_le_bytes by done.
Qed.

Lemma length_logits_of_bytes (n : nat) data : length data = (4 * n)%nat → length (logits_of_bytes data) = n.
Proof.
  revert data. induction n as [|n IH]; intros data Hd.
  - by destruct data.
  - destruct data as [|? [|? [|? [|? data]]]]; simpl in Hd; try lia. simpl. f_equal. apply IH. lia.
Qed.

(** The tail's logits are handed to the right sequences: whatever the
    number of sequences and the size of the vocabulary, splitting the
    little-endian bytes of the concatenated rows gives back one row per
    sequence, in order. *)
Theorem split_logits_roundtrip (rows : list (list Z)) (v : nat) :
  Forall (λ row, length row = v ∧ Forall (in_width 32) row) rows →
  split_logits_per_sequence (mjoin (M:=list) (to_le_bytes 4 <$> mjoin (M:=list) rows)) (length rows) =
  Ok (fmap (M:=list) f32_from_bits <$> rows).
Proof.
  intros Hrows. unfold split_logits_per_sequence.
  assert (Forall (in_width 32) (mjoin (M:=list) rows)) as Hw.
  { apply Forall_join. eapply Forall_impl; [exact Hrows |]. by intros ? []. }
  assert (Forall (λ r, length r = v) (fmap (M:=list) f32_from_bits <$> rows)) as Hv.
  { apply Forall_fmap. eapply Forall_impl; [exact Hrows |]. intros ? []; simpl. by rewrite length_fmap. }
  assert (f32_from_bits <$> mjoin (M:=list) rows = mjoin (M:=list) (fmap (M:=list) f32_from_bits <$> rows)) as Hj.
  { clear. induction rows as [|r rows IH]; [done |]. simpl. by rewrite fmap_app, IH. }
  rewrite logits_of_bytes_words, Hj by done.
  assert (length (mjoin (M:=list) (fmap (M:=list) f32_from_bits <$> rows)) = (length rows * v)%nat) as Hl.
  { rewrite <- Hj, length_fmap. clear -Hrows. induction Hrows as [|? ? [? _] _ IH]; simpl; [done |].
    rewrite length_app, IH. lia. }
  apply rmapM_Ok, Forall2_same_length_lookup. split; [by rewrite length_seq, length_fmap |].
  intros i x row [-> Hi]%lookup_seq Hrow. rewrite Hl. simpl.
  rewrite bool_decide_true, (Nat.mul_comm (length rows)), Nat.div_mul by lia.
  by apply slice_mjoin.
Qed.

(** Splitting never panics and gives one row per sequence. *)
Lemma split_logits_total data n : ∃ rows, split_logits_per_sequence data n = Ok rows ∧ length rows = n.
Proof.
  unfold split_logits_per_sequence. set (ls := logits_of_bytes data).
  assert (∃ rows, rmapM (λ si, slice (si * (if bool_decide (0 < n)%nat then (length ls `div` n)%nat else 0%nat))
     (si * (if bool_decide (0 < n)%nat then (length ls `div` n)%nat else 0%nat) +
      (if bool_decide (0 < n)%nat then (length ls `div` n)%nat else 0%nat)) ls) (seq 0 n) = Ok rows) as [rows Hr].
  { assert (∀ si, si ∈ seq 0 n → (si * (length ls `div` n) + length ls `div` n ≤ length ls)%nat) as Hb.
    { intros si [_ Hsi]%elem_of_seq. pose proof (Nat.Div0.mul_div_le (length ls) n). nia. }
    generalize dependent (seq 0 n). intros l Hb. induction l as [|x l IH]; [by eexists |].
    destruct IH as [rows Hr]; [intros; apply Hb; by right |]. simpl. rewrite Hr.
    assert (x ∈ x :: l) as Hx by left. specialize (Hb x Hx). case_bool_decide.
    - rewrite slice_Ok by lia. by eexists.
    - rewrite slice_Ok by lia. by eexists. }
  exists rows. split; [done |]. apply rmapM_Ok, Forall2_length in Hr. by rewrite length_seq in Hr.
Qed.

(** ** Receiving *)

Definition frame_of (crc32c : list Z → Z) (m : MessageType * Z * list Z) : list Z :=
  encode_frame crc32c
    {| msg_type := m.1.1; seq_id := m.1.2; payload_len := wrap 32 (Z.of_nat (length m.2)) |} m.2.

(** The bytes of the heartbeat acks a worker sends before its response. *)
Definition ack_msgs (acks : list (Z * list Z)) : list (MessageType * Z * list Z) :=
  (λ a, (Frame.HeartbeatAck, a.1, a.2)) <$> acks.
Definition frames_of (crc32c : list Z → Z) (ms : list (MessageType * Z * list Z)) : list Z :=
  mjoin (M:=list) (frame_of crc32c <$> ms).

Lemma read_exact_length n r r' x :
  read_exact n r = (r', Ok x) → (length (r_stream r') = length (r_stream r) - Z.to_nat n)%nat.
Proof.
  unfold read_exact. destruct (_ <=? _); [| done]. intros [= <- <-]. cbn [r_stream]. apply length_drop.
Qed.

Lemma recv_shortens crc32c r r' x :
  recv crc32c r = (r', Ok x) → (length (r_stream r') < length (r_stream r))%nat.
Proof.
  unfold recv, slift. intros Hr.
  apply sbind_Ok in Hr as (r1 & hdr & H1 & Hr). apply sbind_Ok in Hr as (r2 & h & [= -> H2] & Hr).
  apply sbind_Ok in Hr as (r3 & pl & H3 & Hr). apply sbind_Ok in Hr as (r4 & crcb & H4 & Hr).
  apply sbind_Ok in Hr as (r5 & [] & [= -> _] & [= -> _]).
  assert ((HEADER_SIZE ≤ length (r_stream r))%nat) as Hge.
  { unfold read_exact in H1. destruct (Z.leb_spec (Z.of_nat HEADER_SIZE) (Z.of_nat (length (r_stream r)))); [lia | done]. }
  apply read_exact_length in H1. apply read_exact_length in H4. rewrite Nat2Z.id in H1, H4.
  assert (length (r_stream r3) ≤ length (r_stream r2))%nat.
  { destruct (negb _); [apply read_exact_length in H3; lia |]. by injection H3 as -> _. }
  unfold HEADER_SIZE, CRC_SIZE in *. lia.
Qed.

Lemma recv_no_panic crc32c r : (recv crc32c r).2 ≠ Panic.
Proof.
  unfold recv, sbind, slift, read_exact. destruct (Z.leb_spec (Z.of_nat HEADER_SIZE) (Z.of_nat (length (r_stream r)))); [| done].
  destruct (decode_header _) as [h| |] eqn:Hd; [| done |].
  2:{ apply decode_header_no_panic in Hd; [done |]. rewrite length_take. lia. }
  destruct (negb _); cbn [sret r_stream]; repeat (destruct (_ <=? _); [| done]); unfold verify_crc;
    destruct (_ =? _); simpl; done.
Qed.

Lemma recv_skip_fuel crc32c fuel r :
  (length (r_stream r) < fuel)%nat → (recv_skip_loop crc32c fuel r).2 ≠ Panic.
Proof.
  revert r. induction fuel as [|fuel IH]; intros r Hf; [lia |]. simpl. unfold sbind.
  destruct (recv crc32c r) as [r' x] eqn:Hr. pose proof (recv_no_panic crc32c r) as Hnp. rewrite Hr in Hnp.
  destruct x as [hp| |]; [| done..]. case_bool_decide; [| done].
  apply IH. apply recv_shortens in Hr. lia.
Qed.

(** Receiving ends: a message that is not a heartbeat ack, or an error. *)
Lemma recv_skip_total crc32c r : (recv_skipping_heartbeat_acks crc32c r).2 ≠ Panic.
Proof. apply recv_skip_fuel. lia. Qed.

Section skipping.
Variable crc32c : list Z → Z.
Hypothesis crc32c_u32 : ∀ l, in_width 32 (crc32c l).

(** Any number of acks before the response changes nothing. *)
Lemma recv_skip_acks acks m rest fuel :
  Forall msg_fits (ack_msgs acks) → msg_fits m → m.1.1 ≠ Frame.HeartbeatAck → (length acks < fuel)%nat →
  recv_skip_loop crc32c fuel {| r_stream := frames_of crc32c (ack_msgs acks) ++ frame_of crc32c m ++ rest |}
  = ({| r_stream := rest |}, Ok (msg_frame m)).
Proof using crc32c_u32.
  intros Hacks Hm Hmt. revert fuel. induction acks as [|[sid pl] acks IH]; intros [|fuel] Hf; simpl in Hf; try lia.
  - cbn [ack_msgs frames_of recv_skip_loop]. unfold sbind. destruct m as [[mt sid] pl].
    change (frames_of crc32c (ack_msgs [])) with ([] : list Z). cbn [app]. unfold frame_of.
    rewrite recv_msg by done. simpl in Hmt. by rewrite bool_decide_false.
  - apply Forall_cons in Hacks as [Ha Hacks]. cbn [recv_skip_loop]. unfold sbind.
    change (frames_of crc32c (ack_msgs ((sid, pl) :: acks)))
      with (frame_of crc32c (Frame.HeartbeatAck, sid, pl) ++ frames_of crc32c (ack_msgs acks)).
    rewrite <- app_assoc. unfold frame_of at 1. rewrite recv_msg by done. cbn [msg_frame fst msg_type].
    rewrite bool_decide_true by done. apply IH; [done | lia].
Qed.

Lemma length_frames_ge acks : (length acks ≤ length (frames_of crc32c (ack_msgs acks)))%nat.
Proof using Type.
  induction acks as [|a acks IH]; [done |].
  change (frames_of crc32c (ack_msgs (a :: acks)))
    with (frame_of crc32c (Frame.HeartbeatAck, a.1, a.2) ++ frames_of crc32c (ack_msgs acks)).
  rewrite length_app. unfold frame_of, encode_frame. rewrite !length_app, length_encode_header.
  unfold HEADER_SIZE. simpl. lia.
Qed.

Lemma recv_skipping_acks acks m rest :
  Forall msg_fits (ack_msgs acks) → msg_fits m → m.1.1 ≠ Frame.HeartbeatAck →
  recv_skipping_heartbeat_acks crc32c
    {| r_stream := frames_of crc32c (ack_msgs acks) ++ frame_of crc32c m ++ rest |}
  = ({| r_stream := rest |}, Ok (msg_frame m)).
Proof using crc32c_u32.
  intros. unfold recv_skipping_heartbeat_acks. apply recv_skip_acks; try done. cbn [r_stream].
  rewrite length_app. pose proof (length_frames_ge acks). lia.
Qed.
End skipping.

(** ** Forward passes *)

Lemma Forall2_impl_elem {A B : Type} (P Q : A → B → Prop) (l : list A) (k : list B) :
  Forall2 P l k → (∀ x y, x ∈ l → P x y → Q x y) → Forall2 Q l k.
Proof.
  induction 1 as [|x y l k Hxy _ IH]; intros HPQ; constructor; [apply HPQ; [left | done] |].
  apply IH. intros. apply HPQ; [by right | done].
Qed.

(** What a worker sends in answer to one request: heartbeat acks, then a message
    with payload [s_reply] that decodes to [s_out], then [s_rest]. *)
Record Script := {
  s_acks : list (Z * list Z);
  s_seq_id : Z;
  s_reply : list Z;
  s_out : ForwardOutputWire;
  s_rest : list Z
}.

Definition will_send (crc32c : list Z → Z) (mt : MessageType) (sc : Script) (e : WorkerEntry) : Prop :=
  r_stream (reader e) = frames_of crc32c (ack_msgs (s_acks sc)) ++ frame_of crc32c (mt, s_seq_id sc, s_reply sc)
                          ++ s_rest sc ∧
  Forall msg_fits (ack_msgs (s_acks sc)) ∧ msg_fits (mt, s_seq_id sc, s_reply sc).

(** A worker's entry after it was sent a request and its reply was read. *)
Definition after_exchange (crc32c : list Z → Z) (m : MessageType * Z * list Z) (sc : Script) (e : WorkerEntry)
    : WorkerEntry :=
  set_reader {| r_stream := s_rest sc |}
    (set_writer {| w_sent := w_sent (writer e) ++ frame_of crc32c m; w_open := true |} e).

Section exchange.
Variable crc32c : list Z → Z.
Hypothesis crc32c_u32 : ∀ l, in_width 32 (crc32c l).

Lemma exchange {P A : Type} (ser : P → result (list Z)) payload req mt mt' sid id e sc reg
    (k : FrameHeader * list Z → st PeerRegistry A) :
  reg !! id = Some e → w_open (writer e) = true → ser payload = Ok req →
  will_send crc32c mt' sc e → mt' ≠ Frame.HeartbeatAck →
  (do! _ := with_writer id (send crc32c ser mt sid payload) in
   do! hp := with_reader id (recv_skipping_heartbeat_acks crc32c) in k hp) reg
  = k (msg_frame (mt', s_seq_id sc, s_reply sc)) (<[id := after_exchange crc32c (mt, sid, req) sc e]> reg).
Proof using crc32c_u32.
  intros He Hw Hser (Hst & Hacks & Hm) Hmt. unfold sbind at 1, with_writer. rewrite He.
  unfold send, sbind at 1, slift. rewrite Hser, (send_raw_open _ _ _ _ _ Hw).
  unfold sbind, with_reader. rewrite lookup_insert_eq. cbn [reader set_writer].
  destruct (reader e) as [stream]. cbn [r_stream] in Hst. subst stream.
  rewrite recv_skipping_acks by done. by rewrite insert_insert_eq.
Qed.

Context `{Bincode ForwardPayload} `{Bincode ForwardResultPayload} `{Bincode BatchedForwardPayload}
  `{Bincode BatchedForwardResultPayload} `{Bincode ErrorPayload}.

(** Worker [id] is connected and will answer a forward request as [sc] says. *)
Definition stage_ready (reg : PeerRegistry) (id : string) (sc : Script) : Prop :=
  ∃ e, reg !! id = Some e ∧ w_open (writer e) = true ∧ will_send crc32c ForwardResult sc e ∧
    deserialize (s_reply sc) = Ok {| output := s_out sc |}.

(** Worker [id] was sent the request with input [inp] and nothing else, and
    its answer was consumed. *)
Definition stage_done (reg reg' : PeerRegistry) (sid : Z) (ps : list Z) (prefill : bool)
    (id : string) (si : Script * ForwardInputWire) : Prop :=
  ∃ e req, reg !! id = Some e ∧
    serialize {| is_prefill := prefill; positions := ps; input := si.2 |} = Ok req ∧
    reg' !! id = Some (after_exchange crc32c (Forward, sid, req) si.1 e).

Definition stage_inputs (first : ForwardInputWire) (acts : list (TensorWireHeader * list Z))
    : list ForwardInputWire := first :: ((λ a, InActivations a.1 a.2) <$> acts).
Definition stage_outputs (acts : list (TensorWireHeader * list Z)) (data : list Z) : list ForwardOutputWire :=
  ((λ a, OutActivations a.1 a.2) <$> acts) ++ [Logits data].

Lemma stage_ready_insert reg id e ids scs :
  id ∉ ids → Forall2 (stage_ready reg) ids scs → Forall2 (stage_ready (<[id := e]> reg)) ids scs.
Proof using Type.
  intros Hid Hall. eapply Forall2_impl_elem; [exact Hall |]. intros i sc Hi (e' & He' & Hrest).
  exists e'. split; [| done]. rewrite lookup_insert_ne; [done |]. by intros ->.
Qed.

Lemma forward_loop_chains hs n sid ps prefill acts data i ids scs cur reg :
  NoDup ids → Forall2 (stage_ready reg) ids scs → s_out <$> scs = stage_outputs acts data →
  n = (i + length ids)%nat →
  Forall (λ inp, ∃ req, serialize {| is_prefill := prefill; positions := ps; input := inp |} = Ok req)
    (stage_inputs cur acts) →
  Forall (λ a : TensorWireHeader * list Z, ∀ d, last (wshape a.1) = Some d → d = hs) acts →
  ∃ reg', forward_loop crc32c hs n sid ps prefill i ids cur reg = (reg', Ok (logits_of_bytes data)) ∧
    Forall2 (stage_done reg reg' sid ps prefill) ids (zip scs (stage_inputs cur acts)) ∧
    ∀ id, id ∉ ids → reg' !! id = reg !! id.
Proof using crc32c_u32.
  revert i ids scs cur reg. induction acts as [|[th td] acts IH];
    intros i ids scs cur reg Hnd Hready Hout Hn [[req Hreq] Hser]%Forall_cons Hdims.
  - destruct scs as [|sc [|]]; try done. injection Hout as Hout.
    apply Forall2_cons_inv_r in Hready as (id & ids' & (e & He & Hw & Hsend & Hde) & Hnil & ->).
    apply Forall2_nil_inv_r in Hnil as ->. eexists. cbn [forward_loop].
    rewrite (exchange _ _ req _ ForwardResult _ _ e sc) by done. cbn [msg_frame fst snd msg_type].
    rewrite bool_decide_false, bool_decide_true by done. cbn [negb].
    unfold sbind, slift, deserialize_payload. rewrite Hde. cbn [output]. rewrite Hout.
    rewrite bool_decide_true by (simpl in Hn; lia). cbn [negb]. split; [done |]. split.
    + repeat constructor. exists e, req. split_and!; [done | done |]. apply lookup_insert_eq.
    + intros id' Hid'. apply lookup_insert_ne. set_solver.
  - destruct scs as [|sc scs]; [done |]. injection Hout as Hsc Hout.
    apply Forall2_cons_inv_r in Hready as (id & ids' & (e & He & Hw & Hsend & Hde) & Hready & ->).
    apply NoDup_cons in Hnd as [Hid Hnd]. apply Forall_cons in Hdims as [Hdim Hdims]. simpl in Hdim.
    destruct (IH (S i) ids' scs (InActivations th td) (<[id := after_exchange crc32c (Forward, sid, req) sc e]> reg))
      as (reg' & Hrun & Hdone & Hframe); try done.
    { by apply stage_ready_insert. }
    { simpl in Hn. lia. }
    exists reg'. cbn [forward_loop]. rewrite (exchange _ _ req _ ForwardResult _ _ e sc) by done.
    cbn [msg_frame fst snd msg_type]. rewrite bool_decide_false, bool_decide_true by done. cbn [negb].
    unfold sbind, slift, deserialize_payload. rewrite Hde. cbn [output]. rewrite Hsc. cbn [fst snd].
    assert (length ids' = S (length acts)) as Hlen.
    { rewrite (Forall2_length _ _ _ Hready). apply (f_equal length) in Hout.
      unfold stage_outputs in Hout. rewrite length_app, !length_fmap in Hout. simpl in Hout. lia. }
    rewrite bool_decide_false by (simpl in Hn; lia).
    assert ((match last (wshape th) with Some d => negb (d =? hs) | None => false end) = false) as ->.
    { destruct (last (wshape th)) as [d|]; [| done]. rewrite (Hdim d eq_refl). by rewrite Z.eqb_refl. }
    split; [done |]. split.
    + constructor.
      * exists e, req. split_and!; [done | done |]. rewrite Hframe by done. apply lookup_insert_eq.
      * eapply Forall2_impl_elem; [exact Hdone |]. intros id' si Hid' (e' & req' & He' & Hrest).
        exists e', req'. split; [| done]. rewrite lookup_insert_ne in He'; [done |]. by intros ->.
    + intros id' Hid'. rewrite Hframe by set_solver. apply lookup_insert_ne. set_solver.
Qed.

(** C20: a forward pass chains the stages: the head receives the token ids,
    every later worker receives exactly the activations its predecessor
    returned, and the result is the tail's logits.  Heartbeat acks that
    arrive before a worker's answer are skipped, every connected worker is
    sent exactly one request, and what follows its answer stays unread. *)
Theorem forward_chains p sid toks ps prefill reg scs acts data :
  sid ∈ allocated_seqs p → NoDup (order p) →
  Forall2 (stage_ready reg) (order p) scs → s_out <$> scs = stage_outputs acts data →
  Forall (λ inp, ∃ req, serialize {| is_prefill := prefill; positions := ps; input := inp |} = Ok req)
    (stage_inputs (TokenIds toks) acts) →
  Forall (λ a : TensorWireHeader * list Z, ∀ d, last (wshape a.1) = Some d → d = hidden_size p) acts →
  ∃ reg', forward crc32c p sid toks ps prefill reg = (reg', Ok (logits_of_bytes data)) ∧
    Forall2 (stage_done reg reg' sid ps prefill) (order p) (zip scs (stage_inputs (TokenIds toks) acts)) ∧
    ∀ id, id ∉ order p → reg' !! id = reg !! id.
Proof using crc32c_u32.
  intros Hsid Hnd Hready Hout Hser Hdims. unfold forward. rewrite bool_decide_true by done. cbn [negb].
  by eapply forward_loop_chains.
Qed.
End exchange.

(** ** Cache allocation *)

Notation Msg := (MessageType * Z * list Z)%type.

(** From [reg] to [reg'] worker [id] was sent the messages [log id], and nothing
    else changed but the bytes left to read. *)
Definition sent_log (crc32c : list Z → Z) (reg reg' : PeerRegistry) (log : string → list Msg) : Prop :=
  ∀ id, match reg !! id, reg' !! id with
        | Some e, Some e' => status e' = status e ∧ w_open (writer e') = w_open (writer e) ∧
            w_sent (writer e') = w_sent (writer e) ++ frames_of crc32c (log id) ∧
            capabilities e' = capabilities e ∧ assignment e' = assignment e
        | None, None => True
        | _, _ => False
        end.

(** A worker that can be sent messages. *)
Definition connected (reg : PeerRegistry) (id : string) : Prop :=
  ∃ e, reg !! id = Some e ∧ w_open (writer e) = true.

Lemma frames_of_app crc32c ms ms' : frames_of crc32c (ms ++ ms') = frames_of crc32c ms ++ frames_of crc32c ms'.
Proof. unfold frames_of. by rewrite fmap_app, join_app. Qed.

Section logs.
Variable crc32c : list Z → Z.
Implicit Types reg : PeerRegistry.

Lemma sent_log_refl reg : sent_log crc32c reg reg (λ _, []).
Proof. intros id. destruct (reg !! id); [| done]. by rewrite app_nil_r. Qed.

Lemma sent_log_trans reg1 reg2 reg3 l1 l2 :
  sent_log crc32c reg1 reg2 l1 → sent_log crc32c reg2 reg3 l2 →
  sent_log crc32c reg1 reg3 (λ id, l1 id ++ l2 id).
Proof.
  intros H1 H2 id. specialize (H1 id). specialize (H2 id).
  destruct (reg1 !! id), (reg2 !! id), (reg3 !! id); try done.
  destruct H2 as (-> & -> & -> & -> & ->), H1 as (-> & -> & -> & -> & ->). by rewrite frames_of_app, app_assoc.
Qed.

Lemma sent_log_ext reg reg' l l' :
  sent_log crc32c reg reg' l → (∀ id, is_Some (reg !! id) → l id = l' id) → sent_log crc32c reg reg' l'.
Proof.
  intros H Hl id. specialize (H id). destruct (reg !! id) eqn:E; [| done]. rewrite <- Hl by (by rewrite E). done.
Qed.

Lemma sent_log_quiet reg1 reg2 reg3 l :
  sent_log crc32c reg1 reg2 (λ _, []) → sent_log crc32c reg2 reg3 l → sent_log crc32c reg1 reg3 l.
Proof. intros H1 H2. by apply (sent_log_ext _ _ _ _ (sent_log_trans _ _ _ _ _ H1 H2)). Qed.

Lemma connected_log reg reg' l id : sent_log crc32c reg reg' l → connected reg id → connected reg' id.
Proof.
  intros H (e & He & Ho). specialize (H id). rewrite He in H. destruct (reg' !! id) as [e'|] eqn:E'; [| done].
  exists e'. split; [done |]. destruct H as (_ & -> & _). done.
Qed.

(** Sending message [m] to worker [id] if its entry satisfies [c]. *)
Definition cond_send (c : WorkerEntry → bool) (m : Msg) reg (id : string) : PeerRegistry :=
  match reg !! id with
  | Some e => if c e && w_open (writer e)
              then <[id := set_writer {| w_sent := w_sent (writer e) ++ frame_of crc32c m; w_open := true |} e]> reg
              else reg
  | None => reg
  end.

Lemma with_writer_send reg id mt sid :
  with_writer id (send_empty crc32c mt sid) reg =
  (cond_send (λ _, true) (mt, sid, []) reg id,
   match reg !! id with
   | None => Err (Pipeline "worker not found in registry")
   | Some e => if w_open (writer e) then Ok () else Err (Io "broken pipe")
   end).
Proof.
  unfold with_writer, cond_send, send_empty. destruct (reg !! id) as [e|] eqn:He; [| done].
  destruct (w_open (writer e)) eqn:Ho; cbn [andb].
  - by rewrite (send_raw_open _ _ _ _ _ Ho).
  - unfold send_raw, sbind, write_all. rewrite Ho. f_equal. apply insert_id. rewrite He. by destruct e.
Qed.

Lemma try_free_cond sid reg id :
  try_free crc32c sid reg id = cond_send (λ _, true) (CacheFree, sid, []) reg id.
Proof. unfold try_free. by rewrite with_writer_send. Qed.

Lemma fold_ext {A B : Type} (f g : A → B → A) (l : list B) a :
  (∀ a b, f a b = g a b) → foldl f a l = foldl g a l.
Proof. intros Hfg. revert a. induction l as [|b l IH]; intros a; simpl; [done |]. by rewrite Hfg. Qed.

Lemma try_free_ready_cond sid reg id :
  try_free_ready crc32c sid reg id =
  cond_send (λ e, bool_decide (status e = Ready)) (CacheFree, sid, []) reg id.
Proof.
  unfold try_free_ready, cond_send. destruct (reg !! id) as [e|] eqn:He; [| done].
  case_bool_decide; [| done]. rewrite try_free_cond. unfold cond_send. by rewrite He.
Qed.

(** The message goes to the worker it is meant for, once. *)
Definition cond_log (c : WorkerEntry → bool) (m : Msg) reg (ids : list string) (id : string) : list Msg :=
  if bool_decide (id ∈ ids) && from_option (λ e, c e && w_open (writer e)) false (reg !! id) then [m] else [].

Lemma cond_send_log c m reg id : sent_log crc32c reg (cond_send c m reg id) (cond_log c m reg [id]).
Proof.
  intros id'. unfold cond_send, cond_log. destruct (reg !! id) as [e|] eqn:He.
  2:{ destruct (decide (id' = id)) as [->|Hne]; [by rewrite He |].
      destruct (reg !! id'); [| done]. rewrite bool_decide_false by set_solver. by rewrite app_nil_r. }
  destruct (decide (id' = id)) as [->|Hne].
  - rewrite He, bool_decide_true by set_solver. cbn [andb from_option].
    destruct (c e && w_open (writer e)) eqn:Hc.
    + apply andb_true_iff in Hc as [_ Ho]. rewrite lookup_insert_eq. cbn. by rewrite app_nil_r.
    + rewrite He. by rewrite app_nil_r.
  - rewrite bool_decide_false by set_solver. cbn [andb].
    assert ((if c e && w_open (writer e)
      then <[id:=set_writer {| w_sent := w_sent (writer e) ++ frame_of crc32c m; w_open := true |} e]> reg
      else reg) !! id' = reg !! id') as ->.
    { destruct (_ && _); [by rewrite lookup_insert_ne | done]. }
    destruct (reg !! id'); [by rewrite app_nil_r | done].
Qed.

(** A condition that depends only on what sending does not change. *)
Definition stable (c : WorkerEntry → bool) : Prop := ∀ e e', status e' = status e → c e' = c e.

Lemma fold_send_log c m reg ids :
  stable c → NoDup ids → sent_log crc32c reg (foldl (cond_send c m) reg ids) (cond_log c m reg ids).
Proof.
  intros Hc. revert reg. induction ids as [|id ids IH]; intros reg Hnd; cbn [foldl].
  { apply (sent_log_ext _ _ _ _ (sent_log_refl reg)). intros id _. unfold cond_log. by rewrite bool_decide_false by set_solver. }
  apply NoDup_cons in Hnd as [Hid Hnd]. pose proof (cond_send_log c m reg id) as H1.
  eapply sent_log_ext; [exact (sent_log_trans _ _ _ _ _ H1 (IH _ Hnd)) |].
  intros id' [e He]. specialize (H1 id'). rewrite He in H1. unfold cond_log. rewrite He.
  destruct (cond_send c m reg id !! id') as [e'|]; [| done]. destruct H1 as (Hs & Ho & _).
  cbn [from_option]. rewrite (Hc e e' Hs), Ho.
  destruct (decide (id' = id)) as [->|Hne].
  - rewrite !(bool_decide_true (id ∈ id :: _)), (bool_decide_false (id ∈ ids)) by set_solver. by rewrite app_nil_r.
  - rewrite (bool_decide_false (id' ∈ [id])), (bool_decide_ext (id' ∈ id :: ids) (id' ∈ ids)) by set_solver. done.
Qed.
End logs.

Section allocation.
Variable crc32c : list Z → Z.
Context `{Bincode ErrorPayload}.
Implicit Types reg : PeerRegistry.

Lemma send_to_all_Ok mt sid ids reg reg' :
  send_to_all crc32c mt sid ids reg = (reg', Ok ()) →
  reg' = foldl (cond_send crc32c (λ _, true) (mt, sid, [])) reg ids ∧ Forall (connected reg) ids.
Proof.
  revert reg. induction ids as [|id ids IH]; intros reg; cbn [send_to_all].
  { intros [= ->]. by split. }
  intros (reg1 & [] & H1 & H2)%sbind_Ok. rewrite with_writer_send in H1.
  destruct (reg !! id) as [e|] eqn:He; [| done]. destruct (w_open (writer e)) eqn:Ho; [| done].
  injection H1 as <-. destruct (IH _ H2) as [-> Hc]. split; [done |].
  constructor; [by exists e |]. eapply Forall_impl; [exact Hc |]. intros id' (e' & He' & Ho').
  pose proof (cond_send_log crc32c (λ _, true) (mt, sid, []) reg id id') as Hl. rewrite He' in Hl.
  destruct (reg !! id') as [e0|] eqn:E0; [| done]. exists e0. split; [done |].
  destruct Hl as (_ & Hl & _). by rewrite <- Hl.
Qed.

Lemma send_to_all_connected mt sid ids reg :
  Forall (connected reg) ids →
  send_to_all crc32c mt sid ids reg = (foldl (cond_send crc32c (λ _, true) (mt, sid, [])) reg ids, Ok ()).
Proof.
  revert reg. induction ids as [|id ids IH]; intros reg Hc; [done |].
  apply Forall_cons in Hc as [(e & He & Ho) Hc]. cbn [send_to_all foldl]. unfold sbind.
  rewrite with_writer_send, He, Ho. apply IH. eapply Forall_impl; [exact Hc |].
  intros id'. apply (connected_log crc32c reg _ _ id' (cond_send_log crc32c (λ _, true) (mt, sid, []) reg id)).
Qed.

(** The log of a broadcast to connected workers. *)
Definition to_all (ids : list string) (m : Msg) (id : string) : list Msg :=
  if bool_decide (id ∈ ids) then [m] else [].

Lemma broadcast_log mt sid ids reg :
  NoDup ids → Forall (connected reg) ids →
  sent_log crc32c reg (foldl (cond_send crc32c (λ _, true) (mt, sid, [])) reg ids) (to_all ids (mt, sid, [])).
Proof.
  intros Hnd Hc. eapply sent_log_ext; [by apply fold_send_log |].
  intros id [e He]. unfold cond_log, to_all. case_bool_decide as Hin; [| done]. cbn [andb].
  rewrite Forall_forall in Hc. destruct (Hc id Hin) as (e' & He' & Ho). rewrite He'. simpl. by rewrite Ho.
Qed.

(** Reading changes no writer. *)
Lemma with_reader_log {A : Type} id (m : st FramedReader A) reg : sent_log crc32c reg (with_reader id m reg).1 (λ _, []).
Proof.
  unfold with_reader. destruct (reg !! id) as [e|] eqn:He; [| apply sent_log_refl].
  destruct (m (reader e)) as [r x]. cbn [fst]. intros id'. destruct (decide (id' = id)) as [->|Hne].
  - rewrite He, lookup_insert_eq. cbn. by rewrite app_nil_r.
  - rewrite lookup_insert_ne by done. apply sent_log_refl.
Qed.

Lemma abort_tasks_log js ids reg : sent_log crc32c reg (abort_tasks js ids reg) (λ _, []).
Proof.
  unfold abort_tasks. revert reg. induction ids as [|id ids IH]; intros reg; [apply sent_log_refl |]. cbn [foldl].
  eapply sent_log_quiet; [| apply IH].
  intros id'. destruct (decide (id' = id)) as [->|Hne].
  - rewrite lookup_alter_eq. destruct (reg !! id); [| done]. cbn. by rewrite app_nil_r.
  - rewrite lookup_alter_ne by done. apply sent_log_refl.
Qed.

(** Worker [id]'s next message other than a heartbeat ack is a [CacheAllocAck]. *)
Definition acks_alloc reg (id : string) : Prop :=
  ∃ e, reg !! id = Some e ∧
    check_alloc_response (recv_skipping_heartbeat_acks crc32c (reader e)).2 = Ok ().

Lemma acks_alloc_insert reg id e id' : id' ≠ id → acks_alloc (<[id := e]> reg) id' ↔ acks_alloc reg id'.
Proof. intros Hne. unfold acks_alloc. by rewrite lookup_insert_ne. Qed.

Lemma collect_acks_spec js ids reg succ reg' succ' r :
  NoDup ids → collect_acks crc32c js ids (reg, succ) = ((reg', succ'), r) → (∀ id, id ∈ ids → is_Some (reg !! id)) →
  sent_log crc32c reg reg' (λ _, []) ∧
  match r with
  | Ok _ => succ' = succ ++ ids ∧ Forall (acks_alloc reg) ids
  | _ => ∃ acked failed rest, ids = acked ++ failed :: rest ∧ succ' = succ ++ acked ∧
           Forall (acks_alloc reg) acked ∧ ¬ acks_alloc reg failed
  end.
Proof.
  revert reg succ. induction ids as [|id ids IH]; intros reg succ Hnd; cbn [collect_acks].
  { intros [= <- <- <-] _. rewrite app_nil_r. split; [apply sent_log_refl | done]. }
  apply NoDup_cons in Hnd as [Hid Hnd]. intros Hrun Hsome. destruct (Hsome id) as [e He]; [left |].
  pose proof (with_reader_log id (recv_skipping_heartbeat_acks crc32c) reg) as Hlog.
  unfold with_reader in *. cbn [fst snd] in Hrun. rewrite He in Hrun, Hlog.
  destruct (recv_skipping_heartbeat_acks crc32c (reader e)) as [rd x] eqn:Hx. cbn [fst] in Hlog.
  destruct (check_alloc_response x) as [[]|err|] eqn:Hack.
  - apply IH in Hrun as [Hl Hr]; [| done |].
    2:{ intros id' Hid'. rewrite lookup_insert_is_Some'. right. apply Hsome. by right. }
    split; [by eapply sent_log_quiet; [exact Hlog | exact Hl] |].
    assert (acks_alloc reg id) as Ha by (exists e; by rewrite Hx).
    assert (∀ l, (∀ x, x ∈ l → x ∈ ids) → Forall (acks_alloc (<[id:=set_reader rd e]> reg)) l → Forall (acks_alloc reg) l)
      as Hkeep.
    { intros l Hsub Hl'. rewrite Forall_forall in Hl' |- *. intros x' Hx'. specialize (Hl' x' Hx').
      apply acks_alloc_insert in Hl'; [done |]. intros ->. by apply Hid, Hsub. }
    destruct r as [u|err|].
    + destruct Hr as [-> Hr]. rewrite <- app_assoc. split; [done |]. constructor; [done |]. by apply Hkeep.
    + destruct Hr as (acked & failed & rest & -> & -> & Hr & Hn). exists (id :: acked), failed, rest.
      rewrite <- app_assoc. split_and!; [done | done | constructor; [done |]; apply Hkeep; set_solver |].
      intros Hf. apply Hn, acks_alloc_insert; [set_solver | done].
    + destruct Hr as (acked & failed & rest & -> & -> & Hr & Hn). exists (id :: acked), failed, rest.
      rewrite <- app_assoc. split_and!; [done | done | constructor; [done |]; apply Hkeep; set_solver |].
      intros Hf. apply Hn, acks_alloc_insert; [set_solver | done].
  - injection Hrun as <- <- <-. split.
    + by eapply sent_log_quiet; [exact Hlog | apply abort_tasks_log].
    + exists [], id, ids. rewrite app_nil_r. split_and!; try done. intros (e' & He' & Hok).
      rewrite He in He'. injection He' as <-. rewrite Hx in Hok. simpl in Hok. by rewrite Hok in Hack.
  - injection Hrun as <- <- <-. split.
    + by eapply sent_log_quiet; [exact Hlog | apply abort_tasks_log].
    + exists [], id, ids. rewrite app_nil_r. split_and!; try done. intros (e' & He' & Hok).
      rewrite He in He'. injection He' as <-. rewrite Hx in Hok. simpl in Hok. by rewrite Hok in Hack.
Qed.

(** Sending changes no reader. *)
Lemma fold_send_reader c m ids reg id :
  (λ e, reader e) <$> (foldl (cond_send crc32c c m) reg ids !! id) = (λ e, reader e) <$> (reg !! id).
Proof.
  revert reg. induction ids as [|i ids IH]; intros reg; [done |]. cbn [foldl]. rewrite IH. unfold cond_send.
  destruct (reg !! i) as [e|] eqn:He; [| done]. destruct (_ && _); [| done].
  destruct (decide (id = i)) as [->|]; [by rewrite lookup_insert_eq, He | by rewrite lookup_insert_ne].
Qed.

Lemma acks_alloc_reader reg reg' id :
  (λ e, reader e) <$> (reg !! id) = (λ e, reader e) <$> (reg' !! id) → acks_alloc reg id ↔ acks_alloc reg' id.
Proof.
  unfold acks_alloc. destruct (reg !! id) as [e|], (reg' !! id) as [e'|]; simpl; intros Heq; simplify_eq; [| naive_solver].
  split; intros (e0 & [= <-] & Ha); eexists; (split; [done |]); congruence.
Qed.

Lemma filter_connected reg ids : Forall (connected reg) ids → filter (λ id, is_Some (reg !! id)) ids = ids.
Proof.
  induction 1 as [|id ids (e & He & _) _ IH]; [done |].
  rewrite filter_cons, decide_True by (by rewrite He). by rewrite IH.
Qed.

Hypothesis decode_no_panic : ∀ bs, deserialize (P := ErrorPayload) bs ≠ Panic.

Lemma check_no_panic r : check_alloc_response r ≠ Panic.
Proof using decode_no_panic.
  unfold check_alloc_response, deserialize_payload. destruct r as [[h pl]| |]; [| done..].
  case_if; [| by case_if]. destruct (deserialize pl) eqn:E; [done | done |]. by apply decode_no_panic in E.
Qed.

Lemma collect_no_panic js ids s : (collect_acks crc32c js ids s).2 ≠ Panic.
Proof using decode_no_panic.
  revert s. induction ids as [|id ids IH]; intros s; cbn [collect_acks]; [done |].
  destruct (with_reader id _ _) as [reg x]. pose proof (check_no_panic x).
  destruct (check_alloc_response x); [apply IH | done | done].
Qed.

(** Allocating a sequence's caches on connected workers either succeeds,
    when every worker acknowledges, or fails and leaves the sequence
    unallocated.  Every worker is sent one [CacheAlloc]; on failure
    [CacheFree] goes to exactly the workers whose acknowledgement completed
    before the first failing one, and to no other worker, even if it
    acknowledged. *)
Theorem alloc_cache_outcome js p sid reg :
  NoDup (order p) → Forall (connected reg) (order p) → sid ∉ allocated_seqs p →
  match alloc_cache crc32c js sid (p, reg) with
  | ((p', reg'), Ok _) =>
      p' = set_seqs ({[sid]} ∪ allocated_seqs p) p ∧ Forall (acks_alloc reg) (order p) ∧
      sent_log crc32c reg reg' (to_all (order p) (CacheAlloc, sid, []))
  | ((p', reg'), Err _) =>
      p' = p ∧ ∃ acked failed rest, completes js (order p) = acked ++ failed :: rest ∧
        Forall (acks_alloc reg) acked ∧ ¬ acks_alloc reg failed ∧
        sent_log crc32c reg reg'
          (λ id, to_all (order p) (CacheAlloc, sid, []) id ++ to_all acked (CacheFree, sid, []) id)
  | (_, Panic) => False
  end.
Proof using decode_no_panic.
  intros Hnd Hc Hsid. unfold alloc_cache. rewrite bool_decide_false by done. unfold try_alloc_all. cbn [fst snd].
  rewrite send_to_all_connected by done. set (reg1 := foldl _ reg (order p)).
  pose proof (broadcast_log CacheAlloc sid (order p) reg Hnd Hc) as Hlog1. fold reg1 in Hlog1.
  assert (Forall (connected reg1) (order p)) as Hc1.
  { eapply Forall_impl; [exact Hc |]. intros id. by apply (connected_log crc32c reg reg1 _ id Hlog1). }
  assert (∀ id, acks_alloc reg1 id ↔ acks_alloc reg id) as Hsame.
  { intros id. apply acks_alloc_reader, fold_send_reader. }
  assert (∀ l, Forall (acks_alloc reg1) l → Forall (acks_alloc reg) l) as HsameF.
  { intros l Hl. eapply Forall_impl; [exact Hl |]. intros id. apply Hsame. }
  rewrite filter_connected by done. pose proof (completes_perm js (order p)) as Hperm.
  pose proof (collect_no_panic js (completes js (order p)) (reg1, [])) as Hnp.
  destruct (collect_acks crc32c js _ (reg1, [])) as [[reg2 succ] r] eqn:Hcol. simpl in Hnp.
  apply collect_acks_spec in Hcol as [Hlog2 Hr].
  2:{ by rewrite Hperm. }
  2:{ intros id. rewrite Hperm. intros Hid. rewrite Forall_forall in Hc1. destruct (Hc1 id Hid) as (e & -> & _). done. }
  pose proof (sent_log_trans _ _ _ _ _ _ Hlog1 Hlog2) as Hlog. destruct r as [u|err|]; [| | done].
  - destruct Hr as [_ Hr]. split_and!; [done | apply HsameF; by rewrite <- Hperm |].
    eapply sent_log_ext; [exact Hlog |]. intros. apply app_nil_r.
  - destruct Hr as (acked & failed & rest & Hids & -> & Hack & Hfail). split; [done |].
    exists acked, failed, rest. split_and!; [done | by apply HsameF | by rewrite <- Hsame |]. cbn [app].
    assert (NoDup acked) as Hnda by (rewrite <- Hperm, Hids in Hnd; by apply NoDup_app in Hnd as [? _]).
    assert (Forall (connected reg2) acked) as Hc2.
    { apply Forall_forall. intros id Hid. apply (connected_log crc32c reg1 reg2 _ id Hlog2).
      rewrite Forall_forall in Hc1. apply Hc1. rewrite <- Hperm, Hids. set_solver. }
    rewrite (fold_ext _ _ acked reg2 (try_free_cond crc32c sid)).
    eapply sent_log_ext; [exact (sent_log_trans _ _ _ _ _ _ Hlog (broadcast_log _ _ _ _ Hnda Hc2)) |].
    intros id _. simpl. by rewrite app_nil_r.
Qed.
End allocation.

(** ** The workers' caches *)

(** The caches a worker holds after the messages it was sent. *)
Definition apply_msg (s : gset Z) (m : Msg) : gset Z :=
  match m.1.1 with
  | CacheAlloc => {[m.1.2]} ∪ s
  | CacheFree => s ∖ {[m.1.2]}
  | _ => s
  end.
Definition worker_caches (log : list Msg) : gset Z := foldl apply_msg ∅ log.

(** Every live worker of the pipeline holds exactly the caches the coordinator
    believes are allocated. *)
Definition in_sync (crc32c : list Z → Z) (s : DistributedPipeline * PeerRegistry) : Prop :=
  ∀ id e, id ∈ order s.1 → s.2 !! id = Some e → status e = Ready → w_open (writer e) = true →
    ∃ log, w_sent (writer e) = frames_of crc32c log ∧ worker_caches log = allocated_seqs s.1.

Section sync.
Variable crc32c : list Z → Z.
Context `{Bincode ForwardPayload} `{Bincode ForwardResultPayload} `{Bincode BatchedForwardPayload}
  `{Bincode BatchedForwardResultPayload} `{Bincode ErrorPayload}.

(** The operations of the pipeline, and a worker found dead between them. *)
Inductive pipe_step : DistributedPipeline * PeerRegistry → DistributedPipeline * PeerRegistry → Prop :=
  | step_alloc js sid s s' : alloc_cache crc32c js sid s = (s', Ok ()) → pipe_step s s'
  | step_free sid s s' : free_cache crc32c sid s = (s', Ok ()) → pipe_step s s'
  | step_best_effort sid s : pipe_step s (free_cache_best_effort crc32c sid s)
  | step_abort ho s : pipe_step s (abort_all_sequences crc32c ho s).1
  | step_forward sid toks ps prefill p reg :
      pipe_step (p, reg) (p, (forward crc32c p sid toks ps prefill reg).1)
  | step_batched seqs toks prefill p reg :
      pipe_step (p, reg) (p, (batched_forward crc32c p seqs toks prefill reg).1)
  | step_dead id p reg : pipe_step (p, reg) (p, mark_dead id reg).

(** Only messages of type [mt] were sent. *)
Definition sends_only (mt : MessageType) (reg reg' : PeerRegistry) : Prop :=
  ∃ log, sent_log crc32c reg reg' log ∧ ∀ id m, m ∈ log id → m.1.1 = mt.

Lemma sends_only_refl mt reg : sends_only mt reg reg.
Proof. exists (λ _, []). split; [apply sent_log_refl | set_solver]. Qed.

Lemma sends_only_bind {A B : Type} mt (m : st PeerRegistry A) (k : A → st PeerRegistry B) reg :
  (∀ reg, sends_only mt reg (m reg).1) → (∀ a reg, sends_only mt reg (k a reg).1) →
  sends_only mt reg (sbind m k reg).1.
Proof.
  intros Hm Hk. unfold sbind. specialize (Hm reg). destruct (m reg) as [reg1 [a| |]]; [| done..].
  destruct Hm as (l1 & Hl1 & Ho1), (Hk a reg1) as (l2 & Hl2 & Ho2). exists (λ id, l1 id ++ l2 id).
  split; [by eapply sent_log_trans |]. set_solver.
Qed.

Lemma sends_only_reader {A : Type} mt id (m : st FramedReader A) reg : sends_only mt reg (with_reader id m reg).1.
Proof. exists (λ _, []). split; [apply with_reader_log | set_solver]. Qed.

Lemma sends_only_send {P : Type} (ser : P → result (list Z)) mt sid x id reg :
  sends_only mt reg (with_writer id (send crc32c ser mt sid x) reg).1.
Proof.
  unfold with_writer. destruct (reg !! id) as [e|] eqn:He; [| apply sends_only_refl].
  assert (∃ ms, (send crc32c ser mt sid x (writer e)).1 =
    {| w_sent := w_sent (writer e) ++ frames_of crc32c ms; w_open := w_open (writer e) |} ∧
    Forall (λ m : Msg, m.1.1 = mt) ms) as (ms & Hms & Hty).
  { unfold send, sbind, slift. assert (writer e = {| w_sent := w_sent (writer e) ++ frames_of crc32c [];
      w_open := w_open (writer e) |}) as Hnil by (destruct (writer e); simpl; by rewrite app_nil_r).
    destruct (ser x) as [bs| |]; [| by exists [].. ].
    destruct (w_open (writer e)) eqn:Ho.
    - exists [(mt, sid, bs)]. rewrite (send_raw_open _ _ _ _ _ Ho). simpl. split; [| repeat constructor].
      unfold frames_of. simpl. by rewrite app_nil_r.
    - exists []. split; [| done]. unfold send_raw, sbind, write_all. rewrite Ho. simpl. by rewrite app_nil_r in Hnil |- *. }
  destruct (send crc32c ser mt sid x (writer e)) as [w r]. simpl in Hms. subst w. cbn [fst].
  exists (λ id', if bool_decide (id' = id) then ms else []). split.
  - intros id'. destruct (decide (id' = id)) as [->|Hne].
    + by rewrite He, lookup_insert_eq, bool_decide_true.
    + rewrite lookup_insert_ne, bool_decide_false by done. apply sent_log_refl.
  - intros id' m. case_bool_decide; [| set_solver]. rewrite Forall_forall in Hty. apply Hty.
Qed.

Lemma forward_loop_sends hs n sid ps prefill i ids cur reg :
  sends_only Forward reg (forward_loop crc32c hs n sid ps prefill i ids cur reg).1.
Proof.
  revert i cur reg. induction ids as [|id ids IH]; intros i cur reg; cbn [forward_loop]; [apply sends_only_refl |].
  apply sends_only_bind; [intros; apply sends_only_send | intros _ reg1].
  apply sends_only_bind; [intros; apply sends_only_reader | intros hp reg2].
  case_if; [apply sends_only_refl |]. case_if; [apply sends_only_refl |].
  apply sends_only_bind; [intros; apply sends_only_refl | intros [out] reg3]. cbn [output].
  destruct out as [data|th td]; (destruct (bool_decide (i = _)); cbn [negb]);
    try apply sends_only_refl.
  case_if; [apply sends_only_refl | apply IH].
Qed.

Lemma batched_loop_sends n seqs prefill i ids cur reg :
  sends_only BatchedForward reg (batched_loop crc32c n seqs prefill i ids cur reg).1.
Proof.
  revert i cur reg. induction ids as [|id ids IH]; intros i cur reg; cbn [batched_loop]; [apply sends_only_refl |].
  apply sends_only_bind; [intros; apply sends_only_send | intros _ reg1].
  apply sends_only_bind; [intros; apply sends_only_reader | intros hp reg2].
  case_if; [apply sends_only_refl |].
  apply sends_only_bind; [intros; apply sends_only_refl | intros out reg3].
  destruct out as [data|th td]; (destruct (bool_decide (i = _)); cbn [negb]);
    try apply sends_only_refl. apply IH.
Qed.

Lemma in_sync_log p p' reg reg' log :
  in_sync crc32c (p, reg) → sent_log crc32c reg reg' log → order p' = order p →
  (∀ id e, id ∈ order p → reg !! id = Some e → status e = Ready → w_open (writer e) = true →
     foldl apply_msg (allocated_seqs p) (log id) = allocated_seqs p') →
  in_sync crc32c (p', reg').
Proof.
  intros Hs Hl Ho Hf id e' Hid He' Hst Hop. cbn [fst snd] in *. rewrite Ho in Hid.
  specialize (Hl id). rewrite He' in Hl. destruct (reg !! id) as [e|] eqn:He; [| done].
  destruct Hl as (Hst' & Hop' & Hsent & _). rewrite Hst in Hst'. rewrite Hop in Hop'.
  destruct (Hs id e Hid He) as (l & Hw & Hc); [done | done |]. exists (l ++ log id).
  rewrite Hsent, Hw, frames_of_app. split; [done |]. unfold worker_caches in *. rewrite foldl_app, Hc.
  by apply (Hf id e).
Qed.

Lemma in_sync_sends mt p reg reg' :
  mt ≠ CacheAlloc → mt ≠ CacheFree → in_sync crc32c (p, reg) → sends_only mt reg reg' → in_sync crc32c (p, reg').
Proof.
  intros Ha Hf Hs (log & Hl & Hty). eapply in_sync_log; [done | done | done |]. intros id e _ _ _ _.
  specialize (Hty id). generalize (allocated_seqs p) as s. induction (log id) as [|m l IH]; intros s; [done |].
  simpl. rewrite IH by (intros; apply Hty; by right). unfold apply_msg. rewrite (Hty m) by left.
  by destruct mt.
Qed.

(** Freeing on the live workers, for any number of sequences. *)
Lemma free_ready_log ids sids reg :
  NoDup ids → ∃ log,
    sent_log crc32c reg (foldl (λ reg sid, foldl (try_free_ready crc32c sid) reg ids) reg sids) log ∧
    ∀ id e, id ∈ ids → reg !! id = Some e → status e = Ready → w_open (writer e) = true →
      ∀ s, foldl apply_msg s (log id) = s ∖ list_to_set sids.
Proof.
  intros Hnd. revert reg. induction sids as [|sid sids IH]; intros reg; cbn [foldl].
  { exists (λ _, []). split; [apply sent_log_refl |]. intros. simpl. set_solver. }
  rewrite (fold_ext _ _ ids reg (try_free_ready_cond crc32c sid)).
  pose proof (fold_send_log crc32c (λ e, bool_decide (status e = Ready)) (CacheFree, sid, []) reg ids) as Hl1.
  destruct (IH (foldl (cond_send crc32c (λ e, bool_decide (status e = Ready)) (CacheFree, sid, [])) reg ids))
    as (l2 & Hl2 & Hs2).
  specialize (Hl1 ltac:(by intros e e' ->) Hnd).
  eexists. split; [exact (sent_log_trans _ _ _ _ _ _ Hl1 Hl2) |]. intros id e Hid He Hst Hop s.
  unfold cond_log. rewrite He, bool_decide_true by done. cbn [from_option andb].
  rewrite bool_decide_true, Hop by done. cbn [andb app foldl]. specialize (Hl1 id). rewrite He in Hl1.
  destruct (foldl _ reg ids !! id) as [e1|] eqn:He1; [| done]. destruct Hl1 as (Hst1 & Hop1 & _).
  rewrite (Hs2 id e1) by congruence. unfold apply_msg. simpl. set_solver.
Qed.

Lemma pipe_step_sync s s' :
  pipe_step s s' → NoDup (order s.1) → in_sync crc32c s → order s'.1 = order s.1 ∧ in_sync crc32c s'.
Proof.
  intros [js sid [p reg] [p' reg'] Ha|sid [p reg] [p' reg'] Hf|sid [p reg]|ho [p reg]|sid toks ps pf p reg
         |seqs toks pf p reg|id p reg] Hnd Hs; cbn [fst] in *.
  - unfold alloc_cache in Ha. case_bool_decide; [done |]. unfold try_alloc_all in Ha. cbn [fst snd] in Ha.
    destruct (send_to_all crc32c CacheAlloc sid (order p) reg) as [reg1 [[]|err|]] eqn:Hsend; [| done..].
    apply send_to_all_Ok in Hsend as [Hreg1 Hc].
    destruct (collect_acks _ _ _ _) as [[reg2 succ] [[]|err|]] eqn:Hcol; [| done..].
    injection Ha as <- <-. split; [done |].
    apply collect_acks_spec in Hcol as [Hlog _].
    + pose proof (broadcast_log crc32c CacheAlloc sid (order p) reg Hnd Hc) as Hl1. rewrite <- Hreg1 in Hl1.
      eapply in_sync_log; [exact Hs | exact (sent_log_trans _ _ _ _ _ _ Hl1 Hlog) | done |].
      intros id e Hid _ _ _. unfold to_all. rewrite bool_decide_true by done. done.
    + rewrite completes_perm. by apply NoDup_filter.
    + intros id. rewrite completes_perm. intros [? _]%list_elem_of_filter. done.
  - unfold free_cache in Hf. case_bool_decide; [| done]. cbn [negb] in Hf.
    destruct (send_to_all _ _ _ _ _) as [reg1 r] eqn:Hsend. injection Hf as <- <- ->.
    apply send_to_all_Ok in Hsend as [-> Hc]. split; [done |].
    eapply in_sync_log; [exact Hs | by apply broadcast_log | done |].
    intros id e Hid _ _ _. unfold to_all. cbn [order set_seqs]. by rewrite bool_decide_true by done.
  - destruct (free_ready_log (order p) [sid] reg Hnd) as (log & Hl & Hlog). split; [done |].
    eapply in_sync_log; [exact Hs | exact Hl | done |].
    intros id e Hid He Hst Hop. rewrite (Hlog id e) by done. simpl. by rewrite (right_id_L ∅ (∪)).
  - destruct (free_ready_log (order p) (hash_order ho Z (elements (allocated_seqs p))) reg Hnd) as (log & Hl & Hlog).
    split; [done |]. eapply in_sync_log; [exact Hs | exact Hl | done |].
    intros id e Hid He Hst Hop. rewrite (Hlog id e) by done. cbn [set_seqs allocated_seqs].
    apply set_eq. intros x. rewrite elem_of_difference, elem_of_list_to_set, hash_order_perm, elem_of_elements. set_solver.
  - split; [done |]. eapply (in_sync_sends Forward); [done | done | exact Hs |]. unfold forward.
    destruct (negb _); [apply sends_only_refl | apply forward_loop_sends].
  - split; [done |]. eapply (in_sync_sends BatchedForward); [done | done | exact Hs |]. unfold batched_forward.
    destruct (negb _); [apply sends_only_refl | apply batched_loop_sends].
  - split; [done |]. intros id' e' Hid' He' Hst Hop. cbn [fst snd] in *. unfold mark_dead in He'.
    destruct (decide (id' = id)) as [->|Hne].
    + rewrite lookup_alter_eq in He'. destruct (reg !! id); simpl in He'; simplify_eq.
    + rewrite lookup_alter_ne in He' by done. by apply (Hs id' e').
Qed.

(** C21: the coordinator's record of allocated sequences is what the workers
    hold: after any successful allocations and frees, best-effort frees,
    aborts and forward passes (whatever their outcome), with workers dying
    in between, every worker that is still alive has been sent messages
    after which it holds exactly the caches of [allocated_seqs]. *)
Theorem pipeline_sync s s' :
  rtc pipe_step s s' → NoDup (order s.1) → in_sync crc32c s → order s'.1 = order s.1 ∧ in_sync crc32c s'.
Proof.
  induction 1 as [s|s1 s2 s3 H12 _ IH]; intros Hnd Hs; [done |].
  destruct (pipe_step_sync _ _ H12 Hnd Hs) as [Ho Hs2]. rewrite <- Ho. apply IH; [by rewrite Ho | done].
Qed.
End sync.

(** ** Examples *)

Module PipelineExample.
(** A codec for the messages of the examples. *)
#[export] Instance forward_codec : Bincode ForwardPayload :=
  {| serialize := λ p, Ok (match input p with TokenIds ids => 1 :: ids | InActivations _ td => 2 :: td end);
     deserialize := λ _, Err (Protocol "unused") |}.
#[export] Instance batched_codec : Bincode BatchedForwardPayload :=
  {| serialize := λ p, Ok (match bf_input p with TokenIds ids => 1 :: ids | InActivations _ td => 2 :: td end);
     deserialize := λ _, Err (Protocol "unused") |}.
Definition act_header : TensorWireHeader :=
  {| ndim := 2; wshape := [1; 4]; wdtype := 0; compression := 0; data_len := 8 |}.
#[export] Instance result_codec : Bincode ForwardResultPayload :=
  {| serialize := λ _, Err (Protocol "unused");
     deserialize := λ bs, match bs with
                          | 1 :: data => Ok {| output := Logits data |}
                          | 2 :: td => Ok {| output := OutActivations act_header td |}
                          | _ => Err (Protocol "eof")
                          end |}.
#[export] Instance batched_result_codec : Bincode BatchedForwardResultPayload :=
  {| serialize := λ _, Err (Protocol "unused"); deserialize := λ _, Err (Protocol "unused") |}.
#[export] Instance error_codec : Bincode ErrorPayload :=
  {| serialize := λ _, Err (Protocol "unused");
     deserialize := λ _, Ok {| error_code := OutOfMemory; message := "no blocks" |} |}.

Definition crc : list Z → Z := λ l, Z.of_nat (length l) `mod` 7.
Lemma crc_u32 l : in_width 32 (crc l).
Proof. unfold crc, in_width. pose proof (Z.mod_pos_bound (Z.of_nat (length l)) 7). lia. Qed.

Lemma error_decodes bs : deserialize (P := ErrorPayload) bs ≠ Panic.
Proof. done. Qed.

Definition worker (id : string) (stream : list Z) : WorkerEntry :=
  {| capabilities := {| node_id := id; gpu_model := "T"; gpu_memory_available := 0; compute_capability := (8, 0);
                        decode_ms_per_layer := f32_one; prefill_ms_per_layer_128 := f32_one |};
     writer := {| w_sent := []; w_open := true |}; reader := {| r_stream := stream |}; assignment := None;
     last_heartbeat := 0; status := Ready; we_free_blocks := 0; gpu_memory_used := 0 |}.

Definition script_a : Script :=
  {| s_acks := [(0, [9; 9])]; s_seq_id := 7; s_reply := [2; 5; 6; 7]; s_out := OutActivations act_header [5; 6; 7];
     s_rest := [1; 2] |}.
Definition script_b : Script :=
  {| s_acks := []; s_seq_id := 7; s_reply := [1; 0; 0; 128; 63]; s_out := Logits [0; 0; 128; 63]; s_rest := [] |}.
Definition stream_of (mt : MessageType) (sc : Script) : list Z :=
  frames_of crc (ack_msgs (s_acks sc)) ++ frame_of crc (mt, s_seq_id sc, s_reply sc) ++ s_rest sc.

Definition regAB (a b : list Z) : PeerRegistry := <["a"%string := worker "a" a]> {["b"%string := worker "b" b]}.
Definition pipe (seqs : list Z) : DistributedPipeline :=
  {| order := ["a"; "b"]%string; hidden_size := 4; total_layers := 8; allocated_seqs := list_to_set seqs |}.
Definition in_order : JoinSchedule :=
  {| completes := λ l, l; completes_perm := λ l, Permutation_refl l; cut := λ _, 0%nat |}.
Definition reversed : JoinSchedule :=
  {| completes := λ l, reverse l; completes_perm := λ l, reverse_Permutation l; cut := λ _, 0%nat |}.
Definition ack_frame : list Z := frame_of crc (CacheAllocAck, 7, []).
Definition error_frame : list Z := frame_of crc (ErrorMsg, 7, [2]).
End PipelineExample.

Import PipelineExample.

(** The rollback of a failed allocation can leave a cache behind: when the
    first worker reports an error before the second one's acknowledgement is
    collected, the second worker has allocated the cache and acknowledged it,
    but is never told to free it, and its acknowledgement is still in the
    stream when the next response is expected. *)
Theorem alloc_rollback_leaks :
  let reg := regAB error_frame ack_frame in
  let res := alloc_cache crc in_order 7 (pipe [], reg) in
  res.2 = Err (Pipeline "worker failed CacheAlloc") ∧ acks_alloc crc reg "b" ∧
  ∃ e, res.1.2 !! "b"%string = Some e ∧
    w_sent (writer e) = frames_of crc [(CacheAlloc, 7, [])] ∧
    worker_caches [(CacheAlloc, 7, [])] = {[7]} ∧ allocated_seqs res.1.1 = ∅ ∧
    r_stream (reader e) = ack_frame.
Proof.
  cbv zeta. split; [vm_compute; reflexivity |]. split; [eexists; split; vm_compute; reflexivity |].
  eexists. split; [vm_compute; reflexivity |]. split_and!; vm_compute; reflexivity.
Qed.

Module PipelineWitness.
Lemma split_logits_witness :
  split_logits_per_sequence (mjoin (M:=list) (to_le_bytes 4 <$> mjoin (M:=list) [[1; 2]; [3; 4]; [5; 6]])) 3 =
  Ok (fmap (M:=list) f32_from_bits <$> [[1; 2]; [3; 4]; [5; 6]]).
Proof. apply (split_logits_roundtrip [[1; 2]; [3; 4]; [5; 6]] 2). decide_now. Defined.

Definition reg0 : PeerRegistry := regAB (stream_of ForwardResult script_a) (stream_of ForwardResult script_b).

Lemma forward_chains_witness :
  ∃ reg', forward crc (pipe [7]) 7 [11; 12] [0; 1] true reg0 = (reg', Ok (logits_of_bytes [0; 0; 128; 63])) ∧
    Forall2 (stage_done crc reg0 reg' 7 [0; 1] true) ["a"; "b"]%string
      (zip [script_a; script_b] (stage_inputs (TokenIds [11; 12]) [(act_header, [5; 6; 7])])) ∧
    ∀ id, id ∉ ["a"; "b"]%string → reg' !! id = reg0 !! id.
Proof.
  apply (forward_chains crc crc_u32 (pipe [7]) 7 [11; 12] [0; 1] true reg0 [script_a; script_b]
           [(act_header, [5; 6; 7])] [0; 0; 128; 63]).
  - decide_now.
  - decide_now.
  - apply Forall2_cons_2; [| apply Forall2_cons_2; [| apply Forall2_nil_2]].
    + exists (worker "a" (stream_of ForwardResult script_a)). split_and!; [reflexivity | reflexivity | | reflexivity].
      split_and!; [reflexivity | decide_now | decide_now].
    + exists (worker "b" (stream_of ForwardResult script_b)). split_and!; [reflexivity | reflexivity | | reflexivity].
      split_and!; [reflexivity | decide_now | decide_now].
  - reflexivity.
  - forall_list; eexists; reflexivity.
  - forall_list. intros d [= <-]. reflexivity.
Defined.

Lemma alloc_cache_witness :
  match alloc_cache crc reversed 7 (pipe [], regAB error_frame ack_frame) with
  | ((p', reg'), Ok _) =>
      p' = set_seqs ({[7]} ∪ ∅) (pipe []) ∧ Forall (acks_alloc crc (regAB error_frame ack_frame)) ["a"; "b"]%string ∧
      sent_log crc (regAB error_frame ack_frame) reg' (to_all ["a"; "b"]%string (CacheAlloc, 7, []))
  | ((p', reg'), Err _) =>
      p' = pipe [] ∧ ∃ acked failed rest, completes reversed ["a"; "b"]%string = acked ++ failed :: rest ∧
        Forall (acks_alloc crc (regAB error_frame ack_frame)) acked ∧
        ¬ acks_alloc crc (regAB error_frame ack_frame) failed ∧
        sent_log crc (regAB error_frame ack_frame) reg'
          (λ id, to_all ["a"; "b"]%string (CacheAlloc, 7, []) id ++ to_all acked (CacheFree, 7, []) id)
  | (_, Panic) => False
  end.
Proof.
  apply (alloc_cache_outcome crc error_decodes reversed (pipe []) 7 (regAB error_frame ack_frame)).
  - decide_now.
  - forall_list; [exists (worker "a" error_frame) | exists (worker "b" ack_frame)]; done.
  - decide_now.
Defined.

Lemma pipeline_sync_witness :
  let s := (pipe [], regAB ack_frame ack_frame) in
  let s' := (alloc_cache crc in_order 7 s).1 in
  order s'.1 = ["a"; "b"]%string ∧ in_sync crc s'.
Proof.
  intros s s'. apply (pipeline_sync crc s s').
  - apply rtc_once. apply (step_alloc crc in_order 7). vm_compute. reflexivity.
  - decide_now.
  - intros id e Hid He _ _. exists []. split; [| vm_compute; reflexivity].
    simpl in Hid. apply elem_of_cons in Hid as [->|[->|Hid%elem_of_nil]%elem_of_cons]; [| | done];
      vm_compute in He; injection He as <-; reflexivity.
Defined.
End PipelineWitness.
