(* ===== verification/Rebalance.v ===== *)
(** * Rebalancing ([crates/fracture-coordinator/src/rebalance.rs])

    Redistributing the layers after a crash, a leave or a join: the active
    sequences are aborted, the scheduler runs on the remaining workers, every
    assigned worker is sent its new range, and a new pipeline is built. *)

From S2P Require Import Prelude F32 Core Frame Connection LayerScheduler Registry DistPipeline.

Local Open Scope Z_scope.

Record RegisterAckPayload := {
  layer_start : Z;
  layer_end : Z;
  ack_total_layers : Z;
  ack_max_seq_len : Z;
  ack_model_config : ModelConfig
}.

Record RebalanceResult := { rb_pipeline : DistributedPipeline; rb_assignments : list LayerAssignment }.

Definition reconfigure_payload (c : ModelConfig) (msl : Z) (a : LayerAssignment) : RegisterAckPayload :=
  {| layer_start := wrap 32 (rstart (layer_range a)); layer_end := wrap 32 (rend (layer_range a));
     ack_total_layers := wrap 32 (num_layers c); ack_max_seq_len := wrap 32 msl; ack_model_config := c |}.

Section rebalance.
Variable crc32c : list Z → Z.
Context `{Bincode RegisterAckPayload}.

(** One iteration of step 3. *)
Definition reconfigure_one (c : ModelConfig) (msl : Z) (a : LayerAssignment) : st PeerRegistry unit := λ reg,
  match assign (la_node_id a) a reg with
  | (reg, Ok _) =>
      match with_writer (la_node_id a)
              (send crc32c serialize Reconfigure 0 (reconfigure_payload c msl a)) reg with
      | (reg, Err _) => (mark_dead (la_node_id a) reg, Ok ())
      | r => r
      end
  | (reg, Err _) => (reg, Err (Pipeline "forced rebalance: assign failed"))
  | (reg, Panic) => (reg, Panic)
  end.

Fixpoint reconfigure_all (c : ModelConfig) (msl : Z) (asg : list LayerAssignment) : st PeerRegistry unit :=
  match asg with
  | [] => sret ()
  | a :: asg' => do! _ := reconfigure_one c msl a in reconfigure_all c msl asg'
  end.

(** Step 4: one frame is read from each worker; what it is is only logged. *)
Definition await_ready (reg : PeerRegistry) (a : LayerAssignment) : PeerRegistry :=
  (with_reader (la_node_id a) (recv crc32c) reg).1.

(** The workers of step 2. *)
Definition rebalance_workers (ho : HashOrder) (skip_node_ids : list string) (reg : PeerRegistry)
    : list WorkerCapabilities :=
  filter (λ c, node_id c ∉ skip_node_ids) (all_capabilities ho reg).

Definition rebalance_input (c : ModelConfig) (m : SchedulingMode) (msl : Z) (caps : list WorkerCapabilities)
    : SchedulerInput :=
  {| model_config := c; workers := caps; coordinator_compute := None; mode := m; input_max_seq_len := msl;
     hop_latency_ms := f32_of_Z 2 |}.

(** [forced_rebalance]: [ho] orders the aborted sequences, [ho'] the workers. *)
Definition forced_rebalance (ho ho' : HashOrder) (c : ModelConfig) (m : SchedulingMode) (msl : Z)
    (skip_node_ids : list string) : st (DistributedPipeline * PeerRegistry) RebalanceResult := λ s,
  let '((p, reg), _) := abort_all_sequences crc32c ho s in
  let caps := rebalance_workers ho' skip_node_ids reg in
  match caps with
  | [] => ((p, reg), Err (Pipeline "forced rebalance: no workers available after exclusions"))
  | _ =>
      match schedule (rebalance_input c m msl caps) with
      | Ok result =>
          match reconfigure_all c msl (assignments result) reg with
          | (reg, Ok _) =>
              let reg := foldl await_ready reg (assignments result) in
              ((p, reg), rmap (λ np, {| rb_pipeline := np; rb_assignments := assignments result |})
                           (pipeline_new (assignments result) (Core.hidden_size c)))
          | (reg, Err e) => ((p, reg), Err e)
          | (reg, Panic) => ((p, reg), Panic)
          end
      | Err e => ((p, reg), Err e)
      | Panic => ((p, reg), Panic)
      end
  end.
End rebalance.

(** ** Graceful rebalance *)

Record PendingGracefulRebalance := {
  pg_model_config : ModelConfig;
  pg_scheduling_mode : SchedulingMode;
  pg_max_seq_len : Z;
  pg_skip_node_ids : list string;
  cancelled : bool
}.

Definition pending_new (c : ModelConfig) (m : SchedulingMode) (msl : Z) (skip : list string)
    : PendingGracefulRebalance :=
  {| pg_model_config := c; pg_scheduling_mode := m; pg_max_seq_len := msl; pg_skip_node_ids := skip;
     cancelled := false |}.

Definition is_ready (pg : PendingGracefulRebalance) (active_sequence_count : nat) : bool :=
  negb (cancelled pg) && bool_decide (active_sequence_count = 0%nat).

Definition cancel (pg : PendingGracefulRebalance) : PendingGracefulRebalance :=
  {| pg_model_config := pg_model_config pg; pg_scheduling_mode := pg_scheduling_mode pg;
     pg_max_seq_len := pg_max_seq_len pg; pg_skip_node_ids := pg_skip_node_ids pg; cancelled := true |}.

Definition is_cancelled (pg : PendingGracefulRebalance) : bool := cancelled pg.

(** ** Lemmas *)

Section lemmas.
Variable crc32c : list Z → Z.
Context `{Bincode RegisterAckPayload}.
Implicit Types reg : PeerRegistry.

(** What one reconfiguration does to its worker. *)
Definition reconfigured (c : ModelConfig) (msl : Z) (a : LayerAssignment) (e e' : WorkerEntry) : Prop :=
  capabilities e' = capabilities e ∧ assignment e' = Some a ∧ w_open (writer e') = w_open (writer e) ∧
  status e' = (if w_open (writer e) then Ready else Dead) ∧
  (w_open (writer e) = true → ∃ bs, serialize (reconfigure_payload c msl a) = Ok bs ∧
     w_sent (writer e') = w_sent (writer e) ++ frames_of crc32c [(Reconfigure, 0, bs)]).

Hypothesis serializes : ∀ x : RegisterAckPayload, ∃ bs, serialize x = Ok bs.

Lemma reconfigure_one_Ok c msl a reg reg' :
  reconfigure_one crc32c c msl a reg = (reg', Ok ()) →
  ∃ e e', reg !! la_node_id a = Some e ∧ status e ≠ Dead ∧ reg' = <[la_node_id a := e']> reg ∧
    reconfigured c msl a e e'.
Proof using serializes.
  unfold reconfigure_one, assign. destruct (reg !! la_node_id a) as [e|] eqn:He; [| done].
  case_bool_decide as Hd; [done |]. unfold with_writer. rewrite lookup_insert_eq. cbn [writer].
  destruct (serializes (reconfigure_payload c msl a)) as [bs Hbs].
  unfold send, sbind, slift. rewrite Hbs. destruct (w_open (writer e)) eqn:Ho.
  - rewrite (send_raw_open _ _ _ _ _ Ho). intros [= <-]. eexists e, _. split_and!; [done | done | |].
    + apply insert_insert_eq.
    + unfold reconfigured. simpl. rewrite Ho. split_and!; try done. intros _. exists bs. split; [done |].
      unfold frames_of. simpl. by rewrite app_nil_r.
  - unfold send_raw, sbind, write_all. rewrite Ho. intros [= <-]. eexists e, _. split_and!; [done | done | |].
    + unfold mark_dead. rewrite alter_insert_eq, insert_insert_eq. reflexivity.
    + unfold reconfigured. simpl. rewrite Ho. by split_and!.
Qed.

Lemma reconfigure_all_Ok c msl asg reg reg' :
  NoDup (la_node_id <$> asg) → reconfigure_all crc32c c msl asg reg = (reg', Ok ()) →
  (∀ a, a ∈ asg → ∃ e e', reg !! la_node_id a = Some e ∧ status e ≠ Dead ∧
     reg' !! la_node_id a = Some e' ∧ reconfigured c msl a e e') ∧
  (∀ id, id ∉ la_node_id <$> asg → reg' !! id = reg !! id).
Proof using serializes.
  revert reg. induction asg as [|a asg IH]; intros reg Hnd; cbn [reconfigure_all].
  { intros [= <-]. split; [set_solver | done]. }
  csimpl in Hnd. apply NoDup_cons in Hnd as [Ha Hnd].
  intros (reg1 & [] & (e & e' & He & Hd & -> & Hre)%reconfigure_one_Ok & Hrest)%sbind_Ok.
  apply IH in Hrest as [Hall Hother]; [| done]. split.
  - intros b [->|Hb]%elem_of_cons.
    + exists e, e'. split_and!; [done | done | | done]. rewrite Hother by done. apply lookup_insert_eq.
    + destruct (Hall b Hb) as (eb & eb' & Heb & Hrest). exists eb, eb'. split; [| done].
      rewrite lookup_insert_ne in Heb; [done |]. intros Heq. apply Ha. rewrite Heq.
      apply list_elem_of_fmap. eauto.
  - intros id Hid. csimpl in Hid. rewrite Hother by set_solver. apply lookup_insert_ne. set_solver.
Qed.

Lemma await_all_log asg reg : sent_log crc32c reg (foldl (await_ready crc32c) reg asg) (λ _, []).
Proof.
  revert reg. induction asg as [|a asg IH]; intros reg; [apply sent_log_refl |]. cbn [foldl].
  eapply sent_log_quiet; [apply with_reader_log | apply IH].
Qed.

(** The workers the scheduler is given. *)
Lemma elem_of_rebalance_workers ho skip reg c :
  c ∈ rebalance_workers ho skip reg ↔
  node_id c ∉ skip ∧ ∃ id e, reg !! id = Some e ∧ status e ≠ Dead ∧ capabilities e = c.
Proof.
  unfold rebalance_workers, all_capabilities. rewrite list_elem_of_filter, list_elem_of_fmap.
  setoid_rewrite list_elem_of_filter. setoid_rewrite elem_of_hm_values. naive_solver.
Qed.

Lemma rebalance_workers_NoDup ho skip reg : reg_keyed reg → NoDup (node_id <$> rebalance_workers ho skip reg).
Proof.
  intros Hk. eapply (sublist_NoDup _ ((λ e, node_id (capabilities e)) <$> hm_values ho reg)); [by apply worker_ids_NoDup |].
  unfold rebalance_workers, all_capabilities.
  etrans; [apply fmap_sublist, sublist_filter |]. rewrite <- list_fmap_compose. apply fmap_sublist, sublist_filter.
Qed.

(** Aborting sends [CacheFree] messages only. *)
Lemma sends_only_fold {A : Type} mt (f : PeerRegistry → A → PeerRegistry) (l : list A) reg :
  (∀ reg x, sends_only crc32c mt reg (f reg x)) → sends_only crc32c mt reg (foldl f reg l).
Proof.
  intros Hf. revert reg. induction l as [|x l IH]; intros reg; cbn [foldl]; [apply sends_only_refl |].
  destruct (Hf reg x) as (l1 & Hl1 & Ho1), (IH (f reg x)) as (l2 & Hl2 & Ho2).
  exists (λ id, l1 id ++ l2 id). split; [by eapply sent_log_trans | set_solver].
Qed.

Lemma try_free_ready_sends sid reg id : sends_only crc32c CacheFree reg (try_free_ready crc32c sid reg id).
Proof.
  rewrite try_free_ready_cond. eexists. split; [apply cond_send_log |]. intros id' m. unfold cond_log.
  destruct (_ && _); set_solver.
Qed.

Lemma abort_spec ho p reg :
  ∃ reg' drained, abort_all_sequences crc32c ho (p, reg) = ((set_seqs ∅ p, reg'), drained) ∧
    sends_only crc32c CacheFree reg reg'.
Proof.
  eexists _, _. split; [reflexivity |]. apply sends_only_fold. intros. apply sends_only_fold.
  intros. apply try_free_ready_sends.
Qed.

Lemma sent_log_keyed reg reg' log : sent_log crc32c reg reg' log → reg_keyed reg → reg_keyed reg'.
Proof.
  intros Hl Hk id e' He'. specialize (Hl id). rewrite He' in Hl. destruct (reg !! id) as [e|] eqn:He; [| done].
  destruct Hl as (_ & _ & _ & -> & _). by apply Hk.
Qed.

Lemma pipeline_new_Ok asg hs np : pipeline_new asg hs = Ok np →
  order np = la_node_id <$> asg ∧ DistPipeline.hidden_size np = hs ∧ allocated_seqs np = ∅ ∧
  contiguous 0 (total_layers np) (layer_range <$> asg) ∧ Forall nonempty_range asg.
Proof.
  unfold pipeline_new. destruct asg as [|a asg]; [done |].
  intros (total & Hr & [= <-])%rbind_Ok. apply check_ranges_Ok in Hr as [Hc Hne]. by split_and!.
Qed.

Lemma contiguous_end start stop stop' l : contiguous start stop l → contiguous start stop' l → stop = stop'.
Proof. revert start. induction l as [|r l IH]; intros start; simpl; [naive_solver |]. naive_solver. Qed.

(** The steps of a rebalance that succeeds. *)
Lemma forced_rebalance_Ok ho ho' c m msl skip p reg s' res :
  forced_rebalance crc32c ho ho' c m msl skip (p, reg) = (s', Ok res) →
  ∃ reg1 sres reg2, sends_only crc32c CacheFree reg reg1 ∧
    schedule (rebalance_input c m msl (rebalance_workers ho' skip reg1)) = Ok sres ∧
    reconfigure_all crc32c c msl (assignments sres) reg1 = (reg2, Ok ()) ∧
    s' = (set_seqs ∅ p, foldl (await_ready crc32c) reg2 (assignments sres)) ∧
    rb_assignments res = assignments sres ∧
    pipeline_new (assignments sres) (Core.hidden_size c) = Ok (rb_pipeline res).
Proof.
  unfold forced_rebalance. destruct (abort_spec ho p reg) as (reg1 & drained & -> & Hfree).
  destruct (rebalance_workers ho' skip reg1) as [|w ws] eqn:Hw; [done |].
  destruct (schedule _) as [sres| |] eqn:Hs; [| done..].
  destruct (reconfigure_all _ _ _ _ _) as [reg2 [[]| |]] eqn:Hr; [| done..].
  intros [= <- (np & Hnp & [= <-])%rbind_Ok]. exists reg1, sres, reg2. rewrite Hw. by split_and!.
Qed.

(** C33: a forced rebalance that succeeds leaves no sequence allocated and
    returns a pipeline whose stages cover every layer of the model exactly
    once, on distinct workers that were alive and not excluded.  Each of them
    has the new range recorded; if its connection was open, it was sent only
    [CacheFree] messages and then one [Reconfigure] with its range, and is
    ready, otherwise it is marked dead.  The status and assignment of every
    other worker stay what they were. *)
Theorem rebalance_sound ho ho' c m msl skip p reg s' res :
  reg_keyed reg → 0 ≤ num_layers c →
  forced_rebalance crc32c ho ho' c m msl skip (p, reg) = (s', Ok res) →
  let asg := rb_assignments res in
  s'.1 = set_seqs ∅ p ∧ allocated_seqs (rb_pipeline res) = ∅ ∧
  order (rb_pipeline res) = la_node_id <$> asg ∧ NoDup (order (rb_pipeline res)) ∧
  total_layers (rb_pipeline res) = num_layers c ∧ partitions 0 (num_layers c) asg ∧
  (∀ a, a ∈ asg → la_node_id a ∉ skip ∧
     ∃ e e', reg !! la_node_id a = Some e ∧ s'.2 !! la_node_id a = Some e' ∧ status e ≠ Dead ∧
       assignment e' = Some a ∧ status e' = (if w_open (writer e) then Ready else Dead) ∧
       (w_open (writer e) = true → ∃ frees bs, Forall (λ m : MessageType * Z * list Z, m.1.1 = CacheFree) frees ∧
          serialize (reconfigure_payload c msl a) = Ok bs ∧
          w_sent (writer e') = w_sent (writer e) ++ frames_of crc32c (frees ++ [(Reconfigure, 0, bs)]))) ∧
  (∀ id, id ∉ la_node_id <$> asg →
     (λ e, (status e, assignment e)) <$> s'.2 !! id = (λ e, (status e, assignment e)) <$> reg !! id).
Proof using serializes.
  intros Hk HL (reg1 & sres & reg2 & (log & Hlog & Hfree) & Hs & Hrec & -> & Hasg & Hnp)%forced_rebalance_Ok asg.
  subst asg. rewrite Hasg. cbn [fst snd]. set (inp := rebalance_input _ _ _ _) in Hs.
  assert (SchedulerInput_wf inp) as Hwf by done.
  assert (candidates_of inp = rebalance_workers ho' skip reg1) as Hcand by (unfold candidates_of; simpl; by rewrite ?app_nil_r).
  assert (NoDup (la_node_id <$> assignments sres)) as Hnd.
  { eapply (schedule_NoDup inp); [done | | done]. rewrite Hcand.
    by apply rebalance_workers_NoDup, (sent_log_keyed _ _ _ Hlog). }
  destruct (schedule_plan inp sres Hwf Hs) as (plt & cands & counts & ex & _ & Hplan & Hb & Hsub).
  destruct (build_result_spec _ _ _ _ _ _ Hplan Hb) as (Hc & Hid & _).
  destruct (pipeline_new_Ok _ _ _ Hnp) as (Hord & _ & Hempty & Hc' & Hne).
  pose proof (contiguous_end _ _ _ _ Hc' Hc) as Htot. cbn [inp rebalance_input model_config] in Htot.
  destruct (reconfigure_all_Ok _ _ _ _ _ Hnd Hrec) as [Hall Hother].
  pose proof (await_all_log (assignments sres) reg2) as Hawait.
  rewrite Hord. split_and!; [done | done | done | done | done | | |].
  - rewrite <- Htot. by apply contiguous_partitions.
  - intros a Ha. split.
    + assert (la_node_id a ∈ node_id <$> cands) as (w & -> & Hw)%list_elem_of_fmap.
      { rewrite <- Hid. apply list_elem_of_fmap. eauto. }
      apply Hsub in Hw. rewrite Hcand in Hw. by apply elem_of_rebalance_workers in Hw as [? _].
    + destruct (Hall a Ha) as (e1 & e2 & He1 & Hd & He2 & _ & Ha2 & _ & Hst2 & Hsent2).
      pose proof (Hlog (la_node_id a)) as Hl1. pose proof (Hawait (la_node_id a)) as Hl3. rewrite He1 in Hl1. rewrite He2 in Hl3.
      destruct (reg !! la_node_id a) as [e|] eqn:He; [| done].
      destruct (foldl _ reg2 _ !! la_node_id a) as [e3|]; [| done].
      destruct Hl1 as (Hst1 & Ho1 & Hsent1 & _ & _), Hl3 as (Hst3 & _ & Hsent3 & _ & Ha3).
      exists e, e3. rewrite Ho1 in Hst2, Hsent2.
      split_and!; [done | done | congruence | congruence | congruence |].
      intros Hop. destruct (Hsent2 Hop) as (bs & Hbs & Hsent2'). exists (log (la_node_id a)), bs.
      split_and!; [by apply Forall_forall, Hfree | done |].
      rewrite Hsent3, Hsent2', Hsent1, frames_of_app, !app_assoc. apply app_nil_r.
  - intros id Hid'. specialize (Hlog id). specialize (Hawait id). rewrite Hother in Hawait by done.
    destruct (reg !! id), (reg1 !! id), (foldl _ reg2 _ !! id); try done. simpl.
    destruct Hawait as (-> & _ & _ & _ & ->), Hlog as (-> & _ & _ & _ & ->). done.
Qed.
End lemmas.

(** ** Examples *)

Module RebalanceExample.
#[export] Instance ack_codec : Bincode RegisterAckPayload :=
  {| serialize := λ x, Ok [layer_start x; layer_end x]; deserialize := λ _, Err (Protocol "unused") |}.

Lemma ack_serializes (x : RegisterAckPayload) : ∃ bs, serialize x = Ok bs.
Proof. by eexists. Qed.

Definition crc : list Z → Z := PipelineExample.crc.
Definition entry (w : WorkerCapabilities) (stream : list Z) (opened : bool) (a : option LayerAssignment) : WorkerEntry :=
  {| capabilities := w; writer := {| w_sent := []; w_open := opened |}; reader := {| r_stream := stream |};
     assignment := a; last_heartbeat := 0; status := Ready; we_free_blocks := 0; gpu_memory_used := 0 |}.
Definition ready_frame : list Z := frame_of crc (WorkerReady, 0, []).
Definition ack_frame : list Z := frame_of crc (Frame.HeartbeatAck, 0, []).

Definition old_range : LayerAssignment :=
  {| la_node_id := "c"; layer_range := {| rstart := 4; rend := 7 |}; role := Tail; expected_decode_ms := f32_one;
     weight_memory_gb := f32_zero; cache_memory_gb := f32_zero |}.

(** Workers "a" and "b", and a slow "c" that served layers 4..7 so far. *)
Definition reg (open_b : bool) : PeerRegistry :=
  <["a"%string := entry LayerExample.wa ready_frame true None]>
  (<["b"%string := entry LayerExample.wb ready_frame open_b None]>
   {["c"%string := entry LayerExample.wc [] true (Some old_range)]}).
Definition pipe : DistributedPipeline :=
  {| order := ["a"; "c"]%string; DistPipeline.hidden_size := 8; total_layers := 7; allocated_seqs := {[7]} |}.
Definition rebalance (open_b : bool) (m : SchedulingMode) (skip : list string) :=
  forced_rebalance crc hash_order_id hash_order_id LayerExample.cfg m 16 skip (pipe, reg open_b).
End RebalanceExample.
Import RebalanceExample.

(** After a rebalance the registry and the returned pipeline can disagree.
    A worker the scheduler left out keeps its old range and stays ready, so
    the registry's pipeline order still lists it, between the new stages; and
    a worker that could not be sent its new range is marked dead but is a
    stage of the returned pipeline. *)
Theorem rebalance_registry_disagrees :
  (∃ s' res, rebalance true Auto [] = (s', Ok res) ∧ order (rb_pipeline res) = ["a"; "b"]%string ∧
     pipeline_order hash_order_id s'.2 = ["a"; "c"; "b"]%string) ∧
  (∃ s' res e, rebalance false EqualSplit ["c"%string] = (s', Ok res) ∧
     order (rb_pipeline res) = ["a"; "b"]%string ∧ s'.2 !! "b"%string = Some e ∧ status e = Dead).
Proof.
  split.
  - eexists _, _. split; [vm_compute; reflexivity |]. split; vm_compute; reflexivity.
  - eexists _, _, _. split; [vm_compute; reflexivity |]. split; [vm_compute; reflexivity |].
    split; vm_compute; reflexivity.
Qed.

Module RebalanceWitness.
Definition get (r : result RebalanceResult) : RebalanceResult :=
  match r with
  | Ok x => x
  | _ => {| rb_pipeline := empty_pipeline 0; rb_assignments := [] |}
  end.
Definition run := rebalance true Auto [].

Lemma rebalance_sound_witness :
  order (rb_pipeline (get run.2)) = la_node_id <$> rb_assignments (get run.2) ∧
  total_layers (rb_pipeline (get run.2)) = 7 ∧ partitions 0 7 (rb_assignments (get run.2)).
Proof.
  destruct (rebalance_sound crc ack_serializes hash_order_id hash_order_id LayerExample.cfg Auto 16 []
              pipe (reg true) run.1 (get run.2)) as (_ & _ & Ho & _ & Ht & Hp & _).
  - intros id e. unfold reg. rewrite !lookup_insert_Some, lookup_singleton_Some.
    intros [[<- <-]|[_ [[<- <-]|[_ [<- <-]]]]]; done.
  - done.
  - vm_compute. reflexivity.
  - split; [exact Ho |]. split; [exact Ht | exact Hp].
Defined.
End RebalanceWitness.
