(* ===== verification/Sampling.v ===== *)
(** * Token sampling ([crates/fracture-generate/src/sampling.rs])

    [f32::exp] (the platform's libm) and the random number generators are
    parameters: [exp], and [random] from the optional seed to the number drawn. *)

From S2P Require Import Prelude F32.
From Stdlib Require Import SpecFloat.

Record SamplingParams := { temperature : f32; top_k : nat; top_p : f32; seed : option Z }.

Definition SamplingParams_default : SamplingParams :=
  {| temperature := f32_one; top_k := 0; top_p := f32_one; seed := None |}.

(** [f32_cmp]: NaN is less than every other value. *)
Definition f32_cmp (a b : f32) : comparison :=
  match partial_cmp a b with
  | Some c => c
  | None => match is_nan a, is_nan b with
            | true, false => Lt
            | false, true => Gt
            | _, _ => Eq
            end
  end.

(** [iter().sum::<f32>()] *)
Definition f32_sum (l : list f32) : f32 := foldl f32_add f32_zero l.

(** [indices.sort_by(|&a, &b| f32_cmp(&v[b], &v[a]))]: a stable sort, largest
    first; a comparison indexes [v]. *)
Definition value_at (v : list f32) (i : nat) : f32 := default f32_zero (v !! i).
Fixpoint insert_desc (v : list f32) (i : nat) (l : list nat) : list nat :=
  match l with
  | [] => [i]
  | j :: l' => match f32_cmp (value_at v j) (value_at v i) with
               | Gt => j :: insert_desc v i l'
               | _ => i :: l
               end
  end.
Definition sort_desc (v : list f32) (l : list nat) : result (list nat) :=
  if forallb (λ i, bool_decide (i < length v)) l then Ok (foldr (insert_desc v) [] l) else Panic.

(** The top-p loop: how many of the sorted probabilities are kept. *)
Fixpoint nucleus (p : f32) (probs : list f32) (total i : nat) (cumulative : f32) (l : list nat) : result nat :=
  match l with
  | [] => Ok total
  | si :: l' =>
      let? q := index probs si in
      let cumulative := f32_add cumulative q in
      if fgt cumulative p then Ok (i + 1) else nucleus p probs total (i + 1) cumulative l'
  end.

(** The last loop: the first index whose accumulated probability reaches [r]. *)
Fixpoint pick (probs : list f32) (r acc : f32) (l : list nat) : result (option nat) :=
  match l with
  | [] => Ok None
  | i :: l' =>
      let? q := index probs i in
      let acc := f32_add acc q in
      if fge acc r then Ok (Some i) else pick probs r acc l'
  end.

Section sampling.
Variable exp : f32 → f32.
Variable random : option Z → f32.

(** The indices top-k filtering keeps. *)
Definition top_k_indices (k : nat) (scaled : list f32) : result (list nat) :=
  let indices := seq 0 (length scaled) in
  if bool_decide (0 < k ∧ k < length scaled) then
    let? sorted := sort_desc scaled indices in Ok (take k sorted)
  else Ok indices.

(** [Sampler::sample] *)
Definition sample (logits : list f32) (params : SamplingParams) : result Z :=
  match logits with
  | [] => Err (Generation "empty logits")
  | _ =>
      if existsb is_nan logits then Err (Generation "NaN in logits")
      else if existsb is_infinite logits then Err (Generation "Inf in logits")
      else if feq (temperature params) f32_zero || bool_decide (top_k params = 1) then
        match max_by (λ a b, f32_cmp a.2 b.2) (imap pair logits) with
        | Some (idx, _) => Ok (wrap 32 (Z.of_nat idx))
        | None => Panic
        end
      else
        let scaled := (λ l, f32_div l (temperature params)) <$> logits in
        let? indices := top_k_indices (top_k params) scaled in
        let? picked := rmapM (index scaled) indices in
        let max_val := foldl f32_max f32_NEG_INFINITY picked in
        let exps := (λ x, exp (f32_sub x max_val)) <$> picked in
        let sum := f32_sum exps in
        let probs := (λ e, f32_div e sum) <$> exps in
        let? sorted_indices := sort_desc probs (seq 0 (length probs)) in
        let? cutoff :=
          (if flt (top_p params) f32_one
           then nucleus (top_p params) probs (length sorted_indices) 0 f32_zero sorted_indices
           else Ok (length sorted_indices)) in
        let? filtered := slice 0 cutoff sorted_indices in
        let? kept := rmapM (index probs) filtered in
        let filtered_sum := f32_sum kept in
        let r := f32_mul (random (seed params)) filtered_sum in
        let? found := pick probs r f32_zero filtered in
        match found with
        | Some i => let? t := index indices i in Ok (wrap 32 (Z.of_nat t))
        | None =>
            match last filtered with
            | Some i => let? t := index indices i in Ok (wrap 32 (Z.of_nat t))
            | None => Panic
            end
        end
  end.
End sampling.

(** ** The order of [f32_cmp] *)

Definition nkey (x : f32) : Z * Z * Z := if is_nan x then (-3, 0, 0)%Z else fkey x.

Lemma f32_cmp_le a b : f32_cmp a b ≠ Gt ↔ key_le (nkey a) (nkey b).
Proof.
  unfold f32_cmp, nkey. destruct (partial_cmp a b) as [c|] eqn:Hc.
  - assert (is_nan a = false ∧ is_nan b = false) as [Ha Hb].
    { destruct (is_nan a) eqn:Ha, (is_nan b) eqn:Hb; try done;
        rewrite (proj2 (partial_cmp_None a b)) in Hc by auto; done. }
    rewrite Ha, Hb. pose proof (fle_key a b) as Hk. rewrite fle_partial_cmp, Hc in Hk. destruct c; naive_solver.
  - apply partial_cmp_None in Hc. destruct (is_nan a) eqn:Ha, (is_nan b) eqn:Hb; simpl; [| | | naive_solver].
    + split; [lia | done].
    + split; [| done]. intros _. destruct b as [[]|[]| |[]]; simpl in *; try done; lia.
    + split; [done |]. destruct a as [[]|[]| |[]]; simpl in *; try done; lia.
Qed.

Lemma key_le_trans k1 k2 k3 : key_le k1 k2 → key_le k2 k3 → key_le k1 k3.
Proof. destruct k1 as [[]], k2 as [[]], k3 as [[]]. simpl. lia. Qed.
Lemma key_le_total k1 k2 : key_le k1 k2 ∨ key_le k2 k1.
Proof. destruct k1 as [[]], k2 as [[]]. simpl. lia. Qed.

Lemma f32_cmp_antisym a b : f32_cmp b a = CompOpp (f32_cmp a b).
Proof.
  unfold f32_cmp. destruct (partial_cmp a b) as [c|] eqn:Hc.
  - by rewrite (partial_cmp_antisym _ _ _ Hc).
  - assert (partial_cmp b a = None) as ->.
    { apply partial_cmp_None. apply partial_cmp_None in Hc. naive_solver. }
    by destruct (is_nan a), (is_nan b).
Qed.

Lemma f32_cmp_flt a b : is_nan a = false → is_nan b = false → f32_cmp a b = Lt ↔ flt a b = true.
Proof.
  intros Ha Hb. destruct (partial_cmp_not_nan a b Ha Hb) as [c Hc]. unfold f32_cmp, flt, SFltb.
  unfold partial_cmp in *. rewrite Hc. destruct c; naive_solver.
Qed.

(** ** Sorting *)

(** [i] may come before [j]. *)
Definition desc (v : list f32) (i j : nat) : Prop := key_le (nkey (value_at v j)) (nkey (value_at v i)).

Lemma insert_desc_perm v i l : insert_desc v i l ≡ₚ i :: l.
Proof.
  induction l as [|j l IH]; simpl; [done |]. destruct (f32_cmp _ _); try done.
  rewrite IH. apply Permutation_swap.
Qed.

Lemma insert_desc_sorted v i l : StronglySorted (desc v) l → StronglySorted (desc v) (insert_desc v i l).
Proof.
  induction 1 as [|j l Hs IH Hall]; simpl; [repeat constructor |].
  assert (f32_cmp (value_at v j) (value_at v i) ≠ Gt → StronglySorted (desc v) (i :: j :: l)) as Hle.
  { intros Hc%f32_cmp_le. constructor; [by constructor |]. constructor; [done |].
    eapply Forall_impl; [exact Hall |]. intros k Hk. by eapply key_le_trans. }
  destruct (f32_cmp (value_at v j) (value_at v i)) eqn:Hc; [by apply Hle.. |].
  constructor; [done |]. rewrite insert_desc_perm. constructor; [| done].
  apply f32_cmp_le. rewrite f32_cmp_antisym, Hc. done.
Qed.

Lemma sort_desc_spec v l s : sort_desc v l = Ok s → s ≡ₚ l ∧ StronglySorted (desc v) s.
Proof.
  unfold sort_desc. destruct (forallb _ _); [| done]. intros [= <-].
  induction l as [|i l [IHp IHs]]; simpl; [split; [done | constructor] |].
  split; [by rewrite insert_desc_perm, IHp | by apply insert_desc_sorted].
Qed.

Definition in_range (n : nat) (l : list nat) : Prop := Forall (λ i, i < n) l.

Lemma in_range_seq n : in_range n (seq 0 n).
Proof. apply Forall_forall. intros i [_ Hi]%elem_of_seq. lia. Qed.

Lemma sort_desc_Ok v l : in_range (length v) l → ∃ s, sort_desc v l = Ok s.
Proof.
  intros Hl. unfold sort_desc. destruct (forallb _ l) eqn:E; [by eexists |]. exfalso.
  apply not_true_iff_false in E. apply E, forallb_forall. intros i Hi.
  apply bool_decide_eq_true. unfold in_range in Hl. rewrite Forall_forall in Hl. by apply Hl, list_elem_of_In.
Qed.

(** ** Totality of the steps *)

Lemma gather_Ok {A : Type} (v : list A) l : in_range (length v) l → ∃ r, rmapM (index v) l = Ok r ∧ length r = length l.
Proof.
  induction 1 as [|i l Hi _ (r & Hr & Hlen)]; [by exists [] |].
  destruct (lookup_lt_is_Some_2 v i Hi) as [x Hx]. exists (x :: r). simpl. unfold index at 1. rewrite Hx, Hr. simpl. by rewrite Hlen.
Qed.

Lemma nucleus_Ok p probs i cum l : in_range (length probs) l →
  ∃ c, nucleus p probs (i + length l) i cum l = Ok c ∧ (l = [] ∨ i < c) ∧ c ≤ i + length l.
Proof.
  intros Hl. revert i cum. induction Hl as [|si l Hsi _ IH]; intros i cum; simpl; [exists (i + 0); auto |].
  destruct (lookup_lt_is_Some_2 probs si Hsi) as [q Hq]. unfold index. rewrite Hq. simpl.
  destruct (fgt _ _); [exists (i + 1); split_and!; [done | right; lia | lia] |].
  destruct (IH (i + 1) (f32_add cum q)) as (c & Hc & Hpos & Hle). replace (i + S (length l)) with (i + 1 + length l) by lia.
  exists c. split_and!; [done | | lia]. right. destruct Hpos as [->|]; [| lia]. simpl in *. injection Hc as <-. lia.
Qed.

Lemma pick_Ok probs r acc l : in_range (length probs) l →
  ∃ o, pick probs r acc l = Ok o ∧ ∀ i, o = Some i → i ∈ l.
Proof.
  intros Hl. revert acc. induction Hl as [|j l Hj _ IH]; intros acc; simpl; [by exists None |].
  destruct (lookup_lt_is_Some_2 probs j Hj) as [q Hq]. unfold index. rewrite Hq. simpl.
  destruct (fge _ _); [exists (Some j); split; [done |]; intros i [= <-]; left |].
  destruct (IH (f32_add acc q)) as (o & Ho & Hin). exists o. split; [done |]. intros i Hi. right. by apply Hin.
Qed.

Lemma top_k_Ok k scaled : ∃ idx,
  top_k_indices k scaled = Ok idx ∧ in_range (length scaled) idx ∧ (scaled ≠ [] → idx ≠ []).
Proof.
  unfold top_k_indices. case_bool_decide as Hk.
  - destruct (sort_desc_Ok scaled (seq 0 (length scaled)) (in_range_seq _)) as [s Hs].
    rewrite Hs. exists (take k s). destruct (sort_desc_spec _ _ _ Hs) as [Hp _]. split_and!; [done | |].
    + apply Forall_take. unfold in_range. rewrite Hp. apply in_range_seq.
    + intros _ Hn. apply (f_equal length) in Hn. rewrite length_take, Hp, length_seq in Hn. simpl in Hn. lia.
  - exists (seq 0 (length scaled)). split_and!; [done | apply in_range_seq |]. by destruct scaled.
Qed.

Definition is_finite (x : f32) : Prop := is_nan x = false ∧ is_infinite x = false.
Definition greedy (params : SamplingParams) : bool :=
  feq (temperature params) f32_zero || bool_decide (top_k params = 1).

Lemma finite_checks logits : Forall is_finite logits ↔ existsb is_nan logits = false ∧ existsb is_infinite logits = false.
Proof.
  induction logits as [|x l IH]; simpl; [by split |]. rewrite Forall_cons, IH, !orb_false_iff. unfold is_finite. naive_solver.
Qed.

Section totality.
Variable exp : f32 → f32.
Variable random : option Z → f32.

Lemma sample_random logits params :
  logits ≠ [] → Forall is_finite logits → greedy params = false →
  ∃ idx t, top_k_indices (top_k params) ((λ l, f32_div l (temperature params)) <$> logits) = Ok idx ∧ t ∈ idx ∧
    t < length logits ∧ sample exp random logits params = Ok (wrap 32 (Z.of_nat t)).
Proof.
  intros Hne [Hn Hi]%finite_checks Hg. unfold sample. destruct logits as [|x0 logits0]; [done |].
  set (logits := x0 :: logits0) in *. rewrite Hn, Hi. unfold greedy in Hg. rewrite Hg.
  set (scaled := (λ l, f32_div l (temperature params)) <$> logits).
  destruct (top_k_Ok (top_k params) scaled) as (idx & Hidx & Hrange & Hidxne). exists idx. rewrite Hidx. cbn [rbind].
  destruct (gather_Ok scaled idx Hrange) as (picked & -> & Hlp). cbn [rbind].
  set (probs := (λ e, f32_div e _) <$> _).
  assert (length probs = length idx) as Hlprobs by (unfold probs; by rewrite !length_fmap).
  destruct (sort_desc_Ok probs (seq 0 (length probs)) (in_range_seq _)) as [s Hs]. rewrite Hs. cbn [rbind].
  destruct (sort_desc_spec _ _ _ Hs) as [Hp _].
  assert (in_range (length probs) s) as Hsr by (unfold in_range; rewrite Hp; apply in_range_seq).
  assert (s ≠ []) as Hsne.
  { intros ->. apply Permutation_nil_l in Hp. apply (f_equal length) in Hp. rewrite length_seq in Hp.
    apply Hidxne; [done |]. by apply nil_length_inv; rewrite <- Hlprobs, <- Hp. }
  assert (∃ c, (if flt (top_p params) f32_one then nucleus (top_p params) probs (length s) 0 f32_zero s
                else Ok (length s)) = Ok c ∧ 0 < c ∧ c ≤ length s) as (c & -> & Hc0 & Hcl).
  { destruct (flt _ _).
    - destruct (nucleus_Ok (top_p params) probs 0 f32_zero s Hsr) as (c & Hc & [|Hpos] & Hle); [done |]. by exists c.
    - exists (length s). split_and!; [done | | done]. destruct s; [done | simpl; lia]. }
  cbn [rbind]. rewrite slice_Ok by lia. cbn [rbind]. rewrite drop_0, Nat.sub_0_r.
  set (filtered := take c s).
  assert (in_range (length probs) filtered) as Hfr by (by apply Forall_take).
  destruct (gather_Ok probs filtered Hfr) as (kept & -> & _). cbn [rbind].
  set (r := f32_mul _ _). destruct (pick_Ok probs r f32_zero filtered Hfr) as (o & -> & Ho). cbn [rbind].
  assert (∀ i, i ∈ filtered → ∃ t, index idx i = Ok t ∧ t ∈ idx ∧ t < length logits) as Hfin.
  { intros i Hif. unfold in_range in Hfr. rewrite Forall_forall in Hfr. specialize (Hfr i Hif). rewrite Hlprobs in Hfr.
    destruct (lookup_lt_is_Some_2 idx i Hfr) as [t Ht]. exists t. unfold index. rewrite Ht.
    apply list_elem_of_lookup_2 in Ht as Hin. split_and!; [done | done |].
    unfold in_range in Hrange. rewrite Forall_forall in Hrange. specialize (Hrange t Hin).
    unfold scaled in Hrange. by rewrite length_fmap in Hrange. }
  destruct o as [i|].
  - destruct (Hfin i (Ho i eq_refl)) as (t & Ht & Hin & Hlt). exists t. by rewrite Ht.
  - destruct (last filtered) as [i|] eqn:Hlast.
    + apply last_Some_elem_of in Hlast. destruct (Hfin i Hlast) as (t & Ht & Hin & Hlt). exists t. by rewrite Ht.
    + apply last_None in Hlast. unfold filtered in Hlast. apply (f_equal length) in Hlast.
      rewrite length_take in Hlast. simpl in Hlast. lia.
Qed.
End totality.

(** ** Theorems *)

(** [max_by] returns the last maximal element. *)
Lemma max_by_last {A : Type} (cmp : A → A → comparison) (l : list A) m :
  max_by cmp l = Some m → ∃ l1 l2, l = l1 ++ m :: l2 ∧ ∀ y, y ∈ l2 → cmp m y = Gt.
Proof.
  destruct l as [|x l]; [done |]. intros [= Hm]. revert x Hm. induction l as [|z l IH]; intros x Hm; simpl in Hm.
  { subst. exists [], []. split; [done | set_solver]. }
  unfold max_by_step in Hm at 2. destruct (cmp x z) eqn:Hc; apply IH in Hm as (l1 & l2 & Heq & Hall).
  1,2: exists (x :: l1), l2; by rewrite Heq.
  destruct l1 as [|y l1]; simplify_eq/=.
  - exists [], (z :: l2). split; [done |]. intros y [->|Hy]%elem_of_cons; auto.
  - exists (y :: z :: l1), l2. done.
Qed.

(** What sampling returns. *)
Lemma sample_outcome exp random logits params :
  match sample exp random logits params with
  | Ok tok => logits ≠ [] ∧ Forall is_finite logits ∧ ∃ i, i < length logits ∧ tok = wrap 32 (Z.of_nat i)
  | Err _ => logits = [] ∨ ¬ Forall is_finite logits
  | Panic => False
  end.
Proof.
  destruct (decide (logits = [])) as [->|Hne]; [by left |].
  destruct (existsb is_nan logits) eqn:Hn.
  { unfold sample. destruct logits; [done |]. rewrite Hn. right. intros [? _]%finite_checks. congruence. }
  destruct (existsb is_infinite logits) eqn:Hi.
  { unfold sample. destruct logits; [done |]. rewrite Hn, Hi. right. intros [_ ?]%finite_checks. congruence. }
  assert (Forall is_finite logits) as Hfin by (by apply finite_checks).
  destruct (greedy params) eqn:Hg.
  - unfold sample. unfold greedy in Hg. destruct logits as [|x l]; [done |]. rewrite Hn, Hi, Hg.
    destruct (max_by_Some (λ a b, f32_cmp a.2 b.2) (imap pair (x :: l))) as [[i v] Hm]; [done |].
    rewrite Hm. split_and!; [done | done |]. apply max_by_elem, list_elem_of_lookup in Hm as [j Hj].
    rewrite list_lookup_imap in Hj. destruct ((x :: l) !! j) eqn:Hlk; [| done]. injection Hj as <- <-.
    exists j. split; [by eapply lookup_lt_Some | done].
  - destruct (sample_random exp random logits params Hne Hfin Hg) as (idx & t & _ & _ & Ht & ->).
    split_and!; [done | done |]. by exists t.
Qed.

(** C37: sampling is total: whatever the exponential and the random number, it
    returns the index of a logit exactly when the logits are non-empty and
    finite, an error otherwise, and never panics. *)
Theorem sample_total exp random logits params :
  match sample exp random logits params with
  | Ok tok => logits ≠ [] ∧ Forall is_finite logits ∧ ∃ i, i < length logits ∧ tok = wrap 32 (Z.of_nat i)
  | Err _ => logits = [] ∨ ¬ Forall is_finite logits
  | Panic => False
  end.
Proof. apply sample_outcome. Qed.

(** Greedy decoding, at temperature zero or with [top_k = 1], returns the
    index of a largest logit, the last one among equals. *)
Theorem sample_greedy exp random logits params :
  logits ≠ [] → Forall is_finite logits → greedy params = true → (Z.of_nat (length logits) ≤ 2 ^ 32)%Z →
  ∃ i (m : f32), sample exp random logits params = Ok (Z.of_nat i) ∧ logits !! i = Some m ∧
    (∀ j (x : f32), logits !! j = Some x → fle x m = true) ∧
    (∀ j (x : f32), i < j → logits !! j = Some x → flt x m = true).
Proof.
  intros Hne Hfin Hg Hlen. pose proof (proj1 (finite_checks _) Hfin) as [Hn Hi].
  destruct (max_by_Some (λ a b, f32_cmp a.2 b.2) (imap pair logits)) as [[i m] Hm]; [by destruct logits |].
  destruct (max_by_last _ _ _ Hm) as (l1 & l2 & Heq & Hlast).
  assert (∀ j, (imap pair logits) !! j = pair j <$> (logits !! j)) as Hlk by (intros; apply list_lookup_imap).
  pose proof (Hlk (length l1)) as Him. rewrite Heq, list_lookup_middle in Him by done.
  destruct (logits !! length l1) as [m'|] eqn:Hm'; [| done]. injection Him as -> ->.
  assert (∀ j (x : f32), logits !! j = Some x → is_nan x = false) as Hnn.
  { intros j x Hx. rewrite Forall_lookup in Hfin. by destruct (Hfin j x Hx). }
  exists (length l1), m'. apply lookup_lt_Some in Hm' as Hlt. split_and!.
  - unfold sample. unfold greedy in Hg. destruct logits as [|x l]; [done |]. rewrite Hn, Hi, Hg, Hm.
    f_equal. apply wrap_small. unfold in_width. lia.
  - done.
  - intros j x Hx. destruct (max_by_spec (λ a b : nat * f32, f32_cmp a.2 b.2)
        (λ a b, key_le (nkey a.2) (nkey b.2)) (λ _, True)) with (l := imap pair logits) (m := (length l1, m')) as [_ Hmax].
    + intros ???. apply key_le_trans.
    + intros a _. destruct (key_le_total (nkey a.2) (nkey a.2)); done.
    + intros a b _ _ Hc. apply f32_cmp_le. by rewrite f32_cmp_antisym, Hc.
    + intros a b _ _ Hc. by apply f32_cmp_le.
    + by apply Forall_true.
    + done.
    + assert ((j, x) ∈ imap pair logits) as Hin by (apply (list_elem_of_lookup_2 _ j); by rewrite Hlk, Hx).
      apply Hmax, f32_cmp_le in Hin. simpl in Hin. unfold f32_cmp in Hin.
      destruct (partial_cmp_not_nan x m') as [c Hc]; [by eapply Hnn.. |]. rewrite Hc in Hin.
      apply fle_partial_cmp. rewrite Hc. destruct c; naive_solver.
  - intros j x Hj Hx. apply f32_cmp_flt; [by eapply Hnn.. |].
    assert ((j, x) ∈ l2) as Hin.
    { apply (list_elem_of_lookup_2 _ (j - S (length l1))). pose proof (Hlk j) as Hj'. rewrite Heq, Hx in Hj'.
      rewrite lookup_app_r in Hj' by lia. replace (j - length l1) with (S (j - S (length l1))) in Hj' by lia. done. }
    apply Hlast in Hin. simpl in Hin. by rewrite f32_cmp_antisym, Hin.
Qed.

(** With top-k filtering the sampled token is among the [k] best: fewer
    than [k] tokens have a strictly larger scaled logit. *)
Theorem sample_top_k exp random logits params tok :
  Forall is_finite logits → greedy params = false → 0 < top_k params < length logits →
  (Z.of_nat (length logits) ≤ 2 ^ 32)%Z → sample exp random logits params = Ok tok →
  let scaled := (λ l, f32_div l (temperature params)) <$> logits in
  ∃ t, tok = Z.of_nat t ∧ t < length logits ∧
    length (filter (λ j, f32_cmp (value_at scaled j) (value_at scaled t) = Gt) (seq 0 (length logits))) < top_k params.
Proof.
  intros Hfin Hg Hk Hlen Hs scaled.
  destruct (sample_random exp random logits params) as (idx & t & Hidx & Hin & Ht & Hs'); [by destruct logits; simpl in *; [lia |] | done | done |].
  rewrite Hs' in Hs. injection Hs as <-. exists t. split_and!; [apply wrap_small; unfold in_width; lia | done |].
  fold scaled in Hidx. assert (length scaled = length logits) as Hls by (unfold scaled; by rewrite length_fmap).
  unfold top_k_indices in Hidx. rewrite bool_decide_true in Hidx by lia.
  apply rbind_Ok in Hidx as (s & Hsort & [= <-]). destruct (sort_desc_spec _ _ _ Hsort) as [Hp Hsd].
  rewrite Hls in Hp. rewrite <- Hp. apply list_elem_of_lookup in Hin as [n Hn].
  apply lookup_take_Some in Hn as [Hn Hnk].
  rewrite <- (take_drop_middle s n t Hn), filter_app, length_app.
  rewrite <- (take_drop_middle s n t Hn) in Hsd.
  assert (filter (λ j, f32_cmp (value_at scaled j) (value_at scaled t) = Gt) (t :: drop (S n) s) = []) as ->.
  { assert (Forall (λ j, f32_cmp (value_at scaled j) (value_at scaled t) ≠ Gt) (t :: drop (S n) s)) as Hno.
    { apply StronglySorted_app_1_r in Hsd. inversion Hsd as [|? ? _ Hall]; subst. constructor.
      - apply f32_cmp_le. by destruct (key_le_total (nkey (value_at scaled t)) (nkey (value_at scaled t))).
      - eapply Forall_impl; [exact Hall |]. intros j Hj. by apply f32_cmp_le. }
    clear Hsd. induction Hno as [|j l Hj _ IH]; [done |]. rewrite filter_cons_False by done. exact IH. }
  simpl. rewrite Nat.add_0_r. eapply Nat.le_lt_trans; [apply length_filter |].
  rewrite length_take. lia.
Qed.

Module SamplingWitness.
Definition lg (l : list Z) : list f32 := f32_of_Z <$> l.
Definition flat : f32 → f32 := λ _, f32_one.
Definition half : option Z → f32 := λ _, f32_lit 5 1.

Lemma sample_greedy_witness :
  ∃ i (m : f32), sample flat half (lg [1; 7; 3; 7; 2]%Z) {| temperature := f32_zero; top_k := 0; top_p := f32_one; seed := None |}
      = Ok (Z.of_nat i) ∧ lg [1; 7; 3; 7; 2]%Z !! i = Some m ∧
    (∀ j (x : f32), lg [1; 7; 3; 7; 2]%Z !! j = Some x → fle x m = true) ∧
    (∀ j (x : f32), i < j → lg [1; 7; 3; 7; 2]%Z !! j = Some x → flt x m = true).
Proof.
  apply (sample_greedy flat half (lg [1; 7; 3; 7; 2]%Z)
    {| temperature := f32_zero; top_k := 0; top_p := f32_one; seed := None |}).
  - done.
  - apply finite_checks. by vm_compute.
  - by vm_compute.
  - simpl. lia.
Defined.

(** Temperature 2, the best two of five logits, probability one half each. *)
Definition two_of_five : SamplingParams := {| temperature := f32_of_Z 2; top_k := 2; top_p := f32_one; seed := None |}.

Lemma sample_top_k_witness :
  let scaled := (λ l, f32_div l (f32_of_Z 2)) <$> lg [1; 7; 3; 6; 2]%Z in
  ∃ t, 1%Z = Z.of_nat t ∧ t < 5 ∧
    length (filter (λ j, f32_cmp (value_at scaled j) (value_at scaled t) = Gt) (seq 0 5)) < 2.
Proof.
  apply (sample_top_k flat half (lg [1; 7; 3; 6; 2]%Z) two_of_five 1).
  - apply finite_checks. by vm_compute.
  - by vm_compute.
  - simpl. lia.
  - simpl. lia.
  - by vm_compute.
Defined.
End SamplingWitness.
