(* ===== verification/SchedulerLoop.v ===== *)
(** * The server's scheduler loop ([crates/fracture-server/src/scheduler_loop.rs])

    One task owns the batch scheduler and shares the paged cache with the
    blocking thread that runs the forward pass.  The forward pass
    ([fracture_engine::batched_forward], kernel launches on the backend) is a
    class: what the loop relies on is that it keeps the cache well-formed, with
    the same sequences.  The cache is behind a [std::sync::Mutex]: a forward
    pass that panics while holding the lock poisons it, and a later
    [lock().unwrap()] panics. *)

From S2P Require Import Prelude F32 Sampling BlockTables PagedCache CacheIface BatchScheduler.

Class ForwardEngine (E : Type) := {
  batched_forward : list SequenceSlice → st (PagedKvCacheManager * E) (list (list f32))
}.

Class ForwardLaws (E : Type) `{ForwardEngine E} := {
  forward_tables slices c e c' e' r :
    batched_forward slices (c, e) = ((c', e'), r) → tables_inv c →
    tables_inv c' ∧ capacity (pool c') = capacity (pool c) ∧
    (∀ h, is_Some (sequences c' !! h) ↔ is_Some (sequences c !! h));
  forward_logits slices c e s' logits :
    batched_forward slices (c, e) = (s', Ok logits) → length logits = length slices
}.

Notation Event := (Z * GenerationEvent)%type.

Record LoopState (E : Type) := {
  scheduler : BatchScheduler;
  cache : PagedKvCacheManager;
  poisoned : bool;
  engine : E;
  sent : list Event
}.
Arguments scheduler {E} l.
Arguments cache {E} l.
Arguments poisoned {E} l.
Arguments engine {E} l.
Arguments sent {E} l.
Arguments Build_LoopState {E}.

(** What the loop cannot choose in one iteration: the iteration orders of the
    maps, which clients are gone when the batch is built, when tokens are
    streamed and when the batch is cleaned up, and the random numbers. *)
Record Env := {
  ho_decodes : HashOrder;
  ho_chunks : HashOrder;
  ho_cleanup : HashOrder;
  closed_schedule : Z → bool;
  closed_stream : Z → bool;
  closed_cleanup : Z → bool;
  random : nat → option Z → f32
}.

(** ** Commands *)

Record SequenceSnapshotEntry := {
  sn_seq_id : Z; sn_state : string; tokens_generated : nat; sn_max_tokens : nat; sn_remaining_prefill : nat
}.
Record SchedulerSnapshot := {
  active_sequences : nat;
  max_sequences : nat;
  decode_count : nat;
  prefill_queue_count : nat;
  prefill_chunk_size : nat;
  block_size : nat;
  total_blocks : nat;
  snap_free_blocks : nat;
  snap_sequences : list SequenceSnapshotEntry
}.

Record SchedulerLoopConfig := {
  cfg_max_batch_size : nat; cfg_max_batch_tokens : nat; cfg_max_prefill_tokens : nat; cfg_block_pool_reserve : f32
}.
Definition SchedulerLoopConfig_default : SchedulerLoopConfig :=
  {| cfg_max_batch_size := 64; cfg_max_batch_tokens := 4096; cfg_max_prefill_tokens := 512;
     cfg_block_pool_reserve := f32_lit 1 1 |}.

Inductive SchedulerCommand := Submit (r : PendingRequest) | Snapshot.

Definition snapshot_entry (s : ActiveSequence) : SequenceSnapshotEntry :=
  {| sn_seq_id := seq_id s;
     sn_state := if negb (is_prefilled s) || bool_decide (generated_tokens s = []) then "prefilling" else "decoding";
     tokens_generated := length (generated_tokens s);
     sn_max_tokens := max_tokens s;
     sn_remaining_prefill := length (remaining_prefill s) |}.

Definition snapshot (ho1 ho2 : HashOrder) (config : SchedulerLoopConfig) (b : BatchScheduler)
    (c : PagedKvCacheManager) : SchedulerSnapshot :=
  {| active_sequences := num_active b;
     max_sequences := cfg_max_batch_size config;
     decode_count := length (filter (λ s, is_prefilled s && negb (bool_decide (generated_tokens s = [])))
                               (hm_values ho1 (active b)));
     prefill_queue_count := num_pending b;
     prefill_chunk_size := cfg_max_prefill_tokens config;
     block_size := BLOCK_SIZE;
     total_blocks := capacity (pool c);
     snap_free_blocks := num_free_blocks c;
     snap_sequences := snapshot_entry <$> hm_values ho2 (active b) |}.

Definition set_scheduler {E : Type} (b : BatchScheduler) (s : LoopState E) : LoopState E :=
  {| scheduler := b; cache := cache s; poisoned := poisoned s; engine := engine s; sent := sent s |}.

(** [handle_command]; the result is the snapshot that is sent back. *)
Definition handle_command {E : Type} (ho1 ho2 : HashOrder) (config : SchedulerLoopConfig)
    (cmd : SchedulerCommand) : st (LoopState E) (option SchedulerSnapshot) := λ s,
  match cmd with
  | Submit req => (set_scheduler (enqueue req (scheduler s)) s, Ok None)
  | Snapshot =>
      if poisoned s then (s, Panic) else (s, Ok (Some (snapshot ho1 ho2 config (scheduler s) (cache s))))
  end.

(** ** One iteration *)

(** The slices of a batch, each with its sequence id and whether it is a prefill. *)
Definition prefill_slice (b : BatchScheduler) (pf : PrefillJob) : list (SequenceSlice * (Z * bool)) :=
  match active b !! pf_seq_id pf with
  | None => []
  | Some s => [({| sl_handle := handle s; sl_token_ids := pf_token_ids pf; sl_positions := pf_positions pf |},
                (pf_seq_id pf, true))]
  end.
Definition decode_slice (b : BatchScheduler) (dj : DecodeJob) : list (SequenceSlice * (Z * bool)) :=
  match active b !! dj_seq_id dj with
  | None => []
  | Some s => [({| sl_handle := handle s; sl_token_ids := [dj_token_id dj]; sl_positions := [dj_position dj] |},
                (dj_seq_id dj, false))]
  end.
Definition build_slices (b : BatchScheduler) (dec : SchedulerDecision) : list (SequenceSlice * (Z * bool)) :=
  (prefills dec ≫= prefill_slice b) ++ (decodes dec ≫= decode_slice b).

(** [seq.generated_tokens.push(token); seq.current_pos += 1] and [seq.max_tokens = 0] *)
Definition push_token (s : ActiveSequence) (token : Z) : ActiveSequence :=
  {| seq_id := seq_id s; handle := handle s; max_tokens := max_tokens s; temperature := temperature s;
     top_k := top_k s; top_p := top_p s; seed := seed s; stop_tokens := stop_tokens s;
     current_pos := current_pos s + 1; generated_tokens := generated_tokens s ++ [token];
     event_tx := event_tx s; remaining_prefill := remaining_prefill s |}.
Definition fail_seq (s : ActiveSequence) : ActiveSequence :=
  {| seq_id := seq_id s; handle := handle s; max_tokens := 0; temperature := temperature s;
     top_k := top_k s; top_p := top_p s; seed := seed s; stop_tokens := stop_tokens s;
     current_pos := current_pos s; generated_tokens := generated_tokens s;
     event_tx := event_tx s; remaining_prefill := remaining_prefill s |}.

Definition sampling_params (s : ActiveSequence) : Sampling.SamplingParams :=
  {| Sampling.temperature := temperature s; Sampling.top_k := top_k s; Sampling.top_p := top_p s;
     Sampling.seed := seed s |}.

Section loop.
Context {E : Type} `{ForwardEngine E}.
Variable exp : f32 → f32.

(** Sampling for the slices from index [i] on. *)
Fixpoint sample_loop (env : Env) (logits : list (list f32)) (i : nat) (items : list (Z * bool))
    (b : BatchScheduler) (log : list Event) : BatchScheduler * list Event * result unit :=
  match items with
  | [] => (b, log, Ok ())
  | (id, is_prefill) :: items' =>
      match active b !! id with
      | None => sample_loop env logits (S i) items' b log
      | Some s =>
          if is_prefill && negb (is_prefilled s) then sample_loop env logits (S i) items' b log
          else
            match logits !! i with
            | None => (b, log, Panic)
            | Some lg =>
                match Sampling.sample exp (random env i) lg (sampling_params s) with
                | Ok token =>
                    sample_loop env logits (S i) items' (set_active (<[id := push_token s token]> (active b)) b)
                      (if bool_decide (token ∈ stop_tokens s) then log
                       else send (closed_stream env) log (event_tx s) (Token token))
                | Err _ =>
                    sample_loop env logits (S i) items' (set_active (<[id := fail_seq s]> (active b)) b)
                      (send (closed_stream env) log (event_tx s) (EventError "sampling failed"))
                | Panic => (b, log, Panic)
                end
            end
      end
  end.

(** A failed forward pass aborts the sequences of the batch. *)
Fixpoint abort_batch (closed : Z → bool) (ids : list Z) (b : BatchScheduler) (c : PagedKvCacheManager)
    (log : list Event) : BatchScheduler * PagedKvCacheManager * list Event :=
  match ids with
  | [] => (b, c, log)
  | id :: ids' =>
      match active b !! id with
      | None => abort_batch closed ids' b c log
      | Some s => abort_batch closed ids' (set_active (delete id (active b)) b) (paged_free (handle s) c).1
                    (send closed log (event_tx s) (EventError "forward pass failed"))
      end
  end.

(** The body of the loop after the commands have been taken. *)
Definition loop_iteration (env : Env) : st (LoopState E) unit := λ s,
  if poisoned s then (s, Panic)
  else
    let '(b, c, log, r) := schedule (closed_schedule env) (ho_decodes env) (ho_chunks env) (scheduler s) (cache s) in
    let s := {| scheduler := b; cache := c; poisoned := false; engine := engine s; sent := sent s ++ log |} in
    match r with
    | Ok decision =>
        if bool_decide (total_tokens decision = 0) then (s, Ok ())
        else
          let items := build_slices b decision in
          match items.*1 with
          | [] => (s, Ok ())
          | slices =>
              match batched_forward slices (c, engine s) with
              | ((c, e), Ok logits) =>
                  let '(b, log, r) := sample_loop env logits 0 items.*2 b (sent s) in
                  match r with
                  | Ok _ =>
                      let '(b, log', completed) := cleanup_completed (closed_cleanup env) (ho_cleanup env) b in
                      ({| scheduler := b; cache := free_handles completed c; poisoned := false; engine := e;
                          sent := log ++ log' |}, Ok ())
                  | r => ({| scheduler := b; cache := c; poisoned := false; engine := e; sent := log |}, r)
                  end
              | ((c, e), Err _) =>
                  let '(b, c, log) := abort_batch (closed_stream env) (items.*2.*1) b c (sent s) in
                  ({| scheduler := b; cache := c; poisoned := false; engine := e; sent := log |}, Ok ())
              | ((c, e), Panic) =>
                  ({| scheduler := b; cache := c; poisoned := true; engine := e; sent := sent s |}, Ok ())
              end
          end
    | Err er => (s, Err er)
    | Panic => (s, Panic)
    end.
End loop.

(** ** Runs of the loop *)

Section runs.
Context {E : Type} `{ForwardLaws E}.
Variable exp : f32 → f32.
Implicit Types s : LoopState E.

(** Requests arrive with an id that no waiting or active request has. *)
Definition fresh_request (r : PendingRequest) (b : BatchScheduler) : Prop :=
  active b !! req_seq_id r = None ∧ req_seq_id r ∉ req_seq_id <$> prefill_queue b.

Inductive loop_step : LoopState E → LoopState E → Prop :=
  | step_command ho1 ho2 config cmd s s' o :
      (∀ r, cmd = Submit r → fresh_request r (scheduler s)) →
      handle_command ho1 ho2 config cmd s = (s', Ok o) → loop_step s s'
  | step_iteration env s s' : loop_iteration exp env s = (s', Ok ()) → loop_step s s'.

(** The queue and the active map are well-formed, the cache holds one sequence
    per active request, and the pool has [n] blocks. *)
Record server_inv (n : nat) (b : BatchScheduler) (c : PagedKvCacheManager) : Prop := {
  si_wf : sched_wf b;
  si_link : cache_link (active b) c;
  si_capacity : capacity (pool c) = n
}.

Lemma admit_capacity closed b queue fb rb c dec pft log b' c' log' r :
  admit_loop closed b queue fb rb c dec pft log = (b', c', log', r) → capacity (pool c') = capacity (pool c).
Proof.
  revert b c dec pft log. induction queue as [|q queue IH]; intros b c dec pft log; cbn [admit_loop].
  { by intros [= _ <- _ _]. }
  destruct (prefill_room b dec pft); [| by intros [= _ <- _ _]]. case_bool_decide; [by intros [= _ <- _ _] |].
  pose proof (paged_alloc_capacity c) as Hc. destruct (paged_alloc c) as [c1 [h|e|]]; simpl in Hc.
  - destruct (if bool_decide _ then _ else _) as [chunk remaining]. intros Ha. rewrite <- Hc. by eapply IH.
  - intros Ha. rewrite <- Hc. by eapply IH.
  - by intros [= _ <- _ _].
Qed.

Lemma schedule_inv n closed ho1 ho2 b c b' c' log r :
  server_inv n b c → schedule closed ho1 ho2 b c = (b', c', log, r) → server_inv n b' c'.
Proof.
  intros [Hwf Hlink Hcap] Hs. destruct (schedule_spec closed ho1 ho2 b c b' c' log r Hwf Hlink Hs) as (Hwf' & Hlink' & _).
  split; [done | done |]. rewrite <- Hcap. unfold schedule in Hs.
  destruct (chunk_loop _ _ _ _) as [[b1 dec1] pft]. by eapply admit_capacity.
Qed.

(** A forward pass keeps the link: same handles, well-formed tables. *)
Lemma forward_inv n slices b c e c' e' r :
  server_inv n b c → batched_forward slices (c, e) = ((c', e'), r) → server_inv n b c'.
Proof.
  intros [Hwf [Ht Hh Hi] Hcap] Hf. destruct (forward_tables _ _ _ _ _ _ Hf Ht) as (Ht' & Hcap' & Hsame).
  split; [done | | congruence]. split; [done | | done]. intros h. by rewrite Hsame, Hh.
Qed.

(** Replacing an active sequence by one with the same id and handle. *)
Lemma replace_inv n b c id x x' :
  server_inv n b c → active b !! id = Some x → seq_id x' = seq_id x → handle x' = handle x →
  server_inv n (set_active (<[id := x']> (active b)) b) c.
Proof.
  intros [[Hk Hq Hf] Hlink Hcap] Hx Hid Hh. split; [| | done].
  - split; [| done |]; simpl.
    + intros k y [[<- <-]|[_ Hy]]%lookup_insert_Some; [rewrite Hid; by apply Hk | by apply Hk].
    + intros r Hr. pose proof (Hf r Hr) as Hn. rewrite lookup_insert_ne; [done |]. intros Heq. congruence.
  - apply (cache_link_same_handles (active b)); [| done]. intros k. simpl.
    destruct (decide (k = id)) as [->|]; [by rewrite lookup_insert_eq, Hx; simpl; rewrite Hh | by rewrite lookup_insert_ne].
Qed.

Lemma sample_loop_inv n env logits i items b log b' log' r c :
  server_inv n b c → sample_loop exp env logits i items b log = (b', log', r) → server_inv n b' c.
Proof.
  revert i b log. induction items as [|[id pf] items IH]; intros i b log Hinv; cbn [sample_loop].
  { by intros [= <- _ _]. }
  destruct (active b !! id) as [x|] eqn:Hx; [| by apply IH].
  destruct (pf && negb (is_prefilled x)); [by apply IH |].
  destruct (logits !! i) as [lg|]; [| by intros [= <- _ _]].
  destruct (sample _ _ _ _) as [tok|e|]; [| | by intros [= <- _ _]]; apply IH; by eapply replace_inv.
Qed.

(** Removing an active sequence and freeing its cache. *)
Lemma remove_inv n b c id x :
  server_inv n b c → active b !! id = Some x →
  server_inv n (set_active (delete id (active b)) b) (paged_free (handle x) c).1.
Proof.
  intros [[Hk Hq Hf] Hlink Hcap] Hx. split; [| by apply paged_free_link | by rewrite paged_free_capacity].
  split; [| done |]; simpl.
  - intros k y [_ Hy]%lookup_delete_Some. by apply Hk.
  - intros r Hr. rewrite lookup_delete_None. right. by apply Hf.
Qed.

Lemma abort_batch_inv n closed ids b c log b' c' log' :
  server_inv n b c → abort_batch closed ids b c log = (b', c', log') → server_inv n b' c'.
Proof.
  revert b c log. induction ids as [|id ids IH]; intros b c log Hinv; cbn [abort_batch]; [by intros [= <- <- _] |].
  destruct (active b !! id) as [x|] eqn:Hx; [| by apply IH]. apply IH. by eapply remove_inv.
Qed.

Lemma free_handles_capacity l (c : PagedKvCacheManager) : capacity (pool (free_handles l c)) = capacity (pool c).
Proof.
  unfold free_handles. revert c. induction l as [|kh l IH]; intros c; [done |]. cbn [foldl]. rewrite IH. apply paged_free_capacity.
Qed.

Lemma cleanup_inv n closed ho b c b' log rem :
  server_inv n b c → cleanup_completed closed ho b = (b', log, rem) → server_inv n b' (free_handles rem c).
Proof.
  intros [[Hk Hq Hf] Hlink Hcap] Hc. pose proof (cleanup_active closed ho b b' log rem Hc) as (Hact & Hin & Hnd & Hb).
  split; [| | by rewrite free_handles_capacity].
  - split.
    + intros k y. rewrite Hact. destruct (active b !! k) as [z|] eqn:Hz; [| done].
      destruct (is_done closed z); intros [= <-]. by apply Hk.
    + by rewrite Hb.
    + intros r Hr. rewrite Hb in Hr. simpl in Hr. rewrite Hact. by rewrite (Hf r Hr).
  - assert (active b' = foldl (λ a kv, delete kv.1 a) (active b) rem) as ->.
    { unfold cleanup_completed in Hc. destruct (cleanup_loop _ _ _ _) as [tr lg]. by injection Hc as <- <- <-. }
    apply free_handles_link; [done | | done]. intros k h (y & Hy & _ & <-)%Hin. by exists y.
Qed.

Lemma iteration_inv n env s s' r :
  server_inv n (scheduler s) (cache s) → loop_iteration exp env s = (s', r) → server_inv n (scheduler s') (cache s').
Proof.
  intros Hinv. unfold loop_iteration. destruct (poisoned s); [by intros [= <- _] |].
  destruct (schedule _ _ _ _ _) as [[[b c] log] rs] eqn:Hs. pose proof (schedule_inv _ _ _ _ _ _ _ _ _ _ Hinv Hs) as Hb.
  destruct rs as [dec|er|]; [| by intros [= <- _] | by intros [= <- _]].
  case_bool_decide; [by intros [= <- _] |].
  destruct (build_slices b dec).*1 as [|sl slices] eqn:Hsl; [by intros [= <- _] |]. rewrite <- Hsl.
  destruct (batched_forward _ _) as [[c1 e1] rf] eqn:Hf. pose proof (forward_inv _ _ _ _ _ _ _ _ Hb Hf) as Hb1.
  destruct rf as [logits|er|]; [| | by intros [= <- _]].
  - destruct (sample_loop _ _ _ _ _ _ _) as [[b2 log2] r2] eqn:Hsm.
    pose proof (sample_loop_inv _ _ _ _ _ _ _ _ _ _ _ Hb1 Hsm) as Hb2.
    destruct r2 as [[]|er|]; [| by intros [= <- _] | by intros [= <- _]].
    destruct (cleanup_completed _ _ b2) as [[b3 log3] rem] eqn:Hc. intros [= <- _]. by eapply cleanup_inv.
  - destruct (abort_batch _ _ _ _ _) as [[b2 c2] log2] eqn:Ha. intros [= <- _]. by eapply abort_batch_inv.
Qed.

Lemma loop_step_inv n s s' :
  loop_step s s' → server_inv n (scheduler s) (cache s) → server_inv n (scheduler s') (cache s').
Proof.
  intros [ho1 ho2 config cmd x x' o Hfresh Hcmd|env x x' Hit] Hinv; [| by eapply iteration_inv].
  destruct cmd as [r|]; simpl in Hcmd; [| by destruct (poisoned x); simplify_eq]. injection Hcmd as <- _.
  destruct (Hfresh r eq_refl) as [Hact Hq]. destruct Hinv as [[Hk Hnd Hf] Hlink Hcap]. split; [| done | done].
  split; [done | |]; simpl.
  - rewrite fmap_app. apply NoDup_app. split_and!; [done | | apply NoDup_singleton].
    intros y Hy ->%list_elem_of_singleton. done.
  - intros q [Hin| ->%list_elem_of_singleton]%elem_of_app; [by apply Hf | done].
Qed.

Lemma server_no_leak_Ok n s s' :
  rtc loop_step s s' → server_inv n (scheduler s) (cache s) →
  (∀ h, is_Some (sequences (cache s') !! h) ↔ ∃ k x, active (scheduler s') !! k = Some x ∧ handle x = h) ∧
  owned (sequences (cache s')) ++ free_list (pool (cache s')) ≡ₚ seq 0 n ∧
  (active (scheduler s') = ∅ → num_free_blocks (cache s') = n).
Proof.
  intros Hr Hinv. assert (server_inv n (scheduler s') (cache s')) as [_ [Ht Hh _] Hcap].
  { induction Hr as [|x y z Hxy _ IH]; [done |]. by eapply IH, loop_step_inv. }
  pose proof (inv_partition _ Ht) as Hp. change (bs_capacity (pool (cache s'))) with (capacity (pool (cache s'))) in Hp.
  rewrite Hcap in Hp. split_and!; [done | done |]. intros Hempty.
  assert (sequences (cache s') = ∅) as Hseq.
  { apply map_empty. intros h. destruct (sequences (cache s') !! h) as [sb|] eqn:E0; [| done].
    destruct (proj1 (Hh h)) as (k & x & Hx & _); [by rewrite E0 |]. by rewrite Hempty, lookup_empty in Hx. }
  apply Permutation_length in Hp. rewrite Hseq, length_app, length_seq in Hp.
  unfold owned in Hp. by rewrite map_to_list_empty in Hp.
Qed.

(** C31: the server never leaks cache blocks: whatever requests arrive, however
    forward passes succeed, fail or panic and whenever clients disconnect, the
    cache always holds exactly one sequence per active request, every block is
    free or in exactly one table, and when no request is active all blocks are
    free. *)
Theorem server_no_leak n s s' :
  rtc loop_step s s' → server_inv n (scheduler s) (cache s) →
  (∀ h, is_Some (sequences (cache s') !! h) ↔ ∃ k x, active (scheduler s') !! k = Some x ∧ handle x = h) ∧
  owned (sequences (cache s')) ++ free_list (pool (cache s')) ≡ₚ seq 0 n ∧
  (active (scheduler s') = ∅ → num_free_blocks (cache s') = n).
Proof. apply server_no_leak_Ok. Qed.

Lemma decode_loop_closed closed b ids dec :
  (∀ id x, active b !! id = Some x → closed (event_tx x) = true) → decode_loop closed b ids dec = dec.
Proof.
  intros Hcl. induction ids as [|id ids IH]; [done |]. cbn [decode_loop]. repeat (case_bool_decide; [done |]).
  destruct (active b !! id) as [x|] eqn:Hx; [| done]. by rewrite (Hcl id x Hx).
Qed.

(** When every active request is past its prompt and its client is gone,
    and no other request waits, an iteration changes nothing: cleaning up
    needs a batch with at least one token, so these sequences stay in the
    active map and keep their cache blocks until another request arrives. *)
Theorem disconnected_never_freed env s :
  poisoned s = false → prefill_queue (scheduler s) = [] →
  (∀ k x, active (scheduler s) !! k = Some x → remaining_prefill x = [] ∧ closed_schedule env (event_tx x) = true) →
  loop_iteration exp env s = (s, Ok ()).
Proof.
  intros Hp Hq Hact. unfold loop_iteration, schedule. rewrite Hp.
  rewrite decode_loop_closed by (intros id x Hx; by apply (Hact id x)).
  assert (active_ids (ho_chunks env) (λ x, negb (is_prefilled x)) (scheduler s) = []) as ->.
  { unfold active_ids. destruct (filter _ _) as [|x l] eqn:Hf; [done |]. exfalso.
    assert (x ∈ filter (λ x, negb (is_prefilled x)) (hm_values (ho_chunks env) (active (scheduler s)))) as Hx
      by (rewrite Hf; left).
    apply list_elem_of_filter in Hx as [Hn [k Hk]%elem_of_hm_values]. destruct (Hact k x Hk) as [Hrem _].
    unfold is_prefilled in Hn. by rewrite Hrem, bool_decide_true in Hn. }
  cbn [chunk_loop]. rewrite Hq. cbn [admit_loop total_tokens empty_decision].
  rewrite bool_decide_true by done. destruct s as [b c po e lg]. simpl in *. rewrite app_nil_r, Hp.
  by destruct b; simpl in *; subst.
Qed.
End runs.

(** ** Examples *)

Module LoopExample.
(** An engine that records the batches it is given, reserves the blocks of each
    slice, and always prefers token 1. *)
Fixpoint grow_all (slices : list SequenceSlice) (c : PagedKvCacheManager) : PagedKvCacheManager * result unit :=
  match slices with
  | [] => (c, Ok ())
  | sl :: slices' =>
      match reserve (sl_handle sl) (length (sl_token_ids sl)) c with
      | (c, Ok _) => grow_all slices' c
      | (c, Err e) => (c, Err e)
      | (c, Panic) => (c, Panic)
      end
  end.
Definition row : list f32 := [f32_zero; f32_one; f32_zero].

#[export] Instance grow_engine : ForwardEngine (list (list SequenceSlice)) := {|
  batched_forward slices := λ '(c, e),
    let '(c, r) := grow_all slices c in
    ((c, e ++ [slices]), rmap (λ _, replicate (length slices) row) r)
|}.

Lemma grow_all_keeps slices (c : PagedKvCacheManager) :
  tables_inv c → tables_inv (grow_all slices c).1 ∧ capacity (pool (grow_all slices c).1) = capacity (pool c) ∧
  ∀ h', is_Some (sequences (grow_all slices c).1 !! h') ↔ is_Some (sequences c !! h').
Proof.
  revert c. induction slices as [|sl slices IH]; intros c Hinv; [done |]. cbn [grow_all].
  destruct (reserve_frame (sl_handle sl) (length (sl_token_ids sl)) c Hinv) as (H1 & H2 & H3 & _).
  destruct (reserve _ _ c) as [c1 [x| |]]; simpl in *; [| done..].
  destruct (IH c1 H1) as (H4 & H5 & H6). split_and!; [done | congruence |]. intros h'. by rewrite H6.
Qed.

#[export] Instance grow_engine_laws : ForwardLaws (list (list SequenceSlice)).
Proof.
  split.
  - intros slices c e c' e' r Hf Hinv. simpl in Hf. pose proof (grow_all_keeps slices c Hinv) as Hk.
    destruct (grow_all slices c) as [c1 r1]. by injection Hf as <- <- <-.
  - intros slices c e s' logits Hf. simpl in Hf. destruct (grow_all slices c) as [c1 [[]| |]]; simplify_eq/=.
    by rewrite length_replicate.
Qed.

Definition env (closed : Z → bool) : Env :=
  {| ho_decodes := hash_order_id; ho_chunks := hash_order_id; ho_cleanup := hash_order_rev;
     closed_schedule := closed; closed_stream := closed; closed_cleanup := closed;
     random := λ _ _, f32_zero |}.
Definition noexp : f32 → f32 := λ x, x.
Definition start : LoopState (list (list SequenceSlice)) :=
  {| scheduler := scheduler_new 64 4096 512 (f32_lit 1 1); cache := BatchExample.cache; poisoned := false;
     engine := []; sent := [] |}.
(** A greedy request for a prompt of three tokens and two new ones. *)
Definition ask : PendingRequest :=
  {| req_seq_id := 1; prompt_tokens := [10; 11; 12]%Z; req_max_tokens := 2; req_temperature := f32_zero;
     req_top_k := 0; req_top_p := f32_one; req_seed := None; req_stop_tokens := []; req_event_tx := 9 |}.
Definition run (closed : Z → bool) (s : LoopState (list (list SequenceSlice))) := (loop_iteration noexp (env closed) s).1.
Definition s1 := set_scheduler (enqueue ask (scheduler start)) start.
Definition s2 := run BatchExample.open s1.
Definition s3 := run BatchExample.open s2.

Lemma start_inv : server_inv 10 (scheduler start) (cache start).
Proof.
  split; [| apply BatchExample.empty_link | done]. split.
  - intros k x. change (active (scheduler start)) with (∅ : gmap Z ActiveSequence). by rewrite lookup_empty.
  - constructor.
  - intros; apply lookup_empty.
Qed.
End LoopExample.

(** The loop advances the position once too often: after a prompt of three
    tokens at positions 0, 1 and 2, the first generated token is run at
    position 4, although it is the fourth token of the sequence and the cache
    holds three. *)
Theorem first_decode_skips_a_position :
  engine LoopExample.s3 =
    [[{| sl_handle := 0; sl_token_ids := [10; 11; 12]%Z; sl_positions := [0; 1; 2]%Z |}];
     [{| sl_handle := 0; sl_token_ids := [1]%Z; sl_positions := [4]%Z |}]] ∧
  tables_seq_len 0 (cache LoopExample.s2) = Ok 3 ∧
  sent LoopExample.s3 = [(9, Token 1); (9, Token 1); (9, Finished Length 2)]%Z ∧
  num_free_blocks (cache LoopExample.s3) = 10.
Proof. by vm_compute. Qed.

Module LoopWitness.
Import LoopExample.

Lemma server_no_leak_witness :
  (∀ h, is_Some (sequences (cache s3) !! h) ↔ ∃ k x, active (scheduler s3) !! k = Some x ∧ handle x = h) ∧
  owned (sequences (cache s3)) ++ free_list (pool (cache s3)) ≡ₚ seq 0 10 ∧
  (active (scheduler s3) = ∅ → num_free_blocks (cache s3) = 10).
Proof.
  apply (server_no_leak noexp 10 start s3); [| apply start_inv].
  apply (rtc_l _ start s1). {
    apply (step_command noexp hash_order_id hash_order_id SchedulerLoopConfig_default (Submit ask) start s1 None); [| done].
    intros r [= <-]. split; [by vm_compute | apply not_elem_of_nil]. }
  apply (rtc_l _ s1 s2). { apply (step_iteration noexp (env BatchExample.open) s1 s2). by vm_compute. }
  apply rtc_once. apply (step_iteration noexp (env BatchExample.open) s2 s3). by vm_compute.
Defined.

Lemma disconnected_witness : loop_iteration noexp (env (λ _, true)) s2 = (s2, Ok ()).
Proof.
  apply (disconnected_never_freed noexp (env (λ _, true)) s2); [by vm_compute | by vm_compute |].
  intros k x Hx. split; [| done].
  assert (map_Forall (λ _ y, remaining_prefill y = []) (active (scheduler s2))) as Hall
    by (apply map_Forall_to_list; vm_compute; repeat constructor).
  by apply (Hall k x).
Defined.
End LoopWitness.
