(* ===== verification/Generation.v ===== *)
(** * Single-request generation ([crates/fracture-generate/src/generation.rs])

    Prefill, the decode loop with cooperative cancellation, and the cache
    sequence that is allocated before and freed after.  The engine's
    [forward_paged] is a class, with the laws the loop relies on; [cancelled k]
    is what the cancellation flag reads before the [k]-th decode step.  Metrics
    and timing are left out. *)

From S2P Require Import Prelude F32 BlockTables PagedCache Sampling.

Inductive StopReason := Stop | Length.

Record GenerationResult := { tokens : list Z; stop_reason : StopReason }.

Record GenerationConfig := {
  max_tokens : nat;
  gen_temperature : f32;
  gen_top_k : nat;
  gen_top_p : f32;
  stop_tokens : list Z;
  gen_seed : option Z
}.

Definition GenerationConfig_default : GenerationConfig :=
  {| max_tokens := 256; gen_temperature := f32_one; gen_top_k := 0; gen_top_p := f32_one;
     stop_tokens := [128001; 128008; 128009]%Z; gen_seed := None |}.

Class PagedEngine (E : Type) := {
  forward_paged : list Z → list Z → Z → st (PagedKvCacheManager * E) (list f32)
}.

(** A forward pass for sequence [h] keeps the cache well-formed and touches no
    other sequence. *)
Class PagedEngineLaws (E : Type) `{PagedEngine E} := {
  forward_paged_frame ids ps h c e c' e' r :
    forward_paged ids ps h (c, e) = ((c', e'), r) → tables_inv c → is_Some (sequences c !! h) →
    tables_inv c' ∧ capacity (pool c') = capacity (pool c) ∧ is_Some (sequences c' !! h) ∧
    ∀ h', h' ≠ h → sequences c' !! h' = sequences c !! h'
}.

(** The cache, the engine and the tokens sent to the client. *)
Notation GenState E := (PagedKvCacheManager * E * list Z)%type.

Section generate.
Context {E : Type} `{PagedEngine E}.
Variable exp : f32 → f32.
Variable random : nat → option Z → f32.
Variable cancelled : nat → bool.
Variable config : GenerationConfig.

Definition on_engine {A : Type} (m : st (PagedKvCacheManager * E) A) : st (GenState E) A := λ s,
  let '(ce, r) := m s.1 in ((ce, s.2), r).
Definition emit (t : Z) : st (GenState E) unit := λ s, ((s.1, s.2 ++ [t]), Ok ()).

Definition params : SamplingParams :=
  {| temperature := gen_temperature config; top_k := gen_top_k config; top_p := gen_top_p config;
     seed := gen_seed config |}.

(** [n] more decode steps; [k] counts them. *)
Fixpoint gen_loop (h : Z) (n k : nat) (next_token pos : Z) (generated : list Z)
    : st (GenState E) (list Z * StopReason) :=
  match n with
  | 0 => sret (generated, Length)
  | S n' =>
      if cancelled k then sret (generated, Stop)
      else
        do! logits := on_engine (forward_paged [next_token] [pos] h) in
        do! token := slift (sample exp (random k) logits params) in
        if bool_decide (token ∈ stop_tokens config) then sret (generated, Stop)
        else
          do! _ := emit token in
          do! pos := slift (checked 32 (pos + 1)) in
          gen_loop h n' (S k) token pos (generated ++ [token])
  end.

(** [generate_inner] *)
Definition generate_inner (prompt_tokens : list Z) (h : Z) : st (GenState E) GenerationResult :=
  let n := wrap 32 (Z.of_nat (length prompt_tokens)) in
  let positions := Z.of_nat <$> seq 0 (Z.to_nat n) in
  do! logits := on_engine (forward_paged prompt_tokens positions h) in
  do! next_token := slift (sample exp (random 0) logits params) in
  if bool_decide (next_token ∈ stop_tokens config) then sret {| tokens := []; stop_reason := Stop |}
  else
    do! _ := emit next_token in
    do! out := gen_loop h (max_tokens config - 1) 1 next_token n [next_token] in
    sret {| tokens := out.1; stop_reason := out.2 |}.

(** [generate_with_cancel]; a panic unwinds past the [free]. *)
Definition generate_with_cancel (max_seq_len : nat) (prompt_tokens : list Z) : st (GenState E) GenerationResult := λ s,
  if bool_decide (prompt_tokens = []) then (s, Err (Prelude.Generation "empty prompt"))
  else if bool_decide (max_seq_len < length prompt_tokens) then (s, Err (Prelude.Generation "prompt exceeds max_seq_len"))
  else
    let '(c, e, log) := s in
    match paged_alloc c with
    | (c, Ok h) =>
        match generate_inner prompt_tokens h (c, e, log) with
        | ((c, e, log), Panic) => ((c, e, log), Panic)
        | ((c, e, log), r) => (((paged_free h c).1, e, log), r)
        end
    | (c, Err er) => ((c, e, log), Err er)
    | (c, Panic) => ((c, e, log), Panic)
    end.
End generate.

(** ** What a computation does to the cache *)

Section cache.
Context {E : Type} `{PagedEngineLaws E}.

(** From [c] to [c'] only sequence [h] changed. *)
Definition only_seq (h : Z) (c c' : PagedKvCacheManager) : Prop :=
  tables_inv c' ∧ capacity (pool c') = capacity (pool c) ∧ is_Some (sequences c' !! h) ∧
  ∀ h', h' ≠ h → sequences c' !! h' = sequences c !! h'.

Definition only_touches {A : Type} (h : Z) (m : st (GenState E) A) : Prop :=
  ∀ c e log, tables_inv c → is_Some (sequences c !! h) → only_seq h c (m (c, e, log)).1.1.1.

Lemma touches_bind {A B : Type} h (m : st (GenState E) A) (k : A → st (GenState E) B) :
  only_touches h m → (∀ a, only_touches h (k a)) → only_touches h (sbind m k).
Proof.
  intros Hm Hk c e log Hinv Hh. unfold sbind. specialize (Hm c e log Hinv Hh).
  destruct (m (c, e, log)) as [[[c1 e1] log1] [a| |]]; [| done..]. cbn [fst] in Hm.
  destruct Hm as (Hi1 & Hc1 & Hh1 & Ho1). destruct (Hk a c1 e1 log1 Hi1 Hh1) as (Hi2 & Hc2 & Hh2 & Ho2).
  split_and!; [done | congruence | done |]. intros h' Hne. by rewrite Ho2, Ho1.
Qed.

Lemma touches_pure {A : Type} h (m : st (GenState E) A) : (∀ s, (m s).1.1.1 = s.1.1) → only_touches h m.
Proof. intros Hm c e log Hinv Hh. rewrite Hm. by split_and!. Qed.

Lemma touches_forward h ids ps : only_touches h (on_engine (forward_paged ids ps h)).
Proof.
  intros c e log Hinv Hh. unfold on_engine. cbn [fst].
  destruct (forward_paged ids ps h (c, e)) as [[c1 e1] r] eqn:Hf. by eapply forward_paged_frame.
Qed.

Lemma touches_loop exp random cancelled config h n k t pos g :
  only_touches h (gen_loop exp random cancelled config h n k t pos g).
Proof.
  revert k t pos g. induction n as [|n IH]; intros k t pos g; cbn [gen_loop]; [by apply touches_pure |].
  destruct (cancelled k); [by apply touches_pure |].
  apply touches_bind; [apply touches_forward | intros lg]. apply touches_bind; [by apply touches_pure | intros tok].
  case_bool_decide; [by apply touches_pure |]. apply touches_bind; [by apply touches_pure | intros _].
  apply touches_bind; [by apply touches_pure | intros pos']. apply IH.
Qed.

Lemma touches_inner exp random cancelled config prompt h :
  only_touches h (generate_inner exp random cancelled config prompt h).
Proof.
  unfold generate_inner. apply touches_bind; [apply touches_forward | intros lg].
  apply touches_bind; [by apply touches_pure | intros tok]. case_bool_decide; [by apply touches_pure |].
  apply touches_bind; [by apply touches_pure | intros _]. apply touches_bind; [apply touches_loop | intros out].
  by apply touches_pure.
Qed.

(** Two well-formed caches with the same sequences and capacity have as many free blocks. *)
Lemma same_sequences_free (c c' : PagedKvCacheManager) :
  tables_inv c → tables_inv c' → sequences c' = sequences c → capacity (pool c') = capacity (pool c) →
  num_free_blocks c' = num_free_blocks c.
Proof.
  intros Hc Hc' Hs Hcap. pose proof (Permutation_length (inv_partition c Hc)) as H1.
  pose proof (Permutation_length (inv_partition c' Hc')) as H2. rewrite length_app, length_seq in H1, H2.
  rewrite Hs in H2. change (bs_capacity (pool c')) with (capacity (pool c')) in H2.
  change (bs_capacity (pool c)) with (capacity (pool c)) in H1. unfold num_free_blocks. lia.
Qed.
End cache.

Section theorems.
Context {E : Type} `{PagedEngineLaws E}.
Variable exp : f32 → f32.
Variable random : nat → option Z → f32.
Variable cancelled : nat → bool.
Variable config : GenerationConfig.

Lemma generate_restores_cache_Ok msl prompt c e log c' e' log' r :
  tables_inv c →
  generate_with_cancel exp random cancelled config msl prompt (c, e, log) = ((c', e', log'), r) → r ≠ Panic →
  tables_inv c' ∧ sequences c' = sequences c ∧ num_free_blocks c' = num_free_blocks c.
Proof.
  intros Hinv Hg Hr. unfold generate_with_cancel in Hg.
  repeat (case_bool_decide; [by injection Hg as <- <- <- <- |]).
  pose proof (paged_alloc_capacity c) as Hcap. destruct (paged_alloc c) as [c1 [h|er|]] eqn:Ha; simpl in Hcap.
  - destruct (paged_alloc_Ok c c1 h Hinv Ha) as (Hinv1 & Hnone & sb & Hs1).
    assert (is_Some (sequences c1 !! h)) as Hh1 by (by rewrite Hs1, lookup_insert_eq).
    pose proof (touches_inner exp random cancelled config prompt h c1 e log Hinv1 Hh1) as Ht.
    destruct (generate_inner _ _ _ _ _ _ _) as [[[c2 e2] log2] r2]. simpl in Ht.
    destruct Ht as (Hinv2 & Hcap2 & [sb2 Hh2] & Ho2).
    assert (c' = (paged_free h c2).1) as -> by (by destruct r2; simplify_eq).
    assert (sequences (paged_free h c2).1 = sequences c) as Hseq.
    { unfold paged_free. rewrite (tables_free_spec _ _ sb2) by done. simpl. apply map_eq. intros h'.
      destruct (decide (h' = h)) as [->|Hne]; [by rewrite lookup_delete_eq, Hnone |].
      by rewrite lookup_delete_ne, Ho2, Hs1, lookup_insert_ne by done. }
    assert (tables_inv (paged_free h c2).1) as Hinv3 by (by apply tables_free_inv).
    split_and!; [done | done |]. apply same_sequences_free; [done | done | done |].
    rewrite paged_free_capacity. congruence.
  - destruct (paged_alloc_fail c c1 _ Hinv Ha ltac:(done)) as [Hinv1 Hs1]. injection Hg as <- <- <- <-.
    split_and!; [done | done |]. by apply same_sequences_free.
  - injection Hg as _ _ _ <-. done.
Qed.

(** Generation gives the cache back: unless it panics, whatever the
    outcome (tokens, cancellation or an error of the engine or the sampler),
    the cache holds the same sequences as before, unchanged, and as many
    blocks are free. *)
Theorem generate_restores_cache msl prompt c e log c' e' log' r :
  tables_inv c →
  generate_with_cancel exp random cancelled config msl prompt (c, e, log) = ((c', e', log'), r) → r ≠ Panic →
  tables_inv c' ∧ sequences c' = sequences c ∧ num_free_blocks c' = num_free_blocks c.
Proof. apply generate_restores_cache_Ok. Qed.

(** ** The tokens *)

(** What the decode loop returns: more tokens, the same as were sent, none a
    stop token, and all the steps when the reason is [Length]. *)
Lemma gen_loop_tokens h n k t pos g s s' g' reason :
  gen_loop exp random cancelled config h n k t pos g s = (s', Ok (g', reason)) →
  ∃ new, g' = g ++ new ∧ s'.2 = s.2 ++ new ∧ length new ≤ n ∧ Forall (λ x, x ∉ stop_tokens config) new ∧
    (reason = Length → length new = n).
Proof.
  revert k t pos g s. induction n as [|n IH]; intros k t pos g s; cbn [gen_loop].
  { intros [= <- <- <-]. exists []. rewrite !app_nil_r. split_and!; done || lia. }
  destruct (cancelled k).
  { intros [= <- <- <-]. exists []. rewrite !app_nil_r. split_and!; try done. simpl. lia. }
  intros (s1 & lg & Hf & Hr)%sbind_Ok. apply sbind_Ok in Hr as (s2 & tok & [= -> Hs] & Hr).
  assert (s2.2 = s.2) as Hsent by (unfold on_engine in Hf; destruct (forward_paged _ _ _ _); by injection Hf as <- _).
  case_bool_decide as Hstop.
  { injection Hr as <- <- <-. exists []. rewrite !app_nil_r. split_and!; try done. simpl. lia. }
  apply sbind_Ok in Hr as (s3 & [] & [= <-] & Hr). apply sbind_Ok in Hr as (s4 & pos' & [= <- Hp] & Hr).
  destruct (IH _ _ _ _ _ Hr) as (new & -> & Hnew & Hlen & Hall & Hfull). exists (tok :: new).
  cbn [snd] in Hnew. rewrite Hnew, Hsent, <- !app_assoc. split_and!; [done | done | simpl; lia | by constructor |].
  intros Hl. simpl. by rewrite Hfull.
Qed.

(** A successful generation streams exactly the tokens it returns, none of
    them a stop token, at most [max_tokens] of them (one when [max_tokens] is
    zero), and stops for length only with exactly that many. *)
Theorem generate_tokens msl prompt s s' res :
  generate_with_cancel exp random cancelled config msl prompt s = (s', Ok res) →
  prompt ≠ [] ∧ length prompt ≤ msl ∧ s'.2 = s.2 ++ tokens res ∧
  Forall (λ t, t ∉ stop_tokens config) (tokens res) ∧ length (tokens res) ≤ Nat.max 1 (max_tokens config) ∧
  (stop_reason res = Length → length (tokens res) = Nat.max 1 (max_tokens config)).
Proof.
  intros Hg. destruct s as [[c e] log]. unfold generate_with_cancel in Hg.
  case_bool_decide as Hne; [done |]. case_bool_decide as Hlen; [done |].
  destruct (paged_alloc c) as [c1 [h|er|]]; [| done..].
  destruct (generate_inner _ _ _ _ _ _ _) as [[[c2 e2] log2] r2] eqn:Hi. destruct r2 as [res2| |]; simplify_eq.
  unfold generate_inner in Hi. apply sbind_Ok in Hi as (s1 & lg & Hf & Hi).
  assert (s1.2 = log) as Hsent by (unfold on_engine in Hf; destruct (forward_paged _ _ _ _); by injection Hf as <- _).
  apply sbind_Ok in Hi as (s2 & tok & [= <- _] & Hi). case_bool_decide as Hstop.
  { injection Hi as -> <-. simpl in *. rewrite app_nil_r. split_and!; try done; lia. }
  apply sbind_Ok in Hi as (s3 & [] & [= <-] & Hi). apply sbind_Ok in Hi as (s4 & [g reason] & Hl & [= -> <-]).
  apply gen_loop_tokens in Hl as (new & -> & Hnew & Hle & Hall & Hfull). simpl in *.
  rewrite Hnew, Hsent, <- app_assoc. split_and!; try done; [lia | by constructor | lia |].
  intros Hr. rewrite Hfull by done. lia.
Qed.
End theorems.

(** ** The requests to the engine *)

(** An engine with a record of the token ids and positions it was given. *)
#[export] Instance traced {E : Type} `{PagedEngine E} : PagedEngine (E * list (list Z * list Z)) := {|
  forward_paged ids ps h := λ '(c, (e, calls)),
    let '((c, e), r) := forward_paged ids ps h (c, e) in ((c, (e, calls ++ [(ids, ps)])), r)
|}.

Definition calls {E : Type} (s : GenState (E * list (list Z * list Z))) : list (list Z * list Z) := s.1.2.2.

(** The decode steps for [toks], the first at position [pos]. *)
Definition decode_calls (pos : Z) (toks : list Z) : list (list Z * list Z) :=
  imap (λ i t, ([t], [pos + Z.of_nat i]%Z)) toks.

Lemma decode_calls_cons pos t toks : decode_calls pos (t :: toks) = ([t], [pos]) :: decode_calls (pos + 1) toks.
Proof.
  unfold decode_calls. simpl. rewrite Z.add_0_r. f_equal. apply imap_ext. intros i x _. unfold compose. rewrite Nat2Z.inj_succ. do 2 f_equal. lia.
Qed.

Section calls.
Context {E : Type} `{PagedEngine E}.
Variable exp : f32 → f32.
Variable random : nat → option Z → f32.
Variable cancelled : nat → bool.
Variable config : GenerationConfig.

Lemma traced_forward ids ps h (s s' : GenState (E * list (list Z * list Z))) r :
  on_engine (forward_paged ids ps h) s = (s', r) → calls s' = calls s ++ [(ids, ps)].
Proof.
  destruct s as [[c [e cs]] log]. unfold on_engine. simpl.
  destruct (forward_paged ids ps h (c, e)) as [[c1 e1] r1]. by intros [= <- _].
Qed.

Lemma gen_loop_calls h n k t pos g (s s' : GenState (E * list (list Z * list Z))) out :
  gen_loop exp random cancelled config h n k t pos g s = (s', Ok out) →
  ∃ new m, out.1 = g ++ new ∧ calls s' = calls s ++ decode_calls pos (take m (t :: new)) ∧ length new ≤ m ≤ S (length new).
Proof.
  revert k t pos g s. induction n as [|n IH]; intros k t pos g s; cbn [gen_loop].
  { intros [= <- <-]. exists [], 0. simpl. rewrite !app_nil_r. split_and!; done || lia. }
  destruct (cancelled k).
  { intros [= <- <-]. exists [], 0. simpl. rewrite !app_nil_r. split_and!; done || lia. }
  intros (s1 & lg & Hf%traced_forward & Hr)%sbind_Ok. apply sbind_Ok in Hr as (s2 & tok & [= <- _] & Hr).
  case_bool_decide.
  { injection Hr as <- <-. exists [], 1. simpl. rewrite app_nil_r, Hf, decode_calls_cons. split_and!; done || lia. }
  apply sbind_Ok in Hr as (s3 & [] & [= <-] & Hr). apply sbind_Ok in Hr as (s4 & pos' & [= <- Hp] & Hr).
  apply checked_inv in Hp as [-> _]. apply IH in Hr as (new & m & Hout & Hc & Hm).
  exists (tok :: new), (S m). rewrite Hout, Hc, <- app_assoc. cbn [take]. rewrite decode_calls_cons.
  change (calls (s1.1, s1.2 ++ [tok])) with (calls s1). rewrite Hf, <- app_assoc. split_and!; try done; simpl; lia.
Qed.

(** Generation runs the prompt once at positions [0 .. n) and then each
    generated token at the next position, [n], [n + 1], ...: the engine is
    called for all the returned tokens in order, except perhaps the last. *)
Theorem generate_positions msl prompt (s s' : GenState (E * list (list Z * list Z))) res :
  (Z.of_nat (length prompt) < 2 ^ 32)%Z →
  generate_with_cancel exp random cancelled config msl prompt s = (s', Ok res) →
  ∃ m, length (tokens res) ≤ S m ∧ m ≤ length (tokens res) ∧
    calls s' = calls s ++ (prompt, Z.of_nat <$> seq 0 (length prompt)) ::
                 decode_calls (Z.of_nat (length prompt)) (take m (tokens res)).
Proof.
  intros Hfit Hg. destruct s as [[c e] log]. unfold generate_with_cancel in Hg. repeat (case_bool_decide; [done |]).
  destruct (paged_alloc c) as [c1 [h|er|]]; [| done..].
  destruct (generate_inner _ _ _ _ _ _ _) as [[[c2 e2] log2] r2] eqn:Hi. destruct r2 as [res2| |]; simplify_eq.
  unfold generate_inner in Hi. rewrite wrap_small in Hi by (unfold in_width; lia). rewrite Nat2Z.id in Hi.
  apply sbind_Ok in Hi as (s1 & lg & Hf%traced_forward & Hi).
  apply sbind_Ok in Hi as (s2 & tok & [= <- _] & Hi). case_bool_decide.
  { injection Hi as -> <-. exists 0. simpl. split_and!; [lia | lia | exact Hf]. }
  apply sbind_Ok in Hi as (s3 & [] & [= <-] & Hi). apply sbind_Ok in Hi as (s4 & out & Hl & [= -> <-]).
  apply gen_loop_calls in Hl as (new & m & Hout & Hc & Hm). exists m. simpl in *. rewrite Hout. simpl.
  split_and!; [lia | lia |]. change (calls ((paged_free h c2).1, e2, log2)) with (calls (c2, e2, log2)). rewrite Hc.
  change (calls (s1.1, s1.2 ++ [tok])) with (calls s1). rewrite Hf, <- app_assoc. done.
Qed.
End calls.

Module GenerationWitness.
(** An engine that stores the tokens and counts its calls: it proposes tokens
    1, 1, 2, 2, ... *)
Definition rows (e : nat) : list f32 := if bool_decide (e < 2) then [f32_zero; f32_one; f32_zero] else [f32_zero; f32_zero; f32_one].
#[export] Instance counting : PagedEngine nat := {|
  forward_paged ids ps h := λ '(c, e), let '(c, r) := reserve h (length ids) c in ((c, S e), rmap (λ _, rows e) r)
|}.
#[export] Instance counting_laws : PagedEngineLaws nat.
Proof.
  split. intros ids ps h c e c' e' r Hf Hinv Hh. simpl in Hf.
  pose proof (reserve_frame h (length ids) c Hinv) as (H1 & H2 & H3 & H4).
  destruct (reserve h (length ids) c) as [c1 r1]. injection Hf as <- <- <-. simpl in *.
  split_and!; [done | done | by apply H3 | done].
Qed.

Definition pool10 : BlockPool :=
  {| k_blocks := []; v_blocks := []; free_list := seq 0 10; capacity := 10; pool_num_layers := 1;
     pool_num_kv_heads := 1; pool_head_dim := 1 |}.
Definition c0 : PagedKvCacheManager := tables_new pool10.
Lemma c0_inv : tables_inv c0.
Proof. by apply tables_new_inv. Qed.

Definition cfg (n : nat) (stops : list Z) : GenerationConfig :=
  {| max_tokens := n; gen_temperature := f32_zero; gen_top_k := 0; gen_top_p := f32_one; stop_tokens := stops;
     gen_seed := None |}.
Definition never (k : nat) : bool := false.
Definition ident (x : f32) : f32 := x.
Definition zero_rng (k : nat) (s : option Z) : f32 := f32_zero.
Definition run (n : nat) (stops : list Z) :=
  generate_with_cancel ident zero_rng never (cfg n stops) 100 [7; 8; 9]%Z (c0, 0, []).
Definition final : GenState nat := (run 4 [2%Z]).1.

Lemma generate_restores_witness :
  tables_inv final.1.1 ∧ sequences final.1.1 = sequences c0 ∧ num_free_blocks final.1.1 = num_free_blocks c0.
Proof.
  apply (generate_restores_cache ident zero_rng never (cfg 4 [2%Z]) 100 [7; 8; 9]%Z c0 0 [] final.1.1 final.1.2 final.2
           (Ok {| tokens := [1; 1]%Z; stop_reason := Stop |})); [apply c0_inv | by vm_compute | done].
Defined.

Lemma generate_tokens_witness :
  [7; 8; 9]%Z ≠ [] ∧ 3 ≤ 100 ∧ (run 3 []).1.2 = [] ++ [1; 1; 2]%Z ∧ Forall (λ t, t ∉ []) [1; 1; 2]%Z ∧
  3 ≤ Nat.max 1 3 ∧ (Length = Length → 3 = Nat.max 1 3).
Proof.
  apply (generate_tokens ident zero_rng never (cfg 3 []) 100 [7; 8; 9]%Z (c0, 0, []) (run 3 []).1
           {| tokens := [1; 1; 2]%Z; stop_reason := Length |}). by vm_compute.
Defined.

Definition traced_run :=
  generate_with_cancel ident zero_rng never (cfg 4 [2%Z]) 100 [7; 8; 9]%Z (c0, (0, []), []).
Lemma generate_positions_witness :
  ∃ m, 2 ≤ S m ∧ m ≤ 2 ∧
    calls traced_run.1 = [] ++ ([7; 8; 9]%Z, Z.of_nat <$> seq 0 3) :: decode_calls 3 (take m [1; 1]%Z).
Proof.
  apply (generate_positions ident zero_rng never (cfg 4 [2%Z]) 100 [7; 8; 9]%Z (c0, (0, []), []) traced_run.1
           {| tokens := [1; 1]%Z; stop_reason := Stop |}); [simpl; lia | by vm_compute].
Defined.

Lemma traced_calls : calls traced_run.1 = [([7; 8; 9], [0; 1; 2]); ([1], [3]); ([1], [4])]%Z.
Proof. by vm_compute. Qed.
End GenerationWitness.
