(* ===== verification/Gguf.v ===== *)
(** * GGUF headers ([crates/fracture-gguf/src/parser.rs])

    The parser of GGUF v3 headers: a pure function of the bytes of the file.
    The cursor is the list of bytes left to read; a failed read ends the parse,
    so its effect on the cursor cannot be observed.  A Rust [String] is the
    string of its UTF-8 bytes.  Opening and mapping the file are external. *)

From S2P Require Import Prelude F32 Core.

Local Open Scope Z_scope.

Definition GGUF_MAGIC : Z := 0x46554747.
Definition GGUF_VERSION : Z := 3.

Inductive GgufMetadataType :=
  | TUint8 | TInt8 | TUint16 | TInt16 | TUint32 | TInt32 | TFloat32 | TBool | TString | TArray | TUint64
  | TInt64 | TFloat64.

(** [GgufMetadataType::from_u32] *)
Definition metadata_type_from_u32 (v : Z) : result GgufMetadataType :=
  match v with
  | 0 => Ok TUint8 | 1 => Ok TInt8 | 2 => Ok TUint16 | 3 => Ok TInt16 | 4 => Ok TUint32 | 5 => Ok TInt32
  | 6 => Ok TFloat32 | 7 => Ok TBool | 8 => Ok TString | 9 => Ok TArray | 10 => Ok TUint64 | 11 => Ok TInt64
  | 12 => Ok TFloat64
  | _ => Err (GgufParse "unknown metadata type")
  end.

(** The discriminants of the [repr(u32)] enum. *)
Definition type_code (t : GgufMetadataType) : Z :=
  match t with
  | TUint8 => 0 | TInt8 => 1 | TUint16 => 2 | TInt16 => 3 | TUint32 => 4 | TInt32 => 5 | TFloat32 => 6
  | TBool => 7 | TString => 8 | TArray => 9 | TUint64 => 10 | TInt64 => 11 | TFloat64 => 12
  end.

Inductive GgufDType :=
  | GF32 | GF16 | Q4_0 | Q4_1 | Q5_0 | Q5_1 | Q8_0 | Q8_1 | Q2K | Q3K | Q4K | Q5K | Q6K | Iq2Xxs | Iq2Xs
  | Iq3Xxs | Iq1S | Iq4Nl | Iq3S | Iq2S | Iq4Xs | GI8 | GI16 | GI32 | GI64 | GF64 | Iq1M | GBf16.

(** [GgufDType::from_u32] *)
Definition gguf_dtype_from_u32 (v : Z) : result GgufDType :=
  match v with
  | 0 => Ok GF32 | 1 => Ok GF16 | 2 => Ok Q4_0 | 3 => Ok Q4_1 | 6 => Ok Q5_0 | 7 => Ok Q5_1 | 8 => Ok Q8_0
  | 9 => Ok Q8_1 | 10 => Ok Q2K | 11 => Ok Q3K | 12 => Ok Q4K | 13 => Ok Q5K | 14 => Ok Q6K | 15 => Ok Iq2Xxs
  | 16 => Ok Iq2Xs | 17 => Ok Iq3Xxs | 18 => Ok Iq1S | 19 => Ok Iq4Nl | 20 => Ok Iq3S | 21 => Ok Iq2S
  | 22 => Ok Iq4Xs | 23 => Ok GI8 | 24 => Ok GI16 | 25 => Ok GI32 | 26 => Ok GI64 | 27 => Ok GF64
  | 28 => Ok Iq1M | 30 => Ok GBf16
  | _ => Err (GgufParse "unknown tensor dtype")
  end.

Definition to_fracture_dtype (d : GgufDType) : result DType :=
  match d with
  | GF32 => Ok FP32 | GF16 => Ok FP16 | GBf16 => Ok BF16 | GI8 => Ok INT8
  | _ => Err (UnsupportedDType "GGUF dtype not yet supported")
  end.

Inductive MetadataValue :=
  | Uint8 (v : Z) | Int8 (v : Z) | Uint16 (v : Z) | Int16 (v : Z) | Uint32 (v : Z) | Int32 (v : Z)
  | Float32 (v : f32) | Bool (v : bool) | MString (s : string) | Array (vs : list MetadataValue)
  | Uint64 (v : Z) | Int64 (v : Z) | Float64 (v : f64).

Definition as_u32 (m : MetadataValue) : option Z :=
  match m with
  | Uint32 v => Some v
  | Uint64 v => Some (wrap 32 v)
  | Int32 v => Some (wrap 32 v)
  | Uint16 v => Some v
  | Uint8 v => Some v
  | _ => None
  end.

Definition as_u64 (m : MetadataValue) : option Z :=
  match m with
  | Uint64 v => Some v
  | Uint32 v => Some v
  | Int64 v => Some (wrap 64 v)
  | Int32 v => Some (wrap 64 v)
  | _ => None
  end.

Definition as_f64 (m : MetadataValue) : option f64 :=
  match m with
  | Float64 v => Some v
  | Float32 v => Some (f32_to_f64 v)
  | _ => None
  end.

Definition as_str (m : MetadataValue) : option string :=
  match m with MString s => Some s | _ => None end.

Record TensorInfo := {
  ti_name : string;
  ti_shape : list Z;
  ti_dtype : DType;
  offset : Z;
  gguf_dtype : Z
}.

Record GgufHeader := {
  config : ModelConfig;
  metadata : gmap string MetadataValue;
  tensors : list TensorInfo;
  tensor_data_offset : Z
}.

(** ** Reading *)

Definition parser (A : Type) : Type := list Z → result (A * list Z).

Definition pret {A : Type} (a : A) : parser A := λ bs, Ok (a, bs).
Definition plift {A : Type} (m : result A) : parser A := λ bs, rmap (λ a, (a, bs)) m.
Definition pbind {A B : Type} (p : parser A) (k : A → parser B) : parser B := λ bs,
  let? x := p bs in k x.1 x.2.
Notation "'read!' x ':=' m 'in' k" := (pbind m (λ x, k))
  (at level 10, x pattern, m at level 100, k at level 200) : fracture_scope.

(** [Read::read_exact] *)
Definition read_bytes (n : nat) : parser (list Z) := λ bs,
  if bool_decide (n ≤ length bs)%nat then Ok (take n bs, drop n bs) else Err (Io "failed to fill whole buffer").

(** [read_u8], [read_u16::<LittleEndian>] ... *)
Definition read_uint (n : nat) : parser Z := read! b := read_bytes n in pret (from_le_bytes b).

(** [v as iN] of an unsigned value of [8 * n] bits *)
Definition to_signed (n : nat) (v : Z) : Z :=
  if v <? 2 ^ (8 * Z.of_nat n - 1) then v else v - 2 ^ (8 * Z.of_nat n).
Definition read_int (n : nat) : parser Z := read! v := read_uint n in pret (to_signed n v).

(** A loop [for _ in 0..n] whose body reads at least one byte ends after as many
    rounds as there are bytes, which bounds the fuel. *)
Fixpoint repeat_fuel {A : Type} (fuel : nat) (n : Z) (p : parser A) : parser (list A) :=
  if n <=? 0 then pret []
  else match fuel with
       | 0%nat => plift Panic
       | S fuel' => read! x := p in read! xs := repeat_fuel fuel' (n - 1) p in pret (x :: xs)
       end.
Definition repeat_n {A : Type} (n : Z) (p : parser A) : parser (list A) := λ bs,
  repeat_fuel (S (length bs)) n p bs.

(** [str::from_utf8]: the well-formed byte sequences of the Unicode standard. *)
Definition in_bytes (lo hi b : Z) : bool := (lo <=? b) && (b <=? hi).
Definition tail_byte : Z → bool := in_bytes 0x80 0xBF.

Fixpoint valid_utf8 (bs : list Z) : bool :=
  match bs with
  | [] => true
  | b0 :: r =>
      if in_bytes 0 0x7F b0 then valid_utf8 r
      else match r with
      | [] => false
      | b1 :: r =>
          if in_bytes 0xC2 0xDF b0 then tail_byte b1 && valid_utf8 r
          else match r with
          | [] => false
          | b2 :: r =>
              if ((b0 =? 0xE0) && in_bytes 0xA0 0xBF b1) || (in_bytes 0xE1 0xEC b0 && tail_byte b1)
                 || ((b0 =? 0xED) && in_bytes 0x80 0x9F b1) || (in_bytes 0xEE 0xEF b0 && tail_byte b1)
              then tail_byte b2 && valid_utf8 r
              else match r with
              | [] => false
              | b3 :: r =>
                  (((b0 =? 0xF0) && in_bytes 0x90 0xBF b1) || (in_bytes 0xF1 0xF3 b0 && tail_byte b1)
                   || ((b0 =? 0xF4) && in_bytes 0x80 0x8F b1))
                  && tail_byte b2 && tail_byte b3 && valid_utf8 r
              end
          end
      end
  end.

Fixpoint string_of_bytes (bs : list Z) : string :=
  match bs with
  | [] => EmptyString
  | b :: bs' => String (Ascii.ascii_of_N (Z.to_N b)) (string_of_bytes bs')
  end.

(** [String::from_utf8] *)
Definition from_utf8 (bs : list Z) : result string :=
  if valid_utf8 bs then Ok (string_of_bytes bs) else Err (GgufParse "invalid UTF-8 in string").

Definition read_gguf_string : parser string :=
  read! len := read_uint 8 in
  λ bs, if Z.of_nat (length bs) <? len then Err (GgufParse "string length exceeds remaining input")
        else (read! buf := read_bytes (Z.to_nat len) in plift (from_utf8 buf)) bs.

(** [read_typed_value]: an array takes at least 12 bytes, so the number of bytes
    bounds the nesting. *)
Fixpoint read_typed_fuel (fuel : nat) (typ : GgufMetadataType) : parser MetadataValue :=
  match fuel with
  | 0%nat => plift Panic
  | S fuel' =>
      match typ with
      | TUint8 => read! v := read_uint 1 in pret (Uint8 v)
      | TInt8 => read! v := read_int 1 in pret (Int8 v)
      | TUint16 => read! v := read_uint 2 in pret (Uint16 v)
      | TInt16 => read! v := read_int 2 in pret (Int16 v)
      | TUint32 => read! v := read_uint 4 in pret (Uint32 v)
      | TInt32 => read! v := read_int 4 in pret (Int32 v)
      | TFloat32 => read! v := read_uint 4 in pret (Float32 (f32_from_bits v))
      | TBool => read! v := read_uint 1 in pret (Bool (negb (v =? 0)))
      | TString => read! s := read_gguf_string in pret (MString s)
      | TUint64 => read! v := read_uint 8 in pret (Uint64 v)
      | TInt64 => read! v := read_int 8 in pret (Int64 v)
      | TFloat64 => read! v := read_uint 8 in pret (Float64 (f64_from_bits v))
      | TArray =>
          read! elem_type_code := read_uint 4 in
          read! elem_type := plift (metadata_type_from_u32 elem_type_code) in
          read! len := read_uint 8 in
          read! values := repeat_n len (read_typed_fuel fuel' elem_type) in
          pret (Array values)
      end
  end.
Definition read_typed_value (typ : GgufMetadataType) : parser MetadataValue := λ bs,
  read_typed_fuel (S (length bs)) typ bs.

Definition read_metadata_value : parser MetadataValue :=
  read! type_code := read_uint 4 in
  read! typ := plift (metadata_type_from_u32 type_code) in
  read_typed_value typ.

(** One round of the metadata loop, and one of the tensor loop. *)
Definition read_metadata_entry : parser (string * MetadataValue) :=
  read! key := read_gguf_string in
  read! value := read_metadata_value in
  pret (key, value).

Definition read_tensor_info : parser TensorInfo :=
  read! name := read_gguf_string in
  read! ndims := read_uint 4 in
  read! shape := repeat_n ndims (read_uint 8) in
  read! dtype_code := read_uint 4 in
  read! gguf_dtype := plift (gguf_dtype_from_u32 dtype_code) in
  read! dtype := plift (to_fracture_dtype gguf_dtype) in
  read! offset := read_uint 8 in
  pret {| ti_name := name; ti_shape := reverse shape; ti_dtype := dtype; offset := offset; gguf_dtype := dtype_code |}.

(** ** Configuration *)

Definition get_alignment (md : gmap string MetadataValue) : Z :=
  default 32 (md !! "general.alignment"%string ≫= as_u32).

Definition align_offset (offset alignment : Z) : Z :=
  if alignment =? 0 then offset
  else Z.land (saturating_add offset (alignment - 1)) (Z.lxor (alignment - 1) (2 ^ 64 - 1)).

Definition get_u32 (md : gmap string MetadataValue) (key : string) : result Z :=
  match md !! key ≫= as_u32 with
  | Some v => Ok v
  | None => Err (GgufParse "missing metadata key")
  end.

Definition get_f64 (md : gmap string MetadataValue) (key : string) (dflt : f64) : f64 :=
  default dflt (md !! key ≫= as_f64).

Definition vocab_size_of (md : gmap string MetadataValue) (arch : string) : result Z :=
  match (md !! "tokenizer.ggml.tokens"%string ≫= λ v,
           match v with Array arr => Some (Z.of_nat (length arr)) | _ => None end) with
  | Some n => Ok n
  | None =>
      match md !! (arch +:+ ".vocab_size") ≫= as_u32 with
      | Some v => Ok v
      | None => Err (GgufParse "cannot determine vocab_size")
      end
  end.

Definition extract_model_config (md : gmap string MetadataValue) : result ModelConfig :=
  let arch := default "llama"%string (md !! "general.architecture"%string ≫= as_str) in
  let? hidden_size := get_u32 md (arch +:+ ".embedding_length") in
  let? num_layers := get_u32 md (arch +:+ ".block_count") in
  let? num_q_heads := get_u32 md (arch +:+ ".attention.head_count") in
  let? num_kv_heads := get_u32 md (arch +:+ ".attention.head_count_kv") in
  let? intermediate_size := get_u32 md (arch +:+ ".feed_forward_length") in
  let? vocab_size := vocab_size_of md arch in
  if num_q_heads =? 0 then Err (GgufParse "attention.head_count must be > 0")
  else
    let head_dim := hidden_size / num_q_heads in
    let rope_theta := get_f64 md (arch +:+ ".rope.freq_base") (f64_of_Z 500000) in
    let rms_norm_eps := get_f64 md (arch +:+ ".attention.layer_norm_rms_epsilon") (f64_lit 1 5) in
    let context_length := default 8192 (md !! (arch +:+ ".context_length") ≫= as_u32) in
    let config := {| hidden_size := hidden_size; num_layers := num_layers; num_q_heads := num_q_heads;
                     num_kv_heads := num_kv_heads; head_dim := head_dim;
                     intermediate_size := intermediate_size; vocab_size := vocab_size;
                     rope_theta := rope_theta; rms_norm_eps := rms_norm_eps; max_seq_len := context_length |} in
    let? _ := validate config in
    Ok config.

(** The part of [parse_header_bytes] that reads. *)
Definition read_header : parser (list (string * MetadataValue) * list TensorInfo) :=
  read! magic := read_uint 4 in
  if negb (magic =? GGUF_MAGIC) then plift (Err (GgufParse "invalid magic"))
  else
    read! version := read_uint 4 in
    if negb (version =? GGUF_VERSION) then plift (Err (GgufParse "unsupported GGUF version"))
    else
      read! tensor_count := read_uint 8 in
      read! metadata_kv_count := read_uint 8 in
      read! kvs := repeat_n metadata_kv_count read_metadata_entry in
      read! tensors := repeat_n tensor_count read_tensor_info in
      pret (kvs, tensors).

(** [parse_header_bytes]; [GgufParser::parse] and [parse_header_from_bytes] call it. *)
Definition insert_all (kvs : list (string * MetadataValue)) : gmap string MetadataValue :=
  foldl (λ md kv, <[kv.1 := kv.2]> md) ∅ kvs.

Definition parse_header_bytes (bytes : list Z) : result GgufHeader :=
  let? out := read_header bytes in
  let '((kvs, ts), rest) := out in
  let md := insert_all kvs in
  let current_pos := Z.of_nat (length bytes) - Z.of_nat (length rest) in
  let alignment := get_alignment md in
  let tensor_data_offset := align_offset current_pos alignment in
  let? config := extract_model_config md in
  Ok {| config := config; metadata := md; tensors := ts; tensor_data_offset := tensor_data_offset |}.

(** ** The format

    What the bytes of a value, an entry, a tensor descriptor and a header are. *)

Fixpoint bytes_of_string (s : string) : list Z :=
  match s with
  | EmptyString => []
  | String c s' => Z.of_N (Ascii.N_of_ascii c) :: bytes_of_string s'
  end.

Definition enc_string (s : string) (w : list Z) : Prop :=
  w = to_le_bytes 8 (Z.of_nat (length (bytes_of_string s))) ++ bytes_of_string s ∧
  valid_utf8 (bytes_of_string s) = true ∧ in_width 64 (Z.of_nat (length (bytes_of_string s))).

Definition enc_uint (n : nat) (v : Z) (w : list Z) : Prop := w = to_le_bytes n v ∧ in_width (8 * Z.of_nat n) v.

(** A two's-complement integer. *)
Definition enc_int (n : nat) (v : Z) (w : list Z) : Prop :=
  w = to_le_bytes n (wrap (8 * Z.of_nat n) v) ∧
  - 2 ^ (8 * Z.of_nat n - 1) ≤ v < 2 ^ (8 * Z.of_nat n - 1).

Inductive enc_value : GgufMetadataType → MetadataValue → list Z → Prop :=
  | enc_u8 v w : enc_uint 1 v w → enc_value TUint8 (Uint8 v) w
  | enc_i8 v w : enc_int 1 v w → enc_value TInt8 (Int8 v) w
  | enc_u16 v w : enc_uint 2 v w → enc_value TUint16 (Uint16 v) w
  | enc_i16 v w : enc_int 2 v w → enc_value TInt16 (Int16 v) w
  | enc_u32 v w : enc_uint 4 v w → enc_value TUint32 (Uint32 v) w
  | enc_i32 v w : enc_int 4 v w → enc_value TInt32 (Int32 v) w
  | enc_f32 v w : enc_uint 4 v w → enc_value TFloat32 (Float32 (f32_from_bits v)) w
  | enc_bool v w : enc_uint 1 v w → enc_value TBool (Bool (negb (v =? 0))) w
  | enc_str s w : enc_string s w → enc_value TString (MString s) w
  | enc_u64 v w : enc_uint 8 v w → enc_value TUint64 (Uint64 v) w
  | enc_i64 v w : enc_int 8 v w → enc_value TInt64 (Int64 v) w
  | enc_f64 v w : enc_uint 8 v w → enc_value TFloat64 (Float64 (f64_from_bits v)) w
  | enc_array t vs ws :
      Forall2 (enc_value t) vs ws → in_width 64 (Z.of_nat (length vs)) →
      enc_value TArray (Array vs)
        (to_le_bytes 4 (type_code t) ++ to_le_bytes 8 (Z.of_nat (length vs)) ++ mjoin ws).

Definition enc_entry (kv : string * MetadataValue) (w : list Z) : Prop :=
  ∃ t wk wv, enc_string kv.1 wk ∧ enc_value t kv.2 wv ∧ w = wk ++ to_le_bytes 4 (type_code t) ++ wv.

Definition enc_tensor (t : TensorInfo) (w : list Z) : Prop :=
  ∃ wn d, enc_string (ti_name t) wn ∧
    in_width 32 (Z.of_nat (length (ti_shape t))) ∧ Forall (in_width 64) (ti_shape t) ∧ in_width 64 (offset t) ∧
    in_width 32 (gguf_dtype t) ∧
    gguf_dtype_from_u32 (gguf_dtype t) = Ok d ∧ to_fracture_dtype d = Ok (ti_dtype t) ∧
    w = wn ++ to_le_bytes 4 (Z.of_nat (length (ti_shape t))) ++ mjoin (to_le_bytes 8 <$> reverse (ti_shape t)) ++
        to_le_bytes 4 (gguf_dtype t) ++ to_le_bytes 8 (offset t).

Definition enc_header (kvs : list (string * MetadataValue)) (ts : list TensorInfo) (w : list Z) : Prop :=
  ∃ kws tws, Forall2 enc_entry kvs kws ∧ Forall2 enc_tensor ts tws ∧
    in_width 64 (Z.of_nat (length kvs)) ∧ in_width 64 (Z.of_nat (length ts)) ∧
    w = to_le_bytes 4 GGUF_MAGIC ++ to_le_bytes 4 GGUF_VERSION ++ to_le_bytes 8 (Z.of_nat (length ts)) ++
        to_le_bytes 8 (Z.of_nat (length kvs)) ++ mjoin kws ++ mjoin tws.

(** ** Exact parsers

    On inputs of fewer than [n] bytes, [p] does not panic and reads exactly the
    words of [G]. *)

Definition exact {A : Type} (n : nat) (p : parser A) (G : A → list Z → Prop) : Prop :=
  ∀ bs, (length bs < n)%nat → Forall is_byte bs →
    p bs ≠ Panic ∧ ∀ a rest, p bs = Ok (a, rest) ↔ ∃ w, bs = w ++ rest ∧ G a w.

Definition g_ret {A : Type} (a : A) : A → list Z → Prop := λ x w, x = a ∧ w = [].
Definition g_lift {A : Type} (m : result A) : A → list Z → Prop := λ x w, m = Ok x ∧ w = [].
Definition g_bind {A B : Type} (G : A → list Z → Prop) (K : A → B → list Z → Prop) : B → list Z → Prop :=
  λ b w, ∃ a w1 w2, w = w1 ++ w2 ∧ G a w1 ∧ K a b w2.
Definition g_repeat {A : Type} (n : Z) (G : A → list Z → Prop) : list A → list Z → Prop :=
  λ xs w, Z.of_nat (length xs) = Z.max 0 n ∧ ∃ ws, Forall2 G xs ws ∧ w = mjoin ws.
Definition nonempty {A : Type} (G : A → list Z → Prop) : Prop := ∀ a w, G a w → w ≠ [].

Lemma exact_ext {A : Type} n (p : parser A) G G' :
  exact n p G → (∀ a w, G a w ↔ G' a w) → exact n p G'.
Proof.
  intros He Hg bs Hl Hb. destruct (He bs Hl Hb) as [Hp Hx]. split; [done |]. intros a rest. rewrite Hx.
  by setoid_rewrite Hg.
Qed.

Lemma exact_mono {A : Type} n n' (p : parser A) G : exact n p G → (n' ≤ n)%nat → exact n' p G.
Proof. intros He Hn bs Hl. apply He. lia. Qed.

Lemma exact_ret {A : Type} n (a : A) : exact n (pret a) (g_ret a).
Proof.
  intros bs _ _. split; [done |]. intros b rest. unfold pret, g_ret. split.
  - intros [= <- <-]. exists []. done.
  - intros (w & -> & -> & ->). done.
Qed.

Lemma exact_lift {A : Type} n (m : result A) : m ≠ Panic → exact n (plift m) (g_lift m).
Proof.
  intros Hm bs _ _. unfold plift, g_lift. destruct m as [a|e|]; [| | done]; (split; [done |]); intros b rest; simpl.
  - split; [intros [= <- <-]; by exists [] | by intros (w & -> & [= ->] & ->)].
  - split; [done | by intros (w & _ & ? & _)].
Qed.

(** After a word of at least one byte fewer bytes are left. *)
Lemma exact_bind_lt {A B : Type} n n' (p : parser A) (k : A → parser B) G K :
  exact n p G → (∀ a w, G a w → (n ≤ n' + length w)%nat) → (∀ a w, G a w → exact n' (k a) (K a)) →
  exact n (pbind p k) (g_bind G K).
Proof.
  intros Hp Hn Hk bs Hl Hb. destruct (Hp bs Hl Hb) as [Hnp Hx]. unfold pbind, g_bind.
  destruct (p bs) as [[a r]|e|] eqn:E; [| | done]; simpl.
  - destruct (proj1 (Hx a r) eq_refl) as (w & -> & Hg). apply Forall_app in Hb as [Hbw Hbr].
    destruct (Hk a w Hg r) as [Hnk Hxk]; [specialize (Hn a w Hg); rewrite length_app in Hl; lia | done |].
    split; [done |]. intros b rest. rewrite Hxk. split.
    + intros (w2 & -> & HK). exists (w ++ w2). rewrite <- app_assoc. split; [done |]. by exists a, w, w2.
    + intros (w0 & Hw0 & a' & w1 & w2 & -> & Hg' & HK). rewrite <- app_assoc in Hw0.
      assert (Ok (a, r) = Ok (a', w2 ++ rest)) as [= -> ->] by (apply Hx; by exists w1). by exists w2.
  - split; [done |]. intros b rest. split; [done |]. intros (w0 & -> & a' & w1 & w2 & -> & Hg' & HK).
    assert (Err e = Ok (a', w2 ++ rest)); [| done]. apply Hx. exists w1. by rewrite app_assoc.
Qed.

Lemma exact_bind {A B : Type} n (p : parser A) (k : A → parser B) G K :
  exact n p G → (∀ a, exact n (k a) (K a)) → exact n (pbind p k) (g_bind G K).
Proof. intros Hp Hk. eapply (exact_bind_lt n n); [done | intros; lia | eauto]. Qed.

Lemma exact_bind_strict {A B : Type} n (p : parser A) (k : A → parser B) G K :
  exact (S n) p G → nonempty G → (∀ a, exact n (k a) (K a)) → exact (S n) (pbind p k) (g_bind G K).
Proof.
  intros Hp Hne Hk. eapply (exact_bind_lt (S n) n); [done | | eauto]. intros a w Hg. specialize (Hne a w Hg).
  destruct w; [done | simpl; lia].
Qed.

Lemma exact_bytes n (k : nat) : exact n (read_bytes k) (λ b w, w = b ∧ length b = k ∧ Forall is_byte b).
Proof.
  intros bs _ Hb. unfold read_bytes. case_bool_decide as Hk; (split; [done |]); intros b rest.
  - split.
    + intros [= <- <-]. exists (take k bs). rewrite take_drop. split; [done |].
      split_and!; [done | by rewrite length_take_le | by apply Forall_take].
    + intros (w & -> & -> & <- & _). by rewrite take_app_length, drop_app_length.
  - split; [done |]. intros (w & -> & -> & <- & _). rewrite length_app in Hk. lia.
Qed.

Lemma exact_uint n k : exact n (read_uint k) (enc_uint k).
Proof.
  eapply exact_ext; [apply exact_bind; [apply exact_bytes | intros b; apply (exact_ret n (from_le_bytes b))] |].
  intros v w. unfold g_bind, g_ret, enc_uint. split.
  - intros (b & w1 & w2 & -> & (-> & <- & Hb) & -> & ->). rewrite app_nil_r, to_from_le_bytes by done.
    split; [done |]. by apply from_le_bytes_width.
  - intros [-> Hv]. exists (to_le_bytes k v), (to_le_bytes k v), []. rewrite app_nil_r, from_to_le_bytes by done.
    split_and!; try done; [apply length_to_le_bytes | apply to_le_bytes_byte].
Qed.

Lemma to_signed_spec n u : (0 < n)%nat → in_width (8 * Z.of_nat n) u →
  wrap (8 * Z.of_nat n) (to_signed n u) = u ∧
  - 2 ^ (8 * Z.of_nat n - 1) ≤ to_signed n u < 2 ^ (8 * Z.of_nat n - 1).
Proof.
  intros Hn [Hlo Hhi]. unfold to_signed, wrap. set (w := 8 * Z.of_nat n) in *.
  assert (2 ^ w = 2 * 2 ^ (w - 1)) as Hw by (rewrite <- Z.pow_succ_r by lia; f_equal; lia).
  assert (0 < 2 ^ (w - 1)) by (apply Z.pow_pos_nonneg; lia).
  destruct (Z.ltb_spec u (2 ^ (w - 1))).
  - rewrite Z.mod_small by lia. lia.
  - rewrite <- (Z.mod_add _ 1) by lia. rewrite Z.mod_small by lia. lia.
Qed.

Lemma to_signed_wrap n v : (0 < n)%nat → - 2 ^ (8 * Z.of_nat n - 1) ≤ v < 2 ^ (8 * Z.of_nat n - 1) →
  to_signed n (wrap (8 * Z.of_nat n) v) = v.
Proof.
  intros Hn Hv. unfold to_signed, wrap. set (w := 8 * Z.of_nat n) in *.
  assert (2 ^ w = 2 * 2 ^ (w - 1)) as Hw by (rewrite <- Z.pow_succ_r by lia; f_equal; lia).
  destruct (Z.leb_spec 0 v).
  - rewrite Z.mod_small by lia. rewrite (proj2 (Z.ltb_lt _ _)) by lia. done.
  - rewrite <- (Z.mod_add _ 1) by lia. rewrite Z.mod_small by lia. rewrite (proj2 (Z.ltb_ge _ _)) by lia. lia.
Qed.

Lemma exact_int n k : (0 < k)%nat → exact n (read_int k) (enc_int k).
Proof.
  intros Hk. eapply exact_ext; [apply exact_bind; [apply exact_uint | intros v; apply (exact_ret n (to_signed k v))] |].
  intros v w. unfold g_bind, g_ret, enc_uint, enc_int. split.
  - intros (u & w1 & w2 & -> & [-> Hu] & -> & ->). rewrite app_nil_r.
    destruct (to_signed_spec k u Hk Hu) as [-> ?]. done.
  - intros [-> Hv]. eexists (wrap _ v), _, []. rewrite app_nil_r, to_signed_wrap by done.
    split_and!; try done. apply wrap_in_width. lia.
Qed.

Lemma exact_repeat_fuel {A : Type} n fuel k (p : parser A) G :
  exact n p G → nonempty G → (n ≤ fuel)%nat → exact n (repeat_fuel fuel k p) (g_repeat k G).
Proof.
  intros Hp Hne. revert n k Hp. induction fuel as [|fuel IH]; intros n k Hp Hf; cbn [repeat_fuel].
  { intros bs Hl. lia. }
  destruct (Z.leb_spec k 0) as [Hk|Hk].
  - eapply exact_ext; [apply exact_ret |]. intros xs w. unfold g_ret, g_repeat. rewrite Z.max_l by lia. split.
    + intros [-> ->]. split; [done |]. by exists [].
    + intros (Hxs & ws & Hws & ->). destruct xs; [| simpl in Hxs; lia]. by inversion Hws.
  - destruct n as [|n]; [intros bs Hl; lia |].
    eapply exact_ext.
    { apply exact_bind_strict; [exact Hp | done |]. intros x. apply exact_bind; [apply IH |].
      - eapply exact_mono; [done | lia].
      - lia.
      - intros xs. apply (exact_ret n (x :: xs)). }
    intros ys w. unfold g_bind, g_ret, g_repeat. split.
    + intros (x & w1 & w2 & -> & Hx & xs & w3 & w4 & -> & (Hlen & ws & Hws & ->) & -> & ->).
      split; [simpl; lia |]. exists (w1 :: ws). rewrite app_nil_r. split; [by constructor | done].
    + intros (Hlen & ws & Hws & ->). inversion Hws as [|x w1 xs ws' Hx Hxs]; subst; [simpl in Hlen; lia |].
      exists x, w1, (mjoin ws'). split_and!; [done | done |]. exists xs, (mjoin ws'), []. rewrite app_nil_r.
      split_and!; try done; [simpl in Hlen; lia |]. by exists ws'.
Qed.

Lemma exact_repeat {A : Type} n k (p : parser A) G :
  exact n p G → nonempty G → exact n (repeat_n k p) (g_repeat k G).
Proof.
  intros Hp Hne bs Hl. unfold repeat_n. apply (exact_repeat_fuel (S (length bs))); [| done | lia | lia].
  eapply exact_mono; [done | lia].
Qed.

(** ** Strings *)

Lemma bytes_of_string_of_bytes bs : Forall is_byte bs → bytes_of_string (string_of_bytes bs) = bs.
Proof.
  induction 1 as [|b bs [Hb1 Hb2] _ IH]; simpl; [done |]. change (2 ^ 8) with 256 in Hb2.
  rewrite Ascii.N_ascii_embedding by lia. rewrite Z2N.id by lia. by rewrite IH.
Qed.

Lemma string_of_bytes_of_string s : string_of_bytes (bytes_of_string s) = s.
Proof.
  induction s as [|c s IH]; simpl; [done |]. rewrite N2Z.id, Ascii.ascii_N_embedding. by rewrite IH.
Qed.

Lemma bytes_of_string_byte s : Forall is_byte (bytes_of_string s).
Proof.
  induction s as [|c s IH]; simpl; constructor; [| done]. unfold is_byte, in_width. change (2 ^ 8) with 256.
  pose proof (Ascii.N_ascii_bounded c). lia.
Qed.

Lemma exact_string n : exact n read_gguf_string enc_string.
Proof.
  eapply exact_ext with (G := g_bind (enc_uint 8) (λ len s w, Z.of_nat (length w) = len ∧ valid_utf8 w = true ∧
    w = bytes_of_string s)).
  - eapply (exact_bind_lt n n); [apply exact_uint | intros; lia |]. intros len w0 [_ [Hpos _]] bs Hl Hb.
    assert (exact n (read! buf := read_bytes (Z.to_nat len) in plift (from_utf8 buf))
      (g_bind (λ b w, w = b ∧ length b = Z.to_nat len ∧ Forall is_byte b) (λ b, g_lift (from_utf8 b)))) as He.
    { apply exact_bind; [apply exact_bytes |]. intros b. apply exact_lift. unfold from_utf8. by case_if. }
    destruct (He bs Hl Hb) as [Hnp Hx]. destruct (Z.ltb_spec (Z.of_nat (length bs)) len) as [Hlt|Hge].
    + split; [done |]. intros s rest. split; [done |]. intros (w & -> & <- & _). rewrite length_app in Hlt. lia.
    + split; [done |]. intros s rest. rewrite Hx. unfold g_bind, g_lift, from_utf8. split.
      * intros (w & -> & b & w1 & w2 & -> & (-> & Hlen & Hbyte) & Hs & ->). rewrite app_nil_r in *.
        exists b. destruct (valid_utf8 b) eqn:Hv; [| done]. injection Hs as <-.
        rewrite bytes_of_string_of_bytes by done. split_and!; try done. lia.
      * intros (w & -> & <- & Hv & ->). eexists. split; [done |].
        exists (bytes_of_string s), (bytes_of_string s), []. rewrite app_nil_r, Nat2Z.id, Hv, string_of_bytes_of_string.
        split_and!; try done. apply bytes_of_string_byte.
  - intros s w. unfold g_bind, enc_uint, enc_string. split.
    + intros (len & w1 & w2 & -> & [-> Hw] & <- & Hv & ->). done.
    + intros (-> & Hv & Hw). eexists _, _, _. split_and!; done.
Qed.

Lemma nonempty_uint k : (0 < k)%nat → nonempty (enc_uint k).
Proof. intros Hk v w [-> _]. by destruct k; [lia |]. Qed.
Lemma nonempty_int k : (0 < k)%nat → nonempty (enc_int k).
Proof. intros Hk v w [-> _]. by destruct k; [lia |]. Qed.
Lemma nonempty_string : nonempty enc_string.
Proof. by intros s w (-> & _). Qed.

(** ** Values *)

Lemma type_code_spec c t : metadata_type_from_u32 c = Ok t ↔ c = type_code t.
Proof.
  split; [| intros ->; by destruct t]. unfold metadata_type_from_u32. intros Hc.
  repeat (match type of Hc with context [match ?x with _ => _ end] => destruct x; try done end);
    by injection Hc as <-.
Qed.

Lemma type_code_width t : in_width 32 (type_code t).
Proof. by destruct t. Qed.

Lemma metadata_type_no_panic c : metadata_type_from_u32 c ≠ Panic.
Proof.
  unfold metadata_type_from_u32.
  repeat (match goal with |- context [match ?x with _ => _ end] => destruct x; try done end).
Qed.

Lemma nonempty_value t : nonempty (enc_value t).
Proof.
  intros v w Hv. inversion Hv as [? ? H|? ? H|? ? H|? ? H|? ? H|? ? H|? ? H|? ? H|? ? H|? ? H|? ? H|? ? H|]; subst;
    first [done | refine (nonempty_string _ _ H) | refine (nonempty_uint _ _ _ _ H); lia
          | refine (nonempty_int _ _ _ _ H); lia].
Qed.

(** A value that is a function of one number or string read. *)
Lemma exact_map {A B : Type} n (p : parser A) (f : A → B) G G' :
  exact n p G → (∀ b w, (∃ a, b = f a ∧ G a w) ↔ G' b w) → exact n (read! a := p in pret (f a)) G'.
Proof.
  intros Hp Hg. eapply exact_ext; [apply exact_bind; [done | intros a; apply (exact_ret n (f a))] |].
  intros b w. rewrite <- Hg. unfold g_bind, g_ret. split.
  - intros (a & w1 & w2 & -> & Ha & -> & ->). rewrite app_nil_r. eauto.
  - intros (a & -> & Ha). exists a, w, []. by rewrite app_nil_r.
Qed.

Lemma exact_typed fuel t : exact fuel (read_typed_fuel fuel t) (enc_value t).
Proof.
  revert t. induction fuel as [|fuel IH]; intros t; [intros bs Hl; lia |].
  destruct t; cbn [read_typed_fuel];
    try (eapply exact_map; [first [apply exact_uint | apply exact_int; lia | apply exact_string] |];
         intros b w; split; [intros (a & -> & Ha); by constructor | inversion 1; subst; eauto]).
  eapply exact_ext.
  { apply exact_bind_strict; [apply exact_uint | apply nonempty_uint; lia |]. intros c.
    apply exact_bind; [apply exact_lift, metadata_type_no_panic |]. intros t.
    apply exact_bind; [apply exact_uint |]. intros len.
    apply exact_bind; [apply exact_repeat; [apply IH | apply nonempty_value] |]. intros vs. apply (exact_ret fuel (Array vs)). }
  intros v w. unfold g_bind, g_ret, g_lift, g_repeat, enc_uint. split.
  - intros (c & ? & ? & -> & [-> Hc] & t & ? & ? & -> & [Ht ->] & len & ? & ? & -> & [-> Hlen] & vs & ? & ? & -> &
      (Hvs & ws & Hws & ->) & -> & ->).
    apply type_code_spec in Ht as ->. rewrite app_nil_r. cbn [app].
    replace len with (Z.of_nat (length vs)) in * by (destruct Hlen; lia). by constructor.
  - inversion 1 as [| | | | | | | | | | | |t vs ws Hws Hlen]; subst.
    eexists _, _, _. split_and!; [done | done | apply type_code_width |].
    exists t, [], (to_le_bytes 8 (Z.of_nat (length vs)) ++ mjoin ws). split_and!; [done | by apply type_code_spec | done |].
    eexists (Z.of_nat (length vs)), _, _. split_and!; [done | done | done |].
    eexists vs, _, []. split_and!; [by rewrite app_nil_r | lia | by exists ws | done | done].
Qed.

Lemma exact_value n t : exact n (read_typed_value t) (enc_value t).
Proof. intros bs Hl. unfold read_typed_value. apply exact_typed. lia. Qed.

(** ** Entries, tensors and the header *)

Lemma exact_entry n : exact n read_metadata_entry enc_entry.
Proof.
  eapply exact_ext.
  { apply exact_bind; [apply exact_string |]. intros key. apply exact_bind; [| intros v; apply (exact_ret n (key, v))].
    apply exact_bind; [apply exact_uint |]. intros c. apply exact_bind; [apply exact_lift, metadata_type_no_panic |].
    intros t. apply exact_value. }
  intros [key v] w. unfold g_bind, g_ret, g_lift, enc_uint, enc_entry. cbn [fst snd]. split.
  - intros (k & wk & ? & -> & Hk & v' & ? & ? & -> & (c & ? & ? & -> & [-> Hc] & t & ? & wv & -> & [Ht ->] & Hv) &
      [= -> ->] & ->).
    apply type_code_spec in Ht as ->. exists t, wk, wv. by rewrite app_nil_r.
  - intros (t & wk & wv & Hk & Hv & ->). exists key, wk, (to_le_bytes 4 (type_code t) ++ wv).
    split_and!; [done | done |]. exists v, (to_le_bytes 4 (type_code t) ++ wv), [].
    split_and!; [by rewrite app_nil_r | | done | done].
    exists (type_code t), (to_le_bytes 4 (type_code t)), wv. split_and!; [done | done | apply type_code_width |].
    exists t, [], wv. split_and!; [done | by apply type_code_spec | done | done].
Qed.

Lemma gguf_dtype_no_panic c : gguf_dtype_from_u32 c ≠ Panic.
Proof.
  unfold gguf_dtype_from_u32.
  repeat (match goal with |- context [match ?x with _ => _ end] => destruct x; try done end).
Qed.

Lemma enc_uints n (vs : list Z) ws :
  Forall2 (enc_uint n) vs ws ↔ ws = to_le_bytes n <$> vs ∧ Forall (in_width (8 * Z.of_nat n)) vs.
Proof.
  split.
  - induction 1 as [|v w vs ws [-> Hv] _ [-> IH]]; [done |]. split; [done | by constructor].
  - intros [-> Hvs]. induction Hvs as [|v vs Hv _ IH]; constructor; [by split | done].
Qed.

Lemma exact_tensor n : exact n read_tensor_info enc_tensor.
Proof.
  eapply exact_ext.
  { apply exact_bind; [apply exact_string |]. intros name. apply exact_bind; [apply exact_uint |]. intros nd.
    apply exact_bind; [apply exact_repeat; [apply exact_uint | apply nonempty_uint; lia] |]. intros sh.
    apply exact_bind; [apply exact_uint |]. intros c. apply exact_bind; [apply exact_lift, gguf_dtype_no_panic |].
    intros d. apply exact_bind; [apply exact_lift; by destruct d |]. intros dt.
    apply exact_bind; [apply exact_uint |]. intros off. apply exact_ret. }
  intros t w. unfold g_bind, g_ret, g_lift, g_repeat, enc_uint, enc_tensor. split.
  - intros (name & wn & ? & -> & Hn & nd & ? & ? & -> & [-> Hnd] & sh & ? & ? & -> & (Hlen & ws & Hws & ->) &
      c & ? & ? & -> & [-> Hc] & d & ? & ? & -> & [Hd ->] & dt & ? & ? & -> & [Hdt ->] & off & ? & ? & -> &
      [-> Hoff] & -> & ->).
    apply (enc_uints 8) in Hws as [-> Hsh]. exists wn, d. cbn [ti_name ti_shape ti_dtype offset gguf_dtype].
    rewrite reverse_involutive, app_nil_r, length_reverse. cbn [app].
    replace nd with (Z.of_nat (length sh)) in * by (destruct Hnd; lia).
    split_and!; try done. by apply Forall_reverse.
  - destruct t as [name sh dt off c]. cbn [ti_name ti_shape ti_dtype offset gguf_dtype].
    intros (wn & d & Hn & Hnd & Hsh & Hoff & Hc & Hd & Hdt & ->).
    exists name, wn. eexists. split_and!; [done | done |].
    exists (Z.of_nat (length sh)). eexists _, _. split_and!; [done | done | done |].
    exists (reverse sh). eexists _, _. split_and!; [done | rewrite length_reverse; lia | |].
    { exists (to_le_bytes 8 <$> reverse sh). split; [| done]. apply (enc_uints 8). split; [done | by apply Forall_reverse]. }
    exists c. eexists _, _. split_and!; [done | done | done |].
    exists d, [], (to_le_bytes 8 off). split_and!; [done | done | done |].
    exists dt, [], (to_le_bytes 8 off). split_and!; [done | done | done |].
    exists off, (to_le_bytes 8 off), []. rewrite app_nil_r, reverse_involutive. by split_and!.
Qed.

Lemma nonempty_entry : nonempty enc_entry.
Proof. intros kv w (t & wk & wv & Hk%nonempty_string & _ & ->). by destruct wk. Qed.
Lemma nonempty_tensor : nonempty enc_tensor.
Proof.
  intros t w (wn & d & Hn%nonempty_string & Hrest). destruct Hrest as (_ & _ & _ & _ & _ & _ & ->).
  by destruct wn.
Qed.

(** A number that must have one value. *)
Lemma exact_const {B : Type} n c (k : parser B) e K :
  exact n k K → in_width 32 c →
  exact n (read! v := read_uint 4 in if negb (v =? c) then plift (Err e) else k)
    (λ b w, ∃ w', w = to_le_bytes 4 c ++ w' ∧ K b w').
Proof.
  intros Hk Hc. eapply exact_ext.
  { apply (exact_bind n _ _ (enc_uint 4) (λ v b w, v = c ∧ K b w)); [apply exact_uint |]. intros v.
    destruct (Z.eqb_spec v c) as [->|Hv]; cbn [negb].
    - eapply exact_ext; [done |]. naive_solver.
    - intros bs Hl Hb. split; [done |]. naive_solver. }
  intros b w. unfold g_bind, enc_uint. split.
  - intros (v & ? & w' & -> & [-> _] & -> & HK). eauto.
  - intros (w' & -> & HK). exists c, (to_le_bytes 4 c), w'. done.
Qed.

Lemma exact_header n : exact n read_header (λ x, enc_header x.1 x.2).
Proof.
  eapply exact_ext.
  { apply exact_const; [| done]. apply exact_const; [| done]. apply exact_bind; [apply exact_uint |]. intros tc.
    apply exact_bind; [apply exact_uint |]. intros mc.
    apply exact_bind; [apply exact_repeat; [apply exact_entry | apply nonempty_entry] |]. intros kvs.
    apply exact_bind; [apply exact_repeat; [apply exact_tensor | apply nonempty_tensor] |]. intros ts.
    apply (exact_ret n (kvs, ts)). }
  intros [kvs ts] w. unfold g_bind, g_ret, g_repeat, enc_uint, enc_header. cbn [fst snd]. split.
  - intros (? & -> & ? & -> & tc & ? & ? & -> & [-> Htc] & mc & ? & ? & -> & [-> Hmc] & kvs' & ? & ? & -> &
      (Hlk & kws & Hk & ->) & ts' & ? & ? & -> & (Hlt & tws & Ht & ->) & [= -> ->] & ->).
    replace tc with (Z.of_nat (length ts')) in * by (destruct Htc; lia).
    replace mc with (Z.of_nat (length kvs')) in * by (destruct Hmc; lia).
    exists kws, tws. rewrite app_nil_r. by split_and!.
  - intros (kws & tws & Hk & Ht & Hlk & Hlt & ->). eexists. split; [done |]. eexists. split; [done |].
    exists (Z.of_nat (length ts)). eexists _, _. split_and!; [done | done | done |].
    exists (Z.of_nat (length kvs)). eexists _, _. split_and!; [done | done | done |].
    exists kvs. eexists _, _. split_and!; [done | lia | by exists kws |].
    exists ts, (mjoin tws), []. rewrite app_nil_r. split_and!; [done | lia | by exists tws | done | done].
Qed.

(** ** Properties *)

Lemma get_u32_no_panic md k : get_u32 md k ≠ Panic.
Proof. unfold get_u32. by destruct (_ ≫= _). Qed.

Lemma vocab_size_no_panic md arch : vocab_size_of md arch ≠ Panic.
Proof. unfold vocab_size_of. by repeat destruct (_ ≫= _). Qed.

Lemma validate_no_panic c : validate c ≠ Panic.
Proof. unfold validate. by repeat case_if. Qed.

Lemma extract_no_panic md : extract_model_config md ≠ Panic.
Proof.
  unfold extract_model_config. do 5 (apply rbind_no_panic; [apply get_u32_no_panic | intros ? _]).
  apply rbind_no_panic; [apply vocab_size_no_panic | intros ? _]. case_if; [done |].
  apply rbind_no_panic; [apply validate_no_panic | done].
Qed.

(** C35: the header parser is total and reads exactly the GGUF v3 format: on
    any bytes it returns without panicking, and it accepts a file if and only
    if the file starts with the encoding of some metadata entries and tensor
    descriptors whose metadata describe a valid model.  The result has those
    descriptors, the last value of each key, and the aligned end of the header
    as the start of the tensor data. *)
Theorem parse_header_exact bytes hdr :
  Forall is_byte bytes →
  parse_header_bytes bytes ≠ Panic ∧
  (parse_header_bytes bytes = Ok hdr ↔
   ∃ kvs w rest, bytes = w ++ rest ∧ enc_header kvs (tensors hdr) w ∧ metadata hdr = insert_all kvs ∧
     extract_model_config (metadata hdr) = Ok (config hdr) ∧
     tensor_data_offset hdr = align_offset (Z.of_nat (length w)) (get_alignment (metadata hdr))).
Proof.
  intros Hb. destruct (exact_header (S (length bytes)) bytes) as [Hnp Hx]; [lia | done |]. unfold parse_header_bytes.
  split.
  { apply rbind_no_panic; [done |]. intros [[kvs ts] rest] _. apply rbind_no_panic; [apply extract_no_panic | done]. }
  rewrite rbind_Ok. split.
  - intros ([[kvs ts] rest] & (w & -> & Hw)%Hx & (c & Hc & [= <-])%rbind_Ok). exists kvs, w, rest.
    simpl in *. split_and!; try done. f_equal. rewrite length_app. lia.
  - intros (kvs & w & rest & -> & Hw & Hm & Hc & Ho). exists ((kvs, tensors hdr), rest). split; [apply Hx; by exists w |].
    rewrite <- Hm, Hc. cbn [rbind]. destruct hdr as [c md ts o]. simpl in *. do 2 f_equal. rewrite Ho, length_app.
    f_equal. lia.
Qed.

Lemma land_not_ones x k : 0 ≤ k ≤ 64 → 0 ≤ x < 2 ^ 64 →
  Z.land x (Z.lxor (2 ^ k - 1) (2 ^ 64 - 1)) = x - x mod 2 ^ k.
Proof.
  intros Hk Hx. assert (x - x mod 2 ^ k = Z.ldiff x (Z.ones k)) as ->.
  { rewrite Z.ldiff_ones_r, Z.shiftl_mul_pow2, Z.shiftr_div_pow2 by lia.
    pose proof (Z.div_mod x (2 ^ k)). assert (0 < 2 ^ k) by (apply Z.pow_pos_nonneg; lia). lia. }
  apply Z.bits_inj'. intros n Hn. rewrite Z.land_spec, Z.lxor_spec, Z.ldiff_spec.
  replace (2 ^ k - 1) with (Z.ones k) by (rewrite Z.ones_equiv; lia).
  replace (2 ^ 64 - 1) with (Z.ones 64) by done.
  destruct (Z.lt_ge_cases n 64) as [Hn'|Hn'].
  - rewrite (Z.ones_spec_low 64) by lia. by destruct (Z.testbit x n), (Z.testbit (Z.ones k) n).
  - assert (Z.testbit x n = false) as ->; [| done]. destruct (Z.eq_dec x 0) as [->|]; [apply Z.testbit_0_l |].
    apply Z.bits_above_log2; [lia |]. assert (Z.log2 x < 64) by (apply Z.log2_lt_pow2; lia). lia.
Qed.

(** For an alignment that is a power of two the tensor data start at the
    first multiple of it that is not before the end of the header. *)
Theorem align_offset_spec off k :
  0 ≤ k ≤ 63 → 0 ≤ off → off + 2 ^ k ≤ 2 ^ 64 →
  let r := align_offset off (2 ^ k) in (2 ^ k | r) ∧ off ≤ r < off + 2 ^ k.
Proof.
  intros Hk Ho Hb. cbv zeta. unfold align_offset. assert (0 < 2 ^ k) by (apply Z.pow_pos_nonneg; lia).
  rewrite (proj2 (Z.eqb_neq _ _)) by lia. unfold saturating_add, USIZE_MAX. rewrite Z.min_r by lia.
  rewrite land_not_ones by lia. set (x := off + (2 ^ k - 1)).
  pose proof (Z.div_mod x (2 ^ k)). pose proof (Z.mod_pos_bound x (2 ^ k)). split.
  - exists (x / 2 ^ k). lia.
  - lia.
Qed.

(** With an alignment that is not a power of two the offset is not aligned. *)
Example align_offset_24 : align_offset 100 24 = 104 ∧ 104 mod 24 ≠ 0.
Proof. split; vm_compute; [reflexivity | discriminate]. Qed.

Module GgufExample.
Definition str (s : string) : list Z := to_le_bytes 8 (Z.of_nat (length (bytes_of_string s))) ++ bytes_of_string s.
Definition kv_u32 (k : string) (v : Z) : list Z := str k ++ to_le_bytes 4 4 ++ to_le_bytes 4 v.
Definition tokens : list Z :=
  str "tokenizer.ggml.tokens" ++ to_le_bytes 4 9 ++ to_le_bytes 4 8 ++ to_le_bytes 8 2 ++ str "a" ++ str "b".
Definition file : list Z :=
  to_le_bytes 4 GGUF_MAGIC ++ to_le_bytes 4 GGUF_VERSION ++ to_le_bytes 8 1 ++ to_le_bytes 8 6 ++
  kv_u32 "llama.embedding_length" 8 ++ kv_u32 "llama.block_count" 2 ++ kv_u32 "llama.attention.head_count" 2 ++
  kv_u32 "llama.attention.head_count_kv" 1 ++ kv_u32 "llama.feed_forward_length" 16 ++ tokens ++
  str "token_embd.weight" ++ to_le_bytes 4 2 ++ to_le_bytes 8 8 ++ to_le_bytes 8 2 ++ to_le_bytes 4 1 ++
  to_le_bytes 8 0 ++ replicate 40 0.
Definition get (r : result GgufHeader) : GgufHeader :=
  match r with
  | Ok h => h
  | _ => {| config := {| hidden_size := 0; num_layers := 0; num_q_heads := 0; num_kv_heads := 0; head_dim := 0;
                         intermediate_size := 0; vocab_size := 0; rope_theta := f32_zero; rms_norm_eps := f32_zero;
                         max_seq_len := 0 |};
            metadata := ∅; tensors := []; tensor_data_offset := 0 |}
  end.
Definition header : GgufHeader := get (parse_header_bytes file).

Example header_parsed :
  (hidden_size (config header), num_layers (config header), head_dim (config header), vocab_size (config header),
   max_seq_len (config header)) = (8, 2, 4, 2, 8192) ∧
  (λ t, (ti_name t, ti_shape t, ti_dtype t)) <$> tensors header = [("token_embd.weight"%string, [2; 8], FP16)] ∧
  tensor_data_offset header = 352.
Proof. split_and!; vm_compute; reflexivity. Qed.
End GgufExample.

Module GgufWitness.
Import GgufExample.

Lemma parse_header_witness :
  ∃ kvs w rest, file = w ++ rest ∧ enc_header kvs (tensors header) w ∧ metadata header = insert_all kvs ∧
    extract_model_config (metadata header) = Ok (config header) ∧
    tensor_data_offset header = align_offset (Z.of_nat (length w)) (get_alignment (metadata header)).
Proof.
  apply (parse_header_exact file header); [decide_now | vm_compute; reflexivity].
Defined.

Lemma align_offset_witness : let r := align_offset 100 (2 ^ 5) in (2 ^ 5 | r) ∧ 100 ≤ r < 100 + 2 ^ 5.
Proof. apply (align_offset_spec 100 5); [lia | lia | vm_compute; discriminate]. Defined.
End GgufWitness.
