(* ===== verification/WeightStore.v ===== *)
(** * Weights ([crates/fracture-gguf/src/weight_store.rs])

    Copying the tensors of a GGUF file to the device, with the rows of the query
    and key projections put back into the order the engine expects.  The mapped
    file is its list of bytes; the conversions of the [half] crate are
    parameters. *)

From stdpp Require Import pretty.
From S2P Require Import Prelude F32 Core Backend LayerScheduler Gguf.

Local Open Scope Z_scope.

Record LayerWeights := {
  q_proj : DeviceTensor; k_proj : DeviceTensor; v_proj : DeviceTensor; o_proj : DeviceTensor;
  gate_proj : DeviceTensor; up_proj : DeviceTensor; down_proj : DeviceTensor;
  attn_norm : DeviceTensor; ffn_norm : DeviceTensor
}.

Record WeightStore := {
  ws_config : ModelConfig;
  token_embedding : DeviceTensor;
  layers : list LayerWeights;
  output_norm : DeviceTensor;
  lm_head : DeviceTensor
}.

(** The fields of a layer, in the order of [layer_fields], with the suffix of the
    tensor's name.  [LayerWeightsBuilder] is a partial map from fields to
    tensors. *)
Inductive Field := FQ | FK | FV | FO | FGate | FUp | FDown | FAttnNorm | FFfnNorm.

#[export] Instance Field_eq_dec : EqDecision Field.
Proof. solve_decision. Defined.

Definition suffix (f : Field) : string :=
  match f with
  | FQ => "attn_q.weight" | FK => "attn_k.weight" | FV => "attn_v.weight" | FO => "attn_output.weight"
  | FGate => "ffn_gate.weight" | FUp => "ffn_up.weight" | FDown => "ffn_down.weight"
  | FAttnNorm => "attn_norm.weight" | FFfnNorm => "ffn_norm.weight"
  end.

Definition layer_fields : list Field := [FQ; FK; FV; FO; FGate; FUp; FDown; FAttnNorm; FFfnNorm].

Definition LayerWeightsBuilder : Type := Field → option DeviceTensor.
Definition builder_new : LayerWeightsBuilder := λ _, None.
Definition setter (f : Field) (t : DeviceTensor) (b : LayerWeightsBuilder) : LayerWeightsBuilder :=
  λ g, if decide (g = f) then Some t else b g.

(** [LayerWeightsBuilder::build] *)
Definition require (opt : option DeviceTensor) : result DeviceTensor :=
  match opt with Some t => Ok t | None => Err (WeightLoad "missing required tensor") end.
Definition build (b : LayerWeightsBuilder) : result LayerWeights :=
  let? q := require (b FQ) in
  let? k := require (b FK) in
  let? v := require (b FV) in
  let? o := require (b FO) in
  let? gate := require (b FGate) in
  let? up := require (b FUp) in
  let? down := require (b FDown) in
  let? an := require (b FAttnNorm) in
  let? fn := require (b FFfnNorm) in
  Ok {| q_proj := q; k_proj := k; v_proj := v; o_proj := o; gate_proj := gate; up_proj := up; down_proj := down;
        attn_norm := an; ffn_norm := fn |}.

(** ** Q and K rows *)

(** [out[a..a + s.len()].copy_from_slice(s)] *)
Definition put_slice (a : nat) (s out : list Z) : result (list Z) :=
  if bool_decide (a + length s ≤ length out)%nat then Ok (list_inserts a s out) else Panic.

Definition copy_row (data : list Z) (row_bytes src dst : nat) (out : list Z) : result (list Z) :=
  let? s := slice src (src + row_bytes) data in put_slice dst s out.

(** [reverse_qk_permutation]: an index that overflows is also out of range, so
    only the sizes are checked. *)
Definition copy_pair (data : list Z) (row_bytes half head_start i : nat) (out : list Z) : result (list Z) :=
  let? out := copy_row data row_bytes (head_start + 2 * i * row_bytes) (head_start + i * row_bytes) out in
  copy_row data row_bytes (head_start + (2 * i + 1) * row_bytes) (head_start + (i + half) * row_bytes) out.

Definition reverse_qk_permutation (data : list Z) (num_heads head_dim hidden : Z) : result (list Z) :=
  let half := Z.to_nat (head_dim / 2) in
  let? row_bytes := umul hidden 2 in
  let? head_bytes := umul head_dim row_bytes in
  rfold (λ h, rfold (copy_pair data (Z.to_nat row_bytes) half (h * Z.to_nat head_bytes)) (seq 0 half))
    (seq 0 (Z.to_nat num_heads)) (replicate (length data) 0).

(** ** Uploads *)

(** [slice.chunks_exact(2)] and [(4)] as little-endian numbers *)
Fixpoint words2 (l : list Z) : list Z :=
  match l with b0 :: b1 :: l' => from_le_bytes [b0; b1] :: words2 l' | _ => [] end.
Fixpoint words4 (l : list Z) : list Z :=
  match l with b0 :: b1 :: b2 :: b3 :: l' => from_le_bytes [b0; b1; b2; b3] :: words4 l' | _ => [] end.

Section load.
Context {D : Type} `{BackendOps D}.
(** [half::f16::from_f32(x).to_bits()] and [half::bf16::from_bits(b).to_f32()] *)
Variable f16_from_f32 : f32 → Z.
Variable bf16_to_f32 : Z → f32.

(** What the host does to the bytes before they are copied. *)
Definition host_bytes (dt : DType) (s : list Z) : list Z :=
  match dt with
  | FP32 => mjoin ((λ v, to_le_bytes 2 (f16_from_f32 (f32_from_bits v))) <$> words4 s)
  | BF16 => mjoin ((λ v, to_le_bytes 2 (f16_from_f32 (bf16_to_f32 v))) <$> words2 s)
  | _ => s
  end.
Definition device_dtype (dt : DType) : DType := match dt with FP32 | BF16 => FP16 | _ => dt end.

(** The bytes of a tensor in the file. *)
Definition tensor_bytes (tensor : TensorInfo) (mmap : list Z) (tdo : Z) : result (list Z) :=
  let? numel := uproduct (ti_shape tensor) in
  let? byte_size := umul numel (dtype_size_bytes (ti_dtype tensor)) in
  let? start := uadd tdo (offset tensor) in
  let? end_ := uadd start byte_size in
  if Z.of_nat (length mmap) <? end_ then Err (WeightLoad "tensor data exceeds mmap length")
  else slice (Z.to_nat start) (Z.to_nat end_) mmap.

Definition upload_tensor (tensor : TensorInfo) (mmap : list Z) (tdo : Z) : st D DeviceTensor :=
  do! s := slift (tensor_bytes tensor mmap tdo) in
  alloc_fill (ti_shape tensor) (device_dtype (ti_dtype tensor)) (host_bytes (ti_dtype tensor) s).

Definition upload_qk_tensor (tensor : TensorInfo) (mmap : list Z) (tdo num_heads head_dim : Z) : st D DeviceTensor :=
  do! s := slift (tensor_bytes tensor mmap tdo) in
  do! hidden := slift (index (ti_shape tensor) 1) in
  do! fixed := slift (reverse_qk_permutation s num_heads head_dim hidden) in
  alloc_fill (ti_shape tensor) FP16 fixed.

(** [tensor_map]: the last tensor of a name wins. *)
Definition tensor_map (ts : list TensorInfo) : gmap string TensorInfo :=
  foldl (λ m t, <[ti_name t := t]> m) ∅ ts.

Variable gguf : GgufHeader.
Variable mmap : list Z.

Definition load_required (name : string) : st D DeviceTensor :=
  match tensor_map (tensors gguf) !! name with
  | None => serr (WeightLoad "missing required tensor")
  | Some info => upload_tensor info mmap (tensor_data_offset gguf)
  end.

Definition layer_name (layer_idx : Z) (f : Field) : string :=
  "blk." +:+ pretty layer_idx +:+ "." +:+ suffix f.

Definition upload_field (f : Field) (info : TensorInfo) : st D DeviceTensor :=
  match f with
  | FQ => upload_qk_tensor info mmap (tensor_data_offset gguf) (num_q_heads (config gguf)) (head_dim (config gguf))
  | FK => upload_qk_tensor info mmap (tensor_data_offset gguf) (num_kv_heads (config gguf)) (head_dim (config gguf))
  | _ => upload_tensor info mmap (tensor_data_offset gguf)
  end.

(** The loop over [layer_fields] for one layer, and the loop over the range; the
    builder of a layer is only touched in the round of that layer. *)
Fixpoint load_fields (layer_idx : Z) (fs : list Field) (b : LayerWeightsBuilder) : st D LayerWeightsBuilder :=
  match fs with
  | [] => sret b
  | f :: fs' =>
      match tensor_map (tensors gguf) !! layer_name layer_idx f with
      | None => load_fields layer_idx fs' b
      | Some info => do! t := upload_field f info in load_fields layer_idx fs' (setter f t b)
      end
  end.

Fixpoint load_builders (idxs : list Z) : st D (list LayerWeightsBuilder) :=
  match idxs with
  | [] => sret []
  | i :: idxs' =>
      do! b := load_fields i layer_fields builder_new in
      do! bs := load_builders idxs' in
      sret (b :: bs)
  end.

(** [WeightStore::load], after [GgufParser::parse] *)
Definition load (layer_range : option LayerRange) : st D WeightStore :=
  let num_layers := num_layers (config gguf) in
  let range := default {| rstart := 0; rend := num_layers |} layer_range in
  if num_layers <? rend range then serr (WeightLoad "layer_range end exceeds model layer count")
  else
    do! token_embedding := load_required "token_embd.weight" in
    do! output_norm := load_required "output_norm.weight" in
    do! lm_head := load_required "output.weight" in
    do! layer_count := slift (usub (rend range) (rstart range)) in
    do! builders := load_builders ((λ i, rstart range + Z.of_nat i) <$> seq 0 (Z.to_nat layer_count)) in
    do! ls := slift (rmapM build builders) in
    sret {| ws_config := config gguf; token_embedding := token_embedding; layers := ls;
            output_norm := output_norm; lm_head := lm_head |}.
End load.

(** ** The permutation *)

(** The order of rows in a GGUF file: the halves of a head interleaved. *)
Definition interleave {A : Type} (half : nat) (head : list A) : list A :=
  mjoin (zip_with (λ a b, [a; b]) (take half head) (drop half head)).

Lemma put_slice_mjoin (v : nat) (ls : list (list Z)) k r :
  Forall (λ l, length l = v) ls → length r = v → (k < length ls)%nat →
  put_slice (k * v) r (mjoin ls) = Ok (mjoin (<[k := r]> ls)).
Proof.
  intros Hls Hr Hk. destruct (lookup_lt_is_Some_2 ls k Hk) as [l Hl].
  rewrite (insert_take_drop ls k r) by done. rewrite <- (take_drop_middle ls k l Hl) at 1.
  rewrite !join_app. cbn [mjoin list_join]. unfold put_slice.
  assert (length (mjoin (take k ls)) = (k * v)%nat) as Hlen by (apply length_mjoin_take; [done | lia]).
  assert (length l = v) as Hlv by (by eapply (Forall_lookup_1 _ _ _ _ Hls)).
  rewrite bool_decide_true by (rewrite !length_app; lia). f_equal.
  rewrite <- (Nat.add_0_r (k * v)), <- Hlen, list_inserts_app_r. f_equal. apply list_inserts_0_r. lia.
Qed.

Lemma copy_row_mjoin (v : nat) (data out : list (list Z)) j k r :
  Forall (λ l, length l = v) data → Forall (λ l, length l = v) out → data !! j = Some r → (k < length out)%nat →
  copy_row (mjoin data) v (j * v) (k * v) (mjoin out) = Ok (mjoin (<[k := r]> out)).
Proof.
  intros Hd Ho Hj Hk. unfold copy_row. rewrite (slice_mjoin v data j r) by done. cbn [rbind].
  apply put_slice_mjoin; [done | | done]. by eapply (Forall_lookup_1 _ _ _ _ Hd).
Qed.

(** The copies of the two loops, from source row to destination row. *)
Definition head_copies (hd half h : nat) : list (nat * nat) :=
  mjoin ((λ i, [(h * hd + 2 * i, h * hd + i); (h * hd + (2 * i + 1), h * hd + (i + half))]%nat) <$> seq 0 half).
Definition qk_copies (nh hd half : nat) : list (nat * nat) := mjoin (head_copies hd half <$> seq 0 nh).

Definition copy_rowp (data : list Z) (v : nat) (p : nat * nat) : list Z → result (list Z) :=
  copy_row data v (p.1 * v) (p.2 * v).

Lemma reverse_qk_copies data nh hd hidden rb :
  (0 ≤ hd)%Z → umul hidden 2 = Ok rb → in_width 64 (hd * rb) →
  reverse_qk_permutation data nh hd hidden =
  rfold (copy_rowp data (Z.to_nat rb)) (qk_copies (Z.to_nat nh) (Z.to_nat hd) (Z.to_nat (hd / 2)))
    (replicate (length data) 0).
Proof.
  intros Hhd Hrb Hw. unfold reverse_qk_permutation. rewrite Hrb. cbn [rbind]. unfold umul.
  rewrite checked_Ok by done. cbn [rbind].
  assert (0 ≤ rb) by (apply checked_inv in Hrb as [-> [? ?]]; lia).
  apply rfold_join. intros h s. apply rfold_join. intros i out. cbn [rfold]. unfold copy_pair, copy_rowp. cbn [fst snd].
  rewrite Z2Nat.inj_mul by lia.
  replace (h * (Z.to_nat hd * Z.to_nat rb) + 2 * i * Z.to_nat rb)%nat
    with ((h * Z.to_nat hd + 2 * i) * Z.to_nat rb)%nat by nia.
  replace (h * (Z.to_nat hd * Z.to_nat rb) + i * Z.to_nat rb)%nat
    with ((h * Z.to_nat hd + i) * Z.to_nat rb)%nat by nia.
  replace (h * (Z.to_nat hd * Z.to_nat rb) + (2 * i + 1) * Z.to_nat rb)%nat
    with ((h * Z.to_nat hd + (2 * i + 1)) * Z.to_nat rb)%nat by nia.
  replace (h * (Z.to_nat hd * Z.to_nat rb) + (i + Z.to_nat (hd / 2)) * Z.to_nat rb)%nat
    with ((h * Z.to_nat hd + (i + Z.to_nat (hd / 2))) * Z.to_nat rb)%nat by nia.
  destruct (copy_row _ _ _ _ out) as [out'| |]; [cbn [rbind] | done | done]. by destruct (copy_row _ _ _ _ out').
Qed.

(** Copies between equally long rows. *)
Lemma copies_rows (v : nat) (data out : list (list Z)) ps :
  Forall (λ l, length l = v) data → Forall (λ l, length l = v) out →
  Forall (λ p : nat * nat, p.1 < length data ∧ p.2 < length out)%nat ps →
  ∃ out', rfold (copy_rowp (mjoin data) v) ps (mjoin out) = Ok (mjoin out') ∧ length out' = length out ∧
    (∀ k, k ∉ ps.*2 → out' !! k = out !! k) ∧
    ∀ k s, (s, k) ∈ ps → (∀ s', (s', k) ∈ ps → s' = s) → out' !! k = data !! s.
Proof.
  intros Hd. revert out. induction ps as [|[s k] ps IH]; intros out Ho Hps; cbn [rfold].
  { exists out. split_and!; [done | done | done |]. intros k s []%not_elem_of_nil. }
  apply Forall_cons in Hps as [[Hs Hk] Hps]. cbn [fst snd] in Hs, Hk.
  destruct (lookup_lt_is_Some_2 data s Hs) as [r Hr]. unfold copy_rowp at 1. cbn [fst snd].
  rewrite (copy_row_mjoin v data out s k r) by done. cbn [rbind].
  destruct (IH (<[k := r]> out)) as (out' & Hrun & Hlen & Hframe & Hout).
  { apply Forall_insert; [done |]. by eapply (Forall_lookup_1 _ _ _ _ Hd). }
  { eapply Forall_impl; [exact Hps |]. intros p. by rewrite length_insert. }
  rewrite length_insert in Hlen. exists out'. split_and!; [done | done | |].
  - intros k' Hk'. csimpl in Hk'. rewrite Hframe by set_solver. apply list_lookup_insert_ne. set_solver.
  - intros k' s' Hin Huniq. destruct (decide (k' ∈ ps.*2)) as [([s2 ?] & -> & Hs2)%list_elem_of_fmap|Hno].
    + cbn [snd] in *. assert (s2 = s') as -> by (apply Huniq; by right).
      apply Hout; [done |]. intros. apply Huniq. by right.
    + apply elem_of_cons in Hin as [[= -> ->]|Hin].
      * by rewrite Hframe, Hr, list_lookup_insert_eq.
      * exfalso. apply Hno. apply list_elem_of_fmap. by exists (s', k').
Qed.

Lemma elem_of_qk_copies nh hd half p :
  p ∈ qk_copies nh hd half ↔
  ∃ h i, (h < nh ∧ i < half)%nat ∧
    (p = (h * hd + 2 * i, h * hd + i)%nat ∨ p = (h * hd + (2 * i + 1), h * hd + (i + half))%nat).
Proof.
  unfold qk_copies, head_copies. rewrite list_elem_of_join. setoid_rewrite list_elem_of_fmap.
  setoid_rewrite elem_of_seq. split.
  - intros (l & Hp & h & -> & Hh). apply list_elem_of_join in Hp as (l' & Hp & (i & -> & Hi%elem_of_seq)%list_elem_of_fmap).
    exists h, i. split; [lia |]. set_solver.
  - intros (h & i & [Hh Hi] & Hp). eexists. split; [| exists h; split; [done | lia]].
    apply list_elem_of_join. eexists. split; [| apply list_elem_of_fmap; exists i; split; [done | apply elem_of_seq; lia]].
    set_solver.
Qed.

Lemma interleave_lookup {A : Type} half (l : list A) i x :
  length l = (2 * half)%nat → (i < half)%nat →
  (interleave half l !! (i * 2 + 0)%nat = Some x ↔ l !! i = Some x) ∧
  (interleave half l !! (i * 2 + 1)%nat = Some x ↔ l !! (half + i)%nat = Some x).
Proof.
  intros Hl Hi. unfold interleave.
  assert (Forall (λ p : list A, length p = 2%nat) (zip_with (λ a b, [a; b]) (take half l) (drop half l))) as Htwo.
  { apply Forall_forall. intros p Hp. apply list_elem_of_lookup in Hp as [k (a & b & -> & _)%lookup_zip_with_Some]. done. }
  destruct (lookup_lt_is_Some_2 l i) as [a Ha]; [lia |].
  destruct (lookup_lt_is_Some_2 l (half + i)%nat) as [b Hb]; [lia |].
  assert (zip_with (λ a b, [a; b]) (take half l) (drop half l) !! i = Some [a; b]) as Hz.
  { apply lookup_zip_with_Some. exists a, b. rewrite lookup_take_lt, lookup_drop by done. done. }
  split; rewrite join_lookup_Some_same_length' by (done || lia); rewrite ?Ha, ?Hb, ?Hz;
    (split; [intros (? & [= <-] & Hx); by simpl in Hx | intros; exists [a; b]; done]).
Qed.

Lemma length_interleave {A : Type} half (l : list A) : length l = (2 * half)%nat → length (interleave half l) = (2 * half)%nat.
Proof.
  intros Hl. unfold interleave.
  assert (∀ l1 l2 : list A, length l1 = length l2 → length (mjoin (zip_with (λ a b, [a; b]) l1 l2)) = (2 * length l1)%nat) as H.
  { induction l1 as [|x l1 IH]; intros [|y l2] Hlen; simpl in *; try lia. rewrite IH by lia. lia. }
  rewrite H; rewrite ?length_take, ?length_drop; lia.
Qed.

Lemma mjoin_replicate {A : Type} (n m : nat) (x : A) : mjoin (replicate n (replicate m x)) = replicate (n * m) x.
Proof. induction n as [|n IH]; [done |]. simpl. by rewrite IH, replicate_add. Qed.

(** A row of the interleaved heads. *)
Lemma interleaved_row (half h i : nat) (heads : list (list (list Z))) head :
  Forall (λ hd, length hd = (2 * half)%nat) heads → heads !! h = Some head → (i < half)%nat →
  mjoin (interleave half <$> heads) !! (h * (2 * half) + 2 * i)%nat = head !! i ∧
  mjoin (interleave half <$> heads) !! (h * (2 * half) + (2 * i + 1))%nat = head !! (half + i)%nat.
Proof.
  intros Hhd Hh Hi. assert (length head = (2 * half)%nat) as Hl by (by eapply (Forall_lookup_1 _ _ _ _ Hhd)).
  assert (Forall (λ l : list (list Z), length l = (2 * half)%nat) (interleave half <$> heads)) as Hlen.
  { apply Forall_fmap. eapply Forall_impl; [exact Hhd |]. intros l. apply length_interleave. }
  destruct (lookup_lt_is_Some_2 head i) as [a Ha]; [lia |].
  destruct (lookup_lt_is_Some_2 head (half + i)%nat) as [b Hb]; [lia |].
  rewrite Ha, Hb. split; (rewrite join_lookup_Some_same_length' by (done || lia));
    (exists (interleave half head); split; [by rewrite list_lookup_fmap, Hh |]).
  - replace (2 * i)%nat with (i * 2 + 0)%nat by lia. by apply (interleave_lookup half head i a).
  - replace (2 * i + 1)%nat with (i * 2 + 1)%nat by lia. by apply (interleave_lookup half head i b).
Qed.

Lemma digits_unique (n h h' a a' : nat) : (a < n → a' < n → h * n + a = h' * n + a' → h = h' ∧ a = a')%nat.
Proof. intros Ha Ha' Heq. apply (Nat.div_mod_unique n); lia. Qed.

Lemma qk_copies_unique nh half s s' k :
  (s, k) ∈ qk_copies nh (2 * half) half → (s', k) ∈ qk_copies nh (2 * half) half → s' = s.
Proof.
  intros (h & i & [_ Hi] & Hp)%elem_of_qk_copies (h' & i' & [_ Hi'] & Hp')%elem_of_qk_copies.
  destruct Hp as [[= -> ->]|[= -> ->]], Hp' as [[= -> Hk]|[= -> Hk]];
    apply digits_unique in Hk as [-> ?]; lia.
Qed.

(** The rows the copies produce. *)
Lemma copied_rows half (heads : list (list (list Z))) out :
  Forall (λ hd, length hd = (2 * half)%nat) heads → length out = (length heads * (2 * half))%nat →
  (∀ k s, (s, k) ∈ qk_copies (length heads) (2 * half) half → out !! k = mjoin (interleave half <$> heads) !! s) →
  out = mjoin heads.
Proof.
  intros Hlen Hol Hout. apply list_eq. intros k. destruct (decide (k < length out)%nat) as [Hk|Hk].
  - assert (half ≠ 0)%nat as Hne by (intros ->; lia).
    set (h := (k / (2 * half))%nat). set (j := (k mod (2 * half))%nat).
    assert (k = h * (2 * half) + j)%nat as Hkeq by (unfold h, j; rewrite (Nat.mul_comm _ (2 * half)); apply Nat.div_mod; lia).
    assert (j < 2 * half)%nat as Hj by (apply Nat.mod_upper_bound; lia).
    assert (h < length heads)%nat as Hh by nia.
    destruct (lookup_lt_is_Some_2 heads h Hh) as [head Hhead].
    assert (length head = (2 * half)%nat) as Hhl by (by eapply (Forall_lookup_1 _ _ _ _ Hlen)).
    destruct (lookup_lt_is_Some_2 head j) as [r Hr]; [lia |].
    assert (mjoin heads !! k = Some r) as ->.
    { rewrite Hkeq, join_lookup_Some_same_length' by done. eauto. }
    destruct (decide (j < half)%nat) as [Hlo|Hhi].
    + rewrite (Hout k (h * (2 * half) + 2 * j)%nat).
      * by rewrite (proj1 (interleaved_row half h j heads head Hlen Hhead Hlo)).
      * apply elem_of_qk_copies. exists h, j. split; [lia |]. left. by rewrite Hkeq.
    + rewrite (Hout k (h * (2 * half) + (2 * (j - half) + 1))%nat).
      * rewrite (proj2 (interleaved_row half h (j - half) heads head Hlen Hhead ltac:(lia))).
        by replace (half + (j - half))%nat with j by lia.
      * apply elem_of_qk_copies. exists h, (j - half)%nat. split; [lia |]. right. f_equal. lia.
  - rewrite !lookup_ge_None_2; [done | rewrite (length_mjoin (2 * half)) by done; lia | lia].
Qed.

(** [reverse_qk_permutation] undoes the interleaving of a GGUF file: for
    any heads of an even number of rows, applied to the rows in which the two
    halves of every head are interleaved it returns the rows in their original
    order, without going out of range. *)
Theorem reverse_qk_roundtrip (heads : list (list (list Z))) half hidden :
  0 ≤ hidden → in_width 64 (2 * Z.of_nat half * (hidden * 2)) → in_width 64 (hidden * 2) →
  Forall (λ hd, length hd = (2 * half)%nat ∧ Forall (λ r, length r = Z.to_nat (hidden * 2)) hd) heads →
  reverse_qk_permutation (mjoin (mjoin (interleave half <$> heads))) (Z.of_nat (length heads))
    (2 * Z.of_nat half) hidden = Ok (mjoin (mjoin heads)).
Proof.
  intros Hh0 Hw Hw2 Hheads. set (v := Z.to_nat (hidden * 2)). set (nh := length heads).
  assert (Forall (λ hd, length hd = (2 * half)%nat) heads) as Hlen by (eapply Forall_impl; [exact Hheads | by intros ? []]).
  set (data := mjoin (interleave half <$> heads)).
  assert (length data = (nh * (2 * half))%nat) as Hdl.
  { unfold data. rewrite (length_mjoin (2 * half)); [by rewrite length_fmap |]. apply Forall_fmap.
    eapply Forall_impl; [exact Hlen |]. intros l. apply length_interleave. }
  assert (Forall (λ l, length l = v) data) as Hrows.
  { apply Forall_forall. intros r Hr. apply list_elem_of_join in Hr as (l & Hr & (hd & -> & Hhd)%list_elem_of_fmap).
    rewrite Forall_forall in Hheads. destruct (Hheads hd Hhd) as [_ Hhr]. rewrite Forall_forall in Hhr. apply Hhr.
    apply list_elem_of_join in Hr as (p & Hr & Hp). apply list_elem_of_lookup in Hp as [k (a & b & -> & Ha & Hb)%lookup_zip_with_Some].
    apply list_elem_of_lookup_2, subseteq_take in Ha. apply list_elem_of_lookup_2, subseteq_drop in Hb. set_solver. }
  rewrite (reverse_qk_copies _ _ _ _ (hidden * 2)); [| lia | by unfold umul; rewrite checked_Ok | done].
  rewrite (length_mjoin v data Hrows), Hdl, <- mjoin_replicate. rewrite Nat2Z.id. fold nh.
  replace (2 * Z.of_nat half / 2) with (Z.of_nat half) by (rewrite Z.mul_comm, Z.div_mul; lia). rewrite Nat2Z.id.
  replace (Z.to_nat (2 * Z.of_nat half)) with (2 * half)%nat by lia. fold v.
  destruct (copies_rows v data (replicate (nh * (2 * half)) (replicate v 0)) (qk_copies nh (2 * half) half))
    as (out & -> & Hol & _ & Hout).
  { done. }
  { apply Forall_replicate, length_replicate. }
  { apply Forall_forall. intros p (h & i & [Hh Hi] & Hp)%elem_of_qk_copies. rewrite Hdl, length_replicate.
    destruct Hp as [-> | ->]; simpl; nia. }
  f_equal. f_equal. rewrite length_replicate in Hol. apply (copied_rows half); [done | done |].
  intros k s Hs. apply Hout; [done |]. intros s' Hs'. by eapply qk_copies_unique.
Qed.

(** ** Loading *)

Definition field (lw : LayerWeights) (f : Field) : DeviceTensor :=
  match f with
  | FQ => q_proj lw | FK => k_proj lw | FV => v_proj lw | FO => o_proj lw | FGate => gate_proj lw
  | FUp => up_proj lw | FDown => down_proj lw | FAttnNorm => attn_norm lw | FFfnNorm => ffn_norm lw
  end.
Definition layer_tensors (lw : LayerWeights) : list DeviceTensor := field lw <$> layer_fields.
Definition store_tensors (ws : WeightStore) : list DeviceTensor :=
  mjoin (layer_tensors <$> layers ws) ++ [lm_head ws; output_norm ws; token_embedding ws].

Lemma build_Ok b lw : build b = Ok lw → ∀ f, b f = Some (field lw f).
Proof.
  unfold build, require. intros Hb f.
  destruct (b FQ) eqn:?, (b FK) eqn:?, (b FV) eqn:?, (b FO) eqn:?, (b FGate) eqn:?, (b FUp) eqn:?, (b FDown) eqn:?,
    (b FAttnNorm) eqn:?, (b FFfnNorm) eqn:?; try done. injection Hb as <-. by destruct f.
Qed.

Section loading.
Context {D : Type} `{BackendLaws D}.
Variable f16_from_f32 : f32 → Z.
Variable bf16_to_f32 : Z → f32.
Variable gguf : GgufHeader.
Variable mmap : list Z.
Implicit Types d : D.

(** Tensor [t] has the shape of [info] and its rows are made of [bytes]. *)
Definition holds d (info : TensorInfo) (bytes : list Z) (t : DeviceTensor) : Prop :=
  shape t = ti_shape info ∧ ∃ n, size_bytes t = Ok n ∧ n ≤ Z.of_nat (length bytes) ∧
    t_rows d t = chunk_rows (Z.to_nat (default 0 (head (ti_shape info)))) (take (Z.to_nat n) bytes).

(** [t] is the device copy of the file's tensor [info]. *)
Definition uploaded d (info : TensorInfo) (t : DeviceTensor) : Prop :=
  ∃ s, tensor_bytes info mmap (tensor_data_offset gguf) = Ok s ∧ dtype t = device_dtype (ti_dtype info) ∧
    holds d info (host_bytes f16_from_f32 bf16_to_f32 (ti_dtype info) s) t.
(** [t] is the device copy of a query or key projection of [nh] heads: when the
    file has 16-bit floats and interleaves the two halves of each head, [t]
    holds the heads' rows in their original order. *)
Definition uploaded_qk d (nh : Z) (info : TensorInfo) (t : DeviceTensor) : Prop :=
  ∃ s, tensor_bytes info mmap (tensor_data_offset gguf) = Ok s ∧ dtype t = FP16 ∧ shape t = ti_shape info ∧
    ∀ heads half hidden, ti_dtype info = FP16 → ti_shape info !! 1%nat = Some hidden → head_dim (config gguf) = 2 * Z.of_nat half →
      nh = Z.of_nat (length heads) →
      Forall (λ hd, length hd = (2 * half)%nat ∧ Forall (λ r, length r = Z.to_nat (hidden * 2)) hd) heads →
      s = mjoin (mjoin (interleave half <$> heads)) → holds d info (mjoin (mjoin heads)) t.
Definition uploaded_field d (f : Field) (info : TensorInfo) (t : DeviceTensor) : Prop :=
  match f with
  | FQ => uploaded_qk d (num_q_heads (config gguf)) info t
  | FK => uploaded_qk d (num_kv_heads (config gguf)) info t
  | _ => uploaded d info t
  end.

(** The layer's field [f] was loaded from the file. *)
Definition from_file d (i : Z) (f : Field) (t : DeviceTensor) : Prop :=
  ∃ info, tensor_map (tensors gguf) !! layer_name i f = Some info ∧ uploaded_field d f info t.
Definition global_from_file d (name : string) (t : DeviceTensor) : Prop :=
  ∃ info, tensor_map (tensors gguf) !! name = Some info ∧ uploaded d info t.

Lemma holds_rows d d' info bytes t : t_rows d' t = t_rows d t → holds d info bytes t → holds d' info bytes t.
Proof. unfold holds. by intros ->. Qed.

Lemma uploaded_rows d d' info t : t_rows d' t = t_rows d t → uploaded d info t → uploaded d' info t.
Proof. intros Hr (s & Hs & Hdt & Hh). exists s. split_and!; [done | done |]. by eapply holds_rows. Qed.

Lemma from_file_rows d d' i f t : t_rows d' t = t_rows d t → from_file d i f t → from_file d' i f t.
Proof.
  intros Hr (info & Hi & Hu). exists info. split; [done |].
  destruct f; try (by eapply uploaded_rows); destruct Hu as (s & ? & ? & ? & Hu);
    exists s; split_and!; try done; intros heads half hidden **; (eapply holds_rows; [done |]; by eapply (Hu heads half hidden)).
Qed.

Lemma upload_tensor_Ok info d d' t :
  upload_tensor f16_from_f32 bf16_to_f32 info mmap (tensor_data_offset gguf) d = (d', Ok t) →
  alloced d d' [t] ∧ uploaded d' info t.
Proof.
  unfold upload_tensor. intros (d1 & s & [= -> Hs] & (Ha & Hsh & Hdt & Hrows)%alloc_fill_Ok)%sbind_Ok.
  split; [done |]. exists s. by split_and!.
Qed.

Lemma upload_qk_Ok info nh d d' t :
  upload_qk_tensor info mmap (tensor_data_offset gguf) nh (head_dim (config gguf)) d = (d', Ok t) →
  alloced d d' [t] ∧ uploaded_qk d' nh info t.
Proof.
  unfold upload_qk_tensor.
  intros (d1 & s & [= -> Hs] & (d2 & h & [= -> Hh%index_Ok] & (d3 & fx & [= -> Hf] & (Ha & Hsh & Hdt & Hrows)%alloc_fill_Ok)
    %sbind_Ok)%sbind_Ok)%sbind_Ok.
  split; [done |]. exists s. split_and!; [done | done | done |]. intros heads half hidden _ Hhid Hhd -> Hheads ->.
  rewrite Hh in Hhid. injection Hhid as ->. rewrite Hhd in Hf. pose proof Hf as (rb & [-> Hw1]%checked_inv & (hb & [_ Hw2]%checked_inv & _)%rbind_Ok)%rbind_Ok.
  rewrite reverse_qk_roundtrip in Hf by (done || (unfold in_width in *; lia)). injection Hf as <-. done.
Qed.

Lemma upload_field_Ok f info d d' t :
  upload_field f16_from_f32 bf16_to_f32 gguf mmap f info d = (d', Ok t) → alloced d d' [t] ∧ uploaded_field d' f info t.
Proof.
  destruct f; first [apply upload_qk_Ok | apply upload_tensor_Ok].
Qed.

Lemma load_required_Ok name d d' t :
  load_required f16_from_f32 bf16_to_f32 gguf mmap name d = (d', Ok t) → alloced d d' [t] ∧ global_from_file d' name t.
Proof.
  unfold load_required, global_from_file. destruct (tensor_map _ !! name) as [info|]; [| done].
  intros [? ?]%upload_tensor_Ok. eauto.
Qed.

(** The uploads [ups] of one layer. *)
Lemma load_fields_Ok i fs b d d' b' :
  NoDup fs → load_fields f16_from_f32 bf16_to_f32 gguf mmap i fs b d = (d', Ok b') →
  ∃ ups, alloced d d' ups.*2 ∧ NoDup ups.*1 ∧ (∀ f, f ∈ ups.*1 → f ∈ fs) ∧
    (∀ f t, (f, t) ∈ ups → from_file d' i f t) ∧
    ∀ f t, b' f = Some t → (f, t) ∈ ups ∨ (f ∉ ups.*1 ∧ b f = Some t).
Proof.
  revert b d. induction fs as [|f fs IH]; intros b d Hnd; cbn [load_fields].
  { intros [= <- <-]. exists []. split_and!; [apply alloced_refl | constructor | set_solver | set_solver |].
    intros f t Hf. right. split; [set_solver | done]. }
  apply NoDup_cons in Hnd as [Hf Hnd]. destruct (tensor_map (tensors gguf) !! layer_name i f) as [info|] eqn:Hi.
  - intros (d1 & t & [Ha1 Hu]%upload_field_Ok & Hrest)%sbind_Ok.
    destruct (IH _ _ Hnd Hrest) as (ups & Ha2 & Hn & Hsub & Hfile & Hb).
    destruct (alloced_app _ _ _ _ _ Ha1 Ha2) as [Ha Hrows].
    exists ((f, t) :: ups). split_and!.
    + eapply alloced_perm; [| exact Ha]. csimpl. by rewrite Permutation_app_comm.
    + csimpl. constructor; [| done]. intros Hin. by apply Hf, Hsub.
    + csimpl. set_solver.
    + intros g u [[= -> ->]|Hin]%elem_of_cons; [| by apply Hfile].
      apply (from_file_rows d1); [apply Hrows; left |]. by exists info.
    + intros g u Hg. destruct (Hb g u Hg) as [Hin|[Hno Hset]]; [left; by right |].
      unfold setter in Hset. destruct (decide (g = f)) as [->|Hgf]; [injection Hset as ->; left; left |].
      right. split; [csimpl; set_solver | done].
  - intros Hrest. destruct (IH _ _ Hnd Hrest) as (ups & Ha & Hn & Hsub & Hfile & Hb).
    exists ups. split_and!; try done. set_solver.
Qed.

Lemma layer_fields_all f : f ∈ layer_fields.
Proof. destruct f; unfold layer_fields; set_solver. Qed.
Lemma layer_fields_NoDup : NoDup layer_fields.
Proof. unfold layer_fields. decide_now. Qed.

(** A layer that could be built has one fresh tensor per field. *)
Lemma load_layer_Ok i d d' b lw :
  load_fields f16_from_f32 bf16_to_f32 gguf mmap i layer_fields builder_new d = (d', Ok b) → build b = Ok lw →
  alloced d d' (layer_tensors lw) ∧ ∀ f, from_file d' i f (field lw f).
Proof.
  intros Hl Hbuild. pose proof (build_Ok _ _ Hbuild) as Hb. apply load_fields_Ok in Hl as (ups & Ha & Hn & _ & Hfile & Hups); [| apply layer_fields_NoDup].
  assert (∀ f, (f, field lw f) ∈ ups) as Hall.
  { intros f. by destruct (Hups f _ (Hb f)) as [|[_ ?]]. }
  split; [| intros f; by apply Hfile]. eapply alloced_perm; [| exact Ha].
  assert (ups ≡ₚ (λ f, (f, field lw f)) <$> layer_fields) as ->.
  { apply NoDup_Permutation; [by eapply NoDup_fmap_1 | apply NoDup_fmap; [by intros ?? [= ->] | apply layer_fields_NoDup] |].
    intros [f t]. rewrite list_elem_of_fmap. split.
    - intros Hin. exists f. split; [| apply layer_fields_all]. f_equal.
      apply list_elem_of_lookup in Hin as [j Hj]. specialize (Hall f). apply list_elem_of_lookup in Hall as [k Hk].
      assert (j = k) as ->; [| congruence].
      eapply (NoDup_lookup ups.*1 j k f); [done | |]; rewrite list_lookup_fmap; [by rewrite Hj | by rewrite Hk].
    - intros (g & [= -> ->] & _). apply Hall. }
  unfold layer_tensors. by rewrite <- list_fmap_compose.
Qed.

Lemma load_layers_Ok idxs d d' bs ls :
  load_builders f16_from_f32 bf16_to_f32 gguf mmap idxs d = (d', Ok bs) → rmapM build bs = Ok ls →
  alloced d d' (mjoin (layer_tensors <$> ls)) ∧
  Forall2 (λ i lw, ∀ f, from_file d' i f (field lw f)) idxs ls.
Proof.
  revert d bs ls. induction idxs as [|i idxs IH]; intros d bs ls; cbn [load_builders].
  { intros [= <- <-] [= <-]. split; [apply alloced_refl | constructor]. }
  intros (d1 & b & Hb & (d2 & bs' & Hbs & [= <- <-])%sbind_Ok)%sbind_Ok. cbn [rmapM].
  intros (lw & Hlw & (ls' & Hls & [= <-])%rbind_Ok)%rbind_Ok.
  destruct (load_layer_Ok _ _ _ _ _ Hb Hlw) as [Ha1 Hf1]. destruct (IH _ _ _ Hbs Hls) as [Ha2 Hf2].
  destruct (alloced_app _ _ _ _ _ Ha1 Ha2) as [Ha Hrows]. split.
  - eapply alloced_perm; [| exact Ha]. csimpl. by rewrite Permutation_app_comm.
  - constructor; [| done]. intros f. apply (from_file_rows d1); [| done]. apply Hrows.
    unfold layer_tensors. apply list_elem_of_fmap. exists f. split; [done | apply layer_fields_all].
Qed.

(** C36: a load that succeeds puts every weight where the engine looks for it:
    one device tensor of its own for each global tensor and for each field of
    each layer of the range, allocated since the start and nothing else left
    allocated.  Each has the shape of the file's tensor of that name.  All but
    the query and key projections hold the file's bytes, converted to 16-bit
    floats from 32-bit and bfloat16 ones.  A query or key projection is labelled
    FP16; when the file stores it as FP16, with the two halves of each head's
    rows interleaved, the device holds the rows in their original order.  (For
    the other types these two are not converted, [qk_upload_ignores_dtype].) *)
Theorem load_spec layer_range d d' ws :
  load f16_from_f32 bf16_to_f32 gguf mmap layer_range d = (d', Ok ws) →
  let range := default {| rstart := 0; rend := num_layers (config gguf) |} layer_range in
  rstart range ≤ rend range ≤ num_layers (config gguf) ∧ ws_config ws = config gguf ∧
  alloced d d' (store_tensors ws) ∧
  global_from_file d' "token_embd.weight" (token_embedding ws) ∧
  global_from_file d' "output_norm.weight" (output_norm ws) ∧
  global_from_file d' "output.weight" (lm_head ws) ∧
  Z.of_nat (length (layers ws)) = rend range - rstart range ∧
  ∀ i lw, layers ws !! i = Some lw → ∀ f, from_file d' (rstart range + Z.of_nat i) f (field lw f).
Proof.
  unfold load. intros Hload. set (range := default _ layer_range) in *. cbv zeta. destruct (Z.ltb_spec (num_layers (config gguf)) (rend range)) as [|Hend]; [done |].
  apply sbind_Ok in Hload as (d1 & te & [Ha1 Hg1]%load_required_Ok & Hload).
  apply sbind_Ok in Hload as (d2 & on & [Ha2 Hg2]%load_required_Ok & Hload).
  apply sbind_Ok in Hload as (d3 & lh & [Ha3 Hg3]%load_required_Ok & Hload).
  apply sbind_Ok in Hload as (? & n & [= <- Hn%checked_inv] & Hload). destruct Hn as [-> [Hn _]].
  apply sbind_Ok in Hload as (d4 & bs & Hbs & (? & ls & [= <- Hls] & [= <- <-])%sbind_Ok).
  destruct (load_layers_Ok _ _ _ _ _ Hbs Hls) as [Ha4 Hf4].
  destruct (alloced_app _ _ _ _ _ Ha1 Ha2) as [Ha12 Hr12]. destruct (alloced_app _ _ _ _ _ Ha12 Ha3) as [Ha123 Hr123].
  destruct (alloced_app _ _ _ _ _ Ha123 Ha4) as [Ha Hr]. cbn [app] in *.
  assert (∀ name t d, global_from_file d name t → t_rows d4 t = t_rows d t → global_from_file d4 name t) as Hkeep.
  { intros name t d0 (info & Hi & Hu) Hrt. exists info. split; [done | by eapply uploaded_rows]. }
  split_and!; [lia | lia | done | exact Ha | | | | |].
  - apply (Hkeep _ _ _ Hg1). by rewrite Hr, Hr123, Hr12 by set_solver.
  - apply (Hkeep _ _ _ Hg2). by rewrite Hr, Hr123 by set_solver.
  - apply (Hkeep _ _ _ Hg3). by rewrite Hr by set_solver.
  - apply Forall2_length in Hf4. rewrite length_fmap, length_seq in Hf4. cbn [layers]. lia.
  - cbn [layers]. intros i lw Hlw f. destruct (Forall2_lookup_r _ _ _ _ _ Hf4 Hlw) as (j & Hj & Hfile).
    rewrite list_lookup_fmap in Hj. destruct (seq 0 _ !! i) as [k|] eqn:Hk; [| done].
    apply lookup_seq in Hk as [-> _]. injection Hj as <-. apply Hfile.
Qed.
End loading.

(** ** Examples *)

Module WeightExample.
(** Conversions of the number one, enough for the examples. *)
Definition to_f16 (x : f32) : Z := if feq x f32_one then 0x3C00 else 0.
Definition of_bf16 (b : Z) : f32 := f32_from_bits (b * 65536).

Definition cfg : ModelConfig :=
  {| hidden_size := 2; num_layers := 1; num_q_heads := 1; num_kv_heads := 1; head_dim := 2; intermediate_size := 2;
     vocab_size := 2; rope_theta := f32_one; rms_norm_eps := f32_one; max_seq_len := 8 |}.
Definition info (name : string) (dt : DType) : TensorInfo :=
  {| ti_name := name; ti_shape := [2; 1]; ti_dtype := dt; offset := 0; gguf_dtype := 0 |}.
(** Two numbers as BF16: 1.0 and 1.0 *)
Definition ones_bf16 : list Z := [0x80; 0x3F; 0x80; 0x3F].
Definition gguf (dt : DType) : GgufHeader :=
  {| config := cfg; metadata := ∅;
     tensors := (λ n, info n dt) <$> (["token_embd.weight"; "output_norm.weight"; "output.weight"] ++
                                       (layer_name 0 <$> layer_fields));
     tensor_data_offset := 0 |}.
Definition device : SimDevice := {| sim_mem := ∅; sim_room := 20 |}.
Definition loaded := load to_f16 of_bf16 (gguf FP16) [1; 2; 3; 4] None device.
Definition get (r : result WeightStore) : WeightStore :=
  match r with
  | Ok ws => ws
  | _ => let t := {| tensor_id := 0; shape := []; dtype := FP16 |} in
         {| ws_config := cfg; token_embedding := t; layers := []; output_norm := t; lm_head := t |}
  end.
End WeightExample.
Import WeightExample.

(** Query and key projections are uploaded as if they were 16-bit IEEE
    floats: a BF16 tensor of ones is converted when it is a value projection
    (bits 3C00), but its bits are kept when it is a query projection, where
    the device reads them as 1.875; and a tensor whose offset overflows the
    address space makes the load panic although the parser accepted it. *)
Theorem qk_upload_ignores_dtype :
  (∃ d t, upload_tensor to_f16 of_bf16 (info "v" BF16) ones_bf16 0 device = (d, Ok t) ∧ dtype t = FP16 ∧
     t_rows d t = [[0x00; 0x3C]; [0x00; 0x3C]]) ∧
  (∃ d t, upload_qk_tensor (info "q" BF16) ones_bf16 0 1 2 device = (d, Ok t) ∧ dtype t = FP16 ∧
     t_rows d t = [[0x80; 0x3F]; [0x80; 0x3F]]) ∧
  (upload_tensor to_f16 of_bf16
     {| ti_name := "v"; ti_shape := [2; 1]; ti_dtype := FP16; offset := 2 ^ 64 - 1; gguf_dtype := 1 |} ones_bf16 32 device).2
    = Panic.
Proof.
  split; [| split].
  - eexists _, _. split; [vm_compute; reflexivity |]. split; vm_compute; reflexivity.
  - eexists _, _. split; [vm_compute; reflexivity |]. split; vm_compute; reflexivity.
  - vm_compute. reflexivity.
Qed.

Module WeightWitness.
Lemma reverse_qk_witness :
  reverse_qk_permutation (mjoin (M:=list) (mjoin (M:=list) (interleave 1 <$> [[[1; 2]; [3; 4]]; [[5; 6]; [7; 8]]]))) 2 2 1 =
  Ok (mjoin (M:=list) (mjoin (M:=list) [[[1; 2]; [3; 4]]; [[5; 6]; [7; 8]]])).
Proof.
  apply (reverse_qk_roundtrip [[[1; 2]; [3; 4]]; [[5; 6]; [7; 8]]] 1 1); [lia | done | done |].
  forall_list; (split; [reflexivity | forall_list]).
Defined.

Lemma load_spec_witness :
  alloced device loaded.1 (store_tensors (get loaded.2)) ∧
  ∃ lw, layers (get loaded.2) !! 0%nat = Some lw ∧
    from_file to_f16 of_bf16 (gguf FP16) [1; 2; 3; 4] loaded.1 0 FQ (field lw FQ).
Proof.
  assert (loaded = (loaded.1, Ok (get loaded.2))) as Hrun by (vm_compute; reflexivity).
  destruct (load_spec to_f16 of_bf16 (gguf FP16) [1; 2; 3; 4] None device loaded.1 (get loaded.2) Hrun)
    as (_ & _ & Ha & _ & _ & _ & _ & Hf).
  split; [exact Ha |]. eexists. split; [vm_compute; reflexivity |]. refine (Hf 0%nat _ _ FQ). vm_compute. reflexivity.
Defined.
End WeightWitness.
