(* ===== verification/Transformer.v ===== *)
(** * The transformer's phases and what they compute

    The steps that the forward passes of [crates/fracture-engine/src/engine.rs]
    and [batched.rs] share: the scratch tensors, the kernels of one layer and
    the output head.  The second half is the reference the passes are proved
    against, a transformer on rows, and a way to follow the contents of the
    scratch tensors from kernel to kernel. *)

From S2P Require Import Prelude F32 Core Backend Kernels PagedCache LayerScheduler WeightStore.

(** [DeviceTensor::new(t.id, sh, FP16)]: another view of the same memory. *)
Definition view (t : DeviceTensor) (sh : list Z) : DeviceTensor := {| tensor_id := tensor_id t; shape := sh; dtype := FP16 |}.

Record Scratch := {
  normed : DeviceTensor; q_flat : DeviceTensor; k_flat : DeviceTensor; v_flat : DeviceTensor; attn_out_mh : DeviceTensor;
  projected : DeviceTensor; gate : DeviceTensor; up : DeviceTensor; ffn_mid : DeviceTensor; ffn_out : DeviceTensor
}.
Definition scratch_list (sc : Scratch) : list DeviceTensor :=
  [normed sc; q_flat sc; k_flat sc; v_flat sc; attn_out_mh sc; projected sc; gate sc; up sc; ffn_mid sc; ffn_out sc].

(** [chunks_exact(2)] *)
Fixpoint pairs (l : list Z) : list (Z * Z) :=
  match l with a :: b :: l' => (a, b) :: pairs l' | _ => [] end.

Section phases.
Context {D : Type} `{KernelOps D}.
(** [half::f16::from_bits(b).to_f32()] *)
Variable from_f16 : Z → f32.
Variable cfg : ModelConfig.

Definition alloc_scratch (seq_len : nat) : st D Scratch :=
  let n := Z.of_nat seq_len in
  let kv := umul (num_kv_heads cfg) (head_dim cfg) in
  do! normed := b_alloc [n; hidden_size cfg] FP16 in
  do! q_flat := b_alloc [n; hidden_size cfg] FP16 in
  do! kw := slift kv in
  do! k_flat := b_alloc [n; kw] FP16 in
  do! vw := slift kv in
  do! v_flat := b_alloc [n; vw] FP16 in
  do! attn_out_mh := b_alloc [n; hidden_size cfg] FP16 in
  do! projected := b_alloc [n; hidden_size cfg] FP16 in
  do! gate := b_alloc [n; intermediate_size cfg] FP16 in
  do! up := b_alloc [n; intermediate_size cfg] FP16 in
  do! ffn_mid := b_alloc [n; intermediate_size cfg] FP16 in
  do! ffn_out := b_alloc [n; hidden_size cfg] FP16 in
  sret {| normed := normed; q_flat := q_flat; k_flat := k_flat; v_flat := v_flat; attn_out_mh := attn_out_mh;
          projected := projected; gate := gate; up := up; ffn_mid := ffn_mid; ffn_out := ffn_out |}.

Section layer.
Variables (w : LayerWeights) (hidden_state : DeviceTensor) (sc : Scratch) (seq_len : nat).
Let n := Z.of_nat seq_len.

Definition q_mh : DeviceTensor := view (q_flat sc) [n; num_q_heads cfg; head_dim cfg].
Definition k_mh : DeviceTensor := view (k_flat sc) [n; num_kv_heads cfg; head_dim cfg].
Definition v_mh : DeviceTensor := view (v_flat sc) [n; num_kv_heads cfg; head_dim cfg].
Definition attn_out : DeviceTensor := view (attn_out_mh sc) [n; num_q_heads cfg; head_dim cfg].
Definition attn_out_flat : DeviceTensor := view (attn_out_mh sc) [n; hidden_size cfg].

Definition ph_attn_norm : st D unit := b_rmsnorm hidden_state (attn_norm w) (rms_norm_eps cfg) (normed sc).
Definition ph_qkv : st D unit :=
  do! _ := b_matmul (normed sc) (q_proj w) (q_flat sc) in
  do! _ := b_matmul (normed sc) (k_proj w) (k_flat sc) in
  b_matmul (normed sc) (v_proj w) (v_flat sc).
Definition ph_rope (positions : list Z) : st D unit := b_rope q_mh k_mh positions (rope_theta cfg) (head_dim cfg).
Definition ph_output_proj : st D unit := b_matmul attn_out_flat (o_proj w) (projected sc).
Definition ph_attn_residual : st D unit := b_add hidden_state (projected sc) hidden_state.
Definition ph_ffn_norm : st D unit := b_rmsnorm hidden_state (ffn_norm w) (rms_norm_eps cfg) (normed sc).
Definition ph_gate_up : st D unit :=
  do! _ := b_matmul (normed sc) (gate_proj w) (gate sc) in b_matmul (normed sc) (up_proj w) (up sc).
Definition ph_silu_mul : st D unit := b_silu_mul (gate sc) (up sc) (ffn_mid sc).
Definition ph_down : st D unit := b_matmul (ffn_mid sc) (down_proj w) (ffn_out sc).
Definition ph_ffn_residual : st D unit := b_add hidden_state (ffn_out sc) hidden_state.

(** Up to the attention, and from its output on. *)
Definition pre_attention (positions : list Z) : st D unit :=
  do! _ := ph_attn_norm in
  do! _ := ph_qkv in
  ph_rope positions.
Definition post_attention : st D unit :=
  do! _ := ph_output_proj in
  do! _ := ph_attn_residual in
  do! _ := ph_ffn_norm in
  do! _ := ph_gate_up in
  do! _ := ph_silu_mul in
  do! _ := ph_down in
  ph_ffn_residual.
End layer.

Definition decode_logits (bytes : list Z) : list f32 := (λ '(a, b), from_f16 (from_le_bytes [a; b])) <$> pairs bytes.

(** The logits of the row [last_hidden], with the tensor they are computed in. *)
Definition lm_logits (ws : WeightStore) (last_hidden : DeviceTensor) : st D (DeviceTensor * list f32) :=
  do! logits_tensor := b_alloc [1%Z; vocab_size cfg] FP16 in
  do! _ := b_matmul last_hidden (lm_head ws) logits_tensor in
  do! len := slift (umul (vocab_size cfg) 2) in
  do! logits_fp16 := b_copy_to_host logits_tensor (Z.to_nat len) in
  sret (logits_tensor, decode_logits logits_fp16).
End phases.

(** ** The reference: a transformer on rows

    Everything but attention is done row by row.  [enc] is what the cache
    keeps of a key and a value, [att] what attention computes of a query and the
    entries up to its position; [W] are the rows of a layer's weights. *)

(** The rows of a layer's weights. *)
Record LayerRows := {
  q_rows : list Row; k_rows : list Row; v_rows : list Row; o_rows : list Row; gate_rows : list Row; up_rows : list Row;
  down_rows : list Row; attn_norm_rows : list Row; ffn_norm_rows : list Row
}.
Definition rows_of (W : LayerRows) (f : Field) : list Row :=
  match f with
  | FQ => q_rows W | FK => k_rows W | FV => v_rows W | FO => o_rows W | FGate => gate_rows W | FUp => up_rows W
  | FDown => down_rows W | FAttnNorm => attn_norm_rows W | FFfnNorm => ffn_norm_rows W
  end.
Coercion rows_of : LayerRows >-> Funclass.

Section reference.
Context {D : Type} `{KernelOps D}.
Variable cfg : ModelConfig.
Variable from_f16 : Z → f32.
Notation eps := (rms_norm_eps cfg).

Definition ref_norm (W : LayerRows) (h : Row) : Row := k_rmsnorm (D := D) (W FAttnNorm) eps h.
Definition ref_rope (p : Z) (r : Row) : Row := k_rope (D := D) (rope_theta cfg) (head_dim cfg) p r.
Definition ref_q (W : LayerRows) (p : Z) (h : Row) : Row := ref_rope p (k_matmul (D := D) (W FQ) (ref_norm W h)).
Definition ref_k (W : LayerRows) (p : Z) (h : Row) : Row := ref_rope p (k_matmul (D := D) (W FK) (ref_norm W h)).
Definition ref_v (W : LayerRows) (h : Row) : Row := k_matmul (D := D) (W FV) (ref_norm W h).
Definition ref_out (W : LayerRows) (a h : Row) : Row :=
  let h1 := k_add (D := D) h (k_matmul (D := D) (W FO) a) in
  let x := k_rmsnorm (D := D) (W FFfnNorm) eps h1 in
  k_add (D := D) h1 (k_matmul (D := D) (W FDown) (k_silu_mul (D := D) (k_matmul (D := D) (W FGate) x) (k_matmul (D := D) (W FUp) x))).

Section layers.
Context {E : Type} (enc : nat → Row → Row → E) (att : nat → list E → Row → Row).

(** The entries of new tokens. *)
Definition ref_new (W : LayerRows) (l : nat) (ps : list Z) (hs : list Row) : list E :=
  zip_with (λ p h, enc l (ref_k W p h) (ref_v W h)) ps hs.
Definition ref_layer (W : LayerRows) (l : nat) (es : list E) (ps : list Z) (hs : list Row) : list Row :=
  zip_with (ref_out W) (imap (λ i q, att l (window (length es) i (es ++ ref_new W l ps hs)) q) (zip_with (ref_q W) ps hs)) hs.

(** The layers from [l] on, on the entries of each layer. *)
Fixpoint ref_layers (Ws : list LayerRows) (l : nat) (ess : list (list E)) (ps : list Z) (hs : list Row)
    : list Row * list (list E) :=
  match Ws, ess with
  | W :: Ws', es :: ess' =>
      let '(hs', ess'') := ref_layers Ws' (S l) ess' ps (ref_layer W l es ps hs) in (hs', (es ++ ref_new W l ps hs) :: ess'')
  | _, _ => (hs, ess)
  end.
End layers.

(** The logits of a last row. *)
Definition ref_logits (Wn Wl : list Row) (h : Row) : list f32 :=
  decode_logits from_f16 (k_matmul (D := D) Wl (k_rmsnorm (D := D) Wn eps h)).
End reference.

(** ** Following the scratch tensors *)

Inductive Buf := BHidden | BNormed | BQ | BK | BV | BAttn | BProj | BGate | BUp | BMid | BOut.
#[export] Instance Buf_eq_dec : EqDecision Buf.
Proof. solve_decision. Defined.
Definition all_bufs : list Buf := [BHidden; BNormed; BQ; BK; BV; BAttn; BProj; BGate; BUp; BMid; BOut].

Definition buf (hidden_state : DeviceTensor) (sc : Scratch) (b : Buf) : DeviceTensor :=
  match b with
  | BHidden => hidden_state | BNormed => normed sc | BQ => q_flat sc | BK => k_flat sc | BV => v_flat sc
  | BAttn => attn_out_mh sc | BProj => projected sc | BGate => gate sc | BUp => up sc | BMid => ffn_mid sc | BOut => ffn_out sc
  end.

(** The shapes of the scratch tensors and of the weights. *)
Definition buf_width (cfg : ModelConfig) (b : Buf) : Z :=
  match b with
  | BK | BV => num_kv_heads cfg * head_dim cfg
  | BGate | BUp | BMid => intermediate_size cfg
  | _ => hidden_size cfg
  end%Z.
Definition field_shape (cfg : ModelConfig) (f : Field) : list Z :=
  match f with
  | FQ | FO => [hidden_size cfg; hidden_size cfg]
  | FK | FV => [num_kv_heads cfg * head_dim cfg; hidden_size cfg]
  | FGate | FUp => [intermediate_size cfg; hidden_size cfg]
  | FDown => [hidden_size cfg; intermediate_size cfg]
  | FAttnNorm | FFfnNorm => [hidden_size cfg]
  end%Z.

(** Contents of the scratch tensors, with one replaced. *)
Definition upd (b : Buf) (rows : list Row) (e : Buf → list Row) : Buf → list Row :=
  λ b', if decide (b' = b) then rows else e b'.

Section memory.
Context {D : Type} `{KernelLaws D} `{!BackendLaws D}.
Implicit Types d : D.
Variables (cfg : ModelConfig) (n : nat) (hidden_state : DeviceTensor) (sc : Scratch).
(** Tensors that are not the cache's; the device after the allocations. *)
Variables (O : Z → Prop) (d0 : D).
Notation t := (buf hidden_state sc).

Record bufs_ok : Prop := {
  bo_live : ∀ b, t_live d0 (t b);
  bo_inj : ∀ b b', tensor_id (t b) = tensor_id (t b') → b = b';
  bo_shape : ∀ b, shape (t b) = [Z.of_nat n; buf_width cfg b] ∧ dtype (t b) = FP16;
  bo_outside : ∀ b, O (tensor_id (t b))
}.

(** [X] are tensors in use for a moment; [e] is what the scratch tensors hold;
    the rest is as on [d0]. *)
Record mem (X : gset Z) (e : Buf → list Row) d : Prop := {
  m_live : b_live d = X ∪ b_live d0;
  m_rows : ∀ b, t_rows d (t b) = e b;
  m_len : ∀ b, length (e b) = n;
  m_frame : ∀ id, id ∈ b_live d0 → O id → (∀ b, id ≠ tensor_id (t b)) → b_rows d id = b_rows d0 id
}.

(** A tensor the passes only read. *)
Definition constant (u : DeviceTensor) : Prop := t_live d0 u ∧ O (tensor_id u) ∧ ∀ b, tensor_id u ≠ tensor_id (t b).

Hypothesis Hbufs : bufs_ok.

Lemma mem_constant X e d u : mem X e d → constant u → t_live d u ∧ t_rows d u = t_rows d0 u.
Proof.
  intros [Hl _ _ Hf] (Hu & Ho & Hne). split; [unfold t_live in *; rewrite Hl; set_solver | by apply Hf].
Qed.

Lemma mem_live X e d b : mem X e d → t_live d (t b).
Proof. intros [Hl _ _ _]. unfold t_live. rewrite Hl. pose proof (bo_live Hbufs b). unfold t_live in *. set_solver. Qed.

Lemma mem_valid X e d b sh : mem X e d → head sh = Some (Z.of_nat n) → t_valid d (view (t b) sh).
Proof.
  intros Hm Hsh. split; [by apply (mem_live X e d b) |]. unfold view, nrows, t_rows. simpl. rewrite Hsh. simpl.
  rewrite Nat2Z.id. rewrite <- (m_len _ _ _ Hm b), <- (m_rows _ _ _ Hm b). done.
Qed.

Lemma mem_valid' X e d b : mem X e d → t_valid d (t b).
Proof.
  intros Hm. destruct (bo_shape Hbufs b) as [Hs Hd]. destruct (mem_valid X e d b (shape (t b)) Hm) as [Hl Hn].
  { by rewrite Hs. }
  split; [done |]. exact Hn.
Qed.

(** A device with the same tensors. *)
Lemma mem_same X e d d' : mem X e d → b_live d' = b_live d → same_rows (b_live d) d d' → mem X e d'.
Proof.
  intros Hm Hl Hs. pose proof Hm as [Hlive Hr Hn Hf]. split; [congruence | | done |].
  - intros b. rewrite <- Hr. apply Hs. by apply (mem_live X e d b).
  - intros id Hid Ho Hne. rewrite <- Hf by done. apply Hs. rewrite Hlive. set_solver.
Qed.

(** Tensors outside [O] may change. *)
Lemma mem_outside e d d' :
  mem ∅ e d → b_live d' = b_live d → (∀ id, id ∈ b_live d → O id → b_rows d' id = b_rows d id) → mem ∅ e d'.
Proof.
  intros Hm Hl Hf. pose proof Hm as [Hlive Hr Hn Hfr]. split; [congruence | | done |].
  - intros b. rewrite <- Hr. apply Hf; [by apply (mem_live ∅ e d b) | apply (bo_outside Hbufs)].
  - intros id Hid Ho Hne. rewrite <- Hfr by done. apply Hf; [rewrite Hlive; set_solver | done].
Qed.

(** A call that writes one buffer. *)
Lemma mem_write X e d b rows d' :
  mem X e d → length rows = n → b_live d' = b_live d → t_rows d' (t b) = rows →
  (∀ id, id ∈ b_live d → id ≠ tensor_id (t b) → b_rows d' id = b_rows d id) → mem X (upd b rows e) d'.
Proof.
  intros Hm Hn Hl Hw Hf. pose proof Hm as [Hlive Hr Hlen Hfr]. split; [congruence | | |].
  - intros b'. unfold upd. case_decide as Hb; [by subst |]. rewrite <- Hr. apply Hf; [by apply (mem_live X e d b') |].
    intros Heq. apply Hb. by apply (bo_inj Hbufs).
  - intros b'. unfold upd. by case_decide.
  - intros id Hid Ho Hne. rewrite Hf; [by apply Hfr | rewrite Hlive; set_solver | done].
Qed.

(** Nothing but scratch tensors was written. *)
Definition local d d' : Prop :=
  b_live d' = b_live d ∧ ∀ id, id ∈ b_live d → (∀ b, id ≠ tensor_id (t b)) → b_rows d' id = b_rows d id.
Definition after (X : gset Z) (e : Buf → list Row) d d' : Prop := mem X e d' ∧ local d d'.

Lemma local_trans d1 d2 d3 : local d1 d2 → local d2 d3 → local d1 d3.
Proof. intros [L1 R1] [L2 R2]. split; [congruence |]. intros id Hid Hne. rewrite R2, R1; [done | done | done | by rewrite L1 | done]. Qed.

Lemma runs_mem X e d b out rows (m : st D unit) :
  mem X e d → tensor_id out = tensor_id (t b) → length rows = n → writes d [(out, rows)] (m d) →
  runs b_failed m d (λ d' _, after X (upd b rows e) d d').
Proof.
  intros Hm Ho Hn Hw. eapply runs_writes; [exact Hw |]. intros d' Hl Hrows Hf. apply Forall_cons in Hrows as [Hrow _].
  simpl in *. rewrite Ho in Hf. split; [apply (mem_write X e d b rows d'); try done | split; [done |]].
  - unfold t_rows in *. by rewrite <- Ho.
  - intros id Hid Hne. apply Hf; [done |]. set_solver.
  - intros id Hid Hne. apply Hf; [done |]. specialize (Hne b). set_solver.
Qed.

Lemma buf_ne X e d b b' : mem X e d → b ≠ b' → tensor_id (t b) ≠ tensor_id (t b').
Proof. intros _ Hne Heq. by apply Hne, (bo_inj Hbufs). Qed.

Variable w : LayerWeights.
Hypothesis Hw : ∀ f, constant (field w f) ∧ shape (field w f) = field_shape cfg f.
Definition W0 : LayerRows :=
  let rows f := t_rows d0 (field w f) in
  {| q_rows := rows FQ; k_rows := rows FK; v_rows := rows FV; o_rows := rows FO; gate_rows := rows FGate; up_rows := rows FUp;
     down_rows := rows FDown; attn_norm_rows := rows FAttnNorm; ffn_norm_rows := rows FFfnNorm |}.
Lemma W0_field f : W0 f = t_rows d0 (field w f).
Proof. by destruct f. Qed.

(** Kernels on buffers: a projection, a norm. *)
Lemma matmul_buf X e d a b f sha sho :
  mem X e d → a ≠ b → head sha = Some (Z.of_nat n) → head sho = Some (Z.of_nat n) →
  (∃ k m, sha = [Z.of_nat n; k] ∧ sho = [Z.of_nat n; m] ∧ field_shape cfg f = [m; k]) →
  runs b_failed (b_matmul (view (t a) sha) (field w f) (view (t b) sho)) d
    (λ d' _, after X (upd b (k_matmul (D := D) (W0 f) <$> e a) e) d d').
Proof.
  intros Hm Hne Ha Ho (k & m & -> & -> & Hf). destruct (Hw f) as [Hc Hs]. destruct (mem_constant X e d _ Hm Hc) as [Hl Hr].
  apply runs_mem with (out := view (t b) [Z.of_nat n; m]); [done | done | by rewrite length_fmap, (m_len _ _ _ Hm) |].
  rewrite W0_field, <- Hr, <- (m_rows _ _ _ Hm a).
  apply (k_matmul_spec d (view (t a) [Z.of_nat n; k]) (field w f) (view (t b) [Z.of_nat n; m]) (Z.of_nat n) m k);
    try done; [by apply (mem_valid X e) | by apply (mem_valid X e) | by eapply buf_ne |  | congruence].
  destruct Hc as (_ & _ & Hc). intros Heq. by apply (Hc b).
Qed.

Lemma view_eq b : view (t b) (shape (t b)) = t b.
Proof. destruct (bo_shape Hbufs b) as [_ Hd]. unfold view. rewrite <- Hd. by destruct (t b). Qed.

Lemma matmul_buf' X e d a b f :
  mem X e d → a ≠ b → field_shape cfg f = [buf_width cfg b; buf_width cfg a] →
  runs b_failed (b_matmul (t a) (field w f) (t b)) d (λ d' _, after X (upd b (k_matmul (D := D) (W0 f) <$> e a) e) d d').
Proof.
  intros Hm Hne Hf. rewrite <- (view_eq a), <- (view_eq b).
  apply (matmul_buf X e d a b f); try done; rewrite ?(proj1 (bo_shape Hbufs _)); eauto.
Qed.

Lemma rmsnorm_buf X e d a b u :
  mem X e d → a ≠ b → buf_width cfg a = buf_width cfg b → constant u → shape u = [buf_width cfg a] →
  runs b_failed (b_rmsnorm (t a) u (rms_norm_eps cfg) (t b)) d
    (λ d' _, after X (upd b (k_rmsnorm (D := D) (t_rows d0 u) (rms_norm_eps cfg) <$> e a) e) d d').
Proof.
  intros Hm Hne Hwd Hc Hs. destruct (mem_constant X e d _ Hm Hc) as [Hl Hr].
  apply runs_mem with (out := t b); [done | done | by rewrite length_fmap, (m_len _ _ _ Hm) |].
  rewrite <- Hr, <- (m_rows _ _ _ Hm a).
  apply (k_rmsnorm_spec d (t a) u (rms_norm_eps cfg) (t b) (Z.of_nat n) (buf_width cfg a));
    rewrite ?(proj1 (bo_shape Hbufs _)); try done; [by apply (mem_valid' X e) | by apply (mem_valid' X e) | by eapply buf_ne | | congruence].
  destruct Hc as (_ & _ & Hc). intros Heq. by apply (Hc b).
Qed.

Lemma add_buf X e d b :
  mem X e d → b ≠ BHidden → buf_width cfg b = hidden_size cfg →
  runs b_failed (b_add (t BHidden) (t b) (t BHidden)) d (λ d' _, after X (upd BHidden (zip_with (k_add (D := D)) (e BHidden) (e b)) e) d d').
Proof.
  intros Hm Hne Hwd. apply runs_mem with (out := t BHidden); [done | done | by rewrite length_zip_with, !(m_len _ _ _ Hm), Nat.min_id |].
  rewrite <- (m_rows _ _ _ Hm BHidden), <- (m_rows _ _ _ Hm b).
  apply k_add_spec with (sh := [Z.of_nat n; hidden_size cfg]); try (by apply (mem_valid' X e)); try (by eapply buf_ne);
    rewrite (proj1 (bo_shape Hbufs _)); [done | by rewrite Hwd | done].
Qed.

(** [m] takes the contents [e] to [e']. *)
Definition step (X : gset Z) (e : Buf → list Row) (m : st D unit) (e' : Buf → list Row) : Prop :=
  ∀ d, mem X e d → runs b_failed m d (λ d' _, after X e' d d').

Lemma step_bind X e e' e'' m m' : step X e m e' → step X e' m' e'' → step X e (sbind m (λ _, m')) e''.
Proof.
  intros Hm Hm' d Hd. apply runs_bind. eapply runs_mono; [| by apply Hm]. intros d1 [] [Hd1 Hl1].
  eapply runs_mono; [| by apply Hm']. intros d2 [] [Hd2 Hl2]. split; [done | by eapply local_trans].
Qed.

Lemma step_eq X e m e1 e2 : step X e m e1 → e1 = e2 → step X e m e2.
Proof. by intros Hm <-. Qed.

Notation WF := (W0).
Notation eps := (rms_norm_eps cfg).

Lemma matmul_step a b f X e :
  a ≠ b → field_shape cfg f = [buf_width cfg b; buf_width cfg a] →
  step X e (b_matmul (t a) (field w f) (t b)) (upd b (k_matmul (D := D) (W0 f) <$> e a) e).
Proof. intros ? ? d Hm. by apply matmul_buf'. Qed.

Lemma add_step b X e :
  b ≠ BHidden → buf_width cfg b = hidden_size cfg →
  step X e (b_add (t BHidden) (t b) (t BHidden)) (upd BHidden (zip_with (k_add (D := D)) (e BHidden) (e b)) e).
Proof. intros ? ? d Hm. by apply add_buf. Qed.

Lemma attn_norm_step X e :
  step X e (ph_attn_norm cfg w hidden_state sc) (upd BNormed (k_rmsnorm (D := D) (WF FAttnNorm) eps <$> e BHidden) e).
Proof. intros d Hm. destruct (Hw FAttnNorm). by apply (rmsnorm_buf X e d BHidden BNormed). Qed.

Lemma ffn_norm_step X e :
  step X e (ph_ffn_norm cfg w hidden_state sc) (upd BNormed (k_rmsnorm (D := D) (WF FFfnNorm) eps <$> e BHidden) e).
Proof. intros d Hm. destruct (Hw FFfnNorm). by apply (rmsnorm_buf X e d BHidden BNormed). Qed.

Lemma qkv_step X e :
  step X e (ph_qkv w sc)
    (upd BV (k_matmul (D := D) (WF FV) <$> e BNormed) (upd BK (k_matmul (D := D) (WF FK) <$> e BNormed)
      (upd BQ (k_matmul (D := D) (WF FQ) <$> e BNormed) e))).
Proof.
  eapply step_eq.
  - eapply step_bind; [by apply (matmul_step BNormed BQ FQ) |].
    eapply step_bind; [by apply (matmul_step BNormed BK FK) | by apply (matmul_step BNormed BV FV)].
  - reflexivity.
Qed.

Lemma rope_step X e ps :
  length ps = n →
  step X e (ph_rope cfg sc n ps)
    (upd BK (zip_with (ref_rope (D := D) cfg) ps (e BK)) (upd BQ (zip_with (ref_rope (D := D) cfg) ps (e BQ)) e)).
Proof.
  intros Hps d Hm. unfold ph_rope, ref_rope. set (q := q_mh cfg sc n). set (k := k_mh cfg sc n).
  eapply runs_writes.
  { apply (k_rope_spec d q k ps (rope_theta cfg) (Z.of_nat n) (num_q_heads cfg) (num_kv_heads cfg) (head_dim cfg)); try done;
      [by apply (mem_valid X e d BQ) | by apply (mem_valid X e d BK) | by apply (buf_ne X e d BQ BK) | by rewrite Hps]. }
  intros d' Hl Hrows Hf. apply Forall_cons in Hrows as [Hq Hrows]. apply Forall_cons in Hrows as [Hk _]. simpl in *.
  pose proof Hm as [Hlive Hr Hlen Hfr].
  assert (∀ b, b ≠ BQ → b ≠ BK → t_rows d' (t b) = e b) as Hkeep.
  { intros b Hb1 Hb2. rewrite <- Hr. apply Hf; [by apply (mem_live X e d b) |].
    apply (buf_ne X e d b BQ Hm) in Hb1. apply (buf_ne X e d b BK Hm) in Hb2. simpl in *. set_solver. }
  assert (∀ b, length (zip_with (k_rope (D := D) (rope_theta cfg) (head_dim cfg)) ps (e b)) = n) as Hz.
  { intros b. rewrite length_zip_with, Hlen, Hps. lia. }
  split; [split; [congruence | | |] | split; [done |]].
  - intros b. unfold upd. case_decide; [subst; rewrite <- Hr; exact Hk |]. case_decide; [subst; rewrite <- Hr; exact Hq | auto].
  - intros b. unfold upd. case_decide; [apply Hz |]. case_decide; [apply Hz | done].
  - intros id Hid Ho Hne. rewrite Hf; [by apply Hfr | rewrite Hlive; set_solver |].
    pose proof (Hne BQ). pose proof (Hne BK). simpl in *. set_solver.
  - intros id Hid Hne. apply Hf; [done |]. pose proof (Hne BQ). pose proof (Hne BK). simpl in *. set_solver.
Qed.

(** The contents after the first half of a layer. *)
Definition pre_env (ps : list Z) (e : Buf → list Row) : Buf → list Row :=
  let x := k_rmsnorm (D := D) (WF FAttnNorm) eps <$> e BHidden in
  upd BK (zip_with (ref_rope (D := D) cfg) ps (k_matmul (D := D) (WF FK) <$> x))
    (upd BQ (zip_with (ref_rope (D := D) cfg) ps (k_matmul (D := D) (WF FQ) <$> x))
      (upd BV (k_matmul (D := D) (WF FV) <$> x) (upd BK (k_matmul (D := D) (WF FK) <$> x)
        (upd BQ (k_matmul (D := D) (WF FQ) <$> x) (upd BNormed x e))))).

Lemma pre_attention_step X e ps : length ps = n → step X e (pre_attention cfg w hidden_state sc n ps) (pre_env ps e).
Proof.
  intros Hps. eapply step_eq.
  - eapply step_bind; [apply attn_norm_step |]. eapply step_bind; [apply qkv_step |]. by apply rope_step.
  - reflexivity.
Qed.

Lemma pre_env_spec ps e :
  pre_env ps e BQ = zip_with (ref_q (D := D) cfg WF) ps (e BHidden) ∧ pre_env ps e BK = zip_with (ref_k (D := D) cfg WF) ps (e BHidden) ∧
  pre_env ps e BV = ref_v (D := D) cfg WF <$> e BHidden ∧ pre_env ps e BHidden = e BHidden.
Proof.
  unfold pre_env, upd. simpl. split_and!; [| | by rewrite <- list_fmap_compose | done]; by rewrite <- list_fmap_compose, zip_with_fmap_r.
Qed.

Lemma output_proj_step X e :
  step X e (ph_output_proj cfg w sc n) (upd BProj (k_matmul (D := D) (WF FO) <$> e BAttn) e).
Proof.
  intros d Hm. unfold ph_output_proj, attn_out_flat. change (projected sc) with (t BProj). rewrite <- (view_eq BProj).
  apply (matmul_buf X e d BAttn BProj FO); try done; rewrite ?(proj1 (bo_shape Hbufs _)); simpl; eauto.
Qed.

Lemma silu_step X e : step X e (ph_silu_mul sc) (upd BMid (zip_with (k_silu_mul (D := D)) (e BGate) (e BUp)) e).
Proof.
  intros d Hm. unfold ph_silu_mul.
  apply runs_mem with (out := t BMid); [done | done | by rewrite length_zip_with, !(m_len _ _ _ Hm), Nat.min_id |].
  rewrite <- (m_rows _ _ _ Hm BGate), <- (m_rows _ _ _ Hm BUp).
  apply k_silu_mul_spec with (sh := [Z.of_nat n; intermediate_size cfg]);
    [by apply (mem_valid' X e d BGate) | by apply (mem_valid' X e d BUp) | by apply (mem_valid' X e d BMid) |
     by apply (buf_ne X e d BMid BGate) | by apply (buf_ne X e d BMid BUp) | | |];
    [apply (bo_shape Hbufs BGate) | apply (bo_shape Hbufs BUp) | apply (bo_shape Hbufs BMid)].
Qed.

Definition post_env (e : Buf → list Row) : Buf → list Row :=
  let h1 := zip_with (k_add (D := D)) (e BHidden) (k_matmul (D := D) (WF FO) <$> e BAttn) in
  let x := k_rmsnorm (D := D) (WF FFfnNorm) eps <$> h1 in
  let g := k_matmul (D := D) (WF FGate) <$> x in
  let u := k_matmul (D := D) (WF FUp) <$> x in
  let m := zip_with (k_silu_mul (D := D)) g u in
  let o := k_matmul (D := D) (WF FDown) <$> m in
  upd BHidden (zip_with (k_add (D := D)) h1 o) (upd BOut o (upd BMid m (upd BUp u (upd BGate g (upd BNormed x
    (upd BHidden h1 (upd BProj (k_matmul (D := D) (WF FO) <$> e BAttn) e))))))).

Lemma post_attention_step X e : step X e (post_attention cfg w hidden_state sc n) (post_env e).
Proof.
  eapply step_eq.
  - eapply step_bind; [apply output_proj_step |].
    eapply step_bind; [by apply (add_step BProj) |].
    eapply step_bind; [apply ffn_norm_step |].
    eapply step_bind.
    { eapply step_bind; [by apply (matmul_step BNormed BGate FGate) | by apply (matmul_step BNormed BUp FUp)]. }
    eapply step_bind; [apply silu_step |].
    eapply step_bind; [by apply (matmul_step BMid BOut FDown) |].
    by apply (add_step BOut).
  - reflexivity.
Qed.

Lemma zip_with_map_out (rows hs : list Row) :
  zip_with (λ h1 o, k_add (D := D) h1 o) (zip_with (k_add (D := D)) hs (k_matmul (D := D) (WF FO) <$> rows))
    (k_matmul (D := D) (WF FDown) <$> zip_with (k_silu_mul (D := D))
       (k_matmul (D := D) (WF FGate) <$> (k_rmsnorm (D := D) (WF FFfnNorm) eps <$> zip_with (k_add (D := D)) hs (k_matmul (D := D) (WF FO) <$> rows)))
       (k_matmul (D := D) (WF FUp) <$> (k_rmsnorm (D := D) (WF FFfnNorm) eps <$> zip_with (k_add (D := D)) hs (k_matmul (D := D) (WF FO) <$> rows)))) =
  zip_with (ref_out (D := D) cfg WF) rows hs.
Proof. revert hs. induction rows as [|a rows IH]; intros [|h hs]; [done.. |]. csimpl. f_equal. apply IH. Qed.

Lemma post_env_hidden e : post_env e BHidden = zip_with (ref_out (D := D) cfg WF) (e BAttn) (e BHidden).
Proof. unfold post_env, upd. simpl. apply zip_with_map_out. Qed.
End memory.

(** ** Allocating the scratch tensors and giving them back *)

Section scratch.
Context {D : Type} `{KernelLaws D} `{!BackendLaws D}.
Implicit Types d : D.

(** Since [d0] exactly [ts] were allocated, and the handles are valid. *)
Definition fresh d0 d (ts : list DeviceTensor) : Prop := alloced d0 d ts ∧ Forall (t_valid d) ts.

Lemma fresh_refl d : fresh d d [].
Proof. split; [apply alloced_refl | constructor]. Qed.

Lemma runs_alloc_more d0 d ts sh (Q : D → DeviceTensor → Prop) :
  fresh d0 d ts →
  (∀ d' t, shape t = sh → dtype t = FP16 → fresh d0 d' (t :: ts) → persist d d' ts → Q d' t) →
  runs b_failed (b_alloc sh FP16) d Q.
Proof.
  intros [Ha Hv] HQ. apply runs_alloc. intros d' t Hal. pose proof (alloced_alloc _ _ _ _ _ _ _ Ha Hal) as Ha'.
  pose proof Hal as (Hsh & Hdt & _ & Hlive & _ & Hlen)%b_alloc_Ok.
  assert (∀ u, t_live d u → t_live d' u ∧ t_rows d' u = t_rows d u) as Hkeep by (intros u; by apply (alloc_keeps_rows d d' sh FP16 t u)).
  rewrite Forall_forall in Hv. apply HQ; [done | done | |].
  - split; [done |]. constructor.
    + split; [unfold t_live; rewrite Hlive; set_solver |]. unfold nrows. by rewrite Hsh.
    + apply Forall_forall. intros u Hu. destruct (Hv u Hu) as [Hl Hn]. destruct (Hkeep u Hl) as [Hl' Hr].
      split; [done | by rewrite Hr].
  - intros u Hu. destruct (Hv u Hu) as [Hl Hn]. by destruct (Hkeep u Hl).
Qed.

Definition buf_pos (b : Buf) : nat :=
  match b with
  | BHidden => 0 | BNormed => 1 | BQ => 2 | BK => 3 | BV => 4 | BAttn => 5 | BProj => 6 | BGate => 7 | BUp => 8 | BMid => 9 | BOut => 10
  end.

Lemma buf_list hidden_state sc b : (hidden_state :: scratch_list sc) !! buf_pos b = Some (buf hidden_state sc b).
Proof. by destruct b. Qed.

Lemma buf_pos_inj b b' : buf_pos b = buf_pos b' → b = b'.
Proof. by destruct b, b'. Qed.

(** The buffers are there, are pairwise different and none of the cache's. *)
Lemma scratch_bufs cfg n hidden_state sc (O : Z → Prop) d d' :
  t_live d hidden_state → shape hidden_state = [Z.of_nat n; hidden_size cfg] → dtype hidden_state = FP16 → O (tensor_id hidden_state) →
  (∀ id, id ∉ b_live d → O id) → fresh d d' (scratch_list sc) →
  (∀ b, b ≠ BHidden → shape (buf hidden_state sc b) = [Z.of_nat n; buf_width cfg b] ∧ dtype (buf hidden_state sc b) = FP16) →
  bufs_ok cfg n hidden_state sc O d'.
Proof.
  intros Hh Hsh Hdt HO Hfresh [Ha Hv] Hs. pose proof Ha as [Hl Hnd Hnew Hr].
  assert (NoDup (tensor_id <$> hidden_state :: scratch_list sc)) as Hnd'.
  { rewrite fmap_cons. constructor; [| done]. intros (u & Heq & Hu)%list_elem_of_fmap. apply (Hnew u Hu). by rewrite <- Heq. }
  assert (∀ b, b = BHidden ∨ buf hidden_state sc b ∈ scratch_list sc) as Hcase.
  { intros b. destruct (decide (b = BHidden)) as [|Hb]; [by left |]. right.
    apply (list_elem_of_lookup_2 _ (buf_pos b - 1)). by destruct b. }
  split.
  - intros b. destruct (Hcase b) as [->|Hb]; [unfold t_live in *; simpl; rewrite Hl; set_solver | by eapply alloced_t_live].
  - intros b b' Heq. apply buf_pos_inj. apply (NoDup_lookup _ _ _ (tensor_id (buf hidden_state sc b)) Hnd');
      rewrite list_lookup_fmap, buf_list; simpl; congruence.
  - intros b. destruct (decide (b = BHidden)) as [->|Hb]; [done | by apply Hs].
  - intros b. destruct (Hcase b) as [->|Hb]; [done | apply Hfresh; by apply Hnew].
Qed.

Lemma alloc_scratch_runs cfg n hidden_state (O : Z → Prop) d :
  t_live d hidden_state → shape hidden_state = [Z.of_nat n; hidden_size cfg] → dtype hidden_state = FP16 → O (tensor_id hidden_state) →
  (∀ id, id ∉ b_live d → O id) → in_width 64 (num_kv_heads cfg * head_dim cfg) →
  runs b_failed (alloc_scratch cfg n) d (λ d' sc, bufs_ok cfg n hidden_state sc O d' ∧ fresh d d' (scratch_list sc)).
Proof.
  intros Hh Hsh Hdt HO Hfresh Hw. unfold alloc_scratch, umul. rewrite (checked_Ok _ _ Hw).
  assert (∀ d0 d1 ts ts', ts ≡ₚ ts' → fresh d0 d1 ts → fresh d0 d1 ts') as Hperm.
  { intros d0 d1 ts ts' Hp [Ha Hv]. split; [by eapply alloced_perm | by rewrite <- Hp]. }
  pose proof (fresh_refl d) as Hf.
  do 10 (apply runs_bind; try (apply (runs_lift _ _ _ _ _ eq_refl); apply runs_bind);
    eapply (runs_alloc_more d _ _ _ _ Hf); clear Hf; intros ? ? ? ? Hf _).
  apply runs_ret.
  match goal with |- _ ∧ fresh _ ?d1 (scratch_list ?s) => set (sc := s); set (df := d1) in * end.
  assert (fresh d df (scratch_list sc)) as Hf' by (eapply Hperm; [| exact Hf]; unfold scratch_list; simpl; solve_Permutation).
  split; [| done]. apply (scratch_bufs cfg n hidden_state sc O d df); try done. by intros [] Hb.
Qed.

Lemma runs_free_each ts d (Q : D → unit → Prop) :
  NoDup (tensor_id <$> ts) → Forall (t_live d) ts →
  (∀ d', b_live d' = b_live d ∖ list_to_set (tensor_id <$> ts) → same_rows (b_live d') d d' → Q d' ()) →
  runs b_failed (free_each ts) d Q.
Proof.
  revert d. induction ts as [|t ts IH]; intros d Hnd Hl HQ; cbn [free_each].
  { apply runs_ret, HQ; [simpl; set_solver | done]. }
  rewrite fmap_cons in Hnd. apply NoDup_cons in Hnd as [Hnt Hnd]. apply Forall_cons in Hl as [Ht Hl].
  apply runs_bind, runs_free; [done |]. intros d1 Hl1 Hs1. apply IH; [done | |].
  - apply Forall_forall. intros u Hu. rewrite Forall_forall in Hl. unfold t_live in *. rewrite Hl1.
    apply elem_of_difference. split; [by apply Hl |]. intros Heq%elem_of_singleton. apply Hnt. rewrite <- Heq. apply list_elem_of_fmap. eauto.
  - intros d2 Hl2 Hs2. apply HQ.
    + rewrite Hl2, Hl1. simpl. set_solver.
    + intros id Hid. rewrite (Hs2 id Hid). apply Hs1. rewrite Hl2 in Hid. set_solver.
Qed.

(** The logits of one row. *)
Lemma lm_logits_runs from_f16 cfg ws last r d :
  t_valid d last → shape last = [1%Z; hidden_size cfg] → t_rows d last = [r] →
  t_live d (lm_head ws) → shape (lm_head ws) = [vocab_size cfg; hidden_size cfg] → in_width 64 (vocab_size cfg * 2) →
  runs b_failed (lm_logits from_f16 cfg ws last) d (λ d' ll,
    ll.2 = decode_logits from_f16 (k_matmul (D := D) (t_rows d (lm_head ws)) r) ∧ fresh d d' [ll.1]).
Proof.
  intros Hv Hsh Hr Hl Hls Hw. unfold lm_logits. apply runs_bind, (runs_alloc_more d d [] _ _ (fresh_refl d)).
  intros d1 lt Hs1 Hd1 [Ha1 Hv1] _. apply Forall_cons in Hv1 as [Hv1 _]. pose proof Ha1 as [Hlive _ Hnew Hsame].
  assert (tensor_id lt ∉ b_live d) as Hf by (apply Hnew; left).
  assert (∀ u, t_live d u → t_live d1 u ∧ t_rows d1 u = t_rows d u ∧ tensor_id lt ≠ tensor_id u) as Hkeep.
  { intros u Hu. unfold t_live in *. split_and!; [rewrite Hlive; set_solver | by apply Hsame | congruence]. }
  destruct (Hkeep last) as (Hl1 & Hr1 & Hn1); [apply Hv |]. destruct (Hkeep (lm_head ws) Hl) as (Hl2 & Hr2 & Hn2).
  apply runs_bind. eapply runs_writes.
  { apply (k_matmul_spec d1 last (lm_head ws) lt 1 (vocab_size cfg) (hidden_size cfg)); try done.
    split; [done |]. rewrite Hr1. apply Hv. }
  intros d2 Hlive2 Hrows Hf2. apply Forall_cons in Hrows as [Hrow _]. simpl in Hrow, Hf2.
  assert (0 ≤ vocab_size cfg)%Z as Hpos by (destruct Hw; lia).
  apply runs_bind. eapply runs_lift; [by apply checked_Ok |]. apply runs_bind.
  assert (t_valid d2 lt) as Hv2.
  { split; [unfold t_live; rewrite Hlive2; apply Hv1 |]. rewrite Hrow, Hr1, Hr. unfold nrows. by rewrite Hs1. }
  assert (size_bytes lt = Ok (Z.of_nat (Z.to_nat (vocab_size cfg * 2)))) as Hsize.
  { unfold size_bytes, numel, uproduct. rewrite Hs1, Hd1, Z2Nat.id by lia. cbn [foldl rbind]. unfold umul.
    assert (∀ z, (0 ≤ z ≤ vocab_size cfg * 2)%Z → checked 64 z = Ok z) as Hc by (intros z Hz; apply checked_Ok; unfold in_width in *; lia).
    cbn [checked]. rewrite (checked_Ok 64 (1 * 1)) by done. cbn [rbind]. rewrite Z.mul_1_l, Hc by lia. cbn [rbind is_packed dtype_size_bytes].
    by apply checked_Ok. }
  assert (fresh d d2 [lt]) as Hfr.
  { split; [| by forall_list]. split; [by rewrite Hlive2 | repeat constructor; set_solver | done |].
    intros id Hid. rewrite Hf2; [by apply Hsame | rewrite Hlive; set_solver |]. intros ->%list_elem_of_singleton. done. }
  unfold runs at 1. destruct (k_copy_to_host_spec d2 lt _ Hv2 Hsize) as [->|(d3 & e & -> & Hfl)]; [| done].
  apply runs_ret. split; [| done]. simpl. rewrite Hrow, Hr1, Hr, Hr2. simpl. by rewrite app_nil_r.
Qed.
End scratch.
