(* ===== verification/Engine.v ===== *)
(** * The engine ([crates/fracture-engine/src/engine.rs], [node.rs])

    The cache backends and the forward passes of one node over a paged or
    quantized cache ([forward_node_paged]), proved against the reference of
    [Transformer].  The engine's backend is the device state the programs run on;
    markers of the profiler are left out. *)

From S2P Require Import Prelude F32 Core Backend Kernels BlockTables BlockWrite PagedCache QuantizedCache KvCache CacheIface.
From S2P Require Import LayerScheduler WeightStore Transformer.

(** ** Nodes *)

Record NodeConfig := { nc_layer_range : LayerRange; total_layers : Z }.

Definition NodeConfig_new (r : LayerRange) (total : Z) : result NodeConfig :=
  if negb (rstart r <? rend r)%Z then Err (Pipeline "layer_range must not be empty")
  else if (total <? rend r)%Z then Err (Pipeline "layer_range end exceeds total_layers")
  else Ok {| nc_layer_range := r; total_layers := total |}.
Definition is_head (nc : NodeConfig) : bool := (rstart (nc_layer_range nc) =? 0)%Z.
Definition is_tail (nc : NodeConfig) : bool := (rend (nc_layer_range nc) =? total_layers nc)%Z.
Definition is_full (nc : NodeConfig) : bool := is_head nc && is_tail nc.
Definition nc_num_layers (nc : NodeConfig) : Z := range_len (nc_layer_range nc).

Inductive NodeInput :=
  | TokenIds (ids positions : list Z)
  | Activations (hidden_states : DeviceTensor) (positions : list Z).
Inductive NodeOutput :=
  | Logits (logits : list f32)
  | OutActivations (hidden_states : DeviceTensor).

Record Engine := { weights : WeightStore; e_layer_range : LayerRange }.

(** ** [KvCacheBackend] *)

Inductive KvCacheBackend :=
  | ContiguousCache (c : KvCacheManager)
  | PagedCacheB (p : PagedKvCacheManager)
  | QuantizedPagedCache (q : QuantizedKvCacheManager).

Definition kb_is_paged (b : KvCacheBackend) : bool := match b with ContiguousCache _ => false | _ => true end.
Definition kb_is_quantized (b : KvCacheBackend) : bool := match b with QuantizedPagedCache _ => true | _ => false end.
Definition kb_seq_len (h : Z) (b : KvCacheBackend) : result nat :=
  match b with
  | ContiguousCache c => kv_seq_len h c
  | PagedCacheB p => tables_seq_len h p
  | QuantizedPagedCache q => tables_seq_len h (q_tables q)
  end.

Section cache_backend.
Context {D : Type} `{BackendOps D}.

(** A call on the cache of a variant. *)
Definition in_contiguous {A : Type} (m : st (KvCacheManager * D) A) (c : KvCacheManager) (d : D) : (KvCacheBackend * D) * result A :=
  let '((c', d'), r) := m (c, d) in ((ContiguousCache c', d'), r).
Definition in_paged {A : Type} (m : st PagedKvCacheManager A) (p : PagedKvCacheManager) (d : D) : (KvCacheBackend * D) * result A :=
  let '(p', r) := m p in ((PagedCacheB p', d), r).
Definition in_quantized {A : Type} (m : st QuantizedKvCacheManager A) (q : QuantizedKvCacheManager) (d : D) : (KvCacheBackend * D) * result A :=
  let '(q', r) := m q in ((QuantizedPagedCache q', d), r).

Definition kb_alloc_contiguous : st (KvCacheBackend * D) Z := λ '(b, d),
  match b with
  | ContiguousCache c => in_contiguous kv_alloc c d
  | _ => ((b, d), Err (KvCache "alloc_contiguous called on non-contiguous cache"))
  end.
Definition kb_alloc_paged : st (KvCacheBackend * D) Z := λ '(b, d),
  match b with
  | PagedCacheB p => in_paged paged_alloc p d
  | QuantizedPagedCache q => in_quantized q_alloc q d
  | ContiguousCache _ => ((b, d), Err (KvCache "alloc_paged called on contiguous cache"))
  end.
Definition kb_alloc : st (KvCacheBackend * D) Z := λ '(b, d),
  match b with
  | ContiguousCache c => in_contiguous kv_alloc c d
  | PagedCacheB p => in_paged paged_alloc p d
  | QuantizedPagedCache q => in_quantized q_alloc q d
  end.
Definition kb_free (h : Z) : st (KvCacheBackend * D) unit := λ '(b, d),
  match b with
  | ContiguousCache c => in_contiguous (kv_free h) c d
  | PagedCacheB p => in_paged (paged_free h) p d
  | QuantizedPagedCache q => in_quantized (q_free h) q d
  end.
End cache_backend.

(** ** Forward passes *)

(** [positions.iter().max()] against the size of the RoPE table *)
Definition check_positions (cfg : ModelConfig) (positions : list Z) : result unit :=
  match positions with
  | [] => Ok ()
  | p :: ps =>
      if (max_seq_len cfg <=? foldl Z.max p ps)%Z then Err (InvalidShape "position exceeds max_seq_len") else Ok ()
  end.

Fixpoint siter {S A : Type} (f : A → st S unit) (l : list A) : st S unit :=
  match l with
  | [] => sret ()
  | x :: l' => do! _ := f x in siter f l'
  end.

(** What a pass works with: the hidden states, positions and their number, and
    whether the hidden states were allocated here. *)
Record Resolved := { hidden_state : DeviceTensor; r_positions : list Z; r_seq_len : nat; owns_hidden : bool }.

Section passes.
Context {D : Type} `{KernelOps D}.
Variable from_f16 : Z → f32.

Definition resolve_input (ws : WeightStore) (nc : NodeConfig) (input : NodeInput) : st D Resolved :=
  match input with
  | TokenIds ids positions =>
      if negb (is_head nc) then serr (Pipeline "non-head node received TokenIds input")
      else if bool_decide (ids = []) then serr (InvalidShape "token_ids must not be empty")
      else
        do! hs := b_alloc [Z.of_nat (length ids); hidden_size (ws_config ws)] FP16 in
        do! _ := b_embedding ids (token_embedding ws) hs in
        sret {| hidden_state := hs; r_positions := positions; r_seq_len := length ids; owns_hidden := true |}
  | Activations hs positions =>
      if is_head nc then serr (Pipeline "head node received Activations input")
      else sret {| hidden_state := hs; r_positions := positions; r_seq_len := length positions; owns_hidden := false |}
  end.

(** The output phase: logits of the last position, or the hidden states. *)
Definition output_phase (ws : WeightStore) (nc : NodeConfig) (r : Resolved) (sc : Scratch) : st D NodeOutput :=
  let cfg := ws_config ws in
  let many := bool_decide (1 < r_seq_len r) in
  if is_tail nc then
    do! _ := b_rmsnorm (hidden_state r) (output_norm ws) (rms_norm_eps cfg) (normed sc) in
    do! last_hidden :=
      if many then
        do! last := b_alloc [1%Z; hidden_size cfg] FP16 in
        do! _ := b_copy_rows (normed sc) last (r_seq_len r - 1) 0 1 in
        sret last
      else sret (view (normed sc) [1%Z; hidden_size cfg]) in
    do! ll := lm_logits from_f16 cfg ws last_hidden in
    do! _ := b_synchronize in
    do! _ := free_each ((if owns_hidden r then [hidden_state r] else []) ++ scratch_list sc ++ [ll.1] ++
                        (if many then [last_hidden] else [])) in
    sret (Logits ll.2)
  else
    do! _ := free_each (scratch_list sc) in
    sret (OutActivations (hidden_state r)).
End passes.

(** *** Over a paged or quantized cache *)

Section paged.
Context {C D : Type} `{PagedCacheOps C D}.
Variable from_f16 : Z → f32.

Definition pc_len (h : Z) : st (C * D) nat := λ '(c, d), ((c, d), pc_seq_len h c).
Definition pc_dispatch (q_slice : DeviceTensor) (h : Z) (cache_idx : nat) (nkv : Z) (kv_len start_pos : nat)
    (out : DeviceTensor) : st (C * D) unit := λ '(c, d),
  dev (pc_dispatch_attention c q_slice h cache_idx nkv kv_len start_pos out) (c, d).

Definition paged_layer (e : Engine) (nc : NodeConfig) (h : Z) (r : Resolved) (sc : Scratch) (start_pos layer_idx : nat)
    : st (C * D) unit :=
  let cfg := ws_config (weights e) in
  let n := r_seq_len r in
  do! weight_idx := slift (nsub layer_idx (Z.to_nat (rstart (e_layer_range e)))) in
  do! cache_idx := slift (nsub layer_idx (Z.to_nat (rstart (nc_layer_range nc)))) in
  do! w := slift (index (layers (weights e)) weight_idx) in
  do! _ := dev (pre_attention cfg w (hidden_state r) sc n (r_positions r)) in
  do! _ := pc_append_kv h cache_idx (k_mh cfg sc n) (v_mh cfg sc n) in
  do! _ := pc_dispatch (q_mh cfg sc n) h cache_idx (num_kv_heads cfg) (start_pos + n) start_pos (attn_out cfg sc n) in
  dev (post_attention cfg w (hidden_state r) sc n).

Definition forward_node_paged (e : Engine) (input : NodeInput) (nc : NodeConfig) (h : Z) : st (C * D) NodeOutput :=
  do! r := dev (resolve_input (weights e) nc input) in
  do! _ := slift (check_positions (ws_config (weights e)) (r_positions r)) in
  do! sc := dev (alloc_scratch (ws_config (weights e)) (r_seq_len r)) in
  do! start_pos := pc_len h in
  do! _ := siter (paged_layer e nc h r sc start_pos) (range_layers (nc_layer_range nc)) in
  dev (output_phase from_f16 (weights e) nc r sc).

Definition forward_paged (e : Engine) (token_ids positions : list Z) (h : Z) : st (C * D) (list f32) :=
  do! nc := slift (NodeConfig_new (e_layer_range e) (num_layers (ws_config (weights e)))) in
  do! out := forward_node_paged e (TokenIds token_ids positions) nc h in
  match out with
  | Logits logits => sret logits
  | OutActivations _ => serr (Pipeline "full forward expected Logits but got Activations")
  end.
End paged.

(** ** The output phase *)

Lemma freed_live (own scr temps temps' : list Z) (B : gset Z) :
  temps ≡ₚ temps' → (∀ i, i ∈ temps → i ∉ B) → (∀ i, i ∈ scr → i ∉ B) →
  (list_to_set temps ∪ (list_to_set scr ∪ B)) ∖ list_to_set (own ++ scr ++ temps') = B ∖ list_to_set own.
Proof.
  intros Hp Ht Hs. apply set_eq. intros i. rewrite !elem_of_difference, !elem_of_union, !elem_of_list_to_set, !elem_of_app, Hp.
  split; [intros [[?|[?|?]] Hno]; tauto |]. intros [Hi Ho]. split; [tauto |]. specialize (Ht i). specialize (Hs i). rewrite Hp in Ht. tauto.
Qed.

Section output.
Context {D : Type} `{KernelLaws D} `{!BackendLaws D}.
Implicit Types d : D.
Variable from_f16 : Z → f32.
Variables (ws : WeightStore) (n : nat) (r : Resolved) (sc : Scratch) (O : Z → Prop) (dp d0 : D).
Notation cfg := (ws_config ws).
Notation hid := (hidden_state r).
Hypothesis Hbufs : bufs_ok cfg n hid sc O d0.
Hypothesis Hn : r_seq_len r = n.
Hypothesis Hpos : 0 < n.
(** [dp]: before the scratch tensors were allocated *)
Hypothesis Hfresh : fresh dp d0 (scratch_list sc).
Hypothesis Hhid : t_live dp hid.

Lemma last_row_insert {A : Type} (l : list A) (x : A) : length l = n → list_inserts 0 (take 1 (drop (n - 1) l)) [x] = [default x (last l)].
Proof.
  intros Hl. rewrite last_lookup, Hl. replace (n - 1) with (pred n) by lia.
  destruct (lookup_lt_is_Some_2 l (pred n)) as [y Hy]; [lia |]. rewrite (drop_S l y (pred n) Hy), Hy. done.
Qed.

Lemma last_hidden_runs e d :
  mem n hid sc O d0 ∅ e d →
  runs b_failed
    (if bool_decide (1 < n) then
       do! last := b_alloc [1%Z; hidden_size cfg] FP16 in do! _ := b_copy_rows (normed sc) last (n - 1) 0 1 in sret last
     else sret (view (normed sc) [1%Z; hidden_size cfg])) d
    (λ d' lt, t_valid d' lt ∧ shape lt = [1%Z; hidden_size cfg] ∧ t_rows d' lt = [default [] (last (e BNormed))] ∧
       fresh d d' (if bool_decide (1 < n) then [lt] else [])).
Proof.
  intros Hm. assert (length (e BNormed) = n) as Hlen by apply (m_len _ _ _ _ _ _ _ _ Hm).
  pose proof (m_rows _ _ _ _ _ _ _ _ Hm BNormed) as Hr. case_bool_decide as Hmany.
  - apply runs_bind, (runs_alloc_more d d [] _ _ (fresh_refl d)). intros d1 lt Hs1 Hd1 [Ha1 Hv1] _.
    apply Forall_cons in Hv1 as [Hv1 _]. pose proof Ha1 as [Hl1 Hnd1 Hnew1 Hsame1].
    destruct (mem_valid' cfg n hid sc O d0 Hbufs ∅ e d BNormed Hm) as [Hnl Hnn]. simpl in Hnl, Hnn, Hr.
    assert (t_rows d1 (normed sc) = e BNormed) as Hr1 by (rewrite <- Hr; by apply Hsame1).
    assert (tensor_id lt ∉ b_live d) as Hf by (apply Hnew1; left).
    apply runs_bind, runs_copy_rows.
    + split; [unfold t_live in *; rewrite Hl1; set_solver | by rewrite Hr1, <- Hnn, Hr].
    + done.
    + intros Heq. apply Hf. rewrite <- Heq. exact Hnl.
    + destruct (bo_shape _ _ _ _ _ _ Hbufs BNormed) as [Hs Hd]. simpl in Hs, Hd. split; [by rewrite Hs, Hs1 | congruence].
    + unfold nrows in *. rewrite <- Hnn, Hr. lia.
    + unfold nrows. rewrite Hs1. simpl. lia.
    + intros d2 Hl2 Hw Hs2. apply runs_ret.
      assert (t_rows d2 lt = [default [] (last (e BNormed))]) as Hrow.
      { rewrite Hw, Hr1. destruct Hv1 as [_ Hv1]. unfold nrows in Hv1. rewrite Hs1 in Hv1. simpl in Hv1.
        destruct (t_rows d1 lt) as [|x [|]]; [done | | done]. rewrite last_row_insert by done.
        rewrite last_lookup. destruct (lookup_lt_is_Some_2 (e BNormed) (pred (length (e BNormed)))) as [y Hy]; [lia |]. by rewrite Hy. }
      assert (t_valid d2 lt) as Hv2.
      { split; [unfold t_live; rewrite Hl2; apply Hv1 |]. rewrite Hrow. unfold nrows. by rewrite Hs1. }
      split_and!; [done | done | done |]. split; [| by forall_list].
      split; [by rewrite Hl2 | done | done |]. intros id Hid. rewrite (Hs2 id); [by apply Hsame1 |].
      rewrite Hl1. set_solver.
  - assert (n = 1) as -> by lia. apply runs_ret. split_and!; [| done | | apply fresh_refl].
    + by apply (mem_valid cfg 1 hid sc O d0 Hbufs ∅ e d BNormed).
    + change (t_rows d (buf hid sc BNormed) = [default [] (last (e BNormed))]). rewrite Hr.
      destruct (e BNormed) as [|x [|]]; done.
Qed.

Lemma bufs_fresh : NoDup (tensor_id <$> hid :: scratch_list sc) ∧ b_live d0 = list_to_set (tensor_id <$> scratch_list sc) ∪ b_live dp.
Proof.
  destruct Hfresh as [[Hl Hnd Hnew _] _]. split; [| done]. rewrite fmap_cons. constructor; [| done].
  intros (u & Heq & Hu)%list_elem_of_fmap. apply (Hnew u Hu). by rewrite <- Heq.
Qed.

(** Giving the scratch tensors back, and the hidden states with them. *)
Lemma free_scratch_runs e d (own : bool) :
  mem n hid sc O d0 ∅ e d →
  runs b_failed (free_each ((if own then [hid] else []) ++ scratch_list sc)) d (λ d' _,
    b_live d' = b_live dp ∖ (if own then {[tensor_id hid]} else ∅) ∧ same_rows (b_live d') d d').
Proof.
  clear Hn Hpos from_f16. intros Hm. destruct bufs_fresh as [Hnd Hl0]. pose proof Hm as [Hlive _ _ _]. rewrite (union_empty_l_L _) in Hlive.
  assert (Forall (t_live d) (hid :: scratch_list sc)) as Hall.
  { change (hid :: scratch_list sc) with (buf hid sc <$> all_bufs). apply Forall_forall. intros u (b & -> & _)%list_elem_of_fmap.
    by apply (mem_live cfg n hid sc O d0 Hbufs ∅ e d b). }
  pose proof Hnd as Hnd'. rewrite fmap_cons in Hnd'. apply NoDup_cons in Hnd' as [_ Hnd']. apply Forall_cons in Hall as [Hhl Hsl].
  assert (∀ i, i ∈ tensor_id <$> scratch_list sc → i ∉ b_live dp) as Hsnew.
  { destruct Hfresh as [[_ _ Hnew _] _]. intros i (u & -> & Hu)%list_elem_of_fmap. by apply Hnew. }
  apply runs_free_each; [by destruct own | by destruct own; [constructor |] |].
  intros d' Hl' Hs'. split; [| done]. rewrite Hl', Hlive, Hl0, fmap_app.
  pose proof (freed_live (tensor_id <$> (if own then [hid] else [])) (tensor_id <$> scratch_list sc) [] [] (b_live dp)) as Hfl.
  rewrite app_nil_r, list_to_set_nil, union_empty_l_L in Hfl. rewrite Hfl; [| done | by intros i ?%not_elem_of_nil | done].
  destruct own; [by rewrite fmap_cons, fmap_nil, list_to_set_singleton_L | done].
Qed.

Lemma output_phase_runs nc e d hs :
  mem n hid sc O d0 ∅ e d → e BHidden = hs →
  constant hid sc O d0 (output_norm ws) → constant hid sc O d0 (lm_head ws) →
  shape (output_norm ws) = [hidden_size cfg] → shape (lm_head ws) = [vocab_size cfg; hidden_size cfg] →
  in_width 64 (vocab_size cfg * 2) →
  runs b_failed (output_phase from_f16 ws nc r sc) d (λ d' out,
    out = (if is_tail nc then
             Logits (ref_logits (D := D) cfg from_f16 (t_rows d0 (output_norm ws)) (t_rows d0 (lm_head ws)) (default [] (last hs)))
           else OutActivations hid) ∧
    b_live d' = b_live dp ∖ (if is_tail nc && owns_hidden r then {[tensor_id hid]} else ∅) ∧ same_rows (b_live d') d d').
Proof.
  intros Hm He Hon Hlm Hos Hls Hw. unfold output_phase. rewrite Hn. destruct bufs_fresh as [Hnd Hl0].
  pose proof Hm as [Hlive _ _ _].
  assert (Forall (t_live d) (hid :: scratch_list sc)) as Hall.
  { change (hid :: scratch_list sc) with (buf hid sc <$> all_bufs). apply Forall_forall. intros u (b & -> & _)%list_elem_of_fmap.
    by apply (mem_live cfg n hid sc O d0 Hbufs ∅ e d b). }
  apply Forall_cons in Hall as [Hhl Hsl]. rewrite fmap_cons in Hnd. apply NoDup_cons in Hnd as [Hhn Hnd].
  rewrite (union_empty_l_L _) in Hlive.
  assert (∀ i, i ∈ tensor_id <$> scratch_list sc → i ∉ b_live dp) as Hsnew.
  { destruct Hfresh as [[_ _ Hnew _] _]. intros i (u & -> & Hu)%list_elem_of_fmap. by apply Hnew. }
  destruct (is_tail nc); cbn [andb].
  2:{ apply runs_bind. eapply runs_mono; [| exact (free_scratch_runs e d false Hm)]. intros d' [] [Hl' Hs']. by apply runs_ret. }
  destruct (mem_constant cfg n hid sc O d0 Hbufs ∅ e d _ Hm Hlm) as [_ Hlr0].
  apply runs_bind. eapply runs_mono; [| by apply (rmsnorm_buf cfg n hid sc O d0 Hbufs ∅ e d BHidden BNormed (output_norm ws))].
  intros d1 [] [Hm1 [Hl1 Hf1]]. rewrite He in Hm1.
  apply runs_bind. eapply runs_mono; [| by eapply last_hidden_runs]. intros d2 lt (Hv2 & Hs2 & Hr2 & [Ha2 _]).
  destruct (mem_constant cfg n hid sc O d0 Hbufs ∅ _ d1 _ Hm1 Hlm) as [Hll1 Hlr1].
  assert (t_live d2 (lm_head ws) ∧ t_rows d2 (lm_head ws) = t_rows d0 (lm_head ws)) as [Hll2 Hlr2].
  { destruct Ha2 as [Hl2 _ _ Hr2']. split; [unfold t_live in *; rewrite Hl2; set_solver |]. rewrite <- Hlr1. by apply Hr2'. }
  apply runs_bind. eapply runs_mono; [| by apply (lm_logits_runs from_f16 cfg ws lt _ d2 Hv2 Hs2 Hr2)].
  intros d3 [lg ls] [Hls3 [Ha3 _]]. simpl in Hls3, Ha3. destruct (alloced_app _ _ _ _ _ Ha2 Ha3) as [Ha _].
  apply runs_bind. unfold runs at 1. destruct (k_synchronize_spec d3) as [->|(d' & er & -> & Hfl)]; [| done].
  set (own := if owns_hidden r then [hid] else []). set (temp := if bool_decide (1 < n) then [lt] else []) in *.
  assert (b_live d1 = b_live d0) as Hld1 by congruence. pose proof Ha as [HlA HndA HnewA HsA].
  assert (∀ u, u ∈ own ++ scratch_list sc → t_live d1 u) as Hold.
  { intros u [Hu|Hu]%elem_of_app; unfold t_live; rewrite Hl1; [unfold own in Hu; destruct (owns_hidden r) |].
    - apply list_elem_of_singleton in Hu as ->. exact Hhl.
    - by apply not_elem_of_nil in Hu.
    - rewrite Forall_forall in Hsl. by apply Hsl. }
  assert (∀ i, i ∈ tensor_id <$> lg :: temp → i ∉ b_live d0) as Htnew.
  { intros i (u & -> & Hu)%list_elem_of_fmap. rewrite <- Hld1. by apply HnewA. }
  assert (NoDup (tensor_id <$> own ++ scratch_list sc)) as Hnd1.
  { unfold own. destruct (owns_hidden r); [| done]. change ([hid] ++ scratch_list sc) with (hid :: scratch_list sc).
    rewrite fmap_cons. by constructor. }
  apply runs_bind, runs_free_each.
  - rewrite app_assoc, fmap_app. apply NoDup_app. split_and!; [done | | done].
    intros i (u & -> & Hu)%list_elem_of_fmap Hi. apply (Htnew _ Hi). rewrite <- Hld1. by apply Hold.
  - rewrite app_assoc. apply Forall_app. split; [| apply Forall_forall; intros u Hu; by eapply alloced_t_live].
    apply Forall_forall. intros u Hu. unfold t_live. rewrite HlA. apply elem_of_union_r. by apply Hold.
  - intros d4 Hl4 Hs4. apply runs_ret. split_and!.
    + simpl. rewrite Hls3, Hlr2. unfold upd. simpl. rewrite fmap_last.
      assert (length hs = n) as Hhn' by (rewrite <- He; apply (m_len _ _ _ _ _ _ _ _ Hm)).
      destruct (last hs) as [x|] eqn:Hlast; [done |]. apply last_None in Hlast as ->. simpl in Hhn'. lia.
    + rewrite Hl4, HlA, Hld1, Hl0, (fmap_app _ own), (fmap_app _ (scratch_list sc)).
      rewrite (freed_live (tensor_id <$> own) (tensor_id <$> scratch_list sc) (tensor_id <$> lg :: temp) (tensor_id <$> [lg] ++ temp)); [| done | | done].
      * unfold own. destruct (owns_hidden r); [by rewrite fmap_cons, fmap_nil, list_to_set_singleton_L | done].
      * intros i Hi Hb. apply (Htnew i Hi). rewrite Hl0. by apply elem_of_union_r.
    + intros i Hi. rewrite (Hs4 i Hi).
      assert (i ∈ b_live d1 ∧ ∀ b, b ≠ BHidden → i ≠ tensor_id (buf hid sc b)) as [Hi1 Hib].
      { rewrite Hl4, HlA in Hi. apply elem_of_difference in Hi as [Hi Hno]. rewrite elem_of_list_to_set in Hno. split.
        - apply elem_of_union in Hi as [Hi|Hi]; [| done]. exfalso. apply Hno. apply elem_of_list_to_set in Hi.
          rewrite !fmap_app, !elem_of_app. right; right. rewrite <- elem_of_app, <- fmap_app. exact Hi.
        - intros b Hb ->. apply Hno. rewrite !fmap_app, !elem_of_app. right; left. apply list_elem_of_fmap. eexists. split; [done |].
          apply (list_elem_of_lookup_2 _ (buf_pos b - 1)). by destruct b. }
      rewrite HsA by done. destruct (decide (i = tensor_id hid)) as [->|Hne].
      * change (t_rows d1 (buf hid sc BHidden) = t_rows d hid). rewrite (m_rows _ _ _ _ _ _ _ _ Hm1). unfold upd. simpl.
        by rewrite (m_rows _ _ _ _ _ _ _ _ Hm BHidden : t_rows d hid = _).
      * apply Hf1; [by rewrite <- Hl1 |]. intros b. destruct (decide (b = BHidden)) as [->|Hb]; [done | by apply Hib].
Qed.
End output.

(** ** The input of a pass *)

Section input.
Context {D : Type} `{KernelLaws D} `{!BackendLaws D}.
Implicit Types d : D.

(** The weights are on the device, none of the cache's tensors, and of the
    shapes the configuration says. *)
Record weights_ok (O : Z → Prop) d (ws : WeightStore) : Prop := {
  wo_live : ∀ u, u ∈ store_tensors ws → t_live d u ∧ O (tensor_id u);
  wo_layer : ∀ w f, w ∈ layers ws → shape (field w f) = field_shape (ws_config ws) f;
  wo_embedding : t_valid d (token_embedding ws) ∧ tail (shape (token_embedding ws)) = [hidden_size (ws_config ws)];
  wo_norm : shape (output_norm ws) = [hidden_size (ws_config ws)];
  wo_head : shape (lm_head ws) = [vocab_size (ws_config ws); hidden_size (ws_config ws)];
  wo_kv_width : in_width 64 (num_kv_heads (ws_config ws) * head_dim (ws_config ws));
  wo_vocab : in_width 64 (vocab_size (ws_config ws) * 2)
}.

(** What a node takes: the positions and rows of its input. *)
Definition input_ok (O : Z → Prop) d (ws : WeightStore) (nc : NodeConfig) (input : NodeInput) (ps : list Z) (hs : list Row) : Prop :=
  ps ≠ [] ∧ Forall (λ p, p < max_seq_len (ws_config ws))%Z ps ∧
  match input with
  | TokenIds ids positions =>
      is_head nc = true ∧ positions = ps ∧ length ids = length ps ∧
      Forall (λ i, 0 ≤ i < Z.of_nat (nrows (token_embedding ws)))%Z ids ∧
      hs = (λ i, default [] (t_rows d (token_embedding ws) !! Z.to_nat i)) <$> ids
  | Activations t positions =>
      is_head nc = false ∧ positions = ps ∧ t_valid d t ∧ O (tensor_id t) ∧ tensor_id t ∉ (tensor_id <$> store_tensors ws) ∧
      shape t = [Z.of_nat (length ps); hidden_size (ws_config ws)] ∧ dtype t = FP16 ∧ hs = t_rows d t
  end.

Definition is_tokens (input : NodeInput) : bool := match input with TokenIds _ _ => true | Activations _ _ => false end.
Definition input_tensor (input : NodeInput) : option DeviceTensor :=
  match input with TokenIds _ _ => None | Activations t _ => Some t end.

Lemma check_positions_Ok cfg ps : Forall (λ p, p < max_seq_len cfg)%Z ps → check_positions cfg ps = Ok ().
Proof.
  intros Hf. unfold check_positions. destruct ps as [|p ps]; [done |]. apply Forall_cons in Hf as [Hp Hf].
  destruct (Z.leb_spec (max_seq_len cfg) (foldl Z.max p ps)) as [Hle|]; [| done]. exfalso.
  revert p Hp Hle. induction ps as [|q ps IH]; simpl; intros p Hp Hle; [lia |].
  apply Forall_cons in Hf as [Hq Hf]. apply (IH Hf (Z.max p q)); [lia | done].
Qed.

Record resolved_ok (O : Z → Prop) d d1 (ws : WeightStore) (input : NodeInput) (ps : list Z) (hs : list Row) (r : Resolved) : Prop := {
  ro_positions : r_positions r = ps;
  ro_len : r_seq_len r = length ps;
  ro_owns : owns_hidden r = is_tokens input;
  ro_valid : t_valid d1 (hidden_state r);
  ro_rows : t_rows d1 (hidden_state r) = hs;
  ro_shape : shape (hidden_state r) = [Z.of_nat (length ps); hidden_size (ws_config ws)] ∧ dtype (hidden_state r) = FP16;
  ro_outside : O (tensor_id (hidden_state r));
  ro_weights : tensor_id (hidden_state r) ∉ (tensor_id <$> store_tensors ws);
  ro_live : b_live d1 = (if is_tokens input then {[tensor_id (hidden_state r)]} else ∅) ∪ b_live d;
  ro_fresh : is_tokens input = true → tensor_id (hidden_state r) ∉ b_live d;
  ro_input : ∀ t, input_tensor input = Some t → hidden_state r = t;
  ro_frame : same_rows (b_live d) d d1
}.

Definition embed d (ws : WeightStore) (ids : list Z) : list Row :=
  (λ i, default [] (t_rows d (token_embedding ws) !! Z.to_nat i)) <$> ids.

(** Embedding the tokens into a new tensor. *)
Lemma embed_runs O ws ids ps n d :
  weights_ok O d ws → (∀ id, id ∉ b_live d → O id) → length ids = length ps → n = length ids →
  Forall (λ i, 0 ≤ i < Z.of_nat (nrows (token_embedding ws)))%Z ids →
  runs b_failed (b_alloc [Z.of_nat (length ids); hidden_size (ws_config ws)] FP16) d (λ d1 t,
    runs b_failed (b_embedding ids (token_embedding ws) t) d1 (λ d2 _,
      resolved_ok O d d2 ws (TokenIds ids ps) ps (embed d ws ids)
        {| hidden_state := t; r_positions := ps; r_seq_len := n; owns_hidden := true |})).
Proof.
  intros Hws Hout Hlen -> Hids. apply (runs_alloc_more d d [] _ _ (fresh_refl d)). intros d1 t Hs1 Hd1 [Ha1 Hv1] _.
  apply Forall_cons in Hv1 as [Hv1 _]. pose proof Ha1 as [Hl1 _ Hnew1 Hsame1].
  assert (tensor_id t ∉ b_live d) as Hf by (apply Hnew1; left).
  destruct (wo_embedding _ _ _ Hws) as [[Hel Hen] Hes].
  assert (t_rows d1 (token_embedding ws) = t_rows d (token_embedding ws)) as Her by (by apply Hsame1).
  eapply runs_writes.
  { apply (k_embedding_spec d1 ids (token_embedding ws) t (Z.of_nat (length ids)) (hidden_size (ws_config ws))); try done.
    - split; [unfold t_live in *; rewrite Hl1; set_solver | by rewrite Her].
    - intros Heq. apply Hf. rewrite Heq. exact Hel. }
  intros d2 Hl2 Hrows Hf2. apply Forall_cons in Hrows as [Hrow _]. simpl in Hrow, Hf2. rewrite Her in Hrow.
  split; simpl; try done.
  - split; [unfold t_live; rewrite Hl2; apply Hv1 |]. rewrite Hrow, length_fmap. unfold nrows. rewrite Hs1. simpl. lia.
  - by rewrite Hs1, Hlen.
  - by apply Hout.
  - intros (u & Heq & Hu)%list_elem_of_fmap. apply Hf. rewrite Heq. by apply (wo_live _ _ _ Hws).
  - rewrite Hl2, Hl1. simpl. set_solver.
  - intros id Hid. rewrite Hf2; [by apply Hsame1 | rewrite Hl1; set_solver |].
    intros ->%list_elem_of_singleton. done.
Qed.

Lemma resolve_input_runs O ws nc input ps hs d :
  weights_ok O d ws → (∀ id, id ∉ b_live d → O id) → input_ok O d ws nc input ps hs →
  runs b_failed (resolve_input ws nc input) d (λ d1 r, resolved_ok O d d1 ws input ps hs r).
Proof.
  intros Hws Hout (Hne & _ & Hin). destruct input as [ids positions|t positions]; simpl in *.
  - destruct Hin as (-> & -> & Hlen & Hids & ->). simpl. rewrite bool_decide_false by (intros ->; by destruct ps).
    apply runs_bind. eapply runs_mono; [| by apply (embed_runs O ws ids ps (length ids) d)]. intros d1 t Hr.
    apply runs_bind. eapply runs_mono; [| exact Hr]. intros d2 [] Hres. by apply runs_ret.
  - destruct Hin as (-> & -> & Hv & HO & Hnw & Hs & Hd & ->). apply runs_ret.
    split; simpl; try done; [set_solver | by intros ? [= <-]].
Qed.

(** After the scratch tensors were allocated: they hold something, the weights
    are constants, and what was there before is still there. *)
Record setup_ok (O : Z → Prop) d d1 d0 (ws : WeightStore) (ps : list Z) (hs : list Row) (r : Resolved) (sc : Scratch) : Prop := {
  su_bufs : bufs_ok (ws_config ws) (length ps) (hidden_state r) sc O d0;
  su_fresh : fresh d1 d0 (scratch_list sc);
  su_old : ∀ id, id ∈ b_live d → id ∈ b_live d0 ∧ b_rows d0 id = b_rows d id;
  su_const : ∀ u, u ∈ store_tensors ws → constant (hidden_state r) sc O d0 u ∧ t_rows d0 u = t_rows d u;
  su_mem : mem (length ps) (hidden_state r) sc O d0 ∅ (λ b, t_rows d0 (buf (hidden_state r) sc b)) d0;
  su_hidden : t_rows d0 (hidden_state r) = hs
}.

Lemma buf_scratch hs sc b : b ≠ BHidden → buf hs sc b ∈ scratch_list sc.
Proof. intros Hb. apply (list_elem_of_lookup_2 _ (buf_pos b - 1)). by destruct b. Qed.

(** The scratch tensors just after they were allocated. *)
Lemma scratch_mem cfg n r sc (O : Z → Prop) d1 d0 :
  bufs_ok cfg n (hidden_state r) sc O d0 → fresh d1 d0 (scratch_list sc) → t_valid d1 (hidden_state r) →
  mem n (hidden_state r) sc O d0 ∅ (λ b, t_rows d0 (buf (hidden_state r) sc b)) d0.
Proof.
  intros Hbufs [[Sl Snd Snew Ssame] Sv] [Hhl Hhn]. split; [by rewrite union_empty_l_L | done | | done].
  assert (∀ b, nrows (buf (hidden_state r) sc b) = n) as Hnr.
  { intros b. unfold nrows. rewrite (proj1 (bo_shape _ _ _ _ _ _ Hbufs b)). simpl. lia. }
  intros b. rewrite <- (Hnr b). destruct (decide (b = BHidden)) as [->|Hb].
  - simpl. rewrite <- Hhn. unfold t_rows. by rewrite (Ssame _ Hhl).
  - rewrite Forall_forall in Sv. by apply Sv, buf_scratch.
Qed.

Lemma setup_runs O ws input ps hs d d1 r :
  weights_ok O d ws → (∀ id, id ∉ b_live d → O id) → resolved_ok O d d1 ws input ps hs r →
  runs b_failed (alloc_scratch (ws_config ws) (length ps)) d1 (λ d0 sc, setup_ok O d d1 d0 ws ps hs r sc).
Proof.
  intros Hws Hout [Rp Rn Rown Rv Rr [Rs Rd] RO Rw Rl Rf Ri Rfr].
  eapply runs_mono; [| apply (alloc_scratch_runs (ws_config ws) (length ps) (hidden_state r) O d1); try done].
  2:{ apply Rv. }
  2:{ intros id Hid. apply Hout. intros Hd. apply Hid. rewrite Rl. set_solver. }
  2:{ apply (wo_kv_width _ _ _ Hws). }
  intros d0 sc [Hbufs Hfresh]. pose proof Hfresh as [[Sl Snd Snew Ssame] Sv].
  assert (∀ id, id ∈ b_live d → id ∈ b_live d0 ∧ b_rows d0 id = b_rows d id) as Hdd0.
  { intros id Hid. assert (id ∈ b_live d1) by (rewrite Rl; set_solver). split; [rewrite Sl; set_solver |].
    rewrite (Ssame id) by done. by apply Rfr. }
  split; [done | done | done | | by eapply scratch_mem | rewrite <- Rr; apply Ssame, Rv].
  intros u Hu. destruct (wo_live _ _ _ Hws u Hu) as [Hul HuO]. destruct (Hdd0 _ Hul) as [Hul0 Hur].
  split; [split_and!; try done | exact Hur].
  intros b Heq. destruct (decide (b = BHidden)) as [->|Hb]; [apply Rw; apply list_elem_of_fmap; by exists u |].
  apply (Snew (buf (hidden_state r) sc b)); [by apply buf_scratch |]. rewrite <- Heq, Rl. unfold t_live in Hul. set_solver.
Qed.
(** The hidden states a node hands on. *)
Definition activations_ok d d' (ws : WeightStore) (input : NodeInput) (ps : list Z) (hs : list Row) (t : DeviceTensor) : Prop :=
  t_valid d' t ∧ t_rows d' t = hs ∧ shape t = [Z.of_nat (length ps); hidden_size (ws_config ws)] ∧ dtype t = FP16 ∧
  match input with
  | TokenIds _ _ => tensor_id t ∉ b_live d ∧ b_live d' = {[tensor_id t]} ∪ b_live d
  | Activations t' _ => t = t' ∧ b_live d' = b_live d
  end.

(** The tensors that were there and are not the cache's, the input apart. *)
Definition rest_kept (O : Z → Prop) d d' (input : NodeInput) : Prop :=
  ∀ id, id ∈ b_live d → O id → (∀ t, input_tensor input = Some t → id ≠ tensor_id t) → b_rows d' id = b_rows d id.

(** From the end of the layers to the end of the pass: the scratch tensors are
    freed, and the hidden states when [done] and the pass had allocated them. *)
Lemma scratch_end (O : Z → Prop) d ws input ps hs r sc d1 d0 d2 d' e2 (done : bool) :
  resolved_ok O d d1 ws input ps hs r → setup_ok O d d1 d0 ws ps hs r sc → mem (length ps) (hidden_state r) sc O d0 ∅ e2 d2 →
  b_live d' = b_live d1 ∖ (if done && owns_hidden r then {[tensor_id (hidden_state r)]} else ∅) → same_rows (b_live d') d2 d' →
  (∀ id, id ∈ b_live d2 → ¬ O id → id ∈ b_live d' ∧ b_rows d' id = b_rows d2 id) ∧ rest_kept O d d' input ∧
  (if done then b_live d' = b_live d else activations_ok d d' ws input ps (e2 BHidden) (hidden_state r)).
Proof.
  intros [Rp Rn Rown Rv Rr [Rs Rd] RO Rw Rl Rf Ri Rfr] [Hbufs [[Sl _ Snew _] _] Hdd0 _ _ _] Hm2 Hlive' Hsame'.
  pose proof Hm2 as [Hl2 Hrows2 _ Hfr2]. rewrite union_empty_l_L in Hl2. rewrite Rown in Hlive'.
  assert (∀ id, id ∈ b_live d2 → ¬ O id → id ∈ b_live d' ∧ b_rows d' id = b_rows d2 id) as Hcache.
  { intros id Hid Ho. assert (id ∈ b_live d') as Hid'; [| split; [done | by apply Hsame']]. rewrite Hlive'. apply elem_of_difference. split.
    - rewrite Hl2, Sl in Hid. apply elem_of_union in Hid as [Hid|]; [| done]. exfalso. apply Ho.
      apply elem_of_list_to_set in Hid. apply list_elem_of_fmap in Hid as (u & -> & Hu).
      assert (u ∈ buf (hidden_state r) sc <$> all_bufs) as (b & -> & _)%list_elem_of_fmap by (right; exact Hu).
      apply (bo_outside _ _ _ _ _ _ Hbufs).
    - intros Hx. apply Ho. destruct (done && is_tokens input); [| set_solver]. apply elem_of_singleton in Hx as ->. exact RO. }
  split_and!; [done | |].
  - intros id Hid Ho Hnt. destruct (Hdd0 id Hid) as [Hid0 Hr0].
    assert (id ≠ tensor_id (hidden_state r)) as Hnh.
    { intros ->. destruct input as [ids ps'|t ps']; [by apply Rf | by apply (Hnt t eq_refl); rewrite (Ri t eq_refl)]. }
    rewrite Hsame', Hfr2; [done | done | done | |].
    + intros b Heq. destruct (decide (b = BHidden)) as [->|Hb]; [done |].
      apply (Snew (buf (hidden_state r) sc b)); [by apply buf_scratch | rewrite <- Heq, Rl; set_solver].
    + rewrite Hlive', Rl. destruct done, (is_tokens input); set_solver.
  - destruct done; cbn [andb] in Hlive'.
    + rewrite Hlive', Rl. destruct (is_tokens input); [specialize (Rf eq_refl) |]; set_solver.
    + rewrite difference_empty_L in Hlive'. unfold activations_ok.
      assert (t_rows d' (hidden_state r) = e2 BHidden) as Hr'.
      { rewrite <- (Hrows2 BHidden). apply Hsame'. rewrite Hlive'. apply Rv. }
      split_and!; try done.
      * split; [unfold t_live; rewrite Hlive'; apply Rv |]. rewrite Hr', (m_len _ _ _ _ _ _ _ _ Hm2).
        unfold nrows. rewrite Rs. simpl. lia.
      * destruct input as [ids ps'|t ps']; simpl in *; [split; [by apply Rf | congruence] |].
        split; [by apply Ri | by rewrite Hlive', Rl, union_empty_l_L].
Qed.

Lemma layer_in_store ws w f : w ∈ layers ws → field w f ∈ store_tensors ws.
Proof.
  intros Hw. unfold store_tensors. apply elem_of_app. left. apply list_elem_of_join. exists (layer_tensors w). split.
  - unfold layer_tensors. apply list_elem_of_fmap. exists f. split; [done | apply layer_fields_all].
  - apply list_elem_of_fmap. eauto.
Qed.

(** Weights keep their rows while only new tensors come in. *)
Lemma W0_same d d' w : (∀ f, t_rows d' (field w f) = t_rows d (field w f)) → W0 d' w = W0 d w.
Proof. intros Hf. unfold W0. by rewrite !Hf. Qed.

(** The weights of the executed layers and of the head, as constants. *)
Lemma setup_layers O d d1 d0 ws ps hs r sc (ls : list LayerWeights) :
  weights_ok O d ws → setup_ok O d d1 d0 ws ps hs r sc → (∀ w, w ∈ ls → w ∈ layers ws) →
  (∀ w f, w ∈ ls → constant (hidden_state r) sc O d0 (field w f) ∧ shape (field w f) = field_shape (ws_config ws) f) ∧
  W0 d0 <$> ls = W0 d <$> ls.
Proof.
  intros Hws Hsu Hls. split.
  - intros w f Hw. split; [by apply (su_const _ _ _ _ _ _ _ _ _ Hsu), layer_in_store, Hls | apply (wo_layer _ _ _ Hws), Hls, Hw].
  - apply list_fmap_ext. intros i w Hi. apply W0_same. intros f. apply (su_const _ _ _ _ _ _ _ _ _ Hsu), layer_in_store, Hls.
    by eapply list_elem_of_lookup_2.
Qed.

Lemma setup_head O d d1 d0 ws ps hs r sc u :
  setup_ok O d d1 d0 ws ps hs r sc → u ∈ [lm_head ws; output_norm ws] →
  constant (hidden_state r) sc O d0 u ∧ t_rows d0 u = t_rows d u.
Proof. intros Hsu Hu. apply (su_const _ _ _ _ _ _ _ _ _ Hsu). unfold store_tensors. apply elem_of_app. right. set_solver. Qed.

Lemma weights_ok_mono (O O' : Z → Prop) d ws : (∀ id, O id → O' id) → weights_ok O d ws → weights_ok O' d ws.
Proof. intros HO [? ? ? ? ? ? ?]. split; naive_solver. Qed.

Lemma input_ok_mono (O O' : Z → Prop) d ws nc input ps hs :
  (∀ id, O id → O' id) → input_ok O d ws nc input ps hs → input_ok O' d ws nc input ps hs.
Proof. intros HO. unfold input_ok. destruct input; naive_solver. Qed.
End input.

(** ** What the passes compute *)

Section paged_theory.
Context {C D : Type} `{PagedCacheLaws C D} `{!KernelLaws D} `{!BackendLaws D}.
Implicit Types c : C.
Implicit Types d : D.

(** The sequence [h] has [len] tokens, and layer [l] holds the entries [ess !! l]
    for the first of them. *)
Definition stores c d (h : Z) (len : nat) (ess : list (list pc_entry)) : Prop :=
  pc_seq_len h c = Ok len ∧
  ∀ l es, ess !! l = Some es → length es ≤ len ∧ ∀ pos x, es !! pos = Some x → pc_at c d h l pos = Some x.

(** Other sequences are as before. *)
Definition keeps_others c d c' d' (h : Z) : Prop :=
  ∀ h' len ess, h' ≠ h → stores c d h' len ess → stores c' d' h' len ess.

(** The cache is sound, of the layout of [c0], and computes what [c0] did on [dc]. *)
Record cache_inv c0 dc c d : Prop := {
  ci_ok : pc_ok c d;
  ci_codec : same_codec c0 dc c d;
  ci_layout : same_layout_of c0 c
}.

Lemma cache_inv_refl c d : pc_ok c d → cache_inv c d c d.
Proof. intros Hok. split; [done | split; by intros | split_and!; by intros]. Qed.

Lemma same_codec_trans c1 d1 c2 d2 c3 d3 : same_codec c1 d1 c2 d2 → same_codec c2 d2 c3 d3 → same_codec c1 d1 c3 d3.
Proof. intros [A1 B1] [A2 B2]. split; intros; [by rewrite A2 | by rewrite B2]. Qed.

Lemma same_layout_trans c1 c2 c3 : same_layout_of c1 c2 → same_layout_of c2 c3 → same_layout_of c1 c3.
Proof.
  intros (A1 & B1 & F1) (A2 & B2 & F2). split_and!; [intros id; by rewrite A2 | congruence | intros k; by rewrite F2].
Qed.

(** The cache depends on its own tensors only. *)
Lemma cache_frame c0 dc c d d' :
  cache_inv c0 dc c d → (∀ id, id ∈ b_live d → ¬ pc_outside c0 id → id ∈ b_live d' ∧ b_rows d' id = b_rows d id) →
  cache_inv c0 dc c d' ∧ ∀ h len ess, stores c d h len ess → stores c d' h len ess.
Proof.
  intros [Hok Hcd Hlay] Hf. destruct (pc_frame c d d' Hok) as (Hok' & Hcd' & Hat).
  { intros id Hid Hout. apply Hf; [done |]. intros Ho. apply Hout. by apply Hlay. }
  split; [split; [done | by eapply same_codec_trans | done] |].
  intros h len ess [Hl Hs]. split; [done |]. intros l es Hes. destruct (Hs l es Hes) as [Hle Hx].
  split; [done |]. intros pos x Hp. rewrite Hat. eauto.
Qed.

Lemma kv_input_rows c d t n : kv_input c d t n → length (t_rows d t) = n.
Proof. intros (Hs & _ & [_ Hn] & _). rewrite Hn. unfold nrows. rewrite Hs. simpl. lia. Qed.

Definition enc c d : nat → Row → Row → pc_entry := pc_encode c d.
Definition att c d (nkv : Z) : nat → list pc_entry → Row → Row := λ l, pc_attend c d l nkv.

Lemma append_stores c0 dc c d h len ess l es keys values n :
  cache_inv c0 dc c d → stores c d h len ess → ess !! l = Some es → l < (pc_dims c0).1.1 →
  kv_input c0 d keys n → kv_input c0 d values n → pc_fits c0 n →
  (l = 0 → len = length es ∧ pc_need c h n ≤ pc_free c) → (l ≠ 0 → len = length es + n) →
  ∃ c' d', pc_append_kv h l keys values (c, d) = ((c', d'), Ok ()) ∧ cache_inv c0 dc c' d' ∧ b_live d' = b_live d ∧
    stores c' d' h (length es + n) (<[l := es ++ zip_with (enc c0 dc l) (t_rows d keys) (t_rows d values)]> ess) ∧
    keeps_others c d c' d' h ∧ (∀ h' k, h' ≠ h → pc_need c' h' k = pc_need c h' k) ∧
    pc_free c' = pc_free c - (if bool_decide (l = 0) then pc_need c h n else 0) ∧
    (∀ id, id ∈ b_live d → pc_outside c0 id → b_rows d' id = b_rows d id).
Proof.
  intros [Hok Hcd Hlay] [Hlen Hs] Hes Hl Hk Hv Hfits H0' H1'. pose proof Hlay as (Hout & Hdims & Hfit).
  pose proof (kv_input_rows _ _ _ _ Hk) as Hkn. pose proof (kv_input_rows _ _ _ _ Hv) as Hvn.
  assert (∀ t, kv_input c0 d t n → kv_input c d t n) as Hin.
  { intros t (? & ? & ? & ?). unfold kv_input. rewrite Hdims. split_and!; try done. by apply Hout. }
  destruct (pc_append_spec c d h len l keys values n Hok Hlen) as
    (c' & d' & Hrun & Hok' & Hlive & Hlen' & Hoth & Hfree & Hnew & Hkept & Hcd' & Hlay' & Hfr);
    [by rewrite Hdims | auto | auto | by apply Hfit | intros ->; by apply H0' | intros Hne; rewrite (H1' Hne); lia |].
  assert ((if bool_decide (l = 0) then len else len - n) = length es) as Hstart.
  { case_bool_decide as Hl0; [by apply H0' | rewrite (H1' Hl0); lia]. }
  rewrite Hstart in *.
  assert (∀ h' len' l' pos, pc_seq_len h' c = Ok len' → pos < len' → (h' = h → l' = l → pos < length es) →
    pc_at c' d' h' l' pos = pc_at c d h' l' pos) as Hkept' by exact Hkept.
  exists c', d'. split_and!; try done.
  - split; [done | by eapply same_codec_trans | by eapply same_layout_trans].
  - split; [done |]. intros l' es' Hes'. apply list_lookup_insert_Some in Hes' as [(<- & <- & _)|[Hne Hes']].
    + destruct (Hs l es Hes) as [Hle Hx]. rewrite length_app, length_zip_with. split; [lia |].
      intros pos x Hp. destruct (decide (pos < length es)) as [Hlt|Hge].
      * rewrite lookup_app_l in Hp by done. rewrite (Hkept' h len) by (done || lia). eauto.
      * rewrite lookup_app_r in Hp by lia. apply lookup_zip_with_Some in Hp as (k & v & -> & Hrk & Hrv).
        destruct Hcd as [Henc _]. unfold enc. rewrite <- Henc, <- (Hnew _ k v Hrk Hrv). f_equal. lia.
    + destruct (Hs l' es' Hes') as [Hle Hx]. split; [case (decide (l = 0)); intros; [destruct H0'; lia | rewrite H1' in Hle by done; lia] |].
      intros pos x Hp. apply lookup_lt_Some in Hp as Hlt. rewrite (Hkept' h len) by (done || lia). eauto.
  - intros h' len' ess' Hne [Hl' Hs']. split; [by rewrite (proj1 (Hoth h' Hne)) |]. intros l' es' Hes'.
    destruct (Hs' l' es' Hes') as [Hle Hx]. split; [done |]. intros pos x Hp. apply lookup_lt_Some in Hp as Hlt.
    rewrite (Hkept' h' len') by (done || lia). eauto.
  - intros h' k Hne. by apply Hoth.
  - intros id Hid Ho. apply Hfr; [done | by apply Hout].
Qed.

(** Attention over what the sequence stores. *)
Lemma dispatch_runs c0 dc c d h len ess l es q out nq start :
  cache_inv c0 dc c d → stores c d h len ess → ess !! l = Some es → length es = len → l < (pc_dims c0).1.1 →
  t_valid d q → t_valid d out → tensor_id out ≠ tensor_id q → pc_outside c0 (tensor_id out) →
  shape q = [Z.of_nat (length (t_rows d q)); nq; (pc_dims c0).2] → shape out = shape q →
  len = start + length (t_rows d q) →
  writes d [(out, imap (λ i r, att c0 dc (pc_dims c0).1.2 l (window start i es) r) (t_rows d q))]
    (pc_dispatch_attention c q h l (pc_dims c0).1.2 len start out d).
Proof.
  intros [Hok [_ Hatt] (Hout & Hdims & _)] [Hlen Hs] Hes Hl Hld Hq Ho Hne Hoo Hqs Hos Hkv.
  pose proof (pc_dispatch_spec c d q h len l len start out nq es Hok Hlen) as Hd. rewrite Hdims in Hd.
  unfold att. erewrite imap_ext; [apply Hd | intros i r _; simpl; symmetry; apply Hatt]; try done.
  - by apply Hout.
  - intros pos Hpos. destruct (lookup_lt_is_Some_2 es pos) as [x Hx]; [lia |]. rewrite Hx. by apply (Hs l es Hes).
Qed.

Variables (cfg : ModelConfig) (n : nat) (c0 : C) (dc d0 : D) (r : Resolved) (sc : Scratch) (nl : nat).
Notation hid := (hidden_state r).
Notation nkv := (num_kv_heads cfg).
Notation O := (pc_outside c0).
Hypothesis Hdims : pc_dims c0 = (nl, nkv, head_dim cfg).
Hypothesis Hfits : pc_fits c0 n.
Hypothesis Hbufs : bufs_ok cfg n hid sc O d0.

(** Keys, values and queries in the scratch tensors. *)
Lemma mem_kv_input X e d b : mem n hid sc O d0 X e d → kv_input c0 d (view (buf hid sc b) [Z.of_nat n; nkv; head_dim cfg]) n.
Proof.
  intros Hm. unfold kv_input. rewrite Hdims. split_and!; try done.
  - by apply (mem_valid cfg n hid sc O d0 Hbufs X e).
  - apply (bo_outside _ _ _ _ _ _ Hbufs).
Qed.

(** The cache is not touched by what happens in the scratch tensors. *)
Lemma local_cache c d d' :
  cache_inv c0 dc c d → local hid sc d d' → cache_inv c0 dc c d' ∧ ∀ h len ess, stores c d h len ess → stores c d' h len ess.
Proof.
  intros Hc [Hl Hf]. apply (cache_frame c0 dc c d d' Hc). intros id Hid Ho. split; [by rewrite Hl |]. apply Hf; [done |].
  intros b ->. apply Ho, (bo_outside _ _ _ _ _ _ Hbufs).
Qed.

Lemma local_keeps c d d' c2 d2 c3 d3 h :
  (∀ h len ess, stores c d h len ess → stores c d' h len ess) → keeps_others c d' c2 d2 h →
  (∀ h len ess, stores c2 d2 h len ess → stores c3 d3 h len ess) → keeps_others c d c3 d3 h.
Proof. intros H1' Hk H2' h' len ess Hne Hs. apply H2', Hk, H1'; done. Qed.

Lemma ref_new_zip W l ps hs :
  ref_new (D := D) cfg (enc c0 dc) W l ps hs =
  zip_with (enc c0 dc l) (zip_with (ref_k (D := D) cfg W) ps hs) (ref_v (D := D) cfg W <$> hs).
Proof. unfold ref_new. revert hs. induction ps as [|p ps IH]; intros [|h hs]; [done.. |]. csimpl. f_equal. apply IH. Qed.

Notation RL := (ref_layer (D := D) cfg (enc c0 dc) (att c0 dc nkv)).
Notation RN := (ref_new (D := D) cfg (enc c0 dc)).

Lemma dispatch_mem e c d h len ess k es start :
  cache_inv c0 dc c d → mem n hid sc O d0 ∅ e d → stores c d h len ess → ess !! k = Some es → k < nl →
  length es = len → len = start + n →
  runs dev_failed (pc_dispatch (q_mh cfg sc n) h k nkv len start (attn_out cfg sc n)) (c, d) (λ s _,
    s.1 = c ∧ after n hid sc O d0 ∅ (upd BAttn (imap (λ i q, att c0 dc nkv k (window start i es) q) (e BQ)) e) d s.2).
Proof.
  intros Hc Hm Hst Hes Hk Hlen Hstart. assert (length (e BQ) = n) as Hqn by apply (m_len _ _ _ _ _ _ _ _ Hm).
  assert (t_rows d (q_mh cfg sc n) = e BQ) as Hq by apply (m_rows _ _ _ _ _ _ _ _ Hm BQ).
  pose proof (dispatch_runs c0 dc c d h len ess k es (q_mh cfg sc n) (attn_out cfg sc n) (num_q_heads cfg) start Hc Hst Hes Hlen) as Hd.
  rewrite Hdims, Hq, Hqn in Hd. cbn [fst snd] in Hd. unfold pc_dispatch. apply runs_dev.
  eapply runs_mono; [| apply (runs_mem cfg n hid sc O d0 Hbufs ∅ e d BAttn (attn_out cfg sc n)); [done | done | | apply Hd]];
    [intros d' [] Ha; split; [done | exact Ha] | by rewrite length_imap | try done..].
  - by apply (mem_valid cfg n hid sc O d0 Hbufs ∅ e d BQ).
  - by apply (mem_valid cfg n hid sc O d0 Hbufs ∅ e d BAttn).
  - by apply (buf_ne cfg n hid sc O d0 Hbufs ∅ e d BAttn BQ).
  - apply (bo_outside _ _ _ _ _ _ Hbufs BAttn).
Qed.

Lemma paged_layer_runs E nc h w k e c d len ess es layer_idx weight_idx hs :
  nsub layer_idx (Z.to_nat (rstart (e_layer_range E))) = Ok weight_idx → ws_config (weights E) = cfg →
  nsub layer_idx (Z.to_nat (rstart (nc_layer_range nc))) = Ok k → layers (weights E) !! weight_idx = Some w →
  r_seq_len r = n → length (r_positions r) = n →
  (∀ f, constant hid sc O d0 (field w f) ∧ shape (field w f) = field_shape cfg f) →
  cache_inv c0 dc c d → mem n hid sc O d0 ∅ e d → e BHidden = hs → stores c d h len ess → ess !! k = Some es → k < nl →
  (k = 0 → len = length es ∧ pc_need c h n ≤ pc_free c) → (k ≠ 0 → len = length es + n) →
  runs dev_failed (paged_layer E nc h r sc (length es) layer_idx) (c, d) (λ s _, ∃ e',
    cache_inv c0 dc s.1 s.2 ∧ mem n hid sc O d0 ∅ e' s.2 ∧ e' BHidden = RL (W0 d0 w) k es (r_positions r) hs ∧
    stores s.1 s.2 h (length es + n) (<[k := es ++ RN (W0 d0 w) k (r_positions r) hs]> ess) ∧ keeps_others c d s.1 s.2 h).
Proof.
  intros Hwi Hcfg Hki Hwk Hn Hps Hw Hc Hm Hhs Hst Hes Hk Hk0 Hk1. unfold paged_layer. rewrite Hcfg, Hn.
  set (ps := r_positions r) in *. do 3 (apply runs_bind; eapply runs_lift; [(eassumption || by apply index_Ok) |]).
  apply runs_bind, runs_dev. eapply runs_mono; [| by apply (pre_attention_step cfg n hid sc O d0 Hbufs w Hw ∅ e ps Hps)].
  intros d1 [] [Hm1 Hl1]. destruct (local_cache c d d1 Hc Hl1) as [Hc1 Hst1].
  destruct (pre_env_spec cfg d0 w ps e) as (Eq & Ek & Ev & Eh). rewrite Hhs in *.
  destruct (append_stores c0 dc c d1 h len ess k es (k_mh cfg sc n) (v_mh cfg sc n) n Hc1 (Hst1 _ _ _ Hst) Hes)
    as (c2 & d2 & Hrun & Hc2 & Hlive2 & Hst2 & Hkeep2 & _ & _ & Hfr2);
    [by rewrite Hdims | by apply (mem_kv_input ∅ (pre_env cfg d0 w ps e) d1 BK) | by apply (mem_kv_input ∅ (pre_env cfg d0 w ps e) d1 BV) | done | done | done |].
  apply runs_bind. unfold runs at 1. rewrite Hrun.
  set (e1 := pre_env cfg d0 w ps e) in *.
  assert (mem n hid sc O d0 ∅ e1 d2) as Hm2 by (by eapply (mem_outside cfg n hid sc O d0 Hbufs)).
  replace (zip_with (enc c0 dc k) (t_rows d1 (k_mh cfg sc n)) (t_rows d1 (v_mh cfg sc n))) with (RN (W0 d0 w) k ps hs) in Hst2.
  2:{ change (t_rows d1 (k_mh cfg sc n)) with (t_rows d1 (buf hid sc BK)). change (t_rows d1 (v_mh cfg sc n)) with (t_rows d1 (buf hid sc BV)).
      rewrite !(m_rows _ _ _ _ _ _ _ _ Hm1), ref_new_zip. by rewrite Ek, Ev. }
  set (es' := es ++ RN (W0 d0 w) k ps hs) in *.
  assert (length hs = n) as Hhn by (rewrite <- Hhs; apply (m_len _ _ _ _ _ _ _ _ Hm)).
  assert (length es' = length es + n) as Hes'.
  { unfold es'. rewrite length_app. unfold ref_new. rewrite length_zip_with. lia. }
  apply runs_bind. eapply runs_mono; [| eapply (dispatch_mem e1 c2 d2 h (length es + n) _ k es' (length es) Hc2 Hm2 Hst2); try done].
  2:{ rewrite list_lookup_insert_eq; [done |]. by apply lookup_lt_Some in Hes. }
  intros [c3 d3] [] [Heq [Hm3 Hl3]]. simpl in Heq, Hm3, Hl3. subst c3. destruct (local_cache c2 d2 d3 Hc2 Hl3) as [Hc3 Hst3].
  apply runs_dev. eapply runs_mono; [| by apply (post_attention_step cfg n hid sc O d0 Hbufs w Hw)].
  intros d4 [] [Hm4 Hl4]. destruct (local_cache c2 d3 d4 Hc3 Hl4) as [Hc4 Hst4].
  eexists. split_and!; [done | exact Hm4 | | auto |].
  - rewrite post_env_hidden. unfold upd. cbn [decide]. simpl. by rewrite Eh, Eq.
  - eapply local_keeps; [exact Hst1 | exact Hkeep2 | auto].
Qed.

Lemma keeps_others_trans c1 d1 c2 d2 c3 d3 h :
  keeps_others c1 d1 c2 d2 h → keeps_others c2 d2 c3 d3 h → keeps_others c1 d1 c3 d3 h.
Proof. intros A B h' len ess Hne Hs. apply B, A; done. Qed.

(** The layers from [k] on. *)
Lemma paged_layers_runs E nc h start ls off :
  ws_config (weights E) = cfg → r_seq_len r = n → length (r_positions r) = n →
  Z.to_nat (rstart (e_layer_range E)) + off = Z.to_nat (rstart (nc_layer_range nc)) →
  ∀ k c d e len done rest hs,
  (∀ i w, ls !! i = Some w → layers (weights E) !! (off + k + i) = Some w) →
  (∀ w f, w ∈ ls → constant hid sc O d0 (field w f) ∧ shape (field w f) = field_shape cfg f) →
  cache_inv c0 dc c d → mem n hid sc O d0 ∅ e d → e BHidden = hs → stores c d h len (done ++ rest) →
  length done = k → length rest = length ls → k + length ls ≤ nl → Forall (λ es, length es = start) rest →
  (k = 0 → len = start ∧ pc_need c h n ≤ pc_free c) → (k ≠ 0 → len = start + n) →
  runs dev_failed (siter (paged_layer E nc h r sc start) (seq (Z.to_nat (rstart (nc_layer_range nc)) + k) (length ls))) (c, d) (λ s _, ∃ e',
    cache_inv c0 dc s.1 s.2 ∧ mem n hid sc O d0 ∅ e' s.2 ∧
    e' BHidden = (ref_layers (D := D) cfg (enc c0 dc) (att c0 dc nkv) (W0 d0 <$> ls) k rest (r_positions r) hs).1 ∧
    stores s.1 s.2 h (if bool_decide (ls = []) then len else start + n)
      (done ++ (ref_layers (D := D) cfg (enc c0 dc) (att c0 dc nkv) (W0 d0 <$> ls) k rest (r_positions r) hs).2) ∧
    keeps_others c d s.1 s.2 h).
Proof.
  intros Hcfg Hn Hps Hoff. induction ls as [|w ls IH]; intros k c d e len done rest hs Hwi Hw Hc Hm He Hst Hdone Hlen Hnl Hstart Hk0 Hk1.
  { destruct rest; [| done]. apply runs_ret. exists e. split_and!; [done | done | done | done | by intros h' ? ? _]. }
  destruct rest as [|es rest]; [done |]. apply Forall_cons in Hstart as [Hes Hstart]. cbn [length seq siter].
  assert ((done ++ es :: rest) !! k = Some es) as Hlk by (rewrite lookup_app_r, Hdone, Nat.sub_diag by lia; done).
  pose proof (paged_layer_runs E nc h w k e c d len (done ++ es :: rest) es
      (Z.to_nat (rstart (nc_layer_range nc)) + k) (off + k) hs) as Hlayer. rewrite Hes in Hlayer.
  apply runs_bind. eapply runs_mono; [| apply Hlayer]; try done; clear Hlayer.
  - intros [c1 d1] [] (e1 & Hc1 & Hm1 & He1 & Hst1 & Hkeep1). simpl in Hc1, Hm1, Hst1, Hkeep1.
    rewrite insert_app_r_alt in Hst1 by lia. rewrite Hdone, Nat.sub_diag in Hst1. cbn [insert list_insert] in Hst1.
    replace (S (Z.to_nat (rstart (nc_layer_range nc)) + k)) with (Z.to_nat (rstart (nc_layer_range nc)) + S k) by lia.
    set (es1 := es ++ RN (W0 d0 w) k (r_positions r) hs) in *.
    eapply runs_mono; [| apply (IH (S k) c1 d1 e1 (start + n) (done ++ [es1]) rest
      (RL (W0 d0 w) k es (r_positions r) hs))]; try done.
    + intros [c2 d2] [] (e2 & Hc2 & Hm2 & He2 & Hst2 & Hkeep2). cbn [fst snd] in *. exists e2. rewrite fmap_cons. cbn [ref_layers].
      destruct (ref_layers cfg (enc c0 dc) (att c0 dc nkv) (W0 d0 <$> ls) (S k) rest (r_positions r) _) as [hs' ess'] eqn:Er.
      cbn [fst snd] in *. rewrite <- app_assoc in Hst2. split_and!; try done.
      * by destruct (bool_decide (ls = [])).
      * by eapply keeps_others_trans.
    + intros i w' Hi. replace (off + S k + i) with (off + k + S i) by lia. by apply Hwi.
    + intros w' f Hw'. apply Hw. by right.
    + by rewrite <- app_assoc.
    + rewrite length_app. simpl. lia.
    + simpl in Hlen. lia.
    + simpl in Hnl. lia.
  - rewrite nsub_Ok by lia. f_equal. lia.
  - rewrite nsub_Ok by lia. f_equal. lia.
  - replace (off + k) with (off + k + 0) by lia. by apply Hwi.
  - intros f. apply Hw. left.
  - simpl in Hnl. lia.
Qed.
End paged_theory.

(** ** Forward passes compute the reference *)

(** The layers a node executes. *)
Definition node_offset (E : Engine) (nc : NodeConfig) : nat :=
  Z.to_nat (rstart (nc_layer_range nc)) - Z.to_nat (rstart (e_layer_range E)).
Definition node_len (nc : NodeConfig) : nat := Z.to_nat (range_len (nc_layer_range nc)).
Definition node_layers (E : Engine) (nc : NodeConfig) : list LayerWeights :=
  take (node_len nc) (drop (node_offset E nc) (layers (weights E))).
(** The node's range lies in the layers that the engine has loaded. *)
Definition node_ok (E : Engine) (nc : NodeConfig) : Prop :=
  (0 ≤ rstart (e_layer_range E) ≤ rstart (nc_layer_range nc))%Z ∧ (rstart (nc_layer_range nc) < rend (nc_layer_range nc))%Z ∧
  node_offset E nc + node_len nc ≤ length (layers (weights E)).

Section paged_spec.
Context {C D : Type} `{PagedCacheLaws C D} `{!KernelLaws D} `{!BackendLaws D}.
Implicit Types c : C.
Implicit Types d : D.
Variable from_f16 : Z → f32.

(** The reference on the weights and the cache's codec. *)
Definition ref_pass c d (E : Engine) (nc : NodeConfig) (ess : list (list pc_entry)) (ps : list Z) (hs : list Row)
    : list Row * list (list pc_entry) :=
  ref_layers (D := D) (ws_config (weights E)) (enc c d) (att c d (num_kv_heads (ws_config (weights E))))
    (W0 d <$> node_layers E nc) 0 ess ps hs.
Definition ref_head d (E : Engine) (hs : list Row) : list f32 :=
  ref_logits (D := D) (ws_config (weights E)) from_f16 (t_rows d (output_norm (weights E))) (t_rows d (lm_head (weights E)))
    (default [] (last hs)).

(** The output: logits, with no tensor left over, or the hidden states. *)
Definition output_ok d d' (E : Engine) (nc : NodeConfig) (input : NodeInput) (ps : list Z) (hs : list Row) (out : NodeOutput) : Prop :=
  match out with
  | Logits l => is_tail nc = true ∧ l = ref_head d E hs ∧ b_live d' = b_live d
  | OutActivations t => is_tail nc = false ∧ activations_ok d d' (weights E) input ps hs t
  end.

Definition pass_ok c d (E : Engine) (nc : NodeConfig) (input : NodeInput) (h : Z) (len : nat) (ess : list (list pc_entry))
    (ps : list Z) (hs : list Row) (s : C * D) (out : NodeOutput) : Prop :=
  let '(hs', ess') := ref_pass c d E nc ess ps hs in
  pc_ok s.1 s.2 ∧ stores s.1 s.2 h (len + length ps) ess' ∧ keeps_others c d s.1 s.2 h ∧
  rest_kept (pc_outside c) d s.2 input ∧ output_ok d s.2 E nc input ps hs' out.

Lemma node_layers_lookup E nc i w :
  node_layers E nc !! i = Some w → layers (weights E) !! (node_offset E nc + 0 + i) = Some w.
Proof. intros [Hi _]%lookup_take_Some. by rewrite lookup_drop, <- Nat.add_assoc in *. Qed.

Lemma node_layers_in E nc w : w ∈ node_layers E nc → w ∈ layers (weights E).
Proof. intros [i Hi%node_layers_lookup]%list_elem_of_lookup. by eapply list_elem_of_lookup_2. Qed.

Lemma length_node_layers E nc : node_ok E nc → length (node_layers E nc) = node_len nc ∧ 0 < node_len nc.
Proof.
  intros (Hs & Hr & Hl). unfold node_layers. rewrite length_take, length_drop. split; [lia |]. unfold node_len, range_len. lia.
Qed.

(** From the end of the layers to the end of the pass, with the cache. *)
Lemma pass_end c d ws input ps hs r sc d1 d0 c2 d2 d' e2 (done : bool) :
  resolved_ok (pc_outside c) d d1 ws input ps hs r → setup_ok (pc_outside c) d d1 d0 ws ps hs r sc →
  cache_inv c d c2 d2 → mem (length ps) (hidden_state r) sc (pc_outside c) d0 ∅ e2 d2 →
  b_live d' = b_live d1 ∖ (if done && owns_hidden r then {[tensor_id (hidden_state r)]} else ∅) → same_rows (b_live d') d2 d' →
  cache_inv c d c2 d' ∧ (∀ h len ess, stores c2 d2 h len ess → stores c2 d' h len ess) ∧ rest_kept (pc_outside c) d d' input ∧
  (if done then b_live d' = b_live d else activations_ok d d' ws input ps (e2 BHidden) (hidden_state r)).
Proof.
  clear from_f16. intros Hres Hsu Hc2 Hm2 Hlive' Hsame'.
  destruct (scratch_end (pc_outside c) d ws input ps hs r sc d1 d0 d2 d' e2 done Hres Hsu Hm2 Hlive' Hsame') as (Hcache & Hrest & Hend).
  destruct (cache_frame c d c2 d2 d' Hc2 Hcache) as [Hc' Hst']. done.
Qed.

Lemma forward_node_paged_Ok E nc input h c d len ess ps hs :
  let cfg := ws_config (weights E) in
  pc_ok c d → pc_dims c = (node_len nc, num_kv_heads cfg, head_dim cfg) → pc_fits c (length ps) →
  node_ok E nc → weights_ok (pc_outside c) d (weights E) → input_ok (pc_outside c) d (weights E) nc input ps hs →
  stores c d h len ess → length ess = node_len nc → Forall (λ es, length es = len) ess →
  pc_need c h (length ps) ≤ pc_free c →
  runs dev_failed (forward_node_paged from_f16 E input nc h) (c, d) (pass_ok c d E nc input h len ess ps hs).
Proof.
  intros cfg Hok Hdims Hfits Hnc Hws Hin Hst Hess Hlens Hneed. set (O := pc_outside c) in *. set (n := length ps) in *.
  assert (∀ id, id ∉ b_live d → O id) as Hout by (intros id; by apply (pc_fresh c d)).
  unfold forward_node_paged. apply runs_bind, runs_dev.
  eapply runs_mono; [| by apply (resolve_input_runs O (weights E) nc input ps hs d)].
  intros d1 r Hres. pose proof Hres as [Rp Rn _ Rv _ _ _ _ _ _ _ _]. fold n in Rn.
  apply runs_bind. eapply runs_lift; [rewrite Rp; apply check_positions_Ok; by destruct Hin as (_ & ? & _) |].
  rewrite Rn. apply runs_bind, runs_dev. eapply runs_mono; [| by apply (setup_runs O (weights E) input ps hs d d1 r Hws Hout Hres)].
  intros d0 sc Hsu. pose proof Hsu as [Hbufs Hfresh Hdd0 _ Hm0 Hhid].
  destruct (cache_frame c d c d d0 (cache_inv_refl c d Hok)) as [Hc0 Hst0]; [intros id Hid _; by apply Hdd0 |].
  apply runs_bind. unfold pc_len, runs at 1. rewrite (proj1 Hst).
  destruct (length_node_layers E nc Hnc) as [Hnl Hnpos].
  destruct (setup_layers O d d1 d0 (weights E) ps hs r sc (node_layers E nc) Hws Hsu (node_layers_in E nc)) as [Hwc Hw0].
  assert (Z.to_nat (rstart (e_layer_range E)) + node_offset E nc = Z.to_nat (rstart (nc_layer_range nc))) as Hoff.
  { unfold node_offset. destruct Hnc as (? & _). lia. }
  pose proof (paged_layers_runs cfg n c d d0 r sc (node_len nc) Hdims Hfits Hbufs E nc h len (node_layers E nc) (node_offset E nc)
    eq_refl Rn) as Hloop.
  rewrite Rp in Hloop. specialize (Hloop eq_refl Hoff).
  unfold range_layers. fold (node_len nc). rewrite <- Hnl, <- (Nat.add_0_r (Z.to_nat (rstart (nc_layer_range nc)))).
  apply runs_bind. eapply runs_mono; [| apply (Hloop 0 c d0 _ len [] ess hs (node_layers_lookup E nc) Hwc Hc0 Hm0 Hhid)]; clear Hloop; try done.
  - intros [c2 d2] [] (e2 & Hc2 & Hm2 & He2 & Hst2 & Hkeep2). cbn [fst snd] in *. rewrite Hw0 in He2, Hst2.
    change (ref_layers cfg _ _ _ 0 ess ps hs) with (ref_pass c d E nc ess ps hs) in He2, Hst2.
    destruct (ref_pass c d E nc ess ps hs) as [hs' ess'] eqn:Eref. cbn [fst snd] in *.
    rewrite bool_decide_false in Hst2 by (intros Hnil; rewrite Hnil in Hnl; simpl in Hnl; lia).
    destruct (setup_head O d d1 d0 (weights E) ps hs r sc (lm_head (weights E)) Hsu ltac:(set_solver)) as [Hlc Hlr].
    destruct (setup_head O d d1 d0 (weights E) ps hs r sc (output_norm (weights E)) Hsu ltac:(set_solver)) as [Hoc Hor].
    apply runs_dev. eapply runs_mono; [| eapply (output_phase_runs from_f16 (weights E) n r sc O d1 d0 Hbufs Rn)]; try done.
    + intros d' out (-> & Hlive' & Hsame'). unfold pass_ok. rewrite Eref. cbn [fst snd].
      destruct (pass_end c d (weights E) input ps hs r sc d1 d0 c2 d2 d' e2 (is_tail nc) Hres Hsu Hc2 Hm2 Hlive' Hsame')
        as (Hc' & Hst' & Hrest & Hend).
      split_and!; [apply Hc' | by apply Hst' | | done |].
      * intros h' len' ess0 Hne Hs. apply Hst', Hkeep2, Hst0; done.
      * rewrite Hlr, Hor. unfold output_ok, ref_head. destruct (is_tail nc); [done |]. by rewrite <- He2.
    + subst n. destruct Hin as (Hne & _). destruct ps; [done | simpl; lia].
    + apply Rv.
    + apply (wo_norm _ _ _ Hws).
    + apply (wo_head _ _ _ Hws).
    + apply (wo_vocab _ _ _ Hws).
  - by apply Hst0.
  - by rewrite Hnl.
  - lia.
Qed.

(** C3: a forward pass of a node over a paged or quantized cache
    ([forward_node_paged]) computes the reference transformer.  For a sound
    cache with room for the new tokens, a node within the loaded layers, weights
    of the shapes the configuration says, and tokens (or a previous node's
    hidden states) at positions the RoPE table covers, the pass does not panic
    and fails only if the device reports a failure; otherwise the output is the
    logits of the last position (tail) or the hidden states of all positions,
    as the reference computes them from the cache's codec; the sequence then
    holds the reference's entries for the new tokens behind its old ones in
    every layer, other sequences and the other tensors on the device are as
    before, and no tensor but the returned one is left allocated. *)
Theorem forward_node_paged_spec E nc input h c d len ess ps hs :
  let cfg := ws_config (weights E) in
  pc_ok c d → pc_dims c = (node_len nc, num_kv_heads cfg, head_dim cfg) → pc_fits c (length ps) →
  node_ok E nc → weights_ok (pc_outside c) d (weights E) → input_ok (pc_outside c) d (weights E) nc input ps hs →
  stores c d h len ess → length ess = node_len nc → Forall (λ es, length es = len) ess →
  pc_need c h (length ps) ≤ pc_free c →
  runs dev_failed (forward_node_paged from_f16 E input nc h) (c, d) (pass_ok c d E nc input h len ess ps hs).
Proof. apply forward_node_paged_Ok. Qed.
End paged_spec.

(** ** A small model on the simulated device *)

Module TinyModel.
Definition tcfg : ModelConfig :=
  {| hidden_size := 2; num_layers := 2; num_q_heads := 1; num_kv_heads := 1; head_dim := 2; intermediate_size := 3; vocab_size := 2;
     rope_theta := f64_of_Z 10000; rms_norm_eps := f64_lit 1 5; max_seq_len := 16 |}.
Definition wt (id : Z) (sh : list Z) : DeviceTensor := {| tensor_id := id; shape := sh; dtype := FP16 |}.
Definition tlayer : LayerWeights :=
  {| q_proj := wt 1 [2; 2]; k_proj := wt 2 [2; 2]; v_proj := wt 3 [2; 2]; o_proj := wt 4 [2; 2]; gate_proj := wt 5 [3; 2];
     up_proj := wt 6 [3; 2]; down_proj := wt 7 [2; 3]; attn_norm := wt 8 [2]; ffn_norm := wt 9 [2] |}%Z.
(** [k] layers with the same weights *)
Definition tstore (k : nat) : WeightStore :=
  {| ws_config := tcfg; token_embedding := wt 10 [4; 2]; layers := replicate k tlayer; output_norm := wt 11 [2]; lm_head := wt 12 [2; 2] |}%Z.
Definition tdev : SimDevice :=
  {| sim_mem := {[ 1 := [[1; 2]; [0; 1]]; 2 := [[1; 0]; [1; 1]]; 3 := [[2; 1]; [1; 0]]; 4 := [[1; 1]; [0; 2]];
                   5 := [[1; 0]; [0; 1]; [1; 1]]; 6 := [[1; 1]; [1; 0]; [0; 1]]; 7 := [[1; 0; 1]; [0; 1; 1]]; 8 := [[1]; [2]]; 9 := [[2]; [1]];
                   10 := [[1; 0]; [0; 1]; [1; 1]; [2; 1]]; 11 := [[1]; [1]]; 12 := [[1; 0]; [1; 3]] ]}%Z;
     sim_room := 200 |}.
Definition tengine (k : nat) (r : LayerRange) : Engine := {| weights := tstore k; e_layer_range := r |}.
Definition full : LayerRange := {| rstart := 0; rend := 2 |}.
Definition fullnode : NodeConfig := {| nc_layer_range := full; total_layers := 2 |}.
Definition f16 (z : Z) : f32 := f32_of_Z z.

Lemma tstore_tensors k u : u ∈ store_tensors (tstore k) → (1 ≤ tensor_id u ≤ 12)%Z.
Proof.
  unfold store_tensors. intros [(ls & Hu & (w & -> & Hw)%list_elem_of_fmap)%list_elem_of_join|Hu]%elem_of_app.
  - simpl in Hw. apply elem_of_replicate in Hw as [-> _]. unfold layer_tensors in Hu. apply list_elem_of_fmap in Hu as (f & -> & _).
    by destruct f.
  - repeat (apply elem_of_cons in Hu as [->|Hu]; [done |]). by apply not_elem_of_nil in Hu.
Qed.

(** The weights stay in place while the rest of the device changes. *)
Lemma tweights (O : Z → Prop) (d : SimDevice) k :
  (∀ id, (1 ≤ id ≤ 12)%Z → O id ∧ id ∈ b_live d ∧ b_rows d id = b_rows tdev id) → weights_ok O d (tstore k).
Proof.
  intros Hw. split; try done.
  - intros u Hu%tstore_tensors. by destruct (Hw _ Hu) as (? & ? & _).
  - intros w f Hw'. simpl in Hw'. apply elem_of_replicate in Hw' as [-> _]. by destruct f.
  - destruct (Hw 10%Z) as (_ & ? & Hr); [done |]. split; [| done]. split; [done |]. unfold t_rows. cbn [token_embedding tstore wt tensor_id].
    by rewrite Hr.
Qed.
End TinyModel.

Module EngineWitness.
Import TinyModel.
Definition created := paged_new 3 2 1 2 tdev.
Definition no_pool : BlockPool :=
  {| k_blocks := []; v_blocks := []; free_list := []; capacity := 0; pool_num_layers := 0; pool_num_kv_heads := 0; pool_head_dim := 0 |}.
Definition m0 : PagedKvCacheManager := match created.2 with Ok m => m | _ => tables_new no_pool end.
Definition d1 : SimDevice := created.1.
Definition m1 : PagedKvCacheManager := (paged_alloc m0).1.

Lemma engine_cache_Ok : paged_new 3 2 1 2 tdev = (d1, Ok m0).
Proof. by vm_compute. Qed.

Lemma engine_m1_ok : pc_ok m1 d1.
Proof.
  destruct (paged_new_inv 3 2 1 2 tdev d1 m0 engine_cache_Ok) as ([Hinv Hp] & _). split; [| by vm_compute]. split; [by apply tables_alloc_inv |].
  assert (pool m1 = set_free_list [1; 2] (pool m0)) as -> by (by vm_compute). by apply pool_ok_set_free.
Qed.

Lemma m1_outside id : (1 ≤ id ≤ 12)%Z → pc_outside m1 id ∧ id ∈ b_live d1 ∧ b_rows d1 id = b_rows tdev id.
Proof.
  intros Hid.
  assert (Forall (λ u, 12 < tensor_id u)%Z (pool_tensors (pool m1))) as Hpool by decide_now.
  assert (Forall (λ i, i ∈ dom (sim_mem d1) ∧ sim_rows d1 i = sim_rows tdev i) [1; 2; 3; 4; 5; 6; 7; 8; 9; 10; 11; 12]%Z) as Hall by decide_now.
  rewrite Forall_forall in Hpool. rewrite Forall_forall in Hall. split; [intros u Hu; specialize (Hpool u Hu); lia |]. apply Hall.
  assert (id ∈ Z.of_nat <$> seq 1 12); [| done]. apply list_elem_of_fmap. exists (Z.to_nat id). split; [lia |]. apply elem_of_seq. lia.
Qed.

(** Two tokens into a new sequence of a paged cache, through two layers. *)
Lemma forward_node_paged_spec_witness :
  runs dev_failed (forward_node_paged f16 (tengine 2 full) (TokenIds [3; 1] [0; 1])%Z fullnode 0) (m1, d1)
    (pass_ok (C := PagedKvCacheManager) f16 m1 d1 (tengine 2 full) fullnode (TokenIds [3; 1] [0; 1])%Z 0 0 [[]; []] [0; 1]%Z [[2; 1]; [0; 1]]%Z).
Proof.
  apply (forward_node_paged_spec f16 (tengine 2 full) fullnode (TokenIds [3; 1] [0; 1])%Z 0 m1 d1 0 [[]; []] [0; 1]%Z [[2; 1]; [0; 1]]%Z).
  - exact engine_m1_ok.
  - by vm_compute.
  - done.
  - by vm_compute.
  - exact (tweights _ d1 2 m1_outside).
  - repeat split; try done; try (by vm_compute); by forall_list.
  - split; [by vm_compute |]. intros [|[|l]] es [= <-]; (split; [simpl; lia | done]).
  - done.
  - forall_list.
  - vm_compute. lia.
Defined.

(** The pass evaluated. *)
Example forward_paged_runs :
  (forward_paged f16 (tengine 2 full) [3; 1]%Z [0; 1]%Z 0 (m1, d1)).2 = Ok [f16 16331].
Proof. by vm_compute. Qed.
End EngineWitness.
