(* ===== verification/Batched.v ===== *)
(** * Batched forward passes ([crates/fracture-engine/src/batched.rs])

    The rows of all sequences of a batch go through the layers in one tensor;
    keys, values and attention are handled sequence by sequence, through copies
    of the sequence's rows.  The passes are proved against the reference of
    [Transformer], for each sequence alone. *)

From S2P Require Import Prelude F32 Core Backend Kernels BlockTables PagedCache CacheIface LayerScheduler WeightStore Transformer Engine.

(** [(offset, offset + n)] for each [n] *)
Fixpoint boundaries (offset : nat) (lens : list nat) : list (nat * nat) :=
  match lens with
  | [] => []
  | n :: lens' => (offset, offset + n) :: boundaries (offset + n) lens'
  end.

Section batched.
Context {C D : Type} `{PagedCacheOps C D}.
Variable from_f16 : Z → f32.

Section layer.
Variables (cfg : ModelConfig) (sc : Scratch) (total_tokens : nat) (cache_idx : nat).
Notation nkv := (num_kv_heads cfg).
Notation nq := (num_q_heads cfg).
Notation hd := (head_dim cfg).

(** Step 2e for one sequence: its keys and values, copied out of the batch,
    are appended to its cache. *)
Definition append_slice (hb : Z * (nat * nat)) : st (C * D) unit :=
  let '(h, (start, stop)) := hb in
  do! n := slift (nsub stop start) in
  do! k_slice := dev (b_alloc [Z.of_nat n; nkv; hd] FP16) in
  do! v_slice := dev (b_alloc [Z.of_nat n; nkv; hd] FP16) in
  do! _ := dev (b_copy_rows (k_mh cfg sc total_tokens) k_slice start 0 n) in
  do! _ := dev (b_copy_rows (v_mh cfg sc total_tokens) v_slice start 0 n) in
  do! _ := pc_append_kv h cache_idx k_slice v_slice in
  do! _ := dev (b_free k_slice) in
  dev (b_free v_slice).

(** Step 2f for one sequence. *)
Definition attend_slice (hbs : Z * (nat * nat) * nat) : st (C * D) unit :=
  let '(h, (start, stop), start_pos) := hbs in
  do! n := slift (nsub stop start) in
  do! q_slice := dev (b_alloc [Z.of_nat n; nq; hd] FP16) in
  do! _ := dev (b_copy_rows (q_mh cfg sc total_tokens) q_slice start 0 n) in
  do! attn_slice := dev (b_alloc [Z.of_nat n; nq; hd] FP16) in
  do! _ := pc_dispatch q_slice h cache_idx nkv (start_pos + n) start_pos attn_slice in
  do! _ := dev (b_copy_rows attn_slice (attn_out cfg sc total_tokens) 0 start n) in
  do! _ := dev (b_free q_slice) in
  dev (b_free attn_slice).
End layer.

(** The layer loop's body. *)
Definition batched_layer (ws : WeightStore) (range_start : nat) (r : Resolved) (sc : Scratch) (hbs : list (Z * (nat * nat) * nat))
    (layer_idx : nat) : st (C * D) unit :=
  let cfg := ws_config ws in
  do! weight_idx := slift (nsub layer_idx range_start) in
  do! w := slift (index (layers ws) weight_idx) in
  do! _ := dev (pre_attention cfg w (hidden_state r) sc (r_seq_len r) (r_positions r)) in
  do! _ := siter (append_slice cfg sc (r_seq_len r) weight_idx) (hbs.*1) in
  do! _ := siter (attend_slice cfg sc (r_seq_len r) weight_idx) hbs in
  dev (post_attention cfg w (hidden_state r) sc (r_seq_len r)).

(** The logits of the last row of each sequence. *)
Definition slice_logits (ws : WeightStore) (sc : Scratch) (bound : nat * nat) : st D (list f32) :=
  let cfg := ws_config ws in
  do! last_idx := slift (nsub bound.2 1) in
  do! last_hidden := b_alloc [1%Z; hidden_size cfg] FP16 in
  do! _ := b_copy_rows (normed sc) last_hidden last_idx 0 1 in
  do! ll := lm_logits from_f16 cfg ws last_hidden in
  do! _ := b_free last_hidden in
  do! _ := b_free ll.1 in
  sret ll.2.

(** Final norm and logits of every sequence. *)
Definition batched_logits (ws : WeightStore) (r : Resolved) (sc : Scratch) (bounds : list (nat * nat)) : st D (list (list f32)) :=
  do! _ := b_rmsnorm (hidden_state r) (output_norm ws) (rms_norm_eps (ws_config ws)) (normed sc) in
  do! per_seq_logits := smapM (slice_logits ws sc) bounds in
  do! _ := b_synchronize in
  sret per_seq_logits.

Definition start_positions (handles : list Z) : st (C * D) (list nat) := λ '(c, d), ((c, d), rmapM (λ h, pc_seq_len h c) handles).

Definition batched_forward (ws : WeightStore) (layer_range : LayerRange) (sequences : list SequenceSlice) : st (C * D) (list (list f32)) :=
  if bool_decide (sequences = []) then sret []
  else
    let cfg := ws_config ws in
    let all_token_ids := mjoin (sl_token_ids <$> sequences) in
    let all_positions := mjoin (sl_positions <$> sequences) in
    let bounds := boundaries 0 (length ∘ sl_token_ids <$> sequences) in
    let total_tokens := length all_token_ids in
    do! starts := start_positions (sl_handle <$> sequences) in
    do! hs := dev (b_alloc [Z.of_nat total_tokens; hidden_size cfg] FP16) in
    do! _ := dev (b_embedding all_token_ids (token_embedding ws) hs) in
    let r := {| hidden_state := hs; r_positions := all_positions; r_seq_len := total_tokens; owns_hidden := true |} in
    do! sc := dev (alloc_scratch cfg total_tokens) in
    do! _ := siter (batched_layer ws (Z.to_nat (rstart layer_range)) r sc (zip (zip (sl_handle <$> sequences) bounds) starts))
               (range_layers layer_range) in
    do! logits := dev (batched_logits ws r sc bounds) in
    do! _ := dev (free_each (hs :: scratch_list sc)) in
    sret logits.

(** The input of a node: embeddings at the head, the given activations elsewhere. *)
Definition batched_input (ws : WeightStore) (nc : NodeConfig) (sequences : list SequenceSlice) (total_tokens : nat)
    (input_hidden_states : option DeviceTensor) : st D (DeviceTensor * bool) :=
  let hidden := hidden_size (ws_config ws) in
  if is_head nc then
    match input_hidden_states with
    | Some _ => serr (Pipeline "head node received activations in batched_forward_node")
    | None =>
        let all_token_ids := mjoin (sl_token_ids <$> sequences) in
        if negb (bool_decide (length all_token_ids = total_tokens)) then serr (InvalidShape "token count mismatch")
        else
          do! hs := b_alloc [Z.of_nat total_tokens; hidden] FP16 in
          do! _ := b_embedding all_token_ids (token_embedding ws) hs in
          sret (hs, true)
    end
  else
    match input_hidden_states with
    | Some hs =>
        do! s0 := slift (index (shape hs) 0) in
        do! s1 := slift (if (s0 =? Z.of_nat total_tokens)%Z then index (shape hs) 1 else Ok hidden) in
        if negb (s0 =? Z.of_nat total_tokens)%Z || negb (s1 =? hidden)%Z then
          (** the message shows both dimensions *)
          do! _ := slift (index (shape hs) 1) in
          serr (InvalidShape "activation shape doesn't match expected")
        else sret (hs, false)
    | None => serr (Pipeline "non-head node requires activations in batched_forward_node")
    end.

Definition batched_forward_node (ws : WeightStore) (nc : NodeConfig) (sequences : list SequenceSlice)
    (input_hidden_states : option DeviceTensor) : st (C * D) NodeOutput :=
  if bool_decide (sequences = []) then serr (Pipeline "batched_forward_node: no sequences")
  else
    let cfg := ws_config ws in
    let all_positions := mjoin (sl_positions <$> sequences) in
    let bounds := boundaries 0 (length ∘ sl_positions <$> sequences) in
    let total_tokens := length all_positions in
    do! hso := dev (batched_input ws nc sequences total_tokens input_hidden_states) in
    let r := {| hidden_state := hso.1; r_positions := all_positions; r_seq_len := total_tokens; owns_hidden := hso.2 |} in
    do! starts := start_positions (sl_handle <$> sequences) in
    do! sc := dev (alloc_scratch cfg total_tokens) in
    do! _ := siter (batched_layer ws (Z.to_nat (rstart (nc_layer_range nc))) r sc (zip (zip (sl_handle <$> sequences) bounds) starts))
               (range_layers (nc_layer_range nc)) in
    if is_tail nc then
      do! logits := dev (batched_logits ws r sc bounds) in
      do! _ := dev (free_each ((if owns_hidden r then [hso.1] else []) ++ scratch_list sc)) in
      sret (Logits (mjoin logits))
    else
      do! _ := dev b_synchronize in
      do! _ := dev (free_each (scratch_list sc)) in
      sret (OutActivations hso.1).
End batched.

(** ** One sequence of a batch *)

Section slices.
Context {D : Type} `{KernelLaws D} `{!BackendLaws D}.
Implicit Types d : D.

Lemma list_inserts_all {A : Type} (l k : list A) : length l = length k → list_inserts 0 l k = l.
Proof.
  intros Hl. apply list_eq. intros i. destruct (decide (i < length l)) as [Hi|Hi].
  - rewrite list_lookup_inserts by lia. f_equal. lia.
  - rewrite !lookup_ge_None_2; [done | lia | rewrite length_inserts; lia].
Qed.

(** What was there before stays, and is different from what is new. *)
Lemma fresh_keeps d d' ts u :
  fresh d d' ts → t_valid d u → t_valid d' u ∧ t_rows d' u = t_rows d u ∧ ∀ t, t ∈ ts → tensor_id u ≠ tensor_id t.
Proof.
  intros [[Hl _ Hnew Hs] _] [Hul Hun]. unfold t_valid, t_live, t_rows in *. rewrite (Hs _ Hul).
  split_and!; try done; [rewrite Hl; set_solver |]. intros t Ht Heq. apply (Hnew t Ht). by rewrite <- Heq.
Qed.

(** Copying rows into a tensor that was just allocated. *)
Lemma runs_copy_into base d ts t src so n (Q : D → unit → Prop) :
  fresh base d ts → t ∈ ts → t_valid d src → tensor_id src ≠ tensor_id t → same_layout src t →
  so + n ≤ nrows src → nrows t = n →
  (∀ d', fresh base d' ts → b_live d' = b_live d → t_rows d' t = take n (drop so (t_rows d src)) →
     (∀ u, t_live d u → tensor_id u ≠ tensor_id t → t_rows d' u = t_rows d u) → Q d' ()) →
  runs b_failed (b_copy_rows src t so 0 n) d Q.
Proof.
  intros [Ha Hv] Ht Hsrc Hne Hlay Hso Hn HQ. rewrite Forall_forall in Hv. pose proof (Hv t Ht) as Hvt.
  pose proof Ha as [Hl Hnd Hnew Hsame].
  apply runs_copy_rows; try done; [lia |]. intros d' Hl' Hw Hs.
  destruct Hsrc as [_ Hsn].
  assert (length (take n (drop so (t_rows d src))) = length (t_rows d t)) as Hlen.
  { destruct Hvt as [_ ->]. rewrite length_take, length_drop. lia. }
  assert (∀ u, t_live d u → tensor_id u ≠ tensor_id t → t_rows d' u = t_rows d u) as Hother.
  { intros u Hu Hut. apply Hs. unfold t_live in Hu. set_solver. }
  apply HQ; [| done | by rewrite Hw, list_inserts_all | done].
  split; [split; [by rewrite Hl' | done | done |] | apply Forall_forall; intros u Hu].
  - intros id Hid. rewrite (Hs id); [by apply Hsame |]. specialize (Hnew t Ht). rewrite Hl. set_solver.
  - destruct (Hv u Hu) as [Hul Hun]. split; [unfold t_live; by rewrite Hl' |].
    destruct (decide (tensor_id u = tensor_id t)) as [Heq|Hut]; [| by rewrite Hother].
    unfold t_rows in *. rewrite Heq, Hw, length_inserts, <- Heq. done.
Qed.
(** Giving two tensors back. *)
Lemma free_pair_runs {X : Type} (x : X) d t u (L : gset Z) :
  b_live d = {[tensor_id u; tensor_id t]} ∪ L → tensor_id t ∉ L → tensor_id u ∉ L → tensor_id t ≠ tensor_id u →
  runs dev_failed (do! _ := dev (b_free t) in dev (b_free u)) (x, d) (λ s _, s.1 = x ∧ b_live s.2 = L ∧ same_rows L d s.2).
Proof.
  intros Hl Ht Hu Hne. apply runs_bind, runs_dev, runs_free; [unfold t_live; set_solver |]. intros d1 Hl1 Hs1.
  apply runs_dev, runs_free; [unfold t_live; rewrite Hl1; set_solver |]. intros d2 Hl2 Hs2. simpl.
  assert (b_live d2 = L) as HL by (rewrite Hl2, Hl1, Hl; set_solver). split_and!; [done | done |].
  intros id Hid. rewrite (Hs2 id), (Hs1 id); [done | rewrite Hl1; set_solver | by rewrite HL].
Qed.
End slices.

Section slice_theory.
Context {C D : Type} `{PagedCacheLaws C D} `{!KernelLaws D} `{!BackendLaws D}.
Implicit Types c : C.
Implicit Types d : D.
Variables (cfg : ModelConfig) (n : nat) (c0 : C) (dc d0 : D) (r : Resolved) (sc : Scratch) (nl : nat).
Notation hid := (hidden_state r).
Notation nkv := (num_kv_heads cfg).
Notation O := (pc_outside c0).
Hypothesis Hdims : pc_dims c0 = (nl, nkv, head_dim cfg).
Hypothesis Hbufs : bufs_ok cfg n hid sc O d0.
Notation M := (mem n hid sc O d0 ∅).

Lemma fresh_outside c d id : cache_inv c0 dc c d → id ∉ b_live d → O id.
Proof. intros Hc Hid. apply (ci_layout _ _ _ _ Hc). apply (pc_fresh c d id (ci_ok _ _ _ _ Hc) Hid). Qed.

(** New tensors leave the cache alone. *)
Lemma fresh_cache c d d' ts :
  cache_inv c0 dc c d → fresh d d' ts → cache_inv c0 dc c d' ∧ ∀ h len ess, stores c d h len ess → stores c d' h len ess.
Proof.
  intros Hc [[Hl _ _ Hs] _]. apply (cache_frame c0 dc c d d' Hc). intros id Hid _. split; [rewrite Hl; set_solver | by apply Hs].
Qed.

Lemma append_slice_runs c d e h len ess k es o m :
  cache_inv c0 dc c d → M e d → o + m ≤ n → stores c d h len ess → ess !! k = Some es → k < nl → pc_fits c0 m →
  (k = 0 → len = length es ∧ pc_need c h m ≤ pc_free c) → (k ≠ 0 → len = length es + m) →
  runs dev_failed (append_slice cfg sc n k (h, (o, o + m))) (c, d) (λ s _,
    cache_inv c0 dc s.1 s.2 ∧ M e s.2 ∧
    stores s.1 s.2 h (length es + m) (<[k := es ++ zip_with (enc c0 dc k) (take m (drop o (e BK))) (take m (drop o (e BV)))]> ess) ∧
    keeps_others c d s.1 s.2 h ∧ (∀ h' j, h' ≠ h → pc_need s.1 h' j = pc_need c h' j) ∧
    pc_free s.1 = pc_free c - (if bool_decide (k = 0) then pc_need c h m else 0)).
Proof.
  intros Hc Hm Ho Hst Hes Hk Hfits Hk0 Hk1. unfold append_slice. rewrite nsub_Ok by lia. replace (o + m - o) with m by lia.
  apply runs_bind. eapply runs_lift; [done |].
  apply runs_bind, runs_dev, (runs_alloc_more d d [] _ _ (fresh_refl d)). intros d1 kt Hks Hkd Hf1 _.
  apply runs_bind, runs_dev, (runs_alloc_more d d1 [kt] _ _ Hf1). intros d2 vt Hvs Hvd Hf2 _.
  assert (∀ b, t_valid d (view (buf hid sc b) [Z.of_nat n; nkv; head_dim cfg])) as Hval.
  { intros b. by apply (mem_valid cfg n hid sc O d0 Hbufs ∅ e d b). }
  assert (tensor_id kt ≠ tensor_id vt) as Hkv.
  { destruct Hf2 as [[_ Hnd _ _] _]. apply NoDup_cons in Hnd as [Hno _]. simpl in Hno. set_solver. }
  destruct (fresh_keeps d d2 _ _ Hf2 (Hval BK)) as (Vk & Rk & Nk).
  apply runs_bind, runs_dev, (runs_copy_into d d2 [vt; kt]); [done | set_solver | exact Vk | apply Nk; set_solver | | | |].
  { by split; [rewrite Hks | rewrite Hkd]. }
  { unfold nrows. simpl. lia. }
  { unfold nrows. rewrite Hks. simpl. lia. }
  intros d3 Hf3 Hl3 Hkr3 Hoth3.
  destruct (fresh_keeps d d3 _ _ Hf3 (Hval BV)) as (Vv & Rv & Nv).
  apply runs_bind, runs_dev, (runs_copy_into d d3 [vt; kt]); [done | set_solver | exact Vv | apply Nv; set_solver | | | |].
  { by split; [rewrite Hvs | rewrite Hvd]. }
  { unfold nrows. simpl. lia. }
  { unfold nrows. rewrite Hvs. simpl. lia. }
  intros d4 Hf4 Hl4 Hvr4 Hoth4.
  destruct (fresh_cache c d d4 _ Hc Hf4) as [Hc4 Hst4].
  pose proof Hf4 as [[Hlive4 Hnd4 Hnew4 Hsame4] Hv4]. rewrite Forall_forall in Hv4.
  assert (∀ t, t ∈ [vt; kt] → O (tensor_id t)) as HOt.
  { intros t Ht. apply (fresh_outside c d _ Hc). by apply Hnew4. }
  destruct (append_stores c0 dc c d4 h len ess k es kt vt m Hc4 (Hst4 _ _ _ Hst) Hes) as
    (c5 & d5 & Hrun & Hc5 & Hlive5 & Hst5 & Hkeep5 & Hneed5 & Hfree5 & Hfr5); try done; [by rewrite Hdims | | |].
  1,2: unfold kv_input; rewrite Hdims; split_and!; try done; [apply Hv4; set_solver | apply HOt; set_solver].
  replace (zip_with (enc c0 dc k) (t_rows d4 kt) (t_rows d4 vt)) with
    (zip_with (enc c0 dc k) (take m (drop o (e BK))) (take m (drop o (e BV)))) in Hst5.
  2:{ rewrite Hvr4, (Rv : t_rows d3 (v_mh cfg sc n) = t_rows d (buf hid sc BV)), (Hoth4 kt), Hkr3,
        (Rk : t_rows d2 (k_mh cfg sc n) = t_rows d (buf hid sc BK)); [| | done].
      - by rewrite <- !(m_rows _ _ _ _ _ _ _ _ Hm).
      - unfold t_live. rewrite Hl3. destruct Hf2 as [_ Hv2]. rewrite Forall_forall in Hv2. apply Hv2. set_solver. }
  apply runs_bind. unfold runs at 1. rewrite Hrun.
  eapply runs_mono; [| apply (free_pair_runs c5 d5 kt vt (b_live d)); [| apply Hnew4; set_solver | apply Hnew4; set_solver | done]].
  2:{ rewrite Hlive5, Hlive4. simpl. set_solver. }
  intros [c6 d7] [] (Heq & Hl7 & Hs7). simpl in Heq, Hl7, Hs7. subst c6.
  destruct (cache_frame c0 dc c5 d5 d7 Hc5) as [Hc7 Hst7].
  { intros id Hid Hno. rewrite Hl7. assert (id ∈ b_live d) as Hid'; [| split; [done | by apply Hs7]].
    rewrite Hlive5, Hlive4 in Hid. simpl in Hid. pose proof (HOt vt). pose proof (HOt kt). set_solver. }
  cbn [fst snd]. split_and!; [done | | by apply Hst7 | | done | done].
  - eapply (mem_outside cfg n hid sc O d0 Hbufs); [exact Hm | done |]. intros id Hid HO. rewrite (Hs7 id Hid), Hfr5; [by apply Hsame4 | rewrite Hlive4; set_solver | done].
  - intros h' len' ess' Hne Hs. apply Hst7, Hkeep5, Hst4; done.
Qed.

Lemma attend_slice_runs c d e h ess k es start o m :
  cache_inv c0 dc c d → M e d → o + m ≤ n → stores c d h (start + m) ess → ess !! k = Some es → length es = start + m → k < nl →
  runs dev_failed (attend_slice cfg sc n k (h, (o, o + m), start)) (c, d) (λ s _,
    s.1 = c ∧ cache_inv c0 dc c s.2 ∧
    M (upd BAttn (list_inserts o (imap (λ i q, att c0 dc nkv k (window start i es) q) (take m (drop o (e BQ)))) (e BAttn)) e) s.2 ∧
    ∀ h' len' ess', stores c d h' len' ess' → stores c s.2 h' len' ess').
Proof.
  intros Hc Hm Ho Hst Hes Hlen Hk. unfold attend_slice. rewrite nsub_Ok by lia. replace (o + m - o) with m by lia.
  apply runs_bind. eapply runs_lift; [done |].
  assert (∀ b, t_valid d (view (buf hid sc b) [Z.of_nat n; num_q_heads cfg; head_dim cfg])) as Hval.
  { intros b. by apply (mem_valid cfg n hid sc O d0 Hbufs ∅ e d b). }
  apply runs_bind, runs_dev, (runs_alloc_more d d [] _ _ (fresh_refl d)). intros d1 qt Hqs Hqd Hf1 _.
  destruct (fresh_keeps d d1 _ _ Hf1 (Hval BQ)) as (Vq & Rq & Nq).
  apply runs_bind, runs_dev, (runs_copy_into d d1 [qt]); [done | set_solver | exact Vq | apply Nq; set_solver | | | |].
  { by split; [rewrite Hqs | rewrite Hqd]. }
  { unfold nrows. simpl. lia. }
  { unfold nrows. rewrite Hqs. simpl. lia. }
  intros d2 Hf2 Hl2 Hqr2 _. apply runs_bind, runs_dev, (runs_alloc_more d d2 [qt] _ _ Hf2). intros d3 at_ Has Had Hf3 Hp3.
  destruct (fresh_cache c d d3 _ Hc Hf3) as [Hc3 Hst3]. pose proof Hf3 as [[Hlive3 Hnd3 Hnew3 Hsame3] Hv3].
  assert (tensor_id at_ ≠ tensor_id qt) as Hne by (apply NoDup_cons in Hnd3 as [Hno _]; simpl in Hno; set_solver).
  rewrite Forall_forall in Hv3. pose proof (Hv3 qt) as Hqv. pose proof (Hv3 at_) as Hav.
  assert (t_rows d3 qt = take m (drop o (e BQ))) as Hq3.
  { rewrite (proj1 (Hp3 qt ltac:(set_solver))), Hqr2, (Rq : t_rows d1 (q_mh cfg sc n) = t_rows d (buf hid sc BQ)).
    by rewrite (m_rows _ _ _ _ _ _ _ _ Hm). }
  assert (length (take m (drop o (e BQ))) = m) as Hqn by (rewrite length_take, length_drop, (m_len _ _ _ _ _ _ _ _ Hm); lia).
  pose proof (dispatch_runs c0 dc c d3 h (start + m) ess k es qt at_ (num_q_heads cfg) start Hc3 (Hst3 _ _ _ Hst) Hes Hlen) as Hd.
  rewrite Hdims, Hq3, Hqn in Hd. cbn [fst snd] in Hd.
  apply runs_bind. unfold pc_dispatch. apply runs_dev. eapply runs_writes.
  { apply Hd; try done; [apply Hqv; set_solver | apply Hav; set_solver | | by rewrite Has, Hqs].
    apply (fresh_outside c d _ Hc). apply Hnew3. set_solver. }
  intros d4 Hl4 Hrows Hf4. apply Forall_cons in Hrows as [Hat _]. simpl in Hat, Hf4.
  assert (∀ u, u ∈ b_live d → b_rows d4 u = b_rows d u) as Hbase.
  { intros u Hu. rewrite Hf4; [by apply Hsame3 | rewrite Hlive3; set_solver |].
    intros ->%list_elem_of_singleton. apply (Hnew3 at_); [set_solver | done]. }
  apply runs_bind, runs_dev, runs_copy_rows.
  { split; [unfold t_live; rewrite Hl4; apply Hav; set_solver |]. rewrite Hat, length_imap, Hqn. unfold nrows. rewrite Has. simpl. lia. }
  { destruct (Hval BAttn) as [Hal Han]. split; [unfold t_live in *; rewrite Hl4, Hlive3; set_solver |].
    unfold t_rows in *. rewrite Hbase; [exact Han | exact Hal]. }
  { intros Heq. apply (Hnew3 at_); [set_solver |]. rewrite Heq. apply (Hval BAttn). }
  { split; [by rewrite Has | by rewrite Had]. }
  { unfold nrows. rewrite Has. simpl. lia. }
  { unfold nrows. simpl. lia. }
  intros d5 Hl5 Hw5 Hs5. rewrite Hat in Hw5.
  eapply runs_mono; [| apply (free_pair_runs c d5 qt at_ (b_live d)); [| apply Hnew3; set_solver | apply Hnew3; set_solver | done]].
  2:{ rewrite Hl5, Hl4, Hlive3. simpl. set_solver. }
  intros [c6 d6] [] (Heq & Hl6 & Hs6). simpl in Heq, Hl6, Hs6. subst c6.
  rewrite drop_0, take_ge in Hw5 by (rewrite length_imap; lia).
  assert (t_rows d4 (attn_out cfg sc n) = e BAttn) as Ha4.
  { rewrite <- (m_rows _ _ _ _ _ _ _ _ Hm BAttn). apply Hbase. apply (Hval BAttn). }
  rewrite Ha4 in Hw5.
  assert (∀ id, id ∈ b_live d → id ≠ tensor_id (buf hid sc BAttn) → b_rows d6 id = b_rows d id) as Hfr.
  { intros id Hid Hno. rewrite (Hs6 id Hid), (Hs5 id); [by apply Hbase |]. rewrite Hl4, Hlive3. set_solver. }
  assert (M (upd BAttn (list_inserts o (imap (λ i q, att c0 dc nkv k (window start i es) q) (take m (drop o (e BQ)))) (e BAttn)) e) d6) as Hm6.
  { apply (mem_write cfg n hid sc O d0 Hbufs ∅ e d BAttn); try done; [by rewrite length_inserts, (m_len _ _ _ _ _ _ _ _ Hm) |].
    rewrite <- Hw5. apply Hs6. apply (Hval BAttn). }
  assert (local hid sc d d6) as Hlocal by (split; [done | intros id Hid Hno; by apply Hfr]).
  destruct (local_cache cfg n c0 dc d0 r sc Hbufs c d d6 Hc Hlocal) as [Hc6 Hst6].
  cbn [fst snd]. by split_and!.
Qed.
End slice_theory.

(** ** The members of a batch *)

(** A sequence of the batch: its handle, its new tokens' positions, how many
    tokens it had, the entries of each layer and the hidden states of the new
    tokens. *)
Record Member (E : Type) := { mb_h : Z; mb_ps : list Z; mb_start : nat; mb_ess : list (list E); mb_hs : list Row }.
Arguments mb_h {E} _.
Arguments mb_ps {E} _.
Arguments mb_start {E} _.
Arguments mb_ess {E} _.
Arguments mb_hs {E} _.

Definition mb_n {E : Type} (b : Member E) : nat := length (mb_ps b).
Definition mb_es {E : Type} (k : nat) (b : Member E) : list E := default [] (mb_ess b !! k).
Definition mb_total {E : Type} (bs : list (Member E)) : nat := sum_list (mb_n <$> bs).

Section members.
Context {D : Type} `{KernelOps D}.
Context {E : Type} (cfg : ModelConfig) (en : nat → Row → Row → E) (at_ : nat → list E → Row → Row).

(** A layer of the reference on one member, and the layers in order. *)
Definition mb_step (W : LayerRows) (k : nat) (b : Member E) : Member E :=
  {| mb_h := mb_h b; mb_ps := mb_ps b; mb_start := mb_start b;
     mb_ess := <[k := mb_es k b ++ ref_new (D := D) cfg en W k (mb_ps b) (mb_hs b)]> (mb_ess b);
     mb_hs := ref_layer (D := D) cfg en at_ W k (mb_es k b) (mb_ps b) (mb_hs b) |}.
Fixpoint mb_run (Ws : list LayerRows) (k : nat) (b : Member E) : Member E :=
  match Ws with
  | [] => b
  | W :: Ws' => mb_run Ws' (S k) (mb_step W k b)
  end.

(** The members' layers are the layers of the reference. *)
Lemma mb_run_ref Ws k b done rest :
  mb_ess b = done ++ rest → length done = k → length rest = length Ws →
  let '(hs', ess') := ref_layers (D := D) cfg en at_ Ws k rest (mb_ps b) (mb_hs b) in
  mb_hs (mb_run Ws k b) = hs' ∧ mb_ess (mb_run Ws k b) = done ++ ess' ∧ mb_h (mb_run Ws k b) = mb_h b ∧
  mb_ps (mb_run Ws k b) = mb_ps b ∧ mb_start (mb_run Ws k b) = mb_start b.
Proof.
  revert k b done rest. induction Ws as [|W Ws IH]; intros k b done rest Hess Hdone Hlen.
  { destruct rest; [| done]. done. }
  destruct rest as [|es rest]; [done |]. cbn [ref_layers mb_run].
  assert (mb_es k b = es) as Hes by (unfold mb_es; rewrite Hess, lookup_app_r, Hdone, Nat.sub_diag by lia; done).
  specialize (IH (S k) (mb_step W k b) (done ++ [es ++ ref_new cfg en W k (mb_ps b) (mb_hs b)]) rest).
  cbn [mb_step mb_ess mb_ps mb_hs mb_h mb_start] in IH. rewrite Hes in IH.
  destruct (ref_layers cfg en at_ Ws (S k) rest (mb_ps b) (ref_layer cfg en at_ W k es (mb_ps b) (mb_hs b))) as [hs' ess'].
  destruct IH as (H1' & H2' & H3' & H4' & H5').
  - rewrite Hess, insert_app_r_alt by lia. rewrite Hdone, Nat.sub_diag. by rewrite <- app_assoc.
  - rewrite length_app. simpl. lia.
  - simpl in Hlen. lia.
  - rewrite <- app_assoc in H2'. done.
Qed.

Lemma length_ref_layer W k es ps hs : length ps = length hs → length (ref_layer (D := D) cfg en at_ W k es ps hs) = length hs.
Proof. intros Hl. unfold ref_layer. rewrite length_zip_with, length_imap, length_zip_with. lia. Qed.
End members.

Lemma mjoin_length_members {E A : Type} (f : Member E → list A) (bs : list (Member E)) :
  (∀ b, b ∈ bs → length (f b) = mb_n b) → length (mjoin (f <$> bs)) = mb_total bs.
Proof.
  induction bs as [|b bs IH]; intros Hf; [done |]. csimpl. rewrite length_app, Hf, IH; [done | | left].
  intros b' Hb'. apply Hf. by right.
Qed.

(** Row-wise functions on the members together. *)
Lemma zip_with_members {E A B R : Type} (f : A → B → R) (g : Member E → list A) (g' : Member E → list B) (bs : list (Member E)) :
  (∀ b, b ∈ bs → length (g b) = length (g' b)) →
  zip_with f (mjoin (g <$> bs)) (mjoin (g' <$> bs)) = mjoin ((λ b, zip_with f (g b) (g' b)) <$> bs).
Proof.
  induction bs as [|b bs IH]; intros Hl; [done |]. csimpl. rewrite zip_with_app, IH; [done | | apply Hl; left].
  intros b' Hb'. apply Hl. by right.
Qed.

Lemma fmap_members {E A B : Type} (f : A → B) (g : Member E → list A) (bs : list (Member E)) :
  f <$> mjoin (g <$> bs) = mjoin ((λ b, f <$> g b) <$> bs).
Proof. induction bs as [|b bs IH]; [done |]. csimpl. by rewrite fmap_app, IH. Qed.

(** The piece of a member in the rows of all. *)
Lemma take_drop_piece {A : Type} (pre piece rest : list A) o m :
  length pre = o → length piece = m → take m (drop o (pre ++ piece ++ rest)) = piece.
Proof. intros <- <-. by rewrite drop_app_length, take_app_length. Qed.

(** ** The loops over the members *)

Section loops.
Context {C D : Type} `{PagedCacheLaws C D} `{!KernelLaws D} `{!BackendLaws D}.
Implicit Types c : C.
Implicit Types d : D.
Variables (cfg : ModelConfig) (n : nat) (c0 : C) (dc d0 : D) (r : Resolved) (sc : Scratch) (nl : nat).
Notation hid := (hidden_state r).
Notation nkv := (num_kv_heads cfg).
Notation O := (pc_outside c0).
Hypothesis Hdims : pc_dims c0 = (nl, nkv, head_dim cfg).
Hypothesis Hbufs : bufs_ok cfg n hid sc O d0.
Notation M := (mem n hid sc O d0 ∅).
Notation MB := (Member pc_entry).
Notation en := (enc c0 dc).
Notation at0 := (att c0 dc nkv).

(** A member before layer [k]. *)
Record member_at c d (k : nat) (b : MB) : Prop := {
  ma_stores : stores c d (mb_h b) (if bool_decide (k = 0) then mb_start b else mb_start b + mb_n b) (mb_ess b);
  ma_layers : length (mb_ess b) = nl;
  ma_rest : ∀ l es, k ≤ l → mb_ess b !! l = Some es → length es = mb_start b;
  ma_rows : length (mb_hs b) = mb_n b;
  ma_fits : pc_fits c0 (mb_n b)
}.

(** Between the two loops: the keys and values of the layer are in. *)
Definition appended (W : LayerRows) (k : nat) (b : MB) : list (list pc_entry) :=
  <[k := mb_es k b ++ ref_new (D := D) cfg en W k (mb_ps b) (mb_hs b)]> (mb_ess b).

Lemma mb_es_lookup c d k b : member_at c d k b → k < nl → mb_ess b !! k = Some (mb_es k b) ∧ length (mb_es k b) = mb_start b.
Proof.
  intros Hb Hk. destruct (lookup_lt_is_Some_2 (mb_ess b) k) as [es Hes]; [by rewrite (ma_layers _ _ _ _ Hb) |].
  unfold mb_es. rewrite Hes. split; [done |]. by eapply (ma_rest _ _ _ _ Hb).
Qed.

Definition bounds_of (o : nat) (bs : list MB) : list (Z * (nat * nat)) := zip (mb_h <$> bs) (boundaries o (mb_n <$> bs)).

Lemma bounds_of_cons o b bs : bounds_of o (b :: bs) = (mb_h b, (o, o + mb_n b)) :: bounds_of (o + mb_n b) bs.
Proof. done. Qed.

Lemma append_all_runs W k e : k < nl →
  ∀ todo c d o kpre vpre,
  cache_inv c0 dc c d → M e d → NoDup (mb_h <$> todo) → (∀ b, b ∈ todo → member_at c d k b) →
  e BK = kpre ++ mjoin ((λ b, zip_with (ref_k (D := D) cfg W) (mb_ps b) (mb_hs b)) <$> todo) → length kpre = o →
  e BV = vpre ++ mjoin ((λ b, ref_v (D := D) cfg W <$> mb_hs b) <$> todo) → length vpre = o →
  (k = 0 → sum_list ((λ b, pc_need c (mb_h b) (mb_n b)) <$> todo) ≤ pc_free c) →
  runs dev_failed (siter (append_slice cfg sc n k) (bounds_of o todo)) (c, d) (λ s _,
    cache_inv c0 dc s.1 s.2 ∧ M e s.2 ∧
    (∀ b, b ∈ todo → stores s.1 s.2 (mb_h b) (mb_start b + mb_n b) (appended W k b)) ∧
    (∀ h len ess, h ∉ (mb_h <$> todo) → stores c d h len ess → stores s.1 s.2 h len ess)).
Proof.
  intros Hk todo. induction todo as [|b todo IH]; intros c d o kpre vpre Hc Hm Hnd Hall HeK HkP HeV HvP Hneed.
  { apply runs_ret. split_and!; [done | done | by intros b ?%not_elem_of_nil | done]. }
  rewrite bounds_of_cons. cbn [siter]. rewrite fmap_cons in Hnd. apply NoDup_cons in Hnd as [Hnb Hnd].
  assert (member_at c d k b) as Hb by (apply Hall; left). destruct (mb_es_lookup c d k b Hb Hk) as [Hes Hlen].
  rewrite !fmap_cons in HeK, HeV. cbn [mjoin list_join] in HeK, HeV.
  pose proof (ma_rows _ _ _ _ Hb) as Hrows.
  assert (length (zip_with (ref_k (D := D) cfg W) (mb_ps b) (mb_hs b)) = mb_n b) as Hkl by (rewrite length_zip_with; unfold mb_n in *; lia).
  assert (o + mb_n b ≤ n) as Hon.
  { rewrite <- (m_len _ _ _ _ _ _ _ _ Hm BK), HeK, !length_app. lia. }
  apply runs_bind. eapply runs_mono; [| apply (append_slice_runs cfg n c0 dc d0 r sc nl Hdims Hbufs c d e (mb_h b) _ (mb_ess b) k
    (mb_es k b) o (mb_n b) Hc Hm Hon (ma_stores _ _ _ _ Hb) Hes Hk (ma_fits _ _ _ _ Hb))].
  - intros [c1 d1] [] (Hc1 & Hm1 & Hst1 & Hkeep1 & Hneed1 & Hfree1). cbn [fst snd] in *.
    rewrite HeK, HeV, (take_drop_piece kpre) in Hst1 by done. rewrite (take_drop_piece vpre) in Hst1 by (by rewrite ?length_fmap).
    rewrite <- ref_new_zip, Hlen in Hst1.
    assert (∀ b', b' ∈ todo → mb_h b' ≠ mb_h b) as Hne.
    { intros b' Hb' Heq. apply Hnb. rewrite <- Heq. apply list_elem_of_fmap. eauto. }
    eapply runs_mono; [| apply (IH c1 d1 (o + mb_n b) (kpre ++ zip_with (ref_k cfg W) (mb_ps b) (mb_hs b)) (vpre ++ (ref_v cfg W <$> mb_hs b)))]; try done.
    + intros [c2 d2] [] (Hc2 & Hm2 & Hst2 & Hkeep2). cbn [fst snd] in *. split_and!; try done.
      * intros b' [->|Hb']%elem_of_cons; [| by apply Hst2]. by apply Hkeep2.
      * intros h len ess Hh Hs. rewrite fmap_cons, elem_of_cons in Hh. apply Hkeep2; [tauto |]. apply Hkeep1; [tauto | done].
    + intros b' Hb'. destruct (Hall b') as [Hs' Hl' Hr' Hw' Hf']; [by right |]. split; try done. apply Hkeep1; [by apply Hne | done].
    + by rewrite <- app_assoc.
    + rewrite length_app. lia.
    + by rewrite <- app_assoc.
    + rewrite length_app, length_fmap. lia.
    + intros Hk0. specialize (Hneed Hk0). rewrite Hfree1, bool_decide_true by done. csimpl in Hneed.
      rewrite (list_fmap_ext _ (λ b', pc_need c (mb_h b') (mb_n b'))); [lia |].
      intros i b' Hb'. apply Hneed1, Hne. by eapply list_elem_of_lookup_2.
  - intros Hk0. rewrite bool_decide_true by done. split; [done |]. specialize (Hneed Hk0). csimpl in Hneed. lia.
  - intros Hk0. rewrite bool_decide_false by done. lia.
Qed.

(** What attention gives a member. *)
Definition attended (W : LayerRows) (k : nat) (b : MB) : list Row :=
  imap (λ i q, at0 k (window (mb_start b) i (mb_es k b ++ ref_new (D := D) cfg en W k (mb_ps b) (mb_hs b))) q)
    (zip_with (ref_q (D := D) cfg W) (mb_ps b) (mb_hs b)).

Definition slices_of (o : nat) (bs : list MB) : list (Z * (nat * nat) * nat) := zip (bounds_of o bs) (mb_start <$> bs).

Lemma list_inserts_piece {A : Type} (pre old rest new : list A) o :
  length pre = o → length old = length new → list_inserts o new (pre ++ old ++ rest) = pre ++ new ++ rest.
Proof.
  intros <- Hl. rewrite <- (Nat.add_0_r (length pre)), list_inserts_app_r. f_equal. apply list_eq. intros i.
  destruct (decide (i < length new)) as [Hi|Hi].
  - rewrite list_lookup_inserts, lookup_app_l by (rewrite ?length_app; lia). f_equal. lia.
  - rewrite list_lookup_inserts_ge, !lookup_app_r by lia. by rewrite Hl.
Qed.

Lemma attend_all_runs W k : k < nl →
  ∀ todo c d e o qpre apre,
  cache_inv c0 dc c d → M e d →
  (∀ b, b ∈ todo → stores c d (mb_h b) (mb_start b + mb_n b) (appended W k b) ∧ k < length (mb_ess b) ∧
     length (mb_es k b) = mb_start b ∧ length (mb_hs b) = mb_n b) →
  e BQ = qpre ++ mjoin ((λ b, zip_with (ref_q (D := D) cfg W) (mb_ps b) (mb_hs b)) <$> todo) → length qpre = o →
  take o (e BAttn) = apre → o + mb_total todo = n →
  runs dev_failed (siter (attend_slice cfg sc n k) (slices_of o todo)) (c, d) (λ s _, ∃ e',
    s.1 = c ∧ cache_inv c0 dc c s.2 ∧ M e' s.2 ∧ e' BAttn = apre ++ mjoin (attended W k <$> todo) ∧ e' BHidden = e BHidden ∧
    (∀ h len ess, stores c d h len ess → stores c s.2 h len ess)).
Proof.
  intros Hk todo. induction todo as [|b todo IH]; intros c d e o qpre apre Hc Hm Hall HeQ HqP HaP Htot.
  { apply runs_ret. exists e. split_and!; try done. csimpl. rewrite app_nil_r, <- HaP, take_ge; [done |].
    rewrite (m_len _ _ _ _ _ _ _ _ Hm). unfold mb_total in Htot. simpl in Htot. lia. }
  unfold slices_of. rewrite bounds_of_cons, fmap_cons. cbn [zip_with siter]. fold (slices_of (o + mb_n b) todo).
  destruct (Hall b ltac:(left)) as (Hst & Hkl & Hes & Hrows). rewrite fmap_cons in HeQ. cbn [mjoin list_join] in HeQ.
  set (qr := zip_with (ref_q cfg W) (mb_ps b) (mb_hs b)) in *.
  set (es' := mb_es k b ++ ref_new cfg en W k (mb_ps b) (mb_hs b)) in *.
  assert (length qr = mb_n b) as Hql by (unfold qr; rewrite length_zip_with; unfold mb_n in *; lia).
  assert (mb_total (b :: todo) = mb_n b + mb_total todo) as Htc by done. rewrite Htc in Htot.
  assert (length es' = mb_start b + mb_n b) as Hel.
  { unfold es'. rewrite length_app. unfold ref_new. rewrite length_zip_with. unfold mb_n in *. lia. }
  apply runs_bind. eapply runs_mono; [| apply (attend_slice_runs cfg n c0 dc d0 r sc nl Hdims Hbufs c d e (mb_h b) (appended W k b) k es'
    (mb_start b) o (mb_n b) Hc Hm ltac:(lia) Hst)]; try done.
  2:{ unfold appended. rewrite list_lookup_insert_eq by done. done. }
  intros [c1 d1] [] (Heq & Hc1 & Hm1 & Hst1). cbn [fst snd] in *. subst c1.
  rewrite HeQ, (take_drop_piece qpre qr) in Hm1 by done. fold (attended W k b) in Hm1.
  change (imap _ qr) with (attended W k b) in Hm1.
  set (e1 := upd BAttn (list_inserts o (attended W k b) (e BAttn)) e) in *.
  assert (length (attended W k b) = mb_n b) as Hal by (unfold attended; rewrite length_imap; exact Hql).
  eapply runs_mono; [| apply (IH c d1 e1 (o + mb_n b) (qpre ++ qr) (apre ++ attended W k b))]; try done.
  - intros [c2 d2] [] (e2 & Heq2 & Hc2 & Hm2 & Ha2 & Hh2 & Hst2). cbn [fst snd] in *. exists e2. split_and!; try done.
    + rewrite Ha2, fmap_cons. cbn [mjoin list_join]. by rewrite <- app_assoc.
    + intros h len ess Hs. by apply Hst2, Hst1.
  - intros b' Hb'. destruct (Hall b' ltac:(by right)) as (? & ? & ? & ?). split_and!; try done. by apply Hst1.
  - unfold e1, upd. simpl. by rewrite HeQ, <- app_assoc.
  - rewrite length_app. lia.
  - unfold e1, upd. simpl. rewrite <- (take_drop o (e BAttn)), HaP.
    assert (length (e BAttn) = n) as Hbl by apply (m_len _ _ _ _ _ _ _ _ Hm).
    assert (length apre = o) as Hapl by (rewrite <- HaP, length_take; lia).
    rewrite <- (take_drop (mb_n b) (drop o (e BAttn))), list_inserts_piece; [| done | rewrite length_take, length_drop; lia].
    rewrite app_assoc, take_app_length'; [done |]. rewrite length_app. lia.
  - lia.
Qed.

Lemma slices_of_fst o bs : (slices_of o bs).*1 = bounds_of o bs.
Proof.
  unfold slices_of. apply fst_zip. unfold bounds_of. rewrite length_zip_with, !length_fmap. lia.
Qed.

Notation ms := (mb_step (D := D) cfg en at0).

(** The hidden states of all members, row by row. *)
Lemma pre_env_members w ps e (bs : list MB) :
  e BHidden = mjoin (mb_hs <$> bs) → ps = mjoin (mb_ps <$> bs) → (∀ b, b ∈ bs → length (mb_hs b) = mb_n b) →
  pre_env cfg d0 w ps e BQ = mjoin ((λ b, zip_with (ref_q (D := D) cfg (W0 d0 w)) (mb_ps b) (mb_hs b)) <$> bs) ∧
  pre_env cfg d0 w ps e BK = mjoin ((λ b, zip_with (ref_k (D := D) cfg (W0 d0 w)) (mb_ps b) (mb_hs b)) <$> bs) ∧
  pre_env cfg d0 w ps e BV = mjoin ((λ b, ref_v (D := D) cfg (W0 d0 w) <$> mb_hs b) <$> bs) ∧
  pre_env cfg d0 w ps e BHidden = mjoin (mb_hs <$> bs).
Proof.
  intros Hh -> Hl. destruct (pre_env_spec cfg d0 w (mjoin (mb_ps <$> bs)) e) as (-> & -> & -> & ->). rewrite Hh.
  split_and!; [apply zip_with_members | apply zip_with_members | apply fmap_members | done]; intros b Hb; symmetry; by apply Hl.
Qed.

Lemma batched_layer_runs ws range_start w k e c d (bs : list MB) layer_idx :
  ws_config ws = cfg → nsub layer_idx range_start = Ok k → layers ws !! k = Some w → k < nl →
  r_seq_len r = n → r_positions r = mjoin (mb_ps <$> bs) → length (r_positions r) = n →
  (∀ f, constant hid sc O d0 (field w f) ∧ shape (field w f) = field_shape cfg f) →
  cache_inv c0 dc c d → M e d → e BHidden = mjoin (mb_hs <$> bs) → NoDup (mb_h <$> bs) → (∀ b, b ∈ bs → member_at c d k b) →
  (k = 0 → sum_list ((λ b, pc_need c (mb_h b) (mb_n b)) <$> bs) ≤ pc_free c) →
  runs dev_failed (batched_layer ws range_start r sc (slices_of 0 bs) layer_idx) (c, d) (λ s _, ∃ e',
    cache_inv c0 dc s.1 s.2 ∧ M e' s.2 ∧ e' BHidden = mjoin (mb_hs <$> (ms (W0 d0 w) k <$> bs)) ∧
    (∀ b, b ∈ bs → member_at s.1 s.2 (S k) (ms (W0 d0 w) k b)) ∧
    (∀ h len ess, h ∉ (mb_h <$> bs) → stores c d h len ess → stores s.1 s.2 h len ess)).
Proof.
  intros Hcfg Hki Hwk Hk Hn Hps Hpl Hw Hc Hm He Hnd Hall Hneed. unfold batched_layer. rewrite Hcfg, Hn, slices_of_fst.
  assert (∀ b, b ∈ bs → length (mb_hs b) = mb_n b) as Hrows by (intros b Hb; apply (ma_rows _ _ _ _ (Hall b Hb))).
  assert (mb_total bs = n) as Htot.
  { rewrite <- (m_len _ _ _ _ _ _ _ _ Hm BHidden), He. symmetry. by apply mjoin_length_members. }
  do 2 (apply runs_bind; eapply runs_lift; [(eassumption || by apply index_Ok) |]).
  apply runs_bind, runs_dev. eapply runs_mono; [| by apply (pre_attention_step cfg n hid sc O d0 Hbufs w Hw ∅ e)].
  intros d1 [] [Hm1 Hl1]. destruct (local_cache cfg n c0 dc d0 r sc Hbufs c d d1 Hc Hl1) as [Hc1 Hst1].
  destruct (pre_env_members w (r_positions r) e bs He Hps Hrows) as (Eq & Ek & Ev & Eh).
  set (e1 := pre_env cfg d0 w (r_positions r) e) in *.
  apply runs_bind. eapply runs_mono; [| apply (append_all_runs (W0 d0 w) k e1 Hk bs c d1 0 [] [] Hc1 Hm1 Hnd); try done].
  2:{ intros b Hb. destruct (Hall b Hb) as [? ? ? ? ?]. split; auto. }
  intros [c2 d2] [] (Hc2 & Hm2 & Hst2 & Hkeep2). cbn [fst snd] in *.
  assert (∀ b, b ∈ bs → k < length (mb_ess b) ∧ length (mb_es k b) = mb_start b) as Hes.
  { intros b Hb. destruct (mb_es_lookup c d k b (Hall b Hb) Hk) as [Hlk ?]. split; [by apply lookup_lt_Some in Hlk | done]. }
  apply runs_bind. eapply runs_mono; [| apply (attend_all_runs (W0 d0 w) k Hk bs c2 d2 e1 0 [] [] Hc2 Hm2); try done].
  2:{ intros b Hb. destruct (Hes b Hb). split_and!; auto. }
  intros [c3 d3] [] (e3 & Heq & Hc3 & Hm3 & Ha3 & Hh3 & Hst3). cbn [fst snd] in *. subst c3. rewrite app_nil_l in Ha3.
  apply runs_dev. eapply runs_mono; [| by apply (post_attention_step cfg n hid sc O d0 Hbufs w Hw)].
  intros d4 [] [Hm4 Hl4]. destruct (local_cache cfg n c0 dc d0 r sc Hbufs c2 d3 d4 Hc3 Hl4) as [Hc4 Hst4].
  eexists. split_and!; [exact Hc4 | exact Hm4 | | |].
  - rewrite post_env_hidden, Ha3, Hh3, Eh, zip_with_members, <- list_fmap_compose; cycle 1.
    { intros b Hb. unfold attended. rewrite length_imap, length_zip_with, Hrows by done. unfold mb_n. lia. }
    f_equal. apply list_fmap_ext. intros i b Hb. apply list_elem_of_lookup_2 in Hb. unfold compose, attended. cbn [mb_step mb_hs].
    unfold ref_layer. by rewrite (proj2 (Hes b Hb)).
  - intros b Hb. destruct (Hall b Hb) as [_ Al Ar Aw Af]. split.
    + rewrite bool_decide_false by done. exact (Hst4 _ _ _ (Hst3 _ _ _ (Hst2 b Hb))).
    + simpl. by rewrite length_insert.
    + intros l es Hl Hlk. simpl in Hlk. rewrite list_lookup_insert_ne in Hlk by lia. apply (Ar l es); [lia | done].
    + simpl. rewrite length_ref_layer; [done |]. rewrite Aw. done.
    + done.
  - intros h len ess Hh Hs. by apply Hst4, Hst3, Hkeep2, Hst1.
Qed.

Notation mr := (mb_run (D := D) cfg en at0).

Lemma mb_step_keeps W k (b : MB) : mb_h (ms W k b) = mb_h b ∧ mb_n (ms W k b) = mb_n b ∧ mb_ps (ms W k b) = mb_ps b.
Proof. done. Qed.

(** The layers from [k] on. *)
Lemma batched_layers_runs ws range_start (ls : list LayerWeights) :
  ws_config ws = cfg → r_seq_len r = n → length (r_positions r) = n →
  ∀ k c d e (bs : list MB),
  (∀ i w, ls !! i = Some w → layers ws !! (k + i) = Some w) →
  (∀ w f, w ∈ ls → constant hid sc O d0 (field w f) ∧ shape (field w f) = field_shape cfg f) →
  k + length ls ≤ nl → r_positions r = mjoin (mb_ps <$> bs) →
  cache_inv c0 dc c d → M e d → e BHidden = mjoin (mb_hs <$> bs) → NoDup (mb_h <$> bs) → (∀ b, b ∈ bs → member_at c d k b) →
  (k = 0 → sum_list ((λ b, pc_need c (mb_h b) (mb_n b)) <$> bs) ≤ pc_free c) →
  runs dev_failed (siter (batched_layer ws range_start r sc (slices_of 0 bs)) (seq (range_start + k) (length ls))) (c, d) (λ s _, ∃ e',
    cache_inv c0 dc s.1 s.2 ∧ M e' s.2 ∧ e' BHidden = mjoin (mb_hs <$> (mr (W0 d0 <$> ls) k <$> bs)) ∧
    (∀ b, b ∈ bs → member_at s.1 s.2 (k + length ls) (mr (W0 d0 <$> ls) k b)) ∧
    (∀ h len ess, h ∉ (mb_h <$> bs) → stores c d h len ess → stores s.1 s.2 h len ess)).
Proof.
  intros Hcfg Hn Hpl. induction ls as [|w ls IH]; intros k c d e bs Hwi Hw Hnl Hps Hc Hm He Hnd Hall Hneed.
  { apply runs_ret. exists e. cbn [fst snd]. split_and!; try done.
    - rewrite He. f_equal. rewrite <- (list_fmap_id bs) at 1. rewrite <- !list_fmap_compose. done.
    - intros b Hb. rewrite Nat.add_0_r. by apply Hall. }
  cbn [length seq siter]. apply runs_bind.
  eapply runs_mono; [| apply (batched_layer_runs ws range_start w k e c d bs (range_start + k)); try done].
  - intros [c1 d1] [] (e1 & Hc1 & Hm1 & He1 & Hall1 & Hkeep1). cbn [fst snd] in *.
    replace (S (range_start + k)) with (range_start + S k) by lia.
    set (bs1 := ms (W0 d0 w) k <$> bs) in *.
    assert (slices_of 0 bs1 = slices_of 0 bs) as Hsl.
    { unfold slices_of, bounds_of, bs1. rewrite <- !list_fmap_compose. done. }
    assert (mb_h <$> bs1 = mb_h <$> bs) as Hh1 by (unfold bs1; by rewrite <- list_fmap_compose).
    rewrite <- Hsl. eapply runs_mono; [| apply (IH (S k) c1 d1 e1 bs1)]; try done.
    + intros [c2 d2] [] (e2 & Hc2 & Hm2 & He2 & Hall2 & Hkeep2). cbn [fst snd] in *. exists e2. rewrite fmap_cons. cbn [mb_run].
      split_and!; try done.
      * rewrite He2. f_equal. unfold bs1. by rewrite <- !list_fmap_compose.
      * intros b Hb. replace (k + S (length ls)) with (S k + length ls) by lia. apply Hall2. apply list_elem_of_fmap. eauto.
      * intros h len ess Hh Hs. apply Hkeep2; [by rewrite Hh1 | auto].
    + intros i w' Hi. replace (S k + i) with (k + S i) by lia. by apply Hwi.
    + intros w' f Hw'. apply Hw. by right.
    + simpl in Hnl. lia.
    + unfold bs1. rewrite <- list_fmap_compose. done.
    + by rewrite Hh1.
    + intros b (b0 & -> & Hb0)%list_elem_of_fmap. by apply Hall1.
  - rewrite nsub_Ok by lia. f_equal. lia.
  - replace k with (k + 0) by lia. by apply Hwi.
  - simpl in Hnl. lia.
  - intros f. apply Hw. left.
Qed.
End loops.

(** ** The logits of the members *)

Section logits.
Context {D : Type} `{KernelLaws D} `{!BackendLaws D}.
Implicit Types d : D.
Variable from_f16 : Z → f32.
Variables (ws : WeightStore) (n : nat) (r : Resolved) (sc : Scratch) (O : Z → Prop) (d0 : D).
Notation cfg := (ws_config ws).
Notation hid := (hidden_state r).
Notation M := (mem n hid sc O d0 ∅).
Hypothesis Hbufs : bufs_ok cfg n hid sc O d0.
Hypothesis Hlm : constant hid sc O d0 (lm_head ws).
Hypothesis Hls : shape (lm_head ws) = [vocab_size cfg; hidden_size cfg].
Hypothesis Hw : in_width 64 (vocab_size cfg * 2).

(** Nothing on the device changed. *)
Definition unchanged d d' : Prop := b_live d' = b_live d ∧ same_rows (b_live d) d d'.

Definition row_logits (h : Row) : list f32 := decode_logits from_f16 (k_matmul (D := D) (t_rows d0 (lm_head ws)) h).

Lemma slice_logits_runs e d o stop :
  M e d → 0 < stop → stop ≤ n →
  runs b_failed (slice_logits from_f16 ws sc (o, stop)) d
    (λ d' l, l = row_logits (default [] (e BNormed !! (stop - 1))) ∧ unchanged d d').
Proof.
  intros Hm Hpos Hstop. unfold slice_logits. cbn [fst snd]. rewrite nsub_Ok by lia.
  apply runs_bind. eapply runs_lift; [done |].
  apply runs_bind, (runs_alloc_more d d [] _ _ (fresh_refl d)). intros d1 t Hts Htd Hf1 _.
  assert (t_valid d (normed sc)) as Hnv by apply (mem_valid' cfg n hid sc O d0 Hbufs ∅ e d BNormed Hm).
  destruct (fresh_keeps d d1 _ _ Hf1 Hnv) as (Vn & Rn & Nn).
  assert (nrows (normed sc) = n) as Hnr by (unfold nrows; rewrite (proj1 (bo_shape _ _ _ _ _ _ Hbufs BNormed) : shape (normed sc) = _); simpl; lia).
  apply runs_bind, (runs_copy_into d d1 [t]); [done | set_solver | done | apply Nn; set_solver | | lia | unfold nrows; by rewrite Hts |].
  { pose proof (bo_shape _ _ _ _ _ _ Hbufs BNormed) as [Hs Hd]. simpl in Hs, Hd. split; [by rewrite Hs, Hts | congruence]. }
  intros d2 Hf2 Hl2 Hr2 _. rewrite Rn, (m_rows _ _ _ _ _ _ _ _ Hm BNormed : t_rows d (normed sc) = _) in Hr2.
  assert (t_rows d2 t = [default [] (e BNormed !! (stop - 1))]) as Hrow.
  { rewrite Hr2. destruct (lookup_lt_is_Some_2 (e BNormed) (stop - 1)) as [x Hx]; [rewrite (m_len _ _ _ _ _ _ _ _ Hm); lia |].
    rewrite (drop_S _ _ _ Hx), Hx. done. }
  pose proof Hf2 as [[Hlive2 _ Hnew2 Hsame2] Hv2]. apply Forall_cons in Hv2 as [Hv2 _].
  destruct (mem_constant cfg n hid sc O d0 Hbufs ∅ e d _ Hm Hlm) as [Hll Hlr].
  assert (t_live d2 (lm_head ws) ∧ t_rows d2 (lm_head ws) = t_rows d0 (lm_head ws)) as [Hll2 Hlr2].
  { split; [unfold t_live in *; rewrite Hlive2; set_solver |]. rewrite <- Hlr. by apply Hsame2. }
  apply runs_bind. eapply runs_mono; [| by apply (lm_logits_runs from_f16 cfg ws t _ d2 Hv2 Hts Hrow)].
  intros d3 [lt l] [Hl3 [Ha3 _]]. cbn [fst snd] in *. rewrite Hlr2 in Hl3.
  pose proof (alloced_app _ _ _ _ _ (proj1 Hf2) Ha3) as [Ha _]. simpl in Ha. pose proof Ha as [HlA HndA HnewA HsA].
  destruct (alloced_free d d3 [lt] t) as (d4 & Hf4 & Ha4).
  { eapply alloced_perm; [| exact Ha]. apply perm_swap. }
  destruct (alloced_free d d4 [] lt Ha4) as (d5 & Hf5 & Ha5).
  apply runs_bind. unfold runs at 1. rewrite Hf4. apply runs_bind. unfold runs at 1. rewrite Hf5. apply runs_ret.
  split; [done | by apply alloced_nil].
Qed.

Lemma logits_loop_runs e bounds d :
  M e d → Forall (λ b : nat * nat, 0 < b.2 ≤ n) bounds →
  runs b_failed (smapM (slice_logits from_f16 ws sc) bounds) d
    (λ d' ls, ls = (λ b : nat * nat, row_logits (default [] (e BNormed !! (b.2 - 1)))) <$> bounds ∧ unchanged d d').
Proof.
  revert d. induction bounds as [|[o stop] bounds IH]; intros d Hm Hb.
  { apply runs_ret. split; [done |]. by split. }
  apply Forall_cons in Hb as [[Hb1 Hb2] Hb]. cbn [smapM]. simpl in Hb1, Hb2.
  apply runs_bind. eapply runs_mono; [| by apply (slice_logits_runs e d o stop)]. intros d1 l [-> [Hl1 Hs1]].
  assert (M e d1) as Hm1 by (by eapply mem_same).
  apply runs_bind. eapply runs_mono; [| by apply (IH d1)]. intros d2 ls [-> [Hl2 Hs2]]. apply runs_ret. split; [done |].
  split; [congruence |]. intros id Hid. rewrite (Hs2 id); [by apply Hs1 | by rewrite Hl1].
Qed.

Lemma batched_logits_runs e d bounds :
  M e d → constant hid sc O d0 (output_norm ws) → shape (output_norm ws) = [hidden_size cfg] →
  Forall (λ b : nat * nat, 0 < b.2 ≤ n) bounds →
  runs b_failed (batched_logits from_f16 ws r sc bounds) d (λ d' ls,
    ls = (λ b : nat * nat, ref_logits (D := D) cfg from_f16 (t_rows d0 (output_norm ws)) (t_rows d0 (lm_head ws))
                             (default [] (e BHidden !! (b.2 - 1)))) <$> bounds ∧
    (∃ e', M e' d' ∧ e' BHidden = e BHidden) ∧ local hid sc d d').
Proof.
  intros Hm Hon Hos Hb. unfold batched_logits. apply runs_bind.
  eapply runs_mono; [| by apply (rmsnorm_buf cfg n hid sc O d0 Hbufs ∅ e d BHidden BNormed (output_norm ws))].
  intros d1 [] [Hm1 Hl1]. apply runs_bind. eapply runs_mono; [| by apply (logits_loop_runs _ bounds d1 Hm1 Hb)].
  intros d2 ls [-> [Hl2 Hs2]]. apply runs_bind. unfold runs at 1.
  destruct (k_synchronize_spec d2) as [->|(d' & er & -> & Hfl)]; [| done]. apply runs_ret. split_and!.
  - apply list_fmap_ext. intros i b Hi. rewrite Forall_forall in Hb. apply list_elem_of_lookup_2, Hb in Hi.
    unfold row_logits, ref_logits, upd. simpl. rewrite list_lookup_fmap.
    destruct (lookup_lt_is_Some_2 (e BHidden) (b.2 - 1)) as [x Hx]; [rewrite (m_len _ _ _ _ _ _ _ _ Hm); lia |]. by rewrite Hx.
  - eexists. split; [by eapply mem_same |]. done.
  - eapply local_trans; [exact Hl1 |]. split; [done |]. intros id Hid _. by apply Hs2.
Qed.
End logits.

(** ** Batched passes compute the reference for each sequence *)

Section batched_spec.
Context {C D : Type} `{PagedCacheLaws C D} `{!KernelLaws D} `{!BackendLaws D}.
Implicit Types c : C.
Implicit Types d : D.
Variable from_f16 : Z → f32.
Notation MB := (Member pc_entry).

(** The layers of the reference on one member alone: hidden states and entries. *)
Definition mb_ref c d (ws : WeightStore) (nl : nat) (b : MB) : list Row * list (list pc_entry) :=
  ref_layers (D := D) (ws_config ws) (enc c d) (att c d (num_kv_heads (ws_config ws))) (W0 d <$> take nl (layers ws)) 0
    (mb_ess b) (mb_ps b) (mb_hs b).
Definition mb_logits c d (ws : WeightStore) (nl : nat) (b : MB) : list f32 :=
  ref_logits (D := D) (ws_config ws) from_f16 (t_rows d (output_norm ws)) (t_rows d (lm_head ws)) (default [] (last (mb_ref c d ws nl b).1)).

(** The members are sequences of the cache, with room for their new tokens. *)
Record batch_ready c d (nl : nat) (bs : list MB) : Prop := {
  br_handles : NoDup (mb_h <$> bs);
  br_members : ∀ b, b ∈ bs → member_at c nl c d 0 b ∧ 0 < mb_n b;
  br_room : sum_list ((λ b, pc_need c (mb_h b) (mb_n b)) <$> bs) ≤ pc_free c
}.

(** What a batch leaves in the cache. *)
Definition batch_done c d (ws : WeightStore) (nl : nat) (bs : list MB) (s : C * D) : Prop :=
  pc_ok s.1 s.2 ∧
  (∀ b, b ∈ bs → stores s.1 s.2 (mb_h b) (mb_start b + mb_n b) (mb_ref c d ws nl b).2) ∧
  (∀ h len ess, h ∉ (mb_h <$> bs) → stores c d h len ess → stores s.1 s.2 h len ess).

Lemma mb_run_mb_ref c d ws nl b :
  length (mb_ess b) = nl → nl ≤ length (layers ws) →
  mb_run (D := D) (ws_config ws) (enc c d) (att c d (num_kv_heads (ws_config ws))) (W0 d <$> take nl (layers ws)) 0 b =
  {| mb_h := mb_h b; mb_ps := mb_ps b; mb_start := mb_start b; mb_ess := (mb_ref c d ws nl b).2; mb_hs := (mb_ref c d ws nl b).1 |}.
Proof.
  intros Hl Hn. pose proof (mb_run_ref (D := D) (ws_config ws) (enc c d) (att c d (num_kv_heads (ws_config ws)))
    (W0 d <$> take nl (layers ws)) 0 b [] (mb_ess b) eq_refl eq_refl) as Hr.
  fold (mb_ref c d ws nl b) in Hr. destruct (mb_ref c d ws nl b) as [hs' ess'].
  destruct Hr as (E1 & E2 & E3 & E4 & E5); [rewrite length_fmap, length_take; lia |].
  destruct (mb_run _ _ _ _ _ b). simpl in *. by rewrite E1, E2, E3, E4, E5.
Qed.

Lemma batch_layers_runs ws range_start c d d1 d0 input hs r sc (bs : list MB) nl :
  let ps := mjoin (mb_ps <$> bs) in
  pc_ok c d → pc_dims c = (nl, num_kv_heads (ws_config ws), head_dim (ws_config ws)) → nl ≤ length (layers ws) →
  weights_ok (pc_outside c) d ws → resolved_ok (pc_outside c) d d1 ws input ps hs r → setup_ok (pc_outside c) d d1 d0 ws ps hs r sc →
  hs = mjoin (mb_hs <$> bs) → batch_ready c d nl bs → 0 < nl →
  runs dev_failed (siter (batched_layer ws range_start r sc (slices_of 0 bs)) (seq range_start nl)) (c, d0) (λ s _, ∃ e',
    cache_inv c d s.1 s.2 ∧ mem (length ps) (hidden_state r) sc (pc_outside c) d0 ∅ e' s.2 ∧
    e' BHidden = mjoin ((λ b, (mb_ref c d ws nl b).1) <$> bs) ∧ (∀ b, b ∈ bs → length (mb_ref c d ws nl b).1 = mb_n b) ∧
    batch_done c d ws nl bs s).
Proof.
  intros ps Hok Hdims Hnl Hws Hres Hsu Hhs [Hnd Hmem Hroom] Hpos. pose proof Hsu as [Hbufs _ Hdd0 _ Hm0 Hhid].
  pose proof Hres as [Rp Rn _ _ _ _ _ _ _ _ _ _].
  destruct (cache_frame c d c d d0 (cache_inv_refl c d Hok)) as [Hc0 Hst0]; [intros id Hid _; by apply Hdd0 |].
  destruct (setup_layers (pc_outside c) d d1 d0 ws ps hs r sc (take nl (layers ws)) Hws Hsu) as [Hwc Hw0].
  { intros w [i [Hi _]%lookup_take_Some]%list_elem_of_lookup. by eapply list_elem_of_lookup_2. }
  assert (length (take nl (layers ws)) = nl) as Hlt by (rewrite length_take; lia).
  pose proof (batched_layers_runs (ws_config ws) (length ps) c d d0 r sc nl Hdims Hbufs ws range_start (take nl (layers ws)) eq_refl Rn) as Hloop.
  rewrite Rp, Hlt, Hw0 in Hloop. specialize (Hloop eq_refl 0 c d0 (λ b, t_rows d0 (buf (hidden_state r) sc b)) bs). rewrite Nat.add_0_r in Hloop.
  eapply runs_mono; [| eapply Hloop; try done; clear Hloop].
  - intros [c2 d2] [] (e2 & Hc2 & Hm2 & He2 & Hall2 & Hkeep2). cbn [fst snd] in *. exists e2.
    assert (∀ b, b ∈ bs → _) as Hrun by (intros b Hb; exact (mb_run_mb_ref c d ws nl b (ma_layers _ _ _ _ _ _ (proj1 (Hmem b Hb))) Hnl)).
    split_and!; [done | done | | | split_and!; [apply Hc2 | |]].
    + rewrite He2, <- list_fmap_compose. f_equal. apply list_fmap_ext. intros i b Hi. apply list_elem_of_lookup_2 in Hi.
      unfold compose. by rewrite (Hrun b Hi).
    + intros b Hb. pose proof (ma_rows _ _ _ _ _ _ (Hall2 b Hb)) as Hr. by rewrite (Hrun b Hb) in Hr.
    + intros b Hb. pose proof (ma_stores _ _ _ _ _ _ (Hall2 b Hb)) as Hs. rewrite (Hrun b Hb) in Hs.
      rewrite bool_decide_false in Hs by lia. done.
    + intros h len ess Hh Hs. by apply Hkeep2, Hst0.
  - intros i w Hi. by apply lookup_take_Some in Hi as [? _].
  - simpl. by rewrite Hhid.
  - intros b Hb. destruct (Hmem b Hb) as [[? ? ? ? ?] _]. split; try done. by apply Hst0.
Qed.

(** The last rows of the members. *)
Lemma last_rows {A : Type} (f : MB → list Row) (g : Row → A) (bs : list MB) :
  (∀ b, b ∈ bs → length (f b) = mb_n b ∧ 0 < mb_n b) →
  ∀ pre, (λ bd : nat * nat, g (default [] ((pre ++ mjoin (f <$> bs)) !! (bd.2 - 1)))) <$> boundaries (length pre) (mb_n <$> bs) =
  (λ b, g (default [] (last (f b)))) <$> bs.
Proof.
  induction bs as [|b bs IH]; intros Hf pre; [done |]. rewrite !fmap_cons. cbn [boundaries]. rewrite !fmap_cons. cbn [snd].
  destruct (Hf b ltac:(left)) as [Hl Hp]. f_equal.
  - do 2 f_equal. cbn [mjoin list_join]. rewrite lookup_app_r, lookup_app_l, last_lookup, Hl by lia. f_equal. lia.
  - cbn [mjoin list_join]. rewrite <- (IH (λ b' Hb', Hf b' (list_elem_of_further _ _ _ Hb')) (pre ++ f b)).
    rewrite length_app, Hl, <- app_assoc. done.
Qed.

Lemma boundaries_range (o : nat) lens : Forall (λ k, 0 < k) lens → Forall (λ b : nat * nat, 0 < b.2 ≤ o + sum_list lens) (boundaries o lens).
Proof.
  revert o. induction lens as [|k lens IH]; intros o Hk; [constructor |]. apply Forall_cons in Hk as [Hk1 Hk2]. cbn [boundaries].
  constructor; [simpl; lia |]. eapply Forall_impl; [by apply IH |]. intros [a b]. simpl. lia.
Qed.

(** A member as the slice of the batch says, with the embeddings of its tokens. *)
Definition member_of d (ws : WeightStore) (sq : SequenceSlice) (b : MB) : Prop :=
  mb_h b = sl_handle sq ∧ mb_ps b = sl_positions sq ∧ length (sl_token_ids sq) = length (sl_positions sq) ∧
  Forall (λ i, 0 ≤ i < Z.of_nat (nrows (token_embedding ws)))%Z (sl_token_ids sq) ∧ mb_hs b = embed d ws (sl_token_ids sq).

Lemma members_fields d ws seqs (bs : list MB) :
  Forall2 (member_of d ws) seqs bs →
  sl_handle <$> seqs = mb_h <$> bs ∧ sl_positions <$> seqs = mb_ps <$> bs ∧ length ∘ sl_token_ids <$> seqs = mb_n <$> bs ∧
  length (mjoin (sl_token_ids <$> seqs)) = length (mjoin (mb_ps <$> bs)) ∧
  Forall (λ i, 0 ≤ i < Z.of_nat (nrows (token_embedding ws)))%Z (mjoin (sl_token_ids <$> seqs)) ∧
  embed d ws (mjoin (sl_token_ids <$> seqs)) = mjoin (mb_hs <$> bs).
Proof.
  induction 1 as [|sq b seqs bs (E1 & E2 & E3 & E4 & E5) _ (I1 & I2 & I3 & I4 & I5 & I6)]; [done |].
  csimpl. rewrite I1, I2, I3, E1, E2, E5, !length_app, I4. split_and!; try done.
  - f_equal. unfold mb_n, compose. by rewrite E2.
  - by rewrite E3.
  - by apply Forall_app.
  - unfold embed in *. by rewrite fmap_app, I6.
Qed.

Lemma start_positions_Ok c d nl (bs : list MB) :
  (∀ b, b ∈ bs → member_at c nl c d 0 b ∧ 0 < mb_n b) → rmapM (λ h, pc_seq_len h c) (mb_h <$> bs) = Ok (mb_start <$> bs).
Proof.
  induction bs as [|b bs IH]; intros Hm; [done |]. csimpl. destruct (Hm b ltac:(left)) as [[[Hl _] _ _ _ _] _]. simpl in Hl.
  rewrite Hl, IH; [done |]. intros b' Hb'. apply Hm. by right.
Qed.

Lemma slices_zip (bs : list MB) : zip (zip (mb_h <$> bs) (boundaries 0 (mb_n <$> bs))) (mb_start <$> bs) = slices_of 0 bs.
Proof. done. Qed.

Lemma members_pos c d nl (bs : list MB) :
  (∀ b, b ∈ bs → member_at c nl c d 0 b ∧ 0 < mb_n b) →
  Forall (λ bd : nat * nat, 0 < bd.2 ≤ length (mjoin (mb_ps <$> bs))) (boundaries 0 (mb_n <$> bs)).
Proof.
  intros Hm. rewrite (mjoin_length_members mb_ps bs) by done. apply (boundaries_range 0 (mb_n <$> bs)).
  apply Forall_forall. intros k (b & -> & Hb)%list_elem_of_fmap. by apply Hm.
Qed.

Lemma batched_forward_Ok ws layer_range seqs c d (bs : list MB) nl :
  seqs ≠ [] → pc_ok c d → pc_dims c = (nl, num_kv_heads (ws_config ws), head_dim (ws_config ws)) →
  Z.to_nat (range_len layer_range) = nl → 0 < nl → nl ≤ length (layers ws) → weights_ok (pc_outside c) d ws →
  Forall2 (member_of d ws) seqs bs → batch_ready c d nl bs →
  runs dev_failed (batched_forward from_f16 ws layer_range seqs) (c, d) (λ s out,
    out = mb_logits c d ws nl <$> bs ∧ batch_done c d ws nl bs s ∧ b_live s.2 = b_live d ∧
    ∀ id, id ∈ b_live d → pc_outside c id → b_rows s.2 id = b_rows d id).
Proof.
  intros Hne Hok Hdims Hrange Hpos Hnl Hws Hmo Hready. pose proof Hready as [Hnd Hmem Hroom].
  destruct (members_fields d ws seqs bs Hmo) as (F1 & F2 & F3 & F4 & F5 & F6).
  assert (∀ id, id ∉ b_live d → pc_outside c id) as Hout by (intros id; by apply (pc_fresh c d)).
  unfold batched_forward. rewrite bool_decide_false by done. rewrite F1, F2, F3.
  set (ps := mjoin (mb_ps <$> bs)) in *. set (ids := mjoin (sl_token_ids <$> seqs)) in *.
  apply runs_bind. unfold start_positions, runs at 1. rewrite (start_positions_Ok c d nl bs Hmem), slices_zip.
  apply runs_bind, runs_dev. eapply runs_mono; [| by apply (embed_runs (pc_outside c) ws ids ps (length ids) d)]. intros d1 t Hr.
  apply runs_bind, runs_dev. eapply runs_mono; [| exact Hr]. intros d2 [] Hres. clear Hr.
  set (r := {| hidden_state := t |}) in *. rewrite F6 in Hres. rewrite F4.
  apply runs_bind, runs_dev. eapply runs_mono; [| by apply (setup_runs (pc_outside c) ws (TokenIds ids ps) ps _ d d2 r Hws Hout Hres)].
  intros d0 sc Hsu. unfold range_layers. rewrite Hrange. apply runs_bind.
  eapply runs_mono; [| by apply (batch_layers_runs ws _ c d d2 d0 (TokenIds ids ps) _ r sc bs nl Hok Hdims Hnl Hws Hres Hsu)].
  intros [c3 d3] [] (e3 & Hc3 & Hm3 & He3 & Hl3 & Hdone). cbn [fst snd] in *.
  destruct (setup_head _ _ _ _ _ _ _ _ _ (lm_head ws) Hsu ltac:(set_solver)) as [Hlc Hlr].
  destruct (setup_head _ _ _ _ _ _ _ _ _ (output_norm ws) Hsu ltac:(set_solver)) as [Hoc Hor].
  pose proof Hsu as [Hbufs Hfresh _ _ _ _].
  apply runs_bind, runs_dev.
  eapply runs_mono; [| apply (batched_logits_runs from_f16 ws (length ps) r sc (pc_outside c) d0 Hbufs Hlc (wo_head _ _ _ Hws) (wo_vocab _ _ _ Hws)
    e3 d3 _ Hm3 Hoc (wo_norm _ _ _ Hws)); by eapply members_pos].
  intros d4 ls (-> & (e4 & Hm4 & He4) & Hl4). destruct (local_cache _ _ _ _ _ _ _ Hbufs c3 d3 d4 Hc3 Hl4) as [Hc4 Hst4].
  apply runs_bind, runs_dev.
  eapply runs_mono; [| exact (free_scratch_runs ws (length ps) r sc (pc_outside c) d2 d0 Hbufs Hfresh (proj1 (ro_valid _ _ _ _ _ _ _ _ Hres)) e4 d4 true Hm4)].
  intros d5 [] [Hl5 Hs5]. apply runs_ret. cbn [fst snd].
  destruct (pass_end c d ws (TokenIds ids ps) ps _ r sc d2 d0 c3 d4 d5 e4 true Hres Hsu Hc4 Hm4 Hl5 Hs5) as (Hc5 & Hst5 & Hrest & Hlive).
  split_and!; [| | done | by intros id Hid Ho; apply Hrest].
  - rewrite He3, Hlr, Hor. apply (last_rows (λ b, (mb_ref c d ws nl b).1) _ bs) with (pre := []).
    intros b Hb. split; [by apply Hl3 | by apply Hmem].
  - destruct Hdone as (_ & Hst & Hoth). split_and!; [apply Hc5 | |].
    + intros b Hb. by apply Hst5, Hst4, Hst.
    + intros h len ess Hh Hs. by apply Hst5, Hst4, Hoth.
Qed.

(** What a node of a pipeline takes: tokens at the head, the hidden states of
    all members elsewhere. *)
Definition node_batch (O : Z → Prop) d (ws : WeightStore) (nc : NodeConfig) (seqs : list SequenceSlice) (inp : option DeviceTensor) (bs : list MB) : Prop :=
  match inp with
  | None => is_head nc = true ∧ Forall2 (member_of d ws) seqs bs
  | Some t =>
      is_head nc = false ∧ sl_handle <$> seqs = mb_h <$> bs ∧ sl_positions <$> seqs = mb_ps <$> bs ∧ t_valid d t ∧ O (tensor_id t) ∧
      tensor_id t ∉ (tensor_id <$> store_tensors ws) ∧ shape t = [Z.of_nat (length (mjoin (mb_ps <$> bs))); hidden_size (ws_config ws)] ∧
      dtype t = FP16 ∧ t_rows d t = mjoin (mb_hs <$> bs)
  end.
Definition node_input (seqs : list SequenceSlice) (inp : option DeviceTensor) : NodeInput :=
  match inp with
  | None => TokenIds (mjoin (sl_token_ids <$> seqs)) (mjoin (sl_positions <$> seqs))
  | Some t => Activations t (mjoin (sl_positions <$> seqs))
  end.

Lemma node_batch_fields O d ws nc seqs inp (bs : list MB) :
  node_batch O d ws nc seqs inp bs → sl_handle <$> seqs = mb_h <$> bs ∧ sl_positions <$> seqs = mb_ps <$> bs.
Proof. destruct inp as [t|]; [naive_solver |]. intros [_ Hm]. by destruct (members_fields d ws seqs bs Hm) as (? & ? & _). Qed.

Lemma batched_input_runs O ws nc seqs inp (bs : list MB) d :
  let ps := mjoin (mb_ps <$> bs) in
  weights_ok O d ws → (∀ id, id ∉ b_live d → O id) → node_batch O d ws nc seqs inp bs →
  runs b_failed (batched_input ws nc seqs (length ps) inp) d (λ d1 ho,
    resolved_ok O d d1 ws (node_input seqs inp) ps (mjoin (mb_hs <$> bs))
      {| hidden_state := ho.1; r_positions := ps; r_seq_len := length ps; owns_hidden := ho.2 |}).
Proof.
  clear from_f16. intros ps Hws Hout Hb. pose proof (node_batch_fields _ _ _ _ _ _ _ Hb) as [_ F2].
  unfold batched_input, node_batch, node_input in *. rewrite F2. destruct inp as [t|].
  - destruct Hb as (-> & _ & _ & Hv & HO & Hnw & Hs & Hd & Hr). rewrite Hs. fold ps in Hs |- *.
    apply runs_bind. eapply runs_lift; [done |]. rewrite Z.eqb_refl. apply runs_bind. eapply runs_lift; [done |]. rewrite Z.eqb_refl. apply runs_ret.
    split; simpl; try done; [set_solver | by intros ? [= <-]].
  - destruct Hb as [-> Hm]. destruct (members_fields d ws seqs bs Hm) as (_ & _ & _ & F4 & F5 & F6).
    rewrite bool_decide_true by done. cbn [negb]. fold ps in F4 |- *. rewrite <- F4 at 1. rewrite <- F6.
    apply runs_bind. eapply runs_mono; [| by apply (embed_runs O ws _ ps (length ps) d)]. intros d1 t Hr.
    apply runs_bind. eapply runs_mono; [| exact Hr]. intros d2 [] Hres. by apply runs_ret.
Qed.

Definition node_result c d d' (ws : WeightStore) (nl : nat) (nc : NodeConfig) (seqs : list SequenceSlice) (inp : option DeviceTensor)
    (bs : list MB) (out : NodeOutput) : Prop :=
  match out with
  | Logits l => is_tail nc = true ∧ l = mjoin (mb_logits c d ws nl <$> bs) ∧ b_live d' = b_live d
  | OutActivations t =>
      is_tail nc = false ∧
      activations_ok d d' ws (node_input seqs inp) (mjoin (mb_ps <$> bs)) (mjoin ((λ b, (mb_ref c d ws nl b).1) <$> bs)) t
  end.

Lemma batched_forward_node_Ok ws nc seqs inp c d (bs : list MB) nl :
  seqs ≠ [] → pc_ok c d → pc_dims c = (nl, num_kv_heads (ws_config ws), head_dim (ws_config ws)) →
  node_len nc = nl → 0 < nl → nl ≤ length (layers ws) → weights_ok (pc_outside c) d ws →
  node_batch (pc_outside c) d ws nc seqs inp bs → batch_ready c d nl bs →
  runs dev_failed (batched_forward_node from_f16 ws nc seqs inp) (c, d) (λ s out,
    node_result c d s.2 ws nl nc seqs inp bs out ∧ batch_done c d ws nl bs s ∧ rest_kept (pc_outside c) d s.2 (node_input seqs inp)).
Proof.
  intros Hne Hok Hdims Hrange Hpos Hnl Hws Hb Hready. pose proof Hready as [Hnd Hmem Hroom].
  destruct (node_batch_fields _ _ _ _ _ _ _ Hb) as [F1 F2].
  assert (∀ id, id ∉ b_live d → pc_outside c id) as Hout by (intros id; by apply (pc_fresh c d)).
  assert (length ∘ sl_positions <$> seqs = mb_n <$> bs) as F3.
  { rewrite (list_fmap_compose sl_positions length), F2, <- list_fmap_compose. done. }
  unfold batched_forward_node. rewrite bool_decide_false by done. rewrite F1, F2, F3. set (ps := mjoin (mb_ps <$> bs)) in *.
  apply runs_bind, runs_dev. eapply runs_mono; [| by apply (batched_input_runs (pc_outside c) ws nc seqs inp bs d Hws Hout Hb)].
  intros d2 [t own] Hres. cbn [fst snd] in *. set (r := {| hidden_state := t |}) in *. fold ps in Hres.
  apply runs_bind. unfold start_positions, runs at 1. rewrite (start_positions_Ok c d nl bs Hmem), slices_zip.
  apply runs_bind, runs_dev. eapply runs_mono; [| by apply (setup_runs (pc_outside c) ws _ ps _ d d2 r Hws Hout Hres)].
  intros d0 sc Hsu. unfold range_layers. fold (node_len nc). rewrite Hrange. apply runs_bind.
  eapply runs_mono; [| by apply (batch_layers_runs ws _ c d d2 d0 _ _ r sc bs nl Hok Hdims Hnl Hws Hres Hsu)].
  intros [c3 d3] [] (e3 & Hc3 & Hm3 & He3 & Hl3 & Hdone). cbn [fst snd] in *. fold ps in Hm3.
  pose proof Hsu as [Hbufs Hfresh _ _ _ _]. pose proof (proj1 (ro_valid _ _ _ _ _ _ _ _ Hres)) as Hhl.
  destruct (is_tail nc) eqn:Et.
  - destruct (setup_head _ _ _ _ _ _ _ _ _ (lm_head ws) Hsu ltac:(set_solver)) as [Hlc Hlr].
    destruct (setup_head _ _ _ _ _ _ _ _ _ (output_norm ws) Hsu ltac:(set_solver)) as [Hoc Hor].
    apply runs_bind, runs_dev.
    eapply runs_mono; [| apply (batched_logits_runs from_f16 ws (length ps) r sc (pc_outside c) d0 Hbufs Hlc (wo_head _ _ _ Hws) (wo_vocab _ _ _ Hws)
      e3 d3 _ Hm3 Hoc (wo_norm _ _ _ Hws)); by eapply members_pos].
    intros d4 ls (-> & (e4 & Hm4 & He4) & Hl4). destruct (local_cache _ _ _ _ _ _ _ Hbufs c3 d3 d4 Hc3 Hl4) as [Hc4 Hst4].
    apply runs_bind, runs_dev.
    eapply runs_mono; [| exact (free_scratch_runs ws (length ps) r sc (pc_outside c) d2 d0 Hbufs Hfresh Hhl e4 d4 own Hm4)].
    intros d5 [] [Hl5 Hs5]. apply runs_ret. cbn [fst snd].
    destruct (pass_end c d ws _ ps _ r sc d2 d0 c3 d4 d5 e4 true Hres Hsu Hc4 Hm4 Hl5 Hs5) as (Hc5 & Hst5 & Hrest & Hlive).
    destruct Hdone as (_ & Hst & Hoth). unfold node_result, batch_done. split_and!; [done | | done | apply Hc5 | | | done].
    + f_equal. rewrite He3, Hlr, Hor. apply (last_rows (λ b, (mb_ref c d ws nl b).1) _ bs) with (pre := []).
      intros b Hb'. split; [by apply Hl3 | by apply Hmem].
    + intros b Hb'. by apply Hst5, Hst4, Hst.
    + intros h len ess Hh Hs. by apply Hst5, Hst4, Hoth.
  - apply runs_bind, runs_dev. unfold runs at 1. destruct (k_synchronize_spec d3) as [->|(d' & er & -> & Hfl)]; [| done].
    apply runs_bind, runs_dev.
    eapply runs_mono; [| exact (free_scratch_runs ws (length ps) r sc (pc_outside c) d2 d0 Hbufs Hfresh Hhl e3 d3 false Hm3)].
    intros d5 [] [Hl5 Hs5]. apply runs_ret. cbn [fst snd].
    destruct (pass_end c d ws _ ps _ r sc d2 d0 c3 d3 d5 e3 false Hres Hsu Hc3 Hm3 Hl5 Hs5) as (Hc5 & Hst5 & Hrest & Hact).
    destruct Hdone as (_ & Hst & Hoth). rewrite He3 in Hact.
    unfold node_result, batch_done. split_and!; [done | done | apply Hc5 | | | done].
    + intros b Hb'. by apply Hst5, Hst.
    + intros h len ess Hh Hs. by apply Hst5, Hoth.
Qed.

(** C4: a batched forward pass ([batched_forward]) computes for every member
    of the batch what the reference transformer computes for it alone.  For
    members with pairwise different handles, each with new tokens behind the
    tokens its sequence has, and enough free blocks for all of them together, the
    pass does not panic and fails only if the device reports a failure;
    otherwise the result has one logits vector per member, in order, each a
    function of that member's tokens and cached entries only; every member's
    sequence is extended by its own entries, sequences outside the batch and
    other tensors are as before, and no tensor is left allocated. *)
Theorem batched_forward_spec ws layer_range seqs c d (bs : list MB) nl :
  seqs ≠ [] → pc_ok c d → pc_dims c = (nl, num_kv_heads (ws_config ws), head_dim (ws_config ws)) →
  Z.to_nat (range_len layer_range) = nl → 0 < nl → nl ≤ length (layers ws) → weights_ok (pc_outside c) d ws →
  Forall2 (member_of d ws) seqs bs → batch_ready c d nl bs →
  runs dev_failed (batched_forward from_f16 ws layer_range seqs) (c, d) (λ s out,
    out = mb_logits c d ws nl <$> bs ∧ batch_done c d ws nl bs s ∧ b_live s.2 = b_live d ∧
    ∀ id, id ∈ b_live d → pc_outside c id → b_rows s.2 id = b_rows d id).
Proof. apply batched_forward_Ok. Qed.

(** C5: a batched pass of one pipeline node ([batched_forward_node]) computes
    the reference for every member.  A head node embeds the members' tokens;
    another takes one tensor with the hidden states of all of them and works on
    it in place.  For members with pairwise different handles, each with new
    tokens behind the tokens its sequence has, and enough free blocks for all of
    them together, the pass does not panic and fails only if the device reports a
    failure; otherwise the tail returns the members' logits one after the other
    and leaves no new tensor, and other nodes return the hidden states of all
    positions in order, in a new tensor at the head and in the given one
    elsewhere.  Every member's sequence is extended by its own entries; sequences
    outside the batch and other tensors are as before. *)
Theorem batched_forward_node_spec ws nc seqs inp c d (bs : list MB) nl :
  seqs ≠ [] → pc_ok c d → pc_dims c = (nl, num_kv_heads (ws_config ws), head_dim (ws_config ws)) →
  node_len nc = nl → 0 < nl → nl ≤ length (layers ws) → weights_ok (pc_outside c) d ws →
  node_batch (pc_outside c) d ws nc seqs inp bs → batch_ready c d nl bs →
  runs dev_failed (batched_forward_node from_f16 ws nc seqs inp) (c, d) (λ s out,
    node_result c d s.2 ws nl nc seqs inp bs out ∧ batch_done c d ws nl bs s ∧ rest_kept (pc_outside c) d s.2 (node_input seqs inp)).
Proof. apply batched_forward_node_Ok. Qed.
End batched_spec.

Module BatchedWitness.
Import TinyModel.
(** A cache for [nl] layers with sequences 0 and 1, on the small model's device
    with the hidden states of three positions. *)
Definition hidden3 : DeviceTensor := wt 13 [3; 2]%Z.
Definition dh : SimDevice := {| sim_mem := <[13%Z := [[1; 2]; [3; 4]; [5; 6]]%Z]> (sim_mem tdev); sim_room := 200 |}.
Definition created (nl : nat) := paged_new 4 nl 1 2 dh.
Definition m0 (nl : nat) : PagedKvCacheManager := match (created nl).2 with Ok m => m | _ => tables_new EngineWitness.no_pool end.
Definition d1 (nl : nat) : SimDevice := (created nl).1.
Definition m2 (nl : nat) : PagedKvCacheManager := (paged_alloc (paged_alloc (m0 nl)).1).1.

Lemma batch_cache_Ok nl : nl = 1 ∨ nl = 2 → created nl = (d1 nl, Ok (m0 nl)).
Proof. intros [->| ->]; by vm_compute. Qed.

Lemma m2_ok nl : nl = 1 ∨ nl = 2 → pc_ok (m2 nl) (d1 nl).
Proof.
  intros Hnl. destruct (paged_new_inv 4 nl 1 2 dh (d1 nl) (m0 nl) (batch_cache_Ok nl Hnl)) as ([Hinv Hp] & _).
  split; [| destruct Hnl as [->| ->]; by vm_compute].
  split; [apply tables_alloc_inv; by apply tables_alloc_inv |].
  assert (pool (m2 nl) = set_free_list [2; 3] (pool (m0 nl))) as -> by (destruct Hnl as [->| ->]; by vm_compute).
  by apply pool_ok_set_free.
Qed.

Lemma m2_outside nl id :
  nl = 1 ∨ nl = 2 → (1 ≤ id ≤ 13)%Z → pc_outside (m2 nl) id ∧ id ∈ b_live (d1 nl) ∧ b_rows (d1 nl) id = b_rows dh id.
Proof.
  intros Hnl Hid.
  assert (Forall (λ u, 13 < tensor_id u)%Z (pool_tensors (pool (m2 nl)))) as Hpool by (destruct Hnl as [->| ->]; decide_now).
  assert (Forall (λ i, i ∈ dom (sim_mem (d1 nl)) ∧ sim_rows (d1 nl) i = sim_rows dh i) [1; 2; 3; 4; 5; 6; 7; 8; 9; 10; 11; 12; 13]%Z) as Hall
    by (destruct Hnl as [->| ->]; decide_now).
  rewrite Forall_forall in Hpool. rewrite Forall_forall in Hall. split; [intros u Hu; specialize (Hpool u Hu); lia |]. apply Hall.
  assert (id ∈ Z.of_nat <$> seq 1 13); [| done]. apply list_elem_of_fmap. exists (Z.to_nat id). split; [lia |]. apply elem_of_seq. lia.
Qed.

Lemma m2_weights nl k : nl = 1 ∨ nl = 2 → weights_ok (pc_outside (m2 nl)) (d1 nl) (tstore k).
Proof.
  intros Hnl. apply tweights. intros id Hid. destruct (m2_outside nl id Hnl ltac:(lia)) as (? & ? & Hr). split_and!; [done | done |].
  rewrite Hr. apply sim_rows_put_ne. lia.
Qed.

Definition slices : list SequenceSlice :=
  [{| sl_token_ids := [3; 1]%Z; sl_positions := [0; 1]%Z; sl_handle := 0%Z |}; {| sl_token_ids := [2]%Z; sl_positions := [0]%Z; sl_handle := 1%Z |}].
Definition members (nl : nat) (hs1 hs2 : list Row) : list (Member (pc_entry (C := PagedKvCacheManager) (D := SimDevice))) :=
  [{| mb_h := 0; mb_ps := [0; 1]%Z; mb_start := 0; mb_ess := replicate nl []; mb_hs := hs1 |};
   {| mb_h := 1; mb_ps := [0]%Z; mb_start := 0; mb_ess := replicate nl []; mb_hs := hs2 |}].

Lemma members_ready nl hs1 hs2 :
  nl = 1 ∨ nl = 2 → length hs1 = 2 → length hs2 = 1 → batch_ready (C := PagedKvCacheManager) (m2 nl) (d1 nl) nl (members nl hs1 hs2).
Proof.
  intros Hnl H1 H2. split.
  - apply NoDup_cons. split; [intros ?%list_elem_of_singleton; done | apply NoDup_singleton].
  - intros b Hb. repeat (apply elem_of_cons in Hb as [->|Hb]); [| | by apply not_elem_of_nil in Hb]; (split; [| unfold mb_n; simpl; lia]);
      (split; [| apply length_replicate | intros l es _ Hl; apply lookup_replicate in Hl as [-> _]; done | done | done]);
      (split; [destruct Hnl as [->| ->]; by vm_compute |]); intros l es Hl; apply lookup_replicate in Hl as [-> _]; (split; [apply Nat.le_0_l | done]).
  - destruct Hnl as [->| ->]; vm_compute; lia.
Qed.

Lemma batched_forward_spec_witness :
  runs dev_failed (batched_forward f16 (tstore 2) full slices) (m2 2, d1 2) (λ s out,
    out = mb_logits (C := PagedKvCacheManager) f16 (m2 2) (d1 2) (tstore 2) 2 <$> members 2 [[2; 1]; [0; 1]]%Z [[1; 1]]%Z ∧
    b_live s.2 = b_live (d1 2)).
Proof.
  eapply runs_mono.
  2:{ apply (batched_forward_spec (C := PagedKvCacheManager) (D := SimDevice) f16 (tstore 2) full slices (m2 2) (d1 2) (members 2 [[2; 1]; [0; 1]]%Z [[1; 1]]%Z) 2).
      - done.
      - apply m2_ok. by right.
      - by vm_compute.
      - by vm_compute.
      - lia.
      - simpl. lia.
      - apply m2_weights. by right.
      - repeat constructor; try done; try (by vm_compute); by forall_list.
      - apply members_ready; [by right | done | done]. }
  intros s out (Ho & _ & Hl & _). done.
Defined.

(** The second of two nodes, with the hidden states of both sequences. *)
Definition tailnode : NodeConfig := {| nc_layer_range := {| rstart := 1; rend := 2 |}; total_layers := 2 |}.

Lemma batched_forward_node_spec_witness :
  runs dev_failed (batched_forward_node f16 (tstore 1) tailnode slices (Some hidden3)) (m2 1, d1 1) (λ s out,
    node_result (C := PagedKvCacheManager) f16 (m2 1) (d1 1) s.2 (tstore 1) 1 tailnode slices (Some hidden3)
      (members 1 [[1; 2]; [3; 4]]%Z [[5; 6]]%Z) out).
Proof.
  eapply runs_mono.
  2:{ apply (batched_forward_node_spec (C := PagedKvCacheManager) (D := SimDevice) f16 (tstore 1) tailnode slices (Some hidden3) (m2 1) (d1 1) (members 1 [[1; 2]; [3; 4]]%Z [[5; 6]]%Z) 1).
      - done.
      - apply m2_ok. by left.
      - by vm_compute.
      - by vm_compute.
      - lia.
      - simpl. lia.
      - apply m2_weights. by left.
      - destruct (m2_outside 1 13) as (Ho & Hl & Hr); [by left | done |].
        split; [done |]. split; [done |]. split; [done |]. split; [split; [exact Hl | unfold t_rows; cbn [hidden3 wt tensor_id]; by rewrite Hr] |].
        split; [exact Ho |]. split; [| split; [done |]; split; [done |]; unfold t_rows; cbn [hidden3 wt tensor_id]; by rewrite Hr].
        intros (u & Heq & Hu%tstore_tensors)%list_elem_of_fmap. cbn [hidden3 wt tensor_id] in Heq. lia.
      - apply members_ready; [by left | done | done]. }
  by intros s out (Ho & _ & _).
Defined.

Example batched_forward_runs :
  (batched_forward f16 (tstore 2) full slices (m2 2, d1 2)).2 = Ok [[f16 16331]; [f16 35024]].
Proof. by vm_compute. Qed.
End BatchedWitness.
