(* ===== verification/Contiguous.v ===== *)
(** * Forward passes over the contiguous cache

    [Engine::forward_node] and [forward] of [crates/fracture-engine/src/engine.rs]
    over the cache of [kv_cache.rs], with the timers of the profiler. *)

From S2P Require Import Prelude F32 Core Backend Kernels BlockTables PagedCache QuantizedCache KvCache CacheIface LayerScheduler WeightStore Transformer Engine.

Record LayerProfile := {
  lp_layer_idx : nat; lp_total_ms : f32; rmsnorm_attn_ms : f32; qkv_proj_ms : f32; rope_ms : f32; attention_ms : f32;
  output_proj_ms : f32; rmsnorm_ffn_ms : f32; gate_up_proj_ms : f32; silu_mul_ms : f32; down_proj_ms : f32
}.
Record ForwardProfile := { fp_total_ms : f32; prefill : bool; fp_seq_len : nat; layer_profiles : list LayerProfile }.

(** [iter().sum()] over [f32] starts from -0.0 *)
Definition f32_sum (l : list f32) : f32 := foldl f32_add (fneg f32_zero) l.

Section contiguous.
Context {D : Type} `{KernelOps D} `{TimerOps D}.
Variable from_f16 : Z → f32.

(** [timed_op(backend, profiling, f)] *)
Definition timed_op (profiling : bool) (f : st D unit) : st D f32 :=
  if profiling then
    do! timer := b_create_timer in
    do! _ := b_start_timer timer in
    do! _ := f in
    do! elapsed := b_stop_timer timer in
    do! _ := b_destroy_timer timer in
    sret elapsed
  else
    do! _ := f in
    sret f32_zero.

(** Reading the cache, and the sequence's new length. *)
Definition of_cache {A : Type} (f : KvCacheManager → result A) : st (KvCacheManager * D) A := λ '(c, d), ((c, d), f c).
Definition on_cache {A : Type} (m : st KvCacheManager A) : st (KvCacheManager * D) A := λ '(c, d),
  let '(c', r) := m c in ((c', d), r).

(** Steps 2e-2f: the new rows are copied behind the old ones. *)
Definition ph_attention (cfg : ModelConfig) (sc : Scratch) (n start_pos : nat) (k_cache v_cache : DeviceTensor) : st D unit :=
  do! _ := b_copy_rows (k_mh cfg sc n) k_cache 0 start_pos n in
  do! _ := b_copy_rows (v_mh cfg sc n) v_cache 0 start_pos n in
  b_attention (q_mh cfg sc n) k_cache v_cache (num_kv_heads cfg) start_pos (attn_out cfg sc n).

Definition contiguous_layer (e : Engine) (nc : NodeConfig) (h : Z) (r : Resolved) (sc : Scratch) (profiling : bool)
    (start_pos layer_idx : nat) : st (KvCacheManager * D) (list LayerProfile) :=
  let cfg := ws_config (weights e) in
  let n := r_seq_len r in
  let timed f := dev (timed_op profiling f) in
  do! weight_idx := slift (nsub layer_idx (Z.to_nat (rstart (e_layer_range e)))) in
  do! cache_idx := slift (nsub layer_idx (Z.to_nat (rstart (nc_layer_range nc)))) in
  do! w := slift (index (layers (weights e)) weight_idx) in
  do! rmsnorm_attn_ms := timed (ph_attn_norm cfg w (hidden_state r) sc) in
  do! qkv_proj_ms := timed (ph_qkv w sc) in
  do! rope_ms := timed (ph_rope cfg sc n (r_positions r)) in
  do! kc := of_cache (k_cache h cache_idx) in
  do! vc := of_cache (v_cache h cache_idx) in
  do! attention_ms := timed (ph_attention cfg sc n start_pos kc vc) in
  do! output_proj_ms := timed (ph_output_proj cfg w sc n) in
  do! _ := dev (ph_attn_residual (hidden_state r) sc) in
  do! rmsnorm_ffn_ms := timed (ph_ffn_norm cfg w (hidden_state r) sc) in
  do! gate_up_proj_ms := timed (ph_gate_up w sc) in
  do! silu_mul_ms := timed (ph_silu_mul sc) in
  do! down_proj_ms := timed (ph_down w sc) in
  do! _ := dev (ph_ffn_residual (hidden_state r) sc) in
  let total_ms := foldl f32_add rmsnorm_attn_ms
    [qkv_proj_ms; rope_ms; attention_ms; output_proj_ms; rmsnorm_ffn_ms; gate_up_proj_ms; silu_mul_ms; down_proj_ms] in
  do! _ := if bool_decide (layer_idx = Z.to_nat (rstart (nc_layer_range nc))) then on_cache (kv_set_seq_len h (start_pos + n)) else sret () in
  sret (if profiling then
          [{| lp_layer_idx := layer_idx; lp_total_ms := total_ms; rmsnorm_attn_ms := rmsnorm_attn_ms; qkv_proj_ms := qkv_proj_ms;
              rope_ms := rope_ms; attention_ms := attention_ms; output_proj_ms := output_proj_ms; rmsnorm_ffn_ms := rmsnorm_ffn_ms;
              gate_up_proj_ms := gate_up_proj_ms; silu_mul_ms := silu_mul_ms; down_proj_ms := down_proj_ms |}]
        else []).

Definition finish_profile (profiling : bool) (seq_len : nat) (lps : list LayerProfile) : option ForwardProfile :=
  if profiling then
    Some {| fp_total_ms := f32_sum (lp_total_ms <$> lps); prefill := bool_decide (1 < seq_len); fp_seq_len := seq_len; layer_profiles := lps |}
  else None.

(** The output and what is written to [profile], if there is one. *)
Definition forward_node (e : Engine) (input : NodeInput) (nc : NodeConfig) (h : Z) (profiling : bool)
    : st (KvCacheManager * D) (NodeOutput * option ForwardProfile) :=
  do! r := dev (resolve_input (weights e) nc input) in
  do! _ := slift (check_positions (ws_config (weights e)) (r_positions r)) in
  do! sc := dev (alloc_scratch (ws_config (weights e)) (r_seq_len r)) in
  do! start_pos := of_cache (kv_seq_len h) in
  do! lps := smapM (contiguous_layer e nc h r sc profiling start_pos) (range_layers (nc_layer_range nc)) in
  let profile := finish_profile profiling (r_seq_len r) (mjoin lps) in
  do! out := dev (output_phase from_f16 (weights e) nc r sc) in
  sret (out, profile).

Definition forward (e : Engine) (token_ids positions : list Z) (h : Z) (profiling : bool)
    : st (KvCacheManager * D) (list f32 * option ForwardProfile) :=
  do! nc := slift (NodeConfig_new (e_layer_range e) (num_layers (ws_config (weights e)))) in
  do! op := forward_node e (TokenIds token_ids positions) nc h profiling in
  match op.1 with
  | Logits logits => sret (logits, op.2)
  | OutActivations _ => serr (Pipeline "full forward expected Logits but got Activations")
  end.
End contiguous.

(** ** Timed phases *)

(** [P] depends on the allocated tensors and their rows only. *)
Definition stable {D : Type} `{BackendOps D} (P : D → Prop) : Prop :=
  ∀ d d', b_live d' = b_live d → same_rows (b_live d) d d' → P d → P d'.

(** Timing a phase does not change what it does. *)
Lemma timed_runs {D : Type} `{KernelLaws D} `{!TimerOps D} `{!TimerLaws D} (P Q : D → Prop) (m : st D unit) profiling d :
  stable P → stable Q → (∀ d, P d → runs b_failed m d (λ d' _, Q d')) → P d →
  runs b_failed (timed_op profiling m) d (λ d' _, Q d').
Proof.
  intros HP HQ Hm Hd. unfold timed_op. destruct profiling.
  2:{ apply runs_bind. eapply runs_mono; [| by apply Hm]. intros d1 [] Ha. by apply runs_ret. }
  apply runs_bind. eapply runs_idle; [apply b_create_timer_idle |]. intros d1 t Hl1 Hs1.
  apply runs_bind. eapply runs_idle; [apply b_start_timer_idle |]. intros d2 [] Hl2 Hs2.
  apply runs_bind. eapply runs_mono; [| apply Hm; eapply HP; [exact Hl2 | exact Hs2 | by eapply HP]]. intros d3 [] Hd3.
  apply runs_bind. eapply runs_idle; [apply b_stop_timer_idle |]. intros d4 el Hl4 Hs4.
  apply runs_bind. eapply runs_idle; [apply b_destroy_timer_idle |]. intros d5 [] Hl5 Hs5. apply runs_ret.
  eapply HQ; [exact Hl5 | exact Hs5 | by eapply HQ].
Qed.

(** ** The rows of a sequence *)

Section rows.
Context {D : Type} `{KernelLaws D} `{!BackendLaws D} `{!TimerOps D} `{!TimerLaws D}.
Implicit Types d : D.
Implicit Types s : SequenceCache.

(** The keys and values of layer [l] are the entries [ess !! l] first. *)
Definition cstores d s (ess : list (list (Row * Row))) : Prop :=
  ∀ l es, ess !! l = Some es → ∃ lc, sc_layers s !! l = Some lc ∧
    take (length es) (t_rows d (lc_k lc)) = es.*1 ∧ take (length es) (t_rows d (lc_v lc)) = es.*2.

(** Tensors that are not the sequence's. *)
Definition seq_outside s (id : Z) : Prop := id ∉ (tensor_id <$> cache_tensors s).

Lemma layer_in_cache s l lc t : sc_layers s !! l = Some lc → t ∈ layer_pair lc → t ∈ cache_tensors s.
Proof.
  intros Hl Ht. unfold cache_tensors. apply list_elem_of_join. exists (layer_pair lc). split; [done |].
  apply list_elem_of_fmap. exists lc. split; [done | by eapply list_elem_of_lookup_2].
Qed.

Variables (cfg : ModelConfig) (n : nat) (s : SequenceCache) (d0 : D) (r : Resolved) (sc : Scratch).
Notation hid := (hidden_state r).
Notation O := (seq_outside s).
Notation sh := [Z.of_nat (sc_max_len s); num_kv_heads cfg; head_dim cfg].
Hypothesis Hbufs : bufs_ok cfg n hid sc O d0.
Hypothesis Hnd : NoDup (tensor_id <$> cache_tensors s).

(** The scratch tensors hold [e], the sequence's tensors are there and hold [ess]. *)
Record cinv (e : Buf → list Row) (ess : list (list (Row * Row))) d : Prop := {
  cn_mem : mem n hid sc O d0 ∅ e d;
  cn_valid : Forall (has_shape sh FP16 d) (cache_tensors s);
  cn_rows : cstores d s ess
}.

(** It depends on the scratch tensors and the sequence's only. *)
Lemma cinv_frame e e' ess d d' :
  cinv e ess d → mem n hid sc O d0 ∅ e' d' → b_live d' = b_live d →
  (∀ t, t ∈ cache_tensors s → t_rows d' t = t_rows d t) → cinv e' ess d'.
Proof.
  intros [_ Hv Hr] Hm Hl Hf. split; [done | |].
  - apply Forall_forall. intros t Ht. rewrite Forall_forall in Hv. destruct (Hv t Ht) as ([Hlive Hn] & Hs & Hd).
    split; [split; [unfold t_live; by rewrite Hl | by rewrite Hf] | done].
  - intros l es Hes. destruct (Hr l es Hes) as (lc & Hlc & Hk & Hv'). exists lc.
    rewrite !Hf; [done | |]; eapply layer_in_cache; try done; unfold layer_pair; set_solver.
Qed.

Lemma cache_live e ess d t : cinv e ess d → t ∈ cache_tensors s → tensor_id t ∈ b_live d.
Proof. intros Hc Ht. pose proof (cn_valid _ _ _ Hc) as Hv. rewrite Forall_forall in Hv. by destruct (Hv t Ht) as ([? _] & _). Qed.

Lemma cinv_stable e ess : stable (cinv e ess).
Proof.
  intros d d' Hl Hs Hc. eapply cinv_frame; [exact Hc | by eapply mem_same; [| apply Hc | |] | done |].
  intros t Ht. apply Hs. by eapply cache_live.
Qed.

Lemma cinv_step e e' ess m d : step n hid sc O d0 ∅ e m e' → cinv e ess d → runs b_failed m d (λ d' _, cinv e' ess d').
Proof.
  intros Hstep Hc. eapply runs_mono; [| apply Hstep, Hc]. intros d' [] [Hm' [Hl Hf]].
  eapply cinv_frame; [exact Hc | done | done |]. intros t Ht. apply Hf; [by eapply cache_live |].
  intros b Heq. apply (bo_outside _ _ _ _ _ _ Hbufs b). rewrite <- Heq. apply list_elem_of_fmap. eauto.
Qed.

Lemma timed_cinv e e' ess m profiling d :
  step n hid sc O d0 ∅ e m e' → cinv e ess d → runs b_failed (timed_op profiling m) d (λ d' _, cinv e' ess d').
Proof. intros Hstep. apply timed_runs; [apply cinv_stable | apply cinv_stable |]. intros d1. by apply cinv_step. Qed.

Definition kv_att : nat → list (Row * Row) → Row → Row := λ _ es q, k_attention (D := D) (num_kv_heads cfg) es.*1 es.*2 q.

Lemma take_list_inserts {A : Type} (a : nat) (l k : list A) : a + length l ≤ length k → take (a + length l) (list_inserts a l k) = take a k ++ l.
Proof.
  intros Hl. apply list_eq. intros i. destruct (decide (i < a + length l)) as [Hi|Hi].
  - rewrite lookup_take_lt by done. destruct (decide (i < a)) as [Ha|Ha].
    + rewrite list_lookup_inserts_lt, lookup_app_l, lookup_take_lt by (rewrite ?length_take; lia). done.
    + rewrite list_lookup_inserts, lookup_app_r by (rewrite ?length_take; lia). f_equal. rewrite length_take. lia.
  - rewrite !lookup_ge_None_2; [done | rewrite length_app, length_take; lia | rewrite length_take; lia].
Qed.

(** Copying a scratch tensor's rows behind the [a] rows of a cache tensor. *)
Lemma append_rows_runs e ess d b t a (Q : D → unit → Prop) :
  cinv e ess d → t ∈ cache_tensors s → a + n ≤ sc_max_len s →
  (∀ d', mem n hid sc O d0 ∅ e d' → Forall (has_shape sh FP16 d') (cache_tensors s) → b_live d' = b_live d →
     take (a + n) (t_rows d' t) = take a (t_rows d t) ++ e b →
     (∀ u, u ∈ cache_tensors s → tensor_id u ≠ tensor_id t → t_rows d' u = t_rows d u) → Q d' ()) →
  runs b_failed (b_copy_rows (view (buf hid sc b) [Z.of_nat n; num_kv_heads cfg; head_dim cfg]) t 0 a n) d Q.
Proof.
  intros [Hm Hv Hr] Ht Ha HQ. rewrite Forall_forall in Hv. destruct (Hv t Ht) as ([Htl Htn] & Hts & Htd).
  assert (nrows t = sc_max_len s) as Htr by (unfold nrows; rewrite Hts; simpl; lia).
  assert (length (e b) = n) as Hen by apply (m_len _ _ _ _ _ _ _ _ Hm).
  apply runs_copy_rows.
  - by apply (mem_valid cfg n hid sc O d0 Hbufs ∅ e d b).
  - done.
  - intros Heq. apply (bo_outside _ _ _ _ _ _ Hbufs b). simpl in Heq. rewrite Heq. apply list_elem_of_fmap. eauto.
  - split; [by rewrite Hts | by rewrite Htd].
  - unfold nrows. simpl. lia.
  - lia.
  - intros d' Hl Hw Hs. change (t_rows d (view ?x _)) with (t_rows d x) in Hw.
    rewrite (m_rows _ _ _ _ _ _ _ _ Hm b), drop_0, take_ge in Hw by lia.
    assert (∀ id, id ∈ b_live d → id ≠ tensor_id t → b_rows d' id = b_rows d id) as Hf by (intros id Hid Hne; apply Hs; set_solver).
    apply HQ; [| | done | |].
    + eapply mem_outside; [exact Hbufs | exact Hm | done |]. intros id Hid HO. apply Hf; [done |]. intros ->. apply HO.
      apply list_elem_of_fmap. eauto.
    + apply Forall_forall. intros u Hu. destruct (Hv u Hu) as ([Hul Hun] & Hus & Hud). split; [| done].
      split; [unfold t_live; by rewrite Hl |]. destruct (decide (tensor_id u = tensor_id t)) as [Heq|Hne].
      * unfold t_rows in *. rewrite Heq, Hw, length_inserts, <- Heq. done.
      * rewrite <- Hun. unfold t_rows. by rewrite Hf.
    + rewrite Hw, <- Hen. apply take_list_inserts. lia.
    + intros u Hu Hne. apply Hf; [by destruct (Hv u Hu) as ([? _] & _) | done].
Qed.

(** The tensors of different layers, and keys and values, are different. *)
Lemma layer_tensors_inj l l' lc lc' j j' t t' :
  sc_layers s !! l = Some lc → sc_layers s !! l' = Some lc' → layer_pair lc !! j = Some t → layer_pair lc' !! j' = Some t' →
  tensor_id t = tensor_id t' → l = l' ∧ j = j'.
Proof.
  intros Hl Hl' Hj Hj' Heq. unfold cache_tensors in Hnd. rewrite <- concat_mjoin in Hnd.
  eapply (concat_lookup_inj tensor_id (layer_pair <$> sc_layers s) l l' j j' (layer_pair lc) (layer_pair lc')); try done;
    rewrite list_lookup_fmap; [by rewrite Hl | by rewrite Hl'].
Qed.

Lemma ph_attention_runs e ess d k lc es :
  cinv e ess d → sc_layers s !! k = Some lc → ess !! k = Some es → length es + n ≤ sc_max_len s →
  runs b_failed (ph_attention cfg sc n (length es) (lc_k lc) (lc_v lc)) d (λ d' _,
    cinv (upd BAttn (imap (λ i q, kv_att k (window (length es) i (es ++ zip (e BK) (e BV))) q) (e BQ)) e)
      (<[k := es ++ zip (e BK) (e BV)]> ess) d').
Proof.
  intros Hc Hlc Hes Hmax. unfold ph_attention. set (es' := es ++ zip (e BK) (e BV)).
  pose proof (cn_mem _ _ _ Hc) as Hm. assert (∀ b, length (e b) = n) as Hlen by apply (m_len _ _ _ _ _ _ _ _ Hm).
  assert (lc_k lc ∈ cache_tensors s ∧ lc_v lc ∈ cache_tensors s) as [Hki Hvi].
  { split; eapply layer_in_cache; try done; unfold layer_pair; set_solver. }
  destruct (cn_rows _ _ _ Hc k es Hes) as (lc' & Hlc' & Hk0 & Hv0). rewrite Hlc in Hlc'. injection Hlc' as <-.
  apply runs_bind, (append_rows_runs e ess d BK (lc_k lc) (length es)); [done | done | done |].
  intros d1 Hm1 Hv1 Hl1 Hk1 Hf1. rewrite Hk0 in Hk1.
  assert (tensor_id (lc_v lc) ≠ tensor_id (lc_k lc)) as Hkv.
  { intros Heq. by destruct (layer_tensors_inj k k lc lc 1 0 (lc_v lc) (lc_k lc)) as [_ ?]. }
  assert (cinv e (take 0 ess) d1) as Hc1 by (split; [done | done | intros l es1; by rewrite take_0]).
  apply runs_bind, (append_rows_runs e (take 0 ess) d1 BV (lc_v lc) (length es)); [done | done | done |].
  intros d2 Hm2 Hv2 Hl2 Hw2 Hf2. rewrite (Hf1 (lc_v lc) Hvi Hkv), Hv0 in Hw2.
  assert (take (length es + n) (t_rows d2 (lc_k lc)) = es.*1 ++ e BK) as Hk2 by (by rewrite Hf2).
  assert (length es' = length es + n) as Hel by (unfold es'; rewrite length_app, length_zip_with, !Hlen; lia).
  assert (es'.*1 = es.*1 ++ e BK ∧ es'.*2 = es.*2 ++ e BV) as [E1 E2].
  { unfold es'. rewrite !fmap_app, fst_zip, snd_zip by (rewrite !Hlen; lia). done. }
  assert (cinv e (<[k := es']> ess) d2) as Hc2.
  { split; [done | done |]. intros l es1 [(<- & <- & _)|[Hne Hl]]%list_lookup_insert_Some.
    - exists lc. rewrite Hel, E1, E2. done.
    - destruct (cn_rows _ _ _ Hc l es1 Hl) as (lc1 & Hlc1 & Hk1' & Hv1'). exists lc1. split; [done |].
      assert (∀ j t, layer_pair lc1 !! j = Some t → t_rows d2 t = t_rows d t) as Hsame.
      { intros j t Hj. assert (t ∈ cache_tensors s) as Ht by (eapply layer_in_cache; [exact Hlc1 | by eapply list_elem_of_lookup_2]).
        rewrite Hf2, Hf1; [done | done | | done |]; intros Heq.
        - by destruct (layer_tensors_inj l k lc1 lc j 0 t (lc_k lc)).
        - by destruct (layer_tensors_inj l k lc1 lc j 1 t (lc_v lc)). }
      by rewrite (Hsame 0), (Hsame 1). }
  assert (∀ i, i < n → window (length es) i (t_rows d2 (lc_k lc)) = (window (length es) i es').*1 ∧
                      window (length es) i (t_rows d2 (lc_v lc)) = (window (length es) i es').*2) as Hwin.
  { intros i Hi. unfold window. rewrite !fmap_take, E1, E2, <- Hk2, <- Hw2, !take_take. split; f_equal; lia. }
  assert (has_shape sh FP16 d2 (lc_k lc) ∧ has_shape sh FP16 d2 (lc_v lc)) as [(Hkl & Hks & _) (Hvl & Hvs & _)].
  { rewrite Forall_forall in Hv2. auto. }
  assert (∀ t, t ∈ cache_tensors s → ∀ b, tensor_id (buf hid sc b) ≠ tensor_id t) as Hout.
  { intros t Ht b Heq. apply (bo_outside _ _ _ _ _ _ Hbufs b). rewrite Heq. apply list_elem_of_fmap. eauto. }
  set (rows := imap (λ i q, kv_att k (window (length es) i es') q) (e BQ)).
  assert (rows = imap (λ i q, k_attention (num_kv_heads cfg) (window (length es) i (t_rows d2 (lc_k lc)))
                          (window (length es) i (t_rows d2 (lc_v lc))) q) (t_rows d2 (q_mh cfg sc n))) as Hrows.
  { change (t_rows d2 (q_mh cfg sc n)) with (t_rows d2 (buf hid sc BQ)). rewrite (m_rows _ _ _ _ _ _ _ _ Hm2 BQ).
    unfold rows. apply list_eq. intros i. rewrite !list_lookup_imap. destruct (e BQ !! i) eqn:Ei; [| done]. simpl.
    apply lookup_lt_Some in Ei. rewrite Hlen in Ei. destruct (Hwin i Ei) as [-> ->]. done. }
  eapply runs_mono; [| apply (runs_mem cfg n hid sc O d0 Hbufs ∅ e d2 BAttn (attn_out cfg sc n) rows)]; [| done | done | |].
  - intros d3 [] [Hm3 [Hl3 Hf3]]. eapply cinv_frame; [exact Hc2 | done | done |].
    intros t Ht. apply Hf3; [by eapply cache_live |]. intros b Heq. by apply (Hout t Ht b).
  - unfold rows. by rewrite length_imap.
  - rewrite Hrows. apply k_attention_spec with (n := Z.of_nat n) (nq := num_q_heads cfg) (hd := head_dim cfg); try done.
    + by apply (mem_valid cfg n hid sc O d0 Hbufs ∅ e d2 BQ).
    + by apply (mem_valid cfg n hid sc O d0 Hbufs ∅ e d2 BAttn).
    + intros Hin. apply elem_of_cons in Hin as [Heq|Hin]; [by apply (bo_inj _ _ _ _ _ _ Hbufs BAttn BQ) in Heq |].
      apply elem_of_cons in Hin as [Heq|Heq%list_elem_of_singleton]; [by apply (Hout _ Hki BAttn) | by apply (Hout _ Hvi BAttn)].
    + by rewrite Hks.
    + by rewrite Hvs.
    + change (t_rows d2 (q_mh cfg sc n)) with (t_rows d2 (buf hid sc BQ)). rewrite (m_rows _ _ _ _ _ _ _ _ Hm2 BQ), Hlen.
      destruct Hkl as [_ ->]. unfold nrows. rewrite Hks. simpl. lia.
    + change (t_rows d2 (q_mh cfg sc n)) with (t_rows d2 (buf hid sc BQ)). rewrite (m_rows _ _ _ _ _ _ _ _ Hm2 BQ), Hlen.
      destruct Hvl as [_ ->]. unfold nrows. rewrite Hvs. simpl. lia.
Qed.
(** *** A layer *)

Notation RL := (ref_layer (D := D) cfg (λ _, pair) kv_att).
Notation RN := (ref_new (D := D) cfg (λ _, pair)).

Lemma kv_new_zip W l ps hs :
  RN W l ps hs = zip (zip_with (ref_k (D := D) cfg W) ps hs) (ref_v (D := D) cfg W <$> hs).
Proof. unfold ref_new. revert hs. induction ps as [|p ps IH]; intros [|h hs]; [done.. |]. csimpl. f_equal. apply IH. Qed.

(** The sequence [h] of [c] has the tensors of [s], and length [len]. *)
Definition kv_holds (c : KvCacheManager) (h : Z) (len : nat) : Prop :=
  caches c !! h = Some {| sc_layers := sc_layers s; sc_current_len := len; sc_max_len := sc_max_len s |}.
Definition with_len (c : KvCacheManager) (h : Z) (len : nat) : KvCacheManager :=
  set_caches (<[h := {| sc_layers := sc_layers s; sc_current_len := len; sc_max_len := sc_max_len s |}]> (caches c)) c.

(** A timed or untimed phase, and what comes after it. *)
Lemma timed_then {A : Type} e e' ess m profiling c d (f : f32 → st (KvCacheManager * D) A) Q :
  step n hid sc O d0 ∅ e m e' → cinv e ess d → (∀ d' t, cinv e' ess d' → runs dev_failed (f t) (c, d') Q) →
  runs dev_failed (sbind (dev (timed_op profiling m)) f) (c, d) Q.
Proof. intros Hs Hc Hf. apply runs_bind, runs_dev. eapply runs_mono; [| by apply (timed_cinv e e' ess)]. auto. Qed.
Lemma step_then {A : Type} e e' ess m c d (f : unit → st (KvCacheManager * D) A) Q :
  step n hid sc O d0 ∅ e m e' → cinv e ess d → (∀ d', cinv e' ess d' → runs dev_failed (f ()) (c, d') Q) →
  runs dev_failed (sbind (dev m) f) (c, d) Q.
Proof. intros Hs Hc Hf. apply runs_bind, runs_dev. eapply runs_mono; [| by apply (cinv_step e e' ess)]. intros ? []. auto. Qed.

Lemma contiguous_layer_runs E nc h w k e c d len ess es layer_idx weight_idx hs profiling :
  nsub layer_idx (Z.to_nat (rstart (e_layer_range E))) = Ok weight_idx → ws_config (weights E) = cfg →
  nsub layer_idx (Z.to_nat (rstart (nc_layer_range nc))) = Ok k → layers (weights E) !! weight_idx = Some w →
  r_seq_len r = n → length (r_positions r) = n →
  (∀ f, constant hid sc O d0 (field w f) ∧ shape (field w f) = field_shape cfg f) →
  kv_holds c h len → cinv e ess d → e BHidden = hs → ess !! k = Some es → k < length (sc_layers s) →
  length es + n ≤ sc_max_len s →
  runs dev_failed (contiguous_layer E nc h r sc profiling (length es) layer_idx) (c, d) (λ cd lps, ∃ e',
    cd.1 = (if bool_decide (k = 0) then with_len c h (length es + n) else c) ∧
    cinv e' (<[k := es ++ RN (W0 d0 w) k (r_positions r) hs]> ess) cd.2 ∧
    e' BHidden = RL (W0 d0 w) k es (r_positions r) hs ∧
    lp_layer_idx <$> lps = if profiling then [layer_idx] else []).
Proof.
  intros Hwi Hcfg Hki Hwk Hn Hps Hw Hh Hc Hhs Hes Hk Hmax. unfold contiguous_layer. rewrite Hcfg, Hn.
  set (ps := r_positions r) in *. do 3 (apply runs_bind; eapply runs_lift; [(eassumption || by apply index_Ok) |]).
  destruct (lookup_lt_is_Some_2 _ _ Hk) as [lc Hlc].
  eapply timed_then; [apply (attn_norm_step cfg n hid sc O d0 Hbufs w Hw) | exact Hc |]. intros d1 t1 Hc1.
  eapply timed_then; [apply (qkv_step cfg n hid sc O d0 Hbufs w Hw) | exact Hc1 |]. intros d2 t2 Hc2.
  eapply timed_then; [by apply (rope_step cfg n hid sc O d0 Hbufs w Hw) | exact Hc2 |]. intros d3 t3 Hc3.
  match type of Hc3 with cinv ?x _ _ => change x with (pre_env cfg d0 w ps e) in Hc3 end. clear d d1 d2 Hc Hc1 Hc2.
  destruct (pre_env_spec cfg d0 w ps e) as (Eq & Ek & Ev & Eh). rewrite Hhs in *. set (e1 := pre_env cfg d0 w ps e) in *.
  assert (cache_layer h k c = Ok lc) as Hcl.
  { unfold cache_layer, get_cache. rewrite Hh. simpl. by rewrite Hlc. }
  do 2 (apply runs_bind; unfold of_cache, runs at 1, k_cache, v_cache; rewrite Hcl; cbn [rmap]).
  apply runs_bind, runs_dev. eapply runs_mono.
  2:{ eapply (timed_runs (cinv e1 ess)); [apply cinv_stable | apply cinv_stable | | exact Hc3].
      intros d Hc. by apply (ph_attention_runs e1 ess d k lc es). }
  intros d4 t4 Hc4. rewrite Eq, Ek, Ev, <- (kv_new_zip _ k) in Hc4.
  set (es' := es ++ RN (W0 d0 w) k ps hs) in *. set (ess' := <[k := es']> ess) in *.
  eapply timed_then; [apply (output_proj_step cfg n hid sc O d0 Hbufs w Hw) | exact Hc4 |]. intros d5 t5 Hc5.
  eapply step_then; [by apply (add_step cfg n hid sc O d0 Hbufs BProj) | exact Hc5 |]. intros d6 Hc6.
  eapply timed_then; [apply (ffn_norm_step cfg n hid sc O d0 Hbufs w Hw) | exact Hc6 |]. intros d7 t7 Hc7.
  eapply timed_then; [eapply step_bind; [by apply (matmul_step cfg n hid sc O d0 Hbufs w Hw BNormed BGate FGate) |
    by apply (matmul_step cfg n hid sc O d0 Hbufs w Hw BNormed BUp FUp)] | exact Hc7 |]. intros d8 t8 Hc8.
  eapply timed_then; [apply (silu_step cfg n hid sc O d0 Hbufs) | exact Hc8 |]. intros d9 t9 Hc9.
  eapply timed_then; [by apply (matmul_step cfg n hid sc O d0 Hbufs w Hw BMid BOut FDown) | exact Hc9 |]. intros d10 t10 Hc10.
  eapply step_then; [by apply (add_step cfg n hid sc O d0 Hbufs BOut) | exact Hc10 |]. intros d11 Hc11.
  match type of Hc11 with cinv ?x _ _ => change x with (post_env cfg d0 w
    (upd BAttn (imap (λ i q, kv_att k (window (length es) i es') q) (zip_with (ref_q (D := D) cfg (W0 d0 w)) ps hs)) e1)) in Hc11 end.
  clear d3 d4 d5 d6 d7 d8 d9 d10 Hc3 Hc4 Hc5 Hc6 Hc7 Hc8 Hc9 Hc10.
  assert (bool_decide (layer_idx = Z.to_nat (rstart (nc_layer_range nc))) = bool_decide (k = 0)) as ->.
  { apply bool_decide_ext. unfold nsub in Hki. case_bool_decide; [| done]. injection Hki as <-. lia. }
  apply runs_bind. eapply (runs_mono _ _ _ (λ cd _, cd = (if bool_decide (k = 0) then with_len c h (length es + n) else c, d11))).
  - intros cd [] ->. apply runs_ret. eexists. split_and!; [done | exact Hc11 | | by destruct profiling].
    rewrite post_env_hidden. unfold upd. cbn [decide]. simpl. by rewrite Eh.
  - case_bool_decide; [| done]. unfold on_cache, runs, kv_set_seq_len, get_cache. rewrite Hh. cbn [sc_max_len].
    rewrite bool_decide_false by lia. done.
Qed.

Lemma with_len_twice c h a b : with_len (with_len c h a) h b = with_len c h b.
Proof. unfold with_len. destruct c. simpl. unfold set_caches. simpl. f_equal. apply insert_insert_eq. Qed.
Lemma with_len_same c h len : kv_holds c h len → with_len c h len = c.
Proof. intros Hh. unfold with_len. rewrite insert_id by done. by destruct c. Qed.
Lemma with_len_holds c h len : kv_holds (with_len c h len) h len.
Proof. unfold kv_holds, with_len. simpl. by rewrite lookup_insert_eq. Qed.

(** The layers from [k] on. *)
Lemma contiguous_layers_runs E nc h start profiling ls off :
  ws_config (weights E) = cfg → r_seq_len r = n → length (r_positions r) = n →
  Z.to_nat (rstart (e_layer_range E)) + off = Z.to_nat (rstart (nc_layer_range nc)) → start + n ≤ sc_max_len s →
  ∀ k c d e done rest hs,
  (∀ i w, ls !! i = Some w → layers (weights E) !! (off + k + i) = Some w) →
  (∀ w f, w ∈ ls → constant hid sc O d0 (field w f) ∧ shape (field w f) = field_shape cfg f) →
  kv_holds c h (if bool_decide (k = 0) then start else start + n) → cinv e (done ++ rest) d → e BHidden = hs →
  length done = k → length rest = length ls → k + length ls ≤ length (sc_layers s) → Forall (λ es, length es = start) rest →
  let out := ref_layers (D := D) cfg (λ _, pair) kv_att (W0 d0 <$> ls) k rest (r_positions r) hs in
  let idx := seq (Z.to_nat (rstart (nc_layer_range nc)) + k) (length ls) in
  runs dev_failed (smapM (contiguous_layer E nc h r sc profiling start) idx) (c, d) (λ cd lps, ∃ e',
    cd.1 = (if bool_decide (ls = []) then c else with_len c h (start + n)) ∧ cinv e' (done ++ out.2) cd.2 ∧ e' BHidden = out.1 ∧
    lp_layer_idx <$> mjoin lps = if profiling then idx else []).
Proof.
  intros Hcfg Hn Hps Hoff Hmax. induction ls as [|w ls IH]; intros k c d e done rest hs Hwi Hw Hh Hc He Hdone Hlen Hnl Hstart.
  { destruct rest; [| done]. apply runs_ret. exists e. split_and!; [done | done | done | by destruct profiling]. }
  destruct rest as [|es rest]; [done |]. apply Forall_cons in Hstart as [Hes Hstart]. cbn [length seq smapM].
  assert ((done ++ es :: rest) !! k = Some es) as Hlk by (rewrite lookup_app_r, Hdone, Nat.sub_diag by lia; done).
  pose proof (contiguous_layer_runs E nc h w k e c d (if bool_decide (k = 0) then start else start + n) (done ++ es :: rest) es
      (Z.to_nat (rstart (nc_layer_range nc)) + k) (off + k) hs profiling) as Hlayer. rewrite Hes in Hlayer.
  apply runs_bind. eapply runs_mono; [| apply Hlayer]; try done; clear Hlayer.
  - intros [c1 d1] lp (e1 & Hc1 & Hi1 & He1 & Hlp). cbn [fst snd] in *.
    rewrite insert_app_r_alt in Hi1 by lia. rewrite Hdone, Nat.sub_diag in Hi1. cbn [insert list_insert] in Hi1.
    replace (S (Z.to_nat (rstart (nc_layer_range nc)) + k)) with (Z.to_nat (rstart (nc_layer_range nc)) + S k) by lia.
    set (es1 := es ++ RN (W0 d0 w) k (r_positions r) hs) in *.
    assert (c1 = with_len c h (start + n)) as ->.
    { rewrite Hc1. case_bool_decide; [done |]. symmetry. by apply with_len_same. }
    apply runs_bind. eapply runs_mono; [| apply (IH (S k) (with_len c h (start + n)) d1 e1 (done ++ [es1]) rest
      (RL (W0 d0 w) k es (r_positions r) hs))]; try done.
    + intros [c2 d2] lps (e2 & Hc2 & Hi2 & He2 & Hlps). cbn [fst snd] in *. apply runs_ret. exists e2. rewrite fmap_cons. cbn [ref_layers].
      destruct (ref_layers cfg (λ _, pair) kv_att (W0 d0 <$> ls) (S k) rest (r_positions r) _) as [hs' ess'] eqn:Er.
      cbn [fst snd] in *. rewrite <- app_assoc in Hi2. split_and!; try done.
      * rewrite Hc2. cbn [bool_decide]. destruct (bool_decide (ls = [])); [done | by rewrite with_len_twice].
      * change (mjoin (lp :: lps)) with (lp ++ mjoin lps). rewrite fmap_app, Hlp, Hlps. by destruct profiling.
    + intros i w' Hi. replace (off + S k + i) with (off + k + S i) by lia. by apply Hwi.
    + intros w' f Hw'. apply Hw. by right.
    + apply with_len_holds.
    + by rewrite <- app_assoc.
    + rewrite length_app. simpl. lia.
    + simpl in Hlen. lia.
    + simpl in Hnl. lia.
  - rewrite nsub_Ok by lia. f_equal. lia.
  - rewrite nsub_Ok by lia. f_equal. lia.
  - replace (off + k) with (off + k + 0) by lia. by apply Hwi.
  - intros f. apply Hw. left.
  - simpl in Hnl. lia.
Qed.
End rows.

(** ** Forward passes compute the reference *)

Section contiguous_spec.
Context {D : Type} `{KernelLaws D} `{!BackendLaws D} `{!TimerOps D} `{!TimerLaws D}.
Implicit Types d : D.
Variable from_f16 : Z → f32.

(** The reference when the cache keeps keys and values as they are. *)
Definition ref_contiguous d (E : Engine) (nc : NodeConfig) (ess : list (list (Row * Row))) (ps : list Z) (hs : list Row)
    : list Row * list (list (Row * Row)) :=
  ref_layers (D := D) (ws_config (weights E)) (λ _, pair) (kv_att (D := D) (ws_config (weights E)))
    (W0 d <$> node_layers E nc) 0 ess ps hs.

Definition profile_ok (nc : NodeConfig) (profiling : bool) (n : nat) (p : option ForwardProfile) : Prop :=
  match p with
  | None => profiling = false
  | Some p =>
      profiling = true ∧ lp_layer_idx <$> layer_profiles p = range_layers (nc_layer_range nc) ∧ fp_seq_len p = n ∧
      prefill p = bool_decide (1 < n) ∧ fp_total_ms p = f32_sum (lp_total_ms <$> layer_profiles p)
  end.

Definition contiguous_ok (c : KvCacheManager) d (E : Engine) (nc : NodeConfig) (input : NodeInput) (h : Z) (s : SequenceCache)
    (ess : list (list (Row * Row))) (ps : list Z) (hs : list Row) (profiling : bool) (cd : KvCacheManager * D)
    (out : NodeOutput * option ForwardProfile) : Prop :=
  let '(hs', ess') := ref_contiguous d E nc ess ps hs in
  cd.1 = with_len s c h (sc_current_len s + length ps) ∧ Forall (has_shape (layer_shape c) FP16 cd.2) (cache_tensors s) ∧
  cstores cd.2 s ess' ∧ rest_kept (seq_outside s) d cd.2 input ∧ output_ok from_f16 d cd.2 E nc input ps hs' out.1 ∧
  profile_ok nc profiling (length ps) out.2.

Lemma NoDup_mjoin_part {A : Type} (f : A → Z) (lss : list (list A)) ls : ls ∈ lss → NoDup (f <$> mjoin lss) → NoDup (f <$> ls).
Proof.
  intros Hin. apply elem_of_Permutation in Hin as [rest Hp]. rewrite Hp. change (mjoin (ls :: rest)) with (ls ++ mjoin rest).
  rewrite fmap_app. by intros (? & _ & _)%NoDup_app.
Qed.

(** The sequence [h] is [s]: its layers' tensors are there, of the manager's
    shape, and pairwise different. *)
Record seq_ok d (c : KvCacheManager) (h : Z) (s : SequenceCache) : Prop := {
  so_seq : caches c !! h = Some s;
  so_layers : length (sc_layers s) = kv_num_layers c;
  so_max : sc_max_len s = kv_max_seq_len c;
  so_ids : NoDup (tensor_id <$> cache_tensors s);
  so_shape : Forall (has_shape (layer_shape c) FP16 d) (cache_tensors s)
}.

(** Every sequence of a sound cache is. *)
Lemma kv_ok_seq dd d c h s : kv_ok dd d c → caches c !! h = Some s → seq_ok d c h s.
Proof.
  intros [_ _ Hseq [_ Hnd _ _]] Hs. destruct (Hseq h s Hs) as (? & _ & ? & ?). split; try done.
  eapply NoDup_mjoin_part; [| exact Hnd]. apply list_elem_of_fmap. exists s. split; [done |].
  apply list_elem_of_fmap. exists (h, s). split; [done |]. by apply elem_of_map_to_list.
Qed.

Lemma seq_ok_live d c h s t : seq_ok d c h s → t ∈ cache_tensors s → t_live d t.
Proof. intros [_ _ _ _ Hf] Ht. rewrite Forall_forall in Hf. by destruct (Hf t Ht) as ([? _] & _). Qed.

Lemma seq_ok_fresh d c h s id : seq_ok d c h s → id ∉ b_live d → seq_outside s id.
Proof. intros Hs Hid (t & -> & Ht)%list_elem_of_fmap. apply Hid. by eapply seq_ok_live. Qed.

(** They are all that a sequence depends on. *)
Lemma seq_frame d d' s sh ess :
  (∀ t, t ∈ cache_tensors s → tensor_id t ∈ b_live d' ∧ t_rows d' t = t_rows d t) →
  Forall (has_shape sh FP16 d) (cache_tensors s) → cstores d s ess →
  Forall (has_shape sh FP16 d') (cache_tensors s) ∧ cstores d' s ess.
Proof.
  intros Hf Hsh Hst. split.
  - eapply has_shapes_persist; [| exact Hsh]. intros t Ht. by destruct (Hf t Ht).
  - intros l es Hes. destruct (Hst l es Hes) as (lc & Hlc & Hk & Hv). exists lc.
    assert (∀ t, t ∈ layer_pair lc → t_rows d' t = t_rows d t) as Hr.
    { intros t Ht. apply Hf. by eapply layer_in_cache. }
    rewrite !Hr; [done | |]; unfold layer_pair; set_solver.
Qed.

Lemma forward_node_Ok E nc input h c d s ess ps hs profiling :
  let cfg := ws_config (weights E) in
  seq_ok d c h s → kv_num_layers c = node_len nc → kv_num_kv_heads c = num_kv_heads cfg → kv_head_dim c = head_dim cfg →
  node_ok E nc → weights_ok (seq_outside s) d (weights E) →
  input_ok (seq_outside s) d (weights E) nc input ps hs →
  cstores d s ess → length ess = node_len nc → Forall (λ es, length es = sc_current_len s) ess →
  sc_current_len s + length ps ≤ kv_max_seq_len c →
  runs dev_failed (forward_node from_f16 E input nc h profiling) (c, d) (contiguous_ok c d E nc input h s ess ps hs profiling).
Proof.
  intros cfg Hok Hnl Hkv Hhd Hnc Hws Hin Hst Hess Hlens Hmax. set (O := seq_outside s) in *. set (n := length ps) in *.
  assert (∀ id, id ∉ b_live d → O id) as Hout by (intros id; by eapply seq_ok_fresh). destruct Hok as [Hs Hsl Hsm Hnd Hsh].
  set (len := sc_current_len s) in *.
  unfold forward_node. apply runs_bind, runs_dev.
  eapply runs_mono; [| by apply (resolve_input_runs O (weights E) nc input ps hs d)].
  intros d1 r Hres. pose proof Hres as [Rp Rn _ Rv _ _ _ _ _ _ _ _]. fold n in Rn.
  apply runs_bind. eapply runs_lift; [rewrite Rp; apply check_positions_Ok; by destruct Hin as (_ & ? & _) |].
  rewrite Rn. apply runs_bind, runs_dev. eapply runs_mono; [| by apply (setup_runs O (weights E) input ps hs d d1 r Hws Hout Hres)].
  intros d0 sc Hsu. pose proof Hsu as [Hbufs Hfresh Hdd0 _ Hm0 Hhid].
  apply runs_bind. unfold of_cache, runs at 1, kv_seq_len, get_cache. rewrite Hs. cbn [rmap]. fold len.
  destruct (length_node_layers E nc Hnc) as [Hll Hnpos].
  destruct (setup_layers O d d1 d0 (weights E) ps hs r sc (node_layers E nc) Hws Hsu (node_layers_in E nc)) as [Hwc Hw0].
  assert (Z.to_nat (rstart (e_layer_range E)) + node_offset E nc = Z.to_nat (rstart (nc_layer_range nc))) as Hoff.
  { unfold node_offset. destruct Hnc as (? & _). lia. }
  assert (∀ t, t ∈ cache_tensors s → tensor_id t ∈ b_live d ∧ t_rows d0 t = t_rows d t) as Hkept.
  { intros t Ht. rewrite Forall_forall in Hsh. destruct (Hsh t Ht) as ([Hl _] & _). split; [done |]. by apply Hdd0. }
  assert (layer_shape c = [Z.of_nat (sc_max_len s); num_kv_heads cfg; head_dim cfg]) as Hshape by (unfold layer_shape; congruence).
  assert (cinv cfg n s d0 r sc (λ b, t_rows d0 (buf (hidden_state r) sc b)) ess d0) as Hc0.
  { destruct (seq_frame d d0 s (layer_shape c) ess) as [? ?]; [| done | done | by split; [| rewrite <- Hshape |]].
    intros t Ht. destruct (Hkept t Ht) as [Hl ?]. split; [by apply Hdd0 | done]. }
  pose proof (contiguous_layers_runs cfg n s d0 r sc Hbufs Hnd E nc h len profiling (node_layers E nc) (node_offset E nc)
    eq_refl Rn) as Hloop.
  rewrite Rp in Hloop. specialize (Hloop eq_refl Hoff).
  unfold range_layers. fold (node_len nc). rewrite <- Hll, <- (Nat.add_0_r (Z.to_nat (rstart (nc_layer_range nc)))).
  apply runs_bind. eapply runs_mono; [| apply (Hloop ltac:(lia) 0 c d0 (λ b, t_rows d0 (buf (hidden_state r) sc b)) [] ess hs (node_layers_lookup E nc) Hwc)]; clear Hloop; try done.
  - intros [c2 d2] lps (e2 & Hc2 & Hi2 & He2 & Hlps). cbn [fst snd] in *. rewrite Hw0 in He2, Hi2.
    change (ref_layers cfg _ _ _ 0 ess ps hs) with (ref_contiguous d E nc ess ps hs) in He2, Hi2.
    unfold contiguous_ok.
    destruct (ref_contiguous d E nc ess ps hs) as [hs' ess'] eqn:Eref. cbn [fst snd app] in *.
    rewrite bool_decide_false in Hc2 by (intros Hnil; rewrite Hnil in Hll; simpl in Hll; lia).
    destruct (setup_head O d d1 d0 (weights E) ps hs r sc (lm_head (weights E)) Hsu ltac:(set_solver)) as [Hlc Hlr].
    destruct (setup_head O d d1 d0 (weights E) ps hs r sc (output_norm (weights E)) Hsu ltac:(set_solver)) as [Hoc Hor].
    pose proof (cn_mem _ _ _ _ _ _ _ _ _ Hi2) as Hm2.
    apply runs_bind, runs_dev. eapply runs_mono; [| eapply (output_phase_runs from_f16 (weights E) n r sc O d1 d0 Hbufs Rn)]; try done.
    + intros d' out (-> & Hlive' & Hsame'). apply runs_ret. cbn [fst snd].
      destruct (scratch_end O d (weights E) input ps hs r sc d1 d0 d2 d' e2 (is_tail nc) Hres Hsu Hm2 Hlive' Hsame')
        as (Hcache & Hrest & Hend).
      destruct (seq_frame d2 d' s (layer_shape c) ess') as [Hsh' Hst'].
      { intros t Ht. apply Hcache; [by eapply cache_live |]. intros Ho. apply Ho. apply list_elem_of_fmap. eauto. }
      { rewrite Hshape. apply Hi2. }
      { apply Hi2. }
      split_and!; try done.
      * rewrite Hlr, Hor. unfold output_ok, ref_head. destruct (is_tail nc); [done |]. by rewrite <- He2.
      * unfold finish_profile. destruct profiling; [| done]. simpl. split_and!; try done.
        rewrite Hlps. unfold range_layers. fold (node_len nc). by rewrite Hll, Nat.add_0_r.
    + subst n. destruct Hin as (Hne & _). destruct ps; [done | simpl; lia].
    + apply Rv.
    + apply (wo_norm _ _ _ Hws).
    + apply (wo_head _ _ _ Hws).
    + apply (wo_vocab _ _ _ Hws).
  - unfold kv_holds. rewrite Hs. by destruct s.
  - rewrite Hll. done.
  - rewrite Hll, Hsl, Hnl. done.
Qed.

(** C19: a forward pass over the contiguous cache ([forward_node]) computes the
    reference transformer on keys and values kept as they are, with the
    profiler's timers or without.  Under the conditions of the code (a sequence
    with room for the new tokens, weights and inputs of the right shapes) it does
    not panic and fails only if the device reports a failure; the output is the
    reference's, the new keys and values are behind the old ones in every layer,
    the sequence's length has grown by the tokens of the pass, every other tensor
    is as before, and no tensor but the returned one is left allocated.  With
    profiling on the profile has one entry per executed layer and the sum of their
    times. *)
Theorem forward_node_spec E nc input h c d s ess ps hs profiling :
  let cfg := ws_config (weights E) in
  seq_ok d c h s → kv_num_layers c = node_len nc → kv_num_kv_heads c = num_kv_heads cfg → kv_head_dim c = head_dim cfg →
  node_ok E nc → weights_ok (seq_outside s) d (weights E) → input_ok (seq_outside s) d (weights E) nc input ps hs →
  cstores d s ess → length ess = node_len nc → Forall (λ es, length es = sc_current_len s) ess →
  sc_current_len s + length ps ≤ kv_max_seq_len c →
  runs dev_failed (forward_node from_f16 E input nc h profiling) (c, d) (contiguous_ok c d E nc input h s ess ps hs profiling).
Proof. apply forward_node_Ok. Qed.

(** Two outputs with the same logits, or the same hidden states on their devices. *)
Definition same_output d1 (out1 : NodeOutput) d2 (out2 : NodeOutput) : Prop :=
  match out1, out2 with
  | Logits l1, Logits l2 => l1 = l2
  | OutActivations t1, OutActivations t2 => t_rows d1 t1 = t_rows d2 t2
  | _, _ => False
  end.

Lemma runs_Ok {S A : Type} (fl : S → bool) (m : st S A) s Q s' a : runs fl m s Q → m s = (s', Ok a) → Q s' a.
Proof. unfold runs. intros HQ Hm. by rewrite Hm in HQ. Qed.

(** C15: the contiguous and the paged cache are interchangeable.  If a sequence of
    the contiguous cache and a sequence of the paged cache hold the same keys and
    values in every layer, then a forward pass with the same engine, node and
    input gives the same logits, or the same hidden states, over either of them,
    with profiling or without, whenever both passes succeed. *)
Theorem contiguous_paged_agree E nc input hc hp c (m : PagedKvCacheManager) d s ess ps hs profiling cd1 out1 prof cd2 out2 :
  let cfg := ws_config (weights E) in
  let len := sc_current_len s in
  seq_ok d c hc s → kv_num_layers c = node_len nc → kv_num_kv_heads c = num_kv_heads cfg → kv_head_dim c = head_dim cfg →
  pc_ok m d → pc_dims m = (node_len nc, num_kv_heads cfg, head_dim cfg) →
  node_ok E nc → weights_ok (λ id, seq_outside s id ∧ pc_outside m id) d (weights E) →
  input_ok (λ id, seq_outside s id ∧ pc_outside m id) d (weights E) nc input ps hs →
  cstores d s ess → stores m d hp len ess → length ess = node_len nc → Forall (λ es, length es = len) ess →
  len + length ps ≤ kv_max_seq_len c → pc_need m hp (length ps) ≤ pc_free m →
  forward_node from_f16 E input nc hc profiling (c, d) = (cd1, Ok (out1, prof)) →
  forward_node_paged from_f16 E input nc hp (m, d) = (cd2, Ok out2) →
  same_output cd1.2 out1 cd2.2 out2.
Proof.
  intros cfg len Hs Hnl Hkv Hhd Hok Hdims Hnc Hws Hin Hst Hst' Hess Hlens Hmax Hneed R1 R2.
  pose proof (forward_node_Ok E nc input hc c d s ess ps hs profiling Hs Hnl Hkv Hhd Hnc
    (weights_ok_mono _ _ _ _ (λ id H, proj1 H) Hws) (input_ok_mono _ _ _ _ _ _ _ _ (λ id H, proj1 H) Hin) Hst Hess Hlens Hmax) as P1.
  pose proof (forward_node_paged_Ok from_f16 E nc input hp m d len ess ps hs Hok Hdims I Hnc
    (weights_ok_mono _ _ _ _ (λ id H, proj2 H) Hws) (input_ok_mono _ _ _ _ _ _ _ _ (λ id H, proj2 H) Hin) Hst' Hess Hlens Hneed) as P2.
  apply (runs_Ok _ _ _ _ _ _ P1) in R1. apply (runs_Ok _ _ _ _ _ _ P2) in R2.
  unfold contiguous_ok, pass_ok in R1, R2.
  match type of R2 with (let (_, _) := ?r in _) => change r with (ref_contiguous d E nc ess ps hs) in R2 end.
  destruct (ref_contiguous d E nc ess ps hs) as [hs' ess']. destruct R1 as (_ & _ & _ & _ & O1 & _). destruct R2 as (_ & _ & _ & _ & O2).
  destruct out1 as [l1|t1], out2 as [l2|t2]; simpl in O1, O2 |- *; destruct O1 as [T1 O1], O2 as [T2 O2]; try congruence.
  - destruct O1 as [-> _], O2 as [-> _]. done.
  - destruct O1 as (_ & -> & _), O2 as (_ & -> & _). done.
Qed.
End contiguous_spec.

(** What was allocated before is still there. *)
Lemma alloced_old {D : Type} `{BackendOps D} (d d' : D) ts id :
  alloced d d' ts → id ∈ b_live d → id ∈ b_live d' ∧ b_rows d' id = b_rows d id.
Proof. intros [Hl _ _ Hr] Hid. split; [rewrite Hl; by apply elem_of_union_r | by apply Hr]. Qed.

Module ContiguousWitness.
Import TinyModel.
(** A contiguous cache of two layers beside the paged cache of [EngineWitness],
    each with one new sequence. *)
Definition alloced := kv_alloc (kv_new 2 1 2 8, EngineWitness.d1).
Definition c1 : KvCacheManager := alloced.1.1.
Definition d2 : SimDevice := alloced.1.2.
Definition s1 : SequenceCache := default {| sc_layers := []; sc_current_len := 0; sc_max_len := 0 |} (caches c1 !! 0%Z).

Lemma alloced_Ok : kv_alloc (kv_new 2 1 2 8, EngineWitness.d1) = ((c1, d2), Ok 0%Z).
Proof. by vm_compute. Qed.

Lemma c1_ok : kv_ok EngineWitness.d1 d2 c1 ∧ Backend.alloced EngineWitness.d1 d2 (cache_tensors s1).
Proof.
  destruct (kv_alloc_Ok EngineWitness.d1 EngineWitness.d1 (kv_new 2 1 2 8) c1 d2 0%Z) as (Hok & _ & s & Hc & _ & _ & Ha); [| exact alloced_Ok |].
  - split; simpl; [intros ??; by rewrite lookup_empty | lia | intros ??; by rewrite lookup_empty |].
    unfold kv_tensors. simpl. rewrite map_to_list_empty. apply alloced_refl.
  - split; [done |]. unfold s1. rewrite Hc, lookup_insert_eq. exact Ha.
Qed.

Lemma s1_ok : seq_ok d2 c1 0%Z s1.
Proof. apply (kv_ok_seq EngineWitness.d1); [apply c1_ok | by vm_compute]. Qed.

Lemma paged_ok : pc_ok EngineWitness.m1 d2.
Proof.
  apply (pc_frame EngineWitness.m1 EngineWitness.d1 d2 EngineWitness.engine_m1_ok). intros id Hid _.
  exact (alloced_old _ _ _ id (proj2 c1_ok) Hid).
Qed.

Lemma d2_weights id :
  (1 ≤ id ≤ 12)%Z → (seq_outside s1 id ∧ pc_outside EngineWitness.m1 id) ∧ id ∈ b_live d2 ∧ b_rows d2 id = b_rows tdev id.
Proof.
  intros Hid. destruct (EngineWitness.m1_outside id Hid) as (Ho & Hl & Hr). destruct (alloced_old _ _ _ id (proj2 c1_ok) Hl) as [Hl2 Hr2].
  split; [split; [| exact Ho] | split; [exact Hl2 | exact (eq_trans Hr2 Hr)]].
  intros (t & Heq & Ht)%list_elem_of_fmap. apply (al_new _ _ _ (proj2 c1_ok) t Ht). rewrite <- Heq. exact Hl.
Qed.

Definition toks : NodeInput := TokenIds [3; 1]%Z [0; 1]%Z.

Lemma toks_ok O : input_ok O d2 (tstore 2) fullnode toks [0; 1]%Z [[2; 1]; [0; 1]]%Z.
Proof. split; [done |]. split; [by forall_list |]. split; [done |]. split; [done |]. split; [done |]. split; [by forall_list | by vm_compute]. Qed.

Lemma full_ok : node_ok (tengine 2 full) fullnode.
Proof. by vm_compute. Qed.

Lemma s1_empty : cstores d2 s1 [[]; []].
Proof.
  intros l es Hl. assert (es = []) as -> by (by destruct l as [|[|l]]; simplify_eq/=).
  assert (l < 2) as Hl2 by (by apply lookup_lt_Some in Hl).
  destruct (lookup_lt_is_Some_2 (sc_layers s1) l) as [lc Hlc]; [by rewrite (so_layers _ _ _ _ s1_ok) |]. by exists lc.
Qed.

Lemma m1_empty : stores EngineWitness.m1 d2 0 0 [[]; []].
Proof. split; [by vm_compute |]. intros [|[|l]] es [= <-]; (split; [apply Nat.le_0_l | done]). Qed.

Lemma forward_node_spec_witness :
  runs dev_failed (forward_node f16 (tengine 2 full) toks fullnode 0 true) (c1, d2)
    (contiguous_ok f16 c1 d2 (tengine 2 full) fullnode toks 0 s1 [[]; []] [0; 1]%Z [[2; 1]; [0; 1]]%Z true).
Proof.
  apply (forward_node_spec f16 (tengine 2 full) fullnode toks 0 c1 d2 s1 [[]; []] [0; 1]%Z [[2; 1]; [0; 1]]%Z true).
  - exact s1_ok.
  - by vm_compute.
  - by vm_compute.
  - by vm_compute.
  - by vm_compute.
  - apply tweights. intros id Hid. destruct (d2_weights id Hid) as [[Ho _] Hlr]. exact (conj Ho Hlr).
  - apply toks_ok.
  - exact s1_empty.
  - done.
  - by forall_list.
  - vm_compute. lia.
Defined.

Lemma contiguous_paged_agree_witness :
  ∃ cd1 out1 prof cd2 out2,
    forward_node f16 (tengine 2 full) toks fullnode 0 true (c1, d2) = (cd1, Ok (out1, prof)) ∧
    forward_node_paged f16 (tengine 2 full) toks fullnode 0 (EngineWitness.m1, d2) = (cd2, Ok out2) ∧
    same_output cd1.2 out1 cd2.2 out2.
Proof.
  assert (∃ cd1 out1 prof, forward_node f16 (tengine 2 full) toks fullnode 0 true (c1, d2) = (cd1, Ok (out1, prof)))
    as (cd1 & out1 & prof & R1) by (eexists _, _, _; by vm_compute).
  assert (∃ cd2 out2, forward_node_paged f16 (tengine 2 full) toks fullnode 0 (EngineWitness.m1, d2) = (cd2, Ok out2))
    as (cd2 & out2 & R2) by (eexists _, _; by vm_compute).
  exists cd1, out1, prof, cd2, out2. split; [exact R1 |]. split; [exact R2 |].
  apply (contiguous_paged_agree f16 (tengine 2 full) fullnode toks 0 0 c1 EngineWitness.m1 d2 s1 [[]; []] [0; 1]%Z [[2; 1]; [0; 1]]%Z true
    cd1 out1 prof cd2 out2).
  - exact s1_ok.
  - by vm_compute.
  - by vm_compute.
  - by vm_compute.
  - exact paged_ok.
  - by vm_compute.
  - exact full_ok.
  - apply tweights. exact d2_weights.
  - apply toks_ok.
  - exact s1_empty.
  - exact m1_empty.
  - reflexivity.
  - by forall_list.
  - clear R1 R2. vm_compute. lia.
  - clear R1 R2. vm_compute. lia.
  - exact R1.
  - exact R2.
Defined.
End ContiguousWitness.
