(* ===== verification/Pipeline.v ===== *)
(** * Pipelines of compute nodes ([crates/fracture-engine/src/pipeline.rs], [node.rs])

    [PipelineCoordinator] chains nodes on one device: the head embeds the tokens,
    each node hands its hidden states to the next, the tail returns the logits.
    A pipeline is proved to compute what one node with all its layers would. *)

From S2P Require Import Prelude F32 Core Backend Kernels BlockTables PagedCache KvCache LayerScheduler WeightStore Transformer Engine Contiguous.

Record ComputeNodeImpl := { cn_engine : Engine; node_config : NodeConfig }.
Record PipelineCoordinator := { nodes : list ComputeNodeImpl }.

(** The loop over neighbours: each range starts where the one before ends. *)
Fixpoint adjacent_ranges (prev : ComputeNodeImpl) (rest : list ComputeNodeImpl) : result unit :=
  match rest with
  | [] => Ok ()
  | curr :: rest' =>
      if (rend (nc_layer_range (node_config prev)) =? rstart (nc_layer_range (node_config curr)))%Z then adjacent_ranges curr rest'
      else Err (Pipeline "gap or overlap between nodes")
  end.

(** [PipelineCoordinator::new] *)
Definition coordinator_new (ns : list ComputeNodeImpl) : result PipelineCoordinator :=
  match ns with
  | [] => Err (Pipeline "pipeline must have at least one node")
  | first :: rest =>
      if negb (is_head (node_config first)) then Err (Pipeline "first node must be head")
      else if negb (is_tail (node_config (default first (last rest)))) then Err (Pipeline "last node must be tail")
      else let? _ := adjacent_ranges first rest in Ok {| nodes := ns |}
  end.
Definition num_nodes (p : PipelineCoordinator) : nat := length (nodes p).

Section pipeline.
Context {D : Type} `{KernelOps D} `{TimerOps D}.
Variable from_f16 : Z → f32.

(** [ComputeNodeImpl::forward] *)
Definition cn_forward (node : ComputeNodeImpl) (input : NodeInput) (h : Z) (profiling : bool)
    : st (KvCacheManager * D) (NodeOutput * option ForwardProfile) :=
  forward_node from_f16 (cn_engine node) input (node_config node) h profiling.

(** A call with [caches[i]]. *)
Definition with_cache {A : Type} (i : nat) (m : st (KvCacheManager * D) A) : st (list KvCacheManager * D) A := λ '(cs, d),
  match cs !! i with
  | Some c => let '((c', d'), r) := m (c, d) in ((<[i := c']> cs, d'), r)
  | None => ((cs, d), Panic)
  end.

Fixpoint run_nodes (num : nat) (positions handles : list Z) (i : nat) (ns : list ComputeNodeImpl) (current_input : NodeInput)
    : st (list KvCacheManager * D) (list f32) :=
  match ns with
  | [] => serr (Pipeline "no nodes in pipeline")
  | node :: ns' =>
      do! h := slift (index handles i) in
      do! output := with_cache i (cn_forward node current_input h false) in
      match output.1 with
      | Logits logits =>
          if bool_decide (i = num - 1) then sret logits else serr (Pipeline "node returned Logits but is not the last node")
      | OutActivations tensor =>
          if bool_decide (i = num - 1) then serr (Pipeline "last node returned Activations instead of Logits")
          else run_nodes num positions handles (S i) ns' (Activations tensor positions)
      end
  end.

(** [PipelineCoordinator::forward] *)
Definition coordinator_forward (p : PipelineCoordinator) (token_ids positions handles : list Z) : st (list KvCacheManager * D) (list f32) :=
  λ '(cs, d),
  if negb (bool_decide (length cs = length (nodes p))) || negb (bool_decide (length handles = length (nodes p))) then
    ((cs, d), Err (Pipeline "expected as many caches and handles as nodes"))
  else run_nodes (length (nodes p)) positions handles 0 (nodes p) (TokenIds token_ids positions) (cs, d).
End pipeline.

(** ** [LocalNodeService]

    A node with its cache behind a mutex, which is poisoned when a pass panics
    while it holds the lock. *)

Record ForwardRequest := { fr_seq_id : Z; fr_input : NodeInput; is_prefill : bool }.
Record ForwardResponse := { fp_seq_id : Z; fp_output : NodeOutput }.
Record NodeInfo := {
  ni_node_id : string; ni_layer_range : LayerRange; ni_is_head : bool; ni_is_tail : bool; gpu_memory_total : Z; gpu_memory_used : Z
}.
Record LocalNodeService := { ls_node : ComputeNodeImpl; ls_cache : KvCacheManager; ls_poisoned : bool; ls_node_id : string }.

Definition service_new (node : ComputeNodeImpl) (cache : KvCacheManager) (node_id : string) : LocalNodeService :=
  {| ls_node := node; ls_cache := cache; ls_poisoned := false; ls_node_id := node_id |}.

Section service.
Context {D : Type} `{KernelOps D} `{TimerOps D}.
Variable from_f16 : Z → f32.

(** [LocalNodeService::forward]: the sequence id is the cache handle. *)
Definition service_forward (request : ForwardRequest) : st (LocalNodeService * D) ForwardResponse := λ '(s, d),
  if ls_poisoned s then ((s, d), Err (Pipeline "cache lock poisoned"))
  else
    let '((c, d), r) := cn_forward from_f16 (ls_node s) (fr_input request) (fr_seq_id request) false (ls_cache s, d) in
    let poisoned := match r with Panic => true | _ => false end in
    (({| ls_node := ls_node s; ls_cache := c; ls_poisoned := poisoned; ls_node_id := ls_node_id s |}, d),
     rmap (λ out, {| fp_seq_id := fr_seq_id request; fp_output := out.1 |}) r).

(** [LocalNodeService::info], with what the backend reports of its memory. *)
Definition service_info (s : LocalNodeService) (total_memory available_memory : Z) : result NodeInfo :=
  let nc := node_config (ls_node s) in
  let? used := usub total_memory available_memory in
  Ok {| ni_node_id := ls_node_id s; ni_layer_range := nc_layer_range nc; ni_is_head := is_head nc; ni_is_tail := is_tail nc;
        gpu_memory_total := total_memory; gpu_memory_used := used |}.
End service.

(** ** Valid pipelines *)

Notation cn_start n := (rstart (nc_layer_range (node_config n))).
Notation cn_end n := (rend (nc_layer_range (node_config n))).

(** Neighbouring ranges that are not empty go up. *)
Lemma adjacent_ranges_up first rest :
  (∀ n, n ∈ first :: rest → cn_start n < cn_end n)%Z → adjacent_ranges first rest = Ok () →
  (∀ n, n ∈ rest → cn_end first ≤ cn_start n)%Z ∧
  (∀ j n, (first :: rest) !! j = Some n → S j < length (first :: rest) → (cn_end n < cn_end (default first (last rest)))%Z).
Proof.
  revert first. induction rest as [|n2 rest IH]; intros first Hne Hadj.
  { split; [by intros n ?%not_elem_of_nil |]. intros j n _ Hj. simpl in Hj. lia. }
  cbn [adjacent_ranges] in Hadj. destruct (Z.eqb_spec (cn_end first) (cn_start n2)) as [Heq|]; [| done].
  destruct (IH n2) as [IH1 IH2]; [intros n Hn; apply Hne; by right | done |].
  assert (cn_start n2 < cn_end n2)%Z as H2 by (apply Hne; right; left).
  replace (default first (last (n2 :: rest))) with (default n2 (last rest)) by (rewrite last_cons; by destruct (last rest)).
  assert (cn_end n2 ≤ cn_end (default n2 (last rest)))%Z as Hle.
  { destruct rest as [|n3 rest]; [done |]. apply Z.lt_le_incl. apply (IH2 0 n2 eq_refl). simpl. lia. }
  split.
  - intros n [->|Hn]%elem_of_cons; [lia |]. specialize (IH1 n Hn). lia.
  - intros [|j] n Hj Hlen; [injection Hj as <-; lia |]. apply (IH2 j n Hj). simpl in *. lia.
Qed.

(** The first node alone is the head, the last alone the tail. *)
Lemma coordinator_new_Ok ns p total :
  coordinator_new ns = Ok p → (∀ n, n ∈ ns → cn_start n < cn_end n)%Z → (∀ n, n ∈ ns → total_layers (node_config n) = total) →
  nodes p = ns ∧ ns ≠ [] ∧ (∀ j n, ns !! j = Some n → is_head (node_config n) = bool_decide (j = 0)) ∧
  (∀ j n, ns !! j = Some n → is_tail (node_config n) = bool_decide (S j = length ns)).
Proof.
  intros Hnew Hne Htot. unfold coordinator_new in Hnew. destruct ns as [|first rest]; [done |].
  destruct (is_head (node_config first)) eqn:Eh; [| done]. cbn [negb] in Hnew.
  destruct (is_tail (node_config (default first (last rest)))) eqn:Et; [| done]. cbn [negb] in Hnew.
  destruct (adjacent_ranges first rest) as [[]| |] eqn:Ea; [| done..]. injection Hnew as <-.
  destruct (adjacent_ranges_up first rest Hne Ea) as [Hup Hlt].
  assert (default first (last rest) ∈ first :: rest ∧ (first :: rest) !! length rest = Some (default first (last rest))) as [Hlin Hlast].
  { assert ((first :: rest) !! length rest = Some (default first (last rest))) as Hl.
    { change (length rest) with (pred (length (first :: rest))). rewrite <- last_lookup, last_cons. by destruct (last rest). }
    split; [by eapply list_elem_of_lookup_2 | done]. }
  unfold is_head, is_tail in *. apply Z.eqb_eq in Eh, Et. rewrite (Htot _ Hlin) in Et.
  split_and!; [done | done | |].
  - intros [|j] n Hj; [injection Hj as <-; by rewrite Eh |]. rewrite bool_decide_false by lia. apply Z.eqb_neq.
    assert (n ∈ rest) as Hn by (by eapply (list_elem_of_lookup_2 rest j)).
    specialize (Hup n Hn). specialize (Hne first ltac:(left)). lia.
  - intros j n Hj. rewrite (Htot n) by (by eapply list_elem_of_lookup_2). case_bool_decide as Hjl; simpl in Hjl.
    + assert (j = length rest) as -> by lia. rewrite Hlast in Hj. injection Hj as <-. by apply Z.eqb_eq.
    + apply Z.eqb_neq. apply lookup_lt_Some in Hj as Hjlt. simpl in Hjlt. specialize (Hlt j n Hj ltac:(simpl; lia)). lia.
Qed.

(** ** Splitting the reference *)

Section split.
Context {D : Type} `{KernelOps D}.
Variable cfg : ModelConfig.
Context {E : Type} (en : Row → Row → E) (at_ : list E → Row → Row).
Notation RLs := (ref_layers (D := D) cfg (λ _, en) (λ _, at_)).

(** The layers' numbers do not matter to such a codec. *)
Lemma ref_layers_shift Ws l l' ess ps hs : RLs Ws l ess ps hs = RLs Ws l' ess ps hs.
Proof.
  revert l l' ess hs. induction Ws as [|W Ws IH]; intros l l' [|es ess] hs; [done.. |]. cbn [ref_layers].
  by rewrite (IH (S l) (S l')).
Qed.

Lemma ref_layers_app Ws1 Ws2 l ess1 ess2 ps hs :
  length Ws1 = length ess1 →
  RLs (Ws1 ++ Ws2) l (ess1 ++ ess2) ps hs =
  let '(hs1, r1) := RLs Ws1 l ess1 ps hs in let '(hs2, r2) := RLs Ws2 l ess2 ps hs1 in (hs2, r1 ++ r2).
Proof.
  revert l ess1 hs. induction Ws1 as [|W Ws1 IH]; intros l [|es ess1] hs Hlen; [| done | done |].
  - cbn [app ref_layers]. by destruct (RLs Ws2 l ess2 ps hs).
  - simpl in Hlen. cbn [app ref_layers]. rewrite IH by lia.
    destruct (RLs Ws1 (S l) ess1 ps _) as [hs1 r1]. rewrite (ref_layers_shift Ws2 (S l) l).
    by destruct (RLs Ws2 l ess2 ps hs1).
Qed.
End split.

(** ** Stages

    A node of a pipeline with its sequence, and the entries the sequence holds. *)

Record Stage := { sg_node : ComputeNodeImpl; sg_h : Z; sg_seq : SequenceCache; sg_ess : list (list (Row * Row)) }.
Notation sg_engine st := (cn_engine (sg_node st)).
Notation sg_nc st := (node_config (sg_node st)).
Notation sg_ws st := (weights (sg_engine st)).

(** Tensors that belong to no stage's sequence. *)
Definition all_outside (sts : list Stage) (id : Z) : Prop := ∀ st, st ∈ sts → seq_outside (sg_seq st) id.

Section stages.
Context {D : Type} `{KernelLaws D} `{!BackendLaws D} `{!TimerOps D} `{!TimerLaws D}.
Implicit Types d : D.
Variable from_f16 : Z → f32.
Variables (cfg : ModelConfig) (total : Z) (ps : list Z).

(** The stage's sequence is in [c], with room for the new positions. *)
Record stage_ok d (c : KvCacheManager) (st : Stage) : Prop := {
  sk_seq : seq_ok d c (sg_h st) (sg_seq st);
  sk_layers : kv_num_layers c = node_len (sg_nc st);
  sk_heads : kv_num_kv_heads c = num_kv_heads cfg;
  sk_dim : kv_head_dim c = head_dim cfg;
  sk_node : node_ok (sg_engine st) (sg_nc st);
  sk_cfg : ws_config (sg_ws st) = cfg;
  sk_total : total_layers (sg_nc st) = total;
  sk_stores : cstores d (sg_seq st) (sg_ess st);
  sk_ess : length (sg_ess st) = node_len (sg_nc st);
  sk_lens : Forall (λ es, length es = sc_current_len (sg_seq st)) (sg_ess st);
  sk_room : sc_current_len (sg_seq st) + length ps ≤ kv_max_seq_len c
}.

(** Stages from number [i] on, ready on [d]: the caches, pairwise different
    tensors, the weights. *)
Record stages_ok d (cs : list KvCacheManager) (handles : list Z) (i : nat) (sts : list Stage) : Prop := {
  sg_caches : ∀ j st, sts !! j = Some st → handles !! (i + j) = Some (sg_h st) ∧ ∃ c, cs !! (i + j) = Some c ∧ stage_ok d c st;
  sg_disjoint : NoDup (tensor_id <$> mjoin ((λ st, cache_tensors (sg_seq st)) <$> sts));
  sg_weights : ∀ st, st ∈ sts → weights_ok (all_outside sts) d (sg_ws st)
}.

(** Hidden states and entries after each stage. *)
Fixpoint pipe_ref d (sts : list Stage) (hs : list Row) : list Row * list (list (list (Row * Row))) :=
  match sts with
  | [] => (hs, [])
  | st :: sts' =>
      let '(hs1, ess1) := ref_contiguous d (sg_engine st) (sg_nc st) (sg_ess st) ps hs in
      let '(hs2, rest) := pipe_ref d sts' hs1 in (hs2, ess1 :: rest)
  end.

(** All stages' layers in one go. *)
Lemma pipe_ref_layers d sts hs :
  (∀ st, st ∈ sts → ws_config (sg_ws st) = cfg ∧ length (node_layers (sg_engine st) (sg_nc st)) = length (sg_ess st)) →
  ref_layers (D := D) cfg (λ _, pair) (kv_att (D := D) cfg)
    (W0 d <$> mjoin ((λ st, node_layers (sg_engine st) (sg_nc st)) <$> sts)) 0 (mjoin (sg_ess <$> sts)) ps hs =
  let '(hs', rs) := pipe_ref d sts hs in (hs', mjoin rs).
Proof.
  revert hs. induction sts as [|st sts IH]; intros hs Hst; [done |].
  destruct (Hst st ltac:(left)) as [Hc Hl].
  rewrite !fmap_cons. cbn [mjoin list_join pipe_ref]. rewrite fmap_app.
  unfold kv_att. rewrite ref_layers_app by (by rewrite length_fmap). unfold ref_contiguous. rewrite Hc. unfold kv_att.
  destruct (ref_layers cfg (λ _, pair) _ _ 0 (sg_ess st) ps hs) as [hs1 r1].
  unfold kv_att in IH. rewrite IH by (intros; apply Hst; by right). by destruct (pipe_ref d sts hs1).
Qed.

(** The reference depends on the weights' rows only. *)
Lemma pipe_ref_ext d d' sts hs :
  (∀ st u, st ∈ sts → u ∈ store_tensors (sg_ws st) → t_rows d' u = t_rows d u) → pipe_ref d' sts hs = pipe_ref d sts hs.
Proof.
  revert hs. induction sts as [|st sts IH]; intros hs Hr; [done |]. cbn [pipe_ref].
  assert (ref_contiguous d' (sg_engine st) (sg_nc st) (sg_ess st) ps hs = ref_contiguous d (sg_engine st) (sg_nc st) (sg_ess st) ps hs) as ->.
  { unfold ref_contiguous. f_equal. apply list_fmap_ext. intros k w Hw. apply W0_same. intros f. apply (Hr st); [left |].
    apply layer_in_store, (node_layers_in (sg_engine st) (sg_nc st)). by eapply list_elem_of_lookup_2. }
  destruct (ref_contiguous _ _ _ _ _ _) as [hs1 ess1]. rewrite IH; [done |]. intros st' u Hst'. apply Hr. by right.
Qed.

Lemma pipe_ref_length d sts hs : length (pipe_ref d sts hs).2 = length sts.
Proof.
  revert hs. induction sts as [|st sts IH]; intros hs; [done |]. cbn [pipe_ref].
  destruct (ref_contiguous _ _ _ _ _ _) as [hs1 ess1]. specialize (IH hs1). destruct (pipe_ref d sts hs1). simpl in *. congruence.
Qed.

(** The input of the first stage, which is none of any stage's tensors. *)
Definition pipe_input d (sts : list Stage) (input : NodeInput) (hs : list Row) : Prop :=
  (∀ st, head sts = Some st → input_ok (all_outside sts) d (sg_ws st) (sg_nc st) input ps hs) ∧
  ∀ t st, input_tensor input = Some t → st ∈ sts → tensor_id t ∉ (tensor_id <$> store_tensors (sg_ws st)).

Lemma all_outside_cons st sts id : all_outside (st :: sts) id ↔ seq_outside (sg_seq st) id ∧ all_outside sts id.
Proof.
  split; [intros Ho; split; [apply Ho; left | intros st' Hst'; apply Ho; by right] |].
  intros [H1' H2'] st' [->|Hst']%elem_of_cons; [done | by apply H2'].
Qed.

(** Weights that are still there. *)
Lemma weights_ok_frame (O : Z → Prop) d d' ws :
  (∀ u, u ∈ store_tensors ws → tensor_id u ∈ b_live d' ∧ t_rows d' u = t_rows d u) → weights_ok O d ws → weights_ok O d' ws.
Proof.
  intros Hf [Hl Hla [[He1 He2] He3] ? ? ? ?]. split; try done.
  - intros u Hu. destruct (Hl u Hu). split; [by apply Hf | done].
  - destruct (Hf (token_embedding ws)) as [? Hr]; [unfold store_tensors; set_solver |]. split; [| done]. split; [done | by rewrite Hr].
Qed.

(** A stage that is not run keeps its sequence. *)
Lemma stage_ok_frame d d' c st :
  (∀ t, t ∈ cache_tensors (sg_seq st) → tensor_id t ∈ b_live d' ∧ t_rows d' t = t_rows d t) → stage_ok d c st → stage_ok d' c st.
Proof.
  intros Hf [[? ? ? ? Hsh] ? ? ? ? ? ? Hst ? ? ?].
  destruct (seq_frame d d' (sg_seq st) (layer_shape c) (sg_ess st) Hf Hsh Hst). by split.
Qed.

Lemma stage_tensor_live d cs handles i sts st t :
  stages_ok d cs handles i sts → st ∈ sts → t ∈ cache_tensors (sg_seq st) → tensor_id t ∈ b_live d.
Proof.
  intros Hs [j Hj]%list_elem_of_lookup Ht. destruct (sg_caches _ _ _ _ _ Hs j st Hj) as (_ & c & _ & Hst).
  by eapply seq_ok_live; [apply Hst |].
Qed.

Lemma stages_fresh d cs handles i sts id : stages_ok d cs handles i sts → id ∉ b_live d → all_outside sts id.
Proof. intros Hs Hid st Hst (t & -> & Ht)%list_elem_of_fmap. apply Hid. by eapply stage_tensor_live. Qed.

(** The first stage's tensors are none of the others'. *)
Lemma stages_apart d cs handles i st sts t :
  stages_ok d cs handles i (st :: sts) →
  (t ∈ cache_tensors (sg_seq st) → all_outside sts (tensor_id t)) ∧
  (∀ st', st' ∈ sts → t ∈ cache_tensors (sg_seq st') → seq_outside (sg_seq st) (tensor_id t)).
Proof.
  intros [_ Hnd _]. rewrite fmap_cons in Hnd. change (mjoin (?a :: ?b)) with (a ++ mjoin b) in Hnd. rewrite fmap_app in Hnd.
  apply NoDup_app in Hnd as (_ & Hdis & _).
  assert (∀ st' u, st' ∈ sts → u ∈ cache_tensors (sg_seq st') → tensor_id u ∈ (tensor_id <$> mjoin ((λ st, cache_tensors (sg_seq st)) <$> sts))) as Hin.
  { intros st' u Hst' Hu. apply list_elem_of_fmap. exists u. split; [done |]. apply list_elem_of_join. eexists. split; [exact Hu |].
    apply list_elem_of_fmap. eauto. }
  split.
  - intros Ht st' Hst' (u & Heq & Hu)%list_elem_of_fmap. apply (Hdis (tensor_id t)); [apply list_elem_of_fmap; eauto |].
    rewrite Heq. by eapply Hin.
  - intros st' Hst' Ht (u & Heq & Hu)%list_elem_of_fmap. apply (Hdis (tensor_id t)); [| by eapply Hin].
    apply list_elem_of_fmap. eauto.
Qed.

Lemma all_inputs_positive d sts input hs : pipe_input d sts input hs → sts ≠ [] → ps ≠ [].
Proof. intros [Hin _] Hne. destruct sts as [|st sts]; [done |]. by destruct (Hin st eq_refl) as (? & _). Qed.

(** Handing on: after the first stage the others are still ready, with its hidden
    states as their input. *)
Lemma stage_handoff d d' cs cs' handles i st sts input hs hs' t :
  stages_ok d cs handles i (st :: sts) → pipe_input d (st :: sts) input hs → (∀ j, i < j → cs' !! j = cs !! j) →
  (∀ st', st' ∈ sts → is_head (sg_nc st') = false) →
  rest_kept (seq_outside (sg_seq st)) d d' input → activations_ok d d' (sg_ws st) input ps hs' t →
  stages_ok d' cs' handles (S i) sts ∧ pipe_input d' sts (Activations t ps) hs' ∧
  (∀ st' u, st' ∈ sts → u ∈ store_tensors (sg_ws st') → t_rows d' u = t_rows d u).
Proof.
  intros Hs [Hin Hnw] Hcs Hhead Hrest (Hv & Hr & Hsh & Hdt & Hlive).
  specialize (Hin st eq_refl). pose proof Hin as (Hne & Hpos & Hin').
  destruct (sg_caches _ _ _ _ _ Hs 0 st eq_refl) as (_ & c & _ & Hst0).
  assert (∀ id, id ∈ b_live d → id ∈ b_live d') as Hsub.
  { intros id Hid. destruct input as [? ?|? ?]; destruct Hlive as [_ Hl]; rewrite Hl; [by apply elem_of_union_r | done]. }
  assert (∀ u, input_tensor input = Some u → all_outside (st :: sts) (tensor_id u)) as Hiout.
  { intros u Hu. destruct input as [? ?|? ?]; [done |]. injection Hu as ->. by destruct Hin' as (_ & _ & _ & ? & _). }
  assert (∀ st' u, st' ∈ sts → u ∈ cache_tensors (sg_seq st') → tensor_id u ∈ b_live d' ∧ t_rows d' u = t_rows d u) as Hcaches.
  { intros st' u Hst' Hu. assert (tensor_id u ∈ b_live d) as Hl by (eapply stage_tensor_live; [exact Hs | by right | done]).
    split; [by apply Hsub |]. apply Hrest; [done | by eapply (stages_apart d cs handles i st sts u) |].
    intros v Hv' Heq. apply (Hiout v Hv' st'); [by right |]. rewrite <- Heq. apply list_elem_of_fmap. eauto. }
  assert (∀ st' u, st' ∈ sts → u ∈ store_tensors (sg_ws st') → tensor_id u ∈ b_live d' ∧ t_rows d' u = t_rows d u) as Hweights.
  { intros st' u Hst' Hu. assert (st' ∈ st :: sts) as Hst1 by (by right).
    destruct (wo_live _ _ _ (sg_weights _ _ _ _ _ Hs st' Hst1) u Hu) as [Hl Ho].
    split; [by apply Hsub |]. apply Hrest; [done | apply Ho; left |].
    intros v Hv' Heq. apply (Hnw v st' Hv' Hst1). rewrite <- Heq. apply list_elem_of_fmap. eauto. }
  assert (all_outside sts (tensor_id t) ∧ ∀ st', st' ∈ sts → tensor_id t ∉ (tensor_id <$> store_tensors (sg_ws st'))) as [Hto Htw].
  { destruct input as [ids ps'|t' ps'].
    - destruct Hlive as [Hfr _]. split; [apply (all_outside_cons st sts); by eapply stages_fresh |].
      intros st' Hst' (u & Heq & Hu)%list_elem_of_fmap. apply Hfr. rewrite Heq.
      by apply (wo_live _ _ _ (sg_weights _ _ _ _ _ Hs st' ltac:(by right)) u Hu).
    - destruct Hlive as [-> _]. split; [apply (all_outside_cons st sts); by apply Hiout |].
      intros st' Hst'. apply (Hnw t' st' eq_refl). by right. }
  split_and!.
  - split.
    + intros j st' Hj. destruct (sg_caches _ _ _ _ _ Hs (S j) st' Hj) as (Hh & c' & Hc' & Hok).
      replace (S i + j) with (i + S j) by lia. split; [done |]. exists c'. split; [rewrite Hcs by lia; done |].
      eapply stage_ok_frame; [| exact Hok]. intros u. apply (Hcaches st'). by eapply list_elem_of_lookup_2.
    + destruct Hs as [_ Hnd _]. rewrite fmap_cons in Hnd. change (mjoin (?a :: ?b)) with (a ++ mjoin b) in Hnd.
      rewrite fmap_app in Hnd. by apply NoDup_app in Hnd as (_ & _ & ?).
    + intros st' Hst'. eapply weights_ok_frame; [intros u; by apply Hweights |].
      eapply weights_ok_mono; [| apply (sg_weights _ _ _ _ _ Hs st'); by right]. intros id Ho. by apply (all_outside_cons st sts).
  - split.
    + intros st' Hhd. assert (st' ∈ sts) as Hst' by (destruct sts; [done |]; injection Hhd as ->; left).
      assert (st' ∈ st :: sts) as Hst1 by (by right).
      apply list_elem_of_lookup in Hst1 as [j Hj]. destruct (sg_caches _ _ _ _ _ Hs j st' Hj) as (_ & c' & _ & Hok').
      rewrite (sk_cfg _ _ _ Hst0) in Hpos, Hsh. unfold input_ok. rewrite (sk_cfg _ _ _ Hok').
      split_and!; try done; [by apply Hhead | by apply Htw].
    + intros v st' [= <-] Hst'. by apply Htw.
  - intros st' u Hst' Hu. by apply (Hweights st').
Qed.

(** Every stage has its new entries. *)
Definition pipe_done (cs cs' : list KvCacheManager) d' (i : nat) (sts : list Stage) (rs : list (list (list (Row * Row)))) : Prop :=
  ∀ j st ess', sts !! j = Some st → rs !! j = Some ess' →
    ∃ c, cs !! (i + j) = Some c ∧
      cs' !! (i + j) = Some (with_len (sg_seq st) c (sg_h st) (sc_current_len (sg_seq st) + length ps)) ∧
      cstores d' (sg_seq st) ess'.

Definition pipe_post d cs i sts input hs (s : list KvCacheManager * D) (out : list f32) : Prop :=
  let '(hs', rs) := pipe_ref d sts hs in
  (∀ st, last sts = Some st → out = ref_head from_f16 d (sg_engine st) hs') ∧
  pipe_done cs s.1 s.2 i sts rs ∧ (∀ j, j < i → s.1 !! j = cs !! j) ∧
  (∃ X : gset Z, b_live s.2 = X ∪ b_live d ∧ X ## b_live d ∧ size X = if is_tokens input && bool_decide (1 < length sts) then 1 else 0) ∧
  (∀ id, id ∈ b_live d → all_outside sts id → (∀ t, input_tensor input = Some t → id ≠ tensor_id t) → b_rows s.2 id = b_rows d id).

Lemma runs_with_cache {A : Type} (m : st (KvCacheManager * D) A) cs c d i (Q : list KvCacheManager * D → A → Prop) :
  cs !! i = Some c → runs dev_failed m (c, d) (λ s a, Q (<[i := s.1]> cs, s.2) a) → runs dev_failed (with_cache i m) (cs, d) Q.
Proof. intros Hi. unfold runs, with_cache, dev_failed. rewrite Hi. by destruct (m (c, d)) as [[c' d'] [a| |]]. Qed.

Lemma run_nodes_runs handles num sts : ∀ i d cs input hs,
  sts ≠ [] → i + length sts = num → stages_ok d cs handles i sts → pipe_input d sts input hs →
  (∀ j st, sts !! j = Some st → is_tail (sg_nc st) = bool_decide (S j = length sts)) →
  (∀ j st, sts !! (S j) = Some st → is_head (sg_nc st) = false) →
  runs dev_failed (run_nodes from_f16 num ps handles i (sg_node <$> sts) input) (cs, d) (pipe_post d cs i sts input hs).
Proof.
  induction sts as [|st sts IH]; intros i d cs input hs Hne Hnum Hs Hin Htail Hhead; [done |].
  destruct (sg_caches _ _ _ _ _ Hs 0 st eq_refl) as (Hh & c & Hc & Hst). rewrite Nat.add_0_r in Hh, Hc.
  rewrite fmap_cons. cbn [run_nodes]. apply runs_bind. eapply runs_lift; [by apply index_Ok |].
  apply runs_bind, (runs_with_cache _ cs c d i _ Hc).
  assert (∀ id, all_outside (st :: sts) id → seq_outside (sg_seq st) id) as Hsub by (intros id Ho; apply Ho; left).
  eapply runs_mono; [| apply (forward_node_Ok from_f16 (sg_engine st) (sg_nc st) input (sg_h st) c d (sg_seq st) (sg_ess st) ps hs false)];
    try apply Hst.
  2:{ rewrite (sk_cfg _ _ _ Hst). apply Hst. }
  2:{ rewrite (sk_cfg _ _ _ Hst). apply Hst. }
  2:{ eapply weights_ok_mono; [exact Hsub |]. apply (sg_weights _ _ _ _ _ Hs). left. }
  2:{ eapply input_ok_mono; [exact Hsub |]. by apply Hin. }
  intros [c1 d1] [out prof] Hpass. unfold contiguous_ok in Hpass. unfold pipe_post. cbn [pipe_ref].
  destruct (ref_contiguous d (sg_engine st) (sg_nc st) (sg_ess st) ps hs) as [hs1 ess1] eqn:Eref.
  destruct Hpass as (Hc1 & Hsh1 & Hst1 & Hrest1 & Hout & _). cbn [fst snd] in *. subst c1.
  assert (i < length cs) as Hilt by (by apply lookup_lt_Some in Hc). pose proof (Htail 0 st eq_refl) as Ht0.
  destruct sts as [|st2 sts].
  - (* the last node *)
    simpl in Hnum. destruct out as [l|t]; destruct Hout as [Ht1 Hout]; [| by rewrite Ht0 in Ht1]. destruct Hout as [-> Hl].
    rewrite bool_decide_true by lia. apply runs_ret. cbn [pipe_ref fst snd]. split_and!.
    + by intros st' [= <-].
    + intros [|j] st' ess' [= <-] [= <-]. exists c. rewrite Nat.add_0_r, list_lookup_insert_eq by done. done.
    + intros j Hj. rewrite list_lookup_insert_ne by lia. done.
    + exists ∅. rewrite andb_false_r. split_and!; [by rewrite Hl, union_empty_l_L | set_solver | done].
    + intros id Hid Ho Hnt. apply Hrest1; [done | by apply Hsub | done].
  - (* hidden states for the next one *)
    destruct out as [l|t]; destruct Hout as [Ht1 Hact]; [by rewrite Ht0 in Ht1 |].
    rewrite bool_decide_false by (simpl in Hnum; lia).
    set (cs1 := <[i := with_len (sg_seq st) c (sg_h st) (sc_current_len (sg_seq st) + length ps)]> cs).
    destruct (stage_handoff d d1 cs cs1 handles i st (st2 :: sts) input hs hs1 t Hs Hin) as (Hs1 & Hin1 & Hw1); try done.
    { intros j Hj. unfold cs1. rewrite list_lookup_insert_ne by lia. done. }
    { intros st' [j Hj]%list_elem_of_lookup. by apply (Hhead j). }
    eapply runs_mono; [| apply (IH (S i) d1 cs1 (Activations t ps) hs1 ltac:(done) ltac:(simpl in *; lia) Hs1 Hin1)].
    2:{ intros j st' Hj. rewrite (Htail (S j) st' Hj). apply bool_decide_ext. simpl. lia. }
    2:{ intros j st' Hj. by apply (Hhead (S j)). }
    intros [cs2 d2] l Hpost. unfold pipe_post in Hpost. rewrite (pipe_ref_ext d d1 (st2 :: sts) hs1 Hw1) in Hpost.
    destruct (pipe_ref d (st2 :: sts) hs1) as [hs2 rs] eqn:Epr. cbn [fst snd] in *.
    destruct Hpost as (Hlast & Hdone & Hbefore & (X & HX & HXd & HXs) & Hkeep).
    destruct Hact as (Hv & Hr & Hsh & Hdt & Hlive).
    assert (∀ id, id ∈ b_live d → id ∈ b_live d1) as Hlsub.
    { intros id Hid. destruct input as [? ?|? ?]; destruct Hlive as [_ Hl]; rewrite Hl; [by apply elem_of_union_r | done]. }
    assert (∀ id, id ∈ b_live d → (∀ u, input_tensor input = Some u → id ≠ tensor_id u) → id ≠ tensor_id t) as Hnt1.
    { intros id Hid Hnu ->. destruct input as [? ?|t' ?]; destruct Hlive as [Hfr _]; [done |]. by apply (Hnu t' eq_refl); rewrite Hfr. }
    assert (size X = 0 ∧ X = ∅) as [_ ->] by (split; [done | by apply size_empty_inv, leibniz_equiv in HXs]).
    rewrite union_empty_l_L in HX.
    split_and!.
    + intros st' Hl'. rewrite last_cons in Hl'. destruct (last (st2 :: sts)) as [st3|] eqn:El; [| by apply last_None in El]. injection Hl' as <-.
      rewrite (Hlast st3 eq_refl). apply last_Some in El as [pre El].
      assert (st3 ∈ st2 :: sts) as Hin3 by (rewrite El; set_solver).
      unfold ref_head. f_equal; [apply (Hw1 st3) | apply (Hw1 st3)]; try done; unfold store_tensors; set_solver.
    + intros [|j] st' ess' Hj Hr'.
      * injection Hj as <-. injection Hr' as <-. exists c. rewrite Nat.add_0_r. split; [done |]. split.
        { rewrite Hbefore by lia. unfold cs1. by rewrite list_lookup_insert_eq. }
        assert (∀ u, u ∈ cache_tensors (sg_seq st) → tensor_id u ∈ b_live d2 ∧ t_rows d2 u = t_rows d1 u) as Hu.
        { intros u Hu. assert (tensor_id u ∈ b_live d1) as Hl1 by (rewrite Forall_forall in Hsh1; by destruct (Hsh1 u Hu) as ([? _] & _)).
          split; [by rewrite HX |]. apply Hkeep; [done | by apply (stages_apart d cs handles i st (st2 :: sts) u) |].
          intros v [= <-]. apply Hnt1; [by eapply stage_tensor_live; [exact Hs | left |] |]. intros v Hv' Heq.
          destruct input as [? ?|t' ?]; [done |]. injection Hv' as ->. destruct Hin as [Hin _].
          destruct (Hin st eq_refl) as (_ & _ & _ & _ & _ & Ho & _). apply (Ho st); [left |]. rewrite <- Heq. apply list_elem_of_fmap. eauto. }
        by destruct (seq_frame d1 d2 (sg_seq st) (layer_shape c) ess1 Hu Hsh1 Hst1).
      * destruct (Hdone j st' ess' Hj Hr') as (c' & Hc' & Hc2 & Hst'). exists c'. replace (i + S j) with (S i + j) by lia.
        split_and!; try done. unfold cs1 in Hc'. by rewrite list_lookup_insert_ne in Hc' by lia.
    + intros j Hj. rewrite Hbefore by lia. unfold cs1. rewrite list_lookup_insert_ne by lia. done.
    + destruct input as [? ?|t' ?]; destruct Hlive as [Hf Hl].
      * exists {[tensor_id t]}. rewrite HX, Hl. split_and!; [done | set_solver |]. rewrite size_singleton. cbn [is_tokens andb]. by rewrite bool_decide_true by (simpl; lia).
      * exists ∅. rewrite HX, Hl. split_and!; [by rewrite union_empty_l_L | set_solver | done].
    + intros id Hid Ho Hnu. apply all_outside_cons in Ho as [Ho1 Ho2].
      rewrite Hkeep; [by apply Hrest1 | by apply Hlsub | done |]. intros v [= <-]. by apply Hnt1.
Qed.

Lemma coordinator_forward_Ok p sts ids handles d cs hs :
  coordinator_new (sg_node <$> sts) = Ok p → length cs = length sts → length handles = length sts →
  stages_ok d cs handles 0 sts → pipe_input d sts (TokenIds ids ps) hs →
  runs dev_failed (coordinator_forward from_f16 p ids ps handles) (cs, d) (pipe_post d cs 0 sts (TokenIds ids ps) hs).
Proof.
  intros Hnew Hlc Hlh Hs Hin.
  assert (∀ n, n ∈ sg_node <$> sts → node_ok (cn_engine n) (node_config n) ∧ total_layers (node_config n) = total) as Hnodes.
  { intros n (st & -> & [j Hj]%list_elem_of_lookup)%list_elem_of_fmap. destruct (sg_caches _ _ _ _ _ Hs j st Hj) as (_ & c & _ & Hok).
    split; apply Hok. }
  destruct (coordinator_new_Ok _ _ total Hnew) as (Hp & Hne & Hhead & Htail).
  { intros n Hn. destruct (Hnodes n Hn) as [(_ & ? & _) _]. done. }
  { intros n Hn. by apply Hnodes. }
  assert (coordinator_forward from_f16 p ids ps handles (cs, d) =
          run_nodes from_f16 (length sts) ps handles 0 (sg_node <$> sts) (TokenIds ids ps) (cs, d)) as Heq.
  { unfold coordinator_forward. by rewrite Hp, length_fmap, Hlc, Hlh, !bool_decide_true. }
  unfold runs. rewrite Heq. apply (run_nodes_runs handles (length sts) sts 0 d cs (TokenIds ids ps) hs); try done.
  - by intros ->.
  - intros j st Hj. rewrite (Htail j (sg_node st)) by (rewrite list_lookup_fmap, Hj; done). by rewrite length_fmap.
  - intros j st Hj. by rewrite (Hhead (S j) (sg_node st)) by (rewrite list_lookup_fmap, Hj; done).
Qed.

(** C6: a pipeline of nodes computes what the whole model computes.  For nodes
    that [PipelineCoordinator::new] accepts, with contiguous caches that have room
    for the new tokens and share no tensor, [PipelineCoordinator::forward] does not
    panic and fails only if the device reports a failure; otherwise the logits are
    those of the reference transformer run through the layers of all nodes one
    after the other, from the embedding of the head to the output head of the
    tail, and every node's cache holds its part of the reference's new entries.
    Of the tensors the pass allocated it keeps none if there is one node, and
    exactly one, the hidden states that nobody frees, if there are more. *)
Theorem coordinator_forward_spec p sts ids handles d cs hs :
  coordinator_new (sg_node <$> sts) = Ok p → length cs = length sts → length handles = length sts →
  stages_ok d cs handles 0 sts → pipe_input d sts (TokenIds ids ps) hs →
  runs dev_failed (coordinator_forward from_f16 p ids ps handles) (cs, d) (λ s out,
    let whole := ref_layers (D := D) cfg (λ _, pair) (kv_att (D := D) cfg)
      (W0 d <$> mjoin ((λ st, node_layers (sg_engine st) (sg_nc st)) <$> sts)) 0 (mjoin (sg_ess <$> sts)) ps hs in
    (∀ st, last sts = Some st → out = ref_head from_f16 d (sg_engine st) whole.1) ∧
    (∃ rs, mjoin rs = whole.2 ∧ length rs = length sts ∧ pipe_done cs s.1 s.2 0 sts rs) ∧
    (∃ X : gset Z, b_live s.2 = X ∪ b_live d ∧ X ## b_live d ∧ size X = if bool_decide (1 < length sts) then 1 else 0) ∧
    (∀ id, id ∈ b_live d → all_outside sts id → b_rows s.2 id = b_rows d id)).
Proof.
  intros Hnew Hlc Hlh Hs Hin. eapply runs_mono; [| by apply (coordinator_forward_Ok p sts ids handles d cs hs)].
  intros s out Hpost. unfold pipe_post in Hpost. cbn zeta. rewrite pipe_ref_layers.
  2:{ intros st [j Hj]%list_elem_of_lookup. destruct (sg_caches _ _ _ _ _ Hs j st Hj) as (_ & c & _ & Hok).
      split; [apply Hok |]. rewrite (sk_ess _ _ _ Hok). apply length_node_layers, Hok. }
  pose proof (pipe_ref_length d sts hs) as Hrs. destruct (pipe_ref d sts hs) as [hs' rs]. cbn [fst snd] in *.
  destruct Hpost as (? & ? & _ & ? & Hkeep). split_and!; [done | by exists rs | done |]. intros id Hid Ho. by apply Hkeep.
Qed.
End stages.

Module CoordinatorWitness.
Import TinyModel.
(** Two nodes with one layer and one cache each. *)
Definition node (k : Z) : ComputeNodeImpl :=
  {| cn_engine := tengine 1 {| rstart := k; rend := k + 1 |}; node_config := {| nc_layer_range := {| rstart := k; rend := k + 1 |}; total_layers := 2 |} |}.
Definition first_alloc := kv_alloc (kv_new 1 1 2 8, tdev).
Definition c1 : KvCacheManager := first_alloc.1.1.
Definition d1 : SimDevice := first_alloc.1.2.
Definition second_alloc := kv_alloc (kv_new 1 1 2 8, d1).
Definition c2 : KvCacheManager := second_alloc.1.1.
Definition d2 : SimDevice := second_alloc.1.2.
Definition no_seq : SequenceCache := {| sc_layers := []; sc_current_len := 0; sc_max_len := 0 |}.
Definition seq0 (c : KvCacheManager) : SequenceCache := default no_seq (caches c !! 0%Z).
Definition stages : list Stage :=
  [{| sg_node := node 0; sg_h := 0; sg_seq := seq0 c1; sg_ess := [[]] |}; {| sg_node := node 1; sg_h := 0; sg_seq := seq0 c2; sg_ess := [[]] |}].

Lemma new_ok (d : SimDevice) : kv_ok d d (kv_new 1 1 2 8).
Proof.
  split; simpl; [intros ??; by rewrite lookup_empty | lia | intros ??; by rewrite lookup_empty |].
  unfold kv_tensors. simpl. rewrite map_to_list_empty. apply alloced_refl.
Qed.

(** A new sequence of a new cache. *)
Lemma one_seq (d d' : SimDevice) c :
  kv_alloc (kv_new 1 1 2 8, d) = ((c, d'), Ok 0%Z) → seq_ok d' c 0%Z (seq0 c) ∧ alloced d d' (cache_tensors (seq0 c)).
Proof.
  intros Ha. destruct (kv_alloc_Ok d d (kv_new 1 1 2 8) c d' 0%Z (new_ok d) Ha) as (Hok & _ & s & Hc & _ & _ & Hal).
  assert (caches c !! 0%Z = Some s) as Hs by (by rewrite Hc, lookup_insert_eq).
  unfold seq0. rewrite Hs. split; [by apply (kv_ok_seq d) | done].
Qed.

Lemma stage1_ok : seq_ok d1 c1 0%Z (seq0 c1) ∧ alloced tdev d1 (cache_tensors (seq0 c1)).
Proof. apply one_seq. by vm_compute. Qed.
Lemma stage2_ok : seq_ok d2 c2 0%Z (seq0 c2) ∧ alloced d1 d2 (cache_tensors (seq0 c2)).
Proof. apply one_seq. by vm_compute. Qed.

Lemma seq_empty d c (s : SequenceCache) : seq_ok (D := SimDevice) d c 0%Z s → kv_num_layers c = 1 → cstores d s [[]].
Proof.
  intros [_ Hl _ _ _] Hn [|l] es [= <-]. destruct (lookup_lt_is_Some_2 (sc_layers s) 0) as [lc Hlc]; [lia |]. by exists lc.
Qed.

Lemma c1_still : seq_ok d2 c1 0%Z (seq0 c1).
Proof.
  destruct stage1_ok as [Hs _]. pose proof Hs as [? ? ? ? Hsh].
  destruct (seq_frame d1 d2 (seq0 c1) (layer_shape c1) [[]]) as [? _];
    [| exact Hsh | exact (seq_empty d1 c1 _ Hs eq_refl) | by split].
  intros t Ht. apply (alloced_old _ _ _ _ (proj2 stage2_ok)). by eapply seq_ok_live.
Qed.

Lemma stages_weights id : (1 ≤ id ≤ 12)%Z → all_outside stages id ∧ id ∈ b_live d2 ∧ b_rows d2 id = b_rows tdev id.
Proof.
  intros Hid.
  assert (Forall (λ st, Forall (λ t, 12 < tensor_id t)%Z (cache_tensors (sg_seq st))) stages) as Hout by decide_now.
  assert (Forall (λ i, i ∈ dom (sim_mem d2) ∧ sim_rows d2 i = sim_rows tdev i) [1; 2; 3; 4; 5; 6; 7; 8; 9; 10; 11; 12]%Z) as Hall by decide_now.
  rewrite Forall_forall in Hout. rewrite Forall_forall in Hall. split.
  - intros st Hst (t & -> & Ht)%list_elem_of_fmap. specialize (Hout st Hst). rewrite Forall_forall in Hout. specialize (Hout t Ht). lia.
  - apply Hall. assert (id ∈ Z.of_nat <$> seq 1 12); [| done]. apply list_elem_of_fmap. exists (Z.to_nat id). split; [lia |].
    apply elem_of_seq. lia.
Qed.

Lemma stages_ready : stages_ok tcfg 2 [0; 1]%Z d2 [c1; c2] [0; 0]%Z 0 stages.
Proof.
  split.
  - intros [|[|j]] st [= <-]; (split; [done |]); [exists c1 | exists c2]; (split; [done |]);
      [pose proof c1_still as Hs | pose proof (proj1 stage2_ok) as Hs]; (split; [exact Hs | try (by vm_compute) ..]);
      [eapply seq_empty; [exact Hs | by vm_compute] | by forall_list | clear Hs; vm_compute; lia |
       eapply seq_empty; [exact Hs | by vm_compute] | by forall_list | clear Hs; vm_compute; lia].
  - decide_now.
  - intros st Hst. repeat (apply elem_of_cons in Hst as [->|Hst]); [exact (tweights _ d2 1 stages_weights) | exact (tweights _ d2 1 stages_weights) |].
    by apply not_elem_of_nil in Hst.
Qed.

Lemma coordinator_forward_spec_witness :
  runs dev_failed (coordinator_forward f16 {| nodes := [node 0; node 1] |} [3; 1]%Z [0; 1]%Z [0; 0]%Z) ([c1; c2], d2) (λ s out,
    out = ref_head f16 d2 (tengine 1 {| rstart := 1; rend := 2 |})
      (ref_layers (D := SimDevice) tcfg (λ _, pair) (kv_att (D := SimDevice) tcfg) (W0 d2 <$> [tlayer; tlayer]) 0 [[]; []] [0; 1]%Z [[2; 1]; [0; 1]]%Z).1).
Proof.
  eapply runs_mono.
  2:{ apply (coordinator_forward_spec f16 tcfg 2 [0; 1]%Z {| nodes := [node 0; node 1] |} stages [3; 1]%Z [0; 0]%Z d2 [c1; c2] [[2; 1]; [0; 1]]%Z).
      - by vm_compute.
      - done.
      - done.
      - exact stages_ready.
      - split; [| done]. intros st [= <-]. split; [done |]. split; [by forall_list |]. split; [done |]. split; [done |]. split; [done |].
        split; [by forall_list | by vm_compute]. }
  intros s out (Hout & _). apply (Hout {| sg_node := node 1; sg_h := 0; sg_seq := seq0 c2; sg_ess := [[]] |}). done.
Defined.

(** The same logits as of one node with both layers. *)
Example coordinator_forward_runs :
  (coordinator_forward f16 {| nodes := [node 0; node 1] |} [3; 1]%Z [0; 1]%Z [0; 0]%Z ([c1; c2], d2)).2 = Ok [f16 16331].
Proof. by vm_compute. Qed.
End CoordinatorWitness.
