(* ===== verification/LoopEngines.v ===== *)
(** * The engine behind the loops

    The server's scheduler loop and the generation loop are proved against
    classes ([ForwardEngine], [PagedEngine]).  The forward passes of [Batched] and
    [Engine] over the paged cache are instances, on any device: whatever a pass
    does and however it ends, it changes the cache through [append_kv] only. *)

From S2P Require Import Prelude F32 Core Backend Kernels BlockTables PagedCache CacheIface Sampling BatchScheduler SchedulerLoop Generation.
From S2P Require Import LayerScheduler WeightStore Transformer Engine Batched.

(** ** Programs that change the cache in a certain way *)

Section changes.
Context {C D : Type} (R : C → C → Prop).
Context {Hrefl : Reflexive R} {Htrans : Transitive R}.

Definition changes {A : Type} (m : st (C * D) A) : Prop := ∀ c d, R c (m (c, d)).1.1.

Lemma changes_ret {A : Type} (a : A) : changes (sret a).
Proof. by intros c d. Qed.

Lemma changes_lift {A : Type} (r : result A) : changes (slift r).
Proof. by intros c d. Qed.

Lemma changes_err {A : Type} e : changes (serr (A := A) e).
Proof. by intros c d. Qed.

Lemma changes_dev {A : Type} (m : st D A) : changes (dev m).
Proof. intros c d. unfold dev. by destruct (m d). Qed.

Lemma changes_bind {A B : Type} (m : st (C * D) A) (f : A → st (C * D) B) : changes m → (∀ a, changes (f a)) → changes (sbind m f).
Proof.
  intros Hm Hf c d. unfold sbind. specialize (Hm c d). destruct (m (c, d)) as [[c1 d1] [a| |]]; simpl in *; [| done | done].
  etrans; [exact Hm | apply Hf].
Qed.

Lemma changes_siter {A : Type} (f : A → st (C * D) unit) l : (∀ a, a ∈ l → changes (f a)) → changes (siter f l).
Proof.
  induction l as [|a l IH]; intros Hf; cbn [siter]; [apply changes_ret |].
  apply changes_bind; [apply Hf; left | intros _; apply IH; intros b Hb; apply Hf; by right].
Qed.
End changes.

Create HintDb changes discriminated.
#[export] Hint Resolve changes_ret changes_lift changes_err changes_dev changes_bind : changes.

(** The cache is well-formed with the same sequences, and those that are not in
    [hs] are as they were. *)
Definition moved (hs : list Z) (c c' : PagedKvCacheManager) : Prop :=
  tables_inv c →
  tables_inv c' ∧ capacity (pool c') = capacity (pool c) ∧ (∀ h, is_Some (sequences c' !! h) ↔ is_Some (sequences c !! h)) ∧
  ∀ h, h ∉ hs → sequences c' !! h = sequences c !! h.

#[export] Instance moved_refl hs : Reflexive (moved hs).
Proof. by intros c Hc. Qed.
#[export] Instance moved_trans hs : Transitive (moved hs).
Proof.
  intros c1 c2 c3 H12 H23 Hc. destruct (H12 Hc) as (I2 & K2 & S2 & F2). destruct (H23 I2) as (I3 & K3 & S3 & F3).
  split_and!; [done | congruence | intros h; by rewrite S3 | intros h Hh; by rewrite F3, F2].
Qed.

Lemma moved_weaken {D A : Type} hs hs' (m : st (PagedKvCacheManager * D) A) :
  (∀ h, h ∈ hs → h ∈ hs') → changes (moved hs) m → changes (moved hs') m.
Proof. intros Hsub Hm c d Hc. destruct (Hm c d Hc) as (? & ? & ? & Ho). split_and!; try done. intros h Hh. apply Ho. auto. Qed.

Section passes.
Context {D : Type} `{KernelLaws D} `{!BackendLaws D}.
Variable from_f16 : Z → f32.

Lemma append_moved hs h l k v : h ∈ hs → changes (D := D) (moved hs) (pc_append_kv (C := PagedKvCacheManager) h l k v).
Proof.
  intros Hh c d Hc. change (pc_append_kv h l k v (c, d)) with (append_kv h l k v (c, d)).
  destruct (append_kv_tables h l k v c d) as [->|[n ->]]; [done |].
  destruct (reserve_frame h n c Hc) as (? & ? & ? & Ho). split_and!; try done. intros h' Hh'. apply Ho. by intros ->.
Qed.

Lemma dispatch_moved hs q h l nkv kv start out : changes (D := D) (moved hs) (pc_dispatch (C := PagedKvCacheManager) q h l nkv kv start out).
Proof. intros c d. unfold pc_dispatch, dev. by destruct (pc_dispatch_attention c q h l nkv kv start out d). Qed.

Lemma len_moved hs h : changes (D := D) (moved hs) (pc_len (C := PagedKvCacheManager) h).
Proof. by intros c d. Qed.

Lemma starts_moved hs handles : changes (D := D) (moved hs) (start_positions (C := PagedKvCacheManager) handles).
Proof. by intros c d. Qed.

#[local] Hint Resolve append_moved dispatch_moved len_moved starts_moved moved_refl moved_trans : changes.
#[local] Ltac moves := repeat first [apply changes_bind; [apply _ | .. | intros ?] | solve [eauto 2 with changes typeclass_instances]].

Lemma paged_layer_moved E nc h r sc start l : changes (D := D) (moved [h]) (paged_layer (C := PagedKvCacheManager) E nc h r sc start l).
Proof. unfold paged_layer. moves. apply append_moved. set_solver. Qed.

Lemma forward_paged_moved E ids ps h : changes (D := D) (moved [h]) (forward_paged (C := PagedKvCacheManager) from_f16 E ids ps h).
Proof.
  unfold forward_paged, forward_node_paged. moves.
  - apply changes_siter; [apply _ | apply _ |]. intros l _. apply paged_layer_moved.
  - match goal with |- context [match ?o with _ => _ end] => destruct o end; moves.
Qed.

Lemma batched_layer_moved ws start r sc hbs l :
  changes (D := D) (moved (hbs.*1.*1)) (batched_layer (C := PagedKvCacheManager) ws start r sc hbs l).
Proof.
  unfold batched_layer. moves.
  - apply changes_siter; [apply _ | apply _ |]. intros [h [lo hi]] Hh. unfold append_slice. moves. apply append_moved.
    apply list_elem_of_fmap. by exists (h, (lo, hi)).
  - apply changes_siter; [apply _ | apply _ |]. intros [[h [lo hi]] p] _. unfold attend_slice. moves.
Qed.
End passes.

(** ** Instances *)

Section instances.
Context {D : Type} `{KernelLaws D} `{!BackendLaws D}.
Variables (from_f16 : Z → f32) (ws : WeightStore) (layer_range : LayerRange).

(** What the server's loop calls. *)
Definition batched_engine : ForwardEngine D := {|
  SchedulerLoop.batched_forward := Batched.batched_forward (C := PagedKvCacheManager) from_f16 ws layer_range
|}.

(** What the generation loop calls. *)
Definition paged_engine (E : Engine) : PagedEngine D := {|
  Generation.forward_paged := Engine.forward_paged (C := PagedKvCacheManager) from_f16 E
|}.

Lemma batched_forward_moved slices :
  changes (D := D) (moved (sl_handle <$> slices)) (Batched.batched_forward (C := PagedKvCacheManager) from_f16 ws layer_range slices).
Proof.
  unfold Batched.batched_forward. case_bool_decide; [apply changes_ret, _ |].
  set (hs := sl_handle <$> slices).
  apply changes_bind; [apply _ | apply starts_moved | intros starts].
  do 3 (apply changes_bind; [apply _ | apply changes_dev, _ | intros ?]).
  apply changes_bind; [apply _ | | intros _].
  - apply changes_siter; [apply _ | apply _ |]. intros l _. eapply moved_weaken; [| apply batched_layer_moved].
    intros h Hin. apply list_elem_of_fmap in Hin as ([h' bd] & -> & Hin). apply list_elem_of_fmap in Hin as ([hb st] & -> & Hin).
    destruct hb as [h1 bd1]. apply elem_of_zip_l in Hin. by apply elem_of_zip_l in Hin.
  - do 2 (apply changes_bind; [apply _ | apply changes_dev, _ | intros ?]). apply changes_ret, _.
Qed.

Lemma smapM_length {S A B : Type} (f : A → st S B) l s s' ys : smapM f l s = (s', Ok ys) → length ys = length l.
Proof.
  revert s ys. induction l as [|x l IH]; intros s ys; cbn [smapM]; [by intros [= <- <-] |].
  intros (s1 & y & _ & (s2 & ys' & Hl & [= <- <-])%sbind_Ok)%sbind_Ok. simpl. f_equal. by eapply IH.
Qed.

Lemma boundaries_length o lens : length (boundaries o lens) = length lens.
Proof. revert o. induction lens as [|k lens IH]; intros o; [done |]. cbn [boundaries length]. by rewrite IH. Qed.

Lemma dev_Ok {X A : Type} (m : st D A) (x : X) d s' a : dev m (x, d) = (s', Ok a) → m d = (s'.2, Ok a).
Proof. unfold dev. destruct (m d) as [d' r]. by intros [= <- ->]. Qed.

Lemma batched_engine_laws : @ForwardLaws D batched_engine.
Proof.
  split.
  - intros slices c e c' e' r Hr Hc. pose proof (batched_forward_moved slices c e Hc) as Hm. cbn in Hr. rewrite Hr in Hm. naive_solver.
  - intros slices c e s' logits. cbn. unfold Batched.batched_forward. case_bool_decide as Hnil; [intros [= _ <-]; by subst |].
    intros ([c1 d1] & starts & _ & Hr)%sbind_Ok.
    apply sbind_Ok in Hr as ([c2 d2] & t & _ & Hr). apply sbind_Ok in Hr as ([c3 d3] & u & _ & Hr).
    apply sbind_Ok in Hr as ([c4 d4] & sc & _ & Hr). apply sbind_Ok in Hr as ([c5 d5] & u5 & _ & Hr).
    apply sbind_Ok in Hr as ([c6 d6] & lg & Hlg & Hr). apply sbind_Ok in Hr as (s7 & u7 & _ & [= _ <-]).
    apply dev_Ok in Hlg. unfold batched_logits in Hlg. apply sbind_Ok in Hlg as (d7 & u8 & _ & Hlg).
    apply sbind_Ok in Hlg as (d8 & ls & Hls & Hlg). apply sbind_Ok in Hlg as (d9 & u9 & _ & [= _ <-]).
    apply smapM_length in Hls. by rewrite Hls, boundaries_length, length_fmap.
Qed.

Lemma paged_engine_laws E : @PagedEngineLaws D (paged_engine E).
Proof.
  split. intros ids ps h c e c' e' r Hr Hc Hh. pose proof (forward_paged_moved from_f16 E ids ps h c e Hc) as Hm.
  change (Engine.forward_paged from_f16 E ids ps h (c, e) = ((c', e'), r)) in Hr.
  rewrite Hr in Hm. destruct Hm as (? & ? & Hs & Ho). split_and!; [done | done | by apply Hs |].
  intros h' Hne. apply Ho. by intros ->%list_elem_of_singleton.
Qed.
End instances.

(** ** The loops over the engine *)

Section composed.
Context {D : Type} `{KernelLaws D} `{!BackendLaws D}.
Variables (from_f16 : Z → f32) (ws : WeightStore) (layer_range : LayerRange) (eng : Engine).

(** The server with the batched forward pass leaks no blocks, on any device. *)
Corollary server_over_engine exp n (s s' : LoopState D) :
  rtc (loop_step (E := D) (H := batched_engine from_f16 ws layer_range) exp) s s' → server_inv n (scheduler s) (cache s) →
  owned (sequences (cache s')) ++ free_list (pool (cache s')) ≡ₚ seq 0 n ∧
  (active (scheduler s') = ∅ → num_free_blocks (cache s') = n).
Proof.
  intros Hr Hinv. pose proof (batched_engine_laws from_f16 ws layer_range) as Hlaws.
  by destruct (server_no_leak_Ok exp n s s' Hr Hinv) as (_ & ? & ?).
Qed.

(** Generation with the engine's [forward_paged] gives the cache back. *)
Corollary generate_over_engine exp random cancelled config msl prompt c (d : D) log c' d' log' r :
  tables_inv c →
  generate_with_cancel (H := paged_engine from_f16 eng) exp random cancelled config msl prompt (c, d, log) = ((c', d', log'), r) →
  r ≠ Panic → tables_inv c' ∧ sequences c' = sequences c ∧ num_free_blocks c' = num_free_blocks c.
Proof. pose proof (paged_engine_laws from_f16 eng) as Hlaws. apply generate_restores_cache_Ok. Qed.
End composed.
