(* ===== verification/Worker.v ===== *)
(** * The worker ([bins/fracture-worker-cuda/src/main.rs])

    A worker holds a range of the model's layers and serves one coordinator: it
    opens and closes sequences, runs forward passes over them and takes new layer
    ranges.  This file models its state, the handlers of the serve loop, the
    router task that answers heartbeats, and what a lost connection leads to.

    The handlers run on the worker and its device; [Err] is an error that [main]
    returns, so the process ends.  The bytes of the model file are a parameter. *)

From stdpp Require Import pretty.
From S2P Require Import Prelude F32 Frame Connection TensorWire LayerScheduler Registry DistPipeline Rebalance Election.
From S2P Require Import Core Backend Kernels BlockTables PagedCache TurboQuant QuantizedCache KvCache CacheIface Gguf WeightStore Transformer Engine Contiguous Batched Pipeline LoopEngines.

(** ** Messages ([crates/fracture-protocol/src/messages.rs]) *)

Record HeartbeatPayload := { hb_timestamp_ns : Z; hb_nonce : Z }.
Record LeaveIntentPayload := { reason : string }.
Record VictoryPayload := { v_leader_id : string; v_term : Z; v_coordinator_addr : string }.
Inductive NodeRole := RCoordinator | RWorker | RStandby.
Record PeerInfo := {
  pi_node_id : string; pi_address : string; pi_election_priority : Z; pi_coordinator_capable : bool; pi_role : NodeRole
}.
Record ClusterManifestPayload := { cm_version : Z; cm_term : Z; cm_nodes : list PeerInfo }.
Record ReRegisterPayload := {
  rr_node_id : string; rr_gpu_model : string; rr_gpu_memory_total : Z; rr_gpu_memory_available : Z;
  rr_compute_capability : Z * Z; rr_decode_ms_per_layer : f32; rr_prefill_ms_per_layer_128 : f32;
  current_layer_start : option Z; current_layer_end : option Z; active_cache_seq_ids : list Z
}.
Record WhoIsCoordinatorPayload := { who_node_id : string }.
Record WhoIsCoordinatorResponsePayload := {
  who_coordinator_addr : option string; who_term : Z; who_manifest : option ClusterManifestPayload
}.

#[export] Instance NodeRole_eq_dec : EqDecision NodeRole.
Proof. solve_decision. Defined.

(** [FractureError::to_string] *)
Definition error_text (e : FractureError) : string :=
  match e with
  | Prelude.Backend m => "backend error: " +:+ m
  | Prelude.OutOfMemory requested available =>
      "out of device memory: requested " +:+ pretty requested +:+ " bytes, available " +:+ pretty available +:+ " bytes"
  | InvalidShape m => "invalid tensor shape: " +:+ m
  | TensorNotFound m => "tensor not found: " +:+ m
  | ModelConfigError m => "model config error: " +:+ m
  | GgufParse m => "GGUF parse error: " +:+ m
  | WeightLoad m => "weight loading error: " +:+ m
  | Prelude.KvCache m => "KV cache error: " +:+ m
  | Generation m => "generation error: " +:+ m
  | Tokenizer m => "tokenizer error: " +:+ m
  | Server m => "server error: " +:+ m
  | Prelude.Pipeline m => "pipeline error: " +:+ m
  | Protocol m => "protocol error: " +:+ m
  | UnsupportedDType m => "unsupported dtype: " +:+ m
  | Io m => "io error: " +:+ m
  end.

(** ** State *)

Inductive WorkerState := Starting | Connected | Ready | DisconnectedStandby | Exited.

#[export] Instance WorkerState_eq_dec : EqDecision WorkerState.
Proof. solve_decision. Defined.

Record WorkerStats := { st_gpu_memory_used : Z; st_active_sequences : Z; st_free_blocks : Z }.
Definition stats_new : WorkerStats := {| st_gpu_memory_used := 0; st_active_sequences := 0; st_free_blocks := 0 |}.

(** The caches and the two maps from sequence ids to their handles. *)
Record Caches := {
  cache : KvCacheManager;
  quantized_cache : option QuantizedKvCacheManager;
  paged_cache : option PagedKvCacheManager;
  handles : gmap Z Z;
  paged_handles : gmap Z Z
}.

(** What the worker knows of the cluster. *)
Record ClusterView := {
  current_term : Z; cluster_manifest : option ClusterManifestPayload; election_agent : option ElectionAgent
}.

Record Worker := {
  wk_node : ComputeNodeImpl;
  wk_caches : Caches;
  wk_stats : WorkerStats;
  wk_state : WorkerState;
  wk_view : ClusterView;
  wk_leave_requested : bool;
  wk_writer : FramedWriter
}.

(** What does not change: the arguments of the process and the calibration. *)
Record WorkerConfig := {
  wc_node_id : string;
  coordinator_capable : bool;
  tq_config : option TurboQuantConfig;
  decode_ms : f32;
  prefill_ms : f32
}.

(** What the backend reports of its device. *)
Class DeviceInfo (D : Type) := { device_name : string; total_memory : D → Z; available_memory : D → Z }.

Inductive flow := Continue | Break.

#[export] Instance flow_eq_dec : EqDecision flow.
Proof. solve_decision. Defined.

(** ** Small state programs *)

Definition gets {S A : Type} (f : S → A) : st S A := λ s, (s, Ok (f s)).
Definition modify {S : Type} (f : S → S) : st S unit := λ s, (f s, Ok ()).
(** [match m { Ok(a) => .., Err(e) => .. }] *)
Definition attempt {S A : Type} (m : st S A) : st S (A + FractureError) := λ s,
  match m s with
  | (s', Ok a) => (s', Ok (inl a))
  | (s', Err e) => (s', Ok (inr e))
  | (s', Panic) => (s', Panic)
  end.
(** [let _ = m] *)
Definition ignore {S A : Type} (m : st S A) : st S unit := do! _ := attempt m in sret ().
(** [m] ends the loop, or the rest of the body follows. *)
Definition and_then {S : Type} (m k : st S flow) : st S flow := do! f := m in match f with Continue => k | Break => sret Break end.

Definition set_caches' (f : Caches → Caches) (w : Worker) : Worker :=
  {| wk_node := wk_node w; wk_caches := f (wk_caches w); wk_stats := wk_stats w; wk_state := wk_state w; wk_view := wk_view w;
     wk_leave_requested := wk_leave_requested w; wk_writer := wk_writer w |}.
Definition set_stats (f : WorkerStats → WorkerStats) (w : Worker) : Worker :=
  {| wk_node := wk_node w; wk_caches := wk_caches w; wk_stats := f (wk_stats w); wk_state := wk_state w; wk_view := wk_view w;
     wk_leave_requested := wk_leave_requested w; wk_writer := wk_writer w |}.
Definition set_wstate (s : WorkerState) (w : Worker) : Worker :=
  {| wk_node := wk_node w; wk_caches := wk_caches w; wk_stats := wk_stats w; wk_state := s; wk_view := wk_view w;
     wk_leave_requested := wk_leave_requested w; wk_writer := wk_writer w |}.
Definition set_view (v : ClusterView) (w : Worker) : Worker :=
  {| wk_node := wk_node w; wk_caches := wk_caches w; wk_stats := wk_stats w; wk_state := wk_state w; wk_view := v;
     wk_leave_requested := wk_leave_requested w; wk_writer := wk_writer w |}.
Definition set_leave (b : bool) (w : Worker) : Worker :=
  {| wk_node := wk_node w; wk_caches := wk_caches w; wk_stats := wk_stats w; wk_state := wk_state w; wk_view := wk_view w;
     wk_leave_requested := b; wk_writer := wk_writer w |}.
Definition set_wk_writer (wr : FramedWriter) (w : Worker) : Worker :=
  {| wk_node := wk_node w; wk_caches := wk_caches w; wk_stats := wk_stats w; wk_state := wk_state w; wk_view := wk_view w;
     wk_leave_requested := wk_leave_requested w; wk_writer := wr |}.
Definition set_node (n : ComputeNodeImpl) (w : Worker) : Worker :=
  {| wk_node := n; wk_caches := wk_caches w; wk_stats := wk_stats w; wk_state := wk_state w; wk_view := wk_view w;
     wk_leave_requested := wk_leave_requested w; wk_writer := wk_writer w |}.

Definition set_cache (c : KvCacheManager) (cs : Caches) : Caches :=
  {| cache := c; quantized_cache := quantized_cache cs; paged_cache := paged_cache cs; handles := handles cs; paged_handles := paged_handles cs |}.
Definition set_paged (q : option QuantizedKvCacheManager) (p : option PagedKvCacheManager) (cs : Caches) : Caches :=
  {| cache := cache cs; quantized_cache := q; paged_cache := p; handles := handles cs; paged_handles := paged_handles cs |}.
Definition set_handles (m : gmap Z Z) (cs : Caches) : Caches :=
  {| cache := cache cs; quantized_cache := quantized_cache cs; paged_cache := paged_cache cs; handles := m; paged_handles := paged_handles cs |}.
Definition set_paged_handles (m : gmap Z Z) (cs : Caches) : Caches :=
  {| cache := cache cs; quantized_cache := quantized_cache cs; paged_cache := paged_cache cs; handles := handles cs; paged_handles := m |}.

(** ** Forward passes *)

(** [iter().flat_map(|f| f.to_le_bytes()).collect()] *)
Definition logit_bytes (l : list f32) : list Z := mjoin ((λ f, to_le_bytes 4 (f32_to_bits f)) <$> l).

Section forward.
Context {D : Type} `{KernelOps D} `{TimerOps D}.
Variable from_f16 : Z → f32.

(** Activations from the wire to the device and back. *)
Definition upload_activations (th : TensorWireHeader) (data : list Z) : st D DeviceTensor :=
  do! dtype := slift (wire_to_dtype (wdtype th)) in
  alloc_fill (wshape th) dtype data.
Definition download_activations (t : DeviceTensor) : st D (TensorWireHeader * list Z) :=
  do! n := slift (size_bytes t) in
  do! host_buf := b_copy_to_host t (Z.to_nat n) in
  do! _ := b_synchronize in
  let th := make_header (shape t) (dtype t) (Z.of_nat (length host_buf)) in
  do! _ := b_free t in
  sret (th, host_buf).

Context `{Bincode ForwardPayload} `{Bincode BatchedForwardPayload}.

Definition handle_forward (header : FrameHeader) (payload : list Z) (node : ComputeNodeImpl) (handles : gmap Z Z)
    : st (KvCacheManager * D) ForwardResultPayload :=
  do! req := slift (deserialize_payload (P := ForwardPayload) payload) in
  match handles !! seq_id header with
  | None => serr (Prelude.Pipeline "no cache allocated (missing CacheAlloc)")
  | Some handle =>
      do! input :=
        match DistPipeline.input req with
        | DistPipeline.TokenIds ids => sret (Engine.TokenIds ids (DistPipeline.positions req))
        | InActivations th data =>
            do! tensor := dev (upload_activations th data) in
            sret (Engine.Activations tensor (DistPipeline.positions req))
        end in
      do! output := cn_forward from_f16 node input handle false in
      match output.1 with
      | Engine.Logits logits => sret {| DistPipeline.output := DistPipeline.Logits (logit_bytes logits) |}
      | Engine.OutActivations tensor =>
          do! td := dev (download_activations tensor) in
          sret {| DistPipeline.output := DistPipeline.OutActivations td.1 td.2 |}
      end
  end.

(** The slices of a batch, without their tokens. *)
Definition batch_slice (paged_handles : gmap Z Z) (meta : SequenceMetadataWire) : result SequenceSlice :=
  match paged_handles !! smw_seq_id meta with
  | None => Err (Prelude.Pipeline "seq has no paged cache (missing CacheAlloc)")
  | Some h => Ok {| sl_handle := h; sl_token_ids := []; sl_positions := smw_positions meta |}
  end.

(** [sequences[i].token_ids = ids[offset..offset + n].to_vec()] for all [i] *)
Fixpoint distribute_ids (ids : list Z) (offset : nat) (metas : list SequenceMetadataWire) (sequences : list SequenceSlice)
    : result (list SequenceSlice) :=
  match metas, sequences with
  | meta :: metas', s :: sequences' =>
      let n := Z.to_nat (num_tokens meta) in
      let? toks := slice offset (offset + n) ids in
      let? rest := distribute_ids ids (offset + n) metas' sequences' in
      Ok ({| sl_handle := sl_handle s; sl_token_ids := toks; sl_positions := sl_positions s |} :: rest)
  | [], _ => Ok sequences
  | _ :: _, [] => Panic
  end.

Context {C : Type} `{!PagedCacheOps C D}.

Definition handle_batched_forward (payload : list Z) (node : ComputeNodeImpl) (paged_handles : gmap Z Z)
    : st (C * D) BatchedForwardResultPayload :=
  do! req := slift (deserialize_payload (P := BatchedForwardPayload) payload) in
  let metas := bf_sequences req in
  do! sequences := slift (rmapM (batch_slice paged_handles) metas) in
  do! si :=
    match bf_input req with
    | DistPipeline.TokenIds ids =>
        do! sequences := slift (distribute_ids ids 0 metas sequences) in sret (sequences, None)
    | InActivations th data =>
        do! tensor := dev (upload_activations th data) in sret (sequences, Some tensor)
    end in
  do! output := batched_forward_node from_f16 (weights (cn_engine node)) (node_config node) si.1 si.2 in
  let n := length metas in
  match output with
  | Engine.Logits flat_logits =>
      let vocab_size := vocab_size (ws_config (weights (cn_engine node))) in
      do! offs := slift (rmapM (λ i, Ok (Z.of_nat i) *! Ok vocab_size *! Ok 4%Z) (seq 0 n)) in
      sret {| bf_output := DistPipeline.Logits (logit_bytes flat_logits); num_sequences := Z.of_nat n; logit_offsets := offs |}
  | Engine.OutActivations tensor =>
      do! td := dev (download_activations tensor) in
      sret {| bf_output := DistPipeline.OutActivations td.1 td.2; num_sequences := Z.of_nat n; logit_offsets := [] |}
  end.
End forward.

(** ** Cache dispatch

    [paged_alloc!], [paged_free!], [paged_free_blocks!] and [destroy_paged_caches!]
    go to the quantized cache if there is one. *)

Section dispatch.
Context {D : Type} `{BackendOps D}.

Definition on_contiguous {A : Type} (m : st (KvCacheManager * D) A) : st (Caches * D) A := λ '(cs, d),
  let '((c, d), r) := m (cache cs, d) in ((set_cache c cs, d), r).

(** A call on whichever paged cache is active. *)
Definition on_paged {A : Type} (mq : st (QuantizedKvCacheManager * D) A) (mp : st (PagedKvCacheManager * D) A) : st (Caches * D) A :=
  λ '(cs, d),
  match quantized_cache cs with
  | Some qc => let '((qc, d), r) := mq (qc, d) in ((set_paged (Some qc) (paged_cache cs) cs, d), r)
  | None =>
      match paged_cache cs with
      | Some pc => let '((pc, d), r) := mp (pc, d) in ((set_paged None (Some pc) cs, d), r)
      | None => ((cs, d), Panic)
      end
  end.

Definition host {C A : Type} (m : st C A) : st (C * D) A := λ '(c, d), let '(c, r) := m c in ((c, d), r).

Definition paged_alloc' : st (Caches * D) Z := on_paged (host q_alloc) (host paged_alloc).
Definition paged_free' (h : Z) : st (Caches * D) unit := on_paged (host (q_free h)) (host (paged_free h)).
Definition paged_free_blocks (cs : Caches) : result Z :=
  match quantized_cache cs, paged_cache cs with
  | Some qc, _ => Ok (Z.of_nat (num_free_blocks (q_tables qc)))
  | None, Some pc => Ok (Z.of_nat (num_free_blocks pc))
  | None, None => Panic
  end.
Definition destroy_paged_caches (ho : HashOrder) : st (Caches * D) unit := λ '(cs, d),
  let m := do! _ := match quantized_cache cs with Some qc => ignore (q_destroy ho qc) | None => sret () end in
           match paged_cache cs with Some pc => ignore (pool_destroy (pool pc)) | None => sret () end in
  let '(d, r) := m d in ((cs, d), r).

(** [for (_, h) in handles.drain() { let _ = cache.free(h, ..); }] and the same
    for the paged handles *)
Definition drain_handles (ho : HashOrder) : st (Caches * D) unit :=
  do! hs := gets (handles ∘ fst) in
  do! _ := modify (λ '(cs, d), (set_handles ∅ cs, d)) in
  siter (λ sh, ignore (on_contiguous (kv_free sh.2))) (hm_iter ho hs).
Definition drain_paged_handles (ho : HashOrder) : st (Caches * D) unit :=
  do! hs := gets (paged_handles ∘ fst) in
  do! _ := modify (λ '(cs, d), (set_paged_handles ∅ cs, d)) in
  siter (λ sh, ignore (paged_free' sh.2)) (hm_iter ho hs).
Definition release_caches (ho : HashOrder) : st (Caches * D) unit :=
  do! _ := drain_handles ho in
  do! _ := drain_paged_handles ho in
  destroy_paged_caches ho.
End dispatch.

(** ** The serve loop *)

Section serve.
Context {D : Type} `{KernelOps D} `{TimerOps D} `{DeviceInfo D}.
Variable crc32c : list Z → Z.
Variables (from_f16 : Z → f32) (f16_from_f32 : f32 → Z) (bf16_to_f32 : Z → f32) (exp ln cos sin : f64 → f64).
Variable ho : HashOrder.
Variable model_file : list Z.
Variable cfg : WorkerConfig.
Context `{Bincode ForwardPayload} `{Bincode ForwardResultPayload} `{Bincode BatchedForwardPayload}
  `{Bincode BatchedForwardResultPayload} `{Bincode ErrorPayload} `{Bincode RegisterAckPayload} `{Bincode VictoryPayload}
  `{Bincode ClusterManifestPayload} `{Bincode LeaveIntentPayload} `{Bincode HeartbeatPayload} `{Bincode HeartbeatAck}
  `{Bincode ReRegisterPayload} `{Bincode WhoIsCoordinatorPayload} `{Bincode WhoIsCoordinatorResponsePayload}.

Definition in_caches {A : Type} (m : st (Caches * D) A) : st (Worker * D) A := λ '(w, d),
  let '((cs, d), r) := m (wk_caches w, d) in ((set_caches' (λ _, cs) w, d), r).
Definition in_device {A : Type} (m : st D A) : st (Worker * D) A := λ '(w, d), let '(d, r) := m d in ((w, d), r).
Definition on_worker (f : Worker → Worker) : st (Worker * D) unit := λ '(w, d), ((f w, d), Ok ()).
Definition on_handles (f : gmap Z Z → gmap Z Z) (w : Worker) : Worker := set_caches' (λ cs, set_handles (f (handles cs)) cs) w.
Definition on_paged_handles (f : gmap Z Z → gmap Z Z) (w : Worker) : Worker :=
  set_caches' (λ cs, set_paged_handles (f (paged_handles cs)) cs) w.

(** [send_or_standby!], [send_empty_or_standby!] *)
Definition or_standby (m : st FramedWriter unit) : st (Worker * D) flow := λ '(w, d),
  let '(wr, r) := m (wk_writer w) in
  let w := set_wk_writer wr w in
  match r with
  | Ok _ => ((w, d), Ok Continue)
  | Err _ => ((set_wstate DisconnectedStandby w, d), Ok Break)
  | Panic => ((w, d), Panic)
  end.
Definition send_or_standby {P : Type} `{Bincode P} (mt : MessageType) (sid : Z) (payload : P) : st (Worker * D) flow :=
  or_standby (send crc32c serialize mt sid payload).
Definition send_empty_or_standby (mt : MessageType) (sid : Z) : st (Worker * D) flow := or_standby (send_empty crc32c mt sid).
Definition error_reply (sid : Z) (code : ErrorCode) (msg : string) : st (Worker * D) flow :=
  send_or_standby ErrorMsg sid {| error_code := code; message := msg |}.

(** The stores to the statistics. *)
Definition store_counts : st (Worker * D) unit := λ '(w, d),
  match paged_free_blocks (wk_caches w) with
  | Ok n =>
      ((set_stats (λ s, {| st_gpu_memory_used := st_gpu_memory_used s;
                           st_active_sequences := wrap 32 (Z.of_nat (size (handles (wk_caches w)))); st_free_blocks := wrap 32 n |}) w, d), Ok ())
  | Err e => ((w, d), Err e)
  | Panic => ((w, d), Panic)
  end.
Definition store_memory : st (Worker * D) unit := λ '(w, d),
  match usub (total_memory d) (available_memory d) with
  | Ok n =>
      ((set_stats (λ s, {| st_gpu_memory_used := n; st_active_sequences := st_active_sequences s; st_free_blocks := st_free_blocks s |}) w, d),
       Ok ())
  | Err e => ((w, d), Err e)
  | Panic => ((w, d), Panic)
  end.
Definition stored_all : st (Worker * D) flow := do! _ := store_counts in do! _ := store_memory in sret Continue.
Definition stored_counts : st (Worker * D) flow := do! _ := store_counts in sret Continue.

(** [MessageType::CacheAlloc] *)
Definition on_cache_alloc (sid : Z) : st (Worker * D) flow :=
  do! hs := gets (handles ∘ wk_caches ∘ fst) in
  match hs !! sid with
  | None =>
      do! r := attempt (in_caches (on_contiguous kv_alloc)) in
      match r with
      | inl h =>
          do! _ := on_worker (on_handles <[sid := h]>) in
          do! r := attempt (in_caches paged_alloc') in
          match r with
          | inl ph =>
              do! _ := on_worker (on_paged_handles <[sid := ph]>) in
              and_then (send_empty_or_standby CacheAllocAck sid) stored_all
          | inr e =>
              do! _ := on_worker (on_handles (delete sid)) in
              do! _ := ignore (in_caches (on_contiguous (kv_free h))) in
              and_then (error_reply sid DistPipeline.OutOfMemory ("CacheAlloc failed (paged): " +:+ error_text e)) stored_counts
          end
      | inr e => and_then (error_reply sid DistPipeline.OutOfMemory ("CacheAlloc failed: " +:+ error_text e)) stored_all
      end
  | Some _ => and_then (error_reply sid InvalidSequence "CacheAlloc: cache already allocated") stored_all
  end.

(** [MessageType::CacheFree] *)
Definition on_cache_free (sid : Z) : st (Worker * D) flow :=
  do! cs := gets (wk_caches ∘ fst) in
  match handles cs !! sid with
  | Some h =>
      do! _ := on_worker (on_handles (delete sid)) in
      do! _ := in_caches (on_contiguous (kv_free h)) in
      do! _ := match paged_handles cs !! sid with
               | Some ph => do! _ := on_worker (on_paged_handles (delete sid)) in in_caches (paged_free' ph)
               | None => sret ()
               end in
      stored_counts
  | None => and_then (error_reply sid InvalidSequence "CacheFree: no cache allocated") stored_counts
  end.

(** [rebuild_paged_caches!] and the start of the worker *)
Definition scratch_reserve : Z := (2 * 1024 * 1024 * 1024)%Z.
Definition new_paged_caches (r : RegisterAckPayload) : st D (option QuantizedKvCacheManager * option PagedKvCacheManager) := λ d,
  let nl := range_len {| rstart := layer_start r; rend := layer_end r |} in
  let nkv := num_kv_heads (ack_model_config r) in
  let hd := head_dim (ack_model_config r) in
  let gpu_avail := available_memory d in
  match tq_config cfg with
  | Some c =>
      (do! n := slift (tq_compute_num_blocks c gpu_avail scratch_reserve nl nkv hd) in
       do! qc := q_new exp ln cos sin ho (Z.to_nat n) (Z.to_nat nl) nkv hd 512 c in
       sret (Some qc, None)) d
  | None =>
      (do! n := slift (compute_num_blocks gpu_avail scratch_reserve nl nkv hd) in
       do! pc := paged_new (Z.to_nat n) (Z.to_nat nl) nkv hd in
       sret (None, Some pc)) d
  end.

(** [WeightStore::load], [NodeConfig::new], [ComputeNodeImpl::new] *)
Definition new_node (r : RegisterAckPayload) : st D ComputeNodeImpl :=
  let range := {| rstart := layer_start r; rend := layer_end r |} in
  do! gguf := slift (parse_header_bytes model_file) in
  do! ws := load f16_from_f32 bf16_to_f32 gguf model_file (Some range) in
  do! nc := slift (NodeConfig_new range (ack_total_layers r)) in
  sret {| cn_engine := {| weights := ws; e_layer_range := range |}; node_config := nc |}.

Definition new_cache (r : RegisterAckPayload) : KvCacheManager :=
  kv_new (Z.to_nat (range_len {| rstart := layer_start r; rend := layer_end r |})) (num_kv_heads (ack_model_config r))
    (head_dim (ack_model_config r)) (Z.to_nat (ack_max_seq_len r)).

(** The body of a reconfiguration, in the serve loop and after a reconnection. *)
Definition reconfigure (r : RegisterAckPayload) : st (Worker * D) unit :=
  do! _ := in_caches (release_caches ho) in
  do! node := in_device (new_node r) in
  do! _ := on_worker (set_node node) in
  do! _ := on_worker (set_caches' (set_cache (new_cache r))) in
  do! qp := in_device (new_paged_caches r) in
  do! _ := on_worker (set_caches' (set_paged qp.1 qp.2)) in
  do! _ := store_counts in
  store_memory.

(** [MessageType::Reconfigure] *)
Definition on_reconfigure (payload : list Z) : st (Worker * D) flow :=
  do! r := slift (deserialize_payload (P := RegisterAckPayload) payload) in
  do! _ := reconfigure r in
  send_empty_or_standby WorkerReady 0.

(** [MessageType::Shutdown] *)
Definition on_shutdown : st (Worker * D) flow :=
  do! _ := in_caches (release_caches ho) in
  do! _ := on_worker (set_wstate Exited) in
  sret Break.

(** [MessageType::Forward], [MessageType::BatchedForward] *)
Definition on_forward (header : FrameHeader) (payload : list Z) : st (Worker * D) flow :=
  do! w := gets fst in
  do! r := attempt (in_caches (on_contiguous (handle_forward from_f16 header payload (wk_node w) (handles (wk_caches w))))) in
  match r with
  | inl res => send_or_standby ForwardResult (seq_id header) res
  | inr e => error_reply (seq_id header) Internal (error_text e)
  end.
Definition on_batched_forward (header : FrameHeader) (payload : list Z) : st (Worker * D) flow :=
  do! w := gets fst in
  do! r := attempt (in_caches (on_paged (handle_batched_forward from_f16 payload (wk_node w) (paged_handles (wk_caches w)))
                                        (handle_batched_forward from_f16 payload (wk_node w) (paged_handles (wk_caches w))))) in
  match r with
  | inl res => send_or_standby BatchedForwardResult (seq_id header) res
  | inr e => error_reply (seq_id header) Internal (error_text e)
  end.

(** [MessageType::Victory] *)
Definition victory_view (v : VictoryPayload) (cv : ClusterView) : ClusterView :=
  if (current_term cv <? v_term v)%Z then
    {| current_term := v_term v; cluster_manifest := cluster_manifest cv;
       election_agent := (λ a, (Election.on_victory a (v_leader_id v) (v_term v) (v_coordinator_addr v)).1) <$> election_agent cv |}
  else cv.
Definition on_victory_msg (payload : list Z) : st (Worker * D) flow :=
  do! r := attempt (slift (deserialize_payload (P := VictoryPayload) payload)) in
  match r with
  | inl v => do! _ := on_worker (λ w, set_view (victory_view v (wk_view w)) w) in sret Continue
  | inr _ => sret Continue
  end.

(** [MessageType::ClusterManifest] *)
Definition manifest_view (m : ClusterManifestPayload) (cv : ClusterView) : ClusterView :=
  let dominated := match cluster_manifest cv with Some old => (cm_version m <=? cm_version old)%Z | None => false end in
  if dominated then cv
  else {| current_term := if (current_term cv <? cm_term m)%Z then cm_term m else current_term cv;
          cluster_manifest := Some m; election_agent := election_agent cv |}.
Definition on_manifest (payload : list Z) : st (Worker * D) flow :=
  do! r := attempt (slift (deserialize_payload (P := ClusterManifestPayload) payload)) in
  match r with
  | inl m => do! _ := on_worker (λ w, set_view (manifest_view m (wk_view w)) w) in sret Continue
  | inr _ => sret Continue
  end.

(** The [match] of the serve loop. *)
Definition handle_message (hp : FrameHeader * list Z) : st (Worker * D) flow :=
  let '(header, payload) := hp in
  let sid := seq_id header in
  match msg_type header with
  | Forward => on_forward header payload
  | CacheAlloc => on_cache_alloc sid
  | CacheFree => on_cache_free sid
  | Reconfigure => on_reconfigure payload
  | Shutdown => on_shutdown
  | BatchedForward => on_batched_forward header payload
  | Victory => on_victory_msg payload
  | ClusterManifest => on_manifest payload
  | _ => error_reply sid ProtocolViolation "unexpected message type"
  end.

(** A request to leave, at the top of the loop. *)
Definition check_leave : st (Worker * D) flow :=
  do! w := gets fst in
  if wk_leave_requested w then
    and_then (send_or_standby Frame.LeaveIntent 0 {| reason := "SIGTERM received" |})
      (do! _ := on_worker (set_leave false) in sret Continue)
  else sret Continue.

(** The serve loop up to [msg_rx.recv()], and from there to its end; [None] when
    the router has closed the channel. *)
Definition loop_top : st (Worker * D) flow :=
  do! w := gets fst in
  if negb (bool_decide (wk_state w = Ready)) then sret Break else check_leave.
Definition loop_recv (frame : option (FrameHeader * list Z)) : st (Worker * D) flow :=
  match frame with
  | None => do! _ := on_worker (set_wstate DisconnectedStandby) in sret Break
  | Some hp => handle_message hp
  end.
End serve.

(** ** What a worker has open *)

(** [hs] names each of the open handles [o] once. *)
Definition matched (hs : gmap Z Z) (o : Z → Prop) : Prop :=
  (∀ s s' h, hs !! s = Some h → hs !! s' = Some h → s = s') ∧ ∀ h, o h ↔ ∃ s, hs !! s = Some h.

(** The sequences of the contiguous cache and of the active paged cache. *)
Definition opened (cs : Caches) (h : Z) : Prop := is_Some (caches (cache cs) !! h).
Definition paged_opened (cs : Caches) (h : Z) : Prop :=
  match quantized_cache cs, paged_cache cs with
  | Some qc, None => is_Some (sequences (q_tables qc) !! h)
  | None, Some pc => is_Some (sequences pc !! h)
  | _, _ => False
  end.
Definition paged_wf (cs : Caches) : Prop :=
  match quantized_cache cs, paged_cache cs with
  | Some qc, None => tables_inv (q_tables qc)
  | None, Some pc => tables_inv pc
  | _, _ => False
  end.

(** The two maps have the same sequence ids, and every open sequence of either
    cache belongs to exactly one of them. *)
Record caches_ok (cs : Caches) : Prop := {
  co_ids : ∀ h, opened cs h → (h < kv_next_id (cache cs))%Z;
  co_paged : paged_wf cs;
  co_handles : matched (handles cs) (opened cs);
  co_paged_handles : matched (paged_handles cs) (paged_opened cs);
  co_same : dom (paged_handles cs) = dom (handles cs)
}.

Lemma matched_insert hs o o' s h :
  matched hs o → hs !! s = None → ¬ o h → (∀ x, o' x ↔ x = h ∨ o x) → matched (<[s := h]> hs) o'.
Proof.
  intros [Hinj Ho] Hs Hh Ho'. split.
  - intros s1 s2 x [[<- <-]|[N1 H1]]%lookup_insert_Some [[<- E]|[N2 H2]]%lookup_insert_Some; [done | | | by eapply Hinj].
    + destruct Hh. apply Ho. eauto.
    + subst x. destruct Hh. apply Ho. eauto.
  - intros x. rewrite Ho', Ho. split.
    + intros [->|[s' Hs']]; [exists s; by rewrite lookup_insert_eq |]. exists s'. rewrite lookup_insert_ne; [done |]. congruence.
    + intros [s' [[_ <-]|[_ Hs']]%lookup_insert_Some]; eauto.
Qed.

Lemma matched_delete hs o o' s h :
  matched hs o → hs !! s = Some h → (∀ x, o' x ↔ x ≠ h ∧ o x) → matched (delete s hs) o'.
Proof.
  intros [Hinj Ho] Hs Ho'. split.
  - intros s1 s2 x [_ H1]%lookup_delete_Some [_ H2]%lookup_delete_Some. by eapply Hinj.
  - intros x. rewrite Ho', Ho. split.
    + intros [Hne [s' Hs']]. exists s'. rewrite lookup_delete_ne; [done |]. congruence.
    + intros [s' [Hne Hs']%lookup_delete_Some]. split; [| eauto]. intros ->. destruct Hne. by eapply Hinj.
Qed.

Lemma matched_ext hs o o' : matched hs o → (∀ x, o' x ↔ o x) → matched hs o'.
Proof. intros [Hi Ho] Hx. split; [done |]. intros h. by rewrite Hx. Qed.

Lemma matched_empty (o : Z → Prop) : (∀ x, ¬ o x) → matched ∅ o.
Proof.
  intros Ho. split; [intros ???; by rewrite lookup_empty |]. intros h. split; [by intros ?%Ho |]. intros [s Hs]. by rewrite lookup_empty in Hs.
Qed.

Section theory.
Context {P : Type} `{BlockStackLaws P}.

Lemma tables_alloc_cases (m m' : CacheTables P) r :
  tables_inv m → tables_alloc m = (m', r) →
  tables_inv m' ∧ match r with
                  | Ok h => sequences m !! h = None ∧ ∃ s, sequences m' = <[h := s]> (sequences m)
                  | _ => sequences m' = sequences m
                  end.
Proof.
  intros Hinv Ha. split; [pose proof (tables_alloc_inv m Hinv) as Hi; by rewrite Ha in Hi |].
  unfold tables_alloc in Ha. destruct (uadd _ _); [| by injection Ha as <- <-..].
  destruct (bs_alloc_block _) as [p [b|e|]]; injection Ha as <- <-; [| done..]. split; [| eauto].
  destruct (sequences m !! next_id m) as [s|] eqn:E; [| done]. apply (inv_ids m Hinv) in E. lia.
Qed.
End theory.

(** ** The cache operations *)

Section caches.
Context {D : Type} `{BackendOps D}.
Implicit Types cs : Caches.
Implicit Types d : D.

Definition ids_below (c : KvCacheManager) : Prop := ∀ h, is_Some (caches c !! h) → (h < kv_next_id c)%Z.

Lemma contiguous_alloc cs d cs' d' r :
  ids_below (cache cs) → on_contiguous kv_alloc (cs, d) = ((cs', d'), r) →
  ∃ c, cs' = set_cache c cs ∧ ids_below c ∧
    match r with
    | Ok h => ¬ opened cs h ∧ ∀ x, is_Some (caches c !! x) ↔ x = h ∨ opened cs x
    | _ => ∀ x, is_Some (caches c !! x) ↔ opened cs x
    end.
Proof.
  intros Hids. unfold on_contiguous, kv_alloc. destruct (uadd (kv_next_id (cache cs)) 1) as [n| |] eqn:En.
  2,3: intros [= <- <- <-]; by eexists.
  apply checked_inv in En as [-> _].
  assert (∀ c, caches c = caches (cache cs) → kv_next_id c = (kv_next_id (cache cs) + 1)%Z → ids_below c) as Hup.
  { intros c E1 E2 h Hh. rewrite E1 in Hh. apply Hids in Hh. lia. }
  destruct (smapM _ _ d) as [d1 [layers|e|]]; intros [= <- <- <-]; eexists; (split; [reflexivity |]).
  2,3: split; [by apply Hup | done].
  split.
  - intros h Hh. simpl in Hh |- *. rewrite lookup_insert_is_Some' in Hh. destruct Hh as [<-|Hh]; [lia |]. apply Hids in Hh. lia.
  - split; [intros Hh; apply Hids in Hh; lia |]. intros x. simpl. rewrite lookup_insert_is_Some'. naive_solver.
Qed.

Lemma contiguous_free cs d cs' d' h r :
  opened cs h → on_contiguous (kv_free h) (cs, d) = ((cs', d'), r) →
  ∃ c, cs' = set_cache c cs ∧ kv_next_id c = kv_next_id (cache cs) ∧ ∀ x, is_Some (caches c !! x) ↔ x ≠ h ∧ opened cs x.
Proof.
  intros [s Hs]. unfold on_contiguous, kv_free, get_cache. rewrite Hs. destruct (free_each _ d) as [d1 r1].
  intros [= <- <- <-]. eexists. split; [reflexivity |]. split; [done |]. intros x. simpl. rewrite lookup_delete_is_Some. naive_solver.
Qed.

(** The paged caches change through [f], on whichever is active. *)
Lemma paged_alloc_spec cs d cs' d' r :
  paged_wf cs → paged_alloc' (cs, d) = ((cs', d'), r) →
  d' = d ∧ (∃ q p, cs' = set_paged q p cs) ∧ paged_wf cs' ∧
  match r with
  | Ok h => ¬ paged_opened cs h ∧ ∀ x, paged_opened cs' x ↔ x = h ∨ paged_opened cs x
  | _ => ∀ x, paged_opened cs' x ↔ paged_opened cs x
  end.
Proof.
  intros Hwf. unfold paged_alloc', on_paged, host, paged_wf, paged_opened in *.
  destruct (quantized_cache cs) as [qc|]; [destruct (paged_cache cs) as [pc|]; [done |] | destruct (paged_cache cs) as [pc|]; [| done]].
  - unfold q_alloc, on_tables. destruct (tables_alloc (q_tables qc)) as [m r1] eqn:Ha. intros [= <- <- <-].
    apply tables_alloc_cases in Ha as [Hi Hr]; [| done]. split_and!; [done | by eexists _, _ | done |]. cbn.
    destruct r1 as [h| |]; [| by rewrite Hr..]. destruct Hr as [Hn [s ->]]. split; [rewrite Hn; by intros [? ?] |].
    intros x. rewrite lookup_insert_is_Some'. naive_solver.
  - unfold paged_alloc. destruct (tables_alloc pc) as [m r1] eqn:Ha. intros [= <- <- <-].
    apply tables_alloc_cases in Ha as [Hi Hr]; [| done]. split_and!; [done | by eexists _, _ | done |]. cbn.
    destruct r1 as [h| |]; [| by rewrite Hr..]. destruct Hr as [Hn [s ->]]. split; [rewrite Hn; by intros [? ?] |].
    intros x. rewrite lookup_insert_is_Some'. naive_solver.
Qed.

Lemma paged_free_spec cs d h :
  paged_wf cs → paged_opened cs h →
  ∃ q p, paged_free' h (cs, d) = ((set_paged q p cs, d), Ok ()) ∧ paged_wf (set_paged q p cs) ∧
    ∀ x, paged_opened (set_paged q p cs) x ↔ x ≠ h ∧ paged_opened cs x.
Proof.
  intros Hwf Ho. unfold paged_free', on_paged, host, paged_wf, paged_opened in *.
  destruct (quantized_cache cs) as [qc|]; [destruct (paged_cache cs) as [pc|]; [done |] | destruct (paged_cache cs) as [pc|]; [| done]].
  - destruct Ho as [s Hs]. unfold q_free, on_tables. pose proof (tables_free_inv h _ Hwf) as Hi. revert Hi.
    rewrite (tables_free_spec h _ s Hwf Hs). intros Hi. eexists _, _. split; [reflexivity |]. split; [exact Hi |].
    intros x. cbn. rewrite lookup_delete_is_Some. naive_solver.
  - destruct Ho as [s Hs]. unfold paged_free. pose proof (tables_free_inv h _ Hwf) as Hi. revert Hi.
    rewrite (tables_free_spec h _ s Hwf Hs). intros Hi. eexists _, _. split; [reflexivity |]. split; [exact Hi |].
    intros x. cbn. rewrite lookup_delete_is_Some. naive_solver.
Qed.

(** ** Releasing everything *)

Lemma ignore_Ok {S A : Type} (m : st S A) s s' : ignore m s = (s', Ok ()) → (m s).1 = s' ∧ (m s).2 ≠ Panic.
Proof. unfold ignore, attempt, sbind, sret. destruct (m s) as [s1 [a| |]]; by intros [= <-]. Qed.

Lemma siter_cons_Ok {S A : Type} (f : A → st S unit) a l s s' :
  siter f (a :: l) s = (s', Ok ()) → ∃ s1, f a s = (s1, Ok ()) ∧ siter f l s1 = (s', Ok ()).
Proof. cbn [siter]. intros (s1 & [] & H1 & H2)%sbind_Ok. eauto. Qed.

Lemma drain_contiguous l cs d cs' d' :
  NoDup (l.*2 : list Z) → Forall (λ sh : Z * Z, opened cs sh.2) l →
  siter (λ sh, ignore (on_contiguous (kv_free sh.2))) l (cs, d) = ((cs', d'), Ok ()) →
  ∃ c, cs' = set_cache c cs ∧ kv_next_id c = kv_next_id (cache cs) ∧ ∀ x, is_Some (caches c !! x) ↔ x ∉ l.*2 ∧ opened cs x.
Proof.
  revert cs d. induction l as [|[s h] l IH]; intros cs d Hnd Hop Hr.
  { injection Hr as <- <-. exists (cache cs). split; [by destruct cs |]. split; [done |]. intros x. set_solver. }
  apply NoDup_cons in Hnd as [Hh Hnd]. apply Forall_cons in Hop as [Ho Hop]. apply siter_cons_Ok in Hr as ([cs1 d1] & H1 & Hr).
  apply ignore_Ok in H1 as [H1 _]. cbn [snd] in H1, Ho. destruct (on_contiguous (kv_free h) (cs, d)) as [s1 r1] eqn:E. cbn [fst] in H1. subst s1.
  destruct (contiguous_free _ _ _ _ _ _ Ho E) as (c1 & -> & En & Hc1).
  destruct (IH (set_cache c1 cs) d1 Hnd) as (c & -> & En' & Hc); [| done |].
  - apply Forall_forall. intros [s' h'] Hin. rewrite Forall_forall in Hop. apply Hc1. split; [| by apply (Hop (s', h'))].
    intros Heq. apply Hh. apply list_elem_of_fmap. exists (s', h'). by split.
  - exists c. split; [done |]. split; [by rewrite En' |]. intros x. rewrite Hc. unfold opened at 1. cbn [cache set_cache]. rewrite Hc1. cbn. set_solver.
Qed.

Lemma drain_paged l cs d cs' d' :
  NoDup (l.*2 : list Z) → Forall (λ sh : Z * Z, paged_opened cs sh.2) l → paged_wf cs →
  siter (λ sh, ignore (paged_free' sh.2)) l (cs, d) = ((cs', d'), Ok ()) →
  ∃ q p, cs' = set_paged q p cs ∧ paged_wf cs' ∧ ∀ x, paged_opened cs' x ↔ x ∉ l.*2 ∧ paged_opened cs x.
Proof.
  revert cs d. induction l as [|[s h] l IH]; intros cs d Hnd Hop Hwf Hr.
  { injection Hr as <- <-. exists (quantized_cache cs), (paged_cache cs). split; [by destruct cs |]. split; [done |]. intros x. set_solver. }
  apply NoDup_cons in Hnd as [Hh Hnd]. apply Forall_cons in Hop as [Ho Hop]. apply siter_cons_Ok in Hr as ([cs1 d1] & H1 & Hr).
  apply ignore_Ok in H1 as [H1 _]. cbn [snd] in H1, Ho. destruct (paged_free_spec cs d h Hwf Ho) as (q & p & E & Hwf1 & Hp). rewrite E in H1.
  injection H1 as <- <-. destruct (IH (set_paged q p cs) d Hnd) as (q' & p' & -> & Hwf' & Hc); [| exact Hwf1 | exact Hr |].
  - apply Forall_forall. intros [s' h'] Hin. rewrite Forall_forall in Hop. apply Hp. split; [| by apply (Hop (s', h'))].
    intros Heq. apply Hh. apply list_elem_of_fmap. exists (s', h'). by split.
  - eexists _, _. split; [reflexivity |]. split; [done |]. intros x. rewrite Hc, Hp. cbn. set_solver.
Qed.

Lemma matched_values ho hs o : matched hs o → NoDup (hm_iter ho hs).*2 ∧ (∀ x, x ∈ (hm_iter ho hs).*2 ↔ o x) ∧
  Forall (λ sh : Z * Z, o sh.2) (hm_iter ho hs).
Proof.
  intros [Hinj Ho]. assert (∀ x, x ∈ (hm_iter ho hs).*2 ↔ o x) as Hx.
  { intros x. rewrite Ho. apply elem_of_hm_values. }
  split_and!; [| done |].
  - apply (NoDup_fmap_2_strong snd); [| apply (NoDup_fmap_1 fst), NoDup_hm_iter_fst].
    intros [s h] [s' h'] H1%elem_of_hm_iter H2%elem_of_hm_iter ?. simpl in *. subst. f_equal. by eapply Hinj.
  - apply Forall_forall. intros [s h] Hin%elem_of_hm_iter. apply Ho. eauto.
Qed.

Lemma release_ok ho cs d cs' d' :
  caches_ok cs → release_caches ho (cs, d) = ((cs', d'), Ok ()) → caches_ok cs' ∧ handles cs' = ∅ ∧ paged_handles cs' = ∅.
Proof.
  intros [Hids Hwf Hh Hp _]. unfold release_caches, drain_handles, drain_paged_handles.
  intros ([cs1 d1] & [] & H1 & H2)%sbind_Ok. apply sbind_Ok in H2 as ([cs2 d2] & [] & H2 & H3).
  apply sbind_Ok in H1 as (s & hs & [= <- <-] & H1). apply sbind_Ok in H1 as (s & [] & [= <-] & H1).
  destruct (matched_values ho _ _ Hh) as (Hnd & Hin & Hall).
  destruct (drain_contiguous _ (set_handles ∅ cs) _ _ _ Hnd Hall H1) as (c & -> & En & Hc).
  apply sbind_Ok in H2 as (s & hs & [= <- <-] & H2). apply sbind_Ok in H2 as (s & [] & [= <-] & H2).
  destruct (matched_values ho _ _ Hp) as (Hnd' & Hin' & Hall').
  destruct (drain_paged _ (set_paged_handles ∅ (set_cache c (set_handles ∅ cs))) _ _ _ Hnd' Hall' Hwf H2) as (q & p & -> & Hwf' & Hc').
  assert (cs' = set_paged q p (set_paged_handles ∅ (set_cache c (set_handles ∅ cs)))) as ->.
  { revert H3. unfold destroy_paged_caches. match goal with |- context [sbind ?m ?k d2] => destruct (sbind m k d2) end. by intros [= <- _]. }
  split; [| done]. split; [| done | | | reflexivity].
  - intros h Ho. apply Hc in Ho as [_ Ho]. cbn. rewrite En. by apply Hids.
  - apply matched_empty. intros x Ho%Hc. destruct Ho as [Hn Ho]. by apply Hn, Hin.
  - apply matched_empty. intros x Ho%Hc'. destruct Ho as [Hn Ho]. by apply Hn, Hin'.
Qed.
End caches.

(** ** Passes keep the sequences open *)

Section passes.
Context {C D : Type} `{PagedCacheOps C D} `{!Bincode BatchedForwardPayload} (R : C → C → Prop) {Hrefl : Reflexive R} {Htrans : Transitive R}.
Variable from_f16 : Z → f32.
Hypothesis append_R : ∀ h l k v, changes (D := D) R (pc_append_kv h l k v).

#[local] Ltac moves := repeat first [apply changes_bind; [apply _ | .. | intros ?] | apply changes_dev; [apply _] | apply changes_lift; [apply _]
  | apply changes_ret; [apply _] | apply changes_err; [apply _] | apply append_R].

Lemma batched_layer_changes ws start r sc hbs l : changes (D := D) R (batched_layer (C := C) ws start r sc hbs l).
Proof.
  unfold batched_layer. moves.
  - apply changes_siter; [apply _ | apply _ |]. intros [h [lo hi]] _. unfold append_slice. moves.
  - apply changes_siter; [apply _ | apply _ |]. intros [[h [lo hi]] p] _. unfold attend_slice. moves.
    intros c d. unfold pc_dispatch, dev. by destruct (pc_dispatch_attention c _ _ _ _ _ _ _ d).
Qed.

Lemma handle_batched_changes payload node phs : changes (D := D) R (handle_batched_forward (C := C) from_f16 payload node phs).
Proof.
  unfold handle_batched_forward. moves.
  - match goal with |- context [match bf_input ?q with _ => _ end] => destruct (bf_input q) end; moves.
  - unfold batched_forward_node. case_bool_decide; [moves |]. moves.
    + by intros c d.
    + apply changes_siter; [apply _ | apply _ |]. intros l _. apply batched_layer_changes.
    + destruct (is_tail _); moves.
  - match goal with |- context [match ?o with Engine.Logits _ => _ | _ => _ end] => destruct o end; moves.
Qed.
End passes.

(** The contiguous cache has the same sequences. *)
Definition kv_kept (c c' : KvCacheManager) : Prop :=
  kv_next_id c' = kv_next_id c ∧ ∀ h, is_Some (caches c' !! h) ↔ is_Some (caches c !! h).
#[export] Instance kv_kept_refl : Reflexive kv_kept.
Proof. by intros c. Qed.
#[export] Instance kv_kept_trans : Transitive kv_kept.
Proof. intros c1 c2 c3 [? H12] [? H23]. split; [congruence |]. intros h. by rewrite H23, H12. Qed.

Section kept.
Context {D : Type} `{KernelOps D} `{TimerOps D} `{!Bincode ForwardPayload} `{!Bincode BatchedForwardPayload}.
Variable from_f16 : Z → f32.
#[local] Ltac moves := repeat first [apply changes_bind; [apply _ | .. | intros ?] | apply changes_dev; [apply _] | apply changes_lift; [apply _]
  | apply changes_ret; [apply _] | apply changes_err; [apply _]].

Lemma of_cache_kept {A : Type} (f : KvCacheManager → result A) : changes (D := D) kv_kept (of_cache f).
Proof. by intros c d. Qed.

Lemma set_len_kept h n : changes (D := D) kv_kept (on_cache (kv_set_seq_len h n)).
Proof.
  intros c d. unfold on_cache, kv_set_seq_len, get_cache. destruct (caches c !! h) as [s|] eqn:Hs; [| done].
  case_bool_decide; [done |]. split; [done |]. intros x. cbn. rewrite lookup_insert_is_Some'. split; [intros [<-|?]; [by rewrite Hs | done] | by right].
Qed.

Lemma smapM_changes {C A B : Type} (R : C → C → Prop) {Hrefl : Reflexive R} {Htrans : Transitive R} (f : A → st (C * D) B) l :
  (∀ a, changes R (f a)) → changes R (smapM f l).
Proof. intros Hf. induction l as [|a l IH]; cbn [smapM]; moves; done. Qed.

Lemma handle_forward_kept header payload node hs : changes (D := D) kv_kept (handle_forward from_f16 header payload node hs).
Proof.
  unfold handle_forward. moves. destruct (hs !! seq_id header) as [h|]; moves.
  - match goal with |- context [match DistPipeline.input ?q with _ => _ end] => destruct (DistPipeline.input q) end; moves.
  - apply of_cache_kept.
  - apply (smapM_changes kv_kept). intros l.
    unfold contiguous_layer. moves; try apply of_cache_kept. case_bool_decide; moves. apply set_len_kept.
  - match goal with |- context [match ?o with Engine.Logits _ => _ | _ => _ end] => destruct o end; moves.
Qed.

(** The tables have the same sequences. *)
Definition tables_kept {P : Type} `{BlockStack P} (m m' : CacheTables P) : Prop :=
  tables_inv m → tables_inv m' ∧ ∀ h, is_Some (sequences m' !! h) ↔ is_Some (sequences m !! h).
Definition q_kept (c c' : QuantizedKvCacheManager) : Prop := tables_kept (q_tables c) (q_tables c').

#[export] Instance tables_kept_refl {P : Type} `{BlockStack P} : Reflexive (tables_kept (P := P)).
Proof. by intros m Hm. Qed.
#[export] Instance tables_kept_trans {P : Type} `{BlockStack P} : Transitive (tables_kept (P := P)).
Proof. intros m1 m2 m3 H12 H23 Hm. destruct (H12 Hm) as [I2 S2]. destruct (H23 I2) as [I3 S3]. split; [done |]. intros h. by rewrite S3, S2. Qed.
#[export] Instance q_kept_refl : Reflexive q_kept.
Proof. intros c. apply tables_kept_refl. Qed.
#[export] Instance q_kept_trans : Transitive q_kept.
Proof. intros c1 c2 c3. apply tables_kept_trans. Qed.

Lemma reserve_kept {P : Type} `{BlockStackLaws P} h n (m : CacheTables P) : tables_kept m (reserve h n m).1.
Proof. intros Hm. by destruct (reserve_frame h n m Hm) as (? & _ & ? & _). Qed.

Lemma paged_append_kept h l k v : changes (D := D) (tables_kept (P := BlockPool)) (pc_append_kv (C := PagedKvCacheManager) h l k v).
Proof. intros c d. change (pc_append_kv h l k v (c, d)) with (append_kv h l k v (c, d)). destruct (append_kv_tables h l k v c d) as [->|[n ->]]; [done | apply reserve_kept]. Qed.

Lemma q_append_kept h l k v : changes (D := D) q_kept (pc_append_kv (C := QuantizedKvCacheManager) h l k v).
Proof. intros c d. change (pc_append_kv h l k v (c, d)) with (q_append_kv h l k v (c, d)). destruct (q_append_tables h l k v c d) as [->|[n ->]]; [done |]. exact (reserve_kept h n (q_tables c)). Qed.
End kept.

(** ** What the worker promises to the coordinator

    The abstract worker: a set of open sequence ids and, for each message, how the
    set may change and what is answered. *)

Inductive Answer := ADone | AForward (r : ForwardResultPayload) | ABatched (r : BatchedForwardResultPayload) | AFailed (code : ErrorCode).

Section spec.
Context `{Bincode ForwardResultPayload} `{Bincode BatchedForwardPayload} `{Bincode BatchedForwardResultPayload} `{Bincode ErrorPayload}.

(** The payload bytes of an answer. *)
Definition answers (a : Answer) (bs : list Z) : Prop :=
  match a with
  | ADone => bs = []
  | AForward r => serialize r = Ok bs
  | ABatched r => serialize r = Ok bs
  | AFailed code => ∃ msg, serialize {| error_code := code; message := msg |} = Ok bs
  end.

(** From the open ids [S], the message of type [mt] for [sid] with a payload
    leads to [S'] and is answered by the replies [(type, id, answer)]. *)
Inductive spec_step (S : gset Z) : MessageType → Z → list Z → gset Z → list (MessageType * Z * Answer) → Prop :=
  | SpecAlloc sid p : sid ∉ S → spec_step S CacheAlloc sid p ({[sid]} ∪ S) [(CacheAllocAck, sid, ADone)]
  | SpecAllocOom sid p : sid ∉ S → spec_step S CacheAlloc sid p S [(ErrorMsg, sid, AFailed DistPipeline.OutOfMemory)]
  | SpecAllocDup sid p : sid ∈ S → spec_step S CacheAlloc sid p S [(ErrorMsg, sid, AFailed InvalidSequence)]
  | SpecFree sid p : sid ∈ S → spec_step S CacheFree sid p (S ∖ {[sid]}) []
  | SpecFreeUnknown sid p : sid ∉ S → spec_step S CacheFree sid p S [(ErrorMsg, sid, AFailed InvalidSequence)]
  | SpecForward sid p r : sid ∈ S → spec_step S Forward sid p S [(ForwardResult, sid, AForward r)]
  | SpecForwardFailed sid p : spec_step S Forward sid p S [(ErrorMsg, sid, AFailed Internal)]
  | SpecBatched sid p req r :
      deserialize_payload p = Ok req → (∀ m, m ∈ bf_sequences req → smw_seq_id m ∈ S) →
      num_sequences r = Z.of_nat (length (bf_sequences req)) →
      spec_step S BatchedForward sid p S [(BatchedForwardResult, sid, ABatched r)]
  | SpecBatchedFailed sid p : spec_step S BatchedForward sid p S [(ErrorMsg, sid, AFailed Internal)]
  | SpecReconfigure sid p : spec_step S Reconfigure sid p ∅ [(WorkerReady, 0%Z, ADone)]
  | SpecShutdown sid p : spec_step S Shutdown sid p ∅ []
  | SpecVictory sid p : spec_step S Victory sid p S []
  | SpecManifest sid p : spec_step S ClusterManifest sid p S []
  | SpecOther mt sid p :
      mt ∉ [Forward; CacheAlloc; CacheFree; Reconfigure; Shutdown; BatchedForward; Victory; ClusterManifest] →
      spec_step S mt sid p S [(ErrorMsg, sid, AFailed ProtocolViolation)].
End spec.

Section refinement.
Context {D : Type} `{KernelOps D} `{TimerOps D} `{DeviceInfo D}.
Variable crc32c : list Z → Z.
Context `{Bincode ForwardPayload} `{Bincode ForwardResultPayload} `{Bincode BatchedForwardPayload}
  `{Bincode BatchedForwardResultPayload} `{Bincode ErrorPayload} `{Bincode RegisterAckPayload} `{Bincode VictoryPayload}
  `{Bincode ClusterManifestPayload} `{Bincode LeaveIntentPayload}.
Implicit Types w : Worker.
Implicit Types d : D.

(** The replies on the wire; nothing is sent when the connection is lost. *)
Definition wire_of (reps : list (MessageType * Z * Answer)) (bss : list (list Z)) : list (MessageType * Z * list Z) :=
  zip_with (λ rep bs, (rep.1, bs)) reps bss.
Definition delivered (wr wr' : FramedWriter) (reps : list (MessageType * Z * Answer)) : Prop :=
  ∃ bss, Forall2 (λ rep bs, answers rep.2 bs) reps bss ∧
    wr' = if w_open wr then {| w_sent := w_sent wr ++ frames_of crc32c (wire_of reps bss); w_open := true |} else wr.

(** After the message the loop goes on, or the worker has been told to stop, or
    an answer could not be sent. *)
Definition flows (mt : MessageType) w w' (reps : list (MessageType * Z * Answer)) (fl : flow) : Prop :=
  match fl with
  | Continue => wk_state w' = wk_state w ∧ (reps ≠ [] → w_open (wk_writer w) = true)
  | Break => (mt = Shutdown ∧ wk_state w' = Exited) ∨ (wk_state w' = DisconnectedStandby ∧ w_open (wk_writer w) = false ∧ reps ≠ [])
  end.

Definition same_core w w' : Prop :=
  wk_caches w' = wk_caches w ∧ wk_writer w' = wk_writer w ∧ wk_state w' = wk_state w ∧ wk_node w' = wk_node w.

Lemma store_counts_core w d w' d' : store_counts (w, d) = ((w', d'), Ok ()) → d' = d ∧ same_core w w'.
Proof. unfold store_counts. destruct (paged_free_blocks _); [| done..]. by intros [= <- <-]. Qed.
Lemma store_memory_core w d w' d' : store_memory (w, d) = ((w', d'), Ok ()) → d' = d ∧ same_core w w'.
Proof. unfold store_memory. destruct (usub _ _); [| done..]. by intros [= <- <-]. Qed.

Definition quiet (k : st (Worker * D) flow) : Prop :=
  ∀ w d w' d' fl, k (w, d) = ((w', d'), Ok fl) → fl = Continue ∧ d' = d ∧ same_core w w'.

Lemma same_core_trans w w1 w' : same_core w w1 → same_core w1 w' → same_core w w'.
Proof. unfold same_core. intuition congruence. Qed.

Lemma stored_counts_quiet : quiet stored_counts.
Proof.
  intros w d w' d' fl. unfold stored_counts. intros ([w1 d1] & [] & E1 & [= <- <- <-])%sbind_Ok. by apply store_counts_core in E1.
Qed.
Lemma stored_all_quiet : quiet stored_all.
Proof.
  intros w d w' d' fl. unfold stored_all. intros ([w1 d1] & [] & E1 & E2)%sbind_Ok.
  apply sbind_Ok in E2 as ([w2 d2] & [] & E2 & [= <- <- <-]). apply store_counts_core in E1 as [-> ?]. apply store_memory_core in E2 as [-> ?].
  split_and!; [done | done |]. by eapply same_core_trans.
Qed.
Lemma continue_quiet : quiet (sret Continue).
Proof. by intros w d w' d' fl [= <- <- <-]. Qed.

(** A reply, then the statistics. *)
Lemma reply_then (m : st FramedWriter unit) mt sid a bs k w d w' d' fl mt0 :
  answers a bs → (∀ wr, m wr = send_raw crc32c mt sid bs wr) → quiet k → and_then (or_standby m) k (w, d) = ((w', d'), Ok fl) →
  d' = d ∧ wk_caches w' = wk_caches w ∧ wk_node w' = wk_node w ∧ delivered (wk_writer w) (wk_writer w') [(mt, sid, a)] ∧ flows mt0 w w' [(mt, sid, a)] fl.
Proof.
  intros Ha Hm Hk. unfold and_then. intros ([w1 d1] & f & Hs & Hr)%sbind_Ok. unfold or_standby in Hs. rewrite Hm in Hs.
  destruct (w_open (wk_writer w)) eqn:Ho.
  - rewrite (send_raw_open _ _ _ _ _ Ho) in Hs. injection Hs as <- <- <-. apply Hk in Hr as (-> & -> & Hc & Hw & Hst & Hn).
    rewrite Hc, Hw, Hn. split; [done |]. split; [done |]. split; [done |]. split; [| by split; [rewrite Hst |]].
    exists [bs]. split; [by repeat constructor |]. rewrite Ho. cbn. by rewrite app_nil_r.
  - unfold send_raw, sbind, write_all in Hs. rewrite Ho in Hs. injection Hs as <- <- <-. injection Hr as <- <- <-. cbn.
    split; [done |]. split; [done |]. split; [done |]. split; [| by right]. exists [bs]. split; [by repeat constructor |]. by rewrite Ho.
Qed.

Hypothesis forward_serializes : ∀ r : ForwardResultPayload, ∃ bs, serialize r = Ok bs.
Hypothesis batched_serializes : ∀ r : BatchedForwardResultPayload, ∃ bs, serialize r = Ok bs.
Hypothesis error_serializes : ∀ r : ErrorPayload, ∃ bs, serialize r = Ok bs.

Definition served mt w w' reps fl : Prop :=
  delivered (wk_writer w) (wk_writer w') reps ∧ flows mt w w' reps fl.

Lemma send_is_raw {A : Type} `{Bincode A} mt sid (x : A) bs wr : serialize x = Ok bs → send crc32c serialize mt sid x wr = send_raw crc32c mt sid bs wr.
Proof. intros Hx. unfold send, sbind, slift. by rewrite Hx. Qed.

Lemma error_then code msg sid k w d w' d' fl mt0 :
  quiet k → and_then (error_reply crc32c sid code msg) k (w, d) = ((w', d'), Ok fl) →
  d' = d ∧ wk_caches w' = wk_caches w ∧ wk_node w' = wk_node w ∧ served mt0 w w' [(ErrorMsg, sid, AFailed code)] fl.
Proof.
  intros Hk Hr. destruct (error_serializes {| error_code := code; message := msg |}) as [bs Hbs].
  eapply (reply_then _ ErrorMsg sid (AFailed code) bs) in Hr; [exact Hr | by exists msg | | exact Hk].
  intros wr. by apply send_is_raw.
Qed.
Definition refines mt sid p w w' fl : Prop :=
  ∃ reps, spec_step (dom (handles (wk_caches w))) mt sid p (dom (handles (wk_caches w'))) reps ∧ caches_ok (wk_caches w') ∧
    served mt w w' reps fl.

(** Handlers that leave the caches alone. *)
Lemma error_refines mt sid p code msg k w d w' d' fl :
  caches_ok (wk_caches w) → quiet k → and_then (error_reply crc32c sid code msg) k (w, d) = ((w', d'), Ok fl) →
  spec_step (dom (handles (wk_caches w))) mt sid p (dom (handles (wk_caches w))) [(ErrorMsg, sid, AFailed code)] →
  refines mt sid p w w' fl.
Proof using error_serializes.
  intros Hok Hk Hr Hs. eapply error_then in Hr as (-> & Hc & _ & Hd); [| done]. eexists. rewrite Hc. by split_and!.
Qed.

Lemma attempt_inl {S A : Type} (m : st S A) s s' a : attempt m s = (s', Ok (inl a)) → m s = (s', Ok a).
Proof. unfold attempt. destruct (m s) as [? [?| |]]; by intros [= <- <-]. Qed.
Lemma attempt_inr {S A : Type} (m : st S A) s s' e : attempt m s = (s', Ok (inr e)) → m s = (s', Err e).
Proof. unfold attempt. destruct (m s) as [? [?| |]]; by intros [= <- <-]. Qed.

Lemma in_caches_inv {A : Type} (m : st (Caches * D) A) w d w' d' r :
  in_caches m (w, d) = ((w', d'), r) → ∃ cs', m (wk_caches w, d) = ((cs', d'), r) ∧ w' = set_caches' (λ _, cs') w.
Proof. unfold in_caches. destruct (m (wk_caches w, d)) as [[cs1 d1] r1]. intros [= <- <- <-]. eauto. Qed.

Lemma opened_after c cs x : opened (set_cache c cs) x ↔ is_Some (caches c !! x).
Proof. done. Qed.

Lemma alloc_refines sid p w d w' d' fl :
  caches_ok (wk_caches w) → on_cache_alloc crc32c sid (w, d) = ((w', d'), Ok fl) → refines CacheAlloc sid p w w' fl.
Proof using error_serializes.
  intros Hok Hr. unfold on_cache_alloc in Hr. apply sbind_Ok in Hr as (s0 & hs & [= <- <-] & Hr). cbn [compose fst] in Hr.
  destruct (handles (wk_caches w) !! sid) as [h0|] eqn:Hsid.
  { eapply error_refines; [done | apply stored_all_quiet | exact Hr |]. constructor. by apply elem_of_dom. }
  assert (sid ∉ dom (handles (wk_caches w))) as Hnot by (by apply not_elem_of_dom).
  pose proof Hok as [Hids Hwf Hh Hp Hsame]. set (cs := wk_caches w) in *.
  apply sbind_Ok in Hr as ([w1 d1] & [h|e] & E1 & Hr); [apply attempt_inl in E1 | apply attempt_inr in E1];
    apply in_caches_inv in E1 as (cs1 & E1 & ->); apply contiguous_alloc in E1 as (c & -> & Hids1 & Hc); try done.
  2:{ eapply (error_refines _ _ p) in Hr as (reps & Hs & Hok' & Hd); [| | apply stored_all_quiet |].
      - exists reps. by split_and!.
      - split; [done | done | | done | done]. by eapply matched_ext.
      - by constructor. }
  destruct Hc as [Hnew Hc]. apply sbind_Ok in Hr as ([w2 d2] & [] & [= <- <-] & Hr).
  apply sbind_Ok in Hr as ([w2 d2] & [ph|e] & E2 & Hr); [apply attempt_inl in E2 | apply attempt_inr in E2];
    apply in_caches_inv in E2 as (cs2 & E2 & ->); apply paged_alloc_spec in E2 as (-> & (q & p' & ->) & Hwf2 & Hpo); try done.
  - destruct Hpo as [Hpnew Hpo]. apply sbind_Ok in Hr as ([w3 d3] & [] & [= <- <-] & Hr).
    eapply (reply_then _ CacheAllocAck sid ADone [] _ _ _ _ _ _ CacheAlloc) in Hr as (-> & Hcs & _ & Hd); [| done | done | apply stored_all_quiet].
    exists [(CacheAllocAck, sid, ADone)]. rewrite Hcs. cbn. split_and!; [| | done].
    + rewrite dom_insert_L. by constructor.
    + split; cbn; [done | done | | | rewrite !dom_insert_L; unfold cs in Hsame; by rewrite Hsame].
      * by apply (matched_insert _ (opened cs)).
      * apply (matched_insert _ (paged_opened cs)); try done. apply not_elem_of_dom. unfold cs in Hsame. by rewrite Hsame.
  - apply sbind_Ok in Hr as ([w3 d3] & [] & [= <- <-] & Hr). apply sbind_Ok in Hr as ([w4 d4] & [] & E4 & Hr).
    apply ignore_Ok in E4 as [E4 _].
    match type of E4 with (in_caches ?m ?s).1 = _ => destruct (in_caches m s) as [[w5 d5] r5] eqn:E5 end. cbn [fst] in E4.
    injection E4 as -> ->. apply in_caches_inv in E5 as (cs5 & E5 & ->).
    apply contiguous_free in E5 as (c' & -> & En & Hc'); [| apply Hc; by left].
    eapply (error_refines _ _ p) in Hr as (reps & Hs & Hok' & Hd); [| | apply stored_counts_quiet |].
    + exists reps. split_and!; [| done | done]. revert Hs. cbn. by rewrite delete_insert_id.
    + cbn. rewrite delete_insert_id by done. split; cbn; [| done | | | done].
      * intros x [_ Hx]%Hc'. rewrite En. by apply Hids1.
      * eapply matched_ext; [exact Hh |]. intros x. cbn. rewrite opened_after, Hc'. unfold opened at 1. cbn. rewrite Hc.
        split; [by intros [? [->|?]] | intros Hx; split; [by intros -> | by right]].
      * eapply matched_ext; [exact Hp |]. exact Hpo.
    + cbn. rewrite delete_insert_id by done. by constructor.
Qed.
Lemma free_refines sid p w d w' d' fl :
  caches_ok (wk_caches w) → on_cache_free crc32c sid (w, d) = ((w', d'), Ok fl) → refines CacheFree sid p w w' fl.
Proof using error_serializes.
  intros Hok Hr. unfold on_cache_free in Hr. apply sbind_Ok in Hr as (s0 & cs0 & [= <- <-] & Hr). cbn [compose fst] in Hr.
  destruct (handles (wk_caches w) !! sid) as [h|] eqn:Hsid.
  2:{ eapply error_refines; [done | apply stored_counts_quiet | exact Hr |]. constructor. by apply not_elem_of_dom. }
  pose proof Hok as [Hids Hwf Hh Hp Hsame].
  apply sbind_Ok in Hr as ([w1 d1] & [] & [= <- <-] & Hr). apply sbind_Ok in Hr as ([w2 d2] & [] & E2 & Hr).
  apply in_caches_inv in E2 as (cs2 & E2 & ->). apply contiguous_free in E2 as (c & -> & En & Hc); [| apply Hh; eauto].
  assert (is_Some (paged_handles (wk_caches w) !! sid)) as [ph Hph].
  { apply elem_of_dom. rewrite Hsame. by apply elem_of_dom. }
  rewrite Hph in Hr. apply sbind_Ok in Hr as ([w3 d3] & [] & E3 & Hr). apply sbind_Ok in E3 as ([w4 d4] & [] & [= <- <-] & E3).
  apply in_caches_inv in E3 as (cs3 & E3 & ->).
  match type of E3 with paged_free' _ (?cs, _) = _ => destruct (paged_free_spec cs d2 ph) as (q & p' & E & Hwf' & Hpo) end; [exact Hwf | apply Hp; eauto |].
  rewrite E in E3. injection E3 as <- <-. apply stored_counts_quiet in Hr as (-> & -> & Hcs & Hwr & Hst & _).
  exists []. rewrite Hcs. cbn [wk_caches set_caches' handles set_handles]. split; [| split; [| split]].
  - cbn. rewrite dom_delete_L. constructor. by apply elem_of_dom.
  - split; cbn; [| exact Hwf' | | | by rewrite !dom_delete_L, Hsame].
    + intros x [_ Hx]%Hc. rewrite En. by apply Hids.
    + eapply matched_delete; [exact Hh | exact Hsid | exact Hc].
    + eapply matched_delete; [exact Hp | exact Hph | exact Hpo].
  - rewrite Hwr. exists []. split; [constructor |]. cbn. rewrite app_nil_r. by destruct (wk_writer w) as [snt []].
  - by split; [rewrite Hst |].
Qed.

Lemma send_answer_refines {A : Type} `{Bincode A} (x : A) mt sid p mt' a bs w w1 d1 w' d' fl :
  send_or_standby crc32c mt' sid x (w1, d1) = ((w', d'), Ok fl) →
  serialize x = Ok bs → answers a bs → caches_ok (wk_caches w1) → wk_writer w1 = wk_writer w → wk_state w1 = wk_state w →
  spec_step (dom (handles (wk_caches w))) mt sid p (dom (handles (wk_caches w1))) [(mt', sid, a)] → refines mt sid p w w' fl.
Proof.
  intros Hr Hx Ha Hok Hwr Hst Hs.
  assert (and_then (send_or_standby crc32c mt' sid x) (sret Continue) (w1, d1) = ((w', d'), Ok fl)) as Hr'.
  { unfold and_then, sbind. rewrite Hr. by destruct fl. }
  eapply (reply_then _ mt' sid a bs _ _ _ _ _ _ mt) in Hr' as (_ & Hc & _ & Hd & Hf); [| done | intros wr; by apply send_is_raw | apply continue_quiet].
  eexists. rewrite Hc. split; [exact Hs |]. split; [done |]. rewrite Hwr in Hd. split; [done |].
  unfold flows in Hf |- *. by rewrite Hst, Hwr in Hf.
Qed.

Lemma error_answer_refines mt sid p code msg w w1 d1 w' d' fl :
  error_reply crc32c sid code msg (w1, d1) = ((w', d'), Ok fl) →
  caches_ok (wk_caches w1) → wk_writer w1 = wk_writer w → wk_state w1 = wk_state w →
  spec_step (dom (handles (wk_caches w))) mt sid p (dom (handles (wk_caches w1))) [(ErrorMsg, sid, AFailed code)] → refines mt sid p w w' fl.
Proof using error_serializes.
  intros Hr Hok Hwr Hst Hs. destruct (error_serializes {| error_code := code; message := msg |}) as [bs Hbs].
  eapply (send_answer_refines {| error_code := code; message := msg |} mt sid p ErrorMsg (AFailed code)); [exact Hr | exact Hbs | by exists msg | done | exact Hwr | exact Hst | exact Hs].
Qed.
Lemma contiguous_kept {A : Type} (m : st (KvCacheManager * D) A) cs d cs' d' r :
  changes kv_kept m → caches_ok cs → on_contiguous m (cs, d) = ((cs', d'), r) → caches_ok cs' ∧ handles cs' = handles cs.
Proof.
  intros Hm [Hids Hwf Hh Hp Hsame]. unfold on_contiguous. specialize (Hm (cache cs) d). destruct (m (cache cs, d)) as [[c d1] r1].
  intros [= <- <- <-]. destruct Hm as [En Hc]. split; [| done]. split; cbn; [| done | | done | done].
  - intros h Ho%Hc. cbn in En. rewrite En. by apply Hids.
  - eapply matched_ext; [exact Hh |]. exact Hc.
Qed.

Lemma paged_kept {A : Type} (mq : st (QuantizedKvCacheManager * D) A) (mp : st (PagedKvCacheManager * D) A) cs d cs' d' r :
  changes q_kept mq → changes tables_kept mp → caches_ok cs → on_paged mq mp (cs, d) = ((cs', d'), r) →
  caches_ok cs' ∧ handles cs' = handles cs.
Proof.
  intros Hmq Hmp [Hids Hwf Hh Hp Hsame]. unfold on_paged, paged_wf in *.
  assert (∀ q p, (paged_wf (set_paged q p cs) ∧ ∀ x, paged_opened (set_paged q p cs) x ↔ paged_opened cs x) →
    caches_ok (set_paged q p cs) ∧ handles (set_paged q p cs) = handles cs) as Hgo.
  { intros q p [Hwf' Ho]. split; [| done]. split; [done | done | done | | done]. by eapply matched_ext. }
  destruct (quantized_cache cs) as [qc|] eqn:Eq; [destruct (paged_cache cs) as [pc|] eqn:Ep; [done |] | destruct (paged_cache cs) as [pc|] eqn:Ep; [| done]].
  - specialize (Hmq qc d). destruct (mq (qc, d)) as [[qc' d1] r1]. intros [= <- <- <-]. apply Hgo. unfold paged_wf, paged_opened. cbn.
    rewrite Eq, Ep. by apply Hmq.
  - specialize (Hmp pc d). destruct (mp (pc, d)) as [[pc' d1] r1]. intros [= <- <- <-]. apply Hgo. unfold paged_wf, paged_opened. cbn.
    rewrite Eq, Ep. by apply Hmp.
Qed.
Variable from_f16 : Z → f32.

Lemma handle_forward_open header payload node hs s s' r :
  handle_forward (D := D) from_f16 header payload node hs s = (s', Ok r) → seq_id header ∈ dom hs.
Proof.
  unfold handle_forward. intros (s1 & req & _ & Hr)%sbind_Ok. destruct (hs !! seq_id header) as [h|] eqn:E; [| done]. by apply elem_of_dom.
Qed.

Lemma handle_batched_open {C : Type} `{!PagedCacheOps C D} payload node phs (s s' : C * D) r :
  handle_batched_forward from_f16 payload node phs s = (s', Ok r) →
  ∃ req, deserialize_payload payload = Ok req ∧ (∀ m, m ∈ bf_sequences req → smw_seq_id m ∈ dom phs) ∧
    num_sequences r = Z.of_nat (length (bf_sequences req)).
Proof.
  unfold handle_batched_forward. intros (s1 & req & [= <- Hreq] & Hr)%sbind_Ok. exists req. split; [done |].
  apply sbind_Ok in Hr as (s2 & seqs & [= <- Hseqs] & Hr). split.
  - intros m Hm. apply rmapM_Forall2 in Hseqs. apply list_elem_of_lookup in Hm as [i Hi].
    destruct (Forall2_lookup_l _ _ _ _ _ Hseqs Hi) as (sl & _ & Hsl).
    unfold batch_slice in Hsl. destruct (phs !! smw_seq_id m) as [h|] eqn:E; [| done]. by apply elem_of_dom.
  - apply sbind_Ok in Hr as (s3 & si & _ & Hr). apply sbind_Ok in Hr as (s4 & out & _ & Hr). destruct out as [l|t].
    + apply sbind_Ok in Hr as (s5 & offs & _ & [= _ <-]). done.
    + apply sbind_Ok in Hr as (s5 & td & _ & [= _ <-]). done.
Qed.

Lemma forward_refines header p w d w' d' fl :
  caches_ok (wk_caches w) → on_forward crc32c from_f16 header p (w, d) = ((w', d'), Ok fl) → refines Forward (seq_id header) p w w' fl.
Proof using error_serializes forward_serializes.
  intros Hok Hr. unfold on_forward in Hr. apply sbind_Ok in Hr as (s0 & w0 & [= <- <-] & Hr). cbn [fst] in Hr.
  apply sbind_Ok in Hr as ([w1 d1] & [res|e] & E1 & Hr); [apply attempt_inl in E1 | apply attempt_inr in E1];
    apply in_caches_inv in E1 as (cs1 & E1 & ->); pose proof E1 as E2;
    eapply contiguous_kept in E1 as [Hok1 Hh1]; [| apply handle_forward_kept | done | | apply handle_forward_kept | done].
  - destruct (forward_serializes res) as [bs Hbs].
    eapply (send_answer_refines res Forward (seq_id header) p ForwardResult (AForward res)); [exact Hr | exact Hbs | done | done | done | done |].
    cbn. rewrite Hh1. constructor. unfold on_contiguous in E2.
    destruct (handle_forward _ _ _ _ _ _) as [[c d2] r2] eqn:E3. injection E2 as _ _ ->. by apply handle_forward_open in E3.
  - eapply error_answer_refines; [exact Hr | done | done | done |]. cbn. rewrite Hh1. constructor.
Qed.

Lemma batched_refines header p w d w' d' fl :
  caches_ok (wk_caches w) → on_batched_forward crc32c from_f16 header p (w, d) = ((w', d'), Ok fl) →
  refines BatchedForward (seq_id header) p w w' fl.
Proof using error_serializes batched_serializes.
  intros Hok Hr. unfold on_batched_forward in Hr. apply sbind_Ok in Hr as (s0 & w0 & [= <- <-] & Hr). cbn [fst] in Hr.
  assert (∀ phs, changes (D := D) q_kept (handle_batched_forward (C := QuantizedKvCacheManager) from_f16 p (wk_node w) phs)) as Kq.
  { intros phs. apply (handle_batched_changes q_kept). intros *. apply q_append_kept. }
  assert (∀ phs, changes (D := D) tables_kept (handle_batched_forward (C := PagedKvCacheManager) from_f16 p (wk_node w) phs)) as Kp.
  { intros phs. apply (handle_batched_changes tables_kept). intros *. apply paged_append_kept. }
  apply sbind_Ok in Hr as ([w1 d1] & [res|e] & E1 & Hr); [apply attempt_inl in E1 | apply attempt_inr in E1];
    apply in_caches_inv in E1 as (cs1 & E1 & ->); pose proof E1 as E2;
    eapply paged_kept in E1 as [Hok1 Hh1]; [| apply Kq | apply Kp | done | | apply Kq | apply Kp | done].
  - destruct (batched_serializes res) as [bs Hbs].
    eapply (send_answer_refines res BatchedForward (seq_id header) p BatchedForwardResult (ABatched res)); [exact Hr | exact Hbs | done | done | done | done |].
    cbn. rewrite Hh1.
    assert (∃ req, deserialize_payload p = Ok req ∧ (∀ m, m ∈ bf_sequences req → smw_seq_id m ∈ dom (paged_handles (wk_caches w))) ∧
      num_sequences res = Z.of_nat (length (bf_sequences req))) as (req & H1' & H2' & H3').
    { unfold on_paged in E2. destruct (quantized_cache _) as [qc|]; [| destruct (paged_cache _) as [pc|]; [| done]];
        destruct (handle_batched_forward _ _ _ _ _) as [[c d2] r2] eqn:E3; injection E2 as _ _ ->; exact (handle_batched_open _ _ _ _ _ _ E3). }
    rewrite (co_same _ Hok) in H2'. by econstructor.
  - eapply error_answer_refines; [exact Hr | done | done | done |]. cbn. rewrite Hh1. constructor.
Qed.
Variables (f16_from_f32 : f32 → Z) (bf16_to_f32 : Z → f32) (exp ln cos sin : f64 → f64).
Variables (ho : HashOrder) (model_file : list Z) (cfg : WorkerConfig).

(** New paged caches are empty. *)
Lemma new_paged_ok r d d' qp cs :
  new_paged_caches exp ln cos sin ho cfg r d = (d', Ok qp) →
  paged_wf (set_paged qp.1 qp.2 cs) ∧ ∀ x, ¬ paged_opened (set_paged qp.1 qp.2 cs) x.
Proof.
  unfold new_paged_caches. destruct (tq_config cfg) as [c|].
  - intros (d1 & n & _ & Hr)%sbind_Ok. apply sbind_Ok in Hr as (d2 & qc & Hq & [= <- <-]). unfold q_new in Hq.
    apply sbind_Ok in Hq as (d3 & p & Hp & Hq). do 2 (apply sbind_Ok in Hq as (? & ? & _ & Hq)).
    do 4 (apply sbind_Ok in Hq as (? & ? & _ & Hq)). injection Hq as _ <-. unfold qpool_new in Hp.
    do 4 (apply sbind_Ok in Hp as (? & ? & _ & Hp)). injection Hp as _ <-. unfold paged_wf, paged_opened. cbn.
    split; [by apply tables_new_inv |]. intros y [? Hy]. by rewrite lookup_empty in Hy.
  - intros (d1 & n & _ & Hr)%sbind_Ok. apply sbind_Ok in Hr as (d2 & pc & Hq & [= <- <-]). unfold paged_new in Hq.
    apply sbind_Ok in Hq as (d3 & p & Hp & [= _ <-]). unfold pool_new in Hp.
    destruct (alloc_blocks _ _ _ _ _ _) as [d4 [[kb vb] [u| |]]]; [| done..]. injection Hp as _ <-. unfold paged_wf, paged_opened. cbn.
    split; [by apply tables_new_inv |]. intros y [? Hy]. by rewrite lookup_empty in Hy.
Qed.

Lemma on_worker_inv (f : Worker → Worker) w d w' d' a : on_worker f (w, d) = ((w', d'), Ok a) → w' = f w ∧ d' = d.
Proof. by intros [= <- <-]. Qed.
Lemma in_device_inv {A : Type} (m : st D A) w d w' d' a : in_device m (w, d) = ((w', d'), Ok a) → w' = w ∧ m d = (d', Ok a).
Proof. unfold in_device. destruct (m d). by intros [= <- <- ->]. Qed.

Lemma new_cache_empty r h : ¬ is_Some (caches (new_cache r) !! h).
Proof. unfold new_cache, kv_new. cbn [caches]. rewrite lookup_empty. by intros [? ?]. Qed.

(** A reconfigured worker has the new range and nothing open. *)
Lemma reconfigure_ok r w d w' d' :
  caches_ok (wk_caches w) →
  reconfigure f16_from_f32 bf16_to_f32 exp ln cos sin ho model_file cfg r (w, d) = ((w', d'), Ok ()) →
  caches_ok (wk_caches w') ∧ handles (wk_caches w') = ∅ ∧ wk_writer w' = wk_writer w ∧ wk_state w' = wk_state w ∧
  cache (wk_caches w') = new_cache r ∧
  nc_layer_range (node_config (wk_node w')) = {| rstart := layer_start r; rend := layer_end r |}.
Proof.
  intros Hok. unfold reconfigure. intros ([w1 d1] & [] & E1 & Hr)%sbind_Ok. apply in_caches_inv in E1 as (cs1 & E1 & ->).
  apply release_ok in E1 as (Hok1 & Hh1 & Hp1); [| done].
  apply sbind_Ok in Hr as ([w2 d2] & node & E2 & Hr). apply in_device_inv in E2 as [-> E2].
  apply sbind_Ok in Hr as ([w3 d3] & [] & E3 & Hr). apply on_worker_inv in E3 as [-> ->].
  apply sbind_Ok in Hr as ([w4 d4] & [] & E4 & Hr). apply on_worker_inv in E4 as [-> ->].
  apply sbind_Ok in Hr as ([w5 d5] & qp & E5 & Hr). apply in_device_inv in E5 as [-> E5].
  apply sbind_Ok in Hr as ([w6 d6] & [] & E6 & Hr). apply on_worker_inv in E6 as [-> ->].
  apply sbind_Ok in Hr as ([w7 d7] & [] & E7 & Hr). apply store_counts_core in E7 as [-> E7]. apply store_memory_core in Hr as [-> E8].
  destruct (same_core_trans _ _ _ E7 E8) as (Hc & Hw & Hst & Hn). rewrite Hc, Hw, Hst, Hn. cbn.
  eapply (new_paged_ok r _ _ _ (set_cache (new_cache r) cs1)) in E5 as [Hwf Ho].
  split; [| split; [done |]; split; [done |]; split; [done |]; split; [done |]].
  - split; [| exact Hwf | | | by cbn; rewrite Hh1, Hp1].
    + intros h Hx. destruct (new_cache_empty r h Hx).
    + cbn. rewrite Hh1. apply matched_empty. intros x. exact (new_cache_empty r x).
    + cbn. rewrite Hp1. apply matched_empty. exact Ho.
  - unfold new_node in E2. apply sbind_Ok in E2 as (? & ? & _ & E2). apply sbind_Ok in E2 as (? & ? & _ & E2).
    apply sbind_Ok in E2 as (? & nc & [= _ Hnc] & [= _ <-]). cbn. unfold NodeConfig_new in Hnc.
    repeat case_match; simplify_eq. done.
Qed.

Notation handle := (handle_message crc32c from_f16 f16_from_f32 bf16_to_f32 exp ln cos sin ho model_file cfg).

Lemma nothing_said mt w w' : wk_writer w' = wk_writer w → wk_state w' = wk_state w → served mt w w' [] Continue.
Proof.
  intros Hw Hs. split; [| by split]. exists []. split; [constructor |]. cbn. rewrite Hw, app_nil_r. by destruct (wk_writer w) as [snt []].
Qed.

Lemma view_refines mt sid p w w' d d' fl (m : st (Worker * D) flow) :
  caches_ok (wk_caches w) → m (w, d) = ((w', d'), Ok fl) → (fl = Continue ∧ same_core w w') →
  spec_step (dom (handles (wk_caches w))) mt sid p (dom (handles (wk_caches w))) [] → refines mt sid p w w' fl.
Proof.
  intros Hok _ [-> (Hc & Hw & Hs & _)] Hsp. exists []. rewrite Hc. split; [done |]. split; [done |]. by apply nothing_said.
Qed.

Lemma handle_refines header p w d w' d' fl :
  caches_ok (wk_caches w) → handle (header, p) (w, d) = ((w', d'), Ok fl) → refines (msg_type header) (seq_id header) p w w' fl.
Proof using error_serializes batched_serializes forward_serializes.
  intros Hok. cbn [handle_message].
  assert (∀ mt, error_reply crc32c (seq_id header) ProtocolViolation "unexpected message type" (w, d) = ((w', d'), Ok fl) →
    mt ∉ [Forward; CacheAlloc; CacheFree; Reconfigure; Shutdown; BatchedForward; Victory; ClusterManifest] →
    refines mt (seq_id header) p w w' fl) as Hother.
  { intros mt Hr Hmt. eapply error_answer_refines; [exact Hr | done | done | done |]. by constructor. }
  destruct (msg_type header) eqn:Emt; try (intros Hr; apply Hother; [exact Hr |]; set_solver).
  - apply forward_refines. exact Hok.
  - by apply alloc_refines.
  - by apply free_refines.
  - unfold on_shutdown. intros ([w1 d1] & [] & E1 & Hr)%sbind_Ok. apply in_caches_inv in E1 as (cs1 & E1 & ->).
    apply release_ok in E1 as (Hok1 & Hh1 & _); [| done]. apply sbind_Ok in Hr as ([w2 d2] & [] & E2 & [= <- <- <-]).
    apply on_worker_inv in E2 as [-> ->]. exists []. cbn. rewrite Hh1, dom_empty_L. split; [constructor |]. split; [done |].
    destruct (nothing_said Shutdown w w eq_refl eq_refl) as [Hd _]. split; [exact Hd |]. by left.
  - by apply batched_refines.
  - unfold on_reconfigure. intros (s0 & r & [= <- _] & Hr)%sbind_Ok. apply sbind_Ok in Hr as ([w1 d1] & [] & E1 & Hr).
    apply reconfigure_ok in E1 as (Hok1 & Hh1 & Hw1 & Hs1 & _); [| done].
    assert (and_then (send_empty_or_standby crc32c WorkerReady 0) (sret Continue) (w1, d1) = ((w', d'), Ok fl)) as Hr'.
    { unfold and_then, sbind. rewrite Hr. by destruct fl. }
    eapply (reply_then _ WorkerReady 0 ADone [] _ _ _ _ _ _ Reconfigure) in Hr' as (_ & Hc & _ & Hd & Hf); [| done | done | apply continue_quiet].
    exists [(WorkerReady, 0%Z, ADone)]. rewrite Hc, Hh1, dom_empty_L. split; [constructor |]. split; [done |].
    rewrite Hw1 in Hd. split; [done |]. unfold flows in Hf |- *. by rewrite Hs1, Hw1 in Hf.
  - unfold on_victory_msg. intros Hr. eapply view_refines; [done | exact Hr | | constructor].
    apply sbind_Ok in Hr as (s0 & [v|e] & E1 & Hr); [| apply attempt_inr in E1; injection E1 as <- _; by injection Hr as <- <- <-].
    apply attempt_inl in E1. injection E1 as <- _. apply sbind_Ok in Hr as ([w1 d1] & [] & [= <- <-] & [= <- <- <-]). done.
  - unfold on_manifest. intros Hr. eapply view_refines; [done | exact Hr | | constructor].
    apply sbind_Ok in Hr as (s0 & [v|e] & E1 & Hr); [| apply attempt_inr in E1; injection E1 as <- _; by injection Hr as <- <- <-].
    apply attempt_inl in E1. injection E1 as <- _. apply sbind_Ok in Hr as ([w1 d1] & [] & [= <- <-] & [= <- <- <-]). done.
Qed.
End refinement.
