(* ===== verification/WorkerLoop.v ===== *)
(** * The life of a worker ([bins/fracture-worker-cuda/src/main.rs])

    The router task and the serve loop run side by side over one connection: the
    router answers heartbeats at once and queues every other frame, the loop takes
    them from the queue.  When the connection is lost the worker keeps its state
    and tries to register again; it may also ask its seed nodes for the coordinator
    or, if it is capable, hold an election and take the coordinator's place.

    Time is not modelled: which branch a timeout takes is an argument.  A network
    connection that could not be opened is [None]. *)

From S2P Require Import Prelude F32 Frame Connection LayerScheduler Registry DistPipeline Rebalance Election.
From S2P Require Import Core Backend Kernels BlockTables PagedCache QuantizedCache KvCache CacheIface Gguf WeightStore Engine Contiguous Pipeline Worker.

Definition HeartbeatAckPayload : Type := HeartbeatAck.

(** [RegisterPayload] *)
Record RegisterPayload := {
  rp_node_id : string; rp_gpu_model : string; rp_gpu_memory_total : Z; rp_gpu_memory_available : Z;
  rp_compute_capability : Z * Z; rp_decode_ms_per_layer : f32; rp_prefill_ms_per_layer_128 : f32
}.

(** [FramedConnection::send] *)
Definition conn_send {P : Type} `{Bincode P} (crc32c : list Z → Z) (mt : MessageType) (sid : Z) (payload : P) : st FramedConnection unit :=
  do! payload_bytes := slift (match serialize payload with Err _ => Err (Protocol "serialize") | r => r end) in
  conn_send_raw crc32c mt sid payload_bytes.

(** ** The router *)

Definition heartbeat_ack (s : WorkerStats) (hb : HeartbeatPayload) : HeartbeatAckPayload :=
  {| timestamp_echo := hb_timestamp_ns hb; nonce_echo := hb_nonce hb; ack_gpu_memory_used := st_gpu_memory_used s;
     Registry.active_sequences := st_active_sequences s; ack_free_blocks := st_free_blocks s |}.

Section router.
Variable crc32c : list Z → Z.
Context `{Bincode HeartbeatPayload} `{Bincode HeartbeatAckPayload}.

(** One frame in the router: what goes to the serve loop, and whether the task
    goes on. *)
Definition route_frame (hp : FrameHeader * list Z) : st Worker (option (FrameHeader * list Z) * flow) := λ w,
  if bool_decide (msg_type hp.1 = Heartbeat) then
    match deserialize_payload (P := HeartbeatPayload) hp.2 with
    | Ok hb =>
        let '(wr, r) := send crc32c serialize Frame.HeartbeatAck 0 (heartbeat_ack (wk_stats w) hb) (wk_writer w) in
        let w := set_wk_writer wr w in
        match r with
        | Ok _ => (w, Ok (None, Continue))
        | Err _ => (w, Ok (None, Break))
        | Panic => (w, Panic)
        end
    | Err _ => (w, Ok (None, Continue))
    | Panic => (w, Panic)
    end
  else (w, Ok (Some hp, Continue)).
End router.

(** ** Both tasks over a connection *)

(** Where the serve loop is: at its top, waiting for a frame, or left. *)
Inductive Phase := Top | Waiting | Left.

Record System (D : Type) := {
  sy_worker : Worker;
  sy_device : D;
  sy_phase : Phase;
  sy_reader : FramedReader;
  sy_queue : list (FrameHeader * list Z);
  sy_router : bool
}.
Arguments sy_worker {D}.
Arguments sy_device {D}.
Arguments sy_phase {D}.
Arguments sy_reader {D}.
Arguments sy_queue {D}.
Arguments sy_router {D}.
Arguments Build_System {D}.

Definition next_phase (p : Phase) (fl : flow) : Phase := match fl with Continue => p | Break => Left end.

Section system.
Context {D : Type} `{KernelOps D} `{TimerOps D} `{DeviceInfo D}.
Variable crc32c : list Z → Z.
Variables (from_f16 : Z → f32) (f16_from_f32 : f32 → Z) (bf16_to_f32 : Z → f32) (exp ln cos sin : f64 → f64).
Variables (ho : HashOrder) (model_file : list Z) (cfg : WorkerConfig).
Context `{Bincode ForwardPayload} `{Bincode ForwardResultPayload} `{Bincode BatchedForwardPayload}
  `{Bincode BatchedForwardResultPayload} `{Bincode ErrorPayload} `{Bincode RegisterAckPayload} `{Bincode VictoryPayload}
  `{Bincode ClusterManifestPayload} `{Bincode LeaveIntentPayload} `{Bincode HeartbeatPayload} `{Bincode HeartbeatAckPayload}.

Notation loop_recv := (loop_recv crc32c from_f16 f16_from_f32 bf16_to_f32 exp ln cos sin ho model_file cfg).

(** The steps of the two tasks and of the signal handler; the label is the frame
    the serve loop has handled.  Handling a frame is one step: the router only
    shares the writer, which is locked per frame, and the statistics. *)
Inductive sys_step : System D → option (FrameHeader * list Z) → System D → Prop :=
  | StepRoute w w' d ph rd rd' q hp fwd fl :
      recv crc32c rd = (rd', Ok hp) → route_frame crc32c hp w = (w', Ok (fwd, fl)) →
      sys_step (Build_System w d ph rd q true) None
        (Build_System w' d ph rd' (q ++ option_list fwd) (bool_decide (fl = Continue)))
  | StepLost w d ph rd rd' q e :
      recv crc32c rd = (rd', Err e) → sys_step (Build_System w d ph rd q true) None (Build_System w d ph rd' q false)
  | StepTop w w' d d' rd q rt fl :
      loop_top crc32c (w, d) = ((w', d'), Ok fl) →
      sys_step (Build_System w d Top rd q rt) None (Build_System w' d' (next_phase Waiting fl) rd q rt)
  | StepServe w w' d d' rd hp q rt fl :
      loop_recv (Some hp) (w, d) = ((w', d'), Ok fl) →
      sys_step (Build_System w d Waiting rd (hp :: q) rt) (Some hp) (Build_System w' d' (next_phase Top fl) rd q rt)
  | StepClosed w w' d d' rd fl :
      loop_recv None (w, d) = ((w', d'), Ok fl) →
      sys_step (Build_System w d Waiting rd [] false) None (Build_System w' d' (next_phase Top fl) rd [] false)
  | StepSigterm w d ph rd q rt : sys_step (Build_System w d ph rd q rt) None (Build_System (set_leave true w) d ph rd q rt).

(** A run and the frames it handled, in order. *)
Inductive sys_run : System D → list (FrameHeader * list Z) → System D → Prop :=
  | RunNil s : sys_run s [] s
  | RunStep s l s1 hs s2 : sys_run s hs s1 → sys_step s1 l s2 → sys_run s (hs ++ option_list l) s2.
End system.

(** ** Seeds ([discover_coordinator], the fallback of the reconnection loop, [spawn_peer_listener]) *)

Section seeds.
Variable crc32c : list Z → Z.
Context `{Bincode WhoIsCoordinatorPayload} `{Bincode WhoIsCoordinatorResponsePayload}.

(** A question to one seed: [None] if the connection, the question or the answer
    fails or times out. *)
Definition ask_seed (node_id : string) (seed : option FramedConnection) : option (FrameHeader * list Z) :=
  match seed with
  | None => None
  | Some conn =>
      match conn_send crc32c WhoIsCoordinator 0 {| who_node_id := node_id |} conn with
      | (conn, Ok _) => match conn_recv crc32c conn with (_, Ok hp) => Some hp | _ => None end
      | _ => None
      end
  end.

(** One pass over the seeds: the first that knows the coordinator, or the error of
    an answer that cannot be read. *)
Fixpoint discover_pass (node_id : string) (seeds : list (option FramedConnection))
    : result (option (string * Z * option ClusterManifestPayload)) :=
  match seeds with
  | [] => Ok None
  | seed :: seeds' =>
      match ask_seed node_id seed with
      | Some (header, payload) =>
          if bool_decide (msg_type header = WhoIsCoordinatorResponse) then
            let? resp := deserialize_payload (P := WhoIsCoordinatorResponsePayload) payload in
            match who_coordinator_addr resp with
            | Some addr => Ok (Some (addr, who_term resp, who_manifest resp))
            | None => discover_pass node_id seeds'
            end
          else discover_pass node_id seeds'
      | None => discover_pass node_id seeds'
      end
  end.

(** [backoff = (backoff * 2).min(max_backoff)] in milliseconds *)
Definition next_backoff (b : Z) : Z := Z.min (b * 2) 30000.

(** The time slept for a backoff, with a jitter of a quarter of it either way:
    [u] is the random number, from 0 to 1.  ([f64::max] and [x as u64] are those
    of the other format.) *)
Definition sleep_ms (backoff : Z) (u : f64) : Z :=
  let jitter_range := f64_mul (f64_of_Z backoff) (f64_lit 25 2) in
  let jitter_ms := f64_mul (f64_mul (f64_sub u (f64_lit 5 1)) (f64_of_Z 2)) jitter_range in
  f32_to_usize (f32_max (f64_add (f64_of_Z backoff) jitter_ms) (f64_of_Z 100)).

(** [discover_coordinator]: [rounds] are the outcomes of the passes, each with the
    random number of the sleep that follows it; [slept] are the sleeps so far. *)
Fixpoint discover_coordinator (node_id : string) (rounds : list (list (option FramedConnection) * f64)) (backoff : Z) (slept : list Z)
    : result (option (string * Z * option ClusterManifestPayload) * list Z) :=
  match rounds with
  | [] => Ok (None, slept)
  | (seeds, u) :: rounds' =>
      let? found := discover_pass node_id seeds in
      match found with
      | Some r => Ok (Some r, slept)
      | None => discover_coordinator node_id rounds' (next_backoff backoff) (slept ++ [sleep_ms backoff u])
      end
  end.

(** The fallback: the answer of the first seed that knows an address. *)
Fixpoint seed_fallback (node_id : string) (seeds : list (option FramedConnection)) (coordinator_addr : string) : string :=
  match seeds with
  | [] => coordinator_addr
  | seed :: seeds' =>
      match ask_seed node_id seed with
      | Some (header, payload) =>
          if bool_decide (msg_type header = WhoIsCoordinatorResponse) then
            match deserialize_payload (P := WhoIsCoordinatorResponsePayload) payload with
            | Ok resp => match who_coordinator_addr resp with Some addr => addr | None => seed_fallback node_id seeds' coordinator_addr end
            | _ => seed_fallback node_id seeds' coordinator_addr
            end
          else seed_fallback node_id seeds' coordinator_addr
      | None => seed_fallback node_id seeds' coordinator_addr
      end
  end.

(** The answer of the peer listener, from its view of the cluster. *)
Definition who_is_response (cv : ClusterView) : WhoIsCoordinatorResponsePayload :=
  {| who_coordinator_addr := m ← cluster_manifest cv; (λ i, pi_address i.2) <$> list_find (λ n, pi_role n = RCoordinator) (cm_nodes m);
     who_term := current_term cv; who_manifest := cluster_manifest cv |}.
Definition answer_peer (cv : ClusterView) (conn : FramedConnection) : FramedConnection :=
  match conn_recv crc32c conn with
  | (conn, Ok (header, _)) =>
      if bool_decide (msg_type header = WhoIsCoordinator) then (conn_send crc32c WhoIsCoordinatorResponse 0 (who_is_response cv) conn).1 else conn
  | (conn, _) => conn
  end.
End seeds.

(** ** Reconnection *)

(** The variables of the loop, and the milliseconds of its sleeps so far. *)
Record Reconnect := { rc_backoff : Z; election_started : bool; rc_coordinator_addr : string; rc_slept : list Z }.
Definition reconnect_start (addr : string) : Reconnect :=
  {| rc_backoff := 1000; election_started := false; rc_coordinator_addr := addr; rc_slept := [] |}.
Definition back_off (rc : Reconnect) : Reconnect :=
  {| rc_backoff := next_backoff (rc_backoff rc); election_started := election_started rc; rc_coordinator_addr := rc_coordinator_addr rc;
     rc_slept := rc_slept rc |}.
Definition set_addr (addr : string) (rc : Reconnect) : Reconnect :=
  {| rc_backoff := rc_backoff rc; election_started := election_started rc; rc_coordinator_addr := addr; rc_slept := rc_slept rc |}.
Definition sleep (u : f64) (rc : Reconnect) : Reconnect :=
  {| rc_backoff := rc_backoff rc; election_started := election_started rc; rc_coordinator_addr := rc_coordinator_addr rc;
     rc_slept := rc_slept rc ++ [sleep_ms (rc_backoff rc) u] |}.

(** The election of a worker that has waited long enough ([timed_out]): no peer is
    asked.  The result says whether it won. *)
Definition try_election (cfg : WorkerConfig) (timed_out : bool) : st (Worker * Reconnect) bool := λ '(w, rc),
  if negb (election_started rc) && coordinator_capable cfg && timed_out && bool_decide (is_Some (cluster_manifest (wk_view w))) then
    match election_agent (wk_view w) with
    | None => ((w, rc), Ok false)
    | Some a =>
        let with_agent a := set_view {| current_term := current_term (wk_view w); cluster_manifest := cluster_manifest (wk_view w);
                                        election_agent := Some a |} w in
        let rc := {| rc_backoff := rc_backoff rc; election_started := true; rc_coordinator_addr := rc_coordinator_addr rc; rc_slept := rc_slept rc |} in
        match start_election a with
        | (a, Ok _) =>
            let '(a, action) := on_election_timeout a in
            ((with_agent a, rc), Ok (bool_decide (action = DeclareVictory)))
        | (a, Err e) => ((with_agent a, rc), Err e)
        | (a, Panic) => ((with_agent a, rc), Panic)
        end
    end
  else ((w, rc), Ok false).

Section reconnect.
Context {D : Type} `{KernelOps D} `{TimerOps D} `{DeviceInfo D}.
Variable crc32c : list Z → Z.
Variables (f16_from_f32 : f32 → Z) (bf16_to_f32 : Z → f32) (exp ln cos sin : f64 → f64).
Variables (ho : HashOrder) (model_file : list Z) (cfg : WorkerConfig).
Context `{Bincode RegisterAckPayload} `{Bincode ReRegisterPayload} `{Bincode WhoIsCoordinatorPayload}
  `{Bincode WhoIsCoordinatorResponsePayload} `{Bincode RegisterPayload}.

Definition reregister_payload (w : Worker) (d : D) : ReRegisterPayload :=
  let r := nc_layer_range (node_config (wk_node w)) in
  {| rr_node_id := wc_node_id cfg; rr_gpu_model := device_name; rr_gpu_memory_total := total_memory d;
     rr_gpu_memory_available := available_memory d; rr_compute_capability := (0, 0)%Z;
     rr_decode_ms_per_layer := decode_ms cfg; rr_prefill_ms_per_layer_128 := prefill_ms cfg;
     current_layer_start := Some (wrap 32 (rstart r)); current_layer_end := Some (wrap 32 (rend r));
     active_cache_seq_ids := (hm_iter ho (handles (wk_caches w))).*1 |}.

(** How an attempt ended: the worker goes on waiting, serves the new connection
    (with its reader for a new router), or leaves. *)
Inductive attempt_end := Retry | Serving (rd : FramedReader) | Leaving.

(** [WorkerReady] on the new connection, which then replaces the old one. *)
Definition announce_ready (conn : FramedConnection) : st Worker attempt_end := λ w,
  match conn_send_empty crc32c WorkerReady 0 conn with
  | (conn, Ok _) =>
      let '(wr, rd) := conn_into_split conn in (set_wstate Ready (set_wk_writer wr w), Ok (Serving rd))
  | (_, Err _) => (w, Ok Retry)
  | (_, Panic) => (w, Panic)
  end.

(** A connection to the coordinator: [ReRegister] and what is answered. *)
Definition reregister (conn : FramedConnection) : st (Worker * D) attempt_end := λ '(w, d),
  match conn_send crc32c ReRegister 0 (reregister_payload w d) conn with
  | (conn, Ok _) =>
      match conn_recv crc32c conn with
      | (conn, Ok (hdr, pay)) =>
          match msg_type hdr with
          | RegisterAck => let '(w, r) := announce_ready conn w in ((w, d), r)
          | Reconfigure =>
              match deserialize_payload (P := RegisterAckPayload) pay with
              | Ok reconf =>
                  match reconfigure f16_from_f32 bf16_to_f32 exp ln cos sin ho model_file cfg reconf (w, d) with
                  | ((w, d), Ok _) => let '(w, r) := announce_ready conn w in ((w, d), r)
                  | (s, Err e) => (s, Err e)
                  | (s, Panic) => (s, Panic)
                  end
              | Err _ => ((w, d), Ok Retry)
              | Panic => ((w, d), Panic)
              end
          | Shutdown => ((set_wstate Exited w, d), Ok Leaving)
          | _ => ((w, d), Ok Retry)
          end
      | (_, Err _) => ((w, d), Ok Retry)
      | (_, Panic) => ((w, d), Panic)
      end
  | (_, Err _) => ((w, d), Ok Retry)
  | (_, Panic) => ((w, d), Panic)
  end.

(** One round of the reconnection loop, after the election: the outcome of
    connecting to the coordinator and, if that failed, to the seeds. *)
Definition reconnect_round (conn : option FramedConnection) (seeds : list (option FramedConnection))
    : st (Worker * D * Reconnect) attempt_end := λ '(w, d, rc),
  match conn with
  | Some conn =>
      match reregister conn (w, d) with
      | ((w, d), Ok Retry) => ((w, d, back_off rc), Ok Retry)
      | ((w, d), r) => ((w, d, rc), r)
      end
  | None =>
      let addr := seed_fallback crc32c (wc_node_id cfg) seeds (rc_coordinator_addr rc) in
      ((w, d, back_off (set_addr addr rc)), Ok Retry)
  end.

(** What a round meets: whether the election timeout has passed, the random number
    of the sleep, the connection to the coordinator, and those to the seeds. *)
Record Round := { rd_timed_out : bool; rd_random : f64; rd_conn : option FramedConnection; rd_seeds : list (option FramedConnection) }.

(** The loop over its rounds. *)
Fixpoint reconnect_loop (rounds : list Round) : st (Worker * D * Reconnect) attempt_end := λ '(w, d, rc),
  match rounds with
  | [] => ((w, d, rc), Ok Retry)
  | r :: rounds' =>
      match try_election cfg (rd_timed_out r) (w, rc) with
      | ((w, rc), Ok _) =>
          match reconnect_round (rd_conn r) (rd_seeds r) (w, d, sleep (rd_random r) rc) with
          | (s, Ok Retry) => reconnect_loop rounds' s
          | r => r
          end
      | ((w, rc), Err e) => ((w, d, rc), Err e)
      | ((w, rc), Panic) => ((w, d, rc), Panic)
      end
  end.

(** ** Start *)

(** From the connection to the coordinator to the serve loop. *)
Definition worker_start (coordinator_priority : Z) (conn : FramedConnection) : st D (Worker * FramedReader) :=
  do! cs := λ d, (d,
    let payload := {| rp_node_id := wc_node_id cfg; rp_gpu_model := device_name; rp_gpu_memory_total := total_memory d;
                      rp_gpu_memory_available := available_memory d; rp_compute_capability := (0, 0)%Z;
                      rp_decode_ms_per_layer := decode_ms cfg; rp_prefill_ms_per_layer_128 := prefill_ms cfg |} in
    match conn_send crc32c Register 0 payload conn with
    | (conn, Ok _) => match conn_recv crc32c conn with
                      | (conn, Ok hp) => Ok (conn, hp) | (_, Err e) => Err e | (_, Panic) => Panic end
    | (_, Err e) => Err e
    | (_, Panic) => Panic
    end) in
  let '(conn, (header, payload)) := cs in
  if negb (bool_decide (msg_type header = RegisterAck)) then serr (Protocol "expected RegisterAck")
  else
    do! ack := slift (deserialize_payload (P := RegisterAckPayload) payload) in
    do! node := new_node f16_from_f32 bf16_to_f32 model_file ack in
    do! qp := new_paged_caches exp ln cos sin ho cfg ack in
    let caches := {| cache := new_cache ack; quantized_cache := qp.1; paged_cache := qp.2; handles := ∅; paged_handles := ∅ |} in
    do! used := λ d, (d, usub (total_memory d) (available_memory d)) in
    do! free := slift (paged_free_blocks caches) in
    do! wr := slift (match conn_send_empty crc32c WorkerReady 0 conn with
                     | (conn, Ok _) => Ok (conn_into_split conn) | (_, Err e) => Err e | (_, Panic) => Panic end) in
    let agent := agent_new {| Election.node_id := wc_node_id cfg; priority := coordinator_priority; election_window_ms := 5000 |} 0 in
    sret ({| wk_node := node; wk_caches := caches;
             wk_stats := {| st_gpu_memory_used := used; st_active_sequences := 0; st_free_blocks := wrap 32 free |};
             wk_state := Ready;
             wk_view := {| current_term := 0; cluster_manifest := None; election_agent := if coordinator_capable cfg then Some agent else None |};
             wk_leave_requested := false; wk_writer := wr.1 |}, wr.2).
End reconnect.

(** ** Taking the coordinator's place ([reconstruct_state]) *)

Section reconstruct.
Variable crc32c : list Z → Z.
Context `{Bincode RegisterAckPayload} `{Bincode ReRegisterPayload}.

Definition caps_of (r : ReRegisterPayload) : WorkerCapabilities :=
  {| LayerScheduler.node_id := rr_node_id r; gpu_model := rr_gpu_model r; gpu_memory_available := rr_gpu_memory_available r;
     compute_capability := rr_compute_capability r; decode_ms_per_layer := rr_decode_ms_per_layer r;
     prefill_ms_per_layer_128 := rr_prefill_ms_per_layer_128 r |}.

(** The loop that accepts peers, until the expected number has registered or the
    outcomes of [accept] end with the timeout. *)
Fixpoint accept_peers (expected : nat) (accepts : list (option (Z * FramedConnection))) : st PeerRegistry unit :=
  match expected, accepts with
  | 0, _ | _, [] => sret ()
  | S _, None :: accepts' => accept_peers expected accepts'
  | S expected', Some (now, conn) :: accepts' =>
      match conn_recv crc32c conn with
      | (conn, Ok (header, payload)) =>
          if bool_decide (msg_type header = ReRegister) then
            do! rereg := slift (deserialize_payload (P := ReRegisterPayload) payload) in
            do! _ := register now (caps_of rereg) conn in
            accept_peers expected' accepts'
          else accept_peers expected accepts'
      | _ => accept_peers expected accepts'
      end
  end.

(** The answer to one peer; errors are ignored. *)
Definition ack_peer (self_node_id : string) (c : ModelConfig) (max_seq_len : Z) (reg : PeerRegistry) (a : LayerAssignment) : PeerRegistry :=
  if bool_decide (la_node_id a = self_node_id) then reg
  else
    let reg := (assign (la_node_id a) a reg).1 in
    (with_writer (la_node_id a) (send crc32c serialize RegisterAck 0 (reconfigure_payload c max_seq_len a)) reg).1.

(** Waiting for [WorkerReady]: one frame is read, whatever it is. *)
Definition await_peer (self_node_id : string) (reg : PeerRegistry) (a : LayerAssignment) : PeerRegistry :=
  if bool_decide (la_node_id a = self_node_id) then reg else (with_reader (la_node_id a) (recv crc32c) reg).1.

Definition reconstruct_input (ho : HashOrder) (self_caps : WorkerCapabilities) (c : ModelConfig) (max_seq_len : Z) (reg : PeerRegistry) : SchedulerInput :=
  {| model_config := c; workers := all_capabilities ho reg ++ [self_caps]; coordinator_compute := None; mode := Auto;
     input_max_seq_len := max_seq_len; hop_latency_ms := f32_of_Z 2 |}.

Definition reconstruct_state (ho : HashOrder) (self_node_id : string) (self_caps : WorkerCapabilities) (c : ModelConfig) (max_seq_len : Z)
    (expected_peers : nat) (accepts : list (option (Z * FramedConnection))) : result (DistributedPipeline * PeerRegistry) :=
  match accept_peers expected_peers accepts registry_new with
  | (reg, Ok _) =>
      let? result := schedule (reconstruct_input ho self_caps c max_seq_len reg) in
      let reg := foldl (ack_peer self_node_id c max_seq_len) reg (assignments result) in
      let reg := foldl (await_peer self_node_id) reg (assignments result) in
      let? pipeline := pipeline_new (assignments result) (Core.hidden_size c) in
      Ok (pipeline, reg)
  | (_, Err e) => Err e
  | (_, Panic) => Panic
  end.
End reconstruct.

(** ** Calibration ([run_calibration]) *)

Section calibration.
Context {D : Type} `{KernelOps D} `{TimerOps D}.
Variable from_f16 : Z → f32.

(** One timed pass; [elapsed] is what the clock shows. *)
Definition timed_pass (node : ComputeNodeImpl) (ids positions : list Z) (elapsed : f32) : st (KvCacheManager * D) f32 :=
  do! h := kv_alloc in
  do! _ := cn_forward from_f16 node (Engine.TokenIds ids positions) h false in
  do! _ := dev b_synchronize in
  do! _ := kv_free h in
  sret elapsed.

Definition WARMUP : nat := 5.
Definition TOTAL : nat := 20.
(** [times[WARMUP..].iter().sum::<f32>() / (TOTAL - WARMUP) as f32] *)
Definition average (times : list f32) : f32 := f32_div (f32_sum (drop WARMUP times)) (f32_of_Z (Z.of_nat (TOTAL - WARMUP))).

Definition run_calibration (f16_from_f32 : f32 → Z) (bf16_to_f32 : Z → f32) (model_file : list Z) (c : ModelConfig)
    (decode_clock prefill_clock : nat → f32) : st D (f32 * f32) := λ d,
  (do! gguf := slift (parse_header_bytes model_file) in
   do! ws := load f16_from_f32 bf16_to_f32 gguf model_file (Some {| rstart := 0; rend := 1 |}) in
   do! nc := slift (NodeConfig_new {| rstart := 0; rend := 1 |} (num_layers c)) in
   let node := {| cn_engine := {| weights := ws; e_layer_range := {| rstart := 0; rend := 1 |} |}; node_config := nc |} in
   λ d,
   let cache := kv_new 1 (num_kv_heads c) (head_dim c) (Z.to_nat (max_seq_len c)) in
   match (do! decode_times := smapM (λ i, timed_pass node [1%Z] [0%Z] (decode_clock i)) (seq 0 TOTAL) in
          do! prefill_times := smapM (λ i, timed_pass node (replicate 128 1%Z) (Z.of_nat <$> seq 0 128) (prefill_clock i)) (seq 0 TOTAL) in
          sret (average decode_times, average prefill_times)) (cache, d) with
   | ((_, d), r) => (d, r)
   end) d.
End calibration.

(** ** The worker implements its specification *)

Section runs.
Context {D : Type} `{KernelOps D} `{TimerOps D} `{DeviceInfo D}.
Variable crc32c : list Z → Z.
Context `{Bincode ForwardPayload} `{Bincode ForwardResultPayload} `{Bincode BatchedForwardPayload}
  `{Bincode BatchedForwardResultPayload} `{Bincode ErrorPayload} `{Bincode RegisterAckPayload} `{Bincode VictoryPayload}
  `{Bincode ClusterManifestPayload} `{Bincode LeaveIntentPayload} `{Bincode HeartbeatPayload} `{Bincode HeartbeatAckPayload}.

(** The abstract worker over a sequence of messages. *)
Inductive spec_run (S : gset Z) : list (FrameHeader * list Z) → gset Z → list (MessageType * Z * Answer) → Prop :=
  | SpecNil : spec_run S [] S []
  | SpecSnoc hs S1 rs header p S2 reps :
      spec_run S hs S1 rs → spec_step S1 (msg_type header) (seq_id header) p S2 reps →
      spec_run S (hs ++ [(header, p)]) S2 (rs ++ reps).

(** Messages the worker sends that answer no request. *)
Definition unasked (m : MessageType * Z * list Z) : bool :=
  bool_decide (m.1.1 = Frame.HeartbeatAck) || bool_decide (m.1.1 = Frame.LeaveIntent).

(** [said] is what the worker has sent: the answers [rs] and what nobody asked for. *)
Definition says (rs : list (MessageType * Z * Answer)) (said : list (MessageType * Z * list Z)) : Prop :=
  ∃ bss, Forall2 (λ rep bs, answers rep.2 bs) rs bss ∧ filter (λ m, unasked m = false) said = wire_of rs bss.

Lemma spec_reply_kinds S mt sid p S' reps : spec_step S mt sid p S' reps → Forall (λ rep, rep.1.1 ≠ Frame.HeartbeatAck ∧ rep.1.1 ≠ Frame.LeaveIntent) reps.
Proof. by destruct 1; repeat constructor. Qed.

Lemma wire_asked reps bss :
  Forall (λ rep, rep.1.1 ≠ Frame.HeartbeatAck ∧ rep.1.1 ≠ Frame.LeaveIntent) reps → filter (λ m, unasked m = false) (wire_of reps bss) = wire_of reps bss.
Proof.
  intros Hk. revert bss. induction Hk as [|[[mt sid] a] reps [Ha Hl] _ IH]; intros [|bs bss]; [done.. |]. cbn [wire_of zip_with fst].
  rewrite filter_cons_True; [f_equal; apply IH |]. unfold unasked. cbn in Ha, Hl |- *. by rewrite !bool_decide_false.
Qed.

Lemma says_app rs reps said bss :
  says rs said → Forall2 (λ rep bs, answers rep.2 bs) reps bss → Forall (λ rep, rep.1.1 ≠ Frame.HeartbeatAck ∧ rep.1.1 ≠ Frame.LeaveIntent) reps →
  says (rs ++ reps) (said ++ wire_of reps bss).
Proof.
  intros (bs0 & Ha & Hf) Hb Hk. exists (bs0 ++ bss). split; [by apply Forall2_app |].
  rewrite filter_app, Hf, wire_asked by done. unfold wire_of. by rewrite zip_with_app by (by eapply Forall2_length).
Qed.

Lemma says_unasked rs said m : says rs said → unasked m = true → says rs (said ++ [m]).
Proof.
  intros (bss & Ha & Hf) Hm. exists bss. split; [done |]. rewrite filter_app, Hf, filter_cons_False, filter_nil, app_nil_r; [done |]. by rewrite Hm.
Qed.

Lemma frames_of_one m : frames_of crc32c [m] = frame_of crc32c m.
Proof. change (frames_of crc32c [m]) with (frame_of crc32c m ++ []). apply app_nil_r. Qed.

Definition not_heartbeat (hp : FrameHeader * list Z) : bool := negb (bool_decide (msg_type hp.1 = Heartbeat)).
Variables (from_f16 : Z → f32) (f16_from_f32 : f32 → Z) (bf16_to_f32 : Z → f32) (exp ln cos sin : f64 → f64).
Variables (ho : HashOrder) (model_file : list Z) (cfg : WorkerConfig).
Hypothesis crc32c_u32 : ∀ l, in_width 32 (crc32c l).
Hypothesis forward_serializes : ∀ r : ForwardResultPayload, ∃ bs, serialize r = Ok bs.
Hypothesis batched_serializes : ∀ r : BatchedForwardResultPayload, ∃ bs, serialize r = Ok bs.
Hypothesis error_serializes : ∀ r : ErrorPayload, ∃ bs, serialize r = Ok bs.

Notation step := (sys_step (D := D) crc32c from_f16 f16_from_f32 bf16_to_f32 exp ln cos sin ho model_file cfg).
Notation run := (sys_run (D := D) crc32c from_f16 f16_from_f32 bf16_to_f32 exp ln cos sin ho model_file cfg).

(** The state after [hs] have been handled of the messages [msgs] the coordinator
    has sent: they are, with the queue, the first of the messages that are no
    heartbeats; the worker has the sequences open and has sent the answers that
    its specification asks for. *)
Definition run_ok (w0 : Worker) (msgs : list (MessageType * Z * list Z)) (hs : list (FrameHeader * list Z)) (s : System D) : Prop :=
  ∃ n rs said,
    r_stream (sy_reader s) = frames_of crc32c (drop n msgs) ∧
    hs ++ sy_queue s = filter (λ hp, not_heartbeat hp = true) (msg_frame <$> take n msgs) ∧
    spec_run (dom (handles (wk_caches w0))) hs (dom (handles (wk_caches (sy_worker s)))) rs ∧
    caches_ok (wk_caches (sy_worker s)) ∧ says rs said ∧
    wk_writer (sy_worker s) = {| w_sent := w_sent (wk_writer w0) ++ frames_of crc32c said; w_open := true |}.

(** Sending when the connection is open: the frame is written, or nothing. *)
Lemma send_open {A : Type} `{Bincode A} mt sid (x : A) wr wr' r :
  w_open wr = true → send crc32c serialize mt sid x wr = (wr', r) →
  wr' = wr ∨ ∃ bs, wr' = {| w_sent := w_sent wr ++ frame_of crc32c (mt, sid, bs); w_open := true |}.
Proof.
  intros Ho. unfold send, sbind, slift. destruct (serialize x) as [bs| |]; [| by intros [= <- _]; left..].
  rewrite (send_raw_open _ _ _ _ _ Ho). intros [= <- _]. right. by exists bs.
Qed.

Lemma route_core hp w w' fwd fl :
  w_open (wk_writer w) = true → route_frame crc32c hp w = (w', Ok (fwd, fl)) →
  wk_caches w' = wk_caches w ∧ option_list fwd = (if not_heartbeat hp then [hp] else []) ∧
  (wk_writer w' = wk_writer w ∨
   ∃ bs, wk_writer w' = {| w_sent := w_sent (wk_writer w) ++ frame_of crc32c (Frame.HeartbeatAck, 0%Z, bs); w_open := true |}).
Proof.
  intros Ho. unfold route_frame, not_heartbeat. case_bool_decide; [| intros [= <- <- <-]; by split_and!; [.. | left]].
  destruct (deserialize_payload hp.2) as [hb| |]; [| intros [= <- <- <-]; by split_and!; [.. | left] | done].
  destruct (send crc32c serialize Frame.HeartbeatAck 0 _ (wk_writer w)) as [wr r] eqn:Hs.
  apply send_open in Hs; [| done]. destruct r; intros Hr; [| | done]; injection Hr as <- <- <-; by split_and!.
Qed.

Lemma top_core w (d : D) w' d' fl :
  w_open (wk_writer w) = true → loop_top crc32c (w, d) = ((w', d'), Ok fl) →
  wk_caches w' = wk_caches w ∧
  (wk_writer w' = wk_writer w ∨
   ∃ bs, wk_writer w' = {| w_sent := w_sent (wk_writer w) ++ frame_of crc32c (Frame.LeaveIntent, 0%Z, bs); w_open := true |}).
Proof.
  intros Ho. unfold loop_top. intros (s0 & w1 & [= <- <-] & Hr)%sbind_Ok. cbn [fst] in Hr. destruct (negb _).
  { injection Hr as <- <- <-. split; [done | by left]. }
  unfold check_leave in Hr. apply sbind_Ok in Hr as (s0 & w1 & [= <- <-] & Hr). cbn [fst] in Hr. destruct (wk_leave_requested w).
  2:{ injection Hr as <- <- <-. split; [done | by left]. }
  unfold and_then in Hr. apply sbind_Ok in Hr as ([w1 d1] & f & Hs & Hr). unfold send_or_standby, or_standby in Hs.
  destruct (send crc32c serialize _ _ _ _) as [wr r] eqn:Hse. apply send_open in Hse; [| done].
  destruct r as [u|e|]; [| | done]; injection Hs as <- <- <-.
  - apply sbind_Ok in Hr as ([w2 d2] & [] & [= <- <-] & [= <- <- <-]). by split.
  - injection Hr as <- <- <-. by split.
Qed.
(** A step that only sends a message that nobody asked for, or none. *)
Lemma quiet_ok w0 msgs hs s s' mt :
  run_ok w0 msgs hs s → sy_reader s' = sy_reader s → sy_queue s' = sy_queue s → wk_caches (sy_worker s') = wk_caches (sy_worker s) →
  unasked (mt, 0%Z, []) = true →
  (wk_writer (sy_worker s') = wk_writer (sy_worker s) ∨
   ∃ bs, wk_writer (sy_worker s') = {| w_sent := w_sent (wk_writer (sy_worker s)) ++ frame_of crc32c (mt, 0%Z, bs); w_open := true |}) →
  run_ok w0 msgs hs s'.
Proof.
  intros (n & rs & said & Hrd & Hq & Hsp & Hok & Hsay & Hw) Erd Eq Ec Hun Hwr. unfold run_ok. rewrite Erd, Eq, Ec.
  destruct Hwr as [->|[bs ->]]; [by exists n, rs, said |].
  exists n, rs, (said ++ [(mt, 0%Z, bs)]). split_and!; try done; [by apply says_unasked |].
  rewrite Hw. cbn. by rewrite frames_of_app, frames_of_one, app_assoc.
Qed.

(** The router takes the next message from the stream. *)
Lemma recv_next msgs n rd rd' hp :
  Forall msg_fits msgs → r_stream rd = frames_of crc32c (drop n msgs) → recv crc32c rd = (rd', Ok hp) →
  ∃ m, msgs !! n = Some m ∧ hp = msg_frame m ∧ r_stream rd' = frames_of crc32c (drop (S n) msgs).
Proof using crc32c_u32.
  intros Hfit Hrd Hr. destruct rd as [bytes]. cbn in Hrd. subst bytes. destruct (msgs !! n) as [m|] eqn:Em.
  - rewrite (drop_S _ _ _ Em) in Hr. change (frames_of crc32c (m :: drop (S n) msgs)) with (frame_of crc32c m ++ frames_of crc32c (drop (S n) msgs)) in Hr.
    destruct m as [[mt sid] pl]. unfold frame_of in Hr at 1. cbn [fst snd] in Hr.
    rewrite (recv_msg crc32c crc32c_u32) in Hr by (rewrite Forall_forall in Hfit; apply Hfit; by eapply list_elem_of_lookup_2).
    injection Hr as <- <-. by exists (mt, sid, pl).
  - apply lookup_ge_None in Em. rewrite drop_ge in Hr by done. exfalso. apply recv_shortens in Hr. cbn in Hr. lia.
Qed.

Lemma recv_end msgs n rd rd' e :
  Forall msg_fits msgs → r_stream rd = frames_of crc32c (drop n msgs) → recv crc32c rd = (rd', Err e) →
  r_stream rd' = frames_of crc32c (drop n msgs).
Proof using crc32c_u32.
  intros Hfit Hrd Hr. destruct rd as [bytes]. cbn in Hrd. subst bytes. destruct (msgs !! n) as [m|] eqn:Em.
  - rewrite (drop_S _ _ _ Em) in Hr. change (frames_of crc32c (m :: drop (S n) msgs)) with (frame_of crc32c m ++ frames_of crc32c (drop (S n) msgs)) in Hr.
    destruct m as [[mt sid] pl]. unfold frame_of in Hr at 1. cbn [fst snd] in Hr.
    rewrite (recv_msg crc32c crc32c_u32) in Hr by (rewrite Forall_forall in Hfit; apply Hfit; by eapply list_elem_of_lookup_2). done.
  - apply lookup_ge_None in Em. rewrite drop_ge in Hr |- * by done. by injection Hr as <- _.
Qed.

Lemma step_ok w0 msgs hs s l s' :
  Forall msg_fits msgs → run_ok w0 msgs hs s → step s l s' → run_ok w0 msgs (hs ++ option_list l) s'.
Proof using crc32c_u32 error_serializes batched_serializes forward_serializes.
  intros Hfit Hrun Hst. pose proof Hrun as (n & rs & said & Hrd & Hq & Hsp & Hok & Hsay & Hw).
  destruct Hst as [w w' d ph rd rd' q hp fwd fl Hr Hf|w d ph rd rd' q e Hr|w w' d d' rd q rt fl Hr|w w' d d' rd hp q rt fl Hr|w w' d d' rd fl Hr|w d ph rd q rt];
    cbn [sy_worker sy_reader sy_queue option_list] in *; rewrite ?app_nil_r.
  - destruct (recv_next _ _ _ _ _ Hfit Hrd Hr) as (m & Hm & -> & Hrd'). destruct (route_core _ _ _ _ _ ltac:(by rewrite Hw) Hf) as (Hc & Hfwd & Hwr).
    unfold run_ok. cbn [sy_worker sy_reader sy_queue]. rewrite Hc. exists (S n), rs.
    assert (hs ++ q ++ option_list fwd = filter (λ hp, not_heartbeat hp = true) (msg_frame <$> take (S n) msgs)) as Hq'.
    { rewrite app_assoc, Hq, (take_S_r _ _ _ Hm), fmap_app, filter_app, Hfwd. f_equal. cbn [fmap list_fmap]. rewrite filter_cons, filter_nil.
      destruct (not_heartbeat (msg_frame m)) eqn:E; case_decide; done. }
    destruct Hwr as [Hwr|[bs Hwr]].
    + exists said. rewrite Hwr. by split_and!.
    + exists (said ++ [(Frame.HeartbeatAck, 0%Z, bs)]). split_and!; try done; [by apply says_unasked |].
      rewrite Hwr, Hw. cbn. by rewrite frames_of_app, frames_of_one, app_assoc.
  - exists n, rs, said. split_and!; try done. cbn. by eapply recv_end.
  - destruct (top_core _ _ _ _ _ ltac:(by rewrite Hw) Hr) as [Hc Hwr]. by eapply (quiet_ok _ _ _ _ _ Frame.LeaveIntent).
  - destruct hp as [header p]. eapply handle_refines in Hr as (reps & Hs & Hok' & (bss & Hans & Hwr) & _); try done. rewrite Hw in Hwr. cbn in Hwr.
    exists n, (rs ++ reps), (said ++ wire_of reps bss). cbn [sy_worker sy_reader sy_queue]. split_and!; try done.
    + rewrite <- Hq. by rewrite <- app_assoc.
    + by econstructor.
    + apply says_app; [done | done |]. by eapply spec_reply_kinds.
    + rewrite Hwr. by rewrite frames_of_app, app_assoc.
  - apply sbind_Ok in Hr as ([w1 d1] & [] & [= <- <-] & [= <- <- <-]). by exists n, rs, said.
  - by exists n, rs, said.
Qed.

Lemma run_keeps w0 msgs s hs s' : Forall msg_fits msgs → run_ok w0 msgs [] s → run s hs s' → run_ok w0 msgs hs s'.
Proof using crc32c_u32 error_serializes batched_serializes forward_serializes.
  intros Hfit Hs0 Hrun. induction Hrun as [s|s l s1 hs s2 Hrun IH Hst]; [done |]. eapply step_ok; [done | by apply IH | done].
Qed.

(** A worker that starts to serve a connection. *)
Definition serving (w : Worker) (d : D) (msgs : list (MessageType * Z * list Z)) : System D :=
  {| sy_worker := w; sy_device := d; sy_phase := Top; sy_reader := {| r_stream := frames_of crc32c msgs |}; sy_queue := []; sy_router := true |}.

(** C22: the worker implements its specification, whatever the coordinator sends
    and however the router, the serve loop and a termination signal interleave.
    In every reachable state the frames that have been handled, followed by those
    in the queue, are the messages sent so far without the heartbeats, each once
    and in order; the open sequences are those of the abstract worker after the
    handled messages; every open sequence of the contiguous cache and of the
    paged cache belongs to exactly one sequence id, and both caches have the same
    ids; and besides heartbeat acks and leave intents exactly the answers of the
    abstract worker have been sent, in order, as whole frames. *)
Theorem worker_refines_spec w d msgs hs s :
  caches_ok (wk_caches w) → w_open (wk_writer w) = true → Forall msg_fits msgs → run (serving w d msgs) hs s →
  run_ok w msgs hs s.
Proof using crc32c_u32 error_serializes batched_serializes forward_serializes.
  intros Hok Ho Hfit Hrun. eapply run_keeps; [done | | exact Hrun]. exists 0, [], []. cbn. split_and!; try done.
  - constructor.
  - exists []. split; [constructor | done].
  - change (frames_of crc32c []) with ([] : list Z). rewrite app_nil_r. by destruct (wk_writer w) as [snt []].
Qed.
(** A worker that waits for a message does not notice the termination signal: as
    long as only heartbeats arrive it answers them and never says that it wants
    to leave. *)
Theorem sigterm_unnoticed w d msgs hs s :
  w_open (wk_writer w) = true → Forall msg_fits msgs → Forall (λ m, m.1.1 = Heartbeat) msgs →
  run (Build_System w d Waiting {| r_stream := frames_of crc32c msgs |} [] true) hs s →
  hs = [] ∧ ∃ said, wk_writer (sy_worker s) = {| w_sent := w_sent (wk_writer w) ++ frames_of crc32c said; w_open := true |} ∧
    Forall (λ m, m.1.1 = Frame.HeartbeatAck) said.
Proof using crc32c_u32.
  intros Ho Hfit Hhb Hrun.
  assert (hs = [] ∧ sy_phase s ≠ Top ∧ sy_queue s = [] ∧ ∃ n said, r_stream (sy_reader s) = frames_of crc32c (drop n msgs) ∧
    wk_writer (sy_worker s) = {| w_sent := w_sent (wk_writer w) ++ frames_of crc32c said; w_open := true |} ∧
    Forall (λ m, m.1.1 = Frame.HeartbeatAck) said) as (Hhs & _ & _ & n & said & _ & Hw & Hall); [| eauto].
  remember (Build_System w d Waiting {| r_stream := frames_of crc32c msgs |} [] true) as s0 eqn:Es0.
  induction Hrun as [s|s l s1 hs s2 Hrun IH Hst].
  { subst s. cbn. split_and!; [done.. |]. exists 0, []. split_and!; [done | | constructor]. change (frames_of crc32c []) with ([] : list Z).
    rewrite app_nil_r. by destruct (wk_writer w) as [snt []]. }
  destruct (IH Es0) as (-> & Hph & Hq & n & said & Hrd & Hw & Hall). clear IH.
  destruct Hst as [w1 w' d1 ph rd rd' q hp fwd fl Hr Hf|w1 d1 ph rd rd' q e Hr|w1 w' d1 d' rd q rt fl Hr|w1 w' d1 d' rd hp q rt fl Hr|w1 w' d1 d' rd fl Hr|w1 d1 ph rd q rt];
    cbn [sy_worker sy_reader sy_queue sy_phase option_list app] in *; try done.
  - destruct (recv_next _ _ _ _ _ Hfit Hrd Hr) as (m & Hm & -> & Hrd'). destruct (route_core _ _ _ _ _ ltac:(by rewrite Hw) Hf) as (_ & Hfwd & Hwr).
    assert (not_heartbeat (msg_frame m) = false) as Hnh.
    { unfold not_heartbeat. rewrite bool_decide_true; [done |]. rewrite Forall_forall in Hhb. apply Hhb. by eapply list_elem_of_lookup_2. }
    rewrite Hnh in Hfwd. rewrite Hq, Hfwd. split_and!; [done.. |]. exists (S n). destruct Hwr as [->|[bs ->]]; [by exists said |].
    exists (said ++ [(Frame.HeartbeatAck, 0%Z, bs)]). split_and!; [done | | by apply Forall_app_2, Forall_singleton].
    rewrite Hw. cbn. by rewrite frames_of_app, frames_of_one, app_assoc.
  - split_and!; [done.. |]. exists n, said. split_and!; [by eapply recv_end | done | done].
  - apply sbind_Ok in Hr as ([w2 d2] & [] & [= <- <-] & [= <- <- <-]). split_and!; [done.. |]. by exists n, said.
  - split_and!; [done.. |]. by exists n, said.
Qed.
End runs.

(** ** An executable scheduler *)

Inductive Task := TRouter | TLoop | TSignal.

Section exec.
Context {D : Type} `{KernelOps D} `{TimerOps D} `{DeviceInfo D}.
Variable crc32c : list Z → Z.
Variables (from_f16 : Z → f32) (f16_from_f32 : f32 → Z) (bf16_to_f32 : Z → f32) (exp ln cos sin : f64 → f64).
Variables (ho : HashOrder) (model_file : list Z) (cfg : WorkerConfig).
Context `{Bincode ForwardPayload} `{Bincode ForwardResultPayload} `{Bincode BatchedForwardPayload}
  `{Bincode BatchedForwardResultPayload} `{Bincode ErrorPayload} `{Bincode RegisterAckPayload} `{Bincode VictoryPayload}
  `{Bincode ClusterManifestPayload} `{Bincode LeaveIntentPayload} `{Bincode HeartbeatPayload} `{Bincode HeartbeatAckPayload}.

Notation loop_recv := (loop_recv crc32c from_f16 f16_from_f32 bf16_to_f32 exp ln cos sin ho model_file cfg).
Notation step := (sys_step (D := D) crc32c from_f16 f16_from_f32 bf16_to_f32 exp ln cos sin ho model_file cfg).
Notation run := (sys_run (D := D) crc32c from_f16 f16_from_f32 bf16_to_f32 exp ln cos sin ho model_file cfg).

(** The next step of a task, if it can take one. *)
Definition exec_task (t : Task) (s : System D) : option (option (FrameHeader * list Z) * System D) :=
  let '(Build_System w d ph rd q rt) := s in
  match t with
  | TRouter =>
      if rt then
        match recv crc32c rd with
        | (rd', Ok hp) =>
            match route_frame crc32c hp w with
            | (w', Ok (fwd, fl)) => Some (None, Build_System w' d ph rd' (q ++ option_list fwd) (bool_decide (fl = Continue)))
            | _ => None
            end
        | (rd', Err _) => Some (None, Build_System w d ph rd' q false)
        | _ => None
        end
      else None
  | TLoop =>
      match ph, q with
      | Top, _ => match loop_top crc32c (w, d) with
                  | ((w', d'), Ok fl) => Some (None, Build_System w' d' (next_phase Waiting fl) rd q rt) | _ => None end
      | Waiting, hp :: q' => match loop_recv (Some hp) (w, d) with
                             | ((w', d'), Ok fl) => Some (Some hp, Build_System w' d' (next_phase Top fl) rd q' rt) | _ => None end
      | Waiting, [] => if rt then None else match loop_recv None (w, d) with
                             | ((w', d'), Ok fl) => Some (None, Build_System w' d' (next_phase Top fl) rd [] false) | _ => None end
      | Left, _ => None
      end
  | TSignal => Some (None, Build_System (set_leave true w) d ph rd q rt)
  end.

Fixpoint exec_tasks (ts : list Task) (hs : list (FrameHeader * list Z)) (s : System D) : option (list (FrameHeader * list Z) * System D) :=
  match ts with
  | [] => Some (hs, s)
  | t :: ts' => match exec_task t s with Some (l, s') => exec_tasks ts' (hs ++ option_list l) s' | None => None end
  end.

Lemma exec_task_step t s l s' : exec_task t s = Some (l, s') → step s l s'.
Proof.
  destruct s as [w d ph rd q rt]. destruct t; cbn [exec_task].
  - destruct rt; [| done]. destruct (recv crc32c rd) as [rd' [hp|e|]] eqn:Hr; [| intros [= <- <-]; by econstructor | done].
    destruct (route_frame crc32c hp w) as [w' [[fwd fl]| |]] eqn:Hf; [| done..]. intros [= <- <-]. by econstructor.
  - destruct ph; [| | done].
    + destruct (loop_top crc32c (w, d)) as [[w' d'] [fl| |]] eqn:Hr; [| done..]. intros [= <- <-]. by econstructor.
    + destruct q as [|hp q].
      * destruct rt; [done |]. destruct (loop_recv None (w, d)) as [[w' d'] [fl| |]] eqn:Hr; [| done..]. intros [= <- <-]. by econstructor.
      * destruct (loop_recv (Some hp) (w, d)) as [[w' d'] [fl| |]] eqn:Hr; [| done..]. intros [= <- <-]. by econstructor.
  - intros [= <- <-]. constructor.
Qed.

Lemma exec_tasks_run ts s0 hs s hs' s' : run s0 hs s → exec_tasks ts hs s = Some (hs', s') → run s0 hs' s'.
Proof.
  revert hs s. induction ts as [|t ts IH]; intros hs s Hrun; cbn [exec_tasks]; [by intros [= <- <-] |].
  destruct (exec_task t s) as [[l s1]|] eqn:Ht; [| done]. apply IH. econstructor; [done |]. by eapply exec_task_step.
Qed.
End exec.

(** ** Losing the connection *)

Lemma conn_send_raw_halves crc32c mt sid payload rd wr wr' r :
  send_raw crc32c mt sid payload wr = (wr', r) →
  conn_send_raw crc32c mt sid payload {| conn_reader := rd; conn_writer := wr |} = ({| conn_reader := rd; conn_writer := wr' |}, r).
Proof.
  intros Hs. pose proof (connection_split_equiv crc32c mt sid payload {| conn_reader := rd; conn_writer := wr |}) as Hc.
  cbn [conn_into_split conn_writer conn_reader] in Hc. rewrite Hs in Hc. destruct (recv crc32c rd) as [rd' rr]. by destruct Hc as [-> _].
Qed.
Lemma conn_recv_halves crc32c rd wr rd' r :
  recv crc32c rd = (rd', r) → conn_recv crc32c {| conn_reader := rd; conn_writer := wr |} = ({| conn_reader := rd'; conn_writer := wr |}, r).
Proof.
  intros Hs. pose proof (connection_split_equiv crc32c Heartbeat 0 [] {| conn_reader := rd; conn_writer := wr |}) as Hc.
  cbn [conn_into_split conn_writer conn_reader] in Hc. rewrite Hs in Hc. destruct (send_raw _ _ _ _ wr) as [wr' rr]. by destruct Hc as [_ ->].
Qed.

Section life.
Context {D : Type} `{KernelOps D} `{DeviceInfo D}.
Variable crc32c : list Z → Z.
Variables (f16_from_f32 : f32 → Z) (bf16_to_f32 : Z → f32) (exp ln cos sin : f64 → f64).
Variables (ho : HashOrder) (model_file : list Z) (cfg : WorkerConfig).
Context `{Bincode RegisterAckPayload} `{Bincode ReRegisterPayload} `{Bincode WhoIsCoordinatorPayload}
  `{Bincode WhoIsCoordinatorResponsePayload} `{Bincode RegisterPayload}.
Implicit Types w : Worker.
Implicit Types d : D.

(** The worker has what it had before, or it was given new layers, of which it
    was [told], and has nothing open. *)
Definition kept_or_fresh (told : Prop) w w' : Prop :=
  caches_ok (wk_caches w') ∧
  ((wk_caches w' = wk_caches w ∧ wk_node w' = wk_node w) ∨ (told ∧ handles (wk_caches w') = ∅ ∧ paged_handles (wk_caches w') = ∅)).

Lemma kept_trans (P : Prop) w w1 w2 : kept_or_fresh P w w1 → kept_or_fresh P w1 w2 → kept_or_fresh P w w2.
Proof.
  intros [_ H1'] [Hok H2']. split; [done |]. destruct H2' as [[-> ->]|?]; [done | by right].
Qed.
Lemma kept_weaken (P Q : Prop) w w' : (P → Q) → kept_or_fresh P w w' → kept_or_fresh Q w w'.
Proof. intros HPQ [Hok Hk]. split; [done |]. destruct Hk as [?|(?%HPQ & ? & ?)]; [by left | by right]. Qed.
Lemma kept_same P w w' : caches_ok (wk_caches w) → wk_caches w' = wk_caches w → wk_node w' = wk_node w → kept_or_fresh P w w'.
Proof. intros Hok Hc Hn. split; [by rewrite Hc | by left]. Qed.

(** The first message of a connection is a new assignment. *)
Definition told_reconfigure (conn : FramedConnection) : Prop :=
  ∃ hdr pay, (recv crc32c (conn_reader conn)).2 = Ok (hdr, pay) ∧ msg_type hdr = Reconfigure.
Definition round_reconfigures (r : Round) : Prop := ∃ conn, rd_conn r = Some conn ∧ told_reconfigure conn.

Lemma conn_send_reader {P : Type} `{Bincode P} mt sid (x : P) conn : conn_reader (conn_send crc32c mt sid x conn).1 = conn_reader conn.
Proof.
  unfold conn_send, sbind, slift. destruct (match serialize x with Err _ => _ | r => r end) as [bs| |]; [| done..]. destruct conn as [rd wr].
  destruct (send_raw crc32c mt sid bs wr) as [wr' r] eqn:E. by rewrite (conn_send_raw_halves _ _ _ _ _ _ _ _ E).
Qed.
Lemma conn_recv_result conn : (conn_recv crc32c conn).2 = (recv crc32c (conn_reader conn)).2.
Proof. destruct conn as [rd wr]. cbn [conn_reader]. destruct (recv crc32c rd) as [rd' r] eqn:E. by rewrite (conn_recv_halves _ _ _ _ _ E). Qed.

Lemma announce_core conn w w' r :
  announce_ready crc32c conn w = (w', Ok r) →
  wk_caches w' = wk_caches w ∧ wk_node w' = wk_node w ∧
  ((r = Retry ∧ wk_state w' = wk_state w) ∨ (∃ rd, r = Serving rd ∧ wk_state w' = Ready)).
Proof.
  unfold announce_ready. destruct (conn_send_empty crc32c WorkerReady 0 conn) as [conn' [u|e|]]; [| | done].
  - intros [= <- <-]. split_and!; [done | done |]. right. by eexists.
  - intros [= <- <-]. split_and!; [done | done |]. by left.
Qed.

Lemma reconfigure_fresh (P : Prop) r w d w' d' :
  P → caches_ok (wk_caches w) → reconfigure f16_from_f32 bf16_to_f32 exp ln cos sin ho model_file cfg r (w, d) = ((w', d'), Ok ()) →
  kept_or_fresh P w w' ∧ wk_state w' = wk_state w.
Proof.
  intros HP Hok Hr. apply reconfigure_ok in Hr as (Hok' & Hh & _ & Hst & _); [| done]. split; [| done]. split; [done |]. right. split_and!; [done | done |].
  apply dom_empty_inv_L. by rewrite (co_same _ Hok'), Hh, dom_empty_L.
Qed.

(** Where an attempt may lead. *)
Definition attempt_state w w' (r : attempt_end) : Prop :=
  match r with Retry => wk_state w' = wk_state w | Serving _ => wk_state w' = Ready | Leaving => wk_state w' = Exited end.

(** What an attempt leaves behind: an error is that of a new assignment. *)
Definition attempt_ok (told : Prop) w w' (r : result attempt_end) : Prop :=
  match r with Ok r => kept_or_fresh told w w' ∧ attempt_state w w' r | Err _ => told | Panic => True end.

Lemma attempt_ok_trans (P : Prop) w w1 w2 r : kept_or_fresh P w w1 → wk_state w1 = wk_state w → attempt_ok P w1 w2 r → attempt_ok P w w2 r.
Proof.
  intros Hk Hs. destruct r as [r| |]; [| done..]. intros [Hk2 Hst]. split; [by eapply kept_trans |]. destruct r; cbn in Hst |- *; congruence.
Qed.
Lemma attempt_ok_weaken (P Q : Prop) w w' r : (P → Q) → attempt_ok P w w' r → attempt_ok Q w w' r.
Proof. intros HPQ. destruct r as [r| |]; [| done..]. intros [Hk Hst]. split; [by eapply kept_weaken | done]. Qed.

Lemma announce_ok (P : Prop) conn w w' r : caches_ok (wk_caches w) → announce_ready crc32c conn w = (w', r) → attempt_ok P w w' r.
Proof.
  intros Hok Ha. destruct r as [r|e|]; [| by unfold announce_ready in Ha; destruct (conn_send_empty _ _ _ _) as [? []] | done].
  apply announce_core in Ha as (Hc & Hn & Hst). split; [by apply kept_same |]. destruct Hst as [[-> E]|(rd & -> & E)]; done.
Qed.

Lemma reregister_keeps conn w d w' d' r :
  caches_ok (wk_caches w) →
  reregister crc32c f16_from_f32 bf16_to_f32 exp ln cos sin ho model_file cfg conn (w, d) = ((w', d'), r) →
  attempt_ok (told_reconfigure conn) w w' r.
Proof.
  intros Hok. assert (attempt_ok (told_reconfigure conn) w w (Ok Retry)) as Hrefl by (split; [by apply kept_same | done]).
  unfold reregister. pose proof (conn_send_reader ReRegister 0 (reregister_payload ho cfg w d) conn) as Hrd.
  destruct (conn_send _ _ _ _ conn) as [conn1 [u|e|]]; [| by intros [= <- <- <-] | by intros [= <- <- <-]]. cbn [fst] in Hrd.
  pose proof (conn_recv_result conn1) as Hres. rewrite Hrd in Hres.
  destruct (conn_recv crc32c conn1) as [conn2 [[hdr pay]|e|]]; [| by intros [= <- <- <-] | by intros [= <- <- <-]].
  destruct (msg_type hdr) eqn:Hmt; try (by intros [= <- <- <-]).
  - destruct (announce_ready crc32c conn2 w) as [w2 r2] eqn:Ha. intros [= <- <- <-]. by eapply announce_ok.
  - intros [= <- <- <-]. split; [by apply kept_same | done].
  - assert (told_reconfigure conn) as Htold by (exists hdr, pay; by rewrite <- Hres).
    destruct (deserialize_payload pay) as [reconf|e|]; [| by intros [= <- <- <-] | by intros [= <- <- <-]].
    destruct (reconfigure _ _ _ _ _ _ _ _ _ reconf (w, d)) as [[w1 d1] [[]|e|]] eqn:Hr; [| by intros [= <- <- <-] | by intros [= <- <- <-]].
    apply (reconfigure_fresh (told_reconfigure conn)) in Hr as [Hk Hs]; [| done..].
    destruct (announce_ready crc32c conn2 w1) as [w2 r2] eqn:Ha. intros [= <- <- <-]. eapply attempt_ok_trans; [exact Hk | done |].
    eapply announce_ok; [apply Hk | exact Ha].
Qed.
(** The election touches the agent only. *)
Lemma election_keeps timed_out w rc w' rc' r :
  try_election cfg timed_out (w, rc) = ((w', rc'), r) →
  wk_caches w' = wk_caches w ∧ wk_node w' = wk_node w ∧ wk_state w' = wk_state w ∧ rc_backoff rc' = rc_backoff rc ∧
  rc_slept rc' = rc_slept rc ∧ ∀ e, r ≠ Err e.
Proof.
  unfold try_election. destruct (_ && _); [| by intros [= <- <- <-]]. destruct (election_agent (wk_view w)) as [a|]; [| by intros [= <- <- <-]].
  unfold start_election. destruct (increment (term a)) as [t [n|e|]] eqn:E; [| by injection E as _ ?%checked_not_err | by intros [= <- <- <-]].
  destruct (on_election_timeout _) as [a2 act]. by intros [= <- <- <-].
Qed.

(** The backoffs of [n] rounds. *)
Definition backoffs (b : Z) (n : nat) : list Z := (λ k, Nat.iter k next_backoff b) <$> seq 0 n.
(** What the loop has slept: the backoffs of its rounds, each with its jitter. *)
Definition sleeps (rc rc' : Reconnect) (rounds : list Round) : Prop :=
  ∃ n, n ≤ length rounds ∧ rc_slept rc' = rc_slept rc ++ zip_with sleep_ms (backoffs (rc_backoff rc) n) (rd_random <$> take n rounds).

Lemma backoffs_S b n : backoffs b (S n) = b :: backoffs (next_backoff b) n.
Proof.
  unfold backoffs. cbn [seq]. csimpl. f_equal. rewrite <- fmap_S_seq, <- list_fmap_compose. apply list_fmap_ext. intros i k _.
  unfold compose. by rewrite Nat.iter_succ_r.
Qed.
Lemma backoffs_range b n : (1000 ≤ b ≤ 30000)%Z → Forall (λ x, 1000 ≤ x ≤ 30000)%Z (backoffs b n).
Proof.
  revert b. induction n as [|n IH]; intros b Hb; [constructor |]. rewrite backoffs_S. constructor; [done |]. apply IH. unfold next_backoff. lia.
Qed.

Lemma sleeps_now rc rc1 rc' r rounds : rc_backoff rc1 = rc_backoff rc → rc_slept rc1 = rc_slept rc → rc_slept rc' = rc_slept (sleep (rd_random r) rc1) →
  sleeps rc rc' (r :: rounds).
Proof. intros Hb Hs Hs'. exists 1. split; [simpl; lia |]. rewrite Hs'. cbn. by rewrite Hb, Hs. Qed.
Lemma sleeps_next rc rc1 rc2 rc' r rounds : rc_backoff rc1 = rc_backoff rc → rc_slept rc1 = rc_slept rc →
  rc_backoff rc2 = next_backoff (rc_backoff rc) → rc_slept rc2 = rc_slept (sleep (rd_random r) rc1) → sleeps rc2 rc' rounds → sleeps rc rc' (r :: rounds).
Proof.
  intros Hb Hs Hb2 Hs2 (n & Hn & Hrest). exists (S n). split; [simpl; lia |]. rewrite backoffs_S. cbn [take fmap list_fmap zip_with].
  rewrite Hrest, Hs2, Hb2. cbn. by rewrite Hb, Hs, <- app_assoc.
Qed.

Lemma reconnect_loop_keeps rounds : ∀ w d rc w' d' rc' r,
  caches_ok (wk_caches w) →
  reconnect_loop crc32c f16_from_f32 bf16_to_f32 exp ln cos sin ho model_file cfg rounds (w, d, rc) = ((w', d', rc'), r) →
  attempt_ok (Exists round_reconfigures rounds) w w' r ∧ sleeps rc rc' rounds.
Proof.
  induction rounds as [|rd rounds IH]; intros w d rc w' d' rc' r Hok.
  { intros [= <- <- <- <-]. split; [split; [by apply kept_same | done] | exists 0; by rewrite app_nil_r]. }
  cbn [reconnect_loop]. destruct (try_election cfg (rd_timed_out rd) (w, rc)) as [[w1 rc1] re] eqn:He.
  apply election_keeps in He as (Hc1 & Hn1 & Hs1 & Hb1 & Hsl1 & Herr). set (P := Exists round_reconfigures (rd :: rounds)).
  assert (kept_or_fresh P w w1) as Hk1 by (by apply kept_same).
  destruct re as [b|e|]; [| by destruct (Herr e) | intros [= <- <- <- <-]; split; [done | exists 0; split; [lia | by rewrite app_nil_r]]].
  assert (∀ w2 d2 rc2, kept_or_fresh P w1 w2 → wk_state w2 = wk_state w1 → rc_backoff rc2 = next_backoff (rc_backoff rc) →
    rc_slept rc2 = rc_slept (sleep (rd_random rd) rc1) →
    reconnect_loop crc32c f16_from_f32 bf16_to_f32 exp ln cos sin ho model_file cfg rounds (w2, d2, rc2) = ((w', d', rc'), r) →
    attempt_ok P w w' r ∧ sleeps rc rc' (rd :: rounds)) as Hrec.
  { intros w2 d2 rc2 Hk2 Hs2 Hb2 Hsl2 Hr. destruct (IH _ _ _ _ _ _ _ (proj1 Hk2) Hr) as [Ha Hsl]. split; [| by eapply sleeps_next].
    eapply attempt_ok_trans; [exact Hk1 | done |]. eapply attempt_ok_trans; [exact Hk2 | done |]. eapply attempt_ok_weaken; [| exact Ha]. by right. }
  unfold reconnect_round. destruct (rd_conn rd) as [conn|] eqn:Hconn.
  - destruct (reregister _ _ _ _ _ _ _ _ _ _ conn (w1, d)) as [[w2 d2] r2] eqn:Hr. apply reregister_keeps in Hr; [| by rewrite Hc1].
    apply (attempt_ok_weaken _ P) in Hr; [| intros Ht; left; by exists conn].
    assert (((w2, d2, sleep (rd_random rd) rc1), r2) = ((w', d', rc'), r) → attempt_ok P w w' r ∧ sleeps rc rc' (rd :: rounds)) as Hend.
    { intros [= <- <- <- <-]. split; [by eapply attempt_ok_trans | by eapply sleeps_now]. }
    destruct r2 as [[|rd2|]| |]; [destruct Hr as [Hk2 Hst2] | exact Hend..].
    apply Hrec; [done | done | cbn; by rewrite Hb1 | done].
  - apply Hrec; [by apply kept_same; [rewrite Hc1 | ..] | done | cbn; by rewrite Hb1 | done].
Qed.

Hypothesis crc32c_u32 : ∀ l, in_width 32 (crc32c l).
Hypothesis reregister_serializes : ∀ r : ReRegisterPayload, ∃ bs, serialize r = Ok bs.

(** The coordinator accepts: nothing changes but the connection. *)
Lemma reregister_accepted w d wr sid pay rest :
  w_open wr = true → msg_fits (RegisterAck, sid, pay) →
  ∃ bs, serialize (reregister_payload ho cfg w d) = Ok bs ∧
    reregister crc32c f16_from_f32 bf16_to_f32 exp ln cos sin ho model_file cfg
      {| conn_reader := {| r_stream := frame_of crc32c (RegisterAck, sid, pay) ++ rest |}; conn_writer := wr |} (w, d) =
    ((set_wstate Ready (set_wk_writer
        {| w_sent := w_sent wr ++ frames_of crc32c [(ReRegister, 0%Z, bs); (WorkerReady, 0%Z, [])]; w_open := true |} w), d),
     Ok (Serving {| r_stream := rest |})).
Proof using crc32c_u32 reregister_serializes.
  intros Ho Hfit. destruct (reregister_serializes (reregister_payload ho cfg w d)) as [bs Hbs]. exists bs. split; [done |].
  unfold reregister, conn_send, sbind, slift. rewrite Hbs.
  erewrite conn_send_raw_halves by (by apply send_raw_open). erewrite conn_recv_halves by (by apply recv_msg).
  cbn [msg_frame fst msg_type]. unfold announce_ready, conn_send_empty.
  erewrite conn_send_raw_halves by (by apply send_raw_open). cbn [conn_into_split conn_writer conn_reader w_sent].
  rewrite <- app_assoc. reflexivity.
Qed.


(** A worker that has started serves with nothing open. *)
Theorem worker_start_ok priority conn d d' w rd :
  worker_start crc32c f16_from_f32 bf16_to_f32 exp ln cos sin ho model_file cfg priority conn d = (d', Ok (w, rd)) →
  caches_ok (wk_caches w) ∧ handles (wk_caches w) = ∅ ∧ wk_state w = Ready ∧ e_layer_range (cn_engine (wk_node w)) = nc_layer_range (node_config (wk_node w)).
Proof using Type.
  unfold worker_start. intros (d1 & [conn1 [header payload]] & _ & Hr)%sbind_Ok. destruct (negb _); [done |].
  apply sbind_Ok in Hr as (d2 & ack & _ & Hr). apply sbind_Ok in Hr as (d3 & node & Hn & Hr). apply sbind_Ok in Hr as (d4 & qp & Hq & Hr).
  apply sbind_Ok in Hr as (d5 & used & _ & Hr). apply sbind_Ok in Hr as (d6 & free & _ & Hr). apply sbind_Ok in Hr as (d7 & wr & _ & [= _ <- _]).
  cbn. split_and!; [| done | done |].
  - eapply (new_paged_ok _ _ _ _ _ _ _ _ _ _ {| cache := new_cache ack; quantized_cache := None; paged_cache := None; handles := ∅; paged_handles := ∅ |})
      in Hq as [Hwf Ho].
    split; [| exact Hwf | | | done].
    + intros h Hx. destruct (new_cache_empty ack h Hx).
    + apply matched_empty. intros x. exact (new_cache_empty ack x).
    + apply matched_empty. exact Ho.
  - unfold new_node in Hn. apply sbind_Ok in Hn as (? & ? & _ & Hn). apply sbind_Ok in Hn as (? & ? & _ & Hn).
    apply sbind_Ok in Hn as (? & nc & [= _ Hnc] & [= _ <-]). cbn. unfold NodeConfig_new in Hnc. repeat case_match; simplify_eq. done.
Qed.

(** The new coordinator of [reconstruct_state] answers every peer with
    [RegisterAck], whatever layers it assigns to it; the peer takes that as "no
    change" and keeps the layers it has. *)
Theorem reconstructed_range_ignored self c msl reg a e w d sid rest wr bs :
  serialize (reconfigure_payload c msl a) = Ok bs → la_node_id a ≠ self → reg !! la_node_id a = Some e → status e ≠ Dead →
  w_open (writer e) = true → w_open wr = true → msg_fits (RegisterAck, sid, bs) → sid = 0%Z →
  layer_range a ≠ nc_layer_range (node_config (wk_node w)) →
  ∃ e' w', ack_peer crc32c self c msl reg a !! la_node_id a = Some e' ∧ assignment e' = Some a ∧
    w_sent (writer e') = w_sent (writer e) ++ frame_of crc32c (RegisterAck, sid, bs) ∧
    reregister crc32c f16_from_f32 bf16_to_f32 exp ln cos sin ho model_file cfg
      {| conn_reader := {| r_stream := frame_of crc32c (RegisterAck, sid, bs) ++ rest |}; conn_writer := wr |} (w, d) =
      ((w', d), Ok (Serving {| r_stream := rest |})) ∧
    wk_state w' = Ready ∧ nc_layer_range (node_config (wk_node w')) ≠ layer_range a.
Proof using crc32c_u32 reregister_serializes.
  intros Hbs Hself He Hdead Hopen Hwr Hfit -> Hne. destruct (reregister_accepted w d wr 0 bs rest Hwr Hfit) as (bs' & _ & Hrr).
  unfold ack_peer. rewrite bool_decide_false by done. unfold assign. rewrite He, bool_decide_false by done. cbn [fst].
  unfold with_writer. rewrite lookup_insert_eq. cbn [writer]. rewrite (send_is_raw _ _ _ _ _ _ Hbs), (send_raw_open _ _ _ _ _ Hopen). cbn [fst].
  eexists _, _. split; [apply lookup_insert_eq |]. split; [done |]. split; [done |]. split; [exact Hrr |]. split; [done |]. by intros E.
Qed.
End life.

Module WorkerWitness.
Import TinyModel.

#[export] Instance sim_info : DeviceInfo SimDevice :=
  {| device_name := "sim"; total_memory := λ _, 1000%Z; available_memory := λ d, Z.of_nat (sim_room d) |}.

(** A codec that writes the error code and reads nothing. *)
Definition unread {A : Type} (bs : list Z) : result A := Err (Protocol "unused").
#[export] Instance c_forward : Bincode ForwardPayload := {| serialize := λ _, Ok []; deserialize := unread |}.
#[export] Instance c_result : Bincode ForwardResultPayload := {| serialize := λ _, Ok []; deserialize := unread |}.
#[export] Instance c_batched : Bincode BatchedForwardPayload := {| serialize := λ _, Ok []; deserialize := unread |}.
#[export] Instance c_batched_result : Bincode BatchedForwardResultPayload := {| serialize := λ _, Ok []; deserialize := unread |}.
#[export] Instance c_error : Bincode ErrorPayload :=
  {| serialize := λ e, Ok [match error_code e with Internal => 1 | DistPipeline.OutOfMemory => 2 | InvalidSequence => 3 | ProtocolViolation => 4 end]%Z;
     deserialize := unread |}.
#[export] Instance c_ack : Bincode RegisterAckPayload := {| serialize := λ _, Ok []; deserialize := unread |}.
#[export] Instance c_victory : Bincode VictoryPayload := {| serialize := λ _, Ok []; deserialize := unread |}.
#[export] Instance c_manifest : Bincode ClusterManifestPayload := {| serialize := λ _, Ok []; deserialize := unread |}.
#[export] Instance c_leave : Bincode LeaveIntentPayload := {| serialize := λ _, Ok []; deserialize := unread |}.
#[export] Instance c_heartbeat : Bincode HeartbeatPayload :=
  {| serialize := λ h, Ok [hb_timestamp_ns h; hb_nonce h];
     deserialize := λ bs, match bs with [t; n] => Ok {| hb_timestamp_ns := t; hb_nonce := n |} | _ => Err (Protocol "heartbeat") end |}.
#[export] Instance c_heartbeat_ack : Bincode HeartbeatAckPayload := {| serialize := λ a, Ok [nonce_echo a]; deserialize := unread |}.

Definition crc (_ : list Z) : Z := 7%Z.
Definition wcfg : WorkerConfig :=
  {| wc_node_id := "w"; coordinator_capable := true; tq_config := None; decode_ms := f32_one; prefill_ms := f32_one |}.
Definition id64 (x : f64) : f64 := x.

Definition pc0 : PagedKvCacheManager :=
  match (paged_new 2 1 1 2 tdev).2 with Ok m => m | _ => tables_new EngineWitness.no_pool end.
Definition d0 : SimDevice := (paged_new 2 1 1 2 tdev).1.
Definition w0 : Worker :=
  {| wk_node := {| cn_engine := tengine 1 {| rstart := 0; rend := 1 |}; node_config := {| nc_layer_range := {| rstart := 0; rend := 1 |}; Engine.total_layers := 2 |} |};
     wk_caches := {| cache := kv_new 1 1 2 8; quantized_cache := None; paged_cache := Some pc0; handles := ∅; paged_handles := ∅ |};
     wk_stats := stats_new; wk_state := Ready;
     wk_view := {| current_term := 0; cluster_manifest := None; election_agent := None |};
     wk_leave_requested := false; wk_writer := {| w_sent := []; w_open := true |} |}.

Lemma w0_ok : caches_ok (wk_caches w0).
Proof.
  split; cbn.
  - intros h [? Hx]. vm_compute in Hx. discriminate Hx.
  - apply tables_new_inv. reflexivity.
  - apply matched_empty. intros x [? Hx]. vm_compute in Hx. discriminate Hx.
  - apply matched_empty. intros x [? Hx]. vm_compute in Hx. discriminate Hx.
  - done.
Qed.

(** Two sequences are opened, one of them twice; the third does not fit. *)
Definition msgs : list (MessageType * Z * list Z) :=
  [(CacheAlloc, 7, []); (Heartbeat, 0, [5; 6]); (CacheAlloc, 7, []); (CacheAlloc, 8, []); (CacheAlloc, 9, []); (CacheFree, 7, []);
   (Forward, 7, []); (Register, 0, [])]%Z.
Definition tasks : list Task :=
  [TRouter; TLoop; TLoop; TRouter; TSignal; TRouter; TRouter; TLoop; TLoop; TLoop; TLoop; TRouter; TLoop; TLoop; TRouter; TRouter; TRouter;
   TLoop; TLoop; TLoop; TLoop; TLoop; TLoop].

Definition to_f16 (_ : f32) : Z := 0%Z.
Definition of_bf16 (_ : Z) : f32 := f32_zero.
Notation wrun := (exec_tasks crc f16 to_f16 of_bf16 id64 id64 id64 id64 hash_order_id [] wcfg).

Definition seen (p : list (FrameHeader * list Z) * System SimDevice) : nat * list Z * list Z :=
  (length p.1, elements (dom (handles (wk_caches (sy_worker p.2)))), w_sent (wk_writer (sy_worker p.2))).

Lemma executes : ∃ hs s, wrun tasks [] (serving crc w0 d0 msgs) = Some (hs, s) ∧ length hs = 7 ∧ elements (dom (handles (wk_caches (sy_worker s)))) = [8%Z].
Proof.
  assert (option_map seen (wrun tasks [] (serving crc w0 d0 msgs)) ≫= (λ x, Some x.1) = Some (7, [8%Z])) as H by (vm_compute; reflexivity).
  destruct (wrun tasks [] (serving crc w0 d0 msgs)) as [[hs s]|]; [| discriminate H].
  exists hs, s. injection H as H1 H2. done.
Qed.

Lemma executes_run : ∃ hs s, length hs = 7 ∧
  sys_run crc f16 to_f16 of_bf16 id64 id64 id64 id64 hash_order_id [] wcfg (serving crc w0 d0 msgs) hs s.
Proof. destruct executes as (hs & s & E & Hl & _). exists hs, s. split; [exact Hl |]. eapply exec_tasks_run; [constructor | exact E]. Qed.

Lemma wcrc_u32 (l : list Z) : in_width 32 (crc l).
Proof. unfold crc, in_width. lia. Qed.
Lemma result_total (r : ForwardResultPayload) : ∃ bs, serialize r = Ok bs.
Proof. by eexists. Qed.
Lemma batched_total (r : BatchedForwardResultPayload) : ∃ bs, serialize r = Ok bs.
Proof. by eexists. Qed.
Lemma error_total (r : ErrorPayload) : ∃ bs, serialize r = Ok bs.
Proof. by eexists. Qed.
Lemma msgs_fit : Forall msg_fits msgs.
Proof. repeat constructor; cbn; unfold MAX_PAYLOAD_SIZE; lia. Qed.

Lemma worker_refines_spec_witness :
  ∃ hs (s : System SimDevice), length hs = 7 ∧ run_ok crc w0 msgs hs s.
Proof.
  destruct executes_run as (hs & s & Hl & Hrun). exists hs, s. split; [exact Hl |].
  exact (worker_refines_spec crc f16 to_f16 of_bf16 id64 id64 id64 id64 hash_order_id [] wcfg wcrc_u32 result_total batched_total error_total
    w0 d0 msgs hs s w0_ok eq_refl msgs_fit Hrun).
Defined.
(** The term of the cluster reaches the worker but not its election agent: a worker
    that has been told of term 5 starts its election with term 1. *)
Example election_term_behind :
  let cv := manifest_view {| cm_version := 1; cm_term := 5; cm_nodes := [] |}
    {| current_term := 0; cluster_manifest := None;
       election_agent := Some (agent_new {| Election.node_id := "w"; priority := 0; election_window_ms := 5000 |} 0) |} in
  current_term cv = 5%Z ∧ (start_election <$> election_agent cv) ≫= (λ r, Some r.2) = Some (Ok 1%Z).
Proof. split; reflexivity. Qed.

#[export] Instance c_reregister : Bincode ReRegisterPayload := {| serialize := λ r, Ok (active_cache_seq_ids r); deserialize := unread |}.
#[export] Instance c_who : Bincode WhoIsCoordinatorPayload := {| serialize := λ _, Ok []; deserialize := unread |}.
#[export] Instance c_who_response : Bincode WhoIsCoordinatorResponsePayload := {| serialize := λ _, Ok []; deserialize := unread |}.

Lemma reregister_total (r : ReRegisterPayload) : ∃ bs, serialize r = Ok bs.
Proof. by eexists. Qed.

(** Two attempts that fail: a refused connection, and one that closes at once. *)
Definition refused : list Round :=
  [{| rd_timed_out := false; rd_random := f64_lit 5 1; rd_conn := None; rd_seeds := [] |};
   {| rd_timed_out := true; rd_random := f64_of_Z 0; rd_conn := Some {| conn_reader := {| r_stream := [] |}; conn_writer := {| w_sent := []; w_open := true |} |};
      rd_seeds := [] |}].

(** The jitter at both ends of its range: the largest number below one is the last. *)
Example sleep_range :
  (sleep_ms 1000 (f64_of_Z 0), sleep_ms 1000 (f64_lit 5 1), sleep_ms 30000 (f64_of_Z 0), sleep_ms 30000 (f64_from_bits 0x3FEFFFFFFFFFFFFF)) =
  (750, 1000, 22500, 37500)%Z.
Proof. vm_compute. reflexivity. Qed.

End WorkerWitness.
