(* ===== verification/WorkerForward.v ===== *)
(** * Forward passes across workers

    What a worker computes when it is asked for a forward pass, and what a chain
    of workers computes together.  Each worker has a device of its own; the hidden
    states travel as bytes in frames, from one device to the host, over the
    coordinator, and to the next device. *)

From S2P Require Import Prelude F32 Frame Connection TensorWire LayerScheduler Registry DistPipeline Rebalance Election.
From S2P Require Import Core Backend Kernels PagedCache QuantizedCache KvCache CacheIface WeightStore Transformer Engine Contiguous Batched Pipeline Worker.

(** ** Rows and logits as bytes *)

Lemma length_mjoin_rows (rows : list Row) w : Forall (λ r, length r = w) rows → length (mjoin rows) = length rows * w.
Proof.
  induction 1 as [|r rows Hr _ IH]; [done |]. change (mjoin (r :: rows)) with (r ++ mjoin rows).
  rewrite length_app. simpl. lia.
Qed.

Lemma chunk_rows_join (rows : list Row) w : Forall (λ r, length r = w) rows → chunk_rows (length rows) (mjoin rows) = rows.
Proof.
  intros Hw. unfold chunk_rows. rewrite (length_mjoin_rows rows w Hw).
  destruct (decide (length rows = 0)) as [H0|H0]; [by apply nil_length_inv in H0 as -> |].
  rewrite Nat.mul_comm, Nat.div_mul by done. clear H0.
  assert (∀ k pre, length pre = k * w → (λ i, take w (drop (i * w) (pre ++ mjoin rows))) <$> seq k (length rows) = rows) as Hgo.
  { induction Hw as [|r rows Hr _ IH]; intros k pre Hpre; [done |].
    change (mjoin (r :: rows)) with (r ++ mjoin rows). cbn [length seq]. rewrite fmap_cons. f_equal.
    - rewrite <- Hpre, drop_app_length, <- Hr. apply take_app_length.
    - rewrite app_assoc. apply IH. rewrite length_app. lia. }
  by apply (Hgo 0 []).
Qed.

(** The logits a client reads are the logits the tail computed. *)
Lemma logits_roundtrip (l : list f32) : Forall (λ x, f32_valid x = true) l → logits_of_bytes (logit_bytes l) = l.
Proof.
  intros Hl. unfold logit_bytes. rewrite (list_fmap_compose f32_to_bits (to_le_bytes 4)). rewrite logits_of_bytes_words.
  - rewrite <- list_fmap_compose. rewrite <- (list_fmap_id l) at 2. apply list_fmap_ext. intros i x Hx. rewrite Forall_lookup in Hl.
    by apply f32_bits_roundtrip, (Hl i).
  - apply Forall_fmap. eapply Forall_impl; [exact Hl |]. intros x Hx. by apply f32_bits_roundtrip.
Qed.

(** Hidden states on the wire. *)
Definition wire_rows (cfg : ModelConfig) (hs : list Row) : TensorWireHeader * list Z :=
  (make_header [Z.of_nat (length hs); Core.hidden_size cfg] FP16 (Z.of_nat (length (mjoin hs))), mjoin hs).

(** Rows of two bytes per element, few enough for the header's fields. *)
Definition wire_fits (cfg : ModelConfig) (hs : list Row) : Prop :=
  Forall (λ r, Z.of_nat (length r) = (Core.hidden_size cfg * 2)%Z) hs ∧ in_width 32 (Z.of_nat (length hs)) ∧
  in_width 32 (Core.hidden_size cfg) ∧ in_width 64 (Z.of_nat (length hs) * Core.hidden_size cfg * 2).

#[export] Instance wire_fits_dec cfg hs : Decision (wire_fits cfg hs).
Proof. unfold wire_fits. apply _. Defined.

Lemma wire_fits_size cfg hs t :
  wire_fits cfg hs → shape t = [Z.of_nat (length hs); Core.hidden_size cfg] → dtype t = FP16 → size_bytes t = Ok (Z.of_nat (length (mjoin hs))).
Proof.
  intros (Hw & H32 & Hh & H64) Hsh Hdt. assert (length (mjoin hs) = length hs * Z.to_nat (Core.hidden_size cfg * 2)) as ->.
  { apply length_mjoin_rows. eapply Forall_impl; [exact Hw |]. cbn. lia. }
  unfold size_bytes, numel, uproduct, umul. rewrite Hsh, Hdt. cbn [foldl].
  cbn [rbind]. rewrite (checked_Ok 64 (1 * _)) by (unfold in_width in *; lia). cbn [rbind].
  rewrite checked_Ok by (unfold in_width in *; nia). cbn [rbind]. cbn [is_packed dtype_size_bytes].
  rewrite checked_Ok by (unfold in_width in *; nia). f_equal. unfold in_width in *. nia.
Qed.

Section transfer.
Context {D : Type} `{KernelLaws D} `{!BackendLaws D}.
Implicit Types d : D.
Variable cfg : ModelConfig.

(** The bytes of [hs] become a tensor with the rows [hs]. *)
Lemma upload_runs hs d (Q : D → DeviceTensor → Prop) :
  wire_fits cfg hs →
  (∀ d' t, alloced d d' [t] → t_valid d' t → shape t = [Z.of_nat (length hs); Core.hidden_size cfg] → dtype t = FP16 → t_rows d' t = hs → Q d' t) →
  runs b_failed (upload_activations (wire_rows cfg hs).1 (wire_rows cfg hs).2) d Q.
Proof.
  intros Hfit HQ. pose proof Hfit as (Hw & H32 & Hh & _). unfold upload_activations. apply runs_bind. eapply runs_lift; [apply wire_dtype_roundtrip |].
  assert (wshape (wire_rows cfg hs).1 = [Z.of_nat (length hs); Core.hidden_size cfg]) as ->.
  { cbn [wire_rows fst wshape make_header]. rewrite !fmap_cons, fmap_nil. by rewrite !wrap_small. }
  unfold alloc_fill. apply runs_bind, runs_alloc. intros d1 t Ha. pose proof (b_alloc_Ok _ _ _ _ _ Ha) as (Hsh & Hdt & _ & Hlive & _ & Hlen).
  assert (t_live d1 t) as Ht by (unfold t_live; rewrite Hlive; set_solver).
  pose proof (wire_fits_size cfg hs t Hfit Hsh Hdt) as Hsize.
  destruct (b_copy_to_device_Ok d1 t (mjoin hs) _ Ht Hsize) as (d2 & Hc & _); [done |].
  destruct (alloced_fill _ _ _ _ _ _ _ Ha Hc) as (Hal & _ & _ & n & Hn & _ & Hrows). rewrite Hsize in Hn. injection Hn as <-.
  apply runs_bind. unfold runs at 1. cbn [wire_rows snd]. rewrite Hc. apply runs_ret.
  cbn [head default from_option id] in Hrows. unfold id in Hrows. rewrite !Nat2Z.id, take_ge in Hrows by done.
  rewrite (chunk_rows_join hs (Z.to_nat (Core.hidden_size cfg * 2))) in Hrows.
  2:{ eapply Forall_impl; [exact Hw |]. cbn. lia. }
  apply HQ; try done. split; [| unfold nrows; by rewrite Hrows, Hsh; cbn; rewrite Nat2Z.id]. unfold t_live. destruct Hal as [-> _ _ _]. set_solver.
Qed.

(** A tensor with the rows [hs] is sent as their bytes and freed. *)
Lemma download_runs hs t d (Q : D → TensorWireHeader * list Z → Prop) :
  wire_fits cfg hs → t_valid d t → t_rows d t = hs → shape t = [Z.of_nat (length hs); Core.hidden_size cfg] → dtype t = FP16 →
  (∀ d', b_live d' = b_live d ∖ {[tensor_id t]} → same_rows (b_live d') d d' → Q d' (wire_rows cfg hs)) →
  runs b_failed (download_activations t) d Q.
Proof.
  intros Hfit Hv Hr Hsh Hdt HQ. pose proof (wire_fits_size cfg hs t Hfit Hsh Hdt) as Hsize.
  unfold download_activations. apply runs_bind. eapply runs_lift; [exact Hsize |]. rewrite Nat2Z.id.
  apply runs_bind. unfold runs at 1. destruct (k_copy_to_host_spec d t _ Hv Hsize) as [->|(d1 & e & -> & Hfl)]; [| done].
  apply runs_bind. unfold runs at 1. destruct (k_synchronize_spec d) as [->|(d1 & e & -> & Hfl)]; [| done].
  apply runs_bind, runs_free; [apply Hv |]. intros d1 Hl Hs. apply runs_ret. rewrite Hsh, Hdt, Hr. by apply HQ.
Qed.
End transfer.

(** ** One worker *)

Section worker.
Context {D : Type} `{KernelLaws D} `{!BackendLaws D} `{!TimerOps D} `{!TimerLaws D}.
Implicit Types d : D.
Variable from_f16 : Z → f32.
Variables (cfg : ModelConfig) (total : Z) (ps : list Z).
Context `{Bincode ForwardPayload}.

(** A request for the rows [hs]: tokens for a head, hidden states for the others. *)
Definition request_ok d (st : Stage) (inp : ForwardInputWire) (hs : list Row) : Prop :=
  ps ≠ [] ∧ Forall (λ p, p < max_seq_len cfg)%Z ps ∧
  match inp with
  | DistPipeline.TokenIds ids =>
      is_head (sg_nc st) = true ∧ length ids = length ps ∧
      Forall (λ i, 0 ≤ i < Z.of_nat (nrows (token_embedding (sg_ws st))))%Z ids ∧
      hs = (λ i, default [] (t_rows d (token_embedding (sg_ws st)) !! Z.to_nat i)) <$> ids
  | InActivations th data =>
      is_head (sg_nc st) = false ∧ (th, data) = wire_rows cfg hs ∧ wire_fits cfg hs ∧ length hs = length ps
  end.

(** The answer for the rows [hs']. *)
Definition answer_for d (st : Stage) (hs' : list Row) : ForwardOutputWire :=
  if is_tail (sg_nc st) then DistPipeline.Logits (logit_bytes (ref_head from_f16 d (sg_engine st) hs'))
  else DistPipeline.OutActivations (wire_rows cfg hs').1 (wire_rows cfg hs').2.

(** A tail that was sent hidden states leaves one tensor behind. *)
Definition leaks (st : Stage) (inp : ForwardInputWire) : bool :=
  is_tail (sg_nc st) && match inp with InActivations _ _ => true | _ => false end.

(** The state after a pass: the sequence has grown by the entries of the reference,
    and everything else is as before. *)
Definition pass_done d (c : KvCacheManager) (st : Stage) (leak : bool) (ess' : list (list (Row * Row))) (s : KvCacheManager * D) : Prop :=
  s.1 = with_len (sg_seq st) c (sg_h st) (sc_current_len (sg_seq st) + length ps) ∧
  Forall (has_shape (layer_shape c) FP16 s.2) (cache_tensors (sg_seq st)) ∧ cstores s.2 (sg_seq st) ess' ∧
  (∃ X : gset Z, b_live s.2 = X ∪ b_live d ∧ X ## b_live d ∧ size X = if leak then 1 else 0) ∧
  (∀ id, id ∈ b_live d → seq_outside (sg_seq st) id → b_rows s.2 id = b_rows d id).

Lemma length_request d st inp hs : request_ok d st inp hs → length hs = length ps.
Proof. intros (_ & _ & Hin). destruct inp as [ids|th data]; destruct Hin as (_ & ? & ? & Hx); [by rewrite Hx, length_fmap | done]. Qed.

Lemma length_ref_contiguous d E nc ess hs hs' ess' :
  ref_contiguous d E nc ess ps hs = (hs', ess') → length hs = length ps → length hs' = length hs.
Proof.
  unfold ref_contiguous. generalize 0. generalize (W0 d <$> node_layers E nc) as Ws. intros Ws. revert ess hs ess'.
  induction Ws as [|W Ws IH]; intros [|es ess] hs ess' k Hr Hl; cbn [ref_layers] in Hr; try (by injection Hr as <- <-).
  destruct (ref_layers _ _ _ Ws (S k) ess ps _) as [hs2 ess2] eqn:E2. injection Hr as <- <-.
  pose proof (length_ref_layer (D := D) (ws_config (weights E)) (λ _, pair) (kv_att (D := D) (ws_config (weights E))) W k es ps hs (eq_sym Hl)) as Hlen.
  rewrite (IH _ _ _ _ E2), Hlen; congruence.
Qed.

(** The part after the input is on the device. *)
Lemma pass_runs d c st input hs (Q : KvCacheManager * D → ForwardResultPayload → Prop) :
  stage_ok cfg total ps d c st → weights_ok (seq_outside (sg_seq st)) d (sg_ws st) →
  input_ok (seq_outside (sg_seq st)) d (sg_ws st) (sg_nc st) input ps hs →
  let '(hs', ess') := ref_contiguous d (sg_engine st) (sg_nc st) (sg_ess st) ps hs in
  (is_tail (sg_nc st) = false → wire_fits cfg hs') →
  (∀ s r, s.1 = with_len (sg_seq st) c (sg_h st) (sc_current_len (sg_seq st) + length ps) →
     Forall (has_shape (layer_shape c) FP16 s.2) (cache_tensors (sg_seq st)) → cstores s.2 (sg_seq st) ess' →
     b_live s.2 = (if is_tail (sg_nc st) then b_live d else b_live d ∖ match input with Activations t _ => {[tensor_id t]} | _ => ∅ end) →
     rest_kept (seq_outside (sg_seq st)) d s.2 input → r = {| DistPipeline.output := answer_for d st hs' |} → Q s r) →
  runs dev_failed
    (do! output := cn_forward from_f16 (sg_node st) input (sg_h st) false in
     match output.1 with
     | Engine.Logits logits => sret {| DistPipeline.output := DistPipeline.Logits (logit_bytes logits) |}
     | Engine.OutActivations tensor =>
         do! td := dev (download_activations tensor) in sret {| DistPipeline.output := DistPipeline.OutActivations td.1 td.2 |}
     end) (c, d) Q.
Proof.
  intros Hst Hws Hin. destruct (ref_contiguous d (sg_engine st) (sg_nc st) (sg_ess st) ps hs) as [hs' ess'] eqn:Eref. intros Hfit HQ.
  pose proof (sk_cfg _ _ _ _ _ _ Hst) as Hcfg.
  apply runs_bind. eapply runs_mono; [| apply (forward_node_Ok from_f16 (sg_engine st) (sg_nc st) input (sg_h st) c d (sg_seq st) (sg_ess st) ps hs false)];
    try apply Hst; try done; [| by rewrite Hcfg; apply Hst..].
  intros [c1 d1] [out prof] Hpass. unfold contiguous_ok in Hpass. rewrite Eref in Hpass. destruct Hpass as (Hc1 & Hsh1 & Hst1 & Hrest & Hout & _).
  cbn [fst snd] in *. unfold answer_for in HQ. destruct out as [l|t]; destruct Hout as [Ht Hout].
  - destruct Hout as [-> Hl]. apply runs_ret. rewrite Ht in HQ. by apply HQ.
  - destruct Hout as (Hv & Hr & Hsh & Hdt & Hlive). rewrite Hcfg in Hsh.
    assert (length hs' = length ps) as Hlen. { destruct Hv as [_ Hn]. rewrite Hr in Hn. rewrite Hn. unfold nrows. rewrite Hsh. cbn. apply Nat2Z.id. }
    apply runs_bind, runs_dev. eapply (download_runs cfg hs'); [by apply Hfit | done | done | by rewrite Hlen | done |].
    intros d2 Hl2 Hs2. apply runs_ret. rewrite Ht in HQ.
    assert (∀ id, id ∈ b_live d → (∀ u, input_tensor input = Some u → id ≠ tensor_id u) → id ∈ b_live d2) as Hkeep.
    { intros id Hid Hu. rewrite Hl2. destruct input as [? ?|t' ?]; destruct Hlive as [Hf Hl]; rewrite Hl.
      - set_solver.
      - subst t'. apply elem_of_difference. split; [done |]. rewrite elem_of_singleton. by apply Hu. }
    assert (∀ u, u ∈ cache_tensors (sg_seq st) → tensor_id u ∈ b_live d2 ∧ t_rows d2 u = t_rows d1 u) as Hcache.
    { intros u Hu. assert (tensor_id u ∈ b_live d2) as Hu2; [| split; [done | by apply Hs2]]. apply Hkeep.
      - eapply seq_ok_live; [apply Hst | done].
      - intros v Hv' Heq. destruct input as [? ?|t' ?]; [done |]. injection Hv' as ->. destruct Hin as (_ & _ & _ & _ & _ & Ho & _).
        apply Ho. rewrite <- Heq. apply list_elem_of_fmap. eauto. }
    destruct (seq_frame d1 d2 (sg_seq st) (layer_shape c) ess' Hcache Hsh1 Hst1) as [Hsh2 Hst2].
    apply HQ; try done; cbn [snd].
    + rewrite Hl2. destruct input as [? ?|t' ?]; destruct Hlive as [Hf Hl]; rewrite Hl; [set_solver | by subst].
    + intros id Hid Ho Hu. rewrite (Hs2 id) by (by apply Hkeep). by apply Hrest.
Qed.

(** A forward request to a worker whose sequence is open. *)
Lemma handle_forward_runs d c st inp hs header payload handles prefill :
  stage_ok cfg total ps d c st → weights_ok (seq_outside (sg_seq st)) d (sg_ws st) → request_ok d st inp hs →
  deserialize payload = Ok {| DistPipeline.is_prefill := prefill; DistPipeline.positions := ps; DistPipeline.input := inp |} →
  handles !! seq_id header = Some (sg_h st) →
  let '(hs', ess') := ref_contiguous d (sg_engine st) (sg_nc st) (sg_ess st) ps hs in
  (is_tail (sg_nc st) = false → wire_fits cfg hs') →
  runs dev_failed (handle_forward from_f16 header payload (sg_node st) handles) (c, d) (λ s r,
    pass_done d c st (leaks st inp) ess' s ∧ r = {| DistPipeline.output := answer_for d st hs' |}).
Proof.
  intros Hst Hws Hreq Hde Hh. pose proof (sk_cfg _ _ _ _ _ _ Hst) as Hcfg.
  unfold handle_forward. destruct inp as [ids|th data].
  - pose proof (pass_runs d c st (Engine.TokenIds ids ps) hs (λ s r, pass_done d c st (leaks st (DistPipeline.TokenIds ids))
      (ref_contiguous d (sg_engine st) (sg_nc st) (sg_ess st) ps hs).2 s ∧
      r = {| DistPipeline.output := answer_for d st (ref_contiguous d (sg_engine st) (sg_nc st) (sg_ess st) ps hs).1 |}) Hst Hws) as Hpass.
    destruct (ref_contiguous d (sg_engine st) (sg_nc st) (sg_ess st) ps hs) as [hs' ess']. intros Hfit. cbn [fst snd] in Hpass.
    apply runs_bind. eapply runs_lift; [unfold deserialize_payload; by rewrite Hde |]. rewrite Hh. cbn [DistPipeline.input DistPipeline.positions].
    apply runs_bind, runs_ret. apply Hpass; [| done |].
    { destruct Hreq as (? & ? & ? & ? & ? & ?). rewrite <- Hcfg in *. done. }
    intros s r Hc Hsh Hcs Hl Hrest ->. split; [| done]. split_and!; try done.
    + exists ∅. unfold leaks. rewrite andb_false_r. split_and!; [| apply disjoint_empty_l | done]. rewrite Hl, union_empty_l_L. destruct (is_tail _); [done | apply difference_empty_L].
    + intros id Hid Ho. by apply Hrest.
  - destruct Hreq as (Hne & Hps & Hhd & Hwire & Hfit0 & Hlen).
    destruct (ref_contiguous d (sg_engine st) (sg_nc st) (sg_ess st) ps hs) as [hs' ess'] eqn:Eref. intros Hfit.
    apply runs_bind. eapply runs_lift; [unfold deserialize_payload; by rewrite Hde |]. rewrite Hh. cbn [DistPipeline.input DistPipeline.positions].
    apply runs_bind, runs_bind, runs_dev. injection Hwire as -> ->.
    apply (upload_runs cfg hs d); [done |]. intros d1 t Hal Hv Hsh Hdt Hr. apply runs_ret.
    assert (∀ id, id ∈ b_live d → id ∈ b_live d1 ∧ b_rows d1 id = b_rows d id) as Hkeep.
    { intros id Hid. destruct Hal as [Hl _ _ Hs]. split; [rewrite Hl; set_solver | by apply Hs]. }
    assert (tensor_id t ∉ b_live d) as Hfresh by (destruct Hal as [_ _ Hf _]; apply Hf; set_solver).
    assert (ref_contiguous d1 (sg_engine st) (sg_nc st) (sg_ess st) ps hs = (hs', ess')) as Eref1.
    { rewrite <- Eref. unfold ref_contiguous. f_equal. apply list_fmap_ext. intros k w Hw. apply W0_same. intros f. apply Hkeep, (wo_live _ _ _ Hws).
      apply layer_in_store, (node_layers_in (sg_engine st) (sg_nc st)). by eapply list_elem_of_lookup_2. }
    pose proof (pass_runs d1 c st (Engine.Activations t ps) hs (λ s r, pass_done d c st (leaks st (InActivations (wire_rows cfg hs).1 (wire_rows cfg hs).2)) ess' s ∧
      r = {| DistPipeline.output := answer_for d st hs' |})) as Hpass.
    rewrite Eref1 in Hpass. apply Hpass; [| | | done |].
    + eapply stage_ok_frame; [| exact Hst]. intros u Hu. apply Hkeep. eapply seq_ok_live; [apply Hst | done].
    + apply (weights_ok_frame from_f16 total _ d d1); [| exact Hws]. intros u Hu. apply Hkeep. by apply (wo_live _ _ _ Hws).
    + split; [done |]. rewrite Hcfg, <- Hlen. split_and!; try done.
      * eapply seq_ok_fresh; [apply Hst | done].
      * intros (u & Heq & Hu)%list_elem_of_fmap. apply Hfresh. rewrite Heq. by apply (wo_live _ _ _ Hws).
    + intros s r Hc Hshs Hcs Hl Hrest ->.
      assert (answer_for d1 st hs' = answer_for d st hs') as ->.
      { unfold answer_for, ref_head. destruct (is_tail _); [| done].
        assert (∀ u, u ∈ [output_norm (sg_ws st); lm_head (sg_ws st)] → t_rows d1 u = t_rows d u) as Hrows.
        { intros u Hu. apply Hkeep, (wo_live _ _ _ Hws). unfold store_tensors. clear - Hu. set_solver. }
        rewrite (Hrows (output_norm _)), (Hrows (lm_head _)) by (clear; set_solver). done. }
      split; [| done]. destruct Hal as [Hl1 _ _ _]. cbn [fmap list_fmap list_to_set] in Hl1. split_and!; try done.
      * unfold leaks. rewrite andb_true_r. destruct (is_tail _).
        -- exists {[tensor_id t]}. rewrite Hl, Hl1, size_singleton. clear - Hfresh. split_and!; [set_solver.. | done].
        -- exists ∅. rewrite Hl, Hl1. clear - Hfresh. split_and!; [set_solver.. | done].
      * intros id Hid Ho. rewrite Hrest; [by apply Hkeep | by apply Hkeep | done |]. intros u [= <-] ->. done.
Qed.
End worker.

(** ** A chain of workers *)

(** A worker with its device, and what its open sequence holds. *)
Record Remote (D : Type) := { rm_worker : Worker; rm_dev : D; rm_stage : Stage }.
Arguments rm_worker {D}.
Arguments rm_dev {D}.
Arguments rm_stage {D}.

Section cluster.
Context {D : Type} `{KernelLaws D} `{!BackendLaws D} `{!TimerOps D} `{!TimerLaws D} `{DeviceInfo D}.
Implicit Types d : D.
Variable crc32c : list Z → Z.
Hypothesis crc32c_u32 : ∀ l, in_width 32 (crc32c l).
Variables (from_f16 : Z → f32) (f16_from_f32 : f32 → Z) (bf16_to_f32 : Z → f32) (exp ln cos sin : f64 → f64).
Variables (ho : HashOrder) (model_file : list Z) (wcfg : WorkerConfig).
Context `{Bincode ForwardPayload} `{Bincode ForwardResultPayload} `{Bincode BatchedForwardPayload}
  `{Bincode BatchedForwardResultPayload} `{Bincode ErrorPayload} `{Bincode RegisterAckPayload} `{Bincode VictoryPayload}
  `{Bincode ClusterManifestPayload}.
(** What is serialized is deserialized. *)
Hypothesis forward_codec : ∀ (p : ForwardPayload) bs, serialize p = Ok bs → deserialize bs = Ok p.
Hypothesis result_codec : ∀ (p : ForwardResultPayload) bs, serialize p = Ok bs → deserialize bs = Ok p.
Variables (cfg : ModelConfig) (total : Z) (ps : list Z) (sid : Z) (prefill : bool).

Notation handle := (handle_message crc32c from_f16 f16_from_f32 bf16_to_f32 exp ln cos sin ho model_file wcfg).

(** The worker holds the sequence and can answer. *)
Record remote_ok (rm : Remote D) : Prop := {
  ro_stage : stage_ok cfg total ps (rm_dev rm) (cache (wk_caches (rm_worker rm))) (rm_stage rm);
  ro_weights : weights_ok (seq_outside (sg_seq (rm_stage rm))) (rm_dev rm) (sg_ws (rm_stage rm));
  ro_node : wk_node (rm_worker rm) = sg_node (rm_stage rm);
  ro_handle : handles (wk_caches (rm_worker rm)) !! sid = Some (sg_h (rm_stage rm));
  ro_open : w_open (wk_writer (rm_worker rm)) = true
}.

(** Worker [id] of the registry is [rm]: sent the request with input [inp], it
    handles it, and what it writes is what the coordinator will read, after
    heartbeat acks. *)
Definition answers_to (reg : PeerRegistry) (inp : ForwardInputWire) (id : string) (rm : Remote D) (wd : Worker * D) (bs : list Z) : Prop :=
  ∃ e req acks rest, reg !! id = Some e ∧ w_open (writer e) = true ∧
    serialize {| DistPipeline.is_prefill := prefill; DistPipeline.positions := ps; DistPipeline.input := inp |} = Ok req ∧
    handle (msg_frame (Forward, sid, req)) (rm_worker rm, rm_dev rm) = (wd, Ok Continue) ∧
    w_sent (wk_writer wd.1) = w_sent (wk_writer (rm_worker rm)) ++ bs ∧ (Z.of_nat (length bs) ≤ MAX_PAYLOAD_SIZE)%Z ∧
    r_stream (reader e) = frames_of crc32c (ack_msgs acks) ++ bs ++ rest ∧ Forall msg_fits (ack_msgs acks).

(** A chain: each worker is asked for the hidden states that its predecessor's
    answer contains. *)
Inductive chained (reg : PeerRegistry) : ForwardInputWire → list string → list (Remote D) → list (Worker * D) → Prop :=
  | chained_last inp id rm wd bs : answers_to reg inp id rm wd bs → chained reg inp [id] [rm] [wd]
  | chained_next inp id ids rm rms wd wds bs r hp th td :
      answers_to reg inp id rm wd bs → recv crc32c {| r_stream := bs |} = (r, Ok hp) →
      deserialize hp.2 = Ok {| DistPipeline.output := DistPipeline.OutActivations th td |} →
      chained reg (InActivations th td) ids rms wds → chained reg inp (id :: ids) (rm :: rms) (wd :: wds).

(** The reference on the rows [hs], worker by worker. *)
Fixpoint cluster_ref (rms : list (Remote D)) (hs : list Row) : list Row * list (list (list (Row * Row))) :=
  match rms with
  | [] => (hs, [])
  | rm :: rms' =>
      let st := rm_stage rm in
      let '(hs1, ess1) := ref_contiguous (rm_dev rm) (sg_engine st) (sg_nc st) (sg_ess st) ps hs in
      let '(hs2, rest) := cluster_ref rms' hs1 in (hs2, ess1 :: rest)
  end.

(** The hidden states that are handed from worker to worker. *)
Fixpoint handovers (rms : list (Remote D)) (hs : list Row) : list (list Row) :=
  match rms with
  | rm :: rms' =>
      let st := rm_stage rm in
      let hs1 := (ref_contiguous (rm_dev rm) (sg_engine st) (sg_nc st) (sg_ess st) ps hs).1 in
      match rms' with [] => [] | _ => hs1 :: handovers rms' hs1 end
  | [] => []
  end.

Lemma cluster_ref_layers rms hs :
  (∀ rm, rm ∈ rms → ws_config (sg_ws (rm_stage rm)) = cfg ∧
    length (node_layers (sg_engine (rm_stage rm)) (sg_nc (rm_stage rm))) = length (sg_ess (rm_stage rm))) →
  ref_layers (D := D) cfg (λ _, pair) (kv_att (D := D) cfg)
    (mjoin ((λ rm, W0 (rm_dev rm) <$> node_layers (sg_engine (rm_stage rm)) (sg_nc (rm_stage rm))) <$> rms)) 0
    (mjoin ((λ rm, sg_ess (rm_stage rm)) <$> rms)) ps hs =
  let '(hs', rs) := cluster_ref rms hs in (hs', mjoin rs).
Proof.
  revert hs. induction rms as [|rm rms IH]; intros hs Hst; [done |].
  destruct (Hst rm ltac:(left)) as [Hc Hl].
  rewrite !fmap_cons. cbn [mjoin list_join cluster_ref].
  unfold kv_att. rewrite ref_layers_app by (by rewrite length_fmap). unfold ref_contiguous. rewrite Hc. unfold kv_att.
  destruct (ref_layers cfg (λ _, pair) _ _ 0 (sg_ess (rm_stage rm)) ps hs) as [hs1 r1].
  unfold kv_att in IH. rewrite IH by (intros; apply Hst; by right). by destruct (cluster_ref rms hs1).
Qed.

Hypothesis sid_u64 : in_width 64 sid.

Lemma frame_fits mt payload : (Z.of_nat (length (frame_of crc32c (mt, sid, payload))) ≤ MAX_PAYLOAD_SIZE)%Z → msg_fits (mt, sid, payload).
Proof. unfold frame_of, encode_frame. rewrite !length_app. intros Hl. split; [done |]. cbn [snd] in *. lia. Qed.

Lemma answer_sent {A : Type} `{Bincode A} mt i (x : A) w d wd :
  send_or_standby crc32c mt i x (w, d) = (wd, Ok Continue) → w_open (wk_writer w) = true →
  wd.2 = d ∧ wk_caches wd.1 = wk_caches w ∧ ∃ bs, serialize x = Ok bs ∧ w_sent (wk_writer wd.1) = w_sent (wk_writer w) ++ frame_of crc32c (mt, i, bs).
Proof.
  unfold send_or_standby, or_standby, send, sbind, slift. intros Hs Ho. destruct (serialize x) as [bs| |]; [| done..].
  rewrite (send_raw_open _ _ _ _ _ Ho) in Hs. injection Hs as <-. cbn. eauto.
Qed.

(** A worker's answer to a forward request. *)
Lemma on_forward_answer rm inp req hs wd :
  remote_ok rm → request_ok cfg ps (rm_dev rm) (rm_stage rm) inp hs →
  serialize {| DistPipeline.is_prefill := prefill; DistPipeline.positions := ps; DistPipeline.input := inp |} = Ok req →
  handle (msg_frame (Forward, sid, req)) (rm_worker rm, rm_dev rm) = (wd, Ok Continue) → b_failed wd.2 = false →
  let st := rm_stage rm in
  let '(hs', ess') := ref_contiguous (rm_dev rm) (sg_engine st) (sg_nc st) (sg_ess st) ps hs in
  (is_tail (sg_nc st) = false → wire_fits cfg hs') →
  pass_done ps (rm_dev rm) (cache (wk_caches (rm_worker rm))) st (leaks st inp) ess' (cache (wk_caches wd.1), wd.2) ∧
  ∃ reply, deserialize reply = Ok {| DistPipeline.output := answer_for from_f16 cfg (rm_dev rm) st hs' |} ∧
    w_sent (wk_writer wd.1) = w_sent (wk_writer (rm_worker rm)) ++ frame_of crc32c (ForwardResult, sid, reply).
Proof.
  intros [Hst Hws Hnode Hh Ho] Hreq Hser Hrun Hfl st.
  pose proof (handle_forward_runs from_f16 cfg total ps (rm_dev rm) _ st inp hs (msg_frame (Forward, sid, req)).1 req
    (handles (wk_caches (rm_worker rm))) prefill Hst Hws Hreq (forward_codec _ _ Hser) Hh) as Hpass.
  destruct (ref_contiguous _ _ _ _ _ _) as [hs' ess']. intros Hfit. specialize (Hpass Hfit).
  unfold handle_message, msg_frame in Hrun. cbn [fst snd msg_type] in Hrun. unfold on_forward in Hrun.
  apply sbind_Ok in Hrun as (s0 & w0 & [= <- <-] & Hrun). cbn [fst] in Hrun. rewrite Hnode in Hrun.
  cbn [fst msg_frame] in Hpass.
  apply sbind_Ok in Hrun as ([w1 d1] & [res|e] & E1 & Hrun); [apply attempt_inl in E1 | apply attempt_inr in E1];
    apply in_caches_inv in E1 as (cs1 & E1 & ->); unfold on_contiguous in E1; unfold runs in Hpass;
    destruct (handle_forward _ _ _ _ _ _) as [[c2 d2] r2] eqn:E2; injection E1 as <- <- ->.
  - destruct Hpass as [Hdone ->]. apply answer_sent in Hrun as (-> & -> & reply & Hreply & Hsent); [| done]. split; [done |].
    exists reply. split; [by apply result_codec | exact Hsent].
  - apply answer_sent in Hrun as (Hd & _); [| done]. unfold dev_failed in Hpass. cbn [snd] in Hpass. congruence.
Qed.

(** The stage of the chain that the coordinator meets. *)
Lemma answers_ready reg inp id rm wd bs hs :
  remote_ok rm → request_ok cfg ps (rm_dev rm) (rm_stage rm) inp hs → answers_to reg inp id rm wd bs → b_failed wd.2 = false →
  let st := rm_stage rm in
  let '(hs', ess') := ref_contiguous (rm_dev rm) (sg_engine st) (sg_nc st) (sg_ess st) ps hs in
  (is_tail (sg_nc st) = false → wire_fits cfg hs') →
  pass_done ps (rm_dev rm) (cache (wk_caches (rm_worker rm))) st (leaks st inp) ess' (cache (wk_caches wd.1), wd.2) ∧
  (∃ req, serialize {| DistPipeline.is_prefill := prefill; DistPipeline.positions := ps; DistPipeline.input := inp |} = Ok req) ∧
  ∃ sc, stage_ready crc32c reg id sc ∧ s_out sc = answer_for from_f16 cfg (rm_dev rm) st hs' ∧
    ∀ r hp, recv crc32c {| r_stream := bs |} = (r, Ok hp) → deserialize hp.2 = Ok {| DistPipeline.output := s_out sc |}.
Proof.
  intros Hrm Hreq (e & req & acks & rest & He & Ho & Hser & Hrun & Hsent & Hlen & Hstream & Hacks) Hfl st.
  pose proof (on_forward_answer rm inp req hs wd Hrm Hreq Hser Hrun Hfl) as Hans. cbn zeta in Hans. fold st in Hans.
  destruct (ref_contiguous _ _ _ _ _ _) as [hs' ess']. intros Hfit. destruct (Hans Hfit) as (Hdone & reply & Hde & Hsent').
  rewrite Hsent in Hsent'. apply app_inv_head in Hsent' as ->.
  assert (msg_fits (ForwardResult, sid, reply)) as Hmsg by (by apply frame_fits).
  split; [done |]. split; [by exists req |].
  exists {| s_acks := acks; s_seq_id := sid; s_reply := reply; s_out := answer_for from_f16 cfg (rm_dev rm) st hs'; s_rest := rest |}.
  split; [| split; [done |]].
  - exists e. by split_and!.
  - intros r hp Hrecv. pose proof (recv_msg crc32c crc32c_u32 ForwardResult sid reply [] Hmsg) as Hr. rewrite app_nil_r in Hr.
    unfold frame_of in Hrecv. cbn [fst snd] in Hrecv. rewrite Hr in Hrecv. by injection Hrecv as _ <-.
Qed.

(** The workers of a chain in order: the first holds the head, the last the tail. *)
Definition ordered (rms : list (Remote D)) : Prop :=
  ∀ j rm, rms !! j = Some rm → remote_ok rm ∧ is_tail (sg_nc (rm_stage rm)) = bool_decide (S j = length rms).

(** The pass of every worker, with its entries. *)
Definition all_done (first : bool) (rms : list (Remote D)) (wds : list (Worker * D)) (rs : list (list (list (Row * Row)))) : Prop :=
  length rs = length rms ∧ length wds = length rms ∧
  ∀ j rm wd ess, rms !! j = Some rm → wds !! j = Some wd → rs !! j = Some ess →
    pass_done ps (rm_dev rm) (cache (wk_caches (rm_worker rm))) (rm_stage rm)
      (bool_decide (S j = length rms) && (first || bool_decide (0 < j))) ess (cache (wk_caches wd.1), wd.2).

Lemma chained_runs reg inp ids rms wds hs :
  chained reg inp ids rms wds → ordered rms → (∀ rm, head rms = Some rm → request_ok cfg ps (rm_dev rm) (rm_stage rm) inp hs) →
  (∀ j rm, rms !! S j = Some rm → is_head (sg_nc (rm_stage rm)) = false) →
  Forall (wire_fits cfg) (handovers rms hs) → Forall (λ wd, b_failed wd.2 = false) wds →
  let '(hs', rs) := cluster_ref rms hs in
  all_done (match inp with InActivations _ _ => true | _ => false end) rms wds rs ∧ ∃ scs acts data, Forall2 (stage_ready crc32c reg) ids scs ∧ s_out <$> scs = stage_outputs acts data ∧
    Forall (λ inp, ∃ req, serialize {| DistPipeline.is_prefill := prefill; DistPipeline.positions := ps; DistPipeline.input := inp |} = Ok req)
      (stage_inputs inp acts) ∧
    Forall (λ a : TensorWireHeader * list Z, ∀ n, last (wshape a.1) = Some n → n = Core.hidden_size cfg) acts ∧
    ∀ rm, last rms = Some rm → data = logit_bytes (ref_head from_f16 (rm_dev rm) (sg_engine (rm_stage rm)) hs').
Proof.
  intros Hch. revert hs. induction Hch as [inp id rm wd bs Ha|inp id ids rm rms wd wds bs r hp th td Ha Hrecv Hde Hch IH];
    intros hs Hord Hreq Hhead Hfit Hfl.
  - destruct (Hord 0 rm eq_refl) as [Hrm Htail]. apply Forall_cons in Hfl as [Hfl _].
    pose proof (answers_ready reg inp id rm wd bs hs Hrm (Hreq rm eq_refl) Ha Hfl) as Hready. cbn zeta in Hready. cbn [cluster_ref].
    destruct (ref_contiguous _ _ _ _ _ _) as [hs' ess'].
    destruct Hready as (Hdone & Hser & sc & Hsc & Hout & _); [by rewrite Htail |]. unfold answer_for in Hout. rewrite Htail in Hout.
    split.
    { split; [done |]. split; [done |]. intros [|j] rm' wd' ess Hj Hj' Hj''; [| done]. injection Hj as <-. injection Hj' as <-. injection Hj'' as <-.
      unfold leaks in Hdone. rewrite Htail in Hdone. by rewrite orb_false_r. }
    eexists [sc], [], _. split_and!; [by repeat constructor | cbn; by rewrite Hout | by repeat constructor | constructor |].
    by intros rm' [= <-].
  - destruct (Hord 0 rm eq_refl) as [Hrm Htail]. apply Forall_cons in Hfl as [Hfl Hfls].
    assert (rms ≠ []) as Hne by (by inversion Hch). rewrite bool_decide_false in Htail by (destruct rms; simpl; [done | lia]).
    pose proof (answers_ready reg inp id rm wd bs hs Hrm (Hreq rm eq_refl) Ha Hfl) as Hready. cbn zeta in Hready. cbn [cluster_ref handovers] in *.
    destruct (ref_contiguous _ _ _ _ _ _) as [hs1 ess1] eqn:Eref. cbn [fst] in Hfit.
    assert (wire_fits cfg hs1 ∧ Forall (wire_fits cfg) (handovers rms hs1)) as [Hfit1 Hfits] by (destruct rms; [done |]; by apply Forall_cons in Hfit).
    destruct Hready as (Hdone & Hser & sc & Hsc & Hout & Hrd); [done |]. unfold answer_for in Hout. rewrite Htail in Hout.
    specialize (Hrd r hp Hrecv). rewrite Hde, Hout in Hrd. injection Hrd as Hth Htd.
    specialize (IH hs1). destruct (cluster_ref rms hs1) as [hs2 rs].
    destruct IH as (Hall & scs & acts & data & Hscs & Houts & Hsers & Hdims & Hdata); try done.
    { intros j rm' Hj. destruct (Hord (S j) rm' Hj) as [? Ht]. split; [done |]. rewrite Ht. apply bool_decide_ext. simpl. lia. }
    { intros rm' Hrm'. destruct rms as [|rm2 rms2]; [done |]. injection Hrm' as <-. destruct (Hreq rm eq_refl) as (Hps & Hpos & _).
      split; [done |]. split; [done |]. split; [by apply (Hhead 0) |]. split; [by subst |]. split; [done |].
      pose proof (length_request cfg ps (rm_dev rm) (rm_stage rm) inp hs (Hreq rm eq_refl)) as Hl0.
      rewrite <- Hl0. by apply (length_ref_contiguous ps _ _ _ _ _ _ _ Eref). }
    { intros j rm' Hj. by apply (Hhead (S j)). }
    destruct Hall as (Hlr & Hlw & Hall). split.
    { split; [simpl; congruence |]. split; [simpl; congruence |]. intros [|j] rm' wd' ess Hj Hj' Hj''.
      - injection Hj as <-. injection Hj' as <-. injection Hj'' as <-. unfold leaks in Hdone. rewrite Htail in Hdone.
        rewrite bool_decide_false by (destruct rms; simpl; [done | lia]). exact Hdone.
      - pose proof (Hall j rm' wd' ess Hj Hj' Hj'') as Hp. rewrite (bool_decide_true (0 < S j)), orb_true_r, andb_true_r by lia.
        rewrite andb_true_r in Hp. rewrite (bool_decide_ext (S (S j) = length (rm :: rms)) (S j = length rms)) by (simpl; lia). exact Hp. }
    exists (sc :: scs), ((th, td) :: acts), data. split_and!.
    + by constructor.
    + cbn. rewrite Hout, Houts. subst. done.
    + constructor; [done |]. exact Hsers.
    + constructor; [| done]. subst th. cbn [wire_rows fst make_header wshape]. intros n [= <-]. apply wrap_small. apply Hfit1.
    + intros rm' Hl. rewrite last_cons in Hl. destruct (last rms) as [rm3|] eqn:El; [| by apply last_None in El]. injection Hl as <-. by apply Hdata.
Qed.

(** Ready workers with the layers from the embedding to the output head. *)
Definition in_order (rms : list (Remote D)) : Prop :=
  ∀ j rm, rms !! j = Some rm → remote_ok rm ∧ is_head (sg_nc (rm_stage rm)) = bool_decide (j = 0) ∧
    is_tail (sg_nc (rm_stage rm)) = bool_decide (S j = length rms).

(** [half::f16::to_f32] returns numbers of the format. *)
Hypothesis from_f16_valid : ∀ z, f32_valid (from_f16 z) = true.

(** C7: a forward pass over a chain of workers computes what the whole model
    computes on one machine.  Workers with a device each, holding consecutive
    layers and an open cache for the sequence, are asked one after the other; what
    each writes when it handles its request is what the coordinator reads, behind
    any heartbeat acks.  If no device fails, [DistributedPipeline::forward] returns
    the logits of the reference transformer run through the layers of all workers,
    from the embedding on the first device to the output head on the last,
    although the hidden states pass through bytes, frames and three memories on
    every hop.  The cache of every worker has grown by its part of the reference's
    entries, and nothing else on its device has changed, except that a tail behind
    other workers keeps one more tensor, the uploaded hidden states. *)
Theorem distributed_forward_spec p reg toks rms wds hs :
  sid ∈ allocated_seqs p → NoDup (order p) → DistPipeline.hidden_size p = Core.hidden_size cfg →
  chained reg (DistPipeline.TokenIds toks) (order p) rms wds → in_order rms →
  (∀ rm, head rms = Some rm → request_ok cfg ps (rm_dev rm) (rm_stage rm) (DistPipeline.TokenIds toks) hs) →
  Forall (wire_fits cfg) (handovers rms hs) → Forall (λ wd, b_failed wd.2 = false) wds →
  let whole := ref_layers (D := D) cfg (λ _, pair) (kv_att (D := D) cfg)
    (mjoin ((λ rm, W0 (rm_dev rm) <$> node_layers (sg_engine (rm_stage rm)) (sg_nc (rm_stage rm))) <$> rms)) 0
    (mjoin ((λ rm, sg_ess (rm_stage rm)) <$> rms)) ps hs in
  (∃ reg' logits, DistPipeline.forward crc32c p sid toks ps prefill reg = (reg', Ok logits) ∧
     ∀ rm, last rms = Some rm → logits = ref_head from_f16 (rm_dev rm) (sg_engine (rm_stage rm)) whole.1) ∧
  ∃ rs, mjoin rs = whole.2 ∧ all_done false rms wds rs.
Proof.
  intros Hsid Hnd Hhid Hch Hord Hreq Hfit Hfl whole.
  pose proof (chained_runs reg _ _ _ _ hs Hch) as Hrun. subst whole. rewrite cluster_ref_layers.
  2:{ intros rm [j Hj]%list_elem_of_lookup. destruct (Hord j rm Hj) as ([Hst _ _ _ _] & _). split; [apply Hst |].
      rewrite (sk_ess _ _ _ _ _ _ Hst). apply length_node_layers, Hst. }
  destruct (cluster_ref rms hs) as [hs' rs]. cbn [fst snd].
  destruct Hrun as (Hdone & scs & acts & data & Hready & Hout & Hser & Hdims & Hdata); try done.
  { intros j rm Hj. by destruct (Hord j rm Hj) as (? & _ & ?). }
  { intros j rm Hj. by destruct (Hord (S j) rm Hj) as (_ & ? & _). }
  split; [| by exists rs].
  destruct (forward_loop_chains crc32c crc32c_u32 (DistPipeline.hidden_size p) (length (order p)) sid ps prefill acts data 0 (order p) scs
    (DistPipeline.TokenIds toks) reg) as (reg' & Hrun & _); try done; [by rewrite Hhid |].
  exists reg', (logits_of_bytes data). split; [unfold DistPipeline.forward; by rewrite bool_decide_true |].
  intros rm Hrm. rewrite (Hdata rm Hrm). apply logits_roundtrip. unfold ref_head, ref_logits, decode_logits.
  apply Forall_fmap, Forall_forall. intros [a b] _. apply from_f16_valid.
Qed.
End cluster.

Module ClusterWitness.
(** Two workers with one layer each of a model whose hidden states have one element. *)
Definition cfg1 : ModelConfig :=
  {| Core.hidden_size := 1; num_layers := 2; num_q_heads := 1; num_kv_heads := 1; head_dim := 1; intermediate_size := 3; vocab_size := 2;
     rope_theta := f64_of_Z 10000; rms_norm_eps := f64_lit 1 5; max_seq_len := 16 |}.
Import TinyModel.
Definition layer1 : LayerWeights :=
  {| q_proj := wt 1 [1; 1]; k_proj := wt 2 [1; 1]; v_proj := wt 3 [1; 1]; o_proj := wt 4 [1; 1]; gate_proj := wt 5 [3; 1];
     up_proj := wt 6 [3; 1]; down_proj := wt 7 [1; 3]; attn_norm := wt 8 [1]; ffn_norm := wt 9 [1] |}%Z.
Definition store1 : WeightStore :=
  {| ws_config := cfg1; token_embedding := wt 10 [4; 1]; layers := [layer1]; output_norm := wt 11 [1]; lm_head := wt 12 [2; 1] |}%Z.
Definition node1 (k : Z) : ComputeNodeImpl :=
  {| cn_engine := {| weights := store1; e_layer_range := {| rstart := k; rend := k + 1 |} |};
     node_config := {| nc_layer_range := {| rstart := k; rend := k + 1 |}; Engine.total_layers := 2 |} |}.
Definition allocation := kv_alloc (kv_new 1 1 1 8, tdev).
Definition c1 : KvCacheManager := allocation.1.1.
Definition d1 : SimDevice := allocation.1.2.
Definition seq1 : SequenceCache := default {| sc_layers := []; sc_current_len := 0; sc_max_len := 0 |} (caches c1 !! 0%Z).

Definition stage1 (k : Z) : Stage := {| sg_node := node1 k; sg_h := 0; sg_seq := seq1; sg_ess := [[]] |}.
Definition worker1 (k : Z) : Worker :=
  {| wk_node := node1 k;
     wk_caches := {| cache := c1; quantized_cache := None; paged_cache := None; handles := {[7%Z := 0%Z]}; paged_handles := ∅ |};
     wk_stats := stats_new; wk_state := Ready;
     wk_view := {| current_term := 0; cluster_manifest := None; election_agent := None |};
     wk_leave_requested := false; wk_writer := {| w_sent := []; w_open := true |} |}.
Definition remote1 (k : Z) : Remote SimDevice := {| rm_worker := worker1 k; rm_dev := d1; rm_stage := stage1 k |}.

(** A codec through the positive numbers. *)
#[export] Instance header_eq_dec : EqDecision TensorWireHeader.
Proof. solve_decision. Defined.
#[export] Instance header_countable : Countable TensorWireHeader :=
  inj_countable' (λ h, (ndim h, wshape h, wdtype h, compression h, data_len h))
    (λ '(a, b, c, d, e), {| ndim := a; wshape := b; wdtype := c; compression := d; data_len := e |}) ltac:(by intros []).
Definition in_sum (i : ForwardInputWire) : list Z + TensorWireHeader * list Z :=
  match i with DistPipeline.TokenIds ids => inl ids | InActivations h x => inr (h, x) end.
Definition out_sum (i : ForwardOutputWire) : list Z + TensorWireHeader * list Z :=
  match i with DistPipeline.Logits x => inl x | DistPipeline.OutActivations h x => inr (h, x) end.
Definition of_code {A B : Type} `{Countable A} (f : A → B) (bs : list Z) : result B :=
  match bs with [Z.pos n] => match decode n with Some a => Ok (f a) | None => Err (Protocol "") end | _ => Err (Protocol "") end.
#[export] Instance w_forward : Bincode ForwardPayload := {|
  serialize p := Ok [Z.pos (encode (DistPipeline.is_prefill p, DistPipeline.positions p, in_sum (DistPipeline.input p)))];
  deserialize := of_code (λ x : bool * list Z * (list Z + TensorWireHeader * list Z),
    let '(b, q, i) := x in
    {| DistPipeline.is_prefill := b; DistPipeline.positions := q;
       DistPipeline.input := match i with inl ids => DistPipeline.TokenIds ids | inr (h, x) => InActivations h x end |}) |}.
#[export] Instance w_result : Bincode ForwardResultPayload := {|
  serialize p := Ok [Z.pos (encode (out_sum (DistPipeline.output p)))];
  deserialize := of_code (λ i : list Z + TensorWireHeader * list Z,
    {| DistPipeline.output := match i with inl x => DistPipeline.Logits x | inr (h, x) => DistPipeline.OutActivations h x end |}) |}.

Lemma w_forward_codec (p : ForwardPayload) bs : serialize p = Ok bs → deserialize bs = Ok p.
Proof. intros [= <-]. cbn. rewrite decode_encode. by destruct p as [? ? []]. Qed.
Lemma w_result_codec (p : ForwardResultPayload) bs : serialize p = Ok bs → deserialize bs = Ok p.
Proof. intros [= <-]. cbn. rewrite decode_encode. by destruct p as [[]]. Qed.

Definition unread {A : Type} (bs : list Z) : result A := Err (Protocol "unused").
#[export] Instance w_batched : Bincode BatchedForwardPayload := {| serialize := λ _, Ok []; deserialize := unread |}.
#[export] Instance w_batched_result : Bincode BatchedForwardResultPayload := {| serialize := λ _, Ok []; deserialize := unread |}.
#[export] Instance w_error : Bincode ErrorPayload := {| serialize := λ _, Ok []; deserialize := unread |}.
#[export] Instance w_ack : Bincode RegisterAckPayload := {| serialize := λ _, Ok []; deserialize := unread |}.
#[export] Instance w_victory : Bincode VictoryPayload := {| serialize := λ _, Ok []; deserialize := unread |}.
#[export] Instance w_manifest : Bincode ClusterManifestPayload := {| serialize := λ _, Ok []; deserialize := unread |}.
#[export] Instance w_info : DeviceInfo SimDevice :=
  {| device_name := "sim"; total_memory _ := 0%Z; available_memory _ := 0%Z |}.

Definition crc (_ : list Z) : Z := 7%Z.
Definition to_f16 (_ : f32) : Z := 0%Z.
Definition of_bf16 (_ : Z) : f32 := f32_zero.
Definition id64 (x : f64) : f64 := x.
(** Only numbers of the format. *)
Definition half (z : Z) : f32 := if f32_valid (f32_of_Z z) then f32_of_Z z else f32_zero.
Lemma half_valid z : f32_valid (half z) = true.
Proof. unfold half. by destruct (f32_valid (f32_of_Z z)) eqn:E. Qed.
Definition wcfg1 : WorkerConfig :=
  {| wc_node_id := "a"; decode_ms := f32_one; prefill_ms := f32_one; coordinator_capable := false; tq_config := None |}.

Notation whandle := (handle_message crc half to_f16 of_bf16 id64 id64 id64 id64 hash_order_id [] wcfg1).
Notation wrequest inp := (default [] (match serialize {| DistPipeline.is_prefill := true; DistPipeline.positions := [0; 1]%Z; DistPipeline.input := inp |} with Ok b => Some b | _ => None end)).
(** The two exchanges. *)
Definition run1 := whandle (msg_frame (Forward, 7%Z, wrequest (DistPipeline.TokenIds [3; 1]%Z))) (worker1 0, d1).
Definition bytes1 : list Z := w_sent (wk_writer run1.1.1).
Definition act1 : TensorWireHeader * list Z := wire_rows cfg1 [[59; 86]; [5; 80]]%Z.
Definition run2 := whandle (msg_frame (Forward, 7%Z, wrequest (InActivations act1.1 act1.2))) (worker1 1, d1).
Definition bytes2 : list Z := w_sent (wk_writer run2.1.1).
(** The first worker's answer comes behind a heartbeat ack. *)
Definition entry1 (bs : list Z) : WorkerEntry :=
  {| capabilities := {| LayerScheduler.node_id := ""; gpu_model := ""; gpu_memory_available := 0; compute_capability := (0, 0);
       decode_ms_per_layer := f32_one; prefill_ms_per_layer_128 := f32_one |}%Z;
     writer := {| w_sent := []; w_open := true |}; reader := {| r_stream := bs |}; assignment := None; last_heartbeat := 0;
     status := Registry.Ready; we_free_blocks := 0; Registry.gpu_memory_used := 0 |}.
Definition acks1 : list (Z * list Z) := [(0, [1; 2])]%Z.
Definition registry1 : PeerRegistry :=
  <["a" := entry1 (frames_of crc (ack_msgs acks1) ++ bytes1)]> (<["b" := entry1 bytes2]> ∅).
Definition pipe1 : DistributedPipeline :=
  {| order := ["a"; "b"]; DistPipeline.hidden_size := 1; DistPipeline.total_layers := 2; allocated_seqs := {[7%Z]} |}.

Lemma crc_width (l : list Z) : in_width 32 (crc l).
Proof. unfold crc, in_width. lia. Qed.

Lemma seq1_ok : seq_ok d1 c1 0%Z seq1.
Proof.
  assert (kv_ok tdev tdev (kv_new 1 1 1 8)) as Hnew.
  { split; simpl; [intros ??; by rewrite lookup_empty | lia | intros ??; by rewrite lookup_empty |].
    unfold kv_tensors. simpl. rewrite map_to_list_empty. apply alloced_refl. }
  assert (kv_alloc (kv_new 1 1 1 8, tdev) = ((c1, d1), Ok 0%Z)) as Ha by (by vm_compute).
  destruct (kv_alloc_Ok tdev tdev (kv_new 1 1 1 8) c1 d1 0%Z Hnew Ha) as (Hok & _ & s & Hc & _).
  assert (caches c1 !! 0%Z = Some s) as Hs by (by rewrite Hc, lookup_insert_eq).
  unfold seq1. rewrite Hs. by apply (kv_ok_seq tdev).
Qed.

Lemma weights1_ok : weights_ok (seq_outside seq1) d1 store1.
Proof.
  assert (Forall (λ t, 12 < tensor_id t)%Z (cache_tensors seq1)) as Hout by decide_now.
  assert (Forall (λ u, tensor_id u ∈ dom (sim_mem d1) ∧ (tensor_id u ≤ 12)%Z) (store_tensors store1)) as Hin by decide_now.
  rewrite Forall_forall in Hout. rewrite Forall_forall in Hin. split; try done.
  - intros u Hu. destruct (Hin u Hu) as [Hd Hle]. split; [exact Hd |]. intros (t & Heq & Ht)%list_elem_of_fmap. specialize (Hout t Ht). lia.
  - intros w f Hw. apply list_elem_of_singleton in Hw as ->. by destruct f.
Qed.

Lemma remote1_ok k : (k = 0 ∨ k = 1)%Z → remote_ok cfg1 2 [0; 1]%Z 7 (remote1 k).
Proof.
  intros Hk. split; [| exact weights1_ok | done..]. split; [exact seq1_ok | try (by destruct Hk as [-> | ->]; vm_compute)..].
  - exact (CoordinatorWitness.seq_empty d1 c1 _ seq1_ok eq_refl).
  - by forall_list.
  - cbn [remote1 worker1 rm_worker wk_caches cache rm_stage stage1 sg_seq]. vm_compute. lia.
Qed.

Lemma pair_with {A B : Type} (x : A * B) b : x.2 = b → x = (x.1, b).
Proof. intros <-. apply surjective_pairing. Qed.
Lemma run1_Ok : run1.2 = Ok Continue.
Proof. by vm_compute. Qed.
Lemma run2_Ok : run2.2 = Ok Continue.
Proof. by vm_compute. Qed.

Lemma answers1 : answers_to crc half to_f16 of_bf16 id64 id64 id64 id64 hash_order_id [] wcfg1 [0; 1]%Z 7 true registry1 (DistPipeline.TokenIds [3; 1]%Z) "a" (remote1 0) run1.1 bytes1.
Proof.
  exists (entry1 (frames_of crc (ack_msgs acks1) ++ bytes1)), (wrequest (DistPipeline.TokenIds [3; 1]%Z)), acks1, [].
  split; [reflexivity |]. split; [reflexivity |]. split; [reflexivity |]. split; [| split; [reflexivity |]; split; [| split; [by rewrite app_nil_r |]]].
  - exact (pair_with run1 _ run1_Ok).
  - assert (length bytes1 = 21) as -> by (by vm_compute). unfold MAX_PAYLOAD_SIZE. lia.
  - repeat constructor; cbn; unfold MAX_PAYLOAD_SIZE; lia.
Qed.

Lemma answers2 : answers_to crc half to_f16 of_bf16 id64 id64 id64 id64 hash_order_id [] wcfg1 [0; 1]%Z 7 true registry1 (InActivations act1.1 act1.2) "b" (remote1 1) run2.1 bytes2.
Proof.
  exists (entry1 bytes2), (wrequest (InActivations act1.1 act1.2)), [], [].
  split; [reflexivity |]. split; [reflexivity |]. split; [reflexivity |]. split; [| split; [reflexivity |]; split; [| split; [by rewrite app_nil_r |]]].
  - exact (pair_with run2 _ run2_Ok).
  - assert (length bytes2 = 21) as -> by (by vm_compute). unfold MAX_PAYLOAD_SIZE. lia.
  - constructor.
Qed.

Definition hp1 : FrameHeader * list Z := match (recv crc {| r_stream := bytes1 |}).2 with Ok hp => hp | _ => msg_frame (Forward, 0%Z, []) end.

Lemma hp1_Ok : (recv crc {| r_stream := bytes1 |}).2 = Ok hp1.
Proof. by vm_compute. Qed.

Lemma chained1 : chained crc half to_f16 of_bf16 id64 id64 id64 id64 hash_order_id [] wcfg1 [0; 1]%Z 7 true registry1 (DistPipeline.TokenIds [3; 1]%Z)
  ["a"; "b"] [remote1 0; remote1 1] [run1.1; run2.1].
Proof.
  eapply (chained_next _ _ _ _ _ _ _ _ _ _ _ _ _ _ _ _ _ _ _ _ _ _ bytes1 (recv crc {| r_stream := bytes1 |}).1 hp1 act1.1 act1.2);
    [exact answers1 | exact (pair_with (recv crc {| r_stream := bytes1 |}) _ hp1_Ok) | by vm_compute | eapply chained_last; exact answers2].
Qed.

Lemma distributed_forward_spec_witness :
  ∃ reg', DistPipeline.forward crc pipe1 7 [3; 1]%Z [0; 1]%Z true registry1 =
    (reg', Ok (ref_head half d1 (cn_engine (node1 1))
      (ref_layers (D := SimDevice) cfg1 (λ _, pair) (kv_att (D := SimDevice) cfg1) [W0 d1 layer1; W0 d1 layer1] 0 [[]; []] [0; 1]%Z [[2; 1]; [0; 1]]%Z).1)).
Proof.
  destruct (distributed_forward_spec crc crc_width half to_f16 of_bf16 id64 id64 id64 id64 hash_order_id [] wcfg1 w_forward_codec w_result_codec
    cfg1 2 [0; 1]%Z 7 true ltac:(done) half_valid pipe1 registry1 [3; 1]%Z [remote1 0; remote1 1] [run1.1; run2.1] [[2; 1]; [0; 1]]%Z)
    as ((reg' & l & Hrun & Hl) & _).
  - cbn. set_solver.
  - decide_now.
  - done.
  - exact chained1.
  - intros [|[|j]] rm [= <-]; (split; [apply remote1_ok; auto | done]).
  - intros rm [= <-]. split; [done |]. split; [by forall_list |]. split; [done |]. split; [done |]. split; [by forall_list | by vm_compute].
  - decide_now.
  - repeat constructor; by vm_compute.
  - exists reg'. rewrite Hrun. rewrite (Hl (remote1 1) eq_refl). done.
Defined.

(** The logits the coordinator returns. *)
Example distributed_forward_runs :
  (DistPipeline.forward crc pipe1 7 [3; 1]%Z [0; 1]%Z true registry1).2 = Ok [half 16331].
Proof. by vm_compute. Qed.
End ClusterWitness.
