(* ===== verification/Ipc.v ===== *)
(** * Pipelines across processes ([crates/fracture-engine/src/ipc.rs])

    A node in another process: an [IpcNodeServer] runs the node and its cache, an
    [IpcNodeClient] is a node for the pipeline coordinator that sends each pass
    over a Unix socket.  Messages are length-prefixed, hidden states travel as a
    header and raw bytes.  A socket is the pair of byte streams of [Connection];
    client and server have a device each. *)

From stdpp Require Import pretty.
From S2P Require Import Prelude F32 Core Frame Connection TensorWire LayerScheduler DistPipeline Backend Kernels KvCache WeightStore Transformer Engine Contiguous Pipeline Worker WorkerForward.

(** ** Tensors *)

Definition dtype_to_tag (d : DType) : Z := match d with FP16 => 0 | FP32 => 1 | BF16 => 2 | INT8 => 3 | INT4 => 4 end.
Definition tag_to_dtype (tag : Z) : result DType :=
  match tag with
  | 0 => Ok FP16
  | 1 => Ok FP32
  | 2 => Ok BF16
  | 3 => Ok INT8
  | 4 => Ok INT4
  | _ => Err (Prelude.Pipeline "unknown dtype tag")
  end%Z.

(** Writing to a buffer and reading from a slice, beside a device. *)
Definition put {D : Type} (bs : list Z) : st (list Z * D) unit := λ '(buf, d), ((buf ++ bs, d), Ok ()).
Definition write_u32 {D : Type} (z : Z) : st (list Z * D) unit := put (to_be_bytes 4 (wrap 32 z)).
Definition from_slice {D A : Type} (m : st FramedReader A) : st (FramedReader * D) A := λ '(r, d), let '(r, x) := m r in ((r, d), x).
Definition read_u32 : st FramedReader Z := do! b := read_exact 4 in sret (from_be_bytes b).
Fixpoint read_shape (n : nat) : st FramedReader (list Z) :=
  match n with
  | 0 => sret []
  | S n' => do! dim := read_u32 in do! sh := read_shape n' in sret (dim :: sh)
  end.

Section tensors.
Context {D : Type} `{KernelOps D}.

Fixpoint write_dims (sh : list Z) : st (list Z * D) unit :=
  match sh with [] => sret () | dim :: sh' => do! _ := write_u32 dim in write_dims sh' end.

Definition serialize_tensor (t : DeviceTensor) : st (list Z * D) unit :=
  do! _ := write_u32 (Z.of_nat (length (shape t))) in
  do! _ := write_dims (shape t) in
  do! _ := write_u32 (dtype_to_tag (dtype t)) in
  do! size := slift (size_bytes t) in
  do! host_buf := dev (b_copy_to_host t (Z.to_nat size)) in
  do! _ := dev b_synchronize in
  put host_buf.

Definition deserialize_tensor : st (FramedReader * D) DeviceTensor :=
  do! ndim := from_slice read_u32 in
  do! sh := from_slice (read_shape (Z.to_nat ndim)) in
  do! tag := from_slice read_u32 in
  do! dt := slift (tag_to_dtype tag) in
  do! tensor := dev (b_alloc sh dt) in
  do! size := slift (size_bytes tensor) in
  do! host_buf := from_slice (read_exact size) in
  do! _ := dev (b_copy_to_device tensor host_buf) in
  sret tensor.
End tensors.

(** [let mut buf = Vec::new(); f(&mut buf)?], and reading from [bytes.as_slice()] *)
Definition to_vec {D : Type} (m : st (list Z * D) unit) : st D (list Z) := λ d,
  let '((buf, d), r) := m ([], d) in (d, rmap (λ _, buf) r).
Definition of_bytes {D A : Type} (bs : list Z) (m : st (FramedReader * D) A) : st D A := λ d,
  let '((_, d), r) := m ({| r_stream := bs |}, d) in (d, r).

(** ** Messages *)

Inductive IpcMessage :=
  | ForwardRequestMsg (seq_id : Z) (positions : list Z) (is_prefill : bool) (tensor_data token_ids : list Z)
  | ForwardResponseMsg (seq_id : Z) (is_logits : bool) (payload : list Z)
  | InfoRequest
  | InfoResponse (node_id : string) (layer_start layer_end : Z) (is_head is_tail : bool) (gpu_memory_total gpu_memory_used : Z).

Section messages.
Context `{Bincode IpcMessage}.

Definition write_message (msg : IpcMessage) : st FramedConnection unit :=
  do! payload := slift (match serialize msg with Err _ => Err (Prelude.Pipeline "bincode serialize") | r => r end) in
  do! _ := on_writer (write_all (to_be_bytes 4 (wrap 32 (Z.of_nat (length payload))))) in
  do! _ := on_writer (write_all payload) in
  on_writer flush.

Definition read_message : st FramedConnection IpcMessage :=
  do! len := on_reader read_u32 in
  do! buf := on_reader (read_exact len) in
  slift (match deserialize buf with Err _ => Err (Prelude.Pipeline "bincode deserialize") | r => r end).
End messages.

(** ** The server *)

Record IpcNodeServer := { is_node : ComputeNodeImpl; is_cache : KvCacheManager; is_handles : gmap Z Z }.

Definition server_new (node : ComputeNodeImpl) (cache : KvCacheManager) : IpcNodeServer :=
  {| is_node := node; is_cache := cache; is_handles := ∅ |}.

Definition with_kv {D A : Type} (m : st (KvCacheManager * D) A) : st (IpcNodeServer * D) A := λ '(s, d),
  let '((c, d), r) := m (is_cache s, d) in (({| is_node := is_node s; is_cache := c; is_handles := is_handles s |}, d), r).

Section server.
Context {D : Type} `{KernelOps D} `{TimerOps D} `{Bincode IpcMessage}.
Variable from_f16 : Z → f32.

(** The handle of a sequence, allocated at its first request. *)
Definition get_handle (sid : Z) : st (IpcNodeServer * D) Z := λ '(s, d),
  match is_handles s !! sid with
  | Some h => ((s, d), Ok h)
  | None =>
      (do! h := with_kv kv_alloc in
       λ '(s, d), (({| is_node := is_node s; is_cache := is_cache s; is_handles := <[sid := h]> (is_handles s) |}, d), Ok h)) (s, d)
  end.

Definition ipc_input (node : ComputeNodeImpl) (positions tensor_data token_ids : list Z) : st D NodeInput :=
  if is_head (node_config node) then sret (Engine.TokenIds token_ids positions)
  else do! tensor := of_bytes tensor_data deserialize_tensor in sret (Engine.Activations tensor positions).

Definition ipc_output (output : NodeOutput) : st D (bool * list Z) :=
  match output with
  | Engine.Logits logits => sret (true, logit_bytes logits)
  | Engine.OutActivations tensor =>
      do! buf := to_vec (serialize_tensor tensor) in
      do! _ := b_free tensor in
      sret (false, buf)
  end.

Definition ipc_handle (msg : IpcMessage) : st (IpcNodeServer * D) IpcMessage := λ '(s, d),
  match msg with
  | ForwardRequestMsg seq_id positions _ tensor_data token_ids =>
      (do! handle := get_handle seq_id in
       do! res := with_kv (
         do! input := dev (ipc_input (is_node s) positions tensor_data token_ids) in
         do! output := cn_forward from_f16 (is_node s) input handle false in
         dev (ipc_output output.1)) in
       sret (ForwardResponseMsg seq_id res.1 res.2)) (s, d)
  | InfoRequest =>
      let cfg := node_config (is_node s) in
      let range := nc_layer_range cfg in
      ((s, d), Ok (InfoResponse ("node-" +:+ pretty (rstart range) +:+ "-" +:+ pretty (rend range)) (rstart range) (rend range)
                     (is_head cfg) (is_tail cfg) 0 0))
  | _ => ((s, d), Err (Prelude.Pipeline "unexpected message type for server"))
  end.

(** [handle_connection]: a message takes bytes from the stream, so its length
    bounds the loop.  The end of the stream ends the connection. *)
Fixpoint connection_loop (fuel : nat) : st (FramedConnection * (IpcNodeServer * D)) unit := λ '(stream, sd),
  match fuel with
  | 0 => ((stream, sd), Panic)
  | S fuel' =>
      match read_message stream with
      | (stream, Ok msg) =>
          (do! response := dev (ipc_handle msg) in
           do! _ := (λ '(stream, sd), let '(stream, r) := write_message response stream in ((stream, sd), r)) in
           connection_loop fuel') (stream, sd)
      | (stream, Err (Io _)) => ((stream, sd), Ok ())
      | (stream, Err e) => ((stream, sd), Err e)
      | (stream, Panic) => ((stream, sd), Panic)
      end
  end.
Definition handle_connection : st (FramedConnection * (IpcNodeServer * D)) unit := λ s,
  connection_loop (S (length (r_stream (conn_reader s.1)))) s.

(** [serve]: the connections one after the other; an error ends the server. *)
Fixpoint serve_connections (streams : list FramedConnection) : st (list FramedConnection * (IpcNodeServer * D)) unit := λ '(done, sd),
  match streams with
  | [] => ((done, sd), Ok ())
  | stream :: streams' =>
      let '((stream, sd), r) := handle_connection (stream, sd) in
      match r with
      | Ok _ => serve_connections streams' (done ++ [stream], sd)
      | r => ((done ++ [stream], sd), r)
      end
  end.
End server.

(** ** The client *)

(** The stream is behind a mutex, poisoned by a panic while it is locked. *)
Record IpcNodeClient := { ic_stream : FramedConnection; ic_poisoned : bool; ic_config : NodeConfig }.

Definition client_new (stream : FramedConnection) (nc : NodeConfig) : IpcNodeClient :=
  {| ic_stream := stream; ic_poisoned := false; ic_config := nc |}.

Section client.
Context {D : Type} `{KernelOps D} `{Bincode IpcMessage}.

Definition client_request (input : NodeInput) (seq_id : Z) : st D IpcMessage :=
  match input with
  | Engine.TokenIds ids positions => sret (ForwardRequestMsg seq_id positions false [] ids)
  | Engine.Activations hidden_states positions =>
      do! buf := to_vec (serialize_tensor hidden_states) in sret (ForwardRequestMsg seq_id positions false buf [])
  end.

Definition client_response (response : IpcMessage) : st D NodeOutput :=
  match response with
  | ForwardResponseMsg _ is_logits payload =>
      if is_logits then sret (Engine.Logits (logits_of_bytes payload))
      else do! tensor := of_bytes payload deserialize_tensor in sret (Engine.OutActivations tensor)
  | _ => serr (Prelude.Pipeline "unexpected response type from server")
  end.

Definition client_forward (input : NodeInput) (cache_handle : Z) : st (IpcNodeClient * D) NodeOutput := λ '(c, d),
  match client_request input cache_handle d with
  | (d, Ok request) =>
      if ic_poisoned c then ((c, d), Err (Prelude.Pipeline "stream lock poisoned"))
      else
        let '((stream, d), r) :=
          (do! _ := (λ '(stream, d), let '(stream, r) := write_message request stream in ((stream, d), r)) in
           do! response := (λ '(stream, d), let '(stream, r) := read_message stream in ((stream, d), r)) in
           dev (client_response response)) (ic_stream c, d) in
        (({| ic_stream := stream; ic_poisoned := match r with Panic => true | _ => false end; ic_config := ic_config c |}, d), r)
  | (d, Err e) => ((c, d), Err e)
  | (d, Panic) => ((c, d), Panic)
  end.
End client.

(** ** Bytes *)

(** A message on the wire. *)
Definition ipc_frame (payload : list Z) : list Z := to_be_bytes 4 (Z.of_nat (length payload)) ++ payload.
(** Hidden states on the wire, with the fields of [TensorWireHeader]. *)
Definition ipc_tensor (th : TensorWireHeader) (data : list Z) : list Z :=
  to_be_bytes 4 (wrap 32 (Z.of_nat (length (wshape th)))) ++ (wshape th ≫= to_be_bytes 4) ++ to_be_bytes 4 (wdtype th) ++ data.

Lemma tag_roundtrip d : tag_to_dtype (dtype_to_wire d) = Ok d.
Proof. by destruct d. Qed.

Lemma read_u32_be z q : in_width 32 z → read_u32 {| r_stream := to_be_bytes 4 z ++ q |} = ({| r_stream := q |}, Ok z).
Proof.
  intros Hz. unfold read_u32, sbind. rewrite read_exact_app by (by rewrite length_to_be_bytes). unfold sret. by rewrite from_to_be_bytes.
Qed.

Lemma read_shape_be sh q : Forall (in_width 32) sh →
  read_shape (length sh) {| r_stream := (sh ≫= to_be_bytes 4) ++ q |} = ({| r_stream := q |}, Ok sh).
Proof.
  induction 1 as [|dim sh Hdim _ IH]; [done |]. cbn [read_shape length]. rewrite bind_cons, <- app_assoc. unfold sbind at 1.
  rewrite read_u32_be by done. unfold sbind. by rewrite IH.
Qed.

Section bytes.
Context {D : Type} `{KernelLaws D} `{!BackendLaws D}.
Implicit Types d : D.

Lemma write_dims_spec sh buf d : write_dims sh (buf, d) = ((buf ++ ((wrap 32 <$> sh) ≫= to_be_bytes 4), d), Ok ()).
Proof.
  revert buf. induction sh as [|dim sh IH]; intros buf; cbn [write_dims]; [by rewrite app_nil_r |]. unfold sbind, write_u32, put.
  rewrite IH. by rewrite fmap_cons, bind_cons, app_assoc.
Qed.

(** Serializing reads the tensor like [download_activations], without freeing it. *)
Lemma serialize_eq t d : to_vec (serialize_tensor t) d =
  (do! size := slift (size_bytes t) in
   do! host_buf := b_copy_to_host t (Z.to_nat size) in
   do! _ := b_synchronize in
   sret (ipc_tensor (make_header (shape t) (dtype t) 0) host_buf)) d.
Proof.
  unfold to_vec, serialize_tensor, sbind, write_u32 at 1, put at 1. rewrite write_dims_spec. unfold write_u32, put. cbn [app].
  unfold slift, dev. destruct (size_bytes t) as [n| |]; [| done..]. destruct (b_copy_to_host t (Z.to_nat n) d) as [d1 [buf| |]]; [| done..].
  destruct (b_synchronize d1) as [d2 [[]| |]]; [| done..]. unfold sret, ipc_tensor. cbn [make_header wshape wdtype rmap].
  rewrite length_fmap, !app_assoc. do 4 f_equal. by destruct (dtype t).
Qed.

Lemma ipc_output_eq t d : (ipc_output (Engine.OutActivations t)) d =
  (do! td := download_activations t in sret (false, ipc_tensor td.1 td.2)) d.
Proof.
  unfold ipc_output, download_activations. unfold sbind at 1. rewrite serialize_eq. unfold sbind, slift.
  destruct (size_bytes t) as [n| |]; [| done..]. destruct (b_copy_to_host t (Z.to_nat n) d) as [d1 [buf| |]]; [| done..].
  destruct (b_synchronize d1) as [d2 [[]| |]]; [| done..]. unfold sret. cbn beta iota. by destruct (b_free t d2) as [d3 [[]| |]].
Qed.

(** Deserializing the bytes of hidden states uploads them. *)
Lemma deserialize_eq cfg hs d : wire_fits cfg hs →
  of_bytes (ipc_tensor (wire_rows cfg hs).1 (wire_rows cfg hs).2) deserialize_tensor d =
  upload_activations (wire_rows cfg hs).1 (wire_rows cfg hs).2 d.
Proof.
  intros Hfit. pose proof Hfit as (_ & H32 & Hh & _). unfold of_bytes, deserialize_tensor, upload_activations, ipc_tensor, alloc_fill.
  set (th := (wire_rows cfg hs).1). set (data := (wire_rows cfg hs).2).
  assert (wshape th = [Z.of_nat (length hs); Core.hidden_size cfg]) as Hsh.
  { cbn [th wire_rows fst wshape make_header]. rewrite !fmap_cons, fmap_nil. by rewrite !wrap_small. }
  unfold sbind at 1, from_slice at 1. rewrite wrap_small by (rewrite Hsh; done). rewrite read_u32_be by (by rewrite Hsh).
  unfold sbind at 1, from_slice at 1. rewrite Nat2Z.id, read_shape_be by (rewrite Hsh; repeat apply Forall_cons_2; [done.. | apply Forall_nil_2]).
  unfold sbind at 1, from_slice at 1. rewrite read_u32_be by done.
  change (wdtype th) with (dtype_to_wire FP16). rewrite wire_dtype_roundtrip. unfold sbind at 1, slift at 1. rewrite tag_roundtrip.
  unfold sbind, dev, slift. destruct (b_alloc (wshape th) FP16 d) as [d1 [t| |]] eqn:Ha; [| done..].
  pose proof (b_alloc_Ok _ _ _ _ _ Ha) as (Hsht & Hdt & _). rewrite Hsh in Hsht.
  rewrite (wire_fits_size cfg hs t Hfit Hsht Hdt). unfold from_slice. rewrite <- (app_nil_r data), read_exact_app by done. rewrite app_nil_r.
  by destruct (b_copy_to_device t data d1) as [d2 [[]| |]].
Qed.
End bytes.

(** ** A pass over the socket *)

Definition ipc_payload (r : ForwardResultPayload) : bool * list Z :=
  match DistPipeline.output r with
  | DistPipeline.Logits bs => (true, bs)
  | DistPipeline.OutActivations th data => (false, ipc_tensor th data)
  end.
Definition ipc_request (sid : Z) (ps : list Z) (inp : ForwardInputWire) : IpcMessage :=
  match inp with
  | DistPipeline.TokenIds ids => ForwardRequestMsg sid ps false [] ids
  | InActivations th data => ForwardRequestMsg sid ps false (ipc_tensor th data) []
  end.

Section pass.
Context {D : Type} `{KernelLaws D} `{!BackendLaws D} `{!TimerOps D} `{!TimerLaws D} `{Bincode IpcMessage}.
Implicit Types d : D.
Variable from_f16 : Z → f32.
Variables (cfg : ModelConfig) (total : Z) (ps : list Z) (sid : Z).

(** What the server does for a request is what a worker does for it. *)
Definition fixed_codec (p : ForwardPayload) : Bincode ForwardPayload := {| serialize := λ _, Ok []; deserialize := λ _, Ok p |}.
Definition request_payload (inp : ForwardInputWire) : ForwardPayload :=
  {| DistPipeline.is_prefill := false; DistPipeline.positions := ps; DistPipeline.input := inp |}.
Definition request_header : FrameHeader := {| msg_type := Forward; seq_id := sid; payload_len := 0 |}.

Lemma server_pass_eq node d c inp hs st tensor_data token_ids h :
  node = sg_node st → request_ok cfg ps d st inp hs →
  (tensor_data, token_ids) = match inp with DistPipeline.TokenIds ids => ([], ids) | InActivations th data => (ipc_tensor th data, []) end →
  (do! input := dev (ipc_input node ps tensor_data token_ids) in
   do! output := cn_forward from_f16 node input h false in
   dev (ipc_output output.1)) (c, d) =
  (do! r := handle_forward (H2 := fixed_codec (request_payload inp)) from_f16 request_header [] node {[sid := h]} in sret (ipc_payload r)) (c, d).
Proof.
  intros -> (_ & _ & Hreq) Heq. unfold handle_forward, deserialize_payload. cbn [deserialize fixed_codec].
  cbn [request_header seq_id]. rewrite lookup_singleton_eq. cbn [request_payload DistPipeline.input DistPipeline.positions].
  assert (∀ t d, ipc_output (Engine.OutActivations t) d = let '(d', r) := download_activations t d in (d', rmap (λ td, (false, ipc_tensor td.1 td.2)) r)) as Hout.
  { intros t d'. rewrite ipc_output_eq. unfold sbind. by destruct (download_activations t d') as [d2 [td| |]]. }
  unfold sbind, dev, slift, ipc_input. destruct inp as [ids|th data]; injection Heq as -> ->.
  - destruct Hreq as (-> & _). unfold sret. cbn [request_payload DistPipeline.input DistPipeline.positions].
    destruct (cn_forward _ _ _ _ _ _) as [[c1 d1] [[[l|t] prof]| |]]; [done | | done..].
    cbn [fst]. rewrite Hout. by destruct (download_activations t d1) as [d2 [td| |]].
  - destruct Hreq as (-> & Hwire & Hfit & _). assert (th = (wire_rows cfg hs).1) as -> by (by rewrite <- Hwire).
    assert (data = (wire_rows cfg hs).2) as -> by (by rewrite <- Hwire). unfold sbind. rewrite deserialize_eq by done.
    cbn [request_payload DistPipeline.input DistPipeline.positions]. destruct (upload_activations _ _ d) as [d0 [t0| |]]; [| done..]. unfold sret.
    destruct (cn_forward _ _ _ _ _ _) as [[c1 d1] [[[l|t] prof]| |]]; [done | | done..].
    cbn [fst]. rewrite Hout. by destruct (download_activations t d1) as [d2 [td| |]].
Qed.

(** What is serialized is deserialized. *)
Hypothesis codec : ∀ (m : IpcMessage) bs, serialize m = Ok bs → deserialize bs = Ok m.

(** A message whose bytes are [bs] and fit the length prefix. *)
Definition encodes (m : IpcMessage) (bs : list Z) : Prop := serialize m = Ok bs ∧ in_width 32 (Z.of_nat (length bs)).

Lemma write_message_open m bs stream : encodes m bs → w_open (conn_writer stream) = true →
  write_message m stream =
    ({| conn_reader := conn_reader stream; conn_writer := {| w_sent := w_sent (conn_writer stream) ++ ipc_frame bs; w_open := true |} |}, Ok ()).
Proof.
  intros [Hs Hw] Ho. unfold write_message, sbind, slift. rewrite Hs. unfold on_writer, write_all, flush. rewrite Ho. cbn.
  rewrite wrap_small by done. unfold ipc_frame. by rewrite app_assoc.
Qed.

Lemma read_message_frame m bs rest w : encodes m bs →
  read_message {| conn_reader := {| r_stream := ipc_frame bs ++ rest |}; conn_writer := w |} =
    ({| conn_reader := {| r_stream := rest |}; conn_writer := w |}, Ok m).
Proof.
  intros [Hs Hw]. unfold read_message, sbind, on_reader, slift, ipc_frame. cbn [conn_reader conn_writer].
  rewrite <- app_assoc, read_u32_be by done. cbn [conn_reader conn_writer]. rewrite read_exact_app by done. by rewrite (codec m bs Hs).
Qed.

Lemma read_message_end w : read_message {| conn_reader := {| r_stream := [] |}; conn_writer := w |} =
  ({| conn_reader := {| r_stream := [] |}; conn_writer := w |}, Err (Io "unexpected end of file")).
Proof. done. Qed.

Lemma runs_with_kv {A : Type} (m : st (KvCacheManager * D) A) sv d Q :
  runs dev_failed m (is_cache sv, d) Q →
  runs dev_failed (with_kv m) (sv, d) (λ s a, is_node s.1 = is_node sv ∧ is_handles s.1 = is_handles sv ∧ Q (is_cache s.1, s.2) a).
Proof. unfold runs, with_kv. by destruct (m (is_cache sv, d)) as [[c d'] [a| |]]. Qed.

(** A request to a server whose sequence is open. *)
Lemma ipc_handle_runs sv d st inp hs :
  is_node sv = sg_node st → is_handles sv !! sid = Some (sg_h st) →
  stage_ok cfg total ps d (is_cache sv) st → weights_ok (seq_outside (sg_seq st)) d (sg_ws st) → request_ok cfg ps d st inp hs →
  let '(hs', ess') := ref_contiguous d (sg_engine st) (sg_nc st) (sg_ess st) ps hs in
  (is_tail (sg_nc st) = false → wire_fits cfg hs') →
  runs dev_failed (ipc_handle from_f16 (ipc_request sid ps inp)) (sv, d) (λ s r,
    is_node s.1 = is_node sv ∧ is_handles s.1 = is_handles sv ∧ pass_done ps d (is_cache sv) st (leaks st inp) ess' (is_cache s.1, s.2) ∧
    let out := ipc_payload {| DistPipeline.output := answer_for from_f16 cfg d st hs' |} in r = ForwardResponseMsg sid out.1 out.2).
Proof.
  intros Hnode Hh Hst Hws Hreq.
  pose proof (handle_forward_runs (H2 := fixed_codec (request_payload inp)) from_f16 cfg total ps d (is_cache sv) st inp hs request_header [] {[sid := sg_h st]} false
                Hst Hws Hreq eq_refl) as Hrun.
  destruct (ref_contiguous d (sg_engine st) (sg_nc st) (sg_ess st) ps hs) as [hs' ess']. intros Hfit.
  specialize (Hrun (lookup_singleton_eq _ _) Hfit).
  set (td := match inp with DistPipeline.TokenIds ids => ([], ids) | InActivations th data => (ipc_tensor th data, []) end).
  assert (ipc_request sid ps inp = ForwardRequestMsg sid ps false td.1 td.2) as -> by (by destruct inp).
  set (ans := ipc_payload {| DistPipeline.output := answer_for from_f16 cfg d st hs' |}).
  set (prog := do! input := dev (ipc_input (is_node sv) ps td.1 td.2) in
         do! output := cn_forward from_f16 (is_node sv) input (sg_h st) false in dev (ipc_output output.1)).
  assert (runs dev_failed prog (is_cache sv, d) (λ s r, pass_done ps d (is_cache sv) st (leaks st inp) ess' s ∧ r = ans)) as Hprog.
  { assert (prog (is_cache sv, d) = (do! r := handle_forward (H2 := fixed_codec (request_payload inp)) from_f16 request_header [] (sg_node st)
      {[sid := sg_h st]} in sret (ipc_payload r)) (is_cache sv, d)) as Heq.
    { unfold prog. rewrite Hnode. apply (server_pass_eq _ d (is_cache sv) inp hs st); [done | done | by destruct inp]. }
    unfold runs. rewrite Heq. apply (runs_bind dev_failed). eapply runs_mono; [| exact Hrun]. intros s r [Hd ->]. by apply runs_ret. }
  assert (ipc_handle from_f16 (ForwardRequestMsg sid ps false td.1 td.2) (sv, d) =
    (do! res := with_kv prog in sret (ForwardResponseMsg sid res.1 res.2)) (sv, d)) as Heq.
  { unfold ipc_handle. unfold sbind at 1. unfold get_handle. by rewrite Hh. }
  unfold runs. rewrite Heq. apply (runs_bind dev_failed). eapply runs_mono; [| apply (runs_with_kv _ _ _ _ Hprog)].
  intros [s d'] res (Hn & Hhs & Hd & ->). apply runs_ret. by split_and!.
Qed.

(** The input the client is given, and the same input on the wire. *)
Definition sends d (input : NodeInput) (inp : ForwardInputWire) (hs : list Row) : Prop :=
  match input, inp with
  | Engine.TokenIds ids ps', DistPipeline.TokenIds ids' => ids' = ids ∧ ps' = ps
  | Engine.Activations t ps', InActivations th data =>
      ps' = ps ∧ t_valid d t ∧ t_rows d t = hs ∧ shape t = [Z.of_nat (length hs); Core.hidden_size cfg] ∧ dtype t = FP16 ∧ (th, data) = wire_rows cfg hs ∧
      wire_fits cfg hs
  | _, _ => False
  end.

Lemma client_request_runs d input inp hs : sends d input inp hs →
  runs b_failed (client_request input sid) d (λ d' m, d' = d ∧ m = ipc_request sid ps inp).
Proof.
  unfold client_request. destruct input as [ids ps'|t ps'], inp as [ids'|th data]; try done.
  - intros [-> ->]. by apply runs_ret.
  - intros (-> & Hv & Hr & Hsh & Hdt & Hwire & Hfit). apply runs_bind. unfold runs at 1. rewrite serialize_eq.
    apply (runs_bind b_failed). eapply runs_lift; [by apply (wire_fits_size cfg hs) |]. rewrite Nat2Z.id.
    apply runs_bind. unfold runs at 1. destruct (k_copy_to_host_spec d t _ Hv (wire_fits_size cfg hs t Hfit Hsh Hdt)) as [->|(d1 & e & -> & Hfl)]; [| done].
    apply runs_bind. unfold runs at 1. destruct (k_synchronize_spec d) as [->|(d1 & e & -> & Hfl)]; [| done].
    apply runs_ret, runs_ret. split; [done |]. rewrite Hsh, Hdt, Hr. unfold ipc_request. injection Hwire as -> ->. done.
Qed.

(** What the client returns for the hidden states [hs'] of the server. *)
Definition client_result ds dc (st : Stage) (hs' : list Row) (s : IpcNodeClient * D) (out : NodeOutput) : Prop :=
  match out with
  | Engine.Logits l => is_tail (sg_nc st) = true ∧ l = ref_head from_f16 ds (sg_engine st) hs' ∧ s.2 = dc
  | Engine.OutActivations t =>
      is_tail (sg_nc st) = false ∧ alloced dc s.2 [t] ∧ t_valid s.2 t ∧ shape t = [Z.of_nat (length hs'); Core.hidden_size cfg] ∧ dtype t = FP16 ∧
      t_rows s.2 t = hs'
  end.

Lemma client_response_runs ds dc st hs' :
  (is_tail (sg_nc st) = false → wire_fits cfg hs') → (is_tail (sg_nc st) = true → Forall (λ x, f32_valid x = true) (ref_head from_f16 ds (sg_engine st) hs')) →
  let out := ipc_payload {| DistPipeline.output := answer_for from_f16 cfg ds st hs' |} in
  ∀ cl, runs b_failed (client_response (ForwardResponseMsg sid out.1 out.2)) dc (λ d' o, client_result ds dc st hs' (cl, d') o).
Proof.
  intros Hfit Hval out cl. unfold client_response, out, answer_for, ipc_payload. destruct (is_tail (sg_nc st)) eqn:Ht; cbn [DistPipeline.output fst snd].
  - apply runs_ret. unfold client_result. rewrite Ht, logits_roundtrip by (by apply Hval). done.
  - apply runs_bind. unfold runs at 1. rewrite deserialize_eq by (by apply Hfit).
    apply (upload_runs cfg hs' dc); [by apply Hfit |]. intros d' t Hal Hv Hsh Hdt Hr. apply runs_ret. unfold client_result. by rewrite Ht.
Qed.

(** The exchange, once the request and the answer are encoded. *)
Lemma client_forward_runs ds dc cl st input inp hs hs' bq bs rest :
  sends dc input inp hs → encodes (ipc_request sid ps inp) bq →
  (let out := ipc_payload {| DistPipeline.output := answer_for from_f16 cfg ds st hs' |} in encodes (ForwardResponseMsg sid out.1 out.2) bs) →
  (is_tail (sg_nc st) = false → wire_fits cfg hs') → (is_tail (sg_nc st) = true → Forall (λ x, f32_valid x = true) (ref_head from_f16 ds (sg_engine st) hs')) →
  ic_poisoned cl = false → w_open (conn_writer (ic_stream cl)) = true → r_stream (conn_reader (ic_stream cl)) = ipc_frame bs ++ rest →
  runs dev_failed (client_forward input sid) (cl, dc) (λ s out, client_result ds dc st hs' s out ∧
    s.1 = {| ic_stream := {| conn_reader := {| r_stream := rest |};
                             conn_writer := {| w_sent := w_sent (conn_writer (ic_stream cl)) ++ ipc_frame bq; w_open := true |} |};
             ic_poisoned := false; ic_config := ic_config cl |}).
Proof.
  intros Hin Hq Hs Hfit Hval Hp Ho Hr. unfold runs, client_forward. pose proof (client_request_runs dc input inp hs Hin) as Hreq. unfold runs in Hreq.
  destruct (client_request input sid dc) as [d1 [m|e|]]; [| done | done]. destruct Hreq as [-> ->]. rewrite Hp.
  unfold sbind. rewrite (write_message_open _ bq) by done. cbn [conn_reader].
  destruct (conn_reader (ic_stream cl)) as [r]. cbn [r_stream] in Hr. rewrite Hr, (read_message_frame _ bs) by done.
  pose proof (client_response_runs ds dc st hs' Hfit Hval) as Hresp. cbn zeta in Hresp.
  set (cl' := {| ic_stream := _; ic_poisoned := false; ic_config := ic_config cl |}). specialize (Hresp cl'). unfold runs in Hresp. unfold dev.
  destruct (client_response _ dc) as [d2 [o|e|]]; [by split | done | done].
Qed.

Definition socket (bytes : list Z) : FramedConnection := {| conn_reader := {| r_stream := bytes |}; conn_writer := {| w_sent := []; w_open := true |} |}.

(** A connection that carries one message. *)
Lemma one_message_runs sv d m m' bq bs (Q : IpcNodeServer * D → Prop) :
  encodes m bq → encodes m' bs → runs dev_failed (ipc_handle from_f16 m) (sv, d) (λ s r, Q s ∧ r = m') →
  runs (λ s, dev_failed s.2) (handle_connection from_f16) (socket (ipc_frame bq), (sv, d)) (λ s _,
    s.1 = {| conn_reader := {| r_stream := [] |}; conn_writer := {| w_sent := ipc_frame bs; w_open := true |} |} ∧ Q s.2).
Proof.
  intros Hq Hs Hm. unfold runs, handle_connection. cbn [fst conn_reader r_stream socket].
  assert (∃ n, length (ipc_frame bq) = S n) as [n Hn].
  { unfold ipc_frame. rewrite length_app, length_to_be_bytes. by eexists. }
  rewrite Hn. cbn [connection_loop]. unfold socket. rewrite <- (app_nil_r (ipc_frame bq)), (read_message_frame _ bq) by done.
  unfold sbind, dev at 1. unfold runs in Hm. destruct (ipc_handle from_f16 m (sv, d)) as [[sv' d'] [r|e|]]; [| done | done].
  destruct Hm as [HQ ->]. rewrite (write_message_open _ bs) by done. cbn [conn_reader conn_writer w_sent app connection_loop].
  by rewrite read_message_end.
Qed.

(** C12: a pass over the socket is a pass of the node.  The server, given the
    bytes of the client's request for an open sequence, runs its layers on its
    own device and cache exactly as the reference does, and writes one answer;
    the client, given these bytes, has written exactly the bytes the server
    read, and returns the logits the server's node computed, or its hidden
    states as a new tensor on the client's device, of the same rows, shape and
    type.  The hidden states must have a shape the header can hold
    ([wire_fits]), the logits be well-formed 32-bit floats, and both messages
    encode to fewer than 2^32 bytes ([encodes]).  Beyond that the
    server's pass changes only its sequence's cache, except that a tail node that
    was sent hidden states leaves the tensor it made of them allocated
    ([leaks]); the client adds only the returned tensor.  All of this holds
    unless a device fails. *)
Theorem ipc_forward_spec sv ds st inp hs bq bs :
  is_node sv = sg_node st → is_handles sv !! sid = Some (sg_h st) →
  stage_ok cfg total ps ds (is_cache sv) st → weights_ok (seq_outside (sg_seq st)) ds (sg_ws st) → request_ok cfg ps ds st inp hs →
  let '(hs', ess') := ref_contiguous ds (sg_engine st) (sg_nc st) (sg_ess st) ps hs in
  (is_tail (sg_nc st) = false → wire_fits cfg hs') →
  (is_tail (sg_nc st) = true → Forall (λ x, f32_valid x = true) (ref_head from_f16 ds (sg_engine st) hs')) →
  encodes (ipc_request sid ps inp) bq →
  (let out := ipc_payload {| DistPipeline.output := answer_for from_f16 cfg ds st hs' |} in encodes (ForwardResponseMsg sid out.1 out.2) bs) →
  runs (λ s, dev_failed s.2) (handle_connection from_f16) (socket (ipc_frame bq), (sv, ds)) (λ s _,
    r_stream (conn_reader s.1) = [] ∧ is_node s.2.1 = is_node sv ∧ is_handles s.2.1 = is_handles sv ∧
    pass_done ps ds (is_cache sv) st (leaks st inp) ess' (is_cache s.2.1, s.2.2) ∧
    ∀ cl dc input rest, sends dc input inp hs → ic_poisoned cl = false → w_open (conn_writer (ic_stream cl)) = true →
      r_stream (conn_reader (ic_stream cl)) = w_sent (conn_writer s.1) ++ rest →
      runs dev_failed (client_forward input sid) (cl, dc) (λ s' out, client_result ds dc st hs' s' out ∧
        r_stream (conn_reader (ic_stream s'.1)) = rest ∧ w_sent (conn_writer (ic_stream s'.1)) = w_sent (conn_writer (ic_stream cl)) ++ ipc_frame bq)).
Proof.
  intros Hnode Hh Hst Hws Hreq. pose proof (ipc_handle_runs sv ds st inp hs Hnode Hh Hst Hws Hreq) as Hrun.
  destruct (ref_contiguous ds (sg_engine st) (sg_nc st) (sg_ess st) ps hs) as [hs' ess']. intros Hfit Hval Hq Hs. specialize (Hrun Hfit).
  eapply runs_mono; cycle 1.
  - eapply (one_message_runs sv ds _ _ bq bs (λ s, is_node s.1 = is_node sv ∧ is_handles s.1 = is_handles sv ∧
      pass_done ps ds (is_cache sv) st (leaks st inp) ess' (is_cache s.1, s.2))); [exact Hq | exact Hs |].
    eapply runs_mono; [| exact Hrun]. intros s r (Hn & Hhs & Hd & ->). by split_and!.
  - intros [stream s] _ [Hstream (Hn & Hhs & Hd)]. cbn [fst snd] in *. subst stream. split_and!; [done.. |].
    intros cl dc input rest Hin Hp Ho Hr. eapply runs_mono; [| by eapply client_forward_runs].
    intros s' out [Hres ->]. by split_and!.
Qed.
End pass.

(** No message makes the server forget a sequence: its handles, and with them the
    caches, only grow. *)
Theorem ipc_server_keeps_sequences {D : Type} `{KernelOps D} `{TimerOps D} `{Bincode IpcMessage} from_f16 msg sv sv' (d d' : D) r :
  ipc_handle from_f16 msg (sv, d) = ((sv', d'), r) → is_handles sv ⊆ is_handles sv'.
Proof.
  assert (∀ A (m : st (KvCacheManager * D) A) s s' (d d' : D) r, with_kv m (s, d) = ((s', d'), r) → is_handles s' = is_handles s) as Hkv.
  { intros A m s s' d1 d2 r'. unfold with_kv. destruct (m (is_cache s, d1)) as [[c d3] x]. by intros [= <- _ _]. }
  destruct msg as [sid ps pf td ti| | |]; cbn [ipc_handle]; try (by intros [= <- _ _]).
  unfold sbind at 1. unfold get_handle. destruct (is_handles sv !! sid) as [h|] eqn:Hh.
  - unfold sbind at 1. destruct (with_kv _ (sv, d)) as [[s1 d1] [x| |]] eqn:E; intros [= <- _ _]; by rewrite (Hkv _ _ _ _ _ _ _ E).
  - unfold sbind at 1. destruct (with_kv kv_alloc (sv, d)) as [[s1 d1] [h| |]] eqn:E; apply Hkv in E; [| intros [= <- _ _]; by rewrite E..].
    unfold sbind at 1. match goal with |- context [with_kv ?m ?s] => destruct (with_kv m s) as [[s2 d2] [x| |]] eqn:E2 end;
      apply Hkv in E2; intros [= <- _ _]; rewrite E2; cbn; rewrite E; by apply insert_subseteq.
Qed.

Module IpcWitness.
Import ClusterWitness.
#[export] Instance ipc_codec : Bincode IpcMessage := {|
  serialize m := match m with
    | ForwardRequestMsg a b c d e => Ok [Z.pos (encode (inl (a, b, c, d, e) : (Z * list Z * bool * list Z * list Z) + (Z * bool * list Z)))]
    | ForwardResponseMsg a b c => Ok [Z.pos (encode (inr (a, b, c) : (Z * list Z * bool * list Z * list Z) + (Z * bool * list Z)))]
    | _ => Err (Protocol "unused")
    end;
  deserialize := of_code (λ x : (Z * list Z * bool * list Z * list Z) + (Z * bool * list Z),
    match x with inl (a, b, c, d, e) => ForwardRequestMsg a b c d e | inr (a, b, c) => ForwardResponseMsg a b c end) |}.
Lemma ipc_codec_ok (m : IpcMessage) bs : serialize m = Ok bs → deserialize bs = Ok m.
Proof. destruct m; intros [= <-]; cbn; by rewrite decode_encode. Qed.

Definition server1 : IpcNodeServer := {| is_node := node1 0; is_cache := c1; is_handles := {[7%Z := 0%Z]} |}.
Definition bytes_of (m : IpcMessage) : list Z := match serialize m with Ok bs => bs | _ => [] end.
Definition question : list Z := bytes_of (ipc_request 7 [0; 1]%Z (DistPipeline.TokenIds [3; 1]%Z)).
Definition states1 : list Row := (ref_contiguous d1 (cn_engine (node1 0)) (node_config (node1 0)) [[]] [0; 1]%Z [[2; 1]; [0; 1]]%Z).1.
Definition answer : list Z := bytes_of (ForwardResponseMsg 7 false (ipc_tensor (wire_rows cfg1 states1).1 (wire_rows cfg1 states1).2)).

Lemma request1_ok : request_ok cfg1 [0; 1]%Z d1 (stage1 0) (DistPipeline.TokenIds [3; 1]%Z) [[2; 1]; [0; 1]]%Z.
Proof. split; [done |]. split; [by forall_list |]. split; [done |]. split; [done |]. split; [by forall_list | by vm_compute]. Qed.
Lemma states1_fit : wire_fits cfg1 states1.
Proof. decide_now. Qed.

Lemma ipc_forward_spec_witness :
  runs (λ s, dev_failed s.2) (handle_connection half) (socket (ipc_frame question), (server1, d1)) (λ s _,
    r_stream (conn_reader s.1) = [] ∧ is_handles s.2.1 = {[7%Z := 0%Z]}).
Proof.
  pose proof (ipc_forward_spec half cfg1 2 [0; 1]%Z 7 ipc_codec_ok server1 d1 (stage1 0) (DistPipeline.TokenIds [3; 1]%Z) [[2; 1]; [0; 1]]%Z question answer
    eq_refl eq_refl) as Hspec.
  specialize (Hspec (ro_stage _ _ _ _ _ (remote1_ok 0 ltac:(auto))) weights1_ok).
  specialize (Hspec request1_ok).
  change (ref_contiguous d1 (sg_engine (stage1 0)) (sg_nc (stage1 0)) (sg_ess (stage1 0)) [0; 1]%Z [[2; 1]; [0; 1]]%Z)
    with (ref_contiguous d1 (cn_engine (node1 0)) (node_config (node1 0)) [[]] [0; 1]%Z [[2; 1]; [0; 1]]%Z) in Hspec.
  destruct (ref_contiguous d1 _ _ _ _ _) as [hs' ess'] eqn:E.
  assert (hs' = states1) as -> by (unfold states1; by rewrite E).
  eapply runs_mono; [| apply Hspec].
  - intros s _ (H1 & _ & H2 & _). split; [exact H1 | exact H2].
  - intros _. exact states1_fit.
  - intros Ht. vm_compute in Ht. discriminate.
  - split; [reflexivity |]. assert (length question = 1) as -> by reflexivity. unfold in_width. lia.
  - split; [reflexivity |]. assert (length answer = 1) as -> by reflexivity. unfold in_width. lia.
Defined.
End IpcWitness.
