(* ===== verification/DistLoop.v ===== *)
(** * The distributed scheduler loop ([bins/fracture-coordinator-cuda/src/distributed_loop.rs])

    One task of the coordinator takes requests, opens their caches on the workers,
    builds batches, sends them through the pipeline, samples tokens and streams
    them to the clients; between batches it watches heartbeats and rebalances.

    What an iteration meets (messages, clocks, the order of map iterations, the
    outcomes of [select!] and of timeouts, changes of the shared registry by
    other tasks) is its environment [LoopEnv].  A client's channel is the log of
    the events sent to it; a client that is gone loses them. *)

From S2P Require Import Prelude F32 Core Frame Connection LayerScheduler Registry DistPipeline Rebalance BatchScheduler Worker.
From S2P Require Sampling.

Notation Event := (Z * GenerationEvent)%type.

Record DistributedSequence := {
  ds_seq_id : Z;
  ds_max_tokens : nat;
  ds_temperature : f32;
  ds_top_k : nat;
  ds_top_p : f32;
  ds_seed : option Z;
  ds_stop_tokens : list Z;
  ds_current_pos : nat;
  ds_generated_tokens : list Z;
  ds_event_tx : Z;
  ds_remaining_prefill : list Z;
  ds_prefill_done : bool
}.

Record DistributedLoopConfig := {
  dc_max_batch_size : nat;
  dc_max_batch_tokens : nat;
  dc_max_prefill_tokens : nat;
  dc_min_free_blocks_reserve : Z;
  dc_heartbeat_interval : Z;
  dc_heartbeat_max_missed : nat;
  dc_model_config : option ModelConfig;
  dc_scheduling_mode : SchedulingMode;
  dc_max_seq_len : Z
}.
Definition DistributedLoopConfig_default : DistributedLoopConfig :=
  {| dc_max_batch_size := 64; dc_max_batch_tokens := 4096; dc_max_prefill_tokens := 512; dc_min_free_blocks_reserve := 4;
     dc_heartbeat_interval := 5000; dc_heartbeat_max_missed := DEFAULT_MAX_MISSED; dc_model_config := None;
     dc_scheduling_mode := Auto; dc_max_seq_len := 4096 |}.

(** The variables of the task, with the shared registry and the events sent. *)
Record DistLoop := {
  dl_pipeline : DistributedPipeline;
  dl_registry : PeerRegistry;
  dl_pending : list PendingRequest;
  dl_active : gmap Z DistributedSequence;
  dl_last_heartbeat : Z;
  dl_tracker : HeartbeatTracker;
  dl_degraded : bool;
  dl_sent : list Event
}.

Definition dl_start (p : DistributedPipeline) (reg : PeerRegistry) (now : Z) : DistLoop :=
  {| dl_pipeline := p; dl_registry := reg; dl_pending := []; dl_active := ∅; dl_last_heartbeat := now; dl_tracker := tracker_new;
     dl_degraded := false; dl_sent := [] |}.

Definition set_cluster (pr : DistributedPipeline * PeerRegistry) (s : DistLoop) : DistLoop :=
  {| dl_pipeline := pr.1; dl_registry := pr.2; dl_pending := dl_pending s; dl_active := dl_active s; dl_last_heartbeat := dl_last_heartbeat s;
     dl_tracker := dl_tracker s; dl_degraded := dl_degraded s; dl_sent := dl_sent s |}.
Definition set_reg (reg : PeerRegistry) (s : DistLoop) : DistLoop := set_cluster (dl_pipeline s, reg) s.
Definition set_pending (l : list PendingRequest) (s : DistLoop) : DistLoop :=
  {| dl_pipeline := dl_pipeline s; dl_registry := dl_registry s; dl_pending := l; dl_active := dl_active s; dl_last_heartbeat := dl_last_heartbeat s;
     dl_tracker := dl_tracker s; dl_degraded := dl_degraded s; dl_sent := dl_sent s |}.
Definition set_active (m : gmap Z DistributedSequence) (s : DistLoop) : DistLoop :=
  {| dl_pipeline := dl_pipeline s; dl_registry := dl_registry s; dl_pending := dl_pending s; dl_active := m; dl_last_heartbeat := dl_last_heartbeat s;
     dl_tracker := dl_tracker s; dl_degraded := dl_degraded s; dl_sent := dl_sent s |}.
Definition set_tracker (t : HeartbeatTracker) (now : Z) (s : DistLoop) : DistLoop :=
  {| dl_pipeline := dl_pipeline s; dl_registry := dl_registry s; dl_pending := dl_pending s; dl_active := dl_active s; dl_last_heartbeat := now;
     dl_tracker := t; dl_degraded := dl_degraded s; dl_sent := dl_sent s |}.
Definition set_degraded (b : bool) (s : DistLoop) : DistLoop :=
  {| dl_pipeline := dl_pipeline s; dl_registry := dl_registry s; dl_pending := dl_pending s; dl_active := dl_active s; dl_last_heartbeat := dl_last_heartbeat s;
     dl_tracker := dl_tracker s; dl_degraded := b; dl_sent := dl_sent s |}.
(** [event_tx.send(ev)], ignoring a closed channel *)
Definition emit (tx : Z) (ev : GenerationEvent) (s : DistLoop) : DistLoop :=
  {| dl_pipeline := dl_pipeline s; dl_registry := dl_registry s; dl_pending := dl_pending s; dl_active := dl_active s; dl_last_heartbeat := dl_last_heartbeat s;
     dl_tracker := dl_tracker s; dl_degraded := dl_degraded s; dl_sent := dl_sent s ++ [(tx, ev)] |}.

(** What the [select!] of an idle loop was woken by. *)
Inductive Wake := WakeRequest (r : option PendingRequest) | WakeTimer | WakePipeline (p : DistributedPipeline).

Record LoopEnv := {
  ev_pipeline : option DistributedPipeline;
  ev_requests : list PendingRequest;
  ev_disconnected : bool;
  ev_now : Z;
  ev_later : Z;
  ev_timed_out : string → bool;
  ev_polls : JoinSchedule;
  ev_allocs : JoinSchedule;
  ev_order : nat → HashOrder;
  ev_others : nat → PeerRegistry → PeerRegistry;
  ev_timestamp : Z;
  ev_nonce : Z;
  ev_wake : Wake;
  ev_degraded_wake : DistributedPipeline + option PendingRequest;
  ev_random : nat → option Z → f32
}.

(** How a part of the loop body ends: it goes on, [continue], or [return]. *)
Inductive ctl := Go | Skip | Stop.
Definition then_go {S : Type} (m k : st S ctl) : st S ctl := do! c := m in match c with Go => k | c => sret c end.

(** [registry.lock().await]: the other tasks may have changed the registry. *)
Definition lock (env : LoopEnv) (k : nat) (s : DistLoop) : DistLoop := set_reg (ev_others env k (dl_registry s)) s.

Definition take_pipeline (p : DistributedPipeline) (s : DistLoop) : DistLoop := set_degraded false (set_cluster (p, dl_registry s) s).

(** [for req in pending.drain(..)]: every waiting request gets an error. *)
Definition reject_pending (msg : string) (s : DistLoop) : DistLoop :=
  set_pending [] (foldl (λ s r, emit (req_event_tx r) (EventError msg) s) s (dl_pending s)).

(** ** Intake *)

Definition intake (env : LoopEnv) : st DistLoop ctl := λ s,
  let s := match ev_pipeline env with Some p => take_pipeline p s | None => s end in
  let s := set_pending (dl_pending s ++ ev_requests env) s in
  if ev_disconnected env && bool_decide (dl_pending s = []) && bool_decide (dl_active s = ∅) then (s, Ok Stop) else (s, Ok Go).

Section loop.
Variable crc32c : list Z → Z.
Variable exp : f32 → f32.
Context `{Bincode ForwardPayload} `{Bincode ForwardResultPayload} `{Bincode BatchedForwardPayload} `{Bincode BatchedForwardResultPayload}
  `{Bincode ErrorPayload} `{Bincode RegisterAckPayload} `{Bincode HeartbeatPayload} `{Bincode HeartbeatAck}.
Variable config : DistributedLoopConfig.

(** ** Heartbeats *)

(** [poll_worker_acks_concurrent]: a task that times out may have read some bytes. *)
Definition poll_worker (env : LoopEnv) (reg : PeerRegistry) (id : string) : PeerRegistry * (string * PollResult) :=
  if ev_timed_out env id then
    (alter (λ e, set_reader {| r_stream := drop (cut (ev_polls env) id) (r_stream (reader e)) |} e) id reg, (id, Nothing))
  else
    match with_reader id (recv crc32c) reg with
    | (reg, Ok (header, payload)) =>
        (reg, (id, if bool_decide (msg_type header = Frame.HeartbeatAck) then
                     match deserialize_payload (P := HeartbeatAck) payload with Ok ack => Ack ack | _ => Nothing end
                   else if bool_decide (msg_type header = Frame.LeaveIntent) then LeaveIntent else Nothing))
    | (reg, _) => (reg, (id, Nothing))
    end.
Definition poll_worker_acks (env : LoopEnv) (reg : PeerRegistry) : PeerRegistry * list (string * PollResult) :=
  foldl (λ acc id, let '(reg, p) := poll_worker env acc.1 id in (reg, acc.2 ++ [p])) (reg, [])
    (completes (ev_polls env) (reader_handles (ev_order env 0) reg).*1).

(** [send_heartbeats] *)
Definition send_heartbeats (env : LoopEnv) (reg : PeerRegistry) : PeerRegistry :=
  foldl (λ reg id, (with_writer id (Connection.send crc32c serialize Heartbeat 0 {| hb_timestamp_ns := ev_timestamp env; hb_nonce := ev_nonce env |}) reg).1)
    reg (pipeline_order (ev_order env 1) reg).

(** The aborted sequences that were active get an error. *)
Definition abort_active (msg : string) (ids : list Z) (s : DistLoop) : DistLoop :=
  foldl (λ s id, match dl_active s !! id with
                 | Some seq => emit (ds_event_tx seq) (EventError msg) (set_active (delete id (dl_active s)) s)
                 | None => s
                 end) s ids.

(** [forced_rebalance] with a new pipeline or the error case [failed]. *)
Definition rebalance (env : LoopEnv) (k : nat) (c : ModelConfig) (skip : list string) (failed : DistLoop → DistLoop) : st DistLoop unit := λ s,
  let s := lock env k s in
  match forced_rebalance crc32c (ev_order env 2) (ev_order env 3) c (dc_scheduling_mode config) (dc_max_seq_len config) skip
          (dl_pipeline s, dl_registry s) with
  | ((_, reg), Ok result) => (set_cluster (rb_pipeline result, reg) s, Ok ())
  | ((p, reg), Err _) => (failed (set_cluster (p, reg) s), Ok ())
  | ((p, reg), Panic) => (set_cluster (p, reg) s, Panic)
  end.

(** Workers that missed too many heartbeats. *)
Definition on_dead (env : LoopEnv) (dead_ids : list string) : st DistLoop unit := λ s,
  let s := lock env 3 s in
  let s := set_reg (mark_dead_workers (dl_registry s) dead_ids) s in
  let s := lock env 4 s in
  let '((p, reg), aborted) := abort_all_sequences crc32c (ev_order env 4) (dl_pipeline s, dl_registry s) in
  let s := abort_active "worker died" aborted (set_cluster (p, reg) s) in
  let degrade s := reject_pending "pipeline degraded: worker(s) died" (set_degraded true s) in
  match dc_model_config config with
  | Some c => rebalance env 5 c dead_ids degrade s
  | None => (degrade s, Ok ())
  end.

Definition heartbeat_step (env : LoopEnv) : st DistLoop unit := λ s,
  if bool_decide (dc_heartbeat_interval config ≤ ev_now env - dl_last_heartbeat s)%Z then
    let '(s, r) :=
      match pending_nonce (dl_tracker s) with
      | None => (s, Ok ())
      | Some _ =>
          let s := lock env 0 s in
          let '(reg, acks) := poll_worker_acks env (dl_registry s) in
          let s := lock env 1 (set_reg reg s) in
          let '(t, reg) := foldl (handle_poll (ev_now env)) (dl_tracker s, dl_registry s) acks in
          let s := lock env 2 (set_reg reg s) in
          let '(t, dead_ids) := increment_missed (pipeline_order (ev_order env 5) (dl_registry s)) (dc_heartbeat_max_missed config) t in
          let s := set_tracker t (dl_last_heartbeat s) s in
          match dead_ids with [] => (s, Ok ()) | _ => on_dead env dead_ids s end
      end in
    match r with
    | Ok _ =>
        let s := lock env 6 s in
        let s := set_reg (send_heartbeats env (dl_registry s)) s in
        (set_tracker (set_pending_nonce (ev_nonce env) (dl_tracker s)) (ev_later env) s, Ok ())
    | r => (s, r)
    end
  else (s, Ok ()).

(** ** Leaving and joining workers *)

Definition shutdown_worker (reg : PeerRegistry) (id : string) : PeerRegistry :=
  mark_dead id (with_writer id (send_empty crc32c Shutdown 0) reg).1.

Definition membership (env : LoopEnv) : st DistLoop unit := λ s,
  if bool_decide (dl_active s = ∅) && negb (dl_degraded s) then
    let s := lock env 7 s in
    let draining := (filter (λ ie, status ie.2 = Draining) (hm_iter (ev_order env 6) (dl_registry s))).*1 in
    let s := lock env 8 s in
    let joining := pending_workers (ev_order env 7) (dl_registry s) in
    if bool_decide (draining = []) && bool_decide (joining = []) then (s, Ok ())
    else
      let s := lock env 9 s in
      let s := set_reg (foldl shutdown_worker (dl_registry s) draining) s in
      match dc_model_config config with
      | Some c => rebalance env 10 c draining (set_degraded true) s
      | None => (s, Ok ())
      end
  else (s, Ok ()).

(** ** Waiting *)

Definition wait_degraded (env : LoopEnv) : st DistLoop ctl := λ s,
  if dl_degraded s then
    let s := reject_pending "pipeline degraded: waiting for reconfiguration" s in
    if bool_decide (dl_active s = ∅) then
      match ev_degraded_wake env with
      | inl p => (take_pipeline p s, Ok Skip)
      | inr (Some r) => (set_pending (dl_pending s ++ [r]) s, Ok Skip)
      | inr None => (s, Ok Stop)
      end
    else (s, Ok Skip)
  else (s, Ok Go).

Definition wait_idle (env : LoopEnv) : st DistLoop ctl := λ s,
  if bool_decide (dl_pending s = []) && bool_decide (dl_active s = ∅) then
    match ev_wake env with
    | WakeRequest (Some r) => (set_pending (dl_pending s ++ [r]) s, Ok Go)
    | WakeRequest None => (s, Ok Stop)
    | WakeTimer => (s, Ok Skip)
    | WakePipeline p => (take_pipeline p s, Ok Skip)
    end
  else (s, Ok Go).

(** ** Admission *)

Definition new_sequence (req : PendingRequest) : DistributedSequence :=
  {| ds_seq_id := req_seq_id req; ds_max_tokens := req_max_tokens req; ds_temperature := req_temperature req; ds_top_k := req_top_k req;
     ds_top_p := req_top_p req; ds_seed := req_seed req; ds_stop_tokens := req_stop_tokens req;
     ds_current_pos := length (prompt_tokens req); ds_generated_tokens := []; ds_event_tx := req_event_tx req;
     ds_remaining_prefill := prompt_tokens req; ds_prefill_done := false |}.

Definition can_admit (env : LoopEnv) (reg : PeerRegistry) : bool :=
  let free_blocks := min_free_blocks (ev_order env 8) reg in
  bool_decide (dc_min_free_blocks_reserve config < free_blocks)%Z || bool_decide (free_blocks = 0)%Z.

Definition admit_one (env : LoopEnv) : st DistLoop unit := λ s,
  let s := lock env 11 s in
  let ok := can_admit env (dl_registry s) in
  match dl_pending s with
  | req :: pending =>
      if ok then
        let s := lock env 12 (set_pending pending s) in
        match alloc_cache crc32c (ev_allocs env) (req_seq_id req) (dl_pipeline s, dl_registry s) with
        | (pr, Ok _) => (set_active (<[req_seq_id req := new_sequence req]> (dl_active s)) (set_cluster pr s), Ok ())
        | (pr, Err _) => (emit (req_event_tx req) (EventError "cache allocation failed") (set_cluster pr s), Ok ())
        | (pr, Panic) => (set_cluster pr s, Panic)
        end
      else (s, Ok ())
  | [] => (s, Ok ())
  end.

(** ** Batches *)

(** The variables of the batch: ids with their kind, tokens, metadata, and the
    number of tokens. *)
Record Batch := { ba_seqs : list (Z * bool); ba_tokens : list Z; ba_metas : list SequenceMetadataWire; ba_total : nat }.
Definition batch_new : Batch := {| ba_seqs := []; ba_tokens := []; ba_metas := []; ba_total := 0 |}.

Definition batch_full (b : Batch) : bool :=
  bool_decide (dc_max_batch_tokens config ≤ ba_total b) || bool_decide (dc_max_batch_size config ≤ length (ba_seqs b)).

Definition batch_push (sid : Z) (prefill : bool) (toks positions : list Z) (b : Batch) : Batch :=
  {| ba_seqs := ba_seqs b ++ [(sid, prefill)]; ba_tokens := ba_tokens b ++ toks;
     ba_metas := ba_metas b ++ [{| smw_seq_id := sid; num_tokens := Z.of_nat (length toks); smw_positions := positions; block_table := [];
                                   cache_seq_len := 0; last_block_tokens := 0 |}];
     ba_total := ba_total b + length toks |}.

(** [(a as u32..b as u32).collect()] *)
Definition u32_range (a b : nat) : list Z := seqZ (wrap 32 (Z.of_nat a)) (wrap 32 (Z.of_nat b) - wrap 32 (Z.of_nat a)).

Fixpoint prefill_loop (seqs : list DistributedSequence) (b : Batch) : result Batch :=
  match seqs with
  | [] => Ok b
  | s :: seqs' =>
      if ds_prefill_done s || bool_decide (ds_remaining_prefill s = []) then prefill_loop seqs' b
      else if batch_full b then Ok b
      else
        let chunk_size := length (ds_remaining_prefill s) `min` dc_max_prefill_tokens config `min` (dc_max_batch_tokens config - ba_total b) in
        let? start_pos := usub (Z.of_nat (ds_current_pos s)) (Z.of_nat (length (ds_remaining_prefill s))) in
        let start_pos := Z.to_nat start_pos in
        prefill_loop seqs' (batch_push (ds_seq_id s) true (take chunk_size (ds_remaining_prefill s)) (u32_range start_pos (start_pos + chunk_size)) b)
  end.

Fixpoint decode_loop (seqs : list DistributedSequence) (b : Batch) : Batch :=
  match seqs with
  | [] => b
  | s :: seqs' =>
      if negb (ds_prefill_done s) then decode_loop seqs' b
      else if batch_full b then b
      else decode_loop seqs' (batch_push (ds_seq_id s) false [default 0%Z (last (ds_generated_tokens s))] [wrap 32 (Z.of_nat (ds_current_pos s))] b)
  end.

Definition build_batch (env : LoopEnv) (active : gmap Z DistributedSequence) : result Batch :=
  let? b := prefill_loop (hm_values (ev_order env 9) active) batch_new in
  Ok (decode_loop (hm_values (ev_order env 10) active) b).

(** ** The forward pass and its outcome *)

Definition fail_batch (ids : list Z) (s : DistLoop) : DistLoop :=
  foldl (λ s id, match dl_active s !! id with
                 | Some seq =>
                     let s := emit (ds_event_tx seq) (EventError "forward pass failed") (set_active (delete id (dl_active s)) s) in
                     set_cluster (free_cache_best_effort crc32c (ds_seq_id seq) (dl_pipeline s, dl_registry s)) s
                 | None => s
                 end) s ids.

Definition ds_params (s : DistributedSequence) : Sampling.SamplingParams :=
  {| Sampling.temperature := ds_temperature s; Sampling.top_k := ds_top_k s; Sampling.top_p := ds_top_p s; Sampling.seed := ds_seed s |}.

Definition set_prefill (rest : list Z) (fin : bool) (s : DistributedSequence) : DistributedSequence :=
  {| ds_seq_id := ds_seq_id s; ds_max_tokens := ds_max_tokens s; ds_temperature := ds_temperature s; ds_top_k := ds_top_k s;
     ds_top_p := ds_top_p s; ds_seed := ds_seed s; ds_stop_tokens := ds_stop_tokens s; ds_current_pos := ds_current_pos s;
     ds_generated_tokens := ds_generated_tokens s; ds_event_tx := ds_event_tx s; ds_remaining_prefill := rest; ds_prefill_done := fin |}.
Definition push_generated (token : Z) (advance : bool) (s : DistributedSequence) : DistributedSequence :=
  {| ds_seq_id := ds_seq_id s; ds_max_tokens := ds_max_tokens s; ds_temperature := ds_temperature s; ds_top_k := ds_top_k s;
     ds_top_p := ds_top_p s; ds_seed := ds_seed s; ds_stop_tokens := ds_stop_tokens s;
     ds_current_pos := if advance then S (ds_current_pos s) else ds_current_pos s;
     ds_generated_tokens := ds_generated_tokens s ++ [token]; ds_event_tx := ds_event_tx s; ds_remaining_prefill := ds_remaining_prefill s;
     ds_prefill_done := ds_prefill_done s |}.

(** Sampling the next token of [seq]; the second component of the state is
    [completed_seq_ids]. *)
Definition sample_token (env : LoopEnv) (logits : list (list f32)) (i : nat) (sid : Z) (prefill : bool) (seq : DistributedSequence)
    : st (DistLoop * list Z) unit := λ sc,
  let '(s, completed) := sc in
  let put seq := set_active (<[sid := seq]> (dl_active s)) s in
  match index logits i with
  | Ok lg =>
      match Sampling.sample exp (ev_random env i) lg (ds_params seq) with
      | Ok token =>
          let seq := push_generated token (negb prefill) seq in
          if bool_decide (token ∈ ds_stop_tokens seq) then ((put seq, completed ++ [sid]), Ok ())
          else
            let s := emit (ds_event_tx seq) (Token token) (put seq) in
            ((s, if bool_decide (ds_max_tokens seq ≤ length (ds_generated_tokens seq)) then completed ++ [sid] else completed), Ok ())
      | Err _ => ((emit (ds_event_tx seq) (EventError "sampling failed") (put seq), completed ++ [sid]), Ok ())
      | Panic => ((put seq, completed), Panic)
      end
  | Err e => ((put seq, completed), Err e)
  | Panic => ((put seq, completed), Panic)
  end.

(** One sequence of the batch. *)
Definition sample_one (env : LoopEnv) (b : Batch) (logits : list (list f32)) (i : nat) (sid : Z) (prefill : bool)
    : st (DistLoop * list Z) unit := λ sc,
  let '(s, completed) := sc in
  match dl_active s !! sid with
  | None => (sc, Ok ())
  | Some seq =>
      if prefill then
        match index (ba_metas b) i with
        | Ok meta =>
            let chunk_size := Z.to_nat (num_tokens meta) in
            if bool_decide (length (ds_remaining_prefill seq) < chunk_size) then (sc, Panic)
            else
              let rest := drop chunk_size (ds_remaining_prefill seq) in
              match rest with
              | [] => sample_token env logits i sid prefill (set_prefill [] true seq) sc
              | _ => ((set_active (<[sid := set_prefill rest (ds_prefill_done seq) seq]> (dl_active s)) s, completed), Ok ())
              end
        | Err e => (sc, Err e)
        | Panic => (sc, Panic)
        end
      else sample_token env logits i sid prefill seq sc
  end.

Fixpoint sample_loop (env : LoopEnv) (b : Batch) (logits : list (list f32)) (i : nat) (seqs : list (Z * bool)) : st (DistLoop * list Z) unit :=
  match seqs with
  | [] => sret ()
  | (sid, prefill) :: seqs' => do! _ := sample_one env b logits i sid prefill in sample_loop env b logits (S i) seqs'
  end.

(** The completed sequences: the last event, and [CacheFree] to the workers. *)
Definition finish_one (env : LoopEnv) (s : DistLoop) (sid : Z) : DistLoop :=
  match dl_active s !! sid with
  | None => s
  | Some seq =>
      let reason := if bool_decide (default 0%Z (last (ds_generated_tokens seq)) ∈ ds_stop_tokens seq) then BatchScheduler.Stop else Length in
      let s := emit (ds_event_tx seq) (Finished reason (length (ds_generated_tokens seq))) (set_active (delete sid (dl_active s)) s) in
      let s := lock env 14 s in
      set_cluster (free_cache crc32c (ds_seq_id seq) (dl_pipeline s, dl_registry s)).1 s
  end.

Definition run_batch (env : LoopEnv) (b : Batch) : st DistLoop ctl := λ s,
  let s := lock env 13 s in
  let is_prefill := existsb snd (ba_seqs b) in
  match DistPipeline.batched_forward crc32c (dl_pipeline s) (ba_metas b) (ba_tokens b) is_prefill (dl_registry s) with
  | (reg, Ok logits) =>
      match sample_loop env b logits 0 (ba_seqs b) (set_reg reg s, []) with
      | ((s, completed), Ok _) => (foldl (finish_one env) s completed, Ok Go)
      | ((s, _), Err e) => (s, Err e)
      | ((s, _), Panic) => (s, Panic)
      end
  | (reg, Err _) => (fail_batch (ba_seqs b).*1 (lock env 15 (set_reg reg s)), Ok Skip)
  | (reg, Panic) => (set_reg reg s, Panic)
  end.

(** The body of the loop. *)
Definition serve (env : LoopEnv) : st DistLoop ctl :=
  do! _ := admit_one env in
  λ s,
  if bool_decide (dl_active s = ∅) then (s, Ok Skip)
  else
    match build_batch env (dl_active s) with
    | Ok b => if bool_decide (ba_seqs b = []) then (s, Ok Skip) else run_batch env b s
    | Err e => (s, Err e)
    | Panic => (s, Panic)
    end.

Definition dist_iteration (env : LoopEnv) : st DistLoop ctl :=
  then_go (intake env)
    (do! _ := heartbeat_step env in
     do! _ := membership env in
     then_go (wait_degraded env) (then_go (wait_idle env) (serve env))).
End loop.
