(* ===== verification/LoopMemory.v ===== *)
(** * The memory reported by the workers, over a run of the distributed loop

    What a worker reports when it registers is never changed by the loop: every
    operation on the registry keeps the capabilities of every entry.  So if the
    other tasks of the coordinator keep the reported memory within a [usize],
    the loop runs the scheduler only on clusters where it cannot panic. *)

From S2P Require Import Prelude F32 Core Frame Connection LayerScheduler SchedulerTotal Registry DistPipeline Rebalance BatchScheduler Worker DistLoop.

(** ** The capabilities of the entries *)

Definition same_caps (reg reg' : PeerRegistry) : Prop := capabilities <$> reg' = capabilities <$> reg.
#[export] Instance same_caps_equiv : Equivalence same_caps.
Proof. split; [done | by intros ?? H; symmetry | intros ??? H1 H2; unfold same_caps in *; congruence]. Qed.

Lemma same_caps_alter f id reg : (∀ e, capabilities (f e) = capabilities e) → same_caps reg (alter f id reg).
Proof.
  intros Hf. apply map_eq. intros i. rewrite !lookup_fmap. destruct (decide (i = id)) as [->|]; [| by rewrite lookup_alter_ne].
  rewrite lookup_alter_eq. destruct (reg !! id); simpl; [by rewrite Hf | done].
Qed.

Lemma same_caps_insert id e e' reg : reg !! id = Some e → capabilities e' = capabilities e → same_caps reg (<[id := e']> reg).
Proof. intros He Hc. unfold same_caps. rewrite fmap_insert, Hc. apply insert_id. by rewrite lookup_fmap, He. Qed.

Lemma same_caps_fold {A : Type} (f : PeerRegistry → A → PeerRegistry) l reg : (∀ reg x, same_caps reg (f reg x)) → same_caps reg (foldl f reg l).
Proof. intros Hf. revert reg. induction l as [|x l IH]; intros reg; cbn [foldl]; [done |]. etrans; [apply Hf | apply IH]. Qed.

(** An operation on the registry that keeps the capabilities. *)
Definition caps_kept {A : Type} (m : st PeerRegistry A) : Prop := ∀ reg, same_caps reg (m reg).1.

Lemma caps_bind {A B : Type} (m : st PeerRegistry A) (k : A → st PeerRegistry B) : caps_kept m → (∀ a, caps_kept (k a)) → caps_kept (sbind m k).
Proof. intros Hm Hk reg. specialize (Hm reg). unfold sbind. destruct (m reg) as [reg' [a| |]]; [etrans; [exact Hm | apply Hk] | done..]. Qed.
Lemma caps_pure {A : Type} (r : result A) : caps_kept (λ reg, (reg, r)).
Proof. by intros reg. Qed.
Lemma caps_if {A : Type} (b : bool) (m k : st PeerRegistry A) : caps_kept m → caps_kept k → caps_kept (if b then m else k).
Proof. by destruct b. Qed.
Lemma caps_writer {A : Type} id (m : st FramedWriter A) : caps_kept (with_writer id m).
Proof. intros reg. unfold with_writer. destruct (reg !! id) as [e|] eqn:He; [| done]. destruct (m (writer e)). by eapply same_caps_insert. Qed.
Lemma caps_reader {A : Type} id (m : st FramedReader A) : caps_kept (with_reader id m).
Proof. intros reg. unfold with_reader. destruct (reg !! id) as [e|] eqn:He; [| done]. destruct (m (reader e)). by eapply same_caps_insert. Qed.

Create HintDb caps.
#[export] Hint Resolve caps_pure caps_writer caps_reader : caps.
Ltac caps := repeat first [apply caps_bind; [| intros ?] | apply caps_if | by eauto with caps | by intros ?].

Section operations.
Variable crc32c : list Z → Z.
Context `{Bincode ForwardPayload} `{Bincode ForwardResultPayload} `{Bincode BatchedForwardPayload} `{Bincode BatchedForwardResultPayload}
  `{Bincode ErrorPayload} `{Bincode RegisterAckPayload} `{Bincode HeartbeatPayload} `{Bincode HeartbeatAck}.

Lemma send_to_all_caps mt sid ids : caps_kept (send_to_all crc32c mt sid ids).
Proof. induction ids as [|id ids IH]; cbn [send_to_all]; caps. Qed.

Lemma try_free_caps sid reg id : same_caps reg (try_free crc32c sid reg id).
Proof. apply caps_writer. Qed.
Lemma try_free_ready_caps sid reg id : same_caps reg (try_free_ready crc32c sid reg id).
Proof. unfold try_free_ready. destruct (reg !! id) as [e|]; [| done]. case_bool_decide; [apply try_free_caps | done]. Qed.

Lemma collect_acks_caps js ids s : same_caps s.1 (collect_acks crc32c js ids s).1.1.
Proof.
  revert s. induction ids as [|id ids IH]; intros [reg succ]; cbn [collect_acks fst]; [done |].
  pose proof (caps_reader id (recv_skipping_heartbeat_acks crc32c) reg) as Hr. destruct (with_reader _ _ _) as [reg1 r]. cbn [fst] in Hr.
  assert (same_caps reg (abort_tasks js ids reg1)) as Ha by (etrans; [exact Hr |]; apply same_caps_fold; intros; by apply same_caps_alter).
  destruct (check_alloc_response r); [| done..]. etrans; [exact Hr | apply (IH (reg1, succ ++ [id]))].
Qed.

Lemma alloc_cache_caps js sid p reg : same_caps reg (alloc_cache crc32c js sid (p, reg)).1.2.
Proof.
  unfold alloc_cache, try_alloc_all. case_bool_decide; [done |]. cbn [fst snd].
  pose proof (send_to_all_caps CacheAlloc sid (order p) reg) as Hs. destruct (send_to_all _ _ _ _ _) as [reg1 r1]. cbn [fst] in Hs.
  set (x := match r1 with Ok _ => _ | r => _ end). assert (same_caps reg x.1.1) as Hx.
  { unfold x. destruct r1; [| done..]. etrans; [exact Hs |]. by rewrite <- collect_acks_caps. }
  clearbody x. destruct x as [[reg2 succ] [[]| |]]; cbn [fst snd] in *; [done | | done].
  etrans; [exact Hx | apply same_caps_fold, try_free_caps].
Qed.

Lemma free_cache_caps sid p reg : same_caps reg (free_cache crc32c sid (p, reg)).1.2.
Proof.
  unfold free_cache. case_if; [done |].
  match goal with |- context [send_to_all ?a ?b ?c ?d ?r] => pose proof (send_to_all_caps b c d r) as Hs; by destruct (send_to_all a b c d r) end.
Qed.

Lemma free_best_caps sid p reg : same_caps reg (free_cache_best_effort crc32c sid (p, reg)).2.
Proof. apply same_caps_fold, try_free_ready_caps. Qed.

Lemma abort_all_caps ho p reg : same_caps reg (abort_all_sequences crc32c ho (p, reg)).1.2.
Proof. apply same_caps_fold. intros. apply same_caps_fold, try_free_ready_caps. Qed.

Lemma batched_forward_caps p seqs toks prefill : caps_kept (DistPipeline.batched_forward crc32c p seqs toks prefill).
Proof.
  unfold DistPipeline.batched_forward. apply caps_if; [caps |]. generalize (order p) at 2 as ids, (TokenIds toks) as cur. intros ids. generalize 0 as i.
  induction ids as [|id ids IH]; intros i cur; cbn [batched_loop]; [caps |]. caps. destruct a1; caps.
Qed.

Lemma reconfigure_all_caps c msl asg : caps_kept (reconfigure_all crc32c c msl asg).
Proof.
  induction asg as [|a asg IH]; cbn [reconfigure_all]; [caps |]. apply caps_bind; [| done]. intros reg.
  unfold reconfigure_one, assign. destruct (reg !! la_node_id a) as [e|] eqn:He; [| done]. case_bool_decide; [done |].
  match goal with |- context [with_writer ?i ?m ?r] => pose proof (caps_writer i m r) as Hw; assert (same_caps reg r) as Hr by (by eapply same_caps_insert);
    destruct (with_writer i m r) as [reg1 [[]| |]]; cbn [fst] in * end; [by etrans | | by etrans].
  etrans; [exact Hr |]. etrans; [exact Hw |]. by apply same_caps_alter.
Qed.

Lemma forced_rebalance_caps ho ho' c m msl skip p reg : same_caps reg (forced_rebalance crc32c ho ho' c m msl skip (p, reg)).1.2.
Proof.
  unfold forced_rebalance. pose proof (abort_all_caps ho p reg) as Ha. destruct (abort_all_sequences _ _ _) as [[p1 reg1] ab]. cbn [fst snd] in Ha.
  destruct (rebalance_workers ho' skip reg1) as [|w ws] eqn:Ew; [done |]. destruct (LayerScheduler.schedule _) as [res| |]; [| done..].
  pose proof (reconfigure_all_caps c msl (assignments res) reg1) as Hr. destruct (reconfigure_all _ _ _ _ _) as [reg2 [[]| |]]; cbn [fst snd] in *; [| by etrans..].
  etrans; [exact Ha |]. etrans; [exact Hr |]. apply same_caps_fold. intros. apply caps_reader.
Qed.

Lemma poll_acks_caps env reg : same_caps reg (poll_worker_acks crc32c env reg).1.
Proof.
  unfold poll_worker_acks. match goal with |- context [foldl ?f (reg, ?x) ?l] => assert (∀ acks, same_caps reg (foldl f (reg, acks) l).1) as Hall; [| apply Hall]; generalize l as ids end.
  intros ids. revert reg.
  induction ids as [|id ids IH]; intros reg acks; cbn [foldl fst snd]; [done |].
  assert (same_caps reg (poll_worker crc32c env reg id).1) as Hp.
  { unfold poll_worker. case_if; [by apply same_caps_alter |].
    pose proof (caps_reader id (recv crc32c) reg) as Hr. by destruct (with_reader _ _ _) as [reg1 [[]| |]]. }
  destruct (poll_worker _ _ _ _) as [reg1 r]. etrans; [exact Hp | apply IH].
Qed.

Lemma handle_poll_caps now t reg acks : same_caps reg (foldl (handle_poll now) (t, reg) acks).2.
Proof.
  revert t reg. induction acks as [|p acks IH]; intros t reg; cbn [foldl]; [done |].
  assert (same_caps reg (handle_poll now (t, reg) p).2) as Hp.
  { unfold handle_poll, process_ack. cbn [fst snd]. destruct p.2 as [ack| |]; [| apply same_caps_alter; intros; by case_match | done].
    destruct (reg !! p.1); [| done]. repeat case_match; try done. by apply same_caps_alter. }
  destruct (handle_poll _ _ _) as [t1 reg1]. etrans; [exact Hp | apply IH].
Qed.
End operations.

(** ** The bound *)

(** The memory all entries of the registry report fits a [usize]. *)
Definition memory_ok (reg : PeerRegistry) : Prop := memory_fits (map_to_list (capabilities <$> reg)).*2.

Lemma memory_ok_same reg reg' : same_caps reg reg' → memory_ok reg → memory_ok reg'.
Proof. unfold same_caps, memory_ok. by intros ->. Qed.

(** The workers a rebalance schedules on are some of the registry's. *)
Lemma rebalance_memory ho skip reg : memory_ok reg → memory_fits (rebalance_workers ho skip reg).
Proof.
  unfold memory_ok. apply memory_fits_sub. unfold rebalance_workers, all_capabilities.
  etrans; [apply sublist_submseteq, sublist_filter |]. etrans; [apply sublist_submseteq, fmap_sublist, sublist_filter |].
  unfold hm_values, hm_iter. rewrite hash_order_perm, map_to_list_fmap, <- !list_fmap_compose. apply sublist_submseteq.
  by rewrite (list_fmap_ext (snd ∘ prod_map id capabilities) (capabilities ∘ snd)) by (by intros ? []).
Qed.

(** The other tasks keep the bound. *)
Definition env_memory (env : LoopEnv) : Prop := ∀ k reg, memory_ok reg → memory_ok (ev_others env k reg).

(** A step of the loop that keeps it. *)
Definition keeps_memory {A : Type} (m : st DistLoop A) : Prop := ∀ s, memory_ok (dl_registry s) → memory_ok (dl_registry (m s).1).

Lemma keeps_bind {A B : Type} (m : st DistLoop A) (k : A → st DistLoop B) : keeps_memory m → (∀ a, keeps_memory (k a)) → keeps_memory (sbind m k).
Proof. intros Hm Hk s Hs. specialize (Hm s Hs). unfold sbind. destruct (m s) as [s' [a| |]]; [by apply Hk | done..]. Qed.
Lemma keeps_then_go (m k : st DistLoop ctl) : keeps_memory m → keeps_memory k → keeps_memory (then_go m k).
Proof. intros Hm Hk. apply keeps_bind; [done |]. intros []; [done | by intros s Hs..]. Qed.

Lemma abort_active_registry msg ids s : dl_registry (abort_active msg ids s) = dl_registry s.
Proof.
  unfold abort_active. revert s. induction ids as [|id ids IH]; intros s; cbn [foldl]; [done |]. rewrite IH. by destruct (dl_active s !! id).
Qed.
Lemma reject_pending_registry msg s : dl_registry (reject_pending msg s) = dl_registry s.
Proof.
  unfold reject_pending. cbn [set_pending dl_registry]. generalize (dl_pending s) as l. intros l. revert s.
  induction l as [|r l IH]; intros s; cbn [foldl]; [done | by rewrite IH].
Qed.

Section steps.
Variable crc32c : list Z → Z.
Variable exp : f32 → f32.
Context `{Bincode ForwardPayload} `{Bincode ForwardResultPayload} `{Bincode BatchedForwardPayload} `{Bincode BatchedForwardResultPayload}
  `{Bincode ErrorPayload} `{Bincode RegisterAckPayload} `{Bincode HeartbeatPayload} `{Bincode HeartbeatAck}.
Variable config : DistributedLoopConfig.
Context (env : LoopEnv) (others : env_memory env).

Lemma rebalance_keeps k c skip failed : (∀ s, dl_registry (failed s) = dl_registry s) → keeps_memory (rebalance crc32c config env k c skip failed).
Proof using others.
  intros Hf s Hs. unfold rebalance. set (s0 := lock env k s). assert (memory_ok (dl_registry s0)) as Hm0 by (by apply others).
  match goal with |- context [forced_rebalance ?cr ?h1 ?h2 ?c ?m ?l ?sk ?x] =>
    pose proof (forced_rebalance_caps cr h1 h2 c m l sk (dl_pipeline s0) (dl_registry s0)) as Hc; destruct (forced_rebalance cr h1 h2 c m l sk x) as [[p reg] [res| |]] end;
  cbn [fst snd] in *; rewrite ?Hf; cbn [set_cluster dl_registry]; by eapply memory_ok_same.
Qed.

(** The registry after the dead workers are marked and the sequences aborted. *)
Lemma aborted_memory dead s p reg ab : memory_ok (dl_registry s) →
  let s1 := lock env 4 (set_reg (mark_dead_workers (dl_registry (lock env 3 s)) dead) (lock env 3 s)) in
  abort_all_sequences crc32c (ev_order env 4) (dl_pipeline s1, dl_registry s1) = ((p, reg), ab) → memory_ok reg.
Proof using others.
  intros Hs s1 E. assert (memory_ok (dl_registry s1)) as Hm1.
  { apply others. eapply memory_ok_same; [apply same_caps_fold; intros; by apply same_caps_alter |]. by apply others. }
  pose proof (abort_all_caps crc32c (ev_order env 4) (dl_pipeline s1) (dl_registry s1)) as Ha. rewrite E in Ha. by eapply memory_ok_same.
Qed.

Lemma on_dead_memory dead s : memory_ok (dl_registry s) → memory_ok (dl_registry (on_dead crc32c config env dead s).1).
Proof using others.
  intros Hs. unfold on_dead. destruct (abort_all_sequences _ _ _) as [[p reg] ab] eqn:E. apply aborted_memory in E; [| done].
  match goal with |- context [abort_active ?m ab ?x] => set (s2 := abort_active m ab x); assert (memory_ok (dl_registry s2)) as Hm2 end.
  { unfold s2. by rewrite abort_active_registry. }
  destruct (dc_model_config config) as [c|]; [apply rebalance_keeps; [intros; by rewrite reject_pending_registry | done] |].
  cbn [fst]. by rewrite reject_pending_registry.
Qed.

(** The registry after the acks of a round are handled. *)
Lemma polled_memory s reg acks t t1 reg1 : memory_ok (dl_registry s) → poll_worker_acks crc32c env (dl_registry (lock env 0 s)) = (reg, acks) →
  foldl (handle_poll (ev_now env)) (t, dl_registry (lock env 1 (set_reg reg (lock env 0 s)))) acks = (t1, reg1) → memory_ok (ev_others env 2 reg1).
Proof using others.
  intros Hs Ep Eh. pose proof (poll_acks_caps crc32c env (dl_registry (lock env 0 s))) as Hp. rewrite Ep in Hp.
  pose proof (handle_poll_caps (ev_now env) t (dl_registry (lock env 1 (set_reg reg (lock env 0 s)))) acks) as Hh. rewrite Eh in Hh.
  apply others. eapply memory_ok_same; [exact Hh |]. apply others. eapply memory_ok_same; [exact Hp |]. by apply others.
Qed.

Lemma heartbeat_keeps : keeps_memory (heartbeat_step crc32c config env).
Proof using others.
  intros s Hs. unfold heartbeat_step. case_bool_decide; [| done].
  set (x := match pending_nonce (dl_tracker s) with None => _ | Some _ => _ end). assert (memory_ok (dl_registry x.1)) as Hx.
  { unfold x. destruct (pending_nonce (dl_tracker s)); [| done]. destruct (poll_worker_acks _ _ _) as [reg acks] eqn:Ep.
    destruct (foldl _ _ acks) as [t1 reg1] eqn:Eh. destruct (increment_missed _ _ _) as [t2 dead].
    eapply polled_memory in Eh; [| done..]. destruct dead; [done | by apply on_dead_memory]. }
  clearbody x. destruct x as [s1 [[]| |]]; [| done..]. cbn [fst] in *. cbn [set_tracker set_reg set_cluster dl_registry snd].
  eapply memory_ok_same; [apply same_caps_fold; intros; apply caps_writer |]. by apply others.
Qed.

Lemma shutdown_memory ids reg : memory_ok reg → memory_ok (foldl (shutdown_worker crc32c) reg ids).
Proof.
  apply memory_ok_same, same_caps_fold. intros. etrans; [apply (caps_writer x (send_empty crc32c Shutdown 0)) | by apply same_caps_alter].
Qed.

Lemma membership_keeps : keeps_memory (membership crc32c config env).
Proof using others.
  intros s Hs. unfold membership. case_if; [| done]. assert (memory_ok (dl_registry (lock env 8 (lock env 7 s)))) as Hm8 by (by do 2 apply others).
  case_if; [done |].
  match goal with |- context [rebalance _ _ _ _ _ _ _ ?x] => set (s1 := x); assert (memory_ok (dl_registry s1)) as Hm1 by (by apply shutdown_memory, others) end.
  destruct (dc_model_config config); [by apply rebalance_keeps | done].
Qed.

Lemma admit_keeps : keeps_memory (admit_one crc32c config env).
Proof using others.
  intros s Hs. unfold admit_one. assert (memory_ok (dl_registry (lock env 11 s))) as Hm1 by (by apply others).
  destruct (dl_pending _) as [|r l]; [done |]. case_if; [| done]. set (s1 := lock env 12 _). assert (memory_ok (dl_registry s1)) as Hm2 by (by apply others).
  pose proof (alloc_cache_caps crc32c (ev_allocs env) (req_seq_id r) (dl_pipeline s1) (dl_registry s1)) as Ha.
  destruct (alloc_cache _ _ _ _) as [[p reg] [[]| |]]; cbn [fst snd] in *; by eapply memory_ok_same.
Qed.

Lemma sample_loop_registry b logits i seqs sc : dl_registry (sample_loop exp env b logits i seqs sc).1.1 = dl_registry sc.1.
Proof.
  assert (∀ lg i sid pre seq sc, dl_registry (sample_token exp env lg i sid pre seq sc).1.1 = dl_registry sc.1) as Ht.
  { intros lg j sid pre seq [s co]. unfold sample_token. by repeat case_match. }
  revert i sc. induction seqs as [|[sid pre] seqs IH]; intros i sc; cbn [sample_loop]; [done |]. unfold sbind.
  assert (dl_registry (sample_one exp env b logits i sid pre sc).1.1 = dl_registry sc.1) as Ho.
  { destruct sc as [s co]. unfold sample_one. repeat case_match; try done; apply Ht. }
  destruct (sample_one _ _ _ _ _ _ _ _) as [sc' [[]| |]]; [by rewrite IH | done..].
Qed.

Lemma fold_memory {A : Type} (f : DistLoop → A → DistLoop) l s :
  (∀ s x, memory_ok (dl_registry s) → memory_ok (dl_registry (f s x))) → memory_ok (dl_registry s) → memory_ok (dl_registry (foldl f s l)).
Proof. intros Hf. revert s. induction l as [|x l IH]; intros s Hs; cbn [foldl]; [done |]. by apply IH, Hf. Qed.

Lemma run_batch_keeps b : keeps_memory (run_batch crc32c exp env b).
Proof using others.
  intros s Hs. unfold run_batch. assert (memory_ok (dl_registry (lock env 13 s))) as Hm1 by (by apply others).
  match goal with |- context [DistPipeline.batched_forward ?a ?p ?m ?t ?pre ?r] => pose proof (batched_forward_caps a p m t pre r) as Hf;
    destruct (DistPipeline.batched_forward a p m t pre r) as [reg [lg| |]]; cbn [fst] in Hf; apply memory_ok_same in Hf; [| done | | done | | done] end.
  - match goal with |- context [sample_loop _ env b lg 0 ?sq ?sc] => pose proof (sample_loop_registry b lg 0 sq sc) as Hl; destruct (sample_loop _ env b lg 0 sq sc) as [[s1 co] [[]| |]] end;
      cbn [fst snd] in *; rewrite <- Hl in Hf || (cbn in Hl); rewrite ?Hl; try done.
    apply fold_memory; [| by rewrite Hl]. intros s2 sid Hm2. unfold finish_one. destruct (dl_active s2 !! sid) as [seq|]; [| done].
    cbn [set_cluster dl_registry]. eapply memory_ok_same; [apply free_cache_caps | by apply others].
  - apply fold_memory; [| by apply others]. intros s2 sid Hm2. destruct (dl_active s2 !! sid) as [seq|]; [| done].
    cbn [set_cluster dl_registry]. by eapply memory_ok_same; [apply free_best_caps |].
  - done.
Qed.

Lemma serve_keeps : keeps_memory (serve crc32c exp config env).
Proof using others.
  apply keeps_bind; [apply admit_keeps |]. intros _ s Hs. case_bool_decide; [done |]. destruct (build_batch _ _ _) as [b| |]; [| done..].
  case_bool_decide; [done | by apply run_batch_keeps].
Qed.

Lemma intake_keeps : keeps_memory (intake env).
Proof. intros s Hs. unfold intake. case_if; destruct (ev_pipeline env); done. Qed.

(** An iteration keeps the bound, whatever it ends with. *)
Lemma iteration_keeps : keeps_memory (dist_iteration crc32c exp config env).
Proof using others.
  unfold dist_iteration. apply keeps_then_go; [apply intake_keeps |].
  apply keeps_bind; [apply heartbeat_keeps | intros _]. apply keeps_bind; [apply membership_keeps | intros _].
  apply keeps_then_go; [| apply keeps_then_go; [| apply serve_keeps]].
  - intros s Hs. unfold wait_degraded. case_if; [| done]. rewrite <- (reject_pending_registry "pipeline degraded: waiting for reconfiguration") in Hs.
    case_bool_decide; [| done]. by destruct (ev_degraded_wake env) as [|[]].
  - intros s Hs. unfold wait_idle. case_if; [| done]. by destruct (ev_wake env) as [[]| |].
Qed.
End steps.
