(* ===== verification/DistLoopSpec.v ===== *)
(** * What the distributed scheduler loop guarantees

    Every request the loop has received waits, is being served, or has been told
    how it ended ([client]); the workers hold caches only for sequences that are
    served; batches respect the configured limits and feed each sequence its own
    tokens at consecutive positions; and a loop that receives nothing more ends
    every request it holds. *)

From S2P Require Import Prelude F32 Core Frame Connection LayerScheduler Registry DistPipeline Rebalance BatchScheduler Worker DistLoop LoopMemory.
From S2P Require Sampling.

(** ** The clients *)

Definition client_log (tx : Z) (sent : list Event) : list GenerationEvent := (filter (λ e, e.1 = tx) sent).*2.

(** No two requests share an id or a channel. *)
Definition distinct (rs : list PendingRequest) : Prop := NoDup (req_seq_id <$> rs) ∧ NoDup (req_event_tx <$> rs).

Record same_request (r : PendingRequest) (seq : DistributedSequence) : Prop := {
  same_id : ds_seq_id seq = req_seq_id r;
  same_tx : ds_event_tx seq = req_event_tx r;
  same_max : ds_max_tokens seq = req_max_tokens r;
  same_stop : ds_stop_tokens seq = req_stop_tokens r;
  same_params : ds_params seq = {| Sampling.temperature := req_temperature r; Sampling.top_k := req_top_k r; Sampling.top_p := req_top_p r;
                                   Sampling.seed := req_seed r |}
}.

(** The tokens shown to the client: none of them a stop token, and at most
    [max_tokens] (one if that is zero). *)
Definition shown (r : PendingRequest) (toks : list Z) : Prop :=
  Forall (λ t, t ∉ req_stop_tokens r) toks ∧ length toks ≤ req_max_tokens r `max` 1.

Inductive phase (r : PendingRequest) (seq : DistributedSequence) : Prop :=
  | InPrefill : ds_prefill_done seq = false → ds_generated_tokens seq = [] → ds_current_pos seq = length (prompt_tokens r) →
      ds_remaining_prefill seq `suffix_of` prompt_tokens r → (ds_remaining_prefill seq = [] → prompt_tokens r = []) → phase r seq
  | InDecode : ds_prefill_done seq = true → ds_remaining_prefill seq = [] → ds_generated_tokens seq ≠ [] →
      S (ds_current_pos seq) = length (prompt_tokens r) + length (ds_generated_tokens seq) →
      length (ds_generated_tokens seq) < req_max_tokens r → phase r seq.

(** A sequence of [completed_seq_ids]: what its client has seen so far. *)
Inductive ending (r : PendingRequest) (seq : DistributedSequence) (l : list GenerationEvent) : Prop :=
  | EndStop g t : ds_generated_tokens seq = g ++ [t] → t ∈ req_stop_tokens r → shown r g → S (length g) ≤ req_max_tokens r `max` 1 →
      l = Token <$> g → ending r seq l
  | EndLength : ds_generated_tokens seq ≠ [] → length (ds_generated_tokens seq) = req_max_tokens r `max` 1 → shown r (ds_generated_tokens seq) →
      l = Token <$> ds_generated_tokens seq → ending r seq l
  | EndFailed m : shown r (ds_generated_tokens seq) → l = (Token <$> ds_generated_tokens seq) ++ [EventError m] → ending r seq l.

(** How a client was told the end: an error, a stop token, the length limit, or
    a sampling failure, which is followed by a [Finished]. *)
Inductive closed (r : PendingRequest) (l : list GenerationEvent) : Prop :=
  | ClosedError toks m : shown r toks → l = (Token <$> toks) ++ [EventError m] → closed r l
  | ClosedStop toks : shown r toks → S (length toks) ≤ req_max_tokens r `max` 1 →
      l = (Token <$> toks) ++ [Finished BatchScheduler.Stop (S (length toks))] → closed r l
  | ClosedLength toks : shown r toks → length toks = req_max_tokens r `max` 1 → l = (Token <$> toks) ++ [Finished Length (length toks)] → closed r l
  | ClosedSampling toks m reason : shown r toks → l = (Token <$> toks) ++ [EventError m; Finished reason (length toks)] → closed r l.

(** Where a received request is; [completed] are the sequences sampled to their
    end in the current batch. *)
Inductive client (completed : list Z) (pending : list PendingRequest) (active : gmap Z DistributedSequence) (sent : list Event)
    (r : PendingRequest) : Prop :=
  | Waiting : r ∈ pending → active !! req_seq_id r = None → req_seq_id r ∉ completed → client_log (req_event_tx r) sent = [] →
      client completed pending active sent r
  | Serving seq : r ∉ pending → active !! req_seq_id r = Some seq → req_seq_id r ∉ completed → same_request r seq → phase r seq →
      shown r (ds_generated_tokens seq) → client_log (req_event_tx r) sent = Token <$> ds_generated_tokens seq →
      client completed pending active sent r
  | Completing seq : r ∉ pending → active !! req_seq_id r = Some seq → req_seq_id r ∈ completed → same_request r seq →
      ending r seq (client_log (req_event_tx r) sent) → client completed pending active sent r
  | Closed : r ∉ pending → active !! req_seq_id r = None → closed r (client_log (req_event_tx r) sent) →
      client completed pending active sent r.

Record clients (completed : list Z) (rs pending : list PendingRequest) (active : gmap Z DistributedSequence) (sent : list Event) : Prop := {
  cl_pending : pending `sublist_of` rs;
  cl_active : ∀ k seq, active !! k = Some seq → ∃ r, r ∈ rs ∧ req_seq_id r = k;
  cl_sent : ∀ e, e ∈ sent → ∃ r, r ∈ rs ∧ req_event_tx r = e.1;
  cl_each : ∀ r, r ∈ rs → client completed pending active sent r
}.

Lemma fmap_NoDup_inj {A B : Type} (f : A → B) (l : list A) x y : NoDup (f <$> l) → x ∈ l → y ∈ l → f x = f y → x = y.
Proof.
  intros Hnd (i & Hi)%list_elem_of_lookup (j & Hj)%list_elem_of_lookup Heq.
  assert (i = j) as <-; [| congruence].
  apply (NoDup_lookup (f <$> l) i j (f x) Hnd); rewrite list_lookup_fmap; [by rewrite Hi | rewrite Hj, Heq; done].
Qed.

Lemma client_log_app tx sent evs : client_log tx (sent ++ evs) = client_log tx sent ++ client_log tx evs.
Proof. unfold client_log. by rewrite filter_app, fmap_app. Qed.

Lemma client_log_other tx evs : Forall (λ e : Event, e.1 ≠ tx) evs → client_log tx evs = [].
Proof. unfold client_log. induction 1 as [|e l He _ IH]; [done |]. by rewrite filter_cons_False. Qed.

Lemma client_log_own tx evs : client_log tx ((λ ev, (tx, ev)) <$> evs) = evs.
Proof. unfold client_log. induction evs as [|ev l IH]; [done |]. csimpl. rewrite filter_cons_True by done. csimpl. by rewrite IH. Qed.

(** A step that concerns one request leaves the others where they are. *)
Lemma clients_update c c' rs pending pending' active active' sent evs r :
  distinct rs → clients c rs pending active sent → r ∈ rs → pending' `sublist_of` pending →
  (∀ r', r' ≠ r → r' ∈ pending → r' ∈ pending') → (∀ k, k ≠ req_seq_id r → active' !! k = active !! k) →
  (∀ k, k ≠ req_seq_id r → k ∈ c' ↔ k ∈ c) →
  client c' pending' active' (sent ++ ((λ ev, (req_event_tx r, ev)) <$> evs)) r →
  clients c' rs pending' active' (sent ++ ((λ ev, (req_event_tx r, ev)) <$> evs)).
Proof.
  intros [Hids Htxs] Hcl Hr Hsub Hp Ha Hc Hnew. split.
  - by etrans; [apply Hsub | apply Hcl].
  - intros k seq Hk. destruct (decide (k = req_seq_id r)) as [->|Hne]; [by exists r |]. rewrite Ha in Hk by done. by eapply cl_active.
  - intros e [He|(ev & -> & _)%list_elem_of_fmap]%elem_of_app; [by apply (cl_sent _ _ _ _ _ Hcl) | by exists r].
  - intros r' Hr'. destruct (decide (req_seq_id r' = req_seq_id r)) as [Heq|Hne].
    { by rewrite (fmap_NoDup_inj _ _ _ _ Hids Hr' Hr Heq). }
    assert (r' ≠ r) as Hrr by congruence.
    assert (req_event_tx r' ≠ req_event_tx r) as Htx by (intros Heq; by rewrite (fmap_NoDup_inj _ _ _ _ Htxs Hr' Hr Heq) in Hrr).
    assert (client_log (req_event_tx r') (sent ++ ((λ ev, (req_event_tx r, ev)) <$> evs)) = client_log (req_event_tx r') sent) as Hlog.
    { rewrite client_log_app, (client_log_other _ (_ <$> _)), app_nil_r; [done |].
      by apply Forall_fmap, Forall_true. }
    assert (r' ∉ pending → r' ∉ pending') as Hnp by (intros Hn Hin; by apply Hn, (sublist_subseteq _ _ Hsub)).
    specialize (Hc _ Hne). specialize (Ha _ Hne).
    destruct (cl_each _ _ _ _ _ Hcl r' Hr'); [eapply Waiting | eapply Serving | eapply Completing | eapply Closed];
      rewrite ?Hlog, ?Ha, ?Hc; eauto.
Qed.

Lemma distinct_NoDup rs : distinct rs → NoDup rs.
Proof. intros [Hids _]. by eapply NoDup_fmap_1. Qed.

Lemma clients_receive rs l pending active sent :
  distinct (rs ++ l) → clients [] rs pending active sent → clients [] (rs ++ l) (pending ++ l) active sent.
Proof.
  intros [Hids Htxs] Hcl. rewrite fmap_app, NoDup_app in Hids, Htxs. destruct Hids as (_ & Hids & _), Htxs as (_ & Htxs & _). split.
  - apply sublist_app; [apply Hcl | done].
  - intros k seq (r & Hr & <-)%(cl_active _ _ _ _ _ Hcl). exists r. set_solver.
  - intros e (r & Hr & <-)%(cl_sent _ _ _ _ _ Hcl). exists r. set_solver.
  - intros r [Hr|Hr]%elem_of_app.
    + assert (r ∉ l) as Hnl by (intros Hl; apply (Hids (req_seq_id r)); by apply list_elem_of_fmap_2).
      destruct (cl_each _ _ _ _ _ Hcl r Hr); [eapply Waiting | eapply Serving | eapply Completing | eapply Closed]; eauto; set_solver.
    + apply Waiting; [set_solver | | set_solver |].
      * apply eq_None_not_Some. intros [seq (r' & Hr' & Heq)%(cl_active _ _ _ _ _ Hcl)].
        apply (Hids (req_seq_id r')); [by apply list_elem_of_fmap_2 | rewrite Heq; by apply list_elem_of_fmap_2].
      * apply client_log_other, Forall_forall.
        intros e (r' & Hr' & Heq)%(cl_sent _ _ _ _ _ Hcl) Htx.
        apply (Htxs (req_event_tx r')); [by apply list_elem_of_fmap_2 | rewrite Heq, Htx; by apply list_elem_of_fmap_2].
Qed.

Section clients.
Context (rs : list PendingRequest) (Hrs : distinct rs).
Implicit Types (c : list Z) (sent : list Event).

Lemma clients_waiting c r pending active sent : clients c rs (r :: pending) active sent →
  r ∈ rs ∧ r ∉ pending ∧ active !! req_seq_id r = None ∧ req_seq_id r ∉ c ∧ client_log (req_event_tx r) sent = [].
Proof.
  intros Hcl. assert (r ∈ rs) as Hr by (apply (sublist_subseteq _ _ (cl_pending _ _ _ _ _ Hcl)); set_solver).
  assert (NoDup (r :: pending)) as [Hnp _]%NoDup_cons by (eapply sublist_NoDup; [by apply distinct_NoDup | apply Hcl]).
  destruct (cl_each _ _ _ _ _ Hcl r Hr); [done | set_solver..].
Qed.

Lemma clients_reject c r pending active sent m :
  clients c rs (r :: pending) active sent → clients c rs pending active (sent ++ [(req_event_tx r, EventError m)]).
Proof.
  intros Hcl. destruct (clients_waiting _ _ _ _ _ Hcl) as (Hr & Hnp & Ha & Hc & Hlog).
  apply (clients_update c c rs (r :: pending) pending active active sent [EventError m] r); try done.
  { by apply sublist_cons. } { set_solver. }
  apply Closed; [done | done |]. rewrite client_log_app, Hlog, client_log_own. by apply (ClosedError _ _ [] m); [split; [done | simpl; lia] |].
Qed.

Lemma clients_admit r pending active sent :
  clients [] rs (r :: pending) active sent → clients [] rs pending (<[req_seq_id r := new_sequence r]> active) sent.
Proof.
  intros Hcl. destruct (clients_waiting _ _ _ _ _ Hcl) as (Hr & Hnp & Ha & _ & Hlog). rewrite <- (app_nil_r sent).
  apply (clients_update [] [] rs (r :: pending) pending active _ sent [] r); try done.
  { by apply sublist_cons. } { set_solver. } { intros k Hk. by apply lookup_insert_ne. }
  csimpl. rewrite app_nil_r. eapply (Serving _ _ _ _ _ (new_sequence r)); [done | apply lookup_insert_eq | set_solver | done | | | done].
  - by apply InPrefill.
  - split; [done | simpl; lia].
Qed.

Lemma clients_served c pending active sent k seq : clients c rs pending active sent → active !! k = Some seq →
  ∃ r, r ∈ rs ∧ req_seq_id r = k ∧ r ∉ pending ∧ same_request r seq ∧
    ((k ∉ c ∧ phase r seq ∧ shown r (ds_generated_tokens seq) ∧ client_log (req_event_tx r) sent = Token <$> ds_generated_tokens seq) ∨
     (k ∈ c ∧ ending r seq (client_log (req_event_tx r) sent))).
Proof.
  intros Hcl Hk. destruct (cl_active _ _ _ _ _ Hcl k seq Hk) as (r & Hr & <-). exists r.
  destruct (cl_each _ _ _ _ _ Hcl r Hr); simplify_eq; naive_solver.
Qed.

Lemma clients_key c pending active sent k seq : clients c rs pending active sent → active !! k = Some seq → ds_seq_id seq = k.
Proof. intros Hcl Hk. destruct (clients_served _ _ _ _ _ _ Hcl Hk) as (r & _ & <- & _ & [] & _). done. Qed.

Lemma clients_abort c pending active sent k seq m :
  clients c rs pending active sent → active !! k = Some seq → k ∉ c →
  clients c rs pending (delete k active) (sent ++ [(ds_event_tx seq, EventError m)]).
Proof.
  intros Hcl Hk Hc. destruct (clients_served _ _ _ _ _ _ Hcl Hk) as (r & Hr & <- & Hnp & Hs & [(_ & _ & Hsh & Hlog)|[]]); [| done].
  rewrite (same_tx _ _ Hs).
  apply (clients_update c c rs pending pending active _ sent [EventError m] r); try done.
  { intros k' Hk'. by apply lookup_delete_ne. }
  apply Closed; [done | apply lookup_delete_eq |]. rewrite client_log_app, Hlog, client_log_own. by eapply ClosedError.
Qed.

(** A served sequence goes on, having been sent [evs]. *)
Lemma clients_step c pending active sent k seq seq' evs :
  clients c rs pending active sent → active !! k = Some seq → k ∉ c →
  (∀ r, same_request r seq → phase r seq → shown r (ds_generated_tokens seq) →
     same_request r seq' ∧ phase r seq' ∧ shown r (ds_generated_tokens seq') ∧
     Token <$> ds_generated_tokens seq' = (Token <$> ds_generated_tokens seq) ++ evs) →
  clients c rs pending (<[k := seq']> active) (sent ++ ((λ ev, (ds_event_tx seq, ev)) <$> evs)).
Proof.
  intros Hcl Hk Hc Hstep. destruct (clients_served _ _ _ _ _ _ Hcl Hk) as (r & Hr & <- & Hnp & Hs & [(_ & Hph & Hsh & Hlog)|[]]); [| done].
  destruct (Hstep r Hs Hph Hsh) as (Hs' & Hph' & Hsh' & Htok). rewrite (same_tx _ _ Hs).
  apply (clients_update c c rs pending pending active _ sent evs r); try done.
  { intros k' Hk'. by apply lookup_insert_ne. }
  eapply Serving; [done | apply lookup_insert_eq | done | done | done | done |]. by rewrite client_log_app, Hlog, client_log_own, Htok.
Qed.

(** A served sequence is put into [completed_seq_ids]. *)
Lemma clients_complete c pending active sent k seq seq' evs :
  clients c rs pending active sent → active !! k = Some seq → k ∉ c →
  (∀ r, same_request r seq → phase r seq → shown r (ds_generated_tokens seq) →
     same_request r seq' ∧ ending r seq' ((Token <$> ds_generated_tokens seq) ++ evs)) →
  clients (c ++ [k]) rs pending (<[k := seq']> active) (sent ++ ((λ ev, (ds_event_tx seq, ev)) <$> evs)).
Proof.
  intros Hcl Hk Hc Hstep. destruct (clients_served _ _ _ _ _ _ Hcl Hk) as (r & Hr & <- & Hnp & Hs & [(_ & Hph & Hsh & Hlog)|[]]); [| done].
  destruct (Hstep r Hs Hph Hsh) as (Hs' & Hend). rewrite (same_tx _ _ Hs).
  apply (clients_update c _ rs pending pending active _ sent evs r); try done.
  { intros k' Hk'. by apply lookup_insert_ne. } { set_solver. }
  eapply Completing; [done | apply lookup_insert_eq | set_solver | done |]. by rewrite client_log_app, Hlog, client_log_own.
Qed.

(** A completed sequence is removed with its [Finished] event. *)
Lemma clients_finish c pending active sent k seq :
  clients (k :: c) rs pending active sent → active !! k = Some seq → k ∉ c →
  clients c rs pending (delete k active)
    (sent ++ [(ds_event_tx seq,
       Finished (if bool_decide (default 0%Z (last (ds_generated_tokens seq)) ∈ ds_stop_tokens seq) then BatchScheduler.Stop else Length)
         (length (ds_generated_tokens seq)))]).
Proof.
  intros Hcl Hk Hc. destruct (clients_served _ _ _ _ _ _ Hcl Hk) as (r & Hr & <- & Hnp & Hs & [[]|[_ Hend]]); [set_solver |].
  rewrite (same_tx _ _ Hs), (same_stop _ _ Hs).
  eapply (clients_update _ c rs pending pending active _ sent [_] r); try done.
  { intros k' Hk'. by apply lookup_delete_ne. } { set_solver. }
  apply Closed; [done | apply lookup_delete_eq |]. rewrite client_log_app, client_log_own.
  destruct Hend as [g t Hg Ht Hsh Hlen ->|Hne Hlen Hsh ->|m Hsh ->].
  - rewrite Hg, last_snoc, bool_decide_true, length_app by done. apply (ClosedStop _ _ g); [done | done |]. simpl. by rewrite Nat.add_comm.
  - rewrite bool_decide_false; [by eapply ClosedLength |].
    destruct (last (ds_generated_tokens seq)) as [t|] eqn:Hl; [| by apply last_None in Hl].
    apply last_Some in Hl as [g Hg]. destruct Hsh as [Hst _]. rewrite Hg, Forall_app, Forall_singleton in Hst. by destruct Hst.
  - rewrite <- app_assoc. by eapply ClosedSampling.
Qed.

(** A completed sequence that is no longer active was closed already. *)
Lemma clients_gone c pending active sent k : clients (k :: c) rs pending active sent → active !! k = None → clients c rs pending active sent.
Proof.
  intros Hcl Hk. split; try apply Hcl. intros r Hr.
  destruct (cl_each _ _ _ _ _ Hcl r Hr) as [| |seq|]; [eapply Waiting | eapply Serving | eapply Completing | eapply Closed]; eauto; set_solver.
Qed.
End clients.

(** ** The invariant of the loop *)

(** [strict]: no pipeline was swapped in from outside while sequences were
    active; then the caches on the workers are exactly those of the active
    sequences, and a degraded loop serves none. *)
Record loop_inv (strict : bool) (c : list Z) (rs : list PendingRequest) (s : DistLoop) : Prop := {
  inv_distinct : distinct rs;
  inv_clients : clients c rs (dl_pending s) (dl_active s) (dl_sent s);
  inv_alloc : allocated_seqs (dl_pipeline s) ⊆ dom (dl_active s);
  inv_strict : strict = true →
    allocated_seqs (dl_pipeline s) = dom (dl_active s) ∧ (dl_degraded s = true → dl_active s = ∅)
}.

(** The environments: a pipeline from outside starts without allocations. *)
Record env_ok (strict : bool) (env : LoopEnv) : Prop := {
  env_pipeline : ∀ p, ev_pipeline env = Some p → allocated_seqs p = ∅ ∧ strict = false;
  env_wake : ∀ p, ev_wake env = WakePipeline p → allocated_seqs p = ∅;
  env_degraded : ∀ p, ev_degraded_wake env = inl p → allocated_seqs p = ∅;
  env_keeps_memory : env_memory env
}.

Section inv.
Context (strict : bool) (rs : list PendingRequest).
Notation inv := (loop_inv strict).

Lemma inv_reg c reg s : inv c rs s → inv c rs (set_reg reg s).
Proof. by intros []; split. Qed.

Lemma inv_lock c env k s : inv c rs s → inv c rs (lock env k s).
Proof. apply inv_reg. Qed.

Lemma inv_tracker c t now s : inv c rs s → inv c rs (set_tracker t now s).
Proof. by intros []; split. Qed.

Lemma inv_cleared c p reg s : inv c rs s → allocated_seqs p = ∅ → (strict = true → dl_active s = ∅) → inv c rs (set_cluster (p, reg) s).
Proof.
  intros [Hd Hcl Ha Hs] Hp Hn. split; [done | done | by simpl; rewrite Hp; apply empty_subseteq |].
  intros Hst. destruct (Hs Hst) as [_ Hdeg]. cbn [set_cluster dl_pipeline dl_active dl_degraded fst]. by rewrite Hp, (Hn Hst), dom_empty_L.
Qed.

Lemma inv_degrade c b s : inv c rs s → (strict = true → dl_active s = ∅) → inv c rs (set_degraded b s).
Proof. intros [Hd Hcl Ha Hs] Hn. split; [done.. |]. intros Hst. split; [by apply Hs | by intros _; apply Hn]. Qed.

Lemma inv_take p s : inv [] rs s → allocated_seqs p = ∅ → (strict = true → dl_active s = ∅) → inv [] rs (take_pipeline p s).
Proof. intros Hi Hp Hn. by apply inv_degrade; [apply inv_cleared |]. Qed.

Lemma inv_reject m s : inv [] rs s → inv [] rs (reject_pending m s).
Proof.
  intros [Hd Hcl Ha Hs]. unfold reject_pending.
  assert (∀ l s, clients [] rs l (dl_active s) (dl_sent s) →
    let s' := foldl (λ s r, emit (req_event_tx r) (EventError m) s) s l in
    clients [] rs [] (dl_active s') (dl_sent s') ∧ dl_active s' = dl_active s ∧ dl_pipeline s' = dl_pipeline s ∧ dl_degraded s' = dl_degraded s)
    as Hloop.
  { clear -Hd. induction l as [|r l IH]; intros s Hcl; [done |]. cbn [foldl].
    apply (IH (emit (req_event_tx r) (EventError m) s)). by apply clients_reject. }
  destruct (Hloop _ _ Hcl) as (Hcl' & Hact & Hp & Hdeg). unfold set_pending.
  split; cbn [dl_pending dl_active dl_sent dl_pipeline dl_degraded]; rewrite ?Hact, ?Hp, ?Hdeg in *; try done.
Qed.

Lemma abort_active_spec m ids s : distinct rs → clients [] rs (dl_pending s) (dl_active s) (dl_sent s) →
  let s' := abort_active m ids s in
  clients [] rs (dl_pending s') (dl_active s') (dl_sent s') ∧ dom (dl_active s') = dom (dl_active s) ∖ list_to_set ids ∧
  dl_pipeline s' = dl_pipeline s.
Proof.
  intros Hd. revert s. unfold abort_active. induction ids as [|id ids IH]; intros s Hcl; cbn [foldl].
  { split_and!; [done | | done]. simpl. set_solver. }
  destruct (dl_active s !! id) as [seq|] eqn:Hid.
  - destruct (IH (emit (ds_event_tx seq) (EventError m) (set_active (delete id (dl_active s)) s))) as (Hcl' & Hdom & Hp).
    { apply clients_abort; [done | done | done | set_solver]. }
    split_and!; [done | | done]. rewrite Hdom. cbn [emit set_active dl_active]. rewrite dom_delete_L. set_solver.
  - destruct (IH s Hcl) as (Hcl' & Hdom & Hp). split_and!; [done | | done]. rewrite Hdom.
    apply not_elem_of_dom in Hid. set_solver.
Qed.
End inv.

Section steps.
Variable crc32c : list Z → Z.
Variable exp : f32 → f32.
Context `{Bincode ForwardPayload} `{Bincode ForwardResultPayload} `{Bincode BatchedForwardPayload} `{Bincode BatchedForwardResultPayload}
  `{Bincode ErrorPayload} `{Bincode RegisterAckPayload} `{Bincode HeartbeatPayload} `{Bincode HeartbeatAck}.
Variable config : DistributedLoopConfig.
Context (strict : bool) (rs : list PendingRequest).
Notation inv := (loop_inv strict).

Lemma abort_all_inv m ho s : inv [] rs s →
  let '((p, reg), aborted) := abort_all_sequences crc32c ho (dl_pipeline s, dl_registry s) in
  let s' := abort_active m aborted (set_cluster (p, reg) s) in
  inv [] rs s' ∧ (strict = true → dl_active s' = ∅).
Proof.
  intros [Hd Hcl Ha Hs]. unfold abort_all_sequences.
  set (ids := hash_order ho Z _). set (s1 := set_cluster _ s).
  destruct (abort_active_spec rs m ids s1 Hd Hcl) as (Hcl' & Hdom & Hp).
  assert (strict = true → dl_active (abort_active m ids s1) = ∅) as Hempty.
  { intros Hst. apply dom_empty_inv_L. rewrite Hdom. destruct (Hs Hst) as [Heq _]. cbn [s1 set_cluster dl_active].
    rewrite <- Heq. apply subseteq_empty_difference_L. intros x Hx. apply elem_of_list_to_set. unfold ids.
    rewrite hash_order_perm. by apply elem_of_elements. }
  split; [| done]. split; [done | done | rewrite Hp; apply empty_subseteq |].
  intros Hst. rewrite Hp, (Hempty Hst), dom_empty_L. done.
Qed.

Lemma forced_rebalance_seqs ho ho' c m msl skip p reg p' reg' r :
  forced_rebalance crc32c ho ho' c m msl skip (p, reg) = ((p', reg'), r) →
  allocated_seqs p' = ∅ ∧ ∀ res, r = Ok res → allocated_seqs (rb_pipeline res) = ∅.
Proof.
  unfold forced_rebalance, abort_all_sequences. cbn beta iota zeta. intros Hr.
  destruct (rebalance_workers _ _ _); [by simplify_eq |]. destruct (LayerScheduler.schedule _) as [sr| |]; [| by simplify_eq..].
  destruct (reconfigure_all _ _ _ _ _) as [reg2 [[]| |]]; simplify_eq; try done. split; [done |].
  intros res (np & Hnew & [= <-])%rbind_Ok. unfold pipeline_new in Hnew. destruct (assignments sr); [done |].
  by apply rbind_Ok in Hnew as (total & _ & [= <-]).
Qed.

Lemma rebalance_inv env k c skip failed s s' :
  inv [] rs s → (strict = true → dl_active s = ∅) →
  (∀ s, inv [] rs s → (strict = true → dl_active s = ∅) → inv [] rs (failed s)) →
  rebalance crc32c config env k c skip failed s = (s', Ok ()) → inv [] rs s'.
Proof.
  intros Hi Hn Hf. unfold rebalance. destruct (forced_rebalance _ _ _ _ _ _ _ _) as [[p reg] [res| |]] eqn:E; intros [= <-];
    apply forced_rebalance_seqs in E as [Hp Hres].
  - apply inv_cleared; [by apply inv_lock | by apply Hres | done].
  - apply Hf; [apply inv_cleared; [by apply inv_lock | done..] | done].
Qed.

Lemma on_dead_inv env dead s s' : inv [] rs s → on_dead crc32c config env dead s = (s', Ok ()) → inv [] rs s'.
Proof.
  intros Hi. unfold on_dead. set (s0 := lock env 4 _).
  assert (inv [] rs s0) as Hi0 by (by apply inv_lock, inv_reg, inv_lock).
  pose proof (abort_all_inv "worker died" (ev_order env 4) s0 Hi0) as Ha.
  destruct (abort_all_sequences _ _ _) as [[p reg] aborted]. destruct Ha as [Hi1 Hn]. fold s0 in Hi1, Hn |- *.
  destruct (dc_model_config config) as [c|].
  - apply rebalance_inv; [done | done |]. intros s1 Hs1 Hn1. by apply inv_reject, inv_degrade.
  - intros [= <-]. by apply inv_reject, inv_degrade.
Qed.

Lemma heartbeat_inv env s s' : inv [] rs s → heartbeat_step crc32c config env s = (s', Ok ()) → inv [] rs s'.
Proof.
  intros Hi. unfold heartbeat_step. case_bool_decide; [| by intros [= <-]].
  assert (∀ s1, inv [] rs s1 → inv [] rs (set_tracker (set_pending_nonce (ev_nonce env) (dl_tracker s1)) (ev_later env)
            (set_reg (send_heartbeats crc32c env (dl_registry (lock env 6 s1))) (lock env 6 s1)))) as Hsend.
  { intros s1 Hs1. by apply inv_tracker, inv_reg, inv_lock. }
  destruct (pending_nonce (dl_tracker s)); [| intros [= <-]; by apply Hsend].
  destruct (poll_worker_acks _ _ _) as [reg acks]. destruct (foldl _ _ _) as [t reg2]. destruct (increment_missed _ _ _) as [t' dead].
  match goal with |- context [set_tracker t' ?now ?x] => set (s1 := set_tracker t' now x) end.
  assert (inv [] rs s1) as Hi1 by (by apply inv_tracker, inv_lock, inv_reg, inv_lock, inv_reg, inv_lock).
  destruct dead as [|d dead]; [intros [= <-]; by apply Hsend |].
  destruct (on_dead _ _ _ _ _) as [s2 [[]| |]] eqn:E; intros [= <-]. by apply Hsend, (on_dead_inv _ _ _ _ Hi1 E).
Qed.

Lemma membership_inv env s s' : inv [] rs s → membership crc32c config env s = (s', Ok ()) → inv [] rs s'.
Proof.
  intros Hi. unfold membership. destruct (bool_decide _ && _) eqn:Hb; [| by intros [= <-]].
  apply andb_true_iff in Hb as [Hact%bool_decide_eq_true _].
  case_if; [intros [= <-]; by apply inv_lock, inv_lock |].
  destruct (dc_model_config config) as [c|]; [| intros [= <-]; by apply inv_reg, inv_lock, inv_lock, inv_lock].
  apply rebalance_inv; [by apply inv_reg, inv_lock, inv_lock, inv_lock | by intros _ |]. intros s1 Hs1 Hn1. by apply inv_degrade.
Qed.
End steps.

(** ** Batches *)

(** The tokens of a sequence that its caches hold already. *)
Definition fed (seq : DistributedSequence) : nat :=
  if ds_prefill_done seq then ds_current_pos seq else ds_current_pos seq - length (ds_remaining_prefill seq).

(** A batch is a list of sequences, each with the number of tokens fed to it. *)
Definition item_tokens (it : DistributedSequence * nat) : list Z :=
  if ds_prefill_done it.1 then [default 0%Z (last (ds_generated_tokens it.1))] else take it.2 (ds_remaining_prefill it.1).
Definition item_positions (it : DistributedSequence * nat) : list Z :=
  if ds_prefill_done it.1 then [wrap 32 (Z.of_nat (ds_current_pos it.1))] else u32_range (fed it.1) (fed it.1 + it.2).
Definition push_item (b : Batch) (it : DistributedSequence * nat) : Batch :=
  batch_push (ds_seq_id it.1) (negb (ds_prefill_done it.1)) (item_tokens it) (item_positions it) b.
Definition batch_of (items : list (DistributedSequence * nat)) : Batch := foldl push_item batch_new items.

Definition item_ok (config : DistributedLoopConfig) (it : DistributedSequence * nat) : Prop :=
  if ds_prefill_done it.1 then it.2 = 1
  else ds_remaining_prefill it.1 ≠ [] ∧ it.2 ≤ length (ds_remaining_prefill it.1) ∧ it.2 ≤ dc_max_prefill_tokens config ∧
       (0 < dc_max_prefill_tokens config → 0 < it.2).

Section batches.
Variable config : DistributedLoopConfig.
Notation item := (DistributedSequence * nat)%type.
Implicit Types (items : list item) (seqs : list DistributedSequence).

Lemma item_tokens_length it : item_ok config it → length (item_tokens it) = it.2.
Proof. unfold item_ok, item_tokens. destruct (ds_prefill_done it.1); [by intros -> |]. intros (_ & Hle & _). rewrite length_take. lia. Qed.

Lemma batch_of_snoc items it : batch_of (items ++ [it]) = push_item (batch_of items) it.
Proof. unfold batch_of. by rewrite foldl_app. Qed.

(** The fields of a batch. *)
Lemma batch_of_fields items : Forall (item_ok config) items →
  ba_seqs (batch_of items) = (λ it : item, (ds_seq_id it.1, negb (ds_prefill_done it.1))) <$> items ∧
  ba_tokens (batch_of items) = mjoin (item_tokens <$> items) ∧
  ba_metas (batch_of items) =
    (λ it : item, {| smw_seq_id := ds_seq_id it.1; num_tokens := Z.of_nat it.2; smw_positions := item_positions it; block_table := [];
                     cache_seq_len := 0; last_block_tokens := 0 |}) <$> items ∧
  ba_total (batch_of items) = sum_list items.*2.
Proof.
  induction items as [|it items IH] using rev_ind; [done |]. rewrite Forall_app, Forall_singleton. intros [Hok Hit].
  destruct (IH Hok) as (Hs & Ht & Hm & Hn). rewrite batch_of_snoc. unfold push_item, batch_push. cbn.
  rewrite Hs, Ht, Hm, Hn, !fmap_app, join_app, (item_tokens_length _ Hit), sum_list_with_app. cbn. rewrite !app_nil_r, Nat.add_0_r. done.
Qed.

(** Extending a batch by items within the limits. *)
Record extends (b : Batch) (seqs : list DistributedSequence) (fin : bool) (items : list item) (b' : Batch) : Prop := {
  ext_batch : b' = foldl push_item b items;
  ext_items : Forall (item_ok config) items;
  ext_phase : Forall (λ it, ds_prefill_done it.1 = fin) items;
  ext_seqs : items.*1 `sublist_of` seqs
}.
Definition within (b : Batch) : Prop := length (ba_seqs b) ≤ dc_max_batch_size config ∧ ba_total b ≤ dc_max_batch_tokens config.

Lemma batch_full_false b : batch_full config b = false ↔ ba_total b < dc_max_batch_tokens config ∧ length (ba_seqs b) < dc_max_batch_size config.
Proof. unfold batch_full. rewrite orb_false_iff, !bool_decide_eq_false. lia. Qed.

Lemma within_push b it : item_ok config it → batch_full config b = false → it.2 ≤ dc_max_batch_tokens config - ba_total b → within (push_item b it).
Proof.
  intros Hit [Ht Hs]%batch_full_false Hle. unfold within, push_item, batch_push. cbn.
  rewrite length_app, (item_tokens_length _ Hit). simpl. lia.
Qed.

Lemma prefills_spec seqs b b' : within b → prefill_loop config seqs b = Ok b' → ∃ items, extends b seqs false items b' ∧ within b'.
Proof.
  revert b. induction seqs as [|s seqs IH]; intros b Hw; cbn [prefill_loop].
  { intros [= <-]. exists []. by split; [split |]. }
  destruct (ds_prefill_done s || _) eqn:Hskip.
  { intros (items & [] & Hw')%IH; [| done]. exists items. split; [split; try done; by apply sublist_cons | done]. }
  apply orb_false_iff in Hskip as [Hdone Hne%bool_decide_eq_false].
  destruct (batch_full config b) eqn:Hfull.
  { intros [= <-]. exists []. split; [split; try done; apply sublist_nil_l | done]. }
  set (n := _ `min` _ `min` _). intros (start & Hstart & Hloop)%rbind_Ok. apply checked_inv in Hstart as [-> Hpos].
  assert (item_ok config (s, n)) as Hit.
  { unfold item_ok. cbn. rewrite Hdone. apply batch_full_false in Hfull. destruct (ds_remaining_prefill s); [done |]. unfold n. cbn [length] in *.
    split_and!; [done | lia..]. }
  assert (push_item b (s, n) = batch_push (ds_seq_id s) true (take n (ds_remaining_prefill s))
    (u32_range (Z.to_nat (Z.of_nat (ds_current_pos s) - Z.of_nat (length (ds_remaining_prefill s))))
       (Z.to_nat (Z.of_nat (ds_current_pos s) - Z.of_nat (length (ds_remaining_prefill s))) + n)) b) as Hpush.
  { unfold push_item, item_tokens, item_positions, fed. cbn. rewrite Hdone. by rewrite Z2Nat.inj_sub, !Nat2Z.id by lia. }
  rewrite <- Hpush in Hloop. apply IH in Hloop as (items & [-> Hok Hph Hsub] & Hw').
  - exists ((s, n) :: items). split; [| done]. split; [done | by constructor | by constructor | by apply sublist_skip].
  - apply within_push; [done | done |]. unfold n. simpl. lia.
Qed.

Lemma decodes_spec seqs b : within b → ∃ items, extends b seqs true items (decode_loop config seqs b) ∧ within (decode_loop config seqs b).
Proof.
  revert b. induction seqs as [|s seqs IH]; intros b Hw; cbn [decode_loop].
  { exists []. by split; [split |]. }
  destruct (ds_prefill_done s) eqn:Hdone; cbn [negb].
  - destruct (batch_full config b) eqn:Hfull; [exists []; split; [split; try done; apply sublist_nil_l | done] |].
    assert (item_ok config (s, 1)) as Hit by (unfold item_ok; cbn; by rewrite Hdone).
    assert (push_item b (s, 1) = batch_push (ds_seq_id s) false [default 0%Z (last (ds_generated_tokens s))] [wrap 32 (Z.of_nat (ds_current_pos s))] b) as Hpush.
    { unfold push_item, item_tokens, item_positions. cbn. by rewrite Hdone. }
    rewrite <- Hpush. destruct (IH (push_item b (s, 1))) as (items & [Hb Hok Hph Hsub] & Hw').
    { apply within_push; [done | done |]. apply batch_full_false in Hfull. simpl. lia. }
    exists ((s, 1) :: items). split; [| done]. split; [done | by constructor | by constructor | by apply sublist_skip].
  - destruct (IH b Hw) as (items & [] & Hw'). exists items. split; [split; try done; by apply sublist_cons | done].
Qed.

(** The sequences of a batch are distinct active ones. *)
Record batch_items (active : gmap Z DistributedSequence) items : Prop := {
  bi_ok : Forall (item_ok config) items;
  bi_active : Forall (λ it, active !! ds_seq_id it.1 = Some it.1) items;
  bi_NoDup : NoDup ((λ it, ds_seq_id it.1) <$> items);
  bi_within : within (batch_of items)
}.

Definition keyed (active : gmap Z DistributedSequence) : Prop := ∀ k seq, active !! k = Some seq → ds_seq_id seq = k.

Lemma extends_active ho active fin items b b' : keyed active → extends b (hm_values ho active) fin items b' →
  Forall (λ it, active !! ds_seq_id it.1 = Some it.1) items ∧ NoDup ((λ it, ds_seq_id it.1) <$> items).
Proof.
  intros Hk [_ _ _ Hsub]. split.
  - apply Forall_forall. intros it Hit. assert (it.1 ∈ hm_values ho active) as (k & Hin)%elem_of_hm_values.
    { eapply sublist_subseteq; [done |]. by apply list_elem_of_fmap_2. }
    by rewrite (Hk _ _ Hin).
  - change ((λ it, ds_seq_id it.1) <$> items) with ((ds_seq_id ∘ fst) <$> items). rewrite list_fmap_compose. eapply sublist_NoDup; [| by apply fmap_sublist].
    unfold hm_values. rewrite <- list_fmap_compose.
    rewrite (Forall_fmap_ext_1 _ fst); [apply NoDup_hm_iter_fst |]. apply Forall_forall. intros [k v] Hin%elem_of_hm_iter. by apply Hk.
Qed.

Lemma build_batch_spec env active b : keyed active → build_batch config env active = Ok b → ∃ items, b = batch_of items ∧ batch_items active items.
Proof.
  intros Hk (b1 & (pre & He1 & Hw1)%prefills_spec & [= <-])%rbind_Ok; [| split; cbn; lia].
  destruct (decodes_spec (hm_values (ev_order env 10) active) b1 Hw1) as (dec & He2 & Hw2).
  destruct (extends_active _ _ _ _ _ _ Hk He1) as [Ha1 Hn1], (extends_active _ _ _ _ _ _ Hk He2) as [Ha2 Hn2].
  assert (decode_loop config (hm_values (ev_order env 10) active) b1 = batch_of (pre ++ dec)) as Hb.
  { unfold batch_of. rewrite foldl_app. destruct He1 as [<- _ _ _]. apply He2. }
  exists (pre ++ dec). split; [done |]. split.
  - apply Forall_app. split; [apply He1 | apply He2].
  - by apply Forall_app.
  - rewrite fmap_app. apply NoDup_app. split_and!; [done | | done].
    intros k (it1 & -> & Hin1)%list_elem_of_fmap (it2 & Heq & Hin2)%list_elem_of_fmap.
    rewrite Forall_forall in Ha1, Ha2. pose proof (Ha1 _ Hin1) as E1. pose proof (Ha2 _ Hin2) as E2. rewrite Heq, E2 in E1.
    destruct He1 as [_ _ Hp1 _], He2 as [_ _ Hp2 _]. rewrite Forall_forall in Hp1, Hp2. specialize (Hp1 _ Hin1). specialize (Hp2 _ Hin2). congruence.
  - by rewrite <- Hb.
Qed.

Definition ready_to_batch (active : gmap Z DistributedSequence) : Prop :=
  ∀ k seq, active !! k = Some seq → ds_prefill_done seq = false →
    length (ds_remaining_prefill seq) ≤ ds_current_pos seq ∧ (Z.of_nat (ds_current_pos seq) < 2 ^ 64)%Z.

Lemma prefill_loop_total seqs b :
  (∀ seq, seq ∈ seqs → ds_prefill_done seq = false →
     length (ds_remaining_prefill seq) ≤ ds_current_pos seq ∧ (Z.of_nat (ds_current_pos seq) < 2 ^ 64)%Z) →
  ∃ b', prefill_loop config seqs b = Ok b'.
Proof.
  revert b. induction seqs as [|s seqs IH]; intros b Hall; cbn [prefill_loop]; [by eexists |].
  destruct (ds_prefill_done s) eqn:Hd; [apply IH; set_solver |]. case_if; [apply IH; set_solver |]. case_if; [by eexists |].
  destruct (Hall s) as [Hle Hlt]; [set_solver | done |]. unfold usub. rewrite checked_Ok by (unfold in_width; lia). apply IH. set_solver.
Qed.

Lemma build_batch_total env active : ready_to_batch active → ∃ b, build_batch config env active = Ok b.
Proof.
  intros Hr. unfold build_batch. destruct (prefill_loop_total (hm_values (ev_order env 9) active) batch_new) as [b ->]; [| by eexists].
  intros seq (k & Hk)%elem_of_hm_values. by apply (Hr k).
Qed.

(** Something is scheduled whenever something can be. *)
Lemma prefill_loop_grows seqs b b' : prefill_loop config seqs b = Ok b' → length (ba_seqs b) ≤ length (ba_seqs b').
Proof.
  revert b. induction seqs as [|s seqs IH]; intros b; cbn [prefill_loop]; [by intros [= <-] |].
  case_if; [apply IH |]. case_if; [by intros [= <-] |]. intros (st & _ & Hl%IH)%rbind_Ok. cbn in Hl. rewrite length_app in Hl. lia.
Qed.

Lemma decode_loop_grows seqs b : length (ba_seqs b) ≤ length (ba_seqs (decode_loop config seqs b)).
Proof.
  revert b. induction seqs as [|s seqs IH]; intros b; cbn [decode_loop]; [done |].
  case_if; [apply IH |]. case_if; [done |]. etrans; [| apply IH]. cbn. rewrite length_app. lia.
Qed.

Lemma build_batch_nonempty env active b : active ≠ ∅ → batch_full config batch_new = false →
  (∀ k seq, active !! k = Some seq → ds_prefill_done seq = false → ds_remaining_prefill seq ≠ []) →
  build_batch config env active = Ok b → ba_seqs b ≠ [].
Proof.
  intros Hne Hfull Hrem (b1 & Hpre & [= <-])%rbind_Ok Hnil.
  pose proof (decode_loop_grows (hm_values (ev_order env 10) active) b1) as Hg. rewrite Hnil in Hg. cbn in Hg.
  assert (∀ seq, seq ∈ hm_values (ev_order env 9) active → ds_prefill_done seq = true) as Hall.
  { assert (∀ seq, seq ∈ hm_values (ev_order env 9) active → ds_prefill_done seq = false → ds_remaining_prefill seq ≠ []) as Hr.
    { intros seq (k & Hk)%elem_of_hm_values. by apply (Hrem k). }
    clear -Hpre Hg Hr Hfull. induction (hm_values _ active) as [|s seqs IH]; [set_solver |]. cbn [prefill_loop] in Hpre.
    destruct (ds_prefill_done s) eqn:Hd; [cbn in Hpre; set_solver |]. exfalso. rewrite bool_decide_false in Hpre by (apply Hr; [set_solver | done]).
    cbn [orb] in Hpre. rewrite Hfull in Hpre. apply rbind_Ok in Hpre as (st & _ & Hl%prefill_loop_grows). cbn in Hl. lia. }
  assert (b1 = batch_new) as ->.
  { clear -Hpre Hall. induction (hm_values _ active) as [|s seqs IH]; [by simplify_eq/= |]. cbn [prefill_loop] in Hpre.
    rewrite (Hall s) in Hpre by set_solver. cbn in Hpre. apply IH; [done | set_solver]. }
  destruct (map_choose active Hne) as (k & seq & Hk).
  assert (∀ seq, seq ∈ hm_values (ev_order env 10) active → ds_prefill_done seq = true) as Hall'.
  { intros sq (k' & Hk')%elem_of_hm_values. apply Hall. apply elem_of_hm_values. eauto. }
  assert (seq ∈ hm_values (ev_order env 10) active) as Hin by (apply elem_of_hm_values; eauto).
  destruct (hm_values (ev_order env 10) active) as [|s seqs]; [set_solver |]. cbn [decode_loop] in Hnil.
  rewrite (Hall' s), Hfull in Hnil by set_solver. cbn [negb] in Hnil.
  eapply (f_equal length) in Hnil. match type of Hnil with length (ba_seqs (decode_loop _ ?l ?x)) = _ => pose proof (decode_loop_grows l x) as Hgr end.
  cbn in Hgr, Hnil. lia.
Qed.
End batches.

(** ** Sampling *)

(** What sampling one sequence of a batch changes. *)
Record sampled (sid : Z) (s s' : DistLoop) (c c' : list Z) (seq' : DistributedSequence) : Prop := {
  sm_active : dl_active s' = <[sid := seq']> (dl_active s);
  sm_pipeline : dl_pipeline s' = dl_pipeline s;
  sm_pending : dl_pending s' = dl_pending s;
  sm_degraded : dl_degraded s' = dl_degraded s;
  sm_completed : c' = c ∨ c' = c ++ [sid]
}.

Section sampling.
Variable exp : f32 → f32.
Variable config : DistributedLoopConfig.
Context (strict : bool) (rs : list PendingRequest).
Notation inv := (loop_inv strict).

(** A sequence whose next token can be sampled. *)
Definition samplable (prefill : bool) (seq : DistributedSequence) (r : PendingRequest) : Prop :=
  ds_prefill_done seq = true ∧ ds_remaining_prefill seq = [] ∧ length (ds_generated_tokens seq) < req_max_tokens r `max` 1 ∧
  (if prefill then 0 else 1) + ds_current_pos seq = length (prompt_tokens r) + length (ds_generated_tokens seq).

Lemma inv_sampled sid seq' evs c c' s s' seq :
  inv c rs s → dl_active s !! sid = Some seq → sampled sid s s' c c' seq' →
  clients c' rs (dl_pending s) (<[sid := seq']> (dl_active s)) (dl_sent s ++ evs) → dl_sent s' = dl_sent s ++ evs → inv c' rs s'.
Proof.
  intros [Hd Hcl Ha Hs] Hsid [Hact Hp Hpend Hdeg _] Hcl' Hsent.
  assert (dom (dl_active s') = dom (dl_active s)) as Hdom by (rewrite Hact; by apply dom_insert_lookup_L).
  split; [done | by rewrite Hpend, Hact, Hsent | by rewrite Hp, Hdom |].
  intros Hst. destruct (Hs Hst) as [Heq Hn]. rewrite Hp, Hdom, Hdeg. split; [done |]. intros Hdg. rewrite (Hn Hdg) in Hsid. done.
Qed.

Lemma shown_push r g t : shown r g → length g < req_max_tokens r `max` 1 → t ∉ req_stop_tokens r → shown r (g ++ [t]).
Proof. intros [Hst _] Hlen Ht. split; [by apply Forall_app; split; [| apply Forall_singleton] | rewrite length_app; simpl; lia]. Qed.

Lemma sample_token_spec env logits i lg sid prefill seq seq0 c s :
  inv c rs s → dl_active s !! sid = Some seq → sid ∉ c → logits !! i = Some lg →
  ds_generated_tokens seq0 = ds_generated_tokens seq → ds_event_tx seq0 = ds_event_tx seq →
  (∀ r, same_request r seq → phase r seq → same_request r seq0 ∧ samplable prefill seq0 r) →
  ∃ s' c' seq', sample_token exp env logits i sid prefill seq0 (s, c) = ((s', c'), Ok ()) ∧ inv c' rs s' ∧ sampled sid s s' c c' seq' ∧
    (c' = c → ds_prefill_done seq' = true ∧ ds_remaining_prefill seq' = [] ∧
       ds_current_pos seq' = (if prefill then 0 else 1) + ds_current_pos seq0 ∧
       length (ds_generated_tokens seq') = S (length (ds_generated_tokens seq)) ∧ ds_max_tokens seq' = ds_max_tokens seq0).
Proof.
  intros Hi Hsid Hc Hlg Hgen Htx Hs0. unfold sample_token. rewrite (proj2 (index_Ok _ _ _) Hlg).
  pose proof (Sampling.sample_outcome exp (ev_random env i) lg (ds_params seq0)) as Hsm.
  pose proof (inv_distinct _ _ _ _ Hi) as Hd. pose proof (inv_clients _ _ _ _ Hi) as Hcl.
  destruct (Sampling.sample exp (ev_random env i) lg (ds_params seq0)) as [t|e|] eqn:Es; [| |done]; clear Hsm Es.
  - set (seq' := push_generated t (negb prefill) seq0).
    assert (∀ r, same_request r seq0 → same_request r seq') as Hsame by (intros r []; by split).
    case_bool_decide as Hst; [| case_bool_decide as Hmax].
    + eexists _, _, seq'. split; [reflexivity |]. split_and!; [| by split; auto | by intros ?%(f_equal length); rewrite length_app in *; simpl in *; lia].
      eapply (inv_sampled sid seq' []); [done | done | by split; auto | | cbn; by rewrite app_nil_r].
      eapply (clients_complete rs Hd c _ _ _ sid seq seq' []); [done | done | done |]. intros r Hr Hph Hsh.
      destruct (Hs0 r Hr Hph) as (Hr0 & _ & _ & Hlen & _). split; [by apply Hsame |].
      cbn [ds_stop_tokens seq' push_generated] in Hst. rewrite (same_stop _ _ Hr0) in Hst.
      rewrite app_nil_r. eapply (EndStop r seq' _ (ds_generated_tokens seq) t); [by cbn; rewrite Hgen | done | done | rewrite <- Hgen; lia | done].
    + eexists _, _, seq'. split; [reflexivity |]. split_and!; [| by split; auto | by intros ?%(f_equal length); rewrite length_app in *; simpl in *; lia].
      eapply (inv_sampled sid seq' [(ds_event_tx seq, Token t)]); [done | done | by split; auto | | cbn; by rewrite Htx].
      eapply (clients_complete rs Hd c _ _ _ sid seq seq' [Token t]); [done | done | done |]. intros r Hr Hph Hsh.
      destruct (Hs0 r Hr Hph) as (Hr0 & _ & _ & Hlen & _). split; [by apply Hsame |].
      cbn [ds_stop_tokens ds_max_tokens ds_generated_tokens seq' push_generated] in Hst, Hmax. rewrite (same_stop _ _ Hr0) in Hst.
      rewrite (same_max _ _ Hr0), Hgen, length_app in Hmax. rewrite Hgen in Hlen.
      apply EndLength; cbn [ds_generated_tokens seq' push_generated]; rewrite Hgen;
        [by destruct (ds_generated_tokens seq) | rewrite length_app; simpl in *; lia | by apply shown_push | by rewrite fmap_app].
    + eexists _, _, seq'. split; [reflexivity |]. split_and!; [| by split; auto |].
      2: { intros _. cbn [seq' push_generated ds_generated_tokens ds_current_pos ds_max_tokens ds_prefill_done ds_remaining_prefill].
           destruct (clients_served rs c _ _ _ _ _ Hcl Hsid) as (r & _ & _ & _ & Hr & [(_ & Hph & _)|[]]); [| done].
           destruct (Hs0 r Hr Hph) as (_ & Hdn & Hrm & _). split_and!; [done | done | by destruct prefill | | done].
           rewrite Hgen, length_app. simpl. lia. }
      eapply (inv_sampled sid seq' [(ds_event_tx seq, Token t)]); [done | done | by split; auto | | cbn; by rewrite Htx].
      eapply (clients_step rs Hd c _ _ _ sid seq seq' [Token t]); [done | done | done |]. intros r Hr Hph Hsh.
      destruct (Hs0 r Hr Hph) as (Hr0 & Hdn & Hrm & Hlen & Hpos). split; [by apply Hsame |].
      cbn [ds_stop_tokens ds_max_tokens ds_generated_tokens seq' push_generated] in Hst, Hmax. rewrite (same_stop _ _ Hr0) in Hst.
      rewrite (same_max _ _ Hr0), Hgen, length_app in Hmax. rewrite Hgen in Hlen, Hpos.
      cbn [seq' push_generated ds_generated_tokens]. rewrite Hgen. split_and!; [| by apply shown_push | by rewrite fmap_app].
      apply InDecode; cbn [seq' push_generated ds_generated_tokens ds_current_pos ds_prefill_done ds_remaining_prefill];
        rewrite ?Hgen, ?length_app; [done | done | by destruct (ds_generated_tokens seq) | destruct prefill; simpl in *; lia | simpl in *; lia].
  - eexists _, _, seq0. split; [reflexivity |]. split_and!; [| by split; auto | by intros ?%(f_equal length); rewrite length_app in *; simpl in *; lia].
    eapply (inv_sampled sid seq0 [(ds_event_tx seq, EventError "sampling failed")]); [done | done | by split; auto | | cbn; by rewrite Htx].
    eapply (clients_complete rs Hd c _ _ _ sid seq seq0 [EventError "sampling failed"]); [done | done | done |]. intros r Hr Hph Hsh.
    destruct (Hs0 r Hr Hph) as (Hr0 & _). split; [done |]. eapply EndFailed; by rewrite Hgen.
Qed.

(** What is left to do for a sequence. *)
Definition weight (seq : DistributedSequence) : nat := length (ds_remaining_prefill seq) + (S (ds_max_tokens seq) - length (ds_generated_tokens seq)).

Lemma inv_phase c s sid seq : inv c rs s → dl_active s !! sid = Some seq → sid ∉ c →
  ∃ r, r ∈ rs ∧ req_seq_id r = sid ∧ same_request r seq ∧ phase r seq.
Proof.
  intros Hi Hsid Hc. destruct (clients_served rs c _ _ _ _ _ (inv_clients _ _ _ _ Hi) Hsid) as (r & Hr & Hk & _ & Hs & [(_ & Hph & _)|[]]); [| done].
  by exists r.
Qed.

Lemma phase_length r seq : phase r seq → ds_prefill_done seq = false → length (ds_remaining_prefill seq) ≤ ds_current_pos seq.
Proof. intros [_ _ -> Hsuf _|]; [intros _; by apply suffix_length | congruence]. Qed.

Lemma sample_one_spec env b logits i lg meta it c s :
  inv c rs s → dl_active s !! ds_seq_id it.1 = Some it.1 → ds_seq_id it.1 ∉ c → item_ok config it →
  logits !! i = Some lg → ba_metas b !! i = Some meta → num_tokens meta = Z.of_nat it.2 →
  ∃ s' c' seq', sample_one exp env b logits i (ds_seq_id it.1) (negb (ds_prefill_done it.1)) (s, c) = ((s', c'), Ok ()) ∧
    inv c' rs s' ∧ sampled (ds_seq_id it.1) s s' c c' seq' ∧ (c' = c → fed seq' = fed it.1 + it.2 ∧ weight seq' + it.2 ≤ weight it.1).
Proof.
  destruct it as [seq n]. cbn [fst snd]. set (sid := ds_seq_id seq). intros Hi Hsid Hc Hok Hlg Hmeta Hnum.
  unfold sample_one. rewrite Hsid. unfold item_ok in Hok. cbn [fst snd] in Hok.
  destruct (inv_phase _ _ _ _ Hi Hsid Hc) as (r & _ & _ & Hr & Hph). destruct (ds_prefill_done seq) eqn:Hdone; cbn [negb].
  - subst n. destruct (sample_token_spec env logits i lg sid false seq seq c s) as (s' & c' & seq' & E & Hi' & Hsm & Hgo); try done.
    { intros r' Hr' Hph'. split; [done |]. destruct Hph' as [|_ Hrm Hne Hpos Hlt]; [congruence |]. repeat split; [done | done | lia | simpl; lia]. }
    exists s', c', seq'. split_and!; [done | done | done |]. intros Hcc. destruct (Hgo Hcc) as (Hd' & Hr' & Hp' & Hg' & Hm').
    unfold fed, weight. rewrite Hd', Hdone, Hr', Hp', Hg', Hm'. destruct Hph as [|_ Hrm Hne Hpos Hlt]; [congruence |].
    rewrite (same_max _ _ Hr). simpl. lia.
  - destruct Hok as (Hne & Hle & _ & _). rewrite (proj2 (index_Ok _ _ _) Hmeta), Hnum, Nat2Z.id. rewrite bool_decide_false by lia.
    pose proof (phase_length _ _ Hph Hdone) as Hlen. destruct (drop n (ds_remaining_prefill seq)) as [|x rest] eqn:Hrest.
    + assert (n = length (ds_remaining_prefill seq)) as Hn.
      { apply (f_equal length) in Hrest. rewrite length_drop in Hrest. simpl in Hrest. lia. }
      destruct (sample_token_spec env logits i lg sid true seq (set_prefill [] true seq) c s) as (s' & c' & seq' & E & Hi' & Hsm & Hgo); try done.
      { intros r' Hr' Hph'. split; [by destruct Hr'; split |]. destruct Hph' as [_ Hg Hpos _ _|]; [| congruence].
        repeat split; cbn; rewrite ?Hg, ?Hpos; simpl; lia. }
      exists s', c', seq'. split_and!; [done | done | done |]. intros Hcc. destruct (Hgo Hcc) as (Hd' & Hr' & Hp' & Hg' & Hm').
      unfold fed, weight. rewrite Hd', Hdone, Hr', Hp', Hg', Hm'. cbn. lia.
    + set (seq' := set_prefill (x :: rest) false seq).
      exists (set_active (<[sid := seq']> (dl_active s)) s), c, seq'. split; [done |]. split_and!.
      * eapply (inv_sampled sid seq' []); [done | done | by split; auto | | cbn; by rewrite app_nil_r].
        eapply (clients_step rs (inv_distinct _ _ _ _ Hi) c _ _ _ sid seq seq' []); [apply Hi | done | done |]. intros r' Hr' Hph' Hsh.
        split_and!; [by destruct Hr'; split | | done | by rewrite app_nil_r]. destruct Hph' as [_ Hg Hpos Hsuf Hnil|]; [| congruence].
        apply InPrefill; cbn; [done | done | done | | done]. rewrite <- Hrest. etrans; [apply suffix_drop | done].
      * by split; auto.
      * intros _. unfold fed, weight, seq'. cbn [set_prefill ds_prefill_done ds_remaining_prefill ds_current_pos ds_max_tokens ds_generated_tokens].
        rewrite Hdone, <- Hrest, length_drop. lia.
Qed.

Notation ids items := ((λ it : DistributedSequence * nat, ds_seq_id it.1) <$> items).

(** What sampling a batch changes. *)
Record batch_sampled (items : list (DistributedSequence * nat)) (s s' : DistLoop) (c c' : list Z) : Prop := {
  bs_pipeline : dl_pipeline s' = dl_pipeline s;
  bs_pending : dl_pending s' = dl_pending s;
  bs_degraded : dl_degraded s' = dl_degraded s;
  bs_others : ∀ k, k ∉ ids items → dl_active s' !! k = dl_active s !! k;
  bs_items : ∀ it, it ∈ items → ∃ seq', dl_active s' !! ds_seq_id it.1 = Some seq' ∧
    (ds_seq_id it.1 ∉ c' → fed seq' = fed it.1 + it.2 ∧ weight seq' + it.2 ≤ weight it.1);
  bs_completed : ∀ k, k ∈ c' → k ∈ c ∨ k ∈ ids items;
  bs_kept : ∀ k, k ∈ c → k ∈ c'
}.

Lemma sample_loop_spec env logits pre suf c s :
  Forall (item_ok config) (pre ++ suf) → NoDup (ids (pre ++ suf)) → length logits = length (pre ++ suf) →
  inv c rs s → NoDup c → (∀ k, k ∈ c → k ∉ ids suf) → Forall (λ it, dl_active s !! ds_seq_id it.1 = Some it.1) suf →
  ∃ s' c', sample_loop exp env (batch_of (pre ++ suf)) logits (length pre) ((λ it, (ds_seq_id it.1, negb (ds_prefill_done it.1))) <$> suf) (s, c)
             = ((s', c'), Ok ()) ∧ inv c' rs s' ∧ NoDup c' ∧ batch_sampled suf s s' c c'.
Proof.
  revert pre c s. induction suf as [|it suf IH]; intros pre c s Hok Hnd Hlen Hi Hc Hdis Hact; csimpl.
  { exists s, c. split_and!; [done | done | done |]. split; try done; [set_solver | auto]. }
  destruct (batch_of_fields config _ Hok) as (_ & _ & Hmetas & _).
  assert ((pre ++ it :: suf) !! length pre = Some it) as Hit by (by rewrite list_lookup_middle).
  destruct (lookup_lt_is_Some_2 logits (length pre)) as [lg Hlg]; [rewrite Hlen, length_app; simpl; lia |].
  rewrite Forall_cons in Hact. destruct Hact as [Hsid Hact]. csimpl in Hdis.
  assert (∃ meta, ba_metas (batch_of (pre ++ it :: suf)) !! length pre = Some meta ∧ num_tokens meta = Z.of_nat it.2) as (meta & Hm & Hnum).
  { rewrite Hmetas, list_lookup_fmap, Hit. by eexists. }
  destruct (sample_one_spec env (batch_of (pre ++ it :: suf)) logits (length pre) lg meta it c s) as (s1 & c1 & seq1 & E1 & Hi1 & Hsm & Hgo); try done.
  { set_solver. } { rewrite Forall_app, Forall_cons in Hok. by destruct Hok as (_ & ? & _). }
  unfold sbind. rewrite E1. destruct Hsm as [Ha1 Hp1 Hpd1 Hdg1 Hc1].
  pose proof Hnd as Hnd'. rewrite fmap_app in Hnd'. apply NoDup_app in Hnd' as (_ & _ & Hnd'). csimpl in Hnd'. apply NoDup_cons in Hnd' as [Hfresh _].
  replace (pre ++ it :: suf) with ((pre ++ [it]) ++ suf) in * by (by rewrite <- app_assoc).
  destruct (IH (pre ++ [it]) c1 s1) as (s' & c' & E & Hi' & Hc' & [Hp Hpd Hdg Hoth Hits Hcm Hkp]); try done.
  { destruct Hc1 as [->| ->]; [done |]. apply NoDup_app. split_and!; [done | set_solver | apply NoDup_singleton]. }
  { intros k Hk. destruct Hc1 as [->| ->]; [set_solver |]. apply elem_of_app in Hk as [Hk| ->%list_elem_of_singleton]; [set_solver | done]. }
  { rewrite Ha1. apply Forall_forall. intros it' Hin. rewrite lookup_insert_ne; [by rewrite Forall_forall in Hact; apply Hact |].
    intros Heq. apply Hfresh. rewrite Heq. by apply (list_elem_of_fmap_2 (λ it, ds_seq_id it.1)). }
  exists s', c'. replace (length (pre ++ [it])) with (S (length pre)) in E by (rewrite length_app; simpl; lia).
  split_and!; [done | done | done |]. split; [congruence.. | | | |].
  - intros k Hk. csimpl in Hk. rewrite Hoth by set_solver. rewrite Ha1. apply lookup_insert_ne. set_solver.
  - intros it' [->|Hin]%elem_of_cons; [| by apply Hits]. exists seq1. rewrite Hoth by done. rewrite Ha1, lookup_insert_eq. split; [done |].
    intros Hn. apply Hgo. destruct Hc1 as [->| ->]; [done |]. destruct Hn. apply Hkp. set_solver.
  - intros k Hk. csimpl. destruct (Hcm k Hk) as [Hk'|Hk']; [| set_solver]. destruct Hc1 as [->| ->]; set_solver.
  - intros k Hk. apply Hkp. destruct Hc1 as [->| ->]; set_solver.
Qed.
End sampling.

(** ** Serving *)

Section serving.
Variable crc32c : list Z → Z.
Variable exp : f32 → f32.
Context `{Bincode ForwardPayload} `{Bincode ForwardResultPayload} `{Bincode BatchedForwardPayload} `{Bincode BatchedForwardResultPayload}
  `{Bincode ErrorPayload} `{Bincode RegisterAckPayload} `{Bincode HeartbeatPayload} `{Bincode HeartbeatAck}.
Variable config : DistributedLoopConfig.
Context (strict : bool) (rs : list PendingRequest).
Notation inv := (loop_inv strict).
Notation ids items := ((λ it : DistributedSequence * nat, ds_seq_id it.1) <$> items).

Lemma inv_keyed c s : inv c rs s → keyed (dl_active s).
Proof. intros Hi k seq Hk. by eapply clients_key; [apply Hi |]. Qed.

(** A sequence leaves together with its caches. *)
Lemma inv_remove c c' s s' k seq :
  inv c rs s → dl_active s !! k = Some seq → dl_active s' = delete k (dl_active s) →
  allocated_seqs (dl_pipeline s') = allocated_seqs (dl_pipeline s) ∖ {[k]} → dl_degraded s' = dl_degraded s →
  clients c' rs (dl_pending s') (dl_active s') (dl_sent s') → inv c' rs s'.
Proof.
  intros [Hd Hcl Ha Hs] Hk Hact Hp Hdg Hcl'. split; [done | done | rewrite Hp, Hact, dom_delete_L; clear -Ha; set_solver |].
  intros Hst. destruct (Hs Hst) as [Heq Hn]. rewrite Hp, Hact, dom_delete_L, Heq. split; [done |]. rewrite Hdg.
  intros Hdeg. rewrite (Hn Hdeg) in Hk. done.
Qed.

Lemma free_cache_seqs sid p reg : allocated_seqs (free_cache crc32c sid (p, reg)).1.1 = allocated_seqs p ∖ {[sid]}.
Proof.
  unfold free_cache. case_bool_decide as Hin; cbn [negb]; [by destruct (send_to_all _ _ _ _ _) |]. cbn. set_solver.
Qed.

(** Sequences [ks] are gone, the others are as before. *)
Record dropped (ks : list Z) (s s' : DistLoop) : Prop := {
  dr_gone : ∀ k, k ∈ ks → dl_active s' !! k = None;
  dr_kept : ∀ k, k ∉ ks → dl_active s' !! k = dl_active s !! k;
  dr_pending : dl_pending s' = dl_pending s;
  dr_degraded : dl_degraded s' = dl_degraded s
}.

Lemma dropped_cons k ks s s1 s2 : dropped [k] s s1 → dropped ks s1 s2 → dropped (k :: ks) s s2.
Proof.
  intros [Hg1 Hk1 Hp1 Hd1] [Hg2 Hk2 Hp2 Hd2]. split; [| | congruence..].
  - intros k' Hk'. destruct (decide (k' ∈ ks)) as [Hin|Hin]; [by apply Hg2 |]. rewrite Hk2 by done. apply Hg1. set_solver.
  - intros k' Hk'. rewrite Hk2 by set_solver. apply Hk1. set_solver.
Qed.

Lemma dropped_delete k s s' : dl_active s' = delete k (dl_active s) → dl_pending s' = dl_pending s → dl_degraded s' = dl_degraded s → dropped [k] s s'.
Proof.
  intros Hact Hp Hd. split; [| | done..]; rewrite Hact; intros k' Hk';
    [apply list_elem_of_singleton in Hk' as ->; apply lookup_delete_eq | apply lookup_delete_ne; set_solver].
Qed.

Lemma finish_one_spec env k c s : inv (k :: c) rs s → k ∉ c → inv c rs (finish_one crc32c env s k) ∧ dropped [k] s (finish_one crc32c env s k).
Proof.
  intros Hi Hc. unfold finish_one. destruct (dl_active s !! k) as [seq|] eqn:Hk.
  - assert (ds_seq_id seq = k) as -> by (by eapply inv_keyed).
    match goal with |- inv c rs ?x ∧ _ => set (s' := x) end.
    assert (dl_active s' = delete k (dl_active s)) as Hact by done. split.
    + eapply inv_remove; [exact Hi | exact Hk | done | apply free_cache_seqs | done |].
      apply (clients_finish rs (inv_distinct _ _ _ _ Hi) c _ _ _ k seq); [apply Hi | done | done].
    + by apply dropped_delete.
  - split; [destruct Hi as [Hd Hcl Ha Hs]; split; try done; by eapply clients_gone |].
    split; [by intros k' ->%list_elem_of_singleton | done..].
Qed.

Lemma finish_spec env c s : inv c rs s → NoDup c →
  inv [] rs (foldl (finish_one crc32c env) s c) ∧ dropped c s (foldl (finish_one crc32c env) s c).
Proof.
  revert s. induction c as [|k c IH]; intros s Hi Hnd; cbn [foldl]; [split; [done |]; split; set_solver |].
  apply NoDup_cons in Hnd as [Hk Hnd]. destruct (finish_one_spec env k c s Hi Hk) as [Hi1 Hd1].
  destruct (IH _ Hi1 Hnd) as [Hi2 Hd2]. split; [done | by eapply dropped_cons].
Qed.

Lemma fail_batch_spec ks s : inv [] rs s → inv [] rs (fail_batch crc32c ks s) ∧ dropped ks s (fail_batch crc32c ks s).
Proof.
  unfold fail_batch. revert s. induction ks as [|k ks IH]; intros s Hi; cbn [foldl]; [split; [done |]; split; set_solver |].
  match goal with |- context [foldl _ ?x ks] => set (s1 := x) end.
  assert (inv [] rs s1 ∧ dropped [k] s s1) as [Hi1 Hd1].
  { subst s1. destruct (dl_active s !! k) as [seq|] eqn:Hk.
    - assert (ds_seq_id seq = k) as -> by (by eapply inv_keyed). match goal with |- inv [] rs ?x ∧ _ => set (s' := x) end.
      assert (dl_active s' = delete k (dl_active s)) as Hact by done. split.
      + eapply inv_remove; [exact Hi | exact Hk | done | done | done |].
        apply (clients_abort rs (inv_distinct _ _ _ _ Hi) [] _ _ _ k seq); [apply Hi | done | set_solver].
      + by apply dropped_delete.
    - split; [done |]. split; [by intros k' ->%list_elem_of_singleton | done..]. }
  destruct (IH _ Hi1) as [Hi2 Hd2]. split; [done | by eapply dropped_cons].
Qed.

Lemma batched_loop_length n seqs prefill i nodes cur reg reg' rows :
  batched_loop crc32c n seqs prefill i nodes cur reg = (reg', Ok rows) → length rows = length seqs.
Proof.
  revert i cur reg. induction nodes as [|id nodes IH]; intros i cur reg; cbn [batched_loop]; [done |].
  intros (reg1 & [] & _ & (reg2 & hp & _ & Hrest)%sbind_Ok)%sbind_Ok.
  case_if; [injection Hrest as _ (? & _ & ?)%rbind_Ok; done |].
  apply sbind_Ok in Hrest as (reg3 & out & _ & Hrest). destruct out as [data|th td].
  - case_if; [done |]. destruct (split_logits_total data (length seqs)) as (rows' & Hr & Hlen). unfold slift in Hrest. rewrite Hr in Hrest. by simplify_eq.
  - case_if; [done |]. by apply IH in Hrest.
Qed.

Lemma batched_forward_length p seqs toks prefill reg reg' rows :
  DistPipeline.batched_forward crc32c p seqs toks prefill reg = (reg', Ok rows) → length rows = length seqs.
Proof. unfold DistPipeline.batched_forward. case_if; [done |]. apply batched_loop_length. Qed.

(** One batch: every sequence of it moves on by the tokens it was fed, or leaves. *)
Lemma run_batch_spec env items s :
  inv [] rs s → batch_items config (dl_active s) items →
  (∀ p metas toks pre reg, (DistPipeline.batched_forward crc32c p metas toks pre reg).2 ≠ Panic) →
  ∃ s' c, run_batch crc32c exp env (batch_of items) s = (s', Ok c) ∧ c ≠ Stop ∧ inv [] rs s' ∧ dl_pending s' = dl_pending s ∧
    dl_degraded s' = dl_degraded s ∧ (∀ k, k ∉ ids items → dl_active s' !! k = dl_active s !! k) ∧
    (∀ it, it ∈ items → dl_active s' !! ds_seq_id it.1 = None ∨
       ∃ seq', dl_active s' !! ds_seq_id it.1 = Some seq' ∧ fed seq' = fed it.1 + it.2 ∧ weight seq' + it.2 ≤ weight it.1).
Proof.
  intros Hi [Hok Hact Hnd _] Hnp. unfold run_batch. destruct (batch_of_fields config items Hok) as (Hseqs & _ & Hmetas & _).
  set (s0 := lock env 13 s). assert (inv [] rs s0) as Hi0 by (by apply inv_lock).
  specialize (Hnp (dl_pipeline s0) (ba_metas (batch_of items)) (ba_tokens (batch_of items)) (existsb snd (ba_seqs (batch_of items))) (dl_registry s0)).
  destruct (DistPipeline.batched_forward _ _ _ _ _ _) as [reg [logits|e|]] eqn:E; [| |done].
  - apply batched_forward_length in E. rewrite Hmetas, length_fmap in E.
    destruct (sample_loop_spec exp config strict rs env logits [] items [] (set_reg reg s0)) as (s1 & c & E1 & Hi1 & Hc & Hb);
      [done | done | done | by apply inv_reg | apply NoDup_nil_2 | set_solver | done |].
    rewrite Hseqs. cbn [app length] in E1. rewrite E1. destruct (finish_spec env c s1 Hi1 Hc) as [Hi2 [Hg Hk Hp Hd]].
    eexists _, Go. split_and!; [reflexivity | done | done | | | |].
    + rewrite Hp. apply (bs_pending _ _ _ _ _ Hb).
    + rewrite Hd. apply (bs_degraded _ _ _ _ _ Hb).
    + intros k Hkn. rewrite Hk; [apply (bs_others _ _ _ _ _ Hb k Hkn) |]. intros Hin. apply (bs_completed _ _ _ _ _ Hb) in Hin. set_solver.
    + intros it Hit. destruct (decide (ds_seq_id it.1 ∈ c)) as [Hin|Hin]; [left; by apply Hg |]. right.
      destruct (bs_items _ _ _ _ _ Hb it Hit) as (seq' & Hseq & Hgo). exists seq'. rewrite Hk by done. split; [done | by apply Hgo].
  - assert ((ba_seqs (batch_of items)).*1 = ids items) as -> by (by rewrite Hseqs, <- list_fmap_compose).
    set (s1 := lock env 15 _). destruct (fail_batch_spec (ids items) s1) as [Hi1 [Hg Hk Hp Hd]]; [by apply inv_lock, inv_reg |].
    eexists _, Skip. split_and!; [reflexivity | done | done | done | done | |].
    + intros k Hkn. by apply Hk.
    + intros it Hit. left. apply Hg. by apply (list_elem_of_fmap_2 (λ it, ds_seq_id it.1)).
Qed.
End serving.
