(* ===== verification/DistLoopRun.v ===== *)
(** * Runs of the distributed scheduler loop

    With a codec that reports errors instead of panicking, and byte counts that
    fit a [usize], every iteration returns.  So every run from the start keeps
    the invariant of [DistLoopSpec], and a run that receives nothing more brings
    every request it holds to its end. *)

From S2P Require Import Prelude F32 Core Frame Connection LayerScheduler SchedulerTotal Registry DistPipeline Rebalance BatchScheduler Worker DistLoop LoopMemory DistLoopSpec.
From S2P Require Sampling.

(** ** Nothing panics *)

(** [m] returns a value or an error in every state. *)
Definition total {S A : Type} (m : st S A) : Prop := ∀ s, (m s).2 ≠ Panic.

Lemma total_bind {S A B : Type} (m : st S A) (k : A → st S B) : total m → (∀ a, total (k a)) → total (sbind m k).
Proof. intros Hm Hk s. unfold sbind. specialize (Hm s). destruct (m s) as [s' [a|e|]]; [apply Hk | done | done]. Qed.
Lemma total_lift {S A : Type} (m : result A) : m ≠ Panic → total (slift m : st S A).
Proof. by intros Hm s. Qed.
Lemma total_if {S A : Type} (b : bool) (m k : st S A) : total m → total k → total (if b then m else k).
Proof. by destruct b. Qed.

Lemma write_all_total bs : total (write_all bs).
Proof. intros w. unfold write_all. by case_if. Qed.
Lemma flush_total : total flush.
Proof. intros w. unfold flush. by case_if. Qed.

Create HintDb total.
#[export] Hint Resolve total_lift write_all_total flush_total : total.
(** Sequencing keeps totality. *)
Ltac total := repeat first [apply total_bind; [| intros ?] | apply total_if | by eauto with total | by intros ?].

Lemma send_raw_total crc32c mt sid bs : total (send_raw crc32c mt sid bs).
Proof. unfold send_raw. total. Qed.
Lemma send_total {P : Type} crc32c (ser : P → result (list Z)) mt sid x : ser x ≠ Panic → total (Connection.send crc32c ser mt sid x).
Proof. intros Hs. unfold Connection.send. apply total_bind; [apply total_lift; by destruct (ser x) | intros; apply send_raw_total]. Qed.
Lemma with_writer_total {A : Type} id (m : st FramedWriter A) : total m → total (with_writer id m).
Proof. intros Hm reg. unfold with_writer. destruct (reg !! id) as [e|]; [| done]. specialize (Hm (writer e)). by destruct (m (writer e)). Qed.
Lemma with_reader_total {A : Type} id (m : st FramedReader A) : total m → total (with_reader id m).
Proof. intros Hm reg. unfold with_reader. destruct (reg !! id) as [e|]; [| done]. specialize (Hm (reader e)). by destruct (m (reader e)). Qed.
Lemma recv_acks_total crc32c : total (recv_skipping_heartbeat_acks crc32c).
Proof. intros r. apply recv_skip_total. Qed.
#[export] Hint Resolve send_raw_total send_total with_writer_total with_reader_total recv_acks_total : total.

Lemma send_to_all_total crc32c mt sid ids : total (send_to_all crc32c mt sid ids).
Proof. induction ids as [|id ids IH]; cbn [send_to_all]; total. Qed.

Lemma payload_total {P : Type} `{Bincode P} : (∀ bs, deserialize (P := P) bs ≠ Panic) → ∀ bs, deserialize_payload (P := P) bs ≠ Panic.
Proof. intros Hd bs. unfold deserialize_payload. specialize (Hd bs). by destruct (deserialize bs). Qed.

(** The codec ([bincode]) reports failures as errors. *)
Record codec_total `{Bincode ForwardResultPayload} `{Bincode BatchedForwardPayload} `{Bincode BatchedForwardResultPayload}
    `{Bincode ErrorPayload} `{Bincode RegisterAckPayload} : Prop := {
  ct_batched : ∀ x : BatchedForwardPayload, serialize x ≠ Panic;
  ct_batched_result : ∀ bs, deserialize (P := BatchedForwardResultPayload) bs ≠ Panic;
  ct_result : ∀ bs, deserialize (P := ForwardResultPayload) bs ≠ Panic;
  ct_error : ∀ bs, deserialize (P := ErrorPayload) bs ≠ Panic;
  ct_ack : ∀ x : RegisterAckPayload, serialize x ≠ Panic
}.
Arguments codec_total {_ _ _ _ _}.

Section total.
Variable crc32c : list Z → Z.
Context `{Bincode ForwardPayload} `{Bincode ForwardResultPayload} `{Bincode BatchedForwardPayload} `{Bincode BatchedForwardResultPayload}
  `{Bincode ErrorPayload} `{Bincode RegisterAckPayload}.
Hypothesis codec : codec_total.

Lemma rmap_total {A B : Type} (f : A → B) (m : result A) : m ≠ Panic → rmap f m ≠ Panic.
Proof. by destruct m. Qed.

Lemma batched_loop_total n seqs prefill i nodes cur : total (batched_loop crc32c n seqs prefill i nodes cur).
Proof using codec.
  revert i cur. induction nodes as [|id nodes IH]; intros i cur; cbn [batched_loop]; [by intros ? |].
  apply total_bind; [apply with_writer_total, send_total, codec |]. intros _.
  apply total_bind; [apply with_reader_total, recv_acks_total |]. intros hp. apply total_if.
  { apply total_lift. unfold worker_error. apply rbind_no_panic; [apply payload_total, codec | done]. }
  apply total_bind.
  - apply total_lift. case_if; [apply rmap_total, payload_total, codec |]. case_if; [apply rmap_total, payload_total, codec | done].
  - intros [data|th td]; apply total_if; try (by intros ?); [| apply IH].
    apply total_lift. by destruct (split_logits_total data (length seqs)) as (rows & -> & _).
Qed.

Lemma batched_forward_total p seqs toks prefill reg : (DistPipeline.batched_forward crc32c p seqs toks prefill reg).2 ≠ Panic.
Proof using codec. unfold DistPipeline.batched_forward. case_if; [done |]. apply batched_loop_total. Qed.

Lemma alloc_cache_total js sid : total (alloc_cache crc32c js sid).
Proof using codec.
  intros [p reg]. unfold alloc_cache. case_bool_decide; [done |]. unfold try_alloc_all. cbn [fst].
  pose proof (send_to_all_total crc32c CacheAlloc sid (order p) reg) as Hsend.
  destruct (send_to_all _ _ _ _ _) as [reg1 [[]|e|]]; [| done | done].
  pose proof (collect_no_panic crc32c (ct_error codec) js) as Hc. match goal with |- context [collect_acks crc32c js ?l ?x] => specialize (Hc l x) end.
  destruct (collect_acks _ _ _ _) as [[reg2 succ] [[]|e|]]; done.
Qed.

Lemma reconfigure_all_total c msl asg : total (reconfigure_all crc32c c msl asg).
Proof using codec.
  induction asg as [|a asg IH]; cbn [reconfigure_all]; [by intros ? |]. apply total_bind; [| done]. intros reg.
  unfold reconfigure_one, assign. destruct (reg !! la_node_id a) as [e|]; [| done]. case_bool_decide; [done |].
  match goal with |- context [with_writer ?i ?m ?r] => assert ((with_writer i m r).2 ≠ Panic) as Hw by (apply with_writer_total, send_total, codec);
    destruct (with_writer i m r) as [reg1 [[]|e'|]]; done end.
Qed.

Lemma forced_rebalance_total ho ho' c m msl skip p reg : sizes_fit c m msl → memory_ok reg →
  (forced_rebalance crc32c ho ho' c m msl skip (p, reg)).2 ≠ Panic.
Proof using codec.
  intros Hs Hm. unfold forced_rebalance. pose proof (abort_all_caps crc32c ho p reg) as Ha. destruct (abort_all_sequences _ _ _) as [[p1 reg1] ab]. cbn [fst snd] in Ha.
  apply (memory_ok_same _ _ Ha), (rebalance_memory ho' skip) in Hm.
  destruct (rebalance_workers ho' skip reg1) as [|w ws] eqn:E; [done |]. rewrite <- E in *.
  pose proof (schedule_total (rebalance_input c m msl (rebalance_workers ho' skip reg1)) Hs Hm) as Hsch. destruct (LayerScheduler.schedule _) as [sr| |]; [| done..].
  pose proof (reconfigure_all_total c msl (assignments sr) reg1) as Hr. destruct (reconfigure_all _ _ _ _ _) as [reg2 [[]| |]]; [| done..].
  apply rmap_total. unfold pipeline_new. destruct (assignments sr); [done |]. apply rbind_no_panic; [apply check_ranges_no_panic | done].
Qed.
End total.

(** ** Work left *)

Definition request_weight (r : PendingRequest) : nat := 2 + length (prompt_tokens r) + req_max_tokens r.
Definition active_work (m : gmap Z DistributedSequence) : nat := map_fold (λ _ seq n, weight seq + n) 0 m.
(** Bounds the iterations the loop needs for the requests it holds. *)
Definition work (s : DistLoop) : nat := sum_list_with request_weight (dl_pending s) + active_work (dl_active s).
Definition drained (s : DistLoop) : Prop := dl_pending s = [] ∧ dl_active s = ∅.

Lemma active_work_delete m k seq : m !! k = Some seq → active_work m = weight seq + active_work (delete k m).
Proof. intros Hk. unfold active_work. rewrite (map_fold_delete_L _ _ k seq m); [done | intros; lia | done]. Qed.

Lemma active_work_mono m m' :
  (∀ k seq', m' !! k = Some seq' → ∃ seq, m !! k = Some seq ∧ weight seq' ≤ weight seq) → active_work m' ≤ active_work m.
Proof.
  revert m. induction m' as [|k seq' m' Hk IH] using map_ind; intros m Hle; [apply Nat.le_0_l |].
  destruct (Hle k seq') as (seq & Hs & Hw); [apply lookup_insert_eq |].
  rewrite (active_work_delete (<[k := seq']> m') k seq') by apply lookup_insert_eq. rewrite delete_insert_id by done.
  rewrite (active_work_delete m k seq) by done. apply Nat.add_le_mono; [done |]. apply IH. intros j sj Hj.
  assert (j ≠ k) by congruence. rewrite lookup_delete_ne by done. apply Hle. by rewrite lookup_insert_ne.
Qed.

Lemma active_work_lt m m' k seq :
  (∀ j seq', m' !! j = Some seq' → ∃ seq, m !! j = Some seq ∧ weight seq' ≤ weight seq) → m !! k = Some seq →
  (m' !! k = None ∧ 0 < weight seq ∨ ∃ seq', m' !! k = Some seq' ∧ weight seq' < weight seq) → active_work m' < active_work m.
Proof.
  intros Hle Hk Hlt. rewrite (active_work_delete m k seq) by done.
  assert (active_work (delete k m') ≤ active_work (delete k m)) as Hd.
  { apply active_work_mono. intros j sj [Hne Hj]%lookup_delete_Some. rewrite lookup_delete_ne by done. by apply Hle. }
  destruct Hlt as [[Hn Hw]|(seq' & Hs & Hw)].
  - rewrite delete_id in Hd by done. lia.
  - rewrite (active_work_delete m' k seq') by done. lia.
Qed.

(** Steps that only drop requests. *)
Definition shrinks (s s' : DistLoop) : Prop := dl_active s' ⊆ dl_active s ∧ dl_pending s' `sublist_of` dl_pending s.
#[export] Instance shrinks_preorder : PreOrder shrinks.
Proof. split; [by intros s; split | intros s1 s2 s3 [H1 H2] [H3 H4]; split; by etrans]. Qed.

Lemma shrinks_work s s' : shrinks s s' → work s' ≤ work s.
Proof.
  intros [Ha Hp]. unfold work. apply Nat.add_le_mono.
  - clear Ha. induction Hp as [|r l l' _ IH|r l l' _ IH]; simpl; lia.
  - apply active_work_mono. intros k seq' Hk. exists seq'. split; [by eapply lookup_weaken | done].
Qed.

Lemma shrinks_same s s' : dl_active s' = dl_active s → dl_pending s' = dl_pending s → shrinks s s'.
Proof. intros Ha Hp. unfold shrinks. by rewrite Ha, Hp. Qed.

Lemma abort_active_shrinks m ids s : shrinks s (abort_active m ids s).
Proof.
  unfold abort_active. revert s. induction ids as [|id ids IH]; intros s; cbn [foldl]; [done |]. etrans; [| apply IH].
  destruct (dl_active s !! id); [| done]. split; [apply delete_subseteq | done].
Qed.

Lemma reject_pending_fields m s : let s' := reject_pending m s in
  dl_pending s' = [] ∧ dl_active s' = dl_active s ∧ dl_degraded s' = dl_degraded s ∧ dl_registry s' = dl_registry s.
Proof.
  unfold reject_pending. cbn [set_pending dl_pending dl_active dl_degraded dl_registry]. split; [done |]. generalize (dl_pending s) as l.
  intros l. revert s. induction l as [|r l IH]; intros s; [done |]. cbn [foldl]. apply (IH (emit (req_event_tx r) (EventError m) s)).
Qed.

Lemma reject_pending_shrinks m s : shrinks s (reject_pending m s).
Proof. destruct (reject_pending_fields m s) as (Hp & Ha & _). split; [by rewrite Ha | rewrite Hp; apply sublist_nil_l]. Qed.

Lemma inv_weight strict rs s k seq : loop_inv strict [] rs s → dl_active s !! k = Some seq → 0 < weight seq.
Proof.
  intros Hi Hk. destruct (inv_phase strict rs [] s k seq Hi Hk) as (r & _ & _ & Hr & Hph); [set_solver |].
  unfold weight. rewrite (same_max _ _ Hr). destruct Hph as [_ -> _ _ _|_ _ _ _ Hlt]; simpl; lia.
Qed.

Lemma work_zero strict rs s : loop_inv strict [] rs s → work s = 0 → drained s.
Proof.
  intros Hi Hw. unfold work in Hw. split.
  - destruct (dl_pending s); [done |]. simpl in Hw. unfold request_weight in Hw. lia.
  - destruct (decide (dl_active s = ∅)) as [|Hne]; [done |]. exfalso. destruct (map_choose _ Hne) as (k & seq & Hk).
    pose proof (inv_weight _ _ _ _ _ Hi Hk). rewrite (active_work_delete _ _ _ Hk) in Hw. lia.
Qed.

Lemma dl_start_inv strict p reg now : allocated_seqs p = ∅ → loop_inv strict [] [] (dl_start p reg now).
Proof.
  intros Hp. split; [split; apply NoDup_nil_2 | | by cbn; rewrite Hp; apply empty_subseteq |].
  - split; [done | intros k seq; cbn [dl_start dl_active]; by rewrite lookup_empty | set_solver | set_solver].
  - intros _. cbn. by rewrite Hp, dom_empty_L.
Qed.

(** ** One iteration *)

Section iteration.
Variable crc32c : list Z → Z.
Variable exp : f32 → f32.
Context `{Bincode ForwardPayload} `{Bincode ForwardResultPayload} `{Bincode BatchedForwardPayload} `{Bincode BatchedForwardResultPayload}
  `{Bincode ErrorPayload} `{Bincode RegisterAckPayload} `{Bincode HeartbeatPayload} `{Bincode HeartbeatAck}.
Variable config : DistributedLoopConfig.

(** The parts of an iteration before and after the loop waits. *)
Definition prologue (env : LoopEnv) : st DistLoop ctl :=
  then_go (intake env) (do! _ := heartbeat_step crc32c config env in do! _ := membership crc32c config env in sret Go).
Definition epilogue (env : LoopEnv) : st DistLoop ctl := then_go (wait_degraded env) (then_go (wait_idle env) (serve crc32c exp config env)).

Lemma iteration_split env s : dist_iteration crc32c exp config env s = then_go (prologue env) (epilogue env) s.
Proof.
  unfold dist_iteration, prologue, epilogue, then_go, sbind. destruct (intake env s) as [s1 [[]| |]]; try done.
  destruct (heartbeat_step _ _ _ _) as [s2 [[]| |]]; try done. by destruct (membership _ _ _ _) as [s3 [[]| |]].
Qed.

(** The request that ended the wait, and all the requests an iteration takes. *)
Definition woken (env : LoopEnv) (s : DistLoop) : list PendingRequest :=
  if dl_degraded s then
    if bool_decide (dl_active s = ∅) then match ev_degraded_wake env with inr (Some r) => [r] | _ => [] end else []
  else if bool_decide (dl_pending s = []) && bool_decide (dl_active s = ∅) then match ev_wake env with WakeRequest (Some r) => [r] | _ => [] end
  else [].
Definition received (env : LoopEnv) (s : DistLoop) : list PendingRequest :=
  ev_requests env ++ match prologue env s with (s1, Ok Go) => woken env s1 | _ => [] end.

(** When nothing is active, the workers report room for a sequence. *)
Definition admission_open (env : LoopEnv) (s : DistLoop) : Prop :=
  match prologue env s with
  | (s1, Ok Go) => dl_active s1 = ∅ → can_admit config env (ev_others env 11 (dl_registry s1)) = true
  | _ => True
  end.

Hypothesis codec : codec_total.
Hypothesis sizes : ∀ c, dc_model_config config = Some c → sizes_fit c (dc_scheduling_mode config) (dc_max_seq_len config).

Lemma rebalance_runs env k c skip failed s :
  dc_model_config config = Some c → (∀ s, shrinks s (failed s)) → env_memory env → memory_ok (dl_registry s) →
  ∃ s', rebalance crc32c config env k c skip failed s = (s', Ok ()) ∧ shrinks s s'.
Proof using codec sizes.
  intros Hc Hf Henv Hm. unfold rebalance. set (s0 := lock env k s).
  pose proof (forced_rebalance_total crc32c codec (ev_order env 2) (ev_order env 3) c (dc_scheduling_mode config) (dc_max_seq_len config) skip
                (dl_pipeline s0) (dl_registry s0) (sizes c Hc) (Henv k _ Hm)) as Ht.
  destruct (forced_rebalance _ _ _ _ _ _ _ _) as [[p reg] [res|e|]]; [| | done].
  - eexists. split; [reflexivity |]. by apply shrinks_same.
  - eexists. split; [reflexivity |]. etrans; [| apply Hf]. by apply shrinks_same.
Qed.

Lemma on_dead_runs env dead s : env_memory env → memory_ok (dl_registry s) →
  ∃ s', on_dead crc32c config env dead s = (s', Ok ()) ∧ shrinks s s'.
Proof using codec sizes.
  intros Henv Hm. unfold on_dead. destruct (abort_all_sequences _ _ _) as [[p reg] aborted] eqn:E. apply (aborted_memory crc32c env Henv) in E; [| done].
  match goal with |- context [abort_active ?m aborted ?x] => set (s1 := abort_active m aborted x); assert (shrinks s s1) as Hs1 end.
  { unfold s1. etrans; [| apply abort_active_shrinks]. by apply shrinks_same. }
  assert (memory_ok (dl_registry s1)) as Hm1 by (unfold s1; by rewrite abort_active_registry).
  assert (∀ s, shrinks s (reject_pending "pipeline degraded: worker(s) died" (set_degraded true s))) as Hdeg.
  { intros s2. etrans; [| apply reject_pending_shrinks]. by apply shrinks_same. }
  destruct (dc_model_config config) as [c|] eqn:Hc in |- *.
  - destruct (rebalance_runs env 5 c dead _ s1 Hc Hdeg Henv Hm1) as (s' & E' & Hs'). exists s'. split; [done | by etrans].
  - eexists. split; [reflexivity |]. etrans; [apply Hs1 | apply Hdeg].
Qed.

Lemma heartbeat_runs env s : env_memory env → memory_ok (dl_registry s) →
  ∃ s', heartbeat_step crc32c config env s = (s', Ok ()) ∧ shrinks s s'.
Proof using codec sizes.
  intros Henv Hm. unfold heartbeat_step. case_bool_decide; [| by exists s].
  destruct (pending_nonce (dl_tracker s)); [| eexists; split; [reflexivity | by apply shrinks_same]].
  destruct (poll_worker_acks _ _ _) as [reg acks] eqn:Ep. destruct (foldl _ _ acks) as [t reg2] eqn:Eh. destruct (increment_missed _ _ _) as [t' dead].
  match goal with |- context [set_tracker t' ?now ?x] => set (s1 := set_tracker t' now x) end.
  assert (memory_ok (dl_registry s1)) as Hm1 by (eapply (polled_memory crc32c env Henv); [done | exact Ep | exact Eh]).
  assert (shrinks s s1) as Hs1 by (by apply shrinks_same).
  destruct dead as [|d dead]; [eexists; split; [reflexivity | by apply shrinks_same] |].
  destruct (on_dead_runs env (d :: dead) s1 Henv Hm1) as (s2 & -> & Hs2).
  eexists. split; [reflexivity |]. etrans; [apply Hs1 |]. etrans; [apply Hs2 |]. by apply shrinks_same.
Qed.

Lemma membership_runs env s : env_memory env → memory_ok (dl_registry s) →
  ∃ s', membership crc32c config env s = (s', Ok ()) ∧ shrinks s s'.
Proof using codec sizes.
  intros Henv Hm. unfold membership. case_if; [| by exists s]. case_if; [eexists; split; [reflexivity | by apply shrinks_same] |].
  destruct (dc_model_config config) as [c|] eqn:Hc in |- *; [| eexists; split; [reflexivity | by apply shrinks_same]].
  match goal with |- context [rebalance _ _ _ _ _ ?sk _ ?x] => destruct (rebalance_runs env 10 c sk (set_degraded true) x Hc) as (s' & E & Hs') end.
  { intros s1. by apply shrinks_same. }
  { done. }
  { by apply shutdown_memory, Henv, Henv, Henv. }
  exists s'. split; [done |]. etrans; [| apply Hs']. by apply shrinks_same.
Qed.

Section spec.
Context (strict : bool).
Notation inv := (loop_inv strict []).

(** A prompt is a [Vec], and its length a [usize]. *)
Definition addressable (r : PendingRequest) : Prop := (Z.of_nat (length (prompt_tokens r)) < 2 ^ 64)%Z.

Lemma alloc_cache_seqs js sid p reg p' reg' r : alloc_cache crc32c js sid (p, reg) = ((p', reg'), r) →
  r = Ok () ∧ allocated_seqs p' = {[sid]} ∪ allocated_seqs p ∨ r ≠ Ok () ∧ p' = p.
Proof.
  unfold alloc_cache. case_bool_decide; [intros [= <- <- <-]; by right |].
  destruct (try_alloc_all _ _ _ _ _) as [[reg1 succ] [[]|e|]]; intros [= <- <- <-]; [by left | by right..].
Qed.

Lemma admit_runs rs env s : inv rs s → dl_degraded s = false →
  ∃ s', admit_one crc32c config env s = (s', Ok ()) ∧ inv rs s' ∧ dl_degraded s' = false ∧ (dl_active s ≠ ∅ → dl_active s' ≠ ∅) ∧ work s' ≤ work s ∧
    (dl_pending s ≠ [] → can_admit config env (ev_others env 11 (dl_registry s)) = true → work s' < work s).
Proof using codec.
  intros Hi Hdeg. unfold admit_one. set (s0 := lock env 11 s). assert (inv rs s0) as Hi0 by (by apply inv_lock).
  change (dl_pending s) with (dl_pending s0). change (ev_others env 11 (dl_registry s)) with (dl_registry s0).
  change (dl_active s) with (dl_active s0). change (work s) with (work s0). change (dl_degraded s) with (dl_degraded s0) in Hdeg. clearbody s0. clear s Hi.
  destruct (dl_pending s0) as [|r pending] eqn:Hp; [by exists s0 |]. destruct (can_admit _ _ _) eqn:Hcan; [| by exists s0].
  set (s1 := lock env 12 (set_pending pending s0)).
  pose proof (alloc_cache_total crc32c codec (ev_allocs env) (req_seq_id r) (dl_pipeline s1, dl_registry s1)) as Ht.
  destruct Hi0 as [Hd Hcl Ha Hs]. rewrite Hp in Hcl.
  assert (dl_active s0 !! req_seq_id r = None) as Hnone by (by eapply clients_waiting in Hcl as (_ & _ & ? & _)).
  destruct (alloc_cache _ _ _ _) as [[p' reg'] res] eqn:E.
  apply alloc_cache_seqs in E as [[-> Hseqs]|[Hne ->]].
  - match goal with |- ∃ s', (?x, _) = _ ∧ _ => exists x; set (s2 := x) end. split; [done |].
    assert (dl_active s2 = <[req_seq_id r := new_sequence r]> (dl_active s0)) as Hact by done.
    assert (active_work (dl_active s2) = weight (new_sequence r) + active_work (dl_active s0)) as Haw.
    { rewrite Hact, (active_work_delete _ (req_seq_id r) (new_sequence r)) by apply lookup_insert_eq. by rewrite delete_insert_id. }
    assert (work s2 < work s0) as Hw. { unfold work. rewrite Haw, Hp. unfold weight, request_weight. cbn. unfold request_weight. lia. }
    split_and!; [| done | intros _; apply insert_non_empty | lia | done].
    split; [done | by apply clients_admit | rewrite Hact, dom_insert_L; cbn [s2 set_active set_cluster dl_pipeline fst]; rewrite Hseqs; cbn; clear -Ha; set_solver |].
    intros Hst. destruct (Hs Hst) as [Heq _]. split; [| cbn; congruence].
    rewrite Hact, dom_insert_L, <- Heq. cbn [s2 set_active set_cluster dl_pipeline fst]. by rewrite Hseqs.
  - destruct res as [[]|e|]; [done | | done].
    match goal with |- ∃ s', (?x, _) = _ ∧ _ => exists x; set (s2 := x) end. split; [done |].
    assert (work s2 < work s0) as Hw. { unfold work. rewrite Hp. unfold request_weight. cbn. unfold request_weight. lia. }
    split_and!; [| done | done | lia | done]. split; [done | by apply clients_reject | done | done].
Qed.

Lemma inv_ready rs s : inv rs s → Forall addressable rs → ready_to_batch (dl_active s).
Proof using Type.
  clear codec sizes.
  intros Hi Hadr k seq Hk Hdone. destruct (inv_phase strict rs [] s k seq Hi Hk) as (r & Hr & _ & _ & Hph); [set_solver |].
  split; [by eapply phase_length |]. destruct Hph as [_ _ -> _ _|]; [| congruence]. rewrite Forall_forall in Hadr. by apply Hadr.
Qed.

Lemma inv_remaining rs s k seq : inv rs s → Forall (λ r, prompt_tokens r ≠ []) rs → dl_active s !! k = Some seq →
  ds_prefill_done seq = false → ds_remaining_prefill seq ≠ [].
Proof using Type.
  clear codec sizes.
  intros Hi Hne Hk Hdone Hrem. destruct (inv_phase strict rs [] s k seq Hi Hk) as (r & Hr & _ & _ & Hph); [set_solver |].
  rewrite Forall_forall in Hne. apply (Hne r Hr). destruct Hph; [auto | congruence].
Qed.

(** The limits of the configuration let a batch form. *)
Definition positive_limits : Prop := 0 < dc_max_batch_size config ∧ 0 < dc_max_batch_tokens config ∧ 0 < dc_max_prefill_tokens config.

(** A batch that runs shortens the work. *)
Lemma run_batch_work rs env items s :
  inv rs s → batch_items config (dl_active s) items → 0 < dc_max_prefill_tokens config → items ≠ [] →
  ∃ s' c, run_batch crc32c exp env (batch_of items) s = (s', Ok c) ∧ c ≠ Stop ∧ inv rs s' ∧ work s' < work s.
Proof using codec.
  intros Hi Hb Hpos Hne. destruct (run_batch_spec crc32c exp config strict rs env items s Hi Hb) as (s' & c & E & Hc & Hi' & Hp & _ & Hoth & Hits).
  { intros. by apply (batched_forward_total crc32c codec). }
  exists s', c. split_and!; [done | done | done |]. unfold work. rewrite Hp. apply Nat.add_lt_mono_l.
  destruct Hb as [Hok Hact _ _]. rewrite Forall_forall in Hok, Hact.
  destruct items as [|it items]; [done |]. assert (it ∈ it :: items) as Hit by left.
  apply (active_work_lt _ _ (ds_seq_id it.1) it.1); [| by apply Hact |].
  - intros k seq' Hk. destruct (decide (k ∈ (λ it : DistributedSequence * nat, ds_seq_id it.1) <$> it :: items)) as [Hin|Hin].
    + apply list_elem_of_fmap in Hin as (it' & -> & Hin). exists it'.1. split; [by apply Hact |].
      destruct (Hits it' Hin) as [Hn|(seq'' & Hs & _ & Hw)]; [congruence |]. assert (seq'' = seq') as -> by congruence. lia.
    + rewrite Hoth in Hk by done. by exists seq'.
  - destruct (Hits it Hit) as [Hn|(seq' & Hs & _ & Hw)]; [left; split; [done | by eapply inv_weight; [exact Hi | apply Hact]] |].
    right. exists seq'. split; [done |]. specialize (Hok it Hit). unfold item_ok in Hok. destruct (ds_prefill_done it.1); [lia |].
    destruct Hok as (_ & _ & _ & Hn). specialize (Hn Hpos). lia.
Qed.

Lemma serve_runs rs env s : inv rs s → dl_degraded s = false → Forall addressable rs →
  ∃ s' c, serve crc32c exp config env s = (s', Ok c) ∧ c ≠ Stop ∧ inv rs s' ∧
    (positive_limits → Forall (λ r, prompt_tokens r ≠ []) rs → ¬ drained s →
     (dl_active s = ∅ → can_admit config env (ev_others env 11 (dl_registry s)) = true) → work s' < work s).
Proof using codec sizes.
  intros Hi Hdeg Hadr. unfold serve, sbind. destruct (admit_runs rs env s Hi Hdeg) as (s1 & -> & Hi1 & Hdeg1 & Hact & Hw & Hadm).
  case_bool_decide as He.
  { exists s1, Skip. split_and!; [done | done | done |]. intros _ _ Hnd Hopen.
    assert (dl_active s = ∅) as Hs by (destruct (decide (dl_active s = ∅)); [done |]; by destruct Hact).
    apply Hadm; [| by apply Hopen]. intros Hp. by destruct Hnd. }
  destruct (build_batch_total config env (dl_active s1)) as [b Eb]; [by eapply inv_ready |]. rewrite Eb.
  destruct (build_batch_spec config env (dl_active s1) b) as (items & -> & Hb); [by eapply inv_keyed | done |].
  destruct (batch_of_fields config items (bi_ok _ _ _ Hb)) as (Hseqs & _).
  case_bool_decide as Hnil.
  - exists s1, Skip. split_and!; [done | done | done |]. intros (Hl1 & Hl2 & _) Hne _ _. exfalso.
    eapply (build_batch_nonempty config env (dl_active s1)); [done | | | exact Eb | done].
    + apply batch_full_false. done.
    + intros k seq Hk Hd. by eapply inv_remaining.
  - destruct (run_batch_spec crc32c exp config strict rs env items s1 Hi1 Hb) as (s' & c & E & Hc & Hi' & _).
    { intros. by apply (batched_forward_total crc32c codec). }
    exists s', c. split_and!; [done | done | done |]. intros (_ & _ & Hl3) _ _ _.
    destruct (run_batch_work rs env items s1 Hi1 Hb Hl3) as (s2 & c2 & E2 & _ & _ & Hw2); [intros ->; by rewrite Hseqs in Hnil |].
    rewrite E in E2. simplify_eq. lia.
Qed.

Lemma intake_runs rs env s : inv rs s → env_ok strict env → distinct (rs ++ ev_requests env) →
  ∃ s' c, intake env s = (s', Ok c) ∧ inv (rs ++ ev_requests env) s' ∧ (c = Go ∨ c = Stop ∧ drained s') ∧
    dl_active s' = dl_active s ∧ dl_pending s' = dl_pending s ++ ev_requests env.
Proof.
  intros Hi Henv Hd. unfold intake.
  set (s1 := match ev_pipeline env with Some p => take_pipeline p s | None => s end).
  assert (inv rs s1 ∧ dl_active s1 = dl_active s ∧ dl_pending s1 = dl_pending s) as (Hi1 & Ha1 & Hp1).
  { unfold s1. destruct (ev_pipeline env) as [p|] eqn:Ep; [| done]. destruct (env_pipeline _ _ Henv p Ep) as [Hp Hst].
    split; [| done]. apply inv_take; [done | done | congruence]. }
  set (s2 := set_pending (dl_pending s1 ++ ev_requests env) s1).
  assert (inv (rs ++ ev_requests env) s2) as Hi2.
  { destruct Hi1 as [_ Hcl Ha Hs]. split; [done | by apply clients_receive | done | done]. }
  assert (dl_active s2 = dl_active s ∧ dl_pending s2 = dl_pending s ++ ev_requests env) as [Ha2 Hp2] by (cbn; by rewrite Hp1).
  destruct (_ && _) eqn:Hb; [| exists s2, Go; by auto].
  exists s2, Stop. split_and!; [done | done | | done | done]. right.
  apply andb_true_iff in Hb as [[_ ?%bool_decide_eq_true]%andb_true_iff ?%bool_decide_eq_true]. done.
Qed.

Lemma prologue_runs rs env s : inv rs s → env_ok strict env → memory_ok (dl_registry s) → distinct (rs ++ ev_requests env) →
  ∃ s' c, prologue env s = (s', Ok c) ∧ inv (rs ++ ev_requests env) s' ∧ (c = Go ∨ c = Stop ∧ drained s') ∧
    (ev_requests env = [] → work s' ≤ work s).
Proof using codec sizes.
  intros Hi Henv Hm Hd. destruct (intake_runs rs env s Hi Henv Hd) as (s1 & c & E & Hi1 & Hc & Ha & Hp).
  pose proof (intake_keeps env s Hm) as Hm1. rewrite E in Hm1. cbn [fst] in Hm1. pose proof (env_keeps_memory _ _ Henv) as Hmem.
  assert (ev_requests env = [] → work s1 ≤ work s) as Hw by (intros Hr; apply shrinks_work, shrinks_same; [done | by rewrite Hp, Hr, app_nil_r]).
  unfold prologue, then_go, sbind. rewrite E. destruct Hc as [->|[-> Hdr]]; [| exists s1, Stop; by split_and!; [| | right |]].
  cbn match. destruct (heartbeat_runs env s1 Hmem Hm1) as (s2 & E2 & Hs2). pose proof (heartbeat_keeps crc32c config env Hmem s1 Hm1) as Hm2. rewrite E2 in Hm2 |- *.
  destruct (membership_runs env s2 Hmem Hm2) as (s3 & E3 & Hs3). rewrite E3.
  exists s3, Go. split_and!; [done | | by left |].
  - eapply (membership_inv crc32c config); [| exact E3]. eapply (heartbeat_inv crc32c config); [| exact E2]. done.
  - intros Hr. apply shrinks_work in Hs2, Hs3. specialize (Hw Hr). lia.
Qed.

Lemma receive_inv rs s r : inv rs s → distinct (rs ++ [r]) → inv (rs ++ [r]) (set_pending (dl_pending s ++ [r]) s).
Proof. intros [_ Hcl Ha Hs] Hd. split; [done | by apply clients_receive | done | done]. Qed.

Lemma epilogue_runs rs env s : inv rs s → env_ok strict env → distinct (rs ++ woken env s) → Forall addressable (rs ++ woken env s) →
  ∃ s' c, epilogue env s = (s', Ok c) ∧ inv (rs ++ woken env s) s' ∧ (c = Stop → drained s') ∧
    (strict = true → woken env s = [] → positive_limits → Forall (λ r, prompt_tokens r ≠ []) rs →
     (dl_active s = ∅ → can_admit config env (ev_others env 11 (dl_registry s)) = true) → drained s' ∨ work s' < work s).
Proof using codec sizes.
  intros Hi Henv Hd Hadr. unfold epilogue, then_go, sbind, wait_degraded, woken in *. destruct (dl_degraded s) eqn:Hdeg.
  - set (s1 := reject_pending _ s). assert (inv rs s1) as Hi1 by (by apply inv_reject).
    destruct (reject_pending_fields "pipeline degraded: waiting for reconfiguration" s) as (Hp1 & Ha1 & _). fold s1 in Hp1, Ha1.
    clearbody s1. rewrite Ha1. case_bool_decide as He; [destruct (ev_degraded_wake env) as [p|[r|]] eqn:Ew |].
    + exists (take_pipeline p s1), Skip. rewrite app_nil_r in *. split_and!; [done | | done | intros; left; split; cbn; congruence].
      apply inv_take; [done | by eapply env_degraded | by rewrite Ha1].
    + eexists _, Skip. split_and!; [done | by apply receive_inv | done | done].
    + exists s1, Stop. rewrite app_nil_r in *. split_and!; [done | done | intros; split; congruence | intros; left; split; congruence].
    + exists s1, Skip. rewrite app_nil_r in *. split_and!; [done | done | done |]. intros Hst. destruct (inv_strict _ _ _ _ Hi Hst) as [_ Hn]. by destruct He; apply Hn.
  - unfold wait_idle. destruct (bool_decide (dl_pending s = []) && _) eqn:Hb.
    + apply andb_true_iff in Hb as [Hp%bool_decide_eq_true Ha%bool_decide_eq_true]. destruct (ev_wake env) as [[r|]| |p] eqn:Ew.
      * destruct (serve_runs (rs ++ [r]) env (set_pending (dl_pending s ++ [r]) s)) as (s' & c & E & Hc & Hi' & _); [by apply receive_inv | done | done |].
        exists s', c. by split_and!.
      * exists s, Stop. rewrite app_nil_r in *. split_and!; [done | done | done | by intros; left].
      * exists s, Skip. rewrite app_nil_r in *. split_and!; [done | done | done | by intros; left].
      * exists (take_pipeline p s), Skip. rewrite app_nil_r in *. split_and!; [done | | done | by intros; left]. apply inv_take; [done | by eapply env_wake | done].
    + rewrite app_nil_r in *. destruct (serve_runs rs env s Hi Hdeg Hadr) as (s' & c & E & Hc & Hi' & Hw). exists s', c.
      split_and!; [done | done | done |]. intros _ _ Hpos Hne Hopen. right. apply Hw; [done | done | | done].
      intros [Hp Ha]. by rewrite Hp, Ha in Hb.
Qed.

(** An iteration returns, keeps the invariant, and stops only when nothing is left. *)
Lemma iteration_runs rs env s : inv rs s → env_ok strict env → memory_ok (dl_registry s) → distinct (rs ++ received env s) → Forall addressable (rs ++ received env s) →
  ∃ s' c, dist_iteration crc32c exp config env s = (s', Ok c) ∧ inv (rs ++ received env s) s' ∧ (c = Stop → drained s') ∧
    (strict = true → received env s = [] → positive_limits → Forall (λ r, prompt_tokens r ≠ []) rs → admission_open env s →
     drained s' ∨ work s' < work s).
Proof using codec sizes.
  intros Hi Henv Hm. rewrite iteration_split. unfold received, admission_open. intros Hd Hadr.
  destruct (prologue_runs rs env s Hi Henv Hm) as (s1 & c & E & Hi1 & Hc & Hw).
  { destruct Hd as [Hd1 Hd2]. rewrite app_assoc, fmap_app in Hd1, Hd2. apply NoDup_app in Hd1 as (? & _), Hd2 as (? & _). done. }
  unfold then_go, sbind. rewrite E in *. destruct Hc as [->|[-> Hdr]].
  - rewrite app_assoc in *. destruct (epilogue_runs (rs ++ ev_requests env) env s1 Hi1 Henv Hd Hadr) as (s2 & c2 & E2 & Hi2 & Hstop & Hprog).
    exists s2, c2. split_and!; [done | done | done |]. intros Hst [Hr Hwk]%app_eq_nil Hpos Hne Hopen. rewrite Hr, app_nil_r in Hprog.
    specialize (Hw Hr). destruct (Hprog Hst Hwk Hpos Hne Hopen) as [?|?]; [by left | right; lia].
  - exists s1, Stop. rewrite app_nil_r in *. split_and!; [done | done | done | by intros; left].
Qed.
End spec.

(** ** Runs *)

Fixpoint dist_run (envs : list LoopEnv) : st DistLoop ctl :=
  match envs with
  | [] => sret Go
  | env :: envs' => do! c := dist_iteration crc32c exp config env in match c with Stop => sret Stop | _ => dist_run envs' end
  end.

(** The requests a run takes, and whether admission is open throughout. *)
Fixpoint received_all (envs : list LoopEnv) (s : DistLoop) : list PendingRequest :=
  match envs with
  | [] => []
  | env :: envs' =>
      received env s ++ match dist_iteration crc32c exp config env s with (_, Ok Stop) => [] | (s', _) => received_all envs' s' end
  end.
Fixpoint open_run (envs : list LoopEnv) (s : DistLoop) : Prop :=
  match envs with
  | [] => True
  | env :: envs' => admission_open env s ∧ open_run envs' (dist_iteration crc32c exp config env s).1
  end.

Lemma run_inv strict envs rs s :
  loop_inv strict [] rs s → memory_ok (dl_registry s) → Forall (env_ok strict) envs →
  distinct (rs ++ received_all envs s) → Forall addressable (rs ++ received_all envs s) →
  ∃ s' c, dist_run envs s = (s', Ok c) ∧ loop_inv strict [] (rs ++ received_all envs s) s' ∧ memory_ok (dl_registry s').
Proof using codec sizes.
  intros Hi Hm Henvs. revert rs s Hi Hm. induction Henvs as [|env envs Henv _ IH]; intros rs s Hi Hm Hd Hadr; cbn [dist_run received_all] in *.
  { exists s, Go. by rewrite app_nil_r. }
  rewrite app_assoc in Hd, Hadr |- *. assert (distinct (rs ++ received env s)) as Hd1.
  { destruct Hd as [Hd1 Hd2]. rewrite fmap_app in Hd1, Hd2. apply NoDup_app in Hd1 as (? & _), Hd2 as (? & _). done. }
  destruct (iteration_runs strict rs env s Hi Henv Hm Hd1) as (s1 & c & E & Hi1 & _); [by apply Forall_app in Hadr as [? _] |].
  pose proof (iteration_keeps crc32c exp config env (env_keeps_memory _ _ Henv) s Hm) as Hm1.
  unfold sbind. rewrite E in *. cbn [fst] in Hm1. destruct c.
  1,2: destruct (IH _ _ Hi1 Hm1 Hd Hadr) as (s2 & c2 & E2 & Hi2 & Hm2); by exists s2, c2.
  exists s1, Stop. by rewrite app_nil_r.
Qed.

Lemma run_drains envs rs s :
  loop_inv true [] rs s → memory_ok (dl_registry s) → Forall (env_ok true) envs → Forall addressable rs → received_all envs s = [] → open_run envs s →
  positive_limits → Forall (λ r, prompt_tokens r ≠ []) rs → work s ≤ length envs →
  ∃ s' c, dist_run envs s = (s', Ok c) ∧ loop_inv true [] rs s' ∧ drained s'.
Proof using codec sizes.
  intros Hi Hm Henvs Hadr Hrec Hopen Hpos Hne. revert s Hi Hm Hrec Hopen. induction Henvs as [|env envs Henv _ IH]; intros s Hi Hm Hrec Hopen Hw;
    cbn [dist_run received_all open_run length] in *.
  { exists s, Go. split_and!; [done | done |]. eapply work_zero; [done | lia]. }
  apply app_eq_nil in Hrec as [Hrec Hrest]. destruct Hopen as [Hopen Hopens].
  pose proof (iteration_keeps crc32c exp config env (env_keeps_memory _ _ Henv) s Hm) as Hm1.
  pose proof (iteration_runs true rs env s Hi Henv Hm) as Hit. rewrite Hrec, app_nil_r in Hit.
  destruct Hit as (s1 & c & E & Hi1 & Hstop & Hprog); [apply Hi | done |]. unfold sbind. rewrite E in *. cbn [fst] in Hopens, Hm1.
  destruct (Hprog eq_refl eq_refl Hpos Hne Hopen) as [Hdr|Hlt].
  - assert (work s1 = 0) as Hw0 by (destruct Hdr as [Hp Ha]; unfold work; by rewrite Hp, Ha).
    destruct c; [destruct (IH s1 Hi1 Hm1 Hrest Hopens) as (s2 & c2 & ?); [lia | by exists s2, c2].. | by exists s1, Stop].
  - destruct c; [destruct (IH s1 Hi1 Hm1 Hrest Hopens) as (s2 & c2 & ?); [lia | by exists s2, c2].. |].
    exists s1, Stop. split_and!; [done | done | by apply Hstop].
Qed.

(** The states of the loop, with the requests received so far. *)
Definition reachable (strict : bool) (rs : list PendingRequest) (s : DistLoop) : Prop :=
  ∃ p reg now envs c, allocated_seqs p = ∅ ∧ memory_ok reg ∧ Forall (env_ok strict) envs ∧ dist_run envs (dl_start p reg now) = (s, Ok c) ∧
    rs = received_all envs (dl_start p reg now) ∧ distinct rs ∧ Forall addressable rs.

Lemma reachable_inv strict rs s : reachable strict rs s → loop_inv strict [] rs s ∧ memory_ok (dl_registry s).
Proof using codec sizes.
  intros (p & reg & now & envs & c & Hp & Hm & Henvs & E & -> & Hd & Hadr).
  destruct (run_inv strict envs [] (dl_start p reg now) (dl_start_inv strict p reg now Hp) Hm Henvs Hd Hadr) as (s' & c' & E' & Hi & Hm').
  rewrite E in E'. simplify_eq. done.
Qed.
End iteration.

(** ** What a batch feeds *)

(** Positions of the sequence fit the [u32] of the wire. *)
Definition u32_sized (r : PendingRequest) : Prop := (Z.of_nat (length (prompt_tokens r) + req_max_tokens r) < 2 ^ 32)%Z.

Lemma item_feeds config r seq n : same_request r seq → phase r seq → u32_sized r → item_ok config (seq, n) →
  item_tokens (seq, n) = take n (drop (fed seq) (prompt_tokens r ++ ds_generated_tokens seq)) ∧
  fed seq + n ≤ length (prompt_tokens r ++ ds_generated_tokens seq) ∧
  item_positions (seq, n) = seqZ (Z.of_nat (fed seq)) (Z.of_nat n).
Proof.
  unfold u32_sized, item_ok, item_tokens, item_positions, fed. cbn [fst snd].
  intros Hr [Hd Hg Hpos [pre Hpre] _|Hd Hrm Hne Hpos Hlt] Hsz Hok; rewrite Hd in *.
  - destruct Hok as (_ & Hle & _). rewrite Hg, app_nil_r, Hpos, Hpre, length_app. rewrite Hpre, length_app in Hsz.
    replace (length pre + length (ds_remaining_prefill seq) - length (ds_remaining_prefill seq)) with (length pre) by lia.
    rewrite drop_app_length. split_and!; [done | lia |]. unfold u32_range. rewrite !wrap_small by (unfold in_width; lia). f_equal. lia.
  - subst n. destruct (exists_last Hne) as (g & t & Hg). rewrite Hg in *. rewrite last_snoc. rewrite length_app in Hpos, Hlt. simpl in Hpos, Hlt.
    rewrite !length_app. replace (ds_current_pos seq) with (length (prompt_tokens r) + length g) by lia. split_and!.
    + by rewrite drop_app_add, drop_app_length.
    + simpl. lia.
    + rewrite wrap_small by (unfold in_width; lia). done.
Qed.

Section claims.
Variable crc32c : list Z → Z.
Variable exp : f32 → f32.
Context `{Bincode ForwardPayload} `{Bincode ForwardResultPayload} `{Bincode BatchedForwardPayload} `{Bincode BatchedForwardResultPayload}
  `{Bincode ErrorPayload} `{Bincode RegisterAckPayload} `{Bincode HeartbeatPayload} `{Bincode HeartbeatAck}.
Variable config : DistributedLoopConfig.
Hypothesis codec : codec_total.
Hypothesis sizes : ∀ c, dc_model_config config = Some c → sizes_fit c (dc_scheduling_mode config) (dc_max_seq_len config).


(** C10: the batches of the distributed loop.  In any state that satisfies the
    loop's invariant and is not degraded, for requests whose prompt and
    [max_tokens] together stay below 2^32, and with a codec that returns errors
    instead of panicking ([codec_total]), admission and the construction of the
    batch succeed; the batch holds at most [max_batch_size] sequences and
    [max_batch_tokens] tokens, and no sequence twice.  Each sequence is fed
    exactly the next tokens of its prompt followed by its generated tokens, at
    consecutive positions starting where its caches end; and when the batch has
    run, the sequence has advanced by the tokens it was fed, or has left. *)
Theorem distributed_batch_spec strict rs s env :
  loop_inv strict [] rs s → dl_degraded s = false → Forall u32_sized rs →
  ∃ s1 items, admit_one crc32c config env s = (s1, Ok ()) ∧ build_batch config env (dl_active s1) = Ok (batch_of items) ∧
    length items ≤ dc_max_batch_size config ∧ length (ba_tokens (batch_of items)) ≤ dc_max_batch_tokens config ∧
    NoDup (smw_seq_id <$> ba_metas (batch_of items)) ∧
    ba_tokens (batch_of items) = mjoin (item_tokens <$> items) ∧
    Forall2 (λ it meta, ∃ r, r ∈ rs ∧ dl_active s1 !! req_seq_id r = Some it.1 ∧
        let text := prompt_tokens r ++ ds_generated_tokens it.1 in
        item_tokens it = take it.2 (drop (fed it.1) text) ∧ fed it.1 + it.2 ≤ length text ∧
        meta = {| smw_seq_id := req_seq_id r; num_tokens := Z.of_nat it.2; smw_positions := seqZ (Z.of_nat (fed it.1)) (Z.of_nat it.2);
                  block_table := []; cache_seq_len := 0; last_block_tokens := 0 |}) items (ba_metas (batch_of items)) ∧
    ∃ s' c, run_batch crc32c exp env (batch_of items) s1 = (s', Ok c) ∧
      (∀ it, it ∈ items → dl_active s' !! ds_seq_id it.1 = None ∨ ∃ seq', dl_active s' !! ds_seq_id it.1 = Some seq' ∧ fed seq' = fed it.1 + it.2).
Proof using codec.
  clear sizes.
  intros Hi Hdeg Hsz. destruct (admit_runs crc32c config codec strict rs env s Hi Hdeg) as (s1 & E1 & Hi1 & _). exists s1.
  assert (Forall addressable rs) as Hadr.
  { eapply Forall_impl; [exact Hsz |]. intros r. unfold u32_sized, addressable. lia. }
  destruct (build_batch_total config env (dl_active s1)) as [b Eb]; [by eapply inv_ready |].
  destruct (build_batch_spec config env (dl_active s1) b) as (items & -> & Hb); [by eapply inv_keyed | done |]. exists items.
  pose proof Hb as [Hok Hact Hnd [Hw1 Hw2]]. destruct (batch_of_fields config items Hok) as (Hseqs & Htoks & Hmetas & Htot).
  destruct (run_batch_spec crc32c exp config strict rs env items s1 Hi1 Hb) as (s' & c & E & _ & _ & _ & _ & _ & Hits).
  { intros. by apply (batched_forward_total crc32c codec). }
  split_and!; [done | done | | | | done | |].
  - by rewrite Hseqs, length_fmap in Hw1.
  - rewrite Htoks. etrans; [| apply Hw2]. rewrite Htot. clear -Hok.
    induction Hok as [|it items Hit _ IH]; [done |]. csimpl. rewrite length_app, (item_tokens_length config _ Hit). lia.
  - rewrite Hmetas, <- list_fmap_compose. done.
  - rewrite Hmetas. apply Forall2_fmap_r, Forall_Forall2_diag, Forall_forall. intros [seq n] Hin. rewrite Forall_forall in Hok, Hact.
    specialize (Hok _ Hin). specialize (Hact _ Hin). cbn [fst snd] in *.
    destruct (inv_phase strict rs [] s1 _ _ Hi1 Hact) as (r & Hr & Hid & Hs & Hph); [set_solver |].
    rewrite Forall_forall in Hsz. destruct (item_feeds config r seq n Hs Hph (Hsz r Hr) Hok) as (Ht & Hle & Hp).
    exists r. rewrite Hid, Hp. by split_and!.
  - exists s', c. split; [done |]. intros it Hit. destruct (Hits it Hit) as [?|(seq' & ? & ? & _)]; [by left | right; by exists seq'].
Qed.

Lemma drains_closed rs s envs :
  reachable crc32c exp config true rs s → Forall (env_ok true) envs →
  received_all crc32c exp config envs s = [] → open_run crc32c exp config envs s →
  positive_limits config → Forall (λ r, prompt_tokens r ≠ []) rs → work s ≤ length envs →
  ∃ s' c, dist_run crc32c exp config envs s = (s', Ok c) ∧ dl_pending s' = [] ∧ dl_active s' = ∅ ∧
    allocated_seqs (dl_pipeline s') = ∅ ∧ ∀ r, r ∈ rs → closed r (client_log (req_event_tx r) (dl_sent s')).
Proof using codec sizes.
  intros Hr Henvs Hrec Hopen Hpos Hne Hw. destruct (reachable_inv crc32c exp config codec sizes true rs s Hr) as [Hi Hm].
  assert (Forall addressable rs) as Hadr by (by destruct Hr as (? & ? & ? & ? & ? & _ & _ & _ & _ & _ & _ & ?)).
  destruct (run_drains crc32c exp config codec sizes envs rs s Hi Hm Henvs Hadr Hrec Hopen Hpos Hne Hw) as (s' & c & E & [_ Hcl _ Hs] & [Hp Ha]).
  exists s', c. destruct (Hs eq_refl) as [Heq _]. split_and!; [done | done | done | by rewrite Heq, Ha, dom_empty_L |].
  intros r Hin. rewrite Hp, Ha in Hcl. destruct (cl_each _ _ _ _ _ Hcl r Hin) as [Hw' _ _ _|seq _ Hseq|seq _ Hseq|]; [set_solver | | |done];
    by rewrite lookup_empty in Hseq.
Qed.

(** C9: the distributed loop finishes what it holds.  From a state the loop
    has reached without pipelines swapped in from outside, a run that takes no
    further requests ends with nothing waiting and nothing active, and every
    client that ever sent a request has been told the end, after at most [work]
    iterations: whatever the workers answer, whichever of them die, and however
    the maps are iterated.  The limits must be positive, the prompts non-empty,
    and the workers must report room whenever nothing is active ([open_run]);
    each worker answers or hangs up (a read always ends); the codec returns
    errors instead of panicking ([codec_total]); where the loop can rebalance,
    the model's bytes fit a [usize] ([sizes_fit]); and the memory the
    registered workers report adds up to less than 2^64 at the start and the
    other tasks keep it so ([reachable], [env_ok]). *)
Theorem distributed_loop_drains rs s envs :
  reachable crc32c exp config true rs s → Forall (env_ok true) envs →
  received_all crc32c exp config envs s = [] → open_run crc32c exp config envs s →
  positive_limits config → Forall (λ r, prompt_tokens r ≠ []) rs → work s ≤ length envs →
  ∃ s' c, dist_run crc32c exp config envs s = (s', Ok c) ∧ dl_pending s' = [] ∧ dl_active s' = ∅ ∧
    allocated_seqs (dl_pipeline s') = ∅ ∧ ∀ r, r ∈ rs → closed r (client_log (req_event_tx r) (dl_sent s')).
Proof using codec sizes. apply drains_closed. Qed.
End claims.

(** ** A loop with one worker *)

Module DistLoopExample.
Import PipelineExample RebalanceExample.
#[export] Instance heartbeat_codec : Bincode HeartbeatPayload :=
  {| serialize := λ h, Ok [hb_timestamp_ns h; hb_nonce h]; deserialize := λ _, Err (Protocol "unused") |}.
#[export] Instance heartbeat_ack_codec : Bincode HeartbeatAck :=
  {| serialize := λ _, Err (Protocol "unused"); deserialize := λ _, Err (Protocol "unused") |}.

Lemma codec_ok : codec_total.
Proof. split; try done. intros [|[|[|[]|]|] bs]; done. Qed.

(** Batches of at most four sequences, prefills in chunks of two tokens. *)
Definition cfg : DistributedLoopConfig :=
  {| dc_max_batch_size := 4; dc_max_batch_tokens := 8; dc_max_prefill_tokens := 2; dc_min_free_blocks_reserve := 4;
     dc_heartbeat_interval := 5000; dc_heartbeat_max_missed := 3; dc_model_config := Some LayerExample.cfg; dc_scheduling_mode := Auto; dc_max_seq_len := 64 |}.

Definition env (reqs : list PendingRequest) (swap : option DistributedPipeline) : LoopEnv :=
  {| ev_pipeline := swap; ev_requests := reqs; ev_disconnected := false; ev_now := 0; ev_later := 0; ev_timed_out := λ _, false;
     ev_polls := in_order; ev_allocs := in_order; ev_order := λ _, hash_order_id; ev_others := λ _ reg, reg; ev_timestamp := 0; ev_nonce := 1;
     ev_wake := WakeTimer; ev_degraded_wake := inr None; ev_random := λ _ _, f32_zero |}.

(** A prompt of three tokens and two tokens to generate, greedily. *)
Definition req (prompt : list Z) : PendingRequest :=
  {| req_seq_id := 7; prompt_tokens := prompt; req_max_tokens := 2; req_temperature := f32_zero; req_top_k := 0; req_top_p := f32_one; req_seed := None;
     req_stop_tokens := [9%Z]; req_event_tx := 5 |}.

(** What the worker answers: the allocation, then logits [1.0; 0.0] each time. *)
Definition logits : list Z := [0; 0; 128; 63; 0; 0; 0; 0]%Z.
Definition answers (ls : list (list Z)) : list Z := frames_of PipelineExample.crc ((CacheAllocAck, 7%Z, []) :: ((λ l, (ForwardResult, 7%Z, 1%Z :: l)) <$> ls)).
Definition registry (ls : list (list Z)) : PeerRegistry := {["w" := worker "w" (answers ls)]}.
Definition pipe1 : DistributedPipeline := {| order := ["w"]; DistPipeline.hidden_size := 4; total_layers := 8; allocated_seqs := ∅ |}.
Definition start (ls : list (list Z)) : DistLoop := dl_start pipe1 (registry ls) 0.
Definition noexp : f32 → f32 := λ x, x.
Definition run (envs : list LoopEnv) (s : DistLoop) : DistLoop * result ctl := dist_run PipelineExample.crc noexp cfg envs s.
Definition first : DistLoop := (run [env [req [1; 2; 3]%Z] None] (start [logits; logits; logits])).1.

Lemma env_strict reqs : env_ok true (env reqs None).
Proof. split; [done.. | by intros k reg]. Qed.
Lemma sizes c : dc_model_config cfg = Some c → sizes_fit c (dc_scheduling_mode cfg) (dc_max_seq_len cfg).
Proof.
  intros [= <-]. split; [by vm_compute | | done]. eexists _, _, _, _. do 4 (split; [vm_compute; reflexivity |]). by vm_compute.
Qed.
Lemma registry_memory ls : memory_ok (registry ls).
Proof. unfold memory_ok, registry. rewrite map_fmap_singleton, map_to_list_singleton. split; [by repeat constructor | by vm_compute]. Qed.
Lemma req_distinct : distinct [req [1; 2; 3]%Z].
Proof. split; apply NoDup_singleton. Qed.
Lemma req_addressable : Forall addressable [req [1; 2; 3]%Z].
Proof. by apply Forall_singleton. Qed.

Lemma first_received : received_all PipelineExample.crc noexp cfg [env [req [1; 2; 3]%Z] None] (start [logits; logits; logits]) = [req [1; 2; 3]%Z].
Proof. vm_compute. reflexivity. Qed.

Lemma first_reachable : reachable PipelineExample.crc noexp cfg true [req [1; 2; 3]%Z] first.
Proof.
  exists pipe1, (registry [logits; logits; logits]), 0%Z, [env [req [1; 2; 3]%Z] None], Go.
  split_and!; [done | apply registry_memory | apply Forall_singleton, env_strict | | symmetry; apply first_received | apply req_distinct | apply req_addressable].
  vm_compute. reflexivity.
Qed.
End DistLoopExample.
Import DistLoopExample.

(** A sequence whose prompt is empty is never put into a batch, so it is never
    answered and never leaves. *)
Theorem empty_prompt_stuck config env r : prompt_tokens r = [] →
  build_batch config env {[req_seq_id r := new_sequence r]} = Ok batch_new.
Proof.
  intros Hr. unfold build_batch, hm_values, hm_iter. rewrite !map_to_list_singleton.
  assert (∀ ho (x : Z * DistributedSequence), hash_order ho _ [x] = [x]) as Hone by (intros; apply Permutation_singleton_r, hash_order_perm).
  rewrite !Hone. cbn. by rewrite Hr.
Qed.

(** When sampling fails, the client is sent an error and then a [Finished]. *)
Theorem sampling_failure_finishes :
  dl_sent (run [env [req [1; 2]%Z] None] (start [[0; 0; 128; 127]%Z])).1 = [(5%Z, EventError "sampling failed"); (5%Z, Finished Length 0)].
Proof. vm_compute. reflexivity. Qed.

(** A pipeline that arrives while sequences are active does not know their
    caches: the next batch fails, although the workers hold them. *)
Theorem swapped_pipeline_fails_active :
  dl_sent (run [env [req [1; 2; 3]%Z] None; env [] (Some pipe1)] (start [logits; logits; logits])).1 = [(5%Z, EventError "forward pass failed")].
Proof. vm_compute. reflexivity. Qed.

Module DistLoopWitness.
Import PipelineExample RebalanceExample.

Lemma distributed_batch_witness : ∃ s1 items, admit_one PipelineExample.crc cfg (env [] None) first = (s1, Ok ()) ∧
  build_batch cfg (env [] None) (dl_active s1) = Ok (batch_of items) ∧ length items ≤ 4.
Proof.
  destruct (distributed_batch_spec PipelineExample.crc noexp cfg codec_ok true [req [1; 2; 3]%Z] first (env [] None))
    as (s1 & items & E1 & E2 & Hlen & _).
  - apply (reachable_inv PipelineExample.crc noexp cfg codec_ok sizes true [req [1; 2; 3]%Z] first first_reachable).
  - vm_compute. reflexivity.
  - by apply Forall_singleton.
  - by exists s1, items.
Defined.

Lemma distributed_loop_drains_witness : ∃ s' c, run (replicate 6 (env [] None)) first = (s', Ok c) ∧
  closed (req [1; 2; 3]%Z) (client_log 5 (dl_sent s')).
Proof.
  destruct (distributed_loop_drains PipelineExample.crc noexp cfg codec_ok sizes [req [1; 2; 3]%Z] first (replicate 6 (env [] None)))
    as (s' & c & E & _ & _ & _ & Hcl).
  - apply first_reachable.
  - apply Forall_replicate, env_strict.
  - vm_compute. reflexivity.
  - repeat (split; [vm_compute; done |]). exact I.
  - vm_compute. lia.
  - by apply Forall_singleton.
  - vm_compute. lia.
  - exists s', c. split; [done |]. apply (Hcl (req [1; 2; 3]%Z)), list_elem_of_singleton. reflexivity.
Defined.
End DistLoopWitness.
