(* ===== verification/Dashboard.v ===== *)
(** * The dashboard's request log and metrics
      ([crates/fracture-server/src/dashboard/{dto,request_log,metrics,routes}.rs])

    A bounded log of finished requests, read in pages, and the counters and
    averages behind the metrics stream.  Both are behind a [std::sync::Mutex]
    that is taken with [lock().unwrap()].  [Instant]s are nanoseconds on the
    monotonic clock and arguments of the operations that read it. *)

From S2P Require Import Prelude F32 LayerScheduler SchedulerLoop.
From stdpp Require Import pretty.

Local Open Scope Z_scope.

(** ** The request log *)

Record RequestRecord := {
  rec_id : string;
  request_type : string;
  rec_status : string;
  rec_prompt_tokens : Z;
  completion_tokens : Z;
  rec_total_tokens : Z;
  time_to_first_token_ms : f64;
  total_duration_ms : f64;
  tokens_per_second : f64;
  finish_reason : string;
  rec_temperature : f32;
  created_at : string
}.

Record RequestsResponse := { requests : list RequestRecord; total : Z; rsp_page : Z; rsp_per_page : Z }.

Definition MAX_RECORDS : Z := 1000.

Notation RequestLog := (Mutex (list RequestRecord)).

Definition request_log_new : RequestLog := mutex_new [].

(** [push]: the newest record is at the front. *)
Definition push (record : RequestRecord) : st RequestLog unit := with_lock (λ log,
  let log := if MAX_RECORDS <=? Z.of_nat (length log) then removelast log else log in
  (record :: log, Ok ())).

(** [page] *)
Definition page (pg per_page : Z) : st RequestLog RequestsResponse := with_lock (λ log,
  let pg := Z.max pg 1 in
  let per_page := Z.min (Z.max per_page 1) 100 in
  (log, let? p := usub pg 1 in
        let? start := umul p per_page in
        Ok {| requests := take (Z.to_nat per_page) (drop (Z.to_nat start) log); total := Z.of_nat (length log);
              rsp_page := pg; rsp_per_page := per_page |})).

(** [requests_handler] *)
Definition requests_handler (pg per_page : option Z) : st RequestLog RequestsResponse := page (default 1 pg) (default 50 per_page).

(** ** Metrics *)

Record MetricsInner := {
  token_window : list (Z * Z);
  ema_ttft_ms : f64;
  ema_itl_ms : f64;
  active_requests : Z;
  alpha : f64;
  window_secs : f64
}.

Notation MetricsCollector := (Mutex MetricsInner).

Definition f64_zero : f64 := f64_of_Z 0.

Definition metrics_new : MetricsCollector := mutex_new
  {| token_window := []; ema_ttft_ms := f64_zero; ema_itl_ms := f64_zero; active_requests := 0; alpha := f64_lit 3 1; window_secs := f64_of_Z 10 |}.

Definition request_started : st MetricsCollector unit := with_lock (λ i,
  match uadd (active_requests i) 1 with
  | Ok n => ({| token_window := token_window i; ema_ttft_ms := ema_ttft_ms i; ema_itl_ms := ema_itl_ms i; active_requests := n; alpha := alpha i;
                window_secs := window_secs i |}, Ok ())
  | _ => (i, Panic)
  end).

(** An exponential moving average whose first value is taken as it is. *)
Definition ema_update (a ema x : f64) : f64 :=
  if feq ema f64_zero then x else f64_add (f64_mul a x) (f64_mul (f64_sub (f64_of_Z 1) a) ema).

Definition record_completion (now : Z) (r : RequestRecord) : st MetricsCollector unit := with_lock (λ i,
  ({| token_window := token_window i ++ [(now, completion_tokens r)];
      ema_ttft_ms := if fgt (time_to_first_token_ms r) f64_zero then ema_update (alpha i) (ema_ttft_ms i) (time_to_first_token_ms r) else ema_ttft_ms i;
      ema_itl_ms :=
        if (1 <? completion_tokens r) && fgt (total_duration_ms r) (time_to_first_token_ms r) then
          let generation_ms := f64_sub (total_duration_ms r) (time_to_first_token_ms r) in
          ema_update (alpha i) (ema_itl_ms i) (f64_div generation_ms (f64_of_Z (completion_tokens r - 1)))
        else ema_itl_ms i;
      active_requests := Z.max 0 (active_requests i - 1);
      alpha := alpha i; window_secs := window_secs i |}, Ok ())).

(** [Duration::from_secs_f64] in nanoseconds, to the nearest with ties to even;
    it panics on a negative number, a NaN, and at [2^64] seconds. *)
Definition from_secs_f64 (x : f64) : result Z :=
  match x with
  | SpecFloat.S754_zero _ => Ok 0
  | SpecFloat.S754_finite false m e =>
      let ns :=
        if 0 <=? e then Z.pos m * 2 ^ e * 10 ^ 9
        else let d := 2 ^ (- e) in
             let n := Z.pos m * 10 ^ 9 in
             let q := n `div` d in
             match 2 * (n `mod` d) ?= d with Lt => q | Gt => q + 1 | Eq => if Z.even q then q else q + 1 end in
      if ns <? 2 ^ 64 * 10 ^ 9 then Ok ns else Panic
  | _ => Panic
  end.

Record MetricsEvent := {
  timestamp : string;
  throughput_tokens_per_sec : f64;
  ev_active_requests : Z;
  avg_time_to_first_token_ms : f64;
  avg_inter_token_latency_ms : f64;
  kv_cache_utilization : f64;
  worker_heartbeats : list Z
}.

(** The fields of [chrono_iso8601_now], and [{:0w}] *)
Definition year (secs : Z) : Z := 1970 + secs `div` 31556952.
Definition month (secs : Z) : Z := (secs `mod` 31556952) `div` 2629746 + 1.
Definition day (secs : Z) : Z := (secs `mod` 2629746) `div` 86400 + 1.
Definition hour (secs : Z) : Z := (secs `mod` 86400) `div` 3600.
Definition minute (secs : Z) : Z := (secs `mod` 3600) `div` 60.
Definition second (secs : Z) : Z := secs `mod` 60.

Fixpoint zeros (n : nat) : string := match n with O => "" | S n' => "0" +:+ zeros n' end.
Definition zero_padded (w : nat) (n : Z) : string := let s := pretty n in zeros (w - String.length s) +:+ s.

Definition chrono_iso8601_now (secs millis : Z) : string :=
  zero_padded 4 (year secs) +:+ "-" +:+ zero_padded 2 (month secs) +:+ "-" +:+ zero_padded 2 (day secs) +:+ "T" +:+
  zero_padded 2 (hour secs) +:+ ":" +:+ zero_padded 2 (minute secs) +:+ ":" +:+ zero_padded 2 (second secs) +:+ "." +:+
  zero_padded 3 millis +:+ "Z".

(** Dropping the entries at the front that are older than [cutoff]. *)
Fixpoint prune_window (cutoff : Z) (w : list (Z * Z)) : list (Z * Z) :=
  match w with
  | (t, n) :: w' => if t <? cutoff then prune_window cutoff w' else w
  | [] => []
  end.

(** [MetricsCollector::snapshot]; [secs] and [millis] are the time of day. *)
Definition metrics_snapshot (now secs millis : Z) (kv : f64) (hb : list Z) : st MetricsCollector MetricsEvent := with_lock (λ i,
  match from_secs_f64 (window_secs i) with
  | Ok window =>
      let w := prune_window (now - window) (token_window i) in
      ({| token_window := w; ema_ttft_ms := ema_ttft_ms i; ema_itl_ms := ema_itl_ms i; active_requests := active_requests i; alpha := alpha i;
          window_secs := window_secs i |},
       let? total_tokens_in_window := usum w.*2 in
       Ok {| timestamp := chrono_iso8601_now secs millis;
             throughput_tokens_per_sec := f64_div (f64_of_Z total_tokens_in_window) (window_secs i);
             ev_active_requests := active_requests i; avg_time_to_first_token_ms := ema_ttft_ms i; avg_inter_token_latency_ms := ema_itl_ms i;
             kv_cache_utilization := kv; worker_heartbeats := hb |})
  | _ => (i, Panic)
  end).

(** ** Cluster and scheduler views *)

Record ModelInfo := { mi_name : string; mi_parameters : string; mi_layers : Z; context_length : Z; mi_dtype : string }.

Record WorkerInfo := {
  wi_id : nat; wi_role : string; wi_address : string; wi_gpu : string; vram_total_mb : Z; vram_used_mb : Z;
  wi_layers : Z * Z; wi_status : string; last_heartbeat_ms : Z; calibration_ms_per_layer : f64
}.

Record ClusterResponse := {
  cl_mode : string; num_workers : nat; cl_workers : list WorkerInfo; scheduling_mode : string; cl_model : ModelInfo
}.

Inductive ClusterProvider :=
  | Standalone (gpu_name : string) (total_mb used_mb : Z) (model : ModelInfo) (total_layers : Z)
  | Live (snapshot : ClusterResponse).

(** [cluster_handler] *)
Definition cluster_handler (cluster : ClusterProvider) : ClusterResponse :=
  match cluster with
  | Standalone gpu_name total_mb used_mb model total_layers =>
      {| cl_mode := "standalone"; num_workers := 1;
         cl_workers := [{| wi_id := 0; wi_role := "standalone"; wi_address := "local"; wi_gpu := gpu_name; vram_total_mb := total_mb;
                           vram_used_mb := used_mb; wi_layers := (0, Z.max 0 (total_layers - 1)); wi_status := "active"; last_heartbeat_ms := 0;
                           calibration_ms_per_layer := f64_zero |}];
         scheduling_mode := "auto"; cl_model := model |}
  | Live snapshot => snapshot
  end.

Record KvCacheInfo := { kvi_block_size : nat; kvi_total_blocks : nat; allocated_blocks : nat; kvi_free_blocks : nat; utilization : f64 }.
Record SequenceInfo := {
  si_id : string; si_state : string; si_tokens_generated : nat; si_max_tokens : nat; prefill_tokens : nat; cache_blocks_held : nat; started_at : string
}.
Record SchedulerResponse := {
  sr_active_sequences : nat; sr_max_sequences : nat; decode_queue : nat; sr_prefill_queue : nat; sr_prefill_chunk_size : nat;
  kv_cache : KvCacheInfo; sr_sequences : list SequenceInfo
}.

Definition usage_ratio (used total : nat) : f64 := f64_div (f64_of_Z (Z.of_nat used)) (f64_of_Z (Z.of_nat total)).

(** [SchedulerSnapshot::to_response] *)
Definition to_response (s : SchedulerSnapshot) : SchedulerResponse :=
  let allocated := (total_blocks s - snap_free_blocks s)%nat in
  {| sr_active_sequences := active_sequences s; sr_max_sequences := max_sequences s; decode_queue := decode_count s;
     sr_prefill_queue := prefill_queue_count s; sr_prefill_chunk_size := prefill_chunk_size s;
     kv_cache := {| kvi_block_size := block_size s; kvi_total_blocks := total_blocks s; allocated_blocks := allocated;
                    kvi_free_blocks := snap_free_blocks s;
                    utilization := if bool_decide (0 < total_blocks s)%nat then usage_ratio allocated (total_blocks s) else f64_zero |};
     sr_sequences := (λ e, {| si_id := "seq-" +:+ pretty (sn_seq_id e); si_state := sn_state e; si_tokens_generated := tokens_generated e;
                              si_max_tokens := sn_max_tokens e; prefill_tokens := sn_remaining_prefill e; cache_blocks_held := 0; started_at := "" |})
                     <$> snap_sequences s |}.

Definition empty_scheduler_response : SchedulerResponse :=
  {| sr_active_sequences := 0; sr_max_sequences := 0; decode_queue := 0; sr_prefill_queue := 0; sr_prefill_chunk_size := 0;
     kv_cache := {| kvi_block_size := 16; kvi_total_blocks := 0; allocated_blocks := 0; kvi_free_blocks := 0; utilization := f64_zero |};
     sr_sequences := [] |}.

(** [scheduler_handler]: no scheduler ([None]), a loop that is gone, or a snapshot. *)
Definition scheduler_handler (scheduler : option (option SchedulerSnapshot)) : SchedulerResponse :=
  match scheduler with
  | Some (Some snap) => to_response snap
  | _ => empty_scheduler_response
  end.

(** One tick of [metrics_stream_handler]. *)
Definition metrics_tick (now secs millis : Z) (scheduler : option (option SchedulerSnapshot)) (cluster : ClusterProvider)
    : st MetricsCollector MetricsEvent :=
  do! kh := slift (match scheduler with
    | Some (Some s) =>
        if bool_decide (0 < total_blocks s)%nat then
          let? used := usub (Z.of_nat (total_blocks s)) (Z.of_nat (snap_free_blocks s)) in
          Ok (usage_ratio (Z.to_nat used) (total_blocks s), [0])
        else Ok (f64_zero, [0])
    | Some None => Ok (f64_zero, [0])
    | None => match cluster with
              | Live c => Ok (f64_zero, last_heartbeat_ms <$> cl_workers c)
              | Standalone _ _ _ _ _ => Ok (f64_zero, [0])
              end
    end) in
  metrics_snapshot now secs millis kh.1 kh.2.

(** ** What the log holds *)

(** The log after requests [rs] finished, in this order. *)
Definition pushed (rs : list RequestRecord) : RequestLog := foldl (λ l r, (push r l).1) request_log_new rs.

(** The page size that is used. *)
Definition clamped (per_page : Z) : Z := Z.min (Z.max per_page 1) 100.

Lemma removelast_take {A : Type} (l : list A) n : (S n ≤ length l)%nat → removelast (take (S n) l) = take n l.
Proof.
  revert l. induction n as [|n IH]; intros [|x l] Hl; simpl in *; try lia; [done |].
  destruct l as [|y l]; [simpl in Hl; lia |]. change (take (S n) (y :: l)) with (y :: take n l) in *. cbn [removelast].
  f_equal. specialize (IH (y :: l)). change (take (S n) (y :: l)) with (y :: take n l) in IH. apply IH. lia.
Qed.

Lemma pushed_eq rs : pushed rs = mutex_new (take (Z.to_nat MAX_RECORDS) (reverse rs)).
Proof.
  induction rs as [|r rs IH] using rev_ind; [done |]. unfold pushed. rewrite foldl_app. fold (pushed rs). rewrite IH. cbn [foldl].
  unfold push. erewrite with_lock_open; [| done | reflexivity]. cbn [fst guarded mutex_new]. unfold mutex_new. f_equal.
  rewrite reverse_snoc. change (Z.to_nat MAX_RECORDS) with (S 999). cbn [take]. f_equal. rewrite length_take.
  match goal with |- context [MAX_RECORDS <=? ?x] => destruct (Z.leb_spec MAX_RECORDS x) as [Hc|Hc] end; unfold MAX_RECORDS in Hc.
  - apply removelast_take. lia.
  - rewrite !take_ge by lia. done.
Qed.

Lemma page_spec pg per rs :
  0 ≤ pg < 2 ^ 64 → (Z.max pg 1 - 1) * clamped per < 2 ^ 64 →
  page pg per (pushed rs) = (pushed rs, Ok {|
    requests := take (Z.to_nat (clamped per)) (drop (Z.to_nat ((Z.max pg 1 - 1) * clamped per)) (guarded (pushed rs)));
    total := Z.of_nat (length (guarded (pushed rs))); rsp_page := Z.max pg 1; rsp_per_page := clamped per |}).
Proof.
  intros Hpg Hov. rewrite pushed_eq. unfold page. set (l := take _ _).
  apply with_lock_open; [done |]. cbn [guarded mutex_new]. fold (clamped per). unfold usub, umul.
  assert (1 ≤ clamped per ≤ 100) by (unfold clamped; lia).
  rewrite checked_Ok by (unfold in_width; lia). cbn [rbind]. rewrite checked_Ok by (unfold in_width; nia). done.
Qed.

(** The records of a page. *)
Definition page_records (pg per : Z) (l : RequestLog) : list RequestRecord :=
  match (page pg per l).2 with Ok r => requests r | _ => [] end.

Lemma take_pages {A : Type} (l : list A) k n :
  mjoin ((λ i, take k (drop (i * k)%nat l)) <$> seq 0 n) = take (n * k) l.
Proof.
  induction n as [|n IH]; [done |]. rewrite seq_S, fmap_app, join_app, IH. csimpl. rewrite app_nil_r.
  rewrite take_take_drop. f_equal. lia.
Qed.

(** The request log.  After any number of requests have finished, the log
    holds the last thousand of them, newest first; a page is the stretch of the
    log its number and size name (a page number of at least one and a size
    between 1 and 100, whatever was asked for) together with the size of the
    log; reading changes nothing; and the first [n] pages, one after the other,
    are the first [n * per_page] records, each once. *)
Theorem request_log_pages rs per n :
  Z.of_nat n * 100 < 2 ^ 64 →
  guarded (pushed rs) = take 1000 (reverse rs) ∧
  (∀ pg, 0 ≤ pg ≤ Z.of_nat n →
     page pg per (pushed rs) = (pushed rs, Ok {|
       requests := take (Z.to_nat (clamped per)) (drop (Z.to_nat ((Z.max pg 1 - 1) * clamped per)) (take 1000 (reverse rs)));
       total := Z.of_nat (Nat.min 1000 (length rs)); rsp_page := Z.max pg 1; rsp_per_page := clamped per |})) ∧
  mjoin ((λ i, page_records (Z.of_nat i + 1) per (pushed rs)) <$> seq 0 n) = take (n * Z.to_nat (clamped per)) (take 1000 (reverse rs)).
Proof.
  intros Hn. assert (1 ≤ clamped per ≤ 100) as Hc by (unfold clamped; lia).
  assert (guarded (pushed rs) = take 1000 (reverse rs)) as Hg by by rewrite pushed_eq. split; [done |]. split.
  - intros pg Hpg. rewrite page_spec by (try nia; lia). rewrite Hg, length_take, length_reverse. done.
  - rewrite <- take_pages, <- Hg. f_equal. apply list_fmap_ext. intros j i Hi. apply lookup_seq in Hi as [-> Hi].
    unfold page_records. rewrite page_spec by (try nia; lia). cbn [snd requests].
    replace (Z.max (Z.of_nat (0 + j) + 1) 1 - 1) with (Z.of_nat j) by lia. by rewrite Z2Nat.inj_mul, Nat2Z.id by lia.
Qed.

(** A page number whose offset does not fit in a [usize] panics with the log
    locked: the mutex is poisoned and no request can be logged any more. *)
Theorem page_overflow_poisons rs r :
  let l := page (2 ^ 64 - 1) 50 (pushed rs) in l.2 = Panic ∧ (push r l.1).2 = Panic.
Proof. rewrite pushed_eq. split; reflexivity. Qed.

(** ** What the metrics say *)

(** The uses of the collector, with the time of each. *)
Inductive MetricsOp := Started (t : Z) | Completed (t : Z) (r : RequestRecord) | Sampled (t : Z).

Definition op_time (op : MetricsOp) : Z := match op with Started t | Completed t _ | Sampled t => t end.
Definition metrics_op (m : MetricsCollector) (op : MetricsOp) : MetricsCollector :=
  match op with
  | Started _ => (request_started m).1
  | Completed t r => (record_completion t r m).1
  | Sampled t => (metrics_snapshot t 0 0 f64_zero [] m).1
  end.
Definition run_metrics (ops : list MetricsOp) : MetricsCollector := foldl metrics_op metrics_new ops.

(** The completions among the uses, and the requests that are not finished. *)
Definition completions (ops : list MetricsOp) : list (Z * RequestRecord) := omap (λ op, match op with Completed t r => Some (t, r) | _ => None end) ops.
Definition op_balance (op : MetricsOp) : Z := match op with Started _ => 1 | Completed _ _ => -1 | Sampled _ => 0 end.
Definition in_flight (ops : list MetricsOp) : Z := zsum (op_balance <$> ops).

Definition window_of (ops : list MetricsOp) : list (Z * Z) := prod_map id completion_tokens <$> completions ops.
Definition ttfts (ops : list MetricsOp) : list f64 := filter (λ x, fgt x f64_zero) (time_to_first_token_ms ∘ snd <$> completions ops).

Definition WINDOW_NS : Z := 10000000000.

(** Time does not go back, a request completes only after it started, and the
    counts fit a [usize]. *)
Record plausible (ops : list MetricsOp) : Prop := {
  pl_sorted : StronglySorted Z.le (op_time <$> ops);
  pl_balance : ∀ n, 0 ≤ in_flight (take n ops);
  pl_count : Z.of_nat (length ops) < 2 ^ 64;
  pl_tokens : Forall (λ w, 0 ≤ w.2) (window_of ops);
  pl_total : zsum (window_of ops).*2 < 2 ^ 64
}.

Lemma zsum_app l k : zsum (l ++ k) = zsum l + zsum k.
Proof. induction l as [|x l IH]; simpl; lia. Qed.

Lemma zsum_nonneg l : Forall (Z.le 0) l → 0 ≤ zsum l.
Proof. induction 1; simpl; lia. Qed.

Lemma zsum_filter (P : Z * Z → Prop) `{∀ x, Decision (P x)} l : Forall (λ w, 0 ≤ w.2) l → 0 ≤ zsum (filter P l).*2 ≤ zsum l.*2.
Proof.
  induction 1 as [|w l Hw _ IH]; [done |]. destruct (decide (P w)); [rewrite filter_cons_True by done | rewrite filter_cons_False by done];
    unfold zsum in *; csimpl; lia.
Qed.

Lemma filter_all {A : Type} (P : A → Prop) `{∀ x, Decision (P x)} l : Forall P l → filter P l = l.
Proof. induction 1 as [|x l Hx _ IH]; [done |]. by rewrite filter_cons_True, IH. Qed.

Lemma filter_none {A : Type} (P : A → Prop) `{∀ x, Decision (P x)} l : Forall (λ x, ¬ P x) l → filter P l = [].
Proof. induction 1 as [|x l Hx _ IH]; [done |]. by rewrite filter_cons_False, IH. Qed.

Lemma prune_window_sorted cutoff w : StronglySorted Z.le w.*1 → prune_window cutoff w = filter (λ x, cutoff ≤ x.1) w.
Proof.
  induction w as [|[t n] w IH]; [done |]. intros [Hs Hall]%StronglySorted_inv. cbn [prune_window].
  destruct (Z.ltb_spec t cutoff) as [Hlt|Hge].
  - rewrite filter_cons_False by (simpl; lia). by apply IH.
  - rewrite filter_cons_True by done. f_equal. symmetry. apply filter_all, Forall_forall. intros x Hx.
    rewrite Forall_forall in Hall. specialize (Hall x.1 (list_elem_of_fmap_2 fst _ _ Hx)). simpl in Hall. lia.
Qed.

Lemma window_sorted ops : StronglySorted Z.le (op_time <$> ops) → StronglySorted Z.le (window_of ops).*1.
Proof.
  unfold window_of, completions. induction ops as [|op ops IH]; [done |]. intros [Hs Hall]%StronglySorted_inv. specialize (IH Hs).
  destruct op as [t|t r|t]; simpl; [done | | done]. constructor; [done |]. apply Forall_forall. intros x (y & -> & Hy)%list_elem_of_fmap.
  apply list_elem_of_fmap in Hy as (tr & -> & (op & Hop & Heq)%list_elem_of_omap). destruct op as [|t' r'|]; simplify_eq.
  rewrite Forall_forall in Hall. by apply (Hall t'), (list_elem_of_fmap_2 op_time _ (Completed t' r')).
Qed.

Definition same_settings (i : MetricsInner) : Prop := alpha i = f64_lit 3 1 ∧ window_secs i = f64_of_Z 10.

(** The collector after [ops]: the window holds what the last sampling left, and
    what was completed since. *)
Record metrics_inv (ops : list MetricsOp) (m : MetricsCollector) : Prop := {
  mi_open : mx_poisoned m = false;
  mi_settings : same_settings (guarded m);
  mi_active : active_requests (guarded m) = in_flight ops;
  mi_ttft : ema_ttft_ms (guarded m) = foldl (ema_update (f64_lit 3 1)) f64_zero (ttfts ops);
  mi_window : ∃ dropped, window_of ops = dropped ++ token_window (guarded m) ∧
                Forall (λ x, ∃ op, op ∈ ops ∧ x.1 < op_time op - WINDOW_NS) dropped
}.

Lemma prune_suffix cutoff w : ∃ d, w = d ++ prune_window cutoff w ∧ Forall (λ x, x.1 < cutoff) d.
Proof.
  induction w as [|[t n] w (d & Hd & Hall)]; [by exists [] |]. cbn [prune_window]. destruct (Z.ltb_spec t cutoff).
  - exists ((t, n) :: d). rewrite <- app_comm_cons, <- Hd. split; [done | by constructor].
  - by exists [].
Qed.

Lemma completions_snoc ops op : completions (ops ++ [op]) = completions ops ++ completions [op].
Proof. unfold completions. by rewrite omap_app. Qed.
Lemma window_snoc ops op : window_of (ops ++ [op]) = window_of ops ++ window_of [op].
Proof. unfold window_of. by rewrite completions_snoc, fmap_app. Qed.
Lemma ttfts_snoc ops op : ttfts (ops ++ [op]) = ttfts ops ++ ttfts [op].
Proof. unfold ttfts. by rewrite completions_snoc, fmap_app, filter_app. Qed.
Lemma in_flight_snoc ops op : in_flight (ops ++ [op]) = in_flight ops + op_balance op.
Proof. unfold in_flight. rewrite fmap_app, zsum_app. simpl. lia. Qed.

Lemma in_flight_bound ops : in_flight ops ≤ Z.of_nat (length ops).
Proof. induction ops as [|op ops IH] using rev_ind; [done |]. rewrite in_flight_snoc, length_app. destruct op; simpl; lia. Qed.

Lemma dropped_snoc ops op dropped :
  Forall (λ x : Z * Z, ∃ op, op ∈ ops ∧ x.1 < op_time op - WINDOW_NS) dropped →
  Forall (λ x : Z * Z, ∃ op', op' ∈ ops ++ [op] ∧ x.1 < op_time op' - WINDOW_NS) dropped.
Proof. intros Hd. eapply Forall_impl; [exact Hd |]. intros x (o & Ho & Hx). exists o. split; [set_solver | done]. Qed.

Lemma plausible_snoc ops op : plausible (ops ++ [op]) → plausible ops ∧ 0 ≤ in_flight ops + op_balance op.
Proof.
  intros [Hs Hb Hc Ht Htot]. rewrite fmap_app in Hs. rewrite window_snoc, ?Forall_app in Ht. destruct Ht as [Ht Ht2].
  rewrite window_snoc, fmap_app, zsum_app in Htot. rewrite length_app in Hc.
  assert (0 ≤ zsum (window_of [op]).*2) by (by apply zsum_nonneg, Forall_fmap).
  split; [split |].
  - by apply StronglySorted_app_1_l in Hs.
  - intros n. destruct (decide (n ≤ length ops)%nat).
    + specialize (Hb n). by rewrite take_app_le in Hb.
    + rewrite take_ge by lia. specialize (Hb (length ops)). by rewrite take_app_length in Hb.
  - lia.
  - done.
  - lia.
  - specialize (Hb (length (ops ++ [op]))). by rewrite take_ge, in_flight_snoc in Hb.
Qed.

Lemma window_tokens ops (m : MetricsCollector) dropped :
  plausible ops → window_of ops = dropped ++ token_window (guarded m) →
  Forall (λ w, 0 ≤ w.2) (token_window (guarded m)) ∧ zsum (token_window (guarded m)).*2 < 2 ^ 64.
Proof.
  intros [_ _ _ Ht Htot] Hw. rewrite Hw in Ht, Htot. apply Forall_app in Ht as [Hd Ht]. split; [done |].
  rewrite fmap_app, zsum_app in Htot. assert (0 ≤ zsum dropped.*2) by (by apply zsum_nonneg, Forall_fmap). lia.
Qed.

(** Taking a snapshot prunes the window and reads the rest. *)
Lemma snapshot_run ops m t secs millis kv hb :
  plausible ops → metrics_inv ops m →
  let w := prune_window (t - WINDOW_NS) (token_window (guarded m)) in
  let i := guarded m in
  metrics_snapshot t secs millis kv hb m =
    (mutex_new {| token_window := w; ema_ttft_ms := ema_ttft_ms i; ema_itl_ms := ema_itl_ms i; active_requests := active_requests i;
                  alpha := alpha i; window_secs := window_secs i |},
     Ok {| timestamp := chrono_iso8601_now secs millis; throughput_tokens_per_sec := f64_div (f64_of_Z (zsum w.*2)) (f64_of_Z 10);
           ev_active_requests := in_flight ops; avg_time_to_first_token_ms := foldl (ema_update (f64_lit 3 1)) f64_zero (ttfts ops);
           avg_inter_token_latency_ms := ema_itl_ms i; kv_cache_utilization := kv; worker_heartbeats := hb |}).
Proof.
  intros Hpl Hi w i. subst i. destruct (mi_window _ _ Hi) as (dropped & Hw & _). destruct (window_tokens _ _ _ Hpl Hw) as [Hn Htot].
  assert (from_secs_f64 (window_secs (guarded m)) = Ok WINDOW_NS) as Hwin by by rewrite (proj2 (mi_settings _ _ Hi)).
  destruct (prune_suffix (t - WINDOW_NS) (token_window (guarded m))) as (d & Hd & _). fold w in Hd.
  assert (usum w.*2 = Ok (zsum w.*2)) as Hsum.
  { rewrite Hd in Hn, Htot. apply Forall_app in Hn as [Hnd Hn]. rewrite fmap_app, zsum_app in Htot.
    assert (0 ≤ zsum d.*2) by (by apply zsum_nonneg, Forall_fmap). apply usum_total; [by apply Forall_fmap | lia]. }
  unfold metrics_snapshot. apply with_lock_open; [apply Hi |]. rewrite Hwin. fold w. rewrite Hsum. cbn [rbind].
  rewrite (proj2 (mi_settings _ _ Hi)), (mi_active _ _ Hi), (mi_ttft _ _ Hi). done.
Qed.

Lemma metrics_step ops op m : plausible (ops ++ [op]) → metrics_inv ops m → metrics_inv (ops ++ [op]) (metrics_op m op).
Proof.
  intros Hpl Hi. destruct (plausible_snoc _ _ Hpl) as [Hp0 Hbal]. pose proof (pl_count _ Hpl) as Hcount. rewrite length_app in Hcount.
  pose proof (in_flight_bound ops). pose proof (pl_balance _ Hp0 (length ops)) as H0. rewrite take_ge in H0 by done.
  destruct (mi_window _ _ Hi) as (dropped & Hw & Hd). pose proof (mi_active _ _ Hi) as Ha. pose proof (mi_ttft _ _ Hi) as Htt.
  destruct (mi_settings _ _ Hi) as [Hal Hws].
  destruct op as [t|t r|t]; cbn [metrics_op op_balance] in *.
  - unfold request_started. erewrite with_lock_open; [| apply Hi |]; cycle 1.
    { unfold uadd. rewrite checked_Ok by (unfold in_width; simpl in Hcount; lia). reflexivity. }
    split; cbn [fst mutex_new guarded mx_poisoned active_requests ema_ttft_ms token_window]; try done.
    + by rewrite in_flight_snoc, Ha.
    + by rewrite ttfts_snoc, app_nil_r.
    + exists dropped. rewrite window_snoc, app_nil_r. split; [done | by apply dropped_snoc].
  - unfold record_completion. erewrite with_lock_open; [| apply Hi | reflexivity].
    split; cbn [fst mutex_new guarded mx_poisoned active_requests ema_ttft_ms token_window]; try done.
    + rewrite in_flight_snoc. simpl. lia.
    + rewrite ttfts_snoc, foldl_app, <- Htt, Hal. unfold ttfts, completions. simpl. unfold compose. simpl.
      destruct (fgt (time_to_first_token_ms r) f64_zero) eqn:Hg; [rewrite filter_cons_True | rewrite filter_cons_False]; rewrite ?Hg; done || auto.
    + exists dropped. rewrite window_snoc, Hw, <- app_assoc. split; [done | by apply dropped_snoc].
  - rewrite (snapshot_run ops) by done. split; cbn [fst mutex_new guarded mx_poisoned active_requests ema_ttft_ms token_window]; try done.
    + by rewrite in_flight_snoc, Ha, Z.add_0_r.
    + by rewrite ttfts_snoc, app_nil_r.
    + destruct (prune_suffix (t - WINDOW_NS) (token_window (guarded m))) as (d & Hdw & Hall). exists (dropped ++ d).
      rewrite window_snoc, app_nil_r, Hw, <- app_assoc, <- Hdw. split; [done |]. apply Forall_app. split; [by apply dropped_snoc |].
      eapply Forall_impl; [exact Hall |]. intros x Hx. exists (Sampled t). split; [set_solver | done].
Qed.

Lemma run_metrics_inv ops : plausible ops → metrics_inv ops (run_metrics ops).
Proof.
  induction ops as [|op ops IH] using rev_ind; intros Hpl.
  - split; try done. by exists [].
  - unfold run_metrics. rewrite foldl_app. apply metrics_step; [done |]. apply IH, (plausible_snoc _ op), Hpl.
Qed.

(** The metrics stream.  However requests start and finish and whenever
    earlier samples were taken, a sample reports the tokens of the requests that
    finished in the last ten seconds, over ten; the number of requests that have
    started and not finished; and the moving average, with factor 0.3, of the
    positive times to the first token, the first one taken as it is. *)
Theorem metrics_sample ops now secs millis kv hb :
  plausible ops → Forall (λ op, op_time op ≤ now) ops →
  ∃ m ev, metrics_snapshot now secs millis kv hb (run_metrics ops) = (m, Ok ev) ∧ mx_poisoned m = false ∧
    throughput_tokens_per_sec ev =
      f64_div (f64_of_Z (zsum (filter (λ x, now - 10000000000 ≤ x.1) (window_of ops)).*2)) (f64_of_Z 10) ∧
    ev_active_requests ev = in_flight ops ∧
    avg_time_to_first_token_ms ev = foldl (ema_update (f64_lit 3 1)) f64_zero (ttfts ops) ∧
    kv_cache_utilization ev = kv ∧ worker_heartbeats ev = hb.
Proof.
  intros Hpl Hnow. pose proof (run_metrics_inv ops Hpl) as Hi. rewrite (snapshot_run ops) by done. eexists _, _. split; [reflexivity |].
  split_and!; try done. cbn [throughput_tokens_per_sec]. do 4 f_equal. destruct (mi_window _ _ Hi) as (dropped & Hw & Hd).
  pose proof (window_sorted _ (pl_sorted _ Hpl)) as Hs. rewrite Hw, fmap_app in Hs. apply StronglySorted_app_1_r in Hs.
  rewrite prune_window_sorted by done. rewrite Hw, filter_app. rewrite (filter_none _ dropped); [done |].
  eapply Forall_impl; [exact Hd |]. intros x (op & Hop & Hx). rewrite Forall_forall in Hnow. specialize (Hnow op Hop). unfold WINDOW_NS in Hx. simpl. lia.
Qed.

(** The date that is printed has the shape of a date. *)
Theorem timestamp_in_range secs : 0 ≤ secs →
  1970 ≤ year secs ∧ 1 ≤ month secs ≤ 12 ∧ 1 ≤ day secs ≤ 31 ∧ 0 ≤ hour secs ≤ 23 ∧ 0 ≤ minute secs ≤ 59 ∧ 0 ≤ second secs ≤ 59.
Proof.
  intros Hs. unfold year, month, day, hour, minute, second.
  split_and!; try (Z.to_euclidean_division_equations; lia).
Qed.

(** ** Witnesses *)

Module DashboardWitness.
Definition rec (id : string) (n : Z) (ttft : f64) : RequestRecord :=
  {| rec_id := id; request_type := "chat"; rec_status := "completed"; rec_prompt_tokens := 10; completion_tokens := n; rec_total_tokens := 10 + n;
     time_to_first_token_ms := ttft; total_duration_ms := f64_of_Z 500; tokens_per_second := f64_of_Z 40; finish_reason := "stop";
     rec_temperature := f32_one; created_at := "" |}.
Definition r0 := rec "r0" 5 (f64_of_Z 100).
Definition r1 := rec "r1" 7 (f64_of_Z 200).

Lemma request_log_pages_witness :
  page 2 1 (pushed [r0; r1]) = (pushed [r0; r1], Ok {| requests := [r0]; total := 2; rsp_page := 2; rsp_per_page := 1 |}) ∧
  mjoin ((λ i, page_records (Z.of_nat i + 1) 1 (pushed [r0; r1])) <$> seq 0 2) = [r1; r0].
Proof. destruct (request_log_pages [r0; r1] 1 2 ltac:(lia)) as (_ & Hp & Hj). split; [exact (Hp 2 ltac:(lia)) | exact Hj]. Defined.

(** Two requests; the first one finished eleven seconds before the sample. *)
Definition ops : list MetricsOp :=
  [Started 0; Started 1; Completed 5 r0; Sampled 6; Completed 2000000000 r1; Started 3000000000].

Lemma ops_plausible : plausible ops.
Proof.
  split; [| | done | by repeat constructor | done].
  - repeat constructor; done.
  - intros n. do 7 (destruct n as [|n]; [done |]). done.
Qed.

Lemma metrics_sample_witness :
  ∃ m ev, metrics_snapshot 11000000000 0 0 f64_zero [] (run_metrics ops) = (m, Ok ev) ∧ mx_poisoned m = false ∧
    throughput_tokens_per_sec ev = f64_div (f64_of_Z 7) (f64_of_Z 10) ∧ ev_active_requests ev = 1 ∧
    avg_time_to_first_token_ms ev = f64_of_Z 130.
Proof.
  destruct (metrics_sample ops 11000000000 0 0 f64_zero [] ops_plausible) as (m & ev & Hr & Hp & Ht & Ha & Hf & _); [repeat constructor; done |].
  exists m, ev. split; [done |]. split; [done |]. split; [by rewrite Ht |]. split; [by rewrite Ha |]. rewrite Hf. vm_compute. reflexivity.
Defined.
End DashboardWitness.
