(* ===== verification/Http.v ===== *)
(** * The HTTP server
      ([crates/fracture-server/src/{api,utils,routes,batched_routes}.rs])

    The handlers behind [/v1/completions] and [/v1/chat/completions], in the
    batched mode, where a handler submits a request to a scheduler loop and turns
    the events of its channel into a response, and in the sequential mode, where
    it runs the generation loop itself.  The tokenizer is a parameter; ids,
    clocks and time stamps are arguments; JSON values are records. *)

From S2P Require Import Prelude F32 Core Frame Connection LayerScheduler SchedulerTotal Registry DistPipeline Rebalance BatchScheduler Worker Dashboard DistLoop LoopMemory DistLoopSpec DistLoopRun.
From S2P Require Import BlockTables PagedCache.
From S2P Require Generation.
From stdpp Require Import pretty.

(** ** Requests and responses ([api.rs]) *)

Record CompletionRequest := {
  cr_model : option string; cr_prompt : string; cr_max_tokens : nat; cr_temperature : f32; cr_top_p : f32; cr_top_k : nat; cr_stream : bool
}.
Record ChatMessage := { role : string; content : string }.
Record ChatCompletionRequest := {
  cc_model : option string; messages : list ChatMessage; cc_max_tokens : nat; cc_temperature : f32; cc_top_p : f32; cc_top_k : nat; cc_stream : bool
}.

Record ResponseMessage := { rm_role : string; rm_content : string }.
Record Choice := { ch_index : nat; ch_text : option string; ch_message : option ResponseMessage; ch_finish_reason : option string }.
Record Usage := { us_prompt_tokens : nat; us_completion_tokens : nat; us_total_tokens : nat }.
Record CompletionResponse := { rs_id : string; rs_object : string; rs_created : Z; choices : list Choice; usage : Usage }.

Definition usage_of (prompt completion : nat) : Usage :=
  {| us_prompt_tokens := prompt; us_completion_tokens := completion; us_total_tokens := prompt + completion |}.

(** The delta of a streamed chunk: a text, or a message with or without content. *)
Inductive Delta := TextDelta (text : string) | ContentDelta (content : option string).
Inductive SseItem :=
  | Chunk (id object : string) (created : Z) (model : string) (delta : Delta) (finish_reason : option string) (usage : option Usage)
  | SseError (message : string)
  | SseDone.

Inductive Response :=
  | ErrorBody (code : Z) (message : string)
  | JsonBody (body : CompletionResponse).

(** ** Validation and helpers ([utils.rs]) *)

Record Tokenizer := { encode : string → option (list Z); decode : list Z → option string }.

Definition LOADED_MODEL_NAME : string := "llama-3-8b".

Definition decode_tokens (tk : Tokenizer) (tokens : list Z) : string := default "" (decode tk tokens).

Definition validate_model_name (model : option string) : Response + unit :=
  match model with
  | Some name => if bool_decide (name ≠ LOADED_MODEL_NAME) then inl (ErrorBody 404 ("The model `" +:+ name +:+ "` does not exist")) else inr ()
  | None => inr ()
  end.

Definition validate_sampling_params (temperature top_p : f32) (top_k max_tokens : nat) : Response + unit :=
  if flt temperature f32_zero then inl (ErrorBody 400 "temperature must be >= 0")
  else if negb (fle f32_zero top_p && fle top_p f32_one) then inl (ErrorBody 400 "top_p must be in [0, 1]")
  else if bool_decide (max_tokens = 0) then inl (ErrorBody 400 "max_tokens must be > 0")
  else inr ().

Definition validate_completion_request (req : CompletionRequest) : Response + unit :=
  if bool_decide (cr_prompt req = "") then inl (ErrorBody 400 "prompt must not be empty")
  else validate_sampling_params (cr_temperature req) (cr_top_p req) (cr_top_k req) (cr_max_tokens req).

(** The loop over the messages; [i] is the index of the first one left. *)
Fixpoint validate_roles (i : nat) (ms : list ChatMessage) : Response + unit :=
  match ms with
  | [] => inr ()
  | m :: ms' =>
      if bool_decide (role m = "") then inl (ErrorBody 400 ("messages[" +:+ pretty i +:+ "].role must not be empty"))
      else if negb (bool_decide (role m ∈ ["system"; "user"; "assistant"])) then
        inl (ErrorBody 400 ("messages[" +:+ pretty i +:+ "].role must be 'system', 'user', or 'assistant', got '" +:+ role m +:+ "'"))
      else validate_roles (S i) ms'
  end.
Definition validate_chat_request (req : ChatCompletionRequest) : Response + unit :=
  if bool_decide (messages req = []) then inl (ErrorBody 400 "messages must not be empty")
  else match validate_roles 0 (messages req) with
       | inl r => inl r
       | inr _ => validate_sampling_params (cc_temperature req) (cc_top_p req) (cc_top_k req) (cc_max_tokens req)
       end.

(** [apply_chat_template] ([crates/fracture-generate/src/generation.rs]) *)
Definition newline : string := String (Ascii.ascii_of_nat 10) "".
Definition apply_chat_template (ms : list (string * string)) : string :=
  foldl (λ prompt m, prompt +:+ "<|start_header_id|>" +:+ m.1 +:+ "<|end_header_id|>" +:+ newline +:+ newline +:+ m.2 +:+ "<|eot_id|>")
    "<|begin_of_text|>" ms
  +:+ "<|start_header_id|>assistant<|end_header_id|>" +:+ newline +:+ newline.

(** ** What a handler reads besides the request *)

(** The random id, the time stamp, and the instants at which the handler starts,
    sees the first token, has the result, and records it. *)
Record HandlerEnv := { he_id : string; he_created : Z; he_start : Z; he_first : Z; he_end : Z; he_record : Z }.

(** [elapsed().as_secs_f64() * 1000.0] *)
Definition duration_ms (ns : Z) : f64 :=
  f64_mul (f64_add (f64_of_Z (ns `div` 10 ^ 9)) (f64_div (f64_of_Z (ns `mod` 10 ^ 9)) (f64_of_Z (10 ^ 9)))) (f64_of_Z 1000).

Definition tokens_rate (n : nat) (total_ms : f64) : f64 :=
  if fgt total_ms f64_zero then f64_div (f64_of_Z (Z.of_nat n)) (f64_div total_ms (f64_of_Z 1000)) else f64_zero.

(** The metrics and the log of the dashboard. *)
Record DashboardState := { metrics : MetricsCollector; request_log : RequestLog }.

Definition on_metrics {A : Type} (m : st MetricsCollector A) : st DashboardState A := λ d,
  let '(x, r) := m (metrics d) in ({| metrics := x; request_log := request_log d |}, r).
Definition on_log {A : Type} (m : st RequestLog A) : st DashboardState A := λ d,
  let '(x, r) := m (request_log d) in ({| metrics := metrics d; request_log := x |}, r).

(** [metrics.record_completion(&record); request_log.push(record)] *)
Definition record_request (now : Z) (r : RequestRecord) : st DashboardState unit :=
  do! _ := on_metrics (record_completion now r) in on_log (push r).

Definition request_type_of (is_completion : bool) : string := if is_completion then "completion" else "chat".

(** The record of a finished request. *)
Definition finished_record (he : HandlerEnv) (is_completion : bool) (prompt_len count : nat) (ttft : f64) (tps : f64) (status reason : string)
    (temperature : f32) : RequestRecord :=
  {| rec_id := he_id he; request_type := request_type_of is_completion; rec_status := status; rec_prompt_tokens := Z.of_nat prompt_len;
     completion_tokens := Z.of_nat count; rec_total_tokens := Z.of_nat (prompt_len + count); time_to_first_token_ms := ttft;
     total_duration_ms := duration_ms (he_end he - he_start he); tokens_per_second := tps; finish_reason := reason;
     rec_temperature := temperature; created_at := "" |}.

(** The record with which the guard of a dropped stream balances the metrics. *)
Definition cancelled_record (temperature : f32) : RequestRecord :=
  {| rec_id := ""; request_type := "chat"; rec_status := "cancelled"; rec_prompt_tokens := 0; completion_tokens := 0; rec_total_tokens := 0;
     time_to_first_token_ms := f64_zero; total_duration_ms := f64_zero; tokens_per_second := f64_zero; finish_reason := "cancelled";
     rec_temperature := temperature; created_at := "" |}.

Definition completion_response (he : HandlerEnv) (is_completion : bool) (text reason : string) (prompt_len count : nat) : CompletionResponse :=
  {| rs_id := he_id he; rs_object := if is_completion then "text_completion" else "chat.completion"; rs_created := he_created he;
     choices := [{| ch_index := 0; ch_text := if is_completion then Some text else None;
                    ch_message := if is_completion then None else Some {| rm_role := "assistant"; rm_content := text |};
                    ch_finish_reason := Some reason |}];
     usage := usage_of prompt_len count |}.

Definition token_delta (is_completion : bool) (text : string) : Delta := if is_completion then TextDelta text else ContentDelta (Some text).
Definition final_delta (is_completion : bool) : Delta := if is_completion then TextDelta "" else ContentDelta None.
Definition chunk (he : HandlerEnv) (is_completion : bool) : Delta → option string → option Usage → SseItem :=
  Chunk (he_id he) (if is_completion then "text_completion" else "chat.completion.chunk") (he_created he) LOADED_MODEL_NAME.
Definition reason_name (r : StopReason) : string := match r with BatchScheduler.Stop => "stop" | Length => "length" end.

(** ** The batched mode ([batched_routes.rs]) *)

(** Submitting: the channel to the scheduler loop with what was sent on it, and
    how many event channels were created. *)
Record BatchedAppState := { next_seq_id : Z; submitted : list PendingRequest; loop_alive : bool; channels : Z }.

Definition batched_state_new : BatchedAppState := {| next_seq_id := 0; submitted := []; loop_alive := true; channels := 0 |}.

Section batched.
Variable tk : Tokenizer.

(** From the prompt to the submitted request; an error ends the handler. *)
Definition submit_prompt (prompt : string) (max_tokens : nat) (temperature : f32) (top_k : nat) (top_p : f32) (s : BatchedAppState)
    : BatchedAppState * (Response + PendingRequest) :=
  let pending := {| req_seq_id := next_seq_id s; prompt_tokens := default [] (encode tk prompt); req_max_tokens := max_tokens;
                    req_temperature := temperature; req_top_k := top_k; req_top_p := top_p; req_seed := None;
                    req_stop_tokens := [128001; 128008; 128009]%Z; req_event_tx := channels s |} in
  let next := {| next_seq_id := wrap 64 (next_seq_id s + 1);
                 submitted := if loop_alive s then submitted s ++ [pending] else submitted s;
                 loop_alive := loop_alive s; channels := channels s + 1 |} in
  (next, if loop_alive s then inr pending
         else inl (ErrorBody 500 "failed to enqueue request: scheduler loop is shut down")).

(** The part of [completions_handler] before it waits for events. *)
Definition completions_submit (req : CompletionRequest) (s : BatchedAppState) : BatchedAppState * (Response + PendingRequest) :=
  match validate_model_name (cr_model req) with
  | inl r => (s, inl r)
  | inr _ =>
      match validate_completion_request req with
      | inl r => (s, inl r)
      | inr _ => submit_prompt (cr_prompt req) (cr_max_tokens req) (cr_temperature req) (cr_top_k req) (cr_top_p req) s
      end
  end.

(** The part of [chat_completions_handler] before it waits for events. *)
Definition chat_submit (req : ChatCompletionRequest) (s : BatchedAppState) : BatchedAppState * (Response + PendingRequest) :=
  match validate_model_name (cc_model req) with
  | inl r => (s, inl r)
  | inr _ =>
      match validate_chat_request req with
      | inl r => (s, inl r)
      | inr _ =>
          let prompt := apply_chat_template ((λ m, (role m, content m)) <$> messages req) in
          submit_prompt prompt (cc_max_tokens req) (cc_temperature req) (cc_top_k req) (cc_top_p req) s
      end
  end.

(** How the loop over the events ends. *)
Inductive Collected := CFinished (reason : string) (tokens : list Z) | CError (msg : string) (tokens : list Z) | CWaiting.

(** [hung_up]: after [events] the channel is closed, instead of silent. *)
Fixpoint collect (hung_up : bool) (events : list GenerationEvent) (tokens : list Z) : Collected :=
  match events with
  | [] => if hung_up then CFinished "length" tokens else CWaiting
  | Token t :: events' => collect hung_up events' (tokens ++ [t])
  | Finished reason _ :: _ => CFinished (reason_name reason) tokens
  | EventError msg :: _ => CError msg tokens
  end.

Definition first_token_ms (he : HandlerEnv) (seen : bool) : f64 := if seen then duration_ms (he_first he - he_start he) else f64_zero.

(** [handle_non_streaming]; [None]: it still waits. *)
Definition handle_non_streaming (he : HandlerEnv) (prompt_len : nat) (is_completion : bool) (temperature : f32) (hung_up : bool)
    (events : list GenerationEvent) : st DashboardState (option Response) :=
  do! _ := on_metrics request_started in
  match collect hung_up events [] with
  | CWaiting => sret None
  | CError msg tokens =>
      do! _ := record_request (he_record he)
                 (finished_record he is_completion prompt_len (length tokens) f64_zero f64_zero "error" "error" temperature) in
      sret (Some (ErrorBody 500 ("generation failed: " +:+ msg)))
  | CFinished reason tokens =>
      let total_duration_ms := duration_ms (he_end he - he_start he) in
      do! _ := record_request (he_record he)
                 (finished_record he is_completion prompt_len (length tokens) (first_token_ms he (negb (bool_decide (tokens = []))))
                    (tokens_rate (length tokens) total_duration_ms) "completed" reason temperature) in
      sret (Some (JsonBody (completion_response he is_completion (decode_tokens tk tokens) reason prompt_len (length tokens))))
  end.

(** The loop of [handle_streaming]: the items it yields, and the reason and the
    token count it ends with, if it ends. *)
Fixpoint stream_events (he : HandlerEnv) (prompt_len : nat) (is_completion hung_up : bool) (events : list GenerationEvent) (token_count : nat)
    : list SseItem * option (string * nat) :=
  match events with
  | [] => ([], if hung_up then Some ("length", token_count) else None)
  | Token t :: events' =>
      let '(items, r) := stream_events he prompt_len is_completion hung_up events' (S token_count) in
      (chunk he is_completion (token_delta is_completion (decode_tokens tk [t])) None None :: items, r)
  | Finished reason n :: _ =>
      ([chunk he is_completion (final_delta is_completion) (Some (reason_name reason)) (Some (usage_of prompt_len n))], Some (reason_name reason, n))
  | EventError msg :: _ => ([SseError ("generation failed: " +:+ msg)], Some ("error", token_count))
  end.

Definition seen_token (events : list GenerationEvent) : bool := match events with Token _ :: _ => true | _ => false end.

(** [handle_streaming], from the call to the end of the stream: the client never
    polls it ([None]), or takes that many items (all of them, at most) and drops it. *)
Definition handle_streaming (he : HandlerEnv) (prompt_len : nat) (is_completion : bool) (temperature : f32) (hung_up : bool)
    (events : list GenerationEvent) (polled : option nat) : st DashboardState (list SseItem) :=
  do! _ := on_metrics request_started in
  match polled with
  | None => sret []
  | Some n =>
      let '(items, r) := stream_events he prompt_len is_completion hung_up events 0 in
      match r with
      | Some (reason, count) =>
          if bool_decide (n ≤ length items) then
            do! _ := on_metrics (record_completion (he_record he) (cancelled_record temperature)) in sret (take n items)
          else
            let total_duration_ms := duration_ms (he_end he - he_start he) in
            do! _ := record_request (he_record he)
                       (finished_record he is_completion prompt_len count (first_token_ms he (seen_token events))
                          (tokens_rate count total_duration_ms) (if bool_decide (reason = "error") then "error" else "completed") reason temperature) in
            sret (items ++ [SseDone])
      | None =>
          do! _ := on_metrics (record_completion (he_record he) (cancelled_record temperature)) in sret (take n items)
      end
  end.
End batched.

(** ** The sequential mode ([routes.rs]) *)

Record AppState (E : Type) := { as_cache : Mutex PagedKvCacheManager; as_engine : E; as_dashboard : DashboardState }.
Arguments as_cache {E} a.
Arguments as_engine {E} a.
Arguments as_dashboard {E} a.
Arguments Build_AppState {E}.

(** A response, or the items of a stream. *)
Inductive Answer := Whole (r : Response) | Streamed (items : list SseItem).

Section sequential.
Context {E : Type} `{Generation.PagedEngine E}.
Variable exp : f32 → f32.
Variable random : nat → option Z → f32.
Variable tk : Tokenizer.
(** The engine's [max_seq_len]. *)
Variable max_seq_len : nat.

Definition on_dashboard {A : Type} (m : st DashboardState A) : st (AppState E) A := λ s,
  let '(d, r) := m (as_dashboard s) in ({| as_cache := as_cache s; as_engine := as_engine s; as_dashboard := d |}, r).

(** [GenerationConfig { max_tokens, temperature, top_k, top_p, ..Default::default() }] *)
Definition generation_config (max_tokens : nat) (temperature : f32) (top_k : nat) (top_p : f32) : Generation.GenerationConfig :=
  {| Generation.max_tokens := max_tokens; Generation.gen_temperature := temperature; Generation.gen_top_k := top_k; Generation.gen_top_p := top_p;
     Generation.stop_tokens := Generation.stop_tokens Generation.GenerationConfig_default;
     Generation.gen_seed := Generation.gen_seed Generation.GenerationConfig_default |}.

(** [GenerationLoop::generate] with the cache locked: the tokens sent to the
    client, and the result. *)
Definition locked_generate (cancelled : nat → bool) (config : Generation.GenerationConfig) (prompt_tokens : list Z) (s : AppState E)
    : AppState E * list Z * result Generation.GenerationResult :=
  if mx_poisoned (as_cache s) then (s, [], Panic)
  else
    let '(c, e, log, r) := Generation.generate_with_cancel exp random cancelled config max_seq_len prompt_tokens (guarded (as_cache s), as_engine s, []) in
    ({| as_cache := {| guarded := c; mx_poisoned := match r with Panic => true | _ => false end |}; as_engine := e; as_dashboard := as_dashboard s |}, log, r).

Definition generation_reason (r : Generation.StopReason) : string := match r with Generation.Stop => "stop" | Generation.Length => "length" end.

(** The non-streaming part of the two handlers. *)
Definition complete_prompt (he : HandlerEnv) (is_completion : bool) (prompt_tokens : list Z) (config : Generation.GenerationConfig)
    : st (AppState E) Response :=
  let prompt_len := length prompt_tokens in
  do! _ := on_dashboard (on_metrics request_started) in
  λ s,
  match locked_generate (λ _, false) config prompt_tokens s with
  | (s, tokens, Ok result) =>
      let reason := generation_reason (Generation.stop_reason result) in
      let total_duration_ms := duration_ms (he_end he - he_start he) in
      (do! _ := on_dashboard (record_request (he_record he)
                  (finished_record he is_completion prompt_len (length tokens) f64_zero (tokens_rate (length tokens) total_duration_ms)
                     "completed" reason (Generation.gen_temperature config))) in
       sret (JsonBody (completion_response he is_completion (decode_tokens tk tokens) reason prompt_len (length tokens)))) s
  | (s, _, Err e) =>
      (do! _ := on_dashboard (record_request (he_record he)
                  (finished_record he is_completion prompt_len 0 f64_zero f64_zero "error" "error" (Generation.gen_temperature config))) in
       sret (ErrorBody 500 "generation failed")) s
  | (s, _, Panic) => (s, Panic)
  end.

(** The items of [handle_streaming]; a generation that panicked drops its result. *)
Definition stream_items (he : HandlerEnv) (is_completion : bool) (prompt_len : nat) (tokens : list Z) (r : result Generation.GenerationResult)
    : list SseItem * string :=
  let chunks := (λ t, chunk he is_completion (token_delta is_completion (decode_tokens tk [t])) None None) <$> tokens in
  match r with
  | Ok result =>
      let reason := generation_reason (Generation.stop_reason result) in
      (chunks ++ [chunk he is_completion (final_delta is_completion) (Some reason) (Some (usage_of prompt_len (length tokens)))], reason)
  | Err e => (chunks ++ [SseError "generation failed"], "error")
  | Panic => (chunks ++ [SseError "generation failed: generation task dropped"], "error")
  end.

(** [handle_streaming]: [cancelled] is what the flag set by a dropped stream reads. *)
Definition stream_prompt (he : HandlerEnv) (is_completion : bool) (prompt_tokens : list Z) (config : Generation.GenerationConfig)
    (cancelled : nat → bool) (polled : option nat) : st (AppState E) (list SseItem) :=
  let prompt_len := length prompt_tokens in
  do! _ := on_dashboard (on_metrics request_started) in
  λ s,
  let '(s, tokens, r) := locked_generate cancelled config prompt_tokens s in
  let '(items, reason) := stream_items he is_completion prompt_len tokens r in
  match polled with
  | None => (s, Ok [])
  | Some n =>
      if bool_decide (n ≤ length items) then
        (do! _ := on_dashboard (on_metrics (record_completion (he_record he) (cancelled_record f32_zero))) in sret (take n items)) s
      else
        let total_duration_ms := duration_ms (he_end he - he_start he) in
        (do! _ := on_dashboard (record_request (he_record he)
                    (finished_record he is_completion prompt_len (length tokens) (first_token_ms he (negb (bool_decide (tokens = []))))
                       (tokens_rate (length tokens) total_duration_ms) (if bool_decide (reason = "error") then "error" else "completed") reason f32_zero)) in
         sret (items ++ [SseDone])) s
  end.

(** [completions_handler] *)
Definition completions_handler (he : HandlerEnv) (req : CompletionRequest) (cancelled : nat → bool) (polled : option nat) : st (AppState E) Answer :=
  match validate_model_name (cr_model req) with
  | inl r => sret (Whole r)
  | inr _ =>
      match validate_completion_request req with
      | inl r => sret (Whole r)
      | inr _ =>
          match encode tk (cr_prompt req) with
          | None => sret (Whole (ErrorBody 500 "tokenization failed"))
          | Some prompt_tokens =>
              let config := generation_config (cr_max_tokens req) (cr_temperature req) (cr_top_k req) (cr_top_p req) in
              if cr_stream req then do! items := stream_prompt he true prompt_tokens config cancelled polled in sret (Streamed items)
              else do! r := complete_prompt he true prompt_tokens config in sret (Whole r)
          end
      end
  end.

(** [chat_completions_handler] *)
Definition chat_completions_handler (he : HandlerEnv) (req : ChatCompletionRequest) (cancelled : nat → bool) (polled : option nat)
    : st (AppState E) Answer :=
  match validate_model_name (cc_model req) with
  | inl r => sret (Whole r)
  | inr _ =>
      match validate_chat_request req with
      | inl r => sret (Whole r)
      | inr _ =>
          match encode tk (apply_chat_template ((λ m, (role m, content m)) <$> messages req)) with
          | None => sret (Whole (ErrorBody 500 "tokenization failed"))
          | Some prompt_tokens =>
              let config := generation_config (cc_max_tokens req) (cc_temperature req) (cc_top_k req) (cc_top_p req) in
              if cc_stream req then do! items := stream_prompt he false prompt_tokens config cancelled polled in sret (Streamed items)
              else do! r := complete_prompt he false prompt_tokens config in sret (Whole r)
          end
      end
  end.
End sequential.

(** ** The dashboard sees every answered request once *)

(** The locks are open, the count does not overflow, the log is within its bound. *)
Record healthy (d : DashboardState) : Prop := {
  hl_metrics : mx_poisoned (metrics d) = false;
  hl_log : mx_poisoned (request_log d) = false;
  hl_active : (0 ≤ active_requests (guarded (metrics d)) < 2 ^ 64 - 1)%Z;
  hl_bound : length (guarded (request_log d)) ≤ 1000
}.

(** From [d] to [d']: record [r] was logged, and no request is in flight that was not. *)
Record accounted (d d' : DashboardState) (r : RequestRecord) : Prop := {
  ac_healthy : healthy d';
  ac_active : active_requests (guarded (metrics d')) = active_requests (guarded (metrics d));
  ac_log : guarded (request_log d') = r :: take 999 (guarded (request_log d))
}.

Lemma started_run d : healthy d →
  ∃ i, request_started (metrics d) = (mutex_new i, Ok ()) ∧ active_requests i = (active_requests (guarded (metrics d)) + 1)%Z ∧
    token_window i = token_window (guarded (metrics d)).
Proof.
  intros [Hm _ Ha _]. eexists. split.
  - unfold request_started. apply with_lock_open; [done |]. unfold uadd. rewrite checked_Ok by (unfold in_width; lia). reflexivity.
  - done.
Qed.

(** Counting a request in, and recording it. *)
Lemma record_started {A : Type} d now r (a : A) : healthy d →
  ∃ d', (do! _ := on_metrics request_started in do! _ := record_request now r in sret a) d = (d', Ok a) ∧ accounted d d' r.
Proof.
  intros Hd. destruct (started_run d Hd) as (i & Hs & Ha & _). destruct Hd as [_ Hl Hact Hb].
  unfold sbind, on_metrics at 1. rewrite Hs. unfold record_request, sbind, on_metrics, on_log. cbn [metrics request_log].
  unfold record_completion. erewrite with_lock_open; [| done | reflexivity]. cbn [metrics request_log].
  unfold push. erewrite with_lock_open; [| done | reflexivity]. eexists. split; [reflexivity |].
  set (log := guarded (request_log d)) in *.
  assert ((if (MAX_RECORDS <=? Z.of_nat (length log))%Z then removelast log else log) = take 999 log) as Hlog.
  { destruct (Z.leb_spec MAX_RECORDS (Z.of_nat (length log))) as [Hc|Hc]; unfold MAX_RECORDS in Hc; [| by rewrite take_ge by lia].
    rewrite <- removelast_take by lia. by rewrite take_ge by lia. }
  split; [split | |]; cbn [metrics request_log guarded mutex_new mx_poisoned active_requests]; rewrite ?Hlog, ?Ha; try done.
  - lia.
  - simpl. rewrite length_take. lia.
  - lia.
Qed.

(** ** From events to answers *)

(** What the client of request [r] is answered when its channel carried [l]. *)
Inductive answers (tk : Tokenizer) (he : HandlerEnv) (is_completion : bool) (r : PendingRequest) (l : list GenerationEvent) : Response → Prop :=
  | AnswerError toks m rest : l = (Token <$> toks) ++ EventError m :: rest → shown r toks →
      answers tk he is_completion r l (ErrorBody 500 ("generation failed: " +:+ m))
  | AnswerDone toks reason n : l = (Token <$> toks) ++ [Finished reason n] → shown r toks →
      (reason = Length → length toks = req_max_tokens r `max` 1) →
      answers tk he is_completion r l
        (JsonBody (completion_response he is_completion (decode_tokens tk toks) (reason_name reason) (length (prompt_tokens r)) (length toks))).

Lemma collect_tokens hung_up toks rest acc : collect hung_up ((Token <$> toks) ++ rest) acc = collect hung_up rest (acc ++ toks).
Proof. revert acc. induction toks as [|t toks IH]; intros acc; csimpl; [by rewrite app_nil_r |]. by rewrite IH, <- app_assoc. Qed.

(** The handler counts the request in and records it; what is left is its answer. *)
Ltac answered_by Hd :=
  match type of Hd with healthy ?d => match goal with |- ∃ _ _ _, (do! _ := _ in do! _ := record_request ?t ?rc in sret ?a) _ = _ ∧ _ =>
    let d' := fresh "d'" in let Hrun := fresh in let Hacc := fresh in
    destruct (record_started d t rc a Hd) as (d' & Hrun & Hacc); eexists d', _, _; split; [exact Hrun | split; [exact Hacc |]] end end.

(** A channel that told the end is answered, whether or not it is then closed. *)
Lemma closed_answered tk he is_completion temperature hung_up r l d : closed r l → healthy d →
  ∃ d' resp rec, handle_non_streaming tk he (length (prompt_tokens r)) is_completion temperature hung_up l d = (d', Ok (Some resp)) ∧
    accounted d d' rec ∧ answers tk he is_completion r l resp.
Proof.
  intros Hcl Hd.
  assert ((∃ toks m rest, l = (Token <$> toks) ++ EventError m :: rest ∧ shown r toks) ∨
          (∃ toks reason n, l = (Token <$> toks) ++ [Finished reason n] ∧ shown r toks ∧ (reason = Length → length toks = req_max_tokens r `max` 1)))
    as [(toks & m & rest & -> & Hs)|(toks & reason & n & -> & Hs & Hlen)].
  { destruct Hcl as [toks m Hs ->|toks Hs _ ->|toks Hs Hl ->|toks m reason Hs ->]; [left; by exists toks, m, [] | right.. | left; by eexists toks, m, _].
    - exists toks, BatchScheduler.Stop, (S (length toks)). done.
    - exists toks, Length, (length toks). done. }
  - unfold handle_non_streaming. rewrite collect_tokens. cbn [collect app].
    answered_by Hd. by eapply AnswerError.
  - unfold handle_non_streaming. rewrite collect_tokens. cbn [collect app].
    answered_by Hd. by eapply AnswerDone.
Qed.

(** ** Submitting *)

Inductive Call := CallCompletion (req : CompletionRequest) | CallChat (req : ChatCompletionRequest).

Definition submit_call (tk : Tokenizer) (s : BatchedAppState) (c : Call) : BatchedAppState :=
  match c with CallCompletion req => (completions_submit tk req s).1 | CallChat req => (chat_submit tk req s).1 end.
Definition run_calls (tk : Tokenizer) (calls : list Call) : BatchedAppState := foldl (submit_call tk) batched_state_new calls.

(** The requests submitted so far: ids and channels are handed out in order. *)
Record submit_inv (n : nat) (s : BatchedAppState) : Prop := {
  sb_count : length (submitted s) ≤ n;
  sb_next : next_seq_id s = Z.of_nat (length (submitted s));
  sb_ids : req_seq_id <$> submitted s = seqZ 0 (Z.of_nat (length (submitted s)));
  sb_txs : req_event_tx <$> submitted s = seqZ 0 (Z.of_nat (length (submitted s)));
  sb_channels : channels s = Z.of_nat (length (submitted s));
  sb_alive : loop_alive s = true;
  sb_valid : Forall (λ r, 0 < req_max_tokens r ∧ req_seed r = None ∧ req_stop_tokens r = [128001; 128008; 128009]%Z) (submitted s)
}.

Lemma submit_prompt_inv tk n s prompt mt temp tkk tp :
  (Z.of_nat (S n) < 2 ^ 64)%Z → 0 < mt → submit_inv n s → submit_inv (S n) (submit_prompt tk prompt mt temp tkk tp s).1.
Proof.
  intros Hn Hmt [Hc Hnx Hi Ht Hch Hal Hv]. unfold submit_prompt. cbn [fst].
  assert (Z.of_nat (length (submitted s) + 1) = Z.of_nat (length (submitted s)) + 1)%Z as Hz by lia.
  split; cbn [next_seq_id submitted loop_alive channels]; rewrite ?Hal, ?length_app, ?fmap_app; simpl; rewrite ?Hz, ?Hnx, ?Hch.
  - lia.
  - apply wrap_small. unfold in_width. lia.
  - rewrite Hi, seqZ_app by lia. done.
  - rewrite Ht, seqZ_app by lia. done.
  - done.
  - done.
  - apply Forall_app. split; [done |]. by repeat constructor.
Qed.

Lemma valid_sampling temp tp tkk mt u : validate_sampling_params temp tp tkk mt = inr u → 0 < mt.
Proof. unfold validate_sampling_params. repeat case_if; try done. case_bool_decide; [done | lia]. Qed.

Lemma submit_inv_weaken n s : submit_inv n s → submit_inv (S n) s.
Proof. intros []. split; try done. lia. Qed.

Lemma run_calls_inv tk calls : (Z.of_nat (length calls) < 2 ^ 64)%Z → submit_inv (length calls) (run_calls tk calls).
Proof.
  induction calls as [|c calls IH] using rev_ind; intros Hn; [by split |].
  unfold run_calls. rewrite foldl_app, length_app, Nat.add_1_r. cbn [foldl]. fold (run_calls tk calls). rewrite length_app in Hn. simpl in Hn.
  specialize (IH ltac:(lia)). generalize dependent (run_calls tk calls). intros s Hs. destruct c as [req|req]; cbn [submit_call].
  - unfold completions_submit. destruct (validate_model_name _) as [?|[]]; [by apply submit_inv_weaken |].
    destruct (validate_completion_request req) as [|u] eqn:Hv; [by apply submit_inv_weaken |].
    apply submit_prompt_inv; [lia | | done]. unfold validate_completion_request in Hv. case_bool_decide; [done |]. by eapply valid_sampling.
  - unfold chat_submit. destruct (validate_model_name _) as [?|[]]; [by apply submit_inv_weaken |].
    destruct (validate_chat_request req) as [|u] eqn:Hv; [by apply submit_inv_weaken |].
    apply submit_prompt_inv; [lia | | done]. unfold validate_chat_request in Hv. case_bool_decide; [done |].
    destruct (validate_roles _ _); [done |]. by eapply valid_sampling.
Qed.

Lemma run_calls_distinct tk calls : (Z.of_nat (length calls) < 2 ^ 64)%Z → distinct (submitted (run_calls tk calls)).
Proof. intros Hn. destruct (run_calls_inv tk calls Hn) as [_ _ Hi Ht _ _ _]. split; rewrite ?Hi, ?Ht; apply NoDup_seqZ. Qed.

(** ** The batched service *)

Section service.
Variable crc32c : list Z → Z.
Variable exp : f32 → f32.
Context `{Bincode ForwardPayload} `{Bincode ForwardResultPayload} `{Bincode BatchedForwardPayload} `{Bincode BatchedForwardResultPayload}
  `{Bincode ErrorPayload} `{Bincode RegisterAckPayload} `{Bincode HeartbeatPayload} `{Bincode HeartbeatAck}.
Variable config : DistributedLoopConfig.
Hypothesis codec : codec_total.
Hypothesis sizes : ∀ c, dc_model_config config = Some c → sizes_fit c (dc_scheduling_mode config) (dc_max_seq_len config).
Variable tk : Tokenizer.

End service.

(** ** What the two forms of an answer disagree on *)

Lemma stream_tokens tk he prompt_len ic hung_up toks rest n :
  let r := stream_events tk he prompt_len ic hung_up rest (length toks + n) in
  stream_events tk he prompt_len ic hung_up ((Token <$> toks) ++ rest) n =
    (((λ t, chunk he ic (token_delta ic (decode_tokens tk [t])) None None) <$> toks) ++ r.1, r.2).
Proof.
  revert n. induction toks as [|t toks IH]; intros n; csimpl.
  - by destruct (stream_events _ _ _ _ _ _ _).
  - rewrite IH. by rewrite <- Nat.add_succ_r.
Qed.

(** For a request that ends at a stop token the loops report one token more than
    they sent.  A streamed response passes that number on; a response in one
    piece counts the tokens. *)
Theorem usage_disagrees tk he ic temp toks d : healthy d →
  let l := (Token <$> toks) ++ [Finished BatchScheduler.Stop (S (length toks))] in
  (∃ d', handle_non_streaming tk he 10 ic temp false l d =
     (d', Ok (Some (JsonBody (completion_response he ic (decode_tokens tk toks) "stop" 10 (length toks)))))) ∧
  (∃ d', handle_streaming tk he 10 ic temp false l (Some (2 + length toks)) d =
     (d', Ok (((λ t, chunk he ic (token_delta ic (decode_tokens tk [t])) None None) <$> toks) ++
              [chunk he ic (final_delta ic) (Some "stop") (Some (usage_of 10 (S (length toks)))); SseDone]))).
Proof.
  intros Hd l. split.
  - unfold handle_non_streaming, l. rewrite collect_tokens. cbn [collect app].
    match goal with |- ∃ _, (do! _ := _ in do! _ := record_request ?t ?rc in sret ?a) _ = _ => destruct (record_started d t rc a Hd) as (d' & Hr & _) end.
    by exists d'.
  - unfold handle_streaming, l. rewrite stream_tokens. cbn [stream_events fst snd].
    rewrite bool_decide_false by (rewrite length_app, length_fmap; simpl; lia).
    match goal with |- ∃ _, (do! _ := _ in do! _ := record_request ?t ?rc in sret ?a) _ = _ => destruct (record_started d t rc a Hd) as (d' & Hr & _) end.
    exists d'. rewrite Hr. by rewrite <- app_assoc.
Qed.

(** A channel that is closed without a word, by a loop that panicked or was shut
    down, is answered with a success of reason [length]. *)
Theorem hangup_reports_success tk he ic temp toks d : healthy d →
  ∃ d', handle_non_streaming tk he 10 ic temp true (Token <$> toks) d =
    (d', Ok (Some (JsonBody (completion_response he ic (decode_tokens tk toks) "length" 10 (length toks))))).
Proof.
  intros Hd. unfold handle_non_streaming. rewrite <- (app_nil_r (Token <$> toks)), collect_tokens. cbn [collect app].
  match goal with |- ∃ _, (do! _ := _ in do! _ := record_request ?t ?rc in sret ?a) _ = _ => destruct (record_started d t rc a Hd) as (d' & Hr & _) end.
  by exists d'.
Qed.

(** A stream that is never polled stays counted as a request in flight. *)
Theorem unpolled_stream_leaks tk he ic temp l d : healthy d →
  (active_requests (guarded (metrics (handle_streaming tk he 10 ic temp false l None d).1)) = active_requests (guarded (metrics d)) + 1)%Z.
Proof.
  intros Hd. destruct (started_run d Hd) as (i & Hs & Ha & _). unfold handle_streaming, sbind, on_metrics. rewrite Hs. exact Ha.
Qed.

(** ** The sequential server *)

Section sequential_spec.
Context {E : Type} `{Generation.PagedEngineLaws E}.
Variable exp : f32 → f32.
Variable random : nat → option Z → f32.
Variable tk : Tokenizer.
Variable max_seq_len : nat.
Implicit Types s : AppState E.

(** What a generation with the cache locked leaves behind. *)
Lemma locked_generate_spec cancelled config prompt s s' toks r :
  tables_inv (guarded (as_cache s)) → mx_poisoned (as_cache s) = false →
  locked_generate exp random max_seq_len cancelled config prompt s = (s', toks, r) →
  as_dashboard s' = as_dashboard s ∧
  match r with
  | Panic => mx_poisoned (as_cache s') = true
  | _ => mx_poisoned (as_cache s') = false ∧ tables_inv (guarded (as_cache s')) ∧ sequences (guarded (as_cache s')) = sequences (guarded (as_cache s)) ∧
         num_free_blocks (guarded (as_cache s')) = num_free_blocks (guarded (as_cache s))
  end ∧
  ∀ res, r = Ok res → prompt ≠ [] ∧ length prompt ≤ max_seq_len ∧ toks = Generation.tokens res ∧
    Forall (λ t, t ∉ Generation.stop_tokens config) toks ∧ length toks ≤ Nat.max 1 (Generation.max_tokens config) ∧
    (Generation.stop_reason res = Generation.Length → length toks = Nat.max 1 (Generation.max_tokens config)).
Proof.
  intros Hinv Hp Hg. unfold locked_generate in Hg. rewrite Hp in Hg.
  destruct (Generation.generate_with_cancel _ _ _ _ _ _ _) as [[[c e] log] r'] eqn:Hgen. simplify_eq. cbn [as_dashboard as_cache guarded mx_poisoned].
  split; [done |]. split.
  - destruct r; [| | done]; (split; [done |]; eapply Generation.generate_restores_cache_Ok; [done | exact Hgen | done]).
  - intros res ->. pose proof (Generation.generate_tokens _ _ _ _ _ _ _ _ _ Hgen) as (? & ? & Ht & ? & ? & ?). cbn [snd app] in Ht. subst. done.
Qed.

Definition cache_kept s s' : Prop :=
  mx_poisoned (as_cache s') = false ∧ tables_inv (guarded (as_cache s')) ∧ sequences (guarded (as_cache s')) = sequences (guarded (as_cache s)) ∧
  num_free_blocks (guarded (as_cache s')) = num_free_blocks (guarded (as_cache s)).

(** Counting a request in before, and recording it after, a step that leaves the
    dashboard alone. *)
Lemma record_around {A : Type} s1 (s : AppState E) d1 now rc (a : A) :
  healthy (as_dashboard s) → on_metrics request_started (as_dashboard s) = (d1, Ok ()) → as_dashboard s1 = d1 →
  ∃ d', (do! _ := on_dashboard (record_request now rc) in sret a) s1 =
          ({| as_cache := as_cache s1; as_engine := as_engine s1; as_dashboard := d' |}, Ok a) ∧ accounted (as_dashboard s) d' rc.
Proof.
  intros Hd Hs H1. destruct (record_started (as_dashboard s) now rc a Hd) as (d' & Hr & Hacc). exists d'. split; [| done].
  unfold sbind in Hr. rewrite Hs in Hr. unfold sbind, on_dashboard. rewrite H1.
  destruct (record_request now rc d1) as [d2 [[]| |]]; [| done..]. by injection Hr as ->.
Qed.

(** C32: a request to the sequential server, once validated and without
    streaming ([complete_prompt], shared by the completion and the chat
    endpoint).  If it does not panic it is answered, with the tokens of the
    generation (none a stop token, at most [max_tokens], or one if that is zero,
    and exactly that many when the reason is [length]), or with a 500;
    whichever it is, the cache holds the same sequences as before and as many
    free blocks, its lock is open, and the dashboard has logged the request
    once and no longer counts it. *)
Theorem sequential_answer he is_completion prompt config s s' r :
  tables_inv (guarded (as_cache s)) → mx_poisoned (as_cache s) = false → healthy (as_dashboard s) →
  complete_prompt exp random tk max_seq_len he is_completion prompt config s = (s', r) → r ≠ Panic →
  ∃ resp rec, r = Ok resp ∧ cache_kept s s' ∧ accounted (as_dashboard s) (as_dashboard s') rec ∧
    (resp = ErrorBody 500 "generation failed" ∧ rec_status rec = "error" ∨
     ∃ toks reason, resp = JsonBody (completion_response he is_completion (decode_tokens tk toks) reason (length prompt) (length toks)) ∧
       rec_status rec = "completed" ∧ Forall (λ t, t ∉ Generation.stop_tokens config) toks ∧
       length toks ≤ Nat.max 1 (Generation.max_tokens config) ∧ (reason = "length" → length toks = Nat.max 1 (Generation.max_tokens config))).
Proof.
  intros Hinv Hp Hd Hrun Hr. unfold complete_prompt in Hrun. unfold sbind at 1, on_dashboard at 1 in Hrun.
  destruct (started_run (as_dashboard s) Hd) as (i & Hs & _).
  assert (on_metrics request_started (as_dashboard s) = ({| metrics := mutex_new i; request_log := request_log (as_dashboard s) |}, Ok ())) as Hs1
    by (unfold on_metrics; by rewrite Hs).
  rewrite Hs1 in Hrun. set (d1 := {| metrics := _; request_log := _ |}) in *.
  set (s1 := {| as_cache := as_cache s; as_engine := as_engine s; as_dashboard := d1 |}) in *.
  destruct (locked_generate _ _ _ _ _ _ s1) as [[s2 toks] rg] eqn:Hg.
  destruct (locked_generate_spec _ config prompt s1 s2 toks rg Hinv Hp Hg) as (Hd2 & Hcache & Htoks). destruct rg as [res|e|].
  - match type of Hrun with (do! _ := on_dashboard (record_request ?t ?rc) in sret ?a) _ = _ =>
      destruct (record_around s2 s d1 t rc a Hd Hs1 Hd2) as (d' & Hrec & Hacc) end.
    rewrite Hrec in Hrun. injection Hrun as <- <-. eexists _, _. split; [reflexivity |]. split; [exact Hcache |]. split; [exact Hacc |].
    right. destruct (Htoks res eq_refl) as (_ & _ & _ & Hst & Hle & Hfull). exists toks, (generation_reason (Generation.stop_reason res)).
    split_and!; try done. intros Hreason. apply Hfull. by destruct (Generation.stop_reason res).
  - match type of Hrun with (do! _ := on_dashboard (record_request ?t ?rc) in sret ?a) _ = _ =>
      destruct (record_around s2 s d1 t rc a Hd Hs1 Hd2) as (d' & Hrec & Hacc) end.
    rewrite Hrec in Hrun. injection Hrun as <- <-. eexists _, _. split; [reflexivity |]. split; [exact Hcache |]. split; [exact Hacc |]. by left.
  - by injection Hrun as _ <-.
Qed.

(** A generation that panics, in whichever of the two forms of a request, leaves
    the cache's lock poisoned: every later request panics too, and stays counted
    as in flight. *)
Theorem panic_poisons_cache s config prompt toks s' he is_completion prompt2 config2 :
  mx_poisoned (as_cache s) = false → locked_generate exp random max_seq_len (λ _, false) config prompt s = (s', toks, Panic) → healthy (as_dashboard s') →
  let '(s2, r) := complete_prompt exp random tk max_seq_len he is_completion prompt2 config2 s' in
  r = Panic ∧ mx_poisoned (as_cache s2) = true ∧
  active_requests (guarded (metrics (as_dashboard s2))) = (active_requests (guarded (metrics (as_dashboard s'))) + 1)%Z.
Proof.
  intros Hp Hg Hd. unfold locked_generate in Hg. rewrite Hp in Hg. destruct (Generation.generate_with_cancel _ _ _ _ _ _ _) as [[[c e] log] r'].
  simplify_eq. destruct (started_run _ Hd) as (i & Hs & Ha & _). unfold complete_prompt, sbind, on_dashboard, on_metrics. cbn [as_dashboard] in *.
  rewrite Hs. done.
Qed.
End sequential_spec.

(** ** Witnesses *)

Module HttpWitness.
Import DistLoopExample PipelineExample RebalanceExample.

Definition tok : Tokenizer := {| encode := λ _, Some [1; 2; 3]%Z; decode := λ ts, Some (if bool_decide (ts = [0; 0]%Z) then "aa" else "?") |}.
Definition ask : CompletionRequest :=
  {| cr_model := None; cr_prompt := "hello"; cr_max_tokens := 2; cr_temperature := f32_zero; cr_top_p := f32_one; cr_top_k := 0; cr_stream := false |}.
Definition he0 : HandlerEnv := {| he_id := "cmpl-0"; he_created := 0; he_start := 0; he_first := 5; he_end := 9; he_record := 10 |}.
Definition d0 : DashboardState := {| metrics := metrics_new; request_log := request_log_new |}.
Lemma d0_healthy : healthy d0.
Proof. split; cbn; done || lia. Qed.

Definition asked : PendingRequest :=
  {| req_seq_id := 0; prompt_tokens := [1; 2; 3]%Z; req_max_tokens := 2; req_temperature := f32_zero; req_top_k := 0; req_top_p := f32_one;
     req_seed := None; req_stop_tokens := [128001; 128008; 128009]%Z; req_event_tx := 0 |}.
Lemma asked_submitted : submitted (run_calls tok [CallCompletion ask]) = [asked].
Proof. vm_compute. reflexivity. Qed.

Definition s0 : DistLoop := start [DistLoopExample.logits; DistLoopExample.logits; DistLoopExample.logits].
Definition s1 : DistLoop := (DistLoopExample.run [env [asked] None] s0).1.


#[local] Existing Instance Generation.GenerationWitness.counting.
#[local] Existing Instance Generation.GenerationWitness.counting_laws.
Definition app0 : AppState nat := {| as_cache := mutex_new Generation.GenerationWitness.c0; as_engine := 0; as_dashboard := d0 |}.
Definition answer (config : Generation.GenerationConfig) := complete_prompt Generation.GenerationWitness.ident Generation.GenerationWitness.zero_rng tok 100 he0 true [7; 8; 9]%Z config app0.

Lemma sequential_answer_witness :
  ∃ resp rec, (answer (generation_config 3 f32_zero 0 f32_one)).2 = Ok resp ∧ cache_kept app0 (answer (generation_config 3 f32_zero 0 f32_one)).1 ∧
    accounted d0 (as_dashboard (answer (generation_config 3 f32_zero 0 f32_one)).1) rec.
Proof.
  destruct (sequential_answer Generation.GenerationWitness.ident Generation.GenerationWitness.zero_rng tok 100 he0 true [7; 8; 9]%Z
              (generation_config 3 f32_zero 0 f32_one) app0 (answer (generation_config 3 f32_zero 0 f32_one)).1
              (answer (generation_config 3 f32_zero 0 f32_one)).2) as (resp & rec & Hr & Hc & Ha & _).
  - apply Generation.GenerationWitness.c0_inv.
  - done.
  - apply d0_healthy.
  - apply surjective_pairing.
  - vm_compute. done.
  - by exists resp, rec.
Defined.
End HttpWitness.
