(* ===== verification/Coordinator.v ===== *)
(** * The coordinator process
      ([bins/fracture-coordinator-cuda/src/{handlers,pipeline_setup}.rs])

    The sequential completion handler, the start-up that turns registered workers
    into a pipeline, the task that lets workers reconnect, and the view of the
    cluster for the dashboard.  The pipeline, the registry and the sequence
    states are shared with other tasks, which may change them whenever a lock is
    free. *)

From stdpp Require Import pretty.
From S2P Require Import Prelude F32 Core Frame Connection LayerScheduler SeqState Registry DistPipeline Rebalance Worker WorkerLoop DistLoop DistLoopRun.
From S2P Require Sampling Generation Dashboard Http.

(** ** Sequential generation *)

Record Shared := { sh_pipeline : DistributedPipeline; sh_registry : PeerRegistry; sh_mgr : SequenceStateManager }.

Definition STOP_TOKENS : list Z := [128001; 128008; 128009]%Z.

Definition on_pipeline {A : Type} (m : st (DistributedPipeline * PeerRegistry) A) : st Shared A := λ s,
  let '((p, reg), r) := m (sh_pipeline s, sh_registry s) in ({| sh_pipeline := p; sh_registry := reg; sh_mgr := sh_mgr s |}, r).
Definition on_registry {A : Type} (m : DistributedPipeline → st PeerRegistry A) : st Shared A := λ s,
  let '(reg, r) := m (sh_pipeline s) (sh_registry s) in ({| sh_pipeline := sh_pipeline s; sh_registry := reg; sh_mgr := sh_mgr s |}, r).
Definition on_mgr {A : Type} (m : st SequenceStateManager A) : st Shared A := λ s,
  let '(mgr, r) := m (sh_mgr s) in ({| sh_pipeline := sh_pipeline s; sh_registry := sh_registry s; sh_mgr := mgr |}, r).

Section generate.
Variable crc32c : list Z → Z.
Variable exp : f32 → f32.
Context `{Bincode ForwardPayload} `{Bincode ForwardResultPayload} `{Bincode ErrorPayload}.
(** What the other tasks do before the [k]-th lock, the random numbers, and the
    order in which workers acknowledge an allocation. *)
Variable others : nat → Shared → Shared.
Variable random : nat → option Z → f32.
Variable js : JoinSchedule.

Definition locked {A : Type} (k : nat) (m : st Shared A) : st Shared A := λ s, m (others k s).

Fixpoint decode_steps (n k : nat) (sid : Z) (params : Sampling.SamplingParams) (next_token pos : Z) (generated : list Z) : st Shared (list Z) :=
  match n with
  | 0 => sret generated
  | S n' =>
      do! logits := locked k (on_registry (λ p, forward crc32c p sid [next_token] [pos] false)) in
      do! next_token := slift (Sampling.sample exp (random k) logits params) in
      if bool_decide (next_token ∈ STOP_TOKENS) then sret generated
      else
        do! pos := slift (checked 32 (pos + 1)) in
        decode_steps n' (S k) sid params next_token pos (generated ++ [next_token])
  end.

Definition distributed_generate_inner (sid : Z) (prompt_tokens : list Z) (max_tokens : nat) (params : Sampling.SamplingParams) : st Shared (list Z) :=
  do! _ := locked 1 (on_pipeline (alloc_cache crc32c js sid)) in
  let positions := Z.of_nat <$> seq 0 (Z.to_nat (wrap 32 (Z.of_nat (length prompt_tokens)))) in
  do! logits := locked 2 (on_registry (λ p, forward crc32c p sid prompt_tokens positions true)) in
  do! next_token := slift (Sampling.sample exp (random 2) logits params) in
  if bool_decide (next_token ∈ STOP_TOKENS) then sret []
  else decode_steps (max_tokens - 1) 3 sid params next_token (wrap 32 (Z.of_nat (length prompt_tokens))) [next_token].

(** [locks]: a number above those of the inner part. *)
Definition distributed_generate (locks : nat) (prompt_tokens : list Z) (max_tokens : nat) (temperature : f32) (top_k : nat) (top_p : f32)
    : st Shared (list Z) := λ s,
  let params := {| Sampling.temperature := temperature; Sampling.top_k := top_k; Sampling.top_p := top_p; Sampling.seed := None |} in
  match locked 0 (λ s, on_mgr (SeqState.create (length prompt_tokens) max_tokens (DistPipeline.order (sh_pipeline s))) s) s with
  | (s, Ok sid) =>
      match distributed_generate_inner sid prompt_tokens max_tokens params s with
      | (s, Panic) => (s, Panic)
      | (s, result) =>
          let s := (locked locks (on_pipeline (free_cache crc32c sid)) s).1 in
          let s := (locked (S locks) (on_mgr (match result with Ok _ => SeqState.complete sid | _ => SeqState.mark_error sid end)) s).1 in
          ((on_mgr (λ m, ((SeqState.remove sid m).1, Ok ())) s).1, result)
      end
  | (s, Err e) => (s, Err e)
  | (s, Panic) => (s, Panic)
  end.

(** [completions_handler]; [ts] is the time stamp. *)
Definition coordinator_completions (tk : Http.Tokenizer) (max_seq_len : nat) (locks : nat) (ts : Z) (req : Http.CompletionRequest) : st Shared Http.Response :=
  if bool_decide (Http.cr_prompt req = "") then sret (Http.ErrorBody 400 "empty prompt")
  else if flt (Http.cr_temperature req) f32_zero then sret (Http.ErrorBody 400 "negative temperature")
  else
    match Http.encode tk (Http.cr_prompt req) with
    | None => sret (Http.ErrorBody 500 "tokenization failed")
    | Some prompt_tokens =>
        let prompt_len := length prompt_tokens in
        if bool_decide (max_seq_len < prompt_len) then
          sret (Http.ErrorBody 400 ("prompt length " +:+ pretty prompt_len +:+ " exceeds max_seq_len " +:+ pretty max_seq_len))
        else λ s,
          match distributed_generate locks prompt_tokens (Http.cr_max_tokens req) (Http.cr_temperature req) (Http.cr_top_k req) (Http.cr_top_p req) s with
          | (s, Ok generated_tokens) =>
              let text := Http.decode_tokens tk generated_tokens in
              (s, Ok (Http.JsonBody {|
                 Http.rs_id := "cmpl-" +:+ pretty ts; Http.rs_object := "text_completion"; Http.rs_created := ts;
                 Http.choices := [{| Http.ch_index := 0; Http.ch_text := Some text; Http.ch_message := None; Http.ch_finish_reason := Some "stop" |}];
                 Http.usage := Http.usage_of prompt_len (length generated_tokens) |}))
          | (s, Err e) => (s, Ok (Http.ErrorBody 500 "generation failed"))
          | (s, Panic) => (s, Panic)
          end
    end.
End generate.

(** ** Start-up *)

(** What the accept loop meets: a connection at a time, a failed accept, or the
    end of the acceptance timeout. *)
Inductive Accepted := AcceptConn (now : Z) (c : FramedConnection) | AcceptFailed | AcceptTimeout.

Definition register_caps (r : RegisterPayload) : WorkerCapabilities :=
  {| LayerScheduler.node_id := rp_node_id r; gpu_model := rp_gpu_model r; gpu_memory_available := rp_gpu_memory_available r;
     compute_capability := rp_compute_capability r; decode_ms_per_layer := rp_decode_ms_per_layer r;
     prefill_ms_per_layer_128 := rp_prefill_ms_per_layer_128 r |}.

#[export] Instance LayerRange_eq_dec : EqDecision LayerRange.
Proof. solve_decision. Defined.

Section setup.
Variable crc32c : list Z → Z.
Context `{Bincode RegisterPayload} `{Bincode ReRegisterPayload} `{Bincode RegisterAckPayload} `{Bincode WhoIsCoordinatorResponsePayload}.
Variable ho : HashOrder.

(** One connection: anything but a registration that succeeds is dropped. *)
Definition accept_one (now : Z) (conn : FramedConnection) (reg : PeerRegistry) : PeerRegistry :=
  match conn_recv crc32c conn with
  | (conn, Ok (header, payload)) =>
      if negb (bool_decide (msg_type header = Register)) then reg
      else
        match deserialize_payload (P := RegisterPayload) payload with
        | Ok reg_msg => (register now (register_caps reg_msg) conn reg).1
        | _ => reg
        end
  | _ => reg
  end.

(** The accept loop; it returns [None] while it still waits. *)
Fixpoint accept_workers (expected : nat) (events : list Accepted) (reg : PeerRegistry) : PeerRegistry * option (result unit) :=
  if bool_decide (expected ≤ Registry.active_count ho reg) then (reg, Some (Ok ()))
  else
    match events with
    | [] => (reg, None)
    | AcceptTimeout :: _ => (reg, Some (Err (Server "timed out waiting for workers")))
    | AcceptFailed :: _ => (reg, Some (Err (Io "accept")))
    | AcceptConn now conn :: events' => accept_workers expected events' (accept_one now conn reg)
    end.

Fixpoint send_acks (c : ModelConfig) (msl : Z) (asg : list LayerAssignment) : st PeerRegistry unit :=
  match asg with
  | [] => sret ()
  | a :: asg' =>
      do! _ := assign (la_node_id a) a in
      do! _ := with_writer (la_node_id a) (Connection.send crc32c serialize RegisterAck 0 (reconfigure_payload c msl a)) in
      send_acks c msl asg'
  end.

Fixpoint await_workers (asg : list LayerAssignment) : st PeerRegistry unit :=
  match asg with
  | [] => sret ()
  | a :: asg' =>
      do! hp := with_reader (la_node_id a) (recv crc32c) in
      if negb (bool_decide (msg_type hp.1 = WorkerReady)) then serr (Server "expected WorkerReady") else await_workers asg'
  end.

(** The part after all workers have registered; the pipeline is broadcast. *)
Definition setup_pipeline (c : ModelConfig) (mode : SchedulingMode) (msl : Z) : st PeerRegistry DistributedPipeline := λ reg,
  (do! result := slift (schedule (rebalance_input c mode msl (all_capabilities ho reg))) in
   do! _ := send_acks c msl (assignments result) in
   do! _ := await_workers (assignments result) in
   slift (pipeline_new (assignments result) (Core.hidden_size c))) reg.

Definition accept_and_setup_pipeline (c : ModelConfig) (mode : SchedulingMode) (expected : nat) (msl : Z) (events : list Accepted)
    (reg : PeerRegistry) : PeerRegistry * option (result DistributedPipeline) :=
  match accept_workers expected events reg with
  | (reg, Some (Ok _)) => let '(reg, r) := setup_pipeline c mode msl reg in (reg, Some r)
  | (reg, Some (Err e)) => (reg, Some (Err e))
  | (reg, Some Panic) => (reg, Some Panic)
  | (reg, None) => (reg, None)
  end.

(** ** Reconnection *)

(** Who connects: a registration of a fresh process, or of a surviving one with
    the layers it holds. *)
Definition reconnecting (mt : MessageType) (payload : list Z) : option (WorkerCapabilities * bool * option LayerRange) :=
  match mt with
  | Register =>
      match deserialize_payload (P := RegisterPayload) payload with
      | Ok p => Some (register_caps p, false, None)
      | _ => None
      end
  | ReRegister =>
      match deserialize_payload (P := ReRegisterPayload) payload with
      | Ok p =>
          let current := match current_layer_start p, current_layer_end p with
                         | Some s, Some e => Some {| rstart := s; rend := e |}
                         | _, _ => None
                         end in
          Some (caps_of p, true, current)
      | _ => None
      end
  | _ => None
  end.

Definition ack_type (id : string) (is_reregister : bool) (current : option LayerRange) (a : LayerAssignment) : MessageType :=
  if bool_decide (la_node_id a = id) then
    if is_reregister then if bool_decide (current = Some (layer_range a)) then RegisterAck else Reconfigure else RegisterAck
  else Reconfigure.

(** One worker of the new schedule; the flag is [all_ok]. *)
Definition inform_one (c : ModelConfig) (msl : Z) (mt : LayerAssignment → MessageType) (s : PeerRegistry * bool) (a : LayerAssignment) : PeerRegistry * bool :=
  let reg := (assign (la_node_id a) a s.1).1 in
  match reg !! la_node_id a with
  | Some _ =>
      match with_writer (la_node_id a) (Connection.send crc32c serialize (mt a) 0 (reconfigure_payload c msl a)) reg with
      | (reg, Ok _) => (reg, s.2)
      | (reg, _) => (reg, false)
      end
  | None => (reg, s.2)
  end.

(** One connection to the reconnection listener: the connection if it was only
    answered, and the pipeline that is broadcast, if any.  [others] acts before
    each lock. *)
Definition reconnect_one (others : nat → PeerRegistry → PeerRegistry) (c : ModelConfig) (mode : SchedulingMode) (msl : Z) (self_addr : string)
    (now : Z) (conn : FramedConnection) (reg : PeerRegistry) : PeerRegistry * option FramedConnection * result (option DistributedPipeline) :=
  match conn_recv crc32c conn with
  | (conn, Ok (header, payload)) =>
      if bool_decide (msg_type header = WhoIsCoordinator) then
        let resp := {| who_coordinator_addr := Some self_addr; who_term := 0; who_manifest := None |} in
        (reg, Some (conn_send crc32c WhoIsCoordinatorResponse 0 resp conn).1, Ok None)
      else
        match reconnecting (msg_type header) payload with
        | None => (reg, None, Ok None)
        | Some (caps, is_reregister, current) =>
            let id := LayerScheduler.node_id caps in
            let reg := others 0 reg in
            let is_new_worker := bool_decide (reg !! id = None) in
            let reg := others 1 reg in
            let reg := if is_new_worker then reg else mark_dead id reg in
            match register now caps conn reg with
            | (reg, Ok _) =>
                if is_new_worker then (mark_pending id reg, None, Ok None)
                else
                  let reg := others 2 reg in
                  let all_caps := all_capabilities ho reg in
                  if bool_decide (all_caps = []) then (reg, None, Ok None)
                  else
                    match schedule (rebalance_input c mode msl all_caps) with
                    | Ok result =>
                        let '(reg, all_ok) := foldl (inform_one c msl (ack_type id is_reregister current)) (others 3 reg, true) (assignments result) in
                        if negb all_ok then (reg, None, Ok None)
                        else
                          let reg := foldl (await_ready crc32c) (others 4 reg) (assignments result) in
                          (reg, None, match pipeline_new (assignments result) (Core.hidden_size c) with
                                      | Ok p => Ok (Some p) | Err _ => Ok None | Panic => Panic end)
                    | Err _ => (reg, None, Ok None)
                    | Panic => (reg, None, Panic)
                    end
            | (reg, _) => (reg, None, Ok None)
            end
        end
  | (_, _) => (reg, None, Ok None)
  end.
End setup.

(** ** The dashboard's view of the cluster *)

Definition status_name (s : WorkerStatus) : string :=
  match s with
  | Registry.Connected => "calibrating" | Registry.Ready => "active" | Registry.Draining => "draining" | Registry.Pending => "pending" | Registry.Dead => "dead"
  end.

(** [build_cluster_snapshot]; instants are in milliseconds. *)
Definition worker_info (now : Z) (reg : PeerRegistry) (n i : nat) (id : string) : option Dashboard.WorkerInfo :=
  entry ← reg !! id;
  Some {| Dashboard.wi_id := i;
          Dashboard.wi_role := if bool_decide (i = 0)%nat then "head" else if bool_decide (i = n - 1)%nat then "tail" else "middle";
          Dashboard.wi_address := LayerScheduler.node_id (capabilities entry); Dashboard.wi_gpu := gpu_model (capabilities entry);
          Dashboard.vram_total_mb := gpu_memory_available (capabilities entry) `div` (1024 * 1024);
          Dashboard.vram_used_mb := gpu_memory_used entry `div` (1024 * 1024);
          Dashboard.wi_layers := match assignment entry with
                                 | Some a => (rstart (layer_range a), Z.max 0 (rend (layer_range a) - 1))
                                 | None => (0, 0)
                                 end;
          Dashboard.wi_status := status_name (Registry.status entry);
          Dashboard.last_heartbeat_ms := Z.max 0 (now - last_heartbeat entry);
          Dashboard.calibration_ms_per_layer := f32_to_f64 (decode_ms_per_layer (capabilities entry)) |}%Z.

Definition build_cluster_snapshot (ho : HashOrder) (now : Z) (reg : PeerRegistry) (c : ModelConfig) (msl : Z) : Dashboard.ClusterResponse :=
  let ids := pipeline_order ho reg in
  let infos := omap id (imap (worker_info now reg (length ids)) ids) in
  {| Dashboard.cl_mode := "distributed"; Dashboard.num_workers := length infos; Dashboard.cl_workers := infos; Dashboard.scheduling_mode := "auto";
     Dashboard.cl_model := {| Dashboard.mi_name := "llama-3-8b"; Dashboard.mi_parameters := "8B"; Dashboard.mi_layers := num_layers c;
                              Dashboard.context_length := msl; Dashboard.mi_dtype := "FP16" |} |}.

(** ** The admin endpoints ([admin.rs]) *)

Inductive RebalanceRequest := Forced | Graceful.

(** The registry, and the channel to the loop: what was sent on it, and whether
    its receiver is alive. *)
Record AdminState := { ad_registry : PeerRegistry; rebalance_tx : list RebalanceRequest; rebalance_open : bool }.

Record ClusterWorkerInfo := {
  cw_node_id : string; cw_status : string; cw_gpu_model : string; cw_layers : option string; cw_free_blocks : Z; gpu_memory_used_mb : Z
}.
Record ClusterStateResponse := { cs_num_workers : nat; cs_workers : list ClusterWorkerInfo; pending_joins : nat }.
Record AdminResponse := { ar_status : string; ar_message : string }.

(** [format!("{:?}", status)] and [format!("{:?}", range)] *)
Definition status_debug (s : WorkerStatus) : string :=
  match s with
  | Registry.Connected => "Connected" | Registry.Ready => "Ready" | Registry.Draining => "Draining" | Registry.Pending => "Pending" | Registry.Dead => "Dead"
  end.
Definition range_debug (r : LayerRange) : string := pretty (rstart r) +:+ ".." +:+ pretty (rend r).

Definition cluster_worker (ke : string * WorkerEntry) : ClusterWorkerInfo :=
  {| cw_node_id := ke.1; cw_status := status_debug (Registry.status ke.2); cw_gpu_model := gpu_model (capabilities ke.2);
     cw_layers := range_debug ∘ layer_range <$> assignment ke.2; cw_free_blocks := we_free_blocks ke.2;
     gpu_memory_used_mb := gpu_memory_used ke.2 `div` (1024 * 1024) |}.

(** [cluster_handler]: [ho] and [ho'] order its two iterations over the map. *)
Definition admin_cluster (ho ho' : HashOrder) (s : AdminState) : ClusterStateResponse :=
  let workers := cluster_worker <$> hm_iter ho (ad_registry s) in
  {| cs_num_workers := length workers; cs_workers := workers; pending_joins := length (pending_workers ho' (ad_registry s)) |}.

(** [rebalance_handler] and [drain_handler]; the number is the HTTP status. *)
Definition admin_request (req : RebalanceRequest) (s : AdminState) : AdminState * (Z * AdminResponse) :=
  if rebalance_open s then
    ({| ad_registry := ad_registry s; rebalance_tx := rebalance_tx s ++ [req]; rebalance_open := true |},
     (200%Z, {| ar_status := "ok";
                ar_message := match req with
                              | Forced => "forced rebalance triggered"
                              | Graceful => "graceful rebalance triggered (will execute when active sequences drain)"
                              end |}))
  else (s, (500%Z, {| ar_status := "error"; ar_message := "distributed loop not running" |})).

(** ** Generation over the wire is generation *)

Section wire.
Variable crc32c : list Z → Z.
Variable exp : f32 → f32.
Context `{Bincode ForwardPayload} `{Bincode ForwardResultPayload} `{Bincode ErrorPayload}.
Variable others : nat → Shared → Shared.
Variable random : nat → option Z → f32.
Variable js : JoinSchedule.

(** The distributed pipeline as an engine: the state has the number of the next
    lock; the first pass is the prefill. *)
Definition wire_engine : Generation.PagedEngine (nat * Shared) := {|
  Generation.forward_paged ids ps h := λ '(c, (k, s)),
    let '(s', r) := locked others k (on_registry (λ p, forward crc32c p h ids ps (bool_decide (k = 2)))) s in ((c, (S k, s')), r)
|}.

Definition wire_config (max_tokens : nat) (params : Sampling.SamplingParams) : Generation.GenerationConfig :=
  {| Generation.max_tokens := max_tokens; Generation.gen_temperature := Sampling.temperature params; Generation.gen_top_k := Sampling.top_k params;
     Generation.gen_top_p := Sampling.top_p params; Generation.stop_tokens := STOP_TOKENS; Generation.gen_seed := Sampling.seed params |}.

(** [GenerationLoop::generate_inner] on that engine, without its local cache. *)
Definition wire_generate (sid : Z) (prompt : list Z) (max_tokens : nat) (params : Sampling.SamplingParams) (cache : PagedCache.PagedKvCacheManager)
    : st Shared (list Z) := λ s,
  let '(_, (_, s'), _, r) := Generation.generate_inner (H := wire_engine) exp (λ i, random (i + 2)) (λ _, false) (wire_config max_tokens params) prompt sid
                               (cache, (2, s), []) in
  (s', rmap Generation.tokens r).

Lemma wire_params max_tokens params : Generation.params (wire_config max_tokens params) = params.
Proof. by destruct params. Qed.

Lemma decode_steps_wire n j sid max_tokens params t pos g cache log s :
  ∃ k log', Generation.gen_loop (H := wire_engine) exp (λ i, random (i + 2)) (λ _, false) (wire_config max_tokens params) sid n (S j) t pos g
              (cache, (S j + 2, s), log) =
    let '(s', r) := decode_steps crc32c exp others random n (S j + 2) sid params t pos g s in
    ((cache, (k, s'), log'), match r with
                             | Ok g' => Ok (g', if bool_decide (length g' = length g + n) then Generation.Length else Generation.Stop)
                             | Err e => Err e | Panic => Panic end).
Proof.
  revert j t pos g log s. induction n as [|n IH]; intros j t pos g log s; cbn [Generation.gen_loop decode_steps].
  { exists (S j + 2), log. unfold sret. by rewrite bool_decide_true by lia. }
  unfold sbind, slift, sret, Generation.emit, Generation.on_engine. cbn [fst snd Generation.forward_paged wire_engine].
  rewrite (bool_decide_false (S j + 2 = 2)) by lia. rewrite wire_params. cbn [Generation.stop_tokens wire_config].
  destruct (locked _ _ _ s) as [s1 [lg|e|]]; [| by eexists _, _..].
  destruct (Sampling.sample _ _ _ _) as [tok|e|]; [| by eexists _, _..]. destruct (bool_decide (tok ∈ STOP_TOKENS)).
  { exists (S (S j + 2)), log. by rewrite bool_decide_false by lia. }
  cbn [fst snd]. destruct (checked 32 (pos + 1)) as [pos'|e|]; [| by eexists _, _..].
  destruct (IH (S j) tok pos' (g ++ [tok]) (log ++ [tok]) s1) as (k & log' & Heq). exists k, log'.
  change (S (S j + 2)) with (S (S j) + 2). rewrite Heq. destruct (decode_steps _ _ _ _ _ _ _ _ _ _ _ _) as [s' [g'| |]]; [| done..].
  rewrite length_app. simpl. by replace (length g + 1 + n) with (length g + S n) by lia.
Qed.

(** C16: generating over the workers is the generation loop with network
    forward passes, as the source says.  Once the caches are allocated,
    [distributed_generate_inner] does what [GenerationLoop::generate_inner] does
    on an engine whose passes are those of the distributed pipeline, with the
    same sampling, the coordinator's stop tokens and no cancellation: the same
    passes at the same positions in the same order, the same result, error or
    panic, and the same state left behind, whatever other tasks do between the
    passes.  The local cache plays no part. *)
Theorem wire_generation sid prompt max_tokens params cache s :
  distributed_generate_inner crc32c exp others random js sid prompt max_tokens params s =
    (do! _ := locked others 1 (on_pipeline (alloc_cache crc32c js sid)) in wire_generate sid prompt max_tokens params cache) s.
Proof.
  unfold distributed_generate_inner, sbind at 1. unfold sbind at 3. destruct (locked _ _ _ s) as [s1 [[]|e|]]; [| done..].
  unfold wire_generate, Generation.generate_inner, sbind, slift, sret, Generation.emit, Generation.on_engine.
  cbn [fst snd Generation.forward_paged wire_engine]. rewrite (bool_decide_true (2 = 2)) by done. rewrite wire_params.
  destruct (locked _ _ _ s1) as [s2 [lg|e|]]; [| done..]. cbn [Nat.add].
  destruct (Sampling.sample _ _ _ _) as [tok|e|]; [| done..]. cbn [Generation.stop_tokens wire_config Generation.max_tokens fst snd].
  destruct (bool_decide (tok ∈ STOP_TOKENS)); [done |].
  destruct (decode_steps_wire (max_tokens - 1) 0 sid max_tokens params tok (wrap 32 (Z.of_nat (length prompt))) [tok] cache [tok] s2) as (k & log' & Heq).
  cbn [Nat.add] in Heq. cbn [fst snd app]. rewrite Heq. by destruct (decode_steps _ _ _ _ _ _ _ _ _ _ _ _) as [s3 [g| |]].
Qed.

Definition no_cache : PagedCache.PagedKvCacheManager := BlockTables.tables_new
  {| PagedCache.k_blocks := []; PagedCache.v_blocks := []; PagedCache.free_list := []; PagedCache.capacity := 0; PagedCache.pool_num_layers := 0;
     PagedCache.pool_num_kv_heads := 0; PagedCache.pool_head_dim := 0 |}.

(** The tokens that are returned. *)
Lemma inner_tokens sid prompt max_tokens params s s' toks :
  distributed_generate_inner crc32c exp others random js sid prompt max_tokens params s = (s', Ok toks) →
  Forall (λ t, t ∉ STOP_TOKENS) toks ∧ length toks ≤ Nat.max 1 max_tokens.
Proof.
  unfold distributed_generate_inner. intros (s1 & [] & _ & (s2 & lg & _ & (s3 & tok & _ & Hr)%sbind_Ok)%sbind_Ok)%sbind_Ok.
  case_bool_decide as Hstop; [injection Hr as _ <-; split; [done | simpl; lia] |].
  destruct (decode_steps_wire (max_tokens - 1) 0 sid max_tokens params tok (wrap 32 (Z.of_nat (length prompt))) [tok]
              no_cache [] s3) as (k & log' & Heq).
  cbn [Nat.add] in Heq. rewrite Hr in Heq. apply Generation.gen_loop_tokens in Heq as (new & -> & _ & Hlen & Hall & _).
  split; [by constructor | simpl; lia].
Qed.
End wire.

(** ** A request leaves nothing behind *)

Section cleanup.
Variable crc32c : list Z → Z.
Variable exp : f32 → f32.
Context `{Bincode ForwardPayload} `{Bincode ForwardResultPayload} `{Bincode BatchedForwardPayload} `{Bincode BatchedForwardResultPayload}
  `{Bincode ErrorPayload} `{Bincode RegisterAckPayload}.
Variable others : nat → Shared → Shared.
Variable random : nat → option Z → f32.
Variable js : JoinSchedule.
Hypothesis codec : codec_total.
Hypothesis forward_total : ∀ x : ForwardPayload, serialize x ≠ Panic.

Lemma locked_total {A : Type} k (m : st Shared A) : total m → total (locked others k m).
Proof using Type. intros Hm s. apply Hm. Qed.
Lemma on_pipeline_total {A : Type} (m : st (DistributedPipeline * PeerRegistry) A) : total m → total (on_pipeline m).
Proof using Type. intros Hm s. unfold on_pipeline. specialize (Hm (sh_pipeline s, sh_registry s)). by destruct (m _) as [[p reg] r]. Qed.
Lemma on_registry_total {A : Type} (m : DistributedPipeline → st PeerRegistry A) : (∀ p, total (m p)) → total (on_registry m).
Proof using Type. intros Hm s. unfold on_registry. specialize (Hm (sh_pipeline s) (sh_registry s)). by destruct (m _ _) as [reg r]. Qed.

Lemma forward_loop_total hs n sid ps prefill i nodes cur : total (forward_loop crc32c hs n sid ps prefill i nodes cur).
Proof using codec forward_total.
  revert i cur. induction nodes as [|id nodes IH]; intros i cur; cbn [forward_loop]; [by intros ? |].
  apply total_bind; [apply with_writer_total, send_total, forward_total |]. intros _.
  apply total_bind; [apply with_reader_total, recv_acks_total |]. intros hp. apply total_if.
  { apply total_lift. unfold worker_error. apply rbind_no_panic; [apply payload_total, codec | done]. }
  apply total_if; [by intros ? |]. apply total_bind; [apply total_lift, payload_total, codec |].
  intros res. destruct (DistPipeline.output res) as [data|th td]; [apply total_if; by intros ? |].
  apply total_if; [by intros ? |]. apply total_if; [by intros ? | apply IH].
Qed.

Lemma forward_pass_total p sid toks ps prefill : total (forward crc32c p sid toks ps prefill).
Proof using codec forward_total. unfold forward. apply total_if; [by intros ? | apply forward_loop_total]. Qed.

Lemma sample_no_panic rnd logits params : Sampling.sample exp rnd logits params ≠ Panic.
Proof using Type. pose proof (Sampling.sample_outcome exp rnd logits params) as Ho. by destruct (Sampling.sample _ _ _ _). Qed.

Lemma decode_steps_total n k sid params t pos g : (0 ≤ pos)%Z → (pos + Z.of_nat n < 2 ^ 32)%Z →
  total (decode_steps crc32c exp others random n k sid params t pos g).
Proof using codec forward_total.
  revert k t pos g. induction n as [|n IH]; intros k t pos g H0p Hp; cbn [decode_steps]; [by intros ? |].
  apply total_bind; [apply locked_total, on_registry_total; intros p; apply forward_pass_total |]. intros lg.
  apply total_bind; [apply total_lift, sample_no_panic |]. intros tok. apply total_if; [by intros ? |].
  rewrite checked_Ok by (unfold in_width; lia). intros s. apply IH; lia.
Qed.

Lemma inner_total sid prompt max_tokens params : (Z.of_nat (length prompt + max_tokens) < 2 ^ 32)%Z →
  total (distributed_generate_inner crc32c exp others random js sid prompt max_tokens params).
Proof using codec forward_total.
  intros Hn. unfold distributed_generate_inner. rewrite !wrap_small by (unfold in_width; lia).
  apply total_bind; [apply locked_total, on_pipeline_total; exact (alloc_cache_total crc32c codec js sid) |]. intros _.
  apply total_bind; [apply locked_total, on_registry_total; intros p; apply forward_pass_total |]. intros lg.
  apply total_bind; [apply total_lift, sample_no_panic |]. intros tok. apply total_if; [by intros ? |].
  apply decode_steps_total; lia.
Qed.

Lemma free_cache_frees sid p reg : sid ∉ allocated_seqs (free_cache crc32c sid (p, reg)).1.1.
Proof using Type.
  unfold free_cache. case_bool_decide as Hin; cbn [negb]; [| done].
  destruct (send_to_all _ _ _ _ _) as [reg' r]. cbn [fst set_seqs allocated_seqs]. apply not_elem_of_difference. right. by apply elem_of_singleton.
Qed.

(** C17: a sequential request to the coordinator comes to an end and leaves no
    trace in the coordinator's books, provided each worker it waits for answers
    or hangs up (there is no time limit on a read).  Whatever the workers answer
    and whatever other tasks do between the locks, [distributed_generate] does
    not panic for prompts and limits that fit a [u32], with a codec that returns
    errors instead of panicking; whether it returns tokens or an error, its
    sequence is afterwards unknown to the sequence manager and no longer recorded
    as allocated on the pipeline, unless another task uses its id.  (This is not
    a statement about the workers' caches: a [CacheFree] that fails is not
    repeated.)  The tokens are at most [max_tokens] (one, if that is zero), and
    none is a stop token. *)
Theorem distributed_generate_ends locks prompt max_tokens temperature top_k top_p s :
  let sid := next_id (sh_mgr (others 0 s)) in
  (0 ≤ sid)%Z → (sid + 1 < 2 ^ 64)%Z → (Z.of_nat (length prompt + max_tokens) < 2 ^ 32)%Z →
  (∀ s, sid ∉ allocated_seqs (sh_pipeline s) → sid ∉ allocated_seqs (sh_pipeline (others (S locks) s))) →
  ∃ s' r, distributed_generate crc32c exp others random js locks prompt max_tokens temperature top_k top_p s = (s', r) ∧ r ≠ Panic ∧
    sequences (sh_mgr s') !! sid = None ∧ sid ∉ allocated_seqs (sh_pipeline s') ∧
    ∀ toks, r = Ok toks → Forall (λ t, t ∉ STOP_TOKENS) toks ∧ length toks ≤ Nat.max 1 max_tokens.
Proof using codec forward_total.
  intros sid Hpos Hid Hn Hothers. unfold distributed_generate, locked at 1, on_mgr at 1, SeqState.create, uadd. fold sid.
  rewrite checked_Ok by (unfold in_width; lia). set (s1 := {| sh_pipeline := _; sh_registry := _; sh_mgr := _ |}).
  set (params := {| Sampling.temperature := _; Sampling.top_k := _; Sampling.top_p := _; Sampling.seed := _ |}).
  pose proof (inner_total sid prompt max_tokens params Hn s1) as Ht.
  pose proof (inner_tokens crc32c exp others random js sid prompt max_tokens params s1) as Htoks.
  destruct (distributed_generate_inner _ _ _ _ _ _ _ _ _ s1) as [s2 r]. cbn [snd] in Ht.
  set (s3 := (locked others locks (on_pipeline (free_cache crc32c sid)) s2).1).
  assert (sid ∉ allocated_seqs (sh_pipeline s3)) as Hfree.
  { unfold s3, locked, on_pipeline. pose proof (free_cache_frees sid (sh_pipeline (others locks s2)) (sh_registry (others locks s2))) as Hf.
    by destruct (free_cache _ _ _) as [[p reg] rf]. }
  set (m := match r with Ok _ => SeqState.complete sid | _ => SeqState.mark_error sid end).
  exists (on_mgr (λ m, ((SeqState.remove sid m).1, Ok ())) (locked others (S locks) (on_mgr m) s3).1).1, r.
  split; [by destruct r |]. split; [done |].
  unfold on_mgr at 1 2 3. unfold locked, on_mgr. destruct (m (sh_mgr (others (S locks) s3))) as [mg rm]. cbn [fst sh_mgr sh_pipeline SeqState.remove sequences].
  split; [apply lookup_delete_eq |]. split; [by apply Hothers |]. intros toks ->. by apply (Htoks s2).
Qed.
End cleanup.

(** ** Start-up *)

Section startup.
Variable crc32c : list Z → Z.
Context `{Bincode RegisterPayload} `{Bincode ReRegisterPayload} `{Bincode RegisterAckPayload} `{Bincode WhoIsCoordinatorResponsePayload}.
Implicit Types reg : PeerRegistry.

(** What the start-up does to the worker of assignment [a]. *)
Definition acked (c : ModelConfig) (msl : Z) (a : LayerAssignment) (e e' : WorkerEntry) : Prop :=
  Registry.status e ≠ Dead ∧ capabilities e' = capabilities e ∧ assignment e' = Some a ∧ Registry.status e' = Registry.Ready ∧
  ∃ bs, serialize (reconfigure_payload c msl a) = Ok bs ∧ w_sent (writer e') = w_sent (writer e) ++ frames_of crc32c [(RegisterAck, 0%Z, bs)].

Lemma send_ack_Ok c msl a reg reg1 reg2 :
  assign (la_node_id a) a reg = (reg1, Ok ()) →
  with_writer (la_node_id a) (Connection.send crc32c serialize RegisterAck 0 (reconfigure_payload c msl a)) reg1 = (reg2, Ok ()) →
  ∃ e e', reg !! la_node_id a = Some e ∧ reg2 = <[la_node_id a := e']> reg ∧ acked c msl a e e'.
Proof using Type.
  unfold assign. destruct (reg !! la_node_id a) as [e|]; [| done]. case_bool_decide as Hd; [done |]. intros [= <-].
  unfold with_writer. rewrite lookup_insert_eq. cbn [writer]. unfold Connection.send, sbind, slift.
  destruct (serialize (reconfigure_payload c msl a)) as [bs| |] eqn:Hbs; [| done..].
  destruct (w_open (writer e)) eqn:Ho; [| unfold send_raw, sbind, write_all; by rewrite Ho].
  rewrite (send_raw_open _ _ _ _ _ Ho). intros [= <-]. eexists e, _. split_and!; [done | apply insert_insert_eq |].
  unfold acked. split_and!; try done. exists bs. split; [done |]. unfold frames_of. simpl. by rewrite app_nil_r.
Qed.

Lemma send_acks_Ok c msl asg reg reg' :
  NoDup (la_node_id <$> asg) → send_acks crc32c c msl asg reg = (reg', Ok ()) →
  (∀ a, a ∈ asg → ∃ e e', reg !! la_node_id a = Some e ∧ reg' !! la_node_id a = Some e' ∧ acked c msl a e e') ∧
  (∀ id, id ∉ la_node_id <$> asg → reg' !! id = reg !! id).
Proof using Type.
  revert reg. induction asg as [|a asg IH]; intros reg Hnd; cbn [send_acks].
  { intros [= <-]. split; [by intros a []%not_elem_of_nil | done]. }
  csimpl in Hnd. apply NoDup_cons in Hnd as [Ha Hnd].
  intros (reg1 & [] & Has & (reg2 & [] & Hsend & Hrest)%sbind_Ok)%sbind_Ok. destruct (send_ack_Ok _ _ _ _ _ _ Has Hsend) as (e & e' & He & -> & Hack).
  apply IH in Hrest as [Hall Hother]; [| done]. split.
  - intros b [->|Hb]%elem_of_cons.
    + exists e, e'. split_and!; [done | | done]. rewrite Hother by done. apply lookup_insert_eq.
    + destruct (Hall b Hb) as (eb & eb' & Heb & Hrest). exists eb, eb'. split; [| done].
      rewrite lookup_insert_ne in Heb; [done |]. intros Heq. apply Ha. rewrite Heq. by apply list_elem_of_fmap_2.
  - intros id Hid. csimpl in Hid. apply not_elem_of_cons in Hid as [Hne Hid]. rewrite Hother by done. by apply lookup_insert_ne.
Qed.

Lemma await_workers_log asg reg : sent_log crc32c reg (await_workers crc32c asg reg).1 (λ _, []).
Proof using Type.
  revert reg. induction asg as [|a asg IH]; intros reg; cbn [await_workers]; [apply sent_log_refl |]. unfold sbind.
  pose proof (with_reader_log crc32c (la_node_id a) (recv crc32c) reg) as Hlog. destruct (with_reader _ _ reg) as [reg1 [hp| |]]; [| done..].
  case_if; [exact Hlog |]. eapply sent_log_quiet; [exact Hlog | apply IH].
Qed.

Lemma all_capabilities_NoDup ho reg : reg_keyed reg → NoDup (LayerScheduler.node_id <$> all_capabilities ho reg).
Proof using Type.
  intros Hk. pose proof (rebalance_workers_NoDup ho [] reg Hk) as Hn. unfold rebalance_workers in Hn.
  rewrite (Dashboard.filter_all _ (all_capabilities ho reg)) in Hn; [done |]. apply Forall_true. intros x. by apply not_elem_of_nil.
Qed.

(** The pipeline of a schedule of all workers that are not dead. *)
Lemma scheduled_pipeline ho c mode msl reg res p : reg_keyed reg → (0 ≤ num_layers c)%Z →
  schedule (rebalance_input c mode msl (all_capabilities ho reg)) = Ok res → pipeline_new (assignments res) (Core.hidden_size c) = Ok p →
  DistPipeline.order p = la_node_id <$> assignments res ∧ NoDup (DistPipeline.order p) ∧ total_layers p = num_layers c ∧ allocated_seqs p = ∅ ∧
  contiguous 0 (num_layers c) (layer_range <$> assignments res) ∧ Forall nonempty_range (assignments res).
Proof using Type.
  intros Hk HL Hs Hp. set (inp := rebalance_input _ _ _ _) in Hs. assert (SchedulerInput_wf inp) as Hwf by done.
  assert (NoDup (la_node_id <$> assignments res)) as Hnd.
  { eapply (schedule_NoDup inp); [done | | done]. unfold candidates_of. simpl. rewrite ?app_nil_r. by apply all_capabilities_NoDup. }
  destruct (schedule_plan inp res Hwf Hs) as (plt & cands & counts & ex & _ & Hplan & Hb & _).
  destruct (build_result_spec _ _ _ _ _ _ Hplan Hb) as (Hc & _). destruct (pipeline_new_Ok _ _ _ Hp) as (Hord & _ & Hempty & Hc' & Hne).
  pose proof (contiguous_end _ _ _ _ Hc' Hc) as Htot. cbn [inp rebalance_input model_config] in Htot. rewrite Hord. by split_and!.
Qed.

(** Workers that are only read from keep everything else. *)
Lemma quiet_same reg1 reg2 : sent_log crc32c reg1 reg2 (λ _, []) → ∀ id,
  match reg1 !! id, reg2 !! id with
  | Some e, Some e' => Registry.status e' = Registry.status e ∧ writer e' = writer e ∧ capabilities e' = capabilities e ∧ assignment e' = assignment e
  | None, None => True
  | _, _ => False
  end.
Proof using Type.
  intros Hlog id. specialize (Hlog id). destruct (reg1 !! id) as [e|], (reg2 !! id) as [e'|]; try done. destruct Hlog as (? & Ho & Hw & ? & ?).
  split_and!; try done. change (frames_of crc32c []) with ([] : list Z) in Hw. rewrite app_nil_r in Hw. destruct (writer e), (writer e'). simpl in *. congruence.
Qed.

Lemma contiguous_last start stop l : contiguous start stop l → contiguous start (default start (rend <$> last l)) l.
Proof using Type.
  revert start. induction l as [|r l IH]; intros start Hc; [done |]. destruct Hc as (Hs & Hr & Hc). split_and!; try done.
  rewrite last_cons. specialize (IH _ Hc). by destruct (last l).
Qed.

(** The workers of the registry that none serves yet. *)
Definition idle reg : Prop := reg_keyed reg ∧ ∀ id e, reg !! id = Some e → Registry.status e ≠ Registry.Ready.

Lemma setup_pipeline_Ok ho c mode msl reg reg' p : idle reg → (0 ≤ num_layers c)%Z → setup_pipeline crc32c ho c mode msl reg = (reg', Ok p) →
  ∃ asg, DistPipeline.order p = la_node_id <$> asg ∧ NoDup (DistPipeline.order p) ∧ total_layers p = num_layers c ∧ allocated_seqs p = ∅ ∧
    partitions 0 (num_layers c) asg ∧ (∀ ho', pipeline_order ho' reg' = DistPipeline.order p) ∧
    (∀ a, a ∈ asg → ∃ e e', reg !! la_node_id a = Some e ∧ reg' !! la_node_id a = Some e' ∧ acked c msl a e e') ∧
    (∀ id, id ∉ DistPipeline.order p → (λ e, (Registry.status e, assignment e, writer e)) <$> reg' !! id = (λ e, (Registry.status e, assignment e, writer e)) <$> reg !! id).
Proof using Type.
  intros [Hk Hidle] HL Hrun. unfold setup_pipeline in Hrun.
  apply sbind_Ok in Hrun as (r0 & res & [= <- Hs] & Hrun). apply sbind_Ok in Hrun as (reg1 & [] & Hacks & Hrun).
  apply sbind_Ok in Hrun as (reg2 & [] & Hawait & [= <- Hp]).
  destruct (scheduled_pipeline ho c mode msl reg res p Hk HL Hs Hp) as (Hord & Hnd & Htot & Hempty & Hc & Hne). rewrite Hord in Hnd.
  set (asg := assignments res) in *.
  pose proof (await_workers_log asg reg1) as Hlog. rewrite Hawait in Hlog. cbn [fst] in Hlog. clear Hawait.
  destruct (send_acks_Ok _ _ _ _ _ Hnd Hacks) as [Hall Hother].
  pose proof (quiet_same _ _ Hlog) as Hsame.
  assert (∀ a, a ∈ asg → ∃ e e', reg !! la_node_id a = Some e ∧ reg2 !! la_node_id a = Some e' ∧ acked c msl a e e') as Hacked.
  { intros a Ha. destruct (Hall a Ha) as (e & e1 & He & He1 & Hack). specialize (Hsame (la_node_id a)). rewrite He1 in Hsame.
    destruct (reg2 !! la_node_id a) as [e2|]; [| done]. exists e, e2. split_and!; [done | done |].
    destruct Hsame as (Hst & Hw & Hca & Has), Hack as (Hd & Hca1 & Has1 & Hst1 & bs & Hbs & Hsent).
    unfold acked. rewrite Hst, Hca, Has, Hw. split_and!; try done. by exists bs. }
  assert (∀ id, id ∉ la_node_id <$> asg →
    (λ e, (Registry.status e, assignment e, writer e)) <$> reg2 !! id = (λ e, (Registry.status e, assignment e, writer e)) <$> reg !! id) as Hrest.
  { intros id Hid. specialize (Hsame id). rewrite Hother in Hsame by done. destruct (reg !! id), (reg2 !! id); try done.
    destruct Hsame as (Hst & Hw & _ & Has). simpl. by rewrite Hst, Hw, Has. }
  assert (reg_keyed reg2) as Hk2.
  { intros id e2 He2. specialize (Hsame id). rewrite He2 in Hsame. destruct (reg1 !! id) as [e1|] eqn:He1; [| done]. destruct Hsame as (_ & _ & -> & _).
    destruct (decide (id ∈ la_node_id <$> asg)) as [(a & -> & Ha)%list_elem_of_fmap|Hno].
    - destruct (Hall a Ha) as (e & e1' & He & He1' & (_ & Hca & _)). simplify_eq. rewrite Hca. by apply Hk.
    - rewrite Hother in He1 by done. by apply Hk. }
  exists asg. rewrite Hord. split_and!; try done.
  - by apply contiguous_partitions.
  - intros ho'. apply serving_order; try done.
    + intros id e He Hin. destruct (decide (id ∈ la_node_id <$> asg)) as [(a & -> & Ha)%list_elem_of_fmap|Hno].
      * destruct (Hacked a Ha) as (e0 & e' & _ & He' & _ & _ & Has & _). simplify_eq. by exists a.
      * specialize (Hrest id Hno). rewrite He in Hrest. destruct (reg !! id) as [e0|] eqn:He0; [| done]. injection Hrest as Hst _ _.
        unfold in_pipeline in Hin. rewrite Hst, bool_decide_false in Hin by (by eapply Hidle). done.
    + intros a Ha. destruct (Hacked a Ha) as (e0 & e' & _ & He' & _ & _ & Has & Hst & _). by exists e'.
    + pose proof (contiguous_last _ _ _ Hc) as Hlast. rewrite fmap_last in Hlast. rewrite <- option_fmap_compose in Hlast. exact Hlast.
Qed.

(** The registration a connection carries. *)
Definition registers (conn : FramedConnection) : option RegisterPayload :=
  match (conn_recv crc32c conn).2 with
  | Ok (header, payload) =>
      if bool_decide (msg_type header = Register) then match deserialize_payload (P := RegisterPayload) payload with Ok r => Some r | _ => None end
      else None
  | _ => None
  end.

Lemma accept_one_registers now conn reg :
  accept_one crc32c now conn reg =
    match registers conn with Some r => (register now (register_caps r) (conn_recv crc32c conn).1 reg).1 | None => reg end.
Proof using Type.
  unfold accept_one, registers. destruct (conn_recv crc32c conn) as [conn' [[h pl]| |]]; [| done..]. cbn [fst snd].
  case_bool_decide; cbn [negb]; [| done]. by destruct (deserialize_payload pl).
Qed.

(** Every worker is connected, under its own id. *)
Definition fresh reg : Prop := ∀ id e, reg !! id = Some e → LayerScheduler.node_id (capabilities e) = id ∧ Registry.status e = Registry.Connected.

Lemma fresh_new : fresh registry_new.
Proof using Type. intros id e He. unfold registry_new in He. by rewrite lookup_empty in He. Qed.

Lemma fresh_idle reg : fresh reg → idle reg.
Proof using Type. intros Hf. split; [intros id e He; by apply Hf |]. intros id e He. by rewrite (proj2 (Hf id e He)). Qed.

Lemma register_fresh now caps conn reg : fresh reg →
  fresh (register now caps conn reg).1 ∧ dom (register now caps conn reg).1 = {[LayerScheduler.node_id caps]} ∪ dom reg.
Proof using Type.
  intros Hf. unfold register. destruct (reg !! LayerScheduler.node_id caps) as [e|] eqn:He.
  - rewrite bool_decide_true by (by rewrite (proj2 (Hf _ _ He))). split; [done |]. cbn [fst].
    apply elem_of_dom_2 in He. clear -He. set_solver.
  - destruct (conn_into_split conn) as [w r]. cbn [fst]. split; [| by rewrite dom_insert_L].
    intros id e [[<- <-]|[_ He']]%lookup_insert_Some; [done | by apply Hf].
Qed.

Lemma active_count_fresh ho reg : fresh reg → Registry.active_count ho reg = size (dom reg).
Proof using Type.
  intros Hf. unfold Registry.active_count. rewrite Dashboard.filter_all.
  - unfold hm_values, hm_iter. rewrite length_fmap, (Permutation_length (hash_order_perm ho _ _)), length_map_to_list. by rewrite size_dom.
  - apply Forall_forall. intros e (id & He)%elem_of_hm_values. by rewrite (proj2 (Hf _ _ He)).
Qed.

Definition is_conn (ev : Accepted) : Prop := match ev with AcceptConn _ _ => True | _ => False end.
(** The ids that register in a sequence of connections. *)
Definition registered (events : list Accepted) : gset string :=
  list_to_set (omap (λ ev, match ev with AcceptConn _ conn => rp_node_id <$> registers conn | _ => None end) events).

Lemma accept_one_fresh now conn reg : fresh reg →
  fresh (accept_one crc32c now conn reg) ∧ dom (accept_one crc32c now conn reg) = registered [AcceptConn now conn] ∪ dom reg.
Proof using Type.
  intros Hf. rewrite accept_one_registers. unfold registered. cbn [omap list_omap]. destruct (registers conn) as [r|].
  - destruct (register_fresh now (register_caps r) (conn_recv crc32c conn).1 reg Hf) as [? Hd]. split; [done |]. rewrite Hd. cbn. clear. set_solver.
  - split; [done |]. cbn. clear. set_solver.
Qed.

Lemma registered_cons ev events : registered (ev :: events) = registered [ev] ∪ registered events.
Proof using Type. unfold registered. cbn [omap list_omap]. destruct ev as [now conn| |]; [| cbn; clear; set_solver..]. destruct (rp_node_id <$> registers conn); cbn; clear; set_solver. Qed.

Lemma accept_workers_Ok ho expected events reg reg' : fresh reg → accept_workers crc32c ho expected events reg = (reg', Some (Ok ())) →
  fresh reg' ∧ expected ≤ size (dom reg') ∧ dom reg' ⊆ dom reg ∪ registered events.
Proof using Type.
  revert reg. induction events as [|ev events IH]; intros reg Hf; cbn [accept_workers]; case_bool_decide as Hc; try done.
  1,2: intros [= <-]; split_and!; [done | by rewrite <- (active_count_fresh ho) | apply union_subseteq_l].
  destruct ev as [now conn| |]; [| done..]. destruct (accept_one_fresh now conn reg Hf) as [Hf' Hd]. intros Hrun. destruct (IH _ Hf' Hrun) as (? & ? & Hsub).
  split_and!; [done | done |]. rewrite registered_cons. rewrite Hd in Hsub. clear -Hsub. set_solver.
Qed.

Lemma accept_workers_ends ho expected events reg : fresh reg → Forall is_conn events → expected ≤ size (dom reg ∪ registered events) →
  ∃ reg', accept_workers crc32c ho expected events reg = (reg', Some (Ok ())).
Proof using Type.
  intros Hf Hev. revert reg Hf. induction Hev as [|ev events Hev _ IH]; intros reg Hf Hn; cbn [accept_workers].
  - rewrite bool_decide_true; [by exists reg |]. rewrite active_count_fresh by done. unfold registered in Hn. simpl in Hn. by rewrite union_empty_r_L in Hn.
  - case_bool_decide; [by exists reg |]. destruct ev as [now conn| |]; [| done..].
    destruct (accept_one_fresh now conn reg Hf) as [Hf' Hd]. apply IH; [done |]. rewrite Hd.
    rewrite registered_cons in Hn. by rewrite (union_comm_L (registered [_])), <- union_assoc_L.
Qed.

(** C18: a start-up that succeeds.  Whatever connections arrive, the pipeline
    that is broadcast consists of distinct workers, at least as many as expected
    having registered; its stages cover every layer of the model exactly once,
    no sequence is allocated on it, and the registry's own order of the workers
    is the same.  Each stage is a worker that registered and was not dead: it has
    its range recorded, is ready, and was sent one [RegisterAck] with that range
    and nothing else; no other worker was sent anything. *)
Theorem startup_sound ho c mode expected msl events reg' p :
  (0 ≤ num_layers c)%Z → accept_and_setup_pipeline crc32c ho c mode expected msl events registry_new = (reg', Some (Ok p)) →
  ∃ reg asg, fresh reg ∧ expected ≤ size (dom reg) ∧ dom reg ⊆ registered events ∧
    DistPipeline.order p = la_node_id <$> asg ∧ NoDup (DistPipeline.order p) ∧ total_layers p = num_layers c ∧ allocated_seqs p = ∅ ∧
    partitions 0 (num_layers c) asg ∧ (∀ ho', pipeline_order ho' reg' = DistPipeline.order p) ∧
    (∀ a, a ∈ asg → ∃ e e', reg !! la_node_id a = Some e ∧ reg' !! la_node_id a = Some e' ∧ acked c msl a e e') ∧
    (∀ id, id ∉ DistPipeline.order p →
       (λ e, (Registry.status e, assignment e, writer e)) <$> reg' !! id = (λ e, (Registry.status e, assignment e, writer e)) <$> reg !! id).
Proof using Type.
  intros HL Hrun. unfold accept_and_setup_pipeline in Hrun.
  destruct (accept_workers _ _ _ _ _) as [reg [[[]|e|]|]] eqn:Hacc; try done.
  destruct (accept_workers_Ok _ _ _ _ _ fresh_new Hacc) as (Hf & Hn & Hsub).
  destruct (setup_pipeline _ _ _ _ _ _) as [reg2 r] eqn:Hsetup. injection Hrun as -> ->.
  destruct (setup_pipeline_Ok _ _ _ _ _ _ _ (fresh_idle reg Hf) HL Hsetup) as (asg & Hrest). exists reg, asg.
  unfold registry_new in Hsub. rewrite dom_empty_L, union_empty_l_L in Hsub. done.
Qed.

(** C38: the wait for workers ends as soon as enough of them have registered,
    if accepting does not fail or time out before that ([is_conn]) and every
    accepted connection sends a message or closes (the loop reads the first
    message of each in turn without a time limit, so one that stays open and
    silent blocks it).  Connections that close early, send something else than a
    registration or register an id again are dropped and do not stop it. *)
Theorem acceptance_ends ho expected events : Forall is_conn events → expected ≤ size (registered events) →
  ∃ reg, accept_workers crc32c ho expected events registry_new = (reg, Some (Ok ())) ∧
    expected ≤ size (dom reg) ∧ dom reg ⊆ registered events ∧ fresh reg.
Proof using Type.
  intros Hev Hn.
  destruct (accept_workers_ends ho expected events registry_new fresh_new Hev) as [reg Hrun].
  { unfold registry_new. by rewrite dom_empty_L, union_empty_l_L. }
  destruct (accept_workers_Ok _ _ _ _ _ fresh_new Hrun) as (Hf & Hc & Hsub).
  unfold registry_new in Hsub. rewrite dom_empty_L, union_empty_l_L in Hsub. by exists reg.
Qed.

(** ** Reconnection *)

Lemma register_keyed now caps conn reg : reg_keyed reg → reg_keyed (register now caps conn reg).1.
Proof using Type.
  intros Hk. unfold register. destruct (conn_into_split conn) as [w r].
  destruct (reg !! LayerScheduler.node_id caps) as [e|]; [case_bool_decide; [done |] |];
    (cbn [fst]; intros id e' [[<- <-]|[_ He']]%lookup_insert_Some; [done | by apply Hk]).
Qed.
Lemma alter_keyed (f : WorkerEntry → WorkerEntry) id reg : (∀ e, capabilities (f e) = capabilities e) → reg_keyed reg → reg_keyed (alter f id reg).
Proof using Type. intros Hf Hk id' e [(<- & e0 & He & ->)|[_ He]]%lookup_alter_Some; [rewrite Hf |]; by apply Hk. Qed.

(** A pipeline broadcast after a reconnection covers every layer exactly once, on
    distinct workers, and has no sequence allocated.  An id that was never seen
    gets no pipeline: its worker waits as [Pending]. *)
Theorem reconnect_outcome ho others c mode msl self_addr now conn reg reg' conn' r :
  reg_keyed reg → (∀ k reg, reg_keyed reg → reg_keyed (others k reg)) → (0 ≤ num_layers c)%Z →
  reconnect_one crc32c ho others c mode msl self_addr now conn reg = (reg', conn', r) →
  (∀ p, r = Ok (Some p) → ∃ asg, DistPipeline.order p = la_node_id <$> asg ∧ NoDup (DistPipeline.order p) ∧ total_layers p = num_layers c ∧
     allocated_seqs p = ∅ ∧ partitions 0 (num_layers c) asg) ∧
  (∀ h pl caps rr cur, (conn_recv crc32c conn).2 = Ok (h, pl) → reconnecting (msg_type h) pl = Some (caps, rr, cur) →
     others 0 reg !! LayerScheduler.node_id caps = None → others 1 (others 0 reg) !! LayerScheduler.node_id caps = None →
     r = Ok None ∧ Registry.status <$> reg' !! LayerScheduler.node_id caps = Some Registry.Pending).
Proof using Type.
  intros Hk Hothers HL Hrun. unfold reconnect_one in Hrun. destruct (conn_recv crc32c conn) as [conn1 [[h pl]|e|]]; [| by simplify_eq..]. cbn [snd].
  case_bool_decide as Hwho.
  { injection Hrun as <- <- <-. split; [done |]. intros h' pl' caps rr cur [= <- <-]. by rewrite Hwho. }
  destruct (reconnecting (msg_type h) pl) as [[[caps rr] cur]|] eqn:Hrec; [| simplify_eq; split; [done | intros ????? [= <- <-]; by rewrite Hrec]].
  set (nid := LayerScheduler.node_id caps) in *. split.
  - intros p ->. case_bool_decide; [by destruct (register _ _ _ _) as [? [[]| |]] |].
    assert (reg_keyed (mark_dead nid (others 1 (others 0 reg)))) as Hk1 by (apply alter_keyed; [done | by repeat apply Hothers]).
    pose proof (register_keyed now caps conn1 _ Hk1) as Hk2. destruct (register _ _ _ _) as [reg2 [[]| |]]; [| done..]. cbn [fst] in Hk2.
    case_bool_decide; [done |]. destruct (schedule _) as [res| |] eqn:Hs; [| done..].
    destruct (foldl _ _ _) as [reg3 ok]. destruct (negb ok); [done |]. destruct (pipeline_new _ _) as [p'| |] eqn:Hp; [| done..].
    injection Hrun as _ _ ->. exists (assignments res).
    destruct (scheduled_pipeline ho c mode msl _ res p (Hothers 2 _ Hk2) HL Hs Hp) as (? & ? & ? & ? & Hc & Hne).
    split_and!; try done. by apply contiguous_partitions.
  - intros h' pl' caps' rr' cur' [= <- <-]. rewrite Hrec. intros [= <- <- <-]. fold nid. intros Hn0 Hn1. rewrite bool_decide_true in Hrun by done.
    unfold register in Hrun. fold nid in Hrun. rewrite Hn1 in Hrun. destruct (conn_into_split conn1). injection Hrun as <- _ <-. split; [done |].
    unfold mark_pending. by rewrite alter_insert_eq, lookup_insert_eq.
Qed.
End startup.

(** ** The view of the cluster *)

(** The dashboard lists the workers of the pipeline, in order.  Each is shown as
    active: workers that are connected, draining, pending or dead do not
    appear. *)
Theorem snapshot_shows_pipeline ho now reg c msl : reg_keyed reg →
  let s := build_cluster_snapshot ho now reg c msl in
  Dashboard.wi_address <$> Dashboard.cl_workers s = pipeline_order ho reg ∧ Dashboard.num_workers s = length (pipeline_order ho reg) ∧
  Forall (λ w, Dashboard.wi_status w = "active") (Dashboard.cl_workers s).
Proof.
  intros Hk s.
  assert (∀ n k ids, Forall (λ id, id ∈ pipeline_order ho reg) ids → 
    let ws := omap id (imap (λ i, worker_info now reg n (k + i)) ids) in
    Dashboard.wi_address <$> ws = ids ∧ Forall (λ w, Dashboard.wi_status w = "active") ws) as Hws.
  { intros n k ids Hids. revert k. induction Hids as [|id0 ids Hid _ IH]; intros k; [done |].
    apply elem_of_pipeline_order in Hid as (e & He & Hin); [| done]. cbn [imap]. unfold worker_info at 1 3. rewrite He. cbn.
    destruct (IH (S k)) as [Ha Hs].
    assert (imap ((λ i, worker_info now reg n (k + i)) ∘ S) ids = imap (λ i, worker_info now reg n (S k + i)) ids) as ->.
    { apply imap_ext. intros i x _. unfold compose. by rewrite Nat.add_succ_r. }
    split; [f_equal; [by apply Hk | exact Ha] |]. constructor; [| exact Hs]. cbn.
    unfold in_pipeline in Hin. destruct (Registry.status e); done. }
  unfold s, build_cluster_snapshot. cbn. destruct (Hws (length (pipeline_order ho reg)) 0 (pipeline_order ho reg)) as [Ha Hs].
  { by apply Forall_forall. }
  cbn [Nat.add] in Ha, Hs. split_and!; [exact Ha | | exact Hs].
  apply (f_equal length) in Ha. rewrite length_fmap in Ha. exact Ha.
Qed.

(** The admin view lists every worker of the registry once, in whatever state it
    is, and counts those that wait to join. *)
Theorem admin_lists_all ho ho' s :
  let r := admin_cluster ho ho' s in
  cw_node_id <$> cs_workers r ≡ₚ (map_to_list (ad_registry s)).*1 ∧ NoDup (cw_node_id <$> cs_workers r) ∧
  cs_num_workers r = size (ad_registry s) ∧
  pending_joins r = length (filter (λ w, cw_status w = "Pending") (cs_workers r)).
Proof.
  intros r. assert (cw_node_id <$> cs_workers r = (hm_iter ho (ad_registry s)).*1) as Hids.
  { unfold r, admin_cluster. cbn [cs_workers]. by rewrite <- list_fmap_compose. }
  rewrite Hids. split_and!.
  - unfold hm_iter. by rewrite hash_order_perm.
  - apply NoDup_hm_iter_fst.
  - unfold r, admin_cluster, hm_iter. cbn. rewrite length_fmap, (Permutation_length (hash_order_perm ho _ _)). apply length_map_to_list.
  - unfold r, admin_cluster, pending_workers, hm_iter. cbn [pending_joins cs_workers]. rewrite length_fmap.
    assert (∀ l, length (filter (λ w, cw_status w = "Pending") (cluster_worker <$> l)) = length (filter (λ ke, Registry.status ke.2 = Registry.Pending) l)) as Hf.
    { induction l as [|[k e] l IH]; [done |]. csimpl. destruct (decide (Registry.status e = Registry.Pending)) as [Hp|Hp].
      - rewrite !filter_cons_True; [by f_equal/= | done | cbn; by rewrite Hp].
      - rewrite !filter_cons_False; [done | done | cbn; by destruct (Registry.status e)]. }
    rewrite Hf. apply Permutation_length. by rewrite !hash_order_perm.
Qed.

(** ** Examples and witnesses *)

Module CoordinatorExample.
Import PipelineExample RebalanceExample DistLoopExample.

(** A registration is one byte: worker "a" or "b". *)
Definition payload_of (w : WorkerCapabilities) : RegisterPayload :=
  {| rp_node_id := LayerScheduler.node_id w; rp_gpu_model := gpu_model w; rp_gpu_memory_total := gpu_memory_available w;
     rp_gpu_memory_available := gpu_memory_available w; rp_compute_capability := compute_capability w; rp_decode_ms_per_layer := decode_ms_per_layer w;
     rp_prefill_ms_per_layer_128 := prefill_ms_per_layer_128 w |}.
#[export] Instance register_codec : Bincode RegisterPayload :=
  {| serialize := λ _, Err (Protocol "unused");
     deserialize := λ bs, match bs with [1%Z] => Ok (payload_of LayerExample.wa) | [2%Z] => Ok (payload_of LayerExample.wb) | _ => Err (Protocol "eof") end |}.

Definition conn_of (stream : list Z) : FramedConnection := {| conn_reader := {| r_stream := stream |}; conn_writer := {| w_sent := []; w_open := true |} |}.
Definition joins (k : Z) : Accepted := AcceptConn 0 (conn_of (frame_of PipelineExample.crc (Register, 0%Z, [k]) ++ ready_frame)).
(** A probe that closes at once, another that speaks the wrong protocol, and a
    worker that registers twice. *)
Definition events : list Accepted :=
  [AcceptConn 0 (conn_of []); joins 1; AcceptConn 0 (conn_of (frame_of PipelineExample.crc (Register, 0%Z, [9%Z]))); joins 1; joins 2].

Definition startup := accept_and_setup_pipeline PipelineExample.crc hash_order_id LayerExample.cfg EqualSplit 2 16 events registry_new.

(** One worker that allocates, answers two passes and then fails. *)
Definition shared0 (ls : list (list Z)) : Shared := {| sh_pipeline := pipe1; sh_registry := registry ls; sh_mgr := manager_new |}.
Definition alone (k : nat) (s : Shared) : Shared := s.
Definition generate (max_tokens : nat) (ls : list (list Z)) :=
  distributed_generate PipelineExample.crc noexp alone (λ _ _, f32_zero) in_order 9 [1; 2; 3]%Z max_tokens f32_zero 0 f32_one (shared0 ls).
End CoordinatorExample.
Import CoordinatorExample.

(** The answer says [stop] also when the limit cut the text short. *)
Theorem coordinator_reports_stop :
  (generate 2 [DistLoopExample.logits; DistLoopExample.logits]).2 = Ok [0; 0]%Z ∧
  ∀ crc32c exp `{Bincode ForwardPayload} `{Bincode ForwardResultPayload} `{Bincode ErrorPayload} others random js tk msl locks ts req s s' r,
    coordinator_completions crc32c exp others random js tk msl locks ts req s = (s', Ok (Http.JsonBody r)) →
    Http.ch_finish_reason <$> Http.choices r = [Some "stop"].
Proof.
  split; [vm_compute; reflexivity |]. intros crc32c exp E1 E2 E3 others random js tk msl locks ts req s s' r. unfold coordinator_completions.
  repeat (case_bool_decide; [done |]). destruct (flt _ _); [done |]. destruct (Http.encode _ _); [| done]. case_bool_decide; [done |].
  destruct (distributed_generate _ _ _ _ _ _ _ _ _ _ _ _) as [s1 [toks| |]]; by intros [= <- <-].
Qed.

(** A sequence whose tokens have all been generated is still in the state it was
    created in, so completing it is refused. *)
Theorem generation_not_completed prompt_len max_tokens nodes m m' sid :
  SeqState.create prompt_len max_tokens nodes m = (m', Ok sid) → (SeqState.complete sid m').2 = Err (Prelude.Pipeline "cannot complete").
Proof.
  unfold SeqState.create. destruct (uadd (next_id m) 1); [| done..]. intros [= <- <-]. unfold SeqState.complete, SeqState.get. cbn [sequences].
  by rewrite lookup_insert_eq.
Qed.

Module CoordinatorWitness.
Import PipelineExample RebalanceExample DistLoopExample.

Lemma codec_forward (x : ForwardPayload) : serialize x ≠ Panic.
Proof. done. Qed.

Lemma distributed_generate_witness : ∃ s' r, generate 4 [DistLoopExample.logits; DistLoopExample.logits] = (s', r) ∧ r ≠ Panic ∧
  sequences (sh_mgr s') !! 1%Z = None ∧ 1%Z ∉ allocated_seqs (sh_pipeline s').
Proof.
  destruct (distributed_generate_ends PipelineExample.crc noexp alone (λ _ _, f32_zero) in_order codec_ok codec_forward 9 [1; 2; 3]%Z 4 f32_zero 0 f32_one
              (shared0 [DistLoopExample.logits; DistLoopExample.logits])) as (s' & r & Hrun & Hr & Hm & Hp & _); try done.
  by exists s', r.
Defined.

Lemma startup_sound_witness : ∃ reg' p, startup = (reg', Some (Ok p)) ∧ DistPipeline.order p = ["a"; "b"]%string ∧
  pipeline_order hash_order_rev reg' = ["a"; "b"]%string ∧ total_layers p = 7%Z.
Proof.
  destruct startup as [reg' [[p| |]|]] eqn:Hs; [| exfalso; vm_compute in Hs; discriminate Hs..].
  destruct (startup_sound PipelineExample.crc hash_order_id LayerExample.cfg EqualSplit 2 16 events reg' p)
    as (reg & asg & _ & _ & _ & _ & _ & Ht & _ & _ & Hord & _); [done | exact Hs |].
  assert (DistPipeline.order p = ["a"; "b"]%string) as Ho.
  { assert (option_map (λ r, match r with Ok p => DistPipeline.order p | _ => [] end) startup.2 = Some ["a"; "b"]%string) as Hp by (vm_compute; reflexivity).
    rewrite Hs in Hp. by injection Hp as ->. }
  exists reg', p. split_and!; [done | done | by rewrite Hord | done].
Defined.

Lemma acceptance_ends_witness : ∃ reg, accept_workers PipelineExample.crc hash_order_id 2 events registry_new = (reg, Some (Ok ())) ∧ 2 ≤ size (dom reg).
Proof.
  destruct (acceptance_ends PipelineExample.crc hash_order_id 2 events) as (reg & Hrun & Hn & _).
  - by repeat constructor.
  - vm_compute. lia.
  - by exists reg.
Defined.
End CoordinatorWitness.
