(* ===== verification/EnvConfig.v ===== *)
(** * Configuration files and flags ([crates/fracture-core/src/env_config.rs])

    [KEY=VALUE] files and command-line flags.  A string is the list of its
    Unicode scalar values; the file system is a parameter of [load_config]. *)

From S2P Require Import Prelude.

Local Open Scope Z_scope.

Notation str := (list Z).

(** A literal of the source. *)
Definition chars (s : string) : str := Z.of_nat ∘ Ascii.nat_of_ascii <$> String.list_ascii_of_string s.
Definition HASH : Z := 35.
Definition QUOTE : Z := 34.
Definition EQUALS : Z := 61.
Definition NEWLINE : Z := 10.
Definition RETURN : Z := 13.

(** [char::is_whitespace]: the Unicode property White_Space *)
Definition is_whitespace (c : Z) : bool :=
  ((9 <=? c) && (c <=? 13)) || (c =? 32) || (c =? 0x85) || (c =? 0xA0) || (c =? 0x1680) || ((0x2000 <=? c) && (c <=? 0x200A)) ||
  (c =? 0x2028) || (c =? 0x2029) || (c =? 0x202F) || (c =? 0x205F) || (c =? 0x3000).

(** [str::trim] *)
Fixpoint trim_start (s : str) : str :=
  match s with
  | c :: s' => if is_whitespace c then trim_start s' else s
  | [] => []
  end.
Definition trim_end (s : str) : str := reverse (trim_start (reverse s)).
Definition trim (s : str) : str := trim_end (trim_start s).

(** [str::split_once(c)] *)
Fixpoint split_once (c : Z) (s : str) : option (str * str) :=
  match s with
  | [] => None
  | x :: s' => if x =? c then Some ([], s') else prod_map (cons x) id <$> split_once c s'
  end.

(** [str::lines]: a line ends with a line feed, or a carriage return and one; [acc]
    is the line read so far, backwards. *)
Definition end_line (acc : str) : str := reverse (match acc with c :: acc' => if c =? RETURN then acc' else acc | [] => [] end).
Fixpoint lines_from (acc : str) (s : str) : list str :=
  match s with
  | [] => match acc with [] => [] | _ => [reverse acc] end
  | c :: s' => if c =? NEWLINE then end_line acc :: lines_from [] s' else lines_from (c :: acc) s'
  end.
Definition lines (s : str) : list str := lines_from [] s.

Record FractureConfig := { values : gmap str str }.
Definition config_default : FractureConfig := {| values := ∅ |}.

Definition get (key : str) (cfg : FractureConfig) : option str := values cfg !! key.

(** [args.iter().position(|a| a == flag).and_then(|i| args.get(i + 1))] *)
Definition flag_value (args : list str) (flag : str) : option str :=
  i ← fst <$> list_find (λ a, a = flag) args; args !! (i + 1)%nat.

Definition get_or_flag (key : str) (args : list str) (flag : str) (cfg : FractureConfig) : option str :=
  match get key cfg with Some v => Some v | None => flag_value args flag end.

Definition has_flag (key : str) (args : list str) (flag : str) (cfg : FractureConfig) : bool :=
  match get key cfg with Some v => bool_decide (v = chars "true") || bool_decide (v = chars "1") | None => false end
  || existsb (λ a, bool_decide (a = flag)) args.

(** Stripping the optional quotes of a value. *)
Definition unquote (value : str) : str :=
  if bool_decide (head value = Some QUOTE) && bool_decide (last value = Some QUOTE) && bool_decide (2 ≤ length value)%nat
  then take (length value - 2) (drop 1 value) else value.

(** One line of the file. *)
Definition parse_line (line : str) : option (str * str) :=
  let line := trim line in
  if bool_decide (line = []) || bool_decide (head line = Some HASH) then None
  else prod_map trim (unquote ∘ trim) <$> split_once EQUALS line.

Definition add_line (m : gmap str str) (line : str) : gmap str str :=
  match parse_line line with Some (k, v) => <[k := v]> m | None => m end.

(** [parse_env_file] of the contents of a file *)
Definition parse_env (contents : str) : FractureConfig := {| values := foldl add_line ∅ (lines contents) |}.

(** [load_config]: [exists_] and [read] ask the file system. *)
Definition load_config (exists_ : str → bool) (read : str → option str) (args : list str) : FractureConfig * option str :=
  let path := match flag_value args (chars "--config") with
              | Some p => Some p
              | None => if exists_ (chars "fracture.env") then Some (chars "fracture.env")
                        else if exists_ (chars "/etc/fracture/fracture.env") then Some (chars "/etc/fracture/fracture.env") else None
              end in
  match path with
  | Some p => match read p with Some contents => (parse_env contents, Some p) | None => (config_default, None) end
  | None => (config_default, None)
  end.

(** [arg.strip_prefix("--")] *)
Definition strip_dashes (arg : str) : option str := match arg with 45 :: 45 :: rest => Some rest | _ => None end.

(** [rest.split('=').next()] *)
Definition before_equals (s : str) : str := match split_once EQUALS s with Some (name, _) => name | None => s end.

(** The flag of an argument that is checked against the known ones. *)
Definition checked_flag (arg : str) : option str :=
  if bool_decide (arg = chars "--") then None
  else rest ← strip_dashes arg;
       let name := before_equals rest in
       if bool_decide (name = []) then None else Some name.

Fixpoint first_unknown (known : list str) (args : list str) : option str :=
  match args with
  | [] => None
  | arg :: args' =>
      match checked_flag arg with
      | Some name => if bool_decide (name ∈ known) then first_unknown known args' else Some name
      | None => first_unknown known args'
      end
  end.

(** [validate_known_flags]: the first unknown flag, if there is one. *)
Definition validate_known_flags (args known : list str) : option str := first_unknown known (drop 1 args).

(** ** Files *)

(** A line as a person would write it: a setting, a comment, or nothing. *)
Inductive Entry := Setting (key value : str) | Comment (text : str) | Blank (spaces : str).

Definition write_entry (e : Entry) : str :=
  match e with
  | Setting k v => k ++ [EQUALS; QUOTE] ++ v ++ [QUOTE]
  | Comment t => HASH :: t
  | Blank ws => ws
  end.
Definition write_file (es : list Entry) : str := mjoin ((λ e, write_entry e ++ [NEWLINE]) <$> es).

(** Keys that can be written: on one line, without an equals sign or spaces
    around them, and not taken for a comment. *)
Definition key_ok (k : str) : Prop := trim k = k ∧ EQUALS ∉ k ∧ NEWLINE ∉ k ∧ head k ≠ Some HASH.
Definition entry_ok (e : Entry) : Prop :=
  match e with
  | Setting k v => key_ok k ∧ NEWLINE ∉ v
  | Comment t => NEWLINE ∉ t
  | Blank ws => Forall (λ c, is_whitespace c = true) ws ∧ NEWLINE ∉ ws
  end.

#[export] Instance entry_ok_dec e : Decision (entry_ok e).
Proof. destruct e; unfold entry_ok, key_ok; apply _. Defined.

Definition setting (m : gmap str str) (e : Entry) : gmap str str := match e with Setting k v => <[k := v]> m | _ => m end.

Lemma trim_start_id s : (∀ c, head s = Some c → is_whitespace c = false) → trim_start s = s.
Proof. destruct s as [|c s]; [done |]. intros Hc. simpl. by rewrite Hc. Qed.

Lemma trim_id s : (∀ c, head s = Some c → is_whitespace c = false) → (∀ c, last s = Some c → is_whitespace c = false) → trim s = s.
Proof.
  intros Hh Hl. unfold trim, trim_end. rewrite (trim_start_id s Hh), trim_start_id; [apply reverse_involutive |].
  intros c. rewrite head_reverse. apply Hl.
Qed.

Lemma trim_start_suffix s : trim_start s `suffix_of` s.
Proof. induction s as [|c s IH]; simpl; [done |]. destruct (is_whitespace c); [by apply suffix_cons_r | done]. Qed.

Lemma trim_start_head s c : head (trim_start s) = Some c → is_whitespace c = false.
Proof. induction s as [|x s IH]; simpl; [done |]. destruct (is_whitespace x) eqn:Hx; [apply IH |]. simpl. by intros [= <-]. Qed.

(** A trimmed string starts with no space. *)
Lemma trim_head s c : trim s = s → head s = Some c → is_whitespace c = false.
Proof.
  intros Ht Hc. apply (trim_start_head s). rewrite <- Hc. f_equal.
  destruct (trim_start_suffix s) as [pre Hpre]. destruct pre as [|x pre]; [done |]. exfalso.
  assert (length (trim s) ≤ length (trim_start s))%nat as Hle.
  { unfold trim, trim_end. rewrite length_reverse. destruct (trim_start_suffix (reverse (trim_start s))) as [q Hq].
    apply (f_equal length) in Hq. rewrite length_reverse, length_app in Hq. lia. }
  rewrite Ht in Hle. apply (f_equal length) in Hpre. rewrite length_app in Hpre. simpl in Hpre. lia.
Qed.

Lemma trim_blank s : Forall (λ c, is_whitespace c = true) s → trim s = [].
Proof. intros Hs. unfold trim. assert (trim_start s = []) as ->; [| done]. induction Hs as [|c s Hc _ IH]; [done |]. simpl. by rewrite Hc. Qed.

Lemma split_once_app c k rest : c ∉ k → split_once c (k ++ c :: rest) = Some (k, rest).
Proof.
  intros Hc. induction k as [|x k IH]; simpl; [by rewrite Z.eqb_refl |].
  apply not_elem_of_cons in Hc as [Hne Hc]. rewrite (proj2 (Z.eqb_neq x c)) by done. by rewrite IH.
Qed.

Lemma unquote_quoted v : unquote (QUOTE :: v ++ [QUOTE]) = v.
Proof.
  unfold unquote. rewrite app_comm_cons, last_snoc, length_app. cbn [head length app].
  rewrite !bool_decide_true by (done || lia). cbn [andb drop].
  rewrite drop_0. replace (S (length v) + 1 - 2)%nat with (length v) by lia. apply take_app_length.
Qed.

Lemma lines_from_app acc line rest : NEWLINE ∉ line → lines_from acc (line ++ NEWLINE :: rest) = end_line (reverse line ++ acc) :: lines_from [] rest.
Proof.
  revert acc. induction line as [|c line IH]; intros acc Hn; [done |]. apply not_elem_of_cons in Hn as [Hne Hn]. cbn [app lines_from].
  rewrite (proj2 (Z.eqb_neq c NEWLINE)) by done. rewrite IH, reverse_cons, <- app_assoc by done. done.
Qed.

(** The end of a line is its text, without a carriage return. *)
Lemma end_line_reverse line : end_line (reverse line) = line ∨ end_line (reverse line) ++ [RETURN] = line.
Proof.
  unfold end_line. destruct (reverse line) as [|c acc] eqn:Hr; [left; by rewrite <- Hr, reverse_involutive |].
  destruct (Z.eqb_spec c RETURN) as [->|]; [right | left; by rewrite <- Hr, reverse_involutive].
  rewrite <- reverse_cons, <- Hr. apply reverse_involutive.
Qed.

Lemma parse_setting k v : key_ok k → parse_line (k ++ [EQUALS; QUOTE] ++ v ++ [QUOTE]) = Some (k, v).
Proof.
  intros (Ht & He & _ & Hh). unfold parse_line. rewrite trim_id.
  - rewrite bool_decide_false by (by destruct k). rewrite bool_decide_false by (by destruct k). cbn [orb app].
    rewrite split_once_app by done. cbn [fmap option_fmap option_map prod_map]. unfold compose, prod_map. cbn [fst snd]. rewrite Ht. do 2 f_equal.
    rewrite trim_id, unquote_quoted; [done | by intros c [= <-] |]. intros c. rewrite app_comm_cons, last_snoc. by intros [= <-].
  - intros c Hc. destruct k as [|x k]; [by injection Hc as <- |]. by apply (trim_head (x :: k)).
  - intros c. rewrite !app_assoc, last_snoc. by intros [= <-].
Qed.

Lemma parse_comment t : parse_line (HASH :: t) = None.
Proof.
  unfold parse_line. assert (head (trim (HASH :: t)) = Some HASH) as Hh.
  { unfold trim. cbn [trim_start]. change (is_whitespace HASH) with false. cbn iota. unfold trim_end.
    rewrite head_reverse. rewrite reverse_cons. destruct (trim_start_suffix (reverse t ++ [HASH])) as [pre Hpre].
    assert (trim_start (reverse t ++ [HASH]) ≠ []) as Hne.
    { intros Hn. assert (∀ s, trim_start s = [] → Forall (λ c, is_whitespace c = true) s) as Hall.
      { induction s as [|c s IH]; simpl; [done |]. destruct (is_whitespace c) eqn:Hc; [| done]. intros. constructor; [done | by apply IH]. }
      apply Hall in Hn. apply Forall_app in Hn as [_ Hn]. apply Forall_cons in Hn as [Hn _]. discriminate Hn. }
    apply (f_equal last) in Hpre. rewrite last_snoc, last_app in Hpre.
    destruct (last (trim_start (reverse t ++ [HASH]))) as [c|] eqn:Hl; [by symmetry | by apply last_None in Hl]. }
  rewrite Hh, orb_comm. by rewrite bool_decide_true.
Qed.

Lemma parse_entry m e : entry_ok e → add_line m (end_line (reverse (write_entry e))) = setting m e.
Proof.
  unfold add_line. destruct e as [k v|t|ws]; cbn [write_entry setting entry_ok].
  - intros [Hk _]. assert (end_line (reverse (k ++ [EQUALS; QUOTE] ++ v ++ [QUOTE])) = k ++ [EQUALS; QUOTE] ++ v ++ [QUOTE]) as ->.
    { unfold end_line. rewrite !app_assoc, reverse_snoc. change (QUOTE =? RETURN) with false. cbn iota. by rewrite <- reverse_snoc, reverse_involutive. }
    by rewrite parse_setting.
  - intros _. destruct (end_line_reverse (HASH :: t)) as [->|Hr]; [by rewrite parse_comment |].
    destruct (end_line (reverse (HASH :: t))) as [|c l]; [done |]. injection Hr as -> _. by rewrite parse_comment.
  - intros [Hws _]. assert (Forall (λ c, is_whitespace c = true) (end_line (reverse ws))) as Hall.
    { destruct (end_line_reverse ws) as [->|Hr]; [done |]. rewrite <- Hr in Hws. by apply Forall_app in Hws as [? _]. }
    unfold parse_line. rewrite trim_blank by done. by rewrite bool_decide_true.
Qed.

Lemma entry_one_line e : entry_ok e → NEWLINE ∉ write_entry e.
Proof.
  destruct e as [k v|t|ws]; cbn [entry_ok write_entry].
  - intros [(_ & _ & Hk & _) Hv]. rewrite !not_elem_of_app. split_and!; [done | | done |]; intros Hin; rewrite ?elem_of_cons, ?elem_of_nil in Hin;
      unfold NEWLINE, EQUALS, QUOTE in Hin; naive_solver.
  - intros Ht. apply not_elem_of_cons. by split.
  - by intros [_ ?].
Qed.

(** Where the configuration is looked for: the path after [--config]; without
    one, [fracture.env] in the working directory; without that,
    [/etc/fracture/fracture.env]. *)
Inductive finds (exists_ : str → bool) (args : list str) : str → Prop :=
  | finds_flag p : flag_value args (chars "--config") = Some p → finds exists_ args p
  | finds_local : flag_value args (chars "--config") = None → exists_ (chars "fracture.env") = true → finds exists_ args (chars "fracture.env")
  | finds_system : flag_value args (chars "--config") = None → exists_ (chars "fracture.env") = false →
      exists_ (chars "/etc/fracture/fracture.env") = true → finds exists_ args (chars "/etc/fracture/fracture.env").

Lemma load_config_finds exists_ read args p contents : finds exists_ args p → read p = Some contents →
  load_config exists_ read args = (parse_env contents, Some p).
Proof. intros [p' Hf|Hf He|Hf Hl He] Hr; unfold load_config; rewrite Hf, ?He, ?Hl, ?He, Hr; done. Qed.

Lemma load_config_none exists_ read args : (∀ p, ¬ finds exists_ args p) → load_config exists_ read args = (config_default, None).
Proof.
  intros Hn. unfold load_config. destruct (flag_value _ _) as [p|] eqn:Hf; [by destruct (Hn p); constructor |].
  destruct (exists_ (chars "fracture.env")) eqn:Hl; [by destruct (Hn (chars "fracture.env")); constructor |].
  destruct (exists_ (chars "/etc/fracture/fracture.env")) eqn:He; [by destruct (Hn (chars "/etc/fracture/fracture.env")); constructor | done].
Qed.


(** ** Flags *)

(** The first argument that names an unknown flag is reported; values and
    positional arguments are not looked at. *)
Theorem validate_reports_first args known name :
  validate_known_flags args known = Some name ↔
  ∃ pre arg post, drop 1 args = pre ++ arg :: post ∧ checked_flag arg = Some name ∧ name ∉ known ∧
    Forall (λ a, ∀ n, checked_flag a = Some n → n ∈ known) pre.
Proof.
  unfold validate_known_flags. generalize (drop 1 args) as l. induction l as [|a l IH]; cbn [first_unknown].
  { split; [done |]. by intros ([|] & ? & ? & ? & _). }
  split.
  - destruct (checked_flag a) as [n|] eqn:Ha; [case_bool_decide as Hn |].
    + intros (pre & arg & post & -> & ? & ? & ?)%IH. exists (a :: pre), arg, post. split_and!; try done. constructor; [| done]. intros n'. rewrite Ha. by intros [= <-].
    + intros [= <-]. exists [], a, l. by split_and!.
    + intros (pre & arg & post & -> & ? & ? & ?)%IH. exists (a :: pre), arg, post. split_and!; try done. constructor; [| done]. by rewrite Ha.
  - intros ([|b pre] & arg & post & [= -> ->] & Harg & Hn & Hpre).
    + rewrite Harg. by rewrite bool_decide_false.
    + apply Forall_cons in Hpre as [Hb Hpre]. assert (first_unknown known (pre ++ arg :: post) = Some name) as Hrest by (apply IH; by exists pre, arg, post).
      destruct (checked_flag b) as [n|]; [rewrite bool_decide_true by (by apply Hb) |]; done.
Qed.

(** A value of the file wins over the flag on the command line. *)
Theorem file_beats_flag key args flag cfg v : get key cfg = Some v → get_or_flag key args flag cfg = Some v.
Proof. intros Hv. unfold get_or_flag. by rewrite Hv. Qed.

(** The form [--flag=value] passes the validation and is then ignored. *)
Theorem equals_form_ignored :
  let args := [chars "bin"; chars "--model=x.gguf"] in
  validate_known_flags args [chars "model"] = None ∧ get_or_flag (chars "FRACTURE_MODEL") args (chars "--model") config_default = None.
Proof. vm_compute. done. Qed.

(** A file named on the command line that cannot be read is passed over in
    silence, and no other file is tried. *)
Theorem unreadable_config_ignored exists_ read args p :
  flag_value args (chars "--config") = Some p → read p = None → load_config exists_ read args = (config_default, None).
Proof. intros Hp Hr. unfold load_config. by rewrite Hp, Hr. Qed.

Module EnvConfigWitness.
Definition file : list Entry :=
  [Comment (chars " cluster"); Setting (chars "FRACTURE_LISTEN") (chars "0.0.0.0:9400"); Blank []; Setting (chars "NOTE") (chars " a = b ")].

Definition written : gmap str str := <[chars "NOTE" := chars " a = b "]> {[chars "FRACTURE_LISTEN" := chars "0.0.0.0:9400"]}.
Definition read_all : str → option str := λ _, Some (write_file file).

End EnvConfigWitness.
